(* ===== verification/_CoqProject ===== *)
-Q . S2P
Prelude.v
Client.v
CMem.v
MemHeap.v
MemHeapInv.v
MemHeapAlloc.v
MemHeapFree.v
MemHeapCreate.v
MemHeapFacts.v
MemHeapProps.v
MemHeapStore.v
Alloc.v
RingBuf.v
RingBufProps.v
DList.v
TklMutex.v
Queue.v
QueueProps.v
Tools.v
ToolsProps.v
HList.v
HashMap.v
HashMapProps.v
Gpio.v
GpioProps.v
TklFs.v
TklDir.v
TklFlash.v
TklOta.v
TklQueue.v
TklQueueProps.v
SList.v
TklMemory.v
TklSemaphore.v
SmartPtr.v
TklPwm.v
TklPwmProps.v
BusTable.v
TklI2c.v
TklI2cProps.v
TklSpi.v
TklSpiProps.v
WpaParse.v
WpaScan.v
WpaCommand.v
WpaCommandProps.v
WpaSocket.v
WpaSocketProps.v
TklCamera.v
TklCameraProps.v
TklThread.v
TklVad.v
TklVadProps.v
TklKws.v
TklWired.v
TklSystem.v
TklUart.v
TklUartProps.v
TklUartRedirect.v
TklUartRedirectProps.v
LinuxWifi.v
LinuxWifiProps.v
LinuxWifiScan.v
TklWifi.v
TklWifiProps.v
TklBt.v
TklBtProps.v
TklBtAdv.v
TklJpeg.v
TklJpegProps.v
