(* ===== verification/Prelude.v ===== *)
(** * TuyaOpen-ubuntu adapter: a verification library

    The repository adapts the TuyaOpen framework to Ubuntu and other Linux systems.
    Its own logic is C code under [src/tuyaos_adapter]: containers and an allocator in
    [include/utilities], and the TKL layer in [src], which gives the framework
    memory, threads and their synchronisation, files, flash, firmware update,
    peripherals, network interfaces, Bluetooth, camera, pictures and voice input on top of
    POSIX and the device files of Linux.  This library models that code as
    executable functions and proves what makes it correct.

    ** How the parts interact

    [tuya_mem_heap.c] is the allocator; [tkl_memory.c] makes one heap of it for the
    process.  Every container and most TKL objects are allocations of [tkl_memory.c].
    [tuya_queue.c] is built on [tuya_list.c] and [tkl_mutex.c], [tuya_hashmap.c] on the
    chains of [tuya_hlist.h], [tuya_smartpointer.c] on [tkl_mutex.c]; [tkl_flash.c] and
    [tkl_ota.c] keep their data in files through [tkl_fs.c].  The peripherals
    ([tkl_gpio.c], [tkl_pwm.c], [tkl_i2c.c], [tkl_spi.c], [tkl_uart.c]) have a static
    table each and the Linux kernel below.  The camera and the voice input run threads
    that move buffers between a device, the heap and a callback; [tkl_kws.c] puts the
    ring buffer in between.  [tkl_wired.c] and [tkl_wifi.c] watch an interface and report
    changes.  [tkl_wifi.c] is built on [linux_wifi.c], which drives the interface and the
    programs around it, and on [wpa_command.c], which talks to wpa_supplicant over its
    control socket ([wpa_ctrl.c]), in commands and answers of text.  [tkl_bluetooth.c] has a GATT server
    and advertising on BlueZ and the controller; [tkl_jpeg_codec.c] decodes pictures with
    libjpeg.

    ** How code is modelled

    A C function is a Rocq function into the monad [M] of this file: it returns a value
    and the new state, commits an access that C leaves undefined ([Fault]), or runs out
    of the fuel of a loop ([Diverge]).  [wp c Q s] is total correctness: [c] returns from
    [s], with [Q].  Every theorem about an operation is a [wp], so it also says that
    nothing is read or written out of bounds and that loops end.  Integers are [Z] with
    the wrap-around of their C type written out ([wrap], [swrap]); pointers are
    addresses; return codes are the constructors of [OPERATE_RET], since the header that
    numbers them is generated outside the repository.  Targets are LP64.

    Code that is not in the repository is a parameter with its documented behaviour as
    laws of a class: the GPIO character device ([GpioKernel]), the PWM files of sysfs
    ([PwmSysfs]), the I2C and SPI devices ([I2cDev], [SpiDev]), terminals ([Tty], and
    [Console] for the build that uses the console and UDP), video devices ([V4l2]), libjpeg
    ([Jpeg]), the speech and keyword libraries ([Speech], [KwsModule]), network
    interfaces ([Ifaces], and [Linux] for the wireless ones, with the files and programs
    around them), BlueZ and the HCI library ([Bluez]), the directories of the C library
    ([Dirs]), the random source ([Entropy]), sockets of the Unix
    domain ([Sockets]), the results of pthread calls ([pthread_env]).  The control interface of
    wpa_supplicant is a class too ([WpaCtrl]), against which the commands are proved; its
    laws are theorems about [wpa_ctrl.c].  Names that
    the build chooses are the class [WifiBuild].  Each has an instance that witnesses and
    evaluations use.

    ** Files

    - [Prelude]: machine integers, return codes, the monad, automation.
    - [CMem]: byte-addressed memory with little-endian words.
    - [MemHeap] is [tuya_mem_heap.c] over that memory; [MemHeapInv] the layout of a heap
      and its invariant; [MemHeapAlloc], [MemHeapFree], [MemHeapCreate] the proofs that
      the code keeps it; [MemHeapFacts], [MemHeapProps] the properties of the interface;
      [MemHeapStore] the refinement of a store of disjoint objects.
    - [Alloc]: the class [Allocator], what clients rely on, with the heap as an instance,
      and the objects of a client ([owned]).  The containers are proved against the
      class only.  [TklMemory] ([tkl_memory.c]) is the other instance.
    - [RingBuf], [RingBufProps] ([tuya_ringbuf.c]); [DList] ([tuya_list.c]); [SList]
      ([tuya_slist.h]); [HList] ([tuya_hlist.h]); [HashMap], [HashMapProps]
      ([tuya_hashmap.c]); [Queue], [QueueProps] ([tuya_queue.c]); [SmartPtr]
      ([tuya_smartpointer.c]); [Tools], [ToolsProps] ([tuya_tools.c]).
    - [TklMutex] ([tkl_mutex.c]), [TklSemaphore] ([tkl_semaphore.c]), [TklQueue] and
      [TklQueueProps] ([tkl_queue.c]): operations that block are split where they wait,
      so that the interleavings of threads are sequences of their parts.
    - [TklFs] and [TklDir] ([tkl_fs.c], with the C streams it uses), [TklFlash]
      ([tkl_flash.c]), [TklOta] ([tkl_ota.c]).
    - [Gpio], [GpioProps] ([tkl_gpio.c]); [TklPwm], [TklPwmProps] ([tkl_pwm.c]);
      [BusTable], the frame of [TklI2c], [TklI2cProps] ([tkl_i2c.c]) and [TklSpi],
      [TklSpiProps] ([tkl_spi.c]).
    - [WpaParse] (lines, and the string functions of the C library), [WpaScan] (scan
      results), [WpaCommand] and [WpaCommandProps] (the commands): [wpa_command.c].
      [WpaSocket], [WpaSocketProps]: [wpa_ctrl.c] and the event monitor of [wpa_command.c],
      with the instance of [WpaCtrl] and the two components put together.
    - [Client]: runs of a client that chooses each call after the results before, and
      what it means that they refine an abstract machine.  [TklCamera], [TklCameraProps]
      ([tkl_camera_v4l2.c]); [TklThread] ([tkl_thread.c]); [TklVad], [TklVadProps]
      ([tkl_vad.c]); [TklKws] ([tkl_kws.c]); [TklUart], [TklUartProps] ([tkl_uart.c]) and
      [TklUartRedirect], [TklUartRedirectProps] (its build for the console).
    - [TklWired] ([tkl_wired.c]); [TklSystem] ([tkl_system.c]).
    - [LinuxWifi], [LinuxWifiProps], [LinuxWifiScan] ([linux_wifi.c]); [TklWifi],
      [TklWifiProps] ([tkl_wifi.c]).
    - [TklBt] ([tkl_bt]: [tkl_bluetooth.c], [bt_dbus_api.c], [bt_hci_adv_api.c]), with the
      handles of characteristics in [TklBtProps] and advertising in [TklBtAdv].
    - [TklJpeg], [TklJpegProps] ([tkl_jpeg_codec.c]).

    Names of functions, types and constants are those of the sources.

    ** What the theorems show

    - Memory: the heap refines a store of disjoint byte arrays for every client that
      follows the rules of malloc and free ([heap_refines_store]), also through
      [tkl_memory.c] from the first allocation of a process on
      ([tkl_memory_refines_store]); [malloc], [free], [calloc], [realloc], creation and
      the self-check one by one, with double free, wrap-around and false alarms.
    - Containers: sequences of calls on ring buffers, queues and hash maps give the
      results of bounded byte queues, bounded double-ended queues and multimaps, and
      release everything they allocate; lists and chains are lists of nodes;
      reference counts keep data exactly as long as a reference is left
      ([smartpointer_counts]); the tables of the hash are the CRC they are named after
      ([hashmap_crc_correct]); hexadecimal round trip, sorting and
      comparison of the tools.
    - Threads: for every interleaving, timeout and signal, the message queue is a
      bounded FIFO channel and the semaphore a counter; deadlines are exact.  Every
      thread calls the function it was created for, once, unless its handle is released
      before it starts ([threads_run_their_functions]).
    - Storage: what is written to the flash is read back, its partitions are disjoint,
      and a download leaves exactly the image; files are read line by line and directories
      entry by entry, completely and in order ([fgets_reads_all], [directory_listed]).
    - Peripherals: GPIO descriptors stay consistent, and an interrupt is handled with the
      settings that its thread read before it began to wait ([gpio_irq_settings_of_wait]); PWM channels run as recorded; I2C,
      SPI and UART ports complete exactly the transactions the calls ask for; the bytes of
      datagrams reach the application of the console build in order
      ([udp_bytes_in_order]); random numbers stay in their range.
    - Camera and voice: frames come from the mapped buffers and every buffer, mapping and
      descriptor is given back ([camera_refines_buffers]); the voice input hands over
      what the echo canceller makes of whole frames ([vad_refines_buffers]) and starves
      when a buffer is never full ([vad_starves]); keyword spotting gets the samples in
      order, in whole chunks ([kws_chunks_in_order]).  A picture is decoded to its rows,
      packed as asked for, with libjpeg released on every path ([jpeg_convert_correct]).
    - Networks: the events are the changes of the status of the wired link
      ([wired_reports_changes]) and of the station ([wifi_events_follow_status]), which
      is computed from the mode, the supplicant, the name and the address.  A station is
      connected through a running supplicant or by starting one
      ([station_connect_correct]); joining sends its commands in order, with the right
      numbers and within the buffers, up to the first refusal
      ([join_network_conversation]), also over the sockets of [wpa_ctrl.c], where every
      connection is given back ([join_over_sockets]) and a request gets the first message
      that is no event ([wpa_request_correct]); an access point gets its two configurations and
      programs in order ([start_ap_correct]); a scan yields the strongest access point of
      each network ([scan_results_correct]) or the networks as the card found them
      ([wifi_scan_ap_correct]); frames survive the radiotap header
      ([radiotap_roundtrip]).
    - Bluetooth: the handles of characteristics and where notifications for them go
      ([gatt_notify_target]); advertising structures are understood as they were written
      ([adv_data_parsed]) or sent in one block of the controller ([hci_data_request]).
    - Where the code does not do what it means to, a theorem says what it does: a
      removal of an absent key deletes another element, a copied reference-counted
      object is released wrongly, raising a PWM frequency stops the channel, a stale
      deferred I2C write is sent again, a hidden network takes the name of another,
      joining with a key of WEP length reads a dead array, a scan never ends when a
      network has no address, a notification goes to another service, a name read back from
      the configuration has quotation marks and can overflow its array, the end of an event
      is read as part of an answer, and others.

    ** Fuel and bounds

    Loops over memory and links take fuel from the state (the number of mapped nodes or
    bytes), from the length of a text, or from a constant of the code (the 50 polls of a
    PWM export, the timeout of a scan, the 50 waits for the supplicant), or from the
    patience of the caller where the code retries without a bound (interrupted requests
    of the camera, the random source), or from the messages that come before a pause (the
    control socket); the theorems show that it is enough, since a [wp] excludes [Diverge], or
    that no fuel is.  Hypotheses on sizes are the ranges of the C types, or buffers having the
    bytes the caller claims.

    ** Not modelled

    The stubs [tkl_rtc.c], [tkl_pinmux.c], [tkl_watchdog.c], [tkl_output.c], [tuyaopen_license.c]: one call of
    the C library each, or a constant.  The modes of opening a file that nothing uses.
    The vendored wpa_cli, of which only [wpa_ctrl.c] is used, and there only the variant for
    sockets of the Unix domain; [wpa_cli_wrapper.c], which needs a header that is not in the
    repository; the vendored wireless tools and BlueZ bindings; the functions of
    [tkl_bluetooth.c] that only print their name; vector mathematics in floating point
    ([mvec_impl.c]), tables of function pointers ([tkl_init]), headers of display and sound
    libraries.  The variants of the utilities without an operating system and the protected
    flash partition are not compiled on Linux.  Two threads inside one call of a TKL function
    are interleaved only where the code waits; a turn of the loop of a polling thread is one
    step, or two when it waits without a time limit (the interrupt thread of a GPIO pin).  What is left of the adapter's own code is calls of the C library and of
    floating-point functions one by one, of which there is nothing to state. *)

From Stdlib Require Export ZArith Lia.
From stdpp Require Export base numbers option gmap list.

Declare Scope tuya_scope.
Delimit Scope tuya_scope with tuya.
Open Scope tuya_scope.
Open Scope Z_scope.

(** ** Machine integers

    C integers are integers [Z] kept in range by explicit wrapping.  [wrap w x]
    is the conversion to an unsigned type of [w] bits; [swrap w x] the
    conversion to the signed two's-complement type of the same width. *)

Definition wrap (w x : Z) : Z := x mod 2 ^ w.
Definition swrap (w x : Z) : Z := (x + 2 ^ (w - 1)) mod 2 ^ w - 2 ^ (w - 1).

#[global] Arguments wrap : simpl never.
#[global] Arguments swrap : simpl never.

Abbreviation u8 := (wrap 8).
Abbreviation u16 := (wrap 16).
Abbreviation u32 := (wrap 32).
Abbreviation u64 := (wrap 64).
Abbreviation s32 := (swrap 32).

Lemma wrap_range w x : 0 <= w -> 0 <= wrap w x < 2 ^ w.
Proof. intros Hw. apply Z.mod_pos_bound. lia. Qed.

Lemma wrap_small w x : 0 <= x < 2 ^ w -> wrap w x = x.
Proof. apply Z.mod_small. Qed.

Lemma wrap_wrap w x : wrap w (wrap w x) = wrap w x.
Proof. unfold wrap. destruct (decide (2 ^ w = 0)) as [->|]; [by rewrite !Z.mod_0_r|]. by apply Z.mod_mod. Qed.

Lemma swrap_bounds w x : 0 < w -> - 2 ^ (w - 1) <= swrap w x < 2 ^ (w - 1).
Proof.
  intros Hw. unfold swrap. pose proof (Z.mod_pos_bound (x + 2 ^ (w - 1)) (2 ^ w) ltac:(apply Z.pow_pos_nonneg; lia)).
  assert (2 ^ w = 2 * 2 ^ (w - 1)) by (rewrite <-Z.pow_succ_r by lia; f_equal; lia). lia.
Qed.

Lemma swrap_small w x : 0 < w -> - 2 ^ (w - 1) <= x < 2 ^ (w - 1) -> swrap w x = x.
Proof.
  intros Hw Hx. unfold swrap.
  assert (2 ^ w = 2 * 2 ^ (w - 1)) as E.
  { rewrite <-Z.pow_succ_r by lia. f_equal. lia. }
  rewrite Z.mod_small; lia.
Qed.

(** The three widths used everywhere, with the bound as a literal so that [lia]
    can use it. *)
Lemma u8_small x : 0 <= x < 256 -> u8 x = x.
Proof. apply (wrap_small 8). Qed.
Lemma u32_small x : 0 <= x < 4294967296 -> u32 x = x.
Proof. apply (wrap_small 32). Qed.
Lemma u64_small x : 0 <= x < 18446744073709551616 -> u64 x = x.
Proof. apply (wrap_small 64). Qed.
Lemma u32_range x : 0 <= u32 x < 4294967296.
Proof. apply (wrap_range 32). lia. Qed.
Lemma u64_range x : 0 <= u64 x < 18446744073709551616.
Proof. apply (wrap_range 64). lia. Qed.
Lemma u8_range x : 0 <= u8 x < 256.
Proof. apply (wrap_range 8). lia. Qed.

Create HintDb tuya.

(** ** Return codes

    [tuya_error_code.h] is generated outside the repository, so only the names
    of the codes the sources mention are modelled, not their numeric values. *)

Inductive OPERATE_RET :=
| OPRT_OK
| OPRT_COM_ERROR
| OPRT_INVALID_PARM
| OPRT_MALLOC_FAILED
| OPRT_NOT_SUPPORTED
| OPRT_NOT_FOUND
| OPRT_EXCEED_UPPER_LIMIT
| OPRT_RESOURCE_NOT_READY
| OPRT_TIMEOUT
| OPRT_SOCK_ERR
| OPRT_RECV_ERR
| OPRT_OS_ADAPTER_THRD_CREAT_FAILED
| OPRT_FILE_OPEN_FAILED
| OPRT_FILE_READ_FAILED
| OPRT_FILE_WRITE_FAILED
| OPRT_OS_ADAPTER_QUEUE_CREAT_FAILED
| OPRT_OS_ADAPTER_QUEUE_SEND_FAIL
| OPRT_OS_ADAPTER_QUEUE_RECV_FAIL
| OPRT_OS_ADAPTER_MUTEX_CREAT_FAILED
| OPRT_OS_ADAPTER_MUTEX_LOCK_FAILED
| OPRT_OS_ADAPTER_MUTEX_UNLOCK_FAILED
| OPRT_OS_ADAPTER_MUTEX_RELEASE_FAILED
| OPRT_OS_ADAPTER_SEM_WAIT_FAILED
| OPRT_OS_ADAPTER_SEM_POST_FAILED
| OPRT_OS_ADAPTER_SEM_RELEASE_FAILED.

#[export] Instance OPERATE_RET_eq_dec : EqDecision OPERATE_RET.
Proof. solve_decision. Defined.

(** ** Stateful C code

    A statement is a function from the state it may change to an [outcome]: it
    returns a value and a new state, or it commits an access that C leaves
    undefined ([Fault]: an unmapped address, a call through a null function
    pointer), or it has used up the fuel of a loop ([Diverge]).  Theorems are
    stated for total correctness with [wp]: the statement returns. *)

Inductive outcome (S A : Type) :=
| Ret (a : A) (s : S)
| Fault
| Diverge.
Arguments Ret {S A} a s.
Arguments Fault {S A}.
Arguments Diverge {S A}.

Definition M (S A : Type) : Type := S -> outcome S A.

Section Monad.
Context {S : Type}.

Definition ret {A} (a : A) : M S A := fun s => Ret a s.
Definition bind {A B} (c : M S A) (k : A -> M S B) : M S B := fun s =>
  match c s with
  | Ret a s' => k a s'
  | Fault => Fault
  | Diverge => Diverge
  end.
Definition fault {A} : M S A := fun _ => Fault.
Definition out_of_fuel {A} : M S A := fun _ => Diverge.
Definition gets {A} (f : S -> A) : M S A := fun s => Ret (f s) s.
Definition modify (f : S -> S) : M S unit := fun s => Ret tt (f s).
Definition when (b : bool) (c : M S unit) : M S unit := if b then c else ret tt.

(** [wp c Q s]: from [s], [c] returns, and its result and final state are in [Q]. *)
Definition wp {A} (c : M S A) (Q : A -> S -> Prop) (s : S) : Prop :=
  match c s with
  | Ret a s' => Q a s'
  | _ => False
  end.

Lemma wp_ret {A} (a : A) Q s : Q a s -> wp (ret a) Q s.
Proof. done. Qed.

Lemma wp_bind {A B} (c : M S A) (k : A -> M S B) Q s :
  wp c (fun a => wp (k a) Q) s -> wp (bind c k) Q s.
Proof. unfold wp, bind. by destruct (c s). Qed.

Lemma wp_mono {A} (c : M S A) (P Q : A -> S -> Prop) s :
  wp c P s -> (forall a s', P a s' -> Q a s') -> wp c Q s.
Proof. unfold wp. destruct (c s); naive_solver. Qed.

Lemma wp_gets {A} (f : S -> A) Q s : Q (f s) s -> wp (gets f) Q s.
Proof. done. Qed.

Lemma wp_modify f Q s : Q tt (f s) -> wp (modify f) Q s.
Proof. done. Qed.

Lemma wp_when (b : bool) (c : M S unit) Q s :
  (b = true -> wp c Q s) -> (b = false -> Q tt s) -> wp (when b c) Q s.
Proof. intros Ht Hf. destruct b; [by apply Ht | by apply wp_ret, Hf]. Qed.

Lemma wp_run {A} (c : M S A) Q s : wp c Q s <-> exists a s', c s = Ret a s' /\ Q a s'.
Proof.
  unfold wp. destruct (c s) as [a s'| |]; split; try done.
  - intros HQ. by exists a, s'.
  - by intros (? & ? & [= <- <-] & HQ).
  - by intros (? & ? & ? & ?).
  - by intros (? & ? & ? & ?).
Qed.

(** Statements that only look at the state. *)
Definition readonly {A} (c : M S A) : Prop := forall s, match c s with Ret _ s' => s' = s | _ => True end.

Lemma readonly_ret {A} (a : A) : readonly (ret a).
Proof. done. Qed.
Lemma readonly_fault {A} : readonly (A := A) fault.
Proof. done. Qed.
Lemma readonly_out_of_fuel {A} : readonly (A := A) out_of_fuel.
Proof. done. Qed.
Lemma readonly_bind {A B} (c : M S A) (k : A -> M S B) : readonly c -> (forall a, readonly (k a)) -> readonly (bind c k).
Proof. intros Hc Hk s. unfold bind. specialize (Hc s). destruct (c s) as [a s'| |]; [|done|done]. subst s'. apply Hk. Qed.
Lemma wp_readonly {A} (c : M S A) Q s : readonly c -> wp c Q s -> wp c (fun a s' => Q a s' /\ s' = s) s.
Proof. intros Hc. unfold wp. specialize (Hc s). destruct (c s); naive_solver. Qed.
End Monad.

#[export] Hint Resolve readonly_ret readonly_fault readonly_out_of_fuel : tuya.

(** Structural proof that a statement is [readonly]; calls are resolved from [tuya]. *)
Ltac solve_readonly :=
  repeat first
    [ progress intros
    | solve [eauto with tuya]
    | apply readonly_bind
    | case_match ].

Arguments M : clear implicits.

Notation "x <- c ;; k" := (bind c (fun x => k))
  (at level 100, c at next level, right associativity) : tuya_scope.
Notation "c ;;; k" := (bind c (fun _ : unit => k))
  (at level 100, right associativity) : tuya_scope.

(** ** Lists *)

(** Something above all of a list. *)
Definition above (l : list Z) : Z := 1 + foldr Z.max 0 l.
Lemma above_max l x : x ∈ l -> x <= foldr Z.max 0 l.
Proof. induction 1; cbn; lia. Qed.
Lemma above_new l : 0 < above l /\ above l ∉ l.
Proof. unfold above. split; [induction l; cbn; lia|]. intros H%above_max. lia. Qed.
Lemma above_fresh (X : gset Z) : above (elements X) ∉ X /\ above (elements X) <> 0 /\ 0 <= above (elements X).
Proof. destruct (above_new (elements X)) as [H1 H2]. rewrite elem_of_elements in H2. split; [done|lia]. Qed.

(** The elements that differ from the one before; [last] is before the first. *)
Fixpoint changes {A} `{EqDecision A} (last : option A) (l : list A) : list A :=
  match l with [] => [] | x :: l => if decide (last = Some x) then changes last l else x :: changes (Some x) l end.

Lemma list_eq_total {A} `{!Inhabited A} (l k : list A) :
  length l = length k -> (forall i, (i < length l)%nat -> l !!! i = k !!! i) -> l = k.
Proof.
  intros El Hi. apply list_eq. intros i. destruct (decide (i < length l)%nat) as [Hlt|Hge].
  - rewrite !list_lookup_lookup_total_lt by lia. f_equal. by apply Hi.
  - rewrite !(proj2 (lookup_ge_None _ _)) by lia. done.
Qed.

(** ** Automation *)

(** Turn boolean comparisons of hypotheses into arithmetic and case on the ones
    of the goal. *)
Ltac zbool :=
  repeat match goal with
  | H : (_ && _)%bool = true |- _ => apply andb_prop in H as [? ?]
  | H : (_ || _)%bool = false |- _ => apply orb_false_elim in H as [? ?]
  | H : negb _ = true |- _ => apply negb_true_iff in H
  | H : negb _ = false |- _ => apply negb_false_iff in H
  | H : (_ <? _) = true |- _ => apply Z.ltb_lt in H
  | H : (_ <? _) = false |- _ => apply Z.ltb_ge in H
  | H : (_ <=? _) = true |- _ => apply Z.leb_le in H
  | H : (_ <=? _) = false |- _ => apply Z.leb_gt in H
  | H : (_ =? _) = true |- _ => apply Z.eqb_eq in H
  | H : (_ =? _) = false |- _ => apply Z.eqb_neq in H
  end.

Ltac zcase :=
  match goal with
  | |- context [if ?b then _ else _] => destruct b eqn:?; zbool
  end.

(** One step of symbolic execution of a [wp] goal. *)
Ltac wp_step :=
  lazymatch goal with
  | |- wp (bind _ _) _ _ => apply wp_bind
  | |- wp (ret _) _ _ => apply wp_ret
  | |- wp (gets _) _ _ => apply wp_gets
  | |- wp (modify _) _ _ => apply wp_modify
  end; cbn beta iota.
