(* ===== verification/Client.v ===== *)
(** * Clients of an interface

    A client calls operations one after the other and chooses each from the results of
    the ones before.  When every operation that the rules allow does a step of an
    abstract machine, every client that follows the rules runs to its end, and its
    history is one of the abstract machine. *)

From S2P Require Import Prelude.

Inductive client (Op Res : Type) := Stop | Call (o : Op) (k : Res -> client Op Res).
Arguments Stop {Op Res}. Arguments Call {Op Res}.

Section Client.
Context {St Abs Op Res : Type}.
Variable exec_op : Op -> M St Res.
Variable astep : Abs -> Op -> Res -> Abs -> Prop.
Variable allowed : Abs -> Op -> Prop.

(** The client follows the rules whatever the results. *)
Fixpoint follows (a : Abs) (c : client Op Res) : Prop :=
  match c with
  | Stop => True
  | Call o k => allowed a o /\ forall r a', astep a o r a' -> follows a' (k r)
  end.

(** The operations with their results. *)
Fixpoint exec (c : client Op Res) : M St (list (Op * Res)) :=
  match c with
  | Stop => ret []
  | Call o k => r <- exec_op o ;; h <- exec (k r) ;; ret ((o, r) :: h)
  end.

Inductive runs : Abs -> list (Op * Res) -> Abs -> Prop :=
| runs_nil a : runs a [] a
| runs_cons a o r a1 h a2 : astep a o r a1 -> runs a1 h a2 -> runs a ((o, r) :: h) a2.

(** The calls of a client in a history are those the client makes. *)
Fixpoint history_of (c : client Op Res) (h : list (Op * Res)) : Prop :=
  match c, h with
  | Stop, [] => True
  | Call o k, (o', r) :: h => o' = o /\ history_of (k r) h
  | _, _ => False
  end.

Variable rep : Abs -> St -> Prop.
Hypothesis simulation : forall a o s, rep a s -> allowed a o -> wp (exec_op o) (fun r s' => exists a', astep a o r a' /\ rep a' s') s.

Lemma client_refines c a s : rep a s -> follows a c ->
  wp (exec c) (fun h s' => exists a', history_of c h /\ runs a h a' /\ rep a' s') s.
Proof.
  revert a s. induction c as [|o k IH]; intros a s Hrep Hf; cbn [exec].
  - apply wp_ret. exists a. split; [done|]. split; [constructor|done].
  - destruct Hf as [Hal Hk]. apply wp_bind. eapply wp_mono; [by apply simulation|]. cbv beta. intros r s1 (a1 & Hs & Hr). apply wp_bind. eapply wp_mono; [apply (IH r a1); [done|by apply Hk]|]. cbv beta.
    intros h s2 (a2 & Hh & Hruns & Hr2). apply wp_ret. exists a2. split; [done|]. split; [by econstructor|done].
Qed.
End Client.
