(* ===== verification/CMem.v ===== *)
(** * Byte-addressed C memory

    The memory of the process as a finite map from addresses to bytes: an
    address outside the map is not mapped, and reading or writing it is a fault.
    [unsigned long] objects are eight little-endian bytes (LP64 targets: x86-64
    and AArch64, the ones the build files name). *)

From S2P Require Import Prelude.

Abbreviation mem := (gmap Z Z).

Definition load8 (m : mem) (a : Z) : option Z := m !! a.
Definition st8 (m : mem) (a v : Z) : mem := <[a := u8 v]> m.

Fixpoint load_le (n : nat) (m : mem) (a : Z) : option Z :=
  match n with
  | O => Some 0
  | S n' => b ← m !! a; r ← load_le n' m (a + 1); Some (b + 256 * r)
  end.

Fixpoint st_le (n : nat) (m : mem) (a v : Z) : mem :=
  match n with
  | O => m
  | S n' => <[a := u8 v]> (st_le n' m (a + 1) (v / 256))
  end.

Definition load64 := load_le 8.
Definition st64 := st_le 8.

#[global] Arguments load64 : simpl never.
#[global] Arguments st64 : simpl never.
#[global] Arguments st8 : simpl never.

(** [memset(a, v, n)] and [memcpy(d, s, n)] of the C library; [None] when a byte
    of the destination or of the source is not mapped.  [memcpy] is only called
    on disjoint buffers. *)
Fixpoint memset (m : mem) (a v : Z) (n : nat) : option mem :=
  match n with
  | O => Some m
  | S n' => _ ← m !! a; memset (st8 m a v) (a + 1) v n'
  end.

Fixpoint memcpy (m : mem) (d s : Z) (n : nat) : option mem :=
  match n with
  | O => Some m
  | S n' => b ← m !! s; _ ← m !! d; memcpy (<[d := b]> m) (d + 1) (s + 1) n'
  end.

(** A range of mapped addresses. *)
Definition mapped (m : mem) (lo hi : Z) : Prop := forall x, lo <= x < hi -> is_Some (m !! x).

(** ** Loads and stores *)

Lemma load_le_frame n m m' a :
  (forall x, a <= x < a + Z.of_nat n -> m' !! x = m !! x) -> load_le n m' a = load_le n m a.
Proof.
  revert a. induction n as [|n IH]; intros a Hf; [done|]. cbn [load_le].
  rewrite Hf by lia. destruct (m !! a); simpl; [|done].
  by rewrite IH by (intros; apply Hf; lia).
Qed.

Lemma st_le_ne n m a v x : ~ a <= x < a + Z.of_nat n -> st_le n m a v !! x = m !! x.
Proof.
  revert a v. induction n as [|n IH]; intros a v Hx; [done|]. cbn [st_le].
  rewrite lookup_insert_ne by lia. apply IH. lia.
Qed.

Lemma st_le_byte n m a v k :
  0 <= k < Z.of_nat n -> st_le n m a v !! (a + k) = Some (u8 (v / 256 ^ k)).
Proof.
  revert a v k. induction n as [|n IH]; intros a v k Hk; [lia|]. cbn [st_le].
  destruct (decide (k = 0)) as [->|Hk0].
  - rewrite Z.add_0_r, lookup_insert_eq, Z.pow_0_r, Z.div_1_r. done.
  - rewrite lookup_insert_ne by lia.
    replace (a + k) with ((a + 1) + (k - 1)) by lia. rewrite IH by lia.
    rewrite Z.div_div by lia. do 3 f_equal.
    rewrite <-Z.pow_succ_r by lia. f_equal. lia.
Qed.

Lemma st_le_mapped n m a v x : is_Some (m !! x) -> is_Some (st_le n m a v !! x).
Proof.
  revert a v. induction n as [|n IH]; intros a v Hx; [done|]. cbn [st_le].
  destruct (decide (a = x)) as [->|]; [rewrite lookup_insert_eq; eauto|].
  rewrite lookup_insert_ne by done. by apply IH.
Qed.

Lemma load_le_st_le_eq n m a v : load_le n (st_le n m a v) a = Some (v mod 256 ^ Z.of_nat n).
Proof.
  revert m a v. induction n as [|n IH]; intros m a v; [by rewrite Z.mod_1_r|].
  cbn [load_le st_le]. rewrite lookup_insert_eq. simpl.
  rewrite (load_le_frame _ (st_le n m (a + 1) (v / 256)))
    by (intros; apply lookup_insert_ne; lia).
  rewrite IH. simpl. f_equal. unfold wrap. change (2 ^ 8) with 256.
  rewrite Nat2Z.inj_succ, Z.pow_succ_r by lia.
  rewrite Z.rem_mul_r by lia. done.
Qed.

Lemma load_le_mapped n m a : mapped m a (a + Z.of_nat n) -> is_Some (load_le n m a).
Proof.
  revert a. induction n as [|n IH]; intros a Hm; [by eexists|]. cbn [load_le].
  destruct (Hm a) as [b ->]; [lia|]. simpl.
  destruct (IH (a + 1)) as [r ->]; [intros x Hx; apply Hm; lia|]. by eexists.
Qed.

Lemma load64_frame m m' a :
  (forall x, a <= x < a + 8 -> m' !! x = m !! x) -> load64 m' a = load64 m a.
Proof. apply (load_le_frame 8). Qed.

Lemma load64_st64_eq m a v : 0 <= v < 18446744073709551616 -> load64 (st64 m a v) a = Some v.
Proof.
  intros Hv. unfold load64, st64. rewrite load_le_st_le_eq. f_equal. by apply Z.mod_small.
Qed.

Lemma lookup_st64_ne m a v x : x < a \/ a + 8 <= x -> st64 m a v !! x = m !! x.
Proof. intros. apply (st_le_ne 8). lia. Qed.

Lemma lookup_st8_eq m a v : 0 <= v < 256 -> st8 m a v !! a = Some v.
Proof. intros. unfold st8. rewrite lookup_insert_eq. by rewrite u8_small. Qed.

Lemma lookup_st8_ne m a v x : x <> a -> st8 m a v !! x = m !! x.
Proof. intros. by apply lookup_insert_ne. Qed.

Lemma load64_st64_ne m a v c : c + 8 <= a \/ a + 8 <= c -> load64 (st64 m a v) c = load64 m c.
Proof. intros. apply load64_frame. intros. apply lookup_st64_ne. lia. Qed.

Lemma load64_st8_ne m a v c : c + 8 <= a \/ a < c -> load64 (st8 m a v) c = load64 m c.
Proof. intros. apply load64_frame. intros. apply lookup_st8_ne. lia. Qed.

(** The last byte of a stored word, which is zero for a word below [2 ^ 56]. *)
Lemma lookup_st64_last m a v : 0 <= v < 72057594037927936 -> st64 m a v !! (a + 7) = Some 0.
Proof.
  intros Hv. unfold st64. rewrite (st_le_byte 8) by lia. f_equal.
  rewrite Z.div_small; [done|]. change (256 ^ 7) with 72057594037927936. lia.
Qed.

Lemma mapped_st64 m a v lo hi : mapped m lo hi -> mapped (st64 m a v) lo hi.
Proof. intros Hm x Hx. by apply (st_le_mapped 8), Hm. Qed.

Lemma mapped_st8 m a v lo hi : mapped m lo hi -> mapped (st8 m a v) lo hi.
Proof.
  intros Hm x Hx. unfold st8. rewrite lookup_insert. case_decide; [by eexists|]. by apply Hm.
Qed.

Lemma mapped_load64 m lo hi a : mapped m lo hi -> lo <= a -> a + 8 <= hi -> is_Some (load64 m a).
Proof. intros Hm ??. apply (load_le_mapped 8). intros x Hx. apply Hm. lia. Qed.

Lemma mapped_weaken m lo hi lo' hi' : mapped m lo hi -> lo <= lo' -> hi' <= hi -> mapped m lo' hi'.
Proof. intros Hm ?? x Hx. apply Hm. lia. Qed.

#[export] Hint Rewrite load64_st64_ne load64_st8_ne lookup_st64_ne lookup_st8_ne using lia : mem.
#[export] Hint Rewrite load64_st64_eq lookup_st8_eq using lia : mem.
#[export] Hint Resolve mapped_st64 mapped_st8 : tuya.

(** ** Bulk operations *)

Lemma memset_spec m a v n :
  mapped m a (a + Z.of_nat n) ->
  exists m', memset m a v n = Some m' /\
    (forall x, a <= x < a + Z.of_nat n -> m' !! x = Some (u8 v)) /\
    (forall x, ~ a <= x < a + Z.of_nat n -> m' !! x = m !! x).
Proof.
  revert m a. induction n as [|n IH]; intros m a Hm.
  { exists m. split; [done|]. split; [lia|done]. }
  cbn [memset]. destruct (Hm a) as [b Hb]; [lia|]. rewrite Hb. simpl.
  destruct (IH (st8 m a v) (a + 1)) as (m' & -> & Hin & Hout).
  { apply mapped_st8. eapply mapped_weaken; [exact Hm| |]; lia. }
  exists m'. split; [done|]. split; intros x Hx.
  - destruct (decide (x = a)) as [->|]; [|apply Hin; lia].
    rewrite Hout by lia. unfold st8. apply lookup_insert_eq.
  - rewrite Hout by lia. apply lookup_st8_ne. lia.
Qed.

Lemma memcpy_spec m d s n :
  mapped m d (d + Z.of_nat n) -> mapped m s (s + Z.of_nat n) ->
  d + Z.of_nat n <= s \/ s + Z.of_nat n <= d ->
  exists m', memcpy m d s n = Some m' /\
    (forall k, 0 <= k < Z.of_nat n -> m' !! (d + k) = m !! (s + k)) /\
    (forall x, ~ d <= x < d + Z.of_nat n -> m' !! x = m !! x).
Proof.
  revert m d s. induction n as [|n IH]; intros m d s Hd Hs Hdisj.
  { exists m. split; [done|]. split; [lia|done]. }
  cbn [memcpy]. destruct (Hs s) as [b Hb]; [lia|]. rewrite Hb. simpl.
  destruct (Hd d) as [b' Hb']; [lia|]. rewrite Hb'. simpl.
  assert (forall lo hi, mapped m lo hi -> mapped (<[d:=b]> m) lo hi) as Hmi.
  { intros lo hi Hm x Hx. rewrite lookup_insert. case_decide; [by eexists|]. by apply Hm. }
  destruct (IH (<[d:=b]> m) (d + 1) (s + 1)) as (m' & -> & Hin & Hout); [| |lia|].
  { apply Hmi. eapply mapped_weaken; [exact Hd| |]; lia. }
  { apply Hmi. eapply mapped_weaken; [exact Hs| |]; lia. }
  exists m'. split; [done|]. split.
  - intros k Hk. destruct (decide (k = 0)) as [->|].
    + rewrite !Z.add_0_r, Hout by lia. rewrite lookup_insert_eq. done.
    + replace (d + k) with ((d + 1) + (k - 1)) by lia. rewrite Hin by lia.
      rewrite lookup_insert_ne by lia. f_equal. lia.
  - intros x Hx. rewrite Hout by lia. apply lookup_insert_ne. lia.
Qed.
