(* ===== verification/MemHeap.v ===== *)
(** * The memory heap: [include/utilities/src/tuya_mem_heap.c]

    The allocator behind [tkl_system_malloc].  A heap is a region of memory cut
    into blocks; a block starts with its size ([unsigned long]), a free block
    continues with the link to the next free block, and the last byte of every
    block is the "dog" tag that says whether it is in use.  The user area of a
    used block starts where the link of a free one would be.

    The model keeps this layout byte for byte: headers, links and tags live in
    the memory of [CMem], the [static] variables of the file are the fields of
    [hstate].  Constants are those of a 64-bit Linux build
    ([MEM_ALIGN_NUM = 8], [sizeof(unsigned long) = 8]). *)

From S2P Require Import Prelude CMem.

(** ** Constants and data *)

Definition MEM_BLOCK_MIN_SIZE : Z := 24.
Definition MEM_ALIGN_NUM : Z := 8.
Definition FIT_FIND_DEPTH : Z := 3.
Definition MEM_HEAP_LIST_NUM : nat := 4.
Definition SIZEOF_MEM_DbgLeak_t : Z := 32.
Definition MEM_DBG_LEAK_MAGIC : Z := 0x13572468.
Definition MEM_BLOCK_HEAD_SIZE : Z := 8.
Definition MEM_HEAP_MIN_SIZE : Z := MEM_BLOCK_MIN_SIZE + MEM_BLOCK_HEAD_SIZE.
Definition MEM_BLOCK_STAT_USE : Z := 0x55.
Definition MEM_BLOCK_STAT_FREE : Z := 0xaa.

Definition ALIGN_UP (x : Z) : Z := Z.land (u64 (u64 x + (MEM_ALIGN_NUM - 1))) (u64 (Z.lnot (MEM_ALIGN_NUM - 1))).
Definition ALIGN_DOWN (x : Z) : Z := Z.land (u64 x) (u64 (Z.lnot (MEM_ALIGN_NUM - 1))).

Record MEM_Heap_t := mkHeap {
  h_free_list : Z;
  h_base : Z;
  h_size : Z;
  h_free : Z;
  h_free_watermark : Z
}.

Definition heap_zero : MEM_Heap_t := mkHeap 0 0 0 0 0.

Record MEM_HeapStatus_t := mkStatus {
  st_size : Z;
  st_free : Z;
  st_free_largest : Z;
  st_valid : Z;
  st_used_block : Z;
  st_free_block : Z
}.

(** The three function pointers of the context; 0 is the null pointer. *)
Record heap_context_t := mkCtx {
  ctx_enter_critical : Z;
  ctx_exit_critical : Z;
  ctx_dbg_output : Z
}.

Record heap_state_t := mkHeapState {
  hs_total_size : Z;
  hs_free_size : Z;
  hs_free_watermark : Z;
  hs_max_free_block_size : Z
}.

(** Messages given to [dbg_output]. *)
Inductive dbg_msg :=
| MsgCreateParams
| MsgDeleteParams
| MsgHeapInit (size addr : Z)
| MsgDogTag (ptr size : Z)
| MsgFreedYet (ptr : Z)
| MsgReallocDog (ptr size : Z)
| MsgMemUse (filename line addr size : Z)
| MsgThisIsFree (addr size : Z)
| MsgThisNotFree (addr size : Z)
| MsgDogErr (addr size : Z)
| MsgDamaged
| MsgSummary (st : MEM_HeapStatus_t).

(** Calls through the context, latest first. *)
Inductive hevent :=
| EvEnter
| EvExit
| EvDbg (m : dbg_msg).

Record hstate := mkHState {
  hmem : mem;
  mem_heap_list : list MEM_Heap_t;
  s_heap_free_size : Z;
  s_heap_free_size_watermark : Z;
  s_heap_ctx : heap_context_t;
  hevents : list hevent
}.

Definition set_hmem (f : mem -> mem) (s : hstate) : hstate :=
  mkHState (f (hmem s)) (mem_heap_list s) (s_heap_free_size s) (s_heap_free_size_watermark s)
    (s_heap_ctx s) (hevents s).
Definition set_heaps (f : list MEM_Heap_t -> list MEM_Heap_t) (s : hstate) : hstate :=
  mkHState (hmem s) (f (mem_heap_list s)) (s_heap_free_size s) (s_heap_free_size_watermark s)
    (s_heap_ctx s) (hevents s).
Definition set_free_size (v : Z) (s : hstate) : hstate :=
  mkHState (hmem s) (mem_heap_list s) v (s_heap_free_size_watermark s) (s_heap_ctx s) (hevents s).
Definition set_free_size_watermark (v : Z) (s : hstate) : hstate :=
  mkHState (hmem s) (mem_heap_list s) (s_heap_free_size s) v (s_heap_ctx s) (hevents s).
Definition set_ctx (c : heap_context_t) (s : hstate) : hstate :=
  mkHState (hmem s) (mem_heap_list s) (s_heap_free_size s) (s_heap_free_size_watermark s) c (hevents s).
Definition add_event (e : hevent) (s : hstate) : hstate :=
  mkHState (hmem s) (mem_heap_list s) (s_heap_free_size s) (s_heap_free_size_watermark s)
    (s_heap_ctx s) (e :: hevents s).

Abbreviation H := (M hstate).

(** ** Accesses *)

Definition rd8 (a : Z) : H Z := fun s =>
  match load8 (hmem s) a with Some v => Ret v s | None => Fault end.
Definition rd64 (a : Z) : H Z := fun s =>
  match load64 (hmem s) a with Some v => Ret v s | None => Fault end.
Definition wr8 (a v : Z) : H unit := fun s =>
  match load8 (hmem s) a with Some _ => Ret tt (set_hmem (fun m => st8 m a v) s) | None => Fault end.
Definition wr64 (a v : Z) : H unit := fun s =>
  match load64 (hmem s) a with Some _ => Ret tt (set_hmem (fun m => st64 m a v) s) | None => Fault end.
Definition c_memset (a v n : Z) : H unit := fun s =>
  match memset (hmem s) a v (Z.to_nat n) with Some m => Ret tt (set_hmem (fun _ => m) s) | None => Fault end.
Definition c_memcpy (d src n : Z) : H unit := fun s =>
  match memcpy (hmem s) d src (Z.to_nat n) with Some m => Ret tt (set_hmem (fun _ => m) s) | None => Fault end.

(** The fields of a [MEM_HeapBlock_t] and the address of its dog tag. *)
Definition rd_size (b : Z) : H Z := rd64 b.
Definition wr_size (b v : Z) : H unit := wr64 b v.
Definition rd_next (b : Z) : H Z := rd64 (b + 8).
Definition wr_next (b v : Z) : H unit := wr64 (b + 8) v.
Definition MEM_DOG_ADDR (block size : Z) : Z := block + size - 1.
Definition MEM_LEAK_DBG_ADDR (block size : Z) : Z :=
  u64 (block + size - SIZEOF_MEM_DbgLeak_t - MEM_ALIGN_NUM).

(** The context's functions: calling a null pointer is a fault. *)
Definition enter_critical : H unit := fun s =>
  if ctx_enter_critical (s_heap_ctx s) =? 0 then Fault else Ret tt (add_event EvEnter s).
Definition exit_critical : H unit := fun s =>
  if ctx_exit_critical (s_heap_ctx s) =? 0 then Fault else Ret tt (add_event EvExit s).
Definition dbg_output (m : dbg_msg) : H unit := fun s =>
  if ctx_dbg_output (s_heap_ctx s) =? 0 then Fault else Ret tt (add_event (EvDbg m) s).

(** A [MEM_Heap_t *] is [None] for the null pointer and [Some i] for
    [&mem_heap_list[i]]; dereferencing it outside the array is a fault. *)
Definition get_heap (i : nat) : H MEM_Heap_t := fun s =>
  match mem_heap_list s !! i with Some h => Ret h s | None => Fault end.
Definition upd_heap (i : nat) (f : MEM_Heap_t -> MEM_Heap_t) : H unit := fun s =>
  match mem_heap_list s !! i with
  | Some h => Ret tt (set_heaps (fun l => <[i := f h]> l) s)
  | None => Fault
  end.

Definition with_free_list (v : Z) (h : MEM_Heap_t) : MEM_Heap_t :=
  mkHeap v (h_base h) (h_size h) (h_free h) (h_free_watermark h).
Definition with_base (v : Z) (h : MEM_Heap_t) : MEM_Heap_t :=
  mkHeap (h_free_list h) v (h_size h) (h_free h) (h_free_watermark h).
Definition with_size (v : Z) (h : MEM_Heap_t) : MEM_Heap_t :=
  mkHeap (h_free_list h) (h_base h) v (h_free h) (h_free_watermark h).
Definition with_free (v : Z) (h : MEM_Heap_t) : MEM_Heap_t :=
  mkHeap (h_free_list h) (h_base h) (h_size h) v (h_free_watermark h).
Definition with_free_watermark (v : Z) (h : MEM_Heap_t) : MEM_Heap_t :=
  mkHeap (h_free_list h) (h_base h) (h_size h) (h_free h) v.

(** ** [mem_heap_init] *)

Definition mem_heap_init (heap : nat) (ptr size : Z) : H Z :=
  upd_heap heap (with_base ptr) ;;;
  upd_heap heap (with_size size) ;;;
  (let ptr' := ALIGN_UP ptr in
   let size' := ALIGN_DOWN (u64 (size - u64 (ptr' - ptr))) in
   if size' <? MEM_HEAP_MIN_SIZE then ret (-1)
   else
     upd_heap heap (with_free_list ptr') ;;;
     wr_next ptr' 0 ;;;
     wr_size ptr' size' ;;;
     upd_heap heap (with_free size') ;;;
     upd_heap heap (with_free_watermark size') ;;;
     fs <- gets s_heap_free_size ;;
     modify (set_free_size (u64 (fs + size'))) ;;;
     fs' <- gets s_heap_free_size ;;
     modify (set_free_size_watermark fs') ;;;
     sz <- rd_size ptr' ;;
     wr8 (MEM_DOG_ADDR ptr' sz) MEM_BLOCK_STAT_FREE ;;;
     ret 0).

(** ** [mem_chunk_get] *)

(** The number of blocks of a heap is at most its size over 16, the size of the
    smallest block, so this fuel covers every walk of a well-formed heap
    ([MemHeapInv]). *)
Definition heap_fuel (h : MEM_Heap_t) : nat := S (Z.to_nat (h_size h / 16)).

(** The inner [while (this_block_bak)] of the anti-fragmentation search. *)
Fixpoint anti_fragment (fuel : nat) (size this_block pre_block pre_block_bak this_block_bak find_num : Z)
  : H (Z * Z) :=
  match fuel with
  | O => out_of_fuel
  | S fuel' =>
    if this_block_bak =? 0 then ret (this_block, pre_block)
    else
      bak_size <- rd_size this_block_bak ;;
      this_size <- rd_size this_block ;;
      (let hit := (size <=? bak_size) && (bak_size <=? this_size) in
       let this_block := if hit then this_block_bak else this_block in
       let pre_block := if hit then pre_block_bak else pre_block in
       let find_num := if hit then find_num + 1 else find_num in
       if FIT_FIND_DEPTH <=? find_num then ret (this_block, pre_block)
       else
         next <- rd_next this_block_bak ;;
         anti_fragment fuel' size this_block pre_block this_block_bak next find_num)
  end.

(** Cut the chosen block in two, or take it off the free list. *)
Definition take_block (heap : nat) (size this_block pre_block : Z) : H Z :=
  this_size <- rd_size this_block ;;
  if MEM_HEAP_MIN_SIZE <=? u64 (this_size - size) then
    (let rest := u64 (this_size - size) in
     wr_size this_block rest ;;;
     wr8 (MEM_DOG_ADDR this_block rest) MEM_BLOCK_STAT_FREE ;;;
     (let new_block := u64 (this_block + rest) in
      wr_size new_block size ;;;
      wr8 (MEM_DOG_ADDR new_block size) MEM_BLOCK_STAT_USE ;;;
      ret new_block))
  else
    next <- rd_next this_block ;;
    (if negb (pre_block =? 0) then wr_next pre_block next
     else upd_heap heap (with_free_list next)) ;;;
    sz <- rd_size this_block ;;
    wr8 (MEM_DOG_ADDR this_block sz) MEM_BLOCK_STAT_USE ;;;
    ret this_block.

(** The outer [while (this_block)]. *)
Fixpoint chunk_loop (fuel : nat) (afuel : nat) (heap : nat) (size pre_block this_block : Z) : H Z :=
  match fuel with
  | O => out_of_fuel
  | S fuel' =>
    if this_block =? 0 then ret 0
    else
      this_size <- rd_size this_block ;;
      if size <=? this_size then
        next <- rd_next this_block ;;
        r <- anti_fragment afuel size this_block pre_block this_block next 0 ;;
        take_block heap size (fst r) (snd r)
      else
        next <- rd_next this_block ;;
        chunk_loop fuel' afuel heap size this_block next
  end.

Definition mem_chunk_get (heap : nat) (size : Z) : H Z :=
  h <- get_heap heap ;;
  chunk_loop (heap_fuel h) (heap_fuel h) heap size 0 (h_free_list h).

(** ** [MEM_HeapCreate], [MEM_HeapDelete] *)

(** [for (i = 0; i < MEM_HEAP_LIST_NUM; i++) if (mem_heap_list[i].size == 0) break;] *)
Fixpoint find_slot (l : list MEM_Heap_t) (i : nat) : nat :=
  match l with
  | [] => i
  | h :: l' => if h_size h =? 0 then i else find_slot l' (S i)
  end.

Definition MEM_HeapCreate (ptr size : Z) : H (option nat) :=
  if (ptr =? 0) || (size =? 0) then
    dbg_output MsgCreateParams ;;;
    ret None
  else
    enter_critical ;;;
    i <- gets (fun s => find_slot (mem_heap_list s) 0) ;;
    heap <- (if bool_decide (i < MEM_HEAP_LIST_NUM)%nat then
               rc <- mem_heap_init i ptr size ;;
               if negb (rc =? 0) then
                 upd_heap i (with_size 0) ;;;
                 ret None
               else ret (Some i)
             else ret None) ;;
    exit_critical ;;;
    ret heap.

Definition MEM_HeapDelete (heap : option nat) : H unit :=
  match heap with
  | None => dbg_output MsgDeleteParams
  | Some i =>
    enter_critical ;;;
    (if bool_decide (i < MEM_HEAP_LIST_NUM)%nat then upd_heap i (fun _ => heap_zero) else ret tt) ;;;
    exit_critical
  end.

(** ** [MEM_Allocate], [MEM_AllocateDebug], [MEM_Deallocate] *)

(** The block size an allocation of [size] bytes asks for. *)
Definition alloc_size (size : Z) : Z := u64 (ALIGN_UP (u64 (size + 1)) + MEM_BLOCK_HEAD_SIZE).

Definition MEM_Allocate (heap : option nat) (size : Z) : H Z :=
  match heap with
  | None => ret 0
  | Some i =>
    if size =? 0 then ret 0
    else
      let size := if size <? 4 then 4 else size in
      let new_size := alloc_size size in
      if new_size <? size then ret 0
      else
        enter_critical ;;;
        block <- mem_chunk_get i new_size ;;
        (if negb (block =? 0) then
           bsize <- rd_size block ;;
           upd_heap i (fun h => with_free (u64 (h_free h - bsize)) h) ;;;
           upd_heap i (fun h => if h_free h <? h_free_watermark h then with_free_watermark (h_free h) h else h) ;;;
           fs <- gets s_heap_free_size ;;
           modify (set_free_size (u64 (fs - bsize))) ;;;
           fs' <- gets s_heap_free_size ;;
           wm <- gets s_heap_free_size_watermark ;;
           when (fs' <? wm) (modify (set_free_size_watermark fs'))
         else ret tt) ;;;
        exit_critical ;;;
        ret (if negb (block =? 0) then u64 (block + MEM_BLOCK_HEAD_SIZE) else 0)
  end.

Definition MEM_AllocateDebug (heap : option nat) (size filename line : Z) : H Z :=
  let new_size := ALIGN_UP size in
  p <- MEM_Allocate heap (u64 (new_size + SIZEOF_MEM_DbgLeak_t)) ;;
  (if negb (p =? 0) then
     let block := u64 (p - MEM_BLOCK_HEAD_SIZE) in
     bsize <- rd_size block ;;
     let leak := MEM_LEAK_DBG_ADDR block bsize in
     wr64 leak filename ;;;
     wr64 (leak + 8) line ;;;
     wr64 (leak + 16) size ;;;
     wr64 (leak + 24) MEM_DBG_LEAK_MAGIC
   else ret tt) ;;;
  ret p.

(** [while (next_block && next_block < free_block)]: the neighbours of a block
    in the address-ordered free list. *)
Fixpoint find_neighbours (fuel : nat) (free_block pre_block next_block : Z) : H (Z * Z) :=
  match fuel with
  | O => out_of_fuel
  | S fuel' =>
    if negb (next_block =? 0) && (next_block <? free_block) then
      next <- rd_next next_block ;;
      find_neighbours fuel' free_block next_block next
    else ret (pre_block, next_block)
  end.

(** Link [free_block] after [pre_block], merging the two when they touch; the
    result is the block the right neighbour may merge into. *)
Definition link_left (heap : nat) (free_block pre_block : Z) : H Z :=
  if pre_block =? 0 then
    upd_heap heap (with_free_list free_block) ;;;
    ret free_block
  else
    pre_size <- rd_size pre_block ;;
    if pre_block + pre_size =? free_block then
      fsize <- rd_size free_block ;;
      wr_size pre_block (u64 (pre_size + fsize)) ;;;
      ret pre_block
    else
      wr_next pre_block free_block ;;;
      ret free_block.

Definition merge_right (pre_block next_block : Z) : H unit :=
  if negb (next_block =? 0) then
    pre_size <- rd_size pre_block ;;
    if pre_block + pre_size =? next_block then
      nsize <- rd_size next_block ;;
      wr_size pre_block (u64 (pre_size + nsize)) ;;;
      nn <- rd_next next_block ;;
      wr_next pre_block nn
    else ret tt
  else ret tt.

Definition MEM_Deallocate (heap : option nat) (ptr : Z) : H unit :=
  match heap with
  | None => ret tt
  | Some i =>
    if ptr =? 0 then ret tt
    else
      let free_block := u64 (ptr - MEM_BLOCK_HEAD_SIZE) in
      fsize <- rd_size free_block ;;
      let pdog := MEM_DOG_ADDR free_block fsize in
      dog <- rd8 pdog ;;
      if negb (dog =? MEM_BLOCK_STAT_USE) then
        dbg_output (MsgDogTag ptr fsize) ;;;
        when (dog =? MEM_BLOCK_STAT_FREE) (dbg_output (MsgFreedYet ptr))
      else
        enter_critical ;;;
        wr8 pdog MEM_BLOCK_STAT_FREE ;;;
        fsize' <- rd_size free_block ;;
        upd_heap i (fun h => with_free (u64 (h_free h + fsize')) h) ;;;
        fs <- gets s_heap_free_size ;;
        modify (set_free_size (u64 (fs + fsize'))) ;;;
        h <- get_heap i ;;
        r <- find_neighbours (heap_fuel h) free_block 0 (h_free_list h) ;;
        wr_next free_block (snd r) ;;;
        pre <- link_left i free_block (fst r) ;;
        merge_right pre (snd r) ;;;
        exit_critical
  end.

(** ** [MEM_HeapStatus] *)

Inductive status_end :=
| StatusDone (addr freeBlockp : Z)   (** the loop ended *)
| StatusErr (result thisBlockp : Z). (** [goto EXIT] with a non-zero result *)

Definition st_count_used (st : MEM_HeapStatus_t) : MEM_HeapStatus_t :=
  mkStatus (st_size st) (st_free st) (st_free_largest st) (st_valid st) (u64 (st_used_block st + 1)) (st_free_block st).
Definition st_count_free (thisSize : Z) (st : MEM_HeapStatus_t) : MEM_HeapStatus_t :=
  mkStatus (st_size st) (u64 (st_free st + thisSize))
    (if st_free_largest st <? thisSize then thisSize else st_free_largest st)
    (st_valid st) (st_used_block st) (u64 (st_free_block st + 1)).
Definition st_set_valid (st : MEM_HeapStatus_t) : MEM_HeapStatus_t :=
  mkStatus (st_size st) (st_free st) (st_free_largest st) 1 (st_used_block st) (st_free_block st).

Definition report_leak (thisBlockp size : Z) : H unit :=
  let leak := MEM_LEAK_DBG_ADDR thisBlockp size in
  magic <- rd64 (leak + 24) ;;
  if magic =? MEM_DBG_LEAK_MAGIC then
    exit_critical ;;;
    filename <- rd64 leak ;;
    line <- rd64 (leak + 8) ;;
    lsize <- rd64 (leak + 16) ;;
    dbg_output (MsgMemUse filename line thisBlockp lsize) ;;;
    enter_critical
  else ret tt.

(** [while (addr < top_addr)] *)
Fixpoint status_loop (fuel : nat) (top_addr addr freeBlockp : Z) (st : MEM_HeapStatus_t)
  : H (MEM_HeapStatus_t * status_end) :=
  match fuel with
  | O => out_of_fuel
  | S fuel' =>
    if addr <? top_addr then
      size <- rd_size addr ;;
      dog <- rd8 (MEM_DOG_ADDR addr size) ;;
      if dog =? MEM_BLOCK_STAT_USE then
        if addr =? freeBlockp then ret (st, StatusErr 1 addr)
        else
          report_leak addr size ;;;
          status_loop fuel' top_addr (u64 (addr + size)) freeBlockp (st_count_used st)
      else if dog =? MEM_BLOCK_STAT_FREE then
        if negb (addr =? freeBlockp) then ret (st, StatusErr 2 addr)
        else
          (let thisSize := u64 (size - MEM_BLOCK_HEAD_SIZE - 1) in
           next <- rd_next freeBlockp ;;
           status_loop fuel' top_addr (u64 (addr + size)) next (st_count_free thisSize st))
      else ret (st, StatusErr 3 addr)
    else ret (st, StatusDone addr freeBlockp)
  end.

(** Called with a non-null [status] only; its final content is the result. *)
Definition MEM_HeapStatus (heap : nat) : H MEM_HeapStatus_t :=
  h <- get_heap heap ;;
  (let st0 := mkStatus (h_size h) 0 0 0 0 0 in
   let addr := ALIGN_UP (h_base h) in
   let top_addr := ALIGN_DOWN (u64 (h_base h + h_size h)) in
   enter_critical ;;;
   r <- status_loop (heap_fuel h) top_addr addr (h_free_list h) st0 ;;
   exit_critical ;;;
   match r with
   | (st, StatusDone addr' freeBlockp) =>
     ret (if (addr' =? top_addr) && (freeBlockp =? 0) then st_set_valid st else st)
   | (st, StatusErr result blk) =>
     bsize <- rd_size blk ;;
     dbg_output (if result =? 1 then MsgThisIsFree blk bsize
                 else if result =? 2 then MsgThisNotFree blk bsize
                 else MsgDogErr blk bsize) ;;;
     ret st
   end).

(** ** The public interface *)

Definition tuya_mem_heap_init (ctx : option heap_context_t) : H Z :=
  match ctx with
  | None => ret (-1)
  | Some c =>
    if (ctx_enter_critical c =? 0) || (ctx_exit_critical c =? 0) || (ctx_dbg_output c =? 0) then ret (-1)
    else modify (set_ctx c) ;;; ret 0
  end.

(** The result and what is stored in [*handle]. *)
Definition tuya_mem_heap_create (start_addr size : Z) : H (Z * option nat) :=
  dbg_output (MsgHeapInit size start_addr) ;;;
  pMemHeap <- MEM_HeapCreate start_addr size ;;
  match pMemHeap with
  | None => ret (-1, None)
  | Some i => ret (0, Some i)
  end.

Definition tuya_mem_heap_delete (handle : option nat) : H Z :=
  MEM_HeapDelete handle ;;; ret 0.

(** The loop over [mem_heap_list] of the calls without a handle: the first heap
    with enough free memory whose allocator succeeds. *)
Fixpoint first_heap (n : nat) (idx : nat) (size : Z) (alloc : nat -> H Z) : H Z :=
  match n with
  | O => ret 0
  | S n' =>
    h <- get_heap idx ;;
    if 0 <? h_size h then
      if u32 (size + MEM_BLOCK_MIN_SIZE) <? h_free h then
        ptr <- alloc idx ;;
        if negb (ptr =? 0) then ret ptr else first_heap n' (S idx) size alloc
      else first_heap n' (S idx) size alloc
    else ret 0
  end.

Definition tuya_mem_heap_malloc (handle : option nat) (size : Z) : H Z :=
  match handle with
  | Some _ => MEM_Allocate handle size
  | None => first_heap MEM_HEAP_LIST_NUM 0 size (fun idx => MEM_Allocate (Some idx) size)
  end.

Definition tuya_mem_heap_calloc (handle : option nat) (size : Z) : H Z :=
  ptr <- tuya_mem_heap_malloc handle size ;;
  (if negb (ptr =? 0) then c_memset ptr 0 size else ret tt) ;;;
  ret ptr.

(** The heap whose region holds [ptr]. *)
Fixpoint free_any (n : nat) (idx : nat) (ptr : Z) : H unit :=
  match n with
  | O => ret tt
  | S n' =>
    h <- get_heap idx ;;
    if 0 <? h_size h then
      if (h_base h <? ptr) && (ptr <? h_base h + h_size h) then MEM_Deallocate (Some idx) ptr
      else free_any n' (S idx) ptr
    else ret tt
  end.

Definition tuya_mem_heap_free (handle : option nat) (ptr : Z) : H unit :=
  match handle with
  | Some _ => MEM_Deallocate handle ptr
  | None => free_any MEM_HEAP_LIST_NUM 0 ptr
  end.

Definition tuya_mem_heap_realloc (handle : option nat) (ptr size : Z) : H Z :=
  if ptr =? 0 then tuya_mem_heap_malloc handle size
  else
    let old_block := u64 (ptr - MEM_BLOCK_HEAD_SIZE) in
    old_size <- rd_size old_block ;;
    dog <- rd8 (MEM_DOG_ADDR old_block old_size) ;;
    if negb (dog =? MEM_BLOCK_STAT_USE) then
      dbg_output (MsgReallocDog ptr old_size) ;;;
      ret 0
    else
      let size := if size <? 4 then 4 else size in
      let new_size := u64 (ALIGN_UP (u32 (size + 1)) + MEM_BLOCK_HEAD_SIZE) in
      if new_size <=? old_size then ret ptr
      else
        tmp <- tuya_mem_heap_malloc handle size ;;
        if tmp =? 0 then ret 0
        else
          old_size' <- rd_size old_block ;;
          c_memcpy tmp ptr (u64 (old_size' - MEM_BLOCK_HEAD_SIZE)) ;;;
          tuya_mem_heap_free handle ptr ;;;
          ret tmp.

Definition tuya_mem_heap_available (handle : option nat) : H Z :=
  match handle with
  | None => fs <- gets s_heap_free_size ;; ret (s32 fs)
  | Some i => h <- get_heap i ;; ret (s32 (h_free h))
  end.

Fixpoint total_size_loop (n : nat) (idx : nat) (acc : Z) : H Z :=
  match n with
  | O => ret acc
  | S n' =>
    h <- get_heap idx ;;
    if 0 <? h_size h then total_size_loop n' (S idx) (u64 (acc + h_size h)) else ret acc
  end.

Definition tuya_mem_heap_state (handle : option nat) (state : option heap_state_t)
  : H (option heap_state_t) :=
  match state with
  | None => ret None
  | Some st =>
    match handle with
    | None =>
      fs <- gets s_heap_free_size ;;
      wm <- gets s_heap_free_size_watermark ;;
      total <- total_size_loop MEM_HEAP_LIST_NUM 0 (hs_total_size st) ;;
      ret (Some (mkHeapState total fs wm (hs_max_free_block_size st)))
    | Some i =>
      h <- get_heap i ;;
      ret (Some (mkHeapState (h_size h) (h_free h) (h_free_watermark h) (hs_max_free_block_size st)))
    end
  end.

Definition tuya_mem_heap_debug_malloc (handle : option nat) (size filename line : Z) : H Z :=
  match handle with
  | Some _ => MEM_AllocateDebug handle size filename line
  | None => first_heap MEM_HEAP_LIST_NUM 0 size (fun idx => MEM_AllocateDebug (Some idx) size filename line)
  end.

Definition tuya_mem_heap_debug_calloc (handle : option nat) (size filename line : Z) : H Z :=
  ptr <- tuya_mem_heap_debug_malloc handle size filename line ;;
  (if negb (ptr =? 0) then c_memset ptr 0 size else ret tt) ;;;
  ret ptr.

Definition tuya_mem_heap_debug_realloc (handle : option nat) (ptr size filename line : Z) : H Z :=
  tmp <- tuya_mem_heap_debug_malloc handle size filename line ;;
  if tmp =? 0 then ret 0
  else
    c_memcpy tmp ptr size ;;;
    tuya_mem_heap_free handle ptr ;;;
    ret tmp.

Definition diagnose_one (idx : nat) : H unit :=
  memst <- MEM_HeapStatus idx ;;
  when (st_valid memst =? 0) (dbg_output MsgDamaged) ;;;
  dbg_output (MsgSummary memst).

Fixpoint diagnose_loop (n : nat) (idx : nat) : H unit :=
  match n with
  | O => ret tt
  | S n' =>
    h <- get_heap idx ;;
    if 0 <? h_size h then diagnose_one idx ;;; diagnose_loop n' (S idx) else ret tt
  end.

Definition tuya_mem_heap_diagnose (handle : option nat) : H Z :=
  match handle with
  | Some i => diagnose_one i ;;; ret 0
  | None => diagnose_loop MEM_HEAP_LIST_NUM 0 ;;; ret 0
  end.

(** ** A heap to evaluate on

    The zero-initialised statics of the file over [n] mapped bytes at [lo]. *)
Definition mem_zero (lo : Z) (n : nat) : mem :=
  list_to_map (map (fun k => (lo + Z.of_nat k, 0)) (seq 0 n)).
Definition hstate0 (lo : Z) (n : nat) : hstate :=
  mkHState (mem_zero lo n) (repeat heap_zero MEM_HEAP_LIST_NUM) 0 0 (mkCtx 0 0 0) [].
