(* ===== verification/MemHeapInv.v ===== *)
(** * Layout of a heap and its invariant

    The abstract view of the memory of [MemHeap]: a heap region is tiled by a
    list of blocks, the free ones are linked in address order, and no two free
    blocks touch.  The files [MemHeapAlloc] and [MemHeapFree] prove that the C
    code keeps this picture. *)

From S2P Require Import Prelude CMem MemHeap.

(** ** Blocks and layouts *)

Record blk := Blk { ba : Z; bsz : Z; bused : bool }.

#[export] Instance blk_eq_dec : EqDecision blk.
Proof. solve_decision. Defined.

Definition bend (b : blk) : Z := ba b + bsz b.

(** The blocks of [bs] follow each other from [a] to [t]. *)
Fixpoint tiles (a : Z) (bs : list blk) (t : Z) : Prop :=
  match bs with
  | [] => a = t
  | b :: r => ba b = a /\ tiles (bend b) r t
  end.

Abbreviation is_free := (fun b : blk => bused b = false).
Definition frees (bs : list blk) : list blk := filter is_free bs.
Definition useds (bs : list blk) : list blk := filter (fun b => bused b = true) bs.
Definition sum_sizes (bs : list blk) : Z := foldr (fun b n => bsz b + n) 0 bs.

(** No two free blocks touch. *)
Fixpoint coalesced (bs : list blk) : Prop :=
  match bs with
  | b :: ((c :: _) as r) => (bused b = true \/ bused c = true) /\ coalesced r
  | _ => True
  end.

Definition lastaddr (l : list blk) : Z := match last l with Some b => ba b | None => 0 end.
Definition headaddr (l : list blk) : Z := match head l with Some b => ba b | None => 0 end.
Definition last_used (l : list blk) : Prop := forall b, last l = Some b -> bused b = true.
Definition head_used (l : list blk) : Prop := forall b, head l = Some b -> bused b = true.

(** A segment of the free list: from the pointer [p], through the links of the
    blocks of [l], to the pointer [q]. *)
Fixpoint lseg (m : mem) (p : Z) (l : list blk) (q : Z) : Prop :=
  match l with
  | [] => p = q
  | b :: r => p = ba b /\ exists n, load64 m (ba b + 8) = Some n /\ lseg m n r q
  end.

(** ** Abstract specification

    What allocation and release do to the list of blocks. *)

Inductive alloc_step (need : Z) : list blk -> Z -> list blk -> Prop :=
| alloc_split l1 b l2 :
    bused b = false -> need <= bsz b -> MEM_HEAP_MIN_SIZE <= bsz b - need ->
    alloc_step need (l1 ++ b :: l2) (ba b + (bsz b - need))
      (l1 ++ Blk (ba b) (bsz b - need) false :: Blk (ba b + (bsz b - need)) need true :: l2)
| alloc_whole l1 b l2 :
    bused b = false -> need <= bsz b -> bsz b - need < MEM_HEAP_MIN_SIZE ->
    alloc_step need (l1 ++ b :: l2) (ba b) (l1 ++ Blk (ba b) (bsz b) true :: l2).

Definition osize (o : option blk) : Z := match o with Some b => bsz b | None => 0 end.

(** The free neighbours, if any, are merged with the released block. *)
Inductive free_step : list blk -> Z -> list blk -> Prop :=
| free_merge P lft b rgt N :
    bused b = true ->
    (forall p, lft = Some p -> bused p = false) -> (forall q, rgt = Some q -> bused q = false) ->
    last_used P -> head_used N ->
    free_step (P ++ option_list lft ++ b :: option_list rgt ++ N) (ba b)
      (P ++ Blk (ba (default b lft)) (osize lft + bsz b + osize rgt) false :: N).

(** ** Generic facts *)

Lemma tiles_app a l1 l2 t : tiles a (l1 ++ l2) t <-> exists c, tiles a l1 c /\ tiles c l2 t.
Proof.
  revert a. induction l1 as [|b l1 IH]; intros a; simpl.
  - split; [by eexists|]. by intros (c & <- & ?).
  - rewrite IH. naive_solver.
Qed.

Lemma frees_app l1 l2 : frees (l1 ++ l2) = frees l1 ++ frees l2.
Proof. apply filter_app. Qed.
Lemma frees_cons_free b l : bused b = false -> frees (b :: l) = b :: frees l.
Proof. intros. by apply filter_cons_True. Qed.
Lemma frees_cons_used b l : bused b = true -> frees (b :: l) = frees l.
Proof. intros. apply filter_cons_False. congruence. Qed.
Lemma useds_app l1 l2 : useds (l1 ++ l2) = useds l1 ++ useds l2.
Proof. apply filter_app. Qed.
Lemma useds_cons_used b l : bused b = true -> useds (b :: l) = b :: useds l.
Proof. intros. by apply filter_cons_True. Qed.
Lemma useds_cons_free b l : bused b = false -> useds (b :: l) = useds l.
Proof. intros. apply filter_cons_False. congruence. Qed.
Lemma elem_of_frees b l : b ∈ frees l <-> bused b = false /\ b ∈ l.
Proof. unfold frees. by rewrite list_elem_of_filter. Qed.

(** A decomposition of the free list comes from one of the layout. *)
Lemma frees_app_inv bs l1 b l2 :
  frees bs = l1 ++ b :: l2 ->
  exists L1 L2, bs = L1 ++ b :: L2 /\ frees L1 = l1 /\ frees L2 = l2 /\ bused b = false.
Proof.
  revert l1. induction bs as [|c bs IH]; intros l1 E.
  { by destruct l1. }
  destruct (bused c) eqn:Ec.
  - rewrite frees_cons_used in E by done. destruct (IH _ E) as (L1 & L2 & -> & <- & <- & ?).
    exists (c :: L1), L2. by rewrite frees_cons_used.
  - rewrite frees_cons_free in E by done. destruct l1 as [|d l1]; injection E as -> E.
    + by exists [], bs.
    + destruct (IH _ E) as (L1 & L2 & -> & <- & <- & ?).
      exists (d :: L1), L2. by rewrite frees_cons_free.
Qed.

Lemma lseg_app m p l1 l2 q : lseg m p (l1 ++ l2) q <-> exists r, lseg m p l1 r /\ lseg m r l2 q.
Proof.
  revert p. induction l1 as [|b l1 IH]; intros p; simpl.
  - split; [by eexists|]. by intros (r & -> & ?).
  - setoid_rewrite IH. naive_solver.
Qed.

(** The target of a complete segment is its first block. *)
Lemma lseg_head m p l : lseg m p l 0 -> p = headaddr l.
Proof. destruct l; simpl; [done|]. by intros [-> _]. Qed.

Lemma lastaddr_snoc l b : lastaddr (l ++ [b]) = ba b.
Proof. unfold lastaddr. by rewrite last_snoc. Qed.

Lemma sum_sizes_app l1 l2 : sum_sizes (l1 ++ l2) = sum_sizes l1 + sum_sizes l2.
Proof. induction l1 as [|b l1 IH]; simpl; [done|]. rewrite IH. lia. Qed.

Lemma coalesced_app l1 b l2 :
  coalesced (l1 ++ b :: l2) <->
  coalesced (l1 ++ [b]) /\ coalesced (b :: l2).
Proof.
  induction l1 as [|c l1 IH]; simpl.
  { destruct l2; naive_solver. }
  destruct l1 as [|d l1]; simpl in *; [destruct l2; naive_solver|]. rewrite IH. naive_solver.
Qed.

Lemma coalesced_snoc_used l b : bused b = true -> coalesced l -> coalesced (l ++ [b]).
Proof.
  intros Hb. induction l as [|c l IH]; [done|]. destruct l as [|d l]; simpl in *; [naive_solver|].
  intros [? ?]. split; [done|]. by apply IH.
Qed.

Lemma coalesced_snoc_last l b : last_used l -> coalesced l -> coalesced (l ++ [b]).
Proof.
  intros Hl. induction l as [|c l IH]; [done|]. destruct l as [|d l]; simpl in *.
  { intros _. split; [left; by apply Hl|done]. }
  intros [? ?]. split; [done|]. apply IH; [|done]. intros e He. by apply Hl.
Qed.

Lemma coalesced_prefix l1 l2 : coalesced (l1 ++ l2) -> coalesced l1.
Proof.
  induction l1 as [|c l1 IH]; [done|]. destruct l1 as [|d l1]; simpl in *; naive_solver.
Qed.

Lemma coalesced_suffix l1 l2 : coalesced (l1 ++ l2) -> coalesced l2.
Proof.
  induction l1 as [|c l1 IH]; [done|]. simpl. destruct (l1 ++ l2) eqn:E; [|naive_solver].
  apply app_eq_nil in E as [-> ->]. done.
Qed.

Lemma coalesced_cons_head b l : head_used l -> coalesced l -> coalesced (b :: l).
Proof. destruct l as [|c l]; [done|]. intros Hh Hc. split; [right; by apply Hh|done]. Qed.

Lemma coalesced_cons_used b l : bused b = true -> coalesced l -> coalesced (b :: l).
Proof. destruct l as [|c l]; [done|]. intros Hh Hc. split; [by left|done]. Qed.

(** ** The invariant

    On a 64-bit target the smallest block has 16 bytes: its dog tag is the last
    byte of the word that holds its link, so that linking such a block
    overwrites its tag.  The invariant is therefore stated for a policy: the
    smallest block size, and the values the tag of a free block may have. *)

Class DogPolicy (minsz : Z) (fdog : Z -> Prop) : Prop := {
  dp_min : 16 <= minsz;
  dp_max : minsz <= MEM_HEAP_MIN_SIZE;
  dp_free : fdog MEM_BLOCK_STAT_FREE;
  dp_not_use : ~ fdog MEM_BLOCK_STAT_USE;
  dp_zero : minsz < 24 -> fdog 0
}.

(** Any request: the tag of a free block is the free tag or the top byte of a
    link. *)
Definition loose_dog (d : Z) : Prop := d = MEM_BLOCK_STAT_FREE \/ d = 0.
#[export] Instance loose_policy : DogPolicy 16 loose_dog.
Proof. split; unfold loose_dog, MEM_BLOCK_STAT_FREE, MEM_BLOCK_STAT_USE, MEM_HEAP_MIN_SIZE, MEM_BLOCK_MIN_SIZE, MEM_BLOCK_HEAD_SIZE; lia. Qed.

(** Requests of at least 8 bytes: the tag of a free block is the free tag. *)
Definition strict_dog (d : Z) : Prop := d = MEM_BLOCK_STAT_FREE.
#[export] Instance strict_policy : DogPolicy 24 strict_dog.
Proof. split; unfold strict_dog, MEM_BLOCK_STAT_FREE, MEM_BLOCK_STAT_USE, MEM_HEAP_MIN_SIZE, MEM_BLOCK_MIN_SIZE, MEM_BLOCK_HEAD_SIZE; lia. Qed.

Section Invariant.
Context {minsz : Z} {fdog : Z -> Prop} `{!DogPolicy minsz fdog}.

Definition sized (b : blk) : Prop := minsz <= bsz b /\ (8 | bsz b).

Definition blk_ok (m : mem) (b : blk) : Prop :=
  load64 m (ba b) = Some (bsz b) /\
  exists d, m !! (bend b - 1) = Some d /\ (if bused b then d = MEM_BLOCK_STAT_USE else fdog d).

(** Everything but coalescing. *)
Record core (m : mem) (p : Z) (bs : list blk) (lo hi : Z) : Prop := {
  co_tiles : tiles lo bs hi;
  co_sized : Forall sized bs;
  co_ok : Forall (blk_ok m) bs;
  co_linked : lseg m p (frees bs) 0;
  co_mapped : mapped m lo hi;
  co_lo : 0 < lo;
  co_align : (8 | lo);
  co_hi : hi <= 72057594037927936 (* 2 ^ 56 *)
}.

Lemma sized_min b : sized b -> 16 <= bsz b.
Proof. intros [? _]. pose proof (dp_min (minsz:=minsz) (fdog:=fdog)). lia. Qed.

(** *** Positions *)

Lemma tiles_le a l t : Forall sized l -> tiles a l t -> a <= t.
Proof.
  revert a. induction l as [|b l IH]; intros a Hs Ht; simpl in *; [lia|].
  destruct Ht as [<- Ht]. apply Forall_cons in Hs as [Hb Hs].
  apply IH in Ht; [|done]. apply sized_min in Hb. unfold bend in *. lia.
Qed.

Lemma tiles_elem a l t b : Forall sized l -> tiles a l t -> b ∈ l -> a <= ba b /\ bend b <= t.
Proof.
  intros Hs Ht Hb. apply list_elem_of_split in Hb as (l1 & l2 & ->).
  apply Forall_app in Hs as [Hs1 Hs2]. apply Forall_cons in Hs2 as [_ Hs2].
  apply tiles_app in Ht as (c & Ht1 & Hc & Ht2).
  apply tiles_le in Ht1; [|done]. apply tiles_le in Ht2; [|done]. lia.
Qed.

(** The blocks before and after a given one. *)
Lemma tiles_mid a l1 b l2 t :
  Forall sized (l1 ++ b :: l2) -> tiles a (l1 ++ b :: l2) t ->
  a <= ba b /\ bend b <= t /\ tiles a l1 (ba b) /\ tiles (bend b) l2 t /\
  (forall c, c ∈ l1 -> bend c <= ba b) /\ (forall c, c ∈ l2 -> bend b <= ba c).
Proof.
  intros Hs Ht. apply Forall_app in Hs as [Hs1 Hs2]. apply Forall_cons in Hs2 as [_ Hs2].
  apply tiles_app in Ht as (c & Ht1 & Hc & Ht2). subst c.
  pose proof (tiles_le _ _ _ Hs1 Ht1). pose proof (tiles_le _ _ _ Hs2 Ht2).
  split_and!; try done.
  - intros c Hc. by destruct (tiles_elem _ _ _ _ Hs1 Ht1 Hc).
  - intros c Hc. by destruct (tiles_elem _ _ _ _ Hs2 Ht2 Hc).
Qed.

Lemma tiles_align a l t : (8 | a) -> Forall sized l -> tiles a l t -> Forall (fun b => (8 | ba b)) l /\ (8 | t).
Proof.
  revert a. induction l as [|b l IH]; intros a Ha Hs Ht; simpl in *; [by subst|].
  destruct Ht as [<- Ht]. apply Forall_cons in Hs as [Hb Hs].
  destruct (IH (bend b)) as [? ?]; try done.
  { apply Z.divide_add_r; [done|]. apply Hb. }
  split; [by constructor|done].
Qed.

(** The fuel of the walks: a region holds at most a 16th of its bytes in blocks. *)
Lemma tiles_length a l t : Forall sized l -> tiles a l t -> 16 * Z.of_nat (length l) <= t - a.
Proof.
  revert a. induction l as [|b l IH]; intros a Hs Ht; simpl in *; [lia|].
  destruct Ht as [<- Ht]. apply Forall_cons in Hs as [Hb Hs].
  apply IH in Ht; [|done]. apply sized_min in Hb. unfold bend in *. lia.
Qed.

(** Changing the state of a block moves nothing. *)
Lemma tiles_set_used a l1 b u l2 t :
  tiles a (l1 ++ b :: l2) t -> tiles a (l1 ++ Blk (ba b) (bsz b) u :: l2) t.
Proof. rewrite !tiles_app. intros (c & ? & Hb & ?). exists c. done. Qed.

(** *** Frames *)

Definition agree (m m' : mem) (b : blk) : Prop := forall x, ba b <= x < bend b -> m' !! x = m !! x.

Lemma agree_trans m1 m2 m3 b : agree m1 m2 b -> agree m2 m3 b -> agree m1 m3 b.
Proof. intros H1 H2 x Hx. rewrite H2, H1 by done. done. Qed.

Lemma agree_st64 m a v b : bend b <= a \/ a + 8 <= ba b -> agree m (st64 m a v) b.
Proof. intros Hd x Hx. apply lookup_st64_ne. lia. Qed.

Lemma agree_st8 m a v b : bend b <= a \/ a < ba b -> agree m (st8 m a v) b.
Proof. intros Hd x Hx. apply lookup_st8_ne. lia. Qed.

Lemma blk_ok_agree m m' b : sized b -> agree m m' b -> blk_ok m b -> blk_ok m' b.
Proof.
  intros Hs Ha [Hl (d & Hd & Hu)]. apply sized_min in Hs. unfold blk_ok, agree, bend in *. split.
  - rewrite <-Hl. apply load64_frame. intros. apply Ha. lia.
  - exists d. split; [|done]. rewrite Ha by lia. done.
Qed.

Lemma blk_oks_agree m m' l :
  Forall sized l -> (forall b, b ∈ l -> agree m m' b) -> Forall (blk_ok m) l -> Forall (blk_ok m') l.
Proof.
  rewrite !Forall_forall. intros Hs Ha Hok b Hb. eapply blk_ok_agree; eauto.
Qed.

Lemma lseg_agree m m' p l q :
  Forall sized l -> (forall b, b ∈ l -> agree m m' b) -> lseg m p l q -> lseg m' p l q.
Proof.
  revert p. induction l as [|b l IH]; intros p Hs Ha; [done|]. simpl.
  apply Forall_cons in Hs as [Hb Hs]. apply sized_min in Hb.
  intros (-> & n & Hn & Hl). split; [done|]. exists n. split.
  - rewrite <-Hn. apply load64_frame. intros x Hx. apply (Ha b); [set_solver|]. unfold bend. lia.
  - apply IH; [done| |done]. set_solver.
Qed.

Lemma Forall_frees (P : blk -> Prop) l : Forall P l -> Forall P (frees l).
Proof. rewrite !Forall_forall. intros HP b Hb. apply HP. by apply elem_of_frees in Hb as [_ ?]. Qed.

(** Writing the link of a free block keeps the block, whatever its size. *)
Lemma blk_ok_wr_next m b v :
  sized b -> bused b = false -> 0 <= v < 72057594037927936 ->
  blk_ok m b -> blk_ok (st64 m (ba b + 8) v) b.
Proof.
  intros [Hs [k Hk]] Hu Hv [Hl (d & Hd & Hfd)]. pose proof (dp_min (minsz:=minsz) (fdog:=fdog)). split.
  { by rewrite load64_st64_ne by lia. }
  unfold bend in *. destruct (decide (bsz b < 24)) as [Hsmall|].
  - replace (ba b + bsz b - 1) with (ba b + 8 + 7) by lia.
    exists 0. rewrite lookup_st64_last by done. split; [done|]. rewrite Hu. apply dp_zero. lia.
  - exists d. rewrite lookup_st64_ne by lia. done.
Qed.

(** Bounds on the addresses of a layout. *)
Lemma core_bounds m p bs lo hi b :
  core m p bs lo hi -> b ∈ bs ->
  0 < lo /\ lo <= ba b /\ 16 <= bsz b /\ ba b + bsz b <= hi /\ hi <= 72057594037927936.
Proof.
  intros Hc Hb. destruct (tiles_elem _ _ _ _ (co_sized _ _ _ _ _ Hc) (co_tiles _ _ _ _ _ Hc) Hb).
  destruct Hc as [_ Hs _ _ _ ? _ ?]. rewrite Forall_forall in Hs.
  specialize (Hs b Hb). apply sized_min in Hs. unfold bend in *. lia.
Qed.

(** Replace a stretch of blocks by another one that covers the same bytes. *)
Lemma core_replace m m' p p' L1 mid mid' L2 lo hi :
  core m p (L1 ++ mid ++ L2) lo hi ->
  (forall a t, tiles a mid t -> tiles a mid' t) -> Forall sized mid' ->
  Forall (blk_ok m') L1 -> Forall (blk_ok m') mid' -> Forall (blk_ok m') L2 ->
  lseg m' p' (frees (L1 ++ mid' ++ L2)) 0 -> mapped m' lo hi ->
  core m' p' (L1 ++ mid' ++ L2) lo hi.
Proof.
  intros [Ht Hs _ _ _ ? ? ?] Hmid Hsm H1 H2 H3 Hl Hm.
  apply Forall_app in Hs as [Hs1 Hs2]. apply Forall_app in Hs2 as [_ Hs2].
  split; try done; [|rewrite !Forall_app; done|rewrite !Forall_app; done].
  apply tiles_app in Ht as (a & ? & Ht). apply tiles_app in Ht as (t & ? & ?).
  apply tiles_app. exists a. split; [done|]. apply tiles_app. exists t. auto.
Qed.

(** The blocks of a layout other than the middle one, after stores inside it. *)
Lemma core_outside m m' p L1 b L2 lo hi :
  core m p (L1 ++ b :: L2) lo hi ->
  (forall x, x < ba b \/ bend b <= x -> m' !! x = m !! x) ->
  (forall c, c ∈ L1 -> agree m m' c) /\ (forall c, c ∈ L2 -> agree m m' c).
Proof.
  intros [Ht Hs _ _ _ _ _ _] Hout.
  destruct (tiles_mid _ _ _ _ _ Hs Ht) as (_ & _ & _ & _ & H1 & H2).
  split; intros c Hc x Hx; apply Hout.
  - specialize (H1 c Hc). lia.
  - specialize (H2 c Hc). lia.
Qed.

Lemma headaddr_bounds (l : list blk) (lo hi : Z) :
  0 <= hi -> (forall b, b ∈ l -> 0 < ba b < hi) -> 0 <= headaddr l <= hi.
Proof. destruct l as [|b l]; unfold headaddr; simpl; [lia|]. intros ? Hb. specialize (Hb b). set_solver by lia. Qed.
End Invariant.

Arguments sized : clear implicits.
Arguments core : clear implicits.
Arguments blk_ok : clear implicits.

(** Only bytes of free blocks have been written. *)
Definition only_free (m m' : mem) (bs : list blk) : Prop :=
  forall x, (forall b, b ∈ bs -> bused b = false -> ~ ba b <= x < bend b) -> m' !! x = m !! x.

Lemma only_free_block m m' bs b :
  b ∈ bs -> bused b = false -> (forall x, x < ba b \/ bend b <= x -> m' !! x = m !! x) -> only_free m m' bs.
Proof. intros Hb Hf Hout x Hx. apply Hout. specialize (Hx b Hb Hf). lia. Qed.

Lemma only_free_trans m1 m2 m3 bs : only_free m1 m2 bs -> only_free m2 m3 bs -> only_free m1 m3 bs.
Proof. intros H1 H2 x Hx. by rewrite H2, H1. Qed.

Lemma lookup_st8_free m a : st8 m a MEM_BLOCK_STAT_FREE !! a = Some MEM_BLOCK_STAT_FREE.
Proof. by apply lookup_st8_eq. Qed.
Lemma lookup_st8_use m a : st8 m a MEM_BLOCK_STAT_USE !! a = Some MEM_BLOCK_STAT_USE.
Proof. by apply lookup_st8_eq. Qed.
#[export] Hint Rewrite lookup_st8_free lookup_st8_use : mem.

(** ** Alignment *)

Lemma land_align x : 0 <= x < 18446744073709551616 ->
  Z.land x (u64 (Z.lnot (MEM_ALIGN_NUM - 1))) = 8 * (x / 8).
Proof.
  intros Hx. unfold wrap, MEM_ALIGN_NUM. rewrite <-Z.land_ones by lia.
  rewrite (Z.land_comm (Z.lnot _)), Z.land_assoc, Z.land_ones by lia.
  rewrite (Z.mod_small x) by lia. rewrite <-Z.ldiff_land. change (8 - 1) with (Z.ones 3).
  rewrite Z.ldiff_ones_r, Z.shiftl_mul_pow2, Z.shiftr_div_pow2 by lia. change (2 ^ 3) with 8. lia.
Qed.

Lemma ALIGN_DOWN_eq x : 0 <= x < 18446744073709551616 -> ALIGN_DOWN x = 8 * (x / 8).
Proof. intros Hx. unfold ALIGN_DOWN. rewrite u64_small by lia. by apply land_align. Qed.

Lemma ALIGN_UP_eq x : 0 <= x < 18446744073709551609 -> ALIGN_UP x = 8 * ((x + 7) / 8).
Proof.
  intros Hx. unfold ALIGN_UP. rewrite (u64_small x) by lia. unfold MEM_ALIGN_NUM at 1.
  rewrite u64_small by lia. rewrite land_align by lia. done.
Qed.

(** The block size for a request of [size] bytes. *)
Lemma alloc_size_eq size : 0 <= size < 18446744073709551600 -> alloc_size size = 8 * ((size + 8) / 8) + 8.
Proof.
  intros Hs. unfold alloc_size, MEM_BLOCK_HEAD_SIZE. rewrite (u64_small (size + 1)) by lia.
  rewrite ALIGN_UP_eq by lia. replace (size + 1 + 7) with (size + 8) by lia.
  apply u64_small. pose proof (Z.mul_div_le (size + 8) 8). pose proof (Z.div_pos (size + 8) 8). lia.
Qed.

Lemma alloc_size_bounds size : 0 <= size < 18446744073709551600 ->
  size + 9 <= alloc_size size <= size + 16 /\ (8 | alloc_size size).
Proof.
  intros Hs. rewrite alloc_size_eq by done. split.
  - pose proof (Z.mul_div_le (size + 8) 8). pose proof (Z.mul_succ_div_gt (size + 8) 8). lia.
  - exists ((size + 8) / 8 + 1). lia.
Qed.

(** ** The invariant of a heap *)

Definition heap_lo (h : MEM_Heap_t) : Z := ALIGN_UP (h_base h).
Definition heap_hi (h : MEM_Heap_t) : Z := ALIGN_DOWN (u64 (h_base h + h_size h)).

Record heap_ok (minsz : Z) (fdog : Z -> Prop) (m : mem) (h : MEM_Heap_t) (bs : list blk) : Prop := {
  ho_core : core minsz fdog m (h_free_list h) bs (heap_lo h) (heap_hi h);
  ho_coalesced : coalesced bs;
  ho_free : h_free h = sum_sizes (frees bs);
  ho_mark : 0 <= h_free_watermark h <= h_free h;
  ho_region : 0 < h_base h /\ 0 < h_size h /\ h_base h + h_size h <= 72057594037927936
}.

Lemma heap_region_size h :
  0 < h_base h -> 0 < h_size h -> h_base h + h_size h <= 72057594037927936 ->
  h_base h <= heap_lo h /\ heap_hi h <= h_base h + h_size h.
Proof.
  intros ???. unfold heap_lo, heap_hi. rewrite ALIGN_UP_eq, (u64_small (_ + _)), ALIGN_DOWN_eq by lia.
  pose proof (Z.mul_div_le (h_base h + h_size h) 8). pose proof (Z.mul_succ_div_gt (h_base h + 7) 8). lia.
Qed.

(** The fuel of a heap is more than the number of its blocks. *)
Lemma heap_fuel_enough minsz fdog `{!DogPolicy minsz fdog} m h bs :
  heap_ok minsz fdog m h bs -> (length bs < heap_fuel h)%nat.
Proof.
  intros [[Ht Hs _ _ _ _ _ _] _ _ _ (? & ? & ?)].
  pose proof (tiles_length _ _ _ Hs Ht). destruct (heap_region_size h) as [? ?]; try done.
  unfold heap_fuel. assert (Z.of_nat (length bs) <= h_size h / 16) by (apply Z.div_le_lower_bound; lia). lia.
Qed.

Lemma length_frees bs : (length (frees bs) <= length bs)%nat.
Proof. apply length_filter. Qed.

(** ** Accesses under [wp] *)

Lemma wp_rd64 a v Q s : load64 (hmem s) a = Some v -> Q v s -> wp (rd64 a) Q s.
Proof. intros Hl HQ. unfold wp, rd64. by rewrite Hl. Qed.

Lemma wp_rd8 a v Q s : hmem s !! a = Some v -> Q v s -> wp (rd8 a) Q s.
Proof. intros Hl HQ. unfold wp, rd8, load8. by rewrite Hl. Qed.

Lemma wp_wr64 a v Q s :
  is_Some (load64 (hmem s) a) -> Q tt (set_hmem (fun m => st64 m a v) s) -> wp (wr64 a v) Q s.
Proof. intros [w Hl] HQ. unfold wp, wr64. by rewrite Hl. Qed.

Lemma wp_wr8 a v Q s :
  is_Some (hmem s !! a) -> Q tt (set_hmem (fun m => st8 m a v) s) -> wp (wr8 a v) Q s.
Proof. intros [w Hl] HQ. unfold wp, wr8, load8. by rewrite Hl. Qed.

Lemma wp_get_heap i h Q s : mem_heap_list s !! i = Some h -> Q h s -> wp (get_heap i) Q s.
Proof. intros Hl HQ. unfold wp, get_heap. by rewrite Hl. Qed.

Lemma wp_upd_heap i f h Q s :
  mem_heap_list s !! i = Some h -> Q tt (set_heaps (fun l => <[i := f h]> l) s) -> wp (upd_heap i f) Q s.
Proof. intros Hl HQ. unfold wp, upd_heap. by rewrite Hl. Qed.

(** The context has been set by [tuya_mem_heap_init]. *)
Definition ctx_ready (s : hstate) : Prop :=
  ctx_enter_critical (s_heap_ctx s) <> 0 /\ ctx_exit_critical (s_heap_ctx s) <> 0 /\
  ctx_dbg_output (s_heap_ctx s) <> 0.

Lemma wp_enter Q s : ctx_ready s -> Q tt (add_event EvEnter s) -> wp enter_critical Q s.
Proof. intros (He & _ & _) HQ. unfold wp, enter_critical. destruct (Z.eqb_spec (ctx_enter_critical (s_heap_ctx s)) 0); done. Qed.
Lemma wp_exit Q s : ctx_ready s -> Q tt (add_event EvExit s) -> wp exit_critical Q s.
Proof. intros (_ & He & _) HQ. unfold wp, exit_critical. destruct (Z.eqb_spec (ctx_exit_critical (s_heap_ctx s)) 0); done. Qed.
Lemma wp_dbg msg Q s : ctx_ready s -> Q tt (add_event (EvDbg msg) s) -> wp (dbg_output msg) Q s.
Proof. intros (_ & _ & He) HQ. unfold wp, dbg_output. destruct (Z.eqb_spec (ctx_dbg_output (s_heap_ctx s)) 0); done. Qed.

(** An allocation step keeps the free blocks apart. *)
Lemma alloc_step_coalesced need bs r bs' : alloc_step need bs r bs' -> coalesced bs -> coalesced bs'.
Proof.
  intros [l1 b l2 Hu _ _|l1 b l2 Hu _ _] Hc; apply coalesced_app in Hc as [H1 H2]; apply coalesced_app.
  - split.
    + clear H2. induction l1 as [|c l1 IH]; [done|]. destruct l1 as [|d l1]; simpl in *; [|naive_solver].
      by rewrite Hu in H1.
    + split; [by right|]. apply coalesced_cons_used; [done|]. by apply (coalesced_suffix [b]).
  - split; [apply coalesced_snoc_used; [done|]; by apply coalesced_prefix in H1|].
    apply coalesced_cons_used; [done|]. by apply (coalesced_suffix [b]).
Qed.

(** What an allocation step changes: one new used block, and its bytes leave the
    free total. *)
Lemma alloc_step_new need bs r bs' :
  alloc_step need bs r bs' ->
  exists nb, nb ∈ bs' /\ ba nb = r /\ bused nb = true /\ need <= bsz nb < need + MEM_HEAP_MIN_SIZE /\
    sum_sizes (frees bs) = bsz nb + sum_sizes (frees bs') /\ useds bs' ≡ₚ nb :: useds bs.
Proof.
  intros [l1 b l2 Hu ? ?|l1 b l2 Hu ? ?]; eexists;
    (split; [apply elem_of_app; right|]).
  - right. left.
  - cbn [ba bused bsz]. split_and!; try done; [unfold MEM_HEAP_MIN_SIZE, MEM_BLOCK_MIN_SIZE, MEM_BLOCK_HEAD_SIZE in *; lia| |].
    + rewrite !frees_app, !frees_cons_free, frees_cons_used, !sum_sizes_app by done. simpl. lia.
    + rewrite !useds_app, useds_cons_free, useds_cons_used, (useds_cons_free b) by done.
      symmetry. apply Permutation_middle.
  - left.
  - cbn [ba bused bsz]. split_and!; try done; [unfold MEM_HEAP_MIN_SIZE, MEM_BLOCK_MIN_SIZE, MEM_BLOCK_HEAD_SIZE in *; lia| |].
    + rewrite !frees_app, (frees_cons_free b), frees_cons_used, !sum_sizes_app by done. simpl. lia.
    + rewrite !useds_app, useds_cons_used, useds_cons_free by done.
      symmetry. apply Permutation_middle.
Qed.

Lemma sum_sizes_frees_nonneg minsz fdog `{!DogPolicy minsz fdog} bs : Forall (sized minsz) bs -> 0 <= sum_sizes (frees bs).
Proof.
  induction 1 as [|b bs Hb Hs IH]; [done|]. destruct (bused b) eqn:E.
  - by rewrite frees_cons_used.
  - rewrite frees_cons_free by done. simpl. apply (sized_min (fdog:=fdog)) in Hb. lia.
Qed.

(** The free bytes of a layout fit in its region. *)
Lemma sum_sizes_frees_le minsz fdog `{!DogPolicy minsz fdog} bs a t :
  Forall (sized minsz) bs -> tiles a bs t -> sum_sizes (frees bs) <= t - a.
Proof.
  revert a. induction bs as [|b bs IH]; intros a Hs Ht; simpl in *; [cbn; lia|].
  destruct Ht as [<- Ht]. apply Forall_cons in Hs as [Hb Hs]. specialize (IH _ Hs Ht).
  apply (sized_min (fdog:=fdog)) in Hb. unfold bend in *. destruct (bused b) eqn:E.
  - rewrite frees_cons_used by done. lia.
  - rewrite frees_cons_free by done. simpl. lia.
Qed.

Lemma set_heaps_id s i h : mem_heap_list s !! i = Some h ->
  set_heaps (fun l => <[i := with_free_list (h_free_list h) h]> l) s = s.
Proof.
  intros Hi. destruct s, h; unfold set_heaps, with_free_list; simpl in *. f_equal. by apply list_insert_id.
Qed.
