(* ===== verification/MemHeapAlloc.v ===== *)
(** * Allocation keeps the layout

    [mem_chunk_get] and [MEM_Allocate] implement [alloc_step]: the search finds a
    free block that is large enough whenever there is one, and cutting or
    unlinking it keeps the invariant and writes to free blocks only. *)

From S2P Require Import Prelude CMem MemHeap MemHeapInv.

Section Alloc.
Context {minsz : Z} {fdog : Z -> Prop} `{!DogPolicy minsz fdog}.
Local Abbreviation core := (core minsz fdog).
Local Abbreviation blk_ok := (blk_ok fdog).
Local Abbreviation sized := (sized minsz).

(** ** The search *)

(** The inner loop returns a block of the free list with its predecessor. *)
Lemma anti_fragment_spec s need fl :
  Forall (blk_ok (hmem s)) fl -> Forall (fun b => 0 < ba b) fl ->
  forall rest fuel k1 kb l1 b l2 p n,
  (length rest < fuel)%nat ->
  fl = k1 ++ kb :: rest -> fl = l1 ++ b :: l2 -> need <= bsz b ->
  lseg (hmem s) p rest 0 ->
  wp (anti_fragment fuel need (ba b) (lastaddr l1) (ba kb) p n)
    (fun r s' => s' = s /\ exists l1' b' l2',
       fl = l1' ++ b' :: l2' /\ r = (ba b', lastaddr l1') /\ need <= bsz b' <= bsz b) s.
Proof.
  intros Hok Hpos rest. rewrite Forall_forall in Hok, Hpos.
  induction rest as [|c rest IH]; intros [|fuel] k1 kb l1 b l2 p n Hf Ek El Hb Hl; simpl in Hf; try lia.
  - simpl in Hl. subst p. apply wp_ret. split; [done|]. exists l1, b, l2. split_and!; done || lia.
  - destruct Hl as (-> & nx & Hnx & Hl). cbn [anti_fragment].
    assert (c ∈ fl) as Hc by (subst fl; set_solver).
    assert (b ∈ fl) as Hbf by (rewrite El; set_solver).
    destruct (Z.eqb_spec (ba c) 0) as [E|_]; [specialize (Hpos c Hc); lia|].
    apply wp_bind. eapply wp_rd64; [apply (Hok c Hc)|].
    apply wp_bind. eapply wp_rd64; [apply (Hok b Hbf)|]. cbn zeta.
    assert (fl = (k1 ++ [kb]) ++ c :: rest) as Ec by (by rewrite <-app_assoc).
    destruct ((need <=? bsz c) && (bsz c <=? bsz b)) eqn:Hit; zbool.
    + rewrite <-(lastaddr_snoc k1 kb). destruct (FIT_FIND_DEPTH <=? n + 1).
      * apply wp_ret. split; [done|]. exists (k1 ++ [kb]), c, rest. done.
      * apply wp_bind. eapply wp_rd64; [exact Hnx|].
        eapply wp_mono; [eapply (IH fuel (k1 ++ [kb]) c (k1 ++ [kb]) c); eauto; lia|].
        intros r s' (-> & l1' & b' & l2' & ? & ? & ?). split; [done|].
        exists l1', b', l2'. split_and!; try done; lia.
    + destruct (FIT_FIND_DEPTH <=? n).
      * apply wp_ret. split; [done|]. exists l1, b, l2. split_and!; done || lia.
      * apply wp_bind. eapply wp_rd64; [exact Hnx|]. eapply (IH fuel (k1 ++ [kb]) c); eauto. lia.
Qed.

(** The outer loop fails only when every free block is too small. *)
Lemma chunk_loop_spec s i need fl Q :
  Forall (blk_ok (hmem s)) fl -> Forall (fun b => 0 < ba b) fl ->
  forall rest fuel afuel l1 p,
  (length rest < fuel)%nat -> (length fl <= afuel)%nat ->
  fl = l1 ++ rest -> Forall (fun b => bsz b < need) l1 ->
  lseg (hmem s) p rest 0 ->
  (Forall (fun b => bsz b < need) fl -> Q 0 s) ->
  (forall l1' b' l2', fl = l1' ++ b' :: l2' -> need <= bsz b' ->
     wp (take_block i need (ba b') (lastaddr l1')) Q s) ->
  wp (chunk_loop fuel afuel i need (lastaddr l1) p) Q s.
Proof.
  intros Hok Hpos rest. induction rest as [|c rest IH];
    intros [|fuel] afuel l1 p Hf Haf El Hsmall Hl Hnone Hsome; simpl in Hf; try lia.
  - simpl in Hl. subst p. apply wp_ret, Hnone. by rewrite El, app_nil_r.
  - destruct Hl as (-> & nx & Hnx & Hl). cbn [chunk_loop].
    assert (c ∈ fl) as Hc by (subst fl; set_solver).
    assert (0 < ba c) as Hcp by (exact (proj1 (Forall_forall _ _) Hpos c Hc)).
    pose proof (proj1 (Forall_forall _ _) Hok c Hc) as [Hcs _].
    destruct (Z.eqb_spec (ba c) 0) as [E|_]; [lia|].
    apply wp_bind. eapply wp_rd64; [exact Hcs|].
    destruct (Z.leb_spec need (bsz c)).
    + apply wp_bind. eapply wp_rd64; [exact Hnx|]. apply wp_bind.
      eapply wp_mono.
      { eapply (anti_fragment_spec s need fl Hok Hpos rest afuel l1 c l1 c rest); try done.
        rewrite El, length_app in Haf. simpl in Haf. lia. }
      intros r s' (-> & l1' & b' & l2' & Efl & -> & ? & ?). simpl. eapply Hsome; eauto.
    + apply wp_bind. eapply wp_rd64; [exact Hnx|]. rewrite <-(lastaddr_snoc l1 c).
      apply IH; try done; [lia|by rewrite <-app_assoc|].
      apply Forall_app. split; [done|]. by constructor.
Qed.
(** ** Cutting and unlinking *)

Lemma take_block_split s i p L1 b L2 lo hi need pre :
  core (hmem s) p (L1 ++ b :: L2) lo hi -> bused b = false ->
  minsz <= need -> (8 | need) -> need <= bsz b -> MEM_HEAP_MIN_SIZE <= bsz b - need ->
  wp (take_block i need (ba b) pre) (fun r s' => exists m',
    r = ba b + (bsz b - need) /\ s' = set_hmem (fun _ => m') s /\
    core m' p (L1 ++ Blk (ba b) (bsz b - need) false :: Blk (ba b + (bsz b - need)) need true :: L2) lo hi /\
    only_free (hmem s) m' (L1 ++ b :: L2)) s.
Proof.
  intros Hc Hu Hn Hn8 Hle Hmin. pose proof Hc as [Ht Hs Hok Hl Hm Hlo Hal Hhi].
  assert (b ∈ L1 ++ b :: L2) as Hb by set_solver.
  destruct (core_bounds _ _ _ _ _ _ Hc Hb) as (_ & ? & ? & ? & _).
  pose proof (dp_min (minsz:=minsz) (fdog:=fdog)). pose proof (dp_max (minsz:=minsz) (fdog:=fdog)).
  unfold MEM_HEAP_MIN_SIZE, MEM_BLOCK_MIN_SIZE, MEM_BLOCK_HEAD_SIZE in *.
  pose proof Hok as Hok'. rewrite Forall_app, Forall_cons in Hok'. destruct Hok' as (Hok1 & [Hbs _] & Hok2).
  pose proof Hs as Hs'. rewrite Forall_app, Forall_cons in Hs'. destruct Hs' as (Hs1 & Hsb & Hs2).
  unfold take_block. apply wp_bind. eapply wp_rd64; [exact Hbs|].
  rewrite !(u64_small (bsz b - need)) by lia. rewrite !(u64_small (ba b + (bsz b - need))) by lia.
  destruct (Z.leb_spec MEM_HEAP_MIN_SIZE (bsz b - need)) as [_|Hlt];
    [|unfold MEM_HEAP_MIN_SIZE, MEM_BLOCK_MIN_SIZE, MEM_BLOCK_HEAD_SIZE in *; lia].
  unfold wr_size, MEM_DOG_ADDR.
  apply wp_bind, wp_wr64; [by eexists|]. cbn [hmem set_hmem].
  apply wp_bind, wp_wr8; cbn [hmem set_hmem]; [apply (mapped_st64 _ _ _ lo hi Hm); lia|].
  apply wp_bind, wp_wr64; cbn [hmem set_hmem];
    [apply (mapped_load64 _ lo hi); [by auto with tuya|lia..]|].
  apply wp_bind, wp_wr8; cbn [hmem set_hmem];
    [apply (mapped_st64 _ _ _ lo hi); [by auto with tuya|lia]|].
  apply wp_ret. eexists. split; [done|]. split; [reflexivity|].
  cbn [hmem set_hmem]. set (m' := st8 _ _ _).
  assert (forall x, x < ba b \/ bend b <= x -> m' !! x = hmem s !! x) as Hout.
  { intros x Hx. unfold m', bend in *. autorewrite with mem. done. }
  destruct (core_outside _ _ _ _ _ _ _ _ Hc Hout) as [Ha1 Ha2].
  split.
  - apply (core_replace _ m' p p L1 [b] [_; _] L2 lo hi Hc).
    + intros a t [<- Hend]. simpl in *. unfold bend in *. simpl. lia.
    + destruct Hsb as [? [k Hk]], Hn8 as [k' Hk']. repeat constructor; simpl; try lia.
      exists (k - k'). lia. exists k'. lia.
    + by eapply blk_oks_agree.
    + unfold m'. repeat constructor; cbn [ba bsz bused]; autorewrite with mem; try done.
      * exists MEM_BLOCK_STAT_FREE. unfold bend. cbn [ba bsz]. autorewrite with mem. split; [done|]. apply dp_free.
      * exists MEM_BLOCK_STAT_USE. unfold bend. simpl. autorewrite with mem. done.
    + by eapply blk_oks_agree.
    + rewrite frees_app, frees_cons_free in Hl by done.
      cbn [app]. rewrite frees_app, frees_cons_free, frees_cons_used by done.
      apply lseg_app in Hl as (r & Hl1 & -> & nx & Hnx & Hl2). apply lseg_app.
      exists (ba b). split; [eapply lseg_agree; [by apply Forall_frees| |done]; intros c [_ ?]%elem_of_frees; auto|].
      split; [done|]. exists nx. split; [unfold m'; simpl; autorewrite with mem; done|].
      eapply lseg_agree; [by apply Forall_frees| |done]; intros c [_ ?]%elem_of_frees; auto.
    + unfold m'. auto with tuya.
  - intros x Hx. apply Hout. specialize (Hx b Hb Hu). lia.
Qed.
(** The memory after unlinking [b]: the link of its predecessor [kb], then its tag. *)
Lemma unlink_core m p K1 kb K2 b L2 lo hi nx :
  core m p (K1 ++ kb :: K2 ++ b :: L2) lo hi -> bused kb = false -> bused b = false ->
  frees K2 = [] -> load64 m (ba b + 8) = Some nx ->
  let m' := st8 (st64 m (ba kb + 8) nx) (bend b - 1) MEM_BLOCK_STAT_USE in
  core m' p (K1 ++ kb :: K2 ++ Blk (ba b) (bsz b) true :: L2) lo hi /\
  only_free m m' (K1 ++ kb :: K2 ++ b :: L2).
Proof.
  intros Hc Hkb Hu HK2 Hnx m'. pose proof Hc as [Ht Hs Hok Hl Hm Hlo Hal Hhi].
  assert (forall c, c ∈ kb :: b :: L2 -> c ∈ K1 ++ kb :: K2 ++ b :: L2) as Hin by set_solver.
  destruct (core_bounds _ _ _ _ _ kb Hc) as (_ & ? & ? & ? & _); [set_solver|].
  destruct (core_bounds _ _ _ _ _ b Hc) as (_ & ? & ? & ? & _); [set_solver|].
  pose proof (tiles_mid _ _ _ _ _ Hs Ht) as (_ & _ & _ & _ & B1 & B2).
  rewrite app_comm_cons, app_assoc in Hs, Ht.
  pose proof (tiles_mid _ _ _ _ _ Hs Ht) as (_ & _ & _ & _ & B3 & B4).
  assert (bend kb <= ba b) by (apply B3; set_solver).
  rewrite <-app_assoc, <-app_comm_cons in Hs, Ht.
  rewrite !Forall_app, Forall_cons, Forall_app, Forall_cons in Hok, Hs.
  destruct Hok as (Hok1 & Hokb & HokK & [Hbs _] & Hok2), Hs as (Hs1 & Hskb & HsK & Hsb & Hs2).
  rewrite frees_app, frees_cons_free, frees_app, HK2, frees_cons_free in Hl by done.
  apply lseg_app in Hl as (r & Hl1 & -> & ? & Hkn & -> & nx' & Hnx' & Hl2).
  rewrite Hnx in Hnx'. injection Hnx' as <-.
  assert (0 <= nx < 72057594037927936) as Hnxb.
  { apply lseg_head in Hl2 as ->. destruct (frees L2) as [|d l] eqn:E; [done|].
    assert (d ∈ frees L2) as Hd by (rewrite E; set_solver). apply elem_of_frees in Hd as [_ Hd].
    destruct (core_bounds _ _ _ _ _ d Hc); [set_solver|]. unfold headaddr. simpl. lia. }
  assert (forall c, c ∈ K1 \/ c ∈ K2 \/ c ∈ L2 -> agree m m' c) as Ha.
  { intros c Hcin. eapply agree_trans; [apply agree_st64|apply agree_st8]; unfold bend in *.
    - destruct Hcin as [Hcin|[Hcin|Hcin]].
      + specialize (B1 c Hcin). lia.
      + specialize (B2 c). assert (ba kb + bsz kb <= ba c) by (apply B2; set_solver). lia.
      + specialize (B2 c). assert (ba kb + bsz kb <= ba c) by (apply B2; set_solver). lia.
    - destruct Hcin as [Hcin|[Hcin|Hcin]].
      + assert (ba c + bsz c <= ba b) by (apply B3; set_solver). lia.
      + assert (ba c + bsz c <= ba b) by (apply B3; set_solver). lia.
      + specialize (B4 c Hcin). lia. }
  assert (forall L, (forall c, c ∈ L -> c ∈ K1 \/ c ∈ K2 \/ c ∈ L2) -> Forall sized L ->
    Forall (blk_ok m) L -> Forall (blk_ok m') L) as Hoks.
  { intros L HL ??. eapply blk_oks_agree; eauto. }
  split; [split; try done|].
  - rewrite app_comm_cons, app_assoc. apply tiles_set_used. by rewrite <-app_assoc.
  - rewrite !Forall_app, Forall_cons, Forall_app, Forall_cons. done.
  - rewrite !Forall_app, Forall_cons, Forall_app, Forall_cons. split_and!; [apply Hoks; auto| |apply Hoks; auto| |apply Hoks; auto].
    + eapply blk_ok_agree; [done| |by apply blk_ok_wr_next]. apply agree_st8. unfold bend in *. lia.
    + unfold m'. split; simpl; autorewrite with mem; [|eexists; unfold bend; simpl; autorewrite with mem; done].
      rewrite load64_st8_ne, load64_st64_ne; [done|unfold bend in *; lia..].
  - rewrite frees_app, frees_cons_free, frees_app, HK2, frees_cons_used by done.
    apply lseg_app. exists (ba kb). split; [|split; [done|]].
    + eapply lseg_agree; [by apply Forall_frees| |done]. intros c [_ ?]%elem_of_frees; auto.
    + exists nx. split.
      * unfold m'. rewrite load64_st8_ne by (unfold bend in *; lia). apply load64_st64_eq. lia.
      * eapply lseg_agree; [by apply Forall_frees| |done]. intros c [_ ?]%elem_of_frees; auto.
  - unfold m'. auto with tuya.
  - intros x Hx. unfold m'. assert (~ ba kb <= x < bend kb) by (apply Hx; set_solver).
    assert (~ ba b <= x < bend b) by (apply Hx; set_solver). unfold bend in *.
    rewrite lookup_st8_ne by lia. apply lookup_st64_ne. lia.
Qed.

(** The same when [b] is the first free block: the head of the list moves. *)
Lemma unlink_head_core m p L1 b L2 lo hi nx :
  core m p (L1 ++ b :: L2) lo hi -> bused b = false -> frees L1 = [] -> load64 m (ba b + 8) = Some nx ->
  let m' := st8 m (bend b - 1) MEM_BLOCK_STAT_USE in
  core m' nx (L1 ++ Blk (ba b) (bsz b) true :: L2) lo hi /\ only_free m m' (L1 ++ b :: L2).
Proof.
  intros Hc Hu HL1 Hnx m'. pose proof Hc as [Ht Hs Hok Hl Hm Hlo Hal Hhi].
  destruct (core_bounds _ _ _ _ _ b Hc) as (_ & ? & ? & ? & _); [set_solver|].
  destruct (core_outside m m' _ _ _ _ _ _ Hc) as [Ha1 Ha2].
  { intros x Hx. apply lookup_st8_ne. unfold bend in *. lia. }
  rewrite Forall_app, Forall_cons in Hok, Hs.
  destruct Hok as (Hok1 & [Hbs _] & Hok2), Hs as (Hs1 & Hsb & Hs2).
  rewrite frees_app, HL1, frees_cons_free in Hl by done.
  destruct Hl as (-> & nx' & Hnx' & Hl2). rewrite Hnx in Hnx'. injection Hnx' as <-.
  split; [split; try done|].
  - by apply tiles_set_used.
  - rewrite Forall_app, Forall_cons. done.
  - rewrite Forall_app, Forall_cons. split_and!; [by eapply blk_oks_agree| |by eapply blk_oks_agree].
    unfold m'. split; simpl; [|eexists; unfold bend; simpl; autorewrite with mem; done].
    rewrite load64_st8_ne; [done|unfold bend in *; lia].
  - rewrite frees_app, HL1, frees_cons_used by done. simpl.
    eapply lseg_agree; [by apply Forall_frees| |done]. intros c [_ ?]%elem_of_frees; auto.
  - unfold m'. auto with tuya.
  - intros x Hx. assert (~ ba b <= x < bend b) by (apply Hx; set_solver).
    apply lookup_st8_ne. unfold bend in *. lia.
Qed.

(** What [take_block] does to the block [b] of the layout. *)
Definition took (s : hstate) (i : nat) (h : MEM_Heap_t) (bs : list blk) (lo hi need r : Z) (s' : hstate) : Prop :=
  exists bs' m' p', alloc_step need bs r bs' /\
    s' = set_hmem (fun _ => m') (set_heaps (fun l => <[i := with_free_list p' h]> l) s) /\
    core m' p' bs' lo hi /\ only_free (hmem s) m' bs.

Lemma take_block_whole s i h L1 b L2 lo hi need :
  mem_heap_list s !! i = Some h ->
  core (hmem s) (h_free_list h) (L1 ++ b :: L2) lo hi -> bused b = false -> 0 <= need ->
  need <= bsz b -> bsz b - need < MEM_HEAP_MIN_SIZE ->
  wp (take_block i need (ba b) (lastaddr (frees L1))) (took s i h (L1 ++ b :: L2) lo hi need) s.
Proof.
  intros Hi Hc Hu Hn0 Hle Hmin. pose proof Hc as [Ht Hs Hok Hl Hm Hlo Hal Hhi].
  destruct (core_bounds _ _ _ _ _ b Hc) as (_ & ? & ? & ? & _); [set_solver|].
  assert (load64 (hmem s) (ba b) = Some (bsz b)) as Hbs.
  { rewrite Forall_forall in Hok. apply (Hok b). set_solver. }
  destruct (mapped_load64 (hmem s) lo hi (ba b + 8)) as [nx Hnx]; [done|lia..|].
  unfold take_block. apply wp_bind. eapply wp_rd64; [exact Hbs|].
  rewrite u64_small by lia. destruct (Z.leb_spec MEM_HEAP_MIN_SIZE (bsz b - need)) as [?|_]; [lia|].
  apply wp_bind. eapply wp_rd64; [exact Hnx|]. apply wp_bind. unfold MEM_DOG_ADDR.
  destruct (frees L1) as [|kb k1 _] eqn:EL1 using rev_ind.
  - change (lastaddr []) with 0. simpl. eapply wp_upd_heap; [exact Hi|].
    apply wp_bind. eapply wp_rd64; [exact Hbs|].
    apply wp_bind, wp_wr8; [apply Hm; cbn; lia|]. apply wp_ret.
    destruct (unlink_head_core _ _ _ _ _ _ _ _ Hc Hu EL1 Hnx).
    eexists _, _, nx. split; [by apply alloc_whole|]. split; [reflexivity|]. done.
  - apply frees_app_inv in EL1 as (K1 & K2 & -> & _ & HK2 & Hkb).
    rewrite <-app_assoc, <-app_comm_cons in Hc.
    destruct (core_bounds _ _ _ _ _ kb Hc) as (_ & ? & ? & ? & _); [set_solver|].
    rewrite lastaddr_snoc. destruct (Z.eqb_spec (ba kb) 0); [lia|]. simpl.
    apply wp_wr64; [apply (mapped_load64 _ lo hi); [done|lia..]|].
    destruct (unlink_core _ _ _ _ _ _ _ _ _ _ Hc Hkb Hu HK2 Hnx) as [Hc' Hof].
    apply wp_bind. eapply wp_rd64.
    { cbn [hmem set_hmem]. rewrite load64_st64_ne; [exact Hbs|].
      destruct (tiles_mid _ _ _ _ _ Hs Ht) as (_ & _ & _ & _ & B & _). specialize (B kb).
      unfold bend in B. assert (ba kb + bsz kb <= ba b) by (apply B; set_solver). lia. }
    apply wp_bind, wp_wr8; [apply (mapped_st64 _ _ _ lo hi Hm); cbn; lia|]. apply wp_ret.
    rewrite <-app_assoc, <-app_comm_cons.
    eexists _, _, (h_free_list h). rewrite set_heaps_id by done.
    split; [|split; [reflexivity|done]].
    rewrite app_comm_cons, app_assoc. rewrite (app_comm_cons K2), (app_assoc K1). by apply alloc_whole.
Qed.

(** ** [mem_chunk_get] *)

Lemma mem_chunk_get_spec s i h bs need :
  mem_heap_list s !! i = Some h -> heap_ok minsz fdog (hmem s) h bs -> minsz <= need -> (8 | need) ->
  wp (mem_chunk_get i need) (fun r s' =>
    (r = 0 /\ s' = s /\ Forall (fun b => bsz b < need) (frees bs)) \/
    took s i h bs (heap_lo h) (heap_hi h) need r s') s.
Proof.
  intros Hi Hok Hn Hn8. pose proof (heap_fuel_enough _ _ _ _ _ Hok) as Hfuel.
  pose proof (length_frees bs). pose proof (dp_min (minsz:=minsz) (fdog:=fdog)).
  destruct Hok as [Hc _ _ _ _]. unfold mem_chunk_get. apply wp_bind. eapply wp_get_heap; [exact Hi|].
  change 0 with (lastaddr []) at 1. apply (chunk_loop_spec s i need (frees bs)) with (rest := frees bs); try done.
  - apply Forall_frees, Hc.
  - apply Forall_forall. intros b [_ Hb]%elem_of_frees. destruct (core_bounds _ _ _ _ _ _ Hc Hb). lia.
  - lia.
  - lia.
  - apply Hc.
  - intros Hsmall. by left.
  - intros l1 b l2 E Hb. apply frees_app_inv in E as (L1 & L2 & -> & <- & <- & Hu).
    destruct (decide (MEM_HEAP_MIN_SIZE <= bsz b - need)) as [Hbig|Hbig].
    + eapply wp_mono; [by eapply take_block_split|]. intros r s' (m' & -> & -> & Hc' & Hof). right.
      eexists _, m', (h_free_list h). rewrite set_heaps_id by done.
      split; [by apply alloc_split|]. done.
    + eapply wp_mono; [eapply take_block_whole; try done; lia|]. intros r s' Ht. by right.
Qed.

(** ** [MEM_Allocate] *)

(** The size the code works with: at least 4. *)
Definition request (size : Z) : Z := if size <? 4 then 4 else size.

Definition alloc_post (s : hstate) (i : nat) (h : MEM_Heap_t) (bs : list blk) (size p : Z) (s' : hstate) : Prop :=
  exists h' bs', mem_heap_list s' = <[i := h']> (mem_heap_list s) /\
    h_base h' = h_base h /\ h_size h' = h_size h /\ s_heap_ctx s' = s_heap_ctx s /\
    hevents s' = EvExit :: EvEnter :: hevents s /\
    heap_ok minsz fdog (hmem s') h' bs' /\ only_free (hmem s) (hmem s') bs /\
    ((p = 0 /\ bs' = bs /\ h' = h /\ Forall (fun b => bsz b < alloc_size (request size)) (frees bs)) \/
     (exists nb, nb ∈ bs' /\ p = ba nb + MEM_BLOCK_HEAD_SIZE /\ bused nb = true /\ alloc_size (request size) <= bsz nb /\
        alloc_step (alloc_size (request size)) bs (ba nb) bs' /\ h_free h' = h_free h - bsz nb /\
        s_heap_free_size s' = u64 (s_heap_free_size s - bsz nb))).

Lemma MEM_Allocate_spec s i h bs size :
  mem_heap_list s !! i = Some h -> heap_ok minsz fdog (hmem s) h bs -> ctx_ready s ->
  0 < size < 18446744073709551600 -> minsz <= alloc_size (request size) ->
  wp (MEM_Allocate (Some i) size) (alloc_post s i h bs size) s.
Proof.
  intros Hi Hok Hctx Hsize Hmin. unfold MEM_Allocate.
  destruct (Z.eqb_spec size 0) as [?|_]; [lia|]. cbn zeta. fold (request size).
  assert (0 <= request size < 18446744073709551600) as Hreq by (unfold request; destruct (Z.ltb_spec size 4); lia).
  destruct (alloc_size_bounds _ Hreq) as [? H8].
  destruct (Z.ltb_spec (alloc_size (request size)) (request size)) as [?|_]; [lia|].
  apply wp_bind, wp_enter; [done|]. apply wp_bind.
  eapply wp_mono; [eapply (mem_chunk_get_spec (add_event EvEnter s)); done|].
  intros r s' [(-> & -> & Hsmall)|(bs' & m' & p' & Hstep & -> & Hc' & Hof)].
  - simpl. apply wp_bind, wp_ret. apply wp_bind, wp_exit; [done|]. apply wp_ret.
    exists h, bs. cbn. rewrite list_insert_id by done. split_and!; try done. by left.
  - destruct (alloc_step_new _ _ _ _ Hstep) as (nb & Hnb & <- & Hused & Hsz & Hsum & _).
    destruct (core_bounds _ _ _ _ _ _ Hc' Hnb) as (? & ? & ? & ? & ?).
    assert (load64 m' (ba nb) = Some (bsz nb)) as Hld.
    { destruct Hc' as [_ _ Hoks _ _ _ _ _]. rewrite Forall_forall in Hoks. by apply Hoks. }
    assert (0 <= sum_sizes (frees bs')) by (eapply (sum_sizes_frees_nonneg minsz fdog), Hc').
    destruct Hok as [Hc Hco Hfree Hmark Hreg].
    pose proof (sum_sizes_frees_le minsz fdog _ _ _ (co_sized _ _ _ _ _ Hc) (co_tiles _ _ _ _ _ Hc)).
    assert (ba nb <> 0) as Hnz by lia. apply Z.eqb_neq in Hnz. rewrite Hnz.
    assert (i < length (mem_heap_list s))%nat as Hlen by (by eapply lookup_lt_Some).
    simpl. apply wp_bind, wp_bind. eapply wp_rd64; [exact Hld|].
    apply wp_bind. eapply wp_upd_heap; [cbn; by apply list_lookup_insert_eq|].
    apply wp_bind. eapply wp_upd_heap; [cbn; rewrite list_insert_insert_eq; by apply list_lookup_insert_eq|].
    cbn [with_free with_free_list h_free h_free_watermark]. rewrite (u64_small (h_free h - bsz nb)) by lia.
    do 2 (apply wp_bind; apply wp_gets || apply wp_modify). apply wp_bind, wp_gets. apply wp_bind, wp_gets.
    set (h' := if _ <? _ then _ else _).
    assert (h_free_list h' = p' /\ h_base h' = h_base h /\ h_size h' = h_size h /\
      h_free h' = h_free h - bsz nb /\ 0 <= h_free_watermark h' <= h_free h') as (E1 & E2 & E3 & E4 & E5).
    { unfold h'. zcase; cbn; lia. }
    assert (heap_ok minsz fdog m' h' bs') as Hok'.
    { split; [|by eapply alloc_step_coalesced|lia|lia|by rewrite E2, E3].
      unfold heap_lo, heap_hi. by rewrite E1, E2, E3. }
    apply wp_when; intros _; [apply wp_modify|]; (apply wp_bind, wp_exit; [done|]; apply wp_ret;
      exists h', bs'; cbn; rewrite !list_insert_insert_eq; split_and!; try done; right;
      exists nb; unfold MEM_BLOCK_HEAD_SIZE; rewrite (u64_small (ba nb + 8)) by lia; split_and!; try done; lia).
Qed.
End Alloc.
