(* ===== verification/MemHeapFree.v ===== *)
(** * Release keeps the layout

    [MEM_Deallocate] implements [free_step]: the block goes back to the
    address-ordered free list and is merged with the free blocks it touches. *)

From S2P Require Import Prelude CMem MemHeap MemHeapInv.

(** ** Splitting a layout around the released block *)

Lemma split_left l : coalesced l -> exists P lft,
  l = P ++ option_list lft /\ (forall p, lft = Some p -> bused p = false) /\ last_used P.
Proof.
  intros Hc. destruct l as [|z l _] using rev_ind.
  { exists [], None. split; [done|]. by split; intros ? [=]. }
  destruct (bused z) eqn:E.
  - exists (l ++ [z]), None. split; [by rewrite app_nil_r|]. split; [done|].
    intros b. rewrite last_snoc. by intros [= <-].
  - exists l, (Some z). split; [done|]. split; [by intros ? [= <-]|].
    intros b Hb. apply last_Some in Hb as [l' ->]. rewrite <-app_assoc in Hc.
    apply coalesced_suffix in Hc. destruct Hc as [[?|?] _]; congruence.
Qed.

Lemma split_right l : coalesced l -> exists rgt N,
  l = option_list rgt ++ N /\ (forall q, rgt = Some q -> bused q = false) /\ head_used N.
Proof.
  intros Hc. destruct l as [|z l].
  { exists None, []. split; [done|]. by split; intros ? [=]. }
  destruct (bused z) eqn:E.
  - exists None, (z :: l). split; [done|]. split; [done|]. by intros b [= <-].
  - exists (Some z), l. split; [done|]. split; [by intros ? [= <-]|].
    intros b Hb. destruct l as [|y l]; [done|]. injection Hb as ->.
    destruct Hc as [[?|?] _]; congruence.
Qed.

Lemma free_step_coalesced bs a bs' : free_step bs a bs' -> coalesced bs -> coalesced bs'.
Proof.
  intros [P lft b rgt N Hb _ _ HP HN] Hc. apply coalesced_app. split.
  - apply coalesced_snoc_last; [done|]. by apply coalesced_prefix in Hc.
  - apply coalesced_cons_head; [done|]. rewrite app_assoc, app_comm_cons, app_assoc in Hc.
    by apply coalesced_suffix in Hc.
Qed.

(** What a release changes: the block's bytes join the free total. *)
Lemma free_merge_sum P lft b rgt N a :
  bused b = true ->
  (forall p, lft = Some p -> bused p = false) -> (forall q, rgt = Some q -> bused q = false) ->
  let bs := P ++ option_list lft ++ b :: option_list rgt ++ N in
  let bs' := P ++ Blk a (osize lft + bsz b + osize rgt) false :: N in
  sum_sizes (frees bs') = sum_sizes (frees bs) + bsz b /\ useds bs ≡ₚ b :: useds bs'.
Proof.
  intros Hb Hl Hr. cbn zeta.
  assert (useds (option_list lft) = [] /\ frees (option_list lft) = option_list lft) as [Ul Fl].
  { destruct lft as [p|]; simpl; [|done]. rewrite useds_cons_free, frees_cons_free; auto. }
  assert (useds (option_list rgt) = [] /\ frees (option_list rgt) = option_list rgt) as [Ur Fr].
  { destruct rgt as [q|]; simpl; [|done]. rewrite useds_cons_free, frees_cons_free; auto. }
  rewrite !frees_app, (frees_cons_used b), frees_cons_free, !frees_app, Fl, Fr by done.
  rewrite !useds_app, (useds_cons_used b), (useds_cons_free (Blk _ _ _)), !useds_app, Ul, Ur by done.
  split.
  - rewrite !sum_sizes_app. destruct lft, rgt; simpl; lia.
  - simpl. symmetry. apply Permutation_middle.
Qed.

Section Free.
Context {minsz : Z} {fdog : Z -> Prop} `{!DogPolicy minsz fdog}.
Local Abbreviation core := (core minsz fdog).
Local Abbreviation blk_ok := (blk_ok fdog).
Local Abbreviation sized := (sized minsz).

(** After a used last block, a free block does not reach the end. *)
Lemma last_used_gap P a t kb :
  last_used P -> Forall sized P -> tiles a P t -> kb ∈ P -> bused kb = false -> bend kb < t.
Proof.
  intros Hl Hs Ht Hk Hf. destruct P as [|z P _] using rev_ind; [set_solver|].
  assert (bused z = true) as Hz by (apply Hl, last_snoc).
  assert (kb ∈ P) as HkP by (apply elem_of_app in Hk as [?|Hk]; [done|]; apply list_elem_of_singleton in Hk; congruence).
  destruct (tiles_mid (fdog:=fdog) _ _ _ _ _ Hs Ht) as (_ & ? & _ & _ & B & _). specialize (B kb HkP).
  apply Forall_app in Hs as [_ Hs]. apply Forall_cons in Hs as [Hs _]. apply (sized_min (fdog:=fdog)) in Hs.
  unfold bend in *. lia.
Qed.

(** ** The walk to the neighbours *)

Lemma find_neighbours_spec s fb fl2 : Forall (fun c => fb <= ba c) fl2 ->
  forall fl1 fuel l0 p, (length fl1 < fuel)%nat -> Forall (fun c => 0 < ba c < fb) fl1 ->
  lseg (hmem s) p (fl1 ++ fl2) 0 ->
  wp (find_neighbours fuel fb (lastaddr l0) p)
    (fun r s' => s' = s /\ r = (lastaddr (l0 ++ fl1), headaddr fl2)) s.
Proof.
  intros H2 fl1. induction fl1 as [|c fl1 IH]; intros [|fuel] l0 p Hf H1 Hl; simpl in Hf; try lia; cbn [find_neighbours].
  - simpl in Hl. apply lseg_head in Hl as ->. rewrite app_nil_r.
    replace (negb (headaddr fl2 =? 0) && (headaddr fl2 <? fb)) with false; [by apply wp_ret|].
    symmetry. destruct fl2 as [|d fl2]; [done|]. apply Forall_cons in H2 as [Hd _].
    unfold headaddr. simpl. apply andb_false_intro2, Z.ltb_ge. done.
  - destruct Hl as (-> & n & Hn & Hl). apply Forall_cons in H1 as [Hc H1].
    replace (negb (ba c =? 0) && (ba c <? fb)) with true.
    2:{ symmetry. apply andb_true_intro. split; [|apply Z.ltb_lt; lia]. apply negb_true_iff, Z.eqb_neq. lia. }
    apply wp_bind. eapply wp_rd64; [exact Hn|]. rewrite <-(lastaddr_snoc l0 c).
    eapply wp_mono; [apply (IH fuel (l0 ++ [c]) n); [lia|done..]|].
    intros r s' [-> ->]. by rewrite <-app_assoc.
Qed.

(** ** A block that is free but not yet linked *)

Record pending (m : mem) (p : Z) (L1 : list blk) (b : blk) (L2 : list blk) (lo hi : Z) : Prop := {
  pe_tiles : tiles lo (L1 ++ b :: L2) hi;
  pe_sized : Forall sized (L1 ++ b :: L2);
  pe_ok : Forall (blk_ok m) (L1 ++ b :: L2);
  pe_free : bused b = false;
  pe_next : load64 m (ba b + 8) = Some (headaddr (frees L2));
  pe_linked : lseg m p (frees L1 ++ frees L2) 0;
  pe_mapped : mapped m lo hi;
  pe_lo : 0 < lo;
  pe_align : (8 | lo);
  pe_hi : hi <= 72057594037927936
}.

Lemma headaddr_range m p bs lo hi l :
  core m p bs lo hi -> (forall c, c ∈ l -> c ∈ bs) -> 0 <= headaddr (frees l) < 72057594037927936.
Proof.
  intros Hc Hin. unfold headaddr. destruct (frees l) as [|c r] eqn:E; simpl; [lia|].
  assert (c ∈ frees l) as [_ Hcl]%elem_of_frees by (rewrite E; set_solver).
  destruct (core_bounds _ _ _ _ _ c Hc (Hin c Hcl)). lia.
Qed.

Lemma pending_intro m p L1 b L2 lo hi :
  core m p (L1 ++ b :: L2) lo hi -> bused b = true ->
  let m' := st64 (st8 m (bend b - 1) MEM_BLOCK_STAT_FREE) (ba b + 8) (headaddr (frees L2)) in
  pending m' p L1 (Blk (ba b) (bsz b) false) L2 lo hi /\
  (forall x, x < ba b \/ bend b <= x -> m' !! x = m !! x).
Proof.
  intros Hc Hu m'. pose proof Hc as [Ht Hs Hok Hl Hm Hlo Hal Hhi].
  destruct (core_bounds _ _ _ _ _ b Hc) as (_ & ? & ? & ? & _); [set_solver|].
  assert (forall x, x < ba b \/ bend b <= x -> m' !! x = m !! x) as Hout.
  { intros x Hx. unfold m', bend in *. rewrite lookup_st64_ne, lookup_st8_ne by lia. done. }
  destruct (core_outside m m' _ _ _ _ _ _ Hc Hout) as [Ha1 Ha2]. split; [|done].
  assert (0 <= headaddr (frees L2) < 72057594037927936) by (eapply headaddr_range; [exact Hc|]; set_solver).
  rewrite Forall_app, Forall_cons in Hok, Hs.
  destruct Hok as (Hok1 & [Hbs _] & Hok2), Hs as (Hs1 & Hsb & Hs2).
  rewrite frees_app, frees_cons_used in Hl by done.
  split; try done.
  - by apply tiles_set_used.
  - rewrite Forall_app, Forall_cons. done.
  - rewrite Forall_app, Forall_cons. split_and!; [by eapply blk_oks_agree| |by eapply blk_oks_agree].
    unfold m'. apply (blk_ok_wr_next _ (Blk (ba b) (bsz b) false)); [done..|]. split; cbn [ba bsz bused].
    + rewrite load64_st8_ne; [done|unfold bend; lia].
    + exists MEM_BLOCK_STAT_FREE. unfold bend. cbn [ba bsz]. autorewrite with mem. split; [done|]. apply dp_free.
  - unfold m'. cbn [ba]. apply load64_st64_eq. lia.
  - eapply lseg_agree; [| |done]; [apply Forall_app; split; by apply Forall_frees|].
    intros c [Hc1|Hc1]%elem_of_app; apply elem_of_frees in Hc1 as [_ ?]; auto.
  - unfold m'. auto with tuya.
Qed.

(** ** Linking to the left *)

Lemma pending_bounds m p L1 b L2 lo hi c :
  pending m p L1 b L2 lo hi -> c ∈ L1 ++ b :: L2 ->
  0 < lo /\ lo <= ba c /\ 16 <= bsz c /\ ba c + bsz c <= hi /\ hi <= 72057594037927936.
Proof.
  intros [Ht Hs _ _ _ _ _ ? _ ?] Hc. destruct (tiles_elem (fdog:=fdog) _ _ _ _ Hs Ht Hc).
  rewrite Forall_forall in Hs. specialize (Hs c Hc). apply (sized_min (fdog:=fdog)) in Hs. unfold bend in *. lia.
Qed.

(** No free block before: [b] becomes the head of the list. *)
Lemma link_first m p L1 b L2 lo hi :
  pending m p L1 b L2 lo hi -> frees L1 = [] -> core m (ba b) (L1 ++ b :: L2) lo hi.
Proof.
  intros [Ht Hs Hok Hf Hn Hl Hm ? ? ?] HL1. split; try done.
  rewrite frees_app, HL1, frees_cons_free by done. rewrite HL1 in Hl. simpl in Hl |- *.
  split; [done|]. eexists. split; [exact Hn|]. apply lseg_head in Hl as Hp. by subst p.
Qed.

(** The free block [kb] before does not touch [b]. *)
Lemma link_after m p K1 kb K2 b L2 lo hi :
  pending m p (K1 ++ kb :: K2) b L2 lo hi -> bused kb = false -> frees K2 = [] ->
  let m' := st64 m (ba kb + 8) (ba b) in
  core m' p ((K1 ++ kb :: K2) ++ b :: L2) lo hi /\ (forall x, x < ba kb \/ bend kb <= x -> m' !! x = m !! x).
Proof.
  intros Hp Hkb HK2 m'. pose proof Hp as [Ht Hs Hok Hf Hn Hl Hm ? ? ?].
  destruct (pending_bounds _ _ _ _ _ _ _ kb Hp) as (_ & ? & ? & ? & _); [set_solver|].
  destruct (pending_bounds _ _ _ _ _ _ _ b Hp) as (_ & ? & ? & ? & _); [set_solver|].
  assert (forall x, x < ba kb \/ bend kb <= x -> m' !! x = m !! x) as Hout.
  { intros x Hx. unfold m', bend in *. apply lookup_st64_ne. lia. }
  split; [|done]. rewrite <-app_assoc, <-app_comm_cons in Ht, Hs, Hok |- *.
  destruct (tiles_mid (fdog:=fdog) _ _ _ _ _ Hs Ht) as (_ & _ & _ & _ & B1 & B2).
  assert (forall c, c ∈ K1 \/ c ∈ K2 ++ b :: L2 -> agree m m' c) as Ha.
  { intros c [Hc|Hc] x Hx; apply Hout; [specialize (B1 c Hc)|specialize (B2 c Hc)]; lia. }
  rewrite Forall_app, Forall_cons in Hok. pose proof Hs as Hs'. rewrite Forall_app, Forall_cons in Hs'.
  destruct Hok as (Hok1 & Hokb & Hok2), Hs' as (Hs1 & Hskb & Hs2).
  assert (bend kb <= ba b) by (apply B2; set_solver). unfold bend in *.
  split; try done.
  - rewrite Forall_app, Forall_cons. split_and!; [eapply blk_oks_agree; eauto| |eapply blk_oks_agree; eauto].
    apply blk_ok_wr_next; try done. lia.
  - rewrite frees_app, frees_cons_free, HK2 in Hl by done. rewrite <-app_assoc in Hl. simpl in Hl.
    apply lseg_app in Hl as (r & Hl1 & -> & nx & Hnx & Hl2).
    rewrite frees_app, frees_cons_free, frees_app, HK2, frees_cons_free by done. apply lseg_app.
    exists (ba kb). assert (forall l q1 q2, (forall c, c ∈ l -> c ∈ K1 \/ c ∈ K2 ++ b :: L2) ->
      Forall sized l -> lseg m q1 (frees l) q2 -> lseg m' q1 (frees l) q2) as Hseg.
    { intros l q1 q2 Hin Hsl. apply lseg_agree; [by apply Forall_frees|].
      intros c [_ Hcl]%elem_of_frees. auto. }
    split; [apply Hseg; auto|]. split; [done|]. exists (ba b). split; [apply load64_st64_eq; lia|].
    split; [done|]. exists (headaddr (frees L2)). split.
    + rewrite <-Hn. unfold m'. apply load64_st64_ne. lia.
    + apply lseg_head in Hl2 as Hp'. subst nx. rewrite Forall_app, Forall_cons in Hs2.
      apply Hseg; [set_solver|apply Hs2|done].
  - unfold m'. auto with tuya.
Qed.

(** The free block [q] before touches [b]: it grows. *)
Lemma merge_left m p K q b L2 lo hi :
  pending m p (K ++ [q]) b L2 lo hi -> bused q = false ->
  let m' := st64 m (ba q) (bsz q + bsz b) in
  core m' p (K ++ Blk (ba q) (bsz q + bsz b) false :: L2) lo hi /\ bend q = ba b /\
  (forall x, x < ba q \/ bend q <= x -> m' !! x = m !! x).
Proof.
  intros Hp Hq m'. pose proof Hp as [Ht Hs Hok Hf Hn Hl Hm ? ? ?].
  destruct (pending_bounds _ _ _ _ _ _ _ q Hp) as (_ & ? & ? & ? & _); [set_solver|].
  destruct (pending_bounds _ _ _ _ _ _ _ b Hp) as (_ & ? & ? & ? & _); [set_solver|].
  assert (forall x, x < ba q \/ bend q <= x -> m' !! x = m !! x) as Hout.
  { intros x Hx. unfold m', bend in *. apply lookup_st64_ne. lia. }
  rewrite <-app_assoc in Ht, Hs, Hok. simpl in Ht, Hs, Hok.
  destruct (tiles_mid (fdog:=fdog) _ _ _ _ _ Hs Ht) as (_ & _ & HtK & [Hqb Ht2] & B1 & B2).
  split; [|done].
  assert (forall c, c ∈ K \/ c ∈ L2 -> agree m m' c) as Ha.
  { intros c [Hc|Hc] x Hx; apply Hout; [specialize (B1 c Hc); lia|].
    assert (bend q <= ba c) by (apply B2; set_solver). lia. }
  rewrite Forall_app, !Forall_cons in Hok, Hs.
  destruct Hok as (Hok1 & [Hqs _] & [Hbs Hbd] & Hok2), Hs as (Hs1 & Hsq & Hsb & Hs2). unfold bend in *.
  split; try done.
  - apply tiles_app. exists (ba q). split; [done|]. split; [done|]. unfold bend. cbn [ba bsz].
    replace (ba q + (bsz q + bsz b)) with (ba b + bsz b) by lia. done.
  - rewrite Forall_app, Forall_cons. split_and!; try done. destruct Hsq as [? [k Hk]], Hsb as [? [k' Hk']].
    split; cbn [bsz]; [lia|]. exists (k + k'). lia.
  - rewrite Forall_app, Forall_cons. split_and!; [eapply blk_oks_agree; eauto| |eapply blk_oks_agree; eauto].
    split; cbn [ba bsz bused]; [apply load64_st64_eq; lia|].
    destruct Hbd as (d & Hd & Hfd). rewrite Hf in Hfd. exists d. split; [|done]. rewrite <-Hd. unfold bend in *. cbn [ba bsz].
    replace (ba q + (bsz q + bsz b) - 1) with (ba b + bsz b - 1) by lia. apply lookup_st64_ne. lia.
  - rewrite frees_app, frees_cons_free in Hl by done. rewrite <-app_assoc in Hl. simpl in Hl.
    apply lseg_app in Hl as (r & Hl1 & -> & nx & Hnx & Hl2).
    rewrite frees_app, frees_cons_free by done. apply lseg_app. exists (ba q). split.
    { eapply lseg_agree; [by apply Forall_frees| |done]. intros c [_ ?]%elem_of_frees. auto. }
    split; [done|]. exists nx. split; [rewrite <-Hnx; apply load64_st64_ne; cbn [ba]; lia|].
    eapply lseg_agree; [by apply Forall_frees| |done]. intros c [_ ?]%elem_of_frees. auto.
  - unfold m'. auto with tuya.
Qed.

Lemma link_left_spec s i h P lft b L2 lo hi :
  mem_heap_list s !! i = Some h ->
  pending (hmem s) (h_free_list h) (P ++ option_list lft) b L2 lo hi ->
  (forall q, lft = Some q -> bused q = false) -> last_used P ->
  wp (link_left i (ba b) (lastaddr (frees (P ++ option_list lft)))) (fun r s' => exists m' p',
    r = ba (default b lft) /\
    s' = set_hmem (fun _ => m') (set_heaps (fun l => <[i := with_free_list p' h]> l) s) /\
    core m' p' (P ++ Blk (ba (default b lft)) (osize lft + bsz b) false :: L2) lo hi /\
    only_free (hmem s) m' ((P ++ option_list lft) ++ b :: L2)) s.
Proof.
  intros Hi Hp Hfree HP. pose proof Hp as [Ht Hs Hok Hf _ _ Hm ? ? ?].
  destruct (pending_bounds _ _ _ _ _ _ _ b Hp) as (_ & ? & ? & ? & _); [set_solver|].
  unfold link_left. destruct lft as [q|]; simpl in *.
  - specialize (Hfree q eq_refl).
    destruct (pending_bounds _ _ _ _ _ _ _ q Hp) as (_ & ? & ? & ? & _); [set_solver|].
    rewrite frees_app, frees_cons_free, lastaddr_snoc by done.
    destruct (Z.eqb_spec (ba q) 0) as [?|_]; [lia|].
    destruct (merge_left _ _ _ _ _ _ _ _ Hp Hfree) as (Hc & Hqb & Hout).
    rewrite !Forall_app, !Forall_cons in Hok. destruct Hok as ((_ & [Hqs _] & _) & [Hbs _] & _).
    apply wp_bind. eapply wp_rd64; [exact Hqs|]. unfold bend in Hqb. rewrite Hqb, Z.eqb_refl.
    apply wp_bind. eapply wp_rd64; [exact Hbs|]. rewrite u64_small by lia.
    apply wp_bind, wp_wr64; [by eexists|]. apply wp_ret.
    eexists _, (h_free_list h). rewrite set_heaps_id by done. split; [done|]. split; [reflexivity|].
    split; [done|]. eapply (only_free_block _ _ _ q); [set_solver|done|exact Hout].
  - rewrite app_nil_r in *.
    assert (b = Blk (ba b) (bsz b) false) as Eb by (destruct b; simpl in *; congruence).
    destruct (frees P) as [|kb k1 _] eqn:EP using rev_ind.
    + change (lastaddr []) with 0. simpl. apply wp_bind. eapply wp_upd_heap; [exact Hi|]. apply wp_ret.
      exists (hmem s), (ba b). split; [done|]. split; [by destruct s|]. rewrite Z.add_0_l, <-Eb.
      split; [by eapply link_first|done].
    + apply frees_app_inv in EP as (K1 & K2 & -> & _ & HK2 & Hkb).
      destruct (pending_bounds _ _ _ _ _ _ _ kb Hp) as (_ & ? & ? & ? & _); [set_solver|].
      rewrite lastaddr_snoc. destruct (Z.eqb_spec (ba kb) 0) as [?|_]; [lia|].
      destruct (tiles_mid (fdog:=fdog) _ _ _ _ _ Hs Ht) as (_ & _ & HtP & _).
      assert (bend kb < ba b) as Hgap.
      { eapply last_used_gap; [exact HP| |exact HtP|set_solver|done]. by apply Forall_app in Hs as [? _]. }
      destruct (link_after _ _ _ _ _ _ _ _ _ Hp Hkb HK2) as (Hc & Hout).
      rewrite !Forall_app, !Forall_cons in Hok. destruct Hok as ((_ & [Hqs _] & _) & [Hbs _] & _).
      apply wp_bind. eapply wp_rd64; [exact Hqs|]. unfold bend in Hgap.
      destruct (Z.eqb_spec (ba kb + bsz kb) (ba b)) as [?|_]; [lia|].
      apply wp_bind, wp_wr64; [apply (mapped_load64 _ lo hi); [done|lia..]|]. apply wp_ret.
      eexists _, (h_free_list h). rewrite set_heaps_id by done. split; [done|]. split; [reflexivity|].
      rewrite Z.add_0_l, <-Eb. split; [done|]. eapply (only_free_block _ _ _ kb); [set_solver|done|exact Hout].
Qed.

(** ** Merging to the right *)

Lemma merge_right_core m p P c q N lo hi nn :
  core m p (P ++ c :: q :: N) lo hi -> bused c = false -> bused q = false -> load64 m (ba q + 8) = Some nn ->
  let m' := st64 (st64 m (ba c) (bsz c + bsz q)) (ba c + 8) nn in
  core m' p (P ++ Blk (ba c) (bsz c + bsz q) false :: N) lo hi /\ bend c = ba q /\
  (forall x, x < ba c \/ bend c <= x -> m' !! x = m !! x).
Proof.
  intros Hc Hcf Hqf Hnn m'. pose proof Hc as [Ht Hs Hok Hl Hm ? ? ?].
  destruct (core_bounds _ _ _ _ _ c Hc) as (_ & ? & ? & ? & _); [set_solver|].
  destruct (core_bounds _ _ _ _ _ q Hc) as (_ & ? & ? & ? & _); [set_solver|].
  assert (forall x, x < ba c \/ bend c <= x -> m' !! x = m !! x) as Hout.
  { intros x Hx. unfold m', bend in *. rewrite !lookup_st64_ne by lia. done. }
  destruct (tiles_mid (fdog:=fdog) _ _ _ _ _ Hs Ht) as (_ & _ & HtP & [Hqb Ht2] & B1 & B2). split; [|done].
  assert (forall d, d ∈ P \/ d ∈ N -> agree m m' d) as Ha.
  { intros d [Hd|Hd] x Hx; apply Hout; [specialize (B1 d Hd); lia|].
    assert (bend c <= ba d) by (apply B2; set_solver). lia. }
  assert (0 <= nn < 72057594037927936) as Hnb.
  { rewrite frees_app, !frees_cons_free in Hl by done.
    apply lseg_app in Hl as (r & _ & _ & ? & _ & _ & n' & Hn' & Hl'). rewrite Hnn in Hn'. injection Hn' as <-.
    apply lseg_head in Hl' as ->. eapply headaddr_range; [exact Hc|]. set_solver. }
  rewrite Forall_app, !Forall_cons in Hok, Hs.
  destruct Hok as (Hok1 & [Hcs _] & [Hqs Hqd] & Hok2), Hs as (Hs1 & Hsc & Hsq & Hs2). unfold bend in *.
  split; try done.
  - apply tiles_app. exists (ba c). split; [done|]. split; [done|]. unfold bend. cbn [ba bsz].
    replace (ba c + (bsz c + bsz q)) with (ba q + bsz q) by lia. done.
  - rewrite Forall_app, Forall_cons. split_and!; try done. destruct Hsc as [? [k Hk]], Hsq as [? [k' Hk']].
    split; cbn [bsz]; [lia|]. exists (k + k'). lia.
  - rewrite Forall_app, Forall_cons. split_and!; [eapply blk_oks_agree; eauto| |eapply blk_oks_agree; eauto].
    unfold m'. split; cbn [ba bsz bused]; [rewrite load64_st64_ne by lia; apply load64_st64_eq; lia|].
    destruct Hqd as (d & Hd & Hfd). rewrite Hqf in Hfd. exists d. split; [|done]. rewrite <-Hd. unfold bend in *. cbn [ba bsz].
    replace (ba c + (bsz c + bsz q) - 1) with (ba q + bsz q - 1) by lia. rewrite !lookup_st64_ne by lia. done.
  - rewrite frees_app, !frees_cons_free in Hl by done.
    apply lseg_app in Hl as (r & Hl1 & -> & ? & _ & -> & n' & Hn' & Hl2). rewrite Hnn in Hn'. injection Hn' as <-.
    rewrite frees_app, frees_cons_free by done. apply lseg_app. exists (ba c). split.
    { eapply lseg_agree; [by apply Forall_frees| |done]. intros d [_ ?]%elem_of_frees. auto. }
    split; [done|]. exists nn. split; [apply load64_st64_eq; lia|].
    eapply lseg_agree; [by apply Forall_frees| |done]. intros d [_ ?]%elem_of_frees. auto.
  - unfold m'. auto with tuya.
Qed.

Lemma merge_right_spec s p P c rgt N lo hi :
  core (hmem s) p (P ++ c :: option_list rgt ++ N) lo hi -> bused c = false ->
  (forall q, rgt = Some q -> bused q = false) -> head_used N ->
  wp (merge_right (ba c) (headaddr (frees (option_list rgt ++ N)))) (fun _ s' => exists m',
    s' = set_hmem (fun _ => m') s /\
    core m' p (P ++ Blk (ba c) (bsz c + osize rgt) false :: N) lo hi /\
    only_free (hmem s) m' (P ++ c :: option_list rgt ++ N)) s.
Proof.
  intros Hc Hcf Hfree HN. pose proof Hc as [Ht Hs Hok Hl Hm ? ? ?].
  destruct (core_bounds _ _ _ _ _ c Hc) as (_ & ? & ? & ? & _); [set_solver|].
  assert (load64 (hmem s) (ba c) = Some (bsz c)) as Hcs.
  { rewrite Forall_forall in Hok. apply (Hok c). set_solver. }
  assert (c = Blk (ba c) (bsz c) false) as Ec by (destruct c; simpl in *; congruence).
  unfold merge_right. destruct rgt as [q|]; simpl in *.
  - specialize (Hfree q eq_refl). rewrite frees_cons_free by done. unfold headaddr. simpl.
    destruct (core_bounds _ _ _ _ _ q Hc) as (_ & ? & ? & ? & _); [set_solver|].
    destruct (Z.eqb_spec (ba q) 0) as [?|_]; [lia|]. simpl.
    destruct (mapped_load64 (hmem s) lo hi (ba q + 8)) as [nn Hnn]; [done|lia..|].
    destruct (merge_right_core _ _ _ _ _ _ _ _ _ Hc Hcf Hfree Hnn) as (Hc' & Hcq & Hout).
    unfold bend in Hcq. apply wp_bind. eapply wp_rd64; [exact Hcs|]. rewrite Hcq, Z.eqb_refl.
    assert (load64 (hmem s) (ba q) = Some (bsz q)) as Hqs.
    { rewrite Forall_forall in Hok. apply (Hok q). set_solver. }
    apply wp_bind. eapply wp_rd64; [exact Hqs|]. rewrite u64_small by lia.
    apply wp_bind, wp_wr64; [by eexists|]. apply wp_bind. eapply wp_rd64.
    { cbn [hmem set_hmem]. rewrite load64_st64_ne by lia. exact Hnn. }
    apply wp_wr64; [apply (mapped_load64 _ lo hi); [cbn; by auto with tuya|lia..]|].
    eexists. split; [reflexivity|]. split; [done|].
    eapply (only_free_block _ _ _ c); [set_solver|done|exact Hout].
  - assert (wp (ret tt) (fun (_ : unit) s' => exists m', s' = set_hmem (fun _ => m') s /\
      core m' p (P ++ Blk (ba c) (bsz c + 0) false :: N) lo hi /\ only_free (hmem s) m' (P ++ c :: N)) s) as Hret.
    { apply wp_ret. exists (hmem s). split; [by destruct s|]. rewrite Z.add_0_r, <-Ec. done. }
    destruct (frees N) as [|d l] eqn:EN; [done|]. unfold headaddr. simpl.
    destruct (decide (ba d = 0)) as [E|E]; [by rewrite E|].
    rewrite (proj2 (Z.eqb_neq _ _) E). simpl. apply wp_bind. eapply wp_rd64; [exact Hcs|].
    destruct (Z.eqb_spec (ba c + bsz c) (ba d)) as [E2|_]; [exfalso|done].
    assert (d ∈ frees N) as [Hdf HdN]%elem_of_frees by (rewrite EN; set_solver).
    destruct N as [|z N]; [done|]. assert (bused z = true) by (by apply HN).
    assert (d ∈ N) as HdN' by (apply elem_of_cons in HdN as [->|?]; congruence || done).
    destruct (tiles_mid (fdog:=fdog) _ _ _ _ _ Hs Ht) as (_ & _ & _ & [Hz Ht'] & _).
    rewrite Forall_app, !Forall_cons in Hs. destruct Hs as (_ & _ & Hsz & HsN).
    destruct (tiles_elem (fdog:=fdog) _ _ _ _ HsN Ht' HdN'). apply (sized_min (fdog:=fdog)) in Hsz.
    unfold bend in *. lia.
Qed.

(** ** [MEM_Deallocate] *)

(** The walk over the free list stops on both sides of a used block, also once
    its tag has been overwritten. *)
Lemma find_neighbours_around m p L1 b L2 lo hi s fuel :
  core m p (L1 ++ b :: L2) lo hi -> bused b = true -> (length (L1 ++ b :: L2) < fuel)%nat ->
  hmem s = st8 m (ba b + bsz b - 1) MEM_BLOCK_STAT_FREE ->
  wp (find_neighbours fuel (ba b) 0 p)
    (fun r s' => s' = s /\ r = (lastaddr (frees L1), headaddr (frees L2))) s.
Proof.
  intros Hc Hu Hfuel Em. pose proof Hc as [Ht Hs _ Hl _ _ _ _].
  destruct (core_bounds _ _ _ _ _ b Hc) as (_ & _ & ? & _); [set_solver|].
  destruct (tiles_mid (fdog:=fdog) _ _ _ _ _ Hs Ht) as (_ & _ & _ & _ & B1 & B2).
  eapply (find_neighbours_spec _ _ (frees L2)) with (fl1 := frees L1) (l0 := []).
  - apply Forall_forall. intros c [_ Hcl]%elem_of_frees. specialize (B2 c Hcl). unfold bend in B2. lia.
  - pose proof (length_frees L1). rewrite length_app in Hfuel. lia.
  - apply Forall_forall. intros c [_ Hcl]%elem_of_frees. specialize (B1 c Hcl).
    destruct (core_bounds _ _ _ _ _ c Hc) as (? & ? & ? & ? & ?); [set_solver|]. unfold bend in B1. lia.
  - rewrite Em. rewrite frees_app, frees_cons_used in Hl by done.
    eapply lseg_agree; [| |exact Hl]; [rewrite Forall_app, Forall_cons in Hs; apply Forall_app; split; apply Forall_frees; apply Hs|].
    intros c Hcl. apply agree_st8. unfold bend in *.
    apply elem_of_app in Hcl as [Hcl|Hcl]; apply elem_of_frees in Hcl as [_ Hcl]; [specialize (B1 c Hcl)|specialize (B2 c Hcl)]; lia.
Qed.

(** The bytes that releasing [b] may write: those of [b] and of the free blocks. *)
Definition released_only (m m' : mem) (bs : list blk) (b : blk) : Prop :=
  forall x, (forall c, c ∈ bs -> bused c = false \/ c = b -> ~ ba c <= x < bend c) -> m' !! x = m !! x.

Lemma release_frame m m0 m1 m2 P lft b L2 lo hi :
  let bs := (P ++ option_list lft) ++ b :: L2 in
  Forall sized bs -> tiles lo bs hi -> (forall q, lft = Some q -> bused q = false) ->
  (forall x, x < ba b \/ bend b <= x -> m0 !! x = m !! x) ->
  only_free m0 m1 ((P ++ option_list lft) ++ Blk (ba b) (bsz b) false :: L2) ->
  only_free m1 m2 (P ++ Blk (ba (default b lft)) (osize lft + bsz b) false :: L2) ->
  released_only m m2 bs b.
Proof.
  intros bs Hs Ht Hlf H0 H1 H2 x Hx.
  assert (~ ba b <= x < bend b) as Hxb by (apply Hx; [unfold bs; set_solver|by right]).
  assert (forall c, c ∈ P ++ L2 -> bused c = false -> ~ ba c <= x < bend c) as HxP.
  { intros c Hcl Hcf. apply Hx; [unfold bs; set_solver|by left]. }
  assert (forall q, lft = Some q -> bend q = ba b /\ ~ ba q <= x < bend q) as Hxl.
  { intros q ->. split; [|apply Hx; [unfold bs; simpl; set_solver|left; auto]].
    unfold bs in Ht. simpl in Ht. rewrite <-app_assoc in Ht. apply tiles_app in Ht as (k & _ & _ & E & _). done. }
  rewrite H2, H1, H0; [done|lia| |].
  - intros c Hcl Hcf. rewrite !elem_of_app, elem_of_cons in Hcl.
    destruct Hcl as [[Hcl|Hcl]|[->|Hcl]]; [apply HxP; set_solver| |done|apply HxP; set_solver].
    destruct lft as [q|]; simpl in Hcl; [|set_solver]. apply list_elem_of_singleton in Hcl as ->. by apply Hxl.
  - intros c Hcl Hcf. rewrite elem_of_app, elem_of_cons in Hcl.
    destruct Hcl as [Hcl|[->|Hcl]]; [apply HxP; set_solver| |apply HxP; set_solver].
    unfold bend in *. destruct lft as [q|]; simpl in *; [|lia]. specialize (Hxl q eq_refl). lia.
Qed.


Definition free_post (s : hstate) (i : nat) (h : MEM_Heap_t) (bs : list blk) (b : blk) (s' : hstate) : Prop :=
  exists h' bs', mem_heap_list s' = <[i := h']> (mem_heap_list s) /\
    h_base h' = h_base h /\ h_size h' = h_size h /\ s_heap_ctx s' = s_heap_ctx s /\
    hevents s' = EvExit :: EvEnter :: hevents s /\
    heap_ok minsz fdog (hmem s') h' bs' /\ free_step bs (ba b) bs' /\
    h_free h' = h_free h + bsz b /\ h_free_watermark h' = h_free_watermark h /\
    s_heap_free_size s' = u64 (s_heap_free_size s + bsz b) /\
    released_only (hmem s) (hmem s') bs b.

Lemma MEM_Deallocate_spec s i h bs b :
  mem_heap_list s !! i = Some h -> heap_ok minsz fdog (hmem s) h bs -> ctx_ready s ->
  b ∈ bs -> bused b = true ->
  wp (MEM_Deallocate (Some i) (ba b + MEM_BLOCK_HEAD_SIZE)) (fun _ => free_post s i h bs b) s.
Proof.
  intros Hi Hok Hctx Hb Hu. pose proof (heap_fuel_enough _ _ _ _ _ Hok) as Hfuel.
  destruct Hok as [Hc Hco Hfree Hmark Hreg].
  destruct (core_bounds _ _ _ _ _ b Hc Hb) as (? & ? & ? & ? & ?).
  apply list_elem_of_split in Hb as (L1 & L2 & ->).
  destruct (split_left L1) as (P & lft & -> & Hlf & HP); [by apply coalesced_prefix in Hco|].
  destruct (split_right L2) as (rgt & N & -> & Hrf & HN); [by apply coalesced_suffix in Hco as Hco'; apply (coalesced_suffix [b]) in Hco'|].
  set (L1 := P ++ option_list lft) in *. set (L2 := option_list rgt ++ N) in *.
  pose proof Hc as [Ht Hs Hoks Hl Hm ? ? ?].
  rewrite Forall_app, Forall_cons in Hoks. destruct Hoks as (_ & [Hbs (d & Hd & Hud)] & _). rewrite Hu in Hud. subst d.
  assert (free_step (L1 ++ b :: L2) (ba b) (P ++ Blk (ba (default b lft)) (osize lft + bsz b + osize rgt) false :: N)) as Hstep.
  { unfold L1, L2. rewrite <-app_assoc. by apply free_merge. }
  destruct (pending_intro _ _ _ _ _ _ _ Hc Hu) as [Hpend Hout1].
  pose proof (sum_sizes_frees_le minsz fdog _ _ _ Hs Ht) as Hsumle.
  unfold MEM_Deallocate. destruct (Z.eqb_spec (ba b + MEM_BLOCK_HEAD_SIZE) 0) as [?|_]; [unfold MEM_BLOCK_HEAD_SIZE in *; lia|].
  unfold MEM_BLOCK_HEAD_SIZE, MEM_DOG_ADDR. replace (ba b + 8 - 8) with (ba b) by lia. rewrite (u64_small (ba b)) by lia.
  apply wp_bind. eapply wp_rd64; [exact Hbs|]. apply wp_bind. eapply wp_rd8; [exact Hd|]. simpl negb.
  apply wp_bind, wp_enter; [done|]. apply wp_bind, wp_wr8; [by eexists|].
  apply wp_bind. eapply wp_rd64; [cbn [hmem set_hmem add_event]; rewrite load64_st8_ne; [exact Hbs|lia]|].
  apply wp_bind. eapply wp_upd_heap; [exact Hi|]. apply wp_bind, wp_gets. apply wp_bind, wp_modify.
  assert (i < length (mem_heap_list s))%nat as Hlen by (by eapply lookup_lt_Some).
  apply wp_bind. eapply wp_get_heap; [cbn; by apply list_lookup_insert_eq|].
  apply wp_bind. eapply wp_mono; [eapply (find_neighbours_around (hmem s)); done|].
  intros r s' [-> ->]. cbn [fst snd].
  apply wp_bind, wp_wr64; [apply (mapped_load64 _ (heap_lo h) (heap_hi h)); [cbn; by auto with tuya|lia..]|].
  apply wp_bind. eapply wp_mono; [eapply (link_left_spec _ i _ P lft (Blk (ba b) (bsz b) false) L2);
    [cbn; by apply list_lookup_insert_eq|exact Hpend|done|done]|].
  intros r s' (m1 & p1 & -> & -> & Hc1 & Hof1). apply wp_bind.
  assert (ba (default (Blk (ba b) (bsz b) false) lft) = ba (default b lft)) as Edef by (by destruct lft).
  cbn [bsz] in Hc1. rewrite Edef in Hc1 |- *.
  set (c := Blk (ba (default b lft)) (osize lft + bsz b) false) in *.
  change (ba (default b lft)) with (ba c). eapply wp_mono; [eapply (merge_right_spec _ p1 P c rgt N); [exact Hc1|done..]|].
  intros _ s' (m2 & -> & Hc2 & Hof2). apply wp_exit; [done|].
  exists (with_free_list p1 (with_free (h_free h + bsz b) h)), (P ++ Blk (ba c) (bsz c + osize rgt) false :: N).
  destruct (free_merge_sum P lft b rgt N (ba (default b lft)) Hu Hlf Hrf) as [Hsum _]. rewrite (app_assoc P) in Hsum.
  fold L1 L2 in Hsum. cbn [bsz c]. unfold heap_lo, heap_hi in *.
  cbn. rewrite !list_insert_insert_eq, (u64_small (h_free h + bsz b)).
  2:{ pose proof (sum_sizes_frees_le minsz fdog _ _ _ (co_sized _ _ _ _ _ Hc2) (co_tiles _ _ _ _ _ Hc2)) as Hle2.
      unfold c in Hle2. cbn [ba bsz] in Hle2. pose proof (sum_sizes_frees_nonneg minsz fdog _ Hs). lia. }
  split_and!; try done.
  - split; try done; [by eapply free_step_coalesced|cbn [h_free with_free_list with_free]; unfold c; cbn [ba bsz]; lia|cbn; lia].
  - eapply release_frame; done.
Qed.
End Free.
