(* ===== verification/MemHeapCreate.v ===== *)
(** * Creating a heap and checking it

    [MEM_HeapCreate] establishes the invariant of [MemHeapInv] on a fresh region;
    [MEM_HeapStatus] recomputes the statistics of a heap from its memory and
    finds it valid, as long as free blocks keep their tag. *)

From S2P Require Import Prelude CMem MemHeap MemHeapInv.

(** ** [mem_heap_init] and [MEM_HeapCreate] *)

(** The bytes skipped to align the base, and the size of the first block. *)
Definition create_gap (ptr : Z) : Z := ALIGN_UP ptr - ptr.
Definition create_size (ptr size : Z) : Z := 8 * ((size - create_gap ptr) / 8).

#[global] Arguments create_gap : simpl never.
#[global] Arguments create_size : simpl never.

Lemma create_gap_range ptr : 0 <= ptr <= 72057594037927936 -> 0 <= create_gap ptr < 8.
Proof.
  intros Hp. unfold create_gap. rewrite ALIGN_UP_eq by lia.
  pose proof (Z.mul_div_le (ptr + 7) 8). pose proof (Z.mul_succ_div_gt (ptr + 7) 8). lia.
Qed.

(** The end of the first block is the end of the heap. *)
Lemma create_end ptr size :
  0 < ptr -> 0 < size -> ptr + size <= 72057594037927936 -> create_gap ptr <= size ->
  ALIGN_UP ptr + create_size ptr size = ALIGN_DOWN (u64 (ptr + size)).
Proof.
  intros Hp Hs Ht Hg. unfold create_size. rewrite (u64_small (ptr + size)), ALIGN_DOWN_eq by lia.
  unfold create_gap in *. rewrite ALIGN_UP_eq in * by lia. set (k := (ptr + 7) / 8) in *.
  replace (ptr + size) with (size - (8 * k - ptr) + k * 8) by lia. rewrite Z.div_add by lia. lia.
Qed.

Lemma find_slot_ge l k : (k <= find_slot l k)%nat.
Proof. revert k. induction l as [|h l IH]; intros k; simpl; [done|]. destruct (h_size h =? 0); [done|]. specialize (IH (S k)). lia. Qed.

Lemma find_slot_lookup l k : (find_slot l k - k < length l)%nat ->
  exists h, l !! (find_slot l k - k)%nat = Some h /\ h_size h = 0.
Proof.
  revert k. induction l as [|h l IH]; intros k; simpl; [lia|].
  destruct (Z.eqb_spec (h_size h) 0) as [E|E].
  - rewrite Nat.sub_diag. intros _. by exists h.
  - intros Hk. pose proof (find_slot_ge l (S k)). destruct (IH (S k)) as (h' & Hl & E'); [lia|].
    exists h'. split; [|done]. rewrite <-Hl. replace (find_slot l (S k) - k)%nat with (S (find_slot l (S k) - S k)) by lia. done.
Qed.

Section Create.
Context {minsz : Z} {fdog : Z -> Prop} `{!DogPolicy minsz fdog}.

(** A region with one free block satisfies the invariant. *)
Lemma single_block_core m a n m' :
  mapped m a (a + n) -> 0 < a -> (8 | a) -> (8 | n) -> MEM_HEAP_MIN_SIZE <= n -> a + n <= 72057594037927936 ->
  m' = st8 (st64 (st64 m (a + 8) 0) a n) (a + n - 1) MEM_BLOCK_STAT_FREE ->
  core minsz fdog m' a [Blk a n false] a (a + n).
Proof.
  intros Hm Ha Ha8 Hn8 Hn Hhi ->. pose proof (dp_max (minsz:=minsz) (fdog:=fdog)).
  unfold MEM_HEAP_MIN_SIZE, MEM_BLOCK_MIN_SIZE, MEM_BLOCK_HEAD_SIZE in *. split; try done.
  - constructor; [|done]. split; cbn [bsz]; [lia|done].
  - constructor; [|done]. split; cbn [ba bsz bused].
    + rewrite load64_st8_ne by lia. apply load64_st64_eq. lia.
    + eexists. unfold bend. cbn [ba bsz]. split; [apply lookup_st8_free|]. apply dp_free.
  - rewrite frees_cons_free by done. split; [done|]. exists 0. cbn [ba]. split; [|done].
    rewrite load64_st8_ne, load64_st64_ne by lia. by apply load64_st64_eq.
  - auto with tuya.
Qed.

Definition create_post (s : hstate) (i : nat) (ptr size : Z) (s' : hstate) : Prop :=
  exists h, mem_heap_list s' = <[i := h]> (mem_heap_list s) /\ h_base h = ptr /\ h_size h = size /\
    s_heap_ctx s' = s_heap_ctx s /\ hevents s' = hevents s /\
    s_heap_free_size s' = u64 (s_heap_free_size s + create_size ptr size) /\
    heap_ok minsz fdog (hmem s') h [Blk (ALIGN_UP ptr) (create_size ptr size) false] /\
    (forall x, x < ptr \/ ptr + size <= x -> hmem s' !! x = hmem s !! x).

Lemma mem_heap_init_spec s i h0 ptr size :
  mem_heap_list s !! i = Some h0 -> 0 < ptr -> 0 < size -> ptr + size <= 72057594037927936 ->
  mapped (hmem s) ptr (ptr + size) -> create_gap ptr <= size -> MEM_HEAP_MIN_SIZE <= create_size ptr size ->
  wp (mem_heap_init i ptr size) (fun r s' => r = 0 /\ create_post s i ptr size s') s.
Proof.
  intros Hi Hp Hs Ht Hm Hg Hmin. pose proof (create_gap_range ptr ltac:(lia)) as Hg8.
  assert (i < length (mem_heap_list s))%nat as Hlen by (by eapply lookup_lt_Some).
  pose proof (create_end ptr size Hp Hs Ht Hg) as Hend.
  assert (ALIGN_UP ptr = ptr + create_gap ptr) as Eup by (unfold create_gap; lia).
  assert (create_size ptr size <= size - create_gap ptr) as Hle by (unfold create_size; apply Z.mul_div_le; lia).
  assert (mapped (hmem s) (ALIGN_UP ptr) (ALIGN_UP ptr + create_size ptr size)) as Hm' by (eapply mapped_weaken; [exact Hm|lia..]).
  assert ((8 | ALIGN_UP ptr)) as Ha8 by (rewrite ALIGN_UP_eq by lia; apply Z.divide_factor_l).
  assert (ALIGN_DOWN (u64 (size - u64 (ALIGN_UP ptr - ptr))) = create_size ptr size) as Esz.
  { fold (create_gap ptr). rewrite (u64_small (create_gap ptr)), (u64_small (size - _)) by lia. by rewrite ALIGN_DOWN_eq by lia. }
  unfold MEM_HEAP_MIN_SIZE, MEM_BLOCK_MIN_SIZE, MEM_BLOCK_HEAD_SIZE in Hmin.
  unfold mem_heap_init. apply wp_bind. eapply wp_upd_heap; [exact Hi|].
  apply wp_bind. eapply wp_upd_heap; [cbn; by apply list_lookup_insert_eq|]. cbn zeta. rewrite Esz.
  destruct (Z.ltb_spec (create_size ptr size) MEM_HEAP_MIN_SIZE) as [?|_]; [unfold MEM_HEAP_MIN_SIZE, MEM_BLOCK_MIN_SIZE, MEM_BLOCK_HEAD_SIZE in *; lia|].
  apply wp_bind. eapply wp_upd_heap; [cbn; rewrite !list_insert_insert_eq; by apply list_lookup_insert_eq|].
  apply wp_bind, wp_wr64; [cbn; eapply mapped_load64; [exact Hm'|lia..]|].
  apply wp_bind, wp_wr64; [cbn; eapply mapped_load64; [by apply mapped_st64|lia..]|].
  apply wp_bind. eapply wp_upd_heap; [cbn; rewrite !list_insert_insert_eq; by apply list_lookup_insert_eq|].
  apply wp_bind. eapply wp_upd_heap; [cbn; rewrite !list_insert_insert_eq; by apply list_lookup_insert_eq|].
  do 4 (apply wp_bind; first [apply wp_gets|apply wp_modify]).
  apply wp_bind. eapply wp_rd64; [cbn; apply load64_st64_eq; lia|].
  apply wp_bind, wp_wr8; [cbn; apply (mapped_st64 _ _ _ (ALIGN_UP ptr) (ALIGN_UP ptr + create_size ptr size)); [by apply mapped_st64|unfold MEM_DOG_ADDR; lia]|].
  apply wp_ret. split; [done|]. eexists. cbn. rewrite !list_insert_insert_eq. split; [reflexivity|].
  split_and!; try done.
  - split; cbn; try done; [|by rewrite decide_True by done; simpl; lia|lia]. unfold heap_lo, heap_hi. cbn. rewrite <-Hend.
    eapply single_block_core; try done; unfold MEM_HEAP_MIN_SIZE, MEM_BLOCK_MIN_SIZE, MEM_BLOCK_HEAD_SIZE; try lia.
    apply Z.divide_factor_l.
  - intros x Hx. unfold MEM_DOG_ADDR. rewrite lookup_st8_ne, !lookup_st64_ne by lia. done.
Qed.

(** The slot that [MEM_HeapCreate] uses. *)
Definition free_slot (s : hstate) : nat := find_slot (mem_heap_list s) 0.

Lemma free_slot_lookup s : length (mem_heap_list s) = MEM_HEAP_LIST_NUM -> (free_slot s < MEM_HEAP_LIST_NUM)%nat ->
  exists h0, mem_heap_list s !! free_slot s = Some h0.
Proof.
  intros Hlen Hs. destruct (find_slot_lookup (mem_heap_list s) 0) as (h & Hh & _).
  - unfold free_slot in Hs. lia.
  - exists h. by rewrite Nat.sub_0_r in Hh.
Qed.

Lemma MEM_HeapCreate_spec s ptr size :
  ctx_ready s -> length (mem_heap_list s) = MEM_HEAP_LIST_NUM -> (free_slot s < MEM_HEAP_LIST_NUM)%nat ->
  0 < ptr -> 0 < size -> ptr + size <= 72057594037927936 ->
  mapped (hmem s) ptr (ptr + size) -> create_gap ptr <= size -> MEM_HEAP_MIN_SIZE <= create_size ptr size ->
  wp (MEM_HeapCreate ptr size) (fun r s' => r = Some (free_slot s) /\ exists s1,
    create_post (add_event EvEnter s) (free_slot s) ptr size s1 /\ s' = add_event EvExit s1) s.
Proof.
  intros Hctx Hlen Hslot Hp Hs Ht Hm Hg Hmin. destruct (free_slot_lookup s Hlen Hslot) as [h0 Hh0].
  unfold MEM_HeapCreate. destruct (Z.eqb_spec ptr 0), (Z.eqb_spec size 0); [lia..|]. simpl orb. cbn iota.
  apply wp_bind, wp_enter; [done|]. apply wp_bind, wp_gets. cbn [mem_heap_list add_event]. fold (free_slot s).
  apply wp_bind. rewrite bool_decide_true by done. apply wp_bind.
  eapply wp_mono; [by eapply (mem_heap_init_spec (add_event EvEnter s))|]. intros r s1 [-> Hpost]. simpl. apply wp_ret.
  pose proof Hpost as (h & _ & _ & _ & Ec & _).
  apply wp_bind, wp_exit; [by unfold ctx_ready; rewrite Ec|]. apply wp_ret. split; [done|]. by exists s1.
Qed.
End Create.

(** ** [MEM_HeapStatus] on a heap whose free blocks keep their tag *)

(** The statistics of a layout: the user bytes of a free block, and their
    maximum. *)
Definition user_size (b : blk) : Z := bsz b - MEM_BLOCK_HEAD_SIZE - 1.
Definition sum_user (bs : list blk) : Z := foldr (fun b n => user_size b + n) 0 bs.
Definition max_user (bs : list blk) : Z := foldr (fun b n => Z.max (user_size b) n) 0 bs.

Lemma max_user_nonneg bs : 0 <= max_user bs.
Proof. induction bs as [|b l IH]; [done|]. change (0 <= Z.max (user_size b) (max_user l)). lia. Qed.

(** A used block that does not end in a leak record, or has the room of one. *)
Definition leak_ok (m : mem) (b : blk) : Prop :=
  load64 m (bend b - 16) <> Some MEM_DBG_LEAK_MAGIC \/ 48 <= bsz b.

(** The state after calls that only report. *)
Definition reported (s s' : hstate) : Prop := exists evs,
  s' = mkHState (hmem s) (mem_heap_list s) (s_heap_free_size s) (s_heap_free_size_watermark s) (s_heap_ctx s) evs.

Lemma reported_refl s : reported s s.
Proof. exists (hevents s). by destruct s. Qed.
Lemma reported_event s s' e : reported s s' -> reported s (add_event e s').
Proof. intros [evs ->]. by exists (e :: evs). Qed.
Lemma reported_trans s1 s2 s3 : reported s1 s2 -> reported s2 s3 -> reported s1 s3.
Proof. intros [e1 ->] [e2 ->]. by exists e2. Qed.
#[export] Hint Resolve reported_refl reported_event : tuya.

Lemma report_leak_spec s lo hi b :
  ctx_ready s -> mapped (hmem s) lo hi -> 0 < lo -> lo <= ba b -> 16 <= bsz b -> bend b <= hi ->
  hi <= 72057594037927936 -> 24 <= ba b -> leak_ok (hmem s) b ->
  wp (report_leak (ba b) (bsz b)) (fun _ s' => reported s s') s.
Proof.
  intros Hctx Hm H0 Hlo H16 Hhi H56 H24 Hleak. unfold report_leak, MEM_LEAK_DBG_ADDR, SIZEOF_MEM_DbgLeak_t, MEM_ALIGN_NUM.
  unfold bend, leak_ok in *. rewrite u64_small by lia.
  destruct (mapped_load64 (hmem s) lo hi (ba b + bsz b - 32 - 8 + 24)) as [mg Hmg]; [done|lia..|].
  apply wp_bind. eapply wp_rd64; [exact Hmg|]. destruct (Z.eqb_spec mg MEM_DBG_LEAK_MAGIC) as [->|_]; [|apply wp_ret; auto with tuya].
  destruct Hleak as [Hno|H48]; [by replace (ba b + bsz b - 32 - 8 + 24) with (ba b + bsz b - 16) in Hmg by lia|].
  apply wp_bind, wp_exit; [done|].
  do 3 (apply wp_bind; edestruct (mapped_load64 (hmem s) lo hi) as [? ?]; [exact Hm| | |eapply wp_rd64; [eassumption|]]; [lia..|]).
  apply wp_bind, wp_dbg; [done|]. apply wp_enter; [done|]. auto with tuya.
Qed.

(** The status of a heap with layout [bs], on top of the counters of [st]. *)
Definition status_of (st : MEM_HeapStatus_t) (bs : list blk) : MEM_HeapStatus_t :=
  mkStatus (st_size st) (st_free st + sum_user (frees bs)) (Z.max (st_free_largest st) (max_user (frees bs)))
    (st_valid st) (st_used_block st + Z.of_nat (length (useds bs))) (st_free_block st + Z.of_nat (length (frees bs))).

Lemma lseg_first_used m p b l a :
  lseg m p (frees l) 0 -> (forall c, c ∈ l -> a < ba c) -> 0 < a -> b = a -> b =? p = false.
Proof.
  intros Hl Ha H0 ->. apply Z.eqb_neq. apply lseg_head in Hl as ->. unfold headaddr.
  destruct (frees l) as [|c l'] eqn:E; simpl; [lia|].
  assert (c ∈ frees l) as [_ Hc]%elem_of_frees by (rewrite E; set_solver). specialize (Ha c Hc). lia.
Qed.

Section Status.
Local Abbreviation sized := (sized 24).

(** The counters cannot overflow while the rest of the region bounds them. *)
Definition counters_ok (st : MEM_HeapStatus_t) (room : Z) : Prop :=
  0 <= st_free st /\ st_free st + room <= 72057594037927936 /\ 0 <= st_free_largest st /\
  0 <= st_used_block st /\ st_used_block st + room <= 72057594037927936 /\
  0 <= st_free_block st /\ st_free_block st + room <= 72057594037927936.

Lemma status_of_used st b l room :
  bused b = true -> counters_ok st room -> 0 <= room ->
  status_of (st_count_used st) l = status_of st (b :: l).
Proof.
  intros Hb (? & ? & ? & ? & ? & ? & ?) ?. unfold status_of, st_count_used. rewrite frees_cons_used, useds_cons_used by done. cbn.
  rewrite u64_small by lia. f_equal. lia.
Qed.

Lemma status_of_free st b l room :
  bused b = false -> counters_ok st room -> 24 <= bsz b <= room -> 
  status_of (st_count_free (user_size b) st) l = status_of st (b :: l).
Proof.
  intros Hb (? & ? & ? & ? & ? & ? & ?) Hs. unfold status_of, st_count_free.
  rewrite (frees_cons_free b l), (useds_cons_free b l) by done.
  change (sum_user (b :: ?l')) with (user_size b + sum_user l').
  change (max_user (b :: ?l')) with (Z.max (user_size b) (max_user l')).
  assert (0 <= user_size b <= room) by (unfold user_size, MEM_BLOCK_HEAD_SIZE; lia).
  cbn [st_free st_free_largest st_free_block st_size st_valid st_used_block length].
  rewrite !u64_small by lia. f_equal; [lia| |lia].
  destruct (Z.ltb_spec (st_free_largest st) (user_size b)); lia.
Qed.

Lemma status_loop_spec m lo hi bs : forall fuel s a p st,
  hmem s = m -> ctx_ready s -> mapped m lo hi -> 24 <= lo -> hi <= 72057594037927936 -> lo <= a ->
  (length bs < fuel)%nat -> tiles a bs hi -> Forall sized bs -> Forall (blk_ok strict_dog m) bs ->
  lseg m p (frees bs) 0 -> Forall (leak_ok m) bs -> counters_ok st (hi - a) ->
  wp (status_loop fuel hi a p st) (fun r s' => reported s s' /\ r = (status_of st bs, StatusDone hi 0)) s.
Proof.
  induction bs as [|b bs IH]; intros [|fuel] s a p st Em Hctx Hm H0 Hhi Ha Hf Ht Hs Hok Hl Hlk Hcnt; simpl in Hf; try lia.
  - simpl in Ht, Hl. subst. cbn [status_loop]. rewrite Z.ltb_irrefl. apply wp_ret. split; [auto with tuya|].
    destruct st. unfold status_of. cbn. destruct Hcnt as (? & ? & ? & _). cbn in *. do 2 f_equal; lia.
  - destruct Ht as [<- Ht]. apply Forall_cons in Hs as [Hb Hs], Hok as [[Hbs (d & Hd & Hbd)] Hok], Hlk as [Hlb Hlk].
    destruct Hb as [Hb24 Hb8]. pose proof (tiles_le (fdog:=strict_dog) _ _ _ Hs Ht) as Hle.
    assert (forall c, c ∈ bs -> ba b < ba c) as Hafter.
    { intros c Hc. destruct (tiles_elem (fdog:=strict_dog) _ _ _ _ Hs Ht Hc). unfold bend in *. lia. }
    cbn [status_loop]. unfold bend in *. rewrite (proj2 (Z.ltb_lt _ _)) by lia. rewrite <-Em in Hbs, Hd.
    apply wp_bind. eapply wp_rd64; [exact Hbs|]. apply wp_bind. eapply wp_rd8; [exact Hd|].
    pose proof Hcnt as (? & ? & ? & ? & ? & ? & ?).
    destruct (bused b) eqn:Eb; [|unfold strict_dog in Hbd]; subst d; cbn -[status_loop].
    + rewrite frees_cons_used in Hl by done.
      rewrite (lseg_first_used _ _ _ _ (ba b) Hl) by (done || lia).
      apply wp_bind. eapply wp_mono; [eapply (report_leak_spec s lo hi b); rewrite ?Em; unfold bend; done || lia|].
      intros u s1 Hrep. rewrite u64_small by lia.
      rewrite <-(status_of_used st b bs (hi - ba b)) by (done || lia).
      destruct Hrep as [evs ->]. eapply wp_mono; [eapply IH; try done; try lia|].
      * unfold counters_ok. cbn. rewrite u64_small by lia. lia.
      * intros r s2 [[ev2 ->] ->]. split; [by exists ev2|done].
    + rewrite frees_cons_free in Hl by done. destruct Hl as (-> & nx & Hnx & Hl). rewrite Z.eqb_refl. simpl negb. cbn iota.
      rewrite <-Em in Hnx. apply wp_bind. eapply wp_rd64; [exact Hnx|].
      rewrite !u64_small by (unfold MEM_BLOCK_HEAD_SIZE; lia). fold (user_size b).
      rewrite <-(status_of_free st b bs (hi - ba b)) by (done || lia).
      eapply IH; try done; try lia. unfold counters_ok, st_count_free, user_size, MEM_BLOCK_HEAD_SIZE. cbn.
      rewrite !u64_small by lia. destruct (Z.ltb_spec (st_free_largest st) (bsz b - 8 - 1)); lia.
Qed.
End Status.

Lemma MEM_HeapStatus_spec s i h bs :
  mem_heap_list s !! i = Some h -> heap_ok 24 strict_dog (hmem s) h bs -> ctx_ready s ->
  24 <= heap_lo h -> Forall (leak_ok (hmem s)) bs ->
  wp (MEM_HeapStatus i) (fun st s' => reported s s' /\
    st = mkStatus (h_size h) (sum_user (frees bs)) (max_user (frees bs)) 1
           (Z.of_nat (length (useds bs))) (Z.of_nat (length (frees bs)))) s.
Proof.
  intros Hi Hok Hctx H24 Hlk. pose proof (heap_fuel_enough _ _ _ _ _ Hok) as Hfuel.
  destruct Hok as [[Ht Hs Hoks Hl Hm Hlo Hal Hhi] _ _ _ _].
  unfold MEM_HeapStatus. apply wp_bind. eapply wp_get_heap; [exact Hi|]. cbn zeta.
  fold (heap_lo h) (heap_hi h). apply wp_bind, wp_enter; [done|]. apply wp_bind.
  eapply wp_mono; [eapply (status_loop_spec (hmem s)); try done; try lia; unfold counters_ok; cbn; lia|].
  intros r s' [[evs ->] ->]. apply wp_bind, wp_exit; [done|]. rewrite Z.eqb_refl. apply wp_ret.
  split; [by exists (EvExit :: evs)|]. unfold st_set_valid, status_of. cbn [st_size st_free st_free_largest st_used_block st_free_block].
  pose proof (max_user_nonneg (frees bs)). cbn. f_equal; lia.
Qed.
