(* ===== verification/MemHeapFacts.v ===== *)
(** * The memory heap: facts about layouts

    A boolean check of the invariant of [MemHeapInv], for evaluation on concrete
    heaps; blocks do not overlap, so that the frame conditions of the
    specifications protect the used ones; releasing the block of an allocation
    step undoes it; writes to a used block keep the invariant. *)

From S2P Require Import Prelude CMem MemHeap MemHeapInv MemHeapAlloc MemHeapFree MemHeapCreate.

(** ** A decision procedure for the invariant

    Read the layout of a heap off its memory, and check it; used to evaluate
    the theorems on concrete heaps. *)

Fixpoint read_blocks (fuel : nat) (m : mem) (a hi : Z) : list blk :=
  match fuel with
  | O => []
  | S fuel' =>
    if a <? hi then
      match load64 m a with
      | Some sz =>
        match m !! (a + sz - 1) with
        | Some d => Blk a sz (d =? MEM_BLOCK_STAT_USE) :: read_blocks fuel' m (a + sz) hi
        | None => []
        end
      | None => []
      end
    else []
  end.

Fixpoint tilesb (a : Z) (bs : list blk) (t : Z) : bool :=
  match bs with
  | [] => a =? t
  | b :: r => (ba b =? a) && tilesb (bend b) r t
  end.

Fixpoint lsegb (m : mem) (p : Z) (l : list blk) : bool :=
  match l with
  | [] => p =? 0
  | b :: r => (p =? ba b) && match load64 m (ba b + 8) with Some n => lsegb m n r | None => false end
  end.

Fixpoint coalescedb (bs : list blk) : bool :=
  match bs with
  | b :: ((c :: _) as r) => (bused b || bused c) && coalescedb r
  | _ => true
  end.

Fixpoint mappedb (n : nat) (m : mem) (lo : Z) : bool :=
  match n with O => true | S n' => bool_decide (is_Some (m !! lo)) && mappedb n' m (lo + 1) end.

Definition blk_okb (fdogb : Z -> bool) (m : mem) (b : blk) : bool :=
  match load64 m (ba b), m !! (bend b - 1) with
  | Some sz, Some d => (sz =? bsz b) && (if bused b then d =? MEM_BLOCK_STAT_USE else fdogb d)
  | _, _ => false
  end.

Definition heap_okb (minsz : Z) (fdogb : Z -> bool) (m : mem) (h : MEM_Heap_t) (bs : list blk) : bool :=
  tilesb (heap_lo h) bs (heap_hi h) && forallb (fun b => (minsz <=? bsz b) && (bsz b mod 8 =? 0)) bs &&
  forallb (blk_okb fdogb m) bs && lsegb m (h_free_list h) (frees bs) &&
  mappedb (Z.to_nat (heap_hi h - heap_lo h)) m (heap_lo h) && (0 <? heap_lo h) && (heap_lo h mod 8 =? 0) &&
  (heap_hi h <=? 72057594037927936) && coalescedb bs && (h_free h =? sum_sizes (frees bs)) &&
  (0 <=? h_free_watermark h) && (h_free_watermark h <=? h_free h) &&
  (0 <? h_base h) && (0 <? h_size h) && (h_base h + h_size h <=? 72057594037927936).

Lemma tilesb_ok a bs t : tilesb a bs t = true -> tiles a bs t.
Proof. revert a. induction bs as [|b bs IH]; intros a; simpl; intros E; zbool; auto. Qed.

Lemma lsegb_ok m p l : lsegb m p l = true -> lseg m p l 0.
Proof.
  revert p. induction l as [|b l IH]; intros p; simpl; intros E; zbool; [done|].
  destruct (load64 m (ba b + 8)) as [n|]; [|done]. eauto.
Qed.

Lemma coalescedb_ok bs : coalescedb bs = true -> coalesced bs.
Proof.
  induction bs as [|b bs IH]; [done|]. destruct bs as [|c bs]; [done|].
  change (coalescedb (b :: c :: bs)) with ((bused b || bused c) && coalescedb (c :: bs)).
  intros [E1 E2]%andb_prop. split; [|by apply IH]. by apply orb_true_iff.
Qed.

Lemma mappedb_ok n m lo : mappedb n m lo = true -> mapped m lo (lo + Z.of_nat n).
Proof.
  revert lo. induction n as [|n IH]; intros lo; simpl; intros E x Hx; [lia|]. zbool.
  destruct (decide (x = lo)) as [->|]; [by eapply bool_decide_eq_true|]. eapply IH; [done|lia].
Qed.

Definition strict_dogb (d : Z) : bool := d =? MEM_BLOCK_STAT_FREE.
Definition loose_dogb (d : Z) : bool := (d =? MEM_BLOCK_STAT_FREE) || (d =? 0).
Lemma strict_dogb_ok d : strict_dogb d = true -> strict_dog d.
Proof. apply Z.eqb_eq. Qed.
Lemma loose_dogb_ok d : loose_dogb d = true -> loose_dog d.
Proof. unfold loose_dogb, loose_dog. rewrite orb_true_iff, !Z.eqb_eq. done. Qed.

Lemma heap_okb_ok minsz fdog `{!DogPolicy minsz fdog} fdogb m h bs :
  (forall d, fdogb d = true -> fdog d) -> heap_okb minsz fdogb m h bs = true -> heap_ok minsz fdog m h bs.
Proof.
  unfold heap_okb. intros Hdog E. zbool. repeat split; try (done || lia).
  - by apply tilesb_ok.
  - apply Forall_forall. intros b Hb. rewrite forallb_forall in *.
    match goal with H : forall x, In x bs -> (_ && _)%bool = true |- _ => specialize (H b (proj1 (list_elem_of_In _ _) Hb)) end.
    zbool. split; [done|]. by apply Z.mod_divide.
  - apply Forall_forall. intros b Hb. rewrite forallb_forall in *.
    match goal with H : forall x, In x bs -> blk_okb _ _ _ = true |- _ => specialize (H b (proj1 (list_elem_of_In _ _) Hb)); rename H into Hk end.
    unfold blk_okb in Hk. destruct (load64 m (ba b)) as [sz|] eqn:El; [|done].
    destruct (m !! (bend b - 1)) as [d|] eqn:Ed; [|done]. zbool. subst. split; [done|].
    exists d. split; [done|]. destruct (bused b); [by zbool|auto].
  - by apply lsegb_ok.
  - intros x Hx. eapply mappedb_ok; [eassumption|]. lia.
  - by apply Z.mod_divide.
  - by apply coalescedb_ok.
Qed.

(** ** Blocks of a layout do not overlap *)

Section Disjoint.
Context {minsz : Z} {fdog : Z -> Prop} `{!DogPolicy minsz fdog}.

Lemma tiles_disjoint a bs t b c x :
  Forall (sized minsz) bs -> tiles a bs t -> b ∈ bs -> c ∈ bs ->
  ba b <= x < bend b -> ba c <= x < bend c -> b = c.
Proof.
  intros Hs Ht Hb Hc Hxb Hxc. apply list_elem_of_split in Hb as (l1 & l2 & ->).
  destruct (tiles_mid (fdog:=fdog) _ _ _ _ _ Hs Ht) as (_ & _ & _ & _ & H1 & H2).
  apply elem_of_app in Hc as [Hc|Hc]; [specialize (H1 c Hc); lia|].
  apply elem_of_cons in Hc as [->|Hc]; [done|]. specialize (H2 c Hc). lia.
Qed.

Lemma tiles_start a bs t b c :
  Forall (sized minsz) bs -> tiles a bs t -> b ∈ bs -> c ∈ bs -> ba b = ba c -> b = c.
Proof.
  intros Hs Ht Hb Hc E. rewrite Forall_forall in Hs.
  pose proof (sized_min (fdog:=fdog) _ (Hs b Hb)). pose proof (sized_min (fdog:=fdog) _ (Hs c Hc)).
  apply Forall_forall in Hs. eapply (tiles_disjoint a bs t b c (ba b)); try done; unfold bend; lia.
Qed.

Lemma heap_ok_align m h bs b : heap_ok minsz fdog m h bs -> b ∈ bs -> (8 | ba b).
Proof.
  intros [[Ht Hs _ _ _ _ Ha _] _ _ _ _] Hb. destruct (tiles_align _ _ _ Ha Hs Ht) as [Hf _].
  rewrite Forall_forall in Hf. auto.
Qed.

(** The content of a used block is not among the bytes of free blocks. *)
Lemma only_free_agree m m' h bs b :
  heap_ok minsz fdog m h bs -> only_free m m' bs -> b ∈ bs -> bused b = true -> agree m m' b.
Proof.
  intros [[Ht Hs _ _ _ _ _ _] _ _ _ _] Hof Hb Hu x Hx. apply Hof. intros c Hc Hf Hxc.
  assert (b = c) by (by eapply (tiles_disjoint _ bs _ b c x)). congruence.
Qed.

Lemma released_only_agree m m' h bs b c :
  heap_ok minsz fdog m h bs -> released_only m m' bs b -> b ∈ bs -> c ∈ bs -> bused c = true -> c <> b -> agree m m' c.
Proof.
  intros [[Ht Hs _ _ _ _ _ _] _ _ _ _] Hof Hb Hc Hu Hne x Hx. apply Hof. intros d Hd Hfd Hxd.
  assert (c = d) by (by eapply (tiles_disjoint _ bs _ c d x)). destruct Hfd; congruence.
Qed.

(** Bytes outside the region of a heap are not in its blocks. *)
Lemma heap_ok_inside m h bs b x :
  heap_ok minsz fdog m h bs -> b ∈ bs -> ba b <= x < bend b -> h_base h <= x < h_base h + h_size h.
Proof.
  intros [Hc _ _ _ (? & ? & ?)] Hb Hx. destruct (core_bounds _ _ _ _ _ b Hc Hb) as (? & ? & ? & ? & ?).
  destruct (heap_region_size h); [done..|]. unfold bend in *. lia.
Qed.

(** The invariant of a heap depends on the memory of its region only. *)
Lemma heap_ok_frame m m' h bs :
  (forall x, h_base h <= x < h_base h + h_size h -> m' !! x = m !! x) ->
  heap_ok minsz fdog m h bs -> heap_ok minsz fdog m' h bs.
Proof.
  intros Hag Hok. assert (forall b, b ∈ bs -> agree m m' b) as Ha.
  { intros b Hb x Hx. apply Hag. by eapply heap_ok_inside. }
  destruct Hok as [[Ht Hs Hoks Hl Hm ? ? ?] ? ? ? (? & ? & ?)]. destruct (heap_region_size h); [done..|].
  split; try done. split; try done.
  - by eapply blk_oks_agree.
  - eapply lseg_agree; [by apply Forall_frees| |done]. intros b [_ Hb]%elem_of_frees. auto.
  - intros x Hx. rewrite Hag by lia. by apply Hm.
Qed.
End Disjoint.

(** ** Releasing what was just allocated *)

Lemma cons_split_unique {A} (l1 k1 : list A) b l2 k2 :
  NoDup (l1 ++ b :: l2) -> l1 ++ b :: l2 = k1 ++ b :: k2 -> l1 = k1 /\ l2 = k2.
Proof.
  revert k1. induction l1 as [|x l1 IH]; intros [|y k1] Hnd E; simpl in *; simplify_eq.
  - done.
  - apply NoDup_cons in Hnd as [Hni _]. destruct Hni. set_solver.
  - apply NoDup_cons in Hnd as [Hni _]. destruct Hni. set_solver.
  - apply NoDup_cons in Hnd as [_ Hnd]. destruct (IH k1) as [-> ->]; done.
Qed.

Lemma tiles_nodup minsz fdog `{!DogPolicy minsz fdog} a bs t : Forall (sized minsz) bs -> tiles a bs t -> NoDup bs.
Proof.
  revert a. induction bs as [|b bs IH]; intros a Hs Ht; [constructor|]. apply Forall_cons in Hs as [Hb Hs]. destruct Ht as [<- Ht].
  constructor; [|by eapply IH]. intros Hin. destruct (tiles_elem (fdog:=fdog) _ _ _ _ Hs Ht Hin).
  apply (sized_min (fdog:=fdog)) in Hb. unfold bend in *. lia.
Qed.

Lemma split_left_unique P1 P2 lft1 lft2 :
  P1 ++ option_list lft1 = P2 ++ option_list lft2 ->
  (forall p, lft1 = Some p -> bused p = false) -> (forall p, lft2 = Some p -> bused p = false) ->
  last_used P1 -> last_used P2 -> P1 = P2 /\ lft1 = lft2.
Proof.
  intros E F1 F2 U1 U2. destruct lft1 as [p1|], lft2 as [p2|]; simpl in E; rewrite ?app_nil_r in E.
  - apply app_inj_tail in E as [-> ->]. done.
  - subst P2. specialize (F1 p1 eq_refl). specialize (U2 p1). rewrite last_snoc in U2. by rewrite U2 in F1.
  - subst P1. specialize (F2 p2 eq_refl). specialize (U1 p2). rewrite last_snoc in U1. by rewrite U1 in F2.
  - done.
Qed.

Lemma split_right_unique rgt1 rgt2 N1 N2 :
  option_list rgt1 ++ N1 = option_list rgt2 ++ N2 ->
  (forall p, rgt1 = Some p -> bused p = false) -> (forall p, rgt2 = Some p -> bused p = false) ->
  head_used N1 -> head_used N2 -> rgt1 = rgt2 /\ N1 = N2.
Proof.
  intros E F1 F2 U1 U2. destruct rgt1 as [p1|], rgt2 as [p2|]; simpl in E.
  - by injection E as -> ->.
  - subst N2. specialize (F1 p1 eq_refl). by rewrite (U2 p1 eq_refl) in F1.
  - subst N1. specialize (F2 p2 eq_refl). by rewrite (U1 p2 eq_refl) in F2.
  - done.
Qed.

(** A layout determines the result of releasing a block of it. *)
Lemma free_step_det minsz fdog `{!DogPolicy minsz fdog} a bs t p bs1 bs2 :
  Forall (sized minsz) bs -> tiles a bs t -> free_step bs p bs1 -> free_step bs p bs2 -> bs1 = bs2.
Proof.
  intros Hs Ht H1 H2. destruct H1 as [P1 lft1 b1 rgt1 N1 ? L1 R1 LU1 HU1].
  inversion H2 as [P2 lft2 b2 rgt2 N2 ? L2 R2 LU2 HU2 E2 Ep2 E3].
  assert (b1 = b2) as <-.
  { eapply (tiles_start (fdog:=fdog)); [exact Hs|exact Ht|set_solver|rewrite <-E2; set_solver|done]. }
  rewrite !(app_assoc P1) in *. rewrite (app_assoc P2) in E2.
  destruct (cons_split_unique _ _ _ _ _ (tiles_nodup _ _ _ _ _ Hs Ht) (eq_sym E2)) as [EL ER].
  apply split_left_unique in EL as [-> ->]; [|done..]. by apply split_right_unique in ER as [-> ->].
Qed.

Lemma alloc_free_step need bs r bs' :
  alloc_step need bs r bs' -> coalesced bs -> free_step bs' r bs.
Proof.
  assert (forall l1 b l2, bused b = false -> coalesced (l1 ++ b :: l2) -> last_used l1 /\ head_used l2) as Hsides.
  { intros l1 b l2 Hb Hc. apply coalesced_app in Hc as [H1 H2]. split.
    - intros c Hc. apply last_Some in Hc as [l' ->]. rewrite <-app_assoc in H1.
      apply coalesced_suffix in H1. destruct H1 as [[?|?] _]; congruence.
    - intros c Hc. destruct l2 as [|d l2]; [done|]. injection Hc as ->. destruct H2 as [[?|?] _]; congruence. }
  intros [l1 b l2 Hb ? ?|l1 b l2 Hb ? ?] Hc; destruct (Hsides _ _ _ Hb Hc) as [HL HR].
  - set (rest := Blk (ba b) (bsz b - need) false). set (nb := Blk (ba b + (bsz b - need)) need true).
    replace (l1 ++ b :: l2) with (l1 ++ Blk (ba (default nb (Some rest))) (osize (Some rest) + bsz nb + osize None) false :: l2)
      by (f_equal; destruct b; simpl in *; subst; do 2 f_equal; lia).
    apply (free_merge l1 (Some rest) nb None l2); try done; by intros ? [= <-].
  - set (nb := Blk (ba b) (bsz b) true).
    replace (l1 ++ b :: l2) with (l1 ++ Blk (ba (default nb None)) (osize None + bsz nb + osize None) false :: l2)
      by (f_equal; destruct b; simpl in *; subst; do 2 f_equal; lia).
    by apply (free_merge l1 None nb None l2).
Qed.

(** The released block leaves the used ones. *)
Lemma free_step_useds minsz fdog `{!DogPolicy minsz fdog} a bs t b bs' :
  Forall (sized minsz) bs -> tiles a bs t -> b ∈ bs -> free_step bs (ba b) bs' -> useds bs ≡ₚ b :: useds bs'.
Proof.
  intros Hs Ht Hb Hstep. remember (ba b) as p eqn:Ep. destruct Hstep as [P lft b1 rgt N Hu HL HR _ _].
  assert (b = b1) as -> by (eapply (tiles_start (fdog:=fdog)); [exact Hs|exact Ht|done|set_solver|done]).
  by apply free_merge_sum.
Qed.

Lemma elem_of_useds b bs : b ∈ useds bs <-> bused b = true /\ b ∈ bs.
Proof. unfold useds. by rewrite list_elem_of_filter. Qed.

(** ** Writing to a used block *)

(** [m'] is [m] but for bytes of the user area of [b]. *)
Definition user_write (m m' : mem) (b : blk) : Prop :=
  (forall x, x < ba b + MEM_BLOCK_HEAD_SIZE \/ bend b - 1 <= x -> m' !! x = m !! x) /\
  (forall x, is_Some (m !! x) -> is_Some (m' !! x)).

Lemma heap_ok_user_write minsz fdog `{!DogPolicy minsz fdog} m m' h bs b :
  heap_ok minsz fdog m h bs -> b ∈ bs -> bused b = true -> user_write m m' b -> heap_ok minsz fdog m' h bs.
Proof.
  intros [Hc Hco Hf Hmk Hreg] Hb Hu [Hout Hsome]. pose proof Hc as [Ht Hs Hok Hl Hm ? ? ?].
  destruct (core_bounds _ _ _ _ _ b Hc Hb) as (_ & _ & Hb16 & _). unfold MEM_BLOCK_HEAD_SIZE in Hout.
  assert (forall c, c ∈ bs -> c <> b -> agree m m' c) as Ha.
  { intros c Hc' Hne x Hx. apply Hout. destruct (decide (ba b <= x < bend b)); [|lia].
    destruct Hne. by eapply (tiles_disjoint (fdog:=fdog) _ bs _ c b x). }
  split; try done. split; try done.
  - apply Forall_forall. intros c Hc'. rewrite Forall_forall in Hok, Hs. destruct (decide (c = b)) as [->|Hne].
    + destruct (Hok b Hb) as [Hl1 (d & Hd & Hdu)]. split.
      * rewrite <-Hl1. apply load64_frame. intros x Hx. apply Hout. unfold bend. lia.
      * exists d. split; [|done]. rewrite Hout by lia. done.
    + eapply blk_ok_agree; [by apply Hs|by apply Ha|by apply Hok].
  - eapply lseg_agree; [by apply Forall_frees| |done]. intros c [Hcf Hc']%elem_of_frees.
    apply Ha; [done|]. congruence.
  - intros x Hx. apply Hsome. by apply Hm.
Qed.
