(* ===== verification/MemHeapProps.v ===== *)
(** * The memory heap: what its users rely on

    The properties of the public interface of [tuya_mem_heap.c], from the
    specifications of [MemHeapAlloc], [MemHeapFree] and [MemHeapCreate], with
    evaluations on a concrete heap. *)

From S2P Require Import Prelude CMem MemHeap MemHeapInv MemHeapAlloc MemHeapFree MemHeapCreate MemHeapFacts.

(** ** A heap to evaluate on

    A 512-byte heap at address 4096, and the same heap after two allocations and
    a release. *)

Definition run {A} (c : H A) (s : hstate) : hstate := match c s with Ret _ s' => s' | _ => s end.
Definition result {A} (d : A) (c : H A) (s : hstate) : A := match c s with Ret a _ => a | _ => d end.

Definition demo0 : hstate := run (tuya_mem_heap_init (Some (mkCtx 1 2 3))) (hstate0 4096 512).
Definition demo1 : hstate := run (tuya_mem_heap_create 4096 512) demo0.
Definition demo2 : hstate :=
  run (p <- tuya_mem_heap_malloc (Some 0%nat) 100 ;;
       _ <- tuya_mem_heap_malloc (Some 0%nat) 40 ;;
       tuya_mem_heap_free (Some 0%nat) p) demo1.

Definition heap_at (s : hstate) : MEM_Heap_t := default heap_zero (mem_heap_list s !! 0%nat).
Definition layout (s : hstate) : list blk :=
  read_blocks (heap_fuel (heap_at s)) (hmem s) (heap_lo (heap_at s)) (heap_hi (heap_at s)).

Lemma demo2_layout : layout demo2 = [Blk 4096 344 false; Blk 4440 56 true; Blk 4496 112 false].
Proof. by vm_compute. Qed.

Lemma demo2_heap : mem_heap_list demo2 !! 0%nat = Some (heap_at demo2).
Proof. by vm_compute. Qed.

Lemma demo2_ready : ctx_ready demo2.
Proof. by vm_compute. Qed.

Lemma demo2_ok16 : heap_ok 16 loose_dog (hmem demo2) (heap_at demo2) (layout demo2).
Proof. apply (heap_okb_ok 16 loose_dog _ _ _ _ loose_dogb_ok). by vm_compute. Qed.

Lemma demo2_ok24 : heap_ok 24 strict_dog (hmem demo2) (heap_at demo2) (layout demo2).
Proof. apply (heap_okb_ok 24 strict_dog _ _ _ _ strict_dogb_ok). by vm_compute. Qed.

(** ** Allocation and release *)

Lemma request_bounds size : 0 < size -> size <= request size /\ 4 <= request size <= Z.max 4 size.
Proof. intros. unfold request. destruct (Z.ltb_spec size 4); lia. Qed.

(** The state of heap [i] has changed to [h'], its region has not. *)
Definition heap_updated (s s' : hstate) (i : nat) (h h' : MEM_Heap_t) : Prop :=
  mem_heap_list s' = <[i := h']> (mem_heap_list s) /\ h_base h' = h_base h /\ h_size h' = h_size h /\
  s_heap_ctx s' = s_heap_ctx s.

(** An allocation of [size] bytes that returned [p]: a null pointer, when no free
    block is large enough, or the user area of a new used block. *)
Definition malloc_result (minsz : Z) (fdog : Z -> Prop) (s : hstate) (i : nat) (h : MEM_Heap_t) (bs : list blk)
  (size p : Z) (s' : hstate) : Prop :=
  exists h' bs', heap_updated s s' i h h' /\ heap_ok minsz fdog (hmem s') h' bs' /\
    (forall b, b ∈ useds bs -> agree (hmem s) (hmem s') b) /\
    (forall x, x < h_base h \/ h_base h + h_size h <= x -> hmem s' !! x = hmem s !! x) /\
    hevents s' = EvExit :: EvEnter :: hevents s /\
    ((p = 0 /\ bs' = bs /\ h' = h /\ Forall (fun b => bsz b < alloc_size (request size)) (frees bs)) \/
     (exists nb, nb ∉ useds bs /\ useds bs' ≡ₚ nb :: useds bs /\ p = ba nb + MEM_BLOCK_HEAD_SIZE /\ (8 | p) /\
        p + size < bend nb /\ alloc_size (request size) <= bsz nb /\ h_free h' = h_free h - bsz nb /\
        alloc_step (alloc_size (request size)) bs (ba nb) bs')).

Lemma malloc_spec minsz fdog `{!DogPolicy minsz fdog} s i h bs size :
  mem_heap_list s !! i = Some h -> heap_ok minsz fdog (hmem s) h bs -> ctx_ready s ->
  0 < size < 4294967296 -> minsz <= alloc_size (request size) ->
  wp (tuya_mem_heap_malloc (Some i) size) (malloc_result minsz fdog s i h bs size) s.
Proof.
  intros Hi Hok Hctx Hsz Hmin. unfold tuya_mem_heap_malloc. eapply wp_mono; [eapply MEM_Allocate_spec; try done; lia|].
  intros p s' (h' & bs' & Eh & Eb & Es & Ec & Ev & Hok' & Hof & Hres). exists h', bs'.
  split; [done|]. split; [done|]. split; [|split; [|split; [done|]]].
  - intros b [Hu Hb]%elem_of_useds. by eapply only_free_agree.
  - intros x Hx. apply Hof. intros b Hb _ Hxb. pose proof (heap_ok_inside _ _ _ _ _ Hok Hb Hxb). lia.
  - destruct Hres as [(-> & -> & -> & Hsmall)|(nb & Hnb & -> & Hu & Hsize & Hstep & Hfree & _)]; [by left|right].
    exists nb. destruct (alloc_step_new _ _ _ _ Hstep) as (nb' & Hnb' & Ea & Hu' & _ & _ & Hperm).
    destruct (request_bounds size ltac:(lia)). destruct (alloc_size_bounds (request size)) as [? _]; [lia|].
    assert (nb' = nb) as ->.
    { eapply (tiles_start (fdog:=fdog)); [apply Hok'|apply Hok'|done|done|done]. }
    assert (NoDup (useds bs')) as Hnd.
    { apply NoDup_filter. eapply (tiles_nodup minsz fdog); apply Hok'. }
    rewrite Hperm in Hnd. apply NoDup_cons in Hnd as [Hni _].
    split_and!; try done.
    + apply Z.divide_add_r; [by eapply (heap_ok_align (fdog:=fdog))|by exists 1].
    + unfold bend, MEM_BLOCK_HEAD_SIZE. lia.
Qed.

(** The release of block [b]. *)
Definition free_result (minsz : Z) (fdog : Z -> Prop) (s : hstate) (i : nat) (h : MEM_Heap_t) (bs : list blk)
  (b : blk) (s' : hstate) : Prop :=
  exists h' bs', heap_updated s s' i h h' /\ heap_ok minsz fdog (hmem s') h' bs' /\
    (forall c, c ∈ useds bs -> c <> b -> agree (hmem s) (hmem s') c) /\
    (forall x, x < h_base h \/ h_base h + h_size h <= x -> hmem s' !! x = hmem s !! x) /\
    hevents s' = EvExit :: EvEnter :: hevents s /\
    useds bs ≡ₚ b :: useds bs' /\ h_free h' = h_free h + bsz b /\ free_step bs (ba b) bs'.

Lemma free_spec minsz fdog `{!DogPolicy minsz fdog} s i h bs b :
  mem_heap_list s !! i = Some h -> heap_ok minsz fdog (hmem s) h bs -> ctx_ready s -> b ∈ useds bs ->
  wp (tuya_mem_heap_free (Some i) (ba b + MEM_BLOCK_HEAD_SIZE)) (fun _ => free_result minsz fdog s i h bs b) s.
Proof.
  intros Hi Hok Hctx [Hu Hb]%elem_of_useds. unfold tuya_mem_heap_free. eapply wp_mono; [by eapply MEM_Deallocate_spec|].
  intros [] s' (h' & bs' & Eh & Eb & Es & Ec & Ev & Hok' & Hstep & Hfree & _ & _ & Hrel). exists h', bs'.
  split_and!; try done.
  - intros c [Hcu Hc]%elem_of_useds Hne. by eapply released_only_agree.
  - intros x Hx. apply Hrel. intros c Hc _ Hxc. pose proof (heap_ok_inside _ _ _ _ _ Hok Hc Hxc). lia.
  - eapply (free_step_useds minsz fdog); [apply Hok|apply Hok|done|done].
Qed.

Lemma alloc_size_min size : 0 < size < 4294967296 -> 16 <= alloc_size (request size).
Proof. intros Hs. destruct (request_bounds size ltac:(lia)). destruct (alloc_size_bounds (request size)) as [? [k Hk]]; lia. Qed.

Lemma alloc_size_min_strict size : 8 <= size < 4294967296 -> 24 <= alloc_size (request size).
Proof.
  intros Hs. destruct (request_bounds size ltac:(lia)).
  destruct (alloc_size_bounds (request size)) as [? [k Hk]]; lia.
Qed.

(** C29: [tuya_mem_heap_malloc] on a well-formed heap returns, for every request
    size, with the heap well formed: either a null pointer, and then no free block
    of the heap is large enough and the layout is unchanged, or an 8-byte-aligned
    pointer to [size] bytes of a block that was not in use; no byte of a block in
    use, or outside the heap, changes, and the lock is taken once and released. *)
Theorem tuya_mem_heap_malloc_correct s i h bs size :
  mem_heap_list s !! i = Some h -> heap_ok 16 loose_dog (hmem s) h bs -> ctx_ready s -> 0 < size < 4294967296 ->
  wp (tuya_mem_heap_malloc (Some i) size) (malloc_result 16 loose_dog s i h bs size) s.
Proof. intros. apply (malloc_spec 16 loose_dog); try done. by apply alloc_size_min. Qed.

Lemma tuya_mem_heap_malloc_correct_witness :
  wp (tuya_mem_heap_malloc (Some 0%nat) 50) (malloc_result 16 loose_dog demo2 0 (heap_at demo2) (layout demo2) 50) demo2.
Proof. apply tuya_mem_heap_malloc_correct; [apply demo2_heap|apply demo2_ok16|apply demo2_ready|lia]. Defined.

(** C30: [tuya_mem_heap_free] of a block in use returns with the heap well formed
    and the block's bytes free again, merged with the free neighbours; every other
    block in use, and every byte outside the heap, keeps its content. *)
Theorem tuya_mem_heap_free_correct s i h bs b :
  mem_heap_list s !! i = Some h -> heap_ok 16 loose_dog (hmem s) h bs -> ctx_ready s -> b ∈ useds bs ->
  wp (tuya_mem_heap_free (Some i) (ba b + MEM_BLOCK_HEAD_SIZE)) (fun _ => free_result 16 loose_dog s i h bs b) s.
Proof. intros. by apply (free_spec 16 loose_dog). Qed.

Lemma tuya_mem_heap_free_correct_witness :
  wp (tuya_mem_heap_free (Some 0%nat) 4448)
     (fun _ => free_result 16 loose_dog demo2 0 (heap_at demo2) (layout demo2) (Blk 4440 56 true)) demo2.
Proof.
  apply (tuya_mem_heap_free_correct demo2 0 _ _ (Blk 4440 56 true)); [apply demo2_heap|apply demo2_ok16|apply demo2_ready|].
  rewrite demo2_layout. apply elem_of_useds. split; [done|set_solver].
Defined.

(** Allocating and at once releasing restores the layout of the heap exactly,
    block by block: no fragmentation is left behind. *)
Theorem malloc_free_roundtrip s i h bs size :
  mem_heap_list s !! i = Some h -> heap_ok 16 loose_dog (hmem s) h bs -> ctx_ready s -> 0 < size < 4294967296 ->
  wp (p <- tuya_mem_heap_malloc (Some i) size ;; tuya_mem_heap_free (Some i) p) (fun _ s' => exists h',
    heap_updated s s' i h h' /\ heap_ok 16 loose_dog (hmem s') h' bs /\ h_free h' = h_free h) s.
Proof.
  intros Hi Hok Hctx Hsz. apply wp_bind. eapply wp_mono; [eapply (malloc_spec 16 loose_dog); try done; by apply alloc_size_min|].
  assert (i < length (mem_heap_list s))%nat as Hlen by (by eapply lookup_lt_Some).
  intros p s1 (h1 & bs1 & (Eh & Eb & Es & Ec) & Hok1 & _ & _ & _ & Hres).
  destruct Hres as [(-> & -> & -> & _)|(nb & _ & Hperm & -> & _ & _ & _ & Hfree & Hstep)].
  { apply wp_ret. by exists h. }
  eapply wp_mono; [eapply (free_spec 16 loose_dog s1 i h1 bs1 nb)|].
  - rewrite Eh. by apply list_lookup_insert_eq.
  - done.
  - unfold ctx_ready. by rewrite Ec.
  - rewrite Hperm. left.
  - intros [] s2 (h2 & bs2 & (Eh2 & Eb2 & Es2 & Ec2) & Hok2 & _ & _ & _ & _ & Hfree2 & Hstep2).
    assert (bs2 = bs) as ->.
    { eapply (free_step_det 16 loose_dog); [apply Hok1|apply Hok1|done|]. eapply alloc_free_step; [done|apply Hok]. }
    exists h2. split; [|split; [done|lia]]. split_and!; [|congruence..]. by rewrite Eh2, Eh, list_insert_insert_eq.
Qed.

Lemma malloc_free_roundtrip_witness :
  wp (p <- tuya_mem_heap_malloc (Some 0%nat) 50 ;; tuya_mem_heap_free (Some 0%nat) p) (fun _ s' => exists h',
    heap_updated demo2 s' 0 (heap_at demo2) h' /\ heap_ok 16 loose_dog (hmem s') h' (layout demo2) /\
    h_free h' = h_free (heap_at demo2)) demo2.
Proof. apply malloc_free_roundtrip; [apply demo2_heap|apply demo2_ok16|apply demo2_ready|lia]. Defined.

(** Releasing a pointer whose block is already free is rejected: the call
    returns, reports, and changes neither the memory nor the heaps. *)
Theorem double_free_rejected s i h bs b :
  mem_heap_list s !! i = Some h -> heap_ok 16 loose_dog (hmem s) h bs -> ctx_ready s -> b ∈ frees bs ->
  wp (tuya_mem_heap_free (Some i) (ba b + MEM_BLOCK_HEAD_SIZE)) (fun _ s' => reported s s' /\ hevents s' <> hevents s) s.
Proof.
  intros Hi [Hc _ _ _ _] Hctx [Hf Hb]%elem_of_frees. unfold tuya_mem_heap_free, MEM_Deallocate, MEM_BLOCK_HEAD_SIZE.
  destruct (core_bounds _ _ _ _ _ b Hc Hb) as (? & ? & ? & ? & ?).
  destruct Hc as [_ _ Hok _ _ _ _ _]. rewrite Forall_forall in Hok. destruct (Hok b Hb) as [Hsz (d & Hd & Hdog)].
  rewrite Hf in Hdog. destruct (Z.eqb_spec (ba b + 8) 0) as [?|_]; [lia|].
  replace (ba b + 8 - 8) with (ba b) by lia. rewrite (u64_small (ba b)) by lia.
  apply wp_bind. eapply wp_rd64; [exact Hsz|]. apply wp_bind. eapply wp_rd8; [exact Hd|].
  assert (forall l (e : hevent), e :: l <> l) as Hne1 by (intros l e E; by apply (f_equal length) in E; simpl in E; lia).
  assert (forall l (e f : hevent), e :: f :: l <> l) as Hne2 by (intros l e f E; by apply (f_equal length) in E; simpl in E; lia).
  destruct Hdog as [->| ->]; cbn; (apply wp_bind, wp_dbg; [done|]).
  - apply wp_dbg; [done|]. split; [auto with tuya|apply Hne2].
  - apply wp_ret. split; [auto with tuya|apply Hne1].
Qed.

Lemma double_free_rejected_witness :
  wp (tuya_mem_heap_free (Some 0%nat) 4504) (fun _ s' => reported demo2 s' /\ hevents s' <> hevents demo2) demo2.
Proof.
  apply (double_free_rejected demo2 0 (heap_at demo2) (layout demo2) (Blk 4496 112 false)); [apply demo2_heap|apply demo2_ok16|apply demo2_ready|].
  rewrite demo2_layout. apply elem_of_frees. split; [done|set_solver].
Defined.

(** ** Creation *)

(** What [tuya_mem_heap_create] leaves when it succeeds. *)
Definition create_result (minsz : Z) (fdog : Z -> Prop) (s : hstate) (ptr size : Z) (r : Z * option nat) (s' : hstate) : Prop :=
  r = (0, Some (free_slot s)) /\ exists h, mem_heap_list s' = <[free_slot s := h]> (mem_heap_list s) /\
    h_base h = ptr /\ h_size h = size /\ s_heap_ctx s' = s_heap_ctx s /\
    heap_ok minsz fdog (hmem s') h [Blk (ALIGN_UP ptr) (create_size ptr size) false] /\
    (forall x, x < ptr \/ ptr + size <= x -> hmem s' !! x = hmem s !! x).

(** [tuya_mem_heap_create] on mapped memory of at least 32 aligned bytes, with
    a free slot, returns the slot as the handle of a well-formed heap that is one
    free block from the first aligned address to the last; memory outside the
    region is unchanged. *)
Theorem tuya_mem_heap_create_correct s ptr size :
  ctx_ready s -> length (mem_heap_list s) = MEM_HEAP_LIST_NUM -> (free_slot s < MEM_HEAP_LIST_NUM)%nat ->
  0 < ptr -> 0 < size -> ptr + size <= 72057594037927936 -> mapped (hmem s) ptr (ptr + size) ->
  create_gap ptr <= size -> MEM_HEAP_MIN_SIZE <= create_size ptr size ->
  wp (tuya_mem_heap_create ptr size) (create_result 24 strict_dog s ptr size) s.
Proof.
  intros Hctx Hlen Hslot Hp Hs Ht Hm Hg Hmin. unfold tuya_mem_heap_create. apply wp_bind, wp_dbg; [done|]. apply wp_bind.
  eapply wp_mono; [by eapply (MEM_HeapCreate_spec (minsz:=24) (fdog:=strict_dog) (add_event _ s))|].
  intros r s' (-> & s1 & (h & Eh & Eb & Es & Ec & _ & _ & Hok & Hout) & ->). apply wp_ret. split; [done|]. exists h. done.
Qed.

Lemma tuya_mem_heap_create_correct_witness :
  wp (tuya_mem_heap_create 4099 300) (create_result 24 strict_dog demo0 4099 300) demo0.
Proof.
  apply tuya_mem_heap_create_correct; try (vm_compute; done || lia).
  apply (mappedb_ok 300). by vm_compute.
Defined.

(** ** Zeroed and resized memory *)

Lemma c_memset_spec s a v n Q :
  mapped (hmem s) a (a + n) -> 0 <= n ->
  (forall m, (forall x, a <= x < a + n -> m !! x = Some (u8 v)) -> (forall x, ~ a <= x < a + n -> m !! x = hmem s !! x) ->
     Q tt (set_hmem (fun _ => m) s)) ->
  wp (c_memset a v n) Q s.
Proof.
  intros Hm Hn HQ. destruct (memset_spec (hmem s) a v (Z.to_nat n)) as (m & E & Hin & Hout); [by rewrite Z2Nat.id|].
  unfold wp, c_memset. rewrite E. rewrite Z2Nat.id in Hin, Hout by done. by apply HQ.
Qed.

Lemma c_memcpy_spec s d a n Q :
  mapped (hmem s) d (d + n) -> mapped (hmem s) a (a + n) -> 0 <= n -> d + n <= a \/ a + n <= d ->
  (forall m, (forall k, 0 <= k < n -> m !! (d + k) = hmem s !! (a + k)) -> (forall x, ~ d <= x < d + n -> m !! x = hmem s !! x) ->
     Q tt (set_hmem (fun _ => m) s)) ->
  wp (c_memcpy d a n) Q s.
Proof.
  intros Hd Ha Hn Hdis HQ. destruct (memcpy_spec (hmem s) d a (Z.to_nat n)) as (m & E & Hin & Hout); [by rewrite Z2Nat.id..|].
  unfold wp, c_memcpy. rewrite E. rewrite Z2Nat.id in Hin, Hout by done. by apply HQ.
Qed.

Lemma heap_ok_mapped minsz fdog `{!DogPolicy minsz fdog} m h bs b :
  heap_ok minsz fdog m h bs -> b ∈ bs -> mapped m (ba b) (bend b).
Proof.
  intros [Hc _ _ _ _] Hb. destruct (core_bounds _ _ _ _ _ b Hc Hb) as (? & ? & ? & ? & ?).
  eapply mapped_weaken; [apply Hc|lia|unfold bend; lia].
Qed.

(** Bytes of the user area only, and mapped before: a [user_write]. *)
Lemma user_write_intro m m' a n b :
  mapped m a (a + n) -> (forall x, a <= x < a + n -> is_Some (m' !! x)) -> (forall x, ~ a <= x < a + n -> m' !! x = m !! x) ->
  ba b + MEM_BLOCK_HEAD_SIZE <= a -> a + n < bend b -> user_write m m' b.
Proof.
  intros Hm Hin Hout Ha Hn. split; intros x Hx.
  - apply Hout. lia.
  - destruct (decide (a <= x < a + n)); [by apply Hin|]. by rewrite Hout.
Qed.

(** [tuya_mem_heap_calloc] is [tuya_mem_heap_malloc] with the [size] bytes
    zero: when it returns a non-null pointer the block is new and cleared, the
    heap is well formed and the blocks in use keep their content. *)
Theorem tuya_mem_heap_calloc_correct s i h bs size :
  mem_heap_list s !! i = Some h -> heap_ok 16 loose_dog (hmem s) h bs -> ctx_ready s -> 0 < size < 4294967296 ->
  wp (tuya_mem_heap_calloc (Some i) size) (fun p s' => exists h' bs',
    heap_updated s s' i h h' /\ heap_ok 16 loose_dog (hmem s') h' bs' /\
    (forall b, b ∈ useds bs -> agree (hmem s) (hmem s') b) /\
    ((p = 0 /\ bs' = bs /\ Forall (fun b => bsz b < alloc_size (request size)) (frees bs)) \/
     (exists nb, useds bs' ≡ₚ nb :: useds bs /\ p = ba nb + MEM_BLOCK_HEAD_SIZE /\ p + size < bend nb /\
        forall x, p <= x < p + size -> hmem s' !! x = Some 0))) s.
Proof.
  intros Hi Hok Hctx Hsz. unfold tuya_mem_heap_calloc. apply wp_bind.
  eapply wp_mono; [eapply (malloc_spec 16 loose_dog); try done; by apply alloc_size_min|].
  intros p s1 (h1 & bs1 & Hup & Hok1 & Hag & _ & _ & Hres).
  destruct Hres as [(-> & -> & -> & Hsm)|(nb & Hni & Hperm & -> & _ & Hroom & _ & Hfree & _)].
  { apply wp_bind, wp_ret, wp_ret. exists h, bs. split_and!; try done. by left. }
  assert (nb ∈ useds bs1) as [Hnu Hnb]%elem_of_useds by (rewrite Hperm; left).
  pose proof (core_bounds _ _ _ _ _ nb (ho_core _ _ _ _ _ Hok1) Hnb) as (? & ? & ? & ? & ?).
  unfold MEM_BLOCK_HEAD_SIZE in *. destruct (Z.eqb_spec (ba nb + 8) 0) as [?|_]; [lia|]. simpl.
  assert (mapped (hmem s1) (ba nb + 8) (ba nb + 8 + size)) as Hm.
  { eapply mapped_weaken; [by eapply (heap_ok_mapped 16 loose_dog)|lia..]. }
  apply wp_bind. apply c_memset_spec; [done|lia|]. intros m Hin Hout. apply wp_ret. exists h1, bs1. cbn [hmem set_hmem].
  split; [done|]. split; [|split].
  - eapply (heap_ok_user_write 16 loose_dog); [exact Hok1|exact Hnb|done|].
    eapply user_write_intro; [exact Hm| |exact Hout|done|done]. intros x Hx. rewrite Hin by done. by eexists.
  - intros b Hb x Hx. rewrite <-(Hag b Hb x Hx). apply Hout. intros Hxn. destruct Hni.
    assert (b ∈ useds bs1) as [_ Hb1]%elem_of_useds by (rewrite Hperm; by right).
    replace nb with b; [done|]. eapply (tiles_disjoint (fdog:=loose_dog) _ bs1 _ b nb x); try apply Hok1; try done. unfold bend in *. lia.
  - right. exists nb. split_and!; done.
Qed.

Lemma tuya_mem_heap_calloc_correct_witness :
  wp (tuya_mem_heap_calloc (Some 0%nat) 20) (fun p s' => exists h' bs',
    heap_updated demo2 s' 0 (heap_at demo2) h' /\ heap_ok 16 loose_dog (hmem s') h' bs' /\
    (forall b, b ∈ useds (layout demo2) -> agree (hmem demo2) (hmem s') b) /\
    ((p = 0 /\ bs' = layout demo2 /\ Forall (fun b => bsz b < alloc_size (request 20)) (frees (layout demo2))) \/
     (exists nb, useds bs' ≡ₚ nb :: useds (layout demo2) /\ p = ba nb + MEM_BLOCK_HEAD_SIZE /\ p + 20 < bend nb /\
        forall x, p <= x < p + 20 -> hmem s' !! x = Some 0))) demo2.
Proof. apply tuya_mem_heap_calloc_correct; [apply demo2_heap|apply demo2_ok16|apply demo2_ready|lia]. Defined.

(** The three ways [tuya_mem_heap_realloc] ends. *)
Inductive realloc_result (minsz : Z) (fdog : Z -> Prop) (s : hstate) (i : nat) (h : MEM_Heap_t) (bs : list blk)
  (b : blk) (size p : Z) (s' : hstate) : Prop :=
| realloc_in_place :
    p = ba b + MEM_BLOCK_HEAD_SIZE -> s' = s -> p + size < bend b -> realloc_result minsz fdog s i h bs b size p s'
| realloc_failed h' :
    p = 0 -> heap_updated s s' i h h' -> heap_ok minsz fdog (hmem s') h' bs ->
    (forall c, c ∈ useds bs -> agree (hmem s) (hmem s') c) ->
    realloc_result minsz fdog s i h bs b size p s'
| realloc_moved h' bs' nb U :
    heap_updated s s' i h h' -> heap_ok minsz fdog (hmem s') h' bs' ->
    useds bs ≡ₚ b :: U -> useds bs' ≡ₚ nb :: U ->
    p = ba nb + MEM_BLOCK_HEAD_SIZE -> p + size < bend nb ->
    (forall k, 0 <= k < bsz b - MEM_BLOCK_HEAD_SIZE -> hmem s' !! (p + k) = hmem s !! (ba b + MEM_BLOCK_HEAD_SIZE + k)) ->
    (forall c, c ∈ U -> agree (hmem s) (hmem s') c) ->
    realloc_result minsz fdog s i h bs b size p s'.

(** Copying the user area of [b] into the larger block [nb]. *)
Lemma copy_block_spec minsz fdog `{!DogPolicy minsz fdog} s h bs b nb Q :
  heap_ok minsz fdog (hmem s) h bs -> b ∈ useds bs -> nb ∈ useds bs -> b <> nb -> bsz b < bsz nb ->
  (forall m, heap_ok minsz fdog m h bs -> (forall c, c ∈ useds bs -> c <> nb -> agree (hmem s) m c) ->
     (forall k, 0 <= k < bsz b - 8 -> m !! (ba nb + 8 + k) = hmem s !! (ba b + 8 + k)) ->
     Q tt (set_hmem (fun _ => m) s)) ->
  wp (c_memcpy (ba nb + 8) (ba b + 8) (bsz b - 8)) Q s.
Proof.
  intros Hok [Hbu Hb]%elem_of_useds [Hnu Hnb]%elem_of_useds Hne Hlt HQ.
  pose proof (core_bounds _ _ _ _ _ b (ho_core _ _ _ _ _ Hok) Hb) as (? & ? & ? & ? & ?).
  pose proof (core_bounds _ _ _ _ _ nb (ho_core _ _ _ _ _ Hok) Hnb) as (_ & _ & ? & _ & _).
  assert (mapped (hmem s) (ba nb + 8) (ba nb + 8 + (bsz b - 8))) as Hm.
  { eapply mapped_weaken; [by eapply (heap_ok_mapped minsz fdog)|unfold bend; lia..]. }
  assert (bend b <= ba nb \/ bend nb <= ba b) as Hdis.
  { destruct (decide (bend b <= ba nb)); [lia|]. destruct (decide (bend nb <= ba b)); [lia|]. exfalso. apply Hne.
    eapply (tiles_disjoint (fdog:=fdog) _ bs _ b nb (Z.max (ba b) (ba nb))); [apply Hok|apply Hok|done|done|unfold bend in *; lia..]. }
  apply c_memcpy_spec; [done| |lia|unfold bend in *; lia|].
  { eapply mapped_weaken; [exact (heap_ok_mapped minsz fdog _ _ _ _ Hok Hb)|unfold bend; lia..]. }
  intros m Hin Hout. apply HQ; [| |done].
  - eapply (heap_ok_user_write minsz fdog); [exact Hok|exact Hnb|done|].
    eapply user_write_intro; [exact Hm| |exact Hout|unfold MEM_BLOCK_HEAD_SIZE; lia|unfold bend; lia].
    intros x Hx. replace x with (ba nb + 8 + (x - (ba nb + 8))) by lia. rewrite Hin by lia.
    eapply (heap_ok_mapped minsz fdog); [done|exact Hb|unfold bend; lia].
  - intros c [Hcu Hc]%elem_of_useds Hcn x Hx. apply Hout. intros Hxn. apply Hcn.
    eapply (tiles_disjoint (fdog:=fdog) _ bs _ c nb x); [apply Hok|apply Hok|done..|]. unfold bend in *. lia.
Qed.

(** The size test of [tuya_mem_heap_realloc], for sizes that do not wrap. *)
Lemma realloc_size size : 0 <= size < 4294967295 ->
  u64 (ALIGN_UP (u32 (request size + 1)) + MEM_BLOCK_HEAD_SIZE) = alloc_size (request size).
Proof.
  intros Hs. unfold alloc_size, request. destruct (Z.ltb_spec size 4); rewrite u32_small, (u64_small (_ + 1)) by lia; done.
Qed.

Lemma realloc_moved_spec minsz fdog `{!DogPolicy minsz fdog} s i h bs b size s1 h1 bs1 nb :
  b ∈ useds bs -> heap_updated s s1 i h h1 -> heap_ok minsz fdog (hmem s1) h1 bs1 -> ctx_ready s ->
  (i < length (mem_heap_list s))%nat ->
  (forall c, c ∈ useds bs -> agree (hmem s) (hmem s1) c) ->
  nb ∉ useds bs -> useds bs1 ≡ₚ nb :: useds bs -> ba nb + 8 + size < bend nb -> bsz b < bsz nb ->
  wp (c_memcpy (ba nb + 8) (ba b + 8) (bsz b - 8) ;;; tuya_mem_heap_free (Some i) (ba b + 8) ;;; ret (ba nb + 8))
    (realloc_result minsz fdog s i h bs b size) s1.
Proof.
  intros Hb (Eh & Eb & Es & Ec) Hok1 Hctx Hlen Hag Hni Hperm Hroom Hlt.
  assert (b ∈ useds bs1) as Hb1 by (rewrite Hperm; by right). assert (nb ∈ useds bs1) as Hn1 by (rewrite Hperm; left).
  assert (b <> nb) as Hne by congruence.
  apply wp_bind. eapply (copy_block_spec minsz fdog); [exact Hok1|done..|]. intros m Hokm Hagm Hcopy.
  apply wp_bind. eapply wp_mono.
  { eapply (free_spec minsz fdog (set_hmem (fun _ => m) s1) i h1 bs1 b); [|done| |done].
    - cbn. rewrite Eh. by apply list_lookup_insert_eq.
    - unfold ctx_ready. cbn. by rewrite Ec. }
  intros [] s2 (h2 & bs2 & (Eh2 & Eb2 & Es2 & Ec2) & Hok2 & Hag2 & _ & _ & Hperm2 & _ & _). apply wp_ret.
  assert (NoDup (useds bs1)) as Hnd1 by (apply NoDup_filter; eapply (tiles_nodup minsz fdog); apply Hok1).
  apply elem_of_Permutation in Hb as [U HU].
  assert (NoDup (nb :: b :: U)) as Hnd by (by rewrite <-HU, <-Hperm).
  apply NoDup_cons in Hnd as [Hn' [Hb' _]%NoDup_cons].
  apply (realloc_moved _ _ _ _ _ _ _ _ _ _ h2 bs2 nb U); try done.
  - split_and!; [|cbn in *; congruence..]. rewrite Eh2. cbn. by rewrite Eh, list_insert_insert_eq.
  - apply (Permutation_cons_inv (a := b)). rewrite <-Hperm2, Hperm, HU. constructor.
  - unfold MEM_BLOCK_HEAD_SIZE. intros k Hk. apply elem_of_useds in Hn1 as [? Hnin].
    pose proof (core_bounds _ _ _ _ _ nb (ho_core _ _ _ _ _ Hok1) Hnin) as (? & ? & ? & ? & ?).
    rewrite (Hag2 nb); [|by apply elem_of_useds|done|unfold bend; lia]. cbn. rewrite Hcopy by done.
    apply (Hag b); [rewrite HU; left|]. unfold bend. lia.
  - intros c Hc. apply (agree_trans _ (hmem s1)); [apply Hag; rewrite HU; by right|].
    apply (agree_trans _ m); [apply Hagm|apply Hag2]; try (rewrite Hperm, HU; by do 2 right); set_solver.
Qed.

(** C31: [tuya_mem_heap_realloc] of a block in use to any size below [UINT_MAX]
    returns the same pointer when the block has the room, a null pointer with the
    block intact when the heap has no room, and otherwise a new block that starts
    with the whole content of the old one, which is free again; the other blocks
    in use keep their content. *)
Theorem tuya_mem_heap_realloc_correct s i h bs b size :
  mem_heap_list s !! i = Some h -> heap_ok 16 loose_dog (hmem s) h bs -> ctx_ready s -> b ∈ useds bs ->
  0 <= size < 4294967295 ->
  wp (tuya_mem_heap_realloc (Some i) (ba b + MEM_BLOCK_HEAD_SIZE) size) (realloc_result 16 loose_dog s i h bs b size) s.
Proof.
  intros Hi Hok Hctx Hbu Hsz. pose proof Hbu as [Hu Hb]%elem_of_useds.
  pose proof (core_bounds _ _ _ _ _ b (ho_core _ _ _ _ _ Hok) Hb) as (? & ? & ? & ? & ?).
  assert (blk_ok loose_dog (hmem s) b) as [Hbs (d & Hd & Hud)].
  { destruct Hok as [[_ _ Hoks _ _ _ _ _] _ _ _ _]. rewrite Forall_forall in Hoks. by apply Hoks. }
  rewrite Hu in Hud. subst d.
  assert (4 <= request size /\ size <= request size < 4294967296) as [? ?] by (unfold request; destruct (Z.ltb_spec size 4); lia).
  destruct (alloc_size_bounds (request size)) as [? _]; [lia|].
  unfold tuya_mem_heap_realloc, MEM_DOG_ADDR. cbn zeta. fold (request size). rewrite realloc_size by done.
  unfold MEM_BLOCK_HEAD_SIZE. destruct (Z.eqb_spec (ba b + 8) 0) as [?|_]; [lia|].
  replace (ba b + 8 - 8) with (ba b) by lia. rewrite (u64_small (ba b)) by lia.
  apply wp_bind. eapply wp_rd64; [exact Hbs|]. apply wp_bind. eapply wp_rd8; [exact Hd|]. simpl negb. cbn iota.
  destruct (Z.leb_spec (alloc_size (request size)) (bsz b)) as [Hfit|Hgrow].
  { apply wp_ret. apply realloc_in_place; [done..|]. unfold bend. lia. }
  apply wp_bind. eapply wp_mono; [eapply (malloc_spec 16 loose_dog); try done; [lia|apply alloc_size_min; lia]|].
  intros p s1 (h1 & bs1 & Hup & Hok1 & Hag & _ & _ & Hres).
  assert (request (request size) = request size) as Err by (unfold request; destruct (Z.ltb_spec size 4); [done|]; destruct (Z.ltb_spec size 4); [lia|done]).
  rewrite Err in Hres. destruct Hres as [(-> & -> & -> & _)|(nb & Hni & Hperm & -> & _ & Hroom & Hbig & _)].
  { apply wp_ret. by apply (realloc_failed _ _ _ _ _ _ _ _ _ _ h). }
  unfold MEM_BLOCK_HEAD_SIZE in *. assert (nb ∈ useds bs1) as [_ Hnb]%elem_of_useds by (rewrite Hperm; left).
  pose proof (core_bounds _ _ _ _ _ nb (ho_core _ _ _ _ _ Hok1) Hnb) as (? & ? & ? & ? & ?).
  destruct (Z.eqb_spec (ba nb + 8) 0) as [?|_]; [lia|]. apply wp_bind. eapply wp_rd64.
  { rewrite <-Hbs. apply load64_frame. intros x Hx. apply (Hag b Hbu). unfold bend. lia. }
  rewrite u64_small by lia. eapply (realloc_moved_spec 16 loose_dog); try done; [by eapply lookup_lt_Some|lia..].
Qed.

Lemma tuya_mem_heap_realloc_correct_witness :
  wp (tuya_mem_heap_realloc (Some 0%nat) 4448 120)
     (realloc_result 16 loose_dog demo2 0 (heap_at demo2) (layout demo2) (Blk 4440 56 true) 120) demo2.
Proof.
  apply (tuya_mem_heap_realloc_correct demo2 0 _ _ (Blk 4440 56 true)); [apply demo2_heap|apply demo2_ok16|apply demo2_ready| |lia].
  rewrite demo2_layout. apply elem_of_useds. split; [done|set_solver].
Defined.

(** ** Self-check *)

(** On a heap whose blocks have at least 24 bytes, [MEM_HeapStatus] walks the
    region to its end and reports it valid, with the exact number of used and free
    blocks, the total and the largest of the free user areas; it only reports,
    also when it finds leak records, and changes no memory. *)
Theorem MEM_HeapStatus_correct s i h bs :
  mem_heap_list s !! i = Some h -> heap_ok 24 strict_dog (hmem s) h bs -> ctx_ready s ->
  24 <= heap_lo h -> Forall (leak_ok (hmem s)) bs ->
  wp (MEM_HeapStatus i) (fun st s' => reported s s' /\
    st = mkStatus (h_size h) (sum_user (frees bs)) (max_user (frees bs)) 1
           (Z.of_nat (length (useds bs))) (Z.of_nat (length (frees bs)))) s.
Proof. exact (MEM_HeapStatus_spec s i h bs). Qed.

Lemma MEM_HeapStatus_correct_witness :
  wp (MEM_HeapStatus 0) (fun st s' => reported demo2 s' /\ st = mkStatus 512 438 335 1 1 2) demo2.
Proof.
  apply (MEM_HeapStatus_correct demo2 0 (heap_at demo2) (layout demo2));
    [apply demo2_heap|apply demo2_ok24|apply demo2_ready|by vm_compute|].
  rewrite demo2_layout. do 3 (apply Forall_cons_2; [right; cbn; lia|]). constructor.
Defined.

(** ** Corner cases *)

(** A heap after [p = malloc(4)], [q = malloc(4)], [free(p)]. *)
Definition demo_small : hstate :=
  run (p <- tuya_mem_heap_malloc (Some 0%nat) 4 ;;
       _ <- tuya_mem_heap_malloc (Some 0%nat) 4 ;;
       tuya_mem_heap_free (Some 0%nat) p) demo1.

(** The blocks of requests below 8 bytes have 16 bytes, and the link of a free
    one overlaps its tag: after two such allocations and a release the heap is
    well formed, but [MEM_HeapStatus] reports it damaged. *)
Theorem small_block_false_alarm :
  heap_ok 16 loose_dog (hmem demo_small) (heap_at demo_small) (layout demo_small) /\
  wp (MEM_HeapStatus 0) (fun st s' => st_valid st = 0 /\ head (hevents s') = Some (EvDbg (MsgDogErr 4592 16))) demo_small.
Proof. split; [apply (heap_okb_ok 16 loose_dog _ _ _ _ loose_dogb_ok); by vm_compute|by vm_compute]. Qed.

(** [size + 1] wraps for a request of [UINT_MAX] bytes: [tuya_mem_heap_realloc]
    of any block in use then reports success and returns the old, smaller, block. *)
Theorem realloc_uint_max_wraps s i h bs b :
  heap_ok 16 loose_dog (hmem s) h bs -> b ∈ useds bs ->
  wp (tuya_mem_heap_realloc (Some i) (ba b + MEM_BLOCK_HEAD_SIZE) 4294967295)
    (fun p s' => p = ba b + MEM_BLOCK_HEAD_SIZE /\ s' = s) s.
Proof.
  intros Hok [Hu Hb]%elem_of_useds. pose proof (core_bounds _ _ _ _ _ b (ho_core _ _ _ _ _ Hok) Hb) as (? & ? & ? & ? & ?).
  destruct Hok as [[_ _ Hoks _ _ _ _ _] _ _ _ _]. rewrite Forall_forall in Hoks. destruct (Hoks b Hb) as [Hbs (d & Hd & Hud)].
  rewrite Hu in Hud. subst d. unfold tuya_mem_heap_realloc, MEM_DOG_ADDR, MEM_BLOCK_HEAD_SIZE.
  destruct (Z.eqb_spec (ba b + 8) 0) as [?|_]; [lia|].
  replace (ba b + 8 - 8) with (ba b) by lia. rewrite (u64_small (ba b)) by lia.
  apply wp_bind. eapply wp_rd64; [exact Hbs|]. apply wp_bind. eapply wp_rd8; [exact Hd|]. simpl negb. cbn zeta iota.
  match goal with |- context [?x <=? bsz b] => change x with 8 end. destruct (Z.leb_spec 8 (bsz b)); [by apply wp_ret|lia].
Qed.

Lemma realloc_uint_max_wraps_witness :
  wp (tuya_mem_heap_realloc (Some 0%nat) 4448 4294967295) (fun p s' => p = 4448 /\ s' = demo2) demo2.
Proof.
  apply (realloc_uint_max_wraps demo2 0 (heap_at demo2) (layout demo2) (Blk 4440 56 true)); [apply demo2_ok16|].
  rewrite demo2_layout. apply elem_of_useds. split; [done|set_solver].
Defined.
