(* ===== verification/MemHeapStore.v ===== *)
(** * The memory heap refines a store of objects

    A client of [tuya_mem_heap.c] that follows the rules of [malloc] and [free]
    sees a map from live pointers to byte arrays: allocations are disjoint,
    writes to one object are not seen in another, a read returns the last value
    written.  The concrete side is the memory, headers and free list of
    [MemHeap]; the abstract side is a [gmap] from pointers to lists of bytes. *)

From S2P Require Import Prelude CMem MemHeap MemHeapInv MemHeapAlloc MemHeapFree MemHeapCreate MemHeapFacts MemHeapProps.

(** ** The abstract store and its clients *)

Abbreviation astore := (gmap Z (list Z)).

Inductive op :=
| OpMalloc (n : Z)
| OpFree (p : Z)
| OpRead (p : Z) (k : nat)
| OpWrite (p : Z) (k : nat) (v : Z).

(** A client: operations, each with the continuation that receives its result. *)
Inductive prog :=
| Done (r : Z)
| Do (o : op) (k : Z -> prog).

Inductive astep : op -> astore -> Z -> astore -> Prop :=
| astep_malloc_fail n st : astep (OpMalloc n) st 0 st
| astep_malloc n st p l : st !! p = None -> p <> 0 -> Z.of_nat (length l) = n -> astep (OpMalloc n) st p (<[p := l]> st)
| astep_free p st l : st !! p = Some l -> astep (OpFree p) st 0 (delete p st)
| astep_read p k st l v : st !! p = Some l -> l !! k = Some v -> astep (OpRead p k) st v st
| astep_write p k v st l : st !! p = Some l -> astep (OpWrite p k v) st 0 (<[p := <[k := v]> l]> st).

(** The rules: release and access live objects only, inside their bounds. *)
Definition allowed (st : astore) (o : op) : Prop :=
  match o with
  | OpMalloc n => 0 < n < 4294967296
  | OpFree p => is_Some (st !! p)
  | OpRead p k => exists l, st !! p = Some l /\ (k < length l)%nat
  | OpWrite p k v => 0 <= v < 256 /\ exists l, st !! p = Some l /\ (k < length l)%nat
  end.

Fixpoint well_behaved (st : astore) (c : prog) : Prop :=
  match c with
  | Done _ => True
  | Do o k => allowed st o /\ forall r st', astep o st r st' -> well_behaved st' (k r)
  end.

(** The runs of a client on the store, with its result. *)
Inductive aruns : astore -> prog -> Z -> astore -> Prop :=
| aruns_done st r : aruns st (Done r) r st
| aruns_do st o k r st' x st'' : astep o st r st' -> aruns st' (k r) x st'' -> aruns st (Do o k) x st''.

(** ** The same client on the heap *)

Definition exec_op (i : nat) (o : op) : H Z :=
  match o with
  | OpMalloc n => tuya_mem_heap_malloc (Some i) n
  | OpFree p => tuya_mem_heap_free (Some i) p ;;; ret 0
  | OpRead p k => rd8 (p + Z.of_nat k)
  | OpWrite p k v => wr8 (p + Z.of_nat k) v ;;; ret 0
  end.

Fixpoint exec (i : nat) (c : prog) : H Z :=
  match c with
  | Done r => ret r
  | Do o k => r <- exec_op i o ;; exec i (k r)
  end.

(** ** The representation *)

(** The object [l] at [p] lives in the block [b]. *)
Definition object_at (m : mem) (b : blk) (p : Z) (l : list Z) : Prop :=
  p = ba b + MEM_BLOCK_HEAD_SIZE /\ p + Z.of_nat (length l) < bend b /\
  forall k v, l !! k = Some v -> m !! (p + Z.of_nat k) = Some v.

Record represents (i : nat) (s : hstate) (h : MEM_Heap_t) (bs : list blk) (st : astore) : Prop := {
  rep_heap : mem_heap_list s !! i = Some h;
  rep_ok : heap_ok 16 loose_dog (hmem s) h bs;
  rep_ready : ctx_ready s;
  rep_objects : forall p l, st !! p = Some l -> exists b, b ∈ useds bs /\ object_at (hmem s) b p l
}.

(** Objects survive what keeps the bytes of their blocks. *)
Lemma object_agree m m' b p l : agree m m' b -> object_at m b p l -> object_at m' b p l.
Proof.
  intros Ha (-> & Hroom & Hval). split; [done|]. split; [done|]. intros k v Hk.
  assert (k < length l)%nat by (by eapply lookup_lt_Some). unfold MEM_BLOCK_HEAD_SIZE in *.
  rewrite Ha by lia. by apply Hval.
Qed.

(** The bytes at [p]. *)
Definition bytes_at (m : mem) (p : Z) (n : nat) : list Z :=
  map (fun k => default 0 (m !! (p + Z.of_nat k))) (seq 0 n).

Lemma lookup_bytes_at m p n k : (k < n)%nat -> bytes_at m p n !! k = Some (default 0 (m !! (p + Z.of_nat k))).
Proof. intros Hk. unfold bytes_at. rewrite list_lookup_fmap, lookup_seq_lt by done. done. Qed.

Lemma bytes_at_object m b p n :
  mapped m (ba b) (bend b) -> p = ba b + MEM_BLOCK_HEAD_SIZE -> p + Z.of_nat n < bend b -> object_at m b p (bytes_at m p n).
Proof.
  intros Hm -> Hn. assert (length (bytes_at m (ba b + MEM_BLOCK_HEAD_SIZE) n) = n) as El by (unfold bytes_at; by rewrite length_map, length_seq).
  split; [done|]. split; [by rewrite El|]. intros k v Hk.
  assert (k < n)%nat by (rewrite <-El; by eapply lookup_lt_Some). rewrite lookup_bytes_at in Hk by done. injection Hk as <-.
  destruct (Hm (ba b + MEM_BLOCK_HEAD_SIZE + Z.of_nat k)) as [x ->]; [unfold MEM_BLOCK_HEAD_SIZE in *; lia|done].
Qed.

(** ** One step *)

Definition step_ok (i : nat) (o : op) (st : astore) (r : Z) (s' : hstate) : Prop :=
  exists st' h' bs', astep o st r st' /\ represents i s' h' bs' st'.

Lemma heap_updated_lookup s s' i h h' : mem_heap_list s !! i = Some h -> heap_updated s s' i h h' -> mem_heap_list s' !! i = Some h'.
Proof. intros Hi (-> & _). apply list_lookup_insert_eq. by eapply lookup_lt_Some. Qed.

Lemma heap_updated_ready s s' i h h' : ctx_ready s -> heap_updated s s' i h h' -> ctx_ready s'.
Proof. intros Hr (_ & _ & _ & E). unfold ctx_ready. by rewrite E. Qed.

Lemma represents_malloc i s h bs st n p s' :
  represents i s h bs st -> 0 < n -> malloc_result 16 loose_dog s i h bs n p s' -> step_ok i (OpMalloc n) st p s'.
Proof.
  intros [Hi Hok Hr Hobj] Hn (h' & bs' & Hup & Hok' & Hag & _ & _ & Hres).
  pose proof (heap_updated_lookup _ _ _ _ _ Hi Hup). pose proof (heap_updated_ready _ _ _ _ _ Hr Hup).
  destruct Hres as [(-> & -> & -> & _)|(nb & Hni & Hperm & -> & _ & Hroom & _)].
  - exists st, h, bs. split; [constructor|]. split; try done. intros p l Hp.
    destruct (Hobj p l Hp) as (b & Hb & Ho). exists b. split; [done|]. eapply object_agree; eauto.
  - assert (nb ∈ useds bs') as Hnb by (rewrite Hperm; left). pose proof Hnb as [_ Hnin]%elem_of_useds.
    set (p := ba nb + MEM_BLOCK_HEAD_SIZE) in *.
    exists (<[p := bytes_at (hmem s') p (Z.to_nat n)]> st), h', bs'. split.
    + apply astep_malloc; [|pose proof (core_bounds _ _ _ _ _ nb (ho_core _ _ _ _ _ Hok') Hnin); unfold p, MEM_BLOCK_HEAD_SIZE; lia|].
      * destruct (st !! p) as [l|] eqn:Ep; [|done]. destruct (Hobj p l Ep) as (b & Hb & E & _). exfalso. apply Hni.
        replace nb with b; [done|]. assert (b ∈ useds bs') as [_ Hb']%elem_of_useds by (rewrite Hperm; by right).
        eapply (tiles_start (fdog:=loose_dog)); [apply Hok'|apply Hok'|done|done|]. unfold p in E. lia.
      * unfold bytes_at. rewrite length_map, length_seq. lia.
    + split; try done. intros q l Hq. apply lookup_insert_Some in Hq as [[<- <-]|[Hne Hq]].
      * exists nb. split; [done|]. apply bytes_at_object; [by eapply (heap_ok_mapped 16 loose_dog)|done|lia].
      * destruct (Hobj q l Hq) as (b & Hb & Ho). exists b. split; [rewrite Hperm; by right|]. eapply object_agree; eauto.
Qed.

Lemma represents_free i s h bs st p l b s' :
  represents i s h bs st -> st !! p = Some l -> b ∈ useds bs -> p = ba b + MEM_BLOCK_HEAD_SIZE ->
  free_result 16 loose_dog s i h bs b s' -> step_ok i (OpFree p) st 0 s'.
Proof.
  intros [Hi Hok Hr Hobj] Hp Hb -> (h' & bs' & Hup & Hok' & Hag & _ & _ & Hperm & _).
  exists (delete (ba b + MEM_BLOCK_HEAD_SIZE) st), h', bs'. split; [by econstructor|].
  split; [by eapply heap_updated_lookup|done|by eapply heap_updated_ready|].
  intros q k Hq. apply lookup_delete_Some in Hq as [Hne Hq]. destruct (Hobj q k Hq) as (c & Hc & Ho).
  assert (c <> b) as Hcb by (intros ->; destruct Ho as [-> _]; done). exists c. split.
  - rewrite Hperm in Hc. set_solver.
  - eapply object_agree; eauto.
Qed.

Lemma represents_write i s h bs st p k v l :
  represents i s h bs st -> st !! p = Some l -> (k < length l)%nat -> 0 <= v < 256 ->
  step_ok i (OpWrite p k v) st 0 (set_hmem (fun m => st8 m (p + Z.of_nat k) v) s).
Proof.
  intros [Hi Hok Hr Hobj] Hp Hk Hv. destruct (Hobj p l Hp) as (b & Hb & Ho). pose proof Hb as [Hbu Hbin]%elem_of_useds.
  pose proof Ho as (Ep & Hroom & Hval). unfold MEM_BLOCK_HEAD_SIZE in *.
  eexists _, h, bs. split; [by econstructor|]. split; try done.
  - cbn [hmem set_hmem]. eapply (heap_ok_user_write 16 loose_dog); [done|exact Hbin|done|].
    unfold user_write, MEM_BLOCK_HEAD_SIZE. split; intros x Hx.
    + apply lookup_st8_ne. lia.
    + unfold st8. rewrite lookup_insert. by case_decide; [eexists|].
  - intros q l' Hq. cbn [hmem set_hmem]. apply lookup_insert_Some in Hq as [[<- <-]|[Hne Hq]].
    + exists b. split; [done|]. split; [done|]. split; [by rewrite length_insert|].
      intros j w Hj. destruct (decide (j = k)) as [->|Hjk].
      * rewrite list_lookup_insert_eq in Hj by done. injection Hj as <-. by apply lookup_st8_eq.
      * rewrite list_lookup_insert_ne in Hj by done. rewrite lookup_st8_ne by lia. by apply Hval.
    + destruct (Hobj q l' Hq) as (c & Hc & Ho'). exists c. split; [done|]. eapply object_agree; [|done].
      intros x Hx. apply lookup_st8_ne. intros ->. apply Hne. destruct Ho' as [-> _]. rewrite Ep. unfold MEM_BLOCK_HEAD_SIZE. do 2 f_equal.
      apply elem_of_useds in Hc as [_ Hc].
      eapply (tiles_disjoint (fdog:=loose_dog) _ bs _ b c); [apply Hok|apply Hok|done|done| |exact Hx]. lia.
Qed.

Lemma exec_op_ok i s h bs st o :
  represents i s h bs st -> allowed st o -> wp (exec_op i o) (step_ok i o st) s.
Proof.
  intros Hrep Hal. pose proof Hrep as [Hi Hok Hr Hobj]. destruct o as [n|p|p k|p k v]; simpl in Hal.
  - eapply wp_mono; [eapply (malloc_spec 16 loose_dog); try done; by apply alloc_size_min|].
    intros p s' Hm. eapply represents_malloc; eauto; lia.
  - destruct Hal as [l Hl]. destruct (Hobj p l Hl) as (b & Hb & Ho). pose proof Ho as [Ep _]. simpl. apply wp_bind.
    rewrite Ep. eapply wp_mono; [by eapply (free_spec 16 loose_dog)|]. intros [] s' Hf. apply wp_ret. rewrite <-Ep. by eapply represents_free.
  - destruct Hal as (l & Hl & Hk). destruct (Hobj p l Hl) as (b & Hb & _ & _ & Hval).
    apply lookup_lt_is_Some in Hk as [v Hv]. simpl. eapply wp_rd8; [by apply Hval|].
    exists st, h, bs. split; [by econstructor|done].
  - destruct Hal as (Hv & l & Hl & Hk). destruct (Hobj p l Hl) as (b & Hb & _ & _ & Hval).
    simpl. apply wp_bind, wp_wr8; [apply lookup_lt_is_Some in Hk as [w Hw]; eexists; by apply Hval|]. apply wp_ret.
    by eapply represents_write.
Qed.

(** ** Every client *)

(** C1: every client that follows the rules runs on the heap to its end, without
    a fault, and each of its runs is a run on the abstract store of objects: the
    same results of allocations and reads, with the final heap well formed and
    holding the final objects. *)
Theorem heap_refines_store i c s h bs st :
  represents i s h bs st -> well_behaved st c ->
  wp (exec i c) (fun r s' => exists st' h' bs', aruns st c r st' /\ represents i s' h' bs' st') s.
Proof.
  revert s h bs st. induction c as [r|o k IH]; intros s h bs st Hrep Hwb.
  - apply wp_ret. exists st, h, bs. split; [constructor|done].
  - destruct Hwb as [Hal Hk]. simpl. apply wp_bind. eapply wp_mono; [by eapply exec_op_ok|].
    intros r s1 (st1 & h1 & bs1 & Hstep & Hrep1). eapply wp_mono; [eapply IH; eauto|].
    intros x s2 (st2 & h2 & bs2 & Hruns & Hrep2). exists st2, h2, bs2. split; [by econstructor|done].
Qed.

(** A client that allocates an object, writes to it, reads it and releases it. *)
Definition demo_client : prog :=
  Do (OpMalloc 10) (fun p => if p =? 0 then Done 0 else
  Do (OpWrite p 4 7) (fun _ => Do (OpRead p 4) (fun v => Do (OpFree p) (fun _ => Done v)))).

Lemma demo_client_ok : well_behaved ∅ demo_client.
Proof.
  split; [simpl; lia|]. intros p st1 S1. inversion S1 as [|? ? ? l Hp Hp0 Hl| | |]; subst; [by cbn|].
  destruct (Z.eqb_spec p 0) as [?|_]; [done|].
  split; [split; [lia|]; exists l; rewrite lookup_insert_eq; split; [done|lia]|].
  intros r2 st2 S2. inversion S2 as [| | | |? ? ? ? l2 Hl2]; subst.
  split; [exists (<[4%nat := 7]> l2); rewrite lookup_insert_eq; split; [done|]|].
  { rewrite lookup_insert_eq in Hl2. injection Hl2 as <-. rewrite length_insert. lia. }
  intros v st3 S3. inversion S3; subst. split; [|done]. simpl. by rewrite lookup_insert_eq.
Qed.

Lemma demo2_represents : represents 0 demo2 (heap_at demo2) (layout demo2) ∅.
Proof. split; [apply demo2_heap|apply demo2_ok16|apply demo2_ready|]. intros p l. by rewrite lookup_empty. Qed.

Lemma heap_refines_store_witness :
  wp (exec 0 demo_client) (fun r s' => exists st' h' bs', aruns ∅ demo_client r st' /\ represents 0 s' h' bs' st') demo2.
Proof. apply (heap_refines_store 0 demo_client demo2 _ _ ∅ demo2_represents demo_client_ok). Defined.
