(* ===== verification/Alloc.v ===== *)
(** * The interface between the allocator and its clients

    The containers of the utilities allocate with [tkl_system_malloc] and release
    with [tkl_system_free].  What they rely on is stated once, as a class over the
    state of the allocator: the live allocations, with their sizes, are a finite
    map; an allocation returns a null pointer or a pointer that is not live; a
    live pointer can be released; live allocations do not overlap and are at
    positive addresses.  Each heap of [MemHeap] is an instance
    ([heap_allocator]). *)

From S2P Require Import Prelude CMem MemHeap MemHeapInv MemHeapAlloc MemHeapFree MemHeapCreate MemHeapFacts MemHeapProps MemHeapStore.

Class Allocator (A : Type) := {
  al_malloc : Z -> M A Z;
  al_free : Z -> M A unit;
  al_live : A -> gmap Z Z -> Prop;
  al_malloc_ok s L n : al_live s L -> 0 < n < 4294967296 ->
    wp (al_malloc n) (fun p s' => (p = 0 /\ al_live s' L) \/ (p <> 0 /\ L !! p = None /\ al_live s' (<[p := n]> L))) s;
  al_free_ok s L p : al_live s L -> is_Some (L !! p) -> wp (al_free p) (fun _ s' => al_live s' (delete p L)) s;
  al_disjoint s L p n q k : al_live s L -> L !! p = Some n -> L !! q = Some k -> p <> q -> p + n <= q \/ q + k <= p;
  al_positive s L p : al_live s L -> is_Some (L !! p) -> 0 < p
}.

(** ** The memory heap *)

(** The heap of handle [i] holds objects of the sizes of [L]. *)
Definition heap_live (i : nat) (s : hstate) (L : gmap Z Z) : Prop :=
  exists h bs st, represents i s h bs st /\ L = (fun l => Z.of_nat (length l)) <$> st.

Lemma heap_malloc_ok i s L n : heap_live i s L -> 0 < n < 4294967296 ->
  wp (tuya_mem_heap_malloc (Some i) n) (fun p s' =>
    (p = 0 /\ heap_live i s' L) \/ (p <> 0 /\ L !! p = None /\ heap_live i s' (<[p := n]> L))) s.
Proof.
  intros (h & bs & st & Hrep & ->) Hn. eapply wp_mono; [by apply (exec_op_ok i s h bs st (OpMalloc n))|].
  intros p s' (st' & h' & bs' & Hstep & Hrep'). inversion Hstep as [|? ? ? l Hp Hp0 Hl| | |]; subst.
  - left. split; [done|]. by exists h', bs', st'.
  - right. split; [done|]. split; [by rewrite lookup_fmap, Hp|]. exists h', bs', (<[p := l]> st). split; [done|]. by rewrite fmap_insert.
Qed.

Lemma heap_free_ok i s L p : heap_live i s L -> is_Some (L !! p) ->
  wp (tuya_mem_heap_free (Some i) p) (fun _ s' => heap_live i s' (delete p L)) s.
Proof.
  intros (h & bs & st & Hrep & ->) [n Hp]. rewrite lookup_fmap in Hp. apply fmap_Some in Hp as (l & Hp & _).
  destruct (rep_objects _ _ _ _ _ Hrep p l Hp) as (b & Hb & Ho). pose proof Ho as [Ep _]. rewrite Ep.
  eapply wp_mono; [eapply (free_spec 16 loose_dog); [apply Hrep|apply Hrep|apply Hrep|done]|].
  intros [] s' Hf. destruct (represents_free i s h bs st p l b s') as (st' & h' & bs' & Hstep & Hrep'); try done.
  inversion Hstep; subst. eexists h', bs', _. split; [exact Hrep'|]. by rewrite fmap_delete.
Qed.

Lemma heap_disjoint i s L p n q k :
  heap_live i s L -> L !! p = Some n -> L !! q = Some k -> p <> q -> p + n <= q \/ q + k <= p.
Proof.
  intros (h & bs & st & [_ Hok _ Hobj] & ->) Hp Hq Hne. rewrite lookup_fmap in Hp, Hq.
  apply fmap_Some in Hp as (l & Hp & ->), Hq as (l' & Hq & ->).
  destruct (Hobj p l Hp) as (b & [_ Hb]%elem_of_useds & Ep & Hbe & _), (Hobj q l' Hq) as (c & [_ Hc]%elem_of_useds & Eq & Hce & _).
  destruct (core_bounds _ _ _ _ _ b (ho_core _ _ _ _ _ Hok) Hb) as (_ & _ & ? & _).
  destruct (core_bounds _ _ _ _ _ c (ho_core _ _ _ _ _ Hok) Hc) as (_ & _ & ? & _).
  destruct (decide (bend b <= ba c)); [unfold MEM_BLOCK_HEAD_SIZE in *; lia|].
  destruct (decide (bend c <= ba b)); [unfold MEM_BLOCK_HEAD_SIZE in *; lia|]. exfalso. apply Hne. rewrite Ep, Eq. do 2 f_equal.
  eapply (tiles_disjoint (fdog:=loose_dog) _ bs _ b c (Z.max (ba b) (ba c))); [apply Hok|apply Hok|done|done|unfold bend in *; lia..].
Qed.

Lemma heap_positive i s L p : heap_live i s L -> is_Some (L !! p) -> 0 < p.
Proof.
  intros (h & bs & st & [_ Hok _ Hobj] & ->) [n Hp]. rewrite lookup_fmap in Hp. apply fmap_Some in Hp as (l & Hp & _).
  destruct (Hobj p l Hp) as (b & [_ Hb]%elem_of_useds & Ep & _).
  destruct (core_bounds _ _ _ _ _ b (ho_core _ _ _ _ _ Hok) Hb) as (? & ? & _). unfold MEM_BLOCK_HEAD_SIZE in *. lia.
Qed.

Definition heap_allocator (i : nat) : Allocator hstate := {|
  al_malloc := tuya_mem_heap_malloc (Some i);
  al_free := tuya_mem_heap_free (Some i);
  al_live := heap_live i;
  al_malloc_ok := heap_malloc_ok i;
  al_free_ok := heap_free_ok i;
  al_disjoint := heap_disjoint i;
  al_positive := heap_positive i
|}.

(** A client with its own objects: the state of the allocator, and what the
    client keeps at each of its pointers. *)
Record owned (A O : Type) := Own { o_alloc : A; o_objs : gmap Z O }.
Arguments Own {A O}. Arguments o_alloc {A O}. Arguments o_objs {A O}.

Section Owned.
Context {A O : Type} `{!Allocator A}.

(** The size an object asks for. *)
Variable osz : O -> Z.

Definition lift_alloc {R} (c : M A R) : M (owned A O) R := fun s =>
  match c (o_alloc s) with
  | Ret r a => Ret r (Own a (o_objs s))
  | Fault => Fault
  | Diverge => Diverge
  end.

Definition get_obj (p : Z) : M (owned A O) O := fun s =>
  match o_objs s !! p with Some o => Ret o s | None => Fault end.

(** Write through a pointer; [init_obj] also gives a fresh allocation its content. *)
Definition set_obj (p : Z) (o : O) : M (owned A O) unit := fun s =>
  match o_objs s !! p with Some _ => Ret tt (Own (o_alloc s) (<[p := o]> (o_objs s))) | None => Fault end.
Definition init_obj (p : Z) (o : O) : M (owned A O) unit := fun s =>
  Ret tt (Own (o_alloc s) (<[p := o]> (o_objs s))).
Definition drop_obj (p : Z) : M (owned A O) unit := fun s =>
  Ret tt (Own (o_alloc s) (delete p (o_objs s))).

(** The objects of the client are live allocations of at least their size. *)
Definition owned_ok (s : owned A O) : Prop :=
  exists L, al_live (o_alloc s) L /\ forall p o, o_objs s !! p = Some o -> exists n, L !! p = Some n /\ osz o <= n.

Lemma wp_lift {R} (c : M A R) Q s :
  wp c (fun r a => Q r (Own a (o_objs s))) (o_alloc s) -> wp (lift_alloc c) Q s.
Proof. unfold wp, lift_alloc. by destruct (c (o_alloc s)). Qed.

Lemma wp_get_obj p o Q s : o_objs s !! p = Some o -> Q o s -> wp (get_obj p) Q s.
Proof. intros E HQ. unfold wp, get_obj. by rewrite E. Qed.

Lemma wp_set_obj p o o' Q s : o_objs s !! p = Some o' -> Q tt (Own (o_alloc s) (<[p := o]> (o_objs s))) -> wp (set_obj p o) Q s.
Proof. intros E HQ. unfold wp, set_obj. by rewrite E. Qed.

(** The allocator has no room for [n] bytes now. *)
Definition refuses (n : Z) (a : A) : bool := match al_malloc n a with Ret p _ => p =? 0 | _ => false end.

(** Allocating an object: the pointer is null exactly when the allocator refuses, and is not
    among the client's otherwise. *)
Lemma malloc_obj_cause s n Q :
  owned_ok s -> 0 < n < 4294967296 ->
  (forall a, refuses n (o_alloc s) = true -> owned_ok (Own a (o_objs s)) -> Q 0 (Own a (o_objs s))) ->
  (forall p a, refuses n (o_alloc s) = false -> p <> 0 -> o_objs s !! p = None ->
     (forall o, osz o <= n -> owned_ok (Own a (<[p := o]> (o_objs s)))) -> Q p (Own a (o_objs s))) ->
  wp (lift_alloc (al_malloc n)) Q s.
Proof.
  intros (L & HL & Hob) Hn H0 H1. apply wp_lift. destruct (proj1 (wp_run _ _ _) (al_malloc_ok _ _ _ HL Hn)) as (p & a & E & Hp). apply wp_run. exists p, a. split; [done|]. unfold refuses in *. rewrite E in *.
  destruct Hp as [[-> HL']|(Hp & HLp & HL')].
  - apply H0; [done|]. by exists L.
  - apply H1; [by apply Z.eqb_neq|done| |].
    + destruct (o_objs s !! p) as [o|] eqn:Eo; [|done]. destruct (Hob p o Eo) as (k & Hk & _). congruence.
    + intros o Ho. exists (<[p := n]> L). split; [done|]. simpl. intros q o' Hq.
      apply lookup_insert_Some in Hq as [[<- <-]|[Hne Hq]]; [exists n; by rewrite lookup_insert_eq|].
      destruct (Hob q o' Hq) as (k & Hk & Hle). exists k. by rewrite lookup_insert_ne.
Qed.
Lemma malloc_obj_spec s n Q :
  owned_ok s -> 0 < n < 4294967296 ->
  (forall a, owned_ok (Own a (o_objs s)) -> Q 0 (Own a (o_objs s))) ->
  (forall p a, p <> 0 -> o_objs s !! p = None ->
     (forall o, osz o <= n -> owned_ok (Own a (<[p := o]> (o_objs s)))) -> Q p (Own a (o_objs s))) ->
  wp (lift_alloc (al_malloc n)) Q s.
Proof. intros Ho Hn H0 H1. by apply malloc_obj_cause; auto. Qed.

Lemma free_obj_spec s p o :
  owned_ok s -> o_objs s !! p = Some o ->
  wp (bind (lift_alloc (al_free p)) (fun _ => drop_obj p)) (fun _ s' => owned_ok s' /\ o_objs s' = delete p (o_objs s)) s.
Proof.
  intros (L & HL & Hob) Hp. destruct (Hob p o Hp) as (n & Hn & _).
  apply wp_bind, wp_lift. eapply wp_mono; [apply (al_free_ok _ L); [done|by exists n]|]. intros [] a HL'.
  unfold wp, drop_obj. simpl. split; [|done]. exists (delete p L). split; [done|]. simpl. intros q o' Hq.
  apply lookup_delete_Some in Hq as [Hne Hq]. destruct (Hob q o' Hq) as (k & Hk & Hle). exists k. by rewrite lookup_delete_ne.
Qed.

(** Two objects do not overlap. *)
Lemma owned_disjoint s p o q o' :
  owned_ok s -> o_objs s !! p = Some o -> o_objs s !! q = Some o' -> p <> q -> p + osz o <= q \/ q + osz o' <= p.
Proof.
  intros (L & HL & Hob) Hp Hq Hne. destruct (Hob p o Hp) as (n & Hn & ?), (Hob q o' Hq) as (k & Hk & ?).
  destruct (al_disjoint _ _ _ _ _ _ HL Hn Hk Hne); lia.
Qed.

Lemma owned_positive s p o : owned_ok s -> o_objs s !! p = Some o -> 0 < p.
Proof. intros (L & HL & Hob) Hp. destruct (Hob p o Hp) as (n & Hn & _). apply (al_positive _ _ _ HL). by exists n. Qed.

(** Updating an object that keeps its size. *)
Lemma owned_ok_update s p o o' :
  owned_ok s -> o_objs s !! p = Some o' -> osz o = osz o' -> owned_ok (Own (o_alloc s) (<[p := o]> (o_objs s))).
Proof.
  intros (L & HL & Hob) Hp E. exists L. split; [done|]. simpl. intros q o'' Hq.
  apply lookup_insert_Some in Hq as [[<- <-]|[Hne Hq]]; [rewrite E|]; eauto.
Qed.
End Owned.

(** ** An allocator without bounds *)

(** Memory from an address on; released memory is not used again. *)
Record arena := Arena { ar_next : Z; ar_live : gmap Z Z }.

Definition arena_ok (s : arena) (L : gmap Z Z) : Prop :=
  L = ar_live s /\ 0 < ar_next s /\ (forall p n, L !! p = Some n -> 0 < p /\ 0 < n /\ p + n <= ar_next s) /\
  forall p n q k, L !! p = Some n -> L !! q = Some k -> p <> q -> p + n <= q \/ q + k <= p.

Lemma arena_malloc_ok s L n : arena_ok s L -> 0 < n < 4294967296 ->
  wp (fun s => Ret (ar_next s) (Arena (ar_next s + n) (<[ar_next s := n]> (ar_live s)))) (fun p s' => (p = 0 /\ arena_ok s' L) \/ (p <> 0 /\ L !! p = None /\ arena_ok s' (<[p := n]> L))) s.
Proof.
  intros (-> & Hn & Hb & Hd) Hs. unfold wp. right. split; [lia|]. split; [destruct (ar_live s !! ar_next s) eqn:E; [apply Hb in E; lia|done]|]. split; [done|]. cbn. split; [lia|]. split.
  - intros p k [[<- <-]|[_ Hp%Hb]]%lookup_insert_Some; lia.
  - intros p k q k' [[<- <-]|[Hne Hp]]%lookup_insert_Some [[<- <-]|[Hne' Hq]]%lookup_insert_Some; [done| | |by eauto]; intros _; [apply Hb in Hq|apply Hb in Hp]; lia.
Qed.

Lemma arena_free_ok s L p : arena_ok s L -> is_Some (L !! p) -> wp (fun s => Ret tt (Arena (ar_next s) (delete p (ar_live s)))) (fun _ s' => arena_ok s' (delete p L)) s.
Proof.
  intros (-> & Hn & Hb & Hd) _. split; [done|]. split; [done|]. cbn. split; [intros q k [_ Hq]%lookup_delete_Some; by apply Hb|]. intros q k r j [_ Hq]%lookup_delete_Some [_ Hr]%lookup_delete_Some. by eapply Hd.
Qed.

Definition arena_allocator : Allocator arena := {|
  al_malloc n s := Ret (ar_next s) (Arena (ar_next s + n) (<[ar_next s := n]> (ar_live s)));
  al_free p s := Ret tt (Arena (ar_next s) (delete p (ar_live s)));
  al_live := arena_ok;
  al_malloc_ok := arena_malloc_ok;
  al_free_ok := arena_free_ok;
  al_disjoint s L p n q k H := proj2 (proj2 (proj2 H)) p n q k;
  al_positive s L p H := fun '(ex_intro _ n E) => proj1 (proj1 (proj2 (proj2 H)) p n E)
|}.

Definition arena0 : arena := Arena 4096 ∅.
Lemma arena0_ok : arena_ok arena0 ∅.
Proof. split; [done|]. split; [done|]. split; [by intros p n; rewrite lookup_empty|]. by intros p n q k; rewrite lookup_empty. Qed.

Lemma arena0_owned {O} (osz : O -> Z) : @owned_ok _ _ arena_allocator osz (Own arena0 ∅).
Proof. exists ∅. split; [apply arena0_ok|]. intros p o. by rewrite lookup_empty. Qed.
