(* ===== verification/RingBuf.v ===== *)
(** * The ring buffer: [include/utilities/src/tuya_ringbuf.c]

    A byte FIFO in an array of [len] bytes with a read and a write position; one
    byte stays free, so that equal positions mean empty.  The model keeps the
    positions as 32-bit integers and the two [memcpy] of a transfer that wraps
    around; the handle is a pointer from the allocator of [Alloc].  The abstract
    specification is a list of bytes with a capacity, and the operations are
    shown to implement it. *)

From S2P Require Import Prelude Alloc.

(** ** Data *)

Inductive RINGBUFF_TYPE_E := OVERFLOW_STOP_TYPE | OVERFLOW_COVERAGE_TYPE.

Record RINGBUFF_T := mkRing {
  rb_type : RINGBUFF_TYPE_E;
  rb_in : Z;
  rb_out : Z;
  rb_len : Z;
  rb_buff : list Z
}.

Definition RINGBUFF_SIZE : Z := 20.

Definition GET_MIN (x y : Z) : Z := if x <? y then x else y.

Definition with_in (v : Z) (r : RINGBUFF_T) : RINGBUFF_T := mkRing (rb_type r) v (rb_out r) (rb_len r) (rb_buff r).
Definition with_out (v : Z) (r : RINGBUFF_T) : RINGBUFF_T := mkRing (rb_type r) (rb_in r) v (rb_len r) (rb_buff r).
Definition with_buff (b : list Z) (r : RINGBUFF_T) : RINGBUFF_T := mkRing (rb_type r) (rb_in r) (rb_out r) (rb_len r) b.

(** [memcpy(&dst[doff], &src[soff], n)]; [None] when an array is too short. *)
Definition blit (dst : list Z) (doff : Z) (src : list Z) (soff n : Z) : option (list Z) :=
  if (0 <=? doff) && (0 <=? soff) && (0 <=? n) &&
     (doff + n <=? Z.of_nat (length dst)) && (soff + n <=? Z.of_nat (length src))
  then Some (take (Z.to_nat doff) dst ++ take (Z.to_nat n) (drop (Z.to_nat soff) src) ++ drop (Z.to_nat (doff + n)) dst)
  else None.

(** ** The operations on the structure *)

Definition __ringbuff_init (r : RINGBUFF_T) (len : Z) : RINGBUFF_T := mkRing (rb_type r) 0 0 len (rb_buff r).

Definition free_size (r : RINGBUFF_T) : Z :=
  let size :=
    if rb_in r =? rb_out r then rb_len r
    else if rb_in r <? rb_out r then u32 (rb_out r - rb_in r)
    else u32 (rb_len r - u32 (rb_in r - rb_out r)) in
  u32 (size - 1).

Definition used_size (r : RINGBUFF_T) : Z :=
  if rb_in r =? rb_out r then 0
  else if rb_out r <? rb_in r then u32 (rb_in r - rb_out r)
  else u32 (rb_len r - u32 (rb_out r - rb_in r)).

(** The transfer of [len] bytes of [pdata] into the buffer. *)
Definition write_bytes (r : RINGBUFF_T) (pdata : list Z) (len : Z) : option (Z * RINGBUFF_T) :=
  let tmp_len := GET_MIN (u32 (rb_len r - rb_in r)) len in
  b ← blit (rb_buff r) (rb_in r) pdata 0 tmp_len;
  let r := with_in (u32 (rb_in r + tmp_len)) (with_buff b r) in
  let len := u32 (len - tmp_len) in
  r ← (if 0 <? len then
         b ← blit (rb_buff r) 0 pdata tmp_len len; Some (with_in len (with_buff b r))
       else Some r);
  let r := if rb_len r <=? rb_in r then with_in 0 r else r in
  Some (u32 (tmp_len + len), r).

(** The transfer of [len] bytes of the buffer, from position [out], into [pdata]. *)
Definition copy_out (r : RINGBUFF_T) (pdata : list Z) (len : Z) : option (list Z) :=
  let tmp_len := GET_MIN (u32 (rb_len r - rb_out r)) len in
  d ← blit pdata 0 (rb_buff r) (rb_out r) tmp_len;
  let len := u32 (len - tmp_len) in
  if 0 <? len then blit d tmp_len (rb_buff r) 0 len else Some d.

(** Moving the read position by [len]. *)
Definition advance_out (r : RINGBUFF_T) (len : Z) : Z * RINGBUFF_T :=
  let tmp_len := GET_MIN (u32 (rb_len r - rb_out r)) len in
  let r := with_out (u32 (rb_out r + tmp_len)) r in
  let len := u32 (len - tmp_len) in
  let r := if 0 <? len then with_out len r else r in
  let r := if rb_len r <=? rb_out r then with_out 0 r else r in
  (u32 (tmp_len + len), r).

(** ** The interface *)

Section Ring.
Context {A : Type} `{!Allocator A}.
Local Abbreviation RB := (M (owned A RINGBUFF_T)).

Definition of_option {S T} (o : option T) : M S T := match o with Some x => ret x | None => fault end.

(** The result, and the handle stored through the last argument. *)
Definition tuya_ring_buff_create (len : Z) (type : RINGBUFF_TYPE_E) (ringbuff : bool) : RB (OPERATE_RET * Z) :=
  if match type with OVERFLOW_COVERAGE_TYPE => true | _ => false end then ret (OPRT_NOT_SUPPORTED, 0)
  else if negb ringbuff || (len =? 0) then ret (OPRT_INVALID_PARM, 0)
  else
    rbuff <- lift_alloc (al_malloc (RINGBUFF_SIZE + len)) ;;
    if rbuff =? 0 then ret (OPRT_MALLOC_FAILED, 0)
    else
      init_obj rbuff (__ringbuff_init (mkRing type 0 0 0 (repeat 0 (Z.to_nat len))) len) ;;;
      ret (OPRT_OK, rbuff).

Definition tuya_ring_buff_free (ringbuff : Z) : RB OPERATE_RET :=
  if ringbuff =? 0 then ret OPRT_INVALID_PARM
  else
    bind (bind (lift_alloc (al_free ringbuff)) (fun _ => drop_obj ringbuff)) (fun _ => ret OPRT_OK).

Definition tuya_ring_buff_reset (ringbuff : Z) : RB OPERATE_RET :=
  if ringbuff =? 0 then ret OPRT_INVALID_PARM
  else
    r <- get_obj ringbuff ;;
    set_obj ringbuff (__ringbuff_init r (rb_len r)) ;;;
    ret OPRT_OK.

Definition tuya_ring_buff_free_size_get (ringbuff : Z) : RB Z :=
  if ringbuff =? 0 then ret 0
  else r <- get_obj ringbuff ;; ret (free_size r).

Definition tuya_ring_buff_used_size_get (ringbuff : Z) : RB Z :=
  if ringbuff =? 0 then ret 0
  else r <- get_obj ringbuff ;; ret (used_size r).

Definition tuya_ring_buff_write (ringbuff : Z) (data : option (list Z)) (len : Z) : RB Z :=
  match data with
  | None => ret 0
  | Some pdata =>
    if (ringbuff =? 0) || (len =? 0) then ret 0
    else
      free_len <- tuya_ring_buff_free_size_get ringbuff ;;
      let len := GET_MIN free_len len in
      if len =? 0 then ret 0
      else
        r <- get_obj ringbuff ;;
        w <- of_option (write_bytes r pdata len) ;;
        set_obj ringbuff (snd w) ;;;
        ret (fst w)
  end.

(** The result, and the content of the caller's array. *)
Definition tuya_ring_buff_read (ringbuff : Z) (data : option (list Z)) (len : Z) : RB (Z * list Z) :=
  match data with
  | None => ret (0, [])
  | Some pdata =>
    if (ringbuff =? 0) || (len =? 0) then ret (0, pdata)
    else
      used_len <- tuya_ring_buff_used_size_get ringbuff ;;
      let len := GET_MIN used_len len in
      if len =? 0 then ret (0, pdata)
      else
        r <- get_obj ringbuff ;;
        d <- of_option (copy_out r pdata len) ;;
        set_obj ringbuff (snd (advance_out r len)) ;;;
        ret (fst (advance_out r len), d)
  end.

Definition tuya_ring_buff_discard (ringbuff len : Z) : RB Z :=
  if (ringbuff =? 0) || (len =? 0) then ret 0
  else
    used_len <- tuya_ring_buff_used_size_get ringbuff ;;
    let len := GET_MIN used_len len in
    if len =? 0 then ret 0
    else
      r <- get_obj ringbuff ;;
      set_obj ringbuff (snd (advance_out r len)) ;;;
      ret (fst (advance_out r len)).

Definition tuya_ring_buff_peek (ringbuff : Z) (data : option (list Z)) (len : Z) : RB (Z * list Z) :=
  match data with
  | None => ret (0, [])
  | Some pdata =>
    if (ringbuff =? 0) || (len =? 0) then ret (0, pdata)
    else
      used_len <- tuya_ring_buff_used_size_get ringbuff ;;
      let len := GET_MIN len used_len in
      if len =? 0 then ret (0, pdata)
      else
        r <- get_obj ringbuff ;;
        d <- of_option (copy_out r pdata len) ;;
        ret (fst (advance_out r len), d)
  end.
End Ring.

(** ** The invariant and the content *)

Record ring_ok (r : RINGBUFF_T) : Prop := {
  rk_len : 0 < rb_len r < 4294967296;
  rk_buff : Z.of_nat (length (rb_buff r)) = rb_len r;
  rk_in : 0 <= rb_in r < rb_len r;
  rk_out : 0 <= rb_out r < rb_len r
}.

(** The number of stored bytes, and the byte at place [k] of the queue. *)
Definition used (r : RINGBUFF_T) : Z := (rb_in r - rb_out r) mod rb_len r.
Definition place (r : RINGBUFF_T) (k : Z) : nat := Z.to_nat ((rb_out r + k) mod rb_len r).
Definition contents (r : RINGBUFF_T) : list Z :=
  (fun k => rb_buff r !!! place r (Z.of_nat k)) <$> seq 0 (Z.to_nat (used r)).

Lemma mod_eq a b x y : 0 <= a - b * y < b -> x = a - b * y -> a mod b = x.
Proof. intros Hr ->. symmetry. apply (Z.mod_unique a b y); lia. Qed.

(** [x mod n] for [x] one turn away from the range. *)
Lemma mod_turn x n : 0 < n -> - n <= x < 2 * n -> x mod n = if x <? 0 then x + n else if x <? n then x else x - n.
Proof.
  intros Hn Hx. destruct (Z.ltb_spec x 0); [apply (mod_eq _ _ _ (-1)); lia|].
  destruct (Z.ltb_spec x n); [apply Z.mod_small; lia|apply (mod_eq _ _ _ 1); lia].
Qed.

Lemma used_range r : ring_ok r -> 0 <= used r < rb_len r.
Proof. intros [? _ _ _]. apply Z.mod_pos_bound. lia. Qed.

Lemma used_size_eq r : ring_ok r -> used_size r = used r.
Proof.
  intros [? _ ? ?]. unfold used_size, used. rewrite mod_turn by lia.
  destruct (Z.eqb_spec (rb_in r) (rb_out r)); [repeat zcase; lia|].
  destruct (Z.ltb_spec (rb_out r) (rb_in r)).
  - rewrite u32_small by lia. repeat zcase; lia.
  - rewrite (u32_small (rb_out r - rb_in r)), u32_small by lia. repeat zcase; lia.
Qed.

Lemma free_size_eq r : ring_ok r -> free_size r = rb_len r - 1 - used r.
Proof.
  intros [? _ ? ?]. unfold free_size, used. rewrite mod_turn by lia.
  destruct (Z.eqb_spec (rb_in r) (rb_out r)); [rewrite u32_small by lia; repeat zcase; lia|].
  destruct (Z.ltb_spec (rb_in r) (rb_out r)).
  - rewrite (u32_small (rb_out r - rb_in r)), u32_small by lia. repeat zcase; lia.
  - rewrite (u32_small (rb_in r - rb_out r)), (u32_small (rb_len r - _)), u32_small by lia. repeat zcase; lia.
Qed.

Lemma length_contents r : Z.of_nat (length (contents r)) = Z.of_nat (Z.to_nat (used r)).
Proof. unfold contents. by rewrite length_fmap, length_seq. Qed.

Lemma lookup_contents r k : (k < Z.to_nat (used r))%nat -> contents r !! k = Some (rb_buff r !!! place r (Z.of_nat k)).
Proof. intros Hk. unfold contents. rewrite list_lookup_fmap, lookup_seq_lt by done. done. Qed.

Lemma GET_MIN_eq x y : GET_MIN x y = Z.min x y.
Proof. unfold GET_MIN. destruct (Z.ltb_spec x y); lia. Qed.

(** Case analysis on the turn of [x mod n]. *)
Ltac turn x n := rewrite (mod_turn x n) by lia; destruct (Z.ltb_spec x 0); destruct (Z.ltb_spec x n).

(** What a [memcpy] leaves at each index. *)
Lemma blit_spec dst doff src soff n :
  0 <= doff -> 0 <= soff -> 0 <= n -> doff + n <= Z.of_nat (length dst) -> soff + n <= Z.of_nat (length src) ->
  exists d, blit dst doff src soff n = Some d /\ length d = length dst /\
    forall x, d !!! x = if decide (doff <= Z.of_nat x < doff + n) then src !!! Z.to_nat (Z.of_nat x - doff + soff) else dst !!! x.
Proof.
  intros Hd Hs Hn Hdl Hsl. unfold blit.
  repeat match goal with |- context [?a <=? ?b] => rewrite (proj2 (Z.leb_le a b)) by lia end. simpl.
  eexists. split; [reflexivity|]. split; [rewrite !length_app, !length_take, !length_drop; lia|].
  intros x. rewrite !list_lookup_total_alt, !lookup_app, !length_take, !length_drop.
  destruct (decide (doff <= Z.of_nat x < doff + n)) as [Hin|Hout].
  - rewrite lookup_take_ge by lia. replace (Z.to_nat doff `min` length dst)%nat with (Z.to_nat doff) by lia.
    destruct (take (Z.to_nat n) (drop (Z.to_nat soff) src) !! (x - Z.to_nat doff)%nat) eqn:E.
    + rewrite lookup_take in E. case_decide; [|done]. rewrite lookup_drop in E. rewrite <-E. do 2 f_equal. lia.
    + rewrite lookup_take_lt, lookup_drop in E by lia. apply lookup_ge_None in E. lia.
  - destruct (decide (Z.of_nat x < doff)) as [Hlt|Hge].
    + rewrite lookup_take_lt by lia. destruct (dst !! x) eqn:E; [done|]. apply lookup_ge_None in E. lia.
    + rewrite (lookup_take_ge dst) by lia. replace (Z.to_nat doff `min` length dst)%nat with (Z.to_nat doff) by lia.
      rewrite lookup_take_ge by lia. rewrite lookup_drop. do 2 f_equal. lia.
Qed.

Lemma write_bytes_spec r pdata len :
  ring_ok r -> 0 < len < rb_len r -> len <= Z.of_nat (length pdata) ->
  exists r', write_bytes r pdata len = Some (len, r') /\ ring_ok r' /\
    rb_len r' = rb_len r /\ rb_out r' = rb_out r /\ rb_type r' = rb_type r /\ rb_in r' = (rb_in r + len) mod rb_len r /\
    forall x, 0 <= x < rb_len r ->
      rb_buff r' !!! Z.to_nat x =
        if (x - rb_in r) mod rb_len r <? len then pdata !!! Z.to_nat ((x - rb_in r) mod rb_len r) else rb_buff r !!! Z.to_nat x.
Proof.
  intros [Hl Hb Hi Ho] Hlen Hd. unfold write_bytes. rewrite GET_MIN_eq, (u32_small (rb_len r - rb_in r)) by lia.
  set (t := Z.min (rb_len r - rb_in r) len).
  destruct (blit_spec (rb_buff r) (rb_in r) pdata 0 t) as (b1 & E1 & L1 & X1); [lia..|]. rewrite E1. cbn [mbind option_bind].
  rewrite (u32_small (rb_in r + t)), (u32_small (len - t)) by lia. cbn [rb_buff rb_in rb_out rb_len rb_type with_in with_buff].
  rewrite (mod_turn (rb_in r + len)) by lia. destruct (Z.ltb_spec 0 (len - t)) as [Hwrap|Hno].
  - destruct (blit_spec b1 0 pdata t (len - t)) as (b2 & E2 & L2 & X2); [lia..|]. rewrite E2. cbn -[Z.add Z.sub].
    rewrite u32_small by lia. destruct (Z.leb_spec (rb_len r) (len - t)) as [?|_]; [lia|].
    eexists. split; [f_equal; f_equal; lia|]. cbn [rb_buff rb_in rb_out rb_len rb_type with_in with_buff].
    split_and!; try done; [split; cbn; lia|repeat zcase; lia|].
    intros x Hx. rewrite X2, X1. turn (x - rb_in r) (rb_len r); try lia; repeat (case_decide || zcase); try lia; do 2 f_equal; lia.
  - cbn -[Z.add Z.sub]. rewrite u32_small by lia. assert (t = len) as Et by lia.
    eexists. split; [f_equal; f_equal; lia|]. split_and!; [|destruct (_ <=? _); done..| |].
    + destruct (Z.leb_spec (rb_len r) (rb_in r + t)); split; cbn; lia.
    + repeat zcase; cbn; lia.
    + intros x Hx. replace (rb_buff _) with b1 by (by destruct (_ <=? _)). rewrite X1.
      turn (x - rb_in r) (rb_len r); try lia; repeat (case_decide || zcase); try lia; do 2 f_equal; lia.
Qed.

Lemma used_write r len : ring_ok r -> 0 <= len -> used r + len < rb_len r ->
  ((rb_in r + len) mod rb_len r - rb_out r) mod rb_len r = used r + len.
Proof.
  intros Hr ? Hu. pose proof (used_range r Hr). destruct Hr as [? _ ? ?]. unfold used in *.
  rewrite (mod_turn (rb_in r - rb_out r)) in * by lia.
  turn (rb_in r + len) (rb_len r); try lia.
  - turn (rb_in r + len - rb_out r) (rb_len r); repeat zcase; lia.
  - turn (rb_in r + len - rb_len r - rb_out r) (rb_len r); repeat zcase; lia.
Qed.

(** The distance from the write position [i] of the place of the [k]-th byte,
    for a byte that is stored and for one that is being written. *)
Lemma place_old n i o k len :
  0 <= i < n -> 0 <= o < n -> 0 <= k < (i - o) mod n -> (i - o) mod n + len < n ->
  len <= ((o + k) mod n - i) mod n.
Proof.
  intros Hi Ho. turn (i - o) n; try lia; intros Hk Hr; turn (o + k) n; try lia;
    match goal with |- _ <= ?y mod n => turn y n end; lia.
Qed.

Lemma place_new n i o k len :
  0 <= i < n -> 0 <= o < n -> (i - o) mod n <= k < (i - o) mod n + len -> (i - o) mod n + len < n ->
  ((o + k) mod n - i) mod n = k - (i - o) mod n.
Proof.
  intros Hi Ho. turn (i - o) n; try lia; intros Hk Hr; turn (o + k) n; try lia;
    match goal with |- ?y mod n = _ => turn y n end; lia.
Qed.

(** Writing appends to the content. *)
Lemma write_contents r pdata len r' :
  ring_ok r -> 0 < len -> used r + len < rb_len r -> len <= Z.of_nat (length pdata) ->
  write_bytes r pdata len = Some (len, r') -> contents r' = contents r ++ take (Z.to_nat len) pdata.
Proof.
  intros Hr Hlen Hroom Hd Hw. pose proof (used_range r Hr) as Hur. pose proof Hr as [Hl Hb Hi Ho].
  destruct (write_bytes_spec r pdata len Hr) as (r1 & E & Hr1 & El & Eo & _ & Ein & Hx); [lia..|].
  rewrite Hw in E. injection E as <-.
  assert (used r' = used r + len) as Eu by (unfold used at 1; rewrite El, Eo, Ein; apply used_write; done || lia).
  pose proof (length_contents r) as Lc. apply list_eq. intros k.
  destruct (decide (Z.of_nat k < used r + len)) as [Hk|Hk].
  - rewrite lookup_contents by lia. unfold place. rewrite El, Eo.
    pose proof (Z.mod_pos_bound (rb_out r + Z.of_nat k) (rb_len r)) as Hp. rewrite Hx by lia.
    rewrite lookup_app. destruct (decide (Z.of_nat k < used r)) as [Hold|Hnew].
    + rewrite lookup_contents by lia. unfold place.
      pose proof (place_old (rb_len r) (rb_in r) (rb_out r) (Z.of_nat k) len) as Hold'. fold (used r) in Hold'.
      destruct (Z.ltb_spec (((rb_out r + Z.of_nat k) mod rb_len r - rb_in r) mod rb_len r) len); [lia|done].
    + rewrite (proj2 (lookup_ge_None (contents r) k)) by lia.
      rewrite lookup_take_lt by lia. replace (k - length (contents r))%nat with (k - Z.to_nat (used r))%nat by lia.
      destruct (lookup_lt_is_Some_2 pdata (k - Z.to_nat (used r))) as [v Hv]; [lia|]. rewrite Hv.
      pose proof (place_new (rb_len r) (rb_in r) (rb_out r) (Z.of_nat k) len) as Hnew'. fold (used r) in Hnew'.
      rewrite Hnew' by lia.
      destruct (Z.ltb_spec (Z.of_nat k - used r) len); [|lia].
      f_equal. apply list_lookup_total_correct. rewrite <-Hv. f_equal. lia.
  - rewrite (proj2 (lookup_ge_None (contents r') k)) by (pose proof (length_contents r'); lia).
    symmetry. apply lookup_ge_None. rewrite length_app, length_take. lia.
Qed.

(** Moving the read position drops the head of the content. *)
Lemma advance_out_spec r len :
  ring_ok r -> 0 < len <= used r ->
  let r' := snd (advance_out r len) in
  fst (advance_out r len) = len /\ ring_ok r' /\ rb_len r' = rb_len r /\ rb_type r' = rb_type r /\
  contents r' = drop (Z.to_nat len) (contents r).
Proof.
  intros Hr Hlen r'. pose proof (used_range r Hr) as Hur. pose proof Hr as [Hl Hb Hi Ho].
  assert (r' = with_out ((rb_out r + len) mod rb_len r) r /\ fst (advance_out r len) = len) as [E ->].
  { unfold r', advance_out. rewrite GET_MIN_eq, (u32_small (rb_len r - rb_out r)) by lia.
    set (t := Z.min (rb_len r - rb_out r) len). cbn zeta. rewrite (u32_small (rb_out r + t)), (u32_small (len - t)) by lia.
    rewrite u32_small by lia. cbn [fst snd]. split; [|lia].
    turn (rb_out r + len) (rb_len r); try lia; destruct (Z.ltb_spec 0 (len - t)); try lia; cbn;
      zcase; unfold with_out; cbn; f_equal; lia. }
  rewrite E. pose proof (Z.mod_pos_bound (rb_out r + len) (rb_len r)). split; [done|]. split; [split; cbn; lia|].
  split; [done|]. split; [done|].
  assert (used (with_out ((rb_out r + len) mod rb_len r) r) = used r - len) as Eu.
  { assert (0 < len < rb_len r) by lia. unfold used in *. cbn. revert Hlen. turn (rb_in r - rb_out r) (rb_len r); try lia; turn (rb_out r + len) (rb_len r); try lia; intros ?;
      match goal with |- ?y mod rb_len r = _ => turn y (rb_len r) end; lia. }
  apply list_eq. intros k. rewrite lookup_drop. destruct (decide (Z.of_nat k < used r - len)) as [Hk|Hk].
  - rewrite !lookup_contents by lia. unfold place. cbn. do 3 f_equal. rewrite Nat2Z.inj_add, Z2Nat.id by lia.
    rewrite Zplus_mod_idemp_l. f_equal. lia.
  - rewrite !(proj2 (lookup_ge_None _ _)); [done|..]; pose proof (length_contents r); pose proof (length_contents (with_out ((rb_out r + len) mod rb_len r) r)); lia.
Qed.

(** Copying out gives the head of the content, and leaves the rest of the caller's
    array. *)
Lemma copy_out_spec r pdata len :
  ring_ok r -> 0 < len <= used r -> len <= Z.of_nat (length pdata) ->
  copy_out r pdata len = Some (take (Z.to_nat len) (contents r) ++ drop (Z.to_nat len) pdata).
Proof.
  intros Hr Hlen Hd. pose proof (used_range r Hr) as Hur. pose proof Hr as [Hl Hb Hi Ho].
  unfold copy_out. rewrite GET_MIN_eq, (u32_small (rb_len r - rb_out r)) by lia.
  set (t := Z.min (rb_len r - rb_out r) len). cbn zeta. rewrite (u32_small (len - t)) by lia.
  destruct (blit_spec pdata 0 (rb_buff r) (rb_out r) t) as (d1 & E1 & L1 & X1); [lia..|]. rewrite E1. cbn [mbind option_bind].
  assert (exists d, (if 0 <? len - t then blit d1 t (rb_buff r) 0 (len - t) else Some d1) = Some d /\ length d = length pdata /\
    forall x, d !!! x = if decide (Z.of_nat x < len) then rb_buff r !!! place r (Z.of_nat x) else pdata !!! x) as (d & -> & Ld & Xd).
  { unfold place. destruct (Z.ltb_spec 0 (len - t)) as [Hw|Hno].
    - destruct (blit_spec d1 t (rb_buff r) 0 (len - t)) as (d2 & E2 & L2 & X2); [lia..|]. exists d2. split; [done|]. split; [congruence|].
      intros x. rewrite X2, X1. repeat case_decide; try lia; try done; turn (rb_out r + Z.of_nat x) (rb_len r); try lia; f_equal; lia.
    - exists d1. split; [done|]. split; [done|]. intros x. rewrite X1.
      repeat case_decide; try lia; try done. turn (rb_out r + Z.of_nat x) (rb_len r); try lia; f_equal; lia. }
  f_equal. apply list_eq_total.
  { rewrite length_app, length_take, length_drop. pose proof (length_contents r). lia. }
  intros x Hx. rewrite Xd. pose proof (length_contents r) as Lc. case_decide.
  - rewrite lookup_total_app_l by (rewrite length_take; lia). rewrite lookup_total_take_lt by lia.
    symmetry. apply list_lookup_total_correct. apply lookup_contents. lia.
  - rewrite lookup_total_app_r by (rewrite length_take; lia). rewrite lookup_total_drop, length_take. f_equal. lia.
Qed.
