(* ===== verification/RingBufProps.v ===== *)
(** * The ring buffer implements a bounded FIFO

    The abstract specification: a queue of bytes that accepts what fits and gives
    back the oldest bytes first.  Sequences of calls on any number of ring buffers
    return what the specification returns. *)

From S2P Require Import Prelude CMem MemHeap MemHeapInv MemHeapFacts MemHeapProps MemHeapStore Alloc RingBuf.

(** ** Specification *)

Record fifo := Fifo { q_cap : Z; q_bytes : list Z }.

Definition q_used (q : fifo) : Z := Z.of_nat (length (q_bytes q)).

Inductive rop :=
| RWrite (data : list Z) (len : Z)
| RRead (dst : list Z) (len : Z)
| RPeek (dst : list Z) (len : Z)
| RDiscard (len : Z)
| RReset
| RUsed
| RFree.

(** The result of a call, the caller's array after it, and the queue. *)
Definition spec_rop (o : rop) (q : fifo) : Z * list Z * fifo :=
  match o with
  | RWrite data len =>
    let n := Z.min len (q_cap q - q_used q) in
    (n, [], Fifo (q_cap q) (q_bytes q ++ take (Z.to_nat n) data))
  | RRead dst len =>
    let n := Z.min len (q_used q) in
    (n, take (Z.to_nat n) (q_bytes q) ++ drop (Z.to_nat n) dst, Fifo (q_cap q) (drop (Z.to_nat n) (q_bytes q)))
  | RPeek dst len =>
    let n := Z.min len (q_used q) in
    (n, take (Z.to_nat n) (q_bytes q) ++ drop (Z.to_nat n) dst, q)
  | RDiscard len =>
    let n := Z.min len (q_used q) in
    (n, [], Fifo (q_cap q) (drop (Z.to_nat n) (q_bytes q)))
  | RReset => (0, [], Fifo (q_cap q) [])
  | RUsed => (q_used q, [], q)
  | RFree => (q_cap q - q_used q, [], q)
  end.

(** Lengths are [uint32_t], and the caller's array holds them. *)
Definition rop_ok (o : rop) : Prop :=
  match o with
  | RWrite d len | RRead d len | RPeek d len => 0 <= len < 4294967296 /\ len <= Z.of_nat (length d)
  | RDiscard len => 0 <= len < 4294967296
  | _ => True
  end.

Section Refines.
Context {A : Type} `{!Allocator A}.
Local Abbreviation RB := (M (owned A RINGBUFF_T)).

(** ** Calls on the implementation *)

Definition exec_rop (p : Z) (o : rop) : RB (Z * list Z) :=
  match o with
  | RWrite data len => n <- tuya_ring_buff_write p (Some data) len ;; ret (n, [])
  | RRead dst len => tuya_ring_buff_read p (Some dst) len
  | RPeek dst len => tuya_ring_buff_peek p (Some dst) len
  | RDiscard len => n <- tuya_ring_buff_discard p len ;; ret (n, [])
  | RReset => _ <- tuya_ring_buff_reset p ;; ret (0, [])
  | RUsed => n <- tuya_ring_buff_used_size_get p ;; ret (n, [])
  | RFree => n <- tuya_ring_buff_free_size_get p ;; ret (n, [])
  end.

Fixpoint exec_rops (ops : list (Z * rop)) : RB (list (Z * list Z)) :=
  match ops with
  | [] => ret []
  | (p, o) :: ops' => r <- exec_rop p o ;; rs <- exec_rops ops' ;; ret (r :: rs)
  end.

Fixpoint spec_rops (ops : list (Z * rop)) (Q : gmap Z fifo) : list (Z * list Z) * gmap Z fifo :=
  match ops with
  | [] => ([], Q)
  | (p, o) :: ops' =>
    match Q !! p with
    | None => ([], Q)
    | Some q =>
      let '(n, d, q') := spec_rop o q in
      let '(rs, Q') := spec_rops ops' (<[p := q']> Q) in
      ((n, d) :: rs, Q')
    end
  end.

(** ** The representation *)

Definition ring_rep (r : RINGBUFF_T) (q : fifo) : Prop :=
  ring_ok r /\ q_cap q = rb_len r - 1 /\ q_bytes q = contents r.

Definition ring_bytes (r : RINGBUFF_T) : Z := RINGBUFF_SIZE + rb_len r.

Record rings_rep (s : owned A RINGBUFF_T) (Q : gmap Z fifo) : Prop := {
  rr_owned : owned_ok ring_bytes s;
  rr_null : o_objs s !! 0 = None;
  rr_rings : map_Forall2 (fun _ => ring_rep) (o_objs s) Q
}.

Lemma ring_rep_used r q : ring_rep r q -> q_used q = used r.
Proof. intros (Hr & _ & E). unfold q_used. rewrite E, length_contents. pose proof (used_range r Hr). lia. Qed.

Lemma ring_rep_init r q : ring_rep r q -> ring_rep (__ringbuff_init r (rb_len r)) (Fifo (q_cap q) []).
Proof. intros ([? ? ? ?] & E & _). split; [split; cbn; lia|]. split; [done|]. unfold contents, used. cbn. by rewrite Z.mod_0_l by lia. Qed.

Lemma ring_rep_write r q data len :
  ring_rep r q -> 0 < len <= q_cap q - q_used q -> len <= Z.of_nat (length data) ->
  exists r', write_bytes r data len = Some (len, r') /\ rb_len r' = rb_len r /\
    ring_rep r' (Fifo (q_cap q) (q_bytes q ++ take (Z.to_nat len) data)).
Proof.
  intros Hrep Hlen Hd. pose proof (ring_rep_used _ _ Hrep) as Eu. destruct Hrep as (Hr & Ec & Eb).
  pose proof (used_range r Hr). destruct (write_bytes_spec r data len) as (r' & Hw & Hr' & El & _); [done|lia..|].
  exists r'. split; [done|]. split; [done|]. split; [done|]. cbn [q_cap q_bytes]. split; [lia|].
  rewrite Eb. symmetry. eapply write_contents; try done; lia.
Qed.

Lemma ring_rep_advance r q len :
  ring_rep r q -> 0 < len <= q_used q ->
  fst (advance_out r len) = len /\ rb_len (snd (advance_out r len)) = rb_len r /\
  ring_rep (snd (advance_out r len)) (Fifo (q_cap q) (drop (Z.to_nat len) (q_bytes q))).
Proof.
  intros Hrep Hlen. rewrite (ring_rep_used _ _ Hrep) in Hlen. destruct Hrep as (Hr & Ec & Eb).
  destruct (advance_out_spec r len Hr Hlen) as (E1 & Hr' & El & _ & Econt). split; [done|]. split; [done|].
  split; [done|]. cbn [q_cap q_bytes]. split; [lia|]. by rewrite Eb, Econt.
Qed.

Lemma ring_rep_copy r q dst len :
  ring_rep r q -> 0 < len <= q_used q -> len <= Z.of_nat (length dst) ->
  copy_out r dst len = Some (take (Z.to_nat len) (q_bytes q) ++ drop (Z.to_nat len) dst).
Proof.
  intros Hrep Hlen Hd. rewrite (ring_rep_used _ _ Hrep) in Hlen. destruct Hrep as (Hr & Ec & ->). by apply copy_out_spec.
Qed.

Lemma rings_rep_update s Q p r r' q' :
  rings_rep s Q -> o_objs s !! p = Some r -> rb_len r' = rb_len r -> ring_rep r' q' ->
  rings_rep (Own (o_alloc s) (<[p := r']> (o_objs s))) (<[p := q']> Q).
Proof.
  intros [Ho H0 Hf] Hp El Hr'. split.
  - eapply owned_ok_update; [done|done|]. unfold ring_bytes. lia.
  - cbn. rewrite lookup_insert_ne; [done|]. intros ->. congruence.
  - by apply map_Forall2_insert_2.
Qed.

Lemma rings_rep_same s Q p q : rings_rep s Q -> Q !! p = Some q -> rings_rep s (<[p := q]> Q).
Proof. intros Hr Hp. by rewrite insert_id. Qed.

Lemma ring_write_spec s Q p r q data len (F : Z * list Z -> owned A RINGBUFF_T -> Prop) :
  rings_rep s Q -> Q !! p = Some q -> o_objs s !! p = Some r -> ring_rep r q -> p <> 0 -> rop_ok (RWrite data len) ->
  (forall s', rings_rep s' (<[p := snd (spec_rop (RWrite data len) q)]> Q) -> F (fst (spec_rop (RWrite data len) q)) s') ->
  wp (exec_rop p (RWrite data len)) F s.
Proof.
  intros Hrep HQ Hp Hr Hp0 [Hl Hd] HF. pose proof (ring_rep_used _ _ Hr) as Eu. pose proof Hr as (Hok & Ec & Eb).
  pose proof (used_range r Hok). pose proof (rk_len _ Hok).
  assert (forall n, n = Z.min len (q_cap q - q_used q) -> n = 0 -> F (0, []) s) as Hnone.
  { intros n En E0. replace (0, []) with (fst (spec_rop (RWrite data len) q)) by (cbn; f_equal; lia). apply HF. cbn [snd spec_rop].
    replace (Z.min len (q_cap q - q_used q)) with 0 by lia. cbn. rewrite app_nil_r. destruct q. by apply rings_rep_same. }
  cbn [exec_rop]. apply wp_bind. unfold tuya_ring_buff_write. rewrite (proj2 (Z.eqb_neq p 0)) by done. simpl orb.
  destruct (Z.eqb_spec len 0) as [->|Hl0]; [apply wp_ret, wp_ret; apply (Hnone 0); [lia|done]|].
  apply wp_bind. unfold tuya_ring_buff_free_size_get. rewrite (proj2 (Z.eqb_neq p 0)) by done.
  apply wp_bind. eapply wp_get_obj; [done|]. apply wp_ret. rewrite (free_size_eq _ Hok), GET_MIN_eq. cbn zeta.
  set (n := Z.min (rb_len r - 1 - used r) len) in *. assert (n = Z.min len (q_cap q - q_used q)) as En by lia.
  destruct (Z.eqb_spec n 0) as [E0|E0]; [apply wp_ret, wp_ret; by apply (Hnone n)|].
  apply wp_bind. eapply wp_get_obj; [done|]. apply wp_bind.
  destruct (ring_rep_write r q data n) as (r' & Hw & El & Hr'); [done|lia..|]. rewrite Hw. apply wp_ret. cbn [fst snd].
  apply wp_bind. eapply wp_set_obj; [done|]. apply wp_ret, wp_ret. replace (n, []) with (fst (spec_rop (RWrite data len) q)) by (cbn; f_equal; lia).
  apply HF. cbn [snd spec_rop]. rewrite <-En. by eapply rings_rep_update.
Qed.

(** The common start of [read], [peek] and [discard]: nothing to transfer, or
    [n > 0] bytes. *)
Lemma wp_used_size s Q p r q (F : Z -> owned A RINGBUFF_T -> Prop) :
  rings_rep s Q -> o_objs s !! p = Some r -> ring_rep r q -> p <> 0 -> F (q_used q) s ->
  wp (tuya_ring_buff_used_size_get p) F s.
Proof.
  intros Hrep Hp Hr Hp0 HF. unfold tuya_ring_buff_used_size_get. rewrite (proj2 (Z.eqb_neq p 0)) by done.
  apply wp_bind. eapply wp_get_obj; [done|]. apply wp_ret. rewrite used_size_eq by apply Hr. by rewrite <-(ring_rep_used _ _ Hr).
Qed.

Lemma ring_consume_spec s Q p r q (dst : option (list Z)) len (F : Z * list Z -> owned A RINGBUFF_T -> Prop) :
  rings_rep s Q -> Q !! p = Some q -> o_objs s !! p = Some r -> ring_rep r q -> p <> 0 -> 0 <= len < 4294967296 ->
  (forall d, dst = Some d -> len <= Z.of_nat (length d)) ->
  let n := Z.min len (q_used q) in
  let d' := match dst with Some d => take (Z.to_nat n) (q_bytes q) ++ drop (Z.to_nat n) d | None => [] end in
  (forall s', rings_rep s' (<[p := Fifo (q_cap q) (drop (Z.to_nat n) (q_bytes q))]> Q) -> F (n, d') s') ->
  wp (match dst with
      | Some d => tuya_ring_buff_read p (Some d) len
      | None => x <- tuya_ring_buff_discard p len ;; ret (x, [])
      end) F s.
Proof.
  intros Hrep HQ Hp Hr Hp0 Hl Hd n d' HF. pose proof (ring_rep_used _ _ Hr) as Eu. pose proof Hr as (Hok & Ec & Eb).
  pose proof (used_range r Hok). unfold tuya_ring_buff_read, tuya_ring_buff_discard. rewrite (proj2 (Z.eqb_neq p 0)) by done.
  assert (n = 0 -> F (0, default [] dst) s) as Hnone.
  { intros E0. replace (0, default [] dst) with (n, d'); [|unfold d'; rewrite E0; by destruct dst].
    apply HF. rewrite E0. cbn. destruct q. by apply rings_rep_same. }
  assert (GET_MIN (q_used q) len = n) as En by (rewrite GET_MIN_eq; lia).
  destruct dst as [d|]; simpl orb; (destruct (Z.eqb_spec len 0) as [->|Hl0]; [repeat first [apply wp_bind|apply wp_ret]; apply Hnone; lia|]).
  - apply wp_bind. eapply wp_used_size; [done..|]. rewrite En. destruct (Z.eqb_spec n 0) as [E0|E0]; [apply wp_ret; by apply Hnone|].
    destruct (ring_rep_advance r q n Hr ltac:(lia)) as (E1 & El & Hr').
    apply wp_bind. eapply wp_get_obj; [done|]. apply wp_bind.
    rewrite (ring_rep_copy r q d n Hr); [|lia|specialize (Hd d eq_refl); lia]. apply wp_ret.
    apply wp_bind. eapply wp_set_obj; [done|]. apply wp_ret. rewrite E1. apply HF. by eapply rings_rep_update.
  - apply wp_bind, wp_bind. eapply wp_used_size; [done..|]. rewrite En. destruct (Z.eqb_spec n 0) as [E0|E0]; [apply wp_ret, wp_ret; by apply Hnone|].
    destruct (ring_rep_advance r q n Hr ltac:(lia)) as (E1 & El & Hr').
    apply wp_bind. eapply wp_get_obj; [done|]. apply wp_bind. eapply wp_set_obj; [done|]. apply wp_ret, wp_ret. rewrite E1.
    apply HF. by eapply rings_rep_update.
Qed.

Lemma ring_peek_spec s Q p r q d len (F : Z * list Z -> owned A RINGBUFF_T -> Prop) :
  rings_rep s Q -> o_objs s !! p = Some r -> ring_rep r q -> p <> 0 -> rop_ok (RPeek d len) ->
  F (fst (spec_rop (RPeek d len) q)) s -> wp (tuya_ring_buff_peek p (Some d) len) F s.
Proof.
  intros Hrep Hp Hr Hp0 [Hl Hd] HF. unfold tuya_ring_buff_peek. rewrite (proj2 (Z.eqb_neq p 0)) by done. simpl orb. cbn [spec_rop fst] in HF.
  assert (Z.min len (q_used q) = 0 -> F (0, d) s) as Hnone by (intros E; by rewrite E in HF).
  destruct (Z.eqb_spec len 0) as [->|Hl0]; [apply wp_ret, Hnone; unfold q_used; lia|].
  apply wp_bind. eapply wp_used_size; [done..|]. rewrite GET_MIN_eq. cbn zeta.
  destruct (Z.eqb_spec (Z.min len (q_used q)) 0) as [E0|E0]; [apply wp_ret; by apply Hnone|].
  assert (0 <= q_used q) by (unfold q_used; lia).
  apply wp_bind. eapply wp_get_obj; [done|]. apply wp_bind. rewrite (ring_rep_copy r q d _ Hr) by lia. apply wp_ret, wp_ret.
  destruct (ring_rep_advance r q (Z.min len (q_used q)) Hr ltac:(lia)) as (-> & _). done.
Qed.

(** One call. *)
Lemma exec_rop_ok s Q p q o :
  rings_rep s Q -> Q !! p = Some q -> rop_ok o ->
  wp (exec_rop p o) (fun r s' => r = fst (spec_rop o q) /\ rings_rep s' (<[p := snd (spec_rop o q)]> Q)) s.
Proof.
  intros Hrep HQ Ho. assert (exists r, o_objs s !! p = Some r /\ ring_rep r q) as (r & Hp & Hr).
  { pose proof (rr_rings _ _ Hrep p) as Hf. rewrite HQ in Hf. inversion Hf; subst. eauto. }
  assert (p <> 0) as Hp0 by (intros ->; pose proof (rr_null _ _ Hrep); congruence).
  destruct o as [data len|dst len|dst len|len| | |]; cbn [rop_ok] in Ho.
  - by eapply ring_write_spec.
  - eapply (ring_consume_spec s Q p r q (Some dst)); try done; [by destruct Ho|]. by intros d [= <-]; destruct Ho.
  - cbn [exec_rop]. eapply ring_peek_spec; try done. split; [done|]. by apply rings_rep_same.
  - by eapply (ring_consume_spec s Q p r q None).
  - cbn [exec_rop]. apply wp_bind. unfold tuya_ring_buff_reset. rewrite (proj2 (Z.eqb_neq p 0)) by done.
    apply wp_bind. eapply wp_get_obj; [done|]. apply wp_bind. eapply wp_set_obj; [done|]. apply wp_ret, wp_ret.
    split; [done|]. eapply rings_rep_update; [done|done|done|by apply ring_rep_init].
  - cbn [exec_rop]. apply wp_bind. eapply wp_used_size; [done..|]. apply wp_ret. split; [done|]. by apply rings_rep_same.
  - cbn [exec_rop]. apply wp_bind. unfold tuya_ring_buff_free_size_get. rewrite (proj2 (Z.eqb_neq p 0)) by done.
    apply wp_bind. eapply wp_get_obj; [done|]. apply wp_ret, wp_ret. rewrite free_size_eq by apply Hr.
    split; [|by apply rings_rep_same]. cbn. rewrite (ring_rep_used _ _ Hr). destruct Hr as (_ & -> & _). done.
Qed.

(** C4: any sequence of calls on any number of ring buffers, with arrays that hold
    the lengths they are used with, returns exactly what the bounded FIFO queues
    of the specification return, and leaves ring buffers that represent the final
    queues: bytes come out in the order they went in, none is lost, invented or
    overwritten, and what does not fit is refused. *)
Theorem ring_buff_refines_fifo ops s Q :
  rings_rep s Q -> Forall (fun po => is_Some (Q !! po.1) /\ rop_ok po.2) ops ->
  wp (exec_rops ops) (fun rs s' => rs = fst (spec_rops ops Q) /\ rings_rep s' (snd (spec_rops ops Q))) s.
Proof.
  revert s Q. induction ops as [|[p o] ops IH]; intros s Q Hrep Hops; [by apply wp_ret|].
  apply Forall_cons in Hops as [[[q HQ] Ho] Hops]. cbn [exec_rops spec_rops fst snd] in *. rewrite HQ.
  apply wp_bind. eapply wp_mono; [by eapply exec_rop_ok|]. intros r s1 [-> Hrep1].
  destruct (spec_rop o q) as [[n d] q'] eqn:Eo. cbn [fst snd] in *. apply wp_bind. eapply wp_mono.
  { apply (IH s1 (<[p := q']> Q)); [done|]. eapply Forall_impl; [done|]. intros [p' o'] [Hq' ?]. split; [|done].
    rewrite lookup_insert. case_decide; [by eexists|done]. }
  intros rs s2 [-> Hrep2]. apply wp_ret. destruct (spec_rops ops (<[p := q']> Q)). done.
Qed.

Lemma ring_create_spec len s Q :
  rings_rep s Q -> 0 < len -> RINGBUFF_SIZE + len < 4294967296 ->
  wp (tuya_ring_buff_create len OVERFLOW_STOP_TYPE true) (fun r s' =>
    (r = (OPRT_MALLOC_FAILED, 0) /\ rings_rep s' Q) \/
    (exists p, r = (OPRT_OK, p) /\ p <> 0 /\ Q !! p = None /\ rings_rep s' (<[p := Fifo (len - 1) []]> Q))) s.
Proof.
  intros [Ho H0 Hf] Hl Hsz. unfold tuya_ring_buff_create. cbn [negb orb].
  destruct (Z.eqb_spec len 0) as [?|_]; [lia|]. apply wp_bind. unfold RINGBUFF_SIZE in *.
  eapply (malloc_obj_spec ring_bytes); [done|lia| |].
  - intros a Hoa. apply wp_ret. left. split; [done|]. by split.
  - intros p a Hp Hfresh Hoa. rewrite (proj2 (Z.eqb_neq p 0)) by done.
    apply wp_bind. set (r := __ringbuff_init _ _). unfold wp at 1, init_obj. apply wp_ret. right. exists p. cbn [o_alloc o_objs].
    split; [done|]. split; [done|]. split; [pose proof (Hf p) as Hfp; rewrite Hfresh in Hfp; by inversion Hfp|]. split.
    + apply Hoa. unfold ring_bytes, RINGBUFF_SIZE, r. cbn. lia.
    + cbn. by rewrite lookup_insert_ne.
    + apply map_Forall2_insert_2; [|done]. split; [split; cbn; rewrite ?repeat_length; lia|]. split; [done|].
      unfold contents, used. cbn. by rewrite Z.mod_0_l by lia.
Qed.

Lemma ring_free_spec s Q p q :
  rings_rep s Q -> Q !! p = Some q -> wp (tuya_ring_buff_free p) (fun r s' => r = OPRT_OK /\ rings_rep s' (delete p Q)) s.
Proof.
  intros [Ho H0 Hf] HQ. pose proof (Hf p) as Hfp. rewrite HQ in Hfp. inversion Hfp as [r ? Hr Er Eq|]; subst. symmetry in Er.
  unfold tuya_ring_buff_free. rewrite (proj2 (Z.eqb_neq p 0)) by (intros ->; congruence). apply wp_bind.
  eapply wp_mono; [by eapply (free_obj_spec ring_bytes)|]. intros [] s2 [Hos2 Eobj]. apply wp_ret. split; [done|].
  split; [done|rewrite Eobj; by apply lookup_delete_None; right|rewrite Eobj; by apply map_Forall2_delete].
Qed.

(** [tuya_ring_buff_create] of a length that leaves room for the header
    returns a new handle to an empty FIFO of capacity [len - 1], or reports that
    the allocation failed; [tuya_ring_buff_free] of a handle succeeds; both leave
    the other ring buffers as they were. *)
Theorem ring_buff_create_free len s Q :
  rings_rep s Q -> 0 < len -> RINGBUFF_SIZE + len < 4294967296 ->
  wp (tuya_ring_buff_create len OVERFLOW_STOP_TYPE true) (fun r s' =>
    (r = (OPRT_MALLOC_FAILED, 0) /\ rings_rep s' Q) \/
    (exists p, r = (OPRT_OK, p) /\ p <> 0 /\ Q !! p = None /\ rings_rep s' (<[p := Fifo (len - 1) []]> Q))) s /\
  (forall p q, Q !! p = Some q -> wp (tuya_ring_buff_free p) (fun r s' => r = OPRT_OK /\ rings_rep s' (delete p Q)) s).
Proof. intros Hrep Hl Hsz. split; [by apply ring_create_spec|]. intros p q Hq. by eapply ring_free_spec. Qed.
End Refines.

(** ** On the memory heap *)

#[local] Instance demo_allocator : Allocator hstate := heap_allocator 0.

#[local] Opaque demo2.

Definition ring_demo0 : owned hstate RINGBUFF_T := Own demo2 ∅.

Lemma ring_demo0_rep : rings_rep ring_demo0 ∅.
Proof.
  split; [|done|apply map_Forall2_empty].
  exists ∅. split; [|intros p o Hp; cbn in Hp; by rewrite lookup_empty in Hp].
  exists (heap_at demo2), (layout demo2), ∅. split; [apply demo2_represents|done].
Qed.

Lemma ring_buff_create_free_witness :
  wp (tuya_ring_buff_create 16 OVERFLOW_STOP_TYPE true) (fun r s' =>
    (r = (OPRT_MALLOC_FAILED, 0) /\ rings_rep s' ∅) \/
    (exists p, r = (OPRT_OK, p) /\ p <> 0 /\ (∅ : gmap Z fifo) !! p = None /\ rings_rep s' (<[p := Fifo (16 - 1) []]> ∅))) ring_demo0.
Proof. refine (proj1 (ring_buff_create_free 16 ring_demo0 ∅ ring_demo0_rep _ _)); unfold RINGBUFF_SIZE; lia. Defined.

(** A ring buffer of 16 bytes on that heap. *)
Definition ring_created : outcome (owned hstate RINGBUFF_T) (OPERATE_RET * Z) :=
  tuya_ring_buff_create 16 OVERFLOW_STOP_TYPE true ring_demo0.
Definition ring_demo1 : owned hstate RINGBUFF_T := match ring_created with Ret _ s => s | _ => ring_demo0 end.
Definition ring_ptr : Z := match ring_created with Ret r _ => snd r | _ => 0 end.

Lemma ring_demo1_rep : rings_rep ring_demo1 {[ring_ptr := Fifo 15 []]}.
Proof.
  pose proof (ring_create_spec 16 ring_demo0 ∅ ring_demo0_rep ltac:(done) ltac:(done)) as Hw.
  destruct (proj1 (wp_run _ _ _) Hw) as (r & s' & E & Hres). unfold ring_demo1, ring_ptr. change (ring_created = Ret r s') in E. rewrite E.
  assert (match ring_created with Ret r _ => fst r | _ => OPRT_COM_ERROR end = OPRT_OK) as Eok by (by vm_compute).
  rewrite E in Eok. destruct Hres as [[-> _]|(p & -> & _ & _ & Hrep)]; [done|exact Hrep].
Qed.

Lemma ring_buff_refines_fifo_witness :
  let ops := [(ring_ptr, RWrite [1; 2; 3; 4; 5; 6; 7; 8; 9; 10] 10); (ring_ptr, RRead [0; 0; 0; 0; 0; 0; 0] 7);
              (ring_ptr, RWrite [11; 12; 13; 14; 15; 16; 17; 18; 19; 20; 21; 22; 23; 24] 14); (ring_ptr, RFree)] in
  wp (exec_rops ops) (fun rs s' => rs = [(10, []); (7, [1; 2; 3; 4; 5; 6; 7]); (12, []); (0, [])] /\
    rings_rep s' (snd (spec_rops ops {[ring_ptr := Fifo 15 []]}))) ring_demo1.
Proof.
  intros ops. assert (fst (spec_rops ops {[ring_ptr := Fifo 15 []]}) = [(10, []); (7, [1; 2; 3; 4; 5; 6; 7]); (12, []); (0, [])]) as <-.
  { unfold ops. generalize ring_ptr. intros p. cbn [spec_rops]. rewrite lookup_singleton_eq. cbn -[lookup insert singletonM].
    rewrite insert_singleton_eq, lookup_singleton_eq. cbn -[lookup insert singletonM].
    rewrite insert_singleton_eq, lookup_singleton_eq. cbn -[lookup insert singletonM].
    rewrite insert_singleton_eq, lookup_singleton_eq. cbn -[lookup insert singletonM]. done. }
  refine (ring_buff_refines_fifo ops ring_demo1 {[ring_ptr := Fifo 15 []]} ring_demo1_rep _).
  unfold ops. repeat (apply Forall_cons_2; [split; [rewrite lookup_singleton_eq; by eexists|cbn; lia]|]). constructor.
Defined.
