(* ===== verification/DList.v ===== *)
(** * Doubly linked circular lists: [include/utilities/src/tuya_list.c]

    A list is a ring of nodes through its head.  The nodes of all lists live in
    one map from addresses to [next] and [prev] pointers; dereferencing an address
    that holds no node is a fault.  [dlist m h l] says that the ring of the head
    [h] goes through the nodes [l], both ways; the operations of the file are
    shown to be the list operations on [l], and to leave every node they do not
    name alone. *)

From S2P Require Import Prelude.

Record LIST_HEAD := mkNode { next : Z; prev : Z }.

Abbreviation links := (gmap Z LIST_HEAD).
Local Abbreviation L := (M links).

(** ** The operations *)

Definition rd_node (p : Z) : L LIST_HEAD := fun m =>
  match m !! p with Some n => Ret n m | None => Fault end.
Definition wr_nxt (p v : Z) : L unit := fun m =>
  match m !! p with Some n => Ret tt (<[p := mkNode v (prev n)]> m) | None => Fault end.
Definition wr_prv (p v : Z) : L unit := fun m =>
  match m !! p with Some n => Ret tt (<[p := mkNode (next n) v]> m) | None => Fault end.

Definition INIT_LIST_HEAD (p : Z) : L unit := wr_nxt p p ;;; wr_prv p p.

Definition __list_add (pNew pPrev pNext : Z) : L unit :=
  wr_prv pNext pNew ;;;
  wr_nxt pNew pNext ;;;
  wr_prv pNew pPrev ;;;
  wr_nxt pPrev pNew.

Definition __list_del (pPrev pNext : Z) : L unit :=
  wr_prv pNext pPrev ;;;
  wr_nxt pPrev pNext.

Definition tuya_list_empty (pHead : Z) : L bool :=
  n <- rd_node pHead ;; ret (next n =? pHead).

Definition tuya_list_add (pNew pHead : Z) : L unit :=
  n <- rd_node pHead ;; __list_add pNew pHead (next n).

Definition tuya_list_add_tail (pNew pHead : Z) : L unit :=
  n <- rd_node pHead ;; __list_add pNew (prev n) pHead.

Definition tuya_list_splice (pList pHead : Z) : L unit :=
  l <- rd_node pList ;;
  let pFirst := next l in
  if negb (pFirst =? pList) then
    let pLast := prev l in
    h <- rd_node pHead ;;
    let pAt := next h in
    wr_prv pFirst pHead ;;;
    wr_nxt pHead pFirst ;;;
    wr_nxt pLast pAt ;;;
    wr_prv pAt pLast
  else ret tt.

Definition tuya_list_del (pEntry : Z) : L unit :=
  n <- rd_node pEntry ;; __list_del (prev n) (next n).

Definition tuya_list_del_init (pEntry : Z) : L unit :=
  n <- rd_node pEntry ;;
  __list_del (prev n) (next n) ;;;
  INIT_LIST_HEAD pEntry.

(** ** Rings *)

Definition nxt (m : links) (p : Z) : option Z := next <$> m !! p.
Definition prv (m : links) (p : Z) : option Z := prev <$> m !! p.

(** Each node of the path links to the next one, which links back. *)
Fixpoint linked (m : links) (l : list Z) : Prop :=
  match l with
  | a :: ((b :: _) as r) => nxt m a = Some b /\ prv m b = Some a /\ linked m r
  | _ => True
  end.

Definition dlist (m : links) (h : Z) (l : list Z) : Prop := NoDup (h :: l) /\ linked m (h :: l ++ [h]).

(** The nodes outside [X] are the same. *)
Definition same_but (X : list Z) (m m' : links) : Prop := forall p, p ∉ X -> m' !! p = m !! p.

(** ** Facts *)

Lemma wp_rd_node p n Q m : m !! p = Some n -> Q n m -> wp (rd_node p) Q m.
Proof. intros E HQ. unfold wp, rd_node. by rewrite E. Qed.
Lemma wp_wr_nxt p v n Q m : m !! p = Some n -> Q tt (<[p := mkNode v (prev n)]> m) -> wp (wr_nxt p v) Q m.
Proof. intros E HQ. unfold wp, wr_nxt. by rewrite E. Qed.
Lemma wp_wr_prv p v n Q m : m !! p = Some n -> Q tt (<[p := mkNode (next n) v]> m) -> wp (wr_prv p v) Q m.
Proof. intros E HQ. unfold wp, wr_prv. by rewrite E. Qed.

(** Effects of the two writes on the two fields, anywhere. *)
Definition set_nxt (m : links) (p v : Z) : links := match m !! p with Some n => <[p := mkNode v (prev n)]> m | None => m end.
Definition set_prv (m : links) (p v : Z) : links := match m !! p with Some n => <[p := mkNode (next n) v]> m | None => m end.

Lemma nxt_set_nxt m p v q : nxt (set_nxt m p v) q = if decide (p = q) then (if m !! p then Some v else None) else nxt m q.
Proof. unfold nxt, set_nxt. destruct (m !! p) eqn:E; [rewrite lookup_insert|]; case_decide; subst; rewrite ?E; done. Qed.
Lemma prv_set_nxt m p v q : prv (set_nxt m p v) q = prv m q.
Proof. unfold prv, set_nxt. destruct (m !! p) eqn:E; [|done]. rewrite lookup_insert. case_decide; subst; rewrite ?E; done. Qed.
Lemma prv_set_prv m p v q : prv (set_prv m p v) q = if decide (p = q) then (if m !! p then Some v else None) else prv m q.
Proof. unfold prv, set_prv. destruct (m !! p) eqn:E; [rewrite lookup_insert|]; case_decide; subst; rewrite ?E; done. Qed.
Lemma nxt_set_prv m p v q : nxt (set_prv m p v) q = nxt m q.
Proof. unfold nxt, set_prv. destruct (m !! p) eqn:E; [|done]. rewrite lookup_insert. case_decide; subst; rewrite ?E; done. Qed.
Lemma is_Some_set_nxt m p v q : is_Some (set_nxt m p v !! q) <-> is_Some (m !! q).
Proof. unfold set_nxt. destruct (m !! p) eqn:E; [|done]. rewrite lookup_insert. case_decide; subst; rewrite ?E; naive_solver. Qed.
Lemma is_Some_set_prv m p v q : is_Some (set_prv m p v !! q) <-> is_Some (m !! q).
Proof. unfold set_prv. destruct (m !! p) eqn:E; [|done]. rewrite lookup_insert. case_decide; subst; rewrite ?E; naive_solver. Qed.

Lemma wp_set_nxt p v Q m : is_Some (m !! p) -> Q tt (set_nxt m p v) -> wp (wr_nxt p v) Q m.
Proof. intros [n E] HQ. eapply wp_wr_nxt; [done|]. unfold set_nxt in HQ. by rewrite E in HQ. Qed.
Lemma wp_set_prv p v Q m : is_Some (m !! p) -> Q tt (set_prv m p v) -> wp (wr_prv p v) Q m.
Proof. intros [n E] HQ. eapply wp_wr_prv; [done|]. unfold set_prv in HQ. by rewrite E in HQ. Qed.

Lemma same_but_set_nxt X m p v : p ∈ X -> same_but X m (set_nxt m p v).
Proof. intros Hp q Hq. unfold set_nxt. destruct (m !! p); [|done]. rewrite lookup_insert_ne; [done|]. by intros ->. Qed.
Lemma same_but_set_prv X m p v : p ∈ X -> same_but X m (set_prv m p v).
Proof. intros Hp q Hq. unfold set_prv. destruct (m !! p); [|done]. rewrite lookup_insert_ne; [done|]. by intros ->. Qed.
Lemma same_but_trans X m1 m2 m3 : same_but X m1 m2 -> same_but X m2 m3 -> same_but X m1 m3.
Proof. intros H1 H2 q Hq. by rewrite H2, H1. Qed.
Lemma same_but_refl X m : same_but X m m.
Proof. done. Qed.

Lemma nxt_Some m p q : nxt m p = Some q -> exists n, m !! p = Some n /\ next n = q.
Proof. unfold nxt. intros E. apply fmap_Some in E as (n & ? & ->). eauto. Qed.
Lemma prv_Some m p q : prv m p = Some q -> exists n, m !! p = Some n /\ prev n = q.
Proof. unfold prv. intros E. apply fmap_Some in E as (n & ? & ->). eauto. Qed.

(** ** Paths *)

Lemma linked_app m l1 a l2 : linked m (l1 ++ a :: l2) <-> linked m (l1 ++ [a]) /\ linked m (a :: l2).
Proof.
  induction l1 as [|b l1 IH]; [simpl; naive_solver|]. destruct l1 as [|c l1]; simpl in *; [destruct l2; naive_solver|].
  rewrite IH. naive_solver.
Qed.

Lemma linked_join m l1 a b l2 :
  linked m (l1 ++ a :: b :: l2) <-> linked m (l1 ++ [a]) /\ (nxt m a = Some b /\ prv m b = Some a) /\ linked m (b :: l2).
Proof. rewrite linked_app. simpl. tauto. Qed.

(** The [next] of all nodes but the last and the [prev] of all but the first
    determine a path. *)
Lemma linked_frame m m' l :
  (forall p, p ∈ removelast l -> nxt m' p = nxt m p) -> (forall p, p ∈ tail l -> prv m' p = prv m p) ->
  linked m l -> linked m' l.
Proof.
  induction l as [|a l IH]; [done|]. destruct l as [|b l]; [done|]. intros Hn Hp (H1 & H2 & H3).
  split; [rewrite Hn; [done|]; left|]. split; [rewrite Hp; [done|]; left|].
  apply IH; [|intros p Hin; apply Hp; by right|done]. intros p Hin. apply Hn. by right.
Qed.

Lemma linked_frame_out m m' l :
  (forall p, p ∈ l -> m' !! p = m !! p) -> linked m l -> linked m' l.
Proof.
  intros Hs. apply linked_frame; intros p Hp; unfold nxt, prv; rewrite Hs; try done.
  - destruct l as [|a l _] using rev_ind; [done|]. rewrite removelast_last in Hp. set_solver.
  - destruct l; [done|]. by right.
Qed.

(** Lists that share no node with [X] are kept. *)
Lemma dlist_frame X m m' h l : same_but X m m' -> (forall p, p ∈ h :: l -> p ∉ X) -> dlist m h l -> dlist m' h l.
Proof.
  intros Hs Hd [Hn Hl]. split; [done|]. eapply linked_frame_out; [|done]. intros p Hp. apply Hs, Hd. set_solver.
Qed.

Lemma dlist_node m h l p : dlist m h l -> p ∈ h :: l -> is_Some (m !! p).
Proof.
  intros [_ Hl] Hp. apply list_elem_of_split in Hp as (l1 & l2 & E).
  rewrite app_comm_cons, E, <-app_assoc in Hl. rewrite <-app_comm_cons in Hl. apply linked_app in Hl as [_ Hl].
  destruct l2 as [|q l2]; destruct Hl as (Hn & _); apply nxt_Some in Hn as (n & -> & _); by eexists.
Qed.

(** The neighbours of a place in the ring. *)
Definition before (h : Z) (l1 : list Z) : Z := default h (last l1).
Definition after (h : Z) (l2 : list Z) : Z := default h (head l2).

Lemma before_split h l1 : exists A, h :: l1 = A ++ [before h l1].
Proof.
  unfold before. destruct l1 as [|c l1 _] using rev_ind; [by exists []|]. rewrite last_snoc. by exists (h :: l1).
Qed.
Lemma after_split h l2 : exists B, l2 ++ [h] = after h l2 :: B.
Proof. destruct l2 as [|c l2]; [by exists []|]. by exists (l2 ++ [h]). Qed.

(** A ring with a place between [l1] and [l2] singled out. *)
Lemma ring_split m h l1 l2 : linked m (h :: (l1 ++ l2) ++ [h]) <->
  linked m (h :: l1) /\ (nxt m (before h l1) = Some (after h l2) /\ prv m (after h l2) = Some (before h l1)) /\ linked m (l2 ++ [h]).
Proof.
  destruct (before_split h l1) as [A EA], (after_split h l2) as [B EB].
  rewrite <-app_assoc, app_comm_cons, EA, EB, <-app_assoc. apply linked_join.
Qed.

Lemma before_in h l1 : before h l1 = h /\ l1 = [] \/ before h l1 ∈ l1.
Proof. unfold before. destruct l1 as [|c l1 _] using rev_ind; [by left|]. rewrite last_snoc. right. set_solver. Qed.
Lemma after_in h l2 : after h l2 = h /\ l2 = [] \/ after h l2 ∈ l2.
Proof. destruct l2 as [|c l2]; [by left|]. right. left. Qed.

Lemma removelast_before h l1 p : NoDup (h :: l1) -> p ∈ removelast (h :: l1) -> p ∈ h :: l1 /\ p <> before h l1.
Proof.
  intros Hn. destruct (before_split h l1) as [A E]. rewrite E in *. rewrite removelast_last. intros Hp.
  split; [set_solver|]. intros ->. apply NoDup_app in Hn as (_ & Hn & _). apply (Hn _ Hp). set_solver.
Qed.
Lemma tail_after h l2 p : NoDup (h :: l2) -> p ∈ tail (l2 ++ [h]) -> p ∈ h :: l2 /\ p <> after h l2.
Proof.
  intros Hn. destruct l2 as [|c l2]; [set_solver|]. cbn. intros Hp. split; [set_solver|]. intros ->.
  apply NoDup_cons in Hn as [Hh [Hc _]%NoDup_cons]. set_solver.
Qed.

(** The two halves of a ring survive a change of the links at the place between
    them. *)
Lemma ring_halves m m' h l1 l2 (X : list Z) :
  NoDup (h :: l1 ++ l2) -> (forall p, p ∈ X -> p ∉ h :: l1 ++ l2) ->
  (forall p, p ∉ X -> p <> before h l1 -> nxt m' p = nxt m p) ->
  (forall p, p ∉ X -> p <> after h l2 -> prv m' p = prv m p) ->
  linked m (h :: l1) -> linked m (l2 ++ [h]) -> linked m' (h :: l1) /\ linked m' (l2 ++ [h]).
Proof.
  intros Hnd HX Hn Hp H1 H2. apply NoDup_cons in Hnd as [Hh Hnd]. apply NoDup_app in Hnd as (Hn1 & Hd & Hn2).
  assert (forall p, p ∈ h :: l1 ++ l2 -> p ∉ X) as HX' by (intros p Hin Hx; by apply (HX p)).
  split; (eapply linked_frame; [| |done]); intros p Hin.
  - apply removelast_before in Hin as [Hin Hne]; [|constructor; set_solver]. apply Hn; [apply HX'; set_solver|done].
  - cbn in Hin. apply Hp; [apply HX'; set_solver|]. destruct (after_in h l2) as [[-> _]|Ha]; set_solver.
  - rewrite removelast_last in Hin. apply Hn; [apply HX'; set_solver|]. destruct (before_in h l1) as [[-> _]|Ha]; set_solver.
  - apply tail_after in Hin as [Hin Hne]; [|constructor; set_solver]. apply Hp; [apply HX'; set_solver|done].
Qed.

(** ** Insertion and removal *)

Definition add_at (m : links) (n p x : Z) : links := set_nxt (set_prv (set_nxt (set_prv m x n) n x) n p) p n.
Definition del_at (m : links) (p x : Z) : links := set_nxt (set_prv m x p) p x.

Lemma __list_add_spec m n p x Q :
  is_Some (m !! n) -> is_Some (m !! p) -> is_Some (m !! x) -> Q tt (add_at m n p x) -> wp (__list_add n p x) Q m.
Proof.
  intros Hn Hp Hx HQ. unfold __list_add.
  apply wp_bind, wp_set_prv; [done|]. apply wp_bind, wp_set_nxt; [by apply is_Some_set_prv|].
  apply wp_bind, wp_set_prv; [by apply is_Some_set_nxt, is_Some_set_prv|].
  apply wp_set_nxt; [by apply is_Some_set_prv, is_Some_set_nxt, is_Some_set_prv|done].
Qed.

Lemma __list_del_spec m p x Q : is_Some (m !! p) -> is_Some (m !! x) -> Q tt (del_at m p x) -> wp (__list_del p x) Q m.
Proof. intros Hp Hx HQ. unfold __list_del. apply wp_bind, wp_set_prv; [done|]. apply wp_set_nxt; [by apply is_Some_set_prv|done]. Qed.

(** Rewriting the fields after a sequence of writes. *)
Ltac fields := rewrite ?nxt_set_nxt, ?prv_set_nxt, ?prv_set_prv, ?nxt_set_prv, ?nxt_set_nxt, ?prv_set_nxt, ?prv_set_prv, ?nxt_set_prv.

Lemma set_defined (m m' : links) p : (is_Some (m' !! p) <-> is_Some (m !! p)) -> is_Some (m !! p) ->
  forall v : Z, (if m' !! p then Some v else None) = Some v.
Proof. intros Hiff Hs v. apply Hiff in Hs as [n ->]. done. Qed.

Ltac defined := repeat match goal with
  | |- context [if ?m' !! ?q then Some ?w else None] =>
    rewrite (set_defined m' m' q) by (reflexivity || (repeat (rewrite is_Some_set_nxt || rewrite is_Some_set_prv); done))
  end.

Lemma dlist_add_at m h l1 l2 n :
  dlist m h (l1 ++ l2) -> n ∉ h :: l1 ++ l2 -> is_Some (m !! n) ->
  dlist (add_at m n (before h l1) (after h l2)) h (l1 ++ n :: l2).
Proof.
  intros Hd Hn Hs. assert (before h l1 ∈ h :: l1 ++ l2) as Hpin by (destruct (before_in h l1) as [[-> _]|?]; set_solver).
  assert (after h l2 ∈ h :: l1 ++ l2) as Hxin by (destruct (after_in h l2) as [[-> _]|?]; set_solver).
  pose proof (dlist_node _ _ _ _ Hd Hpin) as Hps. pose proof (dlist_node _ _ _ _ Hd Hxin) as Hxs.
  destruct Hd as [Hnd Hl]. apply ring_split in Hl as (H1 & _ & H2). set (m' := add_at _ _ _ _).
  assert (before h l1 <> n) by (intros E; rewrite E in Hpin; done). assert (after h l2 <> n) by (intros E; rewrite E in Hxin; done).
  destruct (ring_halves m m' h l1 l2 [n]) as [H1' H2']; try done; [set_solver|..].
  { intros p Hp Hpb. unfold m', add_at. fields. repeat case_decide; subst; done || set_solver. }
  { intros p Hp Hpb. unfold m', add_at. fields. repeat case_decide; subst; done || set_solver. }
  assert (nxt m' (before h l1) = Some n /\ prv m' n = Some (before h l1) /\ nxt m' n = Some (after h l2) /\ prv m' (after h l2) = Some n) as (E1 & E2 & E3 & E4).
  { unfold m', add_at. split_and!; fields; repeat case_decide; try congruence; defined; done. }
  split.
  - apply NoDup_cons in Hnd as [Hh Hnd]. constructor; [set_solver|]. rewrite <-Permutation_middle. constructor; [set_solver|done].
  - apply (ring_split m' h l1 (n :: l2)). split; [done|]. split; [done|]. cbn [app].
    destruct (after_split h l2) as [B EB]. rewrite EB in *. split; [done|]. split; done.
Qed.

Lemma dlist_del_at m h l1 e l2 :
  dlist m h (l1 ++ e :: l2) ->
  nxt m e = Some (after h l2) /\ prv m e = Some (before h l1) /\
  is_Some (m !! before h l1) /\ is_Some (m !! after h l2) /\
  dlist (del_at m (before h l1) (after h l2)) h (l1 ++ l2).
Proof.
  intros Hd. assert (before h l1 ∈ h :: l1 ++ e :: l2) as Hpin by (destruct (before_in h l1) as [[-> _]|?]; set_solver).
  assert (after h l2 ∈ h :: l1 ++ e :: l2) as Hxin by (destruct (after_in h l2) as [[-> _]|?]; set_solver).
  pose proof (dlist_node _ _ _ _ Hd Hpin) as Hps. pose proof (dlist_node _ _ _ _ Hd Hxin) as Hxs.
  destruct Hd as [Hnd Hl]. pose proof Hl as (H1 & [_ Ep] & _)%ring_split.
  pose proof Hl as Hl'. rewrite (cons_middle e l1 l2), (app_assoc l1) in Hl'. apply ring_split in Hl' as (_ & [En _] & H2).
  replace (before h (l1 ++ [e])) with e in En by (unfold before; by rewrite last_snoc).
  split; [done|]. split; [done|]. split; [done|]. split; [done|].
  set (m' := del_at _ _ _). assert (NoDup (h :: l1 ++ l2)) as Hnd'.
  { apply NoDup_cons in Hnd as [Hh Hnd]. rewrite <-Permutation_middle in Hnd. apply NoDup_cons in Hnd as [_ Hnd]. constructor; [set_solver|done]. }
  destruct (ring_halves m m' h l1 l2 []) as [H1' H2']; try done; [set_solver|..].
  { intros p _ Hpb. unfold m', del_at. fields. repeat case_decide; subst; done. }
  { intros p _ Hpb. unfold m', del_at. fields. repeat case_decide; subst; done. }
  split; [done|]. apply ring_split. split; [done|]. split; [|done].
  unfold m', del_at. split; fields; repeat case_decide; try congruence; defined; done.
Qed.

Lemma same_but_add_at X m n p x : n ∈ X -> p ∈ X -> x ∈ X -> same_but X m (add_at m n p x).
Proof.
  intros ???. unfold add_at. eapply same_but_trans; [|by apply same_but_set_nxt].
  eapply same_but_trans; [|by apply same_but_set_prv]. eapply same_but_trans; [|by apply same_but_set_nxt]. by apply same_but_set_prv.
Qed.
Lemma same_but_del_at X m p x : p ∈ X -> x ∈ X -> same_but X m (del_at m p x).
Proof. intros ??. unfold del_at. eapply same_but_trans; [|by apply same_but_set_nxt]. by apply same_but_set_prv. Qed.

Lemma before_mem h l1 l2 : before h l1 ∈ h :: l1 ++ l2.
Proof. destruct (before_in h l1) as [[-> _]|?]; set_solver. Qed.
Lemma after_mem h l1 l2 : after h l2 ∈ h :: l1 ++ l2.
Proof. destruct (after_in h l2) as [[-> _]|?]; set_solver. Qed.

Lemma dlist_ends m h l : dlist m h l -> nxt m h = Some (after h l) /\ prv m h = Some (before h l).
Proof.
  intros [_ Hl]. pose proof (proj1 (ring_split m h [] l) Hl) as (_ & [E1 _] & _).
  rewrite <-(app_nil_r l) in Hl. pose proof (proj1 (ring_split m h l []) Hl) as (_ & [_ E2] & _). done.
Qed.

Lemma list_init_spec m p Q :
  is_Some (m !! p) -> (forall m', dlist m' p [] -> same_but [p] m m' -> Q tt m') -> wp (INIT_LIST_HEAD p) Q m.
Proof.
  intros Hp HQ. unfold INIT_LIST_HEAD. apply wp_bind, wp_set_nxt; [done|]. apply wp_set_prv; [by apply is_Some_set_nxt|].
  apply HQ.
  - split; [constructor; [set_solver|constructor]|]. cbn. split_and!; try done; fields; rewrite decide_True by done; defined; done.
  - eapply same_but_trans; [apply same_but_set_nxt|apply same_but_set_prv]; set_solver.
Qed.

Lemma list_add_spec m h l n Q :
  dlist m h l -> n ∉ h :: l -> is_Some (m !! n) ->
  (forall m', dlist m' h (n :: l) -> same_but (n :: h :: l) m m' -> Q tt m') -> wp (tuya_list_add n h) Q m.
Proof.
  intros Hd Hn Hs HQ. destruct (dlist_ends _ _ _ Hd) as [(nd & Hnd & En)%nxt_Some _]. unfold tuya_list_add.
  apply wp_bind. eapply wp_rd_node; [done|]. rewrite En. change h with (before h []) at 1.
  apply __list_add_spec; [done|apply (dlist_node _ _ _ _ Hd); left|apply (dlist_node _ _ _ _ Hd), (after_mem h [])|].
  apply HQ; [by apply (dlist_add_at m h [] l)|]. apply same_but_add_at; [left|right; left|right; apply (after_mem h [])].
Qed.

Lemma list_add_tail_spec m h l n Q :
  dlist m h l -> n ∉ h :: l -> is_Some (m !! n) ->
  (forall m', dlist m' h (l ++ [n]) -> same_but (n :: h :: l) m m' -> Q tt m') -> wp (tuya_list_add_tail n h) Q m.
Proof.
  intros Hd Hn Hs HQ. destruct (dlist_ends _ _ _ Hd) as [_ (nd & Hnd & En)%prv_Some]. unfold tuya_list_add_tail.
  apply wp_bind. eapply wp_rd_node; [done|]. rewrite En. change h with (after h []) at 2.
  assert (before h l ∈ h :: l) as Hb by (pose proof (before_mem h l []) as Hb; by rewrite app_nil_r in Hb).
  apply __list_add_spec; [done|by apply (dlist_node _ _ _ _ Hd)|apply (dlist_node _ _ _ _ Hd); left|].
  apply HQ; [apply (dlist_add_at m h l []); rewrite ?app_nil_r; done|]. apply same_but_add_at; [left|by right|right; left].
Qed.

Lemma list_del_spec m h l1 e l2 Q :
  dlist m h (l1 ++ e :: l2) ->
  (forall m', dlist m' h (l1 ++ l2) -> same_but (h :: l1 ++ l2) m m' -> Q tt m') -> wp (tuya_list_del e) Q m.
Proof.
  intros Hd HQ. destruct (dlist_del_at _ _ _ _ _ Hd) as (En & Ep & Hb & Ha & Hd').
  apply nxt_Some in En as (nd & Hnd & En). apply prv_Some in Ep as (nd' & Hnd' & Ep). rewrite Hnd in Hnd'. injection Hnd' as <-.
  unfold tuya_list_del. apply wp_bind. eapply wp_rd_node; [done|]. rewrite En, Ep.
  apply __list_del_spec; [done|done|]. apply HQ; [done|]. apply same_but_del_at; [apply before_mem|apply after_mem].
Qed.

Lemma list_del_init_spec m h l1 e l2 Q :
  dlist m h (l1 ++ e :: l2) ->
  (forall m', dlist m' h (l1 ++ l2) -> dlist m' e [] -> same_but (h :: l1 ++ e :: l2) m m' -> Q tt m') -> wp (tuya_list_del_init e) Q m.
Proof.
  intros Hd HQ. pose proof Hd as [Hnd _]. assert (is_Some (m !! e)) as He by (apply (dlist_node _ _ _ _ Hd); set_solver).
  assert (wp (tuya_list_del e) (fun _ m1 => wp (INIT_LIST_HEAD e) Q m1) m) as Hw.
  { eapply list_del_spec; [done|]. intros m1 Hd1 Hs1. assert (e ∉ h :: l1 ++ l2) as Hne.
    { rewrite <-Permutation_middle in Hnd. apply NoDup_cons in Hnd as [Hh [Hni _]%NoDup_cons]. set_solver. }
    apply list_init_spec; [by rewrite Hs1|]. intros m2 Hd2 Hs2. apply HQ; [|done|].
    - eapply dlist_frame; [exact Hs2| |done]. set_solver.
    - intros p Hp. rewrite Hs2, Hs1; [done|set_solver..]. }
  unfold tuya_list_del, tuya_list_del_init, wp, bind, rd_node in *. destruct (m !! e); [|done].
  by destruct (__list_del _ _ m).
Qed.

(** ** Splicing *)

Lemma list_splice_spec m g l h k Q :
  dlist m g l -> dlist m h k -> NoDup ((g :: l) ++ h :: k) ->
  (forall m', dlist m' h (l ++ k) -> same_but ((g :: l) ++ h :: k) m m' -> Q tt m') -> wp (tuya_list_splice g h) Q m.
Proof.
  intros Hg Hh Hnd HQ. destruct (dlist_ends _ _ _ Hg) as [(gn & Hgn & En)%nxt_Some (gn' & Hgn' & Ep)%prv_Some].
  rewrite Hgn in Hgn'. injection Hgn' as <-. destruct (dlist_ends _ _ _ Hh) as [(hn & Hhn & Eh)%nxt_Some _].
  unfold tuya_list_splice. apply wp_bind. eapply wp_rd_node; [done|]. rewrite En, Ep.
  apply NoDup_app in Hnd as (Hng & Hdis & Hnh).
  destruct l as [|f l]; [cbn; rewrite Z.eqb_refl; apply wp_ret; by apply HQ|].
  change (after g (f :: l)) with f. assert (f <> g) as Hfg by (intros ->; by apply NoDup_cons in Hng as [[]%not_elem_of_cons _]).
  rewrite (proj2 (Z.eqb_neq f g) Hfg). cbn -[before after].
  apply wp_bind. eapply wp_rd_node; [done|]. rewrite Eh. set (t := before g (f :: l)). set (x := after h k).
  assert (t ∈ f :: l) as Ht by (destruct (before_in g (f :: l)) as [[_ [=]]|?]; done).
  assert (x ∈ h :: k) as Hx by apply (after_mem h []).
  assert (is_Some (m !! f) /\ is_Some (m !! t) /\ is_Some (m !! h) /\ is_Some (m !! x)) as (If & It & Ih & Ix).
  { split_and!; [apply (dlist_node _ _ _ _ Hg); set_solver|apply (dlist_node _ _ _ _ Hg); set_solver|apply (dlist_node _ _ _ _ Hh); left|by apply (dlist_node _ _ _ _ Hh)]. }
  apply wp_bind, wp_set_prv; [done|]. apply wp_bind, wp_set_nxt; [by apply is_Some_set_prv|].
  apply wp_bind, wp_set_nxt; [by apply is_Some_set_nxt, is_Some_set_prv|].
  apply wp_set_prv; [by apply is_Some_set_nxt, is_Some_set_nxt, is_Some_set_prv|].
  set (m' := set_prv _ _ _).
  assert (forall p, p ∈ f :: l -> p ∉ h :: k) as Hsep by (intros p Hp; apply Hdis; by right).
  assert (t <> h) as Hth by (intros E; apply (Hsep t Ht); rewrite E; left). assert (f <> x) as Hfx by (intros E; apply (Hsep f); [left|by rewrite E]).
  assert (forall p, p <> h -> p <> t -> nxt m' p = nxt m p) as Hnx by (intros p ? ?; unfold m'; fields; repeat case_decide; subst; done).
  assert (forall p, p <> f -> p <> x -> prv m' p = prv m p) as Hpv by (intros p ? ?; unfold m'; fields; repeat case_decide; subst; done).
  assert (nxt m' h = Some f /\ prv m' f = Some h /\ nxt m' t = Some x /\ prv m' x = Some t) as (E1 & E2 & E3 & E4).
  { unfold m'. split_and!; fields; repeat case_decide; try congruence; defined; done. }
  apply HQ.
  - split.
    + apply NoDup_cons in Hng as [_ Hng]. rewrite (Permutation_middle (f :: l) k h).
      apply NoDup_app. split; [done|]. split; [done|done].
    + assert (before h (f :: l) = t /\ before f l = t) as [Eb1 Eb2].
      { unfold t, before. rewrite last_cons. destruct (last l); done. }
      apply (ring_split m' h (f :: l) k). rewrite Eb1. fold x. split; [|split; [done|]].
      * split; [done|]. split; [done|]. destruct Hg as [_ Hg]. rewrite <-(app_nil_r (f :: l)) in Hg.
        apply (ring_split m g (f :: l) []) in Hg as ((_ & _ & Hg) & _).
        apply NoDup_cons in Hng as [_ Hng]. eapply linked_frame; [| |exact Hg]; intros p Hp.
        -- apply removelast_before in Hp as [Hp Hpt]; [|done]. rewrite Eb2 in Hpt. apply Hnx; [|done]. intros ->. apply (Hsep h Hp). left.
        -- cbn in Hp. apply Hpv; [intros ->; by apply NoDup_cons in Hng as [? _]|]. intros ->. by apply (Hsep x); [right|].
      * destruct Hh as [_ Hh]. apply (ring_split m h [] k) in Hh as (_ & _ & Hh). eapply linked_frame; [| |exact Hh]; intros p Hp.
        -- rewrite removelast_last in Hp. apply Hnx; [intros ->; by apply NoDup_cons in Hnh as [? _]|]. intros ->. by apply (Hsep t Ht); right.
        -- apply tail_after in Hp as [Hp Hpx]; [|done]. apply Hpv; [|done]. intros ->. by apply (Hsep f); [left|].
  - assert (f ∈ (g :: f :: l) ++ h :: k /\ h ∈ (g :: f :: l) ++ h :: k /\ t ∈ (g :: f :: l) ++ h :: k /\ x ∈ (g :: f :: l) ++ h :: k) as (? & ? & ? & ?) by set_solver.
    eapply same_but_trans; [|by apply same_but_set_prv]. eapply same_but_trans; [|by apply same_but_set_nxt].
    eapply same_but_trans; [|by apply same_but_set_nxt]. by apply same_but_set_prv.
Qed.

(** ** Properties *)

(** On a well-formed ring with nodes [l], [tuya_list_add] and
    [tuya_list_add_tail] of a node outside it put it first and last,
    [tuya_list_del] of any node takes exactly that node out, and
    [tuya_list_empty] tells whether [l] is empty; the ring stays well formed in
    both directions and no other node changes. *)
Theorem tuya_list_correct m h l :
  dlist m h l ->
  (forall n, n ∉ h :: l -> is_Some (m !! n) ->
     wp (tuya_list_add n h) (fun _ m' => dlist m' h (n :: l) /\ same_but (n :: h :: l) m m') m /\
     wp (tuya_list_add_tail n h) (fun _ m' => dlist m' h (l ++ [n]) /\ same_but (n :: h :: l) m m') m) /\
  (forall l1 e l2, l = l1 ++ e :: l2 ->
     wp (tuya_list_del e) (fun _ m' => dlist m' h (l1 ++ l2) /\ same_but (h :: l1 ++ l2) m m') m) /\
  wp (tuya_list_empty h) (fun b m' => b = bool_decide (l = []) /\ m' = m) m.
Proof.
  intros Hd. split; [|split].
  - intros n Hn Hs. split; [eapply list_add_spec|eapply list_add_tail_spec]; eauto.
  - intros l1 e l2 ->. eapply list_del_spec; eauto.
  - destruct (dlist_ends _ _ _ Hd) as [(nd & Hnd & En)%nxt_Some _]. destruct Hd as [Hn _].
    unfold tuya_list_empty. apply wp_bind. eapply wp_rd_node; [done|]. apply wp_ret. split; [|done]. rewrite En.
    destruct l as [|b l]; [apply Z.eqb_refl|]. apply Z.eqb_neq. cbn. intros ->. by apply NoDup_cons in Hn as [[]%not_elem_of_cons _].
Qed.

Definition demo_links : links :=
  {[10 := mkNode 20 30; 20 := mkNode 30 10; 30 := mkNode 10 20; 40 := mkNode 50 50; 50 := mkNode 40 40; 60 := mkNode 0 0]}.

Lemma demo_list1 : dlist demo_links 10 [20; 30].
Proof. split; [by apply (bool_decide_unpack _)|by vm_compute]. Qed.
Lemma demo_list2 : dlist demo_links 40 [50].
Proof. split; [by apply (bool_decide_unpack _)|by vm_compute]. Qed.

Lemma tuya_list_correct_witness :
  wp (tuya_list_add 60 10) (fun _ m' => dlist m' 10 [60; 20; 30] /\ same_but [60; 10; 20; 30] demo_links m') demo_links.
Proof.
  refine (proj1 (proj1 (tuya_list_correct demo_links 10 [20; 30] demo_list1) 60 _ _)); [|vm_compute; by eexists].
  rewrite !not_elem_of_cons. split_and!; try lia. apply not_elem_of_nil.
Defined.

(** [tuya_list_splice] moves all nodes of one ring, in order, to the front of
    another one, and changes no node outside the two. *)
Theorem tuya_list_splice_correct m g l h k :
  dlist m g l -> dlist m h k -> NoDup ((g :: l) ++ h :: k) ->
  wp (tuya_list_splice g h) (fun _ m' => dlist m' h (l ++ k) /\ same_but ((g :: l) ++ h :: k) m m') m.
Proof. intros Hg Hh Hnd. eapply list_splice_spec; eauto. Qed.

Lemma tuya_list_splice_correct_witness :
  wp (tuya_list_splice 10 40) (fun _ m' => dlist m' 40 [20; 30; 50] /\ same_but [10; 20; 30; 40; 50] demo_links m') demo_links.
Proof.
  refine (tuya_list_splice_correct demo_links 10 [20; 30] 40 [50] demo_list1 demo_list2 _). by apply (bool_decide_unpack _).
Defined.
