(* ===== verification/TklMutex.v ===== *)
(** * Mutexes: [src/tkl_mutex.c]

    The adapter's recursive mutex on top of [pthread_mutex_t].  The POSIX
    functions are modelled as seen by one thread: a recursive mutex has a depth,
    unlocking one that is not held and destroying one that is held are refused.
    The results of the initialisation functions, which may fail, are parameters. *)

From S2P Require Import Prelude Alloc.

(** ** POSIX mutexes *)

Record pthread_mutex_t := mkMutex { mx_ready : bool; mx_depth : Z }.

Definition EPERM : Z := 1.
Definition EBUSY : Z := 16.
Definition SIZEOF_TKL_MUTEX_MANAGE : Z := 40.

(** What the functions that set a mutex up return. *)
Record pthread_env := mkPthread {
  pe_mutexattr_init : Z;
  pe_mutexattr_settype : Z;
  pe_mutex_init : Z;
  pe_mutexattr_destroy : Z
}.

Definition pthread_ok : pthread_env := mkPthread 0 0 0 0.

(** Objects among which there are mutexes. *)
Class HasMutex (O : Type) := {
  inj_mutex : pthread_mutex_t -> O;
  prj_mutex : O -> option pthread_mutex_t;
  prj_inj_mutex x : prj_mutex (inj_mutex x) = Some x
}.

Section Mutex.
Context {A O : Type} `{!Allocator A} `{!HasMutex O}.
Local Abbreviation W := (M (owned A O)).

Definition get_mutex (p : Z) : W pthread_mutex_t :=
  o <- get_obj p ;;
  match prj_mutex o with Some x => ret x | None => fault end.
Definition set_mutex (p : Z) (x : pthread_mutex_t) : W unit := set_obj p (inj_mutex x).

Definition pthread_mutex_lock (p : Z) : W Z :=
  x <- get_mutex p ;;
  if mx_ready x then set_mutex p (mkMutex true (mx_depth x + 1)) ;;; ret 0 else fault.
Definition pthread_mutex_unlock (p : Z) : W Z :=
  x <- get_mutex p ;;
  if mx_ready x then
    if 0 <? mx_depth x then set_mutex p (mkMutex true (mx_depth x - 1)) ;;; ret 0 else ret EPERM
  else fault.
Definition pthread_mutex_destroy (p : Z) : W Z :=
  x <- get_mutex p ;;
  if mx_ready x then
    if 0 <? mx_depth x then ret EBUSY else set_mutex p (mkMutex false 0) ;;; ret 0
  else fault.

(** ** The adapter *)

(** The result, and the handle stored through the argument. *)
Definition tkl_mutex_create_init (env : pthread_env) (handle : bool) : W (OPERATE_RET * Z) :=
  if negb handle then ret (OPRT_INVALID_PARM, 0)
  else
    mutex_manage <- lift_alloc (al_malloc SIZEOF_TKL_MUTEX_MANAGE) ;;
    if mutex_manage =? 0 then ret (OPRT_MALLOC_FAILED, 0)
    else
      init_obj mutex_manage (inj_mutex (mkMutex false 0)) ;;;
      if negb (pe_mutexattr_init env =? 0) then ret (OPRT_OS_ADAPTER_MUTEX_CREAT_FAILED, 0)
      else if negb (pe_mutexattr_settype env =? 0) then ret (OPRT_OS_ADAPTER_MUTEX_CREAT_FAILED, 0)
      else if negb (pe_mutex_init env =? 0) then ret (OPRT_OS_ADAPTER_MUTEX_CREAT_FAILED, 0)
      else
        set_mutex mutex_manage (mkMutex true 0) ;;;
        if negb (pe_mutexattr_destroy env =? 0) then ret (OPRT_OS_ADAPTER_MUTEX_RELEASE_FAILED, 0)
        else ret (OPRT_OK, mutex_manage).

Definition tkl_mutex_lock (handle : Z) : W OPERATE_RET :=
  if handle =? 0 then ret OPRT_INVALID_PARM
  else
    r <- pthread_mutex_lock handle ;;
    if negb (r =? 0) then ret OPRT_OS_ADAPTER_MUTEX_LOCK_FAILED else ret OPRT_OK.

Definition tkl_mutex_unlock (handle : Z) : W OPERATE_RET :=
  if handle =? 0 then ret OPRT_INVALID_PARM
  else
    r <- pthread_mutex_unlock handle ;;
    if negb (r =? 0) then ret OPRT_OS_ADAPTER_MUTEX_UNLOCK_FAILED else ret OPRT_OK.

Definition tkl_mutex_release (handle : Z) : W OPERATE_RET :=
  if handle =? 0 then ret OPRT_INVALID_PARM
  else
    r <- pthread_mutex_destroy handle ;;
    if negb (r =? 0) then ret OPRT_OS_ADAPTER_MUTEX_RELEASE_FAILED
    else
      bind (bind (lift_alloc (al_free handle)) (fun _ => drop_obj handle)) (fun _ => ret OPRT_OK).

Definition tkl_mutex_trylock (mutexHandle : Z) : W OPERATE_RET := ret OPRT_NOT_FOUND.

(** ** Specifications *)

Lemma wp_get_mutex p x Q s : o_objs s !! p = Some (inj_mutex x) -> Q x s -> wp (get_mutex p) Q s.
Proof. intros E HQ. unfold get_mutex. apply wp_bind. eapply wp_get_obj; [done|]. rewrite prj_inj_mutex. by apply wp_ret. Qed.

(** A mutex of depth [d] is at [p]. *)
Definition mutex_at (s : owned A O) (p d : Z) : Prop := o_objs s !! p = Some (inj_mutex (mkMutex true d)).
Definition put_mutex (s : owned A O) (p d : Z) : owned A O := Own (o_alloc s) (<[p := inj_mutex (mkMutex true d)]> (o_objs s)).

Lemma mutex_lock_spec s p d Q :
  p <> 0 -> mutex_at s p d -> Q OPRT_OK (put_mutex s p (d + 1)) -> wp (tkl_mutex_lock p) Q s.
Proof.
  intros Hp Hm HQ. unfold tkl_mutex_lock. rewrite (proj2 (Z.eqb_neq p 0)) by done. apply wp_bind. unfold pthread_mutex_lock.
  apply wp_bind. eapply wp_get_mutex; [done|]. apply wp_bind. eapply wp_set_obj; [done|]. by apply wp_ret, wp_ret.
Qed.

Lemma mutex_unlock_spec s p d Q :
  p <> 0 -> mutex_at s p d -> 0 < d -> Q OPRT_OK (put_mutex s p (d - 1)) -> wp (tkl_mutex_unlock p) Q s.
Proof.
  intros Hp Hm Hd HQ. unfold tkl_mutex_unlock. rewrite (proj2 (Z.eqb_neq p 0)) by done. apply wp_bind. unfold pthread_mutex_unlock.
  apply wp_bind. eapply wp_get_mutex; [done|]. cbn [mx_ready mx_depth]. rewrite (proj2 (Z.ltb_lt 0 d)) by done.
  apply wp_bind. eapply wp_set_obj; [done|]. by apply wp_ret, wp_ret.
Qed.

(** Locking and unlocking restores the state. *)
Lemma put_mutex_put s p d d' : put_mutex (put_mutex s p d') p d = put_mutex s p d.
Proof. unfold put_mutex. cbn. by rewrite insert_insert_eq. Qed.
Lemma put_mutex_id s p d : mutex_at s p d -> put_mutex s p d = s.
Proof. intros Hm. unfold put_mutex. rewrite insert_id by done. by destruct s. Qed.
Lemma mutex_at_put s p d : mutex_at (put_mutex s p d) p d.
Proof. apply lookup_insert_eq. Qed.

(** Creating and releasing, for objects of which [osz] is the size. *)
Lemma mutex_create_spec (osz : O -> Z) s Q :
  (forall x, osz (inj_mutex x) <= SIZEOF_TKL_MUTEX_MANAGE) -> owned_ok osz s ->
  (forall a, owned_ok osz (Own a (o_objs s)) -> Q (OPRT_MALLOC_FAILED, 0) (Own a (o_objs s))) ->
  (forall p a s', p <> 0 -> o_objs s !! p = None -> s' = Own a (<[p := inj_mutex (mkMutex true 0)]> (o_objs s)) -> owned_ok osz s' -> Q (OPRT_OK, p) s') ->
  wp (tkl_mutex_create_init pthread_ok true) Q s.
Proof.
  intros Hsz Hs H0 H1. unfold tkl_mutex_create_init. cbn [negb]. apply wp_bind.
  eapply (malloc_obj_spec osz); [done|unfold SIZEOF_TKL_MUTEX_MANAGE; lia| |].
  - intros a Ha. cbn. by apply wp_ret, H0.
  - intros p a Hp0 Hp Hnew. rewrite (proj2 (Z.eqb_neq p 0)) by done. apply wp_bind. unfold init_obj, wp at 1. cbn [pthread_ok pe_mutexattr_init pe_mutexattr_settype pe_mutex_init pe_mutexattr_destroy Z.eqb negb].
    apply wp_bind. eapply wp_set_obj; [apply lookup_insert_eq|]. apply wp_ret. cbn [o_alloc o_objs]. rewrite insert_insert_eq. eapply H1; try done. apply Hnew, Hsz.
Qed.

Lemma mutex_release_spec (osz : O -> Z) s p Q :
  p <> 0 -> mutex_at s p 0 -> owned_ok osz s -> osz (inj_mutex (mkMutex false 0)) = osz (inj_mutex (mkMutex true 0)) ->
  (forall s', owned_ok osz s' -> o_objs s' = delete p (o_objs s) -> Q OPRT_OK s') -> wp (tkl_mutex_release p) Q s.
Proof.
  intros Hp Hm Hs Hsz HQ. unfold tkl_mutex_release. rewrite (proj2 (Z.eqb_neq p 0)) by done. apply wp_bind. unfold pthread_mutex_destroy.
  apply wp_bind. eapply wp_get_mutex; [done|]. cbn [mx_ready mx_depth]. rewrite (proj2 (Z.ltb_ge 0 0)) by lia. apply wp_bind. eapply wp_set_obj; [done|]. apply wp_ret. cbn [Z.eqb negb].
  apply wp_bind. eapply wp_mono; [eapply (free_obj_spec osz); [eapply owned_ok_update; [exact Hs|exact Hm|done]|apply lookup_insert_eq]|].
  intros [] s' [Hs' E]. apply wp_ret, HQ; [done|]. rewrite E. cbn. by rewrite delete_insert_eq.
Qed.
End Mutex.
