(* ===== verification/Queue.v ===== *)
(** * The item queue: [include/utilities/src/tuya_queue.c]

    A bounded queue of items of one size, each item an allocation linked into the
    ring of the queue's head node.  The state is the allocator with the objects of
    the module (queues, items, mutexes) and the link nodes of [DList]: a node is
    the first field of an item, and the head of a queue lies 24 bytes into it. *)

From S2P Require Import Prelude Alloc DList TklMutex.

(** ** Data *)

Inductive ENQUEUE_POLICY_E := POLICY_SEND_TO_BACK | POLICY_SEND_TO_FRONT | POLICY_MAX.

Record TUYA_QUEUE_T := mkQueue {
  q_mutex : Z;
  q_item_size : Z;
  q_queue_len : Z;
  q_queue_free : Z
}.

Inductive qobj :=
| OQueue (q : TUYA_QUEUE_T)
| OItem (data : list Z)
| OMutex (x : pthread_mutex_t).

#[export] Instance qobj_mutex : HasMutex qobj := {|
  inj_mutex := OMutex;
  prj_mutex o := match o with OMutex x => Some x | _ => None end;
  prj_inj_mutex x := eq_refl
|}.

Definition SIZEOF_QUEUE_ITEM_T : Z := 16.
Definition SIZEOF_TUYA_QUEUE_T : Z := 40.

(** [&(queue->head)] *)
Definition head_of (q : Z) : Z := q + 24.

Definition obj_size (o : qobj) : Z :=
  match o with
  | OQueue _ => SIZEOF_TUYA_QUEUE_T
  | OItem d => SIZEOF_QUEUE_ITEM_T + Z.of_nat (length d)
  | OMutex _ => SIZEOF_TKL_MUTEX_MANAGE
  end.

Definition set_queue_free (v : Z) (q : TUYA_QUEUE_T) : TUYA_QUEUE_T :=
  mkQueue (q_mutex q) (q_item_size q) (q_queue_len q) v.

Record qstate (A : Type) := QState { q_own : owned A qobj; q_links : links }.
Arguments QState {A}. Arguments q_own {A}. Arguments q_links {A}.

(** [memcpy] of an item out of the caller's memory: the first bytes of it. *)
Definition copy_item (src : list Z) (n : Z) : option (list Z) :=
  if (0 <=? n) && (n <=? Z.of_nat (length src)) then Some (take (Z.to_nat n) src) else None.
(** [memcpy] to offset [off] of the caller's memory. *)
Definition store_item (dst : list Z) (off : Z) (d : list Z) : option (list Z) :=
  if (0 <=? off) && (off + Z.of_nat (length d) <=? Z.of_nat (length dst))
  then Some (take (Z.to_nat off) dst ++ d ++ drop (Z.to_nat off + length d) dst) else None.

Section Queue.
Context {A : Type} `{!Allocator A}.
Local Abbreviation W := (M (qstate A)).

Definition on_own {R} (c : M (owned A qobj) R) : W R := fun s =>
  match c (q_own s) with Ret r o => Ret r (QState o (q_links s)) | Fault => Fault | Diverge => Diverge end.
Definition on_links {R} (c : M links R) : W R := fun s =>
  match c (q_links s) with Ret r l => Ret r (QState (q_own s) l) | Fault => Fault | Diverge => Diverge end.
Definition from_option {R} (o : option R) : W R := match o with Some x => ret x | None => fault end.

Definition get_queue (q : Z) : W TUYA_QUEUE_T :=
  o <- on_own (get_obj q) ;; match o with OQueue x => ret x | _ => fault end.
Definition set_queue (q : Z) (x : TUYA_QUEUE_T) : W unit := on_own (set_obj q (OQueue x)).
Definition get_item (p : Z) : W (list Z) :=
  o <- on_own (get_obj p) ;; match o with OItem d => ret d | _ => fault end.

(** A fresh allocation comes with the link node inside it; releasing it takes
    both away. *)
Definition new_item (p : Z) (d : list Z) : W unit := fun s =>
  Ret tt (QState (Own (o_alloc (q_own s)) (<[p := OItem d]> (o_objs (q_own s)))) (<[p := mkNode 0 0]> (q_links s))).
Definition new_queue (p : Z) (x : TUYA_QUEUE_T) : W unit := fun s =>
  Ret tt (QState (Own (o_alloc (q_own s)) (<[p := OQueue x]> (o_objs (q_own s)))) (<[head_of p := mkNode 0 0]> (q_links s))).
Definition free_obj (p node : Z) : W unit := fun s =>
  match bind (lift_alloc (al_free p)) (fun _ => drop_obj p) (q_own s) with
  | Ret _ o => Ret tt (QState o (delete node (q_links s)))
  | Fault => Fault
  | Diverge => Diverge
  end.

(** [QUEUE_LOCK], [QUEUE_UNLOCK]: the result of the call is ignored. *)
Definition QUEUE_LOCK (q : Z) : W unit :=
  x <- get_queue q ;; _ <- on_own (tkl_mutex_lock (q_mutex x)) ;; ret tt.
Definition QUEUE_UNLOCK (q : Z) : W unit :=
  x <- get_queue q ;; _ <- on_own (tkl_mutex_unlock (q_mutex x)) ;; ret tt.

(** ** Operations *)

Definition __enqueue (handle : Z) (item : option (list Z)) (policy : ENQUEUE_POLICY_E) : W OPERATE_RET :=
  match item with
  | None => ret OPRT_INVALID_PARM
  | Some src =>
    if (handle =? 0) || match policy with POLICY_MAX => true | _ => false end then ret OPRT_INVALID_PARM
    else
      queue <- get_queue handle ;;
      queue_item <- on_own (lift_alloc (al_malloc (SIZEOF_QUEUE_ITEM_T + q_item_size queue))) ;;
      if queue_item =? 0 then ret OPRT_MALLOC_FAILED
      else
        d <- from_option (copy_item src (q_item_size queue)) ;;
        new_item queue_item d ;;;
        on_links (INIT_LIST_HEAD queue_item) ;;;
        QUEUE_LOCK handle ;;;
        queue <- get_queue handle ;;
        op_ret <- (if 0 <? q_queue_free queue then
                     on_links (match policy with
                               | POLICY_SEND_TO_BACK => tuya_list_add_tail queue_item (head_of handle)
                               | _ => tuya_list_add queue_item (head_of handle)
                               end) ;;;
                     set_queue handle (set_queue_free (u32 (q_queue_free queue - 1)) queue) ;;;
                     ret OPRT_OK
                   else
                     free_obj queue_item queue_item ;;;
                     ret OPRT_EXCEED_UPPER_LIMIT) ;;
        QUEUE_UNLOCK handle ;;;
        ret op_ret
  end.

(** The result, and the handle stored through the argument. *)
Definition tuya_queue_create (env : pthread_env) (queue_len item_size : Z) (handle : bool) : W (OPERATE_RET * Z) :=
  if negb handle || (queue_len =? 0) || (item_size =? 0) then ret (OPRT_INVALID_PARM, 0)
  else
    queue <- on_own (lift_alloc (al_malloc SIZEOF_TUYA_QUEUE_T)) ;;
    if queue =? 0 then ret (OPRT_MALLOC_FAILED, 0)
    else
      new_queue queue (mkQueue 0 0 0 0) ;;;
      r <- on_own (tkl_mutex_create_init env true) ;;
      if negb (bool_decide (fst r = OPRT_OK)) then
        free_obj queue (head_of queue) ;;;
        ret (OPRT_COM_ERROR, 0)
      else
        set_queue queue (mkQueue (snd r) item_size queue_len queue_len) ;;;
        on_links (INIT_LIST_HEAD (head_of queue)) ;;;
        ret (OPRT_OK, queue).

Definition tuya_queue_input (handle : Z) (item : option (list Z)) : W OPERATE_RET :=
  __enqueue handle item POLICY_SEND_TO_BACK.

Definition tuya_queue_input_instant (handle : Z) (item : option (list Z)) : W OPERATE_RET :=
  __enqueue handle item POLICY_SEND_TO_FRONT.

(** The result, and the content of the caller's buffer. *)
Definition tuya_queue_output (handle : Z) (item : option (list Z)) : W (OPERATE_RET * option (list Z)) :=
  if handle =? 0 then ret (OPRT_INVALID_PARM, item)
  else
    QUEUE_LOCK handle ;;;
    queue <- get_queue handle ;;
    r <- (if q_queue_free queue <? q_queue_len queue then
            h <- on_links (rd_node (head_of handle)) ;;
            let queue_item := next h in
            d <- get_item queue_item ;;
            out <- (match item with
                    | Some dst => c <- from_option (copy_item d (q_item_size queue)) ;;
                                  x <- from_option (store_item dst 0 c) ;; ret (Some x)
                    | None => ret None
                    end) ;;
            on_links (tuya_list_del queue_item) ;;;
            free_obj queue_item queue_item ;;;
            set_queue handle (set_queue_free (u32 (q_queue_free queue + 1)) queue) ;;;
            ret (OPRT_OK, out)
          else ret (OPRT_NOT_FOUND, item)) ;;
    QUEUE_UNLOCK handle ;;;
    ret r.

Definition tuya_queue_peek (handle : Z) (item : option (list Z)) : W (OPERATE_RET * option (list Z)) :=
  match item with
  | None => ret (OPRT_INVALID_PARM, None)
  | Some dst =>
    if handle =? 0 then ret (OPRT_INVALID_PARM, item)
    else
      QUEUE_LOCK handle ;;;
      queue <- get_queue handle ;;
      r <- (if q_queue_free queue <? q_queue_len queue then
              h <- on_links (rd_node (head_of handle)) ;;
              d <- get_item (next h) ;;
              c <- from_option (copy_item d (q_item_size queue)) ;;
              x <- from_option (store_item dst 0 c) ;;
              ret (OPRT_OK, Some x)
            else ret (OPRT_NOT_FOUND, item)) ;;
      QUEUE_UNLOCK handle ;;;
      ret r
  end.

(** [tuya_list_for_each] with the callback: the callback sees the data of an item
    and its context, and says whether to go on; it returns its context changed. *)
Fixpoint traverse_loop {C} (fuel : nat) (head p : Z) (cb : list Z -> C -> bool * C) (ctx : C) : W C :=
  match fuel with
  | O => out_of_fuel
  | S fuel' =>
    if negb (p =? 0) && negb (p =? head) then
      d <- get_item p ;;
      let '(go_on, ctx) := cb d ctx in
      if negb go_on then ret ctx
      else
        n <- on_links (rd_node p) ;;
        traverse_loop fuel' head (next n) cb ctx
    else ret ctx
  end.

(** The nodes of all queues bound every walk. *)
Definition walk_fuel (s : qstate A) : nat := S (size (q_links s)).

Definition tuya_queue_traverse {C} (handle : Z) (cb : option (list Z -> C -> bool * C)) (ctx : C) : W (OPERATE_RET * C) :=
  match cb with
  | None => ret (OPRT_INVALID_PARM, ctx)
  | Some f =>
    if handle =? 0 then ret (OPRT_INVALID_PARM, ctx)
    else
      QUEUE_LOCK handle ;;;
      h <- on_links (rd_node (head_of handle)) ;;
      fuel <- gets walk_fuel ;;
      ctx' <- traverse_loop fuel (head_of handle) (next h) f ctx ;;
      QUEUE_UNLOCK handle ;;;
      ret (OPRT_OK, ctx')
  end.

(** [tuya_list_for_each_safe]: [n = p->next] is read before the body runs. *)
Fixpoint clear_loop (fuel : nat) (head p : Z) : W unit :=
  match fuel with
  | O => out_of_fuel
  | S fuel' =>
    n <- on_links (rd_node p) ;;
    if negb (p =? head) then
      on_links (tuya_list_del p) ;;;
      free_obj p p ;;;
      clear_loop fuel' head (next n)
    else ret tt
  end.

Definition tuya_queue_clear (handle : Z) : W OPERATE_RET :=
  if handle =? 0 then ret OPRT_INVALID_PARM
  else
    QUEUE_LOCK handle ;;;
    h <- on_links (rd_node (head_of handle)) ;;
    fuel <- gets walk_fuel ;;
    clear_loop fuel (head_of handle) (next h) ;;;
    queue <- get_queue handle ;;
    set_queue handle (set_queue_free (q_queue_len queue) queue) ;;;
    QUEUE_UNLOCK handle ;;;
    ret OPRT_OK.

(** The loop of [tuya_queue_get_batch]: the positions reached and the buffer. *)
Fixpoint batch_loop (fuel : nat) (head p isize start num index count : Z) (items : list Z) : W (Z * Z * list Z) :=
  match fuel with
  | O => out_of_fuel
  | S fuel' =>
    if negb (p =? 0) && negb (p =? head) then
      if index <? start then
        n <- on_links (rd_node p) ;;
        batch_loop fuel' head (next n) isize start num (u32 (index + 1)) count items
      else if num <=? count then ret (index, count, items)
      else
        d <- get_item p ;;
        c <- from_option (copy_item d isize) ;;
        items <- from_option (store_item items (u32 (count * isize)) c) ;;
        n <- on_links (rd_node p) ;;
        batch_loop fuel' head (next n) isize start num index (u32 (count + 1)) items
    else ret (index, count, items)
  end.

Definition tuya_queue_get_batch (handle start : Z) (items : option (list Z)) (num : Z) : W (OPERATE_RET * option (list Z)) :=
  match items with
  | None => ret (OPRT_INVALID_PARM, None)
  | Some buf =>
    if (handle =? 0) || (num =? 0) then ret (OPRT_INVALID_PARM, items)
    else
      QUEUE_LOCK handle ;;;
      queue <- get_queue handle ;;
      h <- on_links (rd_node (head_of handle)) ;;
      fuel <- gets walk_fuel ;;
      r <- batch_loop fuel (head_of handle) (next h) (q_item_size queue) start num 0 0 buf ;;
      QUEUE_UNLOCK handle ;;;
      (let '(index, count, out) := r in
       if negb (index =? start) || negb (count =? num) then ret (OPRT_NOT_FOUND, Some out)
       else ret (OPRT_OK, Some out))
  end.

(** [while ((count-- > 0) && (OPRT_OK == op_ret))] *)
Fixpoint delete_loop (count : nat) (handle : Z) (op_ret : OPERATE_RET) : W OPERATE_RET :=
  match count with
  | O => ret op_ret
  | S count' =>
    if bool_decide (op_ret = OPRT_OK) then
      r <- tuya_queue_output handle None ;;
      delete_loop count' handle (fst r)
    else ret op_ret
  end.

Definition tuya_queue_delete_batch (handle num : Z) : W OPERATE_RET :=
  if (handle =? 0) || (num =? 0) then ret OPRT_INVALID_PARM
  else delete_loop (Z.to_nat num) handle OPRT_OK.

Definition tuya_queue_get_free_num (handle : Z) : W Z :=
  if handle =? 0 then ret 0 else queue <- get_queue handle ;; ret (q_queue_free queue).

Definition tuya_queue_get_used_num (handle : Z) : W Z :=
  if handle =? 0 then ret 0
  else
    QUEUE_LOCK handle ;;;
    queue <- get_queue handle ;;
    let used_num := u32 (q_queue_len queue - q_queue_free queue) in
    QUEUE_UNLOCK handle ;;;
    ret used_num.

Definition tuya_queue_get_max_num (handle : Z) : W Z :=
  if handle =? 0 then ret 0 else queue <- get_queue handle ;; ret (q_queue_len queue).

Definition tuya_queue_release (handle : Z) : W OPERATE_RET :=
  if handle =? 0 then ret OPRT_INVALID_PARM
  else
    _ <- tuya_queue_clear handle ;;
    queue <- get_queue handle ;;
    op_ret <- on_own (tkl_mutex_release (q_mutex queue)) ;;
    free_obj handle (head_of handle) ;;;
    ret op_ret.
End Queue.
