(* ===== verification/QueueProps.v ===== *)
(** * The item queue implements a bounded double-ended queue of items

    The abstract specification is a list of items with a capacity: input appends
    at the back, instant input at the front, output takes from the front.  The
    representation predicate [qrep] ties it to the queue object, the ring of its
    nodes, the item allocations and the mutex. *)

From S2P Require Import Prelude CMem MemHeap MemHeapInv MemHeapFacts MemHeapProps MemHeapStore Alloc DList TklMutex Queue.

Record aqueue := AQueue { a_cap : Z; a_isz : Z; a_items : list (list Z) }.

Section Rep.
Context {A : Type} `{!Allocator A}.
Local Abbreviation qstate := (qstate A).

Lemma wp_on_own {R} (c : M (owned A qobj) R) Q s :
  wp c (fun r o => Q r (QState o (q_links s))) (q_own s) -> wp (on_own c) Q s.
Proof. unfold wp, on_own. by destruct (c (q_own s)). Qed.
Lemma wp_on_links {R} (c : M links R) Q (s : qstate) :
  wp c (fun r l => Q r (QState (q_own s) l)) (q_links s) -> wp (on_links c) Q s.
Proof. unfold wp, on_links. by destruct (c (q_links s)). Qed.

(** The content of an item. *)
Definition item_at (s : qstate) (isz n : Z) (d : list Z) : Prop :=
  o_objs (q_own s) !! n = Some (OItem d) /\ Z.of_nat (length d) = isz.

(** The queue [a] is at [q], with mutex [mx] at depth [dep], nodes [ns] and free
    count [fr]. *)
Record qrepf (dep fr : Z) (s : qstate) (q mx : Z) (ns : list Z) (a : aqueue) : Prop := {
  qr_owned : owned_ok obj_size (q_own s);
  qr_null : o_objs (q_own s) !! 0 = None;
  qr_queue : o_objs (q_own s) !! q = Some (OQueue (mkQueue mx (a_isz a) (a_cap a) fr));
  qr_mutex : mutex_at (q_own s) mx dep;
  qr_ring : dlist (q_links s) (head_of q) ns;
  qr_items : Forall2 (item_at s (a_isz a)) ns (a_items a);
  qr_cap : Z.of_nat (length (a_items a)) <= a_cap a < 4294967296;
  qr_isz : 0 < a_isz a /\ SIZEOF_QUEUE_ITEM_T + a_isz a < 4294967296
}.

(** Between operations the free count is what the items leave. *)
Abbreviation qrep dep s q mx ns a := (qrepf dep (a_cap a - Z.of_nat (length (a_items a))) s q mx ns a).

Lemma qrep_nz dep fr s q mx ns a : qrepf dep fr s q mx ns a -> q <> 0 /\ mx <> 0.
Proof. intros [_ H0 Hq Hm _ _ _ _]. unfold mutex_at in Hm. split; intros ->; congruence. Qed.

Lemma qrep_ne dep fr s q mx ns a : qrepf dep fr s q mx ns a -> mx <> q.
Proof. intros [_ _ Hq Hm _ _ _ _] ->. unfold mutex_at in Hm. by rewrite Hq in Hm. Qed.

Lemma items_at_lookup s isz ns items n : Forall2 (item_at s isz) ns items -> n ∈ ns -> exists d, d ∈ items /\ item_at s isz n d.
Proof. intros HF. induction HF as [|m d ns items Hi HF IH]; [set_solver|]. intros [->|Hn]%elem_of_cons; [exists d; set_solver|]. destruct (IH Hn) as (d' & ? & ?). exists d'. set_solver. Qed.

(** Items depend on their own objects only. *)
Lemma items_at_frame (s s' : qstate) isz ns items :
  (forall n, n ∈ ns -> o_objs (q_own s') !! n = o_objs (q_own s) !! n) ->
  Forall2 (item_at s isz) ns items -> Forall2 (item_at s' isz) ns items.
Proof.
  intros Hf HF. induction HF as [|m d ns items [Hi Hl] HF IH]; constructor; [|apply IH; set_solver].
  split; [|done]. rewrite Hf; [done|left].
Qed.

Lemma qrep_node_ne dep fr s q mx ns a n : qrepf dep fr s q mx ns a -> n ∈ ns -> n <> q /\ n <> mx /\ n <> 0.
Proof.
  intros [_ H0 Hq Hm _ Hi _ _] Hn. destruct (items_at_lookup _ _ _ _ _ Hi Hn) as (d & _ & Hd & _).
  unfold mutex_at in Hm. cbn in Hm. split_and!; intros ->; congruence.
Qed.

(** ** The mutex *)

Lemma qrep_put_mutex dep dep' fr s q mx ns a :
  qrepf dep fr s q mx ns a -> qrepf dep' fr (QState (put_mutex (q_own s) mx dep') (q_links s)) q mx ns a.
Proof.
  intros Hr. pose proof (qrep_ne _ _ _ _ _ _ _ Hr) as Hne. pose proof (qrep_nz _ _ _ _ _ _ _ Hr) as [_ Hmx].
  assert (forall n, n ∈ ns -> n <> mx) as Hns by (intros n Hn; by eapply qrep_node_ne in Hn as (_ & ? & _)).
  destruct Hr as [Ho H0 Hq Hm Hd Hi Hc Hz]. split; try done.
  - eapply owned_ok_update; [done|exact Hm|done].
  - cbn. by rewrite lookup_insert_ne.
  - cbn. by rewrite lookup_insert_ne.
  - apply mutex_at_put.
  - eapply items_at_frame; [|done]. intros n Hn. cbn. rewrite lookup_insert_ne; [done|]. intros <-. by apply (Hns mx).
Qed.

Lemma wp_get_queue dep fr s q mx ns a Q :
  qrepf dep fr s q mx ns a -> Q (mkQueue mx (a_isz a) (a_cap a) fr) s -> wp (get_queue q) Q s.
Proof.
  intros Hr HQ. unfold get_queue. apply wp_bind, wp_on_own. eapply wp_get_obj; [apply Hr|]. apply wp_ret. by destruct s.
Qed.

Lemma queue_lock_spec s q mx ns a Q :
  qrep 0 s q mx ns a -> (forall s', qrep 1 s' q mx ns a -> (forall x, x <> mx -> o_objs (q_own s') !! x = o_objs (q_own s) !! x) ->
    q_links s' = q_links s -> Q tt s') -> wp (QUEUE_LOCK q) Q s.
Proof.
  intros Hr HQ. pose proof (qrep_nz _ _ _ _ _ _ _ Hr) as [_ Hmx]. unfold QUEUE_LOCK. apply wp_bind. eapply wp_get_queue; [done|].
  apply wp_bind, wp_on_own. eapply mutex_lock_spec; [done|apply Hr|]. apply wp_ret, HQ; [by eapply qrep_put_mutex| |done].
  intros x Hx. cbn. by rewrite lookup_insert_ne.
Qed.

Lemma queue_unlock_spec' s q mx ns a Q :
  qrep 1 s q mx ns a -> (forall s', qrep 0 s' q mx ns a -> (forall x, x <> mx -> o_objs (q_own s') !! x = o_objs (q_own s) !! x) -> Q tt s') ->
  wp (QUEUE_UNLOCK q) Q s.
Proof.
  intros Hr HQ. pose proof (qrep_nz _ _ _ _ _ _ _ Hr) as [_ Hmx]. unfold QUEUE_UNLOCK. apply wp_bind. eapply wp_get_queue; [done|].
  apply wp_bind, wp_on_own. eapply mutex_unlock_spec; [done|apply Hr|done|]. apply wp_ret, HQ; [by eapply qrep_put_mutex|].
  intros x Hx. cbn. by rewrite lookup_insert_ne.
Qed.

Lemma queue_unlock_spec s q mx ns a Q :
  qrep 1 s q mx ns a -> (forall s', qrep 0 s' q mx ns a -> Q tt s') -> wp (QUEUE_UNLOCK q) Q s.
Proof. intros Hr HQ. eapply queue_unlock_spec'; [done|]. auto. Qed.

(** ** A new item *)

(** A fresh item object whose node is not linked yet. *)
Lemma qrep_new_item s q mx ns a p o d :
  qrep 0 s q mx ns a -> p <> 0 -> o_objs (q_own s) !! p = None -> Z.of_nat (length d) = a_isz a ->
  owned_ok obj_size (Own o (<[p := OItem d]> (o_objs (q_own s)))) ->
  forall l, dlist l (head_of q) ns ->
  let s' := QState (Own o (<[p := OItem d]> (o_objs (q_own s)))) l in
  qrep 0 s' q mx ns a /\ item_at s' (a_isz a) p d /\ p ∉ head_of q :: ns /\ p <> q /\ p <> mx.
Proof.
  intros Hr Hp Hfresh Hlen Hown l Hl s'. assert (forall x, is_Some (o_objs (q_own s) !! x) -> x <> p) as Hne by (intros x [y Hy] ->; congruence).
  assert (q <> p) as Hqp by (apply Hne; eexists; apply Hr). assert (mx <> p) as Hmp by (apply Hne; eexists; apply Hr).
  assert (p ∉ head_of q :: ns) as Hni.
  { intros [Hh|Hn]%elem_of_cons.
    - destruct (owned_disjoint obj_size _ p (OItem d) q (OQueue (mkQueue mx (a_isz a) (a_cap a) (a_cap a - Z.of_nat (length (a_items a))))) Hown); cbn; try done.
      + by rewrite lookup_insert_eq.
      + rewrite lookup_insert_ne by done. apply Hr.
      + cbn in *. unfold head_of, SIZEOF_QUEUE_ITEM_T in *. lia.
      + cbn in *. unfold head_of, SIZEOF_TUYA_QUEUE_T in *. lia.
    - destruct (items_at_lookup _ _ _ _ _ (qr_items _ _ _ _ _ _ _ Hr) Hn) as (d' & _ & Hd' & _). congruence. }
  split; [|split; [split; [cbn; by rewrite lookup_insert_eq|done]|done]].
  destruct Hr as [Ho H0 Hq Hm Hd Hi Hc Hz]. split; try done.
  - cbn. by rewrite lookup_insert_ne.
  - cbn. by rewrite lookup_insert_ne.
  - unfold mutex_at in *. cbn. by rewrite lookup_insert_ne.
  - eapply items_at_frame; [|done]. intros n Hn. cbn. rewrite lookup_insert_ne; [done|]. intros ->. set_solver.
Qed.

(** ** Linking and dropping items *)

Lemma qrep_relink dep fr s q mx ns a l' ns' items' :
  qrepf dep fr s q mx ns a -> dlist l' (head_of q) ns' -> Forall2 (item_at s (a_isz a)) ns' items' ->
  Z.of_nat (length items') <= a_cap a ->
  qrep dep (QState (Own (o_alloc (q_own s)) (<[q := OQueue (mkQueue mx (a_isz a) (a_cap a) (a_cap a - Z.of_nat (length items')))]> (o_objs (q_own s)))) l')
    q mx ns' (AQueue (a_cap a) (a_isz a) items').
Proof.
  intros Hr Hl HF Hlen. pose proof (qrep_ne _ _ _ _ _ _ _ Hr) as Hne. pose proof (qrep_nz _ _ _ _ _ _ _ Hr) as [Hq0 _].
  destruct Hr as [Ho H0 Hq Hm Hd Hi Hc Hz]. split; try done.
  - eapply owned_ok_update; [done|exact Hq|done].
  - cbn. by rewrite lookup_insert_ne.
  - cbn. by rewrite lookup_insert_eq.
  - unfold mutex_at in *. cbn. by rewrite lookup_insert_ne.
  - eapply items_at_frame; [|done]. intros n Hn. cbn. rewrite lookup_insert_ne; [done|]. intros <-.
    destruct (items_at_lookup _ _ _ _ _ HF Hn) as (d & _ & Hd' & _). congruence.
  - cbn. lia.
Qed.

Lemma qrep_drop dep fr s q mx ns a p o' :
  qrepf dep fr s q mx ns a -> p ∉ head_of q :: ns -> p <> q -> p <> mx ->
  owned_ok obj_size o' -> o_objs o' = delete p (o_objs (q_own s)) ->
  qrepf dep fr (QState o' (delete p (q_links s))) q mx ns a.
Proof.
  intros [Ho H0 Hq Hm Hd Hi Hc Hz] Hp Hpq Hpm Hown Eobj. split; try done; cbn; unfold mutex_at in *; rewrite ?Eobj.
  - by apply lookup_delete_None; right.
  - by rewrite lookup_delete_ne.
  - by rewrite lookup_delete_ne.
  - eapply (dlist_frame [p]); [|set_solver|done]. intros x Hx. apply lookup_delete_ne. set_solver.
  - eapply items_at_frame; [|done]. intros n Hn. cbn. rewrite Eobj, lookup_delete_ne; [done|]. set_solver.
Qed.

Lemma free_item_spec dep fr s q mx ns a p d Q :
  qrepf dep fr s q mx ns a -> o_objs (q_own s) !! p = Some (OItem d) -> p ∉ head_of q :: ns ->
  (forall s', qrepf dep fr s' q mx ns a -> (forall x, x <> p -> o_objs (q_own s') !! x = o_objs (q_own s) !! x) ->
     (forall x, x <> p -> q_links s' !! x = q_links s !! x) -> Q tt s') ->
  wp (free_obj p p) Q s.
Proof.
  intros Hr Hp Hni HQ. assert (p <> q /\ p <> mx) as [Hpq Hpm].
  { destruct Hr as [_ _ Hq Hm _ _ _ _]. unfold mutex_at in Hm. cbn in Hm. split; intros ->; congruence. }
  pose proof (free_obj_spec obj_size (q_own s) p _ (qr_owned _ _ _ _ _ _ _ Hr) Hp) as Hw.
  unfold wp at 1, free_obj. unfold wp in Hw. destruct (bind _ _ (q_own s)) as [u o| |]; try done. destruct Hw as [Hown Eobj].
  apply HQ; [by eapply qrep_drop|..]; intros x Hx; cbn; [rewrite Eobj|]; by rewrite lookup_delete_ne.
Qed.

(** ** Input *)

Definition a_push (policy : ENQUEUE_POLICY_E) (d : list Z) (a : aqueue) : aqueue :=
  AQueue (a_cap a) (a_isz a) (match policy with POLICY_SEND_TO_BACK => a_items a ++ [d] | _ => d :: a_items a end).

Definition has_queue (s : qstate) (q : Z) (a : aqueue) : Prop := exists mx ns, qrep 0 s q mx ns a.

Lemma copy_item_spec src n : 0 <= n <= Z.of_nat (length src) -> copy_item src n = Some (take (Z.to_nat n) src).
Proof. intros Hn. unfold copy_item. rewrite (proj2 (Z.leb_le 0 n)), (proj2 (Z.leb_le n _)) by lia. done. Qed.

(** Linking an allocated item into the locked queue. *)
Lemma link_item_spec s q mx ns a p d policy Q :
  qrep 1 s q mx ns a -> item_at s (a_isz a) p d -> p ∉ head_of q :: ns -> is_Some (q_links s !! p) ->
  Z.of_nat (length (a_items a)) < a_cap a ->
  (forall s' ns', qrep 1 s' q mx ns' (a_push policy d a) -> Q OPRT_OK s') ->
  wp (on_links (match policy with
                | POLICY_SEND_TO_BACK => tuya_list_add_tail p (head_of q)
                | _ => tuya_list_add p (head_of q)
                end) ;;;
      set_queue q (set_queue_free (u32 (a_cap a - Z.of_nat (length (a_items a)) - 1))
        (mkQueue mx (a_isz a) (a_cap a) (a_cap a - Z.of_nat (length (a_items a))))) ;;;
      ret OPRT_OK) Q s.
Proof.
  intros Hr Hit Hni Hsome Hroom HQ. pose proof (qr_cap _ _ _ _ _ _ _ Hr) as Hcap.
  assert (forall l' ns' items', dlist l' (head_of q) ns' -> Forall2 (item_at s (a_isz a)) ns' items' ->
    length items' = S (length (a_items a)) -> (forall s', qrep 1 s' q mx ns' (AQueue (a_cap a) (a_isz a) items') -> Q OPRT_OK s') ->
    wp (set_queue q (set_queue_free (u32 (a_cap a - Z.of_nat (length (a_items a)) - 1))
        (mkQueue mx (a_isz a) (a_cap a) (a_cap a - Z.of_nat (length (a_items a))))) ;;; ret OPRT_OK) Q (QState (q_own s) l')) as Hset.
  { intros l' ns' items' Hd HF Hlen HQ'. apply wp_bind, wp_on_own. eapply wp_set_obj; [apply Hr|]. apply wp_ret, HQ'. cbn [q_own q_links].
    replace (set_queue_free _ _) with (mkQueue mx (a_isz a) (a_cap a) (a_cap a - Z.of_nat (length items')))
      by (unfold set_queue_free; cbn; rewrite u32_small by lia; f_equal; lia).
    eapply qrep_relink; try done. lia. }
  apply wp_bind, wp_on_links. destruct policy.
  - eapply list_add_tail_spec; [apply Hr|done|done|]. intros l' Hd _. eapply (Hset _ _ (a_items a ++ [d])); [exact Hd| | |].
    + apply Forall2_app; [apply Hr|]. by constructor.
    + rewrite length_app. cbn. lia.
    + intros s' Hr'. by eapply HQ.
  - eapply list_add_spec; [apply Hr|done|done|]. intros l' Hd _. eapply (Hset _ _ (d :: a_items a)); [exact Hd| |done|].
    + constructor; [done|apply Hr].
    + intros s' Hr'. by eapply HQ.
  - eapply list_add_spec; [apply Hr|done|done|]. intros l' Hd _. eapply (Hset _ _ (d :: a_items a)); [exact Hd| |done|].
    + constructor; [done|apply Hr].
    + intros s' Hr'. by eapply HQ.
Qed.

(** What an input may return: the item is in, or the queue is full, or there is
    no memory. *)
Definition input_ok (policy : ENQUEUE_POLICY_E) (d : list Z) (a : aqueue) (r : OPERATE_RET) (a' : aqueue) : Prop :=
  (r = OPRT_OK /\ a' = a_push policy d a /\ Z.of_nat (length (a_items a)) < a_cap a) \/
  (r = OPRT_EXCEED_UPPER_LIMIT /\ a' = a /\ Z.of_nat (length (a_items a)) = a_cap a) \/
  (r = OPRT_MALLOC_FAILED /\ a' = a).

Lemma enqueue_spec s q a item policy :
  has_queue s q a -> policy <> POLICY_MAX -> a_isz a <= Z.of_nat (length item) ->
  wp (__enqueue q (Some item) policy) (fun r s' => exists a',
    input_ok policy (take (Z.to_nat (a_isz a)) item) a r a' /\ has_queue s' q a') s.
Proof.
  intros (mx & ns & Hr) Hpol Hlen. pose proof (qrep_nz _ _ _ _ _ _ _ Hr) as [Hq0 _].
  pose proof (qr_isz _ _ _ _ _ _ _ Hr) as [Hz1 Hz2]. pose proof (qr_cap _ _ _ _ _ _ _ Hr) as Hcap. set (d := take (Z.to_nat (a_isz a)) item).
  assert (Z.of_nat (length d) = a_isz a) as Hdl by (unfold d; rewrite length_take; lia).
  unfold __enqueue. rewrite (proj2 (Z.eqb_neq q 0)) by done. replace (false || _) with false by (by destruct policy).
  apply wp_bind. eapply wp_get_queue; [done|]. cbn [q_item_size]. apply wp_bind, wp_on_own.
  eapply (malloc_obj_spec obj_size); [apply Hr|unfold SIZEOF_QUEUE_ITEM_T in *; lia| |].
  { intros o Ho. apply wp_ret. exists a. split; [by right; right|]. exists mx, ns. destruct Hr; split; try done. }
  intros p o Hp Hfresh Ho. rewrite (proj2 (Z.eqb_neq p 0)) by done. apply wp_bind. rewrite copy_item_spec by lia. apply wp_ret. fold d.
  apply wp_bind. unfold wp at 1, new_item. cbn [q_own o_alloc o_objs q_links].
  assert (owned_ok obj_size (Own o (<[p := OItem d]> (o_objs (q_own s))))) as Hown by (apply Ho; cbn; unfold SIZEOF_QUEUE_ITEM_T; lia).
  assert (p ∉ head_of q :: ns) as Hni by (by eapply (qrep_new_item s q mx ns a p o d); [..|apply Hr]).
  apply wp_bind, wp_on_links. apply list_init_spec; [cbn; rewrite lookup_insert_eq; by eexists|]. intros l1 Hd1 Hs1. cbn [q_own q_links] in *.
  assert (dlist l1 (head_of q) ns) as Hl1.
  { eapply (dlist_frame [p]); [| |apply Hr]; [|set_solver]. intros x Hx. rewrite Hs1 by done. apply lookup_insert_ne. set_solver. }
  destruct (qrep_new_item s q mx ns a p o d Hr Hp Hfresh Hdl Hown l1 Hl1) as (Hr1 & Hit1 & _ & Hpq & Hpm).
  apply wp_bind. apply (queue_lock_spec _ _ _ _ _ _ Hr1). intros s2 Hr2 Hobj2 Hlk2.
  assert (item_at s2 (a_isz a) p d) as Hit2 by (destruct Hit1 as [Hit1 _]; split; [by rewrite Hobj2|done]).
  apply wp_bind. eapply wp_get_queue; [done|]. cbn [q_queue_free]. apply wp_bind.
  destruct (Z.ltb_spec 0 (a_cap a - Z.of_nat (length (a_items a)))) as [Hroom|Hfull].
  - eapply link_item_spec; try done; [rewrite Hlk2; cbn; apply (dlist_node _ _ _ _ Hd1); left|lia|]. intros s3 ns3 Hr3.
    apply wp_bind. apply (queue_unlock_spec _ _ _ _ _ _ Hr3). intros s4 Hr4. apply wp_ret.
    exists (a_push policy d a). split; [left; split_and!; try done; lia|]. by exists mx, ns3.
  - apply wp_bind. eapply free_item_spec; [exact Hr2|apply Hit2|done|]. intros s3 Hr3 _ _. apply wp_ret.
    apply wp_bind. apply (queue_unlock_spec _ _ _ _ _ _ Hr3). intros s4 Hr4. apply wp_ret.
    exists a. split; [right; left; split_and!; try done; lia|]. by exists mx, ns.
Qed.

(** ** Output *)

Lemma store_item_spec dst d : (length d <= length dst)%nat -> store_item dst 0 d = Some (d ++ drop (length d) dst).
Proof. intros Hl. unfold store_item. rewrite (proj2 (Z.leb_le (0 + _) _)) by lia. done. Qed.

(** The first node and item of a queue that is not empty. *)
Lemma qrep_first dep fr s q mx ns a d items :
  qrepf dep fr s q mx ns a -> a_items a = d :: items ->
  exists n ns', ns = n :: ns' /\ nxt (q_links s) (head_of q) = Some n /\ item_at s (a_isz a) n d /\ Forall2 (item_at s (a_isz a)) ns' items.
Proof.
  intros Hr E. pose proof (qr_items _ _ _ _ _ _ _ Hr) as HF. rewrite E in HF. inversion HF as [|n ? ns' ? Hn HF']; subst.
  exists n, ns'. split; [done|]. destruct (dlist_ends _ _ _ (qr_ring _ _ _ _ _ _ _ Hr)) as [En _]. done.
Qed.

Lemma wp_get_item s isz n d Q : item_at s isz n d -> Q d s -> wp (get_item n) Q s.
Proof. intros [Hd _] HQ. unfold get_item. apply wp_bind, wp_on_own. eapply wp_get_obj; [done|]. apply wp_ret. by destruct s. Qed.

Lemma wp_rd_head (s : qstate) p n Q : nxt (q_links s) p = Some n -> (forall nd, next nd = n -> Q nd s) -> wp (on_links (rd_node p)) Q s.
Proof. intros (nd & Hnd & En)%nxt_Some HQ. apply wp_on_links. eapply wp_rd_node; [done|]. destruct s. by apply HQ. Qed.

(** The caller's buffer after an item is copied to it. *)
Definition received (d : list Z) (item : option (list Z)) : option (list Z) := (fun dst => d ++ drop (length d) dst) <$> item.

(** Unlinking and releasing the first item of the locked queue. *)
Lemma unlink_first_spec fr s q mx n ns a d items Q :
  qrepf 1 fr s q mx (n :: ns) a -> a_items a = d :: items ->
  (forall s', qrepf 1 fr s' q mx ns (AQueue (a_cap a) (a_isz a) items) -> Q tt s') ->
  wp (on_links (tuya_list_del n) ;;; free_obj n n) Q s.
Proof.
  intros Hr E HQ. destruct (qrep_first _ _ _ _ _ _ _ _ _ Hr E) as (n' & ns' & [= <- <-] & _ & Hn & HF).
  pose proof (qr_ring _ _ _ _ _ _ _ Hr) as Hd. pose proof Hd as [Hnd _].
  assert (n ∉ head_of q :: ns) as Hni.
  { apply NoDup_cons in Hnd as [Hh [Hn' _]%NoDup_cons]. set_solver. }
  apply wp_bind, wp_on_links. eapply (list_del_spec _ _ [] n ns); [exact Hd|]. intros l' Hl' Hs'. cbn [app] in *.
  assert (qrepf 1 fr (QState (q_own s) l') q mx ns (AQueue (a_cap a) (a_isz a) items)) as Hr'.
  { destruct Hr as [? ? ? ? ? ? Hc ?]. split; try done. cbn. rewrite E in Hc. cbn in Hc. lia. }
  eapply free_item_spec; [exact Hr'|apply Hn|done|]. intros s2 Hr2 _ _. by apply HQ.
Qed.

Lemma output_spec s q a item :
  has_queue s q a -> (forall dst, item = Some dst -> a_isz a <= Z.of_nat (length dst)) ->
  wp (tuya_queue_output q item) (fun r s' => match a_items a with
    | [] => r = (OPRT_NOT_FOUND, item) /\ has_queue s' q a
    | d :: items => r = (OPRT_OK, received d item) /\ has_queue s' q (AQueue (a_cap a) (a_isz a) items)
    end) s.
Proof.
  intros (mx & ns & Hr) Hbuf. pose proof (qrep_nz _ _ _ _ _ _ _ Hr) as [Hq0 _]. unfold tuya_queue_output. rewrite (proj2 (Z.eqb_neq q 0)) by done.
  apply wp_bind. apply (queue_lock_spec _ _ _ _ _ _ Hr). intros s1 Hr1 _ _. apply wp_bind. eapply wp_get_queue; [done|]. cbn [q_queue_free q_queue_len q_item_size].
  pose proof (qr_cap _ _ _ _ _ _ _ Hr1) as Hcap. destruct (a_items a) as [|d items] eqn:E; cbn [length] in *.
  { rewrite (proj2 (Z.ltb_ge _ _)) by lia. apply wp_bind, wp_ret, wp_bind.
    assert (qrep 1 s1 q mx ns a) as Hr1' by (by rewrite E). apply (queue_unlock_spec _ _ _ _ _ _ Hr1').
    intros s2 Hr2. apply wp_ret. split; [done|]. exists mx, ns. by rewrite E in Hr2 |- *. }
  rewrite (proj2 (Z.ltb_lt _ _)) by lia. apply wp_bind. destruct (qrep_first _ _ _ _ _ _ _ _ _ Hr1 E) as (n & ns' & -> & En & Hit & HF).
  apply wp_bind. eapply wp_rd_head; [done|]. intros nd End. rewrite End. apply wp_bind. eapply wp_get_item; [done|]. apply wp_bind.
  assert (wp (match item with
    | Some dst => c <- from_option (copy_item d (a_isz a)) ;; x <- from_option (store_item dst 0 c) ;; ret (Some x)
    | None => ret None end) (fun out s' => out = received d item /\ s' = s1) s1) as Hcopy.
  { destruct item as [dst|]; [|by apply wp_ret]. specialize (Hbuf dst eq_refl). destruct Hit as [_ Hlen].
    rewrite copy_item_spec, take_ge by lia. apply wp_bind, wp_ret. rewrite store_item_spec by lia. by apply wp_bind, wp_ret, wp_ret. }
  eapply wp_mono; [exact Hcopy|]. intros out s2 [-> ->].
  set (c := set_queue q _). assert (forall Q, (forall s', qrepf 1 (a_cap a - Z.of_nat (S (length items))) s' q mx ns' (AQueue (a_cap a) (a_isz a) items) ->
      wp (c ;;; ret (OPRT_OK, received d item)) Q s') ->
    wp (on_links (tuya_list_del n) ;;; free_obj n n ;;; c ;;; ret (OPRT_OK, received d item)) Q s1) as Hun.
  { intros Q HQ. assert (wp (on_links (tuya_list_del n) ;;; free_obj n n) (fun _ => wp (c ;;; ret (OPRT_OK, received d item)) Q) s1) as Hw by (by eapply unlink_first_spec).
    unfold wp, bind in Hw |- *. destruct (on_links (tuya_list_del n) s1) as [[] s'| |]; try done. destruct (free_obj n n s'); done. }
  apply Hun. intros s2 Hr2. unfold c, set_queue. apply wp_bind, wp_on_own. eapply wp_set_obj; [apply Hr2|]. apply wp_ret. cbn [a_cap a_isz] in *.
  assert (qrep 1 (QState (Own (o_alloc (q_own s2)) (<[q := OQueue (set_queue_free (u32 (a_cap a - Z.of_nat (S (length items)) + 1)) (mkQueue mx (a_isz a) (a_cap a) (a_cap a - Z.of_nat (S (length items)))))]> (o_objs (q_own s2)))) (q_links s2)) q mx ns' (AQueue (a_cap a) (a_isz a) items)) as Hr3.
  { unfold set_queue_free. cbn. rewrite u32_small by lia. replace (a_cap a - Z.of_nat (S (length items)) + 1) with (a_cap a - Z.of_nat (length items)) by lia.
    eapply (qrep_relink _ _ _ _ _ _ _ _ _ _ Hr2); [apply Hr2|apply Hr2|cbn; lia]. }
  apply wp_bind. apply (queue_unlock_spec _ _ _ _ _ _ Hr3). intros s4 Hr4. apply wp_ret. split; [done|]. by exists mx, ns'.
Qed.

(** ** Walks *)

Lemma dlist_size m h l : dlist m h l -> (length l < size m)%nat.
Proof.
  intros Hd. pose proof Hd as [Hnd _]. rewrite <-size_dom. change (length l < size (dom m))%nat with (length (h :: l) <= size (dom m))%nat.
  rewrite <-(size_list_to_set (C := gset Z) (h :: l)) by done. apply subseteq_size. intros p Hp.
  apply elem_of_list_to_set in Hp. apply elem_of_dom. by eapply dlist_node.
Qed.

Lemma qrep_walk_fuel dep fr s q mx ns a : qrepf dep fr s q mx ns a -> (length ns < walk_fuel s)%nat.
Proof. intros Hr. pose proof (dlist_size _ _ _ (qr_ring _ _ _ _ _ _ _ Hr)). unfold walk_fuel. lia. Qed.

(** The node after [n] in the ring, and what the walk sees at [n]. *)
Lemma qrep_step dep fr s q mx l1 n l2 a :
  qrepf dep fr s q mx (l1 ++ n :: l2) a ->
  nxt (q_links s) n = Some (after (head_of q) l2) /\ (negb (n =? 0) && negb (n =? head_of q)) = true.
Proof.
  intros Hr. pose proof (qr_ring _ _ _ _ _ _ _ Hr) as Hd. split; [by apply dlist_del_at in Hd as (? & _)|].
  destruct (qrep_node_ne _ _ _ _ _ _ _ n Hr) as (_ & _ & Hn0); [set_solver|]. destruct Hd as [Hnd _]. apply NoDup_cons in Hnd as [Hh _].
  rewrite (proj2 (Z.eqb_neq n 0)), (proj2 (Z.eqb_neq n (head_of q))); [done| |done]. intros ->. set_solver.
Qed.

Fixpoint a_traverse {C} (cb : list Z -> C -> bool * C) (items : list (list Z)) (ctx : C) : C :=
  match items with
  | [] => ctx
  | d :: r => let '(go_on, ctx) := cb d ctx in if go_on then a_traverse cb r ctx else ctx
  end.

Lemma traverse_loop_spec {C} dep fr s q mx ns a (cb : list Z -> C -> bool * C) :
  qrepf dep fr s q mx ns a -> forall l2 l1 items fuel ctx, ns = l1 ++ l2 -> Forall2 (item_at s (a_isz a)) l2 items -> (length l2 < fuel)%nat ->
  wp (traverse_loop fuel (head_of q) (after (head_of q) l2) cb ctx) (fun c s' => c = a_traverse cb items ctx /\ s' = s) s.
Proof.
  intros Hr l2. induction l2 as [|n l2 IH]; intros l1 items [|fuel] ctx -> HF Hf; cbn in Hf; try lia.
  - inversion HF; subst. cbn [traverse_loop after head default]. cbn. rewrite Z.eqb_refl, andb_false_r. by apply wp_ret.
  - inversion HF as [|? d ? r Hn HF']; subst. destruct (qrep_step _ _ _ _ _ _ _ _ _ Hr) as [En Eb]. cbn [traverse_loop].
    change (after (head_of q) (n :: l2)) with n. rewrite Eb. apply wp_bind. eapply wp_get_item; [done|]. cbn [a_traverse].
    destruct (cb d ctx) as [[] ctx']; cbn [negb]; [|by apply wp_ret].
    apply wp_bind. eapply wp_rd_head; [done|]. intros nd ->. apply (IH (l1 ++ [n])); [by rewrite <-app_assoc|done|lia].
Qed.

Lemma traverse_spec {C} s q a (cb : list Z -> C -> bool * C) ctx :
  has_queue s q a ->
  wp (tuya_queue_traverse q (Some cb) ctx) (fun r s' => r = (OPRT_OK, a_traverse cb (a_items a) ctx) /\ has_queue s' q a) s.
Proof.
  intros (mx & ns & Hr). pose proof (qrep_nz _ _ _ _ _ _ _ Hr) as [Hq0 _]. unfold tuya_queue_traverse. rewrite (proj2 (Z.eqb_neq q 0)) by done.
  apply wp_bind. apply (queue_lock_spec _ _ _ _ _ _ Hr). intros s1 Hr1 _ _.
  apply wp_bind. eapply wp_rd_head; [apply (dlist_ends _ _ _ (qr_ring _ _ _ _ _ _ _ Hr1))|]. intros nd ->. apply wp_bind, wp_gets.
  apply wp_bind. eapply wp_mono; [eapply (traverse_loop_spec _ _ _ _ _ _ _ cb Hr1 ns []); [done|apply Hr1|by eapply qrep_walk_fuel]|].
  intros c s2 [-> ->]. apply wp_bind. apply (queue_unlock_spec _ _ _ _ _ _ Hr1). intros s3 Hr3. apply wp_ret. split; [done|]. by exists mx, ns.
Qed.

Lemma peek_spec s q a dst :
  has_queue s q a -> a_isz a <= Z.of_nat (length dst) ->
  wp (tuya_queue_peek q (Some dst)) (fun r s' => has_queue s' q a /\
    r = match a_items a with [] => (OPRT_NOT_FOUND, Some dst) | d :: _ => (OPRT_OK, received d (Some dst)) end) s.
Proof.
  intros (mx & ns & Hr) Hbuf. pose proof (qrep_nz _ _ _ _ _ _ _ Hr) as [Hq0 _]. unfold tuya_queue_peek. rewrite (proj2 (Z.eqb_neq q 0)) by done.
  apply wp_bind. apply (queue_lock_spec _ _ _ _ _ _ Hr). intros s1 Hr1 _ _. apply wp_bind. eapply wp_get_queue; [done|]. cbn [q_queue_free q_queue_len q_item_size].
  pose proof (qr_cap _ _ _ _ _ _ _ Hr1) as Hcap. apply wp_bind.
  assert (forall r : OPERATE_RET * option (list Z), wp (QUEUE_UNLOCK q ;;; ret r) (fun r' s' => has_queue s' q a /\ r' = r) s1) as Hend.
  { intros r. apply wp_bind. apply (queue_unlock_spec _ _ _ _ _ _ Hr1). intros s2 Hr2. apply wp_ret. split; [by exists mx, ns|done]. }
  destruct (a_items a) as [|d items] eqn:E; cbn [length] in *.
  - rewrite (proj2 (Z.ltb_ge _ _)) by lia. apply wp_ret. apply Hend.
  - rewrite (proj2 (Z.ltb_lt _ _)) by lia. destruct (qrep_first _ _ _ _ _ _ _ _ _ Hr1 E) as (n & ns' & -> & En & Hit & HF).
    apply wp_bind. eapply wp_rd_head; [done|]. intros nd ->. apply wp_bind. eapply wp_get_item; [done|].
    destruct Hit as [_ Hlen]. rewrite copy_item_spec, take_ge by lia. apply wp_bind, wp_ret. rewrite store_item_spec by lia.
    apply wp_bind, wp_ret, wp_ret. apply Hend.
Qed.

(** The batch copied out of [items]: the caller's buffer with the items from
    [count] on. *)
Definition batch_buf (isz : Z) (count : Z) (got : list (list Z)) (buf : list Z) : list Z :=
  take (Z.to_nat (count * isz)) buf ++ concat got ++ drop (Z.to_nat ((count + Z.of_nat (length got)) * isz)) buf.

Lemma batch_loop_spec dep fr s q mx ns a start num :
  qrepf dep fr s q mx ns a -> 0 <= start < 4294967296 -> 0 <= num ->
  forall l2 l1 items fuel index count buf, ns = l1 ++ l2 -> Forall2 (item_at s (a_isz a)) l2 items -> (length l2 < fuel)%nat ->
  0 <= index <= start -> 0 <= count <= num -> num * a_isz a <= Z.of_nat (length buf) < 4294967296 ->
  let got := take (Z.to_nat (num - count)) (drop (Z.to_nat (start - index)) items) in
  wp (batch_loop fuel (head_of q) (after (head_of q) l2) (a_isz a) start num index count buf)
    (fun r s' => s' = s /\ r = (Z.min start (index + Z.of_nat (length items)), count + Z.of_nat (length got), batch_buf (a_isz a) count got buf)) s.
Proof.
  intros Hr Hst Hnum. pose proof (qr_isz _ _ _ _ _ _ _ Hr) as [Hz _].
  assert (forall count buf, 0 <= count -> batch_buf (a_isz a) count [] buf = buf) as Hnil.
  { intros count buf Hc. unfold batch_buf. cbn [concat length app]. rewrite Z.add_0_r. apply take_drop. }
  intros l2. induction l2 as [|n l2 IH]; intros l1 items [|fuel] index count buf -> HF Hf Hi Hc Hb got; cbn in Hf; try lia.
  - inversion HF; subst. cbn [batch_loop]. cbn. rewrite Z.eqb_refl, andb_false_r. apply wp_ret. split; [done|].
    unfold got. rewrite drop_nil, take_nil. cbn. rewrite Hnil by lia. f_equal. f_equal; lia.
  - inversion HF as [|? d ? r [Hn Hlen] HF']; subst items. destruct (qrep_step _ _ _ _ _ _ _ _ _ Hr) as [En Eb]. cbn [batch_loop].
    change (after (head_of q) (n :: l2)) with n. rewrite Eb. subst. destruct (Z.ltb_spec index start) as [Hsk|Hcp].
    + apply wp_bind. eapply wp_rd_head; [done|]. intros nd ->. rewrite u32_small by lia.
      eapply wp_mono; [apply (IH (l1 ++ [n]) r); [by rewrite <-app_assoc|done|lia..]|]. intros x s' [-> ->]. split; [done|].
      unfold got. replace (Z.to_nat (start - index)) with (S (Z.to_nat (start - (index + 1)))) by lia. cbn [drop length]. f_equal. f_equal. lia.
    + assert (index = start) as -> by lia. unfold got. rewrite Z.sub_diag. change (Z.to_nat 0) with 0%nat. rewrite ?drop_0.
      destruct (Z.leb_spec num count) as [Hdone|Hmore].
      * apply wp_ret. split; [done|]. replace (num - count) with 0 by lia. change (Z.to_nat 0) with 0%nat. cbn [take length]. rewrite Hnil by lia. f_equal. f_equal; lia.
      * apply wp_bind. eapply (wp_get_item _ (a_isz a)); [by split|]. assert (0 <= count * a_isz a /\ (count + 1) * a_isz a <= num * a_isz a) as [Hm1 Hm2] by nia.
        rewrite copy_item_spec, take_ge by lia. apply wp_bind, wp_ret. rewrite (u32_small (count * a_isz a)) by lia.
        unfold store_item. rewrite (proj2 (Z.leb_le 0 _)), (proj2 (Z.leb_le (_ + _) _)) by lia. apply wp_bind, wp_ret.
        apply wp_bind. eapply wp_rd_head; [done|]. intros nd ->. rewrite u32_small by nia. set (buf' := take _ buf ++ _).
        assert (length buf' = length buf) as Lb by (unfold buf'; rewrite !length_app, length_take, length_drop; lia).
        eapply wp_mono; [apply (IH (l1 ++ [n]) r); [by rewrite <-app_assoc|done|lia..]|]. intros x s' [-> ->]. split; [done|].
        rewrite Z.sub_diag. change (Z.to_nat 0) with 0%nat. rewrite ?drop_0. replace (Z.to_nat (num - count)) with (S (Z.to_nat (num - (count + 1)))) by lia. cbn [take length].
        set (g := take (Z.to_nat (num - (count + 1))) r). f_equal; [f_equal; lia|].
        unfold batch_buf. cbn [concat length]. unfold buf'.
        rewrite take_app_ge by (rewrite length_take; nia). rewrite length_take.
        replace (Z.to_nat ((count + 1) * a_isz a) - Z.to_nat (count * a_isz a) `min` length buf)%nat with (length d) by nia.
        rewrite take_app_length. rewrite <-!app_assoc. do 3 f_equal.
        rewrite drop_app_ge by (rewrite length_take; nia). rewrite length_take, drop_app_ge by nia. rewrite drop_drop. f_equal. nia.
Qed.

Lemma get_batch_spec s q a start buf num :
  has_queue s q a -> 0 <= start < 4294967296 -> 0 < num -> num * a_isz a <= Z.of_nat (length buf) < 4294967296 ->
  let got := take (Z.to_nat num) (drop (Z.to_nat start) (a_items a)) in
  wp (tuya_queue_get_batch q start (Some buf) num) (fun r s' => has_queue s' q a /\
    r = (if decide (start + num <= Z.of_nat (length (a_items a))) then OPRT_OK else OPRT_NOT_FOUND, Some (batch_buf (a_isz a) 0 got buf))) s.
Proof.
  intros (mx & ns & Hr) Hst Hnum Hb got. pose proof (qrep_nz _ _ _ _ _ _ _ Hr) as [Hq0 _]. unfold tuya_queue_get_batch.
  rewrite (proj2 (Z.eqb_neq q 0)), (proj2 (Z.eqb_neq num 0)) by (done || lia). simpl orb. cbn iota.
  apply wp_bind. apply (queue_lock_spec _ _ _ _ _ _ Hr). intros s1 Hr1 _ _. apply wp_bind. eapply wp_get_queue; [done|]. cbn [q_item_size].
  apply wp_bind. eapply wp_rd_head; [apply (dlist_ends _ _ _ (qr_ring _ _ _ _ _ _ _ Hr1))|]. intros nd ->. apply wp_bind, wp_gets.
  apply wp_bind. eapply wp_mono; [eapply (batch_loop_spec _ _ _ _ _ _ _ start num Hr1 Hst ltac:(lia) ns []); [done|apply Hr1|by eapply qrep_walk_fuel|lia..]|].
  rewrite !Z.sub_0_r. fold got. intros r s2 [-> ->]. apply wp_bind. apply (queue_unlock_spec _ _ _ _ _ _ Hr1). intros s3 Hr3.
  assert (length got = Z.to_nat num `min` (length (a_items a) - Z.to_nat start))%nat as Lg by (unfold got; by rewrite length_take, length_drop).
  destruct (decide (start + num <= Z.of_nat (length (a_items a)))) as [Hin|Hout].
  - rewrite (proj2 (Z.eqb_eq (Z.min _ _) _)), (proj2 (Z.eqb_eq (0 + _) _)) by lia. apply wp_ret. split; [by exists mx, ns|done].
  - replace (negb _ || _) with true; [apply wp_ret; split; [by exists mx, ns|done]|]. symmetry. apply orb_true_iff.
    destruct (decide (start <= Z.of_nat (length (a_items a)))); [right|left]; apply negb_true_iff, Z.eqb_neq; lia.
Qed.

(** ** Clearing *)

Lemma clear_loop_spec q mx : forall ns a fr s fuel Q,
  qrepf 1 fr s q mx ns a -> (length ns < fuel)%nat ->
  (forall s', qrepf 1 fr s' q mx [] (AQueue (a_cap a) (a_isz a) []) ->
     (forall x, x ∉ ns -> o_objs (q_own s') !! x = o_objs (q_own s) !! x) -> (forall x, x ∈ ns -> o_objs (q_own s') !! x = None) -> Q tt s') ->
  wp (clear_loop fuel (head_of q) (after (head_of q) ns)) Q s.
Proof.
  intros ns. induction ns as [|n ns IH]; intros a fr s [|fuel] Q Hr Hf HQ; cbn in Hf; try lia.
  - cbn [clear_loop]. change (after (head_of q) []) with (head_of q). apply wp_bind.
    eapply wp_rd_head; [apply (dlist_ends _ _ _ (qr_ring _ _ _ _ _ _ _ Hr))|]. intros nd _. rewrite Z.eqb_refl. apply wp_ret.
    apply HQ; [|done|set_solver]. pose proof (qr_items _ _ _ _ _ _ _ Hr) as HF. inversion HF as [E|]; subst.
    destruct Hr as [? ? ? ? ? ? ? ?]. split; try done. cbn. lia.
  - pose proof (qr_items _ _ _ _ _ _ _ Hr) as HF. inversion HF as [|? d ? items Hn HF' E1 E2]; subst. symmetry in E2.
    destruct (qrep_step _ _ _ _ _ [] n ns _ Hr) as [En Eb]. cbn [clear_loop]. change (after (head_of q) (n :: ns)) with n.
    apply andb_prop in Eb as [_ Eb]. apply wp_bind. eapply wp_rd_head; [done|]. intros nd ->. rewrite Eb.
    pose proof (qr_ring _ _ _ _ _ _ _ Hr) as Hd. pose proof Hd as [Hnd _].
    assert (n ∉ head_of q :: ns) as Hni by (apply NoDup_cons in Hnd as [Hh [Hn' _]%NoDup_cons]; set_solver).
    apply wp_bind, wp_on_links. eapply (list_del_spec _ _ [] n ns); [exact Hd|]. intros l' Hl' Hs'. cbn [app] in *.
    assert (qrepf 1 fr (QState (q_own s) l') q mx ns (AQueue (a_cap a) (a_isz a) items)) as Hr'.
    { destruct Hr as [? ? ? ? ? ? Hc ?]. split; try done. cbn. rewrite E2 in Hc. cbn in Hc. lia. }
    apply wp_bind. unfold free_obj. pose proof (free_obj_spec obj_size (q_own s) n _ (qr_owned _ _ _ _ _ _ _ Hr) (proj1 Hn)) as Hw.
    unfold wp at 1. cbn [q_own q_links]. unfold wp in Hw. destruct (bind _ _ (q_own s)) as [u o| |]; try done. destruct Hw as [Hown Eobj].
    destruct (qrep_node_ne _ _ _ _ _ _ _ n Hr) as (Hnq & Hnm & _); [left|].
    apply (IH _ fr _ fuel Q (qrep_drop _ _ _ _ _ _ _ _ _ Hr' Hni Hnq Hnm Hown Eobj)); [lia|].
    cbn [a_cap a_isz q_own]. intros s' Hr2 Hout Hin. apply HQ; [done|..]; intros x Hx.
    + rewrite Hout by set_solver. rewrite Eobj. apply lookup_delete_ne. set_solver.
    + destruct (decide (x ∈ ns)) as [?|Hx']; [by apply Hin|]. assert (x = n) as -> by set_solver.
      rewrite Hout by done. rewrite Eobj. by rewrite lookup_delete_eq.
Qed.

(** Clearing the queue keeps everything but its items. *)
Lemma clear_spec s q mx ns a Q :
  qrep 0 s q mx ns a ->
  (forall s', qrep 0 s' q mx [] (AQueue (a_cap a) (a_isz a) []) ->
     (forall x, x ∉ q :: mx :: ns -> o_objs (q_own s') !! x = o_objs (q_own s) !! x) -> (forall x, x ∈ ns -> o_objs (q_own s') !! x = None) -> Q OPRT_OK s') ->
  wp (tuya_queue_clear q) Q s.
Proof.
  intros Hr HQ. pose proof (qrep_nz _ _ _ _ _ _ _ Hr) as [Hq0 _]. unfold tuya_queue_clear. rewrite (proj2 (Z.eqb_neq q 0)) by done.
  apply wp_bind. apply (queue_lock_spec _ _ _ _ _ _ Hr). intros s1 Hr1 Hob1 _.
  apply wp_bind. eapply wp_rd_head; [apply (dlist_ends _ _ _ (qr_ring _ _ _ _ _ _ _ Hr1))|]. intros nd ->. apply wp_bind, wp_gets.
  apply wp_bind. apply (clear_loop_spec q mx ns a _ _ _ _ Hr1); [by eapply qrep_walk_fuel|]. intros s2 Hr2 Hout Hin.
  apply wp_bind. eapply wp_get_queue; [done|]. cbn [q_queue_len a_cap a_isz]. apply wp_bind. unfold set_queue. apply wp_on_own. eapply wp_set_obj; [apply Hr2|].
  pose proof (qrep_relink _ _ _ _ _ _ _ (q_links s2) [] [] Hr2 (qr_ring _ _ _ _ _ _ _ Hr2) (List.Forall2_nil _) ltac:(cbn; pose proof (qr_cap _ _ _ _ _ _ _ Hr2); cbn in *; lia)) as Hr3.
  unfold set_queue_free. cbn [q_mutex q_item_size q_queue_len a_cap a_isz length] in *. change (Z.of_nat 0) with 0 in Hr3. rewrite !Z.sub_0_r in Hr3.
  assert (qrep 1 (QState (Own (o_alloc (q_own s2)) (<[q := OQueue (mkQueue mx (a_isz a) (a_cap a) (a_cap a))]> (o_objs (q_own s2)))) (q_links s2)) q mx [] (AQueue (a_cap a) (a_isz a) [])) as Hr3'.
  { cbn [a_cap a_items length]. change (Z.of_nat 0) with 0. by rewrite Z.sub_0_r. }
  apply wp_bind. apply (queue_unlock_spec' _ _ _ _ _ _ Hr3'). intros s4 Hr4 Hob4. apply wp_ret. apply HQ; [done|..]; intros x Hx.
  - rewrite Hob4 by set_solver. cbn. rewrite lookup_insert_ne by set_solver. rewrite Hout by set_solver. apply Hob1. set_solver.
  - destruct (qrep_node_ne _ _ _ _ _ _ _ x Hr Hx) as (Hxq & Hxm & _). rewrite Hob4 by done. cbn. rewrite lookup_insert_ne by done. by apply Hin.
Qed.

Lemma delete_batch_spec s q a num :
  has_queue s q a -> 0 < num ->
  wp (tuya_queue_delete_batch q num) (fun r s' =>
    r = (if decide (num <= Z.of_nat (length (a_items a))) then OPRT_OK else OPRT_NOT_FOUND) /\
    has_queue s' q (AQueue (a_cap a) (a_isz a) (drop (Z.to_nat num) (a_items a)))) s.
Proof.
  intros Hq Hn. assert (q <> 0) as Hq0 by (destruct Hq as (mx & ns & Hr); by apply (qrep_nz _ _ _ _ _ _ _ Hr)).
  unfold tuya_queue_delete_batch. rewrite (proj2 (Z.eqb_neq q 0)), (proj2 (Z.eqb_neq num 0)) by (done || lia). simpl orb. cbn iota.
  assert (forall k s a, has_queue s q a -> wp (delete_loop k q OPRT_OK) (fun r s' =>
    r = (if decide (k <= length (a_items a))%nat then OPRT_OK else OPRT_NOT_FOUND) /\
    has_queue s' q (AQueue (a_cap a) (a_isz a) (drop k (a_items a)))) s) as Hloop.
  { clear. intros k. induction k as [|k IH]; intros s a Hq; cbn [delete_loop].
    - apply wp_ret. rewrite decide_True by lia. split; [done|]. rewrite drop_0. by destruct a.
    - rewrite bool_decide_true by done. apply wp_bind. eapply wp_mono; [by apply output_spec|]. intros r s1.
      destruct (a_items a) as [|d items] eqn:E.
      + intros [-> Hq1]. cbn [fst]. assert (delete_loop k q OPRT_NOT_FOUND = ret OPRT_NOT_FOUND) as ->.
        { destruct k; [done|]. cbn [delete_loop]. by rewrite bool_decide_false. }
        apply wp_ret. rewrite decide_False by (cbn; lia). split; [done|]. rewrite drop_nil, <-E. by destruct a.
      + intros [-> Hq1]. cbn [fst]. eapply wp_mono; [by apply IH|]. cbn [a_items a_cap a_isz length drop]. intros r s2 [-> Hq2].
        split; [|done]. repeat case_decide; done || lia. }
  eapply wp_mono; [by apply Hloop|]. intros r s' [-> Hq']. split; [|done]. repeat case_decide; done || lia.
Qed.

(** ** The specification of sequences of calls *)

Inductive qop :=
| QInput (item : list Z)
| QInstant (item : list Z)
| QOutput (item : option (list Z))
| QPeek (dst : list Z)
| QClear
| QBatch (start : Z) (buf : list Z) (num : Z)
| QDelete (num : Z)
| QFree
| QUsed
| QMax.

(** The code or number a call returns, and the caller's buffer. *)
Abbreviation qres := (OPERATE_RET * Z * option (list Z))%type.

Definition a_used (a : aqueue) : Z := Z.of_nat (length (a_items a)).
Definition with_items (a : aqueue) (items : list (list Z)) : aqueue := AQueue (a_cap a) (a_isz a) items.

Inductive qstep : qop -> aqueue -> qres -> aqueue -> Prop :=
| as_input item a r a' :
    input_ok POLICY_SEND_TO_BACK (take (Z.to_nat (a_isz a)) item) a r a' -> qstep (QInput item) a (r, 0, None) a'
| as_instant item a r a' :
    input_ok POLICY_SEND_TO_FRONT (take (Z.to_nat (a_isz a)) item) a r a' -> qstep (QInstant item) a (r, 0, None) a'
| as_output_empty item a : a_items a = [] -> qstep (QOutput item) a (OPRT_NOT_FOUND, 0, item) a
| as_output item a d items :
    a_items a = d :: items -> qstep (QOutput item) a (OPRT_OK, 0, received d item) (with_items a items)
| as_peek_empty dst a : a_items a = [] -> qstep (QPeek dst) a (OPRT_NOT_FOUND, 0, Some dst) a
| as_peek dst a d items : a_items a = d :: items -> qstep (QPeek dst) a (OPRT_OK, 0, received d (Some dst)) a
| as_clear a : qstep QClear a (OPRT_OK, 0, None) (with_items a [])
| as_batch start buf num a :
    qstep (QBatch start buf num) a
      (if decide (start + num <= a_used a) then OPRT_OK else OPRT_NOT_FOUND, 0,
       Some (batch_buf (a_isz a) 0 (take (Z.to_nat num) (drop (Z.to_nat start) (a_items a))) buf)) a
| as_delete num a :
    qstep (QDelete num) a (if decide (num <= a_used a) then OPRT_OK else OPRT_NOT_FOUND, 0, None)
      (with_items a (drop (Z.to_nat num) (a_items a)))
| as_free a : qstep QFree a (OPRT_OK, a_cap a - a_used a, None) a
| as_used a : qstep QUsed a (OPRT_OK, a_used a, None) a
| as_max a : qstep QMax a (OPRT_OK, a_cap a, None) a.

Inductive qsteps : list qop -> aqueue -> list qres -> aqueue -> Prop :=
| ass_nil a : qsteps [] a [] a
| ass_cons o ops a r a' rs a'' : qstep o a r a' -> qsteps ops a' rs a'' -> qsteps (o :: ops) a (r :: rs) a''.

(** The caller's buffers hold the items, and the arguments are [uint32_t]. *)
Definition qop_ok (isz : Z) (o : qop) : Prop :=
  match o with
  | QInput d | QInstant d | QPeek d => isz <= Z.of_nat (length d)
  | QOutput item => forall d, item = Some d -> isz <= Z.of_nat (length d)
  | QBatch start buf num => 0 <= start < 4294967296 /\ 0 < num /\ num * isz <= Z.of_nat (length buf) < 4294967296
  | QDelete num => 0 < num < 4294967296
  | _ => True
  end.

Definition exec_qop (q : Z) (o : qop) : M qstate qres :=
  match o with
  | QInput d => r <- tuya_queue_input q (Some d) ;; ret (r, 0, None)
  | QInstant d => r <- tuya_queue_input_instant q (Some d) ;; ret (r, 0, None)
  | QOutput item => r <- tuya_queue_output q item ;; ret (fst r, 0, snd r)
  | QPeek d => r <- tuya_queue_peek q (Some d) ;; ret (fst r, 0, snd r)
  | QClear => r <- tuya_queue_clear q ;; ret (r, 0, None)
  | QBatch start buf num => r <- tuya_queue_get_batch q start (Some buf) num ;; ret (fst r, 0, snd r)
  | QDelete num => r <- tuya_queue_delete_batch q num ;; ret (r, 0, None)
  | QFree => n <- tuya_queue_get_free_num q ;; ret (OPRT_OK, n, None)
  | QUsed => n <- tuya_queue_get_used_num q ;; ret (OPRT_OK, n, None)
  | QMax => n <- tuya_queue_get_max_num q ;; ret (OPRT_OK, n, None)
  end.

Fixpoint exec_qops (q : Z) (ops : list qop) : M qstate (list qres) :=
  match ops with
  | [] => ret []
  | o :: ops' => r <- exec_qop q o ;; rs <- exec_qops q ops' ;; ret (r :: rs)
  end.

Lemma counters_spec s q a :
  has_queue s q a ->
  wp (tuya_queue_get_free_num q) (fun n s' => n = a_cap a - a_used a /\ has_queue s' q a) s /\
  wp (tuya_queue_get_used_num q) (fun n s' => n = a_used a /\ has_queue s' q a) s /\
  wp (tuya_queue_get_max_num q) (fun n s' => n = a_cap a /\ has_queue s' q a) s.
Proof.
  intros (mx & ns & Hr). pose proof (qrep_nz _ _ _ _ _ _ _ Hr) as [Hq0 _]. pose proof (qr_cap _ _ _ _ _ _ _ Hr).
  unfold tuya_queue_get_free_num, tuya_queue_get_used_num, tuya_queue_get_max_num. rewrite (proj2 (Z.eqb_neq q 0)) by done.
  split; [|split]; apply wp_bind.
  - eapply wp_get_queue; [done|]. apply wp_ret. split; [done|]. by exists mx, ns.
  - apply (queue_lock_spec _ _ _ _ _ _ Hr). intros s1 Hr1 _ _. apply wp_bind. eapply wp_get_queue; [done|].
    apply wp_bind. apply (queue_unlock_spec _ _ _ _ _ _ Hr1). intros s2 Hr2. apply wp_ret. cbn. unfold a_used. rewrite u32_small by lia.
    split; [lia|]. by exists mx, ns.
  - eapply wp_get_queue; [done|]. apply wp_ret. split; [done|]. by exists mx, ns.
Qed.

Lemma exec_qop_spec s q a o :
  has_queue s q a -> qop_ok (a_isz a) o ->
  wp (exec_qop q o) (fun r s' => exists a', qstep o a r a' /\ has_queue s' q a') s.
Proof.
  intros Hq Hok. destruct o as [d|d|item|dst| |start buf num|num| | |]; cbn [exec_qop qop_ok] in *; apply wp_bind.
  - eapply wp_mono; [by eapply enqueue_spec|]. intros r s' (a' & Ha & Hq'). apply wp_ret. exists a'. split; [by constructor|done].
  - eapply wp_mono; [by eapply enqueue_spec|]. intros r s' (a' & Ha & Hq'). apply wp_ret. exists a'. split; [by constructor|done].
  - eapply wp_mono; [by eapply output_spec|]. intros r s' Hres. apply wp_ret. destruct (a_items a) as [|x items] eqn:E; destruct Hres as [-> Hq'].
    + exists a. split; [by constructor|done].
    + eexists. split; [by econstructor|done].
  - eapply wp_mono; [by eapply peek_spec|]. intros r s' [Hq' ->]. apply wp_ret. exists a. split; [|done].
    destruct (a_items a) eqn:E; [by constructor|by econstructor].
  - destruct Hq as (mx & ns & Hr). eapply clear_spec; [done|]. intros s' Hr' _ _. apply wp_ret. eexists. split; [constructor|]. by exists mx, [].
  - destruct Hok as (? & ? & ?). eapply wp_mono; [by eapply get_batch_spec|]. intros r s' [Hq' ->]. apply wp_ret. exists a. split; [constructor|done].
  - eapply wp_mono; [eapply delete_batch_spec; [done|lia]|]. intros r s' [-> Hq']. apply wp_ret. eexists. split; [constructor|done].
  - eapply wp_mono; [by apply counters_spec|]. intros r s' [-> Hq']. apply wp_ret. exists a. split; [constructor|done].
  - eapply wp_mono; [by apply counters_spec|]. intros r s' [-> Hq']. apply wp_ret. exists a. split; [constructor|done].
  - eapply wp_mono; [by apply counters_spec|]. intros r s' [-> Hq']. apply wp_ret. exists a. split; [constructor|done].
Qed.

Lemma qstep_isz o a r a' : qstep o a r a' -> a_isz a' = a_isz a.
Proof. destruct 1 as [? ? ? ? Hi|? ? ? ? Hi| | | | | | | | | |]; try done; destruct Hi as [(_ & -> & _)|[(_ & -> & _)|(_ & ->)]]; done. Qed.

(** C3: any sequence of queue calls whose buffers hold the items they are used
    with returns, and its results and the final queue are those of a bounded
    double-ended queue of items: input appends or is refused when full, instant
    input goes to the front, output and batch deletion take from the front, peek
    and batch reading copy without taking; the mutex is released after each. *)
Theorem queue_refines_deque ops s q a :
  has_queue s q a -> Forall (qop_ok (a_isz a)) ops ->
  wp (exec_qops q ops) (fun rs s' => exists a', qsteps ops a rs a' /\ has_queue s' q a') s.
Proof.
  revert s a. induction ops as [|o ops IH]; intros s a Hq Hops.
  - apply wp_ret. exists a. split; [constructor|done].
  - apply Forall_cons in Hops as [Ho Hops]. cbn [exec_qops]. apply wp_bind. eapply wp_mono; [by eapply exec_qop_spec|].
    intros r s1 (a1 & Ha1 & Hq1). rewrite <-(qstep_isz _ _ _ _ Ha1) in Hops. apply wp_bind. eapply wp_mono; [by eapply IH|].
    intros rs s2 (a2 & Ha2 & Hq2). apply wp_ret. exists a2. split; [by econstructor|done].
Qed.

(** ** Creation and release *)

Definition world_ok (s : qstate) : Prop := owned_ok obj_size (q_own s) /\ o_objs (q_own s) !! 0 = None.

Lemma create_spec s queue_len item_size :
  world_ok s -> 0 < queue_len < 4294967296 -> 0 < item_size -> SIZEOF_QUEUE_ITEM_T + item_size < 4294967296 ->
  wp (tuya_queue_create pthread_ok queue_len item_size true) (fun r s' =>
    (fst r <> OPRT_OK /\ world_ok s' /\ o_objs (q_own s') = o_objs (q_own s)) \/
    (exists q, r = (OPRT_OK, q) /\ o_objs (q_own s) !! q = None /\ has_queue s' q (AQueue queue_len item_size []) /\
       forall x o, o_objs (q_own s) !! x = Some o -> o_objs (q_own s') !! x = Some o)) s.
Proof.
  intros [Ho H0] Hl Hi Hz. unfold tuya_queue_create. cbn [negb orb]. rewrite (proj2 (Z.eqb_neq queue_len 0)), (proj2 (Z.eqb_neq item_size 0)) by lia. cbn iota.
  apply wp_bind, wp_on_own. eapply (malloc_obj_spec obj_size); [done|unfold SIZEOF_TUYA_QUEUE_T; lia| |].
  { intros a Ha. apply wp_ret. left. split; [done|]. done. }
  intros q a Hq Hfresh Ha. rewrite (proj2 (Z.eqb_neq q 0)) by done. apply wp_bind. unfold wp at 1, new_queue. cbn [q_own o_alloc o_objs q_links].
  set (s1 := QState _ _). assert (world_ok s1) as Hw1.
  { split; [apply Ha; cbn; unfold SIZEOF_TUYA_QUEUE_T; lia|]. cbn. by rewrite lookup_insert_ne. }
  apply wp_bind, wp_on_own. eapply (mutex_create_spec obj_size); [by intros; vm_compute|apply Hw1|..].
  - intros o Hown. cbn [fst]. rewrite bool_decide_false by done. cbn [negb]. apply wp_bind.
    pose proof (free_obj_spec obj_size (Own o (o_objs (q_own s1))) q _ Hown (lookup_insert_eq _ _ _)) as Hw.
    unfold wp at 1, free_obj. cbn [q_own q_links]. unfold wp in Hw. destruct (bind _ _ _) as [u o'| |]; try done. destruct Hw as [Hown' Eobj].
    cbn in Eobj. rewrite delete_insert_id in Eobj by done.
    apply wp_ret. left. split; [done|]. unfold world_ok. cbn. rewrite Eobj. done.
  - intros mx o s2 Hmx Hfr -> Hown. cbn [fst snd]. rewrite bool_decide_true by done. cbn [negb]. cbn in Hfr.
    assert (mx <> q) as Hne by (intros ->; by rewrite lookup_insert_eq in Hfr). rewrite lookup_insert_ne in Hfr by done.
    apply wp_bind. unfold set_queue. apply wp_on_own. eapply wp_set_obj; [cbn; rewrite lookup_insert_ne by done; apply lookup_insert_eq|].
    apply wp_bind, wp_on_links. apply list_init_spec; [cbn; rewrite lookup_insert_eq; by eexists|]. intros l Hd Hs. apply wp_ret.
    right. exists q. split; [done|]. split; [done|]. cbn [q_own o_objs o_alloc] in *. split.
    + exists mx, []. split; cbn [q_own q_links a_items a_cap a_isz length o_objs].
      * apply (owned_ok_update obj_size _ q _ (OQueue (mkQueue 0 0 0 0)) Hown); [cbn; rewrite lookup_insert_ne by done; apply lookup_insert_eq|done].
      * rewrite !lookup_insert_ne by done. apply Hw1.
      * rewrite lookup_insert_eq. do 3 f_equal. lia.
      * unfold mutex_at. cbn. rewrite lookup_insert_ne by done. apply lookup_insert_eq.
      * done.
      * constructor.
      * lia.
      * done.
    + intros x v Hx. assert (x <> q /\ x <> mx) as [? ?] by (split; intros ->; congruence).
      rewrite !lookup_insert_ne by done. cbn. by rewrite lookup_insert_ne.
Qed.

(** [tuya_queue_release] returns every allocation of the queue: its items, its
    mutex and itself are gone, whatever it held, and no other object changes. *)
Theorem queue_release_frees_all s q mx ns a :
  qrep 0 s q mx ns a ->
  wp (tuya_queue_release q) (fun r s' => r = OPRT_OK /\ owned_ok obj_size (q_own s') /\
    forall x, o_objs (q_own s') !! x = if decide (x ∈ q :: mx :: ns) then None else o_objs (q_own s) !! x) s.
Proof.
  intros Hr. pose proof (qrep_nz _ _ _ _ _ _ _ Hr) as [Hq0 Hm0]. pose proof (qrep_ne _ _ _ _ _ _ _ Hr) as Hne.
  unfold tuya_queue_release. rewrite (proj2 (Z.eqb_neq q 0)) by done. apply wp_bind. apply (clear_spec _ _ _ _ _ _ Hr). intros s1 Hr1 Hout Hin.
  apply wp_bind. eapply wp_get_queue; [done|]. cbn [q_mutex]. apply wp_bind, wp_on_own. unfold tkl_mutex_release. rewrite (proj2 (Z.eqb_neq mx 0)) by done.
  apply wp_bind. unfold pthread_mutex_destroy. apply wp_bind. eapply wp_get_mutex; [apply Hr1|]. cbn [mx_ready mx_depth Z.ltb Z.compare].
  apply wp_bind. eapply wp_set_obj; [apply Hr1|]. apply wp_ret. cbn [negb Z.eqb]. apply wp_bind.
  eapply wp_mono; [eapply (free_obj_spec obj_size); [eapply owned_ok_update; [apply Hr1|apply Hr1|done]|cbn; apply lookup_insert_eq]|].
  intros [] o2 [Hown2 Eobj2]. cbn in Eobj2. apply wp_ret.
  assert (o_objs o2 !! q = Some (OQueue (mkQueue mx (a_isz a) (a_cap a) (a_cap a - Z.of_nat 0)))) as Hq2.
  { rewrite Eobj2, lookup_delete_ne, lookup_insert_ne by done. apply Hr1. }
  apply wp_bind. unfold wp at 1, free_obj. cbn [q_own q_links].
  pose proof (free_obj_spec obj_size o2 q _ Hown2 Hq2) as Hw. unfold wp in Hw. destruct (bind _ _ o2) as [u o3| |]; try done. destruct Hw as [Hown3 Eobj3].
  apply wp_ret. split; [done|]. split; [done|]. cbn [q_own]. intros x. rewrite Eobj3, Eobj2.
  destruct (decide (x = q)) as [->|Hxq]; [rewrite lookup_delete_eq, decide_True by set_solver; done|]. rewrite lookup_delete_ne by done.
  destruct (decide (x = mx)) as [->|Hxm]; [rewrite lookup_delete_eq, decide_True by set_solver; done|]. rewrite lookup_delete_ne, lookup_insert_ne by done.
  destruct (decide (x ∈ ns)) as [Hx|Hx].
  - rewrite decide_True by set_solver. by apply Hin.
  - rewrite decide_False by set_solver. apply Hout. set_solver.
Qed.

(** [tuya_queue_create] either fails, having released what it had allocated,
    or returns a new handle to an empty queue of the given capacity and item size,
    with its mutex; existing objects are not touched. *)
Theorem queue_create_correct s queue_len item_size :
  world_ok s -> 0 < queue_len < 4294967296 -> 0 < item_size -> SIZEOF_QUEUE_ITEM_T + item_size < 4294967296 ->
  wp (tuya_queue_create pthread_ok queue_len item_size true) (fun r s' =>
    (fst r <> OPRT_OK /\ world_ok s' /\ o_objs (q_own s') = o_objs (q_own s)) \/
    (exists q, r = (OPRT_OK, q) /\ o_objs (q_own s) !! q = None /\ has_queue s' q (AQueue queue_len item_size []) /\
       forall x o, o_objs (q_own s) !! x = Some o -> o_objs (q_own s') !! x = Some o)) s.
Proof. apply create_spec. Qed.
End Rep.

(** ** On the memory heap *)

#[local] Instance demo_allocator : Allocator hstate := heap_allocator 0.
#[local] Opaque demo2.

Definition queue_demo0 : qstate hstate := QState (Own demo2 ∅) ∅.

Lemma queue_demo0_ok : world_ok queue_demo0.
Proof.
  split; [|done]. exists ∅. split; [|intros p o Hp; cbn in Hp; by rewrite lookup_empty in Hp].
  exists (heap_at demo2), (layout demo2), ∅. split; [apply demo2_represents|done].
Qed.

Lemma queue_create_correct_witness :
  wp (tuya_queue_create pthread_ok 3 4 true) (fun r s' =>
    (fst r <> OPRT_OK /\ world_ok s' /\ o_objs (q_own s') = o_objs (q_own queue_demo0)) \/
    (exists q, r = (OPRT_OK, q) /\ o_objs (q_own queue_demo0) !! q = None /\ has_queue s' q (AQueue 3 4 []) /\
       forall x o, o_objs (q_own queue_demo0) !! x = Some o -> o_objs (q_own s') !! x = Some o)) queue_demo0.
Proof. refine (queue_create_correct queue_demo0 3 4 queue_demo0_ok _ _ _); unfold SIZEOF_QUEUE_ITEM_T; lia. Defined.

(** A queue of three items of four bytes. *)
Definition queue_created : outcome (qstate hstate) (OPERATE_RET * Z) := tuya_queue_create pthread_ok 3 4 true queue_demo0.
Definition queue_demo1 : qstate hstate := match queue_created with Ret _ s => s | _ => queue_demo0 end.
Definition queue_ptr : Z := match queue_created with Ret r _ => snd r | _ => 0 end.

Lemma queue_demo1_ok : has_queue queue_demo1 queue_ptr (AQueue 3 4 []).
Proof.
  pose proof (create_spec queue_demo0 3 4 queue_demo0_ok ltac:(lia) ltac:(lia) ltac:(unfold SIZEOF_QUEUE_ITEM_T; lia)) as Hw.
  destruct (proj1 (wp_run _ _ _) Hw) as (r & s' & E & Hres). unfold queue_demo1, queue_ptr. change (queue_created = Ret r s') in E. rewrite E.
  assert (match queue_created with Ret r _ => fst r | _ => OPRT_COM_ERROR end = OPRT_OK) as Eok by (by vm_compute).
  rewrite E in Eok. clear E Hw. destruct Hres as [[Hne _]|(q & -> & _ & Hq & _)]; [exact (False_ind _ (Hne Eok))|exact Hq].
Qed.

Lemma queue_refines_deque_witness :
  let ops := [QInput [1; 2; 3; 4]; QInput [5; 6; 7; 8]; QInstant [9; 9; 9; 9]; QInput [0; 0; 0; 0]; QOutput (Some [0; 0; 0; 0]); QBatch 0 [0; 0; 0; 0; 0; 0; 0; 0] 2; QDelete 5] in
  wp (exec_qops queue_ptr ops) (fun rs s' => exists a', qsteps ops (AQueue 3 4 []) rs a' /\ has_queue s' queue_ptr a') queue_demo1.
Proof.
  intros ops. refine (queue_refines_deque ops queue_demo1 queue_ptr (AQueue 3 4 []) queue_demo1_ok _).
  unfold ops. repeat (apply Forall_cons_2; [cbn; try lia; try (by intros d [= <-]; cbn; lia)|]). constructor.
Defined.

Lemma queue_release_frees_all_witness : exists mx ns,
  wp (tuya_queue_release queue_ptr) (fun r s' => r = OPRT_OK /\ owned_ok obj_size (q_own s') /\
    forall x, o_objs (q_own s') !! x = if decide (x ∈ queue_ptr :: mx :: ns) then None else o_objs (q_own queue_demo1) !! x) queue_demo1.
Proof. destruct queue_demo1_ok as (mx & ns & Hr). exists mx, ns. exact (queue_release_frees_all queue_demo1 queue_ptr mx ns _ Hr). Defined.
