(* ===== verification/Tools.v ===== *)
(** * Byte and string helpers: [include/utilities/src/tuya_tools.c]

    Buffers are lists of bytes; an access outside a buffer is a fault, [None].
    C strings are buffers with a terminating zero.  [char] is signed, as on
    x86-64 Linux, where the code compares plain characters. *)

From S2P Require Import Prelude.

Definition byte (c : Z) : Prop := 0 <= c < 256.

(** ** Definitions *)

Definition __TOLOWER (c : Z) : Z := if (65 <=? c) && (c <=? 90) then c - 65 + 97 else c.

(** [while ((result = __TOLOWER( *p1) - __TOLOWER( *p2)) == 0)] *)
Fixpoint casecmp_loop (p1 p2 : list Z) (cnt n : Z) : option Z :=
  match p1, p2 with
  | c1 :: r1, c2 :: r2 =>
    let result := __TOLOWER c1 - __TOLOWER c2 in
    if result =? 0 then
      let cnt := s32 (cnt + 1) in
      if n <=? u64 cnt then Some result
      else if c1 =? 0 then Some (-1)
      else if c2 =? 0 then Some 1
      else casecmp_loop r1 r2 cnt n
    else Some result
  | _, _ => None
  end.

(** [same] says that the two pointers are equal. *)
Definition tuya_strncasecmp (same : bool) (s1 s2 : list Z) (n : Z) : option Z :=
  if same then Some 0 else casecmp_loop s1 s2 0 n.

Fixpoint strcmp_loop (src dst : list Z) : option Z :=
  match src, dst with
  | c :: src', d :: dst' =>
    let ret := c - d in
    if (ret =? 0) && negb (d =? 0) then strcmp_loop src' dst' else Some ret
  | _, _ => None
  end.

Definition tuya_strcmp (src dst : list Z) : option Z :=
  ret ← strcmp_loop src dst;
  Some (if ret <? 0 then -1 else if 0 <? ret then 1 else ret).

Definition tuya_asc2hex (asccode : Z) : Z :=
  let asccode := swrap 8 asccode in
  u8 (if (48 <=? asccode) && (asccode <=? 57) then asccode - 48
      else if (97 <=? asccode) && (asccode <=? 102) then asccode - 97 + 10
      else if (65 <=? asccode) && (asccode <=? 70) then asccode - 65 + 10
      else 0).

(** [buf[i] = v] *)
Definition put (buf : list Z) (i v : Z) : option (list Z) :=
  if (0 <=? i) && (i <? Z.of_nat (length buf)) then Some (<[Z.to_nat i := v]> buf) else None.
(** [buf[i]] *)
Definition at_ (buf : list Z) (i : Z) : option Z := if 0 <=? i then buf !! Z.to_nat i else None.

Fixpoint ascs2hex_loop (n : nat) (i : Z) (hex ascs : list Z) : option (list Z) :=
  match n with
  | O => Some hex
  | S n' =>
    a ← at_ ascs i;
    b ← at_ ascs (i + 1);
    let h4 := tuya_asc2hex a in
    let l4 := tuya_asc2hex b in
    hex ← put hex (i / 2) (u8 (Z.shiftl h4 4 + l4));
    ascs2hex_loop n' (i + 2) hex ascs
  end.

Definition tuya_ascs2hex (hex ascs : list Z) (srclen : Z) : option (list Z) :=
  let lenstr := if Z.rem srclen 2 =? 0 then srclen else srclen - Z.rem srclen 2 in
  if lenstr =? 0 then Some hex
  else ascs2hex_loop (Z.to_nat (lenstr / 2)) 0 hex ascs.

Definition hex_digit (x : Z) : Z :=
  let dd := swrap 8 (48 + x) in
  u8 (if 57 <? dd then swrap 8 (dd + 7) else dd).

Fixpoint hex2str_loop (n : nat) (i : Z) (str hex : list Z) : option (list Z) :=
  match n with
  | O => Some str
  | S n' =>
    b ← at_ hex i;
    str ← put str (i * 2) (hex_digit (b / 16));
    str ← put str (i * 2 + 1) (hex_digit (b mod 16));
    hex2str_loop n' (i + 1) str hex
  end.

Definition tuya_hex2str (str hex : list Z) (hexlen : Z) : option (list Z) :=
  str ← hex2str_loop (Z.to_nat hexlen) 0 str hex;
  put str (hexlen * 2) 0.

(** The number, when every character is a digit. *)
Fixpoint str2num_loop (n : nat) (i : Z) (str : list Z) (value : Z) : option (option Z) :=
  match n with
  | O => Some (Some value)
  | S n' =>
    c ← at_ str i;
    let c := swrap 8 c in
    if (48 <=? c) && (c <=? 57) then str2num_loop n' (i + 1) str (u32 (value * 10 + (c - 48)))
    else Some None
  end.

Definition tuya_str2num (str : list Z) (strlen : Z) : option (option Z) :=
  str2num_loop (Z.to_nat strlen) 0 str 0.

(** [for (i = index; i < index+len; i++)] with [i] a [uint8_t]: fuel bounds the
    iterations; the loop reports running out of it. *)
Inductive run (A : Type) := Done (a : A) | OutOfBounds | Running.
Arguments Done {A}. Arguments OutOfBounds {A}. Arguments Running {A}.

Fixpoint intArray_loop (fuel : nat) (intArray : list Z) (i bound num : Z) : run Z :=
  match fuel with
  | O => Running
  | S fuel' =>
    if i <? bound then
      match at_ intArray i with
      | Some d => intArray_loop fuel' intArray (u8 (i + 1)) bound (u32 (u32 (num * 10) + d))
      | None => OutOfBounds
      end
    else Done num
  end.

Definition tuya_intArray2int (fuel : nat) (intArray : list Z) (index len : Z) : run Z :=
  if len <=? index then Done (u32 (-1))
  else intArray_loop fuel intArray (u8 index) (u32 (index + len)) 0.

(** [do { tmp /= 10; i++; } while (tmp != 0)]: at most 10 rounds for 32 bits. *)
Fixpoint count_digits (fuel : nat) (tmp i : Z) : Z :=
  match fuel with
  | O => i
  | S fuel' =>
    let tmp := tmp / 10 in
    let i := u8 (i + 1) in
    if tmp =? 0 then i else count_digits fuel' tmp i
  end.

Fixpoint put_digits (fuel : nat) (tmp i : Z) (intArray : list Z) : option (Z * list Z) :=
  match fuel with
  | O => Some (i, intArray)
  | S fuel' =>
    if tmp =? 0 then Some (i, intArray)
    else
      intArray ← put intArray i (tmp mod 10);
      put_digits fuel' (tmp / 10) (u8 (i + 1)) intArray
  end.

Fixpoint reverse_loop (n : nat) (i len : Z) (buf : list Z) : option (list Z) :=
  match n with
  | O => Some buf
  | S n' =>
    tmp ← at_ buf i;
    x ← at_ buf (len - 1 - i);
    buf ← put buf i x;
    buf ← put buf (len - 1 - i) tmp;
    reverse_loop n' (i + 1) len buf
  end.

Definition tuya_buff_reverse (buf : list Z) (len : Z) : option (list Z) :=
  reverse_loop (Z.to_nat (len / 2)) 0 len buf.

Definition digits_fuel : nat := 10.

(** The result and the array. *)
Definition tuya_int2intArray (num : Z) (intArray : list Z) (len : Z) : option (Z * list Z) :=
  let i := count_digits digits_fuel num 0 in
  if len <? i then Some (0, intArray)
  else
    r ← put_digits digits_fuel num 0 intArray;
    a ← tuya_buff_reverse (snd r) (u16 (fst r));
    Some (fst r, a).

Fixpoint data_reverse_loop (n : nat) (i max_len : Z) (dst src : list Z) : option (list Z) :=
  match n with
  | O => Some dst
  | S n' =>
    let max_len := u16 (max_len - 1) in
    v ← at_ src max_len;
    dst ← put dst i v;
    data_reverse_loop n' (i + 1) max_len dst src
  end.

Definition tuya_data_reverse (dst src : list Z) (srclen : Z) : option (list Z) :=
  data_reverse_loop (Z.to_nat srclen) 0 srclen dst src.

(** [strlen] *)
Fixpoint c_strlen (s : list Z) : option Z :=
  match s with
  | [] => None
  | c :: r => if c =? 0 then Some 0 else n ← c_strlen r; Some (n + 1)
  end.

Fixpoint find_char_loop (n : nat) (str : list Z) (i ch : Z) : option Z :=
  match n with
  | O => Some (-2)
  | S n' =>
    if 0 <=? i then
      c ← at_ str i;
      if c =? ch then Some i else find_char_loop n' str (i - 1) ch
    else Some (-2)
  end.

Definition tuya_find_char_with_reverse_idx (str : option (list Z)) (index ch : Z) : option Z :=
  match str with
  | None => Some (-1)
  | Some s =>
    len ← c_strlen s;
    if len <=? index then Some (-1)
    else find_char_loop (Z.to_nat (len - index)) s (len - 1 - index) ch
  end.

(** One pass of [tuya_byte_sort]: [for (i = 0; i < len-j; i++)] on the list. *)
Fixpoint bubble (ascend : bool) (n : nat) (buf : list Z) : list Z :=
  match n, buf with
  | S n', a :: b :: r =>
    if (if ascend then b <? a else a <? b)
    then b :: bubble ascend n' (a :: r)
    else a :: bubble ascend n' (b :: r)
  | _, _ => buf
  end.

Fixpoint sort_loop (ascend : bool) (m : nat) (buf : list Z) : list Z :=
  match m with
  | O => buf
  | S m' => sort_loop ascend m' (bubble ascend m buf)
  end.

(** [for (j = 1; j < len; j++)]: the passes have [len-1], [len-2], ..., [1]
    comparisons, and the first of them reads [buf[len-1]]. *)
Definition tuya_byte_sort (is_ascend : Z) (buf : list Z) (len : Z) : option (list Z) :=
  if (1 <? len) && (Z.of_nat (length buf) <? len) then None
  else Some (sort_loop (negb (is_ascend =? 0)) (Z.to_nat (len - 1)) buf).

Fixpoint bit1_loop (fuel : nat) (num count : Z) : Z :=
  match fuel with
  | O => count
  | S fuel' => if num =? 0 then count else bit1_loop fuel' (Z.land num (u32 (num - 1))) (u32 (count + 1))
  end.

Definition tuya_bit1_count (num : Z) : Z := bit1_loop 33 num 0.

Fixpoint lzc_loop (fuel : nat) (temp count : Z) : Z :=
  match fuel with
  | O => count
  | S fuel' =>
    if Z.land temp 0x80000000 =? 0 then count
    else lzc_loop fuel' (u32 (Z.shiftl temp 1)) (u32 (count + 1))
  end.

Definition tuya_leading_zeros_count (num : Z) : Z := lzc_loop 33 (u32 (Z.lnot num)) 0.

Definition check_sum (w : Z) (buf : list Z) : Z := foldl (fun sum b => wrap w (sum + b)) 0 buf.
Definition tuya_check_sum8 (buf : list Z) (len : Z) : option Z :=
  if Z.of_nat (length buf) <? len then None else Some (check_sum 8 (take (Z.to_nat len) buf)).
Definition tuya_check_sum16 (buf : list Z) (len : Z) : option Z :=
  if Z.of_nat (length buf) <? len then None else Some (check_sum 16 (take (Z.to_nat len) buf)).
