(* ===== verification/ToolsProps.v ===== *)
(** * The helpers of [tuya_tools.c] compute what they are named after

    Round trips of the hexadecimal and decimal conversions, sorting, comparison
    and bit counting, against plain reference definitions on lists. *)

From stdpp Require Import sorting.
From S2P Require Import Prelude Tools.

(** ** Buffers *)

Lemma put_spec buf i v : 0 <= i < Z.of_nat (length buf) -> put buf i v = Some (<[Z.to_nat i := v]> buf).
Proof. intros Hi. unfold put. rewrite (proj2 (Z.leb_le 0 i)), (proj2 (Z.ltb_lt i _)) by lia. done. Qed.

Lemma at_spec buf i : 0 <= i < Z.of_nat (length buf) -> at_ buf i = Some (buf !!! Z.to_nat i).
Proof. intros Hi. unfold at_. rewrite (proj2 (Z.leb_le 0 i)) by lia. apply list_lookup_lookup_total_lt. lia. Qed.

Lemma insert_total (l : list Z) i v x : (i < length l)%nat -> <[i := v]> l !!! x = if decide (x = i) then v else l !!! x.
Proof.
  intros Hi. case_decide as E; [subst; by apply list_lookup_total_insert_eq|]. by rewrite list_lookup_total_insert_ne.
Qed.

(** ** Hexadecimal *)

Lemma asc2hex_digit x : 0 <= x < 16 -> tuya_asc2hex (hex_digit x) = x.
Proof.
  intros Hx. assert (forallb (fun n => tuya_asc2hex (hex_digit (Z.of_nat n)) =? Z.of_nat n) (seq 0 16) = true) as Hall by (by vm_compute).
  rewrite forallb_forall in Hall. specialize (Hall (Z.to_nat x)). rewrite Z2Nat.id in Hall by lia. apply Z.eqb_eq, Hall. apply in_seq. lia.
Qed.

Lemma hex2str_loop_spec hex n : forall i str,
  0 <= i -> i + Z.of_nat n <= Z.of_nat (length hex) -> 2 * (i + Z.of_nat n) <= Z.of_nat (length str) ->
  exists s, hex2str_loop n i str hex = Some s /\ length s = length str /\
    (forall k, i <= k < i + Z.of_nat n ->
       s !!! Z.to_nat (2 * k) = hex_digit (hex !!! Z.to_nat k / 16) /\ s !!! Z.to_nat (2 * k + 1) = hex_digit (hex !!! Z.to_nat k mod 16)) /\
    (forall x, Z.of_nat x < 2 * i -> s !!! x = str !!! x).
Proof.
  induction n as [|n IH]; intros i str Hi Hh Hs; cbn [hex2str_loop].
  - exists str. split; [done|]. split; [done|]. split; [lia|done].
  - rewrite at_spec by lia. cbn [mbind option_bind]. rewrite put_spec by lia. cbn [mbind option_bind]. rewrite put_spec by (rewrite length_insert; lia). cbn [mbind option_bind].
    destruct (IH (i + 1) (<[Z.to_nat (i * 2 + 1) := hex_digit (hex !!! Z.to_nat i mod 16)]> (<[Z.to_nat (i * 2) := hex_digit (hex !!! Z.to_nat i / 16)]> str)))
      as (s & E & Ls & Hin & Hout); [lia|lia|rewrite !length_insert; lia|].
    exists s. rewrite !length_insert in Ls. split; [done|]. split; [done|]. split.
    + intros k Hk. destruct (decide (k = i)) as [->|Hne]; [|apply Hin; lia].
      rewrite !Hout by lia. rewrite !insert_total by (rewrite ?length_insert; lia). repeat case_decide; split; done || lia.
    + intros x Hx. rewrite Hout by lia. rewrite !insert_total by (rewrite ?length_insert; lia). repeat case_decide; done || lia.
Qed.

Lemma ascs2hex_loop_spec ascs n : forall i hex,
  0 <= i -> 2 * (i + Z.of_nat n) <= Z.of_nat (length ascs) -> i + Z.of_nat n <= Z.of_nat (length hex) ->
  exists h, ascs2hex_loop n (2 * i) hex ascs = Some h /\ length h = length hex /\
    forall x, h !!! x = if decide (i <= Z.of_nat x < i + Z.of_nat n)
      then u8 (Z.shiftl (tuya_asc2hex (ascs !!! Z.to_nat (2 * Z.of_nat x))) 4 + tuya_asc2hex (ascs !!! Z.to_nat (2 * Z.of_nat x + 1))) else hex !!! x.
Proof.
  induction n as [|n IH]; intros i hex Hi Ha Hh; cbn [ascs2hex_loop].
  - exists hex. split; [done|]. split; [done|]. intros x. case_decide; [lia|done].
  - rewrite (at_spec ascs (2 * i)), (at_spec ascs (2 * i + 1)) by lia. cbn [mbind option_bind].
    replace (2 * i / 2) with i by (rewrite Z.mul_comm, Z.div_mul; lia). rewrite put_spec by lia. cbn [mbind option_bind].
    replace (2 * i + 2) with (2 * (i + 1)) by lia.
    edestruct (IH (i + 1)) as (h & E & Lh & Hx); [lia| | |]; [| |exists h; split; [exact E|]]; rewrite ?length_insert; [lia..|].
    rewrite length_insert in Lh. split; [done|]. intros x. rewrite Hx, insert_total by lia.
    repeat case_decide; subst; try lia; try done. rewrite !Z2Nat.id by lia. done.
Qed.

(** Writing a byte string in hexadecimal with [tuya_hex2str] and reading it
    back with [tuya_ascs2hex] gives the bytes, for every string that fits the
    buffers, and the rest of the buffer is untouched. *)
Theorem hex_roundtrip hex str out :
  Forall byte hex -> 2 * Z.of_nat (length hex) < Z.of_nat (length str) -> (length hex <= length out)%nat ->
  exists s, tuya_hex2str str hex (Z.of_nat (length hex)) = Some s /\
    tuya_ascs2hex out s (2 * Z.of_nat (length hex)) = Some (hex ++ drop (length hex) out).
Proof.
  intros Hb Hs Ho. unfold tuya_hex2str, tuya_ascs2hex. rewrite Nat2Z.id.
  destruct (hex2str_loop_spec hex (length hex) 0 str) as (s & -> & Ls & Hin & _); [lia..|]. cbn [mbind option_bind].
  rewrite put_spec by lia. eexists. split; [reflexivity|].
  rewrite (Z.mul_comm 2), Z.rem_mul by lia. rewrite Z.eqb_refl, Z.div_mul, Nat2Z.id by lia.
  destruct (Z.eqb_spec (Z.of_nat (length hex) * 2) 0) as [E|E].
  { destruct hex; cbn in *; [done|lia]. }
  edestruct (ascs2hex_loop_spec (<[Z.to_nat (Z.of_nat (length hex) * 2) := 0]> s) (length hex) 0 out) as (h & Eh & Lh & Hx); [lia|rewrite length_insert; lia|lia|].
  change (2 * 0) with 0 in Eh. rewrite Eh. f_equal. apply list_eq_total; [rewrite length_app, length_drop; lia|].
  intros x Hxl. rewrite Hx. case_decide as Hlt.
  - rewrite lookup_total_app_l by lia. destruct (Hin (Z.of_nat x)) as [E1 E2]; [lia|]. rewrite Nat2Z.id in E1, E2.
    rewrite !insert_total by lia. rewrite !decide_False by lia. rewrite E1, E2.
    rewrite Forall_forall in Hb. assert (byte (hex !!! x)) as Hbx by (apply Hb, list_elem_of_lookup_total_2; lia). unfold byte in Hbx.
    pose proof (Z.div_mod (hex !!! x) 16). pose proof (Z.mod_pos_bound (hex !!! x) 16).
    pose proof (Z.div_le_upper_bound (hex !!! x) 16 15). pose proof (Z.div_pos (hex !!! x) 16).
    rewrite !asc2hex_digit by lia. rewrite Z.shiftl_mul_pow2 by lia. change (2 ^ 4) with 16. rewrite u8_small by lia. lia.
  - rewrite lookup_total_app_r by lia. rewrite lookup_total_drop. f_equal. lia.
Qed.

Lemma hex_roundtrip_witness : exists s, tuya_hex2str (repeat 0 9) [0; 255; 26; 163] 4 = Some s /\
  tuya_ascs2hex [1; 2; 3; 4; 5] s 8 = Some [0; 255; 26; 163; 5].
Proof.
  refine (hex_roundtrip [0; 255; 26; 163] (repeat 0 9) [1; 2; 3; 4; 5] _ _ _); [repeat (apply Forall_cons_2; [unfold byte; lia|]); constructor|cbn; lia|cbn; lia].
Defined.

(** ** Decimal digits *)

(** The digits of a number, least significant first. *)
Fixpoint lsd (fuel : nat) (n : Z) : list Z :=
  match fuel with
  | O => []
  | S fuel' => if n =? 0 then [] else n mod 10 :: lsd fuel' (n / 10)
  end.
Definition digits (n : Z) : list Z := reverse (lsd digits_fuel n).

Lemma div10 n f : 0 <= n < 10 ^ Z.of_nat (S f) -> 0 <= n / 10 < 10 ^ Z.of_nat f.
Proof.
  rewrite Nat2Z.inj_succ, Z.pow_succ_r by lia. intros Hn. split; [apply Z.div_pos; lia|]. apply Z.div_lt_upper_bound; lia.
Qed.

Lemma lsd_length_le f n : (length (lsd f n) <= f)%nat.
Proof. revert n. induction f as [|f IH]; intros n; cbn [lsd]; [done|]. zcase; cbn [length]; [lia|]. specialize (IH (n / 10)). lia. Qed.

Lemma lsd_value f n : 0 <= n < 10 ^ Z.of_nat f -> foldr (fun d a => a * 10 + d) 0 (lsd f n) = n.
Proof.
  revert n. induction f as [|f IH]; intros n Hn; cbn [lsd]; [cbn in *; lia|]. zcase; [done|]. cbn [foldr]. rewrite IH by (by apply div10).
  pose proof (Z.div_mod n 10). lia.
Qed.

Lemma count_digits_spec f n i : n <> 0 -> 0 <= n < 10 ^ Z.of_nat f -> 0 <= i -> i + Z.of_nat f < 256 ->
  count_digits f n i = i + Z.of_nat (length (lsd f n)).
Proof.
  revert n i. induction f as [|f IH]; intros n i H0 Hn Hi Hf; cbn [lsd count_digits]; [cbn in *; lia|].
  rewrite (proj2 (Z.eqb_neq n 0)) by done. cbn [length]. rewrite u8_small by lia. zcase.
  - destruct f; cbn [lsd]; rewrite ?Heqb; [cbn; lia|]. replace (n / 10) with 0 by lia. cbn. lia.
  - rewrite IH; [lia|done|by apply div10|lia..].
Qed.

Lemma put_digits_spec f : forall n i arr, 0 <= n < 10 ^ Z.of_nat f -> 0 <= i -> i + Z.of_nat f < 256 ->
  i + Z.of_nat (length (lsd f n)) <= Z.of_nat (length arr) ->
  put_digits f n i arr = Some (i + Z.of_nat (length (lsd f n)), take (Z.to_nat i) arr ++ lsd f n ++ drop (Z.to_nat i + length (lsd f n)) arr).
Proof.
  induction f as [|f IH]; intros n i arr Hn Hi Hf Hl; cbn [lsd put_digits] in *.
  - cbn. rewrite Z.add_0_r, Nat.add_0_r, take_drop. done.
  - zcase; cbn [length] in *.
    + cbn. rewrite Z.add_0_r, Nat.add_0_r, take_drop. done.
    + rewrite put_spec by lia. cbn [mbind option_bind]. rewrite u8_small by lia. rewrite IH; [|by apply div10|lia|lia|rewrite length_insert; lia].
      f_equal. f_equal; [lia|]. replace (Z.to_nat (i + 1)) with (S (Z.to_nat i)) by lia.
      rewrite drop_insert_lt by lia. rewrite (take_S_r _ _ (n mod 10)) by (rewrite list_lookup_insert_eq; [done|lia]).
      rewrite take_insert_ge by lia. rewrite <-(assoc_L (++)). cbn [app]. do 4 f_equal. lia.
Qed.

Lemma reverse_loop_spec len n : forall i buf, 0 <= i -> 2 * (i + Z.of_nat n) <= len -> len <= Z.of_nat (length buf) ->
  exists b, reverse_loop n i len buf = Some b /\ length b = length buf /\
    forall x, b !!! x = if decide (i <= Z.of_nat x < i + Z.of_nat n \/ len - i - Z.of_nat n <= Z.of_nat x < len - i)
      then buf !!! Z.to_nat (len - 1 - Z.of_nat x) else buf !!! x.
Proof.
  induction n as [|n IH]; intros i buf Hi Hl Hb; cbn [reverse_loop].
  - exists buf. split; [done|]. split; [done|]. intros x. case_decide; [lia|done].
  - rewrite !at_spec by lia. cbn [mbind option_bind]. rewrite put_spec by lia. cbn [mbind option_bind].
    rewrite put_spec by (rewrite length_insert; lia). cbn [mbind option_bind].
    edestruct (IH (i + 1)) as (b & E & Lb & Hx); [lia|lia| |exists b; split; [exact E|]]; rewrite ?length_insert; [lia|].
    rewrite !length_insert in Lb. split; [done|]. intros x. rewrite Hx.
    rewrite !insert_total by (rewrite ?length_insert; lia). repeat case_decide; subst; try lia; try done; f_equal; lia.
Qed.

Lemma buff_reverse_spec buf len : 0 <= len <= Z.of_nat (length buf) ->
  tuya_buff_reverse buf len = Some (reverse (take (Z.to_nat len) buf) ++ drop (Z.to_nat len) buf).
Proof.
  intros Hl. unfold tuya_buff_reverse. pose proof (Z.div_mod len 2). pose proof (Z.mod_pos_bound len 2).
  destruct (reverse_loop_spec len (Z.to_nat (len / 2)) 0 buf) as (b & -> & Lb & Hx); [lia..|]. f_equal.
  apply list_eq_total; [rewrite length_app, length_reverse, length_take, length_drop; lia|].
  intros x Hxl. rewrite Hx. destruct (decide (Z.of_nat x < len)) as [Hlt|Hge].
  - rewrite lookup_total_app_l by (rewrite length_reverse, length_take; lia).
    rewrite (list_lookup_total_alt (reverse _)), reverse_lookup by (rewrite length_take; lia). rewrite length_take, <-list_lookup_total_alt, lookup_total_take_lt by lia.
    case_decide; f_equal; lia.
  - rewrite lookup_total_app_r by (rewrite length_reverse, length_take; lia). rewrite length_reverse, length_take, lookup_total_drop.
    case_decide; [lia|]. f_equal. lia.
Qed.

Lemma intArray_loop_spec arr f : forall i bound num,
  0 <= i <= bound -> bound <= 255 -> bound <= Z.of_nat (length arr) -> Z.of_nat f > bound - i ->
  intArray_loop f arr i bound num = Done (foldl (fun n d => u32 (u32 (n * 10) + d)) num (take (Z.to_nat (bound - i)) (drop (Z.to_nat i) arr))).
Proof.
  induction f as [|f IH]; intros i bound num Hi Hb Hl Hf; [lia|]. cbn [intArray_loop]. zcase.
  - rewrite at_spec by lia. rewrite u8_small by lia. rewrite IH by lia.
    rewrite (drop_S arr (arr !!! Z.to_nat i) (Z.to_nat i)) by (apply list_lookup_lookup_total_lt; lia).
    replace (Z.to_nat (bound - i)) with (S (Z.to_nat (bound - (i + 1)))) by lia. replace (Z.to_nat (i + 1)) with (S (Z.to_nat i)) by lia. done.
  - replace (Z.to_nat (bound - i)) with 0%nat by lia. done.
Qed.

Lemma horner_u32 l num : foldl (fun n d => u32 (u32 (n * 10) + d)) (u32 num) l = u32 (foldl (fun n d => n * 10 + d) num l).
Proof.
  revert num. induction l as [|d l IH]; intros num; cbn [foldl]; [done|]. rewrite <-IH. f_equal. unfold wrap.
  rewrite Z.add_mod_idemp_l by done. rewrite <-(Z.add_mod_idemp_l (num * 10)) by done. rewrite <-(Z.mul_mod_idemp_l num) by done.
  by rewrite Z.add_mod_idemp_l.
Qed.

Lemma digits_value n : 0 <= n < 2 ^ 32 -> foldl (fun n d => n * 10 + d) 0 (digits n) = n.
Proof.
  intros Hn. assert (0 <= n < 10 ^ Z.of_nat digits_fuel) as Hn' by (change (10 ^ Z.of_nat digits_fuel) with 10000000000; lia).
  rewrite <-(lsd_value _ n Hn') at 2. unfold digits. induction (lsd digits_fuel n) as [|d l IH]; [done|]. rewrite reverse_cons, foldl_app, IH. done.
Qed.

Lemma digits_length n : (length (digits n) <= 10)%nat.
Proof. unfold digits. rewrite length_reverse. apply lsd_length_le. Qed.

Lemma intArray2int_spec fuel arr index len :
  0 <= index < len -> index + len <= 255 -> index + len <= Z.of_nat (length arr) -> len < Z.of_nat fuel ->
  tuya_intArray2int fuel arr index len = Done (u32 (foldl (fun n d => n * 10 + d) 0 (take (Z.to_nat len) (drop (Z.to_nat index) arr)))).
Proof.
  intros Hi Hb Hl Hf. unfold tuya_intArray2int. rewrite (proj2 (Z.leb_gt len index)) by lia.
  rewrite u8_small, u32_small by lia. rewrite intArray_loop_spec by lia. rewrite <-horner_u32. do 3 f_equal. lia.
Qed.

(** [tuya_int2intArray] writes the decimal digits of a positive 32-bit number,
    most significant first, at the start of an array that has room for them, and
    reports how many; [tuya_intArray2int] reads the number back.  A number with
    too many digits leaves the array alone and reports 0. *)
Theorem int_digits_roundtrip num arr len fuel :
  0 < num < 2 ^ 32 -> 0 <= len <= 255 -> len <= Z.of_nat (length arr) -> (11 <= fuel)%nat ->
  let k := length (digits num) in
  (len < Z.of_nat k -> tuya_int2intArray num arr len = Some (0, arr)) /\
  (Z.of_nat k <= len ->
     tuya_int2intArray num arr len = Some (Z.of_nat k, digits num ++ drop k arr) /\
     tuya_intArray2int fuel (digits num ++ drop k arr) 0 (Z.of_nat k) = Done num).
Proof.
  intros Hn Hl Ha Hf k. assert (Z.of_nat k = Z.of_nat (length (lsd digits_fuel num))) as Ek by (subst k; unfold digits; by rewrite length_reverse).
  pose proof (lsd_length_le digits_fuel num) as Hk. unfold digits_fuel in Hk at 2.
  assert (0 <= num < 10 ^ Z.of_nat digits_fuel) as Hn10 by (change (10 ^ Z.of_nat digits_fuel) with 10000000000; lia).
  assert (0 < k)%nat by (subst k; unfold digits; rewrite length_reverse; cbn [digits_fuel lsd]; rewrite (proj2 (Z.eqb_neq num 0)) by lia; cbn; lia).
  unfold tuya_int2intArray. rewrite count_digits_spec, Z.add_0_l, <-Ek by (done || lia). split; intros Hlen.
  - rewrite (proj2 (Z.ltb_lt len (Z.of_nat k))) by lia. done.
  - rewrite (proj2 (Z.ltb_ge len (Z.of_nat k))) by lia. rewrite put_digits_spec by (done || lia).
    change (Z.to_nat 0) with 0%nat. rewrite take_0, <-Ek, Z.add_0_l. cbn [app mbind option_bind fst snd].
    replace (u16 (Z.of_nat k)) with (Z.of_nat k) by (symmetry; apply wrap_small; lia).
    assert (k = length (lsd digits_fuel num)) as Ek' by lia. rewrite buff_reverse_spec by (rewrite length_app, length_drop; lia).
    rewrite Nat2Z.id, take_app_length', drop_app_length' by lia. split.
    + cbn [mbind option_bind]. do 4 f_equal. lia.
    + rewrite intArray2int_spec; [|lia|lia|rewrite length_app, length_drop; lia|lia].
      rewrite Nat2Z.id. change (Z.to_nat 0) with 0%nat. rewrite drop_0, take_app_length' by done. rewrite digits_value by lia. f_equal. apply u32_small. lia.
Qed.

Lemma int_digits_roundtrip_witness :
  tuya_int2intArray 4294967295 (repeat 7 12) 12 = Some (10, [4; 2; 9; 4; 9; 6; 7; 2; 9; 5; 7; 7]) /\
  tuya_intArray2int 11 [4; 2; 9; 4; 9; 6; 7; 2; 9; 5; 7; 7] 0 10 = Done 4294967295.
Proof. refine (proj2 (int_digits_roundtrip 4294967295 (repeat 7 12) 12 11 _ _ _ _) _); [lia|lia|cbn; lia|lia|vm_compute; discriminate]. Defined.

(** When the digits to read reach past position 255, the 8-bit loop counter
    of [tuya_intArray2int] wraps before it gets to the bound: whatever the array,
    the call reads outside it or never returns. *)
Theorem intArray2int_never_returns arr index len :
  0 <= index < len -> len <= 255 -> 255 < index + len -> forall fuel v, tuya_intArray2int fuel arr index len <> Done v.
Proof.
  intros Hi Hl Hb fuel v. unfold tuya_intArray2int. rewrite (proj2 (Z.leb_gt len index)) by lia. rewrite (u32_small (index + len)) by lia.
  generalize (u8_range index) 0. generalize (u8 index). induction fuel as [|f IH]; intros i Hr num; cbn [intArray_loop]; [done|].
  rewrite (proj2 (Z.ltb_lt i (index + len))) by lia. destruct (at_ arr i); [|done]. apply IH, u8_range.
Qed.

Lemma intArray2int_never_returns_witness : forall fuel v, tuya_intArray2int fuel (repeat 1 300) 100 200 <> Done v.
Proof. refine (intArray2int_never_returns (repeat 1 300) 100 200 _ _ _); lia. Defined.

(** ** Sorting *)

Definition in_order (ascend : bool) (a b : Z) : Prop := if ascend then a <= b else b <= a.
(** Everything in [l] may stand before [x]. *)
Definition below (ascend : bool) (l : list Z) (x : Z) : Prop := Forall (fun a => in_order ascend a x) l.

Lemma bubble_perm asc n : forall buf, bubble asc n buf ≡ₚ buf.
Proof.
  induction n as [|n IH]; intros [|a [|b r]]; cbn [bubble]; try done.
  destruct (if asc then b <? a else a <? b); rewrite IH; [apply Permutation_swap|done].
Qed.

Lemma bubble_head asc n a r l x : (n < length (a :: r))%nat ->
  bubble asc n (a :: r) = l ++ x :: drop (S n) (a :: r) -> below asc l x -> in_order asc a x.
Proof.
  intros Hn E Hx. assert (take (S n) (a :: r) ≡ₚ l ++ [x]) as Hp.
  { apply (Permutation_app_inv_r (drop (S n) (a :: r))). rewrite take_drop, <-(assoc_L (++)). cbn [app]. rewrite <-E. symmetry. apply bubble_perm. }
  assert (a ∈ l ++ [x]) as [Ha|Ha]%elem_of_app by (rewrite <-Hp; cbn [take]; left).
  - unfold below in Hx. rewrite Forall_forall in Hx. by apply Hx.
  - apply list_elem_of_singleton in Ha as ->. destruct asc; cbn; lia.
Qed.

(** A pass over [n] pairs moves the extreme of the first [n+1] elements to the end. *)
Lemma bubble_spec asc n : forall buf, (n < length buf)%nat ->
  exists l x, bubble asc n buf = l ++ x :: drop (S n) buf /\ length l = n /\ below asc l x.
Proof.
  induction n as [|n IH]; intros buf Hl.
  - destruct buf as [|a r]; [cbn in Hl; lia|]. exists [], a. cbn. rewrite drop_0. repeat split. constructor.
  - destruct buf as [|a [|b r]]; cbn [length] in Hl; [lia..|]. cbn [bubble drop].
    destruct (if asc then b <? a else a <? b) eqn:E.
    + destruct (IH (a :: r)) as (l & x & Ex & Ll & Hx); [cbn [length]; lia|]. exists (b :: l), x. rewrite Ex, <-Ll. cbn. split; [done|]. split; [done|].
      constructor; [|done]. pose proof (bubble_head asc n a r l x ltac:(cbn [length] in *; lia) Ex Hx) as Ha. destruct asc; cbn in *; zbool; lia.
    + destruct (IH (b :: r)) as (l & x & Ex & Ll & Hx); [cbn [length]; lia|]. exists (a :: l), x. rewrite Ex, <-Ll. cbn. split; [done|]. split; [done|].
      constructor; [|done]. pose proof (bubble_head asc n b r l x ltac:(cbn [length] in *; lia) Ex Hx) as Ha. destruct asc; cbn in *; zbool; lia.
Qed.

(** Sorted in the order asked for. *)
Definition sorted (asc : bool) (l : list Z) : Prop := StronglySorted (in_order asc) l.

Lemma sort_loop_spec asc m : forall buf, (m < length buf)%nat ->
  exists l, sort_loop asc m buf = l ++ drop (S m) buf /\ l ≡ₚ take (S m) buf /\ sorted asc l.
Proof.
  induction m as [|m IH]; intros buf Hl; cbn [sort_loop].
  - exists (take 1 buf). rewrite take_drop. split; [done|]. split; [done|]. destruct buf as [|a r]; [cbn in Hl; lia|]. repeat constructor.
  - pose proof (bubble_perm asc (S m) buf) as Hp. destruct (bubble_spec asc (S m) buf Hl) as (l & x & Ex & Ll & Hx).
    rewrite Ex in Hp |- *. destruct (IH (l ++ x :: drop (S (S m)) buf)) as (l' & -> & Hl' & Hs); [rewrite length_app; lia|].
    rewrite take_app_length' in Hl' by done. rewrite drop_app_length' by done. exists (l' ++ [x]). rewrite <-(assoc_L (++)). split; [done|]. split.
    + rewrite Hl'. apply (Permutation_app_inv_r (drop (S (S m)) buf)). rewrite take_drop, <-(assoc_L (++)). done.
    + apply StronglySorted_app_2; [|done|by repeat constructor]. unfold below in Hx. rewrite <-Hl', Forall_forall in Hx.
      intros a b Ha ->%list_elem_of_singleton. by apply Hx.
Qed.

(** [tuya_byte_sort] sorts the first [len] bytes, in ascending order when
    [is_ascend] is set and in descending order otherwise: the result is a sorted
    permutation of them, and the bytes after them stay where they were. *)
Theorem tuya_byte_sort_correct is_ascend buf len :
  0 <= len <= Z.of_nat (length buf) ->
  exists l, tuya_byte_sort is_ascend buf len = Some (l ++ drop (Z.to_nat len) buf) /\
    l ≡ₚ take (Z.to_nat len) buf /\ sorted (negb (is_ascend =? 0)) l.
Proof.
  intros Hl. unfold tuya_byte_sort. rewrite (proj2 (Z.ltb_ge (Z.of_nat (length buf)) len)), andb_false_r by lia.
  destruct (decide (len = 0)) as [->|Hne].
  - exists []. cbn. rewrite drop_0, take_0. repeat constructor.
  - destruct (sort_loop_spec (negb (is_ascend =? 0)) (Z.to_nat (len - 1)) buf) as (l & -> & Hp & Hs); [lia|].
    replace (S (Z.to_nat (len - 1))) with (Z.to_nat len) in * by lia. by exists l.
Qed.

Lemma tuya_byte_sort_correct_witness : exists l, tuya_byte_sort 1 [5; 3; 9; 1; 0] 4 = Some (l ++ [0]) /\
  l ≡ₚ [5; 3; 9; 1] /\ sorted true l.
Proof. refine (tuya_byte_sort_correct 1 [5; 3; 9; 1; 0] 4 _). cbn. lia. Defined.

(** ** Comparison *)

(** A C string: its characters and the terminator, then anything. *)
Definition cstring (t s : list Z) : Prop := Forall (fun c => 0 < c < 256) t /\ exists r, s = t ++ 0 :: r.
Definition lower (t : list Z) : list Z := __TOLOWER <$> t.

Lemma tolower_zero c : 0 <= c -> __TOLOWER c = 0 <-> c = 0.
Proof. unfold __TOLOWER. zcase; lia. Qed.

Lemma casecmp_loop_spec t1 : forall t2 r1 r2 cnt n, Forall (fun c => 0 < c < 256) t1 -> Forall (fun c => 0 < c < 256) t2 ->
  0 <= cnt -> cnt + Z.of_nat (length t1) + 1 < 2 ^ 31 ->
  let m := Z.to_nat (Z.max 1 (n - cnt)) in
  exists r, casecmp_loop (t1 ++ 0 :: r1) (t2 ++ 0 :: r2) cnt n = Some r /\
    (r = 0 <-> take m (lower t1 ++ [0]) = take m (lower t2 ++ [0]) /\ Z.of_nat m <= Z.of_nat (length t1) + 1) /\
    (lower t1 = lower t2 -> Z.of_nat (length t1) + 1 < Z.of_nat m -> r = -1).
Proof.
  induction t1 as [|c1 t1 IH]; intros t2 r1 r2 cnt n H1 H2 Hc Hl m;
    assert (exists m', m = S m') as [m' Em] by (exists (pred m); subst m; lia); rewrite Em; unfold lower; cbn [length] in Hl;
    assert (u64 (s32 (cnt + 1)) = cnt + 1) as Ecnt by (rewrite swrap_small by lia; apply u64_small; lia).
  - destruct t2 as [|c2 t2]; cbn -[take].
    + rewrite Ecnt. change (0 - 0 =? 0) with true. cbn iota. zcase; (eexists; split; [reflexivity|]); split; cbn [length]; [split; [intros _; split; [done|lia]|lia]|lia|split; [lia|intros [_ ?]; lia]|done].
    + inversion_clear H2 as [|? ? Hc2 Ht2]. pose proof (proj1 (tolower_zero c2 ltac:(lia))) as Hz. change (__TOLOWER 0) with 0.
      rewrite (proj2 (Z.eqb_neq _ 0)) by lia. eexists. split; [reflexivity|]. cbn [take]. split; [|done]. split; [lia|]. intros [[= E] _]. lia.
  - inversion_clear H1 as [|? ? Hc1 Ht1]. destruct t2 as [|c2 t2]; cbn -[take].
    + pose proof (proj1 (tolower_zero c1 ltac:(lia))) as Hz. change (__TOLOWER 0) with 0.
      rewrite (proj2 (Z.eqb_neq _ 0)) by lia. eexists. split; [reflexivity|]. cbn [take]. split; [|done]. split; [lia|]. intros [[= E] _]. lia.
    + inversion_clear H2 as [|? ? Hc2 Ht2]. zcase; [|eexists; split; [reflexivity|]; cbn [take]; split; [|intros [=]; lia]; split; [lia|intros [[= E] _]; lia]].
      rewrite Ecnt. zcase.
      * eexists. split; [reflexivity|]. assert (m' = 0%nat) as -> by lia. cbn [take]. split; [|cbn [length]; lia].
        split; [|lia]. intros _. split; [f_equal; lia|cbn [length]; lia].
      * rewrite (proj2 (Z.eqb_neq c1 0)), (proj2 (Z.eqb_neq c2 0)) by lia. rewrite swrap_small by lia.
        destruct (IH t2 r1 r2 (cnt + 1) n) as (r & Er & Hz & Hm1); [done|done|lia|lia|]. exists r. split; [done|].
        replace (Z.to_nat (Z.max 1 (n - (cnt + 1)))) with m' in * by lia. cbn [take length]. split.
        { rewrite Hz. split; [intros [E ?]; split; [|lia]; f_equal; [lia|done]|]. intros [[= _ E] ?]. split; [done|lia]. }
        { intros [= _ E] ?. apply Hm1; [done|lia]. }
Qed.

(** On two different strings [tuya_strncasecmp] returns 0 exactly when the
    first [n] characters (at least one, and the terminator counts) agree up to
    case and [n] does not go beyond the terminator; when the strings are equal up
    to case and [n] does go beyond it, the result is -1 and not 0. *)
Theorem tuya_strncasecmp_correct t1 t2 s1 s2 n :
  cstring t1 s1 -> cstring t2 s2 -> Z.of_nat (length t1) + 1 < 2 ^ 31 -> 0 <= n < 2 ^ 64 ->
  let m := Z.to_nat (Z.max 1 n) in
  exists r, tuya_strncasecmp false s1 s2 n = Some r /\
    (r = 0 <-> take m (lower t1 ++ [0]) = take m (lower t2 ++ [0]) /\ Z.of_nat m <= Z.of_nat (length t1) + 1) /\
    (lower t1 = lower t2 -> Z.of_nat (length t1) + 1 < n -> r = -1).
Proof.
  intros [H1 [r1 ->]] [H2 [r2 ->]] Hl Hn m. destruct (casecmp_loop_spec t1 t2 r1 r2 0 n H1 H2) as (r & Er & Hz & Hm); [lia|lia|].
  rewrite Z.sub_0_r in *. exists r. split; [done|]. split; [done|]. intros. apply Hm; [done|lia].
Qed.

(** ["AbC"] against ["aBc"]: equal within 3 characters, and -1 within 10. *)
Lemma tuya_strncasecmp_correct_witness :
  exists r, tuya_strncasecmp false [65; 98; 67; 0] [97; 66; 99; 0] 10 = Some r /\
    (r = 0 <-> take 10 [97; 98; 99; 0] = take 10 [97; 98; 99; 0] /\ 10 <= 4) /\ ([97; 98; 99] = [97; 98; 99] -> 4 < 10 -> r = -1).
Proof.
  refine (tuya_strncasecmp_correct [65; 98; 67] [97; 66; 99] [65; 98; 67; 0] [97; 66; 99; 0] 10 _ _ _ _); [| |cbn; lia|lia];
    (split; [repeat (apply Forall_cons_2; [lia|]); constructor|by exists []]).
Defined.

(** The order of strings: by the first character that differs, a proper prefix first. *)
Fixpoint string_order (t1 t2 : list Z) : Z :=
  match t1, t2 with
  | [], [] => 0
  | [], _ => -1
  | _, [] => 1
  | a :: r1, b :: r2 => if a =? b then string_order r1 r2 else if a <? b then -1 else 1
  end.

(** [tuya_strcmp] is the lexicographic order of C strings: -1, 0 or 1. *)
Theorem tuya_strcmp_correct t1 t2 s1 s2 : cstring t1 s1 -> cstring t2 s2 -> tuya_strcmp s1 s2 = Some (string_order t1 t2).
Proof.
  intros [H1 [r1 ->]] [H2 [r2 ->]]. unfold tuya_strcmp. revert t2 H2.
  induction H1 as [|c1 t1 Hc1 _ IH]; intros [|c2 t2] H2; [done|..]; inversion_clear H2; cbn -[Z.ltb Z.eqb].
  - rewrite (proj2 (Z.eqb_neq (0 - c2) 0)) by lia. cbn. repeat zcase; done || lia.
  - rewrite (proj2 (Z.eqb_neq (c1 - 0) 0)) by lia. cbn. repeat zcase; done || lia.
  - destruct (Z.eqb_spec c1 c2) as [->|Hne].
    + rewrite Z.sub_diag, Z.eqb_refl, (proj2 (Z.eqb_neq c2 0)) by lia. by apply IH.
    + rewrite (proj2 (Z.eqb_neq (c1 - c2) 0)) by lia. cbn. repeat zcase; done || lia.
Qed.

Lemma tuya_strcmp_correct_witness : tuya_strcmp [97; 98; 0] [97; 98; 200; 0] = Some (-1).
Proof.
  refine (tuya_strcmp_correct [97; 98] [97; 98; 200] [97; 98; 0] [97; 98; 200; 0] _ _);
    (split; [repeat (apply Forall_cons_2; [lia|]); constructor|by exists []]).
Defined.

(** ** Counting bits *)

(** The number of ones among the low [w] bits. *)
Fixpoint ones (w : nat) (n : Z) : Z :=
  match w with
  | O => 0
  | S w' => Z.b2z (Z.odd n) + ones w' (Z.div2 n)
  end.

Lemma ones_nonneg w n : 0 <= ones w n.
Proof. revert n. induction w as [|w IH]; intros n; cbn [ones]; [lia|]. specialize (IH (Z.div2 n)). destruct (Z.odd n); cbn; lia. Qed.

Lemma ones_le w n : ones w n <= Z.of_nat w.
Proof. revert n. induction w as [|w IH]; intros n; cbn [ones]; [lia|]. specialize (IH (Z.div2 n)). destruct (Z.odd n); cbn [Z.b2z]; lia. Qed.

Lemma odd_double n : Z.odd (2 * n) = false.
Proof. rewrite Z.odd_mul. done. Qed.
Lemma div2_double n : Z.div2 (2 * n) = n.
Proof. rewrite Z.div2_div, Z.mul_comm, Z.div_mul; lia. Qed.

(** [n & (n - 1)] clears the lowest one. *)
Lemma clear_lowest n :
  Z.land n (n - 1) = 2 * (if Z.odd n then Z.div2 n else Z.land (Z.div2 n) (Z.div2 n - 1)).
Proof.
  rewrite (Z.div2_odd n) at 1 2. destruct (Z.odd n) eqn:E; cbn [Z.b2z].
  - replace (2 * Z.div2 n + 1 - 1) with (2 * Z.div2 n) by lia. apply Z.bits_inj'. intros [|p|] Hi; [..|lia].
    + rewrite Z.land_spec, !Z.testbit_even_0. apply andb_false_r.
    + replace (Z.pos p) with (Z.succ (Z.pos p - 1)) by lia. rewrite Z.land_spec, Z.testbit_odd_succ, !Z.testbit_even_succ by lia. apply andb_diag.
  - rewrite Z.add_0_r. replace (2 * Z.div2 n - 1) with (2 * (Z.div2 n - 1) + 1) by lia. apply Z.bits_inj'. intros [|p|] Hi; [..|lia].
    + rewrite Z.land_spec, !Z.testbit_even_0. done.
    + replace (Z.pos p) with (Z.succ (Z.pos p - 1)) by lia.
      rewrite Z.land_spec, Z.testbit_odd_succ, !Z.testbit_even_succ, Z.land_spec by lia. done.
Qed.

Lemma ones_clear w : forall n, 0 < n < 2 ^ Z.of_nat w -> ones w (Z.land n (n - 1)) = ones w n - 1.
Proof.
  induction w as [|w IH]; intros n Hn; [cbn in Hn; lia|]. rewrite Nat2Z.inj_succ, Z.pow_succ_r in Hn by lia. cbn [ones].
  rewrite clear_lowest, odd_double, div2_double. pose proof (Z.div2_odd n). destruct (Z.odd n); cbn [Z.b2z] in *; [lia|]. rewrite IH by lia. lia.
Qed.

Lemma ones_zero w : ones w 0 = 0.
Proof. induction w as [|w IH]; [done|]. cbn. done. Qed.

Lemma bit1_loop_spec f : forall n count, 0 <= n < 2 ^ 32 -> 0 <= count -> count + ones 32 n < 2 ^ 32 -> ones 32 n < Z.of_nat f ->
  bit1_loop f n count = count + ones 32 n.
Proof.
  induction f as [|f IH]; intros n count Hn Hc Hb Hf; [pose proof (ones_nonneg 32 n); lia|]. cbn [bit1_loop]. zcase.
  - subst. rewrite ones_zero. lia.
  - pose proof (ones_clear 32 n ltac:(change (Z.of_nat 32) with 32; lia)) as E. pose proof (ones_nonneg 32 (Z.land n (n - 1))).
    rewrite (u32_small (n - 1)) by lia. rewrite u32_small by lia.
    rewrite IH; [lia| |lia..]. split; [apply Z.land_nonneg; lia|].
    destruct (decide (Z.land n (n - 1) = 0)) as [->|]; [lia|]. apply Z.log2_lt_pow2; [pose proof (proj2 (Z.land_nonneg n (n - 1))); lia|].
    eapply Z.le_lt_trans; [apply Z.log2_land; lia|]. apply Z.min_lt_iff. left. apply Z.log2_lt_pow2; lia.
Qed.

Lemma lzc_loop_spec num : 0 <= num < 2 ^ 32 -> forall d : nat, (d <= 32)%nat -> (forall j, Z.of_nat d <= j -> Z.testbit num j = false) ->
  forall f temp, (d < f)%nat -> (forall j, 0 <= j < 32 -> Z.testbit temp j = if decide (32 - Z.of_nat d <= j) then negb (Z.testbit num (j - (32 - Z.of_nat d))) else false) ->
  lzc_loop f temp (32 - Z.of_nat d) = if num =? 0 then 32 else 31 - Z.log2 num.
Proof.
  intros Hn d. induction d as [|d IH]; intros Hd Hz f temp Hf Ht; (destruct f as [|f]; [lia|]); cbn [lzc_loop].
  - assert (num = 0) as ->. { apply Z.bits_inj'. intros j Hj. rewrite Hz, Z.bits_0; [done|lia]. }
    change 0x80000000 with (2 ^ 31). assert (Z.land temp (2 ^ 31) = 0) as ->; [|done].
    apply Z.bits_inj'. intros j Hj. rewrite Z.land_spec, Z.pow2_bits_eqb, Z.bits_0 by lia. destruct (Z.eqb_spec 31 j) as [<-|]; [|apply andb_false_r].
    rewrite Ht by lia. done.
  - assert (Z.testbit temp 31 = negb (Z.testbit num (Z.of_nat d))) as E.
    { rewrite Ht by lia. rewrite decide_True by lia. do 2 f_equal. lia. }
    assert (Z.land temp 0x80000000 = if Z.testbit temp 31 then 2 ^ 31 else 0) as ->.
    { change 0x80000000 with (2 ^ 31). apply Z.bits_inj'. intros j Hj. rewrite Z.land_spec, Z.pow2_bits_eqb by lia.
      destruct (Z.eqb_spec 31 j) as [<-|]; [|destruct (Z.testbit temp 31); rewrite ?Z.bits_0, ?Z.pow2_bits_false, ?andb_false_r; done].
      destruct (Z.testbit temp 31); done. }
    rewrite E. destruct (Z.testbit num (Z.of_nat d)) eqn:Eb; cbn [negb].
    + change (0 =? 0) with true. cbn iota. assert (num <> 0) by (intros ->; by rewrite Z.bits_0 in Eb). rewrite (proj2 (Z.eqb_neq num 0)) by done.
      rewrite (Z.log2_bits_unique num (Z.of_nat d)); [lia|done|]. intros j Hj. apply Hz. lia.
    + change (2 ^ 31 =? 0) with false. cbn iota. rewrite (u32_small (32 - Z.of_nat (S d) + 1)) by lia. replace (32 - Z.of_nat (S d) + 1) with (32 - Z.of_nat d) by lia.
      apply IH; [lia| |lia|].
      * intros j Hj. destruct (decide (j = Z.of_nat d)) as [->|]; [done|]. apply Hz. lia.
      * intros j Hj. unfold wrap. rewrite Z.mod_pow2_bits_low, Z.shiftl_spec by lia.
        destruct (decide (j = 0)) as [->|]; [rewrite Z.testbit_neg_r by lia; by rewrite decide_False by lia|].
        rewrite Ht by lia. repeat case_decide; try lia; try done. do 2 f_equal. lia.
Qed.

(** [tuya_bit1_count] is the number of ones of a 32-bit word, and
    [tuya_leading_zeros_count] the number of zeros above its highest one (32 for
    the word 0): both loops end within 33 rounds. *)
Theorem bit_counts_correct num : 0 <= num < 2 ^ 32 ->
  tuya_bit1_count num = ones 32 num /\ tuya_leading_zeros_count num = (if num =? 0 then 32 else 31 - Z.log2 num).
Proof.
  intros Hn. pose proof (ones_le 32 num). split.
  - unfold tuya_bit1_count. rewrite bit1_loop_spec by (cbn [Z.of_nat]; lia). lia.
  - unfold tuya_leading_zeros_count. apply (lzc_loop_spec num Hn 32); [lia| |lia|].
    + intros j Hj. destruct (decide (num = 0)) as [->|]; [apply Z.bits_0|]. apply Z.bits_above_log2; [lia|].
      apply (Z.lt_le_trans _ 32); [apply Z.log2_lt_pow2; lia|lia].
    + intros j Hj. rewrite decide_True by lia. unfold wrap. rewrite Z.mod_pow2_bits_low, Z.lnot_spec by lia. do 2 f_equal. lia.
Qed.

Lemma bit_counts_correct_witness : tuya_bit1_count 0xf0f = 8 /\ tuya_leading_zeros_count 0xf0f = 20.
Proof. refine (bit_counts_correct 0xf0f _). lia. Defined.
