(* ===== verification/HList.v ===== *)
(** * Hash chains: [include/utilities/include/tuya_hlist.h]

    A chain starts at a head and links nodes forward by [next]; backwards each
    node keeps [pprev], the address of the pointer that points to it: the [first]
    field of the head or the [next] field of another node.  The two kinds of
    pointer fields are the constructors of [slot].  [hlist s h l] says that the
    chain of head [h] is [l]; the operations are shown to be the list operations
    on [l] and to touch nothing else. *)

From S2P Require Import Prelude.

(** ** Data *)

Inductive slot := FirstOf (h : Z) | NextOf (n : Z).

#[export] Instance slot_eq_dec : EqDecision slot.
Proof. solve_decision. Defined.

(** A null [pprev] is [None]. *)
Record HLIST_NODE := mkHNode { hn_next : Z; hn_pprev : option slot }.

Record hmem := HMem { hl_nodes : gmap Z HLIST_NODE; hl_heads : gmap Z Z }.
Local Abbreviation H := (M hmem).

Definition with_node (n : Z) (v : HLIST_NODE) (s : hmem) : hmem := HMem (<[n := v]> (hl_nodes s)) (hl_heads s).
Definition with_first (h v : Z) (s : hmem) : hmem := HMem (hl_nodes s) (<[h := v]> (hl_heads s)).

Definition rd_hnode (n : Z) : H HLIST_NODE := fun s => match hl_nodes s !! n with Some v => Ret v s | None => Fault end.
Definition rd_first (h : Z) : H Z := fun s => match hl_heads s !! h with Some v => Ret v s | None => Fault end.
Definition wr_first (h v : Z) : H unit := fun s =>
  match hl_heads s !! h with Some _ => Ret tt (with_first h v s) | None => Fault end.
Definition wr_hnext (n v : Z) : H unit := fun s =>
  match hl_nodes s !! n with Some x => Ret tt (with_node n (mkHNode v (hn_pprev x)) s) | None => Fault end.
Definition wr_pprev (n : Z) (v : option slot) : H unit := fun s =>
  match hl_nodes s !! n with Some x => Ret tt (with_node n (mkHNode (hn_next x) v) s) | None => Fault end.
(** [*pprev = v] *)
Definition wr_slot (sl : option slot) (v : Z) : H unit :=
  match sl with
  | Some (FirstOf h) => wr_first h v
  | Some (NextOf n) => wr_hnext n v
  | None => fault
  end.

(** ** Operations *)

Definition tuya_init_hlist_node (h : Z) : H unit := wr_hnext h 0 ;;; wr_pprev h None.

Definition tuya_hlist_empty (h : Z) : H bool := f <- rd_first h ;; ret (f =? 0).

Definition tuya_hlist_unhashed (h : Z) : H bool :=
  x <- rd_hnode h ;; ret (match hn_pprev x with None => true | Some _ => false end).

Definition __tuya_hlist_del (n : Z) : H unit :=
  x <- rd_hnode n ;;
  let next := hn_next x in
  let pprev := hn_pprev x in
  wr_slot pprev next ;;;
  when (negb (next =? 0)) (wr_pprev next pprev).

Definition tuya_hlist_del (n : Z) : H unit := __tuya_hlist_del n.

Definition tuya_hlist_del_init (n : Z) : H unit :=
  u <- tuya_hlist_unhashed n ;;
  when (negb u) (__tuya_hlist_del n ;;; tuya_init_hlist_node n).

Definition tuya_hlist_add_head (n h : Z) : H unit :=
  first <- rd_first h ;;
  wr_hnext n first ;;;
  when (negb (first =? 0)) (wr_pprev first (Some (NextOf n))) ;;;
  wr_first h n ;;;
  wr_pprev n (Some (FirstOf h)).

Definition tuya_hlist_add_before (n next : Z) : H unit :=
  y <- rd_hnode next ;;
  wr_pprev n (hn_pprev y) ;;;
  wr_hnext n next ;;;
  wr_pprev next (Some (NextOf n)) ;;;
  x <- rd_hnode n ;;
  wr_slot (hn_pprev x) n.

(** Puts [next] after [n]. *)
Definition tuya_hlist_add_after (n next : Z) : H unit :=
  x <- rd_hnode n ;;
  wr_hnext next (hn_next x) ;;;
  wr_hnext n next ;;;
  wr_pprev next (Some (NextOf n)) ;;;
  y <- rd_hnode next ;;
  when (negb (hn_next y =? 0)) (wr_pprev (hn_next y) (Some (NextOf next))).

(** ** The chain of a head *)

(** The value of a pointer field, and the [pprev] of a node. *)
Definition slot_val (s : hmem) (sl : slot) : option Z :=
  match sl with FirstOf h => hl_heads s !! h | NextOf n => hn_next <$> hl_nodes s !! n end.
Definition pprev_of (s : hmem) (n : Z) : option (option slot) := hn_pprev <$> hl_nodes s !! n.

(** From the field [sl], the nodes [l] follow, linked back, and then [v]. *)
Fixpoint seg (s : hmem) (sl : slot) (l : list Z) (v : Z) : Prop :=
  match l with
  | [] => slot_val s sl = Some v
  | x :: r => slot_val s sl = Some x /\ pprev_of s x = Some (Some sl) /\ seg s (NextOf x) r v
  end.

Definition hlist (s : hmem) (h : Z) (l : list Z) : Prop := NoDup l /\ 0 ∉ l /\ seg s (FirstOf h) l 0.

(** Only the head [h] and the nodes [ns] may differ. *)
Definition hsame (h : Z) (ns : list Z) (s s' : hmem) : Prop :=
  (forall h', h' <> h -> hl_heads s' !! h' = hl_heads s !! h') /\ (forall n, n ∉ ns -> hl_nodes s' !! n = hl_nodes s !! n).

(** The field in front of what follows [l]. *)
Definition last_slot (sl : slot) (l : list Z) : slot := match last l with Some x => NextOf x | None => sl end.

Lemma seg_app s l1 : forall sl l2 v, seg s sl (l1 ++ l2) v <->
  seg s sl l1 (default v (head l2)) /\ match l2 with [] => True | x :: r => pprev_of s x = Some (Some (last_slot sl l1)) /\ seg s (NextOf x) r v end.
Proof.
  induction l1 as [|y l1 IH]; intros sl l2 v.
  - destruct l2; cbn; [tauto|]. tauto.
  - cbn [app seg]. rewrite IH. replace (last_slot sl (y :: l1)) with (last_slot (NextOf y) l1); [tauto|].
    unfold last_slot. rewrite last_cons. by destruct (last l1).
Qed.

Lemma seg_snoc s sl l x v :
  seg s sl (l ++ [x]) v <-> seg s sl l x /\ pprev_of s x = Some (Some (last_slot sl l)) /\ slot_val s (NextOf x) = Some v.
Proof. rewrite seg_app. cbn. tauto. Qed.

Lemma seg_last s sl l v : seg s sl l v -> slot_val s (last_slot sl l) = Some v.
Proof.
  destruct l as [|l x _] using rev_ind; [done|]. rewrite seg_snoc. unfold last_slot at 2. rewrite last_snoc. tauto.
Qed.

(** A segment depends on its first field, the links of its nodes but the last,
    the [pprev] of its nodes, and its last field. *)
Lemma seg_frame s s' l : forall sl v v',
  seg s sl l v -> slot_val s' (last_slot sl l) = Some v' ->
  (l <> [] -> slot_val s' sl = slot_val s sl) ->
  (forall x, x ∈ removelast l -> slot_val s' (NextOf x) = slot_val s (NextOf x)) ->
  (forall x, x ∈ l -> pprev_of s' x = pprev_of s x) -> seg s' sl l v'.
Proof.
  induction l as [|x l IH]; intros sl v v' Hs Hl Hf Hn Hp; cbn in *; [done|]. destruct Hs as (E1 & E2 & E3).
  split; [rewrite Hf; done|]. split; [rewrite Hp; [done|by left]|]. apply (IH _ v); [done| | | |].
  - unfold last_slot in *. rewrite last_cons in Hl. by destruct (last l).
  - intros. apply Hn. destruct l; [done|]. by left.
  - intros y Hy. apply Hn. destruct l; [by apply not_elem_of_nil in Hy|]. by right.
  - intros y Hy. apply Hp. by right.
Qed.

(** ** Writing fields *)

Definition set_slot (s : hmem) (sl : slot) (v : Z) : hmem :=
  match sl with
  | FirstOf h => with_first h v s
  | NextOf n => HMem (alter (fun x => mkHNode v (hn_pprev x)) n (hl_nodes s)) (hl_heads s)
  end.
Definition set_pprev (s : hmem) (n : Z) (p : option slot) : hmem :=
  HMem (alter (fun x => mkHNode (hn_next x) p) n (hl_nodes s)) (hl_heads s).

Lemma slot_val_set_slot s sl v sl' : is_Some (slot_val s sl) ->
  slot_val (set_slot s sl v) sl' = if decide (sl' = sl) then Some v else slot_val s sl'.
Proof.
  intros Hs. case_decide as E; [subst|]; destruct sl as [h|n]; cbn in *.
  - apply lookup_insert_eq.
  - rewrite lookup_alter_eq. by destruct (hl_nodes s !! n) as [x|]; [|by destruct Hs].
  - destruct sl' as [h'|n']; cbn; [|done]. apply lookup_insert_ne. congruence.
  - destruct sl' as [h'|n']; cbn; [done|]. rewrite lookup_alter_ne by congruence. done.
Qed.

Lemma pprev_of_set_slot s sl v n : pprev_of (set_slot s sl v) n = pprev_of s n.
Proof.
  unfold pprev_of. destruct sl as [h|m]; cbn; [done|]. destruct (decide (m = n)) as [->|]; [|by rewrite lookup_alter_ne].
  rewrite lookup_alter_eq. by destruct (hl_nodes s !! n).
Qed.

Lemma slot_val_set_pprev s n p sl : slot_val (set_pprev s n p) sl = slot_val s sl.
Proof.
  destruct sl as [h|m]; cbn; [done|]. destruct (decide (n = m)) as [->|]; [|by rewrite lookup_alter_ne].
  rewrite lookup_alter_eq. by destruct (hl_nodes s !! m).
Qed.

Lemma pprev_of_set_pprev s n p m : is_Some (pprev_of s n) ->
  pprev_of (set_pprev s n p) m = if decide (m = n) then Some p else pprev_of s m.
Proof.
  intros Hs. unfold pprev_of in *. cbn. case_decide; [subst|by rewrite lookup_alter_ne].
  rewrite lookup_alter_eq. by destruct (hl_nodes s !! n); [|destruct Hs].
Qed.

Lemma alter_as_insert (f : HLIST_NODE -> HLIST_NODE) (m : gmap Z HLIST_NODE) i x : m !! i = Some x -> alter f i m = <[i := f x]> m.
Proof.
  intros E. apply map_eq. intros j. destruct (decide (i = j)) as [->|]; [by rewrite lookup_alter_eq, lookup_insert_eq, E|].
  by rewrite lookup_alter_ne, lookup_insert_ne.
Qed.

(** A node has both fields. *)
Lemma node_fields s n : is_Some (pprev_of s n) <-> is_Some (slot_val s (NextOf n)).
Proof. unfold pprev_of. cbn. by rewrite !fmap_is_Some. Qed.

Lemma wp_rd_hnode n v p Q s : slot_val s (NextOf n) = Some v -> pprev_of s n = Some p -> Q (mkHNode v p) s -> wp (rd_hnode n) Q s.
Proof.
  unfold wp, rd_hnode, pprev_of. cbn. intros Ev Ep HQ. destruct (hl_nodes s !! n) as [[v' p']|]; [|done]. cbn in *. by simplify_eq.
Qed.
Lemma wp_rd_first h v Q s : slot_val s (FirstOf h) = Some v -> Q v s -> wp (rd_first h) Q s.
Proof. cbn. intros E HQ. unfold wp, rd_first. by rewrite E. Qed.
Lemma wp_wr_first h v Q s : is_Some (slot_val s (FirstOf h)) -> Q tt (set_slot s (FirstOf h) v) -> wp (wr_first h v) Q s.
Proof. cbn. intros [x E] HQ. unfold wp, wr_first. by rewrite E. Qed.
Lemma wp_wr_hnext n v Q s : is_Some (pprev_of s n) -> Q tt (set_slot s (NextOf n) v) -> wp (wr_hnext n v) Q s.
Proof.
  unfold pprev_of. rewrite fmap_is_Some. intros [x E] HQ. unfold wp, wr_hnext. rewrite E. unfold with_node. cbn in HQ.
  rewrite (alter_as_insert _ _ _ _ E) in HQ. done.
Qed.
Lemma wp_wr_pprev n v Q s : is_Some (pprev_of s n) -> Q tt (set_pprev s n v) -> wp (wr_pprev n v) Q s.
Proof.
  unfold pprev_of. rewrite fmap_is_Some. intros [x E] HQ. unfold wp, wr_pprev. rewrite E. unfold with_node, set_pprev in *.
  rewrite (alter_as_insert _ _ _ _ E) in HQ. done.
Qed.
Lemma wp_wr_slot sl v Q s : is_Some (slot_val s sl) -> Q tt (set_slot s sl v) -> wp (wr_slot (Some sl) v) Q s.
Proof. destruct sl; cbn [wr_slot]; intros Hs HQ; [by apply wp_wr_first|]. apply wp_wr_hnext; [by apply node_fields|done]. Qed.

(** Fields other than the one written keep their value. *)
Lemma slot_val_ne s sl v sl' : is_Some (slot_val s sl) -> sl' <> sl -> slot_val (set_slot s sl v) sl' = slot_val s sl'.
Proof. intros. rewrite slot_val_set_slot by done. by rewrite decide_False. Qed.
Lemma slot_val_eq s sl v : is_Some (slot_val s sl) -> slot_val (set_slot s sl v) sl = Some v.
Proof. intros. rewrite slot_val_set_slot by done. by rewrite decide_True. Qed.
Lemma pprev_of_ne s n p m : is_Some (pprev_of s n) -> m <> n -> pprev_of (set_pprev s n p) m = pprev_of s m.
Proof. intros. rewrite pprev_of_set_pprev by done. by rewrite decide_False. Qed.
Lemma pprev_of_eq s n p : is_Some (pprev_of s n) -> pprev_of (set_pprev s n p) n = Some p.
Proof. intros. rewrite pprev_of_set_pprev by done. by rewrite decide_True. Qed.

Lemma last_slot_ne l n h : n ∉ l -> NextOf n <> last_slot (FirstOf h) l.
Proof. intros Hn E. unfold last_slot in E. destruct (last l) as [x|] eqn:El; [|done]. injection E as ->. apply Hn, last_Some_elem_of, El. Qed.

Lemma removelast_ne l n h : NoDup l -> n ∈ removelast l -> NextOf n <> last_slot (FirstOf h) l.
Proof.
  intros Hd Hn. destruct l as [|l x _] using rev_ind; [by apply not_elem_of_nil in Hn|]. rewrite removelast_last in Hn.
  unfold last_slot. rewrite last_snoc. intros [= ->]. apply NoDup_app in Hd as (_ & Hd & _). apply (Hd _ Hn). by left.
Qed.

Lemma first_ne l h : l <> [] -> FirstOf h <> last_slot (FirstOf h) l.
Proof. intros Hl. unfold last_slot. destruct (last l) eqn:E; [done|]. by apply last_None in E. Qed.

(** A segment whose fields and back links are as before. *)
Lemma seg_same s s' sl l v : seg s sl l v -> slot_val s' sl = slot_val s sl ->
  (forall x, x ∈ l -> slot_val s' (NextOf x) = slot_val s (NextOf x) /\ pprev_of s' x = pprev_of s x) -> seg s' sl l v.
Proof.
  revert sl. induction l as [|x l IH]; intros sl Hs E Hx; cbn in *; [congruence|]. destruct Hs as (E1 & E2 & E3).
  destruct (Hx x) as [Ex Ep]; [by left|]. split; [congruence|]. split; [congruence|]. apply IH; [done|done|]. intros y Hy. apply Hx. by right.
Qed.

(** The first part of a chain after its last field has been written. *)
Lemma seg_relink s s' h l v v' : NoDup l -> seg s (FirstOf h) l v -> slot_val s' (last_slot (FirstOf h) l) = Some v' ->
  (forall sl, sl <> last_slot (FirstOf h) l -> sl = FirstOf h \/ (exists x, x ∈ l /\ sl = NextOf x) -> slot_val s' sl = slot_val s sl) ->
  (forall x, x ∈ l -> pprev_of s' x = pprev_of s x) -> seg s' (FirstOf h) l v'.
Proof.
  intros Hd Hs Hl Hf Hp. eapply seg_frame; [done|done| | |done].
  - intros Hne. apply Hf; [by apply first_ne|by left].
  - intros x Hx. apply Hf; [by apply removelast_ne|]. right. exists x. split; [|done].
    destruct l as [|l y _] using rev_ind; [done|]. rewrite removelast_last in Hx. set_solver.
Qed.

(** ** Frames *)

Lemma hsame_refl h ns s : hsame h ns s s.
Proof. done. Qed.
Lemma hsame_set_slot h ns s s' sl v : hsame h ns s s' -> (match sl with FirstOf h' => h' = h | NextOf n => n ∈ ns end) -> hsame h ns s (set_slot s' sl v).
Proof.
  intros [H1 H2] Hsl. destruct sl as [h'|n]; split; cbn; intros k Hk; try by auto.
  - subst. rewrite lookup_insert_ne by done. auto.
  - rewrite lookup_alter_ne by congruence. auto.
Qed.
Lemma hsame_set_pprev h ns s s' n p : hsame h ns s s' -> n ∈ ns -> hsame h ns s (set_pprev s' n p).
Proof. intros [H1 H2] Hn. split; cbn; intros k Hk; [by auto|]. rewrite lookup_alter_ne by congruence. auto. Qed.

Lemma hsame_hlist h ns s s' h' l : hsame h ns s s' -> h' <> h -> (forall x, x ∈ l -> x ∉ ns) -> hlist s h' l -> hlist s' h' l.
Proof.
  intros [H1 H2] Hne Hl (Hd & H0 & Hs). split; [done|]. split; [done|]. eapply seg_same; [done|cbn; auto|].
  intros x Hx. unfold pprev_of. cbn. rewrite H2; auto.
Qed.

(** ** Specifications *)

Lemma last_slot_in h (l ns : list Z) : (forall x, x ∈ l -> x ∈ ns) -> match last_slot (FirstOf h) l with FirstOf h' => h' = h | NextOf n => n ∈ ns end.
Proof. intros Hl. unfold last_slot. destruct (last l) eqn:E; [|done]. apply Hl, last_Some_elem_of, E. Qed.

Lemma hlist_del_spec s h l1 x l2 : hlist s h (l1 ++ x :: l2) ->
  wp (__tuya_hlist_del x) (fun _ s' => hlist s' h (l1 ++ l2) /\ hsame h (l1 ++ l2) s s' /\ hl_nodes s' !! x = hl_nodes s !! x) s.
Proof.
  intros (Hd & H0 & (H1 & Hpx & H2)%seg_app). pose proof (seg_last _ _ _ _ H1) as Hlast. cbn [default head] in *.
  apply NoDup_app in Hd as (Hd1 & Hd12 & [Hx Hd2]%NoDup_cons).
  assert (x ∉ l1) as Hx1 by (intros Hin; apply (Hd12 _ Hin); by left).
  assert (NextOf x <> last_slot (FirstOf h) l1) as Hxne by (by apply last_slot_ne).
  unfold __tuya_hlist_del. apply wp_bind. eapply (wp_rd_hnode _ (default 0 (head l2))); [destruct l2; apply H2|exact Hpx|].
  apply wp_bind, wp_wr_slot; [by eexists|]. cbn [hn_next hn_pprev].
  assert (forall s', (forall sl, sl <> last_slot (FirstOf h) l1 -> slot_val s' sl = slot_val s sl) ->
    slot_val s' (last_slot (FirstOf h) l1) = Some (default 0 (head l2)) ->
    (forall y, y <> default 0 (head l2) -> pprev_of s' y = pprev_of s y) ->
    (match l2 with [] => True | y :: _ => pprev_of s' y = Some (Some (last_slot (FirstOf h) l1)) end) -> hlist s' h (l1 ++ l2)) as Hgoal.
  { intros s' Hsl Hla Hpp Hy. split; [|split].
    - apply NoDup_app. split; [done|]. split; [|done]. intros y Hy1 Hy2. apply (Hd12 _ Hy1). by right.
    - set_solver.
    - apply seg_app. split.
      + apply (seg_relink s s' h l1 x); [done|done|done|intros; by apply Hsl|]. intros y Hin. apply Hpp. intros ->.
        destruct l2 as [|z l2]; cbn in Hin; [set_solver|]. apply (Hd12 _ Hin). right. by left.
      + destruct l2 as [|z l2]; [done|]. split; [done|]. apply NoDup_cons in Hd2 as [Hz Hd2].
        assert (forall y, y ∈ z :: l2 -> slot_val s' (NextOf y) = slot_val s (NextOf y)) as Hsz.
        { intros y Hin. apply Hsl, last_slot_ne. intros Hin1. apply (Hd12 _ Hin1). by right. }
        eapply seg_same; [apply H2|apply Hsz; by left|]. intros y Hin. split; [apply Hsz; by right|]. apply Hpp. cbn. by intros ->. }
  assert (hsame h (l1 ++ l2) s (set_slot s (last_slot (FirstOf h) l1) (default 0 (head l2)))) as Hsame.
  { apply hsame_set_slot; [apply hsame_refl|]. apply last_slot_in. set_solver. }
  assert (x <> 0) by set_solver. assert (x ∉ l1 ++ l2) by set_solver.
  apply wp_when; intros E; zbool.
  - destruct l2 as [|y l2]; cbn [default head] in *; [done|]. assert (is_Some (pprev_of s y)) by (destruct H2 as (_ & -> & _); by eexists).
    apply wp_wr_pprev; [by rewrite pprev_of_set_slot|]. split; [|split].
    + apply Hgoal.
      * intros sl Hsl. rewrite slot_val_set_pprev. apply slot_val_ne; [by eexists|done].
      * rewrite slot_val_set_pprev. apply slot_val_eq. by eexists.
      * intros z Hz. rewrite pprev_of_ne, pprev_of_set_slot; [done|by rewrite pprev_of_set_slot|done].
      * by rewrite pprev_of_eq by (by rewrite pprev_of_set_slot).
    + apply hsame_set_pprev; [done|]. set_solver.
    + edestruct (hsame_set_pprev h (l1 ++ y :: l2) s _ y (Some (last_slot (FirstOf h) l1)) Hsame) as [_ Hn]; [set_solver|by apply Hn].
  - destruct l2 as [|y l2]; cbn [default head] in *; [|set_solver]. split; [|split; [done|by apply Hsame]]. apply Hgoal.
    + intros sl Hsl. apply slot_val_ne; [by eexists|done].
    + apply slot_val_eq. by eexists.
    + intros z Hz. apply pprev_of_set_slot.
    + done.
Qed.

Lemma hlist_add_head_spec s h l n : hlist s h l -> n ∉ l -> n <> 0 -> is_Some (pprev_of s n) ->
  wp (tuya_hlist_add_head n h) (fun _ s' => hlist s' h (n :: l) /\ hsame h (n :: l) s s') s.
Proof.
  intros (Hd & H0 & Hs) Hn Hn0 Hp. pose proof (proj1 (node_fields s n) Hp) as Hnx.
  unfold tuya_hlist_add_head. apply wp_bind. eapply (wp_rd_first _ (default 0 (head l))); [destruct l; apply Hs|].
  assert (is_Some (slot_val s (FirstOf h))) as Hf by (destruct l; [|destruct Hs as [Hs _]]; rewrite Hs; by eexists).
  apply wp_bind, wp_wr_hnext; [done|].
  assert (forall s', slot_val s' (FirstOf h) = Some n -> slot_val s' (NextOf n) = Some (default 0 (head l)) -> pprev_of s' n = Some (Some (FirstOf h)) ->
    (forall x, x ∈ l -> slot_val s' (NextOf x) = slot_val s (NextOf x)) ->
    (forall x, x ∈ tail l -> pprev_of s' x = pprev_of s x) ->
    (match l with [] => True | y :: _ => pprev_of s' y = Some (Some (NextOf n)) end) -> hlist s' h (n :: l)) as Hgoal.
  { intros s' E1 E2 E3 Hsl Hpp Hy. split; [by constructor|]. split; [set_solver|]. split; [done|]. split; [done|].
    destruct l as [|y l]; [done|]. split; [done|]. split; [done|]. eapply seg_same; [apply Hs|apply Hsl; by left|].
    intros x Hx. split; [apply Hsl; by right|by apply Hpp]. }
  apply wp_bind, wp_when; intros E; zbool; (destruct l as [|y l]; cbn [default head] in *; [try done|try (exfalso; set_solver)]).
  - apply NoDup_cons in Hd as [Hy Hd]. assert (y <> n) by set_solver. assert (is_Some (pprev_of s y)) as Hpy by (destruct Hs as (_ & -> & _); by eexists).
    apply wp_wr_pprev; [by rewrite pprev_of_set_slot|].
    apply wp_bind, wp_wr_first; [rewrite slot_val_set_pprev, slot_val_ne; done|].
    apply wp_wr_pprev; [rewrite !pprev_of_set_slot, pprev_of_ne, pprev_of_set_slot; rewrite ?pprev_of_set_slot; done|].
    set (s1 := set_pprev (set_slot s (NextOf n) y) y (Some (NextOf n))).
    assert (forall sl, slot_val s1 sl = if decide (sl = NextOf n) then Some y else slot_val s sl) as V1 by (intros; unfold s1; by rewrite slot_val_set_pprev, slot_val_set_slot).
    assert (forall x, pprev_of s1 x = if decide (x = y) then Some (Some (NextOf n)) else pprev_of s x) as P1.
    { intros. unfold s1. rewrite pprev_of_set_pprev; by rewrite !pprev_of_set_slot. }
    assert (is_Some (slot_val s1 (FirstOf h))) by (rewrite V1, decide_False; done).
    assert (is_Some (pprev_of (set_slot s1 (FirstOf h) n) n)) by (rewrite pprev_of_set_slot, P1, decide_False by done; done).
    split.
    + apply Hgoal.
      * by rewrite slot_val_set_pprev, slot_val_eq.
      * rewrite slot_val_set_pprev, slot_val_ne, V1, decide_True; done.
      * by rewrite pprev_of_eq.
      * intros x Hx. rewrite slot_val_set_pprev, slot_val_ne, V1, decide_False; [done|congruence|done|done].
      * intros x Hx. rewrite pprev_of_ne, pprev_of_set_slot, P1, decide_False; [done|set_solver|done|set_solver].
      * rewrite pprev_of_ne, pprev_of_set_slot, P1, decide_True; done.
    + apply hsame_set_pprev; [|set_solver]. apply hsame_set_slot; [|done]. apply hsame_set_pprev; [|set_solver].
      apply hsame_set_slot; [apply hsame_refl|set_solver].
  - apply wp_bind, wp_wr_first; [rewrite slot_val_ne; done|]. apply wp_wr_pprev; [by rewrite !pprev_of_set_slot|].
    assert (is_Some (slot_val (set_slot s (NextOf n) 0) (FirstOf h))) by (rewrite slot_val_ne; done).
    assert (is_Some (pprev_of (set_slot (set_slot s (NextOf n) 0) (FirstOf h) n) n)) by (by rewrite !pprev_of_set_slot).
    split.
    + apply Hgoal.
      * by rewrite slot_val_set_pprev, slot_val_eq.
      * rewrite slot_val_set_pprev, slot_val_ne, slot_val_eq; done.
      * by rewrite pprev_of_eq.
      * intros x Hx. by apply not_elem_of_nil in Hx.
      * intros x Hx. by apply not_elem_of_nil in Hx.
      * done.
    + apply hsame_set_pprev; [|set_solver]. apply hsame_set_slot; [|done]. apply hsame_set_slot; [apply hsame_refl|set_solver].
Qed.

(** The fields after [m] has been linked in between [l1] and [l2]. *)
Lemma hlist_insert_view s s' h l1 l2 m : hlist s h (l1 ++ l2) -> m ∉ l1 ++ l2 -> m <> 0 ->
  (forall sl, slot_val s' sl = if decide (sl = NextOf m) then Some (default 0 (head l2))
     else if decide (sl = last_slot (FirstOf h) l1) then Some m else slot_val s sl) ->
  (forall x, pprev_of s' x = if decide (x = m) then Some (Some (last_slot (FirstOf h) l1))
     else if decide (Some x = head l2) then Some (Some (NextOf m)) else pprev_of s x) ->
  hlist s' h (l1 ++ m :: l2).
Proof.
  intros (Hd & H0 & (H1 & H2)%seg_app) Hm Hm0 Hsl Hpp. apply NoDup_app in Hd as (Hd1 & Hd12 & Hd2).
  assert (NextOf m <> last_slot (FirstOf h) l1) as Hne by (apply last_slot_ne; set_solver).
  split; [|split; [set_solver|]].
  - apply NoDup_app. split; [done|]. split; [|constructor; [set_solver|done]]. intros y Hy [->|Hy2]%elem_of_cons; [set_solver|]. by apply (Hd12 y).
  - apply seg_app. split.
    + eapply seg_relink; [done|done| | |].
      * by rewrite Hsl, decide_False, decide_True by done.
      * intros sl Hne' [->|(x & Hx & ->)]; rewrite Hsl, !decide_False; (done || set_solver).
      * intros x Hx. rewrite Hpp, !decide_False; [done| |set_solver]. intros E. symmetry in E. apply (Hd12 x Hx). by apply head_Some_elem_of.
    + split; [by rewrite Hpp, decide_True|]. destruct l2 as [|y l2]; cbn [head default seg] in *; [by rewrite Hsl, decide_True|].
      destruct H2 as [Hp2 H2]. apply NoDup_cons in Hd2 as [Hy Hd2]. split; [by rewrite Hsl, decide_True|]. split.
      * rewrite Hpp, decide_False, decide_True; [done|done|set_solver].
      * assert (forall x, x ∈ y :: l2 -> slot_val s' (NextOf x) = slot_val s (NextOf x)) as Hs.
        { intros x Hx. rewrite Hsl, !decide_False; [done| |set_solver]. apply last_slot_ne. intros Hin. by apply (Hd12 x). }
        eapply seg_same; [done|apply Hs; by left|]. intros x Hx. split; [apply Hs; by right|].
        rewrite Hpp, !decide_False; [done| |set_solver]. intros [= ->]. done.
Qed.

Lemma hlist_add_before_spec s h l1 next l2 n : hlist s h (l1 ++ next :: l2) -> n ∉ l1 ++ next :: l2 -> n <> 0 -> is_Some (pprev_of s n) ->
  wp (tuya_hlist_add_before n next) (fun _ s' => hlist s' h (l1 ++ n :: next :: l2) /\ hsame h (n :: l1 ++ next :: l2) s s') s.
Proof.
  intros Hh Hn Hn0 Hp. pose proof Hh as (Hd & H0 & (H1 & Hpn & H2)%seg_app). pose proof (seg_last _ _ _ _ H1) as Hlast. cbn [default head] in *.
  assert (next <> n) by set_solver. assert (NextOf n <> last_slot (FirstOf h) l1) as Hne by (apply last_slot_ne; set_solver).
  unfold tuya_hlist_add_before. apply wp_bind.
  assert (exists v, slot_val s (NextOf next) = Some v) as [v Hv] by (apply node_fields; rewrite Hpn; by eexists).
  eapply wp_rd_hnode; [done|done|]. cbn [hn_pprev]. apply wp_bind, wp_wr_pprev; [done|].
  set (s1 := set_pprev s n (Some (last_slot (FirstOf h) l1))).
  assert (forall x, pprev_of s1 x = if decide (x = n) then Some (Some (last_slot (FirstOf h) l1)) else pprev_of s x) as P1 by (intros; by apply pprev_of_set_pprev).
  assert (forall sl, slot_val s1 sl = slot_val s sl) as V1 by (intros; apply slot_val_set_pprev).
  apply wp_bind, wp_wr_hnext; [rewrite P1, decide_True by done; by eexists|]. set (s2 := set_slot s1 (NextOf n) next).
  assert (forall sl, slot_val s2 sl = if decide (sl = NextOf n) then Some next else slot_val s sl) as V2.
  { intros. unfold s2. rewrite slot_val_set_slot, V1; [done|]. rewrite V1. by apply node_fields. }
  assert (forall x, pprev_of s2 x = pprev_of s1 x) as P2 by (intros; apply pprev_of_set_slot).
  apply wp_bind, wp_wr_pprev; [rewrite P2, P1, decide_False, Hpn by done; by eexists|]. set (s3 := set_pprev s2 next (Some (NextOf n))).
  assert (forall sl, slot_val s3 sl = slot_val s2 sl) as V3 by (intros; apply slot_val_set_pprev).
  assert (forall x, pprev_of s3 x = if decide (x = next) then Some (Some (NextOf n)) else pprev_of s1 x) as P3.
  { intros. unfold s3. rewrite pprev_of_set_pprev, P2; [done|]. rewrite P2, P1, decide_False, Hpn by done. by eexists. }
  apply wp_bind. eapply wp_rd_hnode; [rewrite V3, V2, decide_True; done|rewrite P3, decide_False, P1, decide_True; done|]. cbn [hn_pprev].
  assert (is_Some (slot_val s3 (last_slot (FirstOf h) l1))) by (rewrite V3, V2, decide_False by done; by eexists).
  apply wp_wr_slot; [done|]. split.
  - eapply hlist_insert_view; [done|done|done| |].
    + intros sl. rewrite slot_val_set_slot, V3, V2 by done. cbn. repeat case_decide; subst; done.
    + intros x. rewrite pprev_of_set_slot, P3, P1. cbn. repeat case_decide; simplify_eq; done.
  - apply hsame_set_slot; [|apply last_slot_in; set_solver]. apply hsame_set_pprev; [|set_solver]. apply hsame_set_slot; [|set_solver].
    apply hsame_set_pprev; [apply hsame_refl|set_solver].
Qed.

Lemma hlist_add_after_spec s h l1 n l2 m : hlist s h (l1 ++ n :: l2) -> m ∉ l1 ++ n :: l2 -> m <> 0 -> is_Some (pprev_of s m) ->
  wp (tuya_hlist_add_after n m) (fun _ s' => hlist s' h (l1 ++ n :: m :: l2) /\ hsame h (m :: l1 ++ n :: l2) s s') s.
Proof.
  intros Hh Hm Hm0 Hp. pose proof Hh as (Hd & H0 & (H1 & Hpn & H2)%seg_app). cbn [default head] in *.
  assert (m <> n) by set_solver. assert (slot_val s (NextOf n) = Some (default 0 (head l2))) as Hv by (destruct l2; apply H2).
  assert (is_Some (pprev_of s n)) by (rewrite Hpn; by eexists). assert (is_Some (slot_val s (NextOf m))) by (by apply node_fields).
  unfold tuya_hlist_add_after. apply wp_bind. eapply wp_rd_hnode; [done|done|]. cbn [hn_next].
  apply wp_bind, wp_wr_hnext; [done|]. apply wp_bind, wp_wr_hnext; [by rewrite pprev_of_set_slot|].
  apply wp_bind, wp_wr_pprev; [by rewrite !pprev_of_set_slot|].
  set (s3 := set_pprev _ m _).
  assert (forall sl, slot_val s3 sl = if decide (sl = NextOf n) then Some m else if decide (sl = NextOf m) then Some (default 0 (head l2)) else slot_val s sl) as V3.
  { intros. unfold s3. rewrite slot_val_set_pprev, slot_val_set_slot; [by rewrite slot_val_set_slot by done|].
    rewrite slot_val_ne by (done || congruence). by apply node_fields. }
  assert (forall x, pprev_of s3 x = if decide (x = m) then Some (Some (NextOf n)) else pprev_of s x) as P3.
  { intros. unfold s3. rewrite pprev_of_set_pprev, !pprev_of_set_slot; [done|]. by rewrite !pprev_of_set_slot. }
  assert (hsame h (m :: l1 ++ n :: l2) s s3) as Hs3.
  { apply hsame_set_pprev; [|set_solver]. apply hsame_set_slot; [|set_solver]. apply hsame_set_slot; [apply hsame_refl|set_solver]. }
  apply wp_bind. eapply wp_rd_hnode; [rewrite V3, decide_False, decide_True by congruence; done|rewrite P3, decide_True; done|]. cbn [hn_next].
  rewrite cons_middle, (assoc_L (++)) in Hh. rewrite (cons_middle n), (assoc_L (++)).
  assert (last_slot (FirstOf h) (l1 ++ [n]) = NextOf n) as El by (unfold last_slot; by rewrite last_snoc).
  destruct l2 as [|y l2]; cbn [default head] in *; apply wp_when; intros E; zbool; [done| | |exfalso; apply H0; rewrite <-E; set_solver].
  - split; [|done]. eapply hlist_insert_view; [done|set_solver|done|..]; rewrite El.
    + intros sl. rewrite V3. cbn. repeat case_decide; simplify_eq; done.
    + intros x. rewrite P3. cbn. repeat case_decide; simplify_eq; done.
  - assert (is_Some (pprev_of s3 y)) by (rewrite P3, decide_False by set_solver; destruct H2 as (_ & -> & _); by eexists).
    apply wp_wr_pprev; [done|]. split; [|apply hsame_set_pprev; [done|set_solver]].
    eapply hlist_insert_view; [done|set_solver|done|..]; rewrite El.
    + intros sl. rewrite slot_val_set_pprev, V3. cbn. repeat case_decide; simplify_eq; done.
    + intros x. rewrite pprev_of_set_pprev, P3 by done. cbn. repeat case_decide; simplify_eq; try done. exfalso. set_solver.
Qed.

Lemma hlist_del_init_spec s h l1 x l2 : hlist s h (l1 ++ x :: l2) ->
  wp (tuya_hlist_del_init x) (fun _ s' => hlist s' h (l1 ++ l2) /\ hsame h (l1 ++ x :: l2) s s' /\ hl_nodes s' !! x = Some (mkHNode 0 None)) s.
Proof.
  intros Hh. pose proof Hh as (Hd & H0 & (H1 & Hpx & H2)%seg_app). cbn [default head] in *.
  assert (exists v, slot_val s (NextOf x) = Some v) as [v Hv] by (apply node_fields; rewrite Hpx; by eexists).
  apply NoDup_app in Hd as (_ & Hd12 & [Hx _]%NoDup_cons). assert (x ∉ l1 ++ l2) as Hxl by (intros [Hin|Hin]%elem_of_app; [apply (Hd12 _ Hin); by left|done]).
  unfold tuya_hlist_del_init, tuya_hlist_unhashed. apply wp_bind, wp_bind. eapply wp_rd_hnode; [done|done|]. apply wp_ret. cbn [hn_pprev negb when].
  apply wp_bind. eapply wp_mono; [by apply hlist_del_spec|]. intros [] s' (Hh' & Hsame & En).
  assert (is_Some (pprev_of s' x)) as Hp' by (unfold pprev_of in *; rewrite En; by rewrite Hpx).
  unfold tuya_init_hlist_node. apply wp_bind, wp_wr_hnext; [done|]. apply wp_wr_pprev; [by rewrite pprev_of_set_slot|].
  set (s2 := set_pprev _ _ _).
  assert (hsame h [x] s' s2) as Hs2 by (apply hsame_set_pprev, list_elem_of_singleton, eq_refl; apply hsame_set_slot; [apply hsame_refl|by apply list_elem_of_singleton]).
  split; [|split].
  - destruct Hh' as (Hd' & H0' & Hs'). split; [done|]. split; [done|]. eapply seg_same; [done|done|]. intros y Hy.
    assert (hl_nodes s2 !! y = hl_nodes s' !! y) as Ey by (apply Hs2, not_elem_of_cons; split; [by intros ->|apply not_elem_of_nil]).
    unfold pprev_of. cbn -[s2]. by rewrite Ey.
  - destruct Hsame as [S1 S2], Hs2 as [T1 T2]. split; [intros h' Hne; rewrite T1, S1; done|]. intros y Hy. rewrite T2, S2; [done| |]; set_solver.
  - unfold s2, pprev_of in *. cbn. rewrite !lookup_alter_eq. by destruct (hl_nodes s' !! x); [|destruct Hp'].
Qed.

(** On a well-formed chain the insertions put the new node at the head,
    before or after the node they name, the deletions take exactly their node out
    ([tuya_hlist_del_init] also resets it), and [tuya_hlist_empty] tells whether
    the chain is empty; forward and back links stay consistent, and heads and
    nodes of other chains are untouched. *)
Theorem tuya_hlist_correct s h l :
  hlist s h l ->
  (forall n, n ∉ l -> n <> 0 -> is_Some (pprev_of s n) ->
     wp (tuya_hlist_add_head n h) (fun _ s' => hlist s' h (n :: l) /\ hsame h (n :: l) s s') s /\
     (forall l1 x l2, l = l1 ++ x :: l2 ->
        wp (tuya_hlist_add_before n x) (fun _ s' => hlist s' h (l1 ++ n :: x :: l2) /\ hsame h (n :: l) s s') s /\
        wp (tuya_hlist_add_after x n) (fun _ s' => hlist s' h (l1 ++ x :: n :: l2) /\ hsame h (n :: l) s s') s)) /\
  (forall l1 x l2, l = l1 ++ x :: l2 ->
     wp (tuya_hlist_del x) (fun _ s' => hlist s' h (l1 ++ l2) /\ hsame h (l1 ++ l2) s s') s /\
     wp (tuya_hlist_del_init x) (fun _ s' => hlist s' h (l1 ++ l2) /\ hsame h l s s' /\ hl_nodes s' !! x = Some (mkHNode 0 None)) s) /\
  wp (tuya_hlist_empty h) (fun b s' => b = bool_decide (l = []) /\ s' = s) s.
Proof.
  intros Hh. split; [|split].
  - intros n Hn Hn0 Hp. split; [by apply hlist_add_head_spec|]. intros l1 x l2 ->.
    split; [by apply hlist_add_before_spec|by apply hlist_add_after_spec].
  - intros l1 x l2 ->. split; [|by apply hlist_del_init_spec]. eapply wp_mono; [by apply hlist_del_spec|]. intros [] s' (? & ? & _). done.
  - destruct Hh as (_ & H0 & Hs). unfold tuya_hlist_empty. apply wp_bind. eapply (wp_rd_first _ (default 0 (head l))); [destruct l; apply Hs|].
    apply wp_ret. split; [|done]. destruct l as [|x l]; [done|]. cbn. apply Z.eqb_neq. intros ->. apply H0. by left.
Qed.

Definition demo_chain : hmem :=
  HMem {[10 := mkHNode 20 (Some (FirstOf 1)); 20 := mkHNode 0 (Some (NextOf 10)); 30 := mkHNode 0 None]} {[1 := 10; 2 := 0]}.

Lemma demo_chain_ok : hlist demo_chain 1 [10; 20].
Proof. split; [by apply (bool_decide_unpack _)|]. split; [by apply (bool_decide_unpack _)|]. by vm_compute. Qed.

Lemma tuya_hlist_correct_witness :
  wp (tuya_hlist_add_before 30 20) (fun _ s' => hlist s' 1 [10; 30; 20] /\ hsame 1 [30; 10; 20] demo_chain s') demo_chain.
Proof.
  refine (proj1 (proj2 (proj1 (tuya_hlist_correct demo_chain 1 [10; 20] demo_chain_ok) 30 _ _ _) [10] 20 [] eq_refl)).
  - by apply (bool_decide_unpack _).
  - lia.
  - vm_compute. by eexists.
Defined.
