(* ===== verification/HashMap.v ===== *)
(** * The hash map: [include/utilities/src/tuya_hashmap.c]

    A table of hash chains.  An element is an allocation that holds a key pointer,
    a data pointer and a link node; a key is hashed with a table-driven CRC and two
    mixing steps.  The state is the allocator with the module's objects (maps,
    tables, elements) and the chains of [HList].  Keys are pointers to strings of
    the client, which the map neither copies nor changes: [str p] is the text of
    the string at [p]. *)

From S2P Require Import Prelude Alloc HList.

(** ** The hash *)

Definition crc32_tab : list Z := [
  0x00000000; 0x77073096; 0xee0e612c; 0x990951ba; 0x076dc419; 0x706af48f; 0xe963a535; 0x9e6495a3;
  0x0edb8832; 0x79dcb8a4; 0xe0d5e91e; 0x97d2d988; 0x09b64c2b; 0x7eb17cbd; 0xe7b82d07; 0x90bf1d91;
  0x1db71064; 0x6ab020f2; 0xf3b97148; 0x84be41de; 0x1adad47d; 0x6ddde4eb; 0xf4d4b551; 0x83d385c7;
  0x136c9856; 0x646ba8c0; 0xfd62f97a; 0x8a65c9ec; 0x14015c4f; 0x63066cd9; 0xfa0f3d63; 0x8d080df5;
  0x3b6e20c8; 0x4c69105e; 0xd56041e4; 0xa2677172; 0x3c03e4d1; 0x4b04d447; 0xd20d85fd; 0xa50ab56b;
  0x35b5a8fa; 0x42b2986c; 0xdbbbc9d6; 0xacbcf940; 0x32d86ce3; 0x45df5c75; 0xdcd60dcf; 0xabd13d59;
  0x26d930ac; 0x51de003a; 0xc8d75180; 0xbfd06116; 0x21b4f4b5; 0x56b3c423; 0xcfba9599; 0xb8bda50f;
  0x2802b89e; 0x5f058808; 0xc60cd9b2; 0xb10be924; 0x2f6f7c87; 0x58684c11; 0xc1611dab; 0xb6662d3d;
  0x76dc4190; 0x01db7106; 0x98d220bc; 0xefd5102a; 0x71b18589; 0x06b6b51f; 0x9fbfe4a5; 0xe8b8d433;
  0x7807c9a2; 0x0f00f934; 0x9609a88e; 0xe10e9818; 0x7f6a0dbb; 0x086d3d2d; 0x91646c97; 0xe6635c01;
  0x6b6b51f4; 0x1c6c6162; 0x856530d8; 0xf262004e; 0x6c0695ed; 0x1b01a57b; 0x8208f4c1; 0xf50fc457;
  0x65b0d9c6; 0x12b7e950; 0x8bbeb8ea; 0xfcb9887c; 0x62dd1ddf; 0x15da2d49; 0x8cd37cf3; 0xfbd44c65;
  0x4db26158; 0x3ab551ce; 0xa3bc0074; 0xd4bb30e2; 0x4adfa541; 0x3dd895d7; 0xa4d1c46d; 0xd3d6f4fb;
  0x4369e96a; 0x346ed9fc; 0xad678846; 0xda60b8d0; 0x44042d73; 0x33031de5; 0xaa0a4c5f; 0xdd0d7cc9;
  0x5005713c; 0x270241aa; 0xbe0b1010; 0xc90c2086; 0x5768b525; 0x206f85b3; 0xb966d409; 0xce61e49f;
  0x5edef90e; 0x29d9c998; 0xb0d09822; 0xc7d7a8b4; 0x59b33d17; 0x2eb40d81; 0xb7bd5c3b; 0xc0ba6cad;
  0xedb88320; 0x9abfb3b6; 0x03b6e20c; 0x74b1d29a; 0xead54739; 0x9dd277af; 0x04db2615; 0x73dc1683;
  0xe3630b12; 0x94643b84; 0x0d6d6a3e; 0x7a6a5aa8; 0xe40ecf0b; 0x9309ff9d; 0x0a00ae27; 0x7d079eb1;
  0xf00f9344; 0x8708a3d2; 0x1e01f268; 0x6906c2fe; 0xf762575d; 0x806567cb; 0x196c3671; 0x6e6b06e7;
  0xfed41b76; 0x89d32be0; 0x10da7a5a; 0x67dd4acc; 0xf9b9df6f; 0x8ebeeff9; 0x17b7be43; 0x60b08ed5;
  0xd6d6a3e8; 0xa1d1937e; 0x38d8c2c4; 0x4fdff252; 0xd1bb67f1; 0xa6bc5767; 0x3fb506dd; 0x48b2364b;
  0xd80d2bda; 0xaf0a1b4c; 0x36034af6; 0x41047a60; 0xdf60efc3; 0xa867df55; 0x316e8eef; 0x4669be79;
  0xcb61b38c; 0xbc66831a; 0x256fd2a0; 0x5268e236; 0xcc0c7795; 0xbb0b4703; 0x220216b9; 0x5505262f;
  0xc5ba3bbe; 0xb2bd0b28; 0x2bb45a92; 0x5cb36a04; 0xc2d7ffa7; 0xb5d0cf31; 0x2cd99e8b; 0x5bdeae1d;
  0x9b64c2b0; 0xec63f226; 0x756aa39c; 0x026d930a; 0x9c0906a9; 0xeb0e363f; 0x72076785; 0x05005713;
  0x95bf4a82; 0xe2b87a14; 0x7bb12bae; 0x0cb61b38; 0x92d28e9b; 0xe5d5be0d; 0x7cdcefb7; 0x0bdbdf21;
  0x86d3d2d4; 0xf1d4e242; 0x68ddb3f8; 0x1fda836e; 0x81be16cd; 0xf6b9265b; 0x6fb077e1; 0x18b74777;
  0x88085ae6; 0xff0f6a70; 0x66063bca; 0x11010b5c; 0x8f659eff; 0xf862ae69; 0x616bffd3; 0x166ccf45;
  0xa00ae278; 0xd70dd2ee; 0x4e048354; 0x3903b3c2; 0xa7672661; 0xd06016f7; 0x4969474d; 0x3e6e77db;
  0xaed16a4a; 0xd9d65adc; 0x40df0b66; 0x37d83bf0; 0xa9bcae53; 0xdebb9ec5; 0x47b2cf7f; 0x30b5ffe9;
  0xbdbdf21c; 0xcabac28a; 0x53b39330; 0x24b4a3a6; 0xbad03605; 0xcdd70693; 0x54de5729; 0x23d967bf;
  0xb3667a2e; 0xc4614ab8; 0x5d681b02; 0x2a6f2b94; 0xb40bbe37; 0xc30c8ea1; 0x5a05df1b; 0x2d02ef8d
].

Definition crc32_step (crc32val c : Z) : Z :=
  Z.lxor (crc32_tab !!! Z.to_nat (Z.land (Z.lxor crc32val c) 0xff)) (Z.shiftr crc32val 8).

Definition __crc32_hashmap (s : list Z) : Z := foldl crc32_step 0 s.

Definition mix (key : Z) : Z :=
  let key := u32 (key + u32 (Z.shiftl key 12)) in
  let key := Z.lxor key (Z.shiftr key 22) in
  let key := u32 (key + u32 (Z.shiftl key 4)) in
  let key := Z.lxor key (Z.shiftr key 9) in
  let key := u32 (key + u32 (Z.shiftl key 10)) in
  let key := Z.lxor key (Z.shiftr key 2) in
  let key := u32 (key + u32 (Z.shiftl key 7)) in
  let key := Z.lxor key (Z.shiftr key 12) in
  u32 (Z.shiftr key 3 * 2654435761).

(** [table_size] is an [int], converted to unsigned for the remainder; the result
    is stored in an [int] by the callers. *)
Definition __hashmap_hash_int (table_size : Z) (keystring : list Z) : Z :=
  s32 (mix (__crc32_hashmap keystring) mod u32 table_size).

(** ** Data *)

Record HASHMAP_T := mkMap { hm_size : Z; hm_table_size : Z; hm_list : Z }.
Record HASHMAP_ELEMENT_T := mkElem { he_key : Z; he_data : Z }.

Inductive hobj := OMap (m : HASHMAP_T) | OTable (n : Z) | OElem (e : HASHMAP_ELEMENT_T).

Definition SIZEOF_HASHMAP_T : Z := 16.
Definition SIZEOF_HASHMAP_ELEMENT_T : Z := 32.
Definition SIZEOF_HLIST_HEAD : Z := 8.

Definition obj_size (o : hobj) : Z :=
  match o with
  | OMap _ => SIZEOF_HASHMAP_T
  | OTable n => SIZEOF_HLIST_HEAD * n
  | OElem _ => SIZEOF_HASHMAP_ELEMENT_T
  end.

(** [&(element->node)], [HLIST_ENTRY(pos, ..., node)]; [&(element->data)] and
    [HLIST_ENTRY(iter, ..., data)]. *)
Definition node_of (e : Z) : Z := e + 16.
Definition entry_of (pos : Z) : Z := pos - 16.
Definition data_of (e : Z) : Z := e + 8.
Definition entry_of_data (iter : Z) : Z := iter - 8.
(** [&(m->list[i])] *)
Definition bucket_of (list i : Z) : Z := list + SIZEOF_HLIST_HEAD * i.

Record mapstate (A : Type) := MState { m_own : owned A hobj; m_links : hmem }.
Arguments MState {A}. Arguments m_own {A}. Arguments m_links {A}.

Inductive map_ret := MAP_OK | MAP_OMEM | MAP_MISSING.

Section HashMap.
Context {A : Type} `{!Allocator A}.
Local Abbreviation W := (M (mapstate A)).
Variable str : Z -> list Z.

Definition on_own {R} (c : M (owned A hobj) R) : W R := fun s =>
  match c (m_own s) with Ret r o => Ret r (MState o (m_links s)) | Fault => Fault | Diverge => Diverge end.
Definition on_links {R} (c : M hmem R) : W R := fun s =>
  match c (m_links s) with Ret r l => Ret r (MState (m_own s) l) | Fault => Fault | Diverge => Diverge end.

Definition get_map (p : Z) : W HASHMAP_T := o <- on_own (get_obj p) ;; match o with OMap x => ret x | _ => fault end.
Definition set_map (p : Z) (x : HASHMAP_T) : W unit := on_own (set_obj p (OMap x)).
Definition get_elem (p : Z) : W HASHMAP_ELEMENT_T := o <- on_own (get_obj p) ;; match o with OElem x => ret x | _ => fault end.

(** Fresh allocations get their content, and the fields of links inside them. *)
Definition new_map (p : Z) (x : HASHMAP_T) : W unit := on_own (init_obj p (OMap x)).
Definition table_heads (list : Z) (n : nat) (m : gmap Z Z) : gmap Z Z :=
  foldr (fun i m => <[bucket_of list (Z.of_nat i) := 0]> m) m (seq 0 n).
Definition new_table (p n : Z) : W unit := fun s =>
  Ret tt (MState (Own (o_alloc (m_own s)) (<[p := OTable n]> (o_objs (m_own s))))
                 (HMem (hl_nodes (m_links s)) (table_heads p (Z.to_nat n) (hl_heads (m_links s))))).
Definition new_elem (p : Z) (e : HASHMAP_ELEMENT_T) : W unit := fun s =>
  Ret tt (MState (Own (o_alloc (m_own s)) (<[p := OElem e]> (o_objs (m_own s)))) (with_node (node_of p) (mkHNode 0 None) (m_links s))).
Definition free_obj (p : Z) : W unit := on_own (bind (lift_alloc (al_free p)) (fun _ => drop_obj p)).
(** Releasing an element takes its node away. *)
Definition free_elem (p : Z) : W unit :=
  free_obj p ;;; on_links (modify (fun l => HMem (delete (node_of p) (hl_nodes l)) (hl_heads l))).

(** [strlen(a) == strlen(b) && strcmp(a, b) == 0] *)
Definition key_eq (a b : Z) : bool :=
  (Z.of_nat (length (str a)) =? Z.of_nat (length (str b))) && bool_decide (str a = str b).

(** ** Operations *)

(** The body of [HLIST_FOR_EACH_ENTRY] and [HLIST_FOR_EACH_ENTRY_CURR] in the
    search: the first matching element from [pos] on, or null. *)
Fixpoint find_loop (fuel : nat) (key pos : Z) : W Z :=
  match fuel with
  | O => out_of_fuel
  | S fuel' =>
    if pos =? 0 then ret 0
    else
      let tmp_element := entry_of pos in
      e <- get_elem tmp_element ;;
      if key_eq key (he_key e) then ret tmp_element
      else
        x <- on_links (rd_hnode pos) ;;
        find_loop fuel' key (hn_next x)
  end.

(** A chain has at most as many nodes as there are. *)
Definition chain_fuel (s : mapstate A) : nat := S (size (hl_nodes (m_links s))).

Definition __hash_find_next_element (curr : Z) : W Z :=
  e <- get_elem curr ;;
  x <- on_links (rd_hnode (node_of curr)) ;;
  fuel <- gets chain_fuel ;;
  find_loop fuel (he_key e) (hn_next x).

Definition __hash_find (m key : Z) : W Z :=
  x <- get_map m ;;
  let list := bucket_of (hm_list x) (__hashmap_hash_int (hm_table_size x) (str key)) in
  empty <- on_links (tuya_hlist_empty list) ;;
  if empty : bool then ret 0
  else
    first <- on_links (rd_first list) ;;
    fuel <- gets chain_fuel ;;
    find_loop fuel key first.

Definition tuya_hashmap_free (m : Z) : W unit :=
  x <- get_map m ;;
  when (negb (hm_list x =? 0)) (free_obj (hm_list x)) ;;;
  free_obj m.

Definition tuya_hashmap_new (table_size : Z) : W Z :=
  if table_size =? 0 then ret 0
  else
    m <- on_own (lift_alloc (al_malloc SIZEOF_HASHMAP_T)) ;;
    if m =? 0 then ret 0
    else
      new_map m (mkMap 0 0 0) ;;;
      list <- on_own (lift_alloc (al_malloc (table_size * SIZEOF_HLIST_HEAD))) ;;
      if list =? 0 then tuya_hashmap_free m ;;; ret 0
      else
        new_table list table_size ;;;
        set_map m (mkMap 0 (s32 table_size) list) ;;;
        ret m.

Definition tuya_hashmap_put (m key data : Z) : W map_ret :=
  element <- on_own (lift_alloc (al_malloc SIZEOF_HASHMAP_ELEMENT_T)) ;;
  if element =? 0 then ret MAP_OMEM
  else
    new_elem element (mkElem key data) ;;;
    x <- get_map m ;;
    let curr := __hashmap_hash_int (hm_table_size x) (str key) in
    on_links (tuya_hlist_add_head (node_of element) (bucket_of (hm_list x) curr)) ;;;
    set_map m (mkMap (s32 (hm_size x + 1)) (hm_table_size x) (hm_list x)) ;;;
    ret MAP_OK.

(** The result and the value stored through [arg]. *)
Definition tuya_hashmap_get (m key : Z) : W (map_ret * Z) :=
  element <- __hash_find m key ;;
  if element =? 0 then ret (MAP_MISSING, 0)
  else
    e <- get_elem element ;;
    ret (MAP_OK, he_data e).

(** The result and the new iterator. *)
Definition tuya_hashmap_data_traversal (m key arg_iterator : Z) : W (map_ret * Z) :=
  element <- (if arg_iterator =? 0 then __hash_find m key
              else __hash_find_next_element (entry_of_data arg_iterator)) ;;
  if element =? 0 then ret (MAP_MISSING, 0) else ret (MAP_OK, data_of element).

(** The loop of [tuya_hashmap_remove]: [tmp_element] is left at the element that
    ended the loop, or at the last one. *)
Fixpoint remove_loop (fuel : nat) (key data pos tmp_element : Z) : W Z :=
  match fuel with
  | O => out_of_fuel
  | S fuel' =>
    if pos =? 0 then ret tmp_element
    else
      let tmp_element := entry_of pos in
      e <- get_elem tmp_element ;;
      if key_eq key (he_key e) && ((data =? 0) || (he_data e =? data)) then ret tmp_element
      else
        x <- on_links (rd_hnode pos) ;;
        remove_loop fuel' key data (hn_next x) tmp_element
  end.

Definition tuya_hashmap_remove (m key data : Z) : W map_ret :=
  x <- get_map m ;;
  let list := bucket_of (hm_list x) (__hashmap_hash_int (hm_table_size x) (str key)) in
  empty <- on_links (tuya_hlist_empty list) ;;
  if empty : bool then ret MAP_MISSING
  else
    first <- on_links (rd_first list) ;;
    fuel <- gets chain_fuel ;;
    tmp_element <- remove_loop fuel key data first 0 ;;
    if tmp_element =? 0 then ret MAP_MISSING
    else
      on_links (__tuya_hlist_del (node_of tmp_element)) ;;;
      free_elem tmp_element ;;;
      x <- get_map m ;;
      set_map m (mkMap (s32 (hm_size x - 1)) (hm_table_size x) (hm_list x)) ;;;
      ret MAP_OK.

Definition tuya_hashmap_length (m : Z) : W Z :=
  if negb (m =? 0) then x <- get_map m ;; ret (hm_size x) else ret 0.

(** [TUYA_HASHMAP_FOR_EACH_DATA]: the data the loop body reads through its iterator. *)
Fixpoint for_each_data (fuel : nat) (m key iter : Z) : W (list Z) :=
  match fuel with
  | O => out_of_fuel
  | S fuel' =>
    r <- tuya_hashmap_data_traversal m key iter ;;
    match fst r with
    | MAP_OK =>
      e <- get_elem (entry_of_data (snd r)) ;;
      rest <- for_each_data fuel' m key (snd r) ;;
      ret (he_data e :: rest)
    | _ => ret []
    end
  end.
End HashMap.
