(* ===== verification/HashMapProps.v ===== *)
(** * The hash map is a multimap

    The chains of the table hold, bucket by bucket, the entries of one list, newest
    first.  Every operation is shown to act on that list, whatever the allocator
    does; the hash is shown to be the CRC its comment names. *)

From S2P Require Import Prelude MemHeap MemHeapProps MemHeapStore Alloc HList HashMap Client.

(** ** The CRC *)

(** The CRC of the polynomial [0xedb88320], one bit at a time. *)
Definition crc_bit (c : Z) : Z := Z.lxor (Z.shiftr c 1) (if Z.odd c then 0xedb88320 else 0).
Definition crc_byte (c b : Z) : Z := Nat.iter 8 crc_bit (Z.lxor c b).
Definition crc_ref (s : list Z) : Z := foldl crc_byte 0 s.

Lemma crc_bit_xor a b : crc_bit (Z.lxor a b) = Z.lxor (crc_bit a) (crc_bit b).
Proof.
  unfold crc_bit. rewrite Z.shiftr_lxor. rewrite <-!Z.bit0_odd, Z.lxor_spec.
  rewrite !Z.lxor_assoc. f_equal. rewrite <-(Z.lxor_assoc _ _ (if Z.testbit b 0 then _ else _)), (Z.lxor_comm (if Z.testbit a 0 then _ else _) (Z.shiftr b 1)), Z.lxor_assoc.
  f_equal. by destruct (Z.testbit a 0), (Z.testbit b 0).
Qed.

Lemma crc_bits_xor n a b : Nat.iter n crc_bit (Z.lxor a b) = Z.lxor (Nat.iter n crc_bit a) (Nat.iter n crc_bit b).
Proof. induction n as [|n IH]; [done|]. by rewrite !Nat.iter_succ, IH, crc_bit_xor. Qed.

Lemma crc_bits_shift n a : Nat.iter n crc_bit (Z.shiftl a (Z.of_nat n)) = a.
Proof.
  revert a. induction n as [|n IH]; intros a; [apply Z.shiftl_0_r|].
  replace (Z.shiftl a (Z.of_nat (S n))) with (Z.shiftl (Z.shiftl a 1) (Z.of_nat n)) by (rewrite Z.shiftl_shiftl by lia; f_equal; lia).
  rewrite Nat.iter_succ, IH. unfold crc_bit. rewrite Z.shiftr_shiftl_l, <-Z.bit0_odd, Z.shiftl_spec_low by lia. change (1 - 1) with 0. by rewrite Z.shiftl_0_r, Z.lxor_0_r.
Qed.

Lemma crc32_tab_ok i : 0 <= i < 256 -> crc32_tab !!! Z.to_nat i = Nat.iter 8 crc_bit i.
Proof.
  intros Hi. assert (forallb (fun k => crc32_tab !!! k =? Nat.iter 8 crc_bit (Z.of_nat k)) (seq 0 256) = true) as Hall by (by vm_compute).
  rewrite forallb_forall in Hall. specialize (Hall (Z.to_nat i)). rewrite Z2Nat.id in Hall by lia. apply Z.eqb_eq, Hall, in_seq. lia.
Qed.

Lemma split_byte x : x = Z.lxor (Z.land x 255) (Z.shiftl (Z.shiftr x 8) 8).
Proof.
  apply Z.bits_inj'. intros k Hk. rewrite Z.lxor_spec, Z.land_spec, Z.shiftl_spec by lia. change 255 with (Z.ones 8).
  destruct (decide (k < 8)) as [Hlt|Hge].
  - rewrite Z.ones_spec_low, (Z.testbit_neg_r _ (k - 8)) by lia. by rewrite andb_true_r, xorb_false_r.
  - rewrite Z.ones_spec_high by lia. rewrite Z.shiftr_spec by lia. rewrite andb_false_r, xorb_false_l. f_equal. lia.
Qed.

Lemma crc32_step_ok c b : 0 <= b < 256 -> crc32_step c b = crc_byte c b.
Proof.
  intros Hb. unfold crc32_step, crc_byte. rewrite (split_byte (Z.lxor c b)) at 2. rewrite crc_bits_xor.
  change (Z.shiftl (Z.shiftr (Z.lxor c b) 8) 8) with (Z.shiftl (Z.shiftr (Z.lxor c b) 8) (Z.of_nat 8)). rewrite crc_bits_shift.
  rewrite Z.shiftr_lxor. replace (Z.shiftr b 8) with 0 by (rewrite Z.shiftr_div_pow2 by lia; symmetry; apply Z.div_small; lia).
  rewrite Z.lxor_0_r, crc32_tab_ok; [done|]. change 0xff with (Z.ones 8). rewrite Z.land_ones by lia. apply Z.mod_pos_bound. lia.
Qed.

(** C39: the table-driven checksum [__crc32_hashmap] is the bit-serial CRC of the
    polynomial [0xedb88320] the source names, started at 0, on every byte string;
    and the hash of every string is an index of the table. *)
Theorem hashmap_crc_correct s n :
  Forall (fun b => 0 <= b < 256) s -> 0 < n < 2 ^ 31 ->
  __crc32_hashmap s = crc_ref s /\ 0 <= __hashmap_hash_int n s < n.
Proof.
  intros Hs Hn. split.
  - unfold __crc32_hashmap, crc_ref. generalize 0. induction Hs as [|b s Hb _ IH]; intros c; [done|]. cbn [foldl]. rewrite crc32_step_ok by done. apply IH.
  - unfold __hashmap_hash_int. rewrite (u32_small n) by lia. pose proof (Z.mod_pos_bound (mix (__crc32_hashmap s)) n). rewrite swrap_small; lia.
Qed.

(** The string ["dp"] in a table of 16 chains. *)
Lemma hashmap_crc_correct_witness : __crc32_hashmap [100; 112] = crc_ref [100; 112] /\ 0 <= __hashmap_hash_int 16 [100; 112] < 16.
Proof. refine (hashmap_crc_correct [100; 112] 16 _ _); [repeat (apply Forall_cons_2; [lia|]); constructor|lia]. Defined.

(** ** The entries of a map *)

Record entry := mkEntry { e_ptr : Z; e_key : Z; e_data : Z }.

Section Map.
Context {A : Type} `{!Allocator A}.
Variable str : Z -> list Z.

Definition hash (n : Z) (key : Z) : Z := __hashmap_hash_int n (str key).
Lemma hash_def n key : __hashmap_hash_int n (str key) = hash n key.
Proof. unfold hash. reflexivity. Qed.
Lemma hash_range n key : 0 < n < 536870912 -> 0 <= hash n key < n.
Proof.
  intros Hn. rewrite <-hash_def. unfold __hashmap_hash_int. rewrite (u32_small n) by lia.
  pose proof (Z.mod_pos_bound (mix (__crc32_hashmap (str key))) n). rewrite swrap_small; lia.
Qed.
#[local] Opaque hash __hashmap_hash_int.
Definition in_bucket (n i : Z) (e : entry) : Prop := hash n (e_key e) = i.
Definition node (e : entry) : Z := node_of (e_ptr e).
#[local] Instance in_bucket_dec n i e : Decision (in_bucket n i e).
Proof. unfold in_bucket. apply _. Defined.
Definition bucket (n i : Z) (es : list entry) : list entry := filter (in_bucket n i) es.

(** The map at [m] has [n] chains, at [lst], and holds [es], newest first. *)
Record hmap_rep (s : mapstate A) (m n lst : Z) (es : list entry) : Prop := {
  hr_own : owned_ok obj_size (m_own s);
  hr_map : o_objs (m_own s) !! m = Some (OMap (mkMap (Z.of_nat (length es)) n lst));
  hr_table : o_objs (m_own s) !! lst = Some (OTable n);
  hr_size : 0 < n < 536870912 /\ Z.of_nat (length es) < 2147483648;
  hr_chains i : 0 <= i < n -> hlist (m_links s) (bucket_of lst i) (node <$> bucket n i es);
  hr_elems e : e ∈ es -> o_objs (m_own s) !! e_ptr e = Some (OElem (mkElem (e_key e) (e_data e)));
  hr_nodup : NoDup (e_ptr <$> es)
}.

Lemma bucket_app n i l1 l2 : bucket n i (l1 ++ l2) = bucket n i l1 ++ bucket n i l2.
Proof. apply filter_app. Qed.
Lemma bucket_cons n i e l : bucket n i (e :: l) = if decide (in_bucket n i e) then e :: bucket n i l else bucket n i l.
Proof. apply filter_cons. Qed.
Lemma bucket_elem n i e es : e ∈ bucket n i es <-> in_bucket n i e /\ e ∈ es.
Proof. apply list_elem_of_filter. Qed.

Lemma node_inj e e' : node e = node e' -> e_ptr e = e_ptr e'.
Proof. unfold node, node_of. lia. Qed.

(** Entries with the same address are the same. *)
Lemma ptr_inj es e e' : NoDup (e_ptr <$> es) -> e ∈ es -> e' ∈ es -> e_ptr e = e_ptr e' -> e = e'.
Proof.
  intros Hd He He' E. apply list_elem_of_lookup in He as [i Hi], He' as [j Hj].
  assert (i = j) as ->; [|congruence]. eapply (NoDup_lookup (e_ptr <$> es) i j (e_ptr e)); [done|..]; rewrite list_lookup_fmap, ?Hi, ?Hj; cbn; congruence.
Qed.

(** [strlen] and [strcmp] compare the texts. *)
Lemma key_eq_spec a b : key_eq str a b = bool_decide (str a = str b).
Proof. unfold key_eq. case_bool_decide as E; [|apply andb_false_r]. by rewrite E, Z.eqb_refl. Qed.

(** ** Chains *)

(** There are at least as many nodes as a chain is long. *)
Lemma seg_nodes s l : forall sl v, seg s sl l v -> forall x, x ∈ l -> is_Some (hl_nodes s !! x).
Proof.
  induction l as [|y l IH]; intros sl v Hs x Hx; [by apply not_elem_of_nil in Hx|]. destruct Hs as (_ & Hp & Hs).
  apply elem_of_cons in Hx as [->|Hx]; [|by eapply IH]. unfold pprev_of in Hp. destruct (hl_nodes s !! y); [by eexists|done].
Qed.

Lemma chain_length s h l : hlist s h l -> (length l <= size (hl_nodes s))%nat.
Proof.
  intros (Hd & _ & Hs). pose proof (seg_nodes _ _ _ _ Hs) as Hn. rewrite <-(size_dom (D:=gset Z)).
  assert (list_to_set (C:=gset Z) l ⊆ dom (hl_nodes s)) as Hsub by (intros x Hx%elem_of_list_to_set; apply elem_of_dom; by apply Hn).
  apply subseteq_size in Hsub. by rewrite size_list_to_set in Hsub.
Qed.

Lemma wp_map_own {R} (c : M (owned A hobj) R) Q s : wp c (fun r o => Q r (MState o (m_links s))) (m_own s) -> wp (on_own c) Q s.
Proof. unfold wp, on_own. by destruct (c (m_own s)). Qed.
Lemma wp_map_links {R} (c : M hmem R) Q (s : mapstate A) : wp c (fun r l => Q r (MState (m_own s) l)) (m_links s) -> wp (on_links c) Q s.
Proof. unfold wp, on_links. by destruct (c (m_links s)). Qed.
Lemma wp_get_elem p e Q (s : mapstate A) : o_objs (m_own s) !! p = Some (OElem e) -> Q e s -> wp (get_elem p) Q s.
Proof. intros E HQ. unfold get_elem. apply wp_bind, wp_map_own. eapply wp_get_obj; [done|]. apply wp_ret. by destruct s. Qed.
Lemma wp_get_map p x Q (s : mapstate A) : o_objs (m_own s) !! p = Some (OMap x) -> Q x s -> wp (get_map p) Q s.
Proof. intros E HQ. unfold get_map. apply wp_bind, wp_map_own. eapply wp_get_obj; [done|]. apply wp_ret. by destruct s. Qed.
Lemma wp_set_map p x o Q (s : mapstate A) : o_objs (m_own s) !! p = Some o ->
  Q tt (MState (Own (o_alloc (m_own s)) (<[p := OMap x]> (o_objs (m_own s)))) (m_links s)) -> wp (set_map p x) Q s.
Proof. intros E HQ. unfold set_map. apply wp_map_own. by eapply wp_set_obj. Qed.
Lemma wp_rd_link n v p Q (s : mapstate A) : slot_val (m_links s) (NextOf n) = Some v -> pprev_of (m_links s) n = Some p -> Q (mkHNode v p) s -> wp (on_links (rd_hnode n)) Q s.
Proof. intros Hv Hp HQ. apply wp_map_links. eapply wp_rd_hnode; [done|done|]. by destruct s. Qed.
Lemma wp_bucket_head h v Q (s : mapstate A) : slot_val (m_links s) (FirstOf h) = Some v -> Q v s -> wp (on_links (rd_first h)) Q s.
Proof. intros Hv HQ. apply wp_map_links. eapply wp_rd_first; [done|]. by destruct s. Qed.

(** The first entry with the text of [key]. *)
Definition matches (key : Z) (e : entry) : Prop := str key = str (e_key e).
#[local] Instance matches_dec key e : Decision (matches key e).
Proof. unfold matches. apply _. Defined.
Definition find_entry (key : Z) (es : list entry) : option entry := head (filter (matches key) es).

(** A stretch of entries in memory from the field [sl] to the end of a chain. *)
Definition run_of (s : mapstate A) (sl : slot) (es : list entry) : Prop :=
  seg (m_links s) sl (node <$> es) 0 /\ forall e, e ∈ es -> o_objs (m_own s) !! e_ptr e = Some (OElem (mkElem (e_key e) (e_data e))) /\ node e <> 0.

Lemma run_of_cons s sl e es : run_of s sl (e :: es) ->
  slot_val (m_links s) sl = Some (node e) /\ pprev_of (m_links s) (node e) = Some (Some sl) /\ node e <> 0 /\
  o_objs (m_own s) !! entry_of (node e) = Some (OElem (mkElem (e_key e) (e_data e))) /\
  slot_val (m_links s) (NextOf (node e)) = Some (match es with [] => 0 | e' :: _ => node e' end) /\ run_of s (NextOf (node e)) es.
Proof.
  intros [Hs He]. cbn in Hs. destruct Hs as (E1 & E2 & E3). destruct (He e) as [Ho Hn]; [by left|]. split; [done|]. split; [done|]. split; [done|].
  split; [by replace (entry_of (node e)) with (e_ptr e) by (unfold entry_of, node, node_of; lia)|].
  split; [by destruct es; [|destruct E3]|]. split; [done|]. intros e' He'. apply He. by right.
Qed.

Lemma find_loop_spec s key es : forall fuel sl, run_of s sl es -> (length es < fuel)%nat ->
  wp (find_loop str fuel key (match es with [] => 0 | e :: _ => node e end))
     (fun r s' => s' = s /\ r = from_option e_ptr 0 (find_entry key es)) s.
Proof.
  induction es as [|e es IH]; intros fuel sl Hr Hf; (destruct fuel as [|fuel]; [cbn in Hf; lia|]); cbn [find_loop]; [by apply wp_ret|].
  apply run_of_cons in Hr as (_ & Hp & Hn0 & Ho & Hnx & Hr). rewrite (proj2 (Z.eqb_neq _ 0)) by done.
  apply wp_bind. eapply wp_get_elem; [done|]. cbn [he_key]. rewrite key_eq_spec. unfold find_entry. rewrite filter_cons.
  case_bool_decide as E; [rewrite decide_True by done; apply wp_ret; split; [done|]; cbn; unfold entry_of, node, node_of; lia|].
  rewrite decide_False by done. apply wp_bind. eapply wp_rd_link; [done|done|]. cbn [hn_next]. eapply IH; [done|cbn in Hf; lia].
Qed.

(** The chain of a key, and what the code finds in it. *)
Lemma rep_run s m n lst es i : hmap_rep s m n lst es -> 0 <= i < n ->
  run_of s (FirstOf (bucket_of lst i)) (bucket n i es) /\ (length (bucket n i es) < chain_fuel s)%nat.
Proof.
  intros Hr Hi. pose proof (hr_chains _ _ _ _ _ Hr i Hi) as Hc. split.
  - split; [apply Hc|]. intros e He. pose proof (proj1 (bucket_elem _ _ _ _) He) as [_ Hin]. split; [by apply (hr_elems _ _ _ _ _ Hr)|].
    destruct Hc as (_ & H0 & _). intros E. apply H0. rewrite <-E. by apply list_elem_of_fmap_2.
  - apply chain_length in Hc. rewrite length_fmap in Hc. unfold chain_fuel. lia.
Qed.

Lemma find_in_bucket n key es : find_entry key (bucket n (hash n key) es) = find_entry key es.
Proof.
  unfold find_entry, bucket. f_equal. induction es as [|e es IH]; [done|]. rewrite !filter_cons.
  destruct (decide (matches key e)) as [Hm|Hm].
  - rewrite (decide_True (P:=in_bucket n (hash n key) e)) by (unfold in_bucket, matches in *; by rewrite <-!hash_def, Hm).
    rewrite filter_cons, decide_True by done. by f_equal.
  - case_decide; [rewrite filter_cons, decide_False by done|]; done.
Qed.

Lemma run_of_first s sl es : run_of s sl es -> slot_val (m_links s) sl = Some (match es with [] => 0 | e :: _ => node e end).
Proof. destruct es; intros [Hs _]; [done|]. by destruct Hs. Qed.

(** Reading the head of a key's chain. *)
Lemma open_chain {R} s m n lst es key (k : Z -> M (mapstate A) R) (z : R) (Q : R -> mapstate A -> Prop) :
  hmap_rep s m n lst es ->
  (bucket n (hash n key) es = [] -> Q z s) ->
  (forall e b, bucket n (hash n key) es = e :: b -> wp (k (node e)) Q s) ->
  wp (x <- get_map m ;;
      let list := bucket_of (hm_list x) (__hashmap_hash_int (hm_table_size x) (str key)) in
      empty <- on_links (tuya_hlist_empty list) ;;
      if empty : bool then ret z else first <- on_links (rd_first list) ;; k first) Q s.
Proof.
  intros Hr Hnil Hcons. apply wp_bind. eapply wp_get_map; [apply Hr|]. cbn [hm_list hm_table_size].
  destruct (hr_size _ _ _ _ _ Hr) as [Hn _]. destruct (rep_run _ _ _ _ _ _ Hr (hash_range n key Hn)) as [Hrun _]. rewrite hash_def.
  pose proof (run_of_first _ _ _ Hrun) as Hf. apply wp_bind. unfold tuya_hlist_empty. apply wp_map_links, wp_bind. eapply wp_rd_first; [done|]. apply wp_ret.
  destruct (bucket n (hash n key) es) as [|e b] eqn:E; [cbn; apply wp_ret; destruct s; by apply Hnil|].
  apply run_of_cons in Hrun as (_ & _ & Hn0 & _). rewrite (proj2 (Z.eqb_neq _ 0)) by done.
  apply wp_bind. eapply wp_bucket_head; [done|]. destruct s. by eapply Hcons.
Qed.

Lemma hash_find_spec s m n lst es key : hmap_rep s m n lst es ->
  wp (__hash_find str m key) (fun r s' => s' = s /\ r = from_option e_ptr 0 (find_entry key es)) s.
Proof.
  intros Hr. unfold __hash_find. eapply (open_chain s m n lst es key (fun first => fuel <- gets chain_fuel ;; find_loop str fuel key first)); [done|..].
  - intros E. split; [done|]. rewrite <-(find_in_bucket n), E. done.
  - intros e b E. apply wp_bind, wp_gets. destruct (hr_size _ _ _ _ _ Hr) as [Hn _].
    destruct (rep_run _ _ _ _ _ _ Hr (hash_range n key Hn)) as [Hrun Hlen]. rewrite <-(find_in_bucket n). rewrite E in *. by eapply (find_loop_spec s key (e :: b)).
Qed.

Lemma find_entry_elem key es e : find_entry key es = Some e -> e ∈ es /\ matches key e.
Proof. unfold find_entry. intros H%head_Some_elem_of. apply list_elem_of_filter in H. tauto. Qed.

Lemma elem_ptr_pos s m n lst es e : hmap_rep s m n lst es -> e ∈ es -> 0 < e_ptr e.
Proof. intros Hr He. eapply (owned_positive obj_size); [apply Hr|]. by apply (hr_elems _ _ _ _ _ Hr). Qed.

Lemma get_spec s m n lst es key : hmap_rep s m n lst es ->
  wp (tuya_hashmap_get str m key) (fun r s' => s' = s /\ r = match find_entry key es with Some e => (MAP_OK, e_data e) | None => (MAP_MISSING, 0) end) s.
Proof.
  intros Hr. unfold tuya_hashmap_get. apply wp_bind. eapply wp_mono; [by eapply hash_find_spec|]. intros r s' [-> ->].
  destruct (find_entry key es) as [e|] eqn:E; cbn [from_option]; [|by apply wp_ret].
  apply find_entry_elem in E as [He _]. pose proof (elem_ptr_pos _ _ _ _ _ _ Hr He). rewrite (proj2 (Z.eqb_neq _ 0)) by lia.
  apply wp_bind. eapply wp_get_elem; [by apply (hr_elems _ _ _ _ _ Hr)|]. by apply wp_ret.
Qed.

(** ** Insertion *)

(** Entries of different chains are at different nodes. *)
Lemma chains_apart n i j es x : NoDup (e_ptr <$> es) -> i <> j -> x ∈ node <$> bucket n i es -> x ∉ node <$> bucket n j es.
Proof.
  intros Hd Hij (e & -> & He)%list_elem_of_fmap (e' & E & He')%list_elem_of_fmap. apply bucket_elem in He as [Hb He], He' as [Hb' He'].
  apply Hij. unfold in_bucket in *. rewrite <-Hb, <-Hb'. f_equal. f_equal. apply (ptr_inj es); [done..|]. by apply node_inj.
Qed.

Lemma bucket_of_ne lst i j : i <> j -> bucket_of lst i <> bucket_of lst j.
Proof. unfold bucket_of, SIZEOF_HLIST_HEAD. lia. Qed.

Lemma hlist_new_node s h l x v : x ∉ l -> hlist s h l -> hlist (with_node x v s) h l.
Proof.
  intros Hx (Hd & H0 & Hs). split; [done|]. split; [done|]. eapply seg_same; [done|done|]. intros y Hy.
  unfold pprev_of. cbn. by rewrite lookup_insert_ne by (intros ->; done).
Qed.

(** There is no memory for an element. *)
Definition no_room (s : mapstate A) : bool := refuses SIZEOF_HASHMAP_ELEMENT_T (o_alloc (m_own s)).

Lemma map_put_spec s m n lst es key data : hmap_rep s m n lst es -> Z.of_nat (length es) + 1 < 2147483648 ->
  wp (tuya_hashmap_put str m key data) (fun r s' =>
    (r = MAP_OMEM /\ no_room s = true /\ hmap_rep s' m n lst es) \/ (exists p, r = MAP_OK /\ no_room s = false /\ hmap_rep s' m n lst (mkEntry p key data :: es))) s.
Proof.
  intros Hr Hl. pose proof Hr as [Hown Hmap Htab [Hn _] Hch Hel Hnd]. unfold tuya_hashmap_put. apply wp_bind, wp_map_own.
  eapply (malloc_obj_cause obj_size); [done|done| |].
  { intros a Hf Ha. cbn. apply wp_ret. left. split; [done|]. split; [done|]. constructor; done || (cbn; lia). }
  intros p a Hf Hp0 Hp Hok. rewrite (proj2 (Z.eqb_neq p 0)) by done.
  set (e := mkEntry p key data). assert (forall e', e' ∈ es -> e_ptr e' <> p) as Hfresh by (intros e' He' E; apply Hel in He'; congruence).
  assert (forall i, node e ∉ node <$> bucket n i es) as Hnode.
  { intros i (e' & E & [_ He']%bucket_elem)%list_elem_of_fmap. apply (Hfresh e' He'). by apply node_inj in E. }
  specialize (Hok (OElem (mkElem key data)) ltac:(done)). pose proof (owned_positive obj_size _ p _ Hok (lookup_insert_eq _ _ _)) as Hpp.
  apply wp_bind. unfold new_elem, wp at 1. cbn [m_own m_links o_alloc o_objs].
  apply wp_bind. eapply wp_get_map; [cbn; rewrite lookup_insert_ne by congruence; done|]. cbn [hm_list hm_table_size hm_size].
 rewrite hash_def. pose proof (hash_range n key Hn) as Hh. apply wp_bind, wp_map_links. cbn [m_links m_own].
  eapply wp_mono.
  { apply (hlist_add_head_spec _ _ (node <$> bucket n (hash n key) es)); [apply hlist_new_node, Hch; [apply Hnode|done]|apply Hnode|unfold node_of; lia|].
    unfold pprev_of. cbn. rewrite lookup_insert_eq. by eexists. }
  intros [] l' [Hl' Hsame]. apply wp_bind. eapply wp_set_map; [cbn; rewrite lookup_insert_ne by congruence; done|]. apply wp_ret. right. exists p. split; [done|]. split; [done|].
  constructor; cbn [m_own m_links o_objs o_alloc].
  - change (Own a (<[m := ?x]> ?y)) with (Own (o_alloc (Own a y)) (<[m := x]> (o_objs (Own a y)))).
    eapply owned_ok_update; [done|cbn; rewrite lookup_insert_ne by congruence; done|done].
  - rewrite lookup_insert_eq. do 3 f_equal. cbn [length]. rewrite (swrap_small 32) by lia. lia.
  - rewrite !lookup_insert_ne by congruence. done.
  - cbn [length]. lia.
  - intros i Hi. rewrite bucket_cons. case_decide as Hb.
    + unfold in_bucket in Hb. cbn in Hb. subst i. exact Hl'.
    + unfold in_bucket in Hb. cbn in Hb. eapply hsame_hlist; [exact Hsame|by apply bucket_of_ne|..].
      * intros x Hx [->|Hx']%elem_of_cons; [by apply (Hnode i)|]. by eapply (chains_apart n i (hash n key)).
      * apply hlist_new_node; [apply Hnode|by apply Hch].
  - intros e' [->|He']%elem_of_cons; cbn [e_ptr e_key e_data].
    + rewrite lookup_insert_ne by congruence. apply lookup_insert_eq.
    + rewrite !lookup_insert_ne; [by apply Hel|by apply not_eq_sym, Hfresh|]. intros ->. apply Hel in He'. congruence.
  - cbn. constructor; [|done]. intros (e' & E & He')%list_elem_of_fmap. by apply (Hfresh e' He').
Qed.

(** ** Removal *)

Definition removable (key data : Z) (e : entry) : Prop := matches key e /\ (data = 0 \/ e_data e = data).
#[local] Instance removable_dec key data e : Decision (removable key data e).
Proof. unfold removable. apply _. Defined.

(** The element at which the loop of [tuya_hashmap_remove] stops: the first that
    matches, and the last one when none does. *)
Definition pick (key data : Z) (es : list entry) : option entry :=
  match head (filter (removable key data) es) with Some e => Some e | None => last es end.

Lemma pick_cons key data e es : pick key data (e :: es) =
  if decide (removable key data e) then Some e else Some (default e (pick key data es)).
Proof.
  unfold pick. rewrite filter_cons. case_decide; [done|]. destruct (head (filter _ es)); [done|]. rewrite last_cons. by destruct (last es).
Qed.

Lemma remove_loop_spec s key data es : forall fuel sl t, run_of s sl es -> (length es < fuel)%nat ->
  wp (remove_loop str fuel key data (match es with [] => 0 | e :: _ => node e end) t)
     (fun r s' => s' = s /\ r = from_option e_ptr t (pick key data es)) s.
Proof.
  induction es as [|e es IH]; intros fuel sl t Hr Hf; (destruct fuel as [|fuel]; [cbn in Hf; lia|]); cbn [remove_loop]; [by apply wp_ret|].
  apply run_of_cons in Hr as (_ & Hp & Hn0 & Ho & Hnx & Hr). rewrite (proj2 (Z.eqb_neq _ 0)) by done.
  apply wp_bind. eapply wp_get_elem; [done|]. cbn [he_key he_data]. rewrite key_eq_spec, pick_cons.
  assert (entry_of (node e) = e_ptr e) as Een by (unfold entry_of, node, node_of; lia). rewrite Een.
  destruct (decide (removable key data e)) as [Hm|Hm].
  - match goal with |- wp (if ?b then _ else _) _ _ => assert (b = true) as -> end; [|by apply wp_ret].
    destruct Hm as [Hm Hd]. apply andb_true_intro. split; [by apply bool_decide_eq_true|]. apply orb_true_intro. destruct Hd; [left|right]; by apply Z.eqb_eq.
  - match goal with |- wp (if ?b then _ else _) _ _ => assert (b = false) as -> end.
    { apply not_true_iff_false. intros [H1 H2]%andb_prop. apply Hm. apply bool_decide_eq_true in H1. split; [done|]. apply orb_prop in H2 as [?|?]; zbool; auto. }
    apply wp_bind. eapply wp_rd_link; [done|done|]. cbn [hn_next]. eapply wp_mono; [eapply IH; [done|cbn in Hf; lia]|].
    intros r s' [-> ->]. split; [done|]. by destruct (pick key data es).
Qed.

Lemma pick_elem key data es e : pick key data es = Some e -> e ∈ es.
Proof.
  unfold pick. destruct (head (filter (removable key data) es)) as [e'|] eqn:E; [|by apply last_Some_elem_of].
  intros [= <-]. apply head_Some_elem_of in E. by apply list_elem_of_filter in E as [_ ?].
Qed.

Lemma pick_nonempty key data e es : is_Some (pick key data (e :: es)).
Proof. rewrite pick_cons. case_decide; by eexists. Qed.

Lemma hlist_drop_node s h l x : x ∉ l -> hlist s h l -> hlist (HMem (delete x (hl_nodes s)) (hl_heads s)) h l.
Proof.
  intros Hx (Hd & H0 & Hs). split; [done|]. split; [done|]. eapply seg_same; [done|done|]. intros y Hy.
  unfold pprev_of. cbn. by rewrite lookup_delete_ne by (intros ->; done).
Qed.

(** Taking one entry out of its chain and releasing it. *)
Lemma unlink_spec s m n lst es1 e es2 :
  hmap_rep s m n lst (es1 ++ e :: es2) ->
  wp (on_links (__tuya_hlist_del (node_of (e_ptr e))) ;;; free_elem (e_ptr e) ;;;
      x <- get_map m ;; set_map m (mkMap (s32 (hm_size x - 1)) (hm_table_size x) (hm_list x)) ;;; ret MAP_OK)
     (fun r s' => r = MAP_OK /\ hmap_rep s' m n lst (es1 ++ es2)) s.
Proof.
  intros [Hown Hmap Htab [Hn Hlen] Hch Hel Hnd]. pose proof (hash_range n (e_key e) Hn) as Hh. set (h := hash n (e_key e)) in *.
  assert (bucket n h (es1 ++ e :: es2) = bucket n h es1 ++ e :: bucket n h es2) as Eb by (rewrite bucket_app, bucket_cons, decide_True; done).
  pose proof (Hch h Hh) as Hc. rewrite Eb, fmap_app, fmap_cons in Hc.
  assert (NoDup (e_ptr <$> es1 ++ es2) /\ forall e', e' ∈ es1 ++ es2 -> e_ptr e' <> e_ptr e) as [Hnd' Hne].
  { rewrite fmap_app, fmap_cons in Hnd. apply NoDup_app in Hnd as (H1 & H12 & [H2 H2']%NoDup_cons). split.
    - rewrite fmap_app. apply NoDup_app. split; [done|]. split; [|done]. intros x Hx Hx2. apply (H12 x Hx). by right.
    - intros e' [He|He]%elem_of_app E; [apply (H12 (e_ptr e')); [by apply list_elem_of_fmap_2|rewrite E; by left]|].
      apply H2. rewrite <-E. by apply list_elem_of_fmap_2. }
  assert (forall i, node e ∉ node <$> bucket n i (es1 ++ es2)) as Hnode.
  { intros i (e' & E & [_ He']%bucket_elem)%list_elem_of_fmap. apply (Hne e' He'). symmetry. by apply node_inj. }
  apply wp_bind, wp_map_links. eapply wp_mono; [exact (hlist_del_spec _ _ _ _ _ Hc)|]. intros [] l' (Hl' & Hsame & _).
  rewrite <-fmap_app, <-bucket_app in Hl', Hsame.
  apply wp_bind. unfold free_elem, free_obj. apply wp_bind, wp_map_own.
  pose proof (Hel e ltac:(set_solver)) as Hoe.
  eapply wp_mono; [by eapply (free_obj_spec obj_size)|]. cbn [m_own m_links]. intros [] o [Ho Eo].
  apply wp_map_links, wp_modify. cbn [m_own m_links]. assert (m <> e_ptr e) by congruence. assert (lst <> e_ptr e) by congruence.
  apply wp_bind. eapply wp_get_map; [cbn; rewrite Eo, lookup_delete_ne; done|]. cbn [hm_size hm_table_size hm_list].
  apply wp_bind. eapply wp_set_map; [cbn; rewrite Eo, lookup_delete_ne; done|]. apply wp_ret. split; [done|].
  assert (m <> lst) by congruence. rewrite length_app in Hlen. cbn [length] in Hlen.
  constructor; cbn [m_own m_links o_objs o_alloc]; rewrite ?Eo.
  - rewrite <-Eo. eapply owned_ok_update; [done|rewrite Eo, lookup_delete_ne; done|done].
  - rewrite lookup_insert_eq. do 3 f_equal. rewrite !length_app. cbn [length]. rewrite (swrap_small 32) by lia. lia.
  - by rewrite lookup_insert_ne, lookup_delete_ne.
  - rewrite length_app. lia.
  - intros i Hi. apply hlist_drop_node; [apply Hnode|]. destruct (decide (i = h)) as [->|Hih]; [exact Hl'|].
    assert (bucket n i (es1 ++ e :: es2) = bucket n i (es1 ++ es2)) as Ei.
    { rewrite !bucket_app, bucket_cons, decide_False; [done|]. unfold in_bucket. by apply not_eq_sym. }
    eapply hsame_hlist; [exact Hsame|by apply bucket_of_ne| |rewrite <-Ei; by apply Hch].
    intros x Hx. by eapply (chains_apart n i h).
  - intros e' He'. rewrite lookup_insert_ne, lookup_delete_ne; [apply Hel; set_solver|by apply not_eq_sym, Hne|].
    intros ->. assert (e' ∈ es1 ++ e :: es2) as Hin by set_solver. apply Hel in Hin. congruence.
  - done.
Qed.

(** An element splits a list without duplicates in one way. *)
Lemma NoDup_split (e : entry) l1 : forall k1 l2 k2, NoDup (l1 ++ e :: l2) -> l1 ++ e :: l2 = k1 ++ e :: k2 -> k1 = l1 /\ k2 = l2.
Proof.
  induction l1 as [|x l1 IH]; intros [|y k1] l2 k2 Hd E; cbn in *; apply NoDup_cons in Hd as [Hx Hd]; simplify_eq.
  - done.
  - exfalso. apply Hx. set_solver.
  - exfalso. apply Hx. set_solver.
  - destruct (IH k1 l2 k2 Hd) as [-> ->]; done.
Qed.

Lemma remove_spec s m n lst es key data : hmap_rep s m n lst es ->
  wp (tuya_hashmap_remove str m key data) (fun r s' =>
    match pick key data (bucket n (hash n key) es) with
    | None => r = MAP_MISSING /\ hmap_rep s' m n lst es
    | Some e => r = MAP_OK /\ forall es1 es2, es = es1 ++ e :: es2 -> hmap_rep s' m n lst (es1 ++ es2)
    end) s.
Proof.
  intros Hr. unfold tuya_hashmap_remove.
  eapply (open_chain s m n lst es key (fun first => fuel <- gets chain_fuel ;; tmp_element <- remove_loop str fuel key data first 0 ;;
    if tmp_element =? 0 then ret MAP_MISSING else on_links (__tuya_hlist_del (node_of tmp_element)) ;;; free_elem tmp_element ;;;
      x <- get_map m ;; set_map m (mkMap (s32 (hm_size x - 1)) (hm_table_size x) (hm_list x)) ;;; ret MAP_OK)); [done|..].
  - intros ->. done.
  - intros e b E. apply wp_bind, wp_gets. destruct (hr_size _ _ _ _ _ Hr) as [Hn _].
    destruct (rep_run _ _ _ _ _ _ Hr (hash_range n key Hn)) as [Hrun Hlen]. rewrite E in *.
    apply wp_bind. eapply wp_mono; [by eapply (remove_loop_spec s key data (e :: b))|]. intros r s' [-> ->].
    destruct (pick_nonempty key data e b) as [x Hx]. rewrite Hx. cbn [from_option].
    assert (x ∈ es) as Hxe. { apply pick_elem in Hx. rewrite <-E in Hx. by apply bucket_elem in Hx as [_ ?]. }
    pose proof (elem_ptr_pos _ _ _ _ _ _ Hr Hxe). rewrite (proj2 (Z.eqb_neq _ 0)) by lia.
    apply list_elem_of_split in Hxe as (es1 & es2 & ->). eapply wp_mono; [by apply unlink_spec|].
    intros r s' [-> Hr']. split; [done|]. intros es1' es2' Ees.
    assert (es1' = es1 /\ es2' = es2) as [-> ->]; [|done]. apply (NoDup_split x); [|done].
    apply (NoDup_fmap_1 e_ptr), Hr.
Qed.

(** ** Iteration *)

Lemma run_of_app s b1 : forall sl e b2, run_of s sl (b1 ++ e :: b2) ->
  (exists sl', pprev_of (m_links s) (node e) = Some sl') /\
  slot_val (m_links s) (NextOf (node e)) = Some (match b2 with [] => 0 | e' :: _ => node e' end) /\ run_of s (NextOf (node e)) b2.
Proof.
  induction b1 as [|x b1 IH]; intros sl e b2 Hr; cbn [app] in Hr; apply run_of_cons in Hr as (_ & Hp & _ & _ & Hn & Hr); [|by eapply IH].
  split; [by eexists|done].
Qed.

Lemma hash_find_next_spec s m n lst es e b1 b2 : hmap_rep s m n lst es -> bucket n (hash n (e_key e)) es = b1 ++ e :: b2 ->
  wp (__hash_find_next_element str (e_ptr e)) (fun r s' => s' = s /\ r = from_option e_ptr 0 (find_entry (e_key e) b2)) s.
Proof.
  intros Hr Eb. destruct (hr_size _ _ _ _ _ Hr) as [Hn _]. destruct (rep_run _ _ _ _ _ _ Hr (hash_range n (e_key e) Hn)) as [Hrun Hlen]. rewrite Eb in Hrun, Hlen.
  assert (e ∈ es) as He by (apply (bucket_elem n (hash n (e_key e))); rewrite Eb; set_solver).
  unfold __hash_find_next_element. apply wp_bind. eapply wp_get_elem; [by apply (hr_elems _ _ _ _ _ Hr)|]. cbn [he_key].
  destruct (run_of_app _ _ _ _ _ Hrun) as ([sl' Hp] & Hv & Hrun2). apply wp_bind. eapply wp_rd_link; [done|done|].
  apply wp_bind, wp_gets. eapply find_loop_spec; [done|]. rewrite length_app in Hlen. cbn [length] in Hlen. lia.
Qed.

Lemma find_entry_split key b e : find_entry key b = Some e -> exists b1 b2, b = b1 ++ e :: b2 /\ filter (matches key) b = e :: filter (matches key) b2.
Proof.
  unfold find_entry. induction b as [|x b IH]; [done|]. rewrite filter_cons. case_decide as Hm.
  - cbn. intros [= ->]. by exists [], b.
  - intros E. destruct (IH E) as (b1 & b2 & -> & ->). by exists (x :: b1), b2.
Qed.

Lemma filter_nil_find key b : find_entry key b = None -> filter (matches key) b = [].
Proof. unfold find_entry. by destruct (filter _ b). Qed.

(** The search of one step of the iteration: in what is left of the chain. *)
Lemma traversal_step s m n lst es key iter rest : hmap_rep s m n lst es ->
  (iter = 0 /\ rest = bucket n (hash n key) es \/
   exists e b1, iter = data_of (e_ptr e) /\ matches key e /\ bucket n (hash n key) es = b1 ++ e :: rest) ->
  wp (tuya_hashmap_data_traversal str m key iter) (fun r s' => s' = s /\
    r = match find_entry key rest with Some e => (MAP_OK, data_of (e_ptr e)) | None => (MAP_MISSING, 0) end) s.
Proof.
  intros Hr Hit. unfold tuya_hashmap_data_traversal. apply wp_bind.
  apply (wp_mono _ (fun r s' => s' = s /\ r = from_option e_ptr 0 (find_entry key rest))).
  - destruct Hit as [[-> ->]|(e & b1 & -> & Hm & Eb)].
    + cbn. rewrite find_in_bucket. by eapply hash_find_spec.
    + assert (hash n key = hash n (e_key e)) as Eh by (rewrite <-!hash_def; by rewrite Hm).
      assert (e ∈ es) as He by (apply (bucket_elem n (hash n key)); rewrite Eb; set_solver).
      pose proof (elem_ptr_pos _ _ _ _ _ _ Hr He). rewrite (proj2 (Z.eqb_neq _ 0)) by (unfold data_of; lia).
      replace (entry_of_data (data_of (e_ptr e))) with (e_ptr e) by (unfold entry_of_data, data_of; lia). rewrite Eh in Eb.
      eapply wp_mono; [by eapply hash_find_next_spec|]. intros r s' [-> ->]. split; [done|]. unfold find_entry. do 2 f_equal.
      apply list_filter_iff. intros x. unfold matches in *. by rewrite Hm.
  - intros r s' [-> ->]. destruct (find_entry key rest) as [e|] eqn:E; cbn [from_option]; [|by apply wp_ret].
    apply find_entry_elem in E as [He _].
    assert (e ∈ es) as He'.
    { destruct Hit as [[_ ->]|(e' & b1 & _ & _ & Eb)]; [by apply bucket_elem in He as [_ ?]|]. apply (bucket_elem n (hash n key)). rewrite Eb. set_solver. }
    pose proof (elem_ptr_pos _ _ _ _ _ _ Hr He'). rewrite (proj2 (Z.eqb_neq _ 0)) by lia. by apply wp_ret.
Qed.

Lemma for_each_spec s m n lst es key : hmap_rep s m n lst es -> forall fuel iter rest,
  (iter = 0 /\ rest = bucket n (hash n key) es \/
   exists e b1, iter = data_of (e_ptr e) /\ matches key e /\ bucket n (hash n key) es = b1 ++ e :: rest) ->
  (length rest < fuel)%nat ->
  wp (for_each_data str fuel m key iter) (fun r s' => s' = s /\ r = e_data <$> filter (matches key) rest) s.
Proof.
  intros Hr fuel. induction fuel as [|fuel IH]; intros iter rest Hit Hf; [lia|]. cbn [for_each_data]. apply wp_bind.
  eapply wp_mono; [by eapply traversal_step|]. intros r s' [-> ->]. destruct (find_entry key rest) as [e|] eqn:E; cbn [fst snd].
  - destruct (find_entry_split _ _ _ E) as (b1 & b2 & -> & ->). apply find_entry_elem in E as [_ Hm].
    assert (exists b0, bucket n (hash n key) es = b0 ++ e :: b2) as [b0 Eb].
    { destruct Hit as [[_ <-]|(e' & b1' & _ & _ & ->)]; [by exists b1|]. exists (b1' ++ e' :: b1). by rewrite <-(assoc_L (++)). }
    assert (e ∈ es) as He by (apply (bucket_elem n (hash n key)); rewrite Eb; set_solver).
    replace (entry_of_data (data_of (e_ptr e))) with (e_ptr e) by (unfold entry_of_data, data_of; lia).
    apply wp_bind. eapply wp_get_elem; [by apply (hr_elems _ _ _ _ _ Hr)|]. apply wp_bind.
    eapply wp_mono; [apply (IH _ b2); [right; by exists e, b0|rewrite length_app in Hf; cbn in Hf; lia]|]. intros r s' [-> ->]. by apply wp_ret.
  - rewrite filter_nil_find by done. by apply wp_ret.
Qed.

(** ** Creation and release *)

Lemma table_heads_lookup lst n i m : 0 <= i < Z.of_nat n -> table_heads lst n m !! bucket_of lst i = Some 0.
Proof.
  intros Hi. unfold table_heads. assert (Z.to_nat i ∈ seq 0 n) as Hin by (apply elem_of_seq; lia).
  induction (seq 0 n) as [|k l IH]; [by apply not_elem_of_nil in Hin|]. cbn [foldr]. destruct (decide (Z.of_nat k = i)) as [<-|Hne].
  - apply lookup_insert_eq.
  - rewrite lookup_insert_ne by (by apply bucket_of_ne). apply IH. apply elem_of_cons in Hin as [E|?]; [lia|done].
Qed.

Lemma new_spec s n : owned_ok obj_size (m_own s) -> 0 < n < 536870912 ->
  wp (tuya_hashmap_new n) (fun m s' =>
    (m = 0 /\ owned_ok obj_size (m_own s') /\ o_objs (m_own s') = o_objs (m_own s)) \/
    (exists lst, m <> 0 /\ m <> lst /\ o_objs (m_own s) !! m = None /\ o_objs (m_own s) !! lst = None /\ hmap_rep s' m n lst [] /\
       forall x, x <> m -> x <> lst -> o_objs (m_own s') !! x = o_objs (m_own s) !! x)) s.
Proof.
  intros Hown Hn. unfold tuya_hashmap_new. rewrite (proj2 (Z.eqb_neq n 0)) by lia. apply wp_bind, wp_map_own.
  eapply (malloc_obj_spec obj_size); [done|done| |].
  { intros a Ha. cbn. apply wp_ret. by left. }
  intros m a Hm0 Hm Hok. rewrite (proj2 (Z.eqb_neq m 0)) by done. specialize (Hok (OMap (mkMap 0 0 0)) ltac:(done)).
  apply wp_bind. unfold new_map. apply wp_map_own. unfold init_obj, wp at 1. cbn [m_own m_links o_objs o_alloc].
  apply wp_bind, wp_map_own. eapply (malloc_obj_spec obj_size); [done|unfold SIZEOF_HLIST_HEAD; lia| |].
  - intros a' Ha'. cbn [m_own m_links o_objs o_alloc]. rewrite Z.eqb_refl. apply wp_bind. unfold tuya_hashmap_free.
    apply wp_bind. eapply wp_get_map; [cbn; apply lookup_insert_eq|]. cbn [hm_list]. cbn [negb Z.eqb when].
    apply wp_bind, wp_ret. unfold free_obj. apply wp_map_own. cbn [m_own].
    eapply wp_mono; [eapply (free_obj_spec obj_size); [done|cbn; apply lookup_insert_eq]|]. intros [] o [Ho Eo]. apply wp_ret. left.
    split; [done|]. split; [done|]. cbn. rewrite Eo. cbn. by rewrite delete_insert_id.
  - cbn [m_own m_links o_objs o_alloc]. intros lst a' Hl0 Hl Hok'. rewrite (proj2 (Z.eqb_neq lst 0)) by done.
    specialize (Hok' (OTable n) ltac:(cbn; lia)). apply wp_bind. unfold new_table, wp at 1. cbn [m_own m_links o_objs o_alloc].
    assert (lst <> m) as Hne by (intros ->; by rewrite lookup_insert_eq in Hl). rewrite lookup_insert_ne in Hl by done.
    apply wp_bind. eapply wp_set_map; [cbn; rewrite lookup_insert_ne, lookup_insert_eq; done|]. apply wp_ret. right. exists lst.
    cbn [m_own m_links o_objs o_alloc]. split; [done|]. split; [done|]. split; [done|]. split; [done|]. split.
    + constructor; cbn [m_own m_links o_objs o_alloc].
      * change (Own a' (<[m := ?x]> ?y)) with (Own (o_alloc (Own a' y)) (<[m := x]> (o_objs (Own a' y)))).
        eapply owned_ok_update; [done|cbn; rewrite lookup_insert_ne, lookup_insert_eq; done|done].
      * rewrite lookup_insert_eq. rewrite (swrap_small 32) by lia. done.
      * rewrite lookup_insert_ne, lookup_insert_eq; done.
      * cbn. lia.
      * intros i Hi. split; [constructor|]. split; [apply not_elem_of_nil|]. cbn. apply table_heads_lookup. lia.
      * intros e He. by apply not_elem_of_nil in He.
      * constructor.
    + intros x Hxm Hxl. by rewrite !lookup_insert_ne.
Qed.

Lemma map_free_spec s m n lst es : hmap_rep s m n lst es ->
  wp (tuya_hashmap_free m) (fun _ s' => owned_ok obj_size (m_own s') /\ o_objs (m_own s') = delete m (delete lst (o_objs (m_own s)))) s.
Proof.
  intros Hr. pose proof (owned_positive obj_size _ _ _ (hr_own _ _ _ _ _ Hr) (hr_table _ _ _ _ _ Hr)).
  assert (m <> lst) by (intros ->; pose proof (hr_map _ _ _ _ _ Hr); pose proof (hr_table _ _ _ _ _ Hr); congruence).
  unfold tuya_hashmap_free. apply wp_bind. eapply wp_get_map; [apply Hr|]. cbn [hm_list]. apply wp_bind, wp_when; intros E; zbool; [|lia].
  unfold free_obj. apply wp_map_own. eapply wp_mono; [eapply (free_obj_spec obj_size); apply Hr|]. intros [] o [Ho Eo].
  apply wp_map_own. cbn [m_own]. eapply wp_mono; [eapply (free_obj_spec obj_size); [done|rewrite Eo, lookup_delete_ne; [apply Hr|done]]|].
  intros [] o' [Ho' Eo']. split; [done|]. cbn. by rewrite Eo', Eo.
Qed.

(** ** The abstract map *)

Inductive mop := OpPut (key data : Z) | OpGet (key : Z) | OpRemove (key data : Z) | OpLength.
(** Results; that of an insertion with whether there was no memory for it. *)
Inductive mres := RPut (r : map_ret) (full : bool) | RGet (r : map_ret) (data : Z) | RRemove (r : map_ret) | RLength (n : Z).

Definition exec_mop (m : Z) (o : mop) : M (mapstate A) mres :=
  match o with
  | OpPut key data => full <- gets no_room ;; r <- tuya_hashmap_put str m key data ;; ret (RPut r full)
  | OpGet key => x <- tuya_hashmap_get str m key ;; ret (RGet (fst x) (snd x))
  | OpRemove key data => r <- tuya_hashmap_remove str m key data ;; ret (RRemove r)
  | OpLength => v <- tuya_hashmap_length m ;; ret (RLength v)
  end.

(** The multimap: pairs of a text and a value, newest first.  An insertion adds a pair,
    and fails exactly when there is no memory; a look-up gives the newest value of the key; a
    removal takes the newest pair that matches. *)
Definition may_remove (t : list Z) (data : Z) (p : list Z * Z) : Prop := fst p = t /\ (data = 0 \/ snd p = data).

Inductive mstep : list (list Z * Z) -> mop -> mres -> list (list Z * Z) -> Prop :=
| MPut kv key data : mstep kv (OpPut key data) (RPut MAP_OK false) ((str key, data) :: kv)
| MPutFail kv key data : mstep kv (OpPut key data) (RPut MAP_OMEM true) kv
| MGet kv1 kv2 key d : Forall (fun p => fst p <> str key) kv1 ->
    mstep (kv1 ++ (str key, d) :: kv2) (OpGet key) (RGet MAP_OK d) (kv1 ++ (str key, d) :: kv2)
| MGetMissing kv key : Forall (fun p => fst p <> str key) kv -> mstep kv (OpGet key) (RGet MAP_MISSING 0) kv
| MRemove kv1 kv2 key data p : Forall (fun q => ~ may_remove (str key) data q) kv1 -> may_remove (str key) data p ->
    mstep (kv1 ++ p :: kv2) (OpRemove key data) (RRemove MAP_OK) (kv1 ++ kv2)
| MLength kv : mstep kv OpLength (RLength (Z.of_nat (length kv))) kv.

(** What the code handles as a multimap does: a pair that is removed has to be there.  (When
    it is not, see [remove_absent_deletes_other].)  The number of pairs is an [int]. *)
Definition mallowed (kv : list (list Z * Z)) (o : mop) : Prop :=
  Z.of_nat (length kv) + 1 < 2147483648 /\ match o with OpRemove key data => Exists (may_remove (str key) data) kv | _ => True end.

Definition same_hash (n : Z) (t t' : list Z) : Prop := __hashmap_hash_int n t = __hashmap_hash_int n t'.
Definition pair_of (e : entry) : list Z * Z := (str (e_key e), e_data e).
(** The map at [m], with [n] chains, holds the pairs [kv]. *)
Definition has_map (s : mapstate A) (m n : Z) (kv : list (list Z * Z)) : Prop :=
  exists lst es, hmap_rep s m n lst es /\ kv = pair_of <$> es.

Lemma head_filter (P : entry -> Prop) `{!forall x, Decision (P x)} l e :
  head (filter P l) = Some e -> exists l1 l2, l = l1 ++ e :: l2 /\ Forall (fun x => ~ P x) l1 /\ P e.
Proof.
  induction l as [|x l IH]; [done|]. rewrite filter_cons. case_decide as Hx.
  - cbn. intros [= ->]. exists [], l. split; [done|]. split; [constructor|done].
  - intros E. destruct (IH E) as (l1 & l2 & -> & Hn & He). exists (x :: l1), l2. split; [done|]. split; [by constructor|done].
Qed.

Lemma filter_nil (P : entry -> Prop) `{!forall x, Decision (P x)} l : head (filter P l) = None -> Forall (fun x => ~ P x) l.
Proof.
  intros E%head_None. apply Forall_forall. intros x Hx Hpx.
  assert (x ∈ filter P l) as Hin by (by apply list_elem_of_filter). rewrite E in Hin. by apply not_elem_of_nil in Hin.
Qed.

Lemma removable_in_bucket n key data es : filter (removable key data) (bucket n (hash n key) es) = filter (removable key data) es.
Proof.
  unfold bucket. rewrite list_filter_filter. apply list_filter_iff. intros e. split; [tauto|]. intros [Hm Hd]. split; [done|].
  unfold in_bucket. rewrite <-!hash_def. by rewrite Hm.
Qed.

Lemma may_remove_pair key data e : may_remove (str key) data (pair_of e) <-> removable key data e.
Proof. unfold may_remove, removable, matches. cbn. naive_solver. Qed.

Lemma same_hash_pair n key e : same_hash n (fst (pair_of e)) (str key) <-> in_bucket n (hash n key) e.
Proof. unfold same_hash, in_bucket. by rewrite <-!hash_def. Qed.

(** What [tuya_hashmap_remove] takes out when there is a pair to remove. *)
Lemma pick_step n key data es : Exists (may_remove (str key) data) (pair_of <$> es) ->
  exists e es1 es2, pick key data (bucket n (hash n key) es) = Some e /\ es = es1 ++ e :: es2 /\ mstep (pair_of <$> es) (OpRemove key data) (RRemove MAP_OK) (pair_of <$> es1 ++ es2).
Proof.
  intros Hex. unfold pick. rewrite removable_in_bucket. destruct (head (filter (removable key data) es)) as [e|] eqn:E.
  - apply head_filter in E as (es1 & es2 & -> & Hn & He). exists e, es1, es2. split; [done|]. split; [done|]. rewrite !fmap_app, fmap_cons. apply MRemove; [|by apply may_remove_pair].
    apply Forall_fmap. eapply Forall_impl; [done|]. intros x Hx. cbn. by rewrite may_remove_pair.
  - apply filter_nil in E. exfalso. apply Exists_exists in Hex as (y & Hy & Hm). apply list_elem_of_fmap in Hy as (x & -> & Hx). apply may_remove_pair in Hm. by apply (proj1 (Forall_forall _ _) E x Hx).
Qed.

Lemma mop_ok m n kv o s : has_map s m n kv -> mallowed kv o -> wp (exec_mop m o) (fun r s' => exists kv', mstep kv o r kv' /\ has_map s' m n kv') s.
Proof.
  intros (lst & es & Hr & ->) [Hl Hal]. rewrite length_fmap in Hl. unfold has_map. destruct o as [key data|key|key data|]; cbn [exec_mop].
  - apply wp_bind, wp_gets, wp_bind. eapply wp_mono; [by apply (map_put_spec s m n lst es)|]. cbv beta. intros r s' [(-> & -> & Hr')|(p & -> & -> & Hr')]; apply wp_ret.
    + eexists. split; [constructor|by eauto].
    + exists (pair_of <$> mkEntry p key data :: es). split; [constructor|by eauto].
  - apply wp_bind. eapply wp_mono; [by eapply get_spec|]. cbv beta. intros r s' [-> ->]. apply wp_ret. eexists. split; [|by eauto].
    destruct (find_entry key es) as [e|] eqn:E; cbn [fst snd].
    + apply head_filter in E as (b1 & b2 & -> & Hn & Hm).
      rewrite fmap_app, fmap_cons. replace (pair_of e) with (str key, e_data e) by (unfold pair_of; by rewrite <-Hm). constructor.
      apply Forall_fmap. eapply Forall_impl; [done|]. intros x Hx E'. by apply Hx.
    + constructor. apply filter_nil in E. apply Forall_fmap. eapply Forall_impl; [done|]. intros x Hx E'. by apply Hx.
  - destruct (pick_step n key data es Hal) as (e & es1 & es2 & Ep & Ees & Hstep). apply wp_bind. eapply wp_mono; [by apply remove_spec|]. cbv beta. rewrite Ep. intros r s' [-> Hr']. apply wp_ret.
    exists (pair_of <$> es1 ++ es2). split; [done|]. exists lst, (es1 ++ es2). split; [by apply Hr'|done].
  - apply wp_bind. unfold tuya_hashmap_length. pose proof (owned_positive obj_size _ _ _ (hr_own _ _ _ _ _ Hr) (hr_map _ _ _ _ _ Hr)).
    rewrite (proj2 (Z.eqb_neq m 0)) by lia. cbn [negb]. apply wp_bind. eapply wp_get_map; [apply Hr|]. apply wp_ret, wp_ret.
    eexists. split; [|by eauto]. cbn [hm_size]. rewrite <-(length_fmap pair_of es). constructor.
Qed.

(** C5: every client of a hash map that removes only pairs that are there, and chooses each
    call from the results before, runs without a fault and gets the results of a multimap
    from texts to values: look-ups return the newest value of a key or [MAP_MISSING], equal
    texts are equal keys wherever they are stored, removals take the newest pair that
    matches, and an insertion fails exactly when the allocator has no room, and leaves the
    map unchanged then; the table stays well formed. *)
Theorem hashmap_refines_multimap (c : client mop mres) s m n kv :
  has_map s m n kv -> follows mstep mallowed kv c ->
  wp (exec (exec_mop m) c) (fun h s' => exists kv', history_of c h /\ runs mstep kv h kv' /\ has_map s' m n kv') s.
Proof. intros Hm Hf. apply (client_refines (exec_mop m) mstep mallowed (fun kv s => has_map s m n kv)); [|done|done]. intros kv0 o s0 Hm0 Hal. by apply mop_ok. Qed.

(** Iterating with [TUYA_HASHMAP_FOR_EACH_DATA] visits exactly the values
    stored under the text of the key, newest first, and changes nothing. *)
Theorem hashmap_for_each_correct s m n kv key fuel :
  has_map s m n kv -> (length kv < fuel)%nat ->
  wp (for_each_data str fuel m key 0) (fun r s' => s' = s /\ r = snd <$> filter (fun p => fst p = str key) kv) s.
Proof.
  intros (lst & es & Hr & ->) Hf. rewrite length_fmap in Hf.
  eapply wp_mono; [apply (for_each_spec s m n lst es key Hr fuel 0 (bucket n (hash n key) es)); [by left|]|].
  - unfold bucket. pose proof (length_filter (in_bucket n (hash n key)) es). lia.
  - intros r s' [-> ->]. split; [done|].
    assert (filter (matches key) (bucket n (hash n key) es) = filter (matches key) es) as ->.
    { unfold bucket. rewrite list_filter_filter. apply list_filter_iff. intros e. split; [tauto|]. intros Hm. split; [done|].
      unfold in_bucket. rewrite <-!hash_def. by rewrite Hm. }
    clear. induction es as [|e es IH]; [done|]. rewrite fmap_cons, !filter_cons. unfold matches, pair_of in *. cbn [fst].
    repeat case_decide; cbn; congruence.
Qed.

(** [tuya_hashmap_new] returns null, having released what it had taken, or a
    new empty map; [tuya_hashmap_free] of a map releases the map and its table,
    and nothing else. *)
Theorem hashmap_new_free_correct s n : owned_ok obj_size (m_own s) -> 0 < n < 536870912 ->
  wp (m <- tuya_hashmap_new n ;; (if m =? 0 then ret tt else tuya_hashmap_free m) ;;; ret m)
     (fun m s' => owned_ok obj_size (m_own s') /\ o_objs (m_own s') = o_objs (m_own s)) s /\
  wp (tuya_hashmap_new n) (fun m s' => m = 0 \/ has_map s' m n []) s.
Proof.
  intros Hown Hn. split.
  - apply wp_bind. eapply wp_mono; [by apply new_spec|]. intros m s' [(-> & Ho & E)|(lst & Hm0 & Hne & Hm & Hl & Hr & Hx)].
    + rewrite Z.eqb_refl. apply wp_bind, wp_ret, wp_ret. done.
    + rewrite (proj2 (Z.eqb_neq m 0)) by done. apply wp_bind. eapply wp_mono; [by eapply map_free_spec|]. intros [] s'' [Ho E]. apply wp_ret.
      split; [done|]. rewrite E. apply map_eq. intros x.
      destruct (decide (x = m)) as [->|]; [by rewrite lookup_delete_eq|]. rewrite lookup_delete_ne by done.
      destruct (decide (x = lst)) as [->|]; [by rewrite lookup_delete_eq|]. rewrite lookup_delete_ne by done. by apply Hx.
  - eapply wp_mono; [by apply new_spec|]. intros m s' [(-> & _)|(lst & _ & _ & _ & _ & Hr & _)]; [by left|right]. by exists lst, [].
Qed.

(** Removing a key that is not in the map, when its chain is not empty, does
    not report [MAP_MISSING]: it returns [MAP_OK] and the oldest pair of the chain,
    which belongs to another key, is gone. *)
Theorem remove_absent_deletes_other s m n kv key data :
  has_map s m n kv -> Forall (fun p => fst p <> str key) kv -> Exists (fun p => same_hash n (fst p) (str key)) kv ->
  wp (tuya_hashmap_remove str m key data) (fun r s' => r = MAP_OK /\
    exists kv1 p kv2, kv = kv1 ++ p :: kv2 /\ fst p <> str key /\ has_map s' m n (kv1 ++ kv2)) s.
Proof.
  intros (lst & es & Hr & ->) Hno Hex. eapply wp_mono; [by apply remove_spec|]. intros r s' Hres.
  rewrite Forall_fmap in Hno. apply Exists_fmap, Exists_exists in Hex as (x & Hx & Hb). apply same_hash_pair in Hb.
  destruct (bucket n (hash n key) es) as [|e0 b] eqn:Eb.
  { assert (x ∈ bucket n (hash n key) es) as Hin by (by apply bucket_elem). rewrite Eb in Hin. by apply not_elem_of_nil in Hin. }
  destruct (pick_nonempty key data e0 b) as [e He]. rewrite He in Hres. destruct Hres as [-> Hr']. split; [done|].
  assert (e ∈ es) as Hin. { apply pick_elem in He. rewrite <-Eb in He. by apply bucket_elem in He as [_ ?]. }
  pose proof (proj1 (Forall_forall _ _) Hno e Hin) as Hne.
  apply list_elem_of_split in Hin as (es1 & es2 & ->). exists (pair_of <$> es1), (pair_of e), (pair_of <$> es2).
  rewrite fmap_app. split; [done|]. split; [exact Hne|]. exists lst, (es1 ++ es2). rewrite fmap_app. split; [by apply Hr'|done].
Qed.
End Map.

(** ** On the memory heap *)

#[local] Instance demo_allocator : Allocator hstate := heap_allocator 0.
#[local] Opaque demo2.

(** Three strings of the client: ["a"] at 1 and at 2, ["b"] at 3. *)
Definition demo_str (p : Z) : list Z := if p =? 3 then [98] else [97].

Definition map_demo0 : mapstate hstate := MState (Own demo2 ∅) (HMem ∅ ∅).

Lemma map_demo0_ok : owned_ok obj_size (m_own map_demo0).
Proof.
  exists ∅. split; [|intros p o Hp; cbn in Hp; by rewrite lookup_empty in Hp].
  exists (heap_at demo2), (layout demo2), ∅. split; [apply demo2_represents|done].
Qed.

Definition map_created : outcome (mapstate hstate) Z := tuya_hashmap_new 1 map_demo0.
Definition map_demo1 : mapstate hstate := match map_created with Ret _ s => s | _ => map_demo0 end.
Definition map_ptr : Z := match map_created with Ret p _ => p | _ => 0 end.

Lemma map_demo1_ok : has_map demo_str map_demo1 map_ptr 1 [].
Proof.
  pose proof (new_spec demo_str map_demo0 1 map_demo0_ok ltac:(lia)) as Hw.
  destruct (proj1 (wp_run _ _ _) Hw) as (r & s' & E & Hres). unfold map_demo1, map_ptr. change (map_created = Ret r s') in E. rewrite E.
  assert (negb (match map_created with Ret p _ => p =? 0 | _ => true end) = true) as Eok by (by vm_compute).
  rewrite E in Eok. clear E Hw. destruct Hres as [(-> & _)|(lst & _ & _ & _ & _ & Hr & _)]; [exact (False_ind _ (diff_false_true Eok))|]. by exists lst, [].
Qed.

(** The map after one insertion under ["a"]. *)
Definition map_put : outcome (mapstate hstate) map_ret := tuya_hashmap_put demo_str map_ptr 1 77 map_demo1.
Definition map_demo2 : mapstate hstate := match map_put with Ret _ s => s | _ => map_demo0 end.

Lemma map_demo2_ok : has_map demo_str map_demo2 map_ptr 1 [([97], 77)].
Proof.
  destruct map_demo1_ok as (lst & es & Hr & E0). destruct es; [|done].
  pose proof (map_put_spec demo_str map_demo1 map_ptr 1 lst [] 1 77 Hr ltac:(cbn; lia)) as Hw.
  destruct (proj1 (wp_run _ _ _) Hw) as (r & s' & E & Hres). unfold map_demo2. change (map_put = Ret r s') in E. rewrite E.
  assert (match map_put with Ret MAP_OK _ => true | _ => false end = true) as Eok by (by vm_compute).
  rewrite E in Eok. clear E Hw. destruct Hres as [(-> & _)|(p & -> & _ & Hr')]; [exact (False_ind _ (diff_false_true Eok))|]. by eexists lst, _.
Qed.
#[local] Opaque map_demo1 map_demo2 map_ptr.

(** A pair is added under ["b"] and looked up; the one under ["a"] is looked up by another
    copy of the text and removed. *)
Definition map_client : client mop mres :=
  Call (OpPut 3 5) (fun _ => Call (OpGet 3) (fun _ => Call (OpGet 2) (fun _ => Call (OpRemove 2 0) (fun _ => Call (OpGet 1) (fun _ => Call OpLength (fun _ => Stop)))))).
Lemma map_client_follows : follows (mstep demo_str) (mallowed demo_str) [([97], 77)] map_client.
Proof.
  split; [split; [cbn; lia|done]|]. intros r kv H. assert (Z.of_nat (length kv) + 1 < 2147483648 /\ Exists (may_remove [97] 0) kv) as [Hl He].
  { inversion H; subst; (split; [cbn; lia|]); [apply Exists_cons_tl|]; apply Exists_cons_hd; split; auto. }
  clear H. split; [done|]. intros r1 kv1 H. assert (kv1 = kv) as -> by (by inversion H). clear H. split; [done|]. intros r2 kv2 H. assert (kv2 = kv) as -> by (by inversion H). clear H. split; [done|]. intros r3 kv3 H.
  assert (Z.of_nat (length kv3) + 1 < 2147483648) as Hl3. { inversion H; subst. rewrite length_app in *. cbn [length] in Hl. lia. }
  split; [done|]. intros r4 kv4 H4. assert (kv4 = kv3) as -> by (by inversion H4). done.
Qed.

Lemma hashmap_refines_multimap_witness :
  wp (exec (exec_mop demo_str map_ptr) map_client) (fun h s' => exists kv', history_of map_client h /\ runs (mstep demo_str) [([97], 77)] h kv' /\ has_map demo_str s' map_ptr 1 kv') map_demo2.
Proof. exact (hashmap_refines_multimap demo_str map_client map_demo2 map_ptr 1 [([97], 77)] map_demo2_ok map_client_follows). Defined.

Lemma hashmap_for_each_correct_witness :
  wp (for_each_data demo_str 5 map_ptr 2 0) (fun r s' => s' = map_demo2 /\ r = snd <$> filter (fun p => fst p = demo_str 2) [([97], 77)]) map_demo2.
Proof. refine (hashmap_for_each_correct demo_str map_demo2 map_ptr 1 [([97], 77)] 2 5 map_demo2_ok _). cbn. lia. Defined.

Lemma hashmap_new_free_correct_witness :
  wp (m <- tuya_hashmap_new 1 ;; (if m =? 0 then ret tt else tuya_hashmap_free m) ;;; ret m)
     (fun m s' => owned_ok obj_size (m_own s') /\ o_objs (m_own s') = o_objs (m_own map_demo0)) map_demo0 /\
  wp (tuya_hashmap_new 1) (fun m s' => m = 0 \/ has_map demo_str s' m 1 []) map_demo0.
Proof. refine (hashmap_new_free_correct demo_str map_demo0 1 map_demo0_ok _). lia. Defined.

(** Removing ["b"] from a map that holds only ["a"]. *)
Lemma remove_absent_deletes_other_witness :
  wp (tuya_hashmap_remove demo_str map_ptr 3 0) (fun r s' => r = MAP_OK /\
    exists kv1 p kv2, [([97], 77)] = kv1 ++ p :: kv2 /\ fst p <> demo_str 3 /\ has_map demo_str s' map_ptr 1 (kv1 ++ kv2)) map_demo2.
Proof.
  refine (remove_absent_deletes_other demo_str map_demo2 map_ptr 1 [([97], 77)] 3 0 map_demo2_ok _ _).
  - apply Forall_cons_2; [discriminate|constructor].
  - apply Exists_cons_hd. unfold same_hash. vm_compute. reflexivity.
Defined.
