(* ===== verification/Gpio.v ===== *)
(** * GPIO pins: [src/tkl_gpio.c]

    The adapter keeps a table of 64 pins and reaches them through the Linux GPIO
    character device: a line handle to read or drive a pin, an event descriptor
    and a thread for its interrupts.  The device is a parameter, the class
    [GpioKernel]: its descriptors and the documented rule that a line is given to
    one requester at a time.  The state also has the lock of the module, the
    running interrupt threads, each at the top of its loop or waiting in [poll], and
    the calls of interrupt handlers. *)

From S2P Require Import Prelude.

(** ** The GPIO character device *)

(** What a descriptor of the module stands for. *)
Inductive gfd := FChip | FHandle (line : Z) | FEvent (line : Z).

Definition line_of (f : gfd) : option Z := match f with FChip => None | FHandle l | FEvent l => Some l end.
(** Some descriptor holds the line. *)
Definition line_busy (fds : gmap Z gfd) (line : Z) : Prop := exists fd f, fds !! fd = Some f /\ line_of f = Some line.

(** One more descriptor, or the same ones after a failure. *)
Definition fd_result (fds fds' : gmap Z gfd) (fd : Z) (f : gfd) (ok : Prop) : Prop :=
  (~ ok /\ fds' = fds) \/ (ok /\ 0 <= fd /\ fds !! fd = None /\ fds' = <[fd := f]> fds).

Class GpioKernel (K : Type) := {
  k_open : nat -> M K Z;                        (** [open("/dev/gpiochip<i>", O_RDONLY)] *)
  k_close : Z -> M K Z;
  k_linehandle : Z -> Z -> Z -> Z -> M K (Z * Z);  (** [GPIO_GET_LINEHANDLE_IOCTL]: line, flags, default; result and [fd] *)
  k_lineevent : Z -> Z -> Z -> M K (Z * Z);        (** [GPIO_GET_LINEEVENT_IOCTL]: line, event flags; result and [fd] *)
  k_set_value : Z -> Z -> M K Z;                (** [GPIOHANDLE_SET_LINE_VALUES_IOCTL] *)
  k_get_value : Z -> M K (Z * Z);               (** [GPIOHANDLE_GET_LINE_VALUES_IOCTL]: result and value *)
  k_fds : K -> gmap Z gfd;
  k_open_ok i k : wp (k_open i) (fun fd k' => fd_result (k_fds k) (k_fds k') fd FChip (0 <= fd)) k;
  k_close_ok fd k : is_Some (k_fds k !! fd) -> wp (k_close fd) (fun _ k' => k_fds k' = delete fd (k_fds k)) k;
  k_linehandle_ok chip line flags dflt k : k_fds k !! chip = Some FChip ->
    wp (k_linehandle chip line flags dflt) (fun r k' =>
      fd_result (k_fds k) (k_fds k') (snd r) (FHandle line) (0 <= fst r) /\ (line_busy (k_fds k) line -> fst r < 0)) k;
  k_lineevent_ok chip line flags k : k_fds k !! chip = Some FChip ->
    wp (k_lineevent chip line flags) (fun r k' =>
      fd_result (k_fds k) (k_fds k') (snd r) (FEvent line) (0 <= fst r) /\ (line_busy (k_fds k) line -> fst r < 0)) k;
  k_set_value_ok fd v k line : k_fds k !! fd = Some (FHandle line) -> wp (k_set_value fd v) (fun _ k' => k_fds k' = k_fds k) k;
  k_get_value_ok fd k line : k_fds k !! fd = Some (FHandle line) -> wp (k_get_value fd) (fun _ k' => k_fds k' = k_fds k) k
}.

(** ** Data *)

Inductive TUYA_GPIO_LEVEL_E := TUYA_GPIO_LEVEL_LOW | TUYA_GPIO_LEVEL_HIGH | TUYA_GPIO_LEVEL_NONE.
Inductive TUYA_GPIO_DRCT_E := TUYA_GPIO_INPUT | TUYA_GPIO_OUTPUT.
Inductive TUYA_GPIO_MODE_E :=
| TUYA_GPIO_PULLUP | TUYA_GPIO_PULLDOWN | TUYA_GPIO_HIGH_IMPEDANCE | TUYA_GPIO_FLOATING
| TUYA_GPIO_PUSH_PULL | TUYA_GPIO_OPENDRAIN | TUYA_GPIO_OPENDRAIN_PULLUP.
Inductive TUYA_GPIO_IRQ_E :=
| TUYA_GPIO_IRQ_RISE | TUYA_GPIO_IRQ_FALL | TUYA_GPIO_IRQ_RISE_FALL | TUYA_GPIO_IRQ_LOW | TUYA_GPIO_IRQ_HIGH.

Record TUYA_GPIO_BASE_CFG_T := mkCfg { g_mode : TUYA_GPIO_MODE_E; g_direct : TUYA_GPIO_DRCT_E; g_level : TUYA_GPIO_LEVEL_E }.
(** The callback and its argument are addresses. *)
Record TUYA_GPIO_IRQ_T := mkIrq { i_mode : TUYA_GPIO_IRQ_E; i_cb : Z; i_arg : Z }.

(** [struct gpiohandle_request] for one line, [struct gpioevent_request]. *)
Record gpiohandle_request := mkHReq { h_line : Z; h_flags : Z; h_default : Z; h_fd : Z }.
Record gpioevent_request := mkEReq { ev_line : Z; ev_flags : Z; ev_fd : Z }.
Definition zero_hreq : gpiohandle_request := mkHReq 0 0 0 0.
Definition zero_ereq : gpioevent_request := mkEReq 0 0 0.

Record gpio_pin_ctx_t := mkPin {
  p_pin_id : Z;
  p_base_cfg : TUYA_GPIO_BASE_CFG_T;
  p_handle_fd : Z;
  p_irq_cfg : TUYA_GPIO_IRQ_T;
  p_event_fd : Z;
  p_irq_thread_started : bool;
  p_irq_enabled : bool;
  p_event_req : gpioevent_request;
  p_hreq : gpiohandle_request;
  p_hreq_valid : bool
}.

Definition zero_pin : gpio_pin_ctx_t :=
  mkPin 0 (mkCfg TUYA_GPIO_PULLUP TUYA_GPIO_INPUT TUYA_GPIO_LEVEL_LOW) 0 (mkIrq TUYA_GPIO_IRQ_RISE 0 0) 0 false false zero_ereq zero_hreq false.
#[export] Instance pin_inhabited : Inhabited gpio_pin_ctx_t := populate zero_pin.

Definition with_pin_id v p := mkPin v (p_base_cfg p) (p_handle_fd p) (p_irq_cfg p) (p_event_fd p) (p_irq_thread_started p) (p_irq_enabled p) (p_event_req p) (p_hreq p) (p_hreq_valid p).
Definition with_cfg v p := mkPin (p_pin_id p) v (p_handle_fd p) (p_irq_cfg p) (p_event_fd p) (p_irq_thread_started p) (p_irq_enabled p) (p_event_req p) (p_hreq p) (p_hreq_valid p).
Definition with_handle fd h v p := mkPin (p_pin_id p) (p_base_cfg p) fd (p_irq_cfg p) (p_event_fd p) (p_irq_thread_started p) (p_irq_enabled p) (p_event_req p) h v.
Definition with_irq_cfg v p := mkPin (p_pin_id p) (p_base_cfg p) (p_handle_fd p) v (p_event_fd p) (p_irq_thread_started p) (p_irq_enabled p) (p_event_req p) (p_hreq p) (p_hreq_valid p).
Definition with_event fd e p := mkPin (p_pin_id p) (p_base_cfg p) (p_handle_fd p) (p_irq_cfg p) fd (p_irq_thread_started p) (p_irq_enabled p) e (p_hreq p) (p_hreq_valid p).
Definition with_started v p := mkPin (p_pin_id p) (p_base_cfg p) (p_handle_fd p) (p_irq_cfg p) (p_event_fd p) v (p_irq_enabled p) (p_event_req p) (p_hreq p) (p_hreq_valid p).
Definition with_enabled v p := mkPin (p_pin_id p) (p_base_cfg p) (p_handle_fd p) (p_irq_cfg p) (p_event_fd p) (p_irq_thread_started p) v (p_event_req p) (p_hreq p) (p_hreq_valid p).
Definition with_level v p := with_cfg (mkCfg (g_mode (p_base_cfg p)) (g_direct (p_base_cfg p)) v) p.

Definition GPIO_PINS : nat := 64.

(** Where a thread of [gpio_irq_thread] is: at the top of its loop, or in [poll] for the
    descriptor [efd], with what it read from the pin before. *)
Inductive irq_turn := IrqTop | IrqPoll (efd : Z) (enabled : bool) (irq_cfg : TUYA_GPIO_IRQ_T).

Record gstate (K : Type) := GState {
  g_gpio_pins : list gpio_pin_ctx_t;
  g_gpio_inited : bool;
  g_gpio_lock : bool;
  g_kernel : K;
  g_threads : gmap Z irq_turn;        (** the running interrupt threads, by their pins *)
  g_calls : list (Z * Z)              (** handler calls, newest first *)
}.
Arguments GState {K}. Arguments g_gpio_pins {K}. Arguments g_gpio_inited {K}. Arguments g_gpio_lock {K}.
Arguments g_kernel {K}. Arguments g_threads {K}. Arguments g_calls {K}.

Definition gpio_zero {K} (k : K) : gstate K := GState (replicate GPIO_PINS zero_pin) false false k ∅ [].

(** ** Pure helpers *)

Definition tuya_level_to_u32 (level : TUYA_GPIO_LEVEL_E) : Z :=
  match level with TUYA_GPIO_LEVEL_HIGH => 1 | _ => 0 end.
Definition u32_to_tuya_level (v : Z) : TUYA_GPIO_LEVEL_E :=
  if negb (v =? 0) then TUYA_GPIO_LEVEL_HIGH else TUYA_GPIO_LEVEL_LOW.

Definition GPIOHANDLE_REQUEST_INPUT : Z := 1.
Definition GPIOHANDLE_REQUEST_OUTPUT : Z := 2.
Definition GPIOHANDLE_REQUEST_OPEN_DRAIN : Z := 8.
Definition GPIOHANDLE_REQUEST_BIAS_PULL_UP : Z := 32.
Definition GPIOHANDLE_REQUEST_BIAS_PULL_DOWN : Z := 64.

Definition mode_to_handle_flags (mode : TUYA_GPIO_MODE_E) : Z :=
  let flags := 0 in
  let flags := match mode with
    | TUYA_GPIO_OPENDRAIN | TUYA_GPIO_OPENDRAIN_PULLUP => Z.lor flags GPIOHANDLE_REQUEST_OPEN_DRAIN
    | _ => flags
    end in
  let flags := match mode with
    | TUYA_GPIO_PULLUP | TUYA_GPIO_OPENDRAIN_PULLUP => Z.lor flags GPIOHANDLE_REQUEST_BIAS_PULL_UP
    | _ => flags
    end in
  match mode with
  | TUYA_GPIO_PULLDOWN => Z.lor flags GPIOHANDLE_REQUEST_BIAS_PULL_DOWN
  | _ => flags
  end.

Definition irq_event_flags (mode : TUYA_GPIO_IRQ_E) : Z :=
  match mode with TUYA_GPIO_IRQ_RISE => 1 | TUYA_GPIO_IRQ_FALL => 2 | _ => 3 end.

Definition irq_mode_match_level (mode : TUYA_GPIO_IRQ_E) (level : TUYA_GPIO_LEVEL_E) : bool :=
  match mode, level with
  | TUYA_GPIO_IRQ_LOW, TUYA_GPIO_LEVEL_LOW => true
  | TUYA_GPIO_IRQ_LOW, _ => false
  | TUYA_GPIO_IRQ_HIGH, TUYA_GPIO_LEVEL_HIGH => true
  | TUYA_GPIO_IRQ_HIGH, _ => false
  | _, _ => true
  end.

Section Gpio.
Context {K : Type} `{!GpioKernel K}.
Local Abbreviation W := (M (gstate K)).

Definition on_kernel {R} (c : M K R) : W R := fun s =>
  match c (g_kernel s) with
  | Ret r k => Ret r (GState (g_gpio_pins s) (g_gpio_inited s) (g_gpio_lock s) k (g_threads s) (g_calls s))
  | Fault => Fault
  | Diverge => Diverge
  end.

(** [&g_gpio_pins[i]] *)
Definition get_pin (i : Z) : W gpio_pin_ctx_t := fun s =>
  if 0 <=? i then match g_gpio_pins s !! Z.to_nat i with Some p => Ret p s | None => Fault end else Fault.
Definition upd_pin (i : Z) (f : gpio_pin_ctx_t -> gpio_pin_ctx_t) : W unit :=
  p <- get_pin i ;;
  modify (fun s => GState (<[Z.to_nat i := f p]> (g_gpio_pins s)) (g_gpio_inited s) (g_gpio_lock s) (g_kernel s) (g_threads s) (g_calls s)).

(** The lock is not recursive: taking it twice blocks for ever. *)
Definition lock : W unit := fun s =>
  if g_gpio_lock s then Diverge
  else Ret tt (GState (g_gpio_pins s) (g_gpio_inited s) true (g_kernel s) (g_threads s) (g_calls s)).
Definition unlock : W unit :=
  modify (fun s => GState (g_gpio_pins s) (g_gpio_inited s) false (g_kernel s) (g_threads s) (g_calls s)).

(** ** Operations *)

Definition fresh_pin (i : nat) : gpio_pin_ctx_t := with_event (-1) zero_ereq (with_handle (-1) zero_hreq false (with_pin_id (Z.of_nat i) zero_pin)).

Definition gpio_global_init_once : W unit := fun s =>
  if g_gpio_inited s then Ret tt s
  else Ret tt (GState (fresh_pin <$> seq 0 GPIO_PINS) true (g_gpio_lock s) (g_kernel s) (g_threads s) (g_calls s)).

Fixpoint open_candidates (n i : nat) : W Z :=
  match n with
  | O => ret (-1)
  | S n' => fd <- on_kernel (k_open i) ;; if 0 <=? fd then ret fd else open_candidates n' (S i)
  end.
Definition gpiochip_open_best_effort : W Z := open_candidates 4 0.

Definition ensure_line_handle_locked (i : Z) : W Z :=
  pin <- get_pin i ;;
  if (0 <=? p_handle_fd pin) && p_hreq_valid pin then ret 0
  else
    chip_fd <- gpiochip_open_best_effort ;;
    if chip_fd <? 0 then ret (-1)
    else
      let flags := mode_to_handle_flags (g_mode (p_base_cfg pin)) in
      let '(flags, dflt) := match g_direct (p_base_cfg pin) with
        | TUYA_GPIO_OUTPUT => (Z.lor flags GPIOHANDLE_REQUEST_OUTPUT, tuya_level_to_u32 (g_level (p_base_cfg pin)))
        | TUYA_GPIO_INPUT => (Z.lor flags GPIOHANDLE_REQUEST_INPUT, 0)
        end in
      r <- on_kernel (k_linehandle chip_fd (p_pin_id pin) flags dflt) ;;
      _ <- on_kernel (k_close chip_fd) ;;
      if fst r <? 0 then ret (-1)
      else
        upd_pin i (with_handle (snd r) (mkHReq (p_pin_id pin) flags dflt (snd r)) true) ;;;
        ret 0.

Definition close_line_handle_locked (i : Z) : W unit :=
  pin <- get_pin i ;;
  when (0 <=? p_handle_fd pin)
    (_ <- on_kernel (k_close (p_handle_fd pin)) ;; upd_pin i (fun p => with_handle (-1) (p_hreq p) (p_hreq_valid p) p)) ;;;
  upd_pin i (fun p => with_handle (p_handle_fd p) zero_hreq false p).

Definition close_event_fd_locked (i : Z) : W unit :=
  pin <- get_pin i ;;
  when (0 <=? p_event_fd pin)
    (_ <- on_kernel (k_close (p_event_fd pin)) ;; upd_pin i (fun p => with_event (-1) (p_event_req p) p)) ;;;
  upd_pin i (fun p => with_event (p_event_fd p) zero_ereq p).

Definition request_event_fd_locked (i : Z) : W Z :=
  pin <- get_pin i ;;
  if 0 <=? p_event_fd pin then ret 0
  else
    chip_fd <- gpiochip_open_best_effort ;;
    if chip_fd <? 0 then ret (-1)
    else
      let flags := irq_event_flags (i_mode (p_irq_cfg pin)) in
      r <- on_kernel (k_lineevent chip_fd (p_pin_id pin) flags) ;;
      _ <- on_kernel (k_close chip_fd) ;;
      if fst r <? 0 then ret (-1)
      else
        upd_pin i (with_event (snd r) (mkEReq (p_pin_id pin) flags (snd r))) ;;;
        ret 0.

Definition bad_pin (pin_id : Z) : bool := Z.of_nat GPIO_PINS <=? pin_id.

Definition tkl_gpio_init (pin_id : Z) (cfg : option TUYA_GPIO_BASE_CFG_T) : W OPERATE_RET :=
  match cfg with
  | None => ret OPRT_INVALID_PARM
  | Some cfg =>
    if bad_pin pin_id then ret OPRT_INVALID_PARM
    else
      lock ;;;
      gpio_global_init_once ;;;
      upd_pin pin_id (fun p => with_cfg cfg (with_pin_id pin_id p)) ;;;
      close_line_handle_locked pin_id ;;;
      pin <- get_pin pin_id ;;
      rc <- match g_direct (p_base_cfg pin) with
            | TUYA_GPIO_OUTPUT => ensure_line_handle_locked pin_id
            | TUYA_GPIO_INPUT => ret 0
            end ;;
      unlock ;;;
      ret (if rc =? 0 then OPRT_OK else OPRT_COM_ERROR)
  end.

Definition tkl_gpio_deinit (pin_id : Z) : W OPERATE_RET :=
  if bad_pin pin_id then ret OPRT_INVALID_PARM
  else
    lock ;;;
    gpio_global_init_once ;;;
    upd_pin pin_id (with_enabled false) ;;;
    close_event_fd_locked pin_id ;;;
    close_line_handle_locked pin_id ;;;
    unlock ;;;
    ret OPRT_OK.

Definition tkl_gpio_write (pin_id : Z) (level : TUYA_GPIO_LEVEL_E) : W OPERATE_RET :=
  if bad_pin pin_id then ret OPRT_INVALID_PARM
  else
    lock ;;;
    gpio_global_init_once ;;;
    upd_pin pin_id (fun p => with_level level (with_pin_id pin_id p)) ;;;
    rc <- ensure_line_handle_locked pin_id ;;
    if negb (rc =? 0) then unlock ;;; ret OPRT_COM_ERROR
    else
      pin <- get_pin pin_id ;;
      rc <- on_kernel (k_set_value (p_handle_fd pin) (tuya_level_to_u32 level)) ;;
      unlock ;;;
      ret (if rc =? 0 then OPRT_OK else OPRT_COM_ERROR).

(** The result, and the level stored through the argument. *)
Definition tkl_gpio_read (pin_id : Z) (level : bool) : W (OPERATE_RET * option TUYA_GPIO_LEVEL_E) :=
  if negb level then ret (OPRT_INVALID_PARM, None)
  else if bad_pin pin_id then ret (OPRT_INVALID_PARM, None)
  else
    lock ;;;
    gpio_global_init_once ;;;
    upd_pin pin_id (with_pin_id pin_id) ;;;
    rc <- ensure_line_handle_locked pin_id ;;
    if negb (rc =? 0) then unlock ;;; ret (OPRT_COM_ERROR, None)
    else
      pin <- get_pin pin_id ;;
      r <- on_kernel (k_get_value (p_handle_fd pin)) ;;
      lv <- (if fst r =? 0 then
               let lv := u32_to_tuya_level (snd r) in
               upd_pin pin_id (with_level lv) ;;; ret (Some lv)
             else ret None) ;;
      unlock ;;;
      ret (if fst r =? 0 then OPRT_OK else OPRT_COM_ERROR, lv).

(** [thread_ok]: whether [pthread_create] succeeds. *)
Definition tkl_gpio_irq_init (thread_ok : bool) (pin_id : Z) (cfg : option TUYA_GPIO_IRQ_T) : W OPERATE_RET :=
  match cfg with
  | None => ret OPRT_INVALID_PARM
  | Some cfg =>
    if bad_pin pin_id then ret OPRT_INVALID_PARM
    else
      lock ;;;
      gpio_global_init_once ;;;
      upd_pin pin_id (fun p => with_irq_cfg cfg (with_pin_id pin_id p)) ;;;
      close_line_handle_locked pin_id ;;;
      rc <- request_event_fd_locked pin_id ;;
      if negb (rc =? 0) then unlock ;;; ret OPRT_COM_ERROR
      else
        pin <- get_pin pin_id ;;
        when (negb (p_irq_thread_started pin))
          (upd_pin pin_id (with_started thread_ok) ;;;
           when thread_ok (modify (fun s => GState (g_gpio_pins s) (g_gpio_inited s) (g_gpio_lock s) (g_kernel s) (<[pin_id := IrqTop]> (g_threads s)) (g_calls s)))) ;;;
        unlock ;;;
        ret OPRT_OK
  end.

Definition tkl_gpio_irq_enable (pin_id : Z) : W OPERATE_RET :=
  if bad_pin pin_id then ret OPRT_INVALID_PARM
  else
    lock ;;;
    gpio_global_init_once ;;;
    upd_pin pin_id (fun p => with_enabled true (with_pin_id pin_id p)) ;;;
    unlock ;;;
    ret OPRT_OK.

Definition tkl_gpio_irq_disable (pin_id : Z) : W OPERATE_RET :=
  if bad_pin pin_id then ret OPRT_INVALID_PARM
  else
    lock ;;;
    gpio_global_init_once ;;;
    upd_pin pin_id (fun p => with_enabled false (with_pin_id pin_id p)) ;;;
    unlock ;;;
    ret OPRT_OK.

(** ** The interrupt thread *)

(** The thread of the pin in slot [i] goes on at [turn], or ends. *)
Definition thread_at (i : Z) (turn : option irq_turn) : W unit :=
  modify (fun s => GState (g_gpio_pins s) (g_gpio_inited s) (g_gpio_lock s) (g_kernel s) (partial_alter (fun _ => turn) i (g_threads s)) (g_calls s)).
Definition call_handler (cb arg : Z) : W unit :=
  modify (fun s => GState (g_gpio_pins s) (g_gpio_inited s) (g_gpio_lock s) (g_kernel s) (g_threads s) ((cb, arg) :: g_calls s)).

(** From the top of the loop into [poll], which has no time limit. *)
Definition irq_to_poll (i : Z) : W unit :=
  lock ;;;
  pin <- get_pin i ;;
  unlock ;;;
  if p_event_fd pin <? 0 then thread_at i None
  else thread_at i (Some (IrqPoll (p_event_fd pin) (p_irq_enabled pin) (p_irq_cfg pin))).

(** From the end of [poll] back to the top: [polled] is whether it reports input, [complete]
    whether [read] gives a whole event.  Either may be so or not for a descriptor that was
    closed, and perhaps opened again for something else, while the thread waited. *)
Definition irq_from_poll (i : Z) (enabled : bool) (irq_cfg : TUYA_GPIO_IRQ_T) (polled complete : bool) : W unit :=
  if negb polled then thread_at i (Some IrqTop)
  else if negb complete then thread_at i None
  else if negb enabled || (i_cb irq_cfg =? 0) then thread_at i (Some IrqTop)
  else
    skip <- match i_mode irq_cfg with
            | TUYA_GPIO_IRQ_LOW | TUYA_GPIO_IRQ_HIGH =>
              pin <- get_pin i ;;
              r <- tkl_gpio_read (p_pin_id pin) true ;;
              ret (match r with
                   | (OPRT_OK, Some level) => negb (irq_mode_match_level (i_mode irq_cfg) level)
                   | _ => false
                   end)
            | _ => ret false
            end ;;
    when (negb skip) (call_handler (i_cb irq_cfg) (i_arg irq_cfg)) ;;;
    thread_at i (Some IrqTop).

(** The next part of the loop: into the wait, or out of it once [poll] returns.  A thread in
    [poll] need not ever take another step. *)
Definition gpio_irq_thread (i : Z) (polled complete : bool) : W unit :=
  threads <- gets g_threads ;;
  match threads !! i with
  | None => ret tt
  | Some IrqTop => irq_to_poll i
  | Some (IrqPoll _ enabled irq_cfg) => irq_from_poll i enabled irq_cfg polled complete
  end.
End Gpio.
