(* ===== verification/GpioProps.v ===== *)
(** * GPIO pins and their descriptors

    Over every GPIO device that follows its documented rules, and every sequence
    of calls and thread turns: the module's table and the open descriptors agree,
    so that none leaks and none is used after it was closed, a pin never holds a
    line handle and an event descriptor together, and the lock is released.  An
    interrupt is handled with what its thread read before it waited. *)

From S2P Require Import Prelude Gpio.

(** The pin in slot [i] holds the descriptor [fd]. *)
Definition holds (i : nat) (p : gpio_pin_ctx_t) (fd : Z) (f : gfd) : Prop :=
  0 <= fd /\ ((f = FHandle (Z.of_nat i) /\ p_handle_fd p = fd) \/ (f = FEvent (Z.of_nat i) /\ p_event_fd p = fd)).

Record pin_ok (i : nat) (p : gpio_pin_ctx_t) : Prop := {
  po_id : p_pin_id p = Z.of_nat i;
  po_valid : p_hreq_valid p = (0 <=? p_handle_fd p);
  po_excl : p_handle_fd p < 0 \/ p_event_fd p < 0
}.

(** The open descriptors are exactly those of the table, and a pin with a running thread is
    marked as having one. *)
Record pins_ok (pins : list gpio_pin_ctx_t) (fds : gmap Z gfd) (threads : gmap Z irq_turn) : Prop := {
  po_len : length pins = GPIO_PINS;
  po_pin i p : pins !! i = Some p -> pin_ok i p;
  po_fds fd f : fds !! fd = Some f <-> exists i p, pins !! i = Some p /\ holds i p fd f;
  po_marked z t : threads !! z = Some t -> exists i p, z = Z.of_nat i /\ pins !! i = Some p /\ p_irq_thread_started p = true
}.

Lemma holds_line i p fd f : holds i p fd f -> line_of f = Some (Z.of_nat i).
Proof. by intros [_ [[-> _]|[-> _]]]. Qed.

Lemma pins_ok_upd pins fds ths i p p' fds' : pins_ok pins fds ths -> pins !! i = Some p -> pin_ok i p' -> (p_irq_thread_started p = true -> p_irq_thread_started p' = true) ->
  (forall fd f, fds' !! fd = Some f <-> (line_of f <> Some (Z.of_nat i) /\ fds !! fd = Some f) \/ holds i p' fd f) ->
  pins_ok (<[i := p']> pins) fds' ths.
Proof.
  intros [Hlen Hp Hf Hm] Hi Hok Hst Hf'. pose proof (lookup_lt_Some _ _ _ Hi) as Hlt. constructor.
  - by rewrite length_insert.
  - intros j q. destruct (decide (i = j)) as [<-|Hne]; [rewrite list_lookup_insert_eq by done; by intros [= <-]|].
    rewrite list_lookup_insert_ne by done. apply Hp.
  - intros fd f. rewrite Hf'. split.
    + intros [[Hl (j & q & Hq & Hh)%Hf]|Hh].
      * exists j, q. split; [|done]. rewrite list_lookup_insert_ne; [done|]. intros ->. apply Hl. by eapply holds_line.
      * exists i, p'. by rewrite list_lookup_insert_eq.
    + intros (j & q & Hq & Hh). destruct (decide (i = j)) as [<-|Hne].
      * rewrite list_lookup_insert_eq in Hq by done. injection Hq as <-. by right.
      * rewrite list_lookup_insert_ne in Hq by done. left. split; [|apply Hf; by exists j, q]. rewrite (holds_line _ _ _ _ Hh). intros [= E]. lia.
  - intros z t (j & q & -> & Hq & Hs)%Hm. exists j. destruct (decide (i = j)) as [<-|Hne].
    + exists p'. rewrite list_lookup_insert_eq by done. split; [done|]. split; [done|]. apply Hst. congruence.
    + exists q. by rewrite list_lookup_insert_ne.
Qed.

(** Threads that begin for marked pins, or end. *)
Lemma pins_ok_threads pins fds ths ths' : pins_ok pins fds ths ->
  (forall z, is_Some (ths' !! z) -> is_Some (ths !! z) \/ exists i p, z = Z.of_nat i /\ pins !! i = Some p /\ p_irq_thread_started p = true) -> pins_ok pins fds ths'.
Proof.
  intros [Hlen Hp Hf Hm] H. constructor; [done..|]. intros z t Hz. destruct (H z ltac:(by exists t)) as [[t' Ht']|Hz']; [by eapply Hm|done].
Qed.

(** Descriptors of the line of [i] are those of its pin. *)
Lemma pins_ok_line pins fds ths i p fd f : pins_ok pins fds ths -> pins !! i = Some p ->
  fds !! fd = Some f -> line_of f = Some (Z.of_nat i) -> holds i p fd f.
Proof.
  intros [_ _ Hf _] Hi (j & q & Hq & Hh)%Hf El. rewrite (holds_line _ _ _ _ Hh) in El. injection El as E. assert (j = i) as -> by lia. congruence.
Qed.

(** Changing other fields of a pin. *)
Lemma pins_ok_same pins fds ths i p p' : pins_ok pins fds ths -> pins !! i = Some p -> p_pin_id p' = Z.of_nat i ->
  p_handle_fd p' = p_handle_fd p -> p_event_fd p' = p_event_fd p -> p_hreq_valid p' = p_hreq_valid p ->
  (p_irq_thread_started p = true -> p_irq_thread_started p' = true) -> pins_ok (<[i := p']> pins) fds ths.
Proof.
  intros Hok Hi E0 E1 E2 E3 E4. pose proof (po_pin _ _ _ Hok i p Hi) as [_ Hv He]. eapply pins_ok_upd; [done|done| |done|].
  - constructor; [done|by rewrite E3, E1|by rewrite E1, E2].
  - intros fd f. split.
    + intros Hf. destruct (decide (line_of f = Some (Z.of_nat i))) as [El|]; [right|by left].
      pose proof (pins_ok_line _ _ _ _ _ _ _ Hok Hi Hf El) as Hh. unfold holds in *. by rewrite E1, E2.
    + intros [[_ ?]|Hh]; [done|]. apply (po_fds _ _ _ Hok). exists i, p. split; [done|]. unfold holds in *. by rewrite <-E1, <-E2.
Qed.

Lemma pins_ok_no_chip pins fds ths fd : pins_ok pins fds ths -> fds !! fd <> Some FChip.
Proof. intros Hok (i & p & _ & Hh)%(po_fds _ _ _ Hok). apply holds_line in Hh. done. Qed.

Section Pins.
Context {K : Type} `{!GpioKernel K}.

Definition put_kernel (s : gstate K) (k : K) : gstate K := GState (g_gpio_pins s) (g_gpio_inited s) (g_gpio_lock s) k (g_threads s) (g_calls s).
Definition put_pins (s : gstate K) (l : list gpio_pin_ctx_t) : gstate K := GState l (g_gpio_inited s) (g_gpio_lock s) (g_kernel s) (g_threads s) (g_calls s).
Definition fds (s : gstate K) : gmap Z gfd := k_fds (g_kernel s).

(** Inside the lock. *)
Definition inside (s : gstate K) : Prop := g_gpio_inited s = true /\ g_gpio_lock s = true /\ pins_ok (g_gpio_pins s) (fds s) (g_threads s).

(** Outside the lock: before the first call, or with a consistent table. *)
Definition gpio_ok (s : gstate K) : Prop :=
  g_gpio_lock s = false /\ (if g_gpio_inited s then pins_ok (g_gpio_pins s) (fds s) (g_threads s) else fds s = ∅ /\ g_gpio_pins s = replicate GPIO_PINS zero_pin /\ g_threads s = ∅).

Lemma wp_on_kernel {R} (c : M K R) Q (s : gstate K) : wp c (fun r k => Q r (put_kernel s k)) (g_kernel s) -> wp (on_kernel c) Q s.
Proof. unfold wp, on_kernel. by destruct (c (g_kernel s)). Qed.

Lemma wp_get_pin i p Q (s : gstate K) : g_gpio_pins s !! i = Some p -> Q p s -> wp (get_pin (Z.of_nat i)) Q s.
Proof. intros E HQ. unfold wp, get_pin. rewrite (proj2 (Z.leb_le 0 _)), Nat2Z.id, E by lia. done. Qed.

Lemma wp_upd_pin i p f Q (s : gstate K) : g_gpio_pins s !! i = Some p -> Q tt (put_pins s (<[i := f p]> (g_gpio_pins s))) -> wp (upd_pin (Z.of_nat i) f) Q s.
Proof. intros E HQ. unfold upd_pin. apply wp_bind. eapply wp_get_pin; [done|]. apply wp_modify. by rewrite Nat2Z.id. Qed.

Lemma inside_pin s i : inside s -> (i < GPIO_PINS)%nat -> exists p, g_gpio_pins s !! i = Some p.
Proof. intros (_ & _ & Hok) Hi. apply lookup_lt_is_Some. by rewrite (po_len _ _ _ Hok). Qed.

Lemma fresh_pins_ok : pins_ok (fresh_pin <$> seq 0 GPIO_PINS) ∅ ∅.
Proof.
  constructor.
  - by rewrite length_fmap, length_seq.
  - intros i p. rewrite list_lookup_fmap_Some. intros (j & -> & [-> _]%lookup_seq). constructor; [done|done|]. cbn. lia.
  - intros fd f. rewrite lookup_empty. split; [done|]. intros (i & p & Hp & [Hfd Hh]).
    apply list_lookup_fmap_Some in Hp as (j & -> & _). cbn in Hh. lia.
  - intros z t. by rewrite lookup_empty.
Qed.

(** Entering the lock and setting the table up. *)
Lemma enter_spec s Q : gpio_ok s -> (forall s', inside s' -> g_kernel s' = g_kernel s -> g_threads s' = g_threads s -> g_calls s' = g_calls s ->
    (g_gpio_inited s = true -> g_gpio_pins s' = g_gpio_pins s) -> Q tt s') ->
  wp (lock ;;; gpio_global_init_once) Q s.
Proof.
  intros [Hl Hok] HQ. apply wp_bind. unfold lock, wp at 1. rewrite Hl. unfold wp, gpio_global_init_once. cbn [g_gpio_inited].
  destruct (g_gpio_inited s) eqn:E.
  - apply HQ; try done.
  - apply HQ; try done. split; [done|]. split; [done|]. cbn [g_gpio_pins g_kernel]. unfold fds. cbn. destruct Hok as (E0 & _ & E1). unfold fds in E0. rewrite E0, E1. apply fresh_pins_ok.
Qed.

Lemma leave_spec s Q : inside s -> (forall s', gpio_ok s' -> g_kernel s' = g_kernel s -> g_threads s' = g_threads s -> g_calls s' = g_calls s ->
   g_gpio_inited s' = true -> g_gpio_pins s' = g_gpio_pins s -> Q tt s') -> wp unlock Q s.
Proof. intros (E & _ & Hok) HQ. apply wp_modify, HQ; try done. split; [done|]. cbn. by rewrite E. Qed.

(** Opening the device: a new descriptor of the chip, or none. *)
Lemma open_spec n i s Q :
  (forall k, k_fds k = fds s -> Q (-1) (put_kernel s k)) ->
  (forall c k, 0 <= c -> fds s !! c = None -> k_fds k = <[c := FChip]> (fds s) -> Q c (put_kernel s k)) ->
  wp (open_candidates n i) Q s.
Proof.
  revert i s Q. induction n as [|n IH]; intros i s Q Hf Hs; cbn [open_candidates].
  - apply wp_ret. replace s with (put_kernel s (g_kernel s)) by (by destruct s). by apply Hf.
  - apply wp_bind, wp_on_kernel. eapply wp_mono; [apply k_open_ok|]. intros fd k [[Hn Ek]|(Hge & Hge' & Hfr & Ek)].
    + rewrite (proj2 (Z.leb_gt 0 fd)) by lia. apply IH; unfold fds in *; cbn [g_kernel put_kernel].
      * intros k' Ek'. apply (Hf k'). congruence.
      * intros c k' Hc Hcf Ek'. apply (Hs c k'); congruence.
    + rewrite (proj2 (Z.leb_le 0 fd)) by lia. apply wp_ret. by apply Hs.
Qed.

(** Getting the line handle of a pin. *)
Lemma ensure_spec s i p Q : inside s -> g_gpio_pins s !! i = Some p ->
  (forall s', inside s' -> g_gpio_pins s' = g_gpio_pins s -> g_threads s' = g_threads s -> g_calls s' = g_calls s -> fds s' = fds s -> Q (-1) s') ->
  (0 <= p_event_fd p \/ forall s' fd h, inside s' -> 0 <= fd -> g_gpio_pins s' = <[i := with_handle fd h true p]> (g_gpio_pins s) ->
     fds s' !! fd = Some (FHandle (Z.of_nat i)) -> g_threads s' = g_threads s -> g_calls s' = g_calls s -> Q 0 s') ->
  wp (ensure_line_handle_locked (Z.of_nat i)) Q s.
Proof.
  intros (Hin & Hlk & Hok) Hi Hfail Hsucc. pose proof (po_pin _ _ _ Hok i p Hi) as [Hid Hv Hex].
  unfold ensure_line_handle_locked. apply wp_bind. eapply wp_get_pin; [done|]. rewrite Hv, andb_diag.
  destruct (Z.leb_spec 0 (p_handle_fd p)) as [Hge|Hlt].
  { apply wp_ret. destruct Hsucc as [|Hs]; [lia|]. apply (Hs s (p_handle_fd p) (p_hreq p)); try done.
    - rewrite list_insert_id; [done|]. rewrite Hi. f_equal. destruct p; cbn in *. by subst.
    - apply (po_fds _ _ _ Hok). exists i, p. split; [done|]. split; [done|]. by left. }
  apply wp_bind. apply open_spec.
  { intros k Ek. cbn. apply wp_ret, Hfail; try done. split; [done|]. split; [done|]. unfold fds in *. cbn. by rewrite Ek. }
  intros c k Hc Hcf Ek. rewrite (proj2 (Z.ltb_ge c 0)) by lia.
  destruct (match g_direct (p_base_cfg p) with TUYA_GPIO_OUTPUT => _ | TUYA_GPIO_INPUT => _ end) as [flags dflt].
  apply wp_bind, wp_on_kernel. cbn [g_kernel put_kernel]. eapply wp_mono; [apply k_linehandle_ok; rewrite Ek; apply lookup_insert_eq|].
  intros [rc h] k1 [Hres Hbusy]. cbn [fst snd] in *. apply wp_bind, wp_on_kernel. cbn [g_kernel put_kernel].
  assert (is_Some (k_fds k1 !! c)) as Hc1.
  { destruct Hres as [[_ ->]|(_ & _ & _ & ->)]; rewrite Ek; [by rewrite lookup_insert_eq|].
    destruct (decide (h = c)) as [->|]; [by rewrite lookup_insert_eq|]. by rewrite lookup_insert_ne, lookup_insert_eq. }
  eapply wp_mono; [by apply k_close_ok|]. intros rc2 k2 Ek2. destruct Hres as [[Hneg E1]|(Hge & Hh & Hhf & E1)].
  - rewrite (proj2 (Z.ltb_lt rc 0)) by lia. apply wp_ret, Hfail; try done; unfold inside, fds in *; cbn; rewrite Ek2, E1, Ek, delete_insert_id; done.
  - rewrite (proj2 (Z.ltb_ge rc 0)) by lia.
    assert (h <> c) as Hhc by (intros ->; rewrite Ek, lookup_insert_eq in Hhf; done).
    assert (k_fds k2 = <[h := FHandle (Z.of_nat i)]> (fds s)) as E2 by (rewrite Ek2, E1, Ek, Hid, delete_insert_ne, delete_insert_id; done).
    assert (fds s !! h = None) as Hhf' by (by rewrite Ek, lookup_insert_ne in Hhf).
    assert (p_event_fd p < 0) as Hev.
    { destruct (decide (p_event_fd p < 0)) as [|He]; [done|]. exfalso. assert (rc < 0); [|lia]. apply Hbusy. exists (p_event_fd p), (FEvent (p_pin_id p)).
      split; [|done]. assert (fds s !! p_event_fd p = Some (FEvent (p_pin_id p))) as E3.
      { apply (po_fds _ _ _ Hok). exists i, p. split; [done|]. split; [lia|]. right. by rewrite Hid. }
      rewrite Ek, lookup_insert_ne; [done|]. intros ->. congruence. }
    destruct Hsucc as [|Hs]; [lia|]. apply wp_bind. eapply wp_upd_pin; [done|]. apply wp_ret.
    eapply (Hs _ h); try done; unfold inside, fds; cbn; rewrite E2; [|apply lookup_insert_eq].
    split; [done|]. split; [done|]. eapply pins_ok_upd; [done|done| |done|].
    + constructor; cbn; [done|by rewrite (proj2 (Z.leb_le 0 h)) by lia|by right].
    + intros fd f. rewrite lookup_insert_Some. split.
      * intros [[<- <-]|[Hne Hf]]; [right; split; [done|by left]|]. left. split; [|done]. intros El.
        destruct (pins_ok_line _ _ _ _ _ _ _ Hok Hi Hf El) as [? [[_ ?]|[_ ?]]]; lia.
      * intros [[Hl Hf]|[Hge' [[-> Eh]|[-> Eh]]]]; cbn in *; [right; split; [|done]|left; done|lia]. intros ->. congruence.
Qed.

Lemma put_pins_pins s l l' : put_pins (put_pins s l) l' = put_pins s l'.
Proof. done. Qed.

Lemma close_line_spec s i p Q : inside s -> g_gpio_pins s !! i = Some p ->
  (forall s', inside s' -> g_gpio_pins s' = <[i := with_handle (Z.min (p_handle_fd p) (-1)) zero_hreq false p]> (g_gpio_pins s) ->
     g_threads s' = g_threads s -> g_calls s' = g_calls s -> Q tt s') ->
  wp (close_line_handle_locked (Z.of_nat i)) Q s.
Proof.
  intros (Hin & Hlk & Hok) Hi HQ. pose proof (po_pin _ _ _ Hok i p Hi) as [Hid Hv Hex]. pose proof (lookup_lt_Some _ _ _ Hi) as Hlt.
  unfold close_line_handle_locked. apply wp_bind. eapply wp_get_pin; [done|].
  assert (forall k, (forall fd f, k_fds k !! fd = Some f <-> (line_of f <> Some (Z.of_nat i) /\ fds s !! fd = Some f) \/ holds i (with_handle (Z.min (p_handle_fd p) (-1)) zero_hreq false p) fd f) ->
    inside (put_pins (put_kernel s k) (<[i := with_handle (Z.min (p_handle_fd p) (-1)) zero_hreq false p]> (g_gpio_pins s)))) as Hgoal.
  { intros k Hk. split; [done|]. split; [done|]. eapply pins_ok_upd; [done|done| |done|exact Hk].
    constructor; cbn; [done|symmetry; apply Z.leb_gt; lia|left; lia]. }
  apply wp_bind, wp_when; intros E; zbool.
  - apply wp_bind, wp_on_kernel. assert (fds s !! p_handle_fd p = Some (FHandle (Z.of_nat i))) as Eh.
    { apply (po_fds _ _ _ Hok). exists i, p. split; [done|]. split; [done|]. by left. }
    eapply wp_mono; [apply k_close_ok; exists (FHandle (Z.of_nat i)); exact Eh|]. intros rc k Ek. eapply wp_upd_pin; [done|].
    eapply wp_upd_pin; [cbn; by rewrite list_lookup_insert_eq|]. cbn. rewrite list_insert_insert_eq.
    match goal with |- Q tt ?s' => replace s' with (put_pins (put_kernel s k) (<[i := with_handle (Z.min (p_handle_fd p) (-1)) zero_hreq false p]> (g_gpio_pins s))) by (unfold put_pins, put_kernel, with_handle; cbn; repeat f_equal; lia) end.
    apply HQ; try done. apply Hgoal. intros fd f. rewrite Ek, lookup_delete_Some. split.
    + intros [Hne Hf]. destruct (decide (line_of f = Some (Z.of_nat i))) as [El|]; [|by left].
      destruct (pins_ok_line _ _ _ _ _ _ _ Hok Hi Hf El) as [? [[_ ?]|[_ ?]]]; [congruence|lia].
    + intros [[Hl Hf]|[Hge [[-> Ef]|[-> Ef]]]]; cbn in *; [|lia|lia]. split; [|done]. intros <-. unfold fds in *. rewrite Eh in Hf. by injection Hf as <-.
  - eapply wp_upd_pin; [done|].
    match goal with |- Q tt ?s' => replace s' with (put_pins (put_kernel s (g_kernel s)) (<[i := with_handle (Z.min (p_handle_fd p) (-1)) zero_hreq false p]> (g_gpio_pins s))) by (unfold put_pins, put_kernel, with_handle; cbn; repeat f_equal; lia) end.
    apply HQ; try done. apply Hgoal. intros fd f. split.
    + intros Hf. destruct (decide (line_of f = Some (Z.of_nat i))) as [El|]; [|by left]. right.
      destruct (pins_ok_line _ _ _ _ _ _ _ Hok Hi Hf El) as [? [[_ ?]|[-> ?]]]; [lia|]. split; [done|]. by right.
    + intros [[_ Hf]|[Hge [[-> Ef]|[-> Ef]]]]; cbn in *; [done|lia|]. apply (po_fds _ _ _ Hok). exists i, p. split; [done|]. split; [done|]. by right.
Qed.

Lemma close_event_spec s i p Q : inside s -> g_gpio_pins s !! i = Some p ->
  (forall s', inside s' -> g_gpio_pins s' = <[i := with_event (Z.min (p_event_fd p) (-1)) zero_ereq p]> (g_gpio_pins s) ->
     g_threads s' = g_threads s -> g_calls s' = g_calls s -> Q tt s') ->
  wp (close_event_fd_locked (Z.of_nat i)) Q s.
Proof.
  intros (Hin & Hlk & Hok) Hi HQ. pose proof (po_pin _ _ _ Hok i p Hi) as [Hid Hv Hex]. pose proof (lookup_lt_Some _ _ _ Hi) as Hlt.
  unfold close_event_fd_locked. apply wp_bind. eapply wp_get_pin; [done|].
  assert (forall k, (forall fd f, k_fds k !! fd = Some f <-> (line_of f <> Some (Z.of_nat i) /\ fds s !! fd = Some f) \/ holds i (with_event (Z.min (p_event_fd p) (-1)) zero_ereq p) fd f) ->
    inside (put_pins (put_kernel s k) (<[i := with_event (Z.min (p_event_fd p) (-1)) zero_ereq p]> (g_gpio_pins s)))) as Hgoal.
  { intros k Hk. split; [done|]. split; [done|]. eapply pins_ok_upd; [done|done| |done|exact Hk].
    constructor; cbn; [done|done|right; lia]. }
  apply wp_bind, wp_when; intros E; zbool.
  - apply wp_bind, wp_on_kernel. assert (fds s !! p_event_fd p = Some (FEvent (Z.of_nat i))) as Eh.
    { apply (po_fds _ _ _ Hok). exists i, p. split; [done|]. split; [done|]. by right. }
    eapply wp_mono; [apply k_close_ok; exists (FEvent (Z.of_nat i)); exact Eh|]. intros rc k Ek. eapply wp_upd_pin; [done|].
    eapply wp_upd_pin; [cbn; by rewrite list_lookup_insert_eq|]. cbn. rewrite list_insert_insert_eq.
    match goal with |- Q tt ?s' => replace s' with (put_pins (put_kernel s k) (<[i := with_event (Z.min (p_event_fd p) (-1)) zero_ereq p]> (g_gpio_pins s))) by (unfold put_pins, put_kernel, with_event; cbn; repeat f_equal; lia) end.
    apply HQ; try done. apply Hgoal. intros fd f. rewrite Ek, lookup_delete_Some. split.
    + intros [Hne Hf]. destruct (decide (line_of f = Some (Z.of_nat i))) as [El|]; [|by left].
      destruct (pins_ok_line _ _ _ _ _ _ _ Hok Hi Hf El) as [? [[_ ?]|[_ ?]]]; [lia|congruence].
    + intros [[Hl Hf]|[Hge [[-> Ef]|[-> Ef]]]]; cbn in *; [|lia|lia]. split; [|done]. intros <-. unfold fds in *. rewrite Eh in Hf. by injection Hf as <-.
  - eapply wp_upd_pin; [done|].
    match goal with |- Q tt ?s' => replace s' with (put_pins (put_kernel s (g_kernel s)) (<[i := with_event (Z.min (p_event_fd p) (-1)) zero_ereq p]> (g_gpio_pins s))) by (unfold put_pins, put_kernel, with_event; cbn; repeat f_equal; lia) end.
    apply HQ; try done. apply Hgoal. intros fd f. split.
    + intros Hf. destruct (decide (line_of f = Some (Z.of_nat i))) as [El|]; [|by left]. right.
      destruct (pins_ok_line _ _ _ _ _ _ _ Hok Hi Hf El) as [? [[-> ?]|[_ ?]]]; [|lia]. split; [done|]. by left.
    + intros [[_ Hf]|[Hge [[-> Ef]|[-> Ef]]]]; cbn in *; [done| |lia]. apply (po_fds _ _ _ Hok). exists i, p. split; [done|]. split; [done|]. by left.
Qed.

Lemma request_event_spec s i p Q : inside s -> g_gpio_pins s !! i = Some p -> p_handle_fd p < 0 ->
  (forall s', inside s' -> g_gpio_pins s' = g_gpio_pins s -> g_threads s' = g_threads s -> g_calls s' = g_calls s -> Q (-1) s') ->
  (forall s' fd e, inside s' -> 0 <= fd -> g_gpio_pins s' = <[i := with_event fd e p]> (g_gpio_pins s) ->
     g_threads s' = g_threads s -> g_calls s' = g_calls s -> Q 0 s') ->
  wp (request_event_fd_locked (Z.of_nat i)) Q s.
Proof.
  intros (Hin & Hlk & Hok) Hi Hhn Hfail Hs. pose proof (po_pin _ _ _ Hok i p Hi) as [Hid Hv Hex].
  unfold request_event_fd_locked. apply wp_bind. eapply wp_get_pin; [done|].
  destruct (Z.leb_spec 0 (p_event_fd p)) as [Hge|Hlt].
  { apply wp_ret, (Hs s (p_event_fd p) (p_event_req p)); try done. rewrite list_insert_id; [done|]. rewrite Hi. by destruct p. }
  apply wp_bind. apply open_spec.
  { intros k Ek. cbn. apply wp_ret, Hfail; try done. split; [done|]. split; [done|]. unfold fds in *. cbn. by rewrite Ek. }
  intros c k Hc Hcf Ek. rewrite (proj2 (Z.ltb_ge c 0)) by lia.
  apply wp_bind, wp_on_kernel. cbn [g_kernel put_kernel]. eapply wp_mono; [apply k_lineevent_ok; rewrite Ek; apply lookup_insert_eq|].
  intros [rc h] k1 [Hres _]. cbn [fst snd] in *. apply wp_bind, wp_on_kernel. cbn [g_kernel put_kernel].
  assert (is_Some (k_fds k1 !! c)) as Hc1.
  { destruct Hres as [[_ ->]|(_ & _ & _ & ->)]; rewrite Ek; [by rewrite lookup_insert_eq|].
    destruct (decide (h = c)) as [->|]; [by rewrite lookup_insert_eq|]. by rewrite lookup_insert_ne, lookup_insert_eq. }
  eapply wp_mono; [by apply k_close_ok|]. intros rc2 k2 Ek2. destruct Hres as [[Hneg E1]|(Hge & Hh & Hhf & E1)].
  - rewrite (proj2 (Z.ltb_lt rc 0)) by lia. apply wp_ret, Hfail; try done; unfold inside, fds in *; cbn; rewrite Ek2, E1, Ek, delete_insert_id; done.
  - rewrite (proj2 (Z.ltb_ge rc 0)) by lia.
    assert (h <> c) as Hhc by (intros ->; rewrite Ek, lookup_insert_eq in Hhf; done).
    assert (k_fds k2 = <[h := FEvent (Z.of_nat i)]> (fds s)) as E2 by (rewrite Ek2, E1, Ek, Hid, delete_insert_ne, delete_insert_id; done).
    assert (fds s !! h = None) as Hhf' by (by rewrite Ek, lookup_insert_ne in Hhf).
    apply wp_bind. eapply wp_upd_pin; [done|]. apply wp_ret.
    eapply (Hs _ h); try done; unfold inside, fds; cbn; rewrite E2.
    split; [done|]. split; [done|]. eapply pins_ok_upd; [done|done| |done|].
    + constructor; cbn; [done|done|by left].
    + intros fd f. rewrite lookup_insert_Some. split.
      * intros [[<- <-]|[Hne Hf]]; [right; split; [done|by right]|]. left. split; [|done]. intros El.
        destruct (pins_ok_line _ _ _ _ _ _ _ Hok Hi Hf El) as [? [[_ ?]|[_ ?]]]; lia.
      * intros [[Hl Hf]|[Hge' [[-> Eh]|[-> Eh]]]]; cbn in *; [right; split; [|done]|lia|left; done]. intros ->. congruence.
Qed.

(** ** The calls *)

(** A pin number below 64 is a slot. *)
Lemma pin_slot pin_id : 0 <= pin_id -> bad_pin pin_id = false -> exists i, pin_id = Z.of_nat i /\ (i < GPIO_PINS)%nat.
Proof. unfold bad_pin. intros H0 H. zbool. exists (Z.to_nat pin_id). split; [lia|]. unfold GPIO_PINS in *. lia. Qed.

(** Changing fields of a pin other than its descriptors. *)
Lemma upd_spec s i f p Q : inside s -> g_gpio_pins s !! i = Some p ->
  p_pin_id (f p) = Z.of_nat i -> p_handle_fd (f p) = p_handle_fd p -> p_event_fd (f p) = p_event_fd p -> p_hreq_valid (f p) = p_hreq_valid p -> (p_irq_thread_started p = true -> p_irq_thread_started (f p) = true) ->
  (forall s', inside s' -> g_gpio_pins s' = <[i := f p]> (g_gpio_pins s) -> g_kernel s' = g_kernel s -> g_threads s' = g_threads s -> g_calls s' = g_calls s -> Q tt s') ->
  wp (upd_pin (Z.of_nat i) f) Q s.
Proof.
  intros (Hin & Hlk & Hok) Hi E0 E1 E2 E3 E4 HQ. eapply wp_upd_pin; [done|]. apply HQ; try done. split; [done|]. split; [done|]. by eapply pins_ok_same.
Qed.

Lemma upd_lookup (l : list gpio_pin_ctx_t) i p q : l !! i = Some p -> <[i := q]> l !! i = Some q.
Proof. intros H. apply list_lookup_insert_eq. by apply lookup_lt_Some in H. Qed.

(** The common start of every call: lock, set up, and update of the pin. *)
Lemma start_spec {R} s i f (k : M (gstate K) R) Q : gpio_ok s -> (i < GPIO_PINS)%nat ->
  (forall p, p_pin_id p = Z.of_nat i -> p_pin_id (f p) = Z.of_nat i /\ p_handle_fd (f p) = p_handle_fd p /\ p_event_fd (f p) = p_event_fd p /\ p_hreq_valid (f p) = p_hreq_valid p /\ p_irq_thread_started (f p) = p_irq_thread_started p) ->
  (forall s' p, inside s' -> g_gpio_pins s' !! i = Some (f p) -> pin_ok i (f p) -> g_threads s' = g_threads s -> g_calls s' = g_calls s ->
     (g_gpio_inited s = true -> g_gpio_pins s !! i = Some p) -> wp k Q s') ->
  wp (lock ;;; gpio_global_init_once ;;; upd_pin (Z.of_nat i) f ;;; k) Q s.
Proof.
  intros Hok Hi Hf HQ. assert (wp (lock ;;; gpio_global_init_once) (fun _ => wp (upd_pin (Z.of_nat i) f ;;; k) Q) s) as Hw.
  { apply enter_spec; [done|]. intros s1 Hin1 _ Ht1 Hc1 Hp1. destruct (inside_pin _ _ Hin1 Hi) as [p Hp].
    pose proof Hin1 as (_ & _ & Hok1). pose proof (po_pin _ _ _ Hok1 _ _ Hp) as Hpo. destruct (Hf p (po_id _ _ Hpo)) as (E0 & E1 & E2 & E3 & E4).
    apply wp_bind. eapply upd_spec; [done..|by rewrite E4|]. intros s2 Hin2 Ep2 _ Ht2 Hc2. apply (HQ s2 p); try congruence.
    - rewrite Ep2. by eapply upd_lookup.
    - destruct Hin2 as (_ & _ & Hok2). apply (po_pin _ _ _ Hok2). rewrite Ep2. by eapply upd_lookup.
    - intros E. by rewrite <-Hp1. }
  unfold wp, bind in *. destruct (lock s) as [[] s1| |]; try done. by destruct (gpio_global_init_once s1).
Qed.

(** A call leaves the module consistent, and starts or ends no thread and calls
    no handler. *)
Definition quiet (s s' : gstate K) : Prop := gpio_ok s' /\ g_threads s' = g_threads s /\ g_calls s' = g_calls s.

Lemma quiet_leave {R} s s' (r : R) (Q : R -> gstate K -> Prop) : inside s' -> g_threads s' = g_threads s -> g_calls s' = g_calls s ->
  (forall s'', quiet s s'' -> Q r s'') -> wp (unlock ;;; ret r) Q s'.
Proof. intros Hin Ht Hc HQ. apply wp_bind, leave_spec; [done|]. intros s'' Hok _ Ht' Hc' _ _. apply wp_ret, HQ. split; [done|]. split; congruence. Qed.

Lemma gpio_init_quiet s pin_id cfg : 0 <= pin_id -> gpio_ok s -> wp (tkl_gpio_init pin_id cfg) (fun _ s' => quiet s s') s.
Proof.
  intros H0 Hok. unfold tkl_gpio_init. destruct cfg as [cfg|]; [|by apply wp_ret]. destruct (bad_pin pin_id) eqn:Eb; [by apply wp_ret|].
  destruct (pin_slot _ H0 Eb) as (i & -> & Hi). apply start_spec; [done|done|by intros p|]. intros s1 p Hin1 Hp1 _ Ht1 Hc1 _.
  apply wp_bind. eapply close_line_spec; [done|done|]. intros s2 Hin2 Ep2 Ht2 Hc2.
  assert (exists q, g_gpio_pins s2 !! i = Some q) as [q Hq] by (by apply inside_pin). apply wp_bind. eapply wp_get_pin; [done|]. apply wp_bind.
  destruct (g_direct (p_base_cfg q)).
  - apply wp_ret. eapply (quiet_leave s); [done|congruence..|done].
  - eapply ensure_spec; [done|done| |right].
    + intros s3 Hin3 _ Ht3 Hc3 _. eapply (quiet_leave s); [done|congruence..|done].
    + intros s3 fd h Hin3 _ _ _ Ht3 Hc3. eapply (quiet_leave s); [done|congruence..|done].
Qed.

Lemma gpio_deinit_quiet s pin_id : 0 <= pin_id -> gpio_ok s -> wp (tkl_gpio_deinit pin_id) (fun _ s' => quiet s s') s.
Proof.
  intros H0 Hok. unfold tkl_gpio_deinit. destruct (bad_pin pin_id) eqn:Eb; [by apply wp_ret|].
  destruct (pin_slot _ H0 Eb) as (i & -> & Hi). apply start_spec; [done|done|by intros p|]. intros s1 p Hin1 Hp1 _ Ht1 Hc1 _.
  apply wp_bind. eapply close_event_spec; [done|done|]. intros s2 Hin2 Ep2 Ht2 Hc2.
  apply wp_bind. eapply close_line_spec; [done|rewrite Ep2; by eapply upd_lookup|]. intros s3 Hin3 Ep3 Ht3 Hc3.
  eapply (quiet_leave s); [done|congruence..|done].
Qed.

Lemma gpio_write_quiet s pin_id level : 0 <= pin_id -> gpio_ok s -> wp (tkl_gpio_write pin_id level) (fun _ s' => quiet s s') s.
Proof.
  intros H0 Hok. unfold tkl_gpio_write. destruct (bad_pin pin_id) eqn:Eb; [by apply wp_ret|].
  destruct (pin_slot _ H0 Eb) as (i & -> & Hi). apply start_spec; [done|done|by intros p|]. intros s1 p Hin1 Hp1 _ Ht1 Hc1 _.
  apply wp_bind. eapply ensure_spec; [done|done| |right].
  - intros s3 Hin3 _ Ht3 Hc3 _. cbn [negb Z.eqb]. eapply (quiet_leave s); [done|congruence..|done].
  - intros s3 fd h Hin3 Hfd Ep3 Ef3 Ht3 Hc3. cbn [negb Z.eqb]. apply wp_bind. eapply wp_get_pin; [rewrite Ep3; by eapply upd_lookup|]. cbn [p_handle_fd with_handle].
    apply wp_bind, wp_on_kernel. eapply wp_mono; [by eapply k_set_value_ok|]. intros rc k Ek.
    eapply (quiet_leave s); [|cbn; congruence..|done]. destruct Hin3 as (? & ? & ?). split; [done|]. split; [done|]. unfold fds in *. cbn. by rewrite Ek.
Qed.

Lemma gpio_read_quiet s pin_id level : 0 <= pin_id -> gpio_ok s -> wp (tkl_gpio_read pin_id level) (fun r s' => quiet s s' /\
  (forall i p, pin_id = Z.of_nat i -> g_gpio_inited s = true -> g_gpio_pins s !! i = Some p -> 0 <= p_event_fd p -> level = true -> fst r <> OPRT_OK)) s.
Proof.
  intros H0 Hok. unfold tkl_gpio_read. destruct level; [|apply wp_ret; by split]. cbn [negb]. destruct (bad_pin pin_id) eqn:Eb; [apply wp_ret; by split|].
  destruct (pin_slot _ H0 Eb) as (i & -> & Hi). apply start_spec; [done|done|by intros p|]. intros s1 p Hin1 Hp1 Hpo Ht1 Hc1 Hp0.
  apply wp_bind. eapply ensure_spec; [done|done| |].
  - intros s3 Hin3 _ Ht3 Hc3 _. cbn [negb Z.eqb]. eapply (quiet_leave s); [done|congruence..|done].
  - destruct (decide (0 <= p_event_fd p)) as [He|He]; [by left|right].
    intros s3 fd h Hin3 Hfd Ep3 Ef3 Ht3 Hc3. cbn [negb Z.eqb]. apply wp_bind.
    assert (g_gpio_pins s3 !! i = Some (with_handle fd h true (with_pin_id (Z.of_nat i) p))) as Hp3 by (rewrite Ep3; by eapply upd_lookup).
    eapply wp_get_pin; [done|]. cbn [p_handle_fd with_handle].
    apply wp_bind, wp_on_kernel. eapply wp_mono; [by eapply k_get_value_ok|]. intros [rc v] k Ek. cbn [fst snd]. apply wp_bind.
    assert (inside (put_kernel s3 k)) as Hin4 by (destruct Hin3 as (? & ? & ?); split; [done|]; split; [done|]; unfold fds in *; cbn; by rewrite Ek).
    assert (forall r, forall s'', quiet s s'' -> quiet s s'' /\ (forall i' p', Z.of_nat i = Z.of_nat i' -> g_gpio_inited s = true -> g_gpio_pins s !! i' = Some p' ->
      0 <= p_event_fd p' -> true = true -> fst (r : OPERATE_RET * option TUYA_GPIO_LEVEL_E) <> OPRT_OK)) as Hq.
    { intros r s'' Hs''. split; [done|]. intros i' p' Ei Hini Hp' He' _. assert (i' = i) as -> by lia. rewrite (Hp0 Hini) in Hp'. injection Hp' as <-. done. }
    destruct (rc =? 0).
    + apply wp_bind. eapply upd_spec; [done|done|done..|]. intros s5 Hin5 _ _ Ht5 Hc5. apply wp_ret. eapply (quiet_leave s); [done|cbn in *; congruence..|apply Hq].
    + apply wp_ret. eapply (quiet_leave s); [done|cbn in *; congruence..|apply Hq].
Qed.

Lemma gpio_enable_quiet s pin_id v : 0 <= pin_id -> gpio_ok s ->
  wp (if v : bool then tkl_gpio_irq_enable pin_id else tkl_gpio_irq_disable pin_id) (fun _ s' => quiet s s') s.
Proof.
  intros H0 Hok. destruct v; [unfold tkl_gpio_irq_enable|unfold tkl_gpio_irq_disable]; (destruct (bad_pin pin_id) eqn:Eb; [by apply wp_ret|]);
    destruct (pin_slot _ H0 Eb) as (i & -> & Hi); (apply start_spec; [done|done|by intros p|]); intros s1 p Hin1 Hp1 _ Ht1 Hc1 _;
    eapply (quiet_leave s); done.
Qed.

(** [tkl_gpio_irq_init]: the only call that starts a thread, and only for a pin
    not marked as having one. *)
Lemma gpio_irq_init_ok s b pin_id cfg : 0 <= pin_id -> gpio_ok s ->
  wp (tkl_gpio_irq_init b pin_id cfg) (fun _ s' => gpio_ok s' /\ g_calls s' = g_calls s /\
    (g_threads s' = g_threads s \/ g_threads s !! pin_id = None /\ g_threads s' = <[pin_id := IrqTop]> (g_threads s)) /\
    (forall i p, pin_id = Z.of_nat i -> g_gpio_inited s = true -> g_gpio_pins s !! i = Some p -> p_irq_thread_started p = true -> g_threads s' = g_threads s)) s.
Proof.
  intros H0 Hok. unfold tkl_gpio_irq_init. destruct cfg as [cfg|]; [|by apply wp_ret; auto]. destruct (bad_pin pin_id) eqn:Eb; [by apply wp_ret; auto|].
  destruct (pin_slot _ H0 Eb) as (i & -> & Hi). apply start_spec; [done|done|by intros p|]. intros s1 p Hin1 Hp1 _ Ht1 Hc1 Hp0.
  apply wp_bind. eapply close_line_spec; [done|done|]. intros s2 Hin2 Ep2 Ht2 Hc2.
  set (p2 := with_handle (Z.min (p_handle_fd p) (-1)) zero_hreq false (with_irq_cfg cfg (with_pin_id (Z.of_nat i) p))).
  assert (g_gpio_pins s2 !! i = Some p2) as Hp2 by (rewrite Ep2; by eapply upd_lookup).
  apply wp_bind. eapply request_event_spec; [done|done|cbn; lia| |].
  - intros s3 Hin3 _ Ht3 Hc3. cbn [negb Z.eqb]. eapply (quiet_leave s); [done|congruence..|]. intros s'' (? & Et & ?). by rewrite Et; auto.
  - intros s3 fd e Hin3 Hfd Ep3 Ht3 Hc3. cbn [negb Z.eqb]. assert (g_gpio_pins s3 !! i = Some (with_event fd e p2)) as Hp3 by (rewrite Ep3; by eapply upd_lookup).
    apply wp_bind. eapply wp_get_pin; [done|]. cbn [p_irq_thread_started with_event with_handle with_irq_cfg with_pin_id p2].
    apply wp_bind, wp_when; intros Es; zbool.
    + assert (g_threads s !! Z.of_nat i = None) as Hnone.
      { rewrite <-Ht1, <-Ht2, <-Ht3. destruct (g_threads s3 !! Z.of_nat i) as [t|] eqn:Et; [|done]. destruct Hin3 as (_ & _ & Hok3). destruct (po_marked _ _ _ Hok3 _ _ Et) as (j & q & Ej & Hq & Hs). assert (j = i) as -> by lia. rewrite Hp3 in Hq. injection Hq as <-. cbn in Hs. congruence. }
      apply wp_bind. eapply (upd_spec s3 i (with_started b)); [done|done|apply (po_id _ _ (po_pin _ _ _ (proj2 (proj2 Hin3)) _ _ Hp3))|done|done|done|cbn; congruence|].
      intros s4 Hin4 Ep4 _ Ht4 Hc4.
      assert (forall s5, inside s5 -> g_calls s5 = g_calls s -> g_threads s5 = g_threads s \/ g_threads s !! Z.of_nat i = None /\ g_threads s5 = <[Z.of_nat i := IrqTop]> (g_threads s) ->
        wp (unlock ;;; ret OPRT_OK) (fun _ s' => gpio_ok s' /\ g_calls s' = g_calls s /\ (g_threads s' = g_threads s \/ g_threads s !! Z.of_nat i = None /\ g_threads s' = <[Z.of_nat i := IrqTop]> (g_threads s)) /\
          (forall i' p', Z.of_nat i = Z.of_nat i' -> g_gpio_inited s = true -> g_gpio_pins s !! i' = Some p' -> p_irq_thread_started p' = true -> g_threads s' = g_threads s)) s5) as Hend.
      { intros s5 Hin5 Hc5 Ht5. apply wp_bind, leave_spec; [done|]. intros s6 Hok6 _ Ht6 Hc6 _ _. apply wp_ret. rewrite Ht6, Hc6. split; [done|]. split; [done|]. split; [done|].
        intros i' p' Ei Hini Hp' Hst. assert (i' = i) as -> by lia. rewrite (Hp0 Hini) in Hp'. congruence. }
      apply wp_when; intros Eb'.
      * apply wp_modify, Hend; [|cbn; congruence|right; cbn; split; congruence]. destruct Hin4 as (Ei4 & El4 & Hok4). split; [done|]. split; [done|]. cbn. eapply pins_ok_threads; [exact Hok4|]. intros z Hz.
        destruct (decide (z = Z.of_nat i)) as [->|Hne]; [|left; by rewrite lookup_insert_ne in Hz]. right. exists i, (with_started b (with_event fd e p2)). split; [done|]. split; [|exact Eb']. rewrite Ep4. by eapply upd_lookup.
      * apply Hend; [done|congruence|left; congruence].
    + eapply (quiet_leave s); [done|congruence..|]. intros s'' (? & Et & ?). by rewrite Et; auto.
Qed.

(** ** The interrupt thread *)

(** A running thread goes on, or ends; the module stays consistent. *)
Lemma thread_at_ok s i turn (Q : unit -> gstate K -> Prop) : gpio_ok s -> is_Some (g_threads s !! i) ->
  (forall s', gpio_ok s' -> g_threads s' = partial_alter (fun _ => turn) i (g_threads s) -> g_calls s' = g_calls s -> (g_gpio_inited s', g_gpio_pins s') = (g_gpio_inited s, g_gpio_pins s) -> Q tt s') -> wp (thread_at i turn) Q s.
Proof.
  intros [Hlk Hcase] Hi HQ. apply wp_modify, HQ; [|done..]. split; [done|]. cbn. destruct (g_gpio_inited s).
  - eapply pins_ok_threads; [exact Hcase|]. intros z Hz. left. destruct (decide (z = i)) as [->|Hne]; [done|]. by rewrite lookup_partial_alter_ne in Hz.
  - destruct Hcase as (_ & _ & E). rewrite E, lookup_empty in Hi. by destruct Hi.
Qed.

(** The pin of a running thread. *)
Lemma thread_pin s z turn : gpio_ok s -> g_threads s !! z = Some turn -> exists i p, z = Z.of_nat i /\ g_gpio_inited s = true /\ g_gpio_pins s !! i = Some p /\ pin_ok i p /\ p_irq_thread_started p = true.
Proof.
  intros [_ Hcase] Hz. destruct (g_gpio_inited s).
  - destruct (po_marked _ _ _ Hcase _ _ Hz) as (i & p & -> & Hp & Hs). exists i, p. by pose proof (po_pin _ _ _ Hcase _ _ Hp).
  - destruct Hcase as (_ & _ & E). by rewrite E, lookup_empty in Hz.
Qed.

(** Into the wait: with the settings of the moment, or the end of the thread without a
    descriptor. *)
Lemma irq_to_poll_ok s i p : gpio_ok s -> is_Some (g_threads s !! Z.of_nat i) -> g_gpio_pins s !! i = Some p ->
  wp (irq_to_poll (Z.of_nat i)) (fun _ s' => gpio_ok s' /\ g_calls s' = g_calls s /\ g_threads s' = partial_alter (fun _ =>
    if p_event_fd p <? 0 then None else Some (IrqPoll (p_event_fd p) (p_irq_enabled p) (p_irq_cfg p))) (Z.of_nat i) (g_threads s)) s.
Proof.
  intros Hok Hi Hp. pose proof Hok as [Hlk _]. unfold irq_to_poll. apply wp_bind. unfold lock, wp at 1. rewrite Hlk. apply wp_bind. eapply wp_get_pin; [done|]. apply wp_bind, wp_modify. cbn [g_gpio_pins g_gpio_inited g_kernel g_threads g_calls].
  replace (GState (g_gpio_pins s) (g_gpio_inited s) false (g_kernel s) (g_threads s) (g_calls s)) with s by (destruct s; cbn in *; by subst). destruct (p_event_fd p <? 0); by apply thread_at_ok.
Qed.

(** The level that decides about a call, for an interrupt on a level: there is none while the
    event descriptor is open. *)
Lemma irq_skip_ok s i p mode : gpio_ok s -> g_gpio_inited s = true -> g_gpio_pins s !! i = Some p ->
  wp (match mode with
      | TUYA_GPIO_IRQ_LOW | TUYA_GPIO_IRQ_HIGH => pin <- get_pin (Z.of_nat i) ;; r <- tkl_gpio_read (p_pin_id pin) true ;; ret (match r with (OPRT_OK, Some level) => negb (irq_mode_match_level mode level) | _ => false end)
      | _ => ret false end)
     (fun skip s' => quiet s s' /\ (0 <= p_event_fd p \/ (mode <> TUYA_GPIO_IRQ_LOW /\ mode <> TUYA_GPIO_IRQ_HIGH) -> skip = false)) s.
Proof.
  intros Hok Hini Hp. assert (wp (pin <- get_pin (Z.of_nat i) ;; r <- tkl_gpio_read (p_pin_id pin) true ;; ret (match r with (OPRT_OK, Some level) => negb (irq_mode_match_level mode level) | _ => false end))
    (fun skip s' => quiet s s' /\ (0 <= p_event_fd p -> skip = false)) s) as Hread.
  { pose proof Hok as [_ Hcase]. rewrite Hini in Hcase. apply wp_bind. eapply wp_get_pin; [done|]. rewrite (po_id _ _ (po_pin _ _ _ Hcase _ _ Hp)). apply wp_bind.
    eapply wp_mono; [apply gpio_read_quiet; [lia|done]|]. intros [r lv] s' [Hq Hne]. apply wp_ret. split; [done|]. intros He. specialize (Hne i p eq_refl Hini Hp He eq_refl). cbn in Hne. by destruct r. }
  destruct mode; try by apply wp_ret.
  - eapply wp_mono; [exact Hread|]. intros skip s' [Hq He]. split; [done|]. naive_solver.
  - eapply wp_mono; [exact Hread|]. intros skip s' [Hq He]. split; [done|]. naive_solver.
Qed.

(** Out of the wait: the handler of the time before it, or nothing. *)
Definition handled (enabled : bool) (cfg : TUYA_GPIO_IRQ_T) : list (Z * Z) := if enabled && negb (i_cb cfg =? 0) then [(i_cb cfg, i_arg cfg)] else [].
Lemma irq_from_poll_ok s i p turn enabled cfg polled complete : gpio_ok s -> g_threads s !! Z.of_nat i = Some turn -> g_gpio_inited s = true -> g_gpio_pins s !! i = Some p ->
  wp (irq_from_poll (Z.of_nat i) enabled cfg polled complete) (fun _ s' => gpio_ok s' /\
    g_threads s' = partial_alter (fun _ => if polled && negb complete then None else Some IrqTop) (Z.of_nat i) (g_threads s) /\
    (g_calls s' = g_calls s \/ g_calls s' = handled enabled cfg ++ g_calls s) /\
    (polled = true -> complete = true -> 0 <= p_event_fd p \/ (i_mode cfg <> TUYA_GPIO_IRQ_LOW /\ i_mode cfg <> TUYA_GPIO_IRQ_HIGH) -> g_calls s' = handled enabled cfg ++ g_calls s)) s.
Proof.
  intros Hok Hi Hini Hp. unfold irq_from_poll, handled. destruct polled; cbn [negb andb]; [|apply thread_at_ok; [done|by eexists|]; intros s' ? -> -> _; naive_solver].
  destruct complete; cbn [negb]; [|apply thread_at_ok; [done|by eexists|]; intros s' ? -> -> _; naive_solver].
  destruct (enabled && negb (i_cb cfg =? 0)) eqn:Ee; [|replace (negb enabled || (i_cb cfg =? 0)) with true by (by destruct enabled, (i_cb cfg =? 0)); apply thread_at_ok; [done|by eexists|]; intros s' ? -> -> _; naive_solver].
  replace (negb enabled || (i_cb cfg =? 0)) with false by (by destruct enabled, (i_cb cfg =? 0)). apply wp_bind. eapply wp_mono; [by eapply irq_skip_ok|]. cbv beta. intros skip s1 [(Hok1 & Et1 & Ec1) Hskip].
  apply wp_bind, wp_when; intros Es.
  - apply wp_modify, thread_at_ok; [by destruct Hok1|cbn; rewrite Et1; by eexists|]. cbn. intros s' ? -> -> _. rewrite Et1, Ec1. naive_solver.
  - apply thread_at_ok; [done|rewrite Et1; by eexists|]. intros s' ? -> -> _. rewrite Et1, Ec1. split; [done|]. split; [done|]. split; [by left|]. intros _ _ Hl. by rewrite (Hskip Hl) in Es.
Qed.

(** A turn of the interrupt thread. *)
Lemma thread_round_ok s z polled complete : gpio_ok s ->
  wp (gpio_irq_thread z polled complete) (fun _ s' => gpio_ok s' /\ forall z', z' <> z -> g_threads s' !! z' = g_threads s !! z') s.
Proof.
  intros Hok. unfold gpio_irq_thread. apply wp_bind, wp_gets. destruct (g_threads s !! z) as [turn|] eqn:Et; [|by apply wp_ret].
  destruct (thread_pin _ _ _ Hok Et) as (i & p & -> & Hini & Hp & _). destruct turn as [|efd enabled cfg].
  - eapply wp_mono; [eapply irq_to_poll_ok; [done|by eexists|done]|]. intros [] s' (Hok' & _ & ->). split; [done|]. intros z' Hz. by rewrite lookup_partial_alter_ne.
  - eapply wp_mono; [by eapply irq_from_poll_ok|]. intros [] s' (Hok' & -> & _). split; [done|]. intros z' Hz. by rewrite lookup_partial_alter_ne.
Qed.

(** ** Sequences of calls and thread turns *)

Inductive gop :=
| GInit (pin : Z) (cfg : option TUYA_GPIO_BASE_CFG_T) | GDeinit (pin : Z)
| GWrite (pin : Z) (level : TUYA_GPIO_LEVEL_E) | GRead (pin : Z) (level : bool)
| GIrqInit (thread_ok : bool) (pin : Z) (cfg : option TUYA_GPIO_IRQ_T) | GIrqSwitch (pin : Z) (on : bool)
| GThread (pin : nat) (polled complete : bool).

Definition exec_gop (o : gop) : M (gstate K) unit :=
  match o with
  | GInit pin cfg => _ <- tkl_gpio_init pin cfg ;; ret tt
  | GDeinit pin => _ <- tkl_gpio_deinit pin ;; ret tt
  | GWrite pin level => _ <- tkl_gpio_write pin level ;; ret tt
  | GRead pin level => _ <- tkl_gpio_read pin level ;; ret tt
  | GIrqInit b pin cfg => _ <- tkl_gpio_irq_init b pin cfg ;; ret tt
  | GIrqSwitch pin on => _ <- (if on then tkl_gpio_irq_enable pin else tkl_gpio_irq_disable pin) ;; ret tt
  | GThread pin polled complete => gpio_irq_thread (Z.of_nat pin) polled complete
  end.

Fixpoint exec_gops (os : list gop) : M (gstate K) unit :=
  match os with [] => ret tt | o :: os => exec_gop o ;;; exec_gops os end.

(** Pin numbers are unsigned. *)
Definition gop_ok (o : gop) : Prop :=
  match o with
  | GInit pin _ | GDeinit pin | GWrite pin _ | GRead pin _ | GIrqInit _ pin _ | GIrqSwitch pin _ => 0 <= pin
  | GThread pin _ _ => True
  end.

(** The pin whose thread takes a turn. *)
Definition turn_of (o : gop) : option Z := match o with GThread pin _ _ => Some (Z.of_nat pin) | _ => None end.

Lemma exec_gop_ok s o : gop_ok o -> gpio_ok s ->
  wp (exec_gop o) (fun _ s' => gpio_ok s' /\ forall z turn, turn_of o <> Some z -> g_threads s !! z = Some turn -> g_threads s' !! z = Some turn) s.
Proof.
  intros Ho Hok. assert (forall R (c : M (gstate K) R), wp c (fun _ s' => quiet s s') s ->
    wp (_ <- c ;; ret tt) (fun _ s' => gpio_ok s' /\ forall z turn, turn_of o <> Some z -> g_threads s !! z = Some turn -> g_threads s' !! z = Some turn) s) as Hq.
  { intros R c Hc. apply wp_bind. eapply wp_mono; [exact Hc|]. intros r s' (Hok' & Et & _). apply wp_ret. split; [done|]. by rewrite Et. }
  destruct o as [pin cfg|pin|pin level|pin level|b pin cfg|pin on|pin polled complete]; cbn [exec_gop gop_ok] in *.
  - by apply Hq, gpio_init_quiet.
  - by apply Hq, gpio_deinit_quiet.
  - by apply Hq, gpio_write_quiet.
  - apply Hq. eapply wp_mono; [by apply gpio_read_quiet|]. by intros r s' [? _].
  - apply wp_bind. eapply wp_mono; [by apply gpio_irq_init_ok|]. intros r s' (Hok' & _ & Ht & _). apply wp_ret. split; [done|].
    intros z turn _ Hz. destruct Ht as [Et|[Hn Et]]; rewrite Et; [done|]. rewrite lookup_insert_ne; [done|]. intros ->. congruence.
  - by apply Hq, gpio_enable_quiet.
  - eapply wp_mono; [by apply thread_round_ok|]. intros [] s' [Hok' Hz]. split; [done|]. intros z turn Hne Hs. rewrite Hz; [done|]. intros ->. by apply Hne.
Qed.

(** Threads that take no turn stay where they are. *)
Lemma exec_gops_ok os : forall s, Forall gop_ok os -> gpio_ok s ->
  wp (exec_gops os) (fun _ s' => gpio_ok s' /\ forall z turn, Forall (fun o => turn_of o <> Some z) os -> g_threads s !! z = Some turn -> g_threads s' !! z = Some turn) s.
Proof.
  induction os as [|o os IH]; intros s Hos Hok; cbn [exec_gops]; [by apply wp_ret|]. inversion_clear Hos as [|? ? Ho Hos'].
  apply wp_bind. eapply wp_mono; [by apply exec_gop_ok|]. intros [] s' [Hok' Hz']. eapply wp_mono; [by apply IH|]. intros [] s'' [Hok'' Hz'']. split; [done|].
  intros z turn [Hne Hnes]%Forall_cons Hz. by apply Hz'', Hz'.
Qed.

(** C16: from the initial state, over any GPIO device that keeps its documented
    rules, any sequence of calls and interrupt-thread rounds runs to its end and
    leaves the lock free; once the table is set up, the open descriptors are
    exactly those recorded in it (none leaks), each pin's handle flag agrees with
    its descriptor, and no pin has a line handle and an event descriptor at the
    same time. *)
Theorem gpio_descriptors_consistent k os :
  k_fds k = ∅ -> Forall gop_ok os ->
  wp (exec_gops os) (fun _ s' => g_gpio_lock s' = false /\
    (g_gpio_inited s' = true -> forall i p, g_gpio_pins s' !! i = Some p ->
       p_hreq_valid p = (0 <=? p_handle_fd p) /\ (p_handle_fd p < 0 \/ p_event_fd p < 0)) /\
    (forall fd f, k_fds (g_kernel s') !! fd = Some f -> exists i p, g_gpio_pins s' !! i = Some p /\ holds i p fd f)) (gpio_zero k).
Proof.
  intros Hk Hos. eapply wp_mono; [apply (exec_gops_ok os (gpio_zero k) Hos); by split|].
  intros [] s' [[Hlk Hcase] _]. split; [done|]. split.
  - intros E i p Hp. rewrite E in Hcase. pose proof (po_pin _ _ _ Hcase i p Hp) as [_ ? ?]. done.
  - intros fd f Hf. destruct (g_gpio_inited s'); [by apply (po_fds _ _ _ Hcase)|]. destruct Hcase as [E _]. unfold fds in E. rewrite E, lookup_empty in Hf. done.
Qed.

(** C32: the settings a GPIO interrupt is handled with.  A thread that waits in [poll] keeps
    waiting with what it read from the pin before, whatever calls are made and whatever other
    threads do meanwhile: enabling, disabling, setting another handler, or giving the pin back
    and setting it up again, for which no other thread is started.  When its wait ends with an
    event, the handler of that earlier time is called if the interrupt was enabled then, and
    none otherwise; for an interrupt on a level this holds as long as the pin has its event
    descriptor, whatever the level of the line. *)
Theorem gpio_irq_settings_of_wait s os pin efd enabled cfg :
  gpio_ok s -> Forall gop_ok os -> Forall (fun o => turn_of o <> Some (Z.of_nat pin)) os -> g_threads s !! Z.of_nat pin = Some (IrqPoll efd enabled cfg) ->
  wp (exec_gops os) (fun _ s1 => g_threads s1 !! Z.of_nat pin = Some (IrqPoll efd enabled cfg) /\ exists p, g_gpio_pins s1 !! pin = Some p /\
    (0 <= p_event_fd p \/ (i_mode cfg <> TUYA_GPIO_IRQ_LOW /\ i_mode cfg <> TUYA_GPIO_IRQ_HIGH) ->
      wp (gpio_irq_thread (Z.of_nat pin) true true) (fun _ s2 => g_calls s2 = handled enabled cfg ++ g_calls s1 /\ g_threads s2 = <[Z.of_nat pin := IrqTop]> (g_threads s1)) s1)) s.
Proof.
  intros Hok Hos Hne Ht. eapply wp_mono; [by apply exec_gops_ok|]. intros [] s1 [Hok1 Hz]. pose proof (Hz _ _ Hne Ht) as Ht1. split; [exact Ht1|].
  destruct (thread_pin _ _ _ Hok1 Ht1) as (i & p & Ei & Hini & Hp & _). assert (i = pin) as -> by lia. exists p. split; [exact Hp|]. intros Hlevel.
  unfold gpio_irq_thread. apply wp_bind, wp_gets. rewrite Ht1. eapply wp_mono; [by eapply irq_from_poll_ok|]. intros [] s2 (_ & Et & _ & Hc). split; [by apply Hc|exact Et].
Qed.

(** A thread at the top of its loop ends when the pin is given back, and none is started for
    it again: the mark stays. *)
Lemma gpio_thread_not_restarted s i cfg polled complete thread_ok : gpio_ok s -> g_threads s !! Z.of_nat i = Some IrqTop ->
  wp (_ <- tkl_gpio_deinit (Z.of_nat i) ;; gpio_irq_thread (Z.of_nat i) polled complete ;;; tkl_gpio_irq_init thread_ok (Z.of_nat i) (Some cfg)) (fun _ s' => g_threads s' !! Z.of_nat i = None) s.
Proof.
  intros Hok Ht. destruct (thread_pin _ _ _ Hok Ht) as (j & p & Ej & Hini & Hp & _ & Hst). assert (j = i) as -> by lia. pose proof Hok as [_ Hcase]. rewrite Hini in Hcase.
  assert (i < GPIO_PINS)%nat as Hi by (rewrite <-(po_len _ _ _ Hcase); by eapply lookup_lt_Some).
  apply wp_bind. unfold tkl_gpio_deinit. assert (bad_pin (Z.of_nat i) = false) as -> by (unfold bad_pin; apply Z.leb_gt; lia).
  apply start_spec; [done|done|by intros q|]. intros s1 q Hin1 Hp1 _ Ht1 _ Hq. specialize (Hq Hini). assert (q = p) as -> by congruence.
  apply wp_bind. eapply close_event_spec; [done|done|]. intros s2 Hin2 Ep2 Ht2 _.
  assert (g_gpio_pins s2 !! i = Some (with_event (Z.min (p_event_fd p) (-1)) zero_ereq (with_enabled false p))) as Hp2 by (rewrite Ep2; by eapply upd_lookup).
  apply wp_bind. eapply close_line_spec; [done|done|]. intros s3 Hin3 Ep3 Ht3 _.
  set (p3 := with_handle (Z.min (p_handle_fd p) (-1)) zero_hreq false (with_event (Z.min (p_event_fd p) (-1)) zero_ereq (with_enabled false p))).
  assert (g_gpio_pins s3 !! i = Some p3) as Hp3 by (rewrite Ep3; by eapply upd_lookup).
  apply wp_bind, leave_spec; [done|]. intros s4 Hok4 _ Ht4 _ Hini4 Ep4. apply wp_ret. rewrite <-Ep4 in Hp3.
  assert (g_threads s4 !! Z.of_nat i = Some IrqTop) as Ht' by congruence. apply wp_bind. unfold gpio_irq_thread. apply wp_bind, wp_gets. rewrite Ht'.
  unfold irq_to_poll. apply wp_bind. unfold lock, wp at 1. rewrite (proj1 Hok4).
  apply wp_bind. eapply wp_get_pin; [done|]. apply wp_bind, wp_modify. cbn [g_gpio_pins g_gpio_inited g_kernel g_threads g_calls].
  rewrite (proj2 (Z.ltb_lt (p_event_fd p3) 0)) by (cbn; lia). apply thread_at_ok; [by destruct Hok4|by eexists|]. intros s5 Hok5 Et5 _ [= Ei5 Ep5].
  eapply wp_mono; [apply gpio_irq_init_ok; [lia|done]|]. cbn beta. intros r s' (_ & _ & _ & Hsame). rewrite (Hsame i p3 eq_refl), Et5; [by rewrite lookup_partial_alter_eq|by rewrite Ei5|by rewrite Ep5|exact Hst].
Qed.
End Pins.

(** ** A simulated device *)

(** Its state is the table of descriptors.  Only the first chip opens, a line in
    use is refused, and every line reads high. *)
Definition sim := gmap Z gfd.
Definition line_busyb (m : sim) (line : Z) : bool := existsb (fun q => bool_decide (line_of (snd q) = Some line)) (map_to_list m).

Lemma line_busyb_spec m line : line_busyb m line = true <-> line_busy m line.
Proof.
  unfold line_busyb, line_busy. rewrite existsb_exists. split.
  - intros ([fd f] & Hin & E%bool_decide_eq_true). exists fd, f. apply list_elem_of_In, elem_of_map_to_list in Hin. done.
  - intros (fd & f & Hf & E). exists (fd, f). split; [by apply list_elem_of_In, elem_of_map_to_list|]. by apply bool_decide_eq_true.
Qed.

Definition fresh_fd (m : sim) : Z := foldr (fun q a => Z.max a (fst q + 1)) 0 (map_to_list m).

Lemma fresh_fd_spec m : 0 <= fresh_fd m /\ m !! fresh_fd m = None.
Proof.
  unfold fresh_fd. assert (forall l : list (Z * gfd), 0 <= foldr (fun q a => Z.max a (fst q + 1)) 0 l /\ forall q, q ∈ l -> fst q < foldr (fun q a => Z.max a (fst q + 1)) 0 l) as Hl.
  { induction l as [|q l [IH1 IH2]]; cbn [foldr]; [split; [lia|]; intros q Hq; by apply not_elem_of_nil in Hq|].
    split; [lia|]. intros q' [->|Hq]%elem_of_cons; [lia|]. specialize (IH2 _ Hq). lia. }
  destruct (Hl (map_to_list m)) as [H0 Hlt]. split; [done|]. destruct (m !! _) as [f|] eqn:E; [|done].
  apply elem_of_map_to_list in E. specialize (Hlt _ E). cbn in Hlt. lia.
Qed.

Definition sim_request (line : Z) (f : gfd) : M sim (Z * Z) := fun m =>
  if line_busyb m line then Ret (-1, 0) m else Ret (0, fresh_fd m) (<[fresh_fd m := f]> m).

Lemma sim_request_ok line f m : wp (sim_request line f) (fun r m' => fd_result m m' (snd r) f (0 <= fst r) /\ (line_busy m line -> fst r < 0)) m.
Proof.
  unfold wp, sim_request. pose proof (line_busyb_spec m line) as H. destruct (line_busyb m line); cbn.
  - split; [left; split; [lia|done]|lia].
  - split; [right; pose proof (fresh_fd_spec m); naive_solver lia|]. intros Hb. exfalso. by apply H in Hb.
Qed.

#[export] Program Instance sim_kernel : GpioKernel sim := {|
  k_open i := fun m => if (i =? 0)%nat then Ret (fresh_fd m) (<[fresh_fd m := FChip]> m) else Ret (-1) m;
  k_close fd := fun m => Ret 0 (delete fd m);
  k_linehandle _ line _ _ := sim_request line (FHandle line);
  k_lineevent _ line _ := sim_request line (FEvent line);
  k_set_value _ _ := fun m => Ret 0 m;
  k_get_value _ := fun m => Ret (0, 1) m;
  k_fds m := m
|}.
Next Obligation.
  intros i m. unfold wp. destruct (i =? 0)%nat; [right|left; split; [lia|done]]. pose proof (fresh_fd_spec m). naive_solver.
Qed.
Next Obligation. done. Qed.
Next Obligation. intros. apply sim_request_ok. Qed.
Next Obligation. intros. apply sim_request_ok. Qed.
Next Obligation. done. Qed.
Next Obligation. done. Qed.

Lemma gpio_descriptors_consistent_witness :
  let os := [GInit 3 (Some (mkCfg TUYA_GPIO_PUSH_PULL TUYA_GPIO_OUTPUT TUYA_GPIO_LEVEL_HIGH)); GIrqInit true 3 (Some (mkIrq TUYA_GPIO_IRQ_RISE 8 9));
             GThread 3 true true; GRead 3 true; GDeinit 3] in
  wp (exec_gops os) (fun _ s' => g_gpio_lock s' = false /\
    (g_gpio_inited s' = true -> forall i p, g_gpio_pins s' !! i = Some p ->
       p_hreq_valid p = (0 <=? p_handle_fd p) /\ (p_handle_fd p < 0 \/ p_event_fd p < 0)) /\
    (forall fd f, k_fds (g_kernel s') !! fd = Some f -> exists i p, g_gpio_pins s' !! i = Some p /\ holds i p fd f)) (gpio_zero (∅ : sim)).
Proof.
  intros os. refine (gpio_descriptors_consistent (∅ : sim) os eq_refl _). unfold os. repeat (apply Forall_cons_2; [cbn; lia || done|]). constructor.
Defined.

(** Pin 3 with its thread in the wait, and calls after that. *)
Definition irq_waits (os : list gop) : gstate sim :=
  match exec_gops ([GIrqInit true 3 (Some (mkIrq TUYA_GPIO_IRQ_LOW 8 9)); GThread 3 true true] ++ os) (gpio_zero (∅ : sim)) with Ret _ s => s | _ => gpio_zero (∅ : sim) end.
Lemma irq_waits_ok os : Forall gop_ok os -> gpio_ok (irq_waits os).
Proof.
  intros Hos. unfold irq_waits. set (l := _ ++ os). assert (Forall gop_ok l) as Hl by (repeat (apply Forall_cons_2; [cbn; lia || done|]); exact Hos).
  pose proof (exec_gops_ok l (gpio_zero (∅ : sim)) Hl ltac:(by split)) as Hw. destruct (proj1 (wp_run _ _ _) Hw) as (r & s' & E & Hok & _). by rewrite E.
Qed.

(** The thread waits with the interrupt disabled, and it is enabled, disabled, given back and
    set up again before the event. *)
Definition irq_calls : list gop := [GIrqSwitch 3 true; GDeinit 3; GIrqInit true 3 (Some (mkIrq TUYA_GPIO_IRQ_LOW 18 19)); GIrqSwitch 3 true].
Lemma gpio_irq_settings_of_wait_witness :
  wp (exec_gops irq_calls) (fun _ s1 => g_threads s1 !! 3 = Some (IrqPoll 1 false (mkIrq TUYA_GPIO_IRQ_LOW 8 9)) /\ exists p, g_gpio_pins s1 !! 3%nat = Some p /\
    (0 <= p_event_fd p \/ (TUYA_GPIO_IRQ_LOW <> TUYA_GPIO_IRQ_LOW /\ TUYA_GPIO_IRQ_LOW <> TUYA_GPIO_IRQ_HIGH) ->
      wp (gpio_irq_thread 3 true true) (fun _ s2 => g_calls s2 = [] ++ g_calls s1 /\ g_threads s2 = <[3 := IrqTop]> (g_threads s1)) s1)) (irq_waits []).
Proof.
  refine (gpio_irq_settings_of_wait (irq_waits []) irq_calls 3 1 false (mkIrq TUYA_GPIO_IRQ_LOW 8 9) (irq_waits_ok [] ltac:(constructor)) _ _ _).
  - repeat (apply Forall_cons_2; [cbn; lia|]). constructor.
  - repeat (apply Forall_cons_2; [done|]). constructor.
  - vm_compute. reflexivity.
Defined.

(** Enabled while the thread waits, the first event calls no handler; disabled while it waits
    again, the next one does. *)
Example irq_one_event_late : g_calls (irq_waits [GIrqSwitch 3 true; GThread 3 true true]) = [] /\
  g_calls (irq_waits [GIrqSwitch 3 true; GThread 3 true true; GThread 3 true true; GIrqSwitch 3 false; GThread 3 true true]) = [(8, 9)].
Proof. by vm_compute. Qed.
