(* ===== verification/TklFs.v ===== *)
(** * Files: [src/tkl_fs.c]

    The wrappers of the adapter around the C streams, and the streams themselves as
    far as the sources use them: a file system maps paths to contents, a stream is
    a position in a file.  Opening for update needs the file to exist, opening for
    writing empties it; a write past the end fills the gap with zeros, and a full
    disk makes writes short.  Directories are in [TklDir]. *)

From stdpp Require Import strings.
From S2P Require Import Prelude.

(** ** Streams of the C library *)

Inductive fmode := RbPlus (** ["rb+"] *) | WbPlus (** ["wb+"], ["w+b"] *).

Record stream := mkStream { f_path : string; f_pos : Z; f_eof : bool }.

Record fsys := FSys {
  fs_files : gmap string (list Z);
  fs_streams : gmap Z stream;
  fs_writable : bool;                (** the directory accepts new files *)
  fs_limit : Z                       (** the largest file that fits the disk *)
}.
Local Abbreviation F := (M fsys).

Definition with_files (m : gmap string (list Z)) (s : fsys) : fsys := FSys m (fs_streams s) (fs_writable s) (fs_limit s).
Definition with_streams (m : gmap Z stream) (s : fsys) : fsys := FSys (fs_files s) m (fs_writable s) (fs_limit s).

(** [d] written at [pos] of [c]; a gap reads as zeros. *)
Definition overlay (c : list Z) (pos : nat) (d : list Z) : list Z :=
  take pos (c ++ replicate (pos - length c) 0) ++ d ++ drop (pos + length d) c.

(** A stream pointer not in use. *)
Definition new_stream (m : gmap Z stream) : Z := foldr (fun q a => Z.max a (fst q + 1)) 1 (map_to_list m).

Definition fopen (path : string) (mode : fmode) : F Z := fun s =>
  let fp := new_stream (fs_streams s) in
  let opened := <[fp := mkStream path 0 false]> (fs_streams s) in
  match mode with
  | RbPlus => match fs_files s !! path with Some _ => Ret fp (with_streams opened s) | None => Ret 0 s end
  | WbPlus => if fs_writable s then Ret fp (with_files (<[path := []]> (fs_files s)) (with_streams opened s)) else Ret 0 s
  end.

(** The stream and the content of its file. *)
Definition stream_of (fp : Z) : F (stream * list Z) := fun s =>
  match fs_streams s !! fp with
  | Some st => match fs_files s !! f_path st with Some c => Ret (st, c) s | None => Fault end
  | None => Fault
  end.
Definition set_stream (fp : Z) (st : stream) : F unit := modify (fun s => with_streams (<[fp := st]> (fs_streams s)) s).

Definition fclose (fp : Z) : F Z :=
  _ <- stream_of fp ;; modify (fun s => with_streams (delete fp (fs_streams s)) s) ;;; ret 0.

(** The bytes read. *)
Definition fread (n fp : Z) : F (list Z) :=
  x <- stream_of fp ;;
  let '(st, c) := x in
  let d := take (Z.to_nat n) (drop (Z.to_nat (f_pos st)) c) in
  set_stream fp (mkStream (f_path st) (f_pos st + Z.of_nat (length d)) (f_eof st || (Z.of_nat (length d) <? n))) ;;;
  ret d.

(** The number of bytes written. *)
Definition fwrite (d : list Z) (fp : Z) : F Z :=
  x <- stream_of fp ;;
  limit <- gets fs_limit ;;
  let '(st, c) := x in
  let d := take (Z.to_nat (limit - f_pos st)) d in
  modify (fun s => with_files (<[f_path st := overlay c (Z.to_nat (f_pos st)) d]> (fs_files s)) s) ;;;
  set_stream fp (mkStream (f_path st) (f_pos st + Z.of_nat (length d)) (f_eof st)) ;;;
  ret (Z.of_nat (length d)).

Definition SEEK_SET : Z := 0.
Definition SEEK_CUR : Z := 1.
Definition SEEK_END : Z := 2.
Definition fseek (fp off whence : Z) : F Z :=
  x <- stream_of fp ;;
  let '(st, c) := x in
  let base := if whence =? SEEK_SET then Some 0 else if whence =? SEEK_CUR then Some (f_pos st) else if whence =? SEEK_END then Some (Z.of_nat (length c)) else None in
  match base with
  | None => ret (-1)
  | Some b => if b + off <? 0 then ret (-1) else set_stream fp (mkStream (f_path st) (b + off) false) ;;; ret 0
  end.

(** ** The wrappers *)

Definition tkl_fopen (path : string) (mode : fmode) : F Z := fopen path mode.
Definition tkl_fclose (file : Z) : F Z := fclose file.
(** The result, an [int], and the bytes. *)
Definition tkl_fread (bytes file : Z) : F (Z * list Z) :=
  d <- fread (u64 bytes) file ;; ret (s32 (Z.of_nat (length d)), d).
(** [buf] is read over [bytes] bytes. *)
Definition tkl_fwrite (buf : list Z) (bytes file : Z) : F Z :=
  if Z.of_nat (length buf) <? u64 bytes then fault
  else n <- fwrite (take (Z.to_nat (u64 bytes)) buf) file ;; ret (s32 n).
Definition tkl_fseek (file offs whence : Z) : F Z := fseek file offs whence.
Definition tkl_ftell (file : Z) : F Z := x <- stream_of file ;; ret (f_pos (fst x)).
Definition tkl_feof (file : Z) : F bool := x <- stream_of file ;; ret (f_eof (fst x)).
(** The character, or [EOF]. *)
Definition tkl_fgetc (file : Z) : F Z := d <- fread 1 file ;; ret (match d with c :: _ => c | [] => -1 end).
(** Writes go straight to the file: there is nothing to flush. *)
Definition tkl_fflush (file : Z) : F Z := _ <- stream_of file ;; ret 0.
(** The descriptor of a stream is the stream. *)
Definition tkl_fileno (file : Z) : F Z := _ <- stream_of file ;; ret file.
Definition tkl_fsync (fd : Z) : F Z := s <- gets fs_streams ;; ret (match s !! fd with Some _ => 0 | None => -1 end).
(** The result, and the answer stored through [is_exist]. *)
Definition tkl_fs_is_exist (path : string) (is_exist : bool) : F (Z * option bool) :=
  if negb is_exist then ret (-1, None)
  else m <- gets fs_files ;; ret (0, Some (bool_decide (is_Some (m !! path)))).
Definition tkl_fs_remove (path : string) : F Z := fun s =>
  match fs_files s !! path with Some _ => Ret 0 (with_files (delete path (fs_files s)) s) | None => Ret (-1) s end.
Definition tkl_fs_rename (path_old path_new : string) : F Z := fun s =>
  match fs_files s !! path_old with
  | Some c => Ret 0 (with_files (<[path_new := c]> (delete path_old (fs_files s))) s)
  | None => Ret (-1) s
  end.

(** The bytes of a line: up to [n] bytes, to the first newline. *)
Fixpoint line (n : nat) (c : list Z) : list Z :=
  match n, c with S n, x :: c => x :: (if x =? 10 then [] else line n c) | _, _ => [] end.
(** The bytes stored in the buffer, without the zero after them; [None] for a null pointer. *)
Definition tkl_fgets (len file : Z) : F (option (list Z)) :=
  x <- stream_of file ;;
  let '(st, c) := x in
  if len <=? 0 then ret None
  else if len =? 1 then ret (Some [])
  else
    let d := line (Z.to_nat (len - 1)) (drop (Z.to_nat (f_pos st)) c) in
    let short := (Z.of_nat (length d) <? len - 1) && negb (bool_decide (last d = Some 10)) in
    set_stream file (mkStream (f_path st) (f_pos st + Z.of_nat (length d)) (f_eof st || short)) ;;;
    ret (match d with [] => None | _ => Some d end).
(** [junk]: what the structure on the stack holds, which [stat] does not fill in when it
    fails; the size is an [int]. *)
Definition tkl_fgetsize (junk : Z) (filepath : string) : F Z :=
  m <- gets fs_files ;; ret (s32 (match m !! filepath with Some c => Z.of_nat (length c) | None => junk end)).
(** [allowed]: what the permissions of the files let the process do. *)
Definition tkl_faccess (allowed : string -> Z -> bool) (filepath : string) (mode : Z) : F Z :=
  m <- gets fs_files ;; ret (if bool_decide (is_Some (m !! filepath)) && allowed filepath mode then 0 else -1).
(** The length, without a sign, is taken as an [off_t]. *)
Definition tkl_ftruncate (fd length : Z) : F Z :=
  s <- gets fs_streams ;;
  match s !! fd with
  | None => ret (-1)
  | Some _ =>
    x <- stream_of fd ;;
    limit <- gets fs_limit ;;
    let '(st, c) := x in
    if (swrap 64 length <? 0) || (limit <? length) then ret (-1)
    else modify (fun s => with_files (<[f_path st := take (Z.to_nat length) c ++ replicate (Z.to_nat length - List.length c) 0]> (fs_files s)) s) ;;; ret 0
  end.

(** ** Specifications *)

(** The stream [fp] is open on a file of content [c]. *)
Definition open_on (s : fsys) (fp : Z) (path : string) (c : list Z) : Prop :=
  (exists pos eof, fs_streams s !! fp = Some (mkStream path pos eof)) /\ fs_files s !! path = Some c.

Lemma overlay_length c pos d : length (overlay c pos d) = Nat.max (length c) (pos + length d).
Proof. unfold overlay. rewrite !length_app, length_take, length_app, length_replicate, length_drop. lia. Qed.

Lemma overlay_lookup c pos d i : (i < length c \/ pos <= i < pos + length d)%nat -> overlay c pos d !!! i =
  if decide (pos <= i < pos + length d)%nat then d !!! (i - pos)%nat else c !!! i.
Proof.
  intros Hi.
  unfold overlay. destruct (decide (i < pos)%nat) as [Hlt|Hge].
  - rewrite lookup_total_app_l by (rewrite length_take, length_app, length_replicate; lia). rewrite lookup_total_take_lt, lookup_total_app_l by lia. rewrite decide_False by lia. done.
  - rewrite lookup_total_app_r by (rewrite length_take, length_app, length_replicate; lia). rewrite length_take, length_app, length_replicate.
    replace (pos `min` (length c + (pos - length c)))%nat with pos by lia. destruct (decide (i < pos + length d)%nat).
    + rewrite lookup_total_app_l by lia. rewrite decide_True by lia. done.
    + rewrite lookup_total_app_r by lia. rewrite lookup_total_drop, decide_False by lia. f_equal. lia.
Qed.

Lemma wp_stream_of fp path c Q s : open_on s fp path c ->
  (forall st, f_path st = path -> fs_streams s !! fp = Some st -> Q (st, c) s) -> wp (stream_of fp) Q s.
Proof. intros [(pos & eof & E) Ec] HQ. unfold wp, stream_of. rewrite E. cbn. rewrite Ec. by apply HQ. Qed.

Lemma seek_spec fp path c off Q s : open_on s fp path c -> 0 <= off ->
  (forall s', open_on s' fp path c -> fs_streams s' !! fp = Some (mkStream path off false) -> fs_limit s' = fs_limit s -> Q 0 s') ->
  wp (tkl_fseek fp off SEEK_SET) Q s.
Proof.
  intros Ho Hoff HQ. unfold tkl_fseek, fseek. apply wp_bind. eapply wp_stream_of; [done|]. intros st Ep Est. change (SEEK_SET =? SEEK_SET) with true. cbv iota zeta. rewrite Z.add_0_l.
  rewrite (proj2 (Z.ltb_ge off 0)) by done. apply wp_bind, wp_modify, wp_ret. rewrite Ep. destruct Ho as [_ Hc].
  apply HQ; [split; [exists off, false|done]| |done]; cbn; apply lookup_insert_eq.
Qed.

(** ** Reading lines *)

Lemma line_spec n c : exists r, c = line n c ++ r /\ (length (line n c) <= n)%nat /\ (last (line n c) = Some 10 \/ length (line n c) = n \/ r = []).
Proof.
  revert c. induction n as [|n IH]; intros [|x c]; cbn [line]; try (eexists; cbn; split; [done|]; split; [lia|]; by auto). destruct (Z.eqb_spec x 10) as [->|Hx]; [exists c; cbn; split; [done|]; split; [lia|by left]|].
  destruct (IH c) as (r & E & Hl & Hd). exists r. cbn. split; [by rewrite <-E|]. split; [lia|]. destruct Hd as [Hd|[Hd|Hd]]; [left; destruct (line n c); [done|exact Hd]|right; left; lia|by right; right].
Qed.

(** Lines until there is none. *)
Fixpoint fgets_all (fuel : nat) (len file : Z) : F (list (list Z)) :=
  match fuel with
  | O => out_of_fuel
  | S fuel => o <- tkl_fgets len file ;; match o with Some d => r <- fgets_all fuel len file ;; ret (d :: r) | None => ret [] end
  end.

(** Reading a file with [tkl_fgets] until it gives a null pointer ends, whatever the size of
    the buffer (two bytes or more), and the pieces put together are the rest of the file. *)
Theorem fgets_reads_all len file path c : 2 <= len -> forall fuel pos eof s, fs_streams s !! file = Some (mkStream path pos eof) -> fs_files s !! path = Some c -> 0 <= pos -> (length (drop (Z.to_nat pos) c) < fuel)%nat ->
  wp (fgets_all fuel len file) (fun ds s' => concat ds = drop (Z.to_nat pos) c /\ Forall (fun d => Z.of_nat (length d) < len) ds /\ fs_files s' = fs_files s) s.
Proof.
  intros Hlen. induction fuel as [|fuel IH]; intros pos eof s Es Ec Hpos Hf; [lia|]. cbn [fgets_all]. apply wp_bind. unfold tkl_fgets. apply wp_bind. eapply wp_stream_of; [split; [by exists pos, eof|exact Ec]|]. intros st _ Est. rewrite Es in Est. injection Est as <-. cbn [f_path f_pos f_eof].
  rewrite (proj2 (Z.leb_gt _ _)), (proj2 (Z.eqb_neq _ _)) by lia. cbv zeta. destruct (line_spec (Z.to_nat (len - 1)) (drop (Z.to_nat pos) c)) as (r & E & Hl & Hd). apply wp_bind, wp_modify, wp_ret. destruct (line (Z.to_nat (len - 1)) (drop (Z.to_nat pos) c)) as [|x d].
  - apply wp_ret. cbn in E, Hd |- *. split; [|done]. destruct Hd as [Hd|[Hd|Hd]]; [done|lia|]. by rewrite E, Hd.
  - assert (drop (Z.to_nat (pos + Z.of_nat (length (x :: d)))) c = r) as Er. { rewrite Z2Nat.inj_add, Nat2Z.id by lia. rewrite <-drop_drop, E. apply drop_app_length. }
    rewrite E, length_app in Hf. cbn [length] in Hf, Hl, Er |- *. apply wp_bind. eapply wp_mono.
    + eapply IH; [cbn; apply lookup_insert_eq|exact Ec|lia|]. rewrite Er. lia.
    + cbv beta. rewrite Er. intros ds s' (E1 & E2 & E3). apply wp_ret. split; [cbn [concat]; by rewrite E1, E|]. split; [|done]. constructor; [cbn [length]; lia|done].
Qed.
