(* ===== verification/TklDir.v ===== *)
(** * Directories: the path and directory functions of [src/tkl_fs.c]

    They are calls of the C library with checks of their pointers.  The library is a parameter,
    the class [Dirs]: directory streams that hold the entries still to be read, and pointers to
    an entry, which are good until the next call on the stream. *)

From stdpp Require Import strings.
From S2P Require Import Prelude.

Inductive d_kind := DT_DIR | DT_REG | DT_OTHER.
#[export] Instance d_kind_eq : EqDecision d_kind.
Proof. solve_decision. Defined.
Record dirent := mkDirent { d_name : string; d_type : d_kind }.

Class Dirs (K : Type) := {
  (** The result is zero or an error. *)
  p_mkdir : string -> Z -> M K Z;
  (** The result, and the mode of the file. *)
  p_lstat : string -> M K (Z * Z);
  p_opendir : string -> M K Z;
  p_readdir : Z -> M K Z;
  p_closedir : Z -> M K Z;
  (** What a directory holds, the streams, and what a pointer points to. *)
  p_content : K -> string -> option (list dirent);
  p_streams : K -> gmap Z (list dirent);
  p_entry : K -> Z -> option dirent;
  opendir_ok path k : wp (p_opendir path) (fun d k' => (d = 0 /\ p_streams k' = p_streams k) \/
    (d <> 0 /\ p_streams k !! d = None /\ exists l, p_content k path = Some l /\ p_streams k' = <[d := l]> (p_streams k))) k;
  readdir_ok d l k : p_streams k !! d = Some l -> wp (p_readdir d) (fun p k' => match l with
    | [] => p = 0 /\ p_streams k' = p_streams k
    | e :: l => p <> 0 /\ p_entry k' p = Some e /\ p_streams k' = <[d := l]> (p_streams k) end) k;
  closedir_ok d l k : p_streams k !! d = Some l -> wp (p_closedir d) (fun r k' => r = 0 /\ p_streams k' = delete d (p_streams k)) k
}.

Section Dir.
Context {K : Type} {D : Dirs K}.

Definition tkl_fs_mkdir (path : string) : M K Z := p_mkdir path 493.

(** A null pointer for the result is [false]; what is stored through it is the second part of
    the result, here and below. *)
Definition tkl_fs_mode (path : string) (mode : bool) : M K (Z * option Z) :=
  if negb mode then ret (-1, None)
  else
    x <- p_lstat path ;;
    if negb (fst x =? 0) then ret (fst x, None) else ret (0, Some (u32 (snd x))).

Definition tkl_dir_open (path : string) (dir : bool) : M K (Z * option Z) :=
  if negb dir then ret (-1, None)
  else
    d <- p_opendir path ;;
    if d =? 0 then ret (-1, None) else ret (0, Some d).

Definition tkl_dir_close (dir : Z) : M K Z := p_closedir dir.

Definition tkl_dir_read (dir : Z) (info : bool) : M K (Z * option Z) :=
  if negb info then ret (-1, None)
  else
    dp <- p_readdir dir ;;
    if dp =? 0 then ret (-1, None) else ret (0, Some dp).

(** The entry at a pointer; nothing may be read at a null pointer. *)
Definition entry_at (dp : Z) : M K dirent := fun k => if dp =? 0 then Fault else match p_entry k dp with Some e => Ret e k | None => Fault end.

Definition tkl_dir_name (info : Z) (name : bool) : M K (Z * option string) :=
  if negb name then ret (-1, None)
  else if info =? 0 then ret (-1, None)
  else e <- entry_at info ;; ret (0, Some (d_name e)).

Definition tkl_dir_is_directory (info : Z) (is_dir : bool) : M K (Z * option bool) :=
  if negb is_dir then ret (-1, None) else e <- entry_at info ;; ret (0, Some (bool_decide (d_type e = DT_DIR))).

Definition tkl_dir_is_regular (info : Z) (is_regular : bool) : M K (Z * option bool) :=
  if negb is_regular then ret (-1, None) else e <- entry_at info ;; ret (0, Some (bool_decide (d_type e = DT_REG))).

(** ** Listing a directory *)

(** What the functions say of an entry *)
Definition describe (info : Z) : M K (option string * option bool * option bool) :=
  n <- tkl_dir_name info true ;; d <- tkl_dir_is_directory info true ;; r <- tkl_dir_is_regular info true ;; ret (snd n, snd d, snd r).
Definition described (e : dirent) : option string * option bool * option bool := (Some (d_name e), Some (bool_decide (d_type e = DT_DIR)), Some (bool_decide (d_type e = DT_REG))).

Lemma describe_spec info e (k : K) : info <> 0 -> p_entry k info = Some e -> wp (describe info) (fun r k' => r = described e /\ k' = k) k.
Proof.
  intros Hi E. unfold wp, describe, tkl_dir_name, tkl_dir_is_directory, tkl_dir_is_regular, bind, entry_at. cbn [negb]. apply Z.eqb_neq in Hi. by do 3 (rewrite ?Hi, ?E; cbn).
Qed.

Fixpoint read_all (fuel : nat) (dir : Z) : M K (list (option string * option bool * option bool)) :=
  match fuel with
  | O => out_of_fuel
  | S fuel =>
    x <- tkl_dir_read dir true ;;
    match snd x with
    | None => ret []
    | Some info => e <- describe info ;; r <- read_all fuel dir ;; ret (e :: r)
    end
  end.

Lemma read_all_spec dir l : forall fuel (k : K), p_streams k !! dir = Some l -> (length l < fuel)%nat -> wp (read_all fuel dir) (fun r k' => r = described <$> l /\ p_streams k' = <[dir := []]> (p_streams k)) k.
Proof.
  induction l as [|e l IH]; intros [|fuel] k E Hf; cbn [length] in Hf; try lia; cbn [read_all]; apply wp_bind; unfold tkl_dir_read; cbn [negb]; apply wp_bind; (eapply wp_mono; [apply (readdir_ok dir _ k E)|]); cbn beta iota.
  - intros p k1 [-> E1]. apply wp_ret. cbn. apply wp_ret. split; [done|]. rewrite E1. symmetry. by apply insert_id.
  - intros p k1 (Hp & E1 & E2). rewrite (proj2 (Z.eqb_neq _ _)) by done. apply wp_ret. cbn [snd]. apply wp_bind. eapply wp_mono; [by apply describe_spec|]. intros r k2 [-> ->]. apply wp_bind.
    eapply wp_mono; [apply IH; [rewrite E2; apply lookup_insert_eq|lia]|]. intros r k3 [-> E3]. apply wp_ret. split; [done|]. by rewrite E3, E2, insert_insert_eq.
Qed.

(** A directory that is opened, read until there is no entry and closed gives every entry
    once, in order, with its name and kind, and leaves no stream open. *)
Theorem directory_listed path fuel (k : K) l : p_content k path = Some l -> (length l < fuel)%nat ->
  wp (o <- tkl_dir_open path true ;; match snd o with
      | None => ret None
      | Some dir => r <- read_all fuel dir ;; x <- tkl_dir_close dir ;; ret (Some (r, x)) end)
     (fun o k' => (o = None \/ o = Some (described <$> l, 0)) /\ p_streams k' = p_streams k) k.
Proof.
  intros Hl Hf. apply wp_bind. unfold tkl_dir_open. cbn [negb]. apply wp_bind. eapply wp_mono; [apply opendir_ok|]. cbv beta. intros d k1 [[-> E1]|(Hd & E1 & l' & El & E2)].
  - apply wp_ret. cbn. apply wp_ret. split; [by left|done].
  - rewrite Hl in El. injection El as <-. rewrite (proj2 (Z.eqb_neq _ _)) by done. apply wp_ret. cbn [snd]. apply wp_bind. eapply wp_mono; [apply (read_all_spec d l); [rewrite E2; apply lookup_insert_eq|done]|]. cbv beta. intros r k2 [-> E3]. apply wp_bind. unfold tkl_dir_close.
    eapply wp_mono; [apply (closedir_ok d []); rewrite E3; apply lookup_insert_eq|]. cbv beta. intros x k3 [-> E4]. apply wp_ret. split; [by right|]. rewrite E4, E3, E2, !delete_insert_eq. by apply delete_id.
Qed.
End Dir.

(** A C library with one directory, for evaluation: the streams, and the entry read last. *)
Definition demo_entries : list dirent := [mkDirent "config" DT_DIR; mkDirent "flash.bin" DT_REG].
#[export] Instance demo_dirs : Dirs (gmap Z (list dirent) * option dirent).
Proof.
  refine {|
    p_mkdir _ _ := ret (-1);
    p_lstat _ := ret (-1, 0);
    p_opendir path k := if bool_decide (path = "data"%string) && bool_decide (k.1 !! 1 = None) then Ret 1 (<[1 := demo_entries]> k.1, k.2) else Ret 0 k;
    p_readdir d k := match k.1 !! d with Some (e :: l) => Ret 1 (<[d := l]> k.1, Some e) | Some [] => Ret 0 k | None => Fault end;
    p_closedir d k := Ret 0 (delete d k.1, k.2);
    p_content k path := if bool_decide (path = "data"%string) then Some demo_entries else None;
    p_streams k := k.1;
    p_entry k p := k.2 |}.
  - intros path k. unfold wp. destruct (bool_decide_reflect (path = "data"%string)), (bool_decide_reflect (k.1 !! 1 = None)); cbn [andb]; try (left; done). right. split; [done|]. split; [done|]. by exists demo_entries.
  - intros d l k E. unfold wp. rewrite E. by destruct l.
  - intros d l k E. done.
Defined.

Example demo_listing : wp (o <- tkl_dir_open "data" true ;; match snd o with None => ret [] | Some d => read_all 3 d end)
  (fun r _ => r = [(Some "config"%string, Some true, Some false); (Some "flash.bin"%string, Some false, Some true)]) (∅, None).
Proof. reflexivity. Qed.
