(* ===== verification/TklFlash.v ===== *)
(** * The simulated flash: [src/tkl_flash.c]

    The flash of the adapter is one file, opened on the first query of the
    partition table and filled with [0xff] when it is new; reads and writes seek
    and transfer.  [KV_PROTECTED_ENABLE] is off, as by default. *)

From stdpp Require Import strings.
From S2P Require Import Prelude TklFs.

Definition FLASH_FILE_NAME : string := "./tuyadb/tuyadb".
Definition FLASH_FILE_SIZE : Z := 256 * 1024 * 1024.
Definition FLASH_BASE_ADDR : Z := 0.
Definition PARTITION_SIZE : Z := Z.shiftl 1 12.
Definition SIMPLE_FLASH_KEY_ADDR : Z := FLASH_BASE_ADDR.
Definition SIMPLE_FLASH_START : Z := SIMPLE_FLASH_KEY_ADDR + PARTITION_SIZE.
Definition SIMPLE_FLASH_SIZE : Z := 0x8000.
Definition UF_PARTITION_START : Z := SIMPLE_FLASH_START + SIMPLE_FLASH_SIZE.
Definition UF_PARTITION_SIZE : Z := 0x18000.
Definition RCD_FILE_START : Z := UF_PARTITION_START + UF_PARTITION_SIZE.
Definition RCD_FILE_SIZE : Z := 0x19000.

(** [TUYA_FLASH_TYPE_E]: the values the code names. *)
Definition TUYA_FLASH_TYPE_KV_DATA : Z := 8.
Definition TUYA_FLASH_TYPE_KV_KEY : Z := 10.
Definition TUYA_FLASH_TYPE_UF : Z := 11.
Definition TUYA_FLASH_TYPE_RCD : Z := 15.
Definition TUYA_FLASH_TYPE_MAX : Z := 25.

Record TUYA_FLASH_PARTITION_T := mkPartition { pt_block_size : Z; pt_start_addr : Z; pt_size : Z }.

Record flash := Flash { fl_fs : fsys; s_flash_file : Z }.
Local Abbreviation W := (M flash).

Definition on_fs {R} (c : M fsys R) : W R := fun s =>
  match c (fl_fs s) with Ret r f => Ret r (Flash f (s_flash_file s)) | Fault => Fault | Diverge => Diverge end.
Definition set_flash_file (fp : Z) : W unit := modify (fun s => Flash (fl_fs s) fp).

(** ** Operations *)

(** The result, and the bytes stored through [dst], which has room for [size]. *)
Definition tkl_flash_read (addr size : Z) : W (OPERATE_RET * list Z) :=
  fp <- gets s_flash_file ;;
  if fp =? 0 then ret (OPRT_RESOURCE_NOT_READY, [])
  else
    rc <- on_fs (tkl_fseek fp addr SEEK_SET) ;;
    if negb (rc =? 0) then ret (OPRT_FILE_OPEN_FAILED, [])
    else
      r <- on_fs (tkl_fread (s32 size) fp) ;;
      if negb (size =? u32 (fst r)) then ret (OPRT_FILE_READ_FAILED, snd r) else ret (OPRT_OK, snd r).

Definition tkl_flash_write (addr : Z) (src : list Z) (size : Z) : W OPERATE_RET :=
  fp <- gets s_flash_file ;;
  if fp =? 0 then ret OPRT_RESOURCE_NOT_READY
  else
    rc <- on_fs (tkl_fseek fp addr SEEK_SET) ;;
    if negb (rc =? 0) then ret OPRT_FILE_OPEN_FAILED
    else
      n <- on_fs (tkl_fwrite src (s32 size) fp) ;;
      if negb (size =? u32 n) then ret OPRT_FILE_WRITE_FAILED
      else
        _ <- on_fs (tkl_fflush fp) ;;
        fd <- on_fs (tkl_fileno fp) ;;
        _ <- on_fs (tkl_fsync fd) ;;
        ret OPRT_OK.

Definition tkl_flash_erase (addr size : Z) : W OPERATE_RET := ret OPRT_OK.

Fixpoint fill_loop (n : nat) (data : list Z) (fp : Z) : W unit :=
  match n with
  | O => ret tt
  | S n' => _ <- on_fs (tkl_fwrite data PARTITION_SIZE fp) ;; fill_loop n' data fp
  end.

(** [malloc_ok]: whether the buffer could be allocated. *)
Definition __flash_file_init (malloc_ok : bool) : W OPERATE_RET :=
  if negb malloc_ok then ret OPRT_MALLOC_FAILED
  else
    fp <- gets s_flash_file ;;
    fill_loop (Z.to_nat (FLASH_FILE_SIZE / PARTITION_SIZE)) (replicate (Z.to_nat PARTITION_SIZE) 0xff) fp ;;;
    _ <- on_fs (tkl_fflush fp) ;;
    fd <- on_fs (tkl_fileno fp) ;;
    _ <- on_fs (tkl_fsync fd) ;;
    ret OPRT_OK.

Definition partition_of (type : Z) : option TUYA_FLASH_PARTITION_T :=
  if type =? TUYA_FLASH_TYPE_UF then Some (mkPartition PARTITION_SIZE UF_PARTITION_START UF_PARTITION_SIZE)
  else if type =? TUYA_FLASH_TYPE_KV_DATA then Some (mkPartition PARTITION_SIZE SIMPLE_FLASH_START SIMPLE_FLASH_SIZE)
  else if type =? TUYA_FLASH_TYPE_KV_KEY then Some (mkPartition PARTITION_SIZE SIMPLE_FLASH_KEY_ADDR PARTITION_SIZE)
  else if type =? TUYA_FLASH_TYPE_RCD then Some (mkPartition PARTITION_SIZE RCD_FILE_START RCD_FILE_SIZE)
  else None.

(** The result, and the partition stored through [info]. *)
Definition tkl_flash_get_one_type_info (malloc_ok : bool) (type : Z) (info : bool) : W (OPERATE_RET * option TUYA_FLASH_PARTITION_T) :=
  fp <- gets s_flash_file ;;
  when (fp =? 0)
    (r <- on_fs (tkl_fs_is_exist FLASH_FILE_NAME true) ;;
     (match snd r with
      | Some true => fp <- on_fs (tkl_fopen FLASH_FILE_NAME RbPlus) ;; set_flash_file fp
      | _ =>
        fp <- on_fs (tkl_fopen FLASH_FILE_NAME WbPlus) ;;
        set_flash_file fp ;;;
        _ <- __flash_file_init malloc_ok ;;
        ret tt
      end) ;;;
     fp <- gets s_flash_file ;;
     _ <- on_fs (tkl_fileno fp) ;;
     ret tt) ;;;
  if (TUYA_FLASH_TYPE_MAX <? type) || negb info then ret (OPRT_INVALID_PARM, None)
  else match partition_of type with
       | Some p => ret (OPRT_OK, Some p)
       | None => ret (OPRT_INVALID_PARM, None)
       end.

Definition tkl_flash_lock (addr size : Z) : W OPERATE_RET := ret OPRT_NOT_SUPPORTED.
Definition tkl_flash_unlock (addr size : Z) : W OPERATE_RET := ret OPRT_NOT_SUPPORTED.

(** ** Properties *)

(** The flash is open and holds [c]. *)
Definition flash_holds (s : flash) (c : list Z) : Prop :=
  s_flash_file s <> 0 /\ open_on (fl_fs s) (s_flash_file s) FLASH_FILE_NAME c.

Lemma wp_on_fs {R} (c : M fsys R) Q s : wp c (fun r f => Q r (Flash f (s_flash_file s))) (fl_fs s) -> wp (on_fs c) Q s.
Proof. unfold wp, on_fs. by destruct (c (fl_fs s)). Qed.

Lemma flash_read_spec s c addr size : flash_holds s c -> 0 <= addr -> 0 <= size < 2147483648 -> addr + size <= Z.of_nat (length c) ->
  wp (tkl_flash_read addr size) (fun r s' => r = (OPRT_OK, take (Z.to_nat size) (drop (Z.to_nat addr) c)) /\ flash_holds s' c /\ fs_limit (fl_fs s') = fs_limit (fl_fs s)) s.
Proof.
  intros [Hfp Ho] Ha Hs Hl. unfold tkl_flash_read. apply wp_bind, wp_gets. rewrite (proj2 (Z.eqb_neq _ 0)) by done.
  apply wp_bind, wp_on_fs. eapply seek_spec; [done|done|]. intros f1 Ho1 Est1 El1. cbn [negb Z.eqb].
  apply wp_bind, wp_on_fs. cbn [fl_fs s_flash_file]. unfold tkl_fread, fread. apply wp_bind, wp_bind. eapply wp_stream_of; [done|]. intros st Ep Est.
  rewrite Est1 in Est. injection Est as <-. cbn [f_pos f_path f_eof]. rewrite (swrap_small 32) by lia. rewrite u64_small by lia.
  set (d := take (Z.to_nat size) (drop (Z.to_nat addr) c)). assert (Z.of_nat (length d) = size) as Ed by (unfold d; rewrite length_take, length_drop; lia).
  apply wp_bind, wp_modify, wp_ret, wp_ret. cbn [fst snd]. rewrite Ed, (swrap_small 32), u32_small, Z.eqb_refl by lia. cbn [negb]. apply wp_ret.
  split; [done|]. split; [|done]. split; [done|]. destruct Ho1 as [_ Hc]. split; [|done]. cbn. rewrite lookup_insert_eq. by eexists _, _.
Qed.

Lemma flash_write_spec s c addr src size : flash_holds s c -> 0 <= addr -> 0 <= size < 2147483648 -> size <= Z.of_nat (length src) -> addr + size <= fs_limit (fl_fs s) ->
  wp (tkl_flash_write addr src size) (fun r s' => r = OPRT_OK /\ flash_holds s' (overlay c (Z.to_nat addr) (take (Z.to_nat size) src)) /\ fs_limit (fl_fs s') = fs_limit (fl_fs s)) s.
Proof.
  intros [Hfp Ho] Ha Hs Hsrc Hl. unfold tkl_flash_write. apply wp_bind, wp_gets. rewrite (proj2 (Z.eqb_neq _ 0)) by done.
  apply wp_bind, wp_on_fs. eapply seek_spec; [done|done|]. intros f1 Ho1 Est1 El1. cbn [negb Z.eqb].
  apply wp_bind, wp_on_fs. cbn [fl_fs s_flash_file]. unfold tkl_fwrite. rewrite (swrap_small 32) by lia. rewrite u64_small by lia.
  rewrite (proj2 (Z.ltb_ge _ size)) by lia. apply wp_bind. unfold fwrite. apply wp_bind. eapply wp_stream_of; [done|]. intros st Ep Est.
  rewrite Est1 in Est. injection Est as <-. apply wp_bind, wp_gets. cbn [f_pos f_path f_eof]. rewrite El1, take_take.
  replace (Z.to_nat (fs_limit (fl_fs s) - addr) `min` Z.to_nat size)%nat with (Z.to_nat size) by lia.
  assert (Z.of_nat (length (take (Z.to_nat size) src)) = size) as Ed by (rewrite length_take; lia).
  apply wp_bind, wp_modify, wp_bind, wp_modify, wp_ret, wp_ret. rewrite Ed, (swrap_small 32), u32_small, Z.eqb_refl by lia. cbn [negb].
  set (f2 := with_streams _ _).
  assert (open_on f2 (s_flash_file s) FLASH_FILE_NAME (overlay c (Z.to_nat addr) (take (Z.to_nat size) src))) as Ho2.
  { split; [exists (addr + size), false; cbn; by rewrite lookup_insert_eq|]. cbn. by rewrite lookup_insert_eq. }
  apply wp_bind, wp_on_fs. unfold tkl_fflush. apply wp_bind. eapply wp_stream_of; [done|]. intros st _ _. apply wp_ret.
  apply wp_bind, wp_on_fs. unfold tkl_fileno. apply wp_bind. eapply wp_stream_of; [done|]. intros st' _ _. apply wp_ret.
  apply wp_bind, wp_on_fs. unfold tkl_fsync. apply wp_bind, wp_gets, wp_ret, wp_ret. by split.
Qed.

(** C33: a write to the flash followed by a read of any range gives the written
    bytes where the ranges overlap and the old content elsewhere; both succeed
    whenever the range read lies in the file and the write fits the disk. *)
Theorem flash_write_read s c addr src size addr' size' :
  flash_holds s c -> 0 <= addr -> 0 <= size < 2147483648 -> size <= Z.of_nat (length src) -> addr + size <= fs_limit (fl_fs s) ->
  0 <= addr' -> 0 <= size' < 2147483648 -> addr' + size' <= Z.of_nat (length c) ->
  wp (w <- tkl_flash_write addr src size ;; r <- tkl_flash_read addr' size' ;; ret (w, r)) (fun wr _ =>
    exists d, wr = (OPRT_OK, (OPRT_OK, d)) /\ Z.of_nat (length d) = size' /\
      forall i, addr' <= i < addr' + size' -> d !!! Z.to_nat (i - addr') =
        if decide (addr <= i < addr + size) then src !!! Z.to_nat (i - addr) else c !!! Z.to_nat i) s.
Proof.
  intros Hh Ha Hs Hsrc Hl Ha' Hs' Hl'. apply wp_bind. eapply wp_mono; [by apply (flash_write_spec s c)|]. intros w s1 (-> & Hh1 & _).
  set (c1 := overlay c (Z.to_nat addr) (take (Z.to_nat size) src)) in *.
  assert (length c <= length c1)%nat by (unfold c1; rewrite overlay_length; lia).
  apply wp_bind. eapply wp_mono; [apply (flash_read_spec s1 c1); done || lia|]. intros r s2 (-> & _). apply wp_ret.
  eexists. split; [reflexivity|]. split; [rewrite length_take, length_drop; lia|]. intros i Hi.
  rewrite lookup_total_take_lt, lookup_total_drop by lia. replace (Z.to_nat addr' + Z.to_nat (i - addr'))%nat with (Z.to_nat i) by lia.
  unfold c1. rewrite overlay_lookup by lia. rewrite length_take.
  repeat case_decide; try lia; try done. rewrite lookup_total_take_lt by lia. f_equal. lia.
Qed.

Definition flash_demo : flash := Flash (FSys {[FLASH_FILE_NAME := [1; 2; 3; 4; 5; 6; 7; 8]]} {[5 := mkStream FLASH_FILE_NAME 0 false]} true 100) 5.

Lemma flash_demo_ok : flash_holds flash_demo [1; 2; 3; 4; 5; 6; 7; 8].
Proof. split; [done|]. split; [by exists 0, false|done]. Qed.

Lemma flash_write_read_witness :
  wp (w <- tkl_flash_write 2 [20; 30; 40] 2 ;; r <- tkl_flash_read 1 4 ;; ret (w, r)) (fun wr _ =>
    exists d, wr = (OPRT_OK, (OPRT_OK, d)) /\ Z.of_nat (length d) = 4 /\
      forall i, 1 <= i < 1 + 4 -> d !!! Z.to_nat (i - 1) =
        if decide (2 <= i < 2 + 2) then [20; 30; 40] !!! Z.to_nat (i - 2) else [1; 2; 3; 4; 5; 6; 7; 8] !!! Z.to_nat i) flash_demo.
Proof. refine (flash_write_read flash_demo _ 2 [20; 30; 40] 2 1 4 flash_demo_ok _ _ _ _ _ _ _); cbn; lia. Defined.

(** The partitions handed out for different flash types are whole blocks, lie
    inside the file, and do not overlap; any other type is refused. *)
Theorem flash_partitions_sound type p :
  partition_of type = Some p ->
  pt_block_size p = PARTITION_SIZE /\ pt_start_addr p mod PARTITION_SIZE = 0 /\ pt_size p mod PARTITION_SIZE = 0 /\
  0 <= pt_start_addr p /\ 0 < pt_size p /\ pt_start_addr p + pt_size p <= FLASH_FILE_SIZE /\
  (type = TUYA_FLASH_TYPE_UF \/ type = TUYA_FLASH_TYPE_KV_DATA \/ type = TUYA_FLASH_TYPE_KV_KEY \/ type = TUYA_FLASH_TYPE_RCD) /\
  forall type' p', partition_of type' = Some p' -> type' <> type ->
    pt_start_addr p + pt_size p <= pt_start_addr p' \/ pt_start_addr p' + pt_size p' <= pt_start_addr p.
Proof.
  assert (forall t q, partition_of t = Some q ->
    (t = TUYA_FLASH_TYPE_UF /\ q = mkPartition 4096 0x9000 0x18000) \/ (t = TUYA_FLASH_TYPE_KV_DATA /\ q = mkPartition 4096 0x1000 0x8000) \/
    (t = TUYA_FLASH_TYPE_KV_KEY /\ q = mkPartition 4096 0 4096) \/ (t = TUYA_FLASH_TYPE_RCD /\ q = mkPartition 4096 0x21000 0x19000)) as Hcases.
  { intros t q. unfold partition_of. repeat (case_match; zbool; [subst; intros [= <-]; auto 6|]). done. }
  intros Hp. apply Hcases in Hp as Hc.
  assert (forall t' q', partition_of t' = Some q' -> t' <> type -> pt_start_addr p + pt_size p <= pt_start_addr q' \/ pt_start_addr q' + pt_size q' <= pt_start_addr p) as Hdis.
  { intros t' q' Hq%Hcases Hne. destruct Hc as [[-> ->]|[[-> ->]|[[-> ->]|[-> ->]]]], Hq as [[-> ->]|[[-> ->]|[[-> ->]|[-> ->]]]]; cbn; done || lia. }
  destruct Hc as [[-> ->]|[[-> ->]|[[-> ->]|[-> ->]]]]; (split; [done|]; split; [done|]; split; [done|]; split; [done|]; split; [done|]; split; [done|]; split; [auto|exact Hdis]).
Qed.

Lemma flash_partitions_sound_witness : exists p, partition_of TUYA_FLASH_TYPE_UF = Some p /\
  forall type' p', partition_of type' = Some p' -> type' <> TUYA_FLASH_TYPE_UF ->
    pt_start_addr p + pt_size p <= pt_start_addr p' \/ pt_start_addr p' + pt_size p' <= pt_start_addr p.
Proof.
  eexists. split; [reflexivity|]. destruct (flash_partitions_sound TUYA_FLASH_TYPE_UF _ eq_refl) as (_ & _ & _ & _ & _ & _ & _ & H). exact H.
Defined.

(** ** The first use *)

Lemma overlay_end c d : overlay c (length c) d = c ++ d.
Proof. unfold overlay. rewrite Nat.sub_diag. cbn [replicate]. rewrite app_nil_r, take_ge by lia. rewrite drop_ge by lia. by rewrite app_nil_r. Qed.

(** Filling a new file block by block. *)
Lemma fill_loop_spec data : Z.of_nat (length data) = PARTITION_SIZE -> forall n s c,
  open_on (fl_fs s) (s_flash_file s) FLASH_FILE_NAME c -> fs_streams (fl_fs s) !! s_flash_file s = Some (mkStream FLASH_FILE_NAME (Z.of_nat (length c)) false) ->
  Z.of_nat (length c) + Z.of_nat n * PARTITION_SIZE <= fs_limit (fl_fs s) ->
  wp (fill_loop n data (s_flash_file s)) (fun _ s' => s_flash_file s' = s_flash_file s /\
    open_on (fl_fs s') (s_flash_file s) FLASH_FILE_NAME (c ++ mjoin (replicate n data))) s.
Proof.
  intros Ed. assert (PARTITION_SIZE = 4096) as EP by done. induction n as [|n IH]; intros s c Ho Est Hl; cbn [fill_loop replicate mjoin list_join].
  - apply wp_ret. by rewrite app_nil_r.
  - apply wp_bind, wp_on_fs. unfold tkl_fwrite. rewrite u64_small by lia. rewrite (proj2 (Z.ltb_ge _ PARTITION_SIZE)) by lia.
    rewrite take_ge by lia. apply wp_bind. unfold fwrite. apply wp_bind. eapply wp_stream_of; [done|]. intros st Ep Est'.
    rewrite Est in Est'. injection Est' as <-. apply wp_bind, wp_gets. cbn [f_pos f_path f_eof]. rewrite take_ge by lia. rewrite Nat2Z.id, overlay_end.
    apply wp_bind, wp_modify, wp_bind, wp_modify, wp_ret, wp_ret. set (s1 := Flash _ _).
    change (s_flash_file s) with (s_flash_file s1). rewrite (assoc_L (++)). apply IH; subst s1; cbn.
    + split; [eexists _, _; apply lookup_insert_eq|]. cbn. apply lookup_insert_eq.
    + rewrite lookup_insert_eq, length_app. do 2 f_equal. lia.
    + rewrite length_app. lia.
Qed.

Lemma mjoin_replicate n k (x : Z) : mjoin (replicate n (replicate k x)) = replicate (n * k) x.
Proof. induction n as [|n IH]; [done|]. change (mjoin (replicate (S n) (replicate k x))) with (replicate k x ++ mjoin (replicate n (replicate k x))). rewrite IH. cbn [Nat.mul]. by rewrite replicate_add. Qed.

Lemma new_stream_fresh m : 0 < new_stream m /\ m !! new_stream m = None.
Proof.
  unfold new_stream. assert (forall l : list (Z * stream), 0 < foldr (fun q a => Z.max a (fst q + 1)) 1 l /\ forall q, q ∈ l -> fst q < foldr (fun q a => Z.max a (fst q + 1)) 1 l) as Hl.
  { induction l as [|q l [IH1 IH2]]; cbn [foldr]; [split; [lia|]; intros q Hq; by apply not_elem_of_nil in Hq|].
    split; [lia|]. intros q' [->|Hq]%elem_of_cons; [lia|]. specialize (IH2 _ Hq). lia. }
  destruct (Hl (map_to_list m)) as [H0 Hlt]. split; [done|]. destruct (m !! _) as [f|] eqn:E; [|done].
  apply elem_of_map_to_list in E. specialize (Hlt _ E). cbn in Hlt. lia.
Qed.

Lemma partition_type_max type p : partition_of type = Some p -> (TUYA_FLASH_TYPE_MAX <? type) = false.
Proof.
  unfold partition_of, TUYA_FLASH_TYPE_UF, TUYA_FLASH_TYPE_KV_DATA, TUYA_FLASH_TYPE_KV_KEY, TUYA_FLASH_TYPE_RCD, TUYA_FLASH_TYPE_MAX.
  intros Hp. apply Z.ltb_ge. repeat (case_match; zbool; [lia|]). done.
Qed.

(** The first query of the partition table on a disk without the flash file
    creates it: the flash is then open and every one of its 256 MiB reads [0xff];
    the answer is the partition of the type asked for. *)
Theorem flash_first_use f type p :
  fs_files f !! FLASH_FILE_NAME = None -> fs_writable f = true -> FLASH_FILE_SIZE <= fs_limit f -> partition_of type = Some p ->
  wp (tkl_flash_get_one_type_info true type true) (fun r s' =>
    r = (OPRT_OK, Some p) /\ flash_holds s' (replicate (Z.to_nat FLASH_FILE_SIZE) 0xff)) (Flash f 0).
Proof.
  intros Hno Hw Hl Hp. unfold tkl_flash_get_one_type_info. apply wp_bind, wp_gets. cbn [s_flash_file when Z.eqb].
  apply wp_bind, wp_bind, wp_on_fs. unfold tkl_fs_is_exist. cbn [negb]. apply wp_bind, wp_gets, wp_ret. cbn [snd fl_fs s_flash_file].
  rewrite Hno, bool_decide_eq_false_2 by (intros [? ?]; done).
  apply wp_bind, wp_bind, wp_on_fs. unfold tkl_fopen, fopen, wp at 1. cbn [fl_fs s_flash_file]. rewrite Hw.
  destruct (new_stream_fresh (fs_streams f)) as [Hpos Hfr]. set (fp := new_stream (fs_streams f)) in *. set (f1 := with_files _ _).
  assert (open_on f1 fp FLASH_FILE_NAME []) as Ho1 by (split; [exists 0, false|]; cbn; apply lookup_insert_eq).
  apply wp_bind, wp_modify, wp_bind. unfold __flash_file_init. cbn [negb]. apply wp_bind, wp_gets. cbn [fl_fs s_flash_file].
  set (N := Z.to_nat (FLASH_FILE_SIZE / PARTITION_SIZE)). set (B := Z.to_nat PARTITION_SIZE).
  assert (Z.of_nat N = 65536) as EN by (unfold N; rewrite Z2Nat.id; done). assert (Z.of_nat B = PARTITION_SIZE) as EB by (unfold B; rewrite Z2Nat.id; done).
  apply wp_bind. eapply wp_mono; [apply (fill_loop_spec (replicate B 0xff) ltac:(by rewrite length_replicate) N (Flash f1 fp) [])|].
  - done.
  - cbn. apply lookup_insert_eq.
  - cbn [length fl_fs f1 with_files with_streams fs_limit]. rewrite EN. change (0 + 65536 * PARTITION_SIZE) with FLASH_FILE_SIZE. done.
  - cbn [s_flash_file app]. intros [] s2 [Efp Ho2].
    apply wp_bind, wp_on_fs. unfold tkl_fflush. apply wp_bind. eapply wp_stream_of; [exact Ho2|]. intros st _ _. apply wp_ret.
    apply wp_bind, wp_on_fs. unfold tkl_fileno. apply wp_bind. eapply wp_stream_of; [exact Ho2|]. intros st' _ _. apply wp_ret.
    apply wp_bind, wp_on_fs. unfold tkl_fsync. apply wp_bind, wp_gets, wp_ret, wp_ret, wp_ret.
    apply wp_bind, wp_gets. cbn [s_flash_file fl_fs]. rewrite Efp. apply wp_bind, wp_on_fs. apply wp_bind. eapply wp_stream_of; [exact Ho2|]. intros st2 _ _. apply wp_ret, wp_ret.
    rewrite (partition_type_max _ _ Hp).
    cbn [negb orb]. rewrite Hp. apply wp_ret. split; [done|]. split; [cbn; lia|]. cbn [s_flash_file fl_fs].
    rewrite mjoin_replicate in Ho2. replace (Z.to_nat FLASH_FILE_SIZE) with (N * B)%nat; [exact Ho2|].
    apply Nat2Z.inj. rewrite Nat2Z.inj_mul, EN, EB, Z2Nat.id; [reflexivity|discriminate].
Qed.

Lemma flash_first_use_witness :
  wp (tkl_flash_get_one_type_info true TUYA_FLASH_TYPE_UF true) (fun r s' =>
    r = (OPRT_OK, Some (mkPartition PARTITION_SIZE UF_PARTITION_START UF_PARTITION_SIZE)) /\ flash_holds s' (replicate (Z.to_nat FLASH_FILE_SIZE) 0xff))
    (Flash (FSys ∅ ∅ true FLASH_FILE_SIZE) 0).
Proof. exact (flash_first_use (FSys ∅ ∅ true FLASH_FILE_SIZE) TUYA_FLASH_TYPE_UF _ eq_refl eq_refl (Z.le_refl _) eq_refl). Defined.
