(* ===== verification/TklOta.v ===== *)
(** * Firmware upgrade: [src/tkl_ota.c]

    A download is written to the file [./tuyadb/ota].  Each packet but the last is
    written without its final 100 bytes, which are reported as not consumed: the
    caller presents them again at the start of the next packet. *)

From stdpp Require Import strings.
From S2P Require Import Prelude TklFs.

Definition OTA_PATH : string := "./tuyadb/ota".
Definition TUYA_OTA_FULL : Z := 1.
Definition TUYA_OTA_DIFF : Z := 2.

Record TUYA_OTA_DATA_T := mkPack { pk_total_len : Z; pk_offset : Z; pk_data : list Z; pk_len : Z }.

Record ota := Ota { ota_fs : fsys; s_upgrade_fd : Z }.
Local Abbreviation W := (M ota).

Definition on_fs {R} (c : M fsys R) : W R := fun s =>
  match c (ota_fs s) with Ret r f => Ret r (Ota f (s_upgrade_fd s)) | Fault => Fault | Diverge => Diverge end.

(** ** Operations *)

(** The values stored through [image_size] and [type]. *)
Definition tkl_ota_get_ability : W (OPERATE_RET * (Z * Z)) := ret (OPRT_OK, (u32 (-1), Z.lor TUYA_OTA_FULL TUYA_OTA_DIFF)).

Definition tkl_ota_start_notify : W OPERATE_RET :=
  fd <- gets s_upgrade_fd ;;
  when (negb (fd =? 0)) (_ <- on_fs (fclose fd) ;; ret tt) ;;;
  fd <- on_fs (fopen OTA_PATH WbPlus) ;;
  modify (fun s => Ota (ota_fs s) fd) ;;;
  if fd =? 0 then ret OPRT_COM_ERROR else ret OPRT_OK.

(** [fwrite(data, 1, n, fd)] reads [n] bytes of the packet. *)
Definition write_pack (data : list Z) (n fd : Z) : W unit :=
  if Z.of_nat (length data) <? n then fault
  else _ <- on_fs (fwrite (take (Z.to_nat n) data) fd) ;; ret tt.

(** The result, and the value stored through [remain_len]. *)
Definition tkl_ota_data_process (pack : TUYA_OTA_DATA_T) : W (OPERATE_RET * Z) :=
  fd <- gets s_upgrade_fd ;;
  remain_len <- (if negb (u32 (pk_offset pack + pk_len pack) =? pk_total_len pack) then
                   write_pack (pk_data pack) (u32 (pk_len pack - 100)) fd ;;; ret 100
                 else write_pack (pk_data pack) (pk_len pack) fd ;;; ret 0) ;;
  ret (OPRT_OK, remain_len).

(** [None]: the process exits. *)
Definition tkl_ota_end_notify (reset : bool) : W (option OPERATE_RET) :=
  fd <- gets s_upgrade_fd ;;
  _ <- on_fs (fclose fd) ;;
  ret (if reset then None else Some OPRT_OK).

(** ** Properties *)

(** A download of [img] from offset [off] in packets of the lengths [lens]: the
    caller steps back by what was not consumed. *)
Fixpoint download (img : list Z) (off : Z) (lens : list Z) : W unit :=
  match lens with
  | [] => ret tt
  | len :: lens =>
    r <- tkl_ota_data_process (mkPack (Z.of_nat (length img)) off (take (Z.to_nat len) (drop (Z.to_nat off) img)) len) ;;
    download img (off + len - snd r) lens
  end.

(** The packets reach the end of the image exactly; all but the last have 100
    bytes or more and end before it. *)
Fixpoint covers (total off : Z) (lens : list Z) : Prop :=
  match lens with
  | [] => False
  | [len] => 0 <= len /\ off + len = total
  | len :: lens => 100 <= len /\ off + len < total /\ covers total (off + len - 100) lens
  end.

(** The download file is open at its end, and holds [c]. *)
Definition ota_holds (s : ota) (c : list Z) : Prop :=
  fs_streams (ota_fs s) !! s_upgrade_fd s = Some (mkStream OTA_PATH (Z.of_nat (length c)) false) /\ fs_files (ota_fs s) !! OTA_PATH = Some c.

Lemma wp_ota_fs {R} (c : M fsys R) Q s : wp c (fun r f => Q r (Ota f (s_upgrade_fd s))) (ota_fs s) -> wp (on_fs c) Q s.
Proof. unfold wp, on_fs. by destruct (c (ota_fs s)). Qed.

Lemma write_pack_spec s c data n Q : ota_holds s c -> 0 <= n <= Z.of_nat (length data) -> Z.of_nat (length c) + n <= fs_limit (ota_fs s) ->
  (forall s', ota_holds s' (c ++ take (Z.to_nat n) data) -> fs_limit (ota_fs s') = fs_limit (ota_fs s) -> s_upgrade_fd s' = s_upgrade_fd s -> Q tt s') ->
  wp (write_pack data n (s_upgrade_fd s)) Q s.
Proof.
  intros [Est Hc] Hn Hl HQ. unfold write_pack. rewrite (proj2 (Z.ltb_ge _ n)) by lia. apply wp_bind, wp_ota_fs. unfold fwrite. apply wp_bind.
  eapply (wp_stream_of _ OTA_PATH c); [split; [eauto|done]|]. intros st _ E. rewrite Est in E. injection E as <-. apply wp_bind, wp_gets. cbn [f_pos f_path f_eof].
  rewrite take_take. replace (Z.to_nat (fs_limit (ota_fs s) - Z.of_nat (length c)) `min` Z.to_nat n)%nat with (Z.to_nat n) by lia.
  apply wp_bind, wp_modify, wp_bind, wp_modify, wp_ret, wp_ret. apply HQ; [|done..]. split; cbn; rewrite lookup_insert_eq.
  - do 2 f_equal. rewrite length_app. lia.
  - f_equal. rewrite Nat2Z.id. unfold overlay. rewrite Nat.sub_diag. cbn [replicate]. rewrite app_nil_r, take_ge by lia. rewrite drop_ge by lia. by rewrite app_nil_r.
Qed.

Lemma take_drop_app (l : list Z) i n : take i l ++ take n (drop i l) = take (i + n) l.
Proof. by rewrite take_take_drop. Qed.

Lemma download_spec img lens : Z.of_nat (length img) < 4294967296 -> forall off s,
  0 <= off <= Z.of_nat (length img) -> covers (Z.of_nat (length img)) off lens -> ota_holds s (take (Z.to_nat off) img) ->
  Z.of_nat (length img) <= fs_limit (ota_fs s) -> wp (download img off lens) (fun _ s' => ota_holds s' img /\ s_upgrade_fd s' = s_upgrade_fd s) s.
Proof.
  intros Himg. induction lens as [|len lens IH]; intros off s Hoff Hcov Hh Hl; cbn [covers] in Hcov; [done|].
  cbn [download]. unfold tkl_ota_data_process. cbn [pk_offset pk_len pk_total_len pk_data]. apply wp_bind, wp_bind, wp_gets.
  assert (100 <= len /\ off + len < Z.of_nat (length img) /\ covers (Z.of_nat (length img)) (off + len - 100) lens \/ lens = [] /\ 0 <= len /\ off + len = Z.of_nat (length img)) as Hc
    by (destruct lens; [by right|by left]). clear Hcov.
  apply wp_bind. rewrite u32_small by (destruct Hc as [(? & ? & _)|(_ & ? & ?)]; lia). destruct Hc as [(H100 & Hlt & Hcov)|(-> & H0 & Hend)].
  - rewrite (proj2 (Z.eqb_neq _ _)) by lia. cbn [negb]. rewrite u32_small by lia. apply wp_bind.
    eapply write_pack_spec; [done|rewrite length_take, length_drop; lia|rewrite length_take; lia|].
    intros s1 Hh1 Hl1 Efd. apply wp_ret, wp_ret. cbn [snd]. rewrite <-Efd. apply IH; [lia|done| |lia].
    rewrite take_take, take_drop_app in Hh1. replace (Z.to_nat (off + len - 100)) with (Z.to_nat off + Z.to_nat (len - 100) `min` Z.to_nat len)%nat by lia. done.
  - rewrite Hend, Z.eqb_refl. cbn [negb]. apply wp_bind.
    eapply write_pack_spec; [done|rewrite length_take, length_drop; lia|rewrite length_take; lia|].
    intros s1 Hh1 Hl1 Efd. apply wp_ret, wp_ret. cbn [download snd]. apply wp_ret. split; [|done]. rewrite take_take, take_drop_app in Hh1.
    rewrite take_ge in Hh1 by lia. done.
Qed.

(** C34: a download of an image that starts with [tkl_ota_start_notify] and presents
    the image packet by packet, stepping back by the remaining length reported
    each time, ends with exactly the image in the upgrade file, when every packet
    but the last has at least 100 bytes and the disk has room. *)
Theorem ota_download_correct img lens f :
  Z.of_nat (length img) < 4294967296 -> covers (Z.of_nat (length img)) 0 lens -> fs_writable f = true -> Z.of_nat (length img) <= fs_limit f ->
  wp (r <- tkl_ota_start_notify ;; download img 0 lens ;;; _ <- tkl_ota_end_notify false ;; ret r)
     (fun r s' => r = OPRT_OK /\ fs_files (ota_fs s') !! OTA_PATH = Some img) (Ota f 0).
Proof.
  intros Himg Hcov Hw Hl. apply wp_bind. unfold tkl_ota_start_notify. apply wp_bind, wp_gets. cbn [s_upgrade_fd Z.eqb negb when]. apply wp_bind, wp_ret.
  apply wp_bind, wp_ota_fs. unfold fopen, wp at 1. cbn [ota_fs]. rewrite Hw. set (fp := new_stream (fs_streams f)).
  apply wp_bind, wp_modify. assert (fp <> 0) as Hfp.
  { unfold fp, new_stream. assert (forall l : list (Z * stream), 0 < foldr (fun q a => Z.max a (fst q + 1)) 1 l) as Hpos by (induction l; cbn [foldr]; lia).
    specialize (Hpos (map_to_list (fs_streams f))). lia. }
  rewrite (proj2 (Z.eqb_neq fp 0)) by done. apply wp_ret. apply wp_bind. cbn [ota_fs].
  eapply wp_mono; [apply (download_spec img lens Himg 0); [lia|done| |done]|].
  - split; cbn; apply lookup_insert_eq.
  - intros [] s1 [[Est Hc] Efd]. apply wp_bind. unfold tkl_ota_end_notify. apply wp_bind, wp_gets. apply wp_bind, wp_ota_fs. unfold fclose.
    apply wp_bind. eapply (wp_stream_of _ OTA_PATH img); [split; [eauto|done]|]. intros st _ _. apply wp_bind, wp_modify, wp_ret, wp_ret, wp_ret. done.
Qed.

Lemma ota_download_correct_witness :
  wp (r <- tkl_ota_start_notify ;; download (replicate 250 7) 0 [200; 150] ;;; _ <- tkl_ota_end_notify false ;; ret r)
     (fun r s' => r = OPRT_OK /\ fs_files (ota_fs s') !! OTA_PATH = Some (replicate 250 7)) (Ota (FSys ∅ ∅ true 1000) 0).
Proof. refine (ota_download_correct (replicate 250 7) [200; 150] (FSys ∅ ∅ true 1000) _ _ eq_refl _); cbn; lia. Defined.

(** [tkl_ota_end_notify] closes the file but keeps the pointer: the next
    [tkl_ota_start_notify] closes it a second time, which is undefined. *)
Lemma ota_restart_faults s c : s_upgrade_fd s <> 0 -> ota_holds s c ->
  (_ <- tkl_ota_end_notify false ;; tkl_ota_start_notify) s = Fault.
Proof.
  intros Hfd [Est Hc].
  assert (tkl_ota_end_notify false s = Ret (Some OPRT_OK) (Ota (with_streams (delete (s_upgrade_fd s) (fs_streams (ota_fs s))) (ota_fs s)) (s_upgrade_fd s))) as E.
  { unfold tkl_ota_end_notify, bind, gets, on_fs, fclose, stream_of, bind. rewrite Est. cbn. by rewrite Hc. }
  unfold bind at 1. rewrite E. unfold tkl_ota_start_notify, bind, gets, when. cbn [s_upgrade_fd]. rewrite (proj2 (Z.eqb_neq _ 0)) by done.
  cbn [negb]. unfold on_fs, fclose, stream_of, bind. cbn. by rewrite lookup_delete_eq.
Qed.
