(* ===== verification/TklQueue.v ===== *)
(** * Message queues between threads: [src/tkl_queue.c]

    A bounded ring of message pointers guarded by one mutex, with a condition
    variable for each end.  A thread that has to wait gives the mutex back and is
    suspended: an operation is split there, into the part up to
    [pthread_cond_wait] or [pthread_cond_timedwait] ([Blocked], with the deadline)
    and the part after it, which gets the result of the wait.  Both parts run
    under the mutex, so the interleavings of threads are the sequences of parts. *)

From S2P Require Import Prelude Alloc TklMutex.

(** ** Data *)

Record rpa_queue_t := mkRpa {
  r_data : Z;
  r_nelts : Z;
  r_in : Z;
  r_out : Z;
  r_bounds : Z;
  r_full_waiters : Z;
  r_empty_waiters : Z;
  r_one_big_mutex : Z;
  r_not_empty : Z;
  r_not_full : Z;
  r_terminated : Z
}.

Record TKL_QUEUE_T := mkTkl { tq_queue : Z; tq_msgsize : Z }.

Inductive tobj :=
| OTkl (x : TKL_QUEUE_T)
| ORpa (x : rpa_queue_t)
| OData (a : list Z)
| OMx (x : pthread_mutex_t)
| OCond (ready : bool)
| OMsg (d : list Z).

#[export] Instance tobj_mutex : HasMutex tobj := {|
  inj_mutex := OMx;
  prj_mutex o := match o with OMx x => Some x | _ => None end;
  prj_inj_mutex x := eq_refl
|}.

Definition SIZEOF_RPA_QUEUE_T : Z := 64.
Definition SIZEOF_TKL_QUEUE_T : Z := 16.
Definition SIZEOF_PTHREAD_MUTEX_T : Z := 40.
Definition SIZEOF_PTHREAD_COND_T : Z := 48.

Definition obj_size (o : tobj) : Z :=
  match o with
  | OTkl _ => SIZEOF_TKL_QUEUE_T
  | ORpa _ => SIZEOF_RPA_QUEUE_T
  | OData a => 8 * Z.of_nat (length a)
  | OMx _ => SIZEOF_PTHREAD_MUTEX_T
  | OCond _ => SIZEOF_PTHREAD_COND_T
  | OMsg d => Z.of_nat (length d)
  end.

Definition RPA_WAIT_NONE : Z := 0.
Definition RPA_WAIT_FOREVER : Z := -1.
Definition TKL_QUEUE_WAIT_FROEVER : Z := 0xFFFFFFFF.

Definition rpa_queue_full (x : rpa_queue_t) : bool := r_nelts x =? r_bounds x.
Definition rpa_queue_empty (x : rpa_queue_t) : bool := r_nelts x =? 0.

Definition with_push (i n : Z) (x : rpa_queue_t) : rpa_queue_t :=
  mkRpa (r_data x) n i (r_out x) (r_bounds x) (r_full_waiters x) (r_empty_waiters x) (r_one_big_mutex x) (r_not_empty x) (r_not_full x) (r_terminated x).
Definition with_pop (o n : Z) (x : rpa_queue_t) : rpa_queue_t :=
  mkRpa (r_data x) n (r_in x) o (r_bounds x) (r_full_waiters x) (r_empty_waiters x) (r_one_big_mutex x) (r_not_empty x) (r_not_full x) (r_terminated x).
Definition with_waiters (f e : Z) (x : rpa_queue_t) : rpa_queue_t :=
  mkRpa (r_data x) (r_nelts x) (r_in x) (r_out x) (r_bounds x) f e (r_one_big_mutex x) (r_not_empty x) (r_not_full x) (r_terminated x).

(** An operation ends, or waits until the deadline ([None]: for ever) with a
    message in its hands (0 for a reader). *)
Inductive status (R : Type) := Finished (r : R) | Blocked (buf : Z) (deadline : option (Z * Z)).
Arguments Finished {R}. Arguments Blocked {R}.

(** [struct timespec] as seconds and nanoseconds. *)
Fixpoint carry_loop (fuel : nat) (sec ms : Z) : Z * Z :=
  match fuel with
  | O => (sec, ms)
  | S fuel' => if 1000 <? ms then carry_loop fuel' (sec + 1) (ms - 1000) else (sec, ms)
  end.

(** [clock_gettime] gives [now]; [ms] is below 2000, so one carry is enough. *)
Definition set_timeout (now : Z * Z) (wait_ms : Z) : Z * Z :=
  let sec := fst now + Z.quot wait_ms 1000 in
  let ms := Z.quot (snd now) 1000000 + Z.rem wait_ms 1000 in
  let '(sec, ms) := carry_loop 2 sec ms in
  (sec, ms * 1000000).

Section TklQueue.
Context {A : Type} `{!Allocator A}.
Local Abbreviation W := (M (owned A tobj)).

(** What [pthread_cond_signal] returns. *)
Variable signal_rv : Z.

Definition get_rpa (p : Z) : W rpa_queue_t := o <- get_obj p ;; match o with ORpa x => ret x | _ => fault end.
Definition get_tkl (p : Z) : W TKL_QUEUE_T := o <- get_obj p ;; match o with OTkl x => ret x | _ => fault end.
Definition get_msg (p : Z) : W (list Z) := o <- get_obj p ;; match o with OMsg d => ret d | _ => fault end.
Definition free_obj (p : Z) : W unit := bind (lift_alloc (al_free p)) (fun _ => drop_obj p).

(** [queue->data[i]] *)
Definition data_get (a i : Z) : W Z :=
  o <- get_obj a ;;
  match o with OData l => if 0 <=? i then match l !! Z.to_nat i with Some v => ret v | None => fault end else fault | _ => fault end.
Definition data_set (a i v : Z) : W unit :=
  o <- get_obj a ;;
  match o with OData l => if (0 <=? i) && (i <? Z.of_nat (length l)) then set_obj a (OData (<[Z.to_nat i := v]> l)) else fault | _ => fault end.

(** ** The ring *)

Definition rpa_queue_destroy (queue : Z) : W unit :=
  x <- get_rpa queue ;;
  set_obj (r_not_empty x) (OCond false) ;;;
  set_obj (r_not_full x) (OCond false) ;;;
  _ <- pthread_mutex_destroy (r_one_big_mutex x) ;;
  ret tt.

(** The results of [pthread_mutex_init] and of the two [pthread_cond_init]. *)
Record init_env := mkInit { ie_mutex : Z; ie_not_empty : Z; ie_not_full : Z }.

(** The result and the pointer stored through [q]. *)
Definition rpa_queue_create (env : init_env) (queue_capacity : Z) : W (bool * Z) :=
  queue <- lift_alloc (al_malloc SIZEOF_RPA_QUEUE_T) ;;
  if queue =? 0 then ret (false, 0)
  else
    init_obj queue (ORpa (mkRpa 0 0 0 0 0 0 0 0 0 0 0)) ;;;
    mx <- lift_alloc (al_malloc SIZEOF_PTHREAD_MUTEX_T) ;;
    if mx =? 0 then ret (false, queue)
    else
      init_obj mx (OMx (mkMutex false 0)) ;;;
      ne <- lift_alloc (al_malloc SIZEOF_PTHREAD_COND_T) ;;
      if ne =? 0 then ret (false, queue)
      else
        init_obj ne (OCond false) ;;;
        nf <- lift_alloc (al_malloc SIZEOF_PTHREAD_COND_T) ;;
        if nf =? 0 then ret (false, queue)
        else
          init_obj nf (OCond false) ;;;
          if negb (ie_mutex env =? 0) then free_obj queue ;;; ret (false, queue)
          else
            set_obj mx (OMx (mkMutex true 0)) ;;;
            if negb (ie_not_empty env =? 0) then free_obj queue ;;; ret (false, queue)
            else
              set_obj ne (OCond true) ;;;
              if negb (ie_not_full env =? 0) then free_obj queue ;;; ret (false, queue)
              else
                set_obj nf (OCond true) ;;;
                data <- lift_alloc (al_malloc (queue_capacity * 8)) ;;
                when (negb (data =? 0)) (init_obj data (OData (replicate (Z.to_nat queue_capacity) 0))) ;;;
                set_obj queue (ORpa (mkRpa data 0 0 0 queue_capacity 0 0 mx ne nf 0)) ;;;
                ret (true, queue).

(** The end of both push operations: store, advance, signal, unlock. *)
Definition push_locked (queue data : Z) : W bool :=
  x <- get_rpa queue ;;
  data_set (r_data x) (r_in x) data ;;;
  let i := u32 (r_in x + 1) in
  let i := if r_bounds x <=? i then u32 (i - r_bounds x) else i in
  set_obj queue (ORpa (with_push i (u32 (r_nelts x + 1)) x)) ;;;
  rv <- ret (if negb (r_empty_waiters x =? 0) then signal_rv else 0) ;;
  if negb (rv =? 0) then _ <- pthread_mutex_unlock (r_one_big_mutex x) ;; ret false
  else _ <- pthread_mutex_unlock (r_one_big_mutex x) ;; ret true.

(** The end of both pop operations; the pointer goes to [*data]. *)
Definition pop_locked (queue : Z) : W (bool * Z) :=
  x <- get_rpa queue ;;
  data <- data_get (r_data x) (r_out x) ;;
  let o := u32 (r_out x + 1) in
  let o := if r_bounds x <=? o then u32 (o - r_bounds x) else o in
  set_obj queue (ORpa (with_pop o (u32 (r_nelts x - 1)) x)) ;;;
  rv <- ret (if negb (r_full_waiters x =? 0) then signal_rv else 0) ;;
  if negb (rv =? 0) then _ <- pthread_mutex_unlock (r_one_big_mutex x) ;; ret (false, data)
  else _ <- pthread_mutex_unlock (r_one_big_mutex x) ;; ret (true, data).

Definition rpa_queue_trypush (queue data : Z) : W bool :=
  x <- get_rpa queue ;;
  if negb (r_terminated x =? 0) then ret false
  else
    rv <- pthread_mutex_lock (r_one_big_mutex x) ;;
    if negb (rv =? 0) then ret false
    else
      x <- get_rpa queue ;;
      if rpa_queue_full x then _ <- pthread_mutex_unlock (r_one_big_mutex x) ;; ret false
      else push_locked queue data.

Definition rpa_queue_timedpush (now : Z * Z) (queue data wait_ms : Z) : W (status bool) :=
  if wait_ms =? RPA_WAIT_NONE then b <- rpa_queue_trypush queue data ;; ret (Finished b)
  else
    x <- get_rpa queue ;;
    if negb (r_terminated x =? 0) then ret (Finished false)
    else
      rv <- pthread_mutex_lock (r_one_big_mutex x) ;;
      if negb (rv =? 0) then ret (Finished false)
      else
        x <- get_rpa queue ;;
        if rpa_queue_full x then
          if r_terminated x =? 0 then
            set_obj queue (ORpa (with_waiters (u32 (r_full_waiters x + 1)) (r_empty_waiters x) x)) ;;;
            let deadline := if wait_ms =? RPA_WAIT_FOREVER then None else Some (set_timeout now wait_ms) in
            _ <- pthread_mutex_unlock (r_one_big_mutex x) ;;
            ret (Blocked data deadline)
          else _ <- pthread_mutex_unlock (r_one_big_mutex x) ;; ret (Finished false)
        else b <- push_locked queue data ;; ret (Finished b).

(** After the wait, which returned [rv]. *)
Definition rpa_queue_timedpush_resume (queue data rv : Z) : W bool :=
  x <- get_rpa queue ;;
  _ <- pthread_mutex_lock (r_one_big_mutex x) ;;
  x <- get_rpa queue ;;
  let x := with_waiters (u32 (r_full_waiters x - 1)) (r_empty_waiters x) x in
  set_obj queue (ORpa x) ;;;
  if negb (rv =? 0) then _ <- pthread_mutex_unlock (r_one_big_mutex x) ;; ret false
  else if rpa_queue_full x then _ <- pthread_mutex_unlock (r_one_big_mutex x) ;; ret false
  else push_locked queue data.

Definition rpa_queue_trypop (queue : Z) : W (bool * Z) :=
  x <- get_rpa queue ;;
  if negb (r_terminated x =? 0) then ret (false, 0)
  else
    rv <- pthread_mutex_lock (r_one_big_mutex x) ;;
    if negb (rv =? 0) then ret (false, 0)
    else
      x <- get_rpa queue ;;
      if rpa_queue_empty x then _ <- pthread_mutex_unlock (r_one_big_mutex x) ;; ret (false, 0)
      else pop_locked queue.

Definition rpa_queue_timedpop (now : Z * Z) (queue wait_ms : Z) : W (status (bool * Z)) :=
  if wait_ms =? RPA_WAIT_NONE then r <- rpa_queue_trypop queue ;; ret (Finished r)
  else
    x <- get_rpa queue ;;
    if negb (r_terminated x =? 0) then ret (Finished (false, 0))
    else
      rv <- pthread_mutex_lock (r_one_big_mutex x) ;;
      if negb (rv =? 0) then ret (Finished (false, 0))
      else
        x <- get_rpa queue ;;
        if rpa_queue_empty x then
          if r_terminated x =? 0 then
            set_obj queue (ORpa (with_waiters (r_full_waiters x) (u32 (r_empty_waiters x + 1)) x)) ;;;
            let deadline := if wait_ms =? RPA_WAIT_FOREVER then None else Some (set_timeout now wait_ms) in
            _ <- pthread_mutex_unlock (r_one_big_mutex x) ;;
            ret (Blocked 0 deadline)
          else _ <- pthread_mutex_unlock (r_one_big_mutex x) ;; ret (Finished (false, 0))
        else r <- pop_locked queue ;; ret (Finished r).

Definition rpa_queue_timedpop_resume (queue rv : Z) : W (bool * Z) :=
  x <- get_rpa queue ;;
  _ <- pthread_mutex_lock (r_one_big_mutex x) ;;
  x <- get_rpa queue ;;
  let x := with_waiters (r_full_waiters x) (u32 (r_empty_waiters x - 1)) x in
  set_obj queue (ORpa x) ;;;
  if negb (rv =? 0) then _ <- pthread_mutex_unlock (r_one_big_mutex x) ;; ret (false, 0)
  else if rpa_queue_empty x then _ <- pthread_mutex_unlock (r_one_big_mutex x) ;; ret (false, 0)
  else pop_locked queue.

(** ** The queue of messages *)

(** The result and the handle. *)
Definition tkl_queue_create_init (env : init_env) (handle : bool) (msgsize msgcount : Z) : W (OPERATE_RET * Z) :=
  if negb handle || (msgsize =? 0) || (msgcount =? 0) then ret (OPRT_INVALID_PARM, 0)
  else
    queue <- lift_alloc (al_malloc SIZEOF_TKL_QUEUE_T) ;;
    if queue =? 0 then ret (OPRT_MALLOC_FAILED, 0)
    else
      init_obj queue (OTkl (mkTkl 0 0)) ;;;
      r <- rpa_queue_create env (u32 msgcount) ;;
      if negb (fst r) then
        set_obj queue (OTkl (mkTkl (snd r) 0)) ;;; ret (OPRT_OS_ADAPTER_QUEUE_CREAT_FAILED, 0)
      else
        set_obj queue (OTkl (mkTkl (snd r) msgsize)) ;;;
        ret (OPRT_OK, queue).

Definition wait_ms_of (timeout : Z) : Z := if timeout =? TKL_QUEUE_WAIT_FROEVER then RPA_WAIT_FOREVER else s32 timeout.
Definition post_result (b : bool) : OPERATE_RET := if negb b then OPRT_OS_ADAPTER_QUEUE_SEND_FAIL else OPRT_OK.

Definition tkl_queue_post (now : Z * Z) (handle : Z) (data : option (list Z)) (timeout : Z) : W (status OPERATE_RET) :=
  match data with
  | None => ret (Finished OPRT_INVALID_PARM)
  | Some d =>
    if handle =? 0 then ret (Finished OPRT_INVALID_PARM)
    else
      queue <- get_tkl handle ;;
      buf <- lift_alloc (al_malloc (tq_msgsize queue)) ;;
      if buf =? 0 then ret (Finished OPRT_MALLOC_FAILED)
      else if Z.of_nat (length d) <? tq_msgsize queue then fault
      else
        init_obj buf (OMsg (take (Z.to_nat (tq_msgsize queue)) d)) ;;;
        r <- rpa_queue_timedpush now (tq_queue queue) buf (wait_ms_of timeout) ;;
        ret (match r with
             | Finished b => Finished (post_result b)
             | Blocked buf dl => Blocked buf dl
             end)
  end.

Definition tkl_queue_post_resume (handle buf rv : Z) : W OPERATE_RET :=
  queue <- get_tkl handle ;;
  b <- rpa_queue_timedpush_resume (tq_queue queue) buf rv ;;
  ret (post_result b).

(** The end of a fetch: the result and the message copied to the caller. *)
Definition fetch_result (msgsize : Z) (r : bool * Z) : W (OPERATE_RET * option (list Z)) :=
  if negb (fst r) then ret (OPRT_OS_ADAPTER_QUEUE_RECV_FAIL, None)
  else if negb (snd r =? 0) then
    d <- get_msg (snd r) ;;
    if Z.of_nat (length d) <? msgsize then fault
    else free_obj (snd r) ;;; ret (OPRT_OK, Some (take (Z.to_nat msgsize) d))
  else ret (OPRT_OK, None).

Definition tkl_queue_fetch (now : Z * Z) (handle timeout : Z) : W (status (OPERATE_RET * option (list Z))) :=
  if handle =? 0 then ret (Finished (OPRT_INVALID_PARM, None))
  else
    queue <- get_tkl handle ;;
    r <- rpa_queue_timedpop now (tq_queue queue) (wait_ms_of timeout) ;;
    match r with
    | Finished r => x <- fetch_result (tq_msgsize queue) r ;; ret (Finished x)
    | Blocked buf dl => ret (Blocked buf dl)
    end.

Definition tkl_queue_fetch_resume (handle rv : Z) : W (OPERATE_RET * option (list Z)) :=
  queue <- get_tkl handle ;;
  r <- rpa_queue_timedpop_resume (tq_queue queue) rv ;;
  fetch_result (tq_msgsize queue) r.

Definition tkl_queue_free (handle : Z) : W unit :=
  if handle =? 0 then ret tt
  else
    queue <- get_tkl handle ;;
    rpa_queue_destroy (tq_queue queue) ;;;
    free_obj handle.
End TklQueue.
