(* ===== verification/TklQueueProps.v ===== *)
(** * The message queue is a bounded FIFO channel between threads

    Whatever the interleaving of the threads, the timeouts and the spurious
    wake-ups, the queue behaves as one list of messages of bounded length; messages
    are received in the order they were sent, each once.  The deadline of a timed
    wait is shown to be the right one, except in one case. *)

From S2P Require Import Prelude MemHeap MemHeapProps MemHeapStore Alloc TklMutex TklQueue.

(** ** Deadlines *)

(** A valid [struct timespec]. *)
Definition timespec_ok (t : Z * Z) : Prop := 0 <= snd t < 1000000000.
(** Milliseconds since the epoch. *)
Definition millis (t : Z * Z) : Z := fst t * 1000 + snd t / 1000000.

(** For a positive wait, [set_timeout] computes the time that many milliseconds
    after the whole milliseconds of [now], and a valid time, unless the
    milliseconds add up to exactly 1000: then the nanoseconds are 1000000000, a
    value that [pthread_cond_timedwait] rejects. *)
Theorem set_timeout_correct now wait_ms :
  timespec_ok now -> 0 < wait_ms < 2147483648 ->
  let t := set_timeout now wait_ms in
  millis t = millis now + wait_ms /\
  (if decide (snd now / 1000000 + wait_ms mod 1000 = 1000) then snd t = 1000000000 else timespec_ok t).
Proof.
  intros Hn Hw. destruct now as [sec nsec]. unfold timespec_ok, set_timeout, millis in *. cbn [fst snd] in *.
  rewrite Z.quot_div_nonneg, Z.rem_mod_nonneg, (Z.quot_div_nonneg nsec) by lia.
  pose proof (Z.div_mod wait_ms 1000). pose proof (Z.mod_pos_bound wait_ms 1000).
  assert (0 <= nsec / 1000000 < 1000) by (split; [apply Z.div_pos; lia|apply Z.div_lt_upper_bound; lia]).
  set (a := nsec / 1000000) in *. set (b := wait_ms mod 1000) in *. set (c := wait_ms / 1000) in *.
  cbn [carry_loop]. repeat zcase; cbn [fst snd]; rewrite Z.div_mul by lia; (split; [lia|]); case_decide; lia.
Qed.

Lemma set_timeout_correct_witness :
  let t := set_timeout (5, 400000000) 600 in
  millis t = millis (5, 400000000) + 600 /\ (if decide (400000000 / 1000000 + 600 mod 1000 = 1000) then snd t = 1000000000 else timespec_ok t).
Proof. refine (set_timeout_correct (5, 400000000) 600 _ _); unfold timespec_ok; cbn; lia. Defined.

(** ** The ring of a queue *)

(** The objects of a queue: its handle, ring, array, mutex and conditions. *)
Record geo := Geo { gh : Z; gq : Z; gd : Z; gm : Z; gne : Z; gnf : Z; gcap : Z; gmsz : Z }.

(** [bufs] lie in the array from [out] on. *)
Definition in_ring (arr : list Z) (cap out : Z) (bufs : list Z) : Prop :=
  Z.of_nat (length arr) = cap /\ forall k, (k < length bufs)%nat -> arr !!! Z.to_nat ((out + Z.of_nat k) mod cap) = bufs !!! k.

Lemma step_index x cap : 0 <= x < cap -> cap < 4294967296 -> (if cap <=? u32 (x + 1) then u32 (u32 (x + 1) - cap) else u32 (x + 1)) = (x + 1) mod cap.
Proof.
  intros Hx Hc. rewrite (u32_small (x + 1)) by lia. zcase.
  - assert (x + 1 = cap) as -> by lia. rewrite Z.sub_diag, Z.mod_same by lia. done.
  - by rewrite Z.mod_small by lia.
Qed.

Lemma mod_apart a b cap : 0 <= a -> a < b -> b - a < cap -> forall out, 0 <= out -> (out + a) mod cap <> (out + b) mod cap.
Proof.
  intros Ha Hab Hc out Ho E. assert ((b - a) mod cap = 0) as E0.
  { replace (b - a) with ((out + b) - (out + a)) by lia. rewrite Zminus_mod, E, Z.sub_diag. apply Z.mod_0_l. lia. }
  rewrite Z.mod_small in E0; lia.
Qed.

Lemma ring_push arr cap out bufs b : 0 <= out < cap -> in_ring arr cap out bufs -> Z.of_nat (length bufs) < cap ->
  in_ring (<[Z.to_nat ((out + Z.of_nat (length bufs)) mod cap) := b]> arr) cap out (bufs ++ [b]).
Proof.
  intros Ho [Hl Hr] Hlt. split; [by rewrite length_insert|]. intros k Hk. rewrite length_app in Hk. cbn in Hk.
  pose proof (Z.mod_pos_bound (out + Z.of_nat (length bufs)) cap). pose proof (Z.mod_pos_bound (out + Z.of_nat k) cap).
  destruct (decide (k = length bufs)) as [->|Hne].
  - rewrite list_lookup_total_insert_eq by lia. rewrite lookup_total_app_r, Nat.sub_diag by lia. done.
  - rewrite list_lookup_total_insert_ne, Hr, lookup_total_app_l by lia || (intros E; apply (mod_apart (Z.of_nat k) (Z.of_nat (length bufs)) cap) with (out := out); lia). done.
Qed.

Lemma ring_pop arr cap out b bufs : 0 <= out < cap -> in_ring arr cap out (b :: bufs) ->
  arr !! Z.to_nat out = Some b /\ in_ring arr cap ((out + 1) mod cap) bufs.
Proof.
  intros Ho [Hl Hr]. split.
  - rewrite list_lookup_lookup_total_lt by lia. f_equal. specialize (Hr 0%nat ltac:(cbn; lia)). rewrite Z.add_0_r, Z.mod_small in Hr by lia. done.
  - split; [done|]. intros k Hk. specialize (Hr (S k) ltac:(cbn; lia)). rewrite Z.add_mod_idemp_l by lia.
    replace (out + 1 + Z.of_nat k) with (out + Z.of_nat (S k)) by lia. done.
Qed.

Section Channel.
Context {A : Type} `{!Allocator A}.
Local Abbreviation S_ := (owned A tobj).

(** The queue of [g] at rest or, with [dp = 1], inside its mutex; it holds the
    message pointers [bufs]. *)
Record qrep (dp : Z) (s : S_) (g : geo) (out : Z) (bufs : list Z) (fw ew : Z) : Prop := {
  qr_own : owned_ok obj_size s;
  qr_tkl : o_objs s !! gh g = Some (OTkl (mkTkl (gq g) (gmsz g)));
  qr_rpa : o_objs s !! gq g = Some (ORpa (mkRpa (gd g) (Z.of_nat (length bufs)) ((out + Z.of_nat (length bufs)) mod gcap g) out (gcap g) fw ew (gm g) (gne g) (gnf g) 0));
  qr_data : exists arr, o_objs s !! gd g = Some (OData arr) /\ in_ring arr (gcap g) out bufs;
  qr_mutex : o_objs s !! gm g = Some (OMx (mkMutex true dp));
  qr_bounds : 0 <= out < gcap g /\ gcap g < 536870912 /\ Z.of_nat (length bufs) <= gcap g /\ 0 < gmsz g < 2147483648
}.

(** Objects other than those of the queue stay. *)
Definition frame (g : geo) (s s' : S_) : Prop := forall x, x <> gq g -> x <> gd g -> x <> gm g -> o_objs s' !! x = o_objs s !! x.

Definition put (s : S_) (p : Z) (o : tobj) : S_ := Own (o_alloc s) (<[p := o]> (o_objs s)).

Lemma put_own s p o o' : owned_ok obj_size s -> o_objs s !! p = Some o' -> obj_size o = obj_size o' -> owned_ok obj_size (put s p o).
Proof. intros. by eapply owned_ok_update. Qed.

Lemma frame_refl g s : frame g s s.
Proof. done. Qed.
Lemma frame_trans g s s' s'' : frame g s s' -> frame g s' s'' -> frame g s s''.
Proof. intros H1 H2 x ? ? ?. rewrite H2, H1; done. Qed.
Lemma frame_put g s p o : p = gq g \/ p = gd g \/ p = gm g -> frame g s (put s p o).
Proof. intros Hp x ? ? ?. cbn. apply lookup_insert_ne. naive_solver. Qed.

Lemma wp_get_rpa p x Q (s : S_) : o_objs s !! p = Some (ORpa x) -> Q x s -> wp (get_rpa p) Q s.
Proof. intros E HQ. unfold get_rpa. apply wp_bind. eapply wp_get_obj; [done|]. by apply wp_ret. Qed.
Lemma wp_get_tkl p x Q (s : S_) : o_objs s !! p = Some (OTkl x) -> Q x s -> wp (get_tkl p) Q s.
Proof. intros E HQ. unfold get_tkl. apply wp_bind. eapply wp_get_obj; [done|]. by apply wp_ret. Qed.

(** Changing fields of the ring that are not its content. *)
Lemma qrep_waiters dp s g out bufs fw ew fw' ew' : qrep dp s g out bufs fw ew ->
  qrep dp (put s (gq g) (ORpa (mkRpa (gd g) (Z.of_nat (length bufs)) ((out + Z.of_nat (length bufs)) mod gcap g) out (gcap g) fw' ew' (gm g) (gne g) (gnf g) 0))) g out bufs fw' ew'.
Proof.
  intros [H1 H2 H3 (arr & H4 & H4') H5 H6]. constructor; cbn [put o_objs o_alloc].
  - by eapply put_own.
  - rewrite lookup_insert_ne by congruence. done.
  - apply lookup_insert_eq.
  - exists arr. rewrite lookup_insert_ne by congruence. done.
  - rewrite lookup_insert_ne by congruence. done.
  - done.
Qed.

Lemma qrep_depth dp dp' s g out bufs fw ew : qrep dp s g out bufs fw ew -> qrep dp' (put s (gm g) (OMx (mkMutex true dp'))) g out bufs fw ew.
Proof.
  intros [H1 H2 H3 (arr & H4 & H4') H5 H6]. constructor; cbn [put o_objs o_alloc].
  - by eapply put_own.
  - rewrite lookup_insert_ne by congruence. done.
  - rewrite lookup_insert_ne by congruence. done.
  - exists arr. rewrite lookup_insert_ne by congruence. done.
  - apply lookup_insert_eq.
  - done.
Qed.

(** Locking and unlocking the queue. *)
Lemma lock_spec s g out bufs fw ew Q : qrep 0 s g out bufs fw ew ->
  (forall s', qrep 1 s' g out bufs fw ew -> frame g s s' -> Q 0 s') -> wp (pthread_mutex_lock (gm g)) Q s.
Proof.
  intros Hr HQ. unfold pthread_mutex_lock. apply wp_bind. eapply wp_get_mutex; [apply Hr|]. cbn [mx_ready mx_depth].
  apply wp_bind. eapply wp_set_obj; [apply Hr|]. apply wp_ret, (HQ (put s (gm g) (OMx (mkMutex true 1)))); [by eapply qrep_depth|]. apply frame_put. auto.
Qed.

Lemma unlock_spec s g out bufs fw ew Q : qrep 1 s g out bufs fw ew ->
  (forall s', qrep 0 s' g out bufs fw ew -> frame g s s' -> Q 0 s') -> wp (pthread_mutex_unlock (gm g)) Q s.
Proof.
  intros Hr HQ. unfold pthread_mutex_unlock. apply wp_bind. eapply wp_get_mutex; [apply Hr|]. cbn [mx_ready mx_depth].
  rewrite (proj2 (Z.ltb_lt 0 1)) by lia. apply wp_bind. eapply wp_set_obj; [apply Hr|].
  apply wp_ret, (HQ (put s (gm g) (OMx (mkMutex true 0)))); [by eapply qrep_depth|]. apply frame_put. auto.
Qed.

Lemma push_locked_spec s g out bufs fw ew b Q : qrep 1 s g out bufs fw ew -> Z.of_nat (length bufs) < gcap g ->
  (forall s', qrep 0 s' g out (bufs ++ [b]) fw ew -> frame g s s' -> Q true s') -> wp (push_locked 0 (gq g) b) Q s.
Proof.
  intros Hr Hlt HQ. pose proof Hr as [H1 H2 H3 (arr & H4 & H4') H5 (Ho & Hc & _ & Hm)].
  unfold push_locked. apply wp_bind. eapply wp_get_rpa; [done|]. cbn [r_data r_in r_bounds r_nelts r_empty_waiters r_one_big_mutex].
  pose proof (Z.mod_pos_bound (out + Z.of_nat (length bufs)) (gcap g) ltac:(lia)) as Hin. pose proof (proj1 H4') as Hal.
  apply wp_bind. unfold data_set. apply wp_bind. eapply wp_get_obj; [done|]. rewrite (proj2 (Z.leb_le 0 _)), (proj2 (Z.ltb_lt _ _)) by lia. cbn [andb].
  eapply wp_set_obj; [done|]. rewrite step_index by lia. rewrite (u32_small (Z.of_nat (length bufs) + 1)) by lia.
  apply wp_bind. eapply wp_set_obj; [cbn; rewrite lookup_insert_ne by congruence; done|]. apply wp_bind, wp_ret.
  assert (forall z, negb ((if negb z then 0 else 0) =? 0) = false) as -> by (by intros []). apply wp_bind. cbn [o_objs o_alloc].
  set (arr' := <[Z.to_nat ((out + Z.of_nat (length bufs)) mod gcap g) := b]> arr). set (s2 := Own _ _).
  assert (qrep 1 s2 g out (bufs ++ [b]) fw ew) as Hr2.
  { assert (length arr' = length arr) as El by (unfold arr'; by rewrite length_insert). constructor; subst s2; cbn [o_objs o_alloc].
    - change (owned_ok obj_size (put (put s (gd g) (OData arr')) (gq g) (ORpa (with_push (((out + Z.of_nat (length bufs)) mod gcap g + 1) mod gcap g) (Z.of_nat (length bufs) + 1)
        (mkRpa (gd g) (Z.of_nat (length bufs)) ((out + Z.of_nat (length bufs)) mod gcap g) out (gcap g) fw ew (gm g) (gne g) (gnf g) 0))))).
      eapply put_own; [eapply put_own; [done|done|cbn; by rewrite El]|cbn; rewrite lookup_insert_ne by congruence; done|done].
    - rewrite !lookup_insert_ne by congruence. done.
    - rewrite lookup_insert_eq. unfold with_push. cbn. rewrite length_app. cbn [length]. do 3 f_equal; [lia|].
      rewrite Z.add_mod_idemp_l by lia. f_equal. lia.
    - exists arr'. rewrite lookup_insert_ne, lookup_insert_eq by congruence. split; [done|]. by apply ring_push.
    - rewrite !lookup_insert_ne by congruence. done.
    - rewrite length_app. cbn [length]. lia. }
  eapply unlock_spec; [done|]. intros s3 Hr3 Hf3. apply wp_ret, HQ; [done|]. eapply frame_trans; [|done].
  intros x ? ? ?. subst s2. cbn. by rewrite !lookup_insert_ne.
Qed.

Lemma pop_locked_spec s g out b bufs fw ew Q : qrep 1 s g out (b :: bufs) fw ew ->
  (forall s', qrep 0 s' g ((out + 1) mod gcap g) bufs fw ew -> frame g s s' -> Q (true, b) s') -> wp (pop_locked 0 (gq g)) Q s.
Proof.
  intros Hr HQ. pose proof Hr as [H1 H2 H3 (arr & H4 & H4') H5 (Ho & Hc & Hl & Hm)]. destruct (ring_pop _ _ _ _ _ Ho H4') as [Hb Hring].
  unfold pop_locked. apply wp_bind. eapply wp_get_rpa; [done|]. cbn [r_data r_out r_bounds r_nelts r_full_waiters r_one_big_mutex].
  apply wp_bind. unfold data_get. apply wp_bind. eapply wp_get_obj; [done|]. rewrite (proj2 (Z.leb_le 0 _)), Hb by lia. apply wp_ret.
  rewrite step_index by lia. cbn [length]. rewrite (u32_small (Z.of_nat (S (length bufs)) - 1)) by (cbn [length] in *; lia).
  apply wp_bind. eapply wp_set_obj; [done|]. apply wp_bind, wp_ret.
  assert (forall z, negb ((if negb z then 0 else 0) =? 0) = false) as -> by (by intros []). apply wp_bind.
  set (s2 := Own _ _). pose proof (Z.mod_pos_bound (out + 1) (gcap g) ltac:(lia)).
  assert (qrep 1 s2 g ((out + 1) mod gcap g) bufs fw ew) as Hr2.
  { constructor; subst s2; cbn [o_objs o_alloc].
    - by eapply put_own.
    - rewrite lookup_insert_ne by congruence. done.
    - rewrite lookup_insert_eq. unfold with_pop. cbn. do 3 f_equal; [lia|]. rewrite Z.add_mod_idemp_l by lia. f_equal. lia.
    - exists arr. rewrite lookup_insert_ne by congruence. done.
    - rewrite lookup_insert_ne by congruence. done.
    - cbn [length] in *. lia. }
  eapply unlock_spec; [done|]. intros s3 Hr3 Hf3. apply wp_ret, HQ; [done|]. eapply frame_trans; [|done].
  intros x ? ? ?. subst s2. cbn. by rewrite lookup_insert_ne.
Qed.

(** The queue at rest holds [bufs]. *)
Definition at_rest (s : S_) (g : geo) (bufs : list Z) : Prop := exists out fw ew, qrep 0 s g out bufs fw ew.

Lemma full_spec out (bufs : list Z) g fw ew i : rpa_queue_full (mkRpa (gd g) (Z.of_nat (length bufs)) i out (gcap g) fw ew (gm g) (gne g) (gnf g) 0) = (Z.of_nat (length bufs) =? gcap g).
Proof. done. Qed.

Lemma trypush_spec s g bufs b Q : at_rest s g bufs ->
  (Z.of_nat (length bufs) < gcap g -> forall s', at_rest s' g (bufs ++ [b]) -> frame g s s' -> Q true s') ->
  (Z.of_nat (length bufs) = gcap g -> forall s', at_rest s' g bufs -> frame g s s' -> Q false s') ->
  wp (rpa_queue_trypush 0 (gq g) b) Q s.
Proof.
  intros (out & fw & ew & Hr) Hroom Hfull. destruct (qr_bounds _ _ _ _ _ _ _ Hr) as (_ & _ & Hle & _).
  unfold rpa_queue_trypush. apply wp_bind. eapply wp_get_rpa; [apply Hr|]. cbn [r_terminated r_one_big_mutex negb Z.eqb].
  apply wp_bind. eapply lock_spec; [done|]. intros s1 Hr1 Hf1. cbn [negb Z.eqb]. apply wp_bind. eapply wp_get_rpa; [apply Hr1|]. rewrite full_spec.
  destruct (Z.eqb_spec (Z.of_nat (length bufs)) (gcap g)) as [E|E].
  - apply wp_bind. eapply unlock_spec; [done|]. intros s2 Hr2 Hf2. apply wp_ret, Hfull; [done|by exists out, fw, ew|by eapply frame_trans].
  - eapply push_locked_spec; [done|lia|]. intros s2 Hr2 Hf2. apply Hroom; [lia|by exists out, fw, ew|by eapply frame_trans].
Qed.

Lemma timedpush_spec now s g bufs b w Q : at_rest s g bufs ->
  (Z.of_nat (length bufs) < gcap g -> forall s', at_rest s' g (bufs ++ [b]) -> frame g s s' -> Q (Finished true) s') ->
  (Z.of_nat (length bufs) = gcap g -> w = 0 -> forall s', at_rest s' g bufs -> frame g s s' -> Q (Finished false) s') ->
  (Z.of_nat (length bufs) = gcap g -> w <> 0 -> forall s' dl, at_rest s' g bufs -> frame g s s' -> Q (Blocked b dl) s') ->
  wp (rpa_queue_timedpush 0 now (gq g) b w) Q s.
Proof.
  intros Hs Hroom Hfull Hblock. unfold rpa_queue_timedpush, RPA_WAIT_NONE. destruct (Z.eqb_spec w 0) as [->|Hw].
  - apply wp_bind. eapply trypush_spec; [done|..]; intros; apply wp_ret; eauto.
  - destruct Hs as (out & fw & ew & Hr). destruct (qr_bounds _ _ _ _ _ _ _ Hr) as (_ & _ & Hle & _).
    apply wp_bind. eapply wp_get_rpa; [apply Hr|]. cbn [r_terminated r_one_big_mutex negb Z.eqb].
    apply wp_bind. eapply lock_spec; [done|]. intros s1 Hr1 Hf1. cbn [negb Z.eqb]. apply wp_bind. eapply wp_get_rpa; [apply Hr1|]. rewrite full_spec.
    destruct (Z.eqb_spec (Z.of_nat (length bufs)) (gcap g)) as [E|E].
    + cbn [r_terminated Z.eqb]. apply wp_bind. eapply wp_set_obj; [apply Hr1|]. apply wp_bind. cbn [r_one_big_mutex].
      eapply unlock_spec; [by eapply qrep_waiters|]. intros s2 Hr2 Hf2. apply wp_ret, Hblock; [done|done|by eexists _, _, _|].
      eapply frame_trans; [done|]. eapply frame_trans; [|done]. apply frame_put. auto.
    + apply wp_bind. eapply push_locked_spec; [done|lia|]. intros s2 Hr2 Hf2. apply wp_ret, Hroom; [lia|by exists out, fw, ew|by eapply frame_trans].
Qed.

Lemma push_resume_spec s g bufs b rv Q : at_rest s g bufs ->
  (rv = 0 -> Z.of_nat (length bufs) < gcap g -> forall s', at_rest s' g (bufs ++ [b]) -> frame g s s' -> Q true s') ->
  (rv <> 0 \/ Z.of_nat (length bufs) = gcap g -> forall s', at_rest s' g bufs -> frame g s s' -> Q false s') ->
  wp (rpa_queue_timedpush_resume 0 (gq g) b rv) Q s.
Proof.
  intros (out & fw & ew & Hr) Hroom Hfail. destruct (qr_bounds _ _ _ _ _ _ _ Hr) as (_ & _ & Hle & _).
  unfold rpa_queue_timedpush_resume. apply wp_bind. eapply wp_get_rpa; [apply Hr|]. cbn [r_one_big_mutex].
  apply wp_bind. eapply lock_spec; [done|]. intros s1 Hr1 Hf1. apply wp_bind. eapply wp_get_rpa; [apply Hr1|].
  apply wp_bind. eapply wp_set_obj; [apply Hr1|]. set (s2 := Own _ _).
  assert (qrep 1 s2 g out bufs (u32 (fw - 1)) ew) as Hr2 by (by eapply qrep_waiters).
  assert (frame g s s2) as Hf2 by (eapply frame_trans; [exact Hf1|]; apply frame_put; auto).
  assert (forall s3, qrep 0 s3 g out bufs (u32 (fw - 1)) ew -> frame g s2 s3 -> rv <> 0 \/ Z.of_nat (length bufs) = gcap g -> Q false s3) as Hend.
  { intros s3 Hr3 Hf3 Hc. apply Hfail; [done|by eexists _, _, _|by eapply frame_trans]. }
  destruct (Z.eqb_spec rv 0) as [->|Hrv]; cbn [negb].
  - unfold rpa_queue_full. cbn [with_waiters r_nelts r_bounds r_one_big_mutex]. destruct (Z.eqb_spec (Z.of_nat (length bufs)) (gcap g)) as [E|E].
    + apply wp_bind. eapply unlock_spec; [done|]. intros s3 Hr3 Hf3. apply wp_ret, Hend; auto.
    + eapply push_locked_spec; [done|lia|]. intros s3 Hr3 Hf3. apply Hroom; [done|lia|by eexists _, _, _|by eapply frame_trans].
  - apply wp_bind. eapply unlock_spec; [done|]. intros s3 Hr3 Hf3. apply wp_ret, Hend; auto.
Qed.

Lemma trypop_spec s g bufs Q : at_rest s g bufs ->
  (forall b bufs' s', bufs = b :: bufs' -> at_rest s' g bufs' -> frame g s s' -> Q (true, b) s') ->
  (bufs = [] -> forall s', at_rest s' g [] -> frame g s s' -> Q (false, 0) s') ->
  wp (rpa_queue_trypop 0 (gq g)) Q s.
Proof.
  intros (out & fw & ew & Hr) Hsome Hnone.
  unfold rpa_queue_trypop. apply wp_bind. eapply wp_get_rpa; [apply Hr|]. cbn [r_terminated r_one_big_mutex negb Z.eqb].
  apply wp_bind. eapply lock_spec; [done|]. intros s1 Hr1 Hf1. cbn [negb Z.eqb]. apply wp_bind. eapply wp_get_rpa; [apply Hr1|].
  unfold rpa_queue_empty. cbn [r_nelts r_one_big_mutex]. destruct bufs as [|b bufs].
  - cbn. apply wp_bind. eapply unlock_spec; [done|]. intros s2 Hr2 Hf2. apply wp_ret, Hnone; [done|by exists out, fw, ew|by eapply frame_trans].
  - rewrite (proj2 (Z.eqb_neq _ 0)) by (cbn [length]; lia). eapply pop_locked_spec; [done|]. intros s2 Hr2 Hf2. eapply Hsome; [done|by eexists _, _, _|by eapply frame_trans].
Qed.

Lemma timedpop_spec now s g bufs w Q : at_rest s g bufs ->
  (forall b bufs' s', bufs = b :: bufs' -> at_rest s' g bufs' -> frame g s s' -> Q (Finished (true, b)) s') ->
  (bufs = [] -> w = 0 -> forall s', at_rest s' g [] -> frame g s s' -> Q (Finished (false, 0)) s') ->
  (bufs = [] -> w <> 0 -> forall s' dl, at_rest s' g [] -> frame g s s' -> Q (Blocked 0 dl) s') ->
  wp (rpa_queue_timedpop 0 now (gq g) w) Q s.
Proof.
  intros Hs Hsome Hnone Hblock. unfold rpa_queue_timedpop, RPA_WAIT_NONE. destruct (Z.eqb_spec w 0) as [->|Hw].
  - apply wp_bind. eapply trypop_spec; [done|..]; intros; apply wp_ret; eauto.
  - destruct Hs as (out & fw & ew & Hr). apply wp_bind. eapply wp_get_rpa; [apply Hr|]. cbn [r_terminated r_one_big_mutex negb Z.eqb].
    apply wp_bind. eapply lock_spec; [done|]. intros s1 Hr1 Hf1. cbn [negb Z.eqb]. apply wp_bind. eapply wp_get_rpa; [apply Hr1|].
    unfold rpa_queue_empty. cbn [r_nelts r_one_big_mutex r_terminated]. destruct bufs as [|b bufs].
    + cbn [length Z.of_nat Z.eqb]. apply wp_bind. eapply wp_set_obj; [apply Hr1|]. apply wp_bind.
      eapply unlock_spec; [exact (qrep_waiters _ _ _ _ [] _ _ fw (u32 (ew + 1)) Hr1)|]. intros s2 Hr2 Hf2. apply wp_ret, Hblock; [done|done|by eexists _, _, _|].
      eapply frame_trans; [done|]. eapply frame_trans; [|done]. apply frame_put. auto.
    + rewrite (proj2 (Z.eqb_neq _ 0)) by (cbn [length]; lia). apply wp_bind. eapply pop_locked_spec; [done|]. intros s2 Hr2 Hf2. apply wp_ret.
      eapply Hsome; [done|by eexists _, _, _|by eapply frame_trans].
Qed.

Lemma pop_resume_spec s g bufs rv Q : at_rest s g bufs ->
  (forall b bufs' s', rv = 0 -> bufs = b :: bufs' -> at_rest s' g bufs' -> frame g s s' -> Q (true, b) s') ->
  (rv <> 0 \/ bufs = [] -> forall s', at_rest s' g bufs -> frame g s s' -> Q (false, 0) s') ->
  wp (rpa_queue_timedpop_resume 0 (gq g) rv) Q s.
Proof.
  intros (out & fw & ew & Hr) Hsome Hfail.
  unfold rpa_queue_timedpop_resume. apply wp_bind. eapply wp_get_rpa; [apply Hr|]. cbn [r_one_big_mutex].
  apply wp_bind. eapply lock_spec; [done|]. intros s1 Hr1 Hf1. apply wp_bind. eapply wp_get_rpa; [apply Hr1|].
  apply wp_bind. eapply wp_set_obj; [apply Hr1|]. set (s2 := Own _ _).
  assert (qrep 1 s2 g out bufs fw (u32 (ew - 1))) as Hr2 by (by eapply qrep_waiters).
  assert (frame g s s2) as Hf2 by (eapply frame_trans; [exact Hf1|]; apply frame_put; auto).
  assert (forall s3, qrep 0 s3 g out bufs fw (u32 (ew - 1)) -> frame g s2 s3 -> rv <> 0 \/ bufs = [] -> Q (false, 0) s3) as Hend.
  { intros s3 Hr3 Hf3 Hc. apply Hfail; [done|by eexists _, _, _|by eapply frame_trans]. }
  destruct (Z.eqb_spec rv 0) as [->|Hrv]; cbn [negb].
  - unfold rpa_queue_empty. cbn [with_waiters r_nelts r_bounds r_one_big_mutex]. destruct bufs as [|b bufs].
    + cbn. apply wp_bind. eapply unlock_spec; [done|]. intros s3 Hr3 Hf3. apply wp_ret, Hend; auto.
    + rewrite (proj2 (Z.eqb_neq _ 0)) by (cbn [length]; lia). eapply pop_locked_spec; [done|]. intros s3 Hr3 Hf3.
      eapply Hsome; [done|done|by eexists _, _, _|by eapply frame_trans].
  - apply wp_bind. eapply unlock_spec; [done|]. intros s3 Hr3 Hf3. apply wp_ret, Hend; auto.
Qed.

(** ** Messages *)

Lemma at_rest_ext s s' g bufs : at_rest s g bufs -> owned_ok obj_size s' ->
  (forall x, x = gh g \/ x = gq g \/ x = gd g \/ x = gm g -> o_objs s' !! x = o_objs s !! x) -> at_rest s' g bufs.
Proof.
  intros (out & fw & ew & [H1 H2 H3 (arr & H4 & H4') H5 H6]) Ho Hx. exists out, fw, ew. constructor; [done|rewrite Hx by auto; done..| |rewrite Hx by auto; done|done].
  exists arr. rewrite Hx by auto. done.
Qed.

(** The object at [b] is a message, so it is none of the queue's own. *)
Lemma not_queue_obj s g bufs b d : at_rest s g bufs -> o_objs s !! b = Some (OMsg d) -> b <> gh g /\ b <> gq g /\ b <> gd g /\ b <> gm g.
Proof. intros (out & fw & ew & [H1 H2 H3 (arr & H4 & _) H5 H6]) Hb. repeat split; intros ->; congruence. Qed.

Lemma at_rest_bounds s g bufs : at_rest s g bufs -> 0 < gcap g /\ Z.of_nat (length bufs) <= gcap g /\ 0 < gmsz g < 2147483648 /\ gh g <> 0 /\ owned_ok obj_size s.
Proof.
  intros (out & fw & ew & Hr). destruct (qr_bounds _ _ _ _ _ _ _ Hr) as (? & ? & ? & ?). pose proof (owned_positive obj_size _ _ _ (qr_own _ _ _ _ _ _ _ Hr) (qr_tkl _ _ _ _ _ _ _ Hr)).
  pose proof (qr_own _ _ _ _ _ _ _ Hr). repeat split; (lia || done).
Qed.

Lemma wait_ms_zero timeout : 0 <= timeout < 4294967296 -> wait_ms_of timeout = 0 <-> timeout = 0.
Proof.
  intros Ht. unfold wait_ms_of, TKL_QUEUE_WAIT_FROEVER, RPA_WAIT_FOREVER. zcase; [lia|]. unfold swrap. split; [|by intros ->].
  intros E. pose proof (Z.div_mod (timeout + 2 ^ (32 - 1)) (2 ^ 32)). change (2 ^ (32 - 1)) with 2147483648 in *. change (2 ^ 32) with 4294967296 in *. lia.
Qed.

(** Every object of [s] is still there, but for the queue's. *)
Definition keeps (g : geo) (s s' : S_) : Prop := forall x o, o_objs s !! x = Some o -> x <> gq g -> x <> gd g -> x <> gm g -> o_objs s' !! x = Some o.

Lemma post_spec now s g bufs d timeout Q :
  at_rest s g bufs -> gmsz g <= Z.of_nat (length d) -> 0 <= timeout < 4294967296 ->
  let d' := take (Z.to_nat (gmsz g)) d in
  (forall s', at_rest s' g bufs -> keeps g s s' -> Q (Finished OPRT_MALLOC_FAILED) s') ->
  (forall b s', Z.of_nat (length bufs) < gcap g -> b <> 0 -> o_objs s !! b = None -> at_rest s' g (bufs ++ [b]) -> o_objs s' !! b = Some (OMsg d') -> keeps g s s' -> Q (Finished OPRT_OK) s') ->
  (forall s', Z.of_nat (length bufs) = gcap g -> timeout = 0 -> at_rest s' g bufs -> keeps g s s' -> Q (Finished OPRT_OS_ADAPTER_QUEUE_SEND_FAIL) s') ->
  (forall b dl s', Z.of_nat (length bufs) = gcap g -> timeout <> 0 -> b <> 0 -> o_objs s !! b = None -> at_rest s' g bufs -> o_objs s' !! b = Some (OMsg d') -> keeps g s s' -> Q (Blocked b dl) s') ->
  wp (tkl_queue_post 0 now (gh g) (Some d) timeout) Q s.
Proof.
  intros Hs Hd Ht d' Hoom Hok Hfull Hblock. destruct (at_rest_bounds _ _ _ Hs) as (Hc & Hl & Hm & Hh0 & Hown). pose proof (wait_ms_zero timeout Ht) as Hz.
  unfold tkl_queue_post. rewrite (proj2 (Z.eqb_neq (gh g) 0)) by done. apply wp_bind. eapply wp_get_tkl; [destruct Hs as (? & ? & ? & Hr); apply Hr|]. cbn [tq_msgsize tq_queue].
  apply wp_bind. eapply (malloc_obj_spec obj_size); [done|lia| |].
  { intros a Ha. cbn. apply wp_ret, Hoom; [by eapply at_rest_ext|]. intros x o Hx ? ? ?. done. }
  intros b a Hb0 Hb Hnew. rewrite (proj2 (Z.eqb_neq b 0)), (proj2 (Z.ltb_ge _ (gmsz g))) by (done || lia). cbn [o_objs].
  assert (length d' = Z.to_nat (gmsz g)) as El by (unfold d'; rewrite length_take; lia).
  specialize (Hnew (OMsg d') ltac:(cbn; lia)). apply wp_bind. unfold init_obj, wp at 1. cbn [o_objs o_alloc]. fold d'. set (s1 := Own a (<[b := OMsg d']> (o_objs s))).
  assert (at_rest s1 g bufs) as Hs1.
  { eapply at_rest_ext; [exact Hs|done|]. intros x Hx. subst s1. cbn. apply lookup_insert_ne. intros <-. destruct Hs as (? & ? & ? & [? ? ? (? & ? & _) ? ?]). naive_solver congruence. }
  assert (o_objs s1 !! b = Some (OMsg d')) as Hb1 by (apply lookup_insert_eq). destruct (not_queue_obj _ _ _ _ _ Hs1 Hb1) as (? & ? & ? & ?).
  assert (forall s', frame g s1 s' -> o_objs s' !! b = Some (OMsg d') /\ keeps g s s') as Hfr.
  { intros s' Hf. split; [by rewrite Hf|]. intros x o Hx ? ? ?. rewrite Hf by done. subst s1. cbn. rewrite lookup_insert_ne; [done|]. congruence. }
  apply wp_bind. eapply timedpush_spec; [exact Hs1|..].
  - intros Hlt s' Hs' [Hbs Hk]%Hfr. apply wp_ret. by eapply Hok.
  - intros Hf Hw s' Hs' [Hbs Hk]%Hfr. apply wp_ret. apply Hfull; [done|by apply Hz|done|done].
  - intros Hf Hw s' dl Hs' [Hbs Hk]%Hfr. apply wp_ret. eapply Hblock; try done. by rewrite <-Hz.
Qed.

Lemma fetch_result_spec s s1 g bufs b d Q : at_rest s1 g bufs -> frame g s s1 -> b <> 0 -> o_objs s1 !! b = Some (OMsg d) -> Z.of_nat (length d) = gmsz g ->
  (forall s', at_rest s' g bufs -> (forall x o, o_objs s !! x = Some o -> x <> b -> x <> gq g -> x <> gd g -> x <> gm g -> o_objs s' !! x = Some o) -> Q (OPRT_OK, Some d) s') ->
  wp (fetch_result (gmsz g) (true, b)) Q s1.
Proof.
  intros Hs1 Hf Hb0 Hb Hd HQ. unfold fetch_result. cbn [fst snd negb]. rewrite (proj2 (Z.eqb_neq b 0)) by done. cbn [negb].
  apply wp_bind. unfold get_msg. apply wp_bind. eapply wp_get_obj; [done|]. apply wp_ret. rewrite (proj2 (Z.ltb_ge _ (gmsz g))) by lia.
  destruct (at_rest_bounds _ _ _ Hs1) as (_ & _ & _ & _ & Hown). destruct (not_queue_obj _ _ _ _ _ Hs1 Hb) as (? & ? & ? & ?).
  apply wp_bind. unfold free_obj. eapply wp_mono; [by eapply (free_obj_spec obj_size)|]. intros [] s' [Hown' E]. apply wp_ret.
  rewrite take_ge by lia. apply HQ.
  - eapply at_rest_ext; [exact Hs1|done|]. intros x Hx. rewrite E, lookup_delete_ne; [done|]. naive_solver.
  - intros x o Hx ? ? ? ?. rewrite E, lookup_delete_ne, Hf; done.
Qed.

(** ** Threads *)

Record sys := Sys { sy_own : S_; sy_wait : gmap nat Z }.

Definition on_sys {R} (c : M S_ R) : M sys R := fun s =>
  match c (sy_own s) with Ret r o => Ret r (Sys o (sy_wait s)) | Fault => Fault | Diverge => Diverge end.

(** A thread posts, fetches, or is woken from a wait that returned [rv]. *)
Inductive qev :=
| EPost (t : nat) (d : list Z) (timeout : Z) (now : Z * Z)
| EFetch (t : nat) (timeout : Z) (now : Z * Z)
| EWake (t : nat) (rv : Z).

(** What the thread sees; a suspended thread does nothing but wake. *)
Inductive qres := RDone (r : OPERATE_RET) (m : option (list Z)) | RBlocked | RIgnored.

Definition suspend (t : nat) (b : Z) : M sys qres := modify (fun s => Sys (sy_own s) (<[t := b]> (sy_wait s))) ;;; ret RBlocked.

Definition exec_ev (h : Z) (e : qev) : M sys qres :=
  w <- gets sy_wait ;;
  match e with
  | EPost t d timeout now =>
    match w !! t with
    | Some _ => ret RIgnored
    | None =>
      r <- on_sys (tkl_queue_post 0 now h (Some d) timeout) ;;
      match r with Finished r => ret (RDone r None) | Blocked b _ => suspend t b end
    end
  | EFetch t timeout now =>
    match w !! t with
    | Some _ => ret RIgnored
    | None =>
      r <- on_sys (tkl_queue_fetch 0 now h timeout) ;;
      match r with Finished r => ret (RDone (fst r) (snd r)) | Blocked b _ => suspend t b end
    end
  | EWake t rv =>
    match w !! t with
    | None => ret RIgnored
    | Some b =>
      modify (fun s => Sys (sy_own s) (delete t (sy_wait s))) ;;;
      if b =? 0 then r <- on_sys (tkl_queue_fetch_resume 0 h rv) ;; ret (RDone (fst r) (snd r))
      else r <- on_sys (tkl_queue_post_resume 0 h b rv) ;; ret (RDone r None)
    end
  end.

Fixpoint exec_evs (h : Z) (es : list qev) : M sys (list qres) :=
  match es with
  | [] => ret []
  | e :: es => r <- exec_ev h e ;; rs <- exec_evs h es ;; ret (r :: rs)
  end.

(** ** The channel *)

(** The messages in transit, the suspended threads (a writer with its message, a
    reader), and everything sent and received so far. *)
Record chan := Chan { c_items : list (list Z); c_wait : gmap nat (option (list Z)); c_sent : list (list Z); c_recv : list (list Z) }.

Definition c_send (d : list Z) (c : chan) : chan := Chan (c_items c ++ [d]) (c_wait c) (c_sent c ++ [d]) (c_recv c).
Definition c_take (d : list Z) (l : list (list Z)) (c : chan) : chan := Chan l (c_wait c) (c_sent c) (c_recv c ++ [d]).
Definition c_suspend (t : nat) (w : option (list Z)) (c : chan) : chan := Chan (c_items c) (<[t := w]> (c_wait c)) (c_sent c) (c_recv c).
Definition c_resume (t : nat) (c : chan) : chan := Chan (c_items c) (delete t (c_wait c)) (c_sent c) (c_recv c).
Definition c_full (cap : Z) (c : chan) : Prop := Z.of_nat (length (c_items c)) = cap.

Inductive cstep (cap msz : Z) (c : chan) : qev -> qres -> chan -> Prop :=
| CPost t d timeout now : c_wait c !! t = None -> ~ c_full cap c ->
    cstep cap msz c (EPost t d timeout now) (RDone OPRT_OK None) (c_send (take (Z.to_nat msz) d) c)
| CPostOom t d timeout now : c_wait c !! t = None -> cstep cap msz c (EPost t d timeout now) (RDone OPRT_MALLOC_FAILED None) c
| CPostFull t d now : c_wait c !! t = None -> c_full cap c -> cstep cap msz c (EPost t d 0 now) (RDone OPRT_OS_ADAPTER_QUEUE_SEND_FAIL None) c
| CPostWait t d timeout now : c_wait c !! t = None -> c_full cap c -> timeout <> 0 ->
    cstep cap msz c (EPost t d timeout now) RBlocked (c_suspend t (Some (take (Z.to_nat msz) d)) c)
| CFetch t timeout now d l : c_wait c !! t = None -> c_items c = d :: l -> cstep cap msz c (EFetch t timeout now) (RDone OPRT_OK (Some d)) (c_take d l c)
| CFetchEmpty t now : c_wait c !! t = None -> c_items c = [] -> cstep cap msz c (EFetch t 0 now) (RDone OPRT_OS_ADAPTER_QUEUE_RECV_FAIL None) c
| CFetchWait t timeout now : c_wait c !! t = None -> c_items c = [] -> timeout <> 0 -> cstep cap msz c (EFetch t timeout now) RBlocked (c_suspend t None c)
| CWakePost t d : c_wait c !! t = Some (Some d) -> ~ c_full cap c -> cstep cap msz c (EWake t 0) (RDone OPRT_OK None) (c_send d (c_resume t c))
| CWakePostFail t d rv : c_wait c !! t = Some (Some d) -> rv <> 0 \/ c_full cap c ->
    cstep cap msz c (EWake t rv) (RDone OPRT_OS_ADAPTER_QUEUE_SEND_FAIL None) (c_resume t c)
| CWakeFetch t d l : c_wait c !! t = Some None -> c_items c = d :: l -> cstep cap msz c (EWake t 0) (RDone OPRT_OK (Some d)) (c_take d l (c_resume t c))
| CWakeFetchFail t rv : c_wait c !! t = Some None -> rv <> 0 \/ c_items c = [] ->
    cstep cap msz c (EWake t rv) (RDone OPRT_OS_ADAPTER_QUEUE_RECV_FAIL None) (c_resume t c)
| CIgnored e : (match e with EPost t _ _ _ | EFetch t _ _ => is_Some (c_wait c !! t) | EWake t _ => c_wait c !! t = None end) -> cstep cap msz c e RIgnored c.

Fixpoint csteps (cap msz : Z) (c : chan) (es : list qev) (rs : list qres) (c'' : chan) : Prop :=
  match es, rs with
  | [], [] => c'' = c
  | e :: es, r :: rs => exists c', cstep cap msz c e r c' /\ csteps cap msz c' es rs c''
  | _, _ => False
  end.

(** First in, first out: what was received is the start of what was sent, and the
    rest is in transit. *)
Definition fifo (c : chan) : Prop := c_sent c = c_recv c ++ c_items c.

Lemma cstep_fifo cap msz c e r c' : cstep cap msz c e r c' -> fifo c -> fifo c'.
Proof.
  intros Hs Hf. unfold fifo in *. destruct Hs; cbn; try done; rewrite ?Hf; try (match goal with H : c_items c = _ |- _ => rewrite H end); by rewrite <-(assoc_L (++)).
Qed.

(** ** The representation *)

Definition is_msg (g : geo) (s : S_) (b : Z) (d : list Z) : Prop := o_objs s !! b = Some (OMsg d) /\ Z.of_nat (length d) = gmsz g /\ b <> 0.

(** A suspended thread: a reader, or a writer whose message is not in the queue. *)
Definition wait_rel (g : geo) (s : S_) (bufs : list Z) (w : option Z) (a : option (option (list Z))) : Prop :=
  match w, a with
  | None, None => True
  | Some b, Some None => b = 0
  | Some b, Some (Some d) => is_msg g s b d /\ b ∉ bufs
  | _, _ => False
  end.

(** The queue holds the messages [c_items c], in the buffers [bufs]. *)
Record sys_rep (g : geo) (s : sys) (c : chan) (bufs : list Z) : Prop := {
  sr_rest : at_rest (sy_own s) g bufs;
  sr_items : Forall2 (is_msg g (sy_own s)) bufs (c_items c);
  sr_nodup : NoDup bufs;
  sr_wait t : wait_rel g (sy_own s) bufs (sy_wait s !! t) (c_wait c !! t);
  sr_inj t t' b : sy_wait s !! t = Some b -> sy_wait s !! t' = Some b -> b <> 0 -> t = t'
}.

Lemma is_msg_keep g s s' bufs b d : at_rest s g bufs -> keeps g s s' -> is_msg g s b d -> is_msg g s' b d.
Proof. intros Hs Hk (Hb & ? & ?). destruct (not_queue_obj _ _ _ _ _ Hs Hb) as (? & ? & ? & ?). split; [by apply Hk|done]. Qed.

Lemma wait_rel_keep g s s' bufs w a : at_rest s g bufs -> keeps g s s' -> wait_rel g s bufs w a -> wait_rel g s' bufs w a.
Proof. intros Hs Hk. destruct w as [b|], a as [[d|]|]; cbn; try done. intros [Hm ?]. split; [|done]. by eapply is_msg_keep. Qed.

Lemma frame_keeps g s s' : frame g s s' -> keeps g s s'.
Proof. intros Hf x o Hx ? ? ?. by rewrite Hf. Qed.

Lemma wp_on_sys {R} (c : M S_ R) Q s : wp c (fun r o => Q r (Sys o (sy_wait s))) (sy_own s) -> wp (on_sys c) Q s.
Proof. unfold wp, on_sys. by destruct (c (sy_own s)). Qed.

(** The queue changed but for its content: the representation carries over. *)
Lemma rep_same g s c bufs s' : sys_rep g s c bufs -> at_rest s' g bufs -> keeps g (sy_own s) s' -> sys_rep g (Sys s' (sy_wait s)) c bufs.
Proof.
  intros [Hr Hi Hn Hw Hj] Hr' Hk. constructor; cbn [sy_own sy_wait]; try done.
  - eapply Forall2_impl; [done|]. intros b d. by apply (is_msg_keep _ _ _ _ _ _ Hr).
  - intros t. by apply (wait_rel_keep _ _ _ _ _ _ Hr).
Qed.

(** A message [b] came in at the end, from a thread that is not suspended. *)
Lemma rep_send g (s : sys) c s' bufs b d : sys_rep g s c bufs ->
  at_rest s' g (bufs ++ [b]) -> keeps g (sy_own s) s' -> is_msg g s' b d -> b ∉ bufs -> (forall t, sy_wait s !! t <> Some b) ->
  sys_rep g (Sys s' (sy_wait s)) (c_send d c) (bufs ++ [b]).
Proof.
  intros [Hr Hi Hn Hw Hj] Hr' Hk Hb Hbn Hbw. constructor; cbn [sy_own sy_wait c_send c_items c_wait]; try done.
  - apply Forall2_app; [eapply Forall2_impl; [done|]; intros x y; by apply (is_msg_keep _ _ _ _ _ _ Hr)|]. by constructor.
  - apply NoDup_app. split; [done|]. split; [|apply NoDup_singleton]. intros x Hx ->%list_elem_of_singleton. done.
  - intros t. specialize (Hw t). pose proof (wait_rel_keep _ _ _ _ _ _ Hr Hk Hw) as Hw'. specialize (Hbw t). unfold wait_rel in *.
    destruct (sy_wait s !! t) as [x|], (c_wait c !! t) as [[y|]|]; try done. destruct Hw' as [? ?]. split; [done|].
    rewrite elem_of_app, list_elem_of_singleton. intros [?| ->]; done.
Qed.

(** The first message [b] went out and was released. *)
Lemma rep_take g (s : sys) c s' b bufs d l : sys_rep g s c (b :: bufs) -> c_items c = d :: l -> at_rest s' g bufs ->
  (forall x o, o_objs (sy_own s) !! x = Some o -> x <> b -> x <> gq g -> x <> gd g -> x <> gm g -> o_objs s' !! x = Some o) ->
  sys_rep g (Sys s' (sy_wait s)) (c_take d l c) bufs.
Proof.
  intros [Hr Hi Hn Hw Hj] Ec Hr' Hk. rewrite Ec in Hi. apply Forall2_cons in Hi as [Hb Hi]. apply NoDup_cons in Hn as [Hbn Hn].
  assert (forall x y, is_msg g (sy_own s) x y -> x <> b -> is_msg g s' x y) as Hmsg.
  { intros x y (Hx & ? & ?) Hne. destruct (not_queue_obj _ _ _ _ _ Hr Hx) as (? & ? & ? & ?). split; [by apply Hk|done]. }
  constructor; cbn [sy_own sy_wait c_take c_items c_wait]; try done.
  - apply Forall2_same_length_lookup_2; [by eapply Forall2_length|]. intros i x y Hx Hy. apply Hmsg; [by eapply Forall2_lookup_lr|].
    intros ->. by apply Hbn, list_elem_of_lookup; exists i.
  - intros t. specialize (Hw t). unfold wait_rel in *. destruct (sy_wait s !! t) as [x|], (c_wait c !! t) as [[y|]|]; try done.
    destruct Hw as [? [? ?]%not_elem_of_cons]. split; [by apply Hmsg|done].
Qed.

(** A thread is suspended. *)
Lemma rep_suspend g s c bufs t b w : sys_rep g s c bufs ->
  (match w with None => b = 0 | Some d => is_msg g (sy_own s) b d /\ b ∉ bufs /\ forall t', sy_wait s !! t' <> Some b end) ->
  sys_rep g (Sys (sy_own s) (<[t := b]> (sy_wait s))) (c_suspend t w c) bufs.
Proof.
  intros [Hr Hi Hn Hw Hj] Hb. constructor; cbn [sy_own sy_wait c_suspend c_items c_wait]; try done.
  - intros t'. destruct (decide (t = t')) as [<-|]; [|by rewrite !lookup_insert_ne]. rewrite !lookup_insert_eq. destruct w as [d|]; [|done].
    destruct Hb as (? & ? & _). done.
  - assert (forall t', b <> 0 -> sy_wait s !! t' <> Some b) as Hb' by (destruct w; [intros; by apply Hb|done]).
    intros t1 t2 x. rewrite !lookup_insert_Some. intros [[<- <-]|[? H1]] [[E E']|[? H2]] Hx; subst; try done; [by apply Hb' in H2|by apply Hb' in H1|by eapply Hj].
Qed.

Lemma rep_resume g s c bufs t : sys_rep g s c bufs -> sys_rep g (Sys (sy_own s) (delete t (sy_wait s))) (c_resume t c) bufs.
Proof.
  intros [Hr Hi Hn Hw Hj]. constructor; cbn [sy_own sy_wait c_resume c_items c_wait]; try done.
  - intros t'. destruct (decide (t = t')) as [<-|]; [by rewrite !lookup_delete_eq|]. by rewrite !lookup_delete_ne.
  - intros t1 t2 x. rewrite !lookup_delete_Some. intros [_ H1] [_ H2]. by eapply Hj.
Qed.

(** A fresh pointer is neither queued nor held by a suspended thread. *)
Lemma rep_fresh g s c bufs b : sys_rep g s c bufs -> b <> 0 -> o_objs (sy_own s) !! b = None -> b ∉ bufs /\ forall t, sy_wait s !! t <> Some b.
Proof.
  intros [Hr Hi Hn Hw Hj] Hb0 Hb. split.
  - intros [i Hx]%list_elem_of_lookup. destruct (Forall2_lookup_l _ _ _ _ _ Hi Hx) as (d & _ & Hm & _). congruence.
  - intros t E. specialize (Hw t). rewrite E in Hw. destruct (c_wait c !! t) as [[d|]|]; cbn in Hw; try done. destruct Hw as [[? _] _]. congruence.
Qed.

(** What the caller of an event must respect: the message has the size of the
    queue, the timeout fits its type. *)
Definition ev_ok (g : geo) (e : qev) : Prop :=
  match e with
  | EPost _ d timeout _ => gmsz g <= Z.of_nat (length d) /\ 0 <= timeout < 4294967296
  | EFetch _ timeout _ => 0 <= timeout < 4294967296
  | EWake _ _ => True
  end.

Definition step_ok (g : geo) (c : chan) (e : qev) (r : qres) (s' : sys) : Prop :=
  exists c' bufs', cstep (gcap g) (gmsz g) c e r c' /\ sys_rep g s' c' bufs'.

Lemma wait_none g s c bufs t : sys_rep g s c bufs -> sy_wait s !! t = None -> c_wait c !! t = None.
Proof. intros Hs E. pose proof (sr_wait _ _ _ _ Hs t) as Hw. rewrite E in Hw. by destruct (c_wait c !! t) as [[]|]. Qed.
Lemma wait_some g s c bufs t b : sys_rep g s c bufs -> sy_wait s !! t = Some b -> is_Some (c_wait c !! t).
Proof. intros Hs E. pose proof (sr_wait _ _ _ _ Hs t) as Hw. rewrite E in Hw. destruct (c_wait c !! t) as [[]|]; done || by eexists. Qed.
Lemma full_items g s c bufs : sys_rep g s c bufs -> c_full (gcap g) c <-> Z.of_nat (length bufs) = gcap g.
Proof. intros Hs. unfold c_full. by rewrite (Forall2_length _ _ _ (sr_items _ _ _ _ Hs)). Qed.

(** Each kind of event is a step of the channel. *)
Lemma post_step g s c bufs t d timeout now : sys_rep g s c bufs -> ev_ok g (EPost t d timeout now) ->
  wp (exec_ev (gh g) (EPost t d timeout now)) (step_ok g c (EPost t d timeout now)) s.
Proof.
  intros Hs [Hd Ht]. unfold exec_ev. apply wp_bind, wp_gets. destruct (sy_wait s !! t) as [b|] eqn:E.
  { apply wp_ret. exists c, bufs. split; [|done]. constructor. by eapply wait_some. }
  pose proof (wait_none _ _ _ _ _ Hs E) as Ec. pose proof (full_items _ _ _ _ Hs) as Hfull.
  destruct (at_rest_bounds _ _ _ (sr_rest _ _ _ _ Hs)) as (_ & _ & Hm & _).
  set (d' := take (Z.to_nat (gmsz g)) d). assert (Z.of_nat (length d') = gmsz g) as Hl by (unfold d'; rewrite length_take; lia).
  apply wp_bind, wp_on_sys. eapply post_spec; [apply Hs|done|done|..].
  - intros s' Hr Hk. apply wp_ret. exists c, bufs. split; [by constructor|]. by apply rep_same.
  - intros b s' Hlt Hb0 Hb Hr Hbs Hk. apply wp_ret. destruct (rep_fresh _ _ _ _ _ Hs Hb0 Hb) as [? ?]. eexists _, _. split; [constructor; [done|]; rewrite Hfull; lia|].
    by eapply rep_send.
  - intros s' Hf -> Hr Hk. apply wp_ret. exists c, bufs. split; [constructor; [done|by apply Hfull]|]. by apply rep_same.
  - intros b dl s' Hf Hto Hb0 Hb Hr Hbs Hk. destruct (rep_fresh _ _ _ _ _ Hs Hb0 Hb) as [? ?]. unfold suspend. apply wp_bind, wp_modify, wp_ret.
    eexists _, bufs. split; [apply CPostWait; [done|by apply Hfull|done]|]. cbn [sy_own sy_wait].
    exact (rep_suspend g (Sys s' (sy_wait s)) c bufs t b (Some d') (rep_same _ _ _ _ _ Hs Hr Hk) (conj (conj Hbs (conj Hl Hb0)) (conj H H0))).
Qed.

(** Taking the first message, from a fetch or after a wait. *)
Lemma take_step g s c b bufs s1 Q : sys_rep g s c (b :: bufs) -> at_rest s1 g bufs -> frame g (sy_own s) s1 ->
  (forall d l s', c_items c = d :: l -> sys_rep g (Sys s' (sy_wait s)) (c_take d l c) bufs -> Q (OPRT_OK, Some d) s') ->
  wp (fetch_result (gmsz g) (true, b)) Q s1.
Proof.
  intros Hs Hr Hf HQ. pose proof (sr_items _ _ _ _ Hs) as Hi. destruct (c_items c) as [|d l] eqn:Ec; [by apply Forall2_nil_inv_r in Hi|].
  apply Forall2_cons in Hi as [(Hb & Hl & Hb0) _]. destruct (not_queue_obj _ _ _ _ _ (sr_rest _ _ _ _ Hs) Hb) as (? & ? & ? & ?).
  eapply fetch_result_spec; [done|done|done|by rewrite Hf|done|]. intros s' Hr' Hk. eapply HQ; [done|]. by eapply rep_take.
Qed.

Lemma fetch_step g s c bufs t timeout now : sys_rep g s c bufs -> ev_ok g (EFetch t timeout now) ->
  wp (exec_ev (gh g) (EFetch t timeout now)) (step_ok g c (EFetch t timeout now)) s.
Proof.
  intros Hs Ht. unfold exec_ev. apply wp_bind, wp_gets. destruct (sy_wait s !! t) as [b|] eqn:E.
  { apply wp_ret. exists c, bufs. split; [|done]. constructor. by eapply wait_some. }
  pose proof (wait_none _ _ _ _ _ Hs E) as Ec. pose proof (sr_rest _ _ _ _ Hs) as Hr. pose proof (wait_ms_zero timeout Ht) as Hz.
  destruct (at_rest_bounds _ _ _ Hr) as (_ & _ & _ & Hh0 & _). pose proof (sr_items _ _ _ _ Hs) as Hi.
  apply wp_bind, wp_on_sys. unfold tkl_queue_fetch. rewrite (proj2 (Z.eqb_neq (gh g) 0)) by done. apply wp_bind.
  eapply wp_get_tkl; [destruct Hr as (? & ? & ? & Hr); apply Hr|]. cbn [tq_msgsize tq_queue]. apply wp_bind. eapply timedpop_spec; [exact Hr|..].
  - intros b bufs' s1 -> Hr1 Hf. apply wp_bind. eapply take_step; [done..|]. intros d l s' Ei Hs'. do 2 apply wp_ret. eexists _, _. split; [by econstructor|done].
  - intros -> Hw s' Hr' Hf. apply Forall2_nil_inv_l in Hi. cbn. do 3 apply wp_ret. exists c, []. apply Hz in Hw as ->. split; [by constructor|].
    apply rep_same; [done..|by apply frame_keeps].
  - intros -> Hw s' dl Hr' Hf. apply Forall2_nil_inv_l in Hi. apply wp_ret. unfold suspend. apply wp_bind, wp_modify, wp_ret.
    eexists _, []. rewrite Hz in Hw. split; [by apply CFetchWait|]. cbn [sy_own sy_wait].
    apply (rep_suspend g (Sys s' (sy_wait s)) c [] t 0 None); [|done]. apply rep_same; [done..|by apply frame_keeps].
Qed.

Lemma wake_step g s c bufs t rv : sys_rep g s c bufs -> wp (exec_ev (gh g) (EWake t rv)) (step_ok g c (EWake t rv)) s.
Proof.
  intros Hs. unfold exec_ev. apply wp_bind, wp_gets. destruct (sy_wait s !! t) as [b|] eqn:E.
  2: { apply wp_ret. exists c, bufs. split; [|done]. constructor. by eapply wait_none. }
  pose proof (sr_wait _ _ _ _ Hs t) as Hw. rewrite E in Hw. pose proof (rep_resume _ _ _ _ t Hs) as Hs1. pose proof (full_items _ _ _ _ Hs) as Hfull.
  pose proof (sr_rest _ _ _ _ Hs) as Hr. pose proof (sr_items _ _ _ _ Hs) as Hi. apply wp_bind, wp_modify.
  destruct (c_wait c !! t) as [[d|]|] eqn:Ec; cbn in Hw; [| |done].
  - destruct Hw as [Hm Hnb]. pose proof Hm as (Hb & _ & Hb0). rewrite (proj2 (Z.eqb_neq b 0)) by done. apply wp_bind, wp_on_sys.
    unfold tkl_queue_post_resume. apply wp_bind. cbn [sy_own sy_wait]. eapply wp_get_tkl; [destruct Hr as (? & ? & ? & Hr); apply Hr|].
    cbn [tq_msgsize tq_queue]. apply wp_bind. eapply push_resume_spec; [exact Hr|..].
    + intros -> Hlt s' Hr' Hf. do 2 apply wp_ret. eexists _, _. split; [by eapply CWakePost; [|rewrite Hfull; lia]|].
      refine (rep_send g (Sys (sy_own s) (delete t (sy_wait s))) (c_resume t c) s' bufs b d Hs1 Hr' (frame_keeps _ _ _ Hf) (is_msg_keep _ _ _ _ _ _ Hr (frame_keeps _ _ _ Hf) Hm) Hnb _).
      intros t'. cbn [sy_wait]. intros [Hne E']%lookup_delete_Some. by apply Hne, (sr_inj _ _ _ _ Hs t t' b).
    + intros Hc s' Hr' Hf. do 2 apply wp_ret. eexists _, bufs. split; [eapply CWakePostFail; [done|by rewrite Hfull]|].
      exact (rep_same g (Sys (sy_own s) (delete t (sy_wait s))) (c_resume t c) bufs s' Hs1 Hr' (frame_keeps _ _ _ Hf)).
  - subst b. cbn [Z.eqb]. apply wp_bind, wp_on_sys. unfold tkl_queue_fetch_resume. apply wp_bind. cbn [sy_own sy_wait].
    eapply wp_get_tkl; [destruct Hr as (? & ? & ? & Hr); apply Hr|]. cbn [tq_msgsize tq_queue]. apply wp_bind. eapply pop_resume_spec; [exact Hr|..].
    + intros b bufs' s1 -> -> Hr1 Hf. eapply take_step; [exact Hs1|done|done|]. intros d l s' Ei Hs'. apply wp_ret. eexists _, _. split; [by eapply CWakeFetch|done].
    + intros Hc s' Hr' Hf. cbn. do 2 apply wp_ret. eexists _, bufs. split; [eapply CWakeFetchFail; [done|]|].
      * destruct Hc as [?| ->]; [by left|right]. by apply Forall2_nil_inv_l in Hi.
      * exact (rep_same g (Sys (sy_own s) (delete t (sy_wait s))) (c_resume t c) bufs s' Hs1 Hr' (frame_keeps _ _ _ Hf)).
Qed.

Lemma ev_step g s c bufs e : sys_rep g s c bufs -> ev_ok g e -> wp (exec_ev (gh g) e) (step_ok g c e) s.
Proof. intros Hs He. destruct e; [by eapply post_step|by eapply fetch_step|by eapply wake_step]. Qed.

(** ** Creation *)

(** The objects of [s] are still there. *)
Definition extends (s s' : S_) : Prop := forall x o, o_objs s !! x = Some o -> o_objs s' !! x = Some o.

Lemma extends_new (s s' : S_) p a o : extends s s' -> o_objs s' !! p = None -> extends s (Own a (<[p := o]> (o_objs s'))).
Proof. intros He Hp x v Hx. cbn. rewrite lookup_insert_ne; [by apply He|]. intros <-. apply He in Hx. congruence. Qed.
Lemma extends_put (s s' : S_) p o : extends s s' -> o_objs s !! p = None -> extends s (put s' p o).
Proof. intros He Hp x v Hx. cbn. rewrite lookup_insert_ne; [by apply He|]. congruence. Qed.
Lemma extends_none (s s' : S_) p : extends s s' -> o_objs s' !! p = None -> o_objs s !! p = None.
Proof. intros He Hp. destruct (o_objs s !! p) eqn:E; [|done]. apply He in E. congruence. Qed.

(** An allocation that is checked and initialised. *)
Lemma wp_alloc_init {R} (s0 s : S_) n o (F : M S_ R) (K : Z -> M S_ R) Q :
  owned_ok obj_size s -> extends s0 s -> 0 < n < 4294967296 -> obj_size o <= n ->
  (forall s', owned_ok obj_size s' -> extends s0 s' -> wp F Q s') ->
  (forall p s', 0 < p -> o_objs s !! p = None -> o_objs s' = <[p := o]> (o_objs s) -> owned_ok obj_size s' -> extends s0 s' -> wp (K p) Q s') ->
  wp (p <- lift_alloc (al_malloc n) ;; if p =? 0 then F else init_obj p o ;;; K p) Q s.
Proof.
  intros Ho He Hn Hsz HF HK. apply wp_bind. eapply (malloc_obj_spec obj_size); [done|done| |].
  - intros a Ha. cbn. by apply HF.
  - intros p a Hp0 Hp Hnew. rewrite (proj2 (Z.eqb_neq p 0)) by done. apply wp_bind. unfold init_obj, wp at 1. cbn [o_objs o_alloc].
    specialize (Hnew o Hsz). apply HK; [|done|done|done|by apply extends_new]. eapply (owned_positive obj_size); [exact Hnew|]. apply lookup_insert_eq.
Qed.

(** Setting an object that was allocated since [s0]. *)
Lemma wp_put {R} (s0 s : S_) p o o' (K : M S_ R) Q :
  owned_ok obj_size s -> extends s0 s -> o_objs s0 !! p = None -> o_objs s !! p = Some o' -> obj_size o = obj_size o' ->
  (forall s', owned_ok obj_size s' -> extends s0 s' -> o_objs s' = <[p := o]> (o_objs s) -> wp K Q s') ->
  wp (set_obj p o ;;; K) Q s.
Proof.
  intros Ho He Hp0 Hp Hsz HK. apply wp_bind. eapply wp_set_obj; [done|]. apply HK; [by eapply put_own|by apply extends_put|done].
Qed.

Definition init_ok : init_env := mkInit 0 0 0.

(** The ring a successful creation leaves; its array may be missing. *)
Definition new_ring (s : S_) (q cap : Z) : Prop := exists d mx ne nf,
  o_objs s !! q = Some (ORpa (mkRpa d 0 0 0 cap 0 0 mx ne nf 0)) /\ o_objs s !! mx = Some (OMx (mkMutex true 0)) /\
  (d = 0 \/ o_objs s !! d = Some (OData (replicate (Z.to_nat cap) 0))).

Lemma rpa_create_spec (s : S_) cap : owned_ok obj_size s -> 0 < cap < 536870912 ->
  wp (rpa_queue_create init_ok cap) (fun r s' => owned_ok obj_size s' /\ extends s s' /\ (fst r = true -> o_objs s !! snd r = None /\ new_ring s' (snd r) cap)) s.
Proof.
  intros Ho Hc. unfold rpa_queue_create, SIZEOF_RPA_QUEUE_T, SIZEOF_PTHREAD_MUTEX_T, SIZEOF_PTHREAD_COND_T.
  assert (forall q s', owned_ok obj_size s' -> extends s s' -> wp (ret (false, q)) (fun r s' => owned_ok obj_size s' /\ extends s s' /\ (fst r = true -> o_objs s !! snd r = None /\ new_ring s' (snd r) cap)) s') as Hfail by (by intros; apply wp_ret).
  eapply (wp_alloc_init s); [assumption|assumption || by intros ?|lia|by vm_compute|by intros; apply Hfail|]. intros q s1 Hq0 Hq E1 Ho1 He1.
  eapply (wp_alloc_init s); [assumption|assumption || by intros ?|lia|by vm_compute|by intros; apply Hfail|]. intros mx s2 Hm0 Hm E2 Ho2 He2.
  eapply (wp_alloc_init s); [assumption|assumption || by intros ?|lia|by vm_compute|by intros; apply Hfail|]. intros ne s3 Hne0 Hne E3 Ho3 He3.
  eapply (wp_alloc_init s); [assumption|assumption || by intros ?|lia|by vm_compute|by intros; apply Hfail|]. intros nf s4 Hnf0 Hnf E4 Ho4 He4. cbn [init_ok ie_mutex ie_not_empty ie_not_full negb Z.eqb].
  pose proof (extends_none _ _ _ He1 Hm). pose proof (extends_none _ _ _ He2 Hne). pose proof (extends_none _ _ _ He3 Hnf).
  rewrite E1, lookup_insert_None in Hm. rewrite E2, E1, !lookup_insert_None in Hne. rewrite E3, E2, E1, !lookup_insert_None in Hnf.
  destruct Hm as [_ ?], Hne as [[_ ?] ?], Hnf as [[[_ ?] ?] ?].
  eapply (wp_put s); [done|done|done|rewrite E4, E3, E2, !lookup_insert_ne, lookup_insert_eq by congruence; done|done|]. intros s5 Ho5 He5 E5.
  eapply (wp_put s); [done|done|done|rewrite E5, E4, E3, !lookup_insert_ne, lookup_insert_eq by congruence; done|done|]. intros s6 Ho6 He6 E6.
  eapply (wp_put s); [done|done|done|rewrite E6, E5, E4, !lookup_insert_ne, lookup_insert_eq by congruence; done|done|]. intros s7 Ho7 He7 E7.
  assert (o_objs s7 !! q = Some (ORpa (mkRpa 0 0 0 0 0 0 0 0 0 0 0)) /\ o_objs s7 !! mx = Some (OMx (mkMutex true 0))) as [Hq7 Hm7].
  { rewrite E7, E6, E5, E4, E3, E2, E1. split; rewrite !lookup_insert_ne, ?lookup_insert_eq by congruence; done. }
  apply wp_bind. eapply (malloc_obj_spec obj_size); [done|lia| |].
  - intros a Ha. cbn [Z.eqb negb when]. unfold when. apply wp_bind, wp_ret. eapply (wp_put s); [exact Ha|done|done|exact Hq7|done|]. intros s8 Ho8 He8 E8. apply wp_ret.
    cbn. split; [done|split; [done|]]. intros _. split; [done|]. exists 0, mx, ne, nf. rewrite E8. cbn. rewrite lookup_insert_eq, lookup_insert_ne by congruence. auto.
  - intros d a Hd0 Hd Hnew. rewrite (proj2 (Z.eqb_neq d 0)) by done. cbn [negb]. unfold when. apply wp_bind. unfold init_obj, wp at 1. cbn [o_objs o_alloc].
    specialize (Hnew (OData (replicate (Z.to_nat cap) 0)) ltac:(cbn; rewrite length_replicate; lia)).
    eapply (wp_put s); [exact Hnew|by apply extends_new|done|cbn; rewrite lookup_insert_ne by congruence; exact Hq7|done|]. intros s8 Ho8 He8 E8. apply wp_ret.
    cbn. split; [done|split; [done|]]. intros _. split; [done|]. exists d, mx, ne, nf. rewrite E8. cbn.
    rewrite lookup_insert_eq, !lookup_insert_ne, lookup_insert_eq by congruence. auto.
Qed.

(** An empty queue is an empty channel, unless its array is missing. *)
Definition channel_created (s : S_) (h msgsize msgcount : Z) : Prop :=
  (exists g, gh g = h /\ gcap g = msgcount /\ gmsz g = msgsize /\ at_rest s g []) \/
  (exists q x, o_objs s !! h = Some (OTkl (mkTkl q msgsize)) /\ o_objs s !! q = Some (ORpa x) /\ r_data x = 0 /\ r_bounds x = msgcount).

Lemma queue_create_spec s msgsize msgcount : owned_ok obj_size s -> 0 < msgsize < 2147483648 -> 0 < msgcount < 536870912 ->
  wp (tkl_queue_create_init init_ok true msgsize msgcount) (fun r s' =>
    owned_ok obj_size s' /\ extends s s' /\ (fst r = OPRT_OK -> o_objs s !! snd r = None /\ channel_created s' (snd r) msgsize msgcount)) s.
Proof.
  intros Ho Hs Hc. unfold tkl_queue_create_init, SIZEOF_TKL_QUEUE_T. rewrite !(proj2 (Z.eqb_neq _ 0)) by lia. cbn [negb orb].
  eapply (wp_alloc_init s); [assumption|assumption || by intros ?|lia|by vm_compute|by intros; apply wp_ret|]. intros h s1 Hh0 Hh E1 Ho1 He1.
  rewrite u32_small by lia. apply wp_bind. eapply wp_mono; [by apply rpa_create_spec|]. intros [ok q] s2 (Ho2 & He2 & Hnew). cbn [fst snd] in *.
  assert (o_objs s2 !! h = Some (OTkl (mkTkl 0 0))) as Hh2 by (apply He2; rewrite E1; apply lookup_insert_eq).
  assert (extends s s2) as He by (intros x o Hx; by apply He2, He1). destruct ok; cbn [negb].
  - destruct Hnew as (Hq & d & mx & ne & nf & Hr & Hm & Hd); [done|]. eapply (wp_put s); [done|done|done|exact Hh2|done|]. intros s3 Ho3 He3 E3. apply wp_ret.
    split; [done|split; [done|]]. cbn. intros _. split; [done|].
    destruct Hd as [->|Hd]; [right; eexists q, _; rewrite E3, lookup_insert_eq, lookup_insert_ne by congruence; done|left].
    exists (Geo h q d mx ne nf msgcount msgsize). cbn. split_and!; [done..|]. exists 0, 0, 0. constructor; cbn; rewrite ?E3, ?lookup_insert_eq, ?lookup_insert_ne by congruence; try done.
    + exists (replicate (Z.to_nat msgcount) 0). split; [done|]. split; [rewrite length_replicate; lia|cbn; lia].
    + lia.
  - eapply (wp_put s); [done|done|done|exact Hh2|done|]. intros s3 Ho3 He3 E3. by apply wp_ret.
Qed.

(** ** The properties *)

(** C6: whatever the threads do — posts and fetches with any timeouts, and any
    wake-ups of suspended threads, spurious ones and expired timeouts included — the
    queue runs without a fault and behaves as a bounded first-in first-out channel:
    every result is one the channel allows, and the messages received so far
    followed by those in transit are the messages sent, in their order. *)
Theorem tkl_queue_refines_channel g es s c bufs :
  sys_rep g s c bufs -> fifo c -> Forall (ev_ok g) es ->
  wp (exec_evs (gh g) es) (fun rs s' => exists c' bufs', csteps (gcap g) (gmsz g) c es rs c' /\ fifo c' /\ sys_rep g s' c' bufs') s.
Proof.
  revert s c bufs. induction es as [|e es IH]; intros s c bufs Hs Hf He; cbn [exec_evs].
  { apply wp_ret. by exists c, bufs. }
  apply Forall_cons in He as [He Hes]. apply wp_bind. eapply wp_mono; [by eapply ev_step|]. intros r s1 (c1 & bufs1 & Hst & Hs1).
  apply wp_bind. eapply wp_mono; [eapply IH; [done|by eapply cstep_fifo|done]|]. intros rs s2 (c2 & bufs2 & Hst2 & Hf2 & Hs2).
  apply wp_ret. exists c2, bufs2. split; [by exists c1|done].
Qed.

(** Creating a queue keeps every object that exists and, when it reports
    success, gives a new handle of an empty channel of the capacity and message
    size asked for — or, since the allocation of the array is not checked, of a
    ring without an array. *)
Theorem tkl_queue_create_correct s msgsize msgcount :
  owned_ok obj_size s -> 0 < msgsize < 2147483648 -> 0 < msgcount < 536870912 ->
  wp (tkl_queue_create_init init_ok true msgsize msgcount) (fun r s' =>
    owned_ok obj_size s' /\ extends s s' /\ (fst r = OPRT_OK -> o_objs s !! snd r = None /\ channel_created s' (snd r) msgsize msgcount)) s.
Proof. apply queue_create_spec. Qed.
End Channel.

(** ** A queue on the memory heap *)

#[local] Instance demo_allocator : Allocator hstate := heap_allocator 0.
#[local] Opaque demo2.

Definition tq_demo0 : owned hstate tobj := Own demo2 ∅.

Lemma tq_demo0_ok : owned_ok obj_size tq_demo0.
Proof.
  exists ∅. split; [|intros p o; by rewrite lookup_empty].
  exists (heap_at demo2), (layout demo2), ∅. split; [apply demo2_represents|done].
Qed.

Lemma tkl_queue_create_correct_witness :
  wp (tkl_queue_create_init init_ok true 4 2) (fun r s' =>
    owned_ok obj_size s' /\ extends tq_demo0 s' /\ (fst r = OPRT_OK -> o_objs tq_demo0 !! snd r = None /\ channel_created s' (snd r) 4 2)) tq_demo0.
Proof. refine (tkl_queue_create_correct tq_demo0 4 2 tq_demo0_ok _ _); lia. Defined.

(** A queue of two messages of four bytes. *)
Definition tq_created : outcome (owned hstate tobj) (OPERATE_RET * Z) := tkl_queue_create_init init_ok true 4 2 tq_demo0.
Definition tq_demo1 : owned hstate tobj := match tq_created with Ret _ s => s | _ => tq_demo0 end.
Definition tq_ptr : Z := match tq_created with Ret r _ => snd r | _ => 0 end.
(** The pointer to the array of the ring [g]. *)
Definition tq_array (s : owned hstate tobj) (h : Z) : Z :=
  match o_objs s !! h with Some (OTkl x) => match o_objs s !! tq_queue x with Some (ORpa r) => r_data r | _ => 0 end | _ => 0 end.

Lemma tq_demo1_ok : exists g, gh g = tq_ptr /\ gcap g = 2 /\ gmsz g = 4 /\ at_rest tq_demo1 g [].
Proof.
  pose proof (queue_create_spec tq_demo0 4 2 tq_demo0_ok ltac:(lia) ltac:(lia)) as Hw.
  destruct (proj1 (wp_run _ _ _) Hw) as (r & s' & E & _ & _ & Hres). unfold tq_demo1, tq_ptr. change (tq_created = Ret r s') in E.
  assert (match tq_created with Ret r s => (fst r, bool_decide (tq_array s (snd r) = 0)) | _ => (OPRT_COM_ERROR, true) end = (OPRT_OK, false)) as Eok by (by vm_compute).
  rewrite E in Eok |- *. clear E Hw. apply pair_equal_spec in Eok as [Eok Earr]. destruct (Hres Eok) as (_ & [Hg|(q & x & Hh & Hq & Hd & _)]); [done|].
  unfold tq_array in Earr. rewrite Hh in Earr. cbn [tq_queue] in Earr. rewrite Hq, Hd in Earr. done.
Qed.

Definition tq_sys : sys (A:=hstate) := Sys tq_demo1 ∅.
Definition tq_chan : chan := Chan [] ∅ [] [].

Lemma tq_sys_ok g : at_rest tq_demo1 g [] -> sys_rep g tq_sys tq_chan [].
Proof.
  intros Hr. constructor; cbn; [done|constructor|constructor|by intros t; rewrite !lookup_empty|by intros t t' b; rewrite lookup_empty].
Qed.

(** Two writers and a reader on a queue of two messages. *)
Definition tq_events : list qev :=
  [EFetch 3 0 (0, 0); EFetch 3 100 (0, 0); EPost 1 [1; 2; 3; 4] 0 (0, 0); EWake 3 0; EPost 1 [5; 6; 7; 8] 0 (0, 0);
   EPost 2 [9; 9; 9; 9] 0 (0, 0); EPost 1 [0; 0; 0; 0] 0xFFFFFFFF (0, 0); EFetch 3 0 (0, 0); EWake 1 0; EFetch 3 0 (0, 0)].

Lemma tkl_queue_refines_channel_witness : exists g, gh g = tq_ptr /\
  wp (exec_evs (gh g) tq_events) (fun rs s' => exists c' bufs', csteps (gcap g) (gmsz g) tq_chan tq_events rs c' /\ fifo c' /\ sys_rep g s' c' bufs') tq_sys.
Proof.
  destruct tq_demo1_ok as (g & Hg & Hc & Hm & Hr). exists g. split; [exact Hg|].
  refine (tkl_queue_refines_channel g tq_events tq_sys tq_chan [] (tq_sys_ok g Hr) eq_refl _).
  unfold tq_events. repeat (apply Forall_cons_2; [cbn; rewrite ?Hm; lia|]). constructor.
Defined.
