(* ===== verification/SList.v ===== *)
(** * Singly linked lists: [utilities/include/tuya_slist.h]

    The [next] fields of the heads and nodes of all lists live in one map; a null
    pointer is 0.  [slist m h l] says that the chain of the head [h] goes through the
    nodes [l] and ends; the inline functions and the loop macros of the header are
    the list operations on [l], and the loops end. *)

From S2P Require Import Prelude.

Abbreviation slinks := (gmap Z Z).
Local Abbreviation L := (M slinks).

(** ** The operations *)

Definition rd_snext (p : Z) : L Z := fun m => match m !! p with Some n => Ret n m | None => Fault end.
Definition wr_snext (p v : Z) : L unit := fun m => match m !! p with Some _ => Ret tt (<[p := v]> m) | None => Fault end.

(** Enough turns for a chain of distinct nodes. *)
Definition slist_fuel (m : slinks) : nat := S (size m).

Definition INIT_SLIST_HEAD (ptr : Z) : L unit := wr_snext ptr 0.
Definition tuya_init_slist_node (node : Z) : L unit := wr_snext node 0.
Definition tuya_slist_empty (list : Z) : L bool := n <- rd_snext list ;; ret (n =? 0).

(** The nodes [SLIST_FOR_EACH] visits. *)
Fixpoint slist_walk (fuel : nat) (pos : Z) : L (list Z) :=
  match fuel with
  | O => out_of_fuel
  | S fuel' => if pos =? 0 then ret [] else n <- rd_snext pos ;; r <- slist_walk fuel' n ;; ret (pos :: r)
  end.
Definition SLIST_FOR_EACH (list : Z) : L (Datatypes.list Z) :=
  m <- gets id ;; n <- rd_snext list ;; slist_walk (slist_fuel m) n.

Fixpoint slist_del_loop (fuel : nat) (last pos node : Z) : L unit :=
  match fuel with
  | O => out_of_fuel
  | S fuel' =>
    if pos =? 0 then ret tt
    else if negb (pos =? node) then n <- rd_snext pos ;; slist_del_loop fuel' pos n node
    else n <- rd_snext pos ;; wr_snext last n ;;; wr_snext node 0
  end.
Definition tuya_slist_del (list node : Z) : L unit :=
  m <- gets id ;; n <- rd_snext list ;; slist_del_loop (slist_fuel m) list n node.

Definition tuya_slist_add_head (list n : Z) : L unit :=
  x <- rd_snext list ;; wr_snext n x ;;; wr_snext list n.

Fixpoint slist_tail_loop (fuel : nat) (last pos : Z) : L Z :=
  match fuel with
  | O => out_of_fuel
  | S fuel' => if pos =? 0 then ret last else n <- rd_snext pos ;; slist_tail_loop fuel' pos n
  end.
Definition tuya_slist_add_tail (list n : Z) : L unit :=
  m <- gets id ;; x <- rd_snext list ;; last <- slist_tail_loop (slist_fuel m) list x ;; wr_snext last n.

(** ** Chains *)

(** From [a] through [l] to the end. *)
Fixpoint spath (m : slinks) (a : Z) (l : list Z) : Prop :=
  match l with
  | [] => m !! a = Some 0
  | b :: r => m !! a = Some b /\ b <> 0 /\ spath m b r
  end.
Definition slist (m : slinks) (h : Z) (l : list Z) : Prop := NoDup (h :: l) /\ spath m h l.

Definition first (l : list Z) : Z := match l with [] => 0 | b :: _ => b end.

Lemma spath_first m a l : spath m a l -> m !! a = Some (first l).
Proof. by destruct l; [|intros [? _]]. Qed.

Lemma spath_frame m a l x v : x <> a -> x ∉ l -> spath m a l -> spath (<[x := v]> m) a l.
Proof.
  revert a. induction l as [|b l IH]; intros a Ha Hl; cbn; [by rewrite lookup_insert_ne|]. apply not_elem_of_cons in Hl as [Hb Hl].
  intros (E & Hb0 & Hp). rewrite lookup_insert_ne by done. split_and!; [done..|]. by apply IH.
Qed.

Lemma spath_mapped m a l : spath m a l -> forall x, x ∈ l -> x <> 0 /\ is_Some (m !! x).
Proof.
  revert a. induction l as [|b l IH]; intros a Hp x Hx; [by apply not_elem_of_nil in Hx|]. destruct Hp as (_ & Hb & Hp).
  apply elem_of_cons in Hx as [->|Hx]; [|by eapply IH]. split; [done|]. rewrite (spath_first _ _ _ Hp). by eexists.
Qed.

(** Distinct nodes of the map are no more than its entries. *)
Lemma slist_fuel_enough m h l : slist m h l -> (length l < slist_fuel m)%nat.
Proof.
  intros [Hnd Hp]. unfold slist_fuel. assert (length l <= size m)%nat; [|lia]. apply NoDup_cons in Hnd as [_ Hnd].
  rewrite <-(size_dom (D:=gset Z)). rewrite <-(size_list_to_set (C:=gset Z) l) by done. apply subseteq_size. intros x Hx.
  apply elem_of_list_to_set in Hx. apply elem_of_dom. by eapply spath_mapped.
Qed.

Lemma wp_rd_snext p v Q (m : slinks) : m !! p = Some v -> Q v m -> wp (rd_snext p) Q m.
Proof. intros E HQ. unfold wp, rd_snext. by rewrite E. Qed.
Lemma wp_wr_snext p v Q (m : slinks) : is_Some (m !! p) -> Q tt (<[p := v]> m) -> wp (wr_snext p v) Q m.
Proof. intros [w E] HQ. unfold wp, wr_snext. by rewrite E. Qed.

(** ** The loops *)

Lemma last_cons (l : list Z) b a : List.last (b :: l) a = List.last l b.
Proof. revert a b. induction l as [|c l IH]; intros a b; [done|]. change (List.last (c :: l) a = List.last (c :: l) b). by rewrite !IH. Qed.
Lemma last_elem (l : list Z) b : List.last l b ∈ b :: l.
Proof. revert b. induction l as [|c l IH]; intros b; [left|]. rewrite last_cons. right. apply IH. Qed.

Lemma walk_spec l : forall fuel m a Q, spath m a l -> (length l < fuel)%nat -> Q l m -> wp (slist_walk fuel (first l)) Q m.
Proof.
  induction l as [|b l IH]; intros [|fuel] m a Q Hp Hf HQ; cbn [length] in Hf; try lia; cbn [slist_walk first]; [by apply wp_ret|].
  destruct Hp as (_ & Hb & Hp). rewrite (proj2 (Z.eqb_neq b 0)) by done. apply wp_bind. eapply wp_rd_snext; [by apply spath_first|].
  apply wp_bind. eapply IH; [done|lia|]. by apply wp_ret.
Qed.

Lemma tail_loop_spec l : forall fuel m a Q, spath m a l -> (length l < fuel)%nat -> Q (List.last l a) m -> wp (slist_tail_loop fuel a (first l)) Q m.
Proof.
  induction l as [|b l IH]; intros [|fuel] m a Q Hp Hf HQ; cbn [length] in Hf; try lia; cbn [slist_tail_loop first]; [by apply wp_ret|].
  destruct Hp as (_ & Hb & Hp). rewrite (proj2 (Z.eqb_neq b 0)) by done. apply wp_bind. eapply wp_rd_snext; [by apply spath_first|].
  eapply IH; [done|lia|]. by rewrite last_cons in HQ.
Qed.

(** Setting the last link of a path joins another path to it. *)
Lemma spath_join m a l n k : NoDup (a :: l) -> spath m a l -> n <> 0 -> a ∉ n :: k -> (forall x, x ∈ l -> x ∉ n :: k) -> spath m n k ->
  spath (<[List.last l a := n]> m) a (l ++ n :: k).
Proof.
  revert a. induction l as [|b l IH]; intros a Hnd Hp Hn Ha Hdis Hk.
  - cbn. split; [apply lookup_insert_eq|]. split; [done|]. apply not_elem_of_cons in Ha as [? ?]. by apply spath_frame.
  - destruct Hp as (E & Hb & Hp). apply NoDup_cons in Hnd as [Hal Hnd]. rewrite last_cons.
    cbn [app spath]. split_and!; [|done|].
    + rewrite lookup_insert_ne; [done|]. intros Ex. apply Hal. rewrite <-Ex. apply last_elem.
    + apply IH; try done; [apply Hdis; left|]. intros x Hx. apply Hdis. by right.
Qed.

(** Taking a node out of a path. *)
Lemma spath_cut m a l1 x l2 : NoDup (a :: l1 ++ x :: l2) -> spath m a (l1 ++ x :: l2) ->
  spath (<[x := 0]> (<[List.last l1 a := first l2]> m)) a (l1 ++ l2).
Proof.
  revert a. induction l1 as [|b l1 IH]; intros a Hnd Hp.
  - destruct Hp as (_ & Hx & Hp). cbn [app List.last] in *. apply NoDup_cons in Hnd as [Hax Hnd]. apply NoDup_cons in Hnd as [Hxl Hnd]. apply not_elem_of_cons in Hax as [Hne Hal].
    destruct l2 as [|c l2]; cbn; [by rewrite lookup_insert_ne, lookup_insert_eq|]. destruct Hp as (_ & Hc & Hp). apply not_elem_of_cons in Hxl as [? ?]. apply not_elem_of_cons in Hal as [? ?].
    rewrite lookup_insert_ne, lookup_insert_eq by done. split_and!; [done..|]. apply spath_frame, spath_frame; done.
  - destruct Hp as (E & Hb & Hp). cbn [app] in Hnd. apply NoDup_cons in Hnd as [Hal Hnd]. apply not_elem_of_cons in Hal as [Hab Hal]. rewrite last_cons.
    cbn [app spath]. split_and!; [|done|by apply IH]. assert (a <> x) by (intros ->; apply Hal, elem_of_app; right; left).
    assert (List.last l1 b <> a). { intros Ex. pose proof (last_elem l1 b) as Hin. rewrite Ex in Hin. apply elem_of_cons in Hin as [->|Hin]; [done|]. by apply Hal, elem_of_app; left. }
    by rewrite !lookup_insert_ne.
Qed.

Lemma del_loop_absent l : forall fuel m a node Q, spath m a l -> (length l < fuel)%nat -> node ∉ l -> Q tt m -> wp (slist_del_loop fuel a (first l) node) Q m.
Proof.
  induction l as [|b l IH]; intros [|fuel] m a node Q Hp Hf Hn HQ; cbn [length] in Hf; try lia; cbn [slist_del_loop first]; [by apply wp_ret|].
  destruct Hp as (_ & Hb & Hp). apply not_elem_of_cons in Hn as [Hnb Hn]. rewrite (proj2 (Z.eqb_neq b 0)), (proj2 (Z.eqb_neq b node)) by done. cbn [negb].
  apply wp_bind. eapply wp_rd_snext; [by apply spath_first|]. eapply IH; [done|lia|done|done].
Qed.

Lemma del_loop_found l1 x l2 : forall fuel m a Q, NoDup (a :: l1 ++ x :: l2) -> spath m a (l1 ++ x :: l2) -> (length (l1 ++ x :: l2) < fuel)%nat ->
  Q tt (<[x := 0]> (<[List.last l1 a := first l2]> m)) -> wp (slist_del_loop fuel a (first (l1 ++ x :: l2)) x) Q m.
Proof.
  induction l1 as [|b l1 IH]; intros [|fuel] m a Q Hnd Hp Hf HQ; cbn [app length] in Hf; try lia; cbn [slist_del_loop app first].
  - pose proof Hp as (E & Hx & Hp2). rewrite (proj2 (Z.eqb_neq x 0)), Z.eqb_refl by done. cbn [negb]. apply wp_bind. eapply wp_rd_snext; [by apply spath_first|].
    apply wp_bind, wp_wr_snext; [cbn; rewrite E; by eexists|]. apply wp_wr_snext; [|done]. rewrite lookup_insert. case_decide; [by eexists|]. rewrite (spath_first _ _ _ Hp2). by eexists.
  - destruct Hp as (E & Hb & Hp). cbn [app] in Hnd. apply NoDup_cons in Hnd as [_ Hnd]. assert (b <> x) by (apply NoDup_cons in Hnd as [Hn _]; intros ->; apply Hn, elem_of_app; right; left).
    rewrite (proj2 (Z.eqb_neq b 0)), (proj2 (Z.eqb_neq b x)) by done. cbn [negb]. apply wp_bind. eapply wp_rd_snext; [by apply spath_first|].
    eapply IH; [done|done|lia|]. by rewrite last_cons in HQ.
Qed.

(** ** The property *)

(** Only the links of [xs] changed. *)
Definition ssame (m m' : slinks) (xs : list Z) : Prop := forall y, y ∉ xs -> m' !! y = m !! y.

(** On a chain of distinct nodes that ends, the loops of the header end and visit
    its nodes; [tuya_slist_add_head] puts a new node first; [tuya_slist_add_tail]
    puts a node last, together with whatever chain it already heads, since it does
    not clear the node's own link; [tuya_slist_del] takes a node out and clears its
    link, or does nothing when the node is not in the chain.  Only links of the
    chain and of the new node change. *)
Theorem tuya_slist_correct m h l : slist m h l ->
  wp (tuya_slist_empty h) (fun b m' => b = bool_decide (l = []) /\ m' = m) m /\
  wp (SLIST_FOR_EACH h) (fun v m' => v = l /\ m' = m) m /\
  (forall n, n <> 0 -> n ∉ h :: l -> is_Some (m !! n) -> wp (tuya_slist_add_head h n) (fun _ m' => slist m' h (n :: l) /\ ssame m m' [h; n]) m) /\
  (forall n k, n <> 0 -> slist m n k -> (forall x, x ∈ h :: l -> x ∉ n :: k) ->
     wp (tuya_slist_add_tail h n) (fun _ m' => slist m' h (l ++ n :: k) /\ ssame m m' (h :: l)) m) /\
  (forall l1 x l2, l = l1 ++ x :: l2 -> wp (tuya_slist_del h x) (fun _ m' => slist m' h (l1 ++ l2) /\ m' !! x = Some 0 /\ ssame m m' (h :: l)) m) /\
  (forall x, x ∉ l -> wp (tuya_slist_del h x) (fun _ m' => m' = m) m).
Proof.
  intros Hs. pose proof Hs as [Hnd Hp]. pose proof (slist_fuel_enough _ _ _ Hs) as Hf. pose proof (spath_first _ _ _ Hp) as Eh. split_and!.
  - apply wp_bind. eapply wp_rd_snext; [done|]. apply wp_ret. split; [|done]. destruct l as [|b l]; [done|]. destruct Hp as (_ & Hb & _). cbn [first]. by rewrite (proj2 (Z.eqb_neq b 0)).
  - apply wp_bind, wp_gets, wp_bind. eapply wp_rd_snext; [done|]. by eapply walk_spec.
  - intros n Hn Hnl Hmn. apply not_elem_of_cons in Hnl as [Hnh Hnl]. apply wp_bind. eapply wp_rd_snext; [done|]. apply wp_bind, wp_wr_snext; [done|]. apply wp_wr_snext; [rewrite lookup_insert_ne by done; by eexists|].
    split; [split|].
    + apply NoDup_cons in Hnd as [Hhl Hnd]. apply NoDup_cons. split; [by apply not_elem_of_cons|]. by apply NoDup_cons.
    + cbn. rewrite lookup_insert_eq. split_and!; [done..|]. apply NoDup_cons in Hnd as [Hhl Hnd]. destruct l as [|b l]; cbn.
      * by rewrite lookup_insert_ne, lookup_insert_eq.
      * destruct Hp as (_ & Hb & Hp). apply not_elem_of_cons in Hnl as [? ?]. apply not_elem_of_cons in Hhl as [? ?]. rewrite lookup_insert_ne, lookup_insert_eq by done.
        split_and!; [done..|]. apply spath_frame, spath_frame; done.
    + intros y Hy. rewrite !not_elem_of_cons in Hy. rewrite !lookup_insert_ne by naive_solver. done.
  - intros n k Hn [Hndk Hk] Hdis. apply wp_bind, wp_gets, wp_bind. eapply wp_rd_snext; [done|]. apply wp_bind. eapply tail_loop_spec; [done|done|]. pose proof (last_elem l h) as Hin.
    apply wp_wr_snext; [apply elem_of_cons in Hin as [->|Hin]; [by eexists|by destruct (spath_mapped _ _ _ Hp _ Hin)]|]. split; [split|].
    + rewrite app_comm_cons. apply NoDup_app. split_and!; done.
    + apply spath_join; try done; [apply Hdis; left|]. intros x Hx. apply Hdis. by right.
    + intros y Hy. rewrite lookup_insert_ne; [done|]. by intros <-.
  - intros l1 x l2 ->. apply wp_bind, wp_gets, wp_bind. eapply wp_rd_snext; [done|]. eapply del_loop_found; [done..|]. split; [split|split].
    + apply NoDup_cons in Hnd as [Hn Hnd]. apply NoDup_cons. rewrite elem_of_app in *. apply NoDup_app in Hnd as (? & Hdis & [? ?]%NoDup_cons). rewrite elem_of_cons in Hn. split; [naive_solver|].
      apply NoDup_app. split_and!; [done| |done]. intros y Hy Hy2. apply (Hdis y Hy). by right.
    + by apply spath_cut.
    + apply lookup_insert_eq.
    + intros y Hy. pose proof (last_elem l1 h) as Hin. rewrite !lookup_insert_ne; [done|intros <-|intros <-]; apply Hy; [|right; apply elem_of_app; right; left].
      apply elem_of_cons in Hin as [->|Hin]; [left|right; by apply elem_of_app; left].
  - intros x Hx. apply wp_bind, wp_gets, wp_bind. eapply wp_rd_snext; [done|]. by eapply del_loop_absent.
Qed.

(** The list 1, 2 of head 9, and a node 3 apart. *)
Definition slist_demo : slinks := <[9 := 1]> (<[1 := 2]> (<[2 := 0]> (<[3 := 0]> ∅))).

Lemma slist_demo_ok : slist slist_demo 9 [1; 2].
Proof. split; [repeat constructor; set_solver by lia|]. cbn. vm_compute. done. Qed.

Lemma tuya_slist_correct_witness :
  wp (tuya_slist_del 9 1) (fun _ m' => slist m' 9 [2] /\ m' !! 1 = Some 0 /\ ssame slist_demo m' [9; 1; 2]) slist_demo /\
  wp (tuya_slist_add_tail 9 3) (fun _ m' => slist m' 9 [1; 2; 3] /\ ssame slist_demo m' [9; 1; 2]) slist_demo.
Proof.
  destruct (tuya_slist_correct slist_demo 9 [1; 2] slist_demo_ok) as (_ & _ & _ & Htail & Hdel & _). split.
  - exact (Hdel [] 1 [2] eq_refl).
  - refine (Htail 3 [] _ _ _); [lia| |].
    + split; [repeat constructor; set_solver by lia|reflexivity].
    + intros x Hx. set_solver by lia.
Defined.
