(* ===== verification/TklMemory.v ===== *)
(** * The system allocator: [src/tkl_memory.c]

    [tkl_system_malloc] and its companions: one heap of [tuya_mem_heap.c], made on
    the first allocation from a large block of the C library.  The memory of the
    model holds that block from the start, at the address [os_buf] that [malloc]
    returns.  The callbacks of the heap, [__heap_lock], [__heap_unlock] and
    [printf], are events of the heap.  The file ends with the instance of
    [Allocator] the containers are run on: their theorems hold on this allocator
    from the first allocation of a process on. *)

From S2P Require Import Prelude CMem MemHeap MemHeapInv MemHeapAlloc MemHeapFree MemHeapCreate MemHeapFacts MemHeapProps MemHeapStore Alloc.

(** ** State and operations *)

Definition MAX_HEAP_SIZE : Z := 512 * 1024 * 1024.

(** Any non-null function pointers. *)
Definition __heap_lock : Z := 1.
Definition __heap_unlock : Z := 2.
Definition printf : Z := 3.

Record tmem := TMem { tm_heap : hstate; s_heap_handle : option nat }.

Definition on_heap {R} (c : H R) : M tmem R := fun s =>
  match c (tm_heap s) with Ret r h => Ret r (TMem h (s_heap_handle s)) | Fault => Fault | Diverge => Diverge end.

Section Memory.
(** What [malloc(MAX_HEAP_SIZE)] returns. *)
Variable os_buf : Z.

Definition __heap_init : M tmem unit :=
  _ <- on_heap (tuya_mem_heap_init (Some (mkCtx __heap_lock __heap_unlock printf))) ;;
  r <- on_heap (tuya_mem_heap_create os_buf MAX_HEAP_SIZE) ;;
  modify (fun s => TMem (tm_heap s) (snd r)).

Definition tkl_system_malloc (size : Z) : M tmem Z :=
  h <- gets s_heap_handle ;;
  when (bool_decide (h = None)) __heap_init ;;;
  h <- gets s_heap_handle ;;
  on_heap (tuya_mem_heap_malloc h (u32 size)).

Definition tkl_system_free (ptr : Z) : M tmem unit :=
  when (negb (ptr =? 0)) (h <- gets s_heap_handle ;; on_heap (tuya_mem_heap_free h ptr)).

Definition tkl_system_calloc (nitems size : Z) : M tmem Z :=
  h <- gets s_heap_handle ;; on_heap (tuya_mem_heap_calloc h (u32 (u64 (nitems * size)))).

Definition tkl_system_realloc (ptr size : Z) : M tmem Z :=
  h <- gets s_heap_handle ;; on_heap (tuya_mem_heap_realloc h ptr (u32 size)).

Definition tkl_system_get_free_heap_size : M tmem Z :=
  h <- gets s_heap_handle ;; on_heap (tuya_mem_heap_available h).

Definition tkl_system_memset (src ch n : Z) : M tmem Z := on_heap (c_memset src ch n) ;;; ret src.
Definition tkl_system_memcpy (src dst n : Z) : M tmem Z := on_heap (c_memcpy src dst n) ;;; ret src.

Definition tkl_system_psram_malloc (size : Z) : M tmem Z := tkl_system_malloc size.
Definition tkl_system_psram_free (ptr : Z) : M tmem unit := tkl_system_free ptr.
Definition tkl_system_psram_calloc (nitems size : Z) : M tmem Z := tkl_system_calloc nitems size.
Definition tkl_system_psram_realloc (ptr size : Z) : M tmem Z := tkl_system_realloc ptr size.
Definition tkl_system_psram_get_free_heap_size : M tmem Z := tkl_system_get_free_heap_size.

(** ** The first allocation *)

(** A process before its first allocation: no heap is in use, and the C library has
    the memory for one. *)
Record booted (s : tmem) : Prop := {
  bt_handle : s_heap_handle s = None;
  bt_slots : mem_heap_list (tm_heap s) = repeat heap_zero MEM_HEAP_LIST_NUM;
  bt_addr : 0 < os_buf /\ os_buf + MAX_HEAP_SIZE <= 72057594037927936;
  bt_mapped : mapped (hmem (tm_heap s)) os_buf (os_buf + MAX_HEAP_SIZE)
}.

(** The objects [st] of the clients. *)
Definition sys_objects (s : tmem) (st : astore) : Prop :=
  match s_heap_handle s with
  | Some i => exists h bs, represents i (tm_heap s) h bs st
  | None => st = ∅ /\ booted s
  end.

Lemma wp_on_heap {R} (c : H R) Q s : wp c (fun r h => Q r (TMem h (s_heap_handle s))) (tm_heap s) -> wp (on_heap c) Q s.
Proof. unfold wp, on_heap. by destruct (c (tm_heap s)). Qed.

Lemma create_size_max : 0 < os_buf -> os_buf + MAX_HEAP_SIZE <= 72057594037927936 ->
  create_gap os_buf <= MAX_HEAP_SIZE /\ MEM_HEAP_MIN_SIZE <= create_size os_buf MAX_HEAP_SIZE.
Proof.
  intros H0 H1. pose proof (create_gap_range os_buf ltac:(unfold MAX_HEAP_SIZE in *; lia)) as Hg. unfold create_size, MAX_HEAP_SIZE in *.
  split; [lia|]. assert (67108863 <= (536870912 - create_gap os_buf) / 8) by (apply Z.div_le_lower_bound; lia).
  change (512 * 1024 * 1024) with 536870912. change MEM_HEAP_MIN_SIZE with 32. lia.
Qed.

(** The heap is made, empty, in the first slot. *)
Lemma heap_init_spec s Q : booted s ->
  (forall h', (exists h bs, represents 0 h' h bs ∅) -> Q tt (TMem h' (Some 0%nat))) -> wp __heap_init Q s.
Proof.
  intros [Hh Hsl [H0 H1] Hm] HQ. destruct (create_size_max H0 H1) as [Hg Hmin]. unfold __heap_init.
  apply wp_bind, wp_on_heap. unfold tuya_mem_heap_init. cbn [ctx_enter_critical ctx_exit_critical ctx_dbg_output __heap_lock __heap_unlock printf Z.eqb orb].
  apply wp_bind, wp_modify, wp_ret. apply wp_bind, wp_on_heap. cbn [tm_heap s_heap_handle].
  set (s1 := set_ctx (mkCtx __heap_lock __heap_unlock printf) (tm_heap s)). assert (ctx_ready s1) as Hctx by done.
  assert (free_slot s1 = 0%nat) as Hslot by (unfold free_slot, s1; cbn [set_ctx mem_heap_list]; by rewrite Hsl).
  unfold tuya_mem_heap_create. apply wp_bind, wp_dbg; [done|]. apply wp_bind.
  eapply wp_mono; [eapply (MEM_HeapCreate_spec (minsz:=16) (fdog:=loose_dog) (add_event _ s1)); try done|].
  - cbn [add_event s1 set_ctx mem_heap_list]. by rewrite Hsl.
  - change (free_slot (add_event _ s1)) with (free_slot s1). rewrite Hslot. unfold MEM_HEAP_LIST_NUM. lia.
  - intros r s' (-> & s2 & (h & Eh & Eb & Es & Ec & _ & _ & Hok & _) & ->). change (free_slot (add_event _ s1)) with (free_slot s1) in *. rewrite Hslot in *.
    apply wp_ret. apply wp_modify. cbn [tm_heap snd]. apply HQ. eexists h, _. split; [|exact Hok| |].
    + cbn [add_event mem_heap_list]. rewrite Eh. cbn [add_event s1 set_ctx mem_heap_list]. by rewrite Hsl.
    + unfold ctx_ready. cbn [add_event s_heap_ctx]. by rewrite Ec.
    + intros p l. by rewrite lookup_empty.
Qed.

(** ** Clients *)

Definition tkl_exec_op (o : op) : M tmem Z :=
  match o with
  | OpMalloc n => tkl_system_malloc n
  | OpFree p => tkl_system_free p ;;; ret 0
  | OpRead p k => on_heap (rd8 (p + Z.of_nat k))
  | OpWrite p k v => on_heap (wr8 (p + Z.of_nat k) v) ;;; ret 0
  end.

Fixpoint tkl_exec (c : prog) : M tmem Z :=
  match c with
  | Done r => ret r
  | Do o k => r <- tkl_exec_op o ;; tkl_exec (k r)
  end.

Definition sys_step (o : op) (st : astore) (r : Z) (s' : tmem) : Prop := exists st', astep o st r st' /\ sys_objects s' st'.

(** An operation that goes to the heap of the handle. *)
Lemma heap_op_spec s i h bs st o Q : s_heap_handle s = Some i -> represents i (tm_heap s) h bs st -> allowed st o ->
  (forall r s', sys_step o st r s' -> Q r s') -> wp (on_heap (exec_op i o)) Q s.
Proof.
  intros Hi Hrep Hal HQ. apply wp_on_heap. eapply wp_mono; [by eapply exec_op_ok|]. intros r h' (st' & h1 & bs1 & Hst & Hrep'). apply HQ.
  exists st'. split; [done|]. unfold sys_objects. cbn [s_heap_handle tm_heap]. rewrite Hi. by exists h1, bs1.
Qed.

Lemma object_pointer i s h bs st p : represents i s h bs st -> is_Some (st !! p) -> p <> 0.
Proof.
  intros Hrep [l Hl]. pose proof (heap_positive i s ((fun l => Z.of_nat (length l)) <$> st) p) as Hp. rewrite lookup_fmap, Hl in Hp.
  assert (0 < p); [|lia]. apply Hp; [by exists h, bs, st|by eexists].
Qed.

Lemma on_heap_seq {R} (c : H unit) (r : R) s : (on_heap c ;;; ret r) s = on_heap (c ;;; ret r) s.
Proof. unfold on_heap, bind. by destruct (c (tm_heap s)). Qed.

Lemma tkl_op_spec s st o : sys_objects s st -> allowed st o -> wp (tkl_exec_op o) (sys_step o st) s.
Proof.
  intros Hs Hal. unfold sys_objects in Hs. destruct (s_heap_handle s) as [i|] eqn:Hi.
  - destruct Hs as (h & bs & Hrep). pose proof (fun Q => heap_op_spec s i h bs st o Q Hi Hrep Hal) as Hop. destruct o as [n|p|p k|p k v]; cbn [tkl_exec_op exec_op] in *.
    + unfold tkl_system_malloc. apply wp_bind, wp_gets. rewrite Hi. apply wp_bind, wp_ret. apply wp_bind, wp_gets. rewrite Hi. cbn in Hal. rewrite u32_small by lia. by apply Hop.
    + unfold tkl_system_free. destruct (Z.eqb_spec p 0) as [->|Hp]; [by destruct (object_pointer _ _ _ _ _ _ Hrep Hal)|].
      specialize (Hop (sys_step (OpFree p) st)). unfold wp in *. rewrite <-on_heap_seq in Hop. cbn [negb when]. unfold when, bind, gets in *. rewrite Hi. by apply Hop.
    + by apply Hop.
    + unfold wp in *. rewrite on_heap_seq. by apply Hop.
  - destruct Hs as [-> Hb]. destruct o as [n|p|p k|p k v]; cbn in Hal; try (destruct Hal as [? Hal]; try destruct Hal as (? & ? & Hal); by rewrite ?lookup_empty in *).
    + cbn. unfold tkl_system_malloc. apply wp_bind, wp_gets. rewrite Hi, bool_decide_true by done. apply wp_bind. cbn [when]. unfold when.
      eapply heap_init_spec; [done|]. intros h' (h & bs & Hrep). apply wp_bind, wp_gets. cbn [s_heap_handle]. rewrite u32_small by lia.
      by eapply (heap_op_spec (TMem h' (Some 0%nat)) 0 h bs ∅ (OpMalloc n)).
    + destruct Hal as (l & Hl & _). by rewrite lookup_empty in Hl.
Qed.

(** C2: from the first allocation of a process on, every client that follows the
    rules of [malloc] and [free] runs on [tkl_system_malloc] and [tkl_system_free]
    to its end, without a fault, and each run is a run on the abstract store of
    disjoint objects; the heap is made on the way, when it is first needed. *)
Theorem tkl_memory_refines_store c s st :
  sys_objects s st -> well_behaved st c -> wp (tkl_exec c) (fun r s' => exists st', aruns st c r st' /\ sys_objects s' st') s.
Proof.
  revert s st. induction c as [r|o k IH]; intros s st Hs Hwb; cbn [tkl_exec].
  - apply wp_ret. exists st. split; [constructor|done].
  - destruct Hwb as [Hal Hk]. apply wp_bind. eapply wp_mono; [by eapply tkl_op_spec|]. intros r s1 (st1 & Hst & Hs1).
    eapply wp_mono; [eapply IH; eauto|]. intros x s2 (st2 & Hr & Hs2). exists st2. split; [by econstructor|done].
Qed.

(** Only [tkl_system_malloc] makes the heap: in a process that has not called it,
    [tkl_system_calloc] and [tkl_system_realloc] of a null pointer return a null
    pointer for every size and change nothing. *)
Theorem tkl_calloc_before_malloc s : booted s ->
  (forall nitems size, wp (tkl_system_calloc nitems size) (fun p s' => p = 0 /\ s' = s) s) /\
  (forall size, wp (tkl_system_realloc 0 size) (fun p s' => p = 0 /\ s' = s) s).
Proof.
  intros [Hh Hsl _ _]. assert (forall n alloc Q, Q 0 (tm_heap s) -> wp (first_heap MEM_HEAP_LIST_NUM 0 n alloc) Q (tm_heap s)) as Hno.
  { intros n alloc Q HQ. apply wp_bind. eapply wp_get_heap; [by rewrite Hsl|]. by apply wp_ret. }
  assert (TMem (tm_heap s) (s_heap_handle s) = s) as Es by (by destruct s). split.
  - intros nitems size. unfold tkl_system_calloc. apply wp_bind, wp_gets, wp_on_heap. rewrite Hh. unfold tuya_mem_heap_calloc, tuya_mem_heap_malloc.
    apply wp_bind, Hno. apply wp_bind, wp_ret, wp_ret. split; [done|]. by rewrite <-Hh.
  - intros size. unfold tkl_system_realloc. apply wp_bind, wp_gets, wp_on_heap. rewrite Hh. apply Hno. split; [done|]. by rewrite <-Hh.
Qed.

(** ** The allocator of the containers *)

Definition sys_live (s : tmem) (L : gmap Z Z) : Prop := exists st, sys_objects s st /\ L = (fun l => Z.of_nat (length l)) <$> st.

Lemma sys_malloc_ok s L n : sys_live s L -> 0 < n < 4294967296 ->
  wp (tkl_system_malloc n) (fun p s' => (p = 0 /\ sys_live s' L) \/ (p <> 0 /\ L !! p = None /\ sys_live s' (<[p := n]> L))) s.
Proof.
  intros (st & Hs & ->) Hn. eapply wp_mono; [by apply (tkl_op_spec s st (OpMalloc n))|].
  intros p s' (st' & Hst & Hs'). inversion Hst as [|? ? ? l Hp Hp0 Hl| | |]; subst.
  - left. split; [done|]. by exists st'.
  - right. split; [done|]. split; [by rewrite lookup_fmap, Hp|]. exists (<[p := l]> st). split; [done|]. by rewrite fmap_insert.
Qed.

Lemma sys_free_ok s L p : sys_live s L -> is_Some (L !! p) -> wp (tkl_system_free p) (fun _ s' => sys_live s' (delete p L)) s.
Proof.
  intros (st & Hs & ->) Hp. assert (is_Some (st !! p)) as Hst by (rewrite lookup_fmap in Hp; by apply fmap_is_Some in Hp).
  pose proof (tkl_op_spec s st (OpFree p) Hs Hst) as Hw. cbn in Hw. unfold wp, bind in *. destruct (tkl_system_free p s) as [[] s'| |]; try done.
  destruct Hw as (st' & Hstep & Hs'). inversion Hstep; subst. eexists. split; [exact Hs'|]. by rewrite fmap_delete.
Qed.

(** The allocations live in a heap. *)
Lemma sys_live_heap s L p : sys_live s L -> is_Some (L !! p) -> exists i, heap_live i (tm_heap s) L.
Proof.
  intros (st & Hs & ->) Hp. unfold sys_objects in Hs. destruct (s_heap_handle s) as [i|].
  - destruct Hs as (h & bs & Hrep). exists i, h, bs, st. done.
  - destruct Hs as [-> _]. rewrite lookup_fmap, lookup_empty in Hp. by destruct Hp.
Qed.

Lemma sys_disjoint s L p n q k : sys_live s L -> L !! p = Some n -> L !! q = Some k -> p <> q -> p + n <= q \/ q + k <= p.
Proof. intros Hs Hp Hq. destruct (sys_live_heap s L p Hs) as [i Hi]; [by eexists|]. by apply (heap_disjoint i (tm_heap s) L). Qed.

Lemma sys_positive s L p : sys_live s L -> is_Some (L !! p) -> 0 < p.
Proof. intros Hs Hp. destruct (sys_live_heap s L p Hs Hp) as [i Hi]. by apply (heap_positive i (tm_heap s) L). Qed.

Definition sys_allocator : Allocator tmem := {|
  al_malloc := tkl_system_malloc;
  al_free := tkl_system_free;
  al_live := sys_live;
  al_malloc_ok := sys_malloc_ok;
  al_free_ok := sys_free_ok;
  al_disjoint := sys_disjoint;
  al_positive := sys_positive
|}.
End Memory.

(** ** A process *)

Lemma mem_zero_mapped lo n : mapped (mem_zero lo n) lo (lo + Z.of_nat n).
Proof.
  intros x Hx. destruct (mem_zero lo n !! x) eqn:E; [by eexists|]. exfalso. unfold mem_zero in E. apply not_elem_of_list_to_map in E. apply E.
  rewrite list_elem_of_fmap. exists (x, 0). split; [done|]. rewrite list_elem_of_fmap. exists (Z.to_nat (x - lo)).
  split; [f_equal; lia|]. rewrite elem_of_seq. lia.
Qed.

Definition process0 : tmem := TMem (hstate0 4096 (Z.to_nat MAX_HEAP_SIZE)) None.

Lemma process0_booted : booted 4096 process0.
Proof.
  split; [done|done|unfold MAX_HEAP_SIZE; lia|]. unfold process0, hstate0. cbn [tm_heap hmem].
  intros x Hx. apply (mem_zero_mapped 4096 (Z.to_nat MAX_HEAP_SIZE)). rewrite Z2Nat.id by (unfold MAX_HEAP_SIZE; lia). done.
Qed.
#[local] Opaque process0.

Lemma tkl_memory_refines_store_witness :
  wp (tkl_exec 4096 demo_client) (fun r s' => exists st', aruns ∅ demo_client r st' /\ sys_objects 4096 s' st') process0.
Proof.
  refine (tkl_memory_refines_store 4096 demo_client process0 ∅ _ demo_client_ok).
  unfold sys_objects. rewrite (bt_handle 4096 process0 process0_booted). exact (conj eq_refl process0_booted).
Defined.

Lemma tkl_calloc_before_malloc_witness :
  (forall nitems size, wp (tkl_system_calloc nitems size) (fun p s' => p = 0 /\ s' = process0) process0) /\
  (forall size, wp (tkl_system_realloc 0 size) (fun p s' => p = 0 /\ s' = process0) process0).
Proof. exact (tkl_calloc_before_malloc 4096 process0 process0_booted). Defined.
