(* ===== verification/TklSemaphore.v ===== *)
(** * Semaphores: [src/tkl_semaphore.c]

    The adapter over POSIX semaphores.  A semaphore is a counter; a thread that
    finds it at zero is suspended in [sem_wait] or [sem_timedwait], and the call is
    split there: the part up to the suspension, and the part after a wake-up, which
    may be a post, the end of the time or a signal handler.  Every interleaving of
    threads is a sequence of these parts; the file shows that the semaphore is a
    counting semaphore under all of them. *)

From S2P Require Import Prelude MemHeap MemHeapProps MemHeapStore Alloc.

(** ** POSIX semaphores *)

Record sem_t := Sem { sem_value : Z }.

Definition SEM_VALUE_MAX : Z := 2147483647.
Definition SIZEOF_TKL_SEM_MANAGE : Z := 32.
Definition TKL_SEM_WAIT_FOREVER : Z := 0xFFFFffff.
Definition sem_size (o : sem_t) : Z := SIZEOF_TKL_SEM_MANAGE.

(** Why a suspended thread runs again. *)
Inductive wakeup := WakePost | WakeTimeout | WakeSignal.

(** An operation ends, or its thread is suspended until the deadline. *)
Inductive sem_status := SemDone (r : OPERATE_RET) | SemBlocked (deadline : option (Z * Z)).

Section Semaphore.
Context {A : Type} `{!Allocator A}.
Local Abbreviation W := (M (owned A sem_t)).

(** [sem_init] and [sem_post]: 0, or -1 when the counter would be too large. *)
Definition sem_init (p value : Z) : W Z :=
  if SEM_VALUE_MAX <? value then ret (-1) else set_obj p (Sem value) ;;; ret 0.
Definition sem_post (p : Z) : W Z :=
  x <- get_obj p ;;
  if sem_value x =? SEM_VALUE_MAX then ret (-1) else set_obj p (Sem (sem_value x + 1)) ;;; ret 0.
(** [sem_wait] and [sem_timedwait] up to their suspension: whether the counter was
    taken down by one. *)
Definition sem_take (p : Z) : W bool :=
  x <- get_obj p ;;
  if 0 <? sem_value x then set_obj p (Sem (sem_value x - 1)) ;;; ret true else ret false.
Definition sem_destroy (p : Z) : W Z := _ <- get_obj p ;; ret 0.

(** ** The adapter *)

(** The value returned — that of [sem_init] when it fails — and the handle. *)
Definition tkl_semaphore_create_init (handle : bool) (sem_cnt sem_max : Z) : W ((Z + OPERATE_RET) * Z) :=
  if negb handle then ret (inr OPRT_INVALID_PARM, 0)
  else
    sem_manage <- lift_alloc (al_malloc SIZEOF_TKL_SEM_MANAGE) ;;
    if sem_manage =? 0 then ret (inr OPRT_MALLOC_FAILED, 0)
    else
      init_obj sem_manage (Sem 0) ;;;
      r <- sem_init sem_manage sem_cnt ;;
      if negb (r =? 0) then
        bind (lift_alloc (al_free sem_manage)) (fun _ => drop_obj sem_manage) ;;;
        ret (inl r, 0)
      else ret (inr OPRT_OK, sem_manage).

(** The time at which a timed wait ends; [now] is what [clock_gettime] gives. *)
Definition sem_deadline (now : Z * Z) (timeout : Z) : Z * Z :=
  let tv_sec := fst now + timeout / 1000 in
  let tv_nsec := snd now + u32 ((timeout mod 1000) * 1000000) in
  if 1000000000 <=? tv_nsec then (tv_sec + tv_nsec / 1000000000, tv_nsec mod 1000000000) else (tv_sec, tv_nsec).

Definition wait_result (taken : bool) (deadline : option (Z * Z)) : sem_status :=
  if taken then SemDone OPRT_OK else SemBlocked deadline.

Definition tkl_semaphore_wait (now : Z * Z) (handle timeout : Z) : W sem_status :=
  if handle =? 0 then ret (SemDone OPRT_INVALID_PARM)
  else
    let deadline := if timeout =? TKL_SEM_WAIT_FOREVER then None else Some (sem_deadline now timeout) in
    taken <- sem_take handle ;;
    ret (wait_result taken deadline).

(** After a wake-up: a post lets the thread try again; the end of the time ends a
    timed wait; after a signal handler [sem_wait] ends with an error and
    [sem_timedwait] is called again. *)
Definition tkl_semaphore_wait_resume (handle : Z) (deadline : option (Z * Z)) (w : wakeup) : W sem_status :=
  match w, deadline with
  | WakeTimeout, Some _ | WakeSignal, None => ret (SemDone OPRT_OS_ADAPTER_SEM_WAIT_FAILED)
  | _, _ => taken <- sem_take handle ;; ret (wait_result taken deadline)
  end.

Definition tkl_semaphore_post (handle : Z) : W OPERATE_RET :=
  if handle =? 0 then ret OPRT_INVALID_PARM
  else
    r <- sem_post handle ;;
    if negb (r =? 0) then ret OPRT_OS_ADAPTER_SEM_POST_FAILED else ret OPRT_OK.

Definition tkl_semaphore_release (handle : Z) : W OPERATE_RET :=
  if handle =? 0 then ret OPRT_INVALID_PARM
  else
    r <- sem_destroy handle ;;
    bind (lift_alloc (al_free handle)) (fun _ => drop_obj handle) ;;;
    if negb (r =? 0) then ret OPRT_OS_ADAPTER_SEM_RELEASE_FAILED else ret OPRT_OK.

(** ** Threads *)

Record sem_sys := SemSys { ss_own : owned A sem_t; ss_wait : gmap nat (option (Z * Z)) }.

Definition on_sem {R} (c : W R) : M sem_sys R := fun s =>
  match c (ss_own s) with Ret r o => Ret r (SemSys o (ss_wait s)) | Fault => Fault | Diverge => Diverge end.

Inductive sem_ev := SWait (t : nat) (timeout : Z) (now : Z * Z) | SPost | SWake (t : nat) (w : wakeup).

(** What the caller sees; a suspended thread does nothing but wake. *)
Inductive sem_res := SDone (r : OPERATE_RET) | SBlocked | SIgnored.

Definition sem_settle (t : nat) (st : sem_status) : M sem_sys sem_res :=
  match st with
  | SemDone r => modify (fun s => SemSys (ss_own s) (delete t (ss_wait s))) ;;; ret (SDone r)
  | SemBlocked dl => modify (fun s => SemSys (ss_own s) (<[t := dl]> (ss_wait s))) ;;; ret SBlocked
  end.

Definition sem_exec (h : Z) (e : sem_ev) : M sem_sys sem_res :=
  w <- gets ss_wait ;;
  match e with
  | SWait t timeout now =>
    match w !! t with
    | Some _ => ret SIgnored
    | None => st <- on_sem (tkl_semaphore_wait now h timeout) ;; sem_settle t st
    end
  | SPost => r <- on_sem (tkl_semaphore_post h) ;; ret (SDone r)
  | SWake t k =>
    match w !! t with
    | None => ret SIgnored
    | Some dl => st <- on_sem (tkl_semaphore_wait_resume h dl k) ;; sem_settle t st
    end
  end.

Fixpoint sem_execs (h : Z) (es : list sem_ev) : M sem_sys (list sem_res) :=
  match es with
  | [] => ret []
  | e :: es => r <- sem_exec h e ;; rs <- sem_execs h es ;; ret (r :: rs)
  end.

(** ** The counting semaphore *)

(** The counter and the suspended threads, each with whether its wait is timed. *)
Record counter := Counter { cn_value : Z; cn_wait : gmap nat bool }.

Inductive sem_step (c : counter) : sem_ev -> sem_res -> counter -> Prop :=
| StTake t timeout now : cn_wait c !! t = None -> 0 < cn_value c ->
    sem_step c (SWait t timeout now) (SDone OPRT_OK) (Counter (cn_value c - 1) (cn_wait c))
| StSuspend t timeout now : cn_wait c !! t = None -> cn_value c = 0 ->
    sem_step c (SWait t timeout now) SBlocked (Counter 0 (<[t := negb (timeout =? TKL_SEM_WAIT_FOREVER)]> (cn_wait c)))
| StPost : cn_value c < SEM_VALUE_MAX -> sem_step c SPost (SDone OPRT_OK) (Counter (cn_value c + 1) (cn_wait c))
| StPostMax : cn_value c = SEM_VALUE_MAX -> sem_step c SPost (SDone OPRT_OS_ADAPTER_SEM_POST_FAILED) c
| StWakeTake t k (timed : bool) : cn_wait c !! t = Some timed -> 0 < cn_value c -> k <> (if timed then WakeTimeout else WakeSignal) ->
    sem_step c (SWake t k) (SDone OPRT_OK) (Counter (cn_value c - 1) (delete t (cn_wait c)))
| StWakeStay t k (timed : bool) : cn_wait c !! t = Some timed -> cn_value c = 0 -> k <> (if timed then WakeTimeout else WakeSignal) ->
    sem_step c (SWake t k) SBlocked c
| StTimeout t : cn_wait c !! t = Some true ->
    sem_step c (SWake t WakeTimeout) (SDone OPRT_OS_ADAPTER_SEM_WAIT_FAILED) (Counter (cn_value c) (delete t (cn_wait c)))
| StSignal t : cn_wait c !! t = Some false ->
    sem_step c (SWake t WakeSignal) (SDone OPRT_OS_ADAPTER_SEM_WAIT_FAILED) (Counter (cn_value c) (delete t (cn_wait c)))
| StIgnored e : (match e with SWait t _ _ => is_Some (cn_wait c !! t) | SPost => False | SWake t _ => cn_wait c !! t = None end) -> sem_step c e SIgnored c.

Fixpoint sem_steps (c : counter) (es : list sem_ev) (rs : list sem_res) (c'' : counter) : Prop :=
  match es, rs with
  | [], [] => c'' = c
  | e :: es, r :: rs => exists c', sem_step c e r c' /\ sem_steps c' es rs c''
  | _, _ => False
  end.

(** How many waits and how many posts succeeded. *)
Fixpoint tokens (es : list sem_ev) (rs : list sem_res) : Z * Z :=
  match es, rs with
  | e :: es, r :: rs =>
    let '(taken, posted) := tokens es rs in
    match e, r with
    | SPost, SDone OPRT_OK => (taken, posted + 1)
    | (SWait _ _ _ | SWake _ _), SDone OPRT_OK => (taken + 1, posted)
    | _, _ => (taken, posted)
    end
  | _, _ => (0, 0)
  end.

(** ** The properties *)

Record sem_rep (h : Z) (s : sem_sys) (c : counter) : Prop := {
  sp_own : owned_ok sem_size (ss_own s);
  sp_sem : o_objs (ss_own s) !! h = Some (Sem (cn_value c));
  sp_range : 0 <= cn_value c <= SEM_VALUE_MAX;
  sp_wait : cn_wait c = (fun dl => bool_decide (is_Some dl)) <$> ss_wait s
}.

Lemma wp_on_sem {R} (c : W R) Q s : wp c (fun r o => Q r (SemSys o (ss_wait s))) (ss_own s) -> wp (on_sem c) Q s.
Proof. unfold wp, on_sem. by destruct (c (ss_own s)). Qed.

Lemma rep_handle h s c : sem_rep h s c -> h <> 0.
Proof. intros Hs. pose proof (owned_positive sem_size _ _ _ (sp_own _ _ _ Hs) (sp_sem _ _ _ Hs)). lia. Qed.

(** The counter changes. *)
Lemma rep_value h s c v : sem_rep h s c -> 0 <= v <= SEM_VALUE_MAX ->
  sem_rep h (SemSys (Own (o_alloc (ss_own s)) (<[h := Sem v]> (o_objs (ss_own s)))) (ss_wait s)) (Counter v (cn_wait c)).
Proof. intros [Ho Hh Hr Hw] Hv. constructor; cbn; [by eapply owned_ok_update|apply lookup_insert_eq|done|done]. Qed.

Lemma rep_settle_done h s c t : sem_rep h s c -> sem_rep h (SemSys (ss_own s) (delete t (ss_wait s))) (Counter (cn_value c) (delete t (cn_wait c))).
Proof. intros [Ho Hh Hr Hw]. constructor; cbn; try done. by rewrite Hw, fmap_delete. Qed.

Lemma rep_settle_blocked h s c t dl :
  sem_rep h s c -> sem_rep h (SemSys (ss_own s) (<[t := dl]> (ss_wait s))) (Counter (cn_value c) (<[t := bool_decide (is_Some dl)]> (cn_wait c))).
Proof. intros [Ho Hh Hr Hw]. constructor; cbn; try done. by rewrite Hw, fmap_insert. Qed.

Lemma sem_take_spec h s c Q : sem_rep h s c ->
  (forall s', 0 < cn_value c -> ss_wait s' = ss_wait s -> sem_rep h s' (Counter (cn_value c - 1) (cn_wait c)) -> Q true (ss_own s')) ->
  (cn_value c = 0 -> Q false (ss_own s)) -> wp (sem_take h) Q (ss_own s).
Proof.
  intros Hs H1 H0. pose proof (sp_range _ _ _ Hs). unfold sem_take. apply wp_bind. eapply wp_get_obj; [apply Hs|]. cbn [sem_value]. zcase.
  - apply wp_bind. eapply wp_set_obj; [apply Hs|]. apply wp_ret. refine (H1 (SemSys (Own _ _) (ss_wait s)) _ eq_refl _); [lia|]. apply rep_value; [done|lia].
  - apply wp_ret, H0. lia.
Qed.

Definition sem_step_ok (h : Z) (c : counter) (e : sem_ev) (r : sem_res) (s' : sem_sys) : Prop := exists c', sem_step c e r c' /\ sem_rep h s' c'.

(** Trying to take the counter down, in the name of thread [t]. *)
Lemma take_settle h s c t dl Q : sem_rep h s c ->
  (forall s', 0 < cn_value c -> sem_rep h s' (Counter (cn_value c - 1) (delete t (cn_wait c))) -> Q (SDone OPRT_OK) s') ->
  (forall s', cn_value c = 0 -> sem_rep h s' (Counter 0 (<[t := bool_decide (is_Some dl)]> (cn_wait c))) -> Q SBlocked s') ->
  wp (st <- on_sem (taken <- sem_take h ;; ret (wait_result taken dl)) ;; sem_settle t st) Q s.
Proof.
  intros Hs H1 H0. apply wp_bind, wp_on_sem, wp_bind. eapply sem_take_spec; [exact Hs|..].
  - intros s' Hv Ew Hs'. apply wp_ret. cbn [wait_result sem_settle]. apply wp_bind, wp_modify, wp_ret, H1; [done|]. cbn [ss_own ss_wait]. rewrite <-Ew. by apply (rep_settle_done h s' (Counter (cn_value c - 1) (cn_wait c)) t).
  - intros Hv. apply wp_ret. cbn [wait_result sem_settle]. apply wp_bind, wp_modify, wp_ret, H0; [done|]. pose proof (rep_settle_blocked h s c t dl Hs) as Hb. by rewrite Hv in Hb.
Qed.

Lemma wait_lookup h s c t : sem_rep h s c -> cn_wait c !! t = (fun dl => bool_decide (is_Some dl)) <$> (ss_wait s !! t).
Proof. intros Hs. by rewrite (sp_wait _ _ _ Hs), lookup_fmap. Qed.

Lemma sem_exec_step h s c e : sem_rep h s c -> wp (sem_exec h e) (sem_step_ok h c e) s.
Proof.
  intros Hs. pose proof (rep_handle _ _ _ Hs) as Hh. pose proof (sp_range _ _ _ Hs) as Hr. unfold sem_exec. apply wp_bind, wp_gets. destruct e as [t timeout now| |t k].
  - pose proof (wait_lookup _ _ _ t Hs) as Ew. destruct (ss_wait s !! t) as [dl|] eqn:Et; [apply wp_ret; exists c; split; [constructor; by rewrite Ew|done]|].
    unfold tkl_semaphore_wait. rewrite (proj2 (Z.eqb_neq h 0)) by done. eapply take_settle; [exact Hs|..].
    + intros s' Hv Hs'. rewrite delete_id in Hs' by done. eexists. split; [by constructor|done].
    + intros s' Hv Hs'. eexists. split; [by constructor|]. by destruct (timeout =? TKL_SEM_WAIT_FOREVER).
  - apply wp_bind, wp_on_sem. unfold tkl_semaphore_post. rewrite (proj2 (Z.eqb_neq h 0)) by done. apply wp_bind. unfold sem_post. apply wp_bind. eapply wp_get_obj; [apply Hs|].
    cbn [sem_value]. zcase.
    + do 3 apply wp_ret. exists c. split; [by constructor|]. by destruct s.
    + apply wp_bind. eapply wp_set_obj; [apply Hs|]. do 3 apply wp_ret. eexists. split; [constructor; lia|]. apply rep_value; [done|lia].
  - pose proof (wait_lookup _ _ _ t Hs) as Ew. destruct (ss_wait s !! t) as [dl|] eqn:Et; [|apply wp_ret; exists c; split; [by constructor|done]]. cbn in Ew.
    assert (Counter (cn_value c) (<[t := bool_decide (is_Some dl)]> (cn_wait c)) = c) as Esame by (rewrite insert_id by done; by destruct c).
    assert (forall Q : sem_res -> sem_sys -> Prop, Q (SDone OPRT_OS_ADAPTER_SEM_WAIT_FAILED) (SemSys (ss_own s) (delete t (ss_wait s))) ->
      wp (st <- on_sem (ret (SemDone OPRT_OS_ADAPTER_SEM_WAIT_FAILED)) ;; sem_settle t st) Q s) as Hfail by (intros Q HQ; apply wp_bind, wp_on_sem, wp_ret, wp_bind, wp_modify, wp_ret, HQ).
    assert (k <> (if bool_decide (is_Some dl) then WakeTimeout else WakeSignal) ->
      wp (st <- on_sem (taken <- sem_take h ;; ret (wait_result taken dl)) ;; sem_settle t st) (sem_step_ok h c (SWake t k)) s) as Htry.
    { intros Hk. eapply take_settle; [exact Hs|..]; intros s' Hv Hs'.
      - eexists. split; [by eapply StWakeTake|done].
      - exists c. split; [by eapply StWakeStay|]. rewrite <-Hv, Esame in Hs'. done. }
    destruct k, dl as [dl|]; cbn [tkl_semaphore_wait_resume]; try (by apply Htry); apply Hfail; eexists; (split; [|by apply rep_settle_done]); by constructor.
Qed.

Lemma sem_step_tokens c e r c' : sem_step c e r c' ->
  cn_value c' + (match e, r with (SWait _ _ _ | SWake _ _), SDone OPRT_OK => 1 | _, _ => 0 end) = cn_value c + (match e, r with SPost, SDone OPRT_OK => 1 | _, _ => 0 end).
Proof. destruct 1; cbn; try lia; destruct e; lia. Qed.

Lemma sem_steps_tokens es : forall c rs c', sem_steps c es rs c' -> cn_value c' + fst (tokens es rs) = cn_value c + snd (tokens es rs).
Proof.
  induction es as [|e es IH]; intros c [|r rs] c''; cbn [sem_steps tokens]; try done; [by intros ->|]. intros (c' & Hst & Hsts).
  apply sem_step_tokens in Hst. apply IH in Hsts. destruct (tokens es rs) as [a b]. cbn [fst snd] in *. destruct e, r as [[]| |]; cbn [fst snd]; lia.
Qed.

(** C7: whatever the threads do — waits with any timeouts, posts, and any wake-ups
    by posts, timeouts and signals — the semaphore behaves as a counting semaphore:
    every result is one the counter allows, the counter stays between 0 and its
    maximum, and it equals its start plus the successful posts less the successful
    waits, so that no wait succeeds without a post or an initial unit of its own. *)
Theorem semaphore_refines_counter h es s c : sem_rep h s c ->
  wp (sem_execs h es) (fun rs s' => exists c', sem_steps c es rs c' /\ sem_rep h s' c' /\
    cn_value c' + fst (tokens es rs) = cn_value c + snd (tokens es rs)) s.
Proof.
  intros Hs. eapply wp_mono with (P := fun rs s' => exists c', sem_steps c es rs c' /\ sem_rep h s' c').
  2: { intros rs s' (c' & Hst & Hs'). exists c'. split_and!; [done..|]. by apply sem_steps_tokens. }
  revert s c Hs. induction es as [|e es IH]; intros s c Hs; cbn [sem_execs]; [apply wp_ret; by exists c|].
  apply wp_bind. eapply wp_mono; [by apply sem_exec_step|]. intros r s1 (c1 & Hst & Hs1). apply wp_bind. eapply wp_mono; [by apply IH|].
  intros rs s2 (c2 & Hsts & Hs2). apply wp_ret. exists c2. split; [by exists c1|done].
Qed.

(** Creation: a new semaphore of the count asked for, or nothing new. *)
Lemma semaphore_create_spec (s : owned A sem_t) sem_cnt sem_max : owned_ok sem_size s -> 0 <= sem_cnt < 4294967296 ->
  wp (tkl_semaphore_create_init true sem_cnt sem_max) (fun r s' => owned_ok sem_size s' /\
    ((fst r = inr OPRT_OK /\ o_objs s !! snd r = None /\ o_objs s' = <[snd r := Sem sem_cnt]> (o_objs s) /\ sem_cnt <= SEM_VALUE_MAX) \/
     (fst r <> inr OPRT_OK /\ o_objs s' = o_objs s))) s.
Proof.
  intros Ho Hc. unfold tkl_semaphore_create_init. cbn [negb]. apply wp_bind. eapply (malloc_obj_spec sem_size); [done|unfold SIZEOF_TKL_SEM_MANAGE; lia|..].
  - intros a Ha. cbn. apply wp_ret. split; [done|]. by right.
  - intros p a Hp0 Hp Hnew. rewrite (proj2 (Z.eqb_neq p 0)) by done. apply wp_bind. unfold init_obj, wp at 1. cbn [o_objs o_alloc]. apply wp_bind.
    unfold sem_init. zcase.
    + apply wp_ret. cbn [negb Z.eqb]. apply wp_bind. eapply wp_mono; [eapply (free_obj_spec sem_size); [apply (Hnew (Sem 0)); done|apply lookup_insert_eq]|].
      intros [] s' [Ho' E]. apply wp_ret. split; [done|]. right. split; [done|]. rewrite E. cbn. rewrite delete_insert_id; done.
    + apply wp_bind. eapply wp_set_obj; [apply lookup_insert_eq|]. apply wp_ret. cbn [negb Z.eqb]. apply wp_ret. cbn [o_objs o_alloc fst snd]. rewrite insert_insert_eq.
      split; [by apply (Hnew (Sem sem_cnt))|]. left. split_and!; [done..|lia].
Qed.
End Semaphore.

(** ** Deadlines *)

(** The deadline of a timed wait is exactly [timeout] milliseconds after [now],
    to the nanosecond, and a valid time, for every 32-bit timeout. *)
Theorem sem_deadline_correct now timeout : 0 <= snd now < 1000000000 -> 0 <= timeout < 4294967296 ->
  let t := sem_deadline now timeout in
  fst t * 1000000000 + snd t = fst now * 1000000000 + snd now + timeout * 1000000 /\ 0 <= snd t < 1000000000.
Proof.
  intros Hn Ht. destruct now as [sec nsec]. unfold sem_deadline. cbn [fst snd] in *.
  pose proof (Z.div_mod timeout 1000). pose proof (Z.mod_pos_bound timeout 1000). rewrite u32_small by lia. zcase; cbn [fst snd]; [|lia].
  set (n := nsec + timeout mod 1000 * 1000000) in *. pose proof (Z.div_mod n 1000000000). pose proof (Z.mod_pos_bound n 1000000000). lia.
Qed.

Lemma sem_deadline_correct_witness :
  let t := sem_deadline (100, 999999999) 4294967294 in
  fst t * 1000000000 + snd t = 100 * 1000000000 + 999999999 + 4294967294 * 1000000 /\ 0 <= snd t < 1000000000.
Proof. refine (sem_deadline_correct (100, 999999999) 4294967294 _ _); cbn; lia. Defined.

(** ** A semaphore on the memory heap *)

#[local] Instance demo_allocator : Allocator hstate := heap_allocator 0.
#[local] Opaque demo2.

Definition sem_demo0 : owned hstate sem_t := Own demo2 ∅.

Lemma sem_demo0_ok : owned_ok sem_size sem_demo0.
Proof.
  exists ∅. split; [|intros p o; by rewrite lookup_empty].
  exists (heap_at demo2), (layout demo2), ∅. split; [apply demo2_represents|done].
Qed.

Definition sem_created : outcome (owned hstate sem_t) ((Z + OPERATE_RET) * Z) := tkl_semaphore_create_init true 1 10 sem_demo0.
Definition sem_demo1 : owned hstate sem_t := match sem_created with Ret _ s => s | _ => sem_demo0 end.
Definition sem_ptr : Z := match sem_created with Ret r _ => snd r | _ => 0 end.

Lemma sem_demo1_ok : sem_rep sem_ptr (SemSys sem_demo1 ∅) (Counter 1 ∅).
Proof.
  pose proof (semaphore_create_spec sem_demo0 1 10 sem_demo0_ok ltac:(lia)) as Hw.
  destruct (proj1 (wp_run _ _ _) Hw) as (r & s' & E & Ho & Hres). unfold sem_demo1, sem_ptr. change (sem_created = Ret r s') in E.
  assert (match sem_created with Ret r _ => fst r | _ => inl 0 end = inr OPRT_OK) as Eok by (by vm_compute).
  rewrite E in Eok |- *. clear E Hw. destruct Hres as [(_ & _ & Eo & _)|[Hne _]]; [|by destruct (Hne Eok)].
  constructor; cbn [ss_own ss_wait cn_value cn_wait]; [exact Ho|rewrite Eo; apply lookup_insert_eq|unfold SEM_VALUE_MAX; lia|by rewrite fmap_empty].
Qed.

(** One unit and two threads: one takes it, the other waits for a post. *)
Lemma semaphore_refines_counter_witness :
  let es := [SWait 1 0 (0, 0); SWait 2 TKL_SEM_WAIT_FOREVER (0, 0); SPost; SWake 2 WakePost; SWait 1 50 (0, 0); SWake 1 WakeSignal; SWake 1 WakeTimeout] in
  wp (sem_execs sem_ptr es) (fun rs s' => exists c', sem_steps (Counter 1 ∅) es rs c' /\ sem_rep sem_ptr s' c' /\
    cn_value c' + fst (tokens es rs) = 1 + snd (tokens es rs)) (SemSys sem_demo1 ∅).
Proof. intros es. exact (semaphore_refines_counter sem_ptr es (SemSys sem_demo1 ∅) (Counter 1 ∅) sem_demo1_ok). Defined.
