(* ===== verification/SmartPtr.v ===== *)
(** * Reference-counted data: [utilities/src/tuya_smartpointer.c]

    A counter with a mutex and either a pointer to the data of the caller or a copy
    of it behind the structure.  The objects are those of the allocator of [Alloc];
    releasing a pointer that the allocator did not hand out is a fault. *)

From S2P Require Import Prelude MemHeap MemHeapProps MemHeapStore Alloc TklMutex.

(** ** Data *)

Record SMARTPOINTER_T := mkSp { sp_mutex : Z; sp_malk : bool; sp_rfc : Z; sp_data_len : Z; sp_data : Z }.

(** The structure with the bytes behind it, a mutex, data of a caller. *)
Inductive spobj := OSp (x : SMARTPOINTER_T) (inline : list Z) | OSpMx (x : pthread_mutex_t) | OBuf (d : list Z).

#[export] Instance spobj_mutex : HasMutex spobj := {|
  inj_mutex := OSpMx;
  prj_mutex o := match o with OSpMx x => Some x | _ => None end;
  prj_inj_mutex x := eq_refl
|}.

Definition SIZEOF_SMARTPOINTER_T : Z := 32.
Definition sp_size (o : spobj) : Z :=
  match o with
  | OSp _ inline => SIZEOF_SMARTPOINTER_T + Z.of_nat (length inline)
  | OSpMx _ => SIZEOF_TKL_MUTEX_MANAGE
  | OBuf d => Z.max 1 (Z.of_nat (length d))
  end.

Definition with_rfc (n : Z) (x : SMARTPOINTER_T) : SMARTPOINTER_T := mkSp (sp_mutex x) (sp_malk x) n (sp_data_len x) (sp_data x).

Section SmartPointer.
Context {A : Type} `{!Allocator A}.
Local Abbreviation W := (M (owned A spobj)).

Definition get_sp (p : Z) : W (SMARTPOINTER_T * list Z) := o <- get_obj p ;; match o with OSp x d => ret (x, d) | _ => fault end.

(** [tkl_system_free] of a pointer of the client. *)
Definition sp_free (p : Z) : W unit :=
  if p =? 0 then ret tt
  else _ <- get_obj p ;; bind (lift_alloc (al_free p)) (fun _ => drop_obj p).

(** ** Operations *)

(** [src] are the bytes at [data]; [env] are the results of the pthread calls. *)
Definition tuya_smartpointer_create (env : pthread_env) (data : Z) (src : list Z) (data_len : Z) (malk : bool) (cnt : Z) : W Z :=
  if (data_len =? 0) || (data =? 0) then ret 0
  else
    p <- lift_alloc (al_malloc (if malk then SIZEOF_SMARTPOINTER_T + data_len else SIZEOF_SMARTPOINTER_T)) ;;
    if p =? 0 then ret 0
    else
      let inline := if malk then replicate (Z.to_nat data_len) 0 else [] in
      init_obj p (OSp (mkSp 0 false 0 0 0) inline) ;;;
      r <- tkl_mutex_create_init env true ;;
      let mutex := snd r in
      if malk then
        if Z.of_nat (length src) <? data_len then fault
        else
          set_obj p (OSp (mkSp mutex false cnt data_len (p + SIZEOF_SMARTPOINTER_T)) (take (Z.to_nat data_len) src)) ;;;
          ret p
      else
        set_obj p (OSp (mkSp mutex false cnt data_len data) []) ;;;
        ret p.

Definition tuya_smartpointer_get (p : Z) : W unit :=
  if p =? 0 then ret tt
  else
    x <- get_sp p ;;
    _ <- tkl_mutex_lock (sp_mutex (fst x)) ;;
    x <- get_sp p ;;
    set_obj p (OSp (with_rfc (u32 (sp_rfc (fst x) + 1)) (fst x)) (snd x)) ;;;
    _ <- tkl_mutex_unlock (sp_mutex (fst x)) ;;
    ret tt.

(** The release of [tuya_smartpointer_put] and [tuya_smartpointer_del]. *)
Definition sp_release (p : Z) : W unit :=
  x <- get_sp p ;;
  _ <- tkl_mutex_release (sp_mutex (fst x)) ;;
  when (negb (sp_malk (fst x))) (sp_free (sp_data (fst x))) ;;;
  sp_free p.

Definition tuya_smartpointer_put (p : Z) : W unit :=
  if p =? 0 then ret tt
  else
    x <- get_sp p ;;
    _ <- tkl_mutex_lock (sp_mutex (fst x)) ;;
    x <- get_sp p ;;
    let rfc := u32 (sp_rfc (fst x) - 1) in
    set_obj p (OSp (with_rfc rfc (fst x)) (snd x)) ;;;
    _ <- tkl_mutex_unlock (sp_mutex (fst x)) ;;
    if 0 =? rfc then sp_release p else ret tt.

Definition tuya_smartpointer_del (p : Z) : W unit := sp_release p.

(** ** References *)

(** [p] counts [n] references to the [len] bytes at [buf]: those of the caller, or, when it
    was created with a copy, the bytes [copy] behind the structure. *)
Record sp_rep (copy : list Z) (s : owned A spobj) (p mx buf len n : Z) : Prop := {
  spr_own : owned_ok sp_size s;
  spr_sp : o_objs s !! p = Some (OSp (mkSp mx false n len buf) copy);
  spr_mutex : o_objs s !! mx = Some (OSpMx (mkMutex true 0));
  spr_buf : match copy with [] => exists d, o_objs s !! buf = Some (OBuf d) | _ => buf = p + SIZEOF_SMARTPOINTER_T end;
  spr_count : 0 < n < 4294967296
}.

Inductive sp_op := SpGet | SpPut.

Fixpoint sp_exec (p : Z) (ops : list sp_op) : W unit :=
  match ops with
  | [] => ret tt
  | SpGet :: ops => tuya_smartpointer_get p ;;; sp_exec p ops
  | SpPut :: ops => tuya_smartpointer_put p ;;; sp_exec p ops
  end.

(** The count after the operations; [None] for one that is used after its release. *)
Fixpoint refs (n : Z) (ops : list sp_op) : option Z :=
  match ops with
  | [] => Some n
  | o :: ops => if n =? 0 then None else refs (match o with SpGet => n + 1 | SpPut => n - 1 end) ops
  end.

Lemma wp_get_sp p x d Q (s : owned A spobj) : o_objs s !! p = Some (OSp x d) -> Q (x, d) s -> wp (get_sp p) Q s.
Proof. intros E HQ. unfold get_sp. apply wp_bind. eapply wp_get_obj; [done|]. by apply wp_ret. Qed.

Lemma sp_rep_nonzero c s p mx buf len n : sp_rep c s p mx buf len n -> p <> 0 /\ mx <> 0.
Proof.
  intros [Ho Hp Hm _ _]. pose proof (owned_positive sp_size _ _ _ Ho Hp). pose proof (owned_positive sp_size _ _ _ Ho Hm). lia.
Qed.

(** Setting the count under the lock: the state before and after differ in it only. *)
Lemma set_count_eq {R} s p x d (f : Z -> Z) (K : SMARTPOINTER_T * list Z -> W R) :
  o_objs s !! p = Some (OSp x d) -> sp_mutex x <> 0 -> o_objs s !! sp_mutex x = Some (OSpMx (mkMutex true 0)) ->
  (x <- get_sp p ;; _ <- tkl_mutex_lock (sp_mutex (fst x)) ;; x <- get_sp p ;;
   set_obj p (OSp (with_rfc (f (sp_rfc (fst x))) (fst x)) (snd x)) ;;; _ <- tkl_mutex_unlock (sp_mutex (fst x)) ;; K x) s =
  K (x, d) (Own (o_alloc s) (<[p := OSp (with_rfc (f (sp_rfc x)) x) d]> (o_objs s))).
Proof.
  intros Hp Hm0 Hm. assert (p <> sp_mutex x) as Hne by congruence.
  unfold tkl_mutex_lock, tkl_mutex_unlock, pthread_mutex_lock, pthread_mutex_unlock, get_sp, get_mutex, set_mutex, get_obj, set_obj, bind, ret.
  rewrite Hp. cbn [fst snd]. rewrite (proj2 (Z.eqb_neq _ 0)), Hm by done. cbn. rewrite Hm. cbn. rewrite lookup_insert_ne, Hp by done. cbn. rewrite lookup_insert_ne, Hp by done.
  cbn. rewrite (proj2 (Z.eqb_neq (sp_mutex x) 0)) by done. cbn. rewrite lookup_insert_ne, lookup_insert_eq by done. cbn. change (0 <? 0 + 1) with true.
  cbn. rewrite lookup_insert_ne, lookup_insert_eq by done. cbn. change (0 + 1 - 1) with 0. rewrite insert_insert_ne, insert_insert_eq, (insert_id (o_objs s)) by done. done.
Qed.

(** The same objects, with another count. *)
Definition counted (s : owned A spobj) (p mx buf len n : Z) (copy : list Z) : owned A spobj := Own (o_alloc s) (<[p := OSp (mkSp mx false n len buf) copy]> (o_objs s)).

Lemma sp_rep_count c s p mx buf len n n' : sp_rep c s p mx buf len n -> 0 < n' < 4294967296 -> sp_rep c (counted s p mx buf len n' c) p mx buf len n'.
Proof.
  intros [Ho Hp Hm Hb _] Hn. constructor; cbn; [by eapply owned_ok_update|apply lookup_insert_eq|rewrite lookup_insert_ne by congruence; done| |done].
  destruct c; [|done]. destruct Hb as [d Hb]. exists d. rewrite lookup_insert_ne by congruence. done.
Qed.

Lemma get_eq c s p mx buf len n : sp_rep c s p mx buf len n -> n + 1 < 4294967296 -> tuya_smartpointer_get p s = Ret tt (counted s p mx buf len (n + 1) c).
Proof.
  intros Hr Hn. pose proof (spr_count _ _ _ _ _ _ _ Hr). destruct (sp_rep_nonzero _ _ _ _ _ _ _ Hr) as [Hp0 Hm0]. unfold tuya_smartpointer_get. rewrite (proj2 (Z.eqb_neq p 0)) by done.
  rewrite (set_count_eq s p _ _ (fun n => u32 (n + 1)) (fun _ => ret tt) (spr_sp _ _ _ _ _ _ _ Hr)); [|done|apply Hr]. cbn. by rewrite u32_small by lia.
Qed.
(** A put counts down, and releases when nothing is left. *)
Lemma put_eq c s p mx buf len n : sp_rep c s p mx buf len n -> tuya_smartpointer_put p s = (if n =? 1 then sp_release p else ret tt) (counted s p mx buf len (n - 1) c).
Proof.
  intros Hr. pose proof (spr_count _ _ _ _ _ _ _ Hr). destruct (sp_rep_nonzero _ _ _ _ _ _ _ Hr) as [Hp0 Hm0]. unfold tuya_smartpointer_put. rewrite (proj2 (Z.eqb_neq p 0)) by done.
  rewrite (set_count_eq s p _ _ (fun n => u32 (n - 1)) (fun x => if 0 =? u32 (sp_rfc (fst x) - 1) then sp_release p else ret tt) (spr_sp _ _ _ _ _ _ _ Hr)); [|done|apply Hr].
  cbn [fst sp_rfc with_rfc sp_mutex sp_malk sp_data_len sp_data]. rewrite u32_small by lia. replace (0 =? n - 1) with (n =? 1) by (destruct (Z.eqb_spec n 1), (Z.eqb_spec 0 (n - 1)); lia). done.
Qed.

Lemma sp_free_spec s p o Q : owned_ok sp_size s -> o_objs s !! p = Some o ->
  (forall s', owned_ok sp_size s' -> o_objs s' = delete p (o_objs s) -> Q tt s') -> wp (sp_free p) Q s.
Proof.
  intros Ho Hp HQ. unfold sp_free. pose proof (owned_positive sp_size _ _ _ Ho Hp). rewrite (proj2 (Z.eqb_neq p 0)) by lia.
  apply wp_bind. eapply wp_get_obj; [done|]. eapply wp_mono; [by eapply (free_obj_spec sp_size)|]. intros [] s' [? ?]. by apply HQ.
Qed.

(** The last reference: the mutex, the data and the structure are released. *)
Lemma sp_release_spec s p mx buf len n Q : owned_ok sp_size s -> o_objs s !! p = Some (OSp (mkSp mx false n len buf) []) ->
  o_objs s !! mx = Some (OSpMx (mkMutex true 0)) -> (exists d, o_objs s !! buf = Some (OBuf d)) ->
  (forall s', owned_ok sp_size s' -> o_objs s' = delete p (delete buf (delete mx (o_objs s))) -> Q tt s') -> wp (sp_release p) Q s.
Proof.
  intros Ho Hp Hm [d Hb] HQ. pose proof (owned_positive sp_size _ _ _ Ho Hm). unfold sp_release. apply wp_bind. eapply wp_get_sp; [done|]. cbn [fst sp_mutex sp_malk sp_data negb].
  apply wp_bind. eapply (mutex_release_spec sp_size); [lia|exact Hm|done|done|]. intros s1 Ho1 E1. apply wp_bind. unfold when.
  eapply sp_free_spec; [done|rewrite E1, lookup_delete_ne by congruence; done|]. intros s2 Ho2 E2.
  eapply sp_free_spec; [done|rewrite E2, E1, !lookup_delete_ne by congruence; done|]. intros s3 Ho3 E3. apply HQ; [done|]. by rewrite E3, E2, E1.
Qed.

(** The data of a copy lies inside the structure's allocation: it is none itself. *)
Lemma copy_data_not_object s p x inline : owned_ok sp_size s -> o_objs s !! p = Some (OSp x inline) -> (0 < length inline)%nat ->
  o_objs s !! (p + SIZEOF_SMARTPOINTER_T) = None.
Proof.
  intros Ho Hp Hi. destruct (o_objs s !! (p + SIZEOF_SMARTPOINTER_T)) as [o|] eqn:E; [|done]. exfalso. unfold SIZEOF_SMARTPOINTER_T in *.
  destruct (owned_disjoint sp_size s p _ (p + 32) o Ho Hp E ltac:(lia)) as [Hd|Hd]; destruct o; cbn in Hd; unfold SIZEOF_SMARTPOINTER_T, SIZEOF_TKL_MUTEX_MANAGE in *; lia.
Qed.

Lemma copy_release_faults s p mx len n inline :
  owned_ok sp_size s -> o_objs s !! p = Some (OSp (mkSp mx false n len (p + SIZEOF_SMARTPOINTER_T)) inline) -> (0 < length inline)%nat ->
  o_objs s !! mx = Some (OSpMx (mkMutex true 0)) -> sp_release p s = Fault.
Proof.
  intros Ho Hp Hi Hm. pose proof (owned_positive sp_size _ _ _ Ho Hp). pose proof (owned_positive sp_size _ _ _ Ho Hm). pose proof (copy_data_not_object _ _ _ _ Ho Hp Hi) as Hin.
  pose proof (mutex_release_spec sp_size s mx (fun _ s' => o_objs s' = delete mx (o_objs s)) ltac:(lia) Hm Ho eq_refl ltac:(done)) as Hw.
  apply wp_run in Hw as (r & s2 & E & E2). unfold sp_release, get_sp, bind, get_obj, ret. rewrite Hp. cbn [fst sp_mutex]. rewrite E. cbn [fst sp_malk negb sp_data].
  unfold when, sp_free. unfold SIZEOF_SMARTPOINTER_T in *. rewrite (proj2 (Z.eqb_neq (p + 32) 0)) by lia. unfold bind, get_obj.
  rewrite E2, lookup_delete_ne by congruence. by rewrite Hin.
Qed.

(** What a sequence of operations leaves: the new count, or nothing. *)
Definition sp_left (copy : list Z) (s : owned A spobj) (p mx buf len m : Z) (s' : owned A spobj) : Prop :=
  if m =? 0 then owned_ok sp_size s' /\ o_objs s' = delete p (delete buf (delete mx (o_objs s)))
  else sp_rep copy s' p mx buf len m /\ o_objs s' = <[p := OSp (mkSp mx false m len buf) copy]> (o_objs s).

(** The last put: everything is released, or, with a copy, the address of the copy is handed
    to [tkl_system_free], which gave out no block there. *)
Definition sp_ending (copy : list Z) (s : owned A spobj) (p mx buf len m : Z) (o : outcome (owned A spobj) unit) : Prop :=
  if (m =? 0) && (0 <? length copy)%nat then o = Fault else exists s', o = Ret tt s' /\ sp_left copy s p mx buf len m s'.

Lemma sp_left_counted c s p mx buf len n n' m s' : sp_rep c s p mx buf len n -> m <> 0 \/ c = [] -> sp_left c (counted s p mx buf len n' c) p mx buf len m s' -> sp_left c s p mx buf len m s'.
Proof.
  intros [_ Hp Hm Hb _] Hc. unfold sp_left, counted. cbn [o_objs]. zcase; intros [H1 H2]; (split; [done|]); rewrite H2; [|by rewrite insert_insert_eq].
  destruct Hc as [Hc| ->]; [done|]. destruct Hb as [d Hb]. rewrite !delete_insert_ne by congruence. by rewrite delete_insert_eq.
Qed.
Lemma sp_ending_counted c s p mx buf len n n' m o : sp_rep c s p mx buf len n -> sp_ending c (counted s p mx buf len n' c) p mx buf len m o -> sp_ending c s p mx buf len m o.
Proof.
  intros Hr. unfold sp_ending. destruct ((m =? 0) && (0 <? length c)%nat) eqn:E; [done|]. intros (s' & -> & Hl). exists s'. split; [done|]. eapply sp_left_counted; [exact Hr| |exact Hl].
  destruct c; [by right|left]. intros ->. done.
Qed.

(** The put of the only reference. *)
Lemma last_put c s p mx buf len : sp_rep c s p mx buf len 1 -> sp_ending c s p mx buf len 0 (tuya_smartpointer_put p s).
Proof.
  intros Hr. rewrite (put_eq _ _ _ _ _ _ _ Hr). change (1 =? 1) with true. cbv iota. apply (sp_ending_counted _ _ _ _ _ _ 1 0); [done|]. change (1 - 1) with 0. pose proof Hr as [Ho Hp Hm Hb _].
  assert (owned_ok sp_size (counted s p mx buf len 0 c)) as Ho' by (by eapply owned_ok_update). unfold sp_ending. cbn [Z.eqb andb]. destruct c as [|x c]; cbn [length Nat.ltb Nat.leb].
  - destruct Hb as [d Hb]. assert (wp (sp_release p) (fun _ s' => sp_left [] (counted s p mx buf len 0 []) p mx buf len 0 s') (counted s p mx buf len 0 [])) as Hw.
    { eapply sp_release_spec; [exact Ho'|apply lookup_insert_eq|cbn; rewrite lookup_insert_ne by congruence; done|exists d; cbn; rewrite lookup_insert_ne by congruence; done|]. by intros s' H1 H2. }
    apply wp_run in Hw as ([] & s' & E & Hl). by exists s'.
  - rewrite Hb in *. eapply copy_release_faults; [exact Ho'|apply lookup_insert_eq|cbn; lia|]. cbn. rewrite lookup_insert_ne by congruence. done.
Qed.

(** C35: with any sequence of [tuya_smartpointer_get] and [tuya_smartpointer_put] that does
    not go on after the last reference, the structure, its mutex and the data stay as they are
    but for the count while a reference is left.  The put that drops the last one releases all
    three, and nothing else, when the data are those of the caller; when they were copied at
    creation it is a fault, because the address of the copy, which is inside the structure, is
    handed to [tkl_system_free]. *)
Theorem smartpointer_counts copy ops s p mx buf len n m :
  sp_rep copy s p mx buf len n -> n + Z.of_nat (length ops) < 4294967296 -> refs n ops = Some m ->
  sp_ending copy s p mx buf len m (sp_exec p ops s).
Proof.
  revert s n. induction ops as [|o ops IH]; intros s n Hr Hlen Href; cbn [sp_exec refs length] in *; pose proof (spr_count _ _ _ _ _ _ _ Hr) as Hn.
  { injection Href as <-. unfold sp_ending, sp_left. rewrite (proj2 (Z.eqb_neq n 0)) by lia. exists s. split; [done|]. split; [done|]. rewrite insert_id; [done|apply Hr]. }
  rewrite (proj2 (Z.eqb_neq n 0)) in Href by lia. destruct o.
  - unfold bind. rewrite (get_eq _ _ _ _ _ _ _ Hr) by lia. eapply sp_ending_counted; [exact Hr|]. eapply IH; [eapply sp_rep_count; [exact Hr|lia]|lia|done].
  - destruct (decide (n = 1)) as [->|Hne].
    + destruct ops; [|by cbn in Href]. injection Href as <-. pose proof (last_put _ _ _ _ _ _ Hr) as H. change (1 - 1) with 0. unfold sp_ending, bind in *. destruct ((0 =? 0) && _); [by rewrite H|]. destruct H as (s' & -> & H). by exists s'.
    + unfold bind. rewrite (put_eq _ _ _ _ _ _ _ Hr), (proj2 (Z.eqb_neq n 1)) by done. cbn [ret]. eapply sp_ending_counted; [exact Hr|]. eapply IH; [eapply sp_rep_count; [exact Hr|lia]|lia|done].
Qed.

(** ** Creation *)

(** Creating with the data of the caller. *)
Lemma smartpointer_create_spec s buf d len cnt : owned_ok sp_size s -> o_objs s !! buf = Some (OBuf d) -> 0 < len -> 0 < cnt < 4294967296 ->
  wp (tuya_smartpointer_create pthread_ok buf d len false cnt) (fun p s' => owned_ok sp_size s' /\
    (p = 0 \/ (exists mx, sp_rep [] s' p mx buf len cnt) \/ o_objs s' !! p = Some (OSp (mkSp 0 false cnt len buf) []))) s.
Proof.
  intros Ho Hb Hl Hc. pose proof (owned_positive sp_size _ _ _ Ho Hb). unfold tuya_smartpointer_create. rewrite !(proj2 (Z.eqb_neq _ 0)) by lia. cbn [orb].
  apply wp_bind. eapply (malloc_obj_spec sp_size); [done|unfold SIZEOF_SMARTPOINTER_T; lia|by intros a Ha; cbn; apply wp_ret; auto|].
  intros p a Hp0 Hp Hnew. rewrite (proj2 (Z.eqb_neq p 0)) by done. apply wp_bind. unfold init_obj, wp at 1. cbn [o_objs o_alloc].
  specialize (Hnew (OSp (mkSp 0 false 0 0 0) []) ltac:(by vm_compute)). apply wp_bind.
  eapply (mutex_create_spec sp_size); [by intros; vm_compute|exact Hnew|..].
  - intros a' Ho'. cbn [snd o_objs]. apply wp_bind. eapply wp_set_obj; [apply lookup_insert_eq|]. apply wp_ret. split.
    + eapply owned_ok_update; [exact Ho'|apply lookup_insert_eq|done].
    + right. right. apply lookup_insert_eq.
  - intros mx a' s' Hm0 Hm -> Ho'. cbn [snd o_objs] in *. assert (p <> mx /\ o_objs s !! mx = None) as [Hne Hms] by (apply lookup_insert_None in Hm as [? ?]; done).
    apply wp_bind. eapply wp_set_obj; [cbn; rewrite lookup_insert_ne, lookup_insert_eq by done; done|]. apply wp_ret. cbn [o_objs o_alloc].
    assert (owned_ok sp_size (Own a' (<[p := OSp (mkSp mx false cnt len buf) []]> (<[mx := inj_mutex (mkMutex true 0)]> (<[p := OSp (mkSp 0 false 0 0 0) []]> (o_objs s)))))) as Ho2.
    { refine (owned_ok_update sp_size _ p (OSp (mkSp mx false cnt len buf) []) (OSp (mkSp 0 false 0 0 0) []) Ho' _ _); cbn [o_objs]; [by rewrite lookup_insert_ne, lookup_insert_eq|done]. }
    split; [done|]. right. left. exists mx. constructor; cbn [o_objs]; [done|apply lookup_insert_eq|rewrite lookup_insert_ne, lookup_insert_eq by done; done| |done].
    exists d. rewrite !lookup_insert_ne by congruence. done.
Qed.

(** Creating with a copy. *)
Lemma smartpointer_copy_spec s data src len cnt : owned_ok sp_size s -> 0 < data -> 0 < len < 2147483648 -> Z.of_nat (length src) = len -> 0 < cnt < 4294967296 ->
  wp (tuya_smartpointer_create pthread_ok data src len true cnt) (fun p s' =>
    p = 0 \/ (exists x d, o_objs s' !! p = Some (OSp x d) /\ sp_mutex x = 0) \/ exists mx, sp_rep src s' p mx (p + SIZEOF_SMARTPOINTER_T) len cnt) s.
Proof.
  intros Ho Hd Hl Hsrc Hc. unfold tuya_smartpointer_create. rewrite !(proj2 (Z.eqb_neq _ 0)) by lia. cbn [orb].
  apply wp_bind. eapply (malloc_obj_spec sp_size); [done|unfold SIZEOF_SMARTPOINTER_T; lia|by intros a Ha; cbn; apply wp_ret; auto|].
  intros p a Hp0 Hp Hnew. rewrite (proj2 (Z.eqb_neq p 0)) by done. apply wp_bind. unfold init_obj, wp at 1. cbn [o_objs o_alloc].
  assert (length (replicate (Z.to_nat len) 0) = length (take (Z.to_nat len) src)) as Elen by (rewrite length_replicate, length_take; lia).
  specialize (Hnew (OSp (mkSp 0 false 0 0 0) (replicate (Z.to_nat len) 0)) ltac:(cbn; rewrite length_replicate; lia)). apply wp_bind.
  rewrite (proj2 (Z.ltb_ge _ len)) by lia. eapply (mutex_create_spec sp_size); [by intros; vm_compute|exact Hnew|..].
  - intros a' Ho'. cbn [snd o_objs]. apply wp_bind. eapply wp_set_obj; [apply lookup_insert_eq|]. apply wp_ret. right. left. eexists _, _. split; [apply lookup_insert_eq|done].
  - intros mx a' s' Hm0 Hm -> Ho'. cbn [snd o_objs] in *. assert (p <> mx /\ o_objs s !! mx = None) as [Hne Hms] by (apply lookup_insert_None in Hm as [? ?]; done).
    apply wp_bind. eapply wp_set_obj; [cbn; rewrite lookup_insert_ne, lookup_insert_eq by done; done|]. apply wp_ret. right. right.
    exists mx. rewrite take_ge by lia. constructor; cbn [o_objs].
    + refine (owned_ok_update sp_size _ p (OSp (mkSp mx false cnt len (p + SIZEOF_SMARTPOINTER_T)) src) (OSp (mkSp 0 false 0 0 0) (replicate (Z.to_nat len) 0)) Ho' _ _); cbn [o_objs sp_size]; [by rewrite lookup_insert_ne, lookup_insert_eq|]. rewrite Elen, length_take. lia.
    + apply lookup_insert_eq.
    + rewrite lookup_insert_ne, lookup_insert_eq by done. done.
    + destruct src; [cbn in Hsrc; lia|done].
    + done.
Qed.
End SmartPointer.

(** ** On the memory heap *)

#[local] Instance demo_allocator : Allocator hstate := heap_allocator 0.
#[local] Opaque demo2.

(** The data of a caller. *)
Definition sp_caller : M (owned hstate spobj) Z := p <- lift_alloc (al_malloc 4) ;; init_obj p (OBuf [1; 2; 3; 4]) ;;; ret p.
Definition sp_out0 : outcome (owned hstate spobj) Z := sp_caller (Own demo2 ∅).
Definition sp_demo0 : owned hstate spobj := match sp_out0 with Ret _ s => s | _ => Own demo2 ∅ end.
Definition sp_buf : Z := match sp_out0 with Ret p _ => p | _ => 0 end.

Lemma sp_empty_ok : owned_ok sp_size (Own demo2 (∅ : gmap Z spobj)).
Proof.
  exists ∅. split; [|intros p o; by rewrite lookup_empty].
  exists (heap_at demo2), (layout demo2), ∅. split; [apply demo2_represents|done].
Qed.

Lemma sp_demo0_ok : owned_ok sp_size sp_demo0 /\ o_objs sp_demo0 !! sp_buf = Some (OBuf [1; 2; 3; 4]).
Proof.
  assert (wp sp_caller (fun p s => p = 0 \/ owned_ok sp_size s /\ o_objs s !! p = Some (OBuf [1; 2; 3; 4])) (Own demo2 ∅)) as Hw.
  { unfold sp_caller. apply wp_bind. eapply (malloc_obj_spec sp_size); [apply sp_empty_ok|lia|by intros; left|]. intros p a Hp0 Hp Hnew. right.
    split; [by apply Hnew; vm_compute|apply lookup_insert_eq]. }
  destruct (proj1 (wp_run _ _ _) Hw) as (p & s & E & Hres). unfold sp_demo0, sp_buf. change (sp_out0 = Ret p s) in E.
  assert (match sp_out0 with Ret p _ => negb (p =? 0) | _ => false end = true) as Eok by (by vm_compute).
  rewrite E in Eok |- *. clear E. destruct Hres as [->|Hres]; [done|exact Hres].
Qed.

Definition sp_out1 : outcome (owned hstate spobj) Z := tuya_smartpointer_create pthread_ok sp_buf [1; 2; 3; 4] 4 false 2 sp_demo0.
Definition sp_demo1 : owned hstate spobj := match sp_out1 with Ret _ s => s | _ => sp_demo0 end.
Definition sp_ptr : Z := match sp_out1 with Ret p _ => p | _ => 0 end.
Definition has_lock (s : owned hstate spobj) (p : Z) : bool := match o_objs s !! p with Some (OSp x _) => negb (sp_mutex x =? 0) | _ => false end.

Lemma sp_demo1_ok : exists mx, sp_rep [] sp_demo1 sp_ptr mx sp_buf 4 2.
Proof.
  destruct sp_demo0_ok as [Ho Hb]. pose proof (smartpointer_create_spec sp_demo0 sp_buf [1; 2; 3; 4] 4 2 Ho Hb ltac:(lia) ltac:(lia)) as Hw.
  destruct (proj1 (wp_run _ _ _) Hw) as (p & s & E & _ & Hres). unfold sp_demo1, sp_ptr. change (sp_out1 = Ret p s) in E.
  assert (match sp_out1 with Ret p s => negb (p =? 0) && has_lock s p | _ => false end = true) as Eok by (by vm_compute).
  rewrite E in Eok |- *. clear E. destruct Hres as [->|[Hres|Hres]]; [done|exact Hres|]. exfalso. unfold has_lock in Eok. rewrite Hres in Eok. cbn in Eok.
  by rewrite andb_false_r in Eok.
Qed.

(** A copy of the caller's data. *)
Definition sp_out2 : outcome (owned hstate spobj) Z := tuya_smartpointer_create pthread_ok sp_buf [1; 2; 3; 4] 4 true 1 sp_demo0.
Definition sp_demo2 : owned hstate spobj := match sp_out2 with Ret _ s => s | _ => sp_demo0 end.
Definition sp_ptr2 : Z := match sp_out2 with Ret p _ => p | _ => 0 end.

Lemma sp_demo2_ok : exists mx, sp_rep [1; 2; 3; 4] sp_demo2 sp_ptr2 mx (sp_ptr2 + SIZEOF_SMARTPOINTER_T) 4 1.
Proof.
  destruct sp_demo0_ok as [Ho Hb]. pose proof (owned_positive sp_size _ _ _ Ho Hb). pose proof (smartpointer_copy_spec sp_demo0 sp_buf [1; 2; 3; 4] 4 1 Ho ltac:(lia) ltac:(lia) eq_refl ltac:(lia)) as Hw.
  destruct (proj1 (wp_run _ _ _) Hw) as (p & s & E & Hres). unfold sp_demo2, sp_ptr2. change (sp_out2 = Ret p s) in E.
  assert (match sp_out2 with Ret p s => negb (p =? 0) && has_lock s p | _ => false end = true) as Eok by (by vm_compute).
  rewrite E in Eok |- *. clear E. destruct Hres as [->|[(x & d & Hp & Hx)|Hres]]; [done| |exact Hres]. exfalso. unfold has_lock in Eok. rewrite Hp, Hx in Eok. cbn in Eok.
  by rewrite andb_false_r in Eok.
Qed.
#[local] Opaque sp_demo1 sp_ptr sp_buf sp_demo2 sp_ptr2.

Lemma smartpointer_counts_witness :
  (exists mx, sp_rep [] sp_demo1 sp_ptr mx sp_buf 4 2 /\ exists s', sp_exec sp_ptr [SpGet; SpPut; SpPut; SpPut] sp_demo1 = Ret tt s' /\ sp_left [] sp_demo1 sp_ptr mx sp_buf 4 0 s') /\
  sp_exec sp_ptr2 [SpGet; SpPut; SpPut] sp_demo2 = Fault.
Proof.
  split.
  - destruct sp_demo1_ok as [mx Hr]. exists mx. split; [exact Hr|]. refine (smartpointer_counts [] [SpGet; SpPut; SpPut; SpPut] sp_demo1 sp_ptr mx sp_buf 4 2 0 Hr _ eq_refl). cbn. lia.
  - destruct sp_demo2_ok as [mx Hr]. refine (smartpointer_counts [1; 2; 3; 4] [SpGet; SpPut; SpPut] sp_demo2 sp_ptr2 mx _ 4 1 0 Hr _ eq_refl). cbn. lia.
Defined.
