(* ===== verification/TklPwm.v ===== *)
(** * PWM channels: [src/tkl_pwm.c]

    The adapter drives the PWM channels of a chip through the files of
    [/sys/class/pwm] and keeps, for each of twelve channels, the configuration and
    whether it is running.  The kernel is a parameter, the class [PwmSysfs]: which
    files exist, what a write does, and the documented rules of the files — the
    active time is at most the period, the polarity of a running channel cannot be
    changed, nothing changes when a write fails.  A path
    that the code prints with [snprintf] is a constructor of [pwm_path]. *)

From S2P Require Import Prelude.

(** ** The kernel interface *)

Inductive pwm_path :=
| ChipDir (chip : Z)
| PwmDir (chip channel : Z)
| ExportFile (chip : Z)
| UnexportFile (chip : Z)
| EnableFile (chip channel : Z)
| PeriodFile (chip channel : Z)
| DutyFile (chip channel : Z)
| PolarityFile (chip channel : Z).

(** The text written: a number, or the name of a polarity. *)
Inductive pwm_text := TNum (n : Z) | TPolarity (inversed : bool).

(** [open], [write] and [close] on a file. *)
Inductive sys_result := NotOpened (err : Z) | WriteFailed (err : Z) | Short | Written.

(** The output of an exported channel. *)
Record pwm_chan := Chan { c_period : Z; c_duty : Z; c_inversed : bool; c_enabled : bool }.

#[export] Instance pwm_chan_eq_dec : EqDecision pwm_chan.
Proof. solve_decision. Defined.

Definition PWM_SYSFS_CHIP : Z := 0.

(** Channels that are there stay as they are; others may appear. *)
Definition grows (c c' : gmap Z pwm_chan) : Prop := forall ch x, c !! ch = Some x -> c' !! ch = Some x.

(** What a successful write of [v] to [p] does to the channels. *)
Definition write_effect (p : pwm_path) (v : pwm_text) (c c' : gmap Z pwm_chan) : Prop :=
  match p, v with
  | ExportFile _, TNum _ => grows c c'
  | UnexportFile _, TNum ch => forall ch', ch' <> ch -> c' !! ch' = c !! ch'
  | EnableFile _ ch, TNum n => exists x, c !! ch = Some x /\ c' = <[ch := Chan (c_period x) (c_duty x) (c_inversed x) (negb (n =? 0))]> c
  | PeriodFile _ ch, TNum n => exists x, c !! ch = Some x /\ c_duty x <= n /\ c' = <[ch := Chan n (c_duty x) (c_inversed x) (c_enabled x)]> c
  | DutyFile _ ch, TNum n => exists x, c !! ch = Some x /\ n <= c_period x /\ c' = <[ch := Chan (c_period x) n (c_inversed x) (c_enabled x)]> c
  | PolarityFile _ ch, TPolarity b => exists x, c !! ch = Some x /\ c_enabled x = false /\ c' = <[ch := Chan (c_period x) (c_duty x) b (c_enabled x)]> c
  | _, _ => False
  end.

Class PwmSysfs (K : Type) := {
  sys_exists : pwm_path -> K -> bool;
  sys_write : pwm_path -> pwm_text -> M K sys_result;
  sys_usleep : M K unit;
  sys_chans : K -> gmap Z pwm_chan;
  sys_dir_ok ch k : sys_exists (PwmDir PWM_SYSFS_CHIP ch) k = true -> is_Some (sys_chans k !! ch);
  sys_usleep_ok k : wp sys_usleep (fun _ k' => grows (sys_chans k) (sys_chans k')) k;
  sys_write_ok p v k : wp (sys_write p v) (fun r k' =>
    match r with
    | Written => write_effect p v (sys_chans k) (sys_chans k')
    | NotOpened e | WriteFailed e => 0 < e /\ sys_chans k' = sys_chans k
    | Short => sys_chans k' = sys_chans k
    end) k
}.

(** ** Data *)

Inductive TUYA_PWM_POLARITY_E := TUYA_PWM_NEGATIVE | TUYA_PWM_POSITIVE.
Inductive TUYA_PWM_COUNT_E := TUYA_PWM_CNT_UP | TUYA_PWM_CNT_UP_AND_DOWN.

Record TUYA_PWM_BASE_CFG_T := mkPwmCfg {
  w_polarity : TUYA_PWM_POLARITY_E;
  w_count_mode : TUYA_PWM_COUNT_E;
  w_duty : Z;
  w_cycle : Z;
  w_frequency : Z
}.

Record pwm_ctx_t := mkPwm { x_inited : bool; x_exported : bool; x_enabled : bool; x_cfg : TUYA_PWM_BASE_CFG_T }.

Definition TUYA_PWM_NUM_MAX : Z := 12.
Definition PWM_SYSFS_CHANNEL_BASE : Z := 0.
Definition TUYA_PWM_DUTY_SCALE : Z := 10000.

Definition zero_pwm : pwm_ctx_t := mkPwm false false false (mkPwmCfg TUYA_PWM_NEGATIVE TUYA_PWM_CNT_UP 0 0 0).

Definition with_duty d c := mkPwmCfg (w_polarity c) (w_count_mode c) d (w_cycle c) (w_frequency c).
Definition with_frequency f c := mkPwmCfg (w_polarity c) (w_count_mode c) (w_duty c) (w_cycle c) f.
Definition with_polarity p c := mkPwmCfg p (w_count_mode c) (w_duty c) (w_cycle c) (w_frequency c).
Definition with_pwm_cfg c x := mkPwm (x_inited x) (x_exported x) (x_enabled x) c.
Definition with_pwm_enabled b x := mkPwm (x_inited x) (x_exported x) b (x_cfg x).

Record pwm_state (K : Type) := Pwm { g_pwm_ctx : list pwm_ctx_t; g_pwm_lock : bool; g_pwm_sys : K }.
Arguments Pwm {K}. Arguments g_pwm_ctx {K}. Arguments g_pwm_lock {K}. Arguments g_pwm_sys {K}.

Definition pwm_zero {K} (k : K) : pwm_state K := Pwm (replicate (Z.to_nat TUYA_PWM_NUM_MAX) zero_pwm) false k.

Definition EPERM : Z := 1.
Definition ENOENT : Z := 2.
Definition EIO : Z := 5.
Definition EACCES : Z := 13.
Definition EBUSY : Z := 16.
Definition ENODEV : Z := 19.
Definition EINVAL : Z := 22.
Definition ETIMEDOUT : Z := 110.

(** ** Times *)

Definition period_ns_from_frequency (frequency : Z) : Z :=
  if frequency =? 0 then 0 else 1000000000 / frequency.

Definition duty_ns_from_cfg (period_ns : Z) (cfg : TUYA_PWM_BASE_CFG_T) : Z :=
  if period_ns =? 0 then 0
  else if negb (w_cycle cfg =? 0) && (w_duty cfg <=? w_cycle cfg) then u64 (period_ns * w_duty cfg) / w_cycle cfg
  else
    let duty := w_duty cfg in
    let duty := if TUYA_PWM_DUTY_SCALE <? duty then TUYA_PWM_DUTY_SCALE else duty in
    u64 (period_ns * duty) / TUYA_PWM_DUTY_SCALE.

(** The active time that the callers write. *)
Definition clamped_duty (period_ns : Z) (cfg : TUYA_PWM_BASE_CFG_T) : Z :=
  let duty_ns := duty_ns_from_cfg period_ns cfg in
  if period_ns <? duty_ns then period_ns else duty_ns.

Definition map_errno_to_oprt (err : Z) : OPERATE_RET :=
  if 0 <=? err then OPRT_OK
  else
    let e := - err in
    if e =? EINVAL then OPRT_INVALID_PARM
    else if (e =? ENOENT) || (e =? ENODEV) then OPRT_NOT_FOUND
    else OPRT_COM_ERROR.

Definition ch_valid (ch_id : Z) : bool := (0 <=? ch_id) && (ch_id <? TUYA_PWM_NUM_MAX).

Section Pwm.
Context {K : Type} `{!PwmSysfs K}.
Local Abbreviation W := (M (pwm_state K)).

Definition on_sys {R} (c : M K R) : W R := fun s =>
  match c (g_pwm_sys s) with Ret r k => Ret r (Pwm (g_pwm_ctx s) (g_pwm_lock s) k) | Fault => Fault | Diverge => Diverge end.
Definition get_ctx (ch : Z) : W pwm_ctx_t := fun s =>
  if 0 <=? ch then match g_pwm_ctx s !! Z.to_nat ch with Some x => Ret x s | None => Fault end else Fault.
Definition upd_ctx (ch : Z) (f : pwm_ctx_t -> pwm_ctx_t) : W unit :=
  x <- get_ctx ch ;; modify (fun s => Pwm (<[Z.to_nat ch := f x]> (g_pwm_ctx s)) (g_pwm_lock s) (g_pwm_sys s)).
(** The lock is not recursive. *)
Definition pwm_lock : W unit := fun s => if g_pwm_lock s then Diverge else Ret tt (Pwm (g_pwm_ctx s) true (g_pwm_sys s)).
Definition pwm_unlock : W unit := modify (fun s => Pwm (g_pwm_ctx s) false (g_pwm_sys s)).
(** Unlock and return. *)
Definition leave {R} (r : R) : W R := pwm_unlock ;;; ret r.

(** ** Files *)

Definition path_exists (p : pwm_path) : W bool := gets (fun s => sys_exists p (g_pwm_sys s)).

Definition write_text_file (p : pwm_path) (v : pwm_text) : W Z :=
  r <- on_sys (sys_write p v) ;;
  ret (match r with
       | NotOpened err => - err
       | WriteFailed saved => - saved
       | Short => - EIO
       | Written => 0
       end).

(** The loop that waits for the directory of the channel. *)
Fixpoint wait_dir (n : nat) (p : pwm_path) : W Z :=
  match n with
  | O => ret (- ETIMEDOUT)
  | S n' =>
    b <- path_exists p ;;
    if b then ret 0 else on_sys sys_usleep ;;; wait_dir n' p
  end.

Definition ensure_exported_locked (chip channel : Z) : W Z :=
  b <- path_exists (ChipDir chip) ;;
  if negb b then ret (- ENOENT)
  else
    b <- path_exists (PwmDir chip channel) ;;
    if b then ret 0
    else
      rt <- write_text_file (ExportFile chip) (TNum channel) ;;
      if (rt <? 0) && negb (rt =? - EBUSY) then ret rt
      else wait_dir 50 (PwmDir chip channel).

Definition unexport_locked (chip channel : Z) : W Z :=
  b <- path_exists (ChipDir chip) ;;
  if negb b then ret (- ENOENT)
  else
    b <- path_exists (PwmDir chip channel) ;;
    if negb b then ret 0
    else write_text_file (UnexportFile chip) (TNum channel).

Definition set_enable_locked (chip channel : Z) (enable : bool) : W Z :=
  write_text_file (EnableFile chip channel) (TNum (if enable then 1 else 0)).
Definition set_period_locked (chip channel period_ns : Z) : W Z := write_text_file (PeriodFile chip channel) (TNum period_ns).
Definition set_duty_locked (chip channel duty_ns : Z) : W Z := write_text_file (DutyFile chip channel) (TNum duty_ns).
Definition set_polarity_locked (chip channel : Z) (polarity : TUYA_PWM_POLARITY_E) : W Z :=
  write_text_file (PolarityFile chip channel) (TPolarity (match polarity with TUYA_PWM_NEGATIVE => true | TUYA_PWM_POSITIVE => false end)).

(** ** Operations *)

Definition tkl_pwm_init (ch_id : Z) (cfg : option TUYA_PWM_BASE_CFG_T) : W OPERATE_RET :=
  match cfg with
  | None => ret OPRT_INVALID_PARM
  | Some cfg =>
    if negb (ch_valid ch_id) then ret OPRT_INVALID_PARM
    else
      let chip := PWM_SYSFS_CHIP in
      let channel := PWM_SYSFS_CHANNEL_BASE + ch_id in
      pwm_lock ;;;
      err <- ensure_exported_locked chip channel ;;
      if err <? 0 then leave (map_errno_to_oprt err)
      else
        _ <- set_enable_locked chip channel false ;;
        err <- set_polarity_locked chip channel (w_polarity cfg) ;;
        if err <? 0 then leave (map_errno_to_oprt err)
        else
          let period_ns := period_ns_from_frequency (w_frequency cfg) in
          if period_ns =? 0 then leave OPRT_INVALID_PARM
          else
            let duty_ns := clamped_duty period_ns cfg in
            err <- set_period_locked chip channel period_ns ;;
            if err <? 0 then leave (map_errno_to_oprt err)
            else
              err <- set_duty_locked chip channel duty_ns ;;
              if err <? 0 then leave (map_errno_to_oprt err)
              else
                upd_ctx ch_id (fun _ => mkPwm true true false cfg) ;;;
                leave OPRT_OK
  end.

Definition tkl_pwm_deinit (ch_id : Z) : W OPERATE_RET :=
  if negb (ch_valid ch_id) then ret OPRT_INVALID_PARM
  else
    let chip := PWM_SYSFS_CHIP in
    let channel := PWM_SYSFS_CHANNEL_BASE + ch_id in
    pwm_lock ;;;
    x <- get_ctx ch_id ;;
    (if x_enabled x then
       _ <- set_enable_locked chip channel false ;;
       upd_ctx ch_id (with_pwm_enabled false)
     else ret tt) ;;;
    _ <- unexport_locked chip channel ;;
    upd_ctx ch_id (fun _ => zero_pwm) ;;;
    leave OPRT_OK.

(** [tkl_pwm_start] and [tkl_pwm_stop] differ in the value written. *)
Definition pwm_switch (enable : bool) (ch_id : Z) : W OPERATE_RET :=
  if negb (ch_valid ch_id) then ret OPRT_INVALID_PARM
  else
    let chip := PWM_SYSFS_CHIP in
    let channel := PWM_SYSFS_CHANNEL_BASE + ch_id in
    pwm_lock ;;;
    x <- get_ctx ch_id ;;
    if negb (x_inited x) then leave OPRT_INVALID_PARM
    else
      err <- set_enable_locked chip channel enable ;;
      if err <? 0 then leave (map_errno_to_oprt err)
      else
        upd_ctx ch_id (with_pwm_enabled enable) ;;;
        leave OPRT_OK.
Definition tkl_pwm_start : Z -> W OPERATE_RET := pwm_switch true.
Definition tkl_pwm_stop : Z -> W OPERATE_RET := pwm_switch false.

Fixpoint multichannel_loop (f : Z -> W OPERATE_RET) (ch_id : list Z) (num : nat) : W OPERATE_RET :=
  match num with
  | O => ret OPRT_OK
  | S n =>
    match ch_id with
    | [] => fault
    | c :: rest =>
      rt <- f c ;;
      if negb (bool_decide (rt = OPRT_OK)) then ret rt else multichannel_loop f rest n
    end
  end.
Definition pwm_multichannel (f : Z -> W OPERATE_RET) (ch_id : option (list Z)) (num : Z) : W OPERATE_RET :=
  match ch_id with
  | None => ret OPRT_INVALID_PARM
  | Some l => if num =? 0 then ret OPRT_INVALID_PARM else multichannel_loop f l (Z.to_nat num)
  end.
Definition tkl_pwm_multichannel_start : option (list Z) -> Z -> W OPERATE_RET := pwm_multichannel tkl_pwm_start.
Definition tkl_pwm_multichannel_stop : option (list Z) -> Z -> W OPERATE_RET := pwm_multichannel tkl_pwm_stop.

Definition tkl_pwm_duty_set (ch_id duty : Z) : W OPERATE_RET :=
  if negb (ch_valid ch_id) then ret OPRT_INVALID_PARM
  else
    let chip := PWM_SYSFS_CHIP in
    let channel := PWM_SYSFS_CHANNEL_BASE + ch_id in
    pwm_lock ;;;
    x <- get_ctx ch_id ;;
    if negb (x_inited x) then leave OPRT_INVALID_PARM
    else
      let cfg := with_duty duty (x_cfg x) in
      let period_ns := period_ns_from_frequency (w_frequency cfg) in
      let duty_ns := clamped_duty period_ns cfg in
      err <- set_duty_locked chip channel duty_ns ;;
      if err <? 0 then leave (map_errno_to_oprt err)
      else
        upd_ctx ch_id (with_pwm_cfg cfg) ;;;
        leave OPRT_OK.

(** The end of [tkl_pwm_frequency_set] and [tkl_pwm_polarity_set]: run again if the
    channel was running, then record the change. *)
Definition pwm_restore (chip channel ch_id : Z) (was_enabled : bool) (f : pwm_ctx_t -> pwm_ctx_t) : W OPERATE_RET :=
  err <- (if was_enabled then set_enable_locked chip channel true else ret 0) ;;
  if was_enabled && (err <? 0) then leave (map_errno_to_oprt err)
  else
    upd_ctx ch_id (fun x => with_pwm_enabled was_enabled (f x)) ;;;
    leave OPRT_OK.

Definition tkl_pwm_frequency_set (ch_id frequency : Z) : W OPERATE_RET :=
  if negb (ch_valid ch_id) || (frequency =? 0) then ret OPRT_INVALID_PARM
  else
    let chip := PWM_SYSFS_CHIP in
    let channel := PWM_SYSFS_CHANNEL_BASE + ch_id in
    pwm_lock ;;;
    x <- get_ctx ch_id ;;
    if negb (x_inited x) then leave OPRT_INVALID_PARM
    else
      let was_enabled := x_enabled x in
      _ <- set_enable_locked chip channel false ;;
      let cfg := with_frequency frequency (x_cfg x) in
      let period_ns := period_ns_from_frequency (w_frequency cfg) in
      let duty_ns := clamped_duty period_ns cfg in
      err <- set_period_locked chip channel period_ns ;;
      if err <? 0 then leave (map_errno_to_oprt err)
      else
        err <- set_duty_locked chip channel duty_ns ;;
        if err <? 0 then leave (map_errno_to_oprt err)
        else pwm_restore chip channel ch_id was_enabled (with_pwm_cfg cfg).

Definition tkl_pwm_polarity_set (ch_id : Z) (polarity : TUYA_PWM_POLARITY_E) : W OPERATE_RET :=
  if negb (ch_valid ch_id) then ret OPRT_INVALID_PARM
  else
    let chip := PWM_SYSFS_CHIP in
    let channel := PWM_SYSFS_CHANNEL_BASE + ch_id in
    pwm_lock ;;;
    x <- get_ctx ch_id ;;
    if negb (x_inited x) then leave OPRT_INVALID_PARM
    else
      let was_enabled := x_enabled x in
      _ <- set_enable_locked chip channel false ;;
      err <- set_polarity_locked chip channel polarity ;;
      if err <? 0 then leave (map_errno_to_oprt err)
      else pwm_restore chip channel ch_id was_enabled (fun x => with_pwm_cfg (with_polarity polarity (x_cfg x)) x).

Definition tkl_pwm_info_set (ch_id : Z) (info : option TUYA_PWM_BASE_CFG_T) : W OPERATE_RET :=
  match info with
  | None => ret OPRT_INVALID_PARM
  | Some cfg =>
    if negb (ch_valid ch_id) then ret OPRT_INVALID_PARM
    else
      pwm_lock ;;;
      x <- get_ctx ch_id ;;
      pwm_unlock ;;;
      let was_inited := x_inited x in
      let was_enabled := x_enabled x in
      let restart := if was_enabled then tkl_pwm_start ch_id else ret OPRT_OK in
      if negb was_inited then
        rt <- tkl_pwm_init ch_id info ;;
        if negb (bool_decide (rt = OPRT_OK)) then ret rt else restart
      else
        (if was_enabled then _ <- tkl_pwm_stop ch_id ;; ret tt else ret tt) ;;;
        rt <- tkl_pwm_polarity_set ch_id (w_polarity cfg) ;;
        if negb (bool_decide (rt = OPRT_OK)) then ret rt
        else
          rt <- tkl_pwm_frequency_set ch_id (w_frequency cfg) ;;
          if negb (bool_decide (rt = OPRT_OK)) then ret rt
          else
            rt <- tkl_pwm_duty_set ch_id (w_duty cfg) ;;
            if negb (bool_decide (rt = OPRT_OK)) then ret rt
            else
              pwm_lock ;;;
              upd_ctx ch_id (with_pwm_cfg cfg) ;;;
              pwm_unlock ;;;
              restart
  end.

(** The result and what is stored through [info]. *)
Definition tkl_pwm_info_get (ch_id : Z) (info : bool) : W (OPERATE_RET * option TUYA_PWM_BASE_CFG_T) :=
  if negb (ch_valid ch_id) || negb info then ret (OPRT_INVALID_PARM, None)
  else
    pwm_lock ;;;
    x <- get_ctx ch_id ;;
    if negb (x_inited x) then leave (OPRT_INVALID_PARM, None)
    else leave (OPRT_OK, Some (x_cfg x)).

Definition tkl_pwm_cap_start (ch_id : Z) : W OPERATE_RET := ret OPRT_NOT_SUPPORTED.
Definition tkl_pwm_cap_stop (ch_id : Z) : W OPERATE_RET := ret OPRT_NOT_SUPPORTED.
End Pwm.
