(* ===== verification/TklPwmProps.v ===== *)
(** * PWM channels run as they are configured

    As long as the calls on a channel return success, the channel runs with the
    period, active time and polarity of the recorded configuration, and it runs
    exactly when the record says so — over any kernel that keeps the documented
    rules of the PWM files, with any calls on the other channels in between.  A
    rise of the frequency above the active time breaks this, as is shown too. *)

From S2P Require Import Prelude TklPwm.

(** ** Times *)

Definition cfg_fits (cfg : TUYA_PWM_BASE_CFG_T) : Prop := 0 <= w_duty cfg < 4294967296 /\ 0 <= w_cycle cfg < 4294967296 /\ 0 <= w_frequency cfg < 4294967296.

Lemma period_bounds f : 0 <= f -> 0 <= period_ns_from_frequency f <= 1000000000.
Proof.
  intros Hf. unfold period_ns_from_frequency. zcase; [lia|]. split; [apply Z.div_pos; lia|]. apply Z.div_le_upper_bound; nia.
Qed.

Lemma scaled_bounds p d c : 0 <= p -> 0 <= d <= c -> 0 < c -> 0 <= p * d / c <= p.
Proof. intros Hp Hd Hc. split; [apply Z.div_pos; nia|]. apply Z.div_le_upper_bound; nia. Qed.

(** The active time is computed without overflow: it is the whole part of
    period times duty over cycle when the duty is at most a non-zero cycle, of
    period times duty over 10000 otherwise, with the duty cut at 10000; it is never
    longer than the period. *)
Theorem pwm_duty_exact cfg : cfg_fits cfg ->
  let p := period_ns_from_frequency (w_frequency cfg) in
  0 <= clamped_duty p cfg <= p /\
  clamped_duty p cfg = (if decide (0 < w_cycle cfg /\ w_duty cfg <= w_cycle cfg) then p * w_duty cfg / w_cycle cfg else p * Z.min (w_duty cfg) 10000 / 10000).
Proof.
  intros (Hd & Hc & Hf) p. pose proof (period_bounds (w_frequency cfg) ltac:(lia)) as Hp. fold p in Hp. unfold clamped_duty, duty_ns_from_cfg, TUYA_PWM_DUTY_SCALE.
  destruct (Z.eqb_spec p 0) as [E|E]; [rewrite E; cbn [Z.ltb]; destruct (decide _) as [[? ?]|]; rewrite Z.mul_0_l, Z.div_0_l by lia; done|].
  destruct (Z.eqb_spec (w_cycle cfg) 0) as [E0|E0]; cbn [negb andb].
  2: destruct (Z.leb_spec (w_duty cfg) (w_cycle cfg)).
  2: { rewrite decide_True by lia. rewrite u64_small by nia. pose proof (scaled_bounds p (w_duty cfg) (w_cycle cfg)). rewrite (proj2 (Z.ltb_ge p _)) by lia. lia. }
  all: rewrite decide_False by lia; destruct (Z.ltb_spec 10000 (w_duty cfg)); rewrite u64_small by nia;
    [pose proof (scaled_bounds p 10000 10000); rewrite Z.min_r by lia|pose proof (scaled_bounds p (w_duty cfg) 10000); rewrite Z.min_l by lia];
    rewrite (proj2 (Z.ltb_ge p _)) by lia; lia.
Qed.

Lemma pwm_duty_exact_witness :
  let cfg := mkPwmCfg TUYA_PWM_POSITIVE TUYA_PWM_CNT_UP 5000 10000 1000 in
  let p := period_ns_from_frequency (w_frequency cfg) in
  0 <= clamped_duty p cfg <= p /\
  clamped_duty p cfg = (if decide (0 < w_cycle cfg /\ w_duty cfg <= w_cycle cfg) then p * w_duty cfg / w_cycle cfg else p * Z.min (w_duty cfg) 10000 / 10000).
Proof. intros cfg. refine (pwm_duty_exact cfg _). unfold cfg_fits. cbn. lia. Defined.

Lemma map_errno_neg e : 0 < e -> map_errno_to_oprt (- e) <> OPRT_OK.
Proof. intros He. unfold map_errno_to_oprt. rewrite (proj2 (Z.leb_gt 0 (- e))) by lia. repeat case_match; done. Qed.

(** ** A channel and the others *)

Section Sync.
Context {K : Type} `{!PwmSysfs K}.
Local Abbreviation S_ := (pwm_state K).

(** The output a configuration asks for. *)
Definition hw (cfg : TUYA_PWM_BASE_CFG_T) (enabled : bool) : pwm_chan :=
  let p := period_ns_from_frequency (w_frequency cfg) in
  Chan p (clamped_duty p cfg) (match w_polarity cfg with TUYA_PWM_NEGATIVE => true | TUYA_PWM_POSITIVE => false end) enabled.

(** The record [x] of a channel and its output [oc] agree. *)
Definition sync_at (x : pwm_ctx_t) (oc : option pwm_chan) : Prop :=
  if x_inited x then oc = Some (hw (x_cfg x) (x_enabled x)) else x_enabled x = false.

(** The other channels: their records are the same, their outputs go on. *)
Definition others (ch : Z) (s s' : S_) : Prop := forall ch', 0 <= ch' -> ch' <> ch ->
  g_pwm_ctx s' !! Z.to_nat ch' = g_pwm_ctx s !! Z.to_nat ch' /\
  forall c, sys_chans (g_pwm_sys s) !! ch' = Some c -> sys_chans (g_pwm_sys s') !! ch' = Some c.

(** Since [s0] only channel [ch] changed; now its record is [x], its output [oc]. *)
Record at_ (s0 : S_) (ch : Z) (lk : bool) (x : pwm_ctx_t) (oc : option pwm_chan) (s : S_) : Prop := {
  at_valid : 0 <= ch < TUYA_PWM_NUM_MAX;
  at_len : length (g_pwm_ctx s) = Z.to_nat TUYA_PWM_NUM_MAX;
  at_lock : g_pwm_lock s = lk;
  at_ctx : g_pwm_ctx s !! Z.to_nat ch = Some x;
  at_chan : sys_chans (g_pwm_sys s) !! ch = oc;
  at_others : others ch s0 s
}.

Lemma wp_pwm_lock s0 ch x oc s (Q : unit -> S_ -> Prop) : at_ s0 ch false x oc s -> (forall s', at_ s0 ch true x oc s' -> Q tt s') -> wp pwm_lock Q s.
Proof. intros [? ? Hl ? ? ?] HQ. unfold wp, pwm_lock. rewrite Hl. by apply HQ. Qed.

Lemma wp_pwm_unlock s0 ch lk x oc s (Q : unit -> S_ -> Prop) : at_ s0 ch lk x oc s -> (forall s', at_ s0 ch false x oc s' -> Q tt s') -> wp pwm_unlock Q s.
Proof. intros [? ? Hl ? ? ?] HQ. apply wp_modify. by apply HQ. Qed.

Lemma wp_leave {R} s0 ch lk x oc s (r : R) (Q : R -> S_ -> Prop) : at_ s0 ch lk x oc s -> (forall s', at_ s0 ch false x oc s' -> Q r s') -> wp (leave r) Q s.
Proof. intros Hs HQ. apply wp_bind. eapply wp_pwm_unlock; [done|]. intros s' Hs'. by apply wp_ret, HQ. Qed.

Lemma wp_get_ctx s0 ch lk x oc s (Q : pwm_ctx_t -> S_ -> Prop) : at_ s0 ch lk x oc s -> Q x s -> wp (get_ctx ch) Q s.
Proof. intros [Hv ? ? Hx ? ?] HQ. unfold wp, get_ctx. by rewrite (proj2 (Z.leb_le 0 ch)), Hx by lia. Qed.

Lemma wp_upd_ctx s0 ch lk x oc s f (Q : unit -> S_ -> Prop) : at_ s0 ch lk x oc s -> (forall s', at_ s0 ch lk (f x) oc s' -> Q tt s') -> wp (upd_ctx ch f) Q s.
Proof.
  intros Hs HQ. unfold upd_ctx. apply wp_bind. eapply wp_get_ctx; [done|]. apply wp_modify, HQ. destruct Hs as [Hv Hl Hk Hx Hc Ho].
  constructor; cbn [g_pwm_ctx g_pwm_lock g_pwm_sys]; try done; [by rewrite length_insert|apply list_lookup_insert_eq; lia|].
  intros ch' H0 Hne. cbn [g_pwm_ctx g_pwm_sys]. rewrite list_lookup_insert_ne by lia. by apply Ho.
Qed.

(** Writing to a file of the channel. *)
Lemma wp_on_pwm_sys {R} (c : M K R) Q s : wp c (fun r k => Q r (Pwm (g_pwm_ctx s) (g_pwm_lock s) k)) (g_pwm_sys s) -> wp (on_sys c) Q s.
Proof. unfold wp, on_sys. by destruct (c (g_pwm_sys s)). Qed.

Lemma at_kernel s0 ch lk x oc oc' s k' : at_ s0 ch lk x oc s -> sys_chans k' !! ch = oc' ->
  (forall ch' c, ch' <> ch -> sys_chans (g_pwm_sys s) !! ch' = Some c -> sys_chans k' !! ch' = Some c) ->
  at_ s0 ch lk x oc' (Pwm (g_pwm_ctx s) (g_pwm_lock s) k').
Proof.
  intros [Hv Hl Hk Hx Hc Ho] E Hoth. constructor; cbn [g_pwm_ctx g_pwm_lock g_pwm_sys]; try done. intros ch' H0 Hne. destruct (Ho ch' H0 Hne) as [E1 E2].
  split; [done|]. intros c Hc'. cbn [g_pwm_sys]. apply Hoth; [done|]. by apply E2.
Qed.

(** A write succeeds with its effect on the output of the channel, or fails. *)
Lemma write_spec s0 ch lk x oc s p v (E : pwm_chan -> option pwm_chan -> Prop) (Q : Z -> S_ -> Prop) : at_ s0 ch lk x oc s ->
  (forall c c', write_effect p v c c' -> (forall ch' y, ch' <> ch -> c !! ch' = Some y -> c' !! ch' = Some y) /\ exists y, c !! ch = Some y /\ E y (c' !! ch)) ->
  (forall y oc' s', oc = Some y -> E y oc' -> at_ s0 ch lk x oc' s' -> Q 0 s') ->
  (forall e s', 0 < e -> at_ s0 ch lk x oc s' -> Q (- e) s') ->
  wp (write_text_file p v) Q s.
Proof.
  intros Hs Heff Hok Hfail. unfold write_text_file. apply wp_bind, wp_on_pwm_sys. eapply wp_mono; [apply sys_write_ok|].
  assert (forall k', sys_chans k' = sys_chans (g_pwm_sys s) -> at_ s0 ch lk x oc (Pwm (g_pwm_ctx s) (g_pwm_lock s) k')) as Hsame.
  { intros k' Ek. eapply at_kernel; [exact Hs|rewrite Ek; apply Hs|]. intros. by rewrite Ek. }
  intros r k' Hr. destruct r as [e|e| |]; apply wp_ret.
  - destruct Hr as [He Ek]. by apply Hfail, Hsame.
  - destruct Hr as [He Ek]. by apply Hfail, Hsame.
  - by apply Hfail, Hsame.
  - destruct (Heff _ _ Hr) as (Hoth & y & Hy & HE). eapply Hok; [|exact HE|].
    + by rewrite <-Hy, (at_chan _ _ _ _ _ _ Hs).
    + eapply at_kernel; [exact Hs|done|]. intros ch' c Hne. by apply Hoth.
Qed.

Definition set_en (b : bool) (c : pwm_chan) : pwm_chan := Chan (c_period c) (c_duty c) (c_inversed c) b.
Definition set_per (n : Z) (c : pwm_chan) : pwm_chan := Chan n (c_duty c) (c_inversed c) (c_enabled c).
Definition set_dut (n : Z) (c : pwm_chan) : pwm_chan := Chan (c_period c) n (c_inversed c) (c_enabled c).
Definition set_inv (b : bool) (c : pwm_chan) : pwm_chan := Chan (c_period c) (c_duty c) b (c_enabled c).
Definition neg (p : TUYA_PWM_POLARITY_E) : bool := match p with TUYA_PWM_NEGATIVE => true | TUYA_PWM_POSITIVE => false end.

(** An update of one channel: what [write_spec] asks of it. *)
Lemma insert_effect ch (c c' : gmap Z pwm_chan) y z (E : pwm_chan -> option pwm_chan -> Prop) : c !! ch = Some y -> c' = <[ch := z]> c -> E y (Some z) ->
  (forall ch' w, ch' <> ch -> c !! ch' = Some w -> c' !! ch' = Some w) /\ exists y, c !! ch = Some y /\ E y (c' !! ch).
Proof.
  intros Hy -> HE. split; [intros ch' w Hne; by rewrite lookup_insert_ne|]. exists y. by rewrite lookup_insert_eq.
Qed.

Section Files.
Variables (s0 : S_) (ch : Z) (lk : bool) (x : pwm_ctx_t) (oc : option pwm_chan) (s : S_) (Q : Z -> S_ -> Prop).
Hypothesis Hs : at_ s0 ch lk x oc s.
Hypothesis Hfail : forall e s', 0 < e -> at_ s0 ch lk x oc s' -> Q (- e) s'.

Lemma set_enable_spec b : (forall y s', oc = Some y -> at_ s0 ch lk x (Some (set_en b y)) s' -> Q 0 s') -> wp (set_enable_locked PWM_SYSFS_CHIP ch b) Q s.
Proof.
  intros Hok. eapply (write_spec _ _ _ _ _ _ _ _ (fun y o => o = Some (set_en b y))); [exact Hs| | |done].
  - intros c c' (y & Hy & E). refine (insert_effect ch c c' y _ (fun y o => o = Some (set_en b y)) Hy E _). by destruct b.
  - intros y oc' s' Hy -> Hs'. by eapply Hok.
Qed.

Lemma set_period_spec n : (forall y s', oc = Some y -> c_duty y <= n -> at_ s0 ch lk x (Some (set_per n y)) s' -> Q 0 s') -> wp (set_period_locked PWM_SYSFS_CHIP ch n) Q s.
Proof.
  intros Hok. eapply (write_spec _ _ _ _ _ _ _ _ (fun y o => c_duty y <= n /\ o = Some (set_per n y))); [exact Hs| | |done].
  - intros c c' (y & Hy & Hle & E). exact (insert_effect ch c c' y _ (fun y o => c_duty y <= n /\ o = Some (set_per n y)) Hy E (conj Hle eq_refl)).
  - intros y oc' s' Hy [? ->] Hs'. by eapply Hok.
Qed.

Lemma set_duty_spec n : (forall y s', oc = Some y -> n <= c_period y -> at_ s0 ch lk x (Some (set_dut n y)) s' -> Q 0 s') -> wp (set_duty_locked PWM_SYSFS_CHIP ch n) Q s.
Proof.
  intros Hok. eapply (write_spec _ _ _ _ _ _ _ _ (fun y o => n <= c_period y /\ o = Some (set_dut n y))); [exact Hs| | |done].
  - intros c c' (y & Hy & Hle & E). exact (insert_effect ch c c' y _ (fun y o => n <= c_period y /\ o = Some (set_dut n y)) Hy E (conj Hle eq_refl)).
  - intros y oc' s' Hy [? ->] Hs'. by eapply Hok.
Qed.

Lemma set_polarity_spec p : (forall y s', oc = Some y -> c_enabled y = false -> at_ s0 ch lk x (Some (set_inv (neg p) y)) s' -> Q 0 s') -> wp (set_polarity_locked PWM_SYSFS_CHIP ch p) Q s.
Proof.
  intros Hok. eapply (write_spec _ _ _ _ _ _ _ _ (fun y o => c_enabled y = false /\ o = Some (set_inv (neg p) y))); [exact Hs| | |done].
  - intros c c' (y & Hy & Hen & E). exact (insert_effect ch c c' y _ (fun y o => c_enabled y = false /\ o = Some (set_inv (neg p) y)) Hy E (conj Hen eq_refl)).
  - intros y oc' s' Hy [? ->] Hs'. by eapply Hok.
Qed.
End Files.

(** The output may appear, and stays if it is there. *)
Definition appears (oc oc' : option pwm_chan) : Prop := forall c, oc = Some c -> oc' = Some c.

Lemma at_grows s0 ch lk x oc s k' : at_ s0 ch lk x oc s -> grows (sys_chans (g_pwm_sys s)) (sys_chans k') ->
  exists oc', appears oc oc' /\ at_ s0 ch lk x oc' (Pwm (g_pwm_ctx s) (g_pwm_lock s) k').
Proof.
  intros Hs Hg. exists (sys_chans k' !! ch). split.
  - intros c Hc. apply Hg. rewrite (at_chan _ _ _ _ _ _ Hs). done.
  - eapply at_kernel; [exact Hs|done|]. intros ch' c _. apply Hg.
Qed.

Lemma dir_output s0 ch lk x oc s : at_ s0 ch lk x oc s -> sys_exists (PwmDir PWM_SYSFS_CHIP ch) (g_pwm_sys s) = true -> is_Some oc.
Proof. intros Hs He. rewrite <-(at_chan _ _ _ _ _ _ Hs). by apply sys_dir_ok. Qed.

Lemma wait_dir_spec n : forall s0 ch lk x oc s (Q : Z -> S_ -> Prop), at_ s0 ch lk x oc s ->
  (forall c s', at_ s0 ch lk x (Some c) s' -> Q 0 s') -> (forall e oc' s', 0 < e -> at_ s0 ch lk x oc' s' -> Q (- e) s') ->
  wp (wait_dir n (PwmDir PWM_SYSFS_CHIP ch)) Q s.
Proof.
  induction n as [|n IH]; intros s0 ch lk x oc s Q Hs Hok Hfail; cbn [wait_dir].
  - apply wp_ret. apply (Hfail ETIMEDOUT oc s); [done|exact Hs].
  - apply wp_bind, wp_gets. destruct (sys_exists _ _) eqn:E.
    + apply wp_ret. destruct (dir_output _ _ _ _ _ _ Hs E) as [c ->]. by eapply Hok.
    + apply wp_bind, wp_on_pwm_sys. eapply wp_mono; [apply sys_usleep_ok|]. intros [] k' Hg. destruct (at_grows _ _ _ _ _ _ _ Hs Hg) as (oc' & _ & Hs'). by eapply IH.
Qed.

Lemma ensure_exported_spec s0 ch lk x oc s (Q : Z -> S_ -> Prop) : at_ s0 ch lk x oc s ->
  (forall c s', at_ s0 ch lk x (Some c) s' -> Q 0 s') -> (forall e oc' s', 0 < e -> at_ s0 ch lk x oc' s' -> Q (- e) s') ->
  wp (ensure_exported_locked PWM_SYSFS_CHIP ch) Q s.
Proof.
  intros Hs Hok Hfail. unfold ensure_exported_locked. apply wp_bind, wp_gets. destruct (sys_exists (ChipDir _) _); cbn [negb].
  2: { apply wp_ret. by apply (Hfail ENOENT oc s). }
  apply wp_bind, wp_gets. destruct (sys_exists (PwmDir _ _) _) eqn:E.
  { apply wp_ret. destruct (dir_output _ _ _ _ _ _ Hs E) as [c ->]. by eapply Hok. }
  apply wp_bind. unfold write_text_file. apply wp_bind, wp_on_pwm_sys. eapply wp_mono; [apply sys_write_ok|]. intros r k' Hr. apply wp_ret.
  assert (exists oc', at_ s0 ch lk x oc' (Pwm (g_pwm_ctx s) (g_pwm_lock s) k')) as [oc' Hs'].
  { assert (grows (sys_chans (g_pwm_sys s)) (sys_chans k')) as Hg by (unfold grows; destruct r; [destruct Hr as [_ ->]|destruct Hr as [_ ->]|rewrite Hr|exact Hr]; auto).
    destruct (at_grows _ _ _ _ _ _ _ Hs Hg) as (oc' & _ & ?). by exists oc'. }
  assert (wp (wait_dir 50 (PwmDir PWM_SYSFS_CHIP ch)) Q (Pwm (g_pwm_ctx s) (g_pwm_lock s) k')) as Hwait by (by eapply wait_dir_spec).
  revert Hwait. generalize (wait_dir 50 (PwmDir PWM_SYSFS_CHIP ch) : M S_ Z). intros w Hwait. destruct r as [e|e| |].
  - destruct Hr as [He _]. rewrite (proj2 (Z.ltb_lt (- e) 0)) by lia. cbn [andb]. zcase; [apply wp_ret; by eapply Hfail|done].
  - destruct Hr as [He _]. rewrite (proj2 (Z.ltb_lt (- e) 0)) by lia. cbn [andb]. zcase; [apply wp_ret; by eapply Hfail|done].
  - apply wp_ret. by eapply (Hfail EIO).
  - exact Hwait.
Qed.

Lemma unexport_spec s0 ch lk x oc s (Q : Z -> S_ -> Prop) : at_ s0 ch lk x oc s -> (forall r oc' s', at_ s0 ch lk x oc' s' -> Q r s') -> wp (unexport_locked PWM_SYSFS_CHIP ch) Q s.
Proof.
  intros Hs HQ. unfold unexport_locked. apply wp_bind, wp_gets. destruct (sys_exists (ChipDir _) _); cbn [negb]; [|apply wp_ret; by eapply HQ].
  apply wp_bind, wp_gets. destruct (sys_exists (PwmDir _ _) _); cbn [negb]; [|apply wp_ret; by eapply HQ].
  unfold write_text_file. apply wp_bind, wp_on_pwm_sys. eapply wp_mono; [apply sys_write_ok|]. intros r k' Hr. apply wp_ret.
  apply (HQ _ (sys_chans k' !! ch)). eapply at_kernel; [exact Hs|done|]. intros ch' c Hne Hc.
  destruct r; [destruct Hr as [_ ->]; done|destruct Hr as [_ ->]; done|by rewrite Hr|]. cbn in Hr. by rewrite Hr.
Qed.

(** ** The calls *)

(** After a call on [ch], with its result, record and output. *)
Definition post (s0 : S_) (ch : Z) (P : OPERATE_RET -> pwm_ctx_t -> option pwm_chan -> Prop) (r : OPERATE_RET) (s : S_) : Prop :=
  exists x oc, at_ s0 ch false x oc s /\ P r x oc.

Lemma valid_ch s0 ch lk x oc s : at_ s0 ch lk x oc s -> ch_valid ch = true /\ PWM_SYSFS_CHANNEL_BASE + ch = ch.
Proof. intros Hs. pose proof (at_valid _ _ _ _ _ _ Hs). unfold ch_valid. split; [|done]. apply andb_true_intro. split; [apply Z.leb_le|apply Z.ltb_lt]; lia. Qed.

Lemma wp_leave_post s0 ch lk x oc s r P : at_ s0 ch lk x oc s -> P r x oc -> wp (leave r) (post s0 ch P) s.
Proof. intros Hs HP. eapply wp_leave; [done|]. intros s' Hs'. by exists x, oc. Qed.

(** An error leaves nothing to show when the result is not success. *)
Lemma fail_post s0 ch lk x oc s e (P : pwm_ctx_t -> option pwm_chan -> Prop) : 0 < e -> at_ s0 ch lk x oc s ->
  wp (leave (map_errno_to_oprt (- e))) (post s0 ch (fun r x' oc' => r = OPRT_OK -> P x' oc')) s.
Proof. intros He Hs. eapply wp_leave_post; [done|]. intros E. by apply map_errno_neg in E. Qed.

(** Entering a call: the channel is valid, the lock is taken. *)
Ltac enter Hs := destruct (valid_ch _ _ _ _ _ _ Hs) as [Hv Hb]; rewrite ?Hv, ?Hb; cbn [negb orb]; apply wp_bind; eapply wp_pwm_lock; [exact Hs|]; clear Hs; intros ?s Hs.
(** The two results of a write: a failure ends the call. *)
Ltac failed := intros ?e ?s ?He ?Hs; match goal with |- context [- ?e <? 0] => rewrite (proj2 (Z.ltb_lt (- e) 0)) by lia end; by eapply fail_post.
Ltac written := change (0 <? 0) with false; cbn iota zeta.

(** The configuration of an initialised channel is recorded. *)
Lemma init_spec s0 ch x oc s cfg : at_ s0 ch false x oc s ->
  wp (tkl_pwm_init ch (Some cfg)) (post s0 ch (fun r x' oc' => r = OPRT_OK -> x' = mkPwm true true false cfg /\ oc' = Some (hw cfg false))) s.
Proof.
  intros Hs. unfold tkl_pwm_init. enter Hs. apply wp_bind. eapply ensure_exported_spec; [exact Hs| |].
  2: { intros e oc' s' He Hs'. rewrite (proj2 (Z.ltb_lt (- e) 0)) by lia. by eapply fail_post. }
  intros c s2 Hs2. written. apply wp_bind.
  assert (forall c s3, at_ s0 ch true x (Some c) s3 -> wp (err <- set_polarity_locked PWM_SYSFS_CHIP ch (w_polarity cfg) ;;
    if err <? 0 then leave (map_errno_to_oprt err) else
    let period_ns := period_ns_from_frequency (w_frequency cfg) in
    if period_ns =? 0 then leave OPRT_INVALID_PARM else
    let duty_ns := clamped_duty period_ns cfg in
    err <- set_period_locked PWM_SYSFS_CHIP ch period_ns ;;
    if err <? 0 then leave (map_errno_to_oprt err) else
    err <- set_duty_locked PWM_SYSFS_CHIP ch duty_ns ;;
    if err <? 0 then leave (map_errno_to_oprt err) else
    upd_ctx ch (fun _ => mkPwm true true false cfg) ;;; leave OPRT_OK)
    (post s0 ch (fun r x' oc' => r = OPRT_OK -> x' = mkPwm true true false cfg /\ oc' = Some (hw cfg false))) s3) as Hrest.
  { clear. intros c s3 Hs3. apply wp_bind. eapply set_polarity_spec; [exact Hs3|failed|]. intros y s4 Hy Hen Hs4. written.
    zcase; [by eapply wp_leave_post|]. apply wp_bind. eapply set_period_spec; [exact Hs4|failed|]. intros y5 s5 [= <-] _ Hs5. written.
    apply wp_bind. eapply set_duty_spec; [exact Hs5|failed|]. intros y6 s6 [= <-] _ Hs6. written.
    apply wp_bind. eapply wp_upd_ctx; [exact Hs6|]. intros s7 Hs7. eapply wp_leave_post; [exact Hs7|]. intros _. split; [done|].
    f_equal. unfold hw, set_dut, set_per, set_inv. cbn. by rewrite Hen. }
  eapply set_enable_spec; [exact Hs2|intros e s3 _ Hs3; by eapply Hrest|]. intros y s3 [= <-] Hs3. by eapply Hrest.
Qed.

Lemma deinit_spec s0 ch x oc s : at_ s0 ch false x oc s -> wp (tkl_pwm_deinit ch) (post s0 ch (fun r x' _ => r = OPRT_OK /\ x' = zero_pwm)) s.
Proof.
  intros Hs. unfold tkl_pwm_deinit. enter Hs. apply wp_bind. eapply wp_get_ctx; [exact Hs|]. apply wp_bind.
  assert (forall x oc s, at_ s0 ch true x oc s -> wp (_ <- unexport_locked PWM_SYSFS_CHIP ch ;; upd_ctx ch (fun _ => zero_pwm) ;;; leave OPRT_OK) (post s0 ch (fun r x' _ => r = OPRT_OK /\ x' = zero_pwm)) s) as Hrest.
  { clear. intros x oc s Hs. apply wp_bind. eapply unexport_spec; [exact Hs|]. intros r oc' s' Hs'. apply wp_bind. eapply wp_upd_ctx; [exact Hs'|]. intros s1 Hs1. by eapply wp_leave_post. }
  destruct (x_enabled x); [|apply wp_ret; by eapply Hrest].
  apply wp_bind. eapply set_enable_spec; [exact Hs|intros e s2 _ Hs2|intros y s2 _ Hs2]; (eapply wp_upd_ctx; [exact Hs2|]; intros s3 Hs3; by eapply Hrest).
Qed.

(** Switching on or off; a failure changes nothing. *)
Definition switched (b : bool) (x : pwm_ctx_t) (oc : option pwm_chan) (r : OPERATE_RET) (x' : pwm_ctx_t) (oc' : option pwm_chan) : Prop :=
  (r <> OPRT_OK /\ x' = x /\ oc' = oc) \/ (r = OPRT_OK /\ x_inited x = true /\ x' = with_pwm_enabled b x /\ exists c, oc = Some c /\ oc' = Some (set_en b c)).

Lemma switch_spec s0 ch x oc s b : at_ s0 ch false x oc s -> wp (pwm_switch b ch) (post s0 ch (switched b x oc)) s.
Proof.
  intros Hs. unfold pwm_switch. enter Hs. apply wp_bind. eapply wp_get_ctx; [exact Hs|].
  destruct (x_inited x) eqn:Ei; cbn [negb]; [|eapply wp_leave_post; [exact Hs|]; by left].
  apply wp_bind. eapply set_enable_spec; [exact Hs| |].
  - intros e s2 He Hs2. rewrite (proj2 (Z.ltb_lt (- e) 0)) by lia. eapply wp_leave_post; [exact Hs2|]. left. split; [by apply map_errno_neg|done].
  - intros y s2 -> Hs2. written. apply wp_bind. eapply wp_upd_ctx; [exact Hs2|]. intros s3 Hs3. eapply wp_leave_post; [exact Hs3|]. right. split_and!; [done..|]. by exists y.
Qed.

Lemma switched_sync b x oc r x' oc' : switched b x oc r x' oc' -> sync_at x oc -> sync_at x' oc'.
Proof.
  intros [(_ & -> & ->)|(_ & Hi & -> & c & -> & ->)]; [done|]. unfold sync_at. cbn. rewrite Hi. intros [= ->]. done.
Qed.

(** A change of the configuration by [F]: recorded and done on success. *)
Definition changed (F : TUYA_PWM_BASE_CFG_T -> TUYA_PWM_BASE_CFG_T) (x : pwm_ctx_t) (oc : option pwm_chan) (r : OPERATE_RET) (x' : pwm_ctx_t) (oc' : option pwm_chan) : Prop :=
  r = OPRT_OK -> x_inited x = true /\ x' = mkPwm true (x_exported x) (x_enabled x) (F (x_cfg x)) /\ (sync_at x oc -> sync_at x' oc').

Lemma duty_set_spec s0 ch x oc s duty : at_ s0 ch false x oc s ->
  wp (tkl_pwm_duty_set ch duty) (post s0 ch (fun r x' oc' => changed (with_duty duty) x oc r x' oc' /\ (r <> OPRT_OK -> x' = x /\ oc' = oc))) s.
Proof.
  intros Hs. unfold tkl_pwm_duty_set. enter Hs. apply wp_bind. eapply wp_get_ctx; [exact Hs|]. destruct (x_inited x) eqn:Ei; cbn [negb]; [|by eapply wp_leave_post].
  apply wp_bind. eapply set_duty_spec; [exact Hs| |].
  { intros e s2 He Hs2. rewrite (proj2 (Z.ltb_lt (- e) 0)) by lia. eapply wp_leave_post; [exact Hs2|]. split; [intros E; by apply map_errno_neg in E|done]. }
  intros y s2 -> _ Hs2. written. apply wp_bind. eapply wp_upd_ctx; [exact Hs2|]. intros s3 Hs3. eapply wp_leave_post; [exact Hs3|]. split; [|done].
  intros _. destruct x as [i ex en cfg]. cbn in Ei. subst i. split_and!; [done..|]. unfold sync_at. cbn. intros [= ->]. done.
Qed.

Lemma restore_spec s0 ch x c s en F : at_ s0 ch true x (Some c) s -> 
  wp (pwm_restore PWM_SYSFS_CHIP ch ch en F) (post s0 ch (fun r x' oc' => r = OPRT_OK -> x' = with_pwm_enabled en (F x) /\ oc' = Some (if en then set_en true c else c))) s.
Proof.
  intros Hs. unfold pwm_restore. apply wp_bind. destruct en; cbn [andb].
  - eapply set_enable_spec; [exact Hs|failed|]. intros y s2 [= <-] Hs2. written. apply wp_bind. eapply wp_upd_ctx; [exact Hs2|]. intros s3 Hs3. by eapply wp_leave_post.
  - apply wp_ret, wp_bind. eapply wp_upd_ctx; [exact Hs|]. intros s3 Hs3. by eapply wp_leave_post.
Qed.

Lemma frequency_set_spec s0 ch x oc s f : at_ s0 ch false x oc s -> wp (tkl_pwm_frequency_set ch f) (post s0 ch (changed (with_frequency f) x oc)) s.
Proof.
  intros Hs. unfold tkl_pwm_frequency_set. destruct (Z.eqb_spec f 0) as [->|Hf]; [rewrite orb_true_r; apply wp_ret; by exists x, oc|]. rewrite orb_false_r.
  enter Hs. apply wp_bind. eapply wp_get_ctx; [exact Hs|]. destruct (x_inited x) eqn:Ei; cbn [negb]; [|by eapply wp_leave_post].
  assert (forall b c s2, oc = Some c -> (x_enabled x = c_enabled c -> b = x_enabled x \/ b = false) -> at_ s0 ch true x (Some (set_en b c)) s2 ->
    wp (let cfg := with_frequency f (x_cfg x) in let period_ns := period_ns_from_frequency (w_frequency cfg) in let duty_ns := clamped_duty period_ns cfg in
        err <- set_period_locked PWM_SYSFS_CHIP ch period_ns ;; if err <? 0 then leave (map_errno_to_oprt err) else
        err <- set_duty_locked PWM_SYSFS_CHIP ch duty_ns ;; if err <? 0 then leave (map_errno_to_oprt err) else
        pwm_restore PWM_SYSFS_CHIP ch ch (x_enabled x) (with_pwm_cfg cfg)) (post s0 ch (changed (with_frequency f) x oc)) s2) as Hrest.
  { clear s Hs. intros b c s2 -> Hb' Hs2. cbn zeta. apply wp_bind. eapply set_period_spec; [exact Hs2|failed|]. intros y s3 [= <-] _ Hs3. written.
    apply wp_bind. eapply set_duty_spec; [exact Hs3|failed|]. intros y s4 [= <-] _ Hs4. written. eapply wp_mono; [by eapply restore_spec|].
    intros r s5 (x' & oc' & Hs5 & HP). exists x', oc'. split; [done|]. intros Hr. destruct (HP Hr) as [-> ->]. destruct x as [i ex en cfg]. cbn in *. subst i. split_and!; [done..|].
    unfold sync_at. cbn. intros [= ->]. f_equal. cbn in Hb'. destruct en; [done|]. destruct (Hb' eq_refl) as [-> | ->]; done. }
  apply wp_bind. eapply set_enable_spec; [exact Hs| |].
  - intros e s2 _ Hs2. destruct oc as [c|].
    + eapply (Hrest (c_enabled c) c); [done|auto|]. by destruct c.
    + cbn zeta. apply wp_bind. eapply set_period_spec; [exact Hs2|failed|]. intros y s3 [=].
  - intros y s2 Hy Hs2. eapply (Hrest false y); [done|auto|done].
Qed.

Lemma polarity_set_spec s0 ch x oc s p : at_ s0 ch false x oc s -> wp (tkl_pwm_polarity_set ch p) (post s0 ch (changed (with_polarity p) x oc)) s.
Proof.
  intros Hs. unfold tkl_pwm_polarity_set. enter Hs. apply wp_bind. eapply wp_get_ctx; [exact Hs|]. destruct (x_inited x) eqn:Ei; cbn [negb]; [|by eapply wp_leave_post].
  assert (forall oc2 s2, (forall c, oc2 = Some c -> exists b c0, oc = Some c0 /\ c = set_en b c0) -> at_ s0 ch true x oc2 s2 ->
    wp (err <- set_polarity_locked PWM_SYSFS_CHIP ch p ;; if err <? 0 then leave (map_errno_to_oprt err) else
        pwm_restore PWM_SYSFS_CHIP ch ch (x_enabled x) (fun x => with_pwm_cfg (with_polarity p (x_cfg x)) x)) (post s0 ch (changed (with_polarity p) x oc)) s2) as Hrest.
  { clear s Hs. intros oc2 s2 Hoc Hs2. apply wp_bind. eapply set_polarity_spec; [exact Hs2|failed|]. intros y s3 Hy Hen Hs3. written. destruct (Hoc y Hy) as (b & c0 & -> & ->).
    eapply wp_mono; [by eapply restore_spec|].
    intros r s5 (x' & oc' & Hs5 & HP). exists x', oc'. split; [done|]. intros Hr. destruct (HP Hr) as [-> ->]. destruct x as [i ex en cfg]. cbn in *. subst i b. split_and!; [done..|].
    unfold sync_at. cbn. intros [= ->]. f_equal. by destruct en. }
  apply wp_bind. eapply set_enable_spec; [exact Hs| |].
  - intros e s2 _ Hs2. eapply Hrest; [|exact Hs2]. intros c ->. exists (c_enabled c), c. by destruct c.
  - intros y s2 -> Hs2. eapply Hrest; [|exact Hs2]. intros c [= <-]. by exists false, y.
Qed.

(** A full update; the recorded cycle has to be the old one. *)
Definition updated (cfg : TUYA_PWM_BASE_CFG_T) (x : pwm_ctx_t) (oc : option pwm_chan) (r : OPERATE_RET) (x' : pwm_ctx_t) (oc' : option pwm_chan) : Prop :=
  r = OPRT_OK -> sync_at x oc -> (x_inited x = true -> w_cycle cfg = w_cycle (x_cfg x)) -> x_inited x' = true /\ x_enabled x' = x_enabled x /\ x_cfg x' = cfg /\ sync_at x' oc'.

Lemma hw_eq cfg cfg' b : w_polarity cfg = w_polarity cfg' -> w_duty cfg = w_duty cfg' -> w_cycle cfg = w_cycle cfg' -> w_frequency cfg = w_frequency cfg' -> hw cfg b = hw cfg' b.
Proof. intros E1 E2 E3 E4. unfold hw, clamped_duty, duty_ns_from_cfg. by rewrite E1, E2, E3, E4. Qed.

(** Going on after a call, or returning its result. *)
Lemma then_post s0 ch s (c k : M S_ OPERATE_RET) (P P' : OPERATE_RET -> pwm_ctx_t -> option pwm_chan -> Prop) :
  wp c (post s0 ch P) s -> (forall r x oc, r <> OPRT_OK -> P r x oc -> P' r x oc) ->
  (forall x oc s', at_ s0 ch false x oc s' -> P OPRT_OK x oc -> wp k (post s0 ch P') s') ->
  wp (rt <- c ;; if negb (bool_decide (rt = OPRT_OK)) then ret rt else k) (post s0 ch P') s.
Proof.
  intros Hc Hf Hk. apply wp_bind. eapply wp_mono; [exact Hc|]. intros r s' (x & oc & Hs' & HP). case_bool_decide as E; cbn [negb].
  - subst r. by eapply Hk.
  - apply wp_ret. exists x, oc. split; [done|]. by apply Hf.
Qed.

Lemma info_set_spec s0 ch x oc s cfg : at_ s0 ch false x oc s -> wp (tkl_pwm_info_set ch (Some cfg)) (post s0 ch (updated cfg x oc)) s.
Proof.
  intros Hs. unfold tkl_pwm_info_set. enter Hs. apply wp_bind. eapply wp_get_ctx; [exact Hs|]. apply wp_bind. eapply wp_pwm_unlock; [exact Hs|]. clear Hs. intros s2 Hs2. cbn zeta.
  destruct (x_inited x) eqn:Ei; cbn [negb].
  2: { eapply then_post; [by eapply init_spec|by intros r x' oc' Hr _ ?|]. intros x' oc' s3 Hs3 HP. destruct (HP eq_refl) as [-> ->].
    destruct (x_enabled x) eqn:Een.
    - eapply wp_mono; [by eapply switch_spec|]. intros r s4 (x4 & oc4 & Hs4 & Hsw). exists x4, oc4. split; [done|]. intros _ Hsy _. unfold sync_at in Hsy. rewrite Ei in Hsy. congruence.
    - apply wp_ret. eexists _, _. split; [exact Hs3|]. intros _ _ _. cbn. by rewrite Een. }
  assert (forall x1 oc1 s1, at_ s0 ch false x1 oc1 s1 -> x_cfg x1 = x_cfg x -> (sync_at x oc -> sync_at x1 oc1) -> (x_enabled x = false -> x_enabled x1 = false) ->
    wp (rt <- tkl_pwm_polarity_set ch (w_polarity cfg) ;; if negb (bool_decide (rt = OPRT_OK)) then ret rt else
        rt <- tkl_pwm_frequency_set ch (w_frequency cfg) ;; if negb (bool_decide (rt = OPRT_OK)) then ret rt else
        rt <- tkl_pwm_duty_set ch (w_duty cfg) ;; if negb (bool_decide (rt = OPRT_OK)) then ret rt else
        pwm_lock ;;; upd_ctx ch (with_pwm_cfg cfg) ;;; pwm_unlock ;;; if x_enabled x then tkl_pwm_start ch else ret OPRT_OK) (post s0 ch (updated cfg x oc)) s1) as Hrest.
  { clear dependent s2. clear dependent s1. intros x1 oc1 s1 Hs1 Ec Hsy1 Hen.
    eapply then_post; [by eapply polarity_set_spec|by intros r x' oc' Hr _ ?|]. intros x2 oc2 s2 Hs2 HP2. destruct (HP2 eq_refl) as (_ & -> & Hsy2).
    eapply then_post; [by eapply frequency_set_spec|by intros r x' oc' Hr _ ?|]. intros x3 oc3 s3 Hs3 HP3. destruct (HP3 eq_refl) as (_ & -> & Hsy3).
    eapply then_post; [by eapply duty_set_spec|by intros r x' oc' Hr _ ?|]. intros x4 oc4 s4 Hs4 [HP4 _]. destruct (HP4 eq_refl) as (_ & -> & Hsy4).
    apply wp_bind. eapply wp_pwm_lock; [exact Hs4|]. intros s5 Hs5. apply wp_bind. eapply wp_upd_ctx; [exact Hs5|]. intros s6 Hs6. apply wp_bind. eapply wp_pwm_unlock; [exact Hs6|]. intros s7 Hs7.
    cbn in *. assert (sync_at x oc -> (x_inited x = true -> w_cycle cfg = w_cycle (x_cfg x)) -> sync_at (mkPwm true (x_exported x1) (x_enabled x1) cfg) oc4) as Hsy.
    { intros Hx Hcy. specialize (Hsy4 (Hsy3 (Hsy2 (Hsy1 Hx)))). unfold sync_at in Hsy4 |- *. cbn in Hsy4 |- *. rewrite Hsy4. f_equal. apply hw_eq; try done. cbn. rewrite Hcy, Ec; done. }
    destruct (x_enabled x) eqn:Een.
    - eapply wp_mono; [by eapply switch_spec|]. intros r s8 (x8 & oc8 & Hs8 & Hsw). exists x8, oc8. split; [done|]. intros Hr Hx Hcy.
      pose proof (switched_sync _ _ _ _ _ _ Hsw (Hsy Hx Hcy)). destruct Hsw as [[? _]|(_ & _ & -> & _)]; [done|]. done.
    - apply wp_ret. eexists _, _. split; [exact Hs7|]. intros _ Hx Hcy. split_and!; [done|rewrite Een; by apply Hen|done|by apply Hsy]. }
  apply wp_bind. destruct (x_enabled x) eqn:Een.
  - apply wp_bind. eapply wp_mono; [by eapply switch_spec|]. intros r s3 (x3 & oc3 & Hs3 & Hsw). apply wp_ret. eapply Hrest; [exact Hs3| |by eapply switched_sync|done].
    destruct Hsw as [(_ & -> & _)|(_ & _ & -> & _)]; done.
  - apply wp_ret. by eapply Hrest.
Qed.

(** ** Sequences of calls *)

Inductive pwm_op :=
| PInit (ch : Z) (cfg : TUYA_PWM_BASE_CFG_T)
| PDeinit (ch : Z)
| PStart (ch : Z)
| PStop (ch : Z)
| PStartMany (chs : list Z)
| PStopMany (chs : list Z)
| PDuty (ch duty : Z)
| PFrequency (ch frequency : Z)
| PPolarity (ch : Z) (polarity : TUYA_PWM_POLARITY_E)
| PInfo (ch : Z) (cfg : TUYA_PWM_BASE_CFG_T).

Definition pwm_exec (o : pwm_op) : M S_ OPERATE_RET :=
  match o with
  | PInit ch cfg => tkl_pwm_init ch (Some cfg)
  | PDeinit ch => tkl_pwm_deinit ch
  | PStart ch => tkl_pwm_start ch
  | PStop ch => tkl_pwm_stop ch
  | PStartMany chs => tkl_pwm_multichannel_start (Some chs) (Z.of_nat (length chs))
  | PStopMany chs => tkl_pwm_multichannel_stop (Some chs) (Z.of_nat (length chs))
  | PDuty ch d => tkl_pwm_duty_set ch d
  | PFrequency ch f => tkl_pwm_frequency_set ch f
  | PPolarity ch p => tkl_pwm_polarity_set ch p
  | PInfo ch cfg => tkl_pwm_info_set ch (Some cfg)
  end.

(** The cycle recorded for an initialised channel. *)
Definition other_cycle (s : S_) (ch : Z) (cfg : TUYA_PWM_BASE_CFG_T) : bool :=
  match g_pwm_ctx s !! Z.to_nat ch with Some x => x_inited x && negb (w_cycle cfg =? w_cycle (x_cfg x)) | None => false end.

(** The channels that may be out of step: those on which a call that reconfigures
    failed, or whose cycle was changed by [tkl_pwm_info_set], until the channel is
    initialised again or released. *)
Definition suspects (s : S_) (o : pwm_op) (r : OPERATE_RET) (B : gset Z) : gset Z :=
  let ok := bool_decide (r = OPRT_OK) in
  match o with
  | PInit ch _ => if ok then B ∖ {[ch]} else {[ch]} ∪ B
  | PDeinit ch => if ok then B ∖ {[ch]} else B
  | PFrequency ch _ | PPolarity ch _ => if ok then B else {[ch]} ∪ B
  | PInfo ch cfg => if ok && negb (other_cycle s ch cfg) then B else {[ch]} ∪ B
  | _ => B
  end.

Fixpoint pwm_run (os : list pwm_op) (B : gset Z) : M S_ (gset Z) :=
  match os with
  | [] => ret B
  | o :: os => s <- gets id ;; r <- pwm_exec o ;; pwm_run os (suspects s o r B)
  end.

Definition in_sync (s : S_) (ch : Z) : Prop := exists x, g_pwm_ctx s !! Z.to_nat ch = Some x /\ sync_at x (sys_chans (g_pwm_sys s) !! ch).

Record pwm_inv (B : gset Z) (s : S_) : Prop := {
  pi_len : length (g_pwm_ctx s) = Z.to_nat TUYA_PWM_NUM_MAX;
  pi_lock : g_pwm_lock s = false;
  pi_sync ch : 0 <= ch < TUYA_PWM_NUM_MAX -> ch ∉ B -> in_sync s ch
}.

Lemma inv_at B s ch : pwm_inv B s -> 0 <= ch < TUYA_PWM_NUM_MAX -> exists x oc, at_ s ch false x oc s /\ (ch ∉ B -> sync_at x oc).
Proof.
  intros [Hl Hk Hsy] Hc. destruct (lookup_lt_is_Some_2 (g_pwm_ctx s) (Z.to_nat ch)) as [x Hx]; [lia|]. exists x, (sys_chans (g_pwm_sys s) !! ch). split.
  - constructor; try done.
  - intros Hb. destruct (Hsy ch Hc Hb) as (x' & Hx' & ?). congruence.
Qed.

(** A call on [ch]: the others stay in step, [ch] as the call says. *)
Lemma post_inv B B' s ch P r s' : pwm_inv B s -> post s ch P r s' -> (forall x oc, P r x oc -> ch ∉ B' -> sync_at x oc) -> (forall c, c ∈ B -> c <> ch -> c ∈ B') -> pwm_inv B' s'.
Proof.
  intros Hi (x & oc & Hs' & HP) Hsy Hsub. constructor; [apply Hs'|apply Hs'|]. intros c Hc Hb. destruct (decide (c = ch)) as [->|Hne].
  - exists x. split; [apply Hs'|]. rewrite (at_chan _ _ _ _ _ _ Hs'). by apply Hsy.
  - destruct (pi_sync _ _ Hi c Hc) as (y & Hy & Hsy'); [naive_solver|]. destruct (at_others _ _ _ _ _ _ Hs' c ltac:(lia) Hne) as [E Hg].
    exists y. split; [by rewrite E|]. unfold sync_at in *. destruct (x_inited y); [by apply Hg|done].
Qed.

Lemma invalid_ch ch : ch_valid ch = false \/ 0 <= ch < TUYA_PWM_NUM_MAX.
Proof.
  unfold ch_valid. destruct (Z.leb_spec 0 ch); cbn [andb]; [|by left]. destruct (Z.ltb_spec ch TUYA_PWM_NUM_MAX); [right; lia|by left].
Qed.

(** A call on one channel, by its specification. *)
Lemma call_inv B s ch o (c : M S_ OPERATE_RET) (P : pwm_ctx_t -> option pwm_chan -> OPERATE_RET -> pwm_ctx_t -> option pwm_chan -> Prop) :
  pwm_inv B s -> (ch_valid ch = false -> c = ret OPRT_INVALID_PARM) -> (forall x oc, at_ s ch false x oc s -> wp c (post s ch (P x oc)) s) ->
  (forall r d, d ∈ B -> d <> ch -> d ∈ suspects s o r B) -> (forall d, d ∈ B -> d ∈ suspects s o OPRT_INVALID_PARM B) ->
  (forall x oc r x' oc', at_ s ch false x oc s -> (ch ∉ B -> sync_at x oc) -> P x oc r x' oc' -> ch ∉ suspects s o r B -> sync_at x' oc') ->
  wp c (fun r s' => pwm_inv (suspects s o r B) s') s.
Proof.
  intros Hi Hinv Hspec Hsub Hsub' Hsy. destruct (invalid_ch ch) as [Hv|Hv].
  - rewrite (Hinv Hv). apply wp_ret. constructor; [apply Hi|apply Hi|]. intros d Hd Hb. apply Hi; [done|]. naive_solver.
  - destruct (inv_at _ _ _ Hi Hv) as (x & oc & Hs & Hx). eapply wp_mono; [by apply Hspec|]. intros r s' Hp. eapply post_inv; [done|exact Hp| |by apply Hsub].
    intros x' oc' HP Hb. by eapply Hsy.
Qed.

Lemma switch_inv B s ch b : pwm_inv B s -> wp (pwm_switch b ch) (fun _ s' => pwm_inv B s') s.
Proof.
  intros Hi. eapply (call_inv B s ch (PStart ch) _ (fun x oc => switched b x oc)); [done| |intros; by eapply switch_spec|done|done|].
  - intros Hv. unfold pwm_switch. by rewrite Hv.
  - intros x oc r x' oc' _ Hx HP Hb. eapply switched_sync; [done|]. by apply Hx.
Qed.

Lemma many_inv b l : forall B s, pwm_inv B s -> wp (multichannel_loop (pwm_switch b) l (length l)) (fun _ s' => pwm_inv B s') s.
Proof.
  induction l as [|ch l IH]; intros B s Hi; cbn [multichannel_loop length]; [by apply wp_ret|]. apply wp_bind. eapply wp_mono; [by apply switch_inv|].
  intros r s' Hi'. case_bool_decide; cbn [negb]; [by apply IH|by apply wp_ret].
Qed.

Lemma multi_inv b l B s : pwm_inv B s -> wp (pwm_multichannel (pwm_switch b) (Some l) (Z.of_nat (length l))) (fun _ s' => pwm_inv B s') s.
Proof. intros Hi. unfold pwm_multichannel. zcase; [by apply wp_ret|]. rewrite Nat2Z.id. by apply many_inv. Qed.

Lemma exec_inv B s o : pwm_inv B s -> wp (pwm_exec o) (fun r s' => pwm_inv (suspects s o r B) s') s.
Proof.
  intros Hi. destruct o as [ch cfg|ch|ch|ch|chs|chs|ch d|ch f|ch p|ch cfg]; cbn [pwm_exec].
  - eapply (call_inv B s ch _ _ (fun x oc r x' oc' => r = OPRT_OK -> x' = mkPwm true true false cfg /\ oc' = Some (hw cfg false))); [done|unfold tkl_pwm_init; by intros ->|intros; by eapply init_spec|..]; unfold suspects.
    + intros r d. case_bool_decide; set_solver.
    + intros d. case_bool_decide; set_solver.
    + intros x oc r x' oc' _ _ HP. case_bool_decide as E; [|set_solver]. intros _. destruct (HP E) as [-> ->]. done.
  - eapply (call_inv B s ch _ _ (fun x oc r x' oc' => r = OPRT_OK /\ x' = zero_pwm)); [done|unfold tkl_pwm_deinit; by intros ->|intros; by eapply deinit_spec|..]; unfold suspects.
    + intros r d. case_bool_decide; set_solver.
    + intros d. by case_bool_decide.
    + intros x oc r x' oc' _ _ [-> ->]. done.
  - exact (switch_inv B s ch true Hi).
  - exact (switch_inv B s ch false Hi).
  - exact (multi_inv true chs B s Hi).
  - exact (multi_inv false chs B s Hi).
  - eapply (call_inv B s ch _ _ (fun x oc r x' oc' => changed (with_duty d) x oc r x' oc' /\ (r <> OPRT_OK -> x' = x /\ oc' = oc))); [done|unfold tkl_pwm_duty_set; by intros ->|intros; by eapply duty_set_spec|done|done|].
    intros x oc r x' oc' _ Hx [HP HP'] Hb. destruct (decide (r = OPRT_OK)) as [E|E]; [destruct (HP E) as (_ & _ & Hsy); by apply Hsy, Hx|]. destruct (HP' E) as [-> ->]. by apply Hx.
  - eapply (call_inv B s ch _ _ (fun x oc => changed (with_frequency f) x oc)); [done|unfold tkl_pwm_frequency_set; by intros ->|intros; by eapply frequency_set_spec|..]; unfold suspects.
    + intros r d. case_bool_decide; set_solver.
    + intros d. case_bool_decide; set_solver.
    + intros x oc r x' oc' _ Hx HP. case_bool_decide as E; [|set_solver]. intros Hb. destruct (HP E) as (_ & _ & Hsy). by apply Hsy, Hx.
  - eapply (call_inv B s ch _ _ (fun x oc => changed (with_polarity p) x oc)); [done|unfold tkl_pwm_polarity_set; by intros ->|intros; by eapply polarity_set_spec|..]; unfold suspects.
    + intros r d. case_bool_decide; set_solver.
    + intros d. case_bool_decide; set_solver.
    + intros x oc r x' oc' _ Hx HP. case_bool_decide as E; [|set_solver]. intros Hb. destruct (HP E) as (_ & _ & Hsy). by apply Hsy, Hx.
  - eapply (call_inv B s ch _ _ (fun x oc => updated cfg x oc)); [done|unfold tkl_pwm_info_set; by intros ->|intros; by eapply info_set_spec|..]; unfold suspects.
    + intros r d. case_match; set_solver.
    + intros d. case_match; set_solver.
    + intros x oc r x' oc' Hs Hx HP. case_bool_decide as E; cbn [andb]; [|set_solver]. unfold other_cycle. rewrite (at_ctx _ _ _ _ _ _ Hs). destruct (x_inited x) eqn:Ei; cbn [andb].
      * destruct (Z.eqb_spec (w_cycle cfg) (w_cycle (x_cfg x))) as [Ec|Ec]; cbn [negb]; [|set_solver]. intros Hb. by destruct (HP E (Hx Hb)) as (_ & _ & _ & ?).
      * cbn [negb]. intros Hb. by destruct (HP E (Hx Hb)) as (_ & _ & _ & ?); [congruence|].
Qed.

(** C15: over any kernel that keeps the documented rules, whatever the calls and their
    results, every channel that is not suspect — no reconfiguration of it failed, and
    no [tkl_pwm_info_set] changed its cycle, since it was last initialised or released
    — runs with exactly the period, active time and polarity of its recorded
    configuration, and runs exactly when it is recorded as started; every call
    returns, with the lock free. *)
Theorem pwm_runs_as_recorded os k : wp (pwm_run os ∅) (fun B s => pwm_inv B s) (pwm_zero k).
Proof.
  assert (pwm_inv ∅ (pwm_zero k)) as Hi.
  { constructor; [done|done|]. intros ch Hc _. exists zero_pwm. split; [|done]. unfold pwm_zero. cbn [g_pwm_ctx]. apply lookup_replicate_2. lia. }
  revert Hi. generalize (∅ : gset Z) (pwm_zero k). induction os as [|o os IH]; intros B s Hi; cbn [pwm_run]; [by apply wp_ret|].
  apply wp_bind, wp_gets. apply wp_bind. eapply wp_mono; [by apply exec_inv|]. intros r s' Hi'. by apply IH.
Qed.

(** Raising the frequency of a running channel so far that its new period is
    shorter than its current active time always fails, since the period is written
    first; where the kernel lets the channel be switched off, it is then off while
    it is recorded as running. *)
Theorem pwm_frequency_rise_stops s ch x f :
  at_ s ch false x (Some (hw (x_cfg x) true)) s -> x_inited x = true -> x_enabled x = true -> f <> 0 ->
  period_ns_from_frequency f < clamped_duty (period_ns_from_frequency (w_frequency (x_cfg x))) (x_cfg x) ->
  (forall k, is_Some (sys_chans k !! ch) -> wp (sys_write (EnableFile PWM_SYSFS_CHIP ch) (TNum 0)) (fun r _ => r = Written) k) ->
  wp (tkl_pwm_frequency_set ch f) (fun r s' => r <> OPRT_OK /\ at_ s ch false x (Some (hw (x_cfg x) false)) s') s.
Proof.
  intros Hs Hi He Hf Hp Hoff. unfold tkl_pwm_frequency_set. rewrite (proj2 (Z.eqb_neq f 0)) by done. rewrite orb_false_r.
  enter Hs. apply wp_bind. eapply wp_get_ctx; [exact Hs|]. rewrite Hi. cbn [negb]. apply wp_bind.
  assert (wp (set_enable_locked PWM_SYSFS_CHIP ch false) (fun r s' => at_ s ch true x (Some (hw (x_cfg x) false)) s') s0) as Hw.
  { unfold set_enable_locked, write_text_file. apply wp_bind, wp_on_pwm_sys. pose proof (Hoff (g_pwm_sys s0) ltac:(rewrite (at_chan _ _ _ _ _ _ Hs); by eexists)) as H1. pose proof (sys_write_ok (EnableFile PWM_SYSFS_CHIP ch) (TNum 0) (g_pwm_sys s0)) as H2.
    unfold wp in *. destruct (sys_write _ _ (g_pwm_sys s0)) as [r k'| |]; try done. subst r. destruct H2 as (y & Hy & Ec). apply wp_ret.
    rewrite (at_chan _ _ _ _ _ _ Hs) in Hy. injection Hy as <-. eapply at_kernel; [exact Hs|rewrite Ec; apply lookup_insert_eq|]. intros ch' c Hne Hc. by rewrite Ec, lookup_insert_ne. }
  eapply wp_mono; [exact Hw|]. intros r0 s2 Hs2. cbn zeta. apply wp_bind. eapply set_period_spec; [exact Hs2| |].
  - intros e s3 He3 Hs3. rewrite (proj2 (Z.ltb_lt (- e) 0)) by lia. eapply wp_leave; [exact Hs3|]. intros s4 Hs4. split; [by apply map_errno_neg|done].
  - intros y s3 [= <-] Hle _. cbn in Hle. exfalso. lia.
Qed.
End Sync.

(** ** A kernel *)

(** A chip of twelve channels that accepts what the rules allow. *)
Local Abbreviation sim := (gmap Z pwm_chan).

Definition sim_set (ch : Z) (ok : pwm_chan -> bool) (f : pwm_chan -> pwm_chan) : M sim sys_result := fun k =>
  match k !! ch with
  | None => Ret (NotOpened ENOENT) k
  | Some c => if ok c then Ret Written (<[ch := f c]> k) else Ret (WriteFailed EINVAL) k
  end.

Definition sim_write (p : pwm_path) (v : pwm_text) : M sim sys_result :=
  match p, v with
  | ExportFile _, TNum ch => fun k => if bool_decide (k !! ch = None) && (0 <=? ch) && (ch <? 12) then Ret Written (<[ch := Chan 0 0 false false]> k) else Ret (WriteFailed EBUSY) k
  | UnexportFile _, TNum ch => fun k => Ret Written (delete ch k)
  | EnableFile _ ch, TNum n => sim_set ch (fun _ => true) (fun c => Chan (c_period c) (c_duty c) (c_inversed c) (negb (n =? 0)))
  | PeriodFile _ ch, TNum n => sim_set ch (fun c => c_duty c <=? n) (fun c => Chan n (c_duty c) (c_inversed c) (c_enabled c))
  | DutyFile _ ch, TNum n => sim_set ch (fun c => n <=? c_period c) (fun c => Chan (c_period c) n (c_inversed c) (c_enabled c))
  | PolarityFile _ ch, TPolarity b => sim_set ch (fun c => negb (c_enabled c)) (fun c => Chan (c_period c) (c_duty c) b (c_enabled c))
  | _, _ => ret (WriteFailed EINVAL)
  end.

Definition sim_exists (p : pwm_path) (k : sim) : bool := match p with PwmDir _ ch => bool_decide (is_Some (k !! ch)) | _ => true end.

Lemma sim_set_ok ch ok f k (E : pwm_chan -> sim -> sim -> Prop) : (forall c, ok c = true -> k !! ch = Some c -> E c k (<[ch := f c]> k)) ->
  wp (sim_set ch ok f) (fun r k' => match r with Written => exists c, k !! ch = Some c /\ E c k k' | NotOpened e | WriteFailed e => 0 < e /\ k' = k | Short => k' = k end) k.
Proof. intros HE. unfold wp, sim_set. destruct (k !! ch) as [c|] eqn:Ek; [|by split; [vm_compute|]]. destruct (ok c) eqn:Eok; [|by split; [vm_compute|]]. exists c. split; [done|]. by apply HE. Qed.

#[local] Instance sim_sysfs : PwmSysfs sim.
Proof.
  refine {| sys_exists := sim_exists; sys_write := sim_write; sys_usleep := ret tt; sys_chans := id |}.
  - intros ch k He. cbn in He. by apply bool_decide_eq_true in He.
  - intros k. apply wp_ret. by intros ? ?.
  - intros p v k. destruct p, v; cbn [sim_write]; try (by apply wp_ret).
    + unfold wp. destruct (bool_decide _ && _ && _) eqn:E; [|split; [by vm_compute|done]]. cbn [write_effect]. intros ch' c Hc. apply andb_prop in E as [E _]. apply andb_prop in E as [E%bool_decide_eq_true _]. unfold id in *. rewrite lookup_insert_ne; [done|]. intros <-. congruence.
    + cbn. intros ch' Hne. unfold id. by rewrite lookup_delete_ne.
    + eapply wp_mono; [apply (sim_set_ok _ _ _ k (fun c k k' => k' = <[channel := Chan (c_period c) (c_duty c) (c_inversed c) (negb (n =? 0))]> k)); done|]. by intros [] k' Hr.
    + eapply wp_mono; [apply (sim_set_ok _ _ _ k (fun c k k' => c_duty c <= n /\ k' = <[channel := Chan n (c_duty c) (c_inversed c) (c_enabled c)]> k)); intros c Ho%Z.leb_le _; done|]. by intros [] k' Hr.
    + eapply wp_mono; [apply (sim_set_ok _ _ _ k (fun c k k' => n <= c_period c /\ k' = <[channel := Chan (c_period c) n (c_inversed c) (c_enabled c)]> k)); intros c Ho%Z.leb_le _; done|]. by intros [] k' Hr.
    + eapply wp_mono; [apply (sim_set_ok _ _ _ k (fun c k k' => c_enabled c = false /\ k' = <[channel := Chan (c_period c) (c_duty c) inversed (c_enabled c)]> k)); intros c Ho%negb_true_iff _; done|]. by intros [] k' Hr.
Defined.

(** A channel at 1 kHz, active for four fifths of the time. *)
Definition pwm_cfg_demo : TUYA_PWM_BASE_CFG_T := mkPwmCfg TUYA_PWM_POSITIVE TUYA_PWM_CNT_UP 8000 10000 1000.
Definition pwm_demo_out : outcome (pwm_state sim) (gset Z) := pwm_run [PInit 3 pwm_cfg_demo; PStart 3; PPolarity 3 TUYA_PWM_NEGATIVE; PDuty 3 8000] ∅ (pwm_zero (∅ : sim)).
Definition pwm_demo : pwm_state sim := match pwm_demo_out with Ret _ s => s | _ => pwm_zero ∅ end.

(** All those calls succeed, so that no channel is suspect and channel 3 runs. *)
Example pwm_demo_runs : match pwm_demo_out with Ret B s => bool_decide (B = ∅) && bool_decide (g_pwm_sys s = {[3 := Chan 1000000 800000 true true]}) | _ => false end = true.
Proof. by vm_compute. Qed.

Lemma pwm_frequency_rise_stops_witness : exists x,
  wp (tkl_pwm_frequency_set 3 2000) (fun r s' => r <> OPRT_OK /\ at_ pwm_demo 3 false x (Some (hw (x_cfg x) false)) s') pwm_demo.
Proof.
  exists (mkPwm true true true (with_polarity TUYA_PWM_NEGATIVE pwm_cfg_demo)).
  refine (pwm_frequency_rise_stops pwm_demo 3 (mkPwm true true true (with_polarity TUYA_PWM_NEGATIVE pwm_cfg_demo)) 2000 _ eq_refl eq_refl _ _ _).
  - constructor; [unfold TUYA_PWM_NUM_MAX; lia|by vm_compute..|]. intros ch' _ _. split; [reflexivity|]. intros c Hc. exact Hc.
  - lia.
  - by vm_compute.
  - intros k [c Hc]. unfold wp. change (sys_write _ _ k) with (sim_set 3 (fun _ => true) (fun c => Chan (c_period c) (c_duty c) (c_inversed c) false) k).
    unfold sim_set. change (k !! 3 = Some c) in Hc. rewrite Hc. reflexivity.
Defined.
