(* ===== verification/BusTable.v ===== *)
(** * Ports of a bus adapter

    The I2C and SPI adapters have the same frame: a table of ports, each with an
    initialised flag and the descriptor of its device file, one lock for the table,
    and a device that is reached through the descriptors.  This file has the state,
    the accesses to it and the reasoning about one port at a time that the two
    components share. *)

From S2P Require Import Prelude.

(** ** State and accesses *)

Record bus (C K : Type) := Bus { b_ctx : list C; b_lock : bool; b_dev : K }.
Arguments Bus {C K}. Arguments b_ctx {C K}. Arguments b_lock {C K}. Arguments b_dev {C K}.

Section Access.
Context {C K : Type}.
Local Abbreviation W := (M (bus C K)).

Definition on_dev {R} (c : M K R) : W R := fun s =>
  match c (b_dev s) with Ret r k => Ret r (Bus (b_ctx s) (b_lock s) k) | Fault => Fault | Diverge => Diverge end.
(** An access outside the table is undefined. *)
Definition get_port (p : Z) : W C := fun s =>
  if 0 <=? p then match b_ctx s !! Z.to_nat p with Some x => Ret x s | None => Fault end else Fault.
Definition upd_port (p : Z) (f : C -> C) : W unit :=
  x <- get_port p ;; modify (fun s => Bus (<[Z.to_nat p := f x]> (b_ctx s)) (b_lock s) (b_dev s)).
(** The lock is not recursive. *)
Definition bus_lock : W unit := fun s => if b_lock s then Diverge else Ret tt (Bus (b_ctx s) true (b_dev s)).
Definition bus_unlock : W unit := modify (fun s => Bus (b_ctx s) false (b_dev s)).
Definition bus_leave {R} (r : R) : W R := bus_unlock ;;; ret r.

(** The first [size] bytes of a buffer of the caller, which has to have them. *)
Definition buf_bytes (data : list Z) (size : Z) : W (list Z) :=
  if size <=? Z.of_nat (length data) then ret (take (Z.to_nat size) data) else fault.

Lemma wp_on_dev {R} (c : M K R) Q s : wp c (fun r k => Q r (Bus (b_ctx s) (b_lock s) k)) (b_dev s) -> wp (on_dev c) Q s.
Proof. unfold wp, on_dev. by destruct (c (b_dev s)). Qed.

Lemma wp_buf_bytes data size (Q : list Z -> bus C K -> Prop) s : size <= Z.of_nat (length data) -> Q (take (Z.to_nat size) data) s -> wp (buf_bytes data size) Q s.
Proof. intros Hs HQ. unfold buf_bytes. by rewrite (proj2 (Z.leb_le _ _) Hs). Qed.
End Access.

(** ** Descriptors

    The open descriptors of a device are a map to the port they were opened for and
    what the device keeps for them. *)

(** The only descriptor of port [p], if any, is [o]. *)
Definition owns {F} (m : gmap Z (Z * F)) (p : Z) (o : option (Z * F)) : Prop :=
  forall fd st, m !! fd = Some (p, st) <-> o = Some (fd, st).

Section Owns.
Context {F : Type}.
Implicit Types (m : gmap Z (Z * F)).

Lemma owns_lookup m p fd st : owns m p (Some (fd, st)) -> m !! fd = Some (p, st).
Proof. intros H. by apply H. Qed.

(** A descriptor of port [p] is entered, changed or closed: for [p], and for others. *)
Lemma owns_insert m p fd st o : owns m p o -> (o = None /\ m !! fd = None) \/ (exists st0, o = Some (fd, st0)) -> owns (<[fd := (p, st)]> m) p (Some (fd, st)).
Proof.
  intros Ho Hc fd' st'. destruct (decide (fd' = fd)) as [->|Hne].
  - rewrite lookup_insert_eq. split; congruence.
  - rewrite lookup_insert_ne by done. rewrite (Ho fd' st'). destruct Hc as [[-> _]|[st0 ->]]; split; congruence.
Qed.

Lemma owns_insert_other m p q fd st o : q <> p -> owns m q o -> (m !! fd = None \/ exists st0, m !! fd = Some (p, st0)) -> owns (<[fd := (p, st)]> m) q o.
Proof.
  intros Hq Ho Hm fd' st'. destruct (decide (fd' = fd)) as [->|Hne].
  - rewrite lookup_insert_eq. rewrite <-(Ho fd st'). destruct Hm as [->|[st0 ->]]; split; congruence.
  - rewrite lookup_insert_ne by done. apply Ho.
Qed.

Lemma owns_delete m p fd st : owns m p (Some (fd, st)) -> owns (delete fd m) p None.
Proof.
  intros Ho fd' st'. destruct (decide (fd' = fd)) as [->|Hne]; [rewrite lookup_delete_eq; split; congruence|].
  rewrite lookup_delete_ne, (Ho fd' st') by done. split; congruence.
Qed.

Lemma owns_delete_other m p q fd st o : q <> p -> owns m q o -> m !! fd = Some (p, st) -> owns (delete fd m) q o.
Proof.
  intros Hq Ho Hm fd' st'. destruct (decide (fd' = fd)) as [->|Hne].
  - rewrite lookup_delete_eq, <-(Ho fd st'), Hm. split; congruence.
  - rewrite lookup_delete_ne by done. apply Ho.
Qed.
End Owns.

(** ** What calls of a device do

    [fds] are its open descriptors, [log] the transactions it has completed. *)

Section Device.
Context {K F T : Type} (fds : K -> gmap Z (Z * F)) (log : K -> list T).

Definition opens (p fd : Z) (k k' : K) : Prop :=
  log k' = log k /\ ((fd < 0 /\ fds k' = fds k) \/ (0 <= fd /\ fds k !! fd = None /\ exists st, fds k' = <[fd := (p, st)]> (fds k))).
Definition closes (fd : Z) (k k' : K) : Prop := log k' = log k /\ fds k' = delete fd (fds k).
Definition keeps (k k' : K) : Prop := log k' = log k /\ fds k' = fds k.
Definition emits (t : T) (k k' : K) : Prop := log k' = log k ++ [t] /\ fds k' = fds k.
Definition sets (p fd : Z) (st : F) (k k' : K) : Prop := log k' = log k /\ fds k' = <[fd := (p, st)]> (fds k).
End Device.

(** ** One port at a time *)

Section Port.
Context {C K F T : Type} (fds : K -> gmap Z (Z * F)) (log : K -> list T) (ports : Z).
Local Abbreviation B := (bus C K).

(** Since [s0] only port [p] changed and the device completed [t]; now the record of
    the port is [x], its descriptor [o], and the lock is held if [lk]. *)
Record at_port (s0 : B) (p : Z) (lk : bool) (x : C) (o : option (Z * F)) (t : list T) (s : B) : Prop := {
  ap_valid : 0 <= p < ports;
  ap_len : Z.of_nat (length (b_ctx s)) = ports;
  ap_lock : b_lock s = lk;
  ap_ctx : b_ctx s !! Z.to_nat p = Some x;
  ap_own : owns (fds (b_dev s)) p o;
  ap_log : log (b_dev s) = log (b_dev s0) ++ t;
  ap_others q : q <> p -> (0 <= q -> b_ctx s !! Z.to_nat q = b_ctx s0 !! Z.to_nat q) /\
    forall o', owns (fds (b_dev s0)) q o' -> owns (fds (b_dev s)) q o'
}.

Lemma wp_bus_lock s0 p x o t s (Q : unit -> B -> Prop) : at_port s0 p false x o t s -> (forall s', at_port s0 p true x o t s' -> Q tt s') -> wp bus_lock Q s.
Proof. intros [? ? Hl ? ? ? ?] HQ. unfold wp, bus_lock. rewrite Hl. by apply HQ. Qed.

Lemma wp_bus_unlock s0 p lk x o t s (Q : unit -> B -> Prop) : at_port s0 p lk x o t s -> (forall s', at_port s0 p false x o t s' -> Q tt s') -> wp bus_unlock Q s.
Proof. intros [? ? Hl ? ? ? ?] HQ. apply wp_modify. by apply HQ. Qed.

Lemma wp_bus_leave {R} s0 p lk x o t s (r : R) (Q : R -> B -> Prop) : at_port s0 p lk x o t s -> (forall s', at_port s0 p false x o t s' -> Q r s') -> wp (bus_leave r) Q s.
Proof. intros Hs HQ. apply wp_bind. eapply wp_bus_unlock; [exact Hs|]. intros s' Hs'. by apply wp_ret, HQ. Qed.

Lemma wp_get_port s0 p lk x o t s (Q : C -> B -> Prop) : at_port s0 p lk x o t s -> Q x s -> wp (get_port p) Q s.
Proof. intros [Hv ? ? Hx ? ? ?] HQ. unfold wp, get_port. by rewrite (proj2 (Z.leb_le 0 p)), Hx by lia. Qed.

Lemma wp_upd_port s0 p lk x o t s f (Q : unit -> B -> Prop) : at_port s0 p lk x o t s -> (forall s', at_port s0 p lk (f x) o t s' -> Q tt s') -> wp (upd_port p f) Q s.
Proof.
  intros Hs HQ. unfold upd_port. apply wp_bind. eapply wp_get_port; [done|]. apply wp_modify, HQ. destruct Hs as [Hv Hl Hk Hx Ho Ht Hoth].
  constructor; cbn [b_ctx b_lock b_dev]; try done; [by rewrite length_insert|apply list_lookup_insert_eq; lia|].
  intros q Hne. split; [intros H0; rewrite list_lookup_insert_ne by lia|]; by apply Hoth.
Qed.

(** How every call begins: with the lock, and the record of its port. *)
Lemma wp_enter_port {R} s0 p x o t s (f : C -> M B R) (Q : R -> B -> Prop) :
  at_port s0 p false x o t s -> (forall s', at_port s0 p true x o t s' -> wp (f x) Q s') -> wp (bus_lock ;;; y <- get_port p ;; f y) Q s.
Proof. intros Hs HQ. apply wp_bind. eapply wp_bus_lock; [exact Hs|]. intros s1 Hs1. apply wp_bind. eapply wp_get_port; [exact Hs1|]. by apply HQ. Qed.

(** The effects of device calls on what is known of the port. *)
Lemma at_keeps s0 p lk x o t s k : at_port s0 p lk x o t s -> keeps fds log (b_dev s) k -> at_port s0 p lk x o t (Bus (b_ctx s) (b_lock s) k).
Proof. intros [Hv Hl Hk Hx Ho Ht Hoth] [El Ef]. constructor; cbn [b_ctx b_lock b_dev]; try done; rewrite ?El, ?Ef; done. Qed.

Lemma at_emits s0 p lk x o t s e k : at_port s0 p lk x o t s -> emits fds log e (b_dev s) k -> at_port s0 p lk x o (t ++ [e]) (Bus (b_ctx s) (b_lock s) k).
Proof. intros [Hv Hl Hk Hx Ho Ht Hoth] [El Ef]. constructor; cbn [b_ctx b_lock b_dev]; try done; rewrite ?El, ?Ef, ?Ht; by rewrite ?app_assoc. Qed.

Lemma at_sets s0 p lk x fd st st' t s k : at_port s0 p lk x (Some (fd, st)) t s -> sets fds log p fd st' (b_dev s) k -> at_port s0 p lk x (Some (fd, st')) t (Bus (b_ctx s) (b_lock s) k).
Proof.
  intros [Hv Hl Hk Hx Ho Ht Hoth] [El Ef]. constructor; cbn [b_ctx b_lock b_dev]; try done; rewrite ?El, ?Ef; try done.
  - eapply owns_insert; [exact Ho|]. right. by eexists.
  - intros q Hq. split; [by apply Hoth|]. intros o' Ho'. apply owns_insert_other; [done|by apply Hoth|]. right. exists st. by apply owns_lookup.
Qed.

Lemma at_opens s0 p lk x t s fd k : at_port s0 p lk x None t s -> opens fds log p fd (b_dev s) k ->
  (fd < 0 /\ at_port s0 p lk x None t (Bus (b_ctx s) (b_lock s) k)) \/
  (0 <= fd /\ exists st, at_port s0 p lk x (Some (fd, st)) t (Bus (b_ctx s) (b_lock s) k)).
Proof.
  intros Hs [El [[Hfd Ef]|(Hfd & Hnew & st & Ef)]]; [left|right]; (split; [done|]); [by apply at_keeps|].
  destruct Hs as [Hv Hl Hk Hx Ho Ht Hoth]. exists st. constructor; cbn [b_ctx b_lock b_dev]; try done; rewrite ?El, ?Ef; try done.
  - eapply owns_insert; [exact Ho|]. left. done.
  - intros q Hq. split; [by apply Hoth|]. intros o' Ho'. apply owns_insert_other; [done|by apply Hoth|]. by left.
Qed.

Lemma at_closes s0 p lk x fd st t s k : at_port s0 p lk x (Some (fd, st)) t s -> closes fds log fd (b_dev s) k -> at_port s0 p lk x None t (Bus (b_ctx s) (b_lock s) k).
Proof.
  intros [Hv Hl Hk Hx Ho Ht Hoth] [El Ef]. pose proof (owns_lookup _ _ _ _ Ho) as Hm. constructor; cbn [b_ctx b_lock b_dev]; try done; rewrite ?El, ?Ef; try done.
  - by eapply owns_delete.
  - intros q Hq. split; [by apply Hoth|]. intros o' Ho'. eapply owns_delete_other; [done|by apply Hoth|done].
Qed.

(** ** The whole table *)

(** [good p x o]: the record and the descriptor of port [p] agree. *)
Context (good : Z -> C -> option (Z * F) -> Prop).

(** The lock is free; each port has the descriptor its record says; there is no other
    descriptor. *)
Record bus_ok (s : B) : Prop := {
  bk_len : Z.of_nat (length (b_ctx s)) = ports;
  bk_lock : b_lock s = false;
  bk_port p x : 0 <= p -> b_ctx s !! Z.to_nat p = Some x -> exists o, owns (fds (b_dev s)) p o /\ good p x o;
  bk_none p : ~ 0 <= p < ports -> owns (fds (b_dev s)) p None
}.

Lemma bus_ok_at s p : bus_ok s -> 0 <= p < ports -> exists x o, at_port s p false x o [] s /\ good p x o.
Proof.
  intros [Hl Hk Hp _] Hv. destruct (lookup_lt_is_Some_2 (b_ctx s) (Z.to_nat p)) as [x Hx]; [lia|]. destruct (Hp p x) as (o & Ho & Hg); [lia|done|].
  exists x, o. split; [|done]. constructor; try done. by rewrite app_nil_r.
Qed.

Lemma at_bus_ok s0 p x o t s : bus_ok s0 -> at_port s0 p false x o t s -> good p x o -> bus_ok s.
Proof.
  intros [Hl0 Hk0 Hp0 Hn0] [Hv Hl Hk Hx Ho Ht Hoth] Hg. constructor; try done.
  - intros q y Hq Hy. destruct (decide (q = p)) as [->|Hne]; [assert (y = x) as -> by congruence; eauto|].
    destruct (Hoth q Hne) as [E1 E2]. rewrite E1 in Hy by done. destruct (Hp0 q y Hq Hy) as (o' & Ho' & ?). exists o'. auto.
  - intros q Hq. assert (q <> p) as Hne by (intros ->; lia). by apply (Hoth q Hne), Hn0.
Qed.

(** The table is the old one with the record of the port replaced. *)
Lemma at_table s0 p lk x o t s : Z.of_nat (length (b_ctx s0)) = ports -> at_port s0 p lk x o t s -> b_ctx s = <[Z.to_nat p := x]> (b_ctx s0).
Proof.
  intros Hl0 [Hv Hl Hk Hx Ho Ht Hoth]. apply list_eq. intros i. destruct (decide (i = Z.to_nat p)) as [->|Hne].
  - rewrite list_lookup_insert_eq by lia. done.
  - rewrite list_lookup_insert_ne by done. destruct (Hoth (Z.of_nat i)) as [E _]; [lia|]. rewrite <-(Nat2Z.id i). by apply E; lia.
Qed.

(** ** Sequences of calls *)

(** What a call of type [O] on a port does to the abstract port, given by [step], makes
    the meaning of a sequence of calls; a call on a port that is not there has the
    answer [reject]. *)
Context {A O R : Type} (abs : C -> A) (step : Z -> A -> O -> R -> list T -> A -> Prop) (reject : O -> R).
Context (op_ok : O -> Prop) (exec : Z -> O -> M B R).

Inductive bus_steps : list A -> list (Z * O) -> list R -> list T -> list A -> Prop :=
| bs_nil a : bus_steps a [] [] [] a
| bs_reject a p o ops rs t a' : ~ 0 <= p < ports -> bus_steps a ops rs t a' -> bus_steps a ((p, o) :: ops) (reject o :: rs) t a'
| bs_step a p o x x' r t ops rs t' a' : 0 <= p < ports -> a !! Z.to_nat p = Some x -> step p x o r t x' ->
    bus_steps (<[Z.to_nat p := x']> a) ops rs t' a' -> bus_steps a ((p, o) :: ops) (r :: rs) (t ++ t') a'.

Fixpoint bus_execs (ops : list (Z * O)) : M B (list R) :=
  match ops with
  | [] => ret []
  | (p, o) :: ops => r <- exec p o ;; rs <- bus_execs ops ;; ret (r :: rs)
  end.

(** What a call gives for its port. *)
Definition call_post (s : B) (p : Z) (x : C) (o : O) (r : R) (s' : B) : Prop :=
  exists x' fo t, at_port s p false x' fo t s' /\ good p x' fo /\ step p (abs x) o r t (abs x').

(** Leaving a call with what is known of the port. *)
Lemma leave_post {V} (res : V -> R) s p x lk x' fo t s1 (r : V) o :
  at_port s p lk x' fo t s1 -> good p x' fo -> step p (abs x) o (res r) t (abs x') -> wp (bus_leave r) (fun r s' => call_post s p x o (res r) s') s1.
Proof. intros Hs Hg Hst. eapply wp_bus_leave; [exact Hs|]. intros s' Hs'. by exists x', fo, t. Qed.

Lemma bus_refines :
  (forall s p x fo o, at_port s p false x fo [] s -> good p x fo -> op_ok o -> wp (exec p o) (fun r s' => call_post s p x o r s') s) ->
  (forall s p o, ~ 0 <= p < ports -> wp (exec p o) (fun r s' => r = reject o /\ s' = s) s) ->
  forall ops s, bus_ok s -> Forall (fun po => op_ok (snd po)) ops ->
  wp (bus_execs ops) (fun rs s' => exists t, bus_ok s' /\ log (b_dev s') = log (b_dev s) ++ t /\ bus_steps (abs <$> b_ctx s) ops rs t (abs <$> b_ctx s')) s.
Proof.
  intros Hexec Hreject ops. induction ops as [|[p o] ops IH]; intros s Hs Hops.
  { apply wp_ret. exists []. rewrite app_nil_r. split; [done|]. split; [done|constructor]. }
  apply Forall_cons in Hops as [Ho Hops]. cbn [snd] in Ho. cbn [bus_execs]. apply wp_bind. destruct (decide (0 <= p < ports)) as [Hp|Hp].
  2: { eapply wp_mono; [by apply Hreject|]. intros r s' [-> ->]. apply wp_bind. eapply wp_mono; [by apply IH|]. intros rs s2 (t & ? & ? & ?). apply wp_ret. exists t. split; [done|]. split; [done|]. by constructor. }
  destruct (bus_ok_at s p Hs Hp) as (x & fo & Hat & Hg). eapply wp_mono; [by eapply Hexec|]. intros r s1 (x' & fo' & t & Hat' & Hg' & Hst).
  pose proof (at_bus_ok _ _ _ _ _ _ Hs Hat' Hg') as Hs1. apply wp_bind. eapply wp_mono; [by apply IH|]. intros rs s2 (t' & Hs2 & Hlog & Hsteps). apply wp_ret.
  exists (t ++ t'). split; [done|]. split; [rewrite Hlog, (ap_log _ _ _ _ _ _ _ Hat'); by rewrite app_assoc|].
  eapply bs_step; [done| |exact Hst|]; [by rewrite list_lookup_fmap, (ap_ctx _ _ _ _ _ _ _ Hat)|].
  rewrite (at_table _ _ _ _ _ _ _ (bk_len _ Hs) Hat') in Hsteps. by rewrite list_fmap_insert in Hsteps.
Qed.
End Port.

(** A call of the device on the descriptor of the port that [Hs] describes, by its law
    [ok]. *)
Ltac dev_call ok Hs r k Hr :=
  apply wp_bind, wp_on_dev; eapply wp_mono; [eapply ok, owns_lookup, ap_own, Hs|]; intros r k Hr; cbv beta in Hr.
