(* ===== verification/TklI2c.v ===== *)
(** * I2C buses: [src/tkl_i2c.c]

    A port is a bus of the Linux I2C character device.  A send that is to be followed
    by a repeated start is kept in a buffer of the port until the next receive, which
    then does both as one combined transaction.  The device is a parameter, the class
    [I2cDev]: its descriptors, with the slave address and the ten-bit flag that each
    has, and the transactions that were completed on the buses. *)

From S2P Require Import Prelude BusTable.

(** ** The character device *)

(** One part of a transaction: direction, address (ten-bit flag and number), bytes. *)
Inductive i2c_seg := SQuick (a : bool * Z) | SWrite (a : bool * Z) (d : list Z) | SRead (a : bool * Z) (d : list Z).
(** A transaction: the bus and its parts, with repeated starts between them. *)
Record i2c_tx := Tx { tx_bus : Z; tx_segs : list i2c_seg }.

(** What the device keeps for a descriptor. *)
Record i2c_file := IFile { if_ten : bool; if_addr : option Z }.

(** [struct i2c_msg]: the buffer of a message to write, the length of one to read. *)
Inductive i2c_msg := MsgWrite (addr : Z) (buf : list Z) | MsgRead (addr : Z) (len : Z).

(** The parts of a completed [I2C_RDWR], with the bytes read. *)
Inductive msgs_done : list i2c_msg -> list (list Z) -> list i2c_seg -> Prop :=
| msgs_nil : msgs_done [] [] []
| msgs_write a d ms rs ss : msgs_done ms rs ss -> msgs_done (MsgWrite a d :: ms) rs (SWrite (false, a) d :: ss)
| msgs_read a n r ms rs ss : Z.of_nat (length r) = n -> msgs_done ms rs ss -> msgs_done (MsgRead a n :: ms) (r :: rs) (SRead (false, a) r :: ss).

Class I2cDev (K : Type) := {
  i2c_open : Z -> M K Z;                          (** [open("/dev/i2c-<port>", ...)] *)
  i2c_close : Z -> M K Z;
  i2c_tenbit : Z -> Z -> M K Z;                   (** [ioctl(fd, I2C_TENBIT, v)] *)
  i2c_slave : Z -> Z -> M K Z;                    (** [ioctl(fd, I2C_SLAVE, addr)] *)
  i2c_quick : Z -> M K Z;                         (** [ioctl(fd, I2C_SMBUS, ...)]: a quick write *)
  i2c_write : Z -> list Z -> M K Z;
  i2c_read : Z -> Z -> M K (Z * list Z);          (** result and bytes *)
  i2c_rdwr : Z -> list i2c_msg -> M K (Z * list (list Z));
  i2c_fds : K -> gmap Z (Z * i2c_file);
  i2c_log : K -> list i2c_tx;
  i2c_open_ok p k : wp (i2c_open p) (fun fd k' => opens i2c_fds i2c_log p fd k k' /\ forall st, i2c_fds k' !! fd = Some (p, st) -> 0 <= fd -> if_ten st = false) k;
  i2c_close_ok fd k : is_Some (i2c_fds k !! fd) -> wp (i2c_close fd) (fun _ k' => closes i2c_fds i2c_log fd k k') k;
  i2c_tenbit_ok fd v k p st : i2c_fds k !! fd = Some (p, st) -> wp (i2c_tenbit fd v) (fun r k' =>
    if r <? 0 then keeps i2c_fds i2c_log k k' else sets i2c_fds i2c_log p fd (IFile (negb (v =? 0)) (if_addr st)) k k') k;
  i2c_slave_ok fd a k p st : i2c_fds k !! fd = Some (p, st) -> wp (i2c_slave fd a) (fun r k' =>
    if r <? 0 then keeps i2c_fds i2c_log k k' else sets i2c_fds i2c_log p fd (IFile (if_ten st) (Some a)) k k') k;
  i2c_quick_ok fd k p ten a : i2c_fds k !! fd = Some (p, IFile ten (Some a)) -> wp (i2c_quick fd) (fun r k' =>
    if r <? 0 then keeps i2c_fds i2c_log k k' else emits i2c_fds i2c_log (Tx p [SQuick (ten, a)]) k k') k;
  i2c_write_ok fd d k p ten a : i2c_fds k !! fd = Some (p, IFile ten (Some a)) -> wp (i2c_write fd d) (fun r k' =>
    if r <? 0 then keeps i2c_fds i2c_log k k' else r <= Z.of_nat (length d) /\ emits i2c_fds i2c_log (Tx p [SWrite (ten, a) (take (Z.to_nat r) d)]) k k') k;
  i2c_read_ok fd n k p ten a : i2c_fds k !! fd = Some (p, IFile ten (Some a)) -> wp (i2c_read fd n) (fun r k' =>
    if fst r <? 0 then keeps i2c_fds i2c_log k k'
    else fst r <= n /\ Z.of_nat (length (snd r)) = fst r /\ emits i2c_fds i2c_log (Tx p [SRead (ten, a) (snd r)]) k k') k;
  i2c_rdwr_ok fd ms k p st : i2c_fds k !! fd = Some (p, st) -> wp (i2c_rdwr fd ms) (fun r k' =>
    if fst r <? 0 then keeps i2c_fds i2c_log k k' else exists ss, msgs_done ms (snd r) ss /\ emits i2c_fds i2c_log (Tx p ss) k k') k
}.

(** ** Data *)

Inductive TUYA_IIC_ROLE_E := TUYA_IIC_MODE_MASTER | TUYA_IIC_MODE_SLAVE.
Inductive TUYA_IIC_SPEED_E := TUYA_IIC_BUS_SPEED_100K | TUYA_IIC_BUS_SPEED_400K | TUYA_IIC_BUS_SPEED_1M | TUYA_IIC_BUS_SPEED_3_4M.
Inductive TUYA_IIC_ADDR_MODE_E := TUYA_IIC_ADDRESS_7BIT | TUYA_IIC_ADDRESS_10BIT.
Record TUYA_IIC_BASE_CFG_T := mkIicCfg { ic_role : TUYA_IIC_ROLE_E; ic_speed : TUYA_IIC_SPEED_E; ic_addr_width : TUYA_IIC_ADDR_MODE_E }.

Record tkl_i2c_ctx_t := mkI2c {
  ci_fd : Z;
  ci_initialized : bool;
  ci_pending_valid : bool;
  ci_pending_addr : Z;
  ci_pending_buf : list Z;
  ci_pending_len : Z;
  ci_last_count : Z
}.

Definition TKL_I2C_MAX_PORT : Z := 6.
Definition TUYA_I2C_NUM_MAX : Z := 6.
Definition PENDING_BUF : Z := 32.
Definition zero_i2c : tkl_i2c_ctx_t := mkI2c 0 false false 0 (replicate (Z.to_nat PENDING_BUF) 0) 0 0.
Definition i2c_zero {K} (k : K) : bus tkl_i2c_ctx_t K := Bus (replicate (Z.to_nat TKL_I2C_MAX_PORT) zero_i2c) false k.

Definition with_i2c_fd fd x := mkI2c fd (ci_initialized x) (ci_pending_valid x) (ci_pending_addr x) (ci_pending_buf x) (ci_pending_len x) (ci_last_count x).
Definition with_count n x := mkI2c (ci_fd x) (ci_initialized x) (ci_pending_valid x) (ci_pending_addr x) (ci_pending_buf x) (ci_pending_len x) n.
Definition with_pending v a b n x := mkI2c (ci_fd x) (ci_initialized x) v a b n (ci_last_count x).

Section I2c.
Context {K : Type} `{!I2cDev K}.
Local Abbreviation W := (M (bus tkl_i2c_ctx_t K)).

(** ** Helpers *)

Definition i2c_port_bad (port : Z) : bool := (port <? 0) || (TUYA_I2C_NUM_MAX <=? port) || (TKL_I2C_MAX_PORT <=? port).

Definition prv_open_bus (port : Z) : W Z :=
  fd <- on_dev (i2c_open port) ;;
  if fd <? 0 then ret (-1) else ret fd.

Definition prv_set_slave (fd dev_addr : Z) (addr_mode : TUYA_IIC_ADDR_MODE_E) : W OPERATE_RET :=
  bad <- match addr_mode with
         | TUYA_IIC_ADDRESS_10BIT => r <- on_dev (i2c_tenbit fd 1) ;; ret (r <? 0)
         | TUYA_IIC_ADDRESS_7BIT => _ <- on_dev (i2c_tenbit fd 0) ;; ret false
         end ;;
  if bad : bool then ret OPRT_COM_ERROR
  else
    r <- on_dev (i2c_slave fd dev_addr) ;;
    if r <? 0 then ret OPRT_COM_ERROR else ret OPRT_OK.

Definition prv_probe_addr (fd : Z) : W OPERATE_RET :=
  r <- on_dev (i2c_quick fd) ;;
  if r <? 0 then ret OPRT_COM_ERROR else ret OPRT_OK.

(** ** Operations *)

Definition tkl_i2c_init (port : Z) (cfg : option TUYA_IIC_BASE_CFG_T) : W OPERATE_RET :=
  match cfg with
  | None => ret OPRT_INVALID_PARM
  | Some _ =>
    if i2c_port_bad port then ret OPRT_INVALID_PARM
    else
      bus_lock ;;;
      ctx <- get_port port ;;
      if ci_initialized ctx then bus_leave OPRT_OK
      else
        fd <- prv_open_bus port ;;
        if fd <? 0 then bus_leave OPRT_COM_ERROR
        else
          upd_port port (fun x => mkI2c fd true false 0 (ci_pending_buf x) 0 0) ;;;
          bus_leave OPRT_OK
  end.

Definition tkl_i2c_deinit (port : Z) : W OPERATE_RET :=
  if i2c_port_bad port then ret OPRT_INVALID_PARM
  else
    bus_lock ;;;
    ctx <- get_port port ;;
    (if ci_initialized ctx then
       _ <- on_dev (i2c_close (ci_fd ctx)) ;;
       upd_port port (fun _ => with_i2c_fd (-1) zero_i2c)
     else ret tt) ;;;
    bus_leave OPRT_OK.

(** A null [data] is [None]. *)
Definition tkl_i2c_master_send (port dev_addr : Z) (data : option (list Z)) (size : Z) (xfer_pending : bool) : W OPERATE_RET :=
  if i2c_port_bad port then ret OPRT_INVALID_PARM
  else
    bus_lock ;;;
    ctx <- get_port port ;;
    if negb (ci_initialized ctx) then bus_leave OPRT_COM_ERROR
    else
      upd_port port (with_count 0) ;;;
      if size =? 0 then
        r <- prv_set_slave (ci_fd ctx) dev_addr TUYA_IIC_ADDRESS_7BIT ;;
        if negb (bool_decide (r = OPRT_OK)) then bus_leave r
        else r <- prv_probe_addr (ci_fd ctx) ;; bus_leave r
      else
        match data with
        | None => bus_leave OPRT_INVALID_PARM
        | Some data =>
          if xfer_pending then
            let copy_len := if PENDING_BUF <? size then PENDING_BUF else size in
            d <- buf_bytes data copy_len ;;
            upd_port port (fun x => with_count copy_len (with_pending true dev_addr (d ++ drop (Z.to_nat copy_len) (ci_pending_buf x)) copy_len x)) ;;;
            bus_leave OPRT_OK
          else
            r <- prv_set_slave (ci_fd ctx) dev_addr TUYA_IIC_ADDRESS_7BIT ;;
            if negb (bool_decide (r = OPRT_OK)) then bus_leave r
            else
              d <- buf_bytes data size ;;
              wr <- on_dev (i2c_write (ci_fd ctx) d) ;;
              if wr <? 0 then bus_leave OPRT_COM_ERROR
              else upd_port port (with_count (u32 wr)) ;;; bus_leave OPRT_OK
        end.

(** [data] is false for a null pointer; the bytes stored at [data] are returned. *)
Definition tkl_i2c_master_receive (port dev_addr : Z) (data : bool) (size : Z) (xfer_pending : bool) : W (OPERATE_RET * list Z) :=
  if i2c_port_bad port then ret (OPRT_INVALID_PARM, [])
  else if negb data || (size =? 0) then ret (OPRT_INVALID_PARM, [])
  else
    bus_lock ;;;
    ctx <- get_port port ;;
    if negb (ci_initialized ctx) then bus_leave (OPRT_COM_ERROR, [])
    else
      upd_port port (with_count 0) ;;;
      if ci_pending_valid ctx && (ci_pending_addr ctx =? dev_addr) then
        let msgs := [MsgWrite dev_addr (take (Z.to_nat (u16 (ci_pending_len ctx))) (ci_pending_buf ctx)); MsgRead dev_addr (u16 size)] in
        rc <- on_dev (i2c_rdwr (ci_fd ctx) msgs) ;;
        upd_port port (fun x => with_pending false (ci_pending_addr x) (ci_pending_buf x) 0 x) ;;;
        if fst rc <? 0 then bus_leave (OPRT_COM_ERROR, [])
        else upd_port port (with_count size) ;;; bus_leave (OPRT_OK, concat (snd rc))
      else
        r <- prv_set_slave (ci_fd ctx) dev_addr TUYA_IIC_ADDRESS_7BIT ;;
        if negb (bool_decide (r = OPRT_OK)) then bus_leave (r, [])
        else
          rd <- on_dev (i2c_read (ci_fd ctx) size) ;;
          if fst rd <? 0 then bus_leave (OPRT_COM_ERROR, [])
          else upd_port port (with_count (u32 (fst rd))) ;;; bus_leave (OPRT_OK, snd rd).

Definition tkl_i2c_get_data_count (port : Z) : W Z :=
  if i2c_port_bad port then ret (-1)
  else
    bus_lock ;;;
    ctx <- get_port port ;;
    bus_leave (s32 (ci_last_count ctx)).
End I2c.
