(* ===== verification/TklI2cProps.v ===== *)
(** * I2C buses: the transactions that calls make

    [TklI2c] refines ports that keep at most one deferred write each: descriptors,
    slave addresses, the lock and the buffer of the port are hidden, and every
    completed transaction on a bus is one the calls ask for. *)

From S2P Require Import Prelude BusTable TklI2c.

(** ** The specification *)

(** A port that is off, or on with its deferred write and its data count. *)
Inductive aport := AOff | AOn (deferred : option (Z * list Z)) (count : Z).
#[export] Instance aport_inhabited : Inhabited aport := populate AOff.

Inductive i2c_op :=
| IInit (cfg : option TUYA_IIC_BASE_CFG_T)
| IDeinit
| ISend (dev_addr : Z) (data : option (list Z)) (size : Z) (xfer_pending : bool)
| IRecv (dev_addr : Z) (data : bool) (size : Z) (xfer_pending : bool)
| ICount.
Inductive i2c_res := IRet (r : OPERATE_RET) | IGot (r : OPERATE_RET) (d : list Z) | INum (n : Z).

Definition acount (A : aport) : Z := match A with AOff => 0 | AOn _ n => n end.

(** A call on the port of bus [p]: its result and the transactions it completes. *)
Inductive i2c_step (p : Z) : aport -> i2c_op -> i2c_res -> list i2c_tx -> aport -> Prop :=
| is_init_null A : i2c_step p A (IInit None) (IRet OPRT_INVALID_PARM) [] A
| is_init c : i2c_step p AOff (IInit (Some c)) (IRet OPRT_OK) [] (AOn None 0)
| is_init_fail c : i2c_step p AOff (IInit (Some c)) (IRet OPRT_COM_ERROR) [] AOff
| is_init_again c m n : i2c_step p (AOn m n) (IInit (Some c)) (IRet OPRT_OK) [] (AOn m n)
| is_deinit A : i2c_step p A IDeinit (IRet OPRT_OK) [] AOff
| is_send_off a d z b : i2c_step p AOff (ISend a d z b) (IRet OPRT_COM_ERROR) [] AOff
| is_probe m n a d b : i2c_step p (AOn m n) (ISend a d 0 b) (IRet OPRT_OK) [Tx p [SQuick (false, a)]] (AOn m 0)
| is_send_null m n a z b : z <> 0 -> i2c_step p (AOn m n) (ISend a None z b) (IRet OPRT_INVALID_PARM) [] (AOn m 0)
| is_send m n a d z w : z <> 0 -> 0 <= w <= z ->
    i2c_step p (AOn m n) (ISend a (Some d) z false) (IRet OPRT_OK) [Tx p [SWrite (false, a) (take (Z.to_nat w) d)]] (AOn m w)
| is_send_fail m n a d z b : z = 0 \/ (is_Some d /\ b = false) -> i2c_step p (AOn m n) (ISend a d z b) (IRet OPRT_COM_ERROR) [] (AOn m 0)
| is_defer m n a d z : z <> 0 ->
    i2c_step p (AOn m n) (ISend a (Some d) z true) (IRet OPRT_OK) [] (AOn (Some (a, take (Z.to_nat (Z.min 32 z)) d)) (Z.min 32 z))
| is_recv_null A a d z b : d = false \/ z = 0 -> i2c_step p A (IRecv a d z b) (IGot OPRT_INVALID_PARM []) [] A
| is_recv_off a z b : z <> 0 -> i2c_step p AOff (IRecv a true z b) (IGot OPRT_COM_ERROR []) [] AOff
| is_recv m n a z b got : z <> 0 -> (forall d, m <> Some (a, d)) -> Z.of_nat (length got) <= z ->
    i2c_step p (AOn m n) (IRecv a true z b) (IGot OPRT_OK got) [Tx p [SRead (false, a) got]] (AOn m (Z.of_nat (length got)))
| is_recv_fail m n a z b : z <> 0 -> (forall d, m <> Some (a, d)) -> i2c_step p (AOn m n) (IRecv a true z b) (IGot OPRT_COM_ERROR []) [] (AOn m 0)
| is_combined d n a z b got : z <> 0 -> Z.of_nat (length got) = u16 z ->
    i2c_step p (AOn (Some (a, d)) n) (IRecv a true z b) (IGot OPRT_OK got) [Tx p [SWrite (false, a) d; SRead (false, a) got]] (AOn None z)
| is_combined_fail d n a z b : z <> 0 -> i2c_step p (AOn (Some (a, d)) n) (IRecv a true z b) (IGot OPRT_COM_ERROR []) [] (AOn None 0)
| is_count A : i2c_step p A ICount (INum (s32 (acount A))) [] A.

(** The answer for a port that is not there. *)
Definition i2c_reject (o : i2c_op) : i2c_res :=
  match o with IRecv _ _ _ _ => IGot OPRT_INVALID_PARM [] | ICount => INum (-1) | _ => IRet OPRT_INVALID_PARM end.

(** Sequences of calls on the six ports. *)
Abbreviation i2c_steps := (bus_steps 6 i2c_step i2c_reject).

(** The caller gives sizes of 32 bits and buffers that have the bytes to send. *)
Definition i2c_op_ok (o : i2c_op) : Prop :=
  match o with
  | ISend _ (Some d) z _ => 0 <= z < 4294967296 /\ z <= Z.of_nat (length d)
  | ISend _ None z _ | IRecv _ _ z _ => 0 <= z < 4294967296
  | _ => True
  end.

Section Refinement.
Context {K : Type} `{!I2cDev K}.
Local Abbreviation B := (bus tkl_i2c_ctx_t K).

Definition i2c_exec (p : Z) (o : i2c_op) : M B i2c_res :=
  match o with
  | IInit cfg => r <- tkl_i2c_init p cfg ;; ret (IRet r)
  | IDeinit => r <- tkl_i2c_deinit p ;; ret (IRet r)
  | ISend a d z b => r <- tkl_i2c_master_send p a d z b ;; ret (IRet r)
  | IRecv a d z b => r <- tkl_i2c_master_receive p a d z b ;; ret (IGot (fst r) (snd r))
  | ICount => n <- tkl_i2c_get_data_count p ;; ret (INum n)
  end.

(** ** The relation *)

Definition i2c_abs (x : tkl_i2c_ctx_t) : aport :=
  if ci_initialized x
  then AOn (if ci_pending_valid x then Some (ci_pending_addr x, take (Z.to_nat (ci_pending_len x)) (ci_pending_buf x)) else None) (ci_last_count x)
  else AOff.

(** A port that is on has a descriptor for seven-bit addresses; one that is off has none. *)
Definition i2c_good (x : tkl_i2c_ctx_t) (o : option (Z * i2c_file)) : Prop :=
  length (ci_pending_buf x) = 32%nat /\ 0 <= ci_pending_len x <= 32 /\
  if ci_initialized x then exists st, o = Some (ci_fd x, st) /\ if_ten st = false else o = None /\ ci_last_count x = 0.

Local Abbreviation at_i2c := (at_port i2c_fds i2c_log TKL_I2C_MAX_PORT).
Local Abbreviation i2c_ok := (bus_ok i2c_fds TKL_I2C_MAX_PORT (fun _ => i2c_good)).

Local Abbreviation i2c_post := (call_post i2c_fds i2c_log TKL_I2C_MAX_PORT (fun _ => i2c_good) i2c_abs i2c_step).
Local Abbreviation i2c_execs := (bus_execs i2c_exec).

Lemma port_checked (p : Z) : 0 <= p < TKL_I2C_MAX_PORT -> i2c_port_bad p = false.
Proof. unfold TKL_I2C_MAX_PORT. intros Hp. unfold i2c_port_bad, TUYA_I2C_NUM_MAX, TKL_I2C_MAX_PORT. rewrite (proj2 (Z.ltb_ge p 0)), !(proj2 (Z.leb_gt 6 p)) by lia. done. Qed.

Lemma set_slave_spec s0 p lk x fd st t s a (Q : OPERATE_RET -> B -> Prop) : at_i2c s0 p lk x (Some (fd, st)) t s -> if_ten st = false ->
  (forall s', at_i2c s0 p lk x (Some (fd, IFile false (Some a))) t s' -> Q OPRT_OK s') ->
  (forall st' s', if_ten st' = false -> at_i2c s0 p lk x (Some (fd, st')) t s' -> Q OPRT_COM_ERROR s') ->
  wp (prv_set_slave fd a TUYA_IIC_ADDRESS_7BIT) Q s.
Proof.
  intros Hs Hten Hok Hfail. unfold prv_set_slave. apply wp_bind. dev_call i2c_tenbit_ok Hs r k Hr. apply wp_ret. cbv iota beta.
  assert (exists st1, if_ten st1 = false /\ at_i2c s0 p lk x (Some (fd, st1)) t (Bus (b_ctx s) (b_lock s) k)) as (st1 & Hten1 & Hs1).
  { destruct (r <? 0); [exists st; split; [done|]; by eapply at_keeps|]. eexists; split; [|by eapply at_sets]. done. }
  dev_call i2c_slave_ok Hs1 r2 k2 Hr2. destruct (r2 <? 0); apply wp_ret.
  - eapply Hfail; [exact Hten1|]. by eapply at_keeps.
  - apply Hok. rewrite <-Hten1. by eapply at_sets.
Qed.

Lemma probe_spec s0 p lk x fd a t s (Q : OPERATE_RET -> B -> Prop) : at_i2c s0 p lk x (Some (fd, IFile false (Some a))) t s ->
  (forall s', at_i2c s0 p lk x (Some (fd, IFile false (Some a))) (t ++ [Tx p [SQuick (false, a)]]) s' -> Q OPRT_OK s') ->
  (forall s', at_i2c s0 p lk x (Some (fd, IFile false (Some a))) t s' -> Q OPRT_COM_ERROR s') ->
  wp (prv_probe_addr fd) Q s.
Proof.
  intros Hs Hok Hfail. unfold prv_probe_addr. dev_call i2c_quick_ok Hs r k Hr.
  destruct (r <? 0); apply wp_ret; [apply Hfail; by eapply at_keeps|apply Hok; by eapply at_emits].
Qed.

(** ** The calls *)

Lemma i2c_init_spec s p x fo cfg : at_i2c s p false x fo [] s -> i2c_good x fo -> wp (tkl_i2c_init p cfg) (fun r s' => i2c_post s p x (IInit cfg) (IRet r) s') s.
Proof.
  intros Hs Hg. unfold tkl_i2c_init. destruct cfg as [c|]; [|apply wp_ret; exists x, fo, []; split; [done|]; split; [done|constructor]].
  rewrite port_checked by apply Hs. eapply wp_enter_port; [exact Hs|]. intros s1 Hs1.
  destruct Hg as (Hb & Hl & Hi). destruct (ci_initialized x) eqn:Ei.
  - eapply (leave_post _ _ _ _ _ _ IRet); [exact Hs1| |]; [unfold i2c_good; by rewrite Ei|]. unfold i2c_abs. rewrite Ei. constructor.
  - destruct Hi as [-> Hc]. apply wp_bind. unfold prv_open_bus. apply wp_bind, wp_on_dev. eapply wp_mono; [apply i2c_open_ok|]. intros fd k [Ho Hten].
    destruct (at_opens _ _ _ _ _ _ _ _ _ _ _ Hs1 Ho) as [[Hfd Hs2]|(Hfd & st & Hs2)].
    + rewrite (proj2 (Z.ltb_lt fd 0)) by done. apply wp_ret. cbn [Z.ltb]. eapply (leave_post _ _ _ _ _ _ IRet); [exact Hs2| |]; [unfold i2c_good; by rewrite Ei|].
      unfold i2c_abs. rewrite Ei. constructor.
    + rewrite (proj2 (Z.ltb_ge fd 0)) by done. apply wp_ret. rewrite (proj2 (Z.ltb_ge fd 0)) by done. apply wp_bind. eapply wp_upd_port; [exact Hs2|]. intros s3 Hs3.
      eapply (leave_post _ _ _ _ _ _ IRet); [exact Hs3| |].
      * split; [done|]. split; [cbn; lia|]. cbn. exists st. split; [done|]. apply Hten; [|done]. exact (owns_lookup _ _ _ _ (ap_own _ _ _ _ _ _ _ _ _ _ Hs2)).
      * unfold i2c_abs. rewrite Ei. constructor.
Qed.

Lemma i2c_deinit_spec s p x fo : at_i2c s p false x fo [] s -> i2c_good x fo -> wp (tkl_i2c_deinit p) (fun r s' => i2c_post s p x IDeinit (IRet r) s') s.
Proof.
  intros Hs Hg. unfold tkl_i2c_deinit. rewrite port_checked by apply Hs. eapply wp_enter_port; [exact Hs|]. intros s1 Hs1.
  apply wp_bind. destruct (ci_initialized x) eqn:Ei.
  - destruct Hg as (Hb & Hl & Hi). rewrite Ei in Hi. destruct Hi as (st & -> & Hten).
    apply wp_bind, wp_on_dev. eapply wp_mono; [eapply i2c_close_ok; eexists; eapply owns_lookup, ap_own, Hs1|]. intros r k Hc. pose proof (at_closes _ _ _ _ _ _ _ _ _ _ _ _ Hs1 Hc) as Hs2.
    eapply wp_upd_port; [exact Hs2|]. intros s3 Hs3. eapply (leave_post _ _ _ _ _ _ IRet); [exact Hs3|by split; [|split]|constructor].
  - apply wp_ret. eapply (leave_post _ _ _ _ _ _ IRet); [exact Hs1|done|]. unfold i2c_abs at 2. rewrite Ei. constructor.
Qed.

Lemma i2c_count_spec s p x fo : at_i2c s p false x fo [] s -> i2c_good x fo -> wp (tkl_i2c_get_data_count p) (fun r s' => i2c_post s p x ICount (INum r) s') s.
Proof.
  intros Hs Hg. unfold tkl_i2c_get_data_count. rewrite port_checked by apply Hs. eapply wp_enter_port; [exact Hs|]. intros s1 Hs1.
  eapply (leave_post _ _ _ _ _ _ INum); [exact Hs1|done|]. assert (ci_last_count x = acount (i2c_abs x)) as ->; [|constructor].
  destruct Hg as (_ & _ & Hi). unfold i2c_abs. destruct (ci_initialized x); [done|]. apply Hi.
Qed.

(** A port that is on: its descriptor, and its record with the data count cleared. *)
Lemma good_on x fo n : ci_initialized x = true -> i2c_good x fo -> (exists st, fo = Some (ci_fd x, st) /\ if_ten st = false) /\
  forall st, if_ten st = false -> i2c_good (with_count n x) (Some (ci_fd x, st)).
Proof. intros Ei (Hb & Hl & Hi). rewrite Ei in Hi. split; [done|]. intros st Hst. split; [done|]. split; [done|]. cbn. rewrite Ei. by exists st. Qed.

Lemma abs_on x : ci_initialized x = true -> exists m n, i2c_abs x = AOn m n /\ forall c, i2c_abs (with_count c x) = AOn m c.
Proof. intros Ei. unfold i2c_abs. rewrite Ei. cbn. rewrite Ei. eauto. Qed.

Lemma i2c_send_spec s p x fo a d z b : at_i2c s p false x fo [] s -> i2c_good x fo -> i2c_op_ok (ISend a d z b) ->
  wp (tkl_i2c_master_send p a d z b) (fun r s' => i2c_post s p x (ISend a d z b) (IRet r) s') s.
Proof.
  intros Hs Hg Hz. unfold tkl_i2c_master_send. rewrite port_checked by apply Hs. eapply wp_enter_port; [exact Hs|]. intros s1 Hs1.
  destruct (ci_initialized x) eqn:Ei; cbn [negb].
  2: { eapply (leave_post _ _ _ _ _ _ IRet); [exact Hs1|done|]. unfold i2c_abs. rewrite Ei. constructor. }
  destruct (good_on x fo 0 Ei Hg) as [(st & -> & Hten) Hg0]. destruct (abs_on x Ei) as (m & n & Ea & Eac).
  apply wp_bind. eapply wp_upd_port; [exact Hs1|]. intros s2 Hs2.
  destruct (Z.eqb_spec z 0) as [->|Hz0].
  { apply wp_bind. eapply set_slave_spec; [exact Hs2|done| |].
    - intros s3 Hs3. rewrite bool_decide_true by done. cbn [negb]. apply wp_bind. eapply probe_spec; [exact Hs3| |]; intros s4 Hs4;
        (eapply (leave_post _ _ _ _ _ _ IRet); [exact Hs4|by apply Hg0|]); rewrite Ea, Eac; constructor; auto.
    - intros st' s3 Hst' Hs3. rewrite bool_decide_false by done. eapply (leave_post _ _ _ _ _ _ IRet); [exact Hs3|by apply Hg0|]. rewrite Ea, Eac. constructor. auto. }
  destruct d as [d|]; [|eapply (leave_post _ _ _ _ _ _ IRet); [exact Hs2|by apply Hg0|]; rewrite Ea, Eac; by constructor].
  destruct Hz as [Hz Hd]. destruct b.
  - unfold PENDING_BUF. replace (if 32 <? z then 32 else z) with (Z.min 32 z) by (destruct (Z.ltb_spec 32 z); lia). apply wp_bind. apply wp_buf_bytes; [lia|].
    apply wp_bind. eapply wp_upd_port; [exact Hs2|]. intros s3 Hs3. destruct Hg as (Hb & Hl & _).
    assert (length (take (Z.to_nat (Z.min 32 z)) d) = Z.to_nat (Z.min 32 z)) as El by (rewrite length_take; lia).
    eapply (leave_post _ _ _ _ _ _ IRet); [exact Hs3| |].
    + split; [cbn; rewrite length_app, length_drop, El; lia|]. split; [cbn; lia|]. cbn. rewrite Ei. by exists st.
    + rewrite Ea. unfold i2c_abs. cbn. rewrite Ei, take_app_length' by done. by constructor.
  - apply wp_bind. eapply set_slave_spec; [exact Hs2|done| |].
    + intros s3 Hs3. rewrite bool_decide_true by done. cbn [negb]. apply wp_bind. apply wp_buf_bytes; [lia|]. dev_call i2c_write_ok Hs3 wr k Hw.
      destruct (Z.ltb_spec wr 0) as [Hneg|Hpos].
      * eapply (leave_post _ _ _ _ _ _ IRet); [by eapply at_keeps|by apply Hg0|]. rewrite Ea, Eac. constructor. right. split; [by eexists|done].
      * destruct Hw as [Hle Hw]. rewrite length_take in Hle. rewrite u32_small by lia. apply wp_bind. eapply wp_upd_port; [by eapply at_emits|]. intros s5 Hs5.
        eapply (leave_post _ _ _ _ _ _ IRet); [exact Hs5|by apply (good_on x (Some (ci_fd x, st)) wr Ei Hg)|].
        rewrite Ea. change (with_count wr (with_count 0 x)) with (with_count wr x). rewrite Eac, take_take, Nat.min_l by lia. constructor; [done|lia].
    + intros st' s3 Hst' Hs3. rewrite bool_decide_false by done. eapply (leave_post _ _ _ _ _ _ IRet); [exact Hs3|by apply Hg0|]. rewrite Ea, Eac. constructor. right. split; [by eexists|done].
Qed.

Lemma msgs_done_2 a d n rs ss : msgs_done [MsgWrite a d; MsgRead a n] rs ss -> exists got, rs = [got] /\ Z.of_nat (length got) = n /\ ss = [SWrite (false, a) d; SRead (false, a) got].
Proof. intros H. inversion H as [|? ? ? ? ? H1|]; subst. inversion H1 as [| |? ? got ? ? ? Hl H2]; subst. inversion H2; subst. by exists got. Qed.

(** The receive that completes a deferred write. *)
Lemma i2c_combined_spec s p x fo a z b s2 : at_i2c s p true (with_count 0 x) fo [] s2 -> i2c_good x fo -> ci_initialized x = true ->
  ci_pending_valid x = true -> ci_pending_addr x = a -> 0 < z < 4294967296 ->
  wp (let msgs := [MsgWrite a (take (Z.to_nat (u16 (ci_pending_len x))) (ci_pending_buf x)); MsgRead a (u16 z)] in
      rc <- on_dev (i2c_rdwr (ci_fd x) msgs) ;;
      upd_port p (fun x => with_pending false (ci_pending_addr x) (ci_pending_buf x) 0 x) ;;;
      if fst rc <? 0 then bus_leave (OPRT_COM_ERROR, []) else upd_port p (with_count z) ;;; bus_leave (OPRT_OK, concat (snd rc)))
     (fun r s' => i2c_post s p x (IRecv a true z b) (IGot (fst r) (snd r)) s') s2.
Proof.
  intros Hs2 Hg Ei Ev <- Hz. destruct (good_on x fo 0 Ei Hg) as [(st & -> & Hten) _]. destruct Hg as (Hb & Hl & _). cbv zeta. rewrite (wrap_small 16 (ci_pending_len x)) by (change (2 ^ 16) with 65536; lia).
  dev_call i2c_rdwr_ok Hs2 rc k Hr.
  assert (exists t, at_i2c s p true (with_count 0 x) (Some (ci_fd x, st)) t (Bus (b_ctx s2) (b_lock s2) k) /\
    ((fst rc < 0 /\ t = []) \/ exists got, 0 <= fst rc /\ concat (snd rc) = got /\ Z.of_nat (length got) = u16 z /\
      t = [Tx p [SWrite (false, ci_pending_addr x) (take (Z.to_nat (ci_pending_len x)) (ci_pending_buf x)); SRead (false, ci_pending_addr x) got]])) as (t & Hs3 & Ht).
  { destruct (Z.ltb_spec (fst rc) 0); [exists []; split; [by eapply at_keeps|by left]|]. destruct Hr as (ss & Hm & He). apply msgs_done_2 in Hm as (got & -> & Hgot & ->).
    eexists; split; [by eapply at_emits|]. right. exists got. cbn [concat]. by rewrite app_nil_r. }
  apply wp_bind. eapply wp_upd_port; [exact Hs3|]. intros s4 Hs4. destruct Ht as [[Hneg ->]|(got & Hpos & Egot & Hlen & ->)].
  - rewrite (proj2 (Z.ltb_lt _ 0)) by done. eapply (leave_post _ _ _ _ _ _ (fun r => IGot (fst r) (snd r))); [exact Hs4| |].
    + split; [done|]. split; [cbn; lia|]. cbn. rewrite Ei. by exists st.
    + unfold i2c_abs. cbn. rewrite Ei, Ev. constructor. lia.
  - rewrite (proj2 (Z.ltb_ge _ 0)) by done. apply wp_bind. eapply wp_upd_port; [exact Hs4|]. intros s5 Hs5. eapply (leave_post _ _ _ _ _ _ (fun r => IGot (fst r) (snd r))); [exact Hs5| |].
    + split; [done|]. split; [cbn; lia|]. cbn. rewrite Ei. by exists st.
    + unfold i2c_abs. cbn. rewrite Ei, Ev, Egot. constructor; [lia|done].
Qed.

Lemma i2c_recv_spec s p x fo a d z b : at_i2c s p false x fo [] s -> i2c_good x fo -> i2c_op_ok (IRecv a d z b) ->
  wp (tkl_i2c_master_receive p a d z b) (fun r s' => i2c_post s p x (IRecv a d z b) (IGot (fst r) (snd r)) s') s.
Proof.
  intros Hs Hg Hz. cbn in Hz. unfold tkl_i2c_master_receive. rewrite port_checked by apply Hs.
  destruct (negb d || (z =? 0)) eqn:Enull.
  { apply wp_ret. exists x, fo, []. split; [done|]. split; [done|]. constructor. apply orb_prop in Enull as [E|E]; zbool; auto. }
  zbool. subst d. eapply wp_enter_port; [exact Hs|]. intros s1 Hs1. destruct (ci_initialized x) eqn:Ei; cbn [negb].
  2: { eapply (leave_post _ _ _ _ _ _ (fun r => IGot (fst r) (snd r))); [exact Hs1|done|]. unfold i2c_abs. rewrite Ei. by constructor. }
  apply wp_bind. eapply wp_upd_port; [exact Hs1|]. intros s2 Hs2.
  destruct (ci_pending_valid x && (ci_pending_addr x =? a)) eqn:Ep; [zbool; apply (i2c_combined_spec _ _ _ _ _ _ _ _ Hs2 Hg Ei); [done|done|lia]|].
  destruct (good_on x fo 0 Ei Hg) as [(st & -> & Hten) Hg0].
  assert (exists m n, i2c_abs x = AOn m n /\ (forall c, i2c_abs (with_count c x) = AOn m c) /\ forall e, m <> Some (a, e)) as (m & n & Ea & Eac & Hm).
  { unfold i2c_abs. cbn. rewrite Ei. do 2 eexists. split; [done|]. split; [done|]. intros e. destruct (ci_pending_valid x); [|done]. cbn in Ep. zbool. congruence. }
  apply wp_bind. eapply set_slave_spec; [exact Hs2|done| |].
  - intros s3 Hs3. rewrite bool_decide_true by done. cbn [negb]. dev_call i2c_read_ok Hs3 rd k Hr. destruct (Z.ltb_spec (fst rd) 0) as [Hneg|Hpos].
    + eapply (leave_post _ _ _ _ _ _ (fun r => IGot (fst r) (snd r))); [by eapply at_keeps|by apply Hg0|]. rewrite Ea, Eac. by constructor.
    + destruct Hr as (Hle & Hlen & He). rewrite u32_small by lia. apply wp_bind. eapply wp_upd_port; [by eapply at_emits|]. intros s5 Hs5.
      eapply (leave_post _ _ _ _ _ _ (fun r => IGot (fst r) (snd r))); [exact Hs5|by apply (good_on x (Some (ci_fd x, st)) (fst rd) Ei Hg)|].
      change (with_count (fst rd) (with_count 0 x)) with (with_count (fst rd) x). rewrite Ea, Eac, <-Hlen. constructor; [done|done|lia].
  - intros st' s3 Hst' Hs3. rewrite bool_decide_false by done. eapply (leave_post _ _ _ _ _ _ (fun r => IGot (fst r) (snd r))); [exact Hs3|by apply Hg0|]. rewrite Ea, Eac. by constructor.
Qed.

Lemma i2c_exec_spec s p x fo o : at_i2c s p false x fo [] s -> i2c_good x fo -> i2c_op_ok o -> wp (i2c_exec p o) (fun r s' => i2c_post s p x o r s') s.
Proof.
  intros Hs Hg Hz. destruct o; cbn [i2c_exec]; apply wp_bind; (eapply wp_mono; [first [by eapply i2c_init_spec|by eapply i2c_deinit_spec|by eapply i2c_send_spec|by eapply i2c_recv_spec|by eapply i2c_count_spec]|]);
    intros r s' Hr; by apply wp_ret.
Qed.

Lemma i2c_reject_spec s p o : ~ 0 <= p < 6 -> wp (i2c_exec p o) (fun r s' => r = i2c_reject o /\ s' = s) s.
Proof.
  intros Hp. assert (i2c_port_bad p = true) as E.
  { unfold i2c_port_bad, TUYA_I2C_NUM_MAX, TKL_I2C_MAX_PORT. destruct (Z.ltb_spec p 0); [done|]. by rewrite (proj2 (Z.leb_le 6 p)) by lia. }
  destruct o as [[c|]| | | |]; cbn [i2c_exec]; apply wp_bind; unfold tkl_i2c_init, tkl_i2c_deinit, tkl_i2c_master_send, tkl_i2c_master_receive, tkl_i2c_get_data_count; rewrite ?E; by repeat apply wp_ret.
Qed.

Lemma i2c_execs_spec ops s : i2c_ok s -> Forall (fun po => i2c_op_ok (snd po)) ops ->
  wp (i2c_execs ops) (fun rs s' => exists t, i2c_ok s' /\ i2c_log (b_dev s') = i2c_log (b_dev s) ++ t /\
    i2c_steps (i2c_abs <$> b_ctx s) ops rs t (i2c_abs <$> b_ctx s')) s.
Proof. apply bus_refines; [apply i2c_exec_spec|apply i2c_reject_spec]. Qed.

(** C8: over any character device that behaves as documented, every sequence of calls
    on the I2C ports runs to its end, and its results and the transactions completed
    on the buses are those of ports that keep at most one deferred write each: every
    transaction is on the bus of the port, to the seven-bit address the caller gave,
    with the bytes of the caller; a deferred write goes out, at most once, as the
    first part of the next receive from its address.  Afterwards each port that is
    on has one open descriptor, no other is open, and the lock is free. *)
Theorem i2c_refines_ports ops s : i2c_ok s -> Forall (fun po => i2c_op_ok (snd po)) ops ->
  wp (i2c_execs ops) (fun rs s' => exists t, i2c_ok s' /\ i2c_log (b_dev s') = i2c_log (b_dev s) ++ t /\
    i2c_steps (i2c_abs <$> b_ctx s) ops rs t (i2c_abs <$> b_ctx s')) s.
Proof. apply i2c_execs_spec. Qed.

(** A deferred write outlives a later complete write to the same device: the next
    receive sends the old bytes again to the device, after the new ones. *)
Theorem i2c_deferred_outlives_write s p x a d1 d2 z : i2c_ok s -> 0 <= p < 6 -> b_ctx s !! Z.to_nat p = Some x -> ci_initialized x = true ->
  d1 <> [] -> (length d1 <= 32)%nat -> d2 <> [] -> Z.of_nat (length d2) < 4294967296 -> 0 < z < 65536 ->
  wp (i2c_execs [(p, ISend a (Some d1) (Z.of_nat (length d1)) true); (p, ISend a (Some d2) (Z.of_nat (length d2)) false); (p, IRecv a true z false)])
     (fun rs s' => forall got, rs = [IRet OPRT_OK; IRet OPRT_OK; IGot OPRT_OK got] ->
        exists w, i2c_log (b_dev s') = i2c_log (b_dev s) ++ [Tx p [SWrite (false, a) (take w d2)]; Tx p [SWrite (false, a) d1; SRead (false, a) got]]) s.
Proof.
  intros Hs Hp Hx Ei Hd1 Hl1 Hd2 Hl2 Hz. assert (length d1 <> 0 /\ length d2 <> 0)%nat as [Hn1 Hn2] by (split; by destruct d1, d2).
  assert (Forall (fun po => i2c_op_ok (snd po)) [(p, ISend a (Some d1) (Z.of_nat (length d1)) true); (p, ISend a (Some d2) (Z.of_nat (length d2)) false); (p, IRecv a true z false)]) as Hops.
  { repeat constructor; cbn [snd i2c_op_ok]; lia. }
  eapply wp_mono; [exact (i2c_execs_spec _ _ Hs Hops)|]. cbv beta. intros rs s' (t & _ & Hlog & Hst) got ->. rewrite Hlog. clear Hlog Hops.
  assert (length (i2c_abs <$> b_ctx s) = 6%nat) as El by (rewrite length_fmap; pose proof (bk_len _ _ _ _ Hs) as E; unfold TKL_I2C_MAX_PORT in E; lia).
  inversion Hst as [| |? ? ? A A1 ? t1 ? ? t2 ? _ HA H1 Hst1]; subst. rewrite list_lookup_fmap, Hx in HA. injection HA as <-. unfold i2c_abs at 1 in H1. rewrite Ei in H1.
  inversion H1; subst; [lia|]. rewrite take_ge in Hst1 by lia.
  inversion Hst1 as [| |? ? ? A2 A3 ? t3 ? ? t4 ? _ HA2 H2 Hst2]; subst. rewrite list_lookup_insert_eq in HA2 by lia. injection HA2 as <-.
  inversion H2; subst; [lia|].
  inversion Hst2 as [| |? ? ? A4 A5 ? t5 ? ? t6 ? _ HA4 H3 Hst3]; subst. rewrite list_lookup_insert_eq in HA4 by (rewrite length_insert; lia). injection HA4 as <-.
  inversion Hst3; subst. inversion H3; subst; [naive_solver|]. by eexists.
Qed.
End Refinement.

(** ** A device *)

(** Buses on which every device answers; a read gives the number of transactions so
    far, in every byte. *)
Record sim_i2c := SimI2c { si_fds : gmap Z (Z * i2c_file); si_log : list i2c_tx }.

Definition sim_reply (k : sim_i2c) (n : Z) : list Z := replicate (Z.to_nat n) (Z.of_nat (length (si_log k))).
Definition sim_open (p : Z) : M sim_i2c Z := fun k =>
  match si_fds k !! (10 + p) with
  | None => if 0 <=? 10 + p then Ret (10 + p) (SimI2c (<[10 + p := (p, IFile false None)]> (si_fds k)) (si_log k)) else Ret (-1) k
  | Some _ => Ret (-1) k
  end.
Definition sim_upd (fd : Z) (f : i2c_file -> i2c_file) : M sim_i2c Z := fun k =>
  match si_fds k !! fd with Some (p, st) => Ret 0 (SimI2c (<[fd := (p, f st)]> (si_fds k)) (si_log k)) | None => Ret (-1) k end.
(** A transaction on the bus and with the address of the descriptor. *)
Definition sim_emit {R} (fd : Z) (err : R) (f : sim_i2c -> bool * Z -> R * list i2c_seg) : M sim_i2c R := fun k =>
  match si_fds k !! fd with
  | Some (p, st) => let (r, ss) := f k (if_ten st, default 0 (if_addr st)) in Ret r (SimI2c (si_fds k) (si_log k ++ [Tx p ss]))
  | None => Ret err k
  end.

Fixpoint sim_msgs (k : sim_i2c) (ms : list i2c_msg) : list (list Z) * list i2c_seg :=
  match ms with
  | [] => ([], [])
  | MsgWrite a d :: ms => let (rs, ss) := sim_msgs k ms in (rs, SWrite (false, a) d :: ss)
  | MsgRead a n :: ms => let (rs, ss) := sim_msgs k ms in (sim_reply k n :: rs, SRead (false, a) (sim_reply k n) :: ss)
  end.
Definition readable (ms : list i2c_msg) : bool := forallb (fun m => match m with MsgRead _ n => 0 <=? n | _ => true end) ms.

Lemma sim_msgs_done k ms : readable ms = true -> msgs_done ms (fst (sim_msgs k ms)) (snd (sim_msgs k ms)).
Proof.
  induction ms as [|[a d|a n] ms IH]; cbn; [constructor|..]; intros H.
  - specialize (IH H). destruct (sim_msgs k ms). by constructor.
  - apply andb_prop in H as [Hn H]. specialize (IH H). destruct (sim_msgs k ms). constructor; [|done]. unfold sim_reply. rewrite length_replicate. zbool. lia.
Qed.

#[refine] Instance sim_i2c_dev : I2cDev sim_i2c := {|
  i2c_open := sim_open;
  i2c_close fd := fun k => Ret 0 (SimI2c (delete fd (si_fds k)) (si_log k));
  i2c_tenbit fd v := sim_upd fd (fun st => IFile (negb (v =? 0)) (if_addr st));
  i2c_slave fd a := sim_upd fd (fun st => IFile (if_ten st) (Some a));
  i2c_quick fd := sim_emit fd (-1) (fun _ a => (0, [SQuick a]));
  i2c_write fd d := sim_emit fd (-1) (fun _ a => (Z.of_nat (length d), [SWrite a d]));
  i2c_read fd n := if 0 <=? n then sim_emit fd (-1, []) (fun k a => let r := sim_reply k n in ((Z.of_nat (length r), r), [SRead a r])) else ret (-1, []);
  i2c_rdwr fd ms := if readable ms then sim_emit fd (-1, []) (fun k a => let (rs, ss) := sim_msgs k ms in ((0, rs), ss)) else ret (-1, []);
  i2c_fds := si_fds;
  i2c_log := si_log
|}.
Proof.
  - intros p k. unfold wp, sim_open. destruct (si_fds k !! (10 + p)) eqn:E; [by split; [split; [|left; split]|]|]. destruct (Z.leb_spec 0 (10 + p)); [|by split; [split; [|left; split]|]].
    split; [split; [done|]; right; split; [done|]; split; [done|]; by eexists|]. cbn. rewrite lookup_insert_eq. intros st [= <-] _. done.
  - done.
  - intros fd v k p st E. unfold wp, sim_upd. rewrite E. done.
  - intros fd a k p st E. unfold wp, sim_upd. rewrite E. done.
  - intros fd k p ten a E. unfold wp, sim_emit. rewrite E. done.
  - intros fd d k p ten a E. unfold wp, sim_emit. rewrite E. rewrite (proj2 (Z.ltb_ge _ 0)) by lia. split; [lia|]. by rewrite Nat2Z.id, take_ge by lia.
  - intros fd n k p ten a E. destruct (Z.leb_spec 0 n); [|done]. unfold wp, sim_emit. rewrite E. cbn zeta. cbn [fst snd]. rewrite (proj2 (Z.ltb_ge _ 0)) by lia.
    split; [|done]. unfold sim_reply. rewrite length_replicate. lia.
  - intros fd ms k p st E. destruct (readable ms) eqn:Er; [|done]. pose proof (sim_msgs_done k ms Er) as Hm. unfold wp, sim_emit. rewrite E. destruct (sim_msgs k ms) as [rs ss]. exists ss. done.
Defined.

Definition sim_i2c0 : bus tkl_i2c_ctx_t sim_i2c := i2c_zero (SimI2c ∅ []).
Definition iic_cfg : TUYA_IIC_BASE_CFG_T := mkIicCfg TUYA_IIC_MODE_MASTER TUYA_IIC_BUS_SPEED_400K TUYA_IIC_ADDRESS_7BIT.

Lemma sim_i2c0_ok : bus_ok i2c_fds TKL_I2C_MAX_PORT (fun _ => i2c_good) sim_i2c0.
Proof.
  assert (forall p, owns (i2c_fds (b_dev sim_i2c0)) p None) as Hn.
  { intros p fd st. change (i2c_fds (b_dev sim_i2c0)) with (∅ : gmap Z (Z * i2c_file)). by rewrite lookup_empty. }
  constructor; [done|done| |by intros]. intros p x _ Hx. apply lookup_replicate in Hx as [-> _]. exists None. split; [apply Hn|by split; [|split]].
Qed.

(** A register of device 80 on bus 1 is read, and then device 81. *)
Definition i2c_demo : list (Z * i2c_op) :=
  [(1, IInit (Some iic_cfg)); (1, ISend 80 (Some [7]) 1 true); (1, IRecv 80 true 2 false); (1, IRecv 81 true 1 false); (1, ICount); (9, IDeinit)].

Lemma i2c_refines_ports_witness :
  wp (bus_execs i2c_exec i2c_demo) (fun rs s' => exists t, bus_ok i2c_fds TKL_I2C_MAX_PORT (fun _ => i2c_good) s' /\ i2c_log (b_dev s') = i2c_log (b_dev sim_i2c0) ++ t /\
    i2c_steps (i2c_abs <$> b_ctx sim_i2c0) i2c_demo rs t (i2c_abs <$> b_ctx s')) sim_i2c0.
Proof. refine (i2c_refines_ports i2c_demo sim_i2c0 sim_i2c0_ok _). repeat constructor; cbn; lia. Defined.

Example i2c_demo_log : match bus_execs i2c_exec i2c_demo sim_i2c0 with
  | Ret rs s => rs = [IRet OPRT_OK; IRet OPRT_OK; IGot OPRT_OK [0; 0]; IGot OPRT_OK [1]; INum 1; IRet OPRT_INVALID_PARM] /\
      i2c_log (b_dev s) = [Tx 1 [SWrite (false, 80) [7]; SRead (false, 80) [0; 0]]; Tx 1 [SRead (false, 81) [1]]]
  | _ => False end.
Proof. by vm_compute. Qed.

(** Bus 1 after its initialisation. *)
Definition i2c_on : tkl_i2c_ctx_t := mkI2c 11 true false 0 (replicate 32 0) 0 0.
Definition sim_i2c1 : bus tkl_i2c_ctx_t sim_i2c :=
  Bus (<[1%nat := i2c_on]> (replicate 6 zero_i2c)) false (SimI2c {[11 := (1, IFile false None)]} []).

Lemma sim_i2c1_ok : bus_ok i2c_fds TKL_I2C_MAX_PORT (fun _ => i2c_good) sim_i2c1.
Proof.
  assert (forall p fd st, i2c_fds (b_dev sim_i2c1) !! fd = Some (p, st) <-> (fd = 11 /\ p = 1 /\ st = IFile false None)) as Hf.
  { intros p fd st. change (i2c_fds (b_dev sim_i2c1)) with ({[11 := (1, IFile false None)]} : gmap Z (Z * i2c_file)). rewrite lookup_singleton_Some. naive_solver. }
  constructor; [done|done| |].
  - intros p x Hp Hx. cbn [sim_i2c1 b_ctx] in Hx. destruct (decide (p = 1)) as [->|Hne].
    + injection Hx as <-. exists (Some (11, IFile false None)). split; [intros fd st; rewrite Hf; naive_solver|]. split; [done|]. split; [cbn; lia|]. by exists (IFile false None).
    + rewrite list_lookup_insert_ne in Hx by lia. apply lookup_replicate in Hx as [-> _]. exists None. split; [intros fd st; rewrite Hf; naive_solver|by split; [|split]].
  - intros p Hp fd st. rewrite Hf. unfold TKL_I2C_MAX_PORT in Hp. split; [lia|done].
Qed.

Lemma i2c_deferred_outlives_write_witness :
  wp (bus_execs i2c_exec [(1, ISend 80 (Some [7]) (Z.of_nat 1) true); (1, ISend 80 (Some [9; 4]) (Z.of_nat 2) false); (1, IRecv 80 true 2 false)])
     (fun rs s' => forall got, rs = [IRet OPRT_OK; IRet OPRT_OK; IGot OPRT_OK got] ->
        exists w, i2c_log (b_dev s') = i2c_log (b_dev sim_i2c1) ++ [Tx 1 [SWrite (false, 80) (take w [9; 4])]; Tx 1 [SWrite (false, 80) [7]; SRead (false, 80) got]]) sim_i2c1.
Proof. refine (i2c_deferred_outlives_write sim_i2c1 1 i2c_on 80 [7] [9; 4] 2 sim_i2c1_ok _ eq_refl eq_refl _ _ _ _ _); [lia|done|cbn; lia|done|cbn; lia|lia]. Defined.

Example i2c_deferred_demo : match bus_execs i2c_exec [(1, ISend 80 (Some [7]) 1 true); (1, ISend 80 (Some [9; 4]) 2 false); (1, IRecv 80 true 2 false)] sim_i2c1 with
  | Ret rs s => rs = [IRet OPRT_OK; IRet OPRT_OK; IGot OPRT_OK [1; 1]] | _ => False end.
Proof. by vm_compute. Qed.
