(* ===== verification/TklSpi.v ===== *)
(** * SPI ports: [src/tkl_spi.c]

    A port is a chip select of the Linux spidev device.  The adapter keeps the
    configuration of each port and the number of bytes of its last transfer.  The
    device is a parameter, the class [SpiDev]: its descriptors with their settings,
    the transfers that were completed and the calls that failed. *)

From S2P Require Import Prelude BusTable.

(** ** The spidev device *)

(** The settings of a descriptor: clock mode, bits per word, clock, bit order. *)
Record spi_file := SFile { sf_mode : Z; sf_bits : Z; sf_speed : Z; sf_lsb : bool }.

(** A part of a transfer: its word size and clock, what went out and what came in. *)
Record spi_part := Part { pt_bits : Z; pt_speed : Z; pt_out : option (list Z); pt_in : option (list Z) }.
(** A transfer: the port, the clock mode and bit order, the parts under one chip select. *)
Record spi_tx := STx { st_port : Z; st_mode : Z; st_lsb : bool; st_parts : list spi_part }.

(** What the device has done: transfers that were completed, and calls that failed. *)
Inductive spi_call := COpen | CMode | CBits | CSpeed | CLsb | CWrite | CRead | CMessage.
Inductive spi_ev := Done (t : spi_tx) | Failed (port : Z) (c : spi_call).

(** [struct spi_ioc_transfer]: a null [tx_buf] is [None], a null [rx_buf] [false]. *)
Record spi_ioc_transfer := mkXfer { xf_tx : option (list Z); xf_rx : bool; xf_len : Z; xf_speed_hz : Z; xf_bits_per_word : Z }.

(** A zero in a transfer stands for the setting of the descriptor. *)
Definition or_default (v d : Z) : Z := if v =? 0 then d else v.

(** The parts of a completed [SPI_IOC_MESSAGE], with the bytes received. *)
Inductive xfers_done (st : spi_file) : list spi_ioc_transfer -> list (list Z) -> list spi_part -> Prop :=
| xfers_nil : xfers_done st [] [] []
| xfers_out x xs rs ps : xf_rx x = false -> xfers_done st xs rs ps ->
    xfers_done st (x :: xs) rs (Part (or_default (xf_bits_per_word x) (sf_bits st)) (or_default (xf_speed_hz x) (sf_speed st)) (xf_tx x) None :: ps)
| xfers_in x r xs rs ps : xf_rx x = true -> Z.of_nat (length r) = xf_len x -> xfers_done st xs rs ps ->
    xfers_done st (x :: xs) (r :: rs) (Part (or_default (xf_bits_per_word x) (sf_bits st)) (or_default (xf_speed_hz x) (sf_speed st)) (xf_tx x) (Some r) :: ps).

Class SpiDev (K : Type) := {
  spi_open : Z -> Z -> M K Z;                     (** [open("/dev/spidev<bus>.<cs>", O_RDWR)] *)
  spi_close : Z -> M K Z;
  spi_wr_mode : Z -> Z -> M K Z;
  spi_wr_bits : Z -> Z -> M K Z;
  spi_wr_speed : Z -> Z -> M K Z;
  spi_wr_lsb : Z -> Z -> M K Z;
  spi_write : Z -> list Z -> M K Z;
  spi_read : Z -> Z -> M K (Z * list Z);
  spi_message : Z -> list spi_ioc_transfer -> M K (Z * list (list Z));
  spi_fds : K -> gmap Z (Z * spi_file);
  spi_log : K -> list spi_ev;
  spi_lsb_able : Z -> bool;                       (** can the controller of a port send the least significant bit first? *)
  spi_open_ok b c k : wp (spi_open b c) (fun fd k' => if fd <? 0 then emits spi_fds spi_log (Failed (2 * b + c) COpen) k k' else opens spi_fds spi_log (2 * b + c) fd k k') k;
  spi_close_ok fd k : is_Some (spi_fds k !! fd) -> wp (spi_close fd) (fun _ k' => closes spi_fds spi_log fd k k') k;
  spi_wr_mode_ok fd v k p st : spi_fds k !! fd = Some (p, st) -> wp (spi_wr_mode fd v) (fun r k' =>
    if r <? 0 then emits spi_fds spi_log (Failed p CMode) k k' else sets spi_fds spi_log p fd (SFile (Z.land v 3) (sf_bits st) (sf_speed st) (Z.testbit v 3)) k k') k;
  spi_wr_bits_ok fd v k p st : spi_fds k !! fd = Some (p, st) -> wp (spi_wr_bits fd v) (fun r k' =>
    if r <? 0 then emits spi_fds spi_log (Failed p CBits) k k' else sets spi_fds spi_log p fd (SFile (sf_mode st) v (sf_speed st) (sf_lsb st)) k k') k;
  spi_wr_speed_ok fd v k p st : spi_fds k !! fd = Some (p, st) -> wp (spi_wr_speed fd v) (fun r k' =>
    if r <? 0 then emits spi_fds spi_log (Failed p CSpeed) k k' else sets spi_fds spi_log p fd (SFile (sf_mode st) (sf_bits st) v (sf_lsb st)) k k') k;
  spi_wr_lsb_ok fd v k p st : spi_fds k !! fd = Some (p, st) -> wp (spi_wr_lsb fd v) (fun r k' =>
    if r <? 0 then spi_lsb_able p = false /\ emits spi_fds spi_log (Failed p CLsb) k k'
    else (v <> 0 -> spi_lsb_able p = true) /\ sets spi_fds spi_log p fd (SFile (sf_mode st) (sf_bits st) (sf_speed st) (negb (v =? 0))) k k') k;
  spi_write_ok fd d k p st : spi_fds k !! fd = Some (p, st) -> wp (spi_write fd d) (fun r k' =>
    if r <? 0 then emits spi_fds spi_log (Failed p CWrite) k k'
    else r <= Z.of_nat (length d) /\ emits spi_fds spi_log (Done (STx p (sf_mode st) (sf_lsb st) [Part (sf_bits st) (sf_speed st) (Some (take (Z.to_nat r) d)) None])) k k') k;
  spi_read_ok fd n k p st : spi_fds k !! fd = Some (p, st) -> wp (spi_read fd n) (fun r k' =>
    if fst r <? 0 then emits spi_fds spi_log (Failed p CRead) k k'
    else fst r <= n /\ Z.of_nat (length (snd r)) = fst r /\ emits spi_fds spi_log (Done (STx p (sf_mode st) (sf_lsb st) [Part (sf_bits st) (sf_speed st) None (Some (snd r))])) k k') k;
  spi_message_ok fd xs k p st : spi_fds k !! fd = Some (p, st) -> wp (spi_message fd xs) (fun r k' =>
    if fst r <? 0 then emits spi_fds spi_log (Failed p CMessage) k k'
    else exists ps, xfers_done st xs (snd r) ps /\ emits spi_fds spi_log (Done (STx p (sf_mode st) (sf_lsb st) ps)) k k') k
}.

(** ** Data *)

Inductive TUYA_SPI_MODE_E := TUYA_SPI_MODE0 | TUYA_SPI_MODE1 | TUYA_SPI_MODE2 | TUYA_SPI_MODE3.
Inductive TUYA_SPI_BIT_ORDER_E := TUYA_SPI_ORDER_MSB2LSB | TUYA_SPI_ORDER_LSB2MSB.
Inductive TUYA_SPI_ROLE_E :=
| TUYA_SPI_ROLE_INACTIVE | TUYA_SPI_ROLE_MASTER | TUYA_SPI_ROLE_SLAVE | TUYA_SPI_ROLE_MASTER_SIMPLEX | TUYA_SPI_ROLE_SLAVE_SIMPLEX.
Inductive TUYA_SPI_DATABITS_E := TUYA_SPI_DATA_BIT8 | TUYA_SPI_DATA_BIT16.
Inductive TUYA_SPI_TYPE_E := TUYA_SPI_AUTO_TYPE | TUYA_SPI_SOFT_TYPE | TUYA_SPI_SOFT_ONE_WIRE_TYPE.

Record TUYA_SPI_BASE_CFG_T := mkSpiCfg {
  sc_role : TUYA_SPI_ROLE_E;
  sc_mode : TUYA_SPI_MODE_E;
  sc_type : TUYA_SPI_TYPE_E;
  sc_databits : TUYA_SPI_DATABITS_E;
  sc_bitorder : TUYA_SPI_BIT_ORDER_E;
  sc_freq_hz : Z;
  sc_spi_dma_flags : Z
}.

Record tkl_spi_ctx_t := mkSpi { cs_fd : Z; cs_initialized : bool; cs_last_count : Z; cs_cfg : TUYA_SPI_BASE_CFG_T }.

Definition TKL_SPI_MAX_PORT : Z := 6.
Definition TUYA_SPI_NUM_MAX : Z := 6.
Definition SPI_CPHA : Z := 0x01.
Definition SPI_CPOL : Z := 0x02.
Definition SPI_MODE_0 : Z := Z.lor 0 0.
Definition SPI_MODE_1 : Z := Z.lor 0 SPI_CPHA.
Definition SPI_MODE_2 : Z := Z.lor SPI_CPOL 0.
Definition SPI_MODE_3 : Z := Z.lor SPI_CPOL SPI_CPHA.

Definition zero_spi_cfg : TUYA_SPI_BASE_CFG_T :=
  mkSpiCfg TUYA_SPI_ROLE_INACTIVE TUYA_SPI_MODE0 TUYA_SPI_AUTO_TYPE TUYA_SPI_DATA_BIT8 TUYA_SPI_ORDER_MSB2LSB 0 0.
Definition zero_spi : tkl_spi_ctx_t := mkSpi 0 false 0 zero_spi_cfg.
Definition spi_zero {K} (k : K) : bus tkl_spi_ctx_t K := Bus (replicate (Z.to_nat TKL_SPI_MAX_PORT) zero_spi) false k.

Definition with_spi_fd fd x := mkSpi fd (cs_initialized x) (cs_last_count x) (cs_cfg x).
Definition with_spi_count n x := mkSpi (cs_fd x) (cs_initialized x) n (cs_cfg x).

(** ** Conversions *)

Definition prv_spi_dev_path (port : Z) : Z * Z := (Z.quot port 2, Z.rem port 2).
Definition prv_mode_to_linux (mode : TUYA_SPI_MODE_E) : Z :=
  match mode with TUYA_SPI_MODE0 => SPI_MODE_0 | TUYA_SPI_MODE1 => SPI_MODE_1 | TUYA_SPI_MODE2 => SPI_MODE_2 | TUYA_SPI_MODE3 => SPI_MODE_3 end.
Definition prv_bits_to_linux (bits : TUYA_SPI_DATABITS_E) : Z :=
  match bits with TUYA_SPI_DATA_BIT16 => 16 | TUYA_SPI_DATA_BIT8 => 8 end.
Definition spi_master (role : TUYA_SPI_ROLE_E) : bool :=
  match role with TUYA_SPI_ROLE_MASTER | TUYA_SPI_ROLE_MASTER_SIMPLEX => true | _ => false end.
Definition spi_port_bad (port : Z) : bool := (port <? 0) || (TUYA_SPI_NUM_MAX <=? port) || (TKL_SPI_MAX_PORT <=? port).

Section Spi.
Context {K : Type} `{!SpiDev K}.
Local Abbreviation W := (M (bus tkl_spi_ctx_t K)).

Definition prv_apply_cfg (fd : Z) (cfg : TUYA_SPI_BASE_CFG_T) : W OPERATE_RET :=
  let mode := prv_mode_to_linux (sc_mode cfg) in
  let bits := prv_bits_to_linux (sc_databits cfg) in
  let speed := sc_freq_hz cfg in
  r <- on_dev (spi_wr_mode fd mode) ;;
  if r <? 0 then ret OPRT_COM_ERROR
  else
    r <- on_dev (spi_wr_bits fd bits) ;;
    if r <? 0 then ret OPRT_COM_ERROR
    else
      r <- on_dev (spi_wr_speed fd speed) ;;
      if r <? 0 then ret OPRT_COM_ERROR
      else
        let lsb_first := match sc_bitorder cfg with TUYA_SPI_ORDER_LSB2MSB => 1 | TUYA_SPI_ORDER_MSB2LSB => 0 end in
        _ <- on_dev (spi_wr_lsb fd lsb_first) ;;
        ret OPRT_OK.

(** ** Operations *)

Definition tkl_spi_init (port : Z) (cfg : option TUYA_SPI_BASE_CFG_T) : W OPERATE_RET :=
  match cfg with
  | None => ret OPRT_INVALID_PARM
  | Some cfg =>
    if spi_port_bad port then ret OPRT_INVALID_PARM
    else if negb (spi_master (sc_role cfg)) then ret OPRT_NOT_SUPPORTED
    else
      bus_lock ;;;
      ctx <- get_port port ;;
      if cs_initialized ctx then bus_leave OPRT_OK
      else
        let path := prv_spi_dev_path port in
        fd <- on_dev (spi_open (fst path) (snd path)) ;;
        if fd <? 0 then bus_leave OPRT_COM_ERROR
        else
          rt <- prv_apply_cfg fd cfg ;;
          if negb (bool_decide (rt = OPRT_OK)) then
            _ <- on_dev (spi_close fd) ;;
            bus_leave rt
          else
            upd_port port (fun _ => mkSpi fd true 0 cfg) ;;;
            bus_leave OPRT_OK
  end.

Definition tkl_spi_deinit (port : Z) : W OPERATE_RET :=
  if spi_port_bad port then ret OPRT_INVALID_PARM
  else
    bus_lock ;;;
    ctx <- get_port port ;;
    (if cs_initialized ctx then
       _ <- on_dev (spi_close (cs_fd ctx)) ;;
       upd_port port (fun _ => with_spi_fd (-1) zero_spi)
     else ret tt) ;;;
    bus_leave OPRT_OK.

(** A null buffer is [None] when it is read and [false] when it is written; the bytes
    stored in a buffer are returned. *)
Definition tkl_spi_send (port : Z) (data : option (list Z)) (size : Z) : W OPERATE_RET :=
  if spi_port_bad port then ret OPRT_INVALID_PARM
  else match data with
  | None => ret OPRT_INVALID_PARM
  | Some data =>
    if size =? 0 then ret OPRT_INVALID_PARM
    else
      bus_lock ;;;
      ctx <- get_port port ;;
      if negb (cs_initialized ctx) then bus_leave OPRT_COM_ERROR
      else
        d <- buf_bytes data size ;;
        wr <- on_dev (spi_write (cs_fd ctx) d) ;;
        if wr <? 0 then upd_port port (with_spi_count 0) ;;; bus_leave OPRT_COM_ERROR
        else upd_port port (with_spi_count (u32 wr)) ;;; bus_leave OPRT_OK
  end.

Definition tkl_spi_recv (port : Z) (data : bool) (size : Z) : W (OPERATE_RET * list Z) :=
  if spi_port_bad port then ret (OPRT_INVALID_PARM, [])
  else if negb data || (size =? 0) then ret (OPRT_INVALID_PARM, [])
  else
    bus_lock ;;;
    ctx <- get_port port ;;
    if negb (cs_initialized ctx) then bus_leave (OPRT_COM_ERROR, [])
    else
      rd <- on_dev (spi_read (cs_fd ctx) size) ;;
      if fst rd <? 0 then upd_port port (with_spi_count 0) ;;; bus_leave (OPRT_COM_ERROR, [])
      else upd_port port (with_spi_count (u32 (fst rd))) ;;; bus_leave (OPRT_OK, snd rd).

Definition tkl_spi_transfer (port : Z) (send_buf : option (list Z)) (receive_buf : bool) (length : Z) : W (OPERATE_RET * list Z) :=
  if spi_port_bad port then ret (OPRT_INVALID_PARM, [])
  else match send_buf with
  | None => ret (OPRT_INVALID_PARM, [])
  | Some data =>
    if negb receive_buf || (length =? 0) then ret (OPRT_INVALID_PARM, [])
    else
      bus_lock ;;;
      ctx <- get_port port ;;
      if negb (cs_initialized ctx) then bus_leave (OPRT_COM_ERROR, [])
      else
        upd_port port (with_spi_count 0) ;;;
        d <- buf_bytes data length ;;
        let xfer := mkXfer (Some d) true length (sc_freq_hz (cs_cfg ctx)) (prv_bits_to_linux (sc_databits (cs_cfg ctx))) in
        rc <- on_dev (spi_message (cs_fd ctx) [xfer]) ;;
        if fst rc <? 0 then bus_leave (OPRT_COM_ERROR, [])
        else upd_port port (with_spi_count length) ;;; bus_leave (OPRT_OK, concat (snd rc))
  end.

Definition tkl_spi_transfer_with_length (port : Z) (send_buf : option (list Z)) (send_len : Z) (receive_buf : bool) (receive_len : Z) : W (OPERATE_RET * list Z) :=
  if spi_port_bad port then ret (OPRT_INVALID_PARM, [])
  else
    bus_lock ;;;
    ctx <- get_port port ;;
    if negb (cs_initialized ctx) then bus_leave (OPRT_COM_ERROR, [])
    else
      upd_port port (with_spi_count 0) ;;;
      if (send_len =? 0) && (receive_len =? 0) then bus_leave (OPRT_INVALID_PARM, [])
      else if receive_len =? 0 then bus_unlock ;;; r <- tkl_spi_send port send_buf send_len ;; ret (r, [])
      else if send_len =? 0 then bus_unlock ;;; tkl_spi_recv port receive_buf receive_len
      else
        let speed := sc_freq_hz (cs_cfg ctx) in
        let bits := prv_bits_to_linux (sc_databits (cs_cfg ctx)) in
        tx <- match send_buf with Some data => d <- buf_bytes data send_len ;; ret (Some d) | None => ret None end ;;
        let xfers := [mkXfer tx false send_len speed bits; mkXfer None receive_buf receive_len speed bits] in
        rc <- on_dev (spi_message (cs_fd ctx) xfers) ;;
        if fst rc <? 0 then bus_leave (OPRT_COM_ERROR, [])
        else upd_port port (with_spi_count (u32 (send_len + receive_len))) ;;; bus_leave (OPRT_OK, concat (snd rc)).

Definition tkl_spi_get_data_count (port : Z) : W Z :=
  if spi_port_bad port then ret (-1)
  else
    bus_lock ;;;
    ctx <- get_port port ;;
    bus_leave (s32 (cs_last_count ctx)).
End Spi.
