(* ===== verification/TklSpiProps.v ===== *)
(** * SPI ports: the transfers that calls make

    [TklSpi] refines ports that keep a configuration and a data count: descriptors,
    the settings of the device and the lock are hidden, and every completed transfer
    is one the calls ask for, under the configuration the port was initialised with; a
    call fails exactly when the device does. *)

From S2P Require Import Prelude BusTable TklSpi.

(** ** The specification *)

Inductive sport := SOff | SOn (cfg : TUYA_SPI_BASE_CFG_T) (count : Z).
Definition scount (A : sport) : Z := match A with SOff => 0 | SOn _ n => n end.

Inductive spi_op :=
| PInit (cfg : option TUYA_SPI_BASE_CFG_T)
| PDeinit
| PSend (data : option (list Z)) (size : Z)
| PRecv (data : bool) (size : Z)
| PTransfer (send_buf : option (list Z)) (receive_buf : bool) (length : Z)
| PTransferLen (send_buf : option (list Z)) (send_len : Z) (receive_buf : bool) (receive_len : Z)
| PCount.
Inductive spi_res := PRet (r : OPERATE_RET) | PGot (r : OPERATE_RET) (d : list Z) | PNum (n : Z).

(** The clock polarity and phase of a mode, and the bits of a word, as the types of the
    configuration document them; the device takes the polarity as 2 and the phase as 1. *)
Definition cpol_cpha (m : TUYA_SPI_MODE_E) : bool * bool :=
  match m with TUYA_SPI_MODE0 => (false, false) | TUYA_SPI_MODE1 => (false, true) | TUYA_SPI_MODE2 => (true, false) | TUYA_SPI_MODE3 => (true, true) end.
Definition clock_mode (m : TUYA_SPI_MODE_E) : Z := 2 * Z.b2z (fst (cpol_cpha m)) + Z.b2z (snd (cpol_cpha m)).
Definition word_bits (b : TUYA_SPI_DATABITS_E) : Z := match b with TUYA_SPI_DATA_BIT8 => 8 | TUYA_SPI_DATA_BIT16 => 16 end.

(** A part with the word size and clock of a configuration. *)
Definition part_of (c : TUYA_SPI_BASE_CFG_T) (out inn : option (list Z)) : spi_part :=
  Part (word_bits (sc_databits c)) (sc_freq_hz c) out inn.
Section Ports.
(** Which controllers can send the least significant bit first. *)
Variable able : Z -> bool.
Definition lsb_first (p : Z) (c : TUYA_SPI_BASE_CFG_T) : bool := able p && match sc_bitorder c with TUYA_SPI_ORDER_LSB2MSB => true | TUYA_SPI_ORDER_MSB2LSB => false end.
(** The device has completed one transfer on port [p], with these parts and the clock mode and
    the order of bits of the configuration. *)
Definition under (p : Z) (c : TUYA_SPI_BASE_CFG_T) (parts : list spi_part) (t : list spi_ev) : Prop :=
  t = [Done (STx p (clock_mode (sc_mode c)) (lsb_first p c) parts)].

Inductive spi_step (p : Z) : sport -> spi_op -> spi_res -> list spi_ev -> sport -> Prop :=
| ps_init_null A : spi_step p A (PInit None) (PRet OPRT_INVALID_PARM) [] A
| ps_init_role A c : spi_master (sc_role c) = false -> spi_step p A (PInit (Some c)) (PRet OPRT_NOT_SUPPORTED) [] A
| ps_init c : spi_master (sc_role c) = true -> (sc_bitorder c = TUYA_SPI_ORDER_LSB2MSB -> able p = true) -> spi_step p SOff (PInit (Some c)) (PRet OPRT_OK) [] (SOn c 0)
| ps_init_msb c : spi_master (sc_role c) = true -> able p = false -> spi_step p SOff (PInit (Some c)) (PRet OPRT_OK) [Failed p CLsb] (SOn c 0)
| ps_init_fail c e : spi_master (sc_role c) = true -> e ∈ [COpen; CMode; CBits; CSpeed] -> spi_step p SOff (PInit (Some c)) (PRet OPRT_COM_ERROR) [Failed p e] SOff
| ps_init_again c c' n : spi_master (sc_role c) = true -> spi_step p (SOn c' n) (PInit (Some c)) (PRet OPRT_OK) [] (SOn c' n)
| ps_deinit A : spi_step p A PDeinit (PRet OPRT_OK) [] SOff
| ps_send_bad A d z : d = None \/ z = 0 -> spi_step p A (PSend d z) (PRet OPRT_INVALID_PARM) [] A
| ps_send_off d z : z <> 0 -> spi_step p SOff (PSend (Some d) z) (PRet OPRT_COM_ERROR) [] SOff
| ps_send c n d z w t : z <> 0 -> 0 <= w <= z -> under p c [part_of c (Some (take (Z.to_nat w) d)) None] t ->
    spi_step p (SOn c n) (PSend (Some d) z) (PRet OPRT_OK) t (SOn c w)
| ps_send_fail c n d z : z <> 0 -> spi_step p (SOn c n) (PSend (Some d) z) (PRet OPRT_COM_ERROR) [Failed p CWrite] (SOn c 0)
| ps_recv_bad A d z : d = false \/ z = 0 -> spi_step p A (PRecv d z) (PGot OPRT_INVALID_PARM []) [] A
| ps_recv_off z : z <> 0 -> spi_step p SOff (PRecv true z) (PGot OPRT_COM_ERROR []) [] SOff
| ps_recv c n z got t : z <> 0 -> Z.of_nat (length got) <= z -> under p c [part_of c None (Some got)] t ->
    spi_step p (SOn c n) (PRecv true z) (PGot OPRT_OK got) t (SOn c (Z.of_nat (length got)))
| ps_recv_fail c n z : z <> 0 -> spi_step p (SOn c n) (PRecv true z) (PGot OPRT_COM_ERROR []) [Failed p CRead] (SOn c 0)
| ps_transfer_bad A d b z : d = None \/ b = false \/ z = 0 -> spi_step p A (PTransfer d b z) (PGot OPRT_INVALID_PARM []) [] A
| ps_transfer_off d z : z <> 0 -> spi_step p SOff (PTransfer (Some d) true z) (PGot OPRT_COM_ERROR []) [] SOff
| ps_transfer c n d z got t : z <> 0 -> Z.of_nat (length got) = z -> under p c [part_of c (Some (take (Z.to_nat z) d)) (Some got)] t ->
    spi_step p (SOn c n) (PTransfer (Some d) true z) (PGot OPRT_OK got) t (SOn c z)
| ps_transfer_fail c n d z : z <> 0 -> spi_step p (SOn c n) (PTransfer (Some d) true z) (PGot OPRT_COM_ERROR []) [Failed p CMessage] (SOn c 0)
| ps_len_off d z b z' : spi_step p SOff (PTransferLen d z b z') (PGot OPRT_COM_ERROR []) [] SOff
| ps_len_zero c n d b : spi_step p (SOn c n) (PTransferLen d 0 b 0) (PGot OPRT_INVALID_PARM []) [] (SOn c 0)
| ps_len_send c n d z b r t A : z <> 0 -> spi_step p (SOn c 0) (PSend d z) (PRet r) t A -> spi_step p (SOn c n) (PTransferLen d z b 0) (PGot r []) t A
| ps_len_recv c n d b z r got t A : z <> 0 -> spi_step p (SOn c 0) (PRecv b z) (PGot r got) t A -> spi_step p (SOn c n) (PTransferLen d 0 b z) (PGot r got) t A
| ps_len c n d z (b : bool) z' got t : z <> 0 -> z' <> 0 -> Z.of_nat (length got) = (if b then z' else 0) ->
    under p c [part_of c (take (Z.to_nat z) <$> d) None; part_of c None (if b then Some got else None)] t ->
    spi_step p (SOn c n) (PTransferLen d z b z') (PGot OPRT_OK got) t (SOn c (u32 (z + z')))
| ps_len_fail c n d z b z' : z <> 0 -> z' <> 0 -> spi_step p (SOn c n) (PTransferLen d z b z') (PGot OPRT_COM_ERROR []) [Failed p CMessage] (SOn c 0)
| ps_count A : spi_step p A PCount (PNum (s32 (scount A))) [] A.

End Ports.

Definition spi_reject (o : spi_op) : spi_res :=
  match o with PRecv _ _ | PTransfer _ _ _ | PTransferLen _ _ _ _ => PGot OPRT_INVALID_PARM [] | PCount => PNum (-1) | _ => PRet OPRT_INVALID_PARM end.

(** Sequences of calls on the six ports. *)
Abbreviation spi_steps := (bus_steps 6 (spi_step spi_lsb_able) spi_reject).

(** The caller gives sizes of 32 bits and buffers that have the bytes to send. *)
Definition has_bytes (d : option (list Z)) (z : Z) : Prop := 0 <= z < 4294967296 /\ match d with Some d => z <= Z.of_nat (length d) | None => True end.
Definition spi_op_ok (o : spi_op) : Prop :=
  match o with
  | PSend d z | PTransfer d _ z => has_bytes d z
  | PRecv _ z => has_bytes None z
  | PTransferLen d z _ z' => has_bytes d z /\ has_bytes None z'
  | _ => True
  end.

Section Refinement.
Context {K : Type} `{!SpiDev K}.
Local Abbreviation B := (bus tkl_spi_ctx_t K).

Definition spi_exec (p : Z) (o : spi_op) : M B spi_res :=
  match o with
  | PInit cfg => r <- tkl_spi_init p cfg ;; ret (PRet r)
  | PDeinit => r <- tkl_spi_deinit p ;; ret (PRet r)
  | PSend d z => r <- tkl_spi_send p d z ;; ret (PRet r)
  | PRecv d z => r <- tkl_spi_recv p d z ;; ret (PGot (fst r) (snd r))
  | PTransfer d b z => r <- tkl_spi_transfer p d b z ;; ret (PGot (fst r) (snd r))
  | PTransferLen d z b z' => r <- tkl_spi_transfer_with_length p d z b z' ;; ret (PGot (fst r) (snd r))
  | PCount => n <- tkl_spi_get_data_count p ;; ret (PNum n)
  end.

(** ** The relation *)

Definition spi_abs (x : tkl_spi_ctx_t) : sport := if cs_initialized x then SOn (cs_cfg x) (cs_last_count x) else SOff.

(** The device settings of a configuration. *)
Definition settings (p : Z) (c : TUYA_SPI_BASE_CFG_T) (st : spi_file) : Prop :=
  sf_mode st = clock_mode (sc_mode c) /\ sf_bits st = word_bits (sc_databits c) /\ sf_speed st = sc_freq_hz c /\ sf_lsb st = lsb_first spi_lsb_able p c.

Definition spi_good (p : Z) (x : tkl_spi_ctx_t) (o : option (Z * spi_file)) : Prop :=
  if cs_initialized x then exists st, o = Some (cs_fd x, st) /\ settings p (cs_cfg x) st else o = None /\ cs_last_count x = 0.

Local Abbreviation at_spi := (at_port spi_fds spi_log TKL_SPI_MAX_PORT).
Local Abbreviation spi_ok := (bus_ok spi_fds TKL_SPI_MAX_PORT spi_good).
Local Abbreviation spi_post := (call_post spi_fds spi_log TKL_SPI_MAX_PORT spi_good spi_abs (spi_step spi_lsb_able)).

Lemma spi_port_checked (p : Z) : 0 <= p < TKL_SPI_MAX_PORT -> spi_port_bad p = false.
Proof. unfold TKL_SPI_MAX_PORT. intros Hp. unfold spi_port_bad, TUYA_SPI_NUM_MAX, TKL_SPI_MAX_PORT. rewrite (proj2 (Z.ltb_ge p 0)), !(proj2 (Z.leb_gt 6 p)) by lia. done. Qed.

(** The device has taken the configuration, the bit order where it can, or one of the calls
    has failed. *)
Definition configured_trace (p : Z) (c : TUYA_SPI_BASE_CFG_T) (t : list spi_ev) : Prop :=
  (t = [] /\ (sc_bitorder c = TUYA_SPI_ORDER_LSB2MSB -> spi_lsb_able p = true)) \/ (t = [Failed p CLsb] /\ spi_lsb_able p = false).
Lemma apply_cfg_spec s0 p lk x fd st s c (Q : OPERATE_RET -> B -> Prop) : at_spi s0 p lk x (Some (fd, st)) [] s ->
  (forall st' t s', settings p c st' -> configured_trace p c t -> at_spi s0 p lk x (Some (fd, st')) t s' -> Q OPRT_OK s') ->
  (forall st' e s', e ∈ [COpen; CMode; CBits; CSpeed] -> at_spi s0 p lk x (Some (fd, st')) [Failed p e] s' -> Q OPRT_COM_ERROR s') ->
  wp (prv_apply_cfg fd c) Q s.
Proof.
  intros Hs Hok Hfail. unfold prv_apply_cfg. dev_call spi_wr_mode_ok Hs r k Hr. destruct (r <? 0); [apply wp_ret; eapply Hfail; [|exact (at_emits _ _ _ _ _ _ _ _ _ _ _ _ Hs Hr)]; set_solver|].
  pose proof (at_sets _ _ _ _ _ _ _ _ _ _ _ _ _ Hs Hr) as Hs1. clear Hr. dev_call spi_wr_bits_ok Hs1 r1 k1 Hr. destruct (r1 <? 0); [apply wp_ret; eapply Hfail; [|exact (at_emits _ _ _ _ _ _ _ _ _ _ _ _ Hs1 Hr)]; set_solver|].
  pose proof (at_sets _ _ _ _ _ _ _ _ _ _ _ _ _ Hs1 Hr) as Hs2. clear Hr. dev_call spi_wr_speed_ok Hs2 r2 k2 Hr. destruct (r2 <? 0); [apply wp_ret; eapply Hfail; [|exact (at_emits _ _ _ _ _ _ _ _ _ _ _ _ Hs2 Hr)]; set_solver|].
  pose proof (at_sets _ _ _ _ _ _ _ _ _ _ _ _ _ Hs2 Hr) as Hs3. clear Hr. dev_call spi_wr_lsb_ok Hs3 r3 k3 Hr. apply wp_ret. destruct (r3 <? 0).
  - destruct Hr as [Hab Hr]. eapply Hok; [|by right|exact (at_emits _ _ _ _ _ _ _ _ _ _ _ _ Hs3 Hr)]. unfold settings, lsb_first. rewrite Hab. cbn. destruct (sc_mode c), (sc_databits c); done.
  - destruct Hr as [Hab Hr]. eapply Hok; [|left; split; [done|]|by eapply at_sets]; unfold settings, lsb_first; cbn; destruct (sc_bitorder c); try (intros _; by apply Hab); try done; try (rewrite Hab by done); rewrite ?andb_false_r; destruct (sc_mode c), (sc_databits c); done.
Qed.

Lemma spi_init_spec s p x fo cfg : at_spi s p false x fo [] s -> spi_good p x fo -> wp (tkl_spi_init p cfg) (fun r s' => spi_post s p x (PInit cfg) (PRet r) s') s.
Proof.
  intros Hs Hg. unfold tkl_spi_init. destruct cfg as [c|]; [|apply wp_ret; exists x, fo, []; split; [done|]; split; [done|constructor]].
  rewrite spi_port_checked by apply Hs. destruct (spi_master (sc_role c)) eqn:Em; cbn [negb]; [|apply wp_ret; exists x, fo, []; split; [done|]; split; [done|by constructor]].
  eapply wp_enter_port; [exact Hs|]. intros s1 Hs1. unfold spi_good in Hg. destruct (cs_initialized x) eqn:Ei.
  - eapply (leave_post _ _ _ _ _ _ PRet); [exact Hs1| |]; [unfold spi_good; by rewrite Ei|]. unfold spi_abs. rewrite Ei. by constructor.
  - destruct Hg as [-> Hc]. cbv zeta. unfold prv_spi_dev_path. cbn [fst snd].
    assert (p = 2 * Z.quot p 2 + Z.rem p 2) as Ep by (pose proof (Z.quot_rem p 2); lia).
    apply wp_bind, wp_on_dev. eapply wp_mono; [apply spi_open_ok|]. cbv beta. intros fd k Ho. rewrite <-Ep in Ho. destruct (Z.ltb_spec fd 0) as [Hneg|Hpos].
    + eapply (leave_post _ _ _ _ _ _ PRet); [exact (at_emits _ _ _ _ _ _ _ _ _ _ _ _ Hs1 Ho)| |]; [unfold spi_good; by rewrite Ei|]. unfold spi_abs. rewrite Ei. constructor; [done|set_solver].
    + destruct (at_opens _ _ _ _ _ _ _ _ _ _ _ Hs1 Ho) as [[Hfd _]|(Hfd & st & Hs2)]; [lia|]. apply wp_bind. eapply apply_cfg_spec; [exact Hs2| |].
      * intros st' t s3 Hst Ht Hs3. rewrite bool_decide_true by done. cbn [negb]. apply wp_bind. eapply wp_upd_port; [exact Hs3|]. intros s4 Hs4.
        eapply (leave_post _ _ _ _ _ _ PRet); [exact Hs4|by exists st'|]. unfold spi_abs. rewrite Ei. destruct Ht as [[-> Ht]|[-> Ht]]; by constructor.
      * intros st' e s3 He Hs3. rewrite bool_decide_false by done. cbn [negb]. apply wp_bind, wp_on_dev. eapply wp_mono; [eapply spi_close_ok; eexists; eapply owns_lookup, ap_own, Hs3|]. intros r k3 Hcl.
        eapply (leave_post _ _ _ _ _ _ PRet); [by eapply at_closes| |]; [unfold spi_good; by rewrite Ei|]. unfold spi_abs. rewrite Ei. by constructor.
Qed.

Lemma spi_deinit_spec s p x fo : at_spi s p false x fo [] s -> spi_good p x fo -> wp (tkl_spi_deinit p) (fun r s' => spi_post s p x PDeinit (PRet r) s') s.
Proof.
  intros Hs Hg. unfold tkl_spi_deinit. rewrite spi_port_checked by apply Hs. eapply wp_enter_port; [exact Hs|]. intros s1 Hs1. apply wp_bind. destruct (cs_initialized x) eqn:Ei.
  - unfold spi_good in Hg. rewrite Ei in Hg. destruct Hg as (st & -> & _).
    apply wp_bind, wp_on_dev. eapply wp_mono; [eapply spi_close_ok; eexists; eapply owns_lookup, ap_own, Hs1|]. intros r k Hc. pose proof (at_closes _ _ _ _ _ _ _ _ _ _ _ _ Hs1 Hc) as Hs2.
    eapply wp_upd_port; [exact Hs2|]. intros s3 Hs3. eapply (leave_post _ _ _ _ _ _ PRet); [exact Hs3|by split|constructor].
  - apply wp_ret. eapply (leave_post _ _ _ _ _ _ PRet); [exact Hs1|done|]. unfold spi_abs at 2. rewrite Ei. constructor.
Qed.

Lemma spi_count_spec s p x fo : at_spi s p false x fo [] s -> spi_good p x fo -> wp (tkl_spi_get_data_count p) (fun r s' => spi_post s p x PCount (PNum r) s') s.
Proof.
  intros Hs Hg. unfold tkl_spi_get_data_count. rewrite spi_port_checked by apply Hs. eapply wp_enter_port; [exact Hs|]. intros s1 Hs1.
  eapply (leave_post _ _ _ _ _ _ PNum); [exact Hs1|done|]. assert (cs_last_count x = scount (spi_abs x)) as ->; [|constructor].
  unfold spi_good in Hg. unfold spi_abs. destruct (cs_initialized x); [done|]. apply Hg.
Qed.

(** A port that is on, and changes of its data count. *)
Lemma spi_good_on p x fo : cs_initialized x = true -> spi_good p x fo ->
  (exists st, fo = Some (cs_fd x, st) /\ settings p (cs_cfg x) st) /\ (forall n, spi_good p (with_spi_count n x) fo) /\
  spi_abs x = SOn (cs_cfg x) (cs_last_count x) /\ forall n, spi_abs (with_spi_count n x) = SOn (cs_cfg x) n.
Proof. intros Ei Hg. unfold spi_good in *. cbn. unfold spi_abs. cbn. rewrite Ei in *. done. Qed.

Lemma under_settings p c st ps ps' : settings p c st -> ps = ps' -> under spi_lsb_able p c ps' ([] ++ [Done (STx p (sf_mode st) (sf_lsb st) ps)]).
Proof. intros (Hm & _ & _ & Hl) <-. unfold under. by rewrite Hm, Hl. Qed.

Lemma settings_part p c st out inn : settings p c st -> Part (sf_bits st) (sf_speed st) out inn = part_of c out inn.
Proof. by intros (_ & -> & -> & _). Qed.

Lemma spi_send_spec s0 s p x fo d z : at_spi s0 p false x fo [] s -> spi_good p x fo -> has_bytes d z ->
  wp (tkl_spi_send p d z) (fun r s' => spi_post s0 p x (PSend d z) (PRet r) s') s.
Proof.
  intros Hs Hg [Hz Hd]. unfold tkl_spi_send. rewrite spi_port_checked by apply Hs.
  destruct d as [d|]; [|apply wp_ret; exists x, fo, []; split; [done|]; split; [done|]; constructor; by left].
  destruct (Z.eqb_spec z 0) as [->|Hz0]; [apply wp_ret; exists x, fo, []; split; [done|]; split; [done|]; constructor; by right|].
  eapply wp_enter_port; [exact Hs|]. intros s1 Hs1. destruct (cs_initialized x) eqn:Ei; cbn [negb].
  2: { eapply (leave_post _ _ _ _ _ _ PRet); [exact Hs1|done|]. unfold spi_abs. rewrite Ei. by constructor. }
  destruct (spi_good_on p x fo Ei Hg) as ((st & -> & Hst) & Hg0 & Ea & Eac). apply wp_bind. apply wp_buf_bytes; [lia|]. dev_call spi_write_ok Hs1 wr k Hw.
  destruct (Z.ltb_spec wr 0) as [Hneg|Hpos]; apply wp_bind.
  - eapply wp_upd_port; [by eapply at_emits|]. intros s3 Hs3. eapply (leave_post _ _ _ _ _ _ PRet); [exact Hs3|by apply Hg0|]. rewrite Ea, Eac. by constructor.
  - destruct Hw as [Hle Hw]. rewrite length_take in Hle. rewrite u32_small by lia. eapply wp_upd_port; [by eapply at_emits|]. intros s3 Hs3.
    eapply (leave_post _ _ _ _ _ _ PRet); [exact Hs3|by apply Hg0|]. rewrite Ea, Eac. constructor; [done|lia|]. apply under_settings; [done|].
    rewrite take_take, Nat.min_l by lia. by rewrite (settings_part _ _ _ _ _ Hst).
Qed.

Lemma spi_recv_spec s0 s p x fo d z : at_spi s0 p false x fo [] s -> spi_good p x fo -> has_bytes None z ->
  wp (tkl_spi_recv p d z) (fun r s' => spi_post s0 p x (PRecv d z) (PGot (fst r) (snd r)) s') s.
Proof.
  intros Hs Hg [Hz _]. unfold tkl_spi_recv. rewrite spi_port_checked by apply Hs. destruct (negb d || (z =? 0)) eqn:Enull.
  { apply wp_ret. exists x, fo, []. split; [done|]. split; [done|]. constructor. apply orb_prop in Enull as [E|E]; zbool; auto. }
  zbool. subst d. eapply wp_enter_port; [exact Hs|]. intros s1 Hs1. destruct (cs_initialized x) eqn:Ei; cbn [negb].
  2: { eapply (leave_post _ _ _ _ _ _ (fun r => PGot (fst r) (snd r))); [exact Hs1|done|]. unfold spi_abs. rewrite Ei. by constructor. }
  destruct (spi_good_on p x fo Ei Hg) as ((st & -> & Hst) & Hg0 & Ea & Eac). dev_call spi_read_ok Hs1 rd k Hr. destruct (Z.ltb_spec (fst rd) 0) as [Hneg|Hpos]; apply wp_bind.
  - eapply wp_upd_port; [by eapply at_emits|]. intros s3 Hs3. eapply (leave_post _ _ _ _ _ _ (fun r => PGot (fst r) (snd r))); [exact Hs3|by apply Hg0|]. rewrite Ea, Eac. by constructor.
  - destruct Hr as (Hle & Hlen & He). rewrite u32_small by lia. eapply wp_upd_port; [by eapply at_emits|]. intros s3 Hs3.
    eapply (leave_post _ _ _ _ _ _ (fun r => PGot (fst r) (snd r))); [exact Hs3|by apply Hg0|]. rewrite Ea, Eac, <-Hlen. constructor; [done|lia|]. apply under_settings; [done|]. by rewrite (settings_part _ _ _ _ _ Hst).
Qed.

(** The parts of a message with the clock and word size of the configuration. *)
Lemma or_default_same v : or_default v v = v.
Proof. unfold or_default. destruct (Z.eqb_spec v 0); congruence. Qed.

Lemma xfers_done_under p c st xs rs ps : settings p c st -> Forall (fun x => xf_speed_hz x = sc_freq_hz c /\ xf_bits_per_word x = word_bits (sc_databits c)) xs -> xfers_done st xs rs ps ->
  exists ins, ps = zip_with (fun x i => part_of c (xf_tx x) i) xs ins /\ length ins = length xs /\ rs = omap id ins /\
    Forall2 (fun x i => if xf_rx x then exists r, i = Some r /\ Z.of_nat (length r) = xf_len x else i = None) xs ins.
Proof.
  intros Hst Hxs Hd. pose proof Hst as (_ & Hb & Hs & _). induction Hd as [|x xs rs ps Erx Hd IH|x r xs rs ps Erx Hlen Hd IH]; [by exists []|..];
    apply Forall_cons in Hxs as [[E1 E2] Hxs]; destruct (IH Hxs) as (ins & -> & El & -> & Hf); [exists (None :: ins)|exists (Some r :: ins)];
    cbn [zip_with length omap list_omap id]; rewrite E1, E2, Hb, Hs, !or_default_same; (split; [done|]); (split; [by rewrite El|]); (split; [done|]); constructor; rewrite ?Erx; eauto.
Qed.

Lemma spi_transfer_spec s p x fo d b z : at_spi s p false x fo [] s -> spi_good p x fo -> has_bytes d z ->
  wp (tkl_spi_transfer p d b z) (fun r s' => spi_post s p x (PTransfer d b z) (PGot (fst r) (snd r)) s') s.
Proof.
  intros Hs Hg [Hz Hd]. unfold tkl_spi_transfer. rewrite spi_port_checked by apply Hs.
  destruct d as [d|]; [|apply wp_ret; exists x, fo, []; split; [done|]; split; [done|]; constructor; by left].
  destruct (negb b || (z =? 0)) eqn:Enull.
  { apply wp_ret. exists x, fo, []. split; [done|]. split; [done|]. constructor. apply orb_prop in Enull as [E|E]; zbool; auto. }
  zbool. subst b. eapply wp_enter_port; [exact Hs|]. intros s1 Hs1. destruct (cs_initialized x) eqn:Ei; cbn [negb].
  2: { eapply (leave_post _ _ _ _ _ _ (fun r => PGot (fst r) (snd r))); [exact Hs1|done|]. unfold spi_abs. rewrite Ei. by constructor. }
  destruct (spi_good_on p x fo Ei Hg) as ((st & -> & Hst) & Hg0 & Ea & Eac). apply wp_bind. eapply wp_upd_port; [exact Hs1|]. intros s2 Hs2.
  apply wp_bind. apply wp_buf_bytes; [lia|]. cbv zeta. dev_call spi_message_ok Hs2 rc k Hr. destruct (Z.ltb_spec (fst rc) 0) as [Hneg|Hpos].
  - eapply (leave_post _ _ _ _ _ _ (fun r => PGot (fst r) (snd r))); [by eapply at_emits|by apply Hg0|]. rewrite Ea, Eac. by constructor.
  - destruct Hr as (ps & Hx & He). apply (xfers_done_under p (cs_cfg x)) in Hx as (ins & -> & _ & Ers & Hf); [|done|by repeat constructor].
    inversion Hf as [|? i ? ? Hi Hf0]; subst. cbn [xf_rx] in Hi. destruct Hi as (r & -> & Hlen). inversion Hf0; subst. rewrite Ers. cbn [omap list_omap id concat app xf_len] in *. rewrite app_nil_r in *.
    apply wp_bind. eapply wp_upd_port; [by eapply at_emits|]. intros s3 Hs3. change (with_spi_count z (with_spi_count 0 x)) with (with_spi_count z x) in Hs3.
    eapply (leave_post _ _ _ _ _ _ (fun r => PGot (fst r) (snd r))); [exact Hs3|by apply Hg0|]. rewrite Ea, Eac. constructor; [done|done|]. by apply under_settings.
Qed.

(** The message of a send followed by a receive. *)
Lemma spi_both_spec s p x st d z (b : bool) z' s2 : at_spi s p true (with_spi_count 0 x) (Some (cs_fd x, st)) [] s2 -> spi_good p x (Some (cs_fd x, st)) -> cs_initialized x = true ->
  has_bytes d z -> has_bytes None z' -> z <> 0 -> z' <> 0 ->
  wp (tx <- match d with Some data => d <- buf_bytes data z ;; ret (Some d) | None => ret None end ;;
      let xfers := [mkXfer tx false z (sc_freq_hz (cs_cfg x)) (prv_bits_to_linux (sc_databits (cs_cfg x))); mkXfer None b z' (sc_freq_hz (cs_cfg x)) (prv_bits_to_linux (sc_databits (cs_cfg x)))] in
      rc <- on_dev (spi_message (cs_fd x) xfers) ;;
      if fst rc <? 0 then bus_leave (OPRT_COM_ERROR, [])
      else upd_port p (with_spi_count (u32 (z + z'))) ;;; bus_leave (OPRT_OK, concat (snd rc)))
     (fun r s' => spi_post s p x (PTransferLen d z b z') (PGot (fst r) (snd r)) s') s2.
Proof.
  intros Hs2 Hg Ei [Hz Hd] [Hz' _] Hn Hn'. destruct (spi_good_on p x _ Ei Hg) as ((st' & [= <-] & Hst) & Hg0 & Ea & Eac).
  apply wp_bind. apply (wp_mono _ (fun tx s' => tx = take (Z.to_nat z) <$> d /\ s' = s2)); [destruct d; [by apply wp_bind, wp_buf_bytes; [lia|]|done]|]. intros tx s' [-> ->]. cbv zeta.
  dev_call spi_message_ok Hs2 rc k Hr. destruct (Z.ltb_spec (fst rc) 0) as [Hneg|Hpos].
  - eapply (leave_post _ _ _ _ _ _ (fun r => PGot (fst r) (snd r))); [by eapply at_emits|by apply Hg0|]. rewrite Ea, Eac. by constructor.
  - destruct Hr as (ps & Hx & He). apply (xfers_done_under p (cs_cfg x)) in Hx as (ins & -> & _ & Ers & Hf); [|done|by repeat constructor].
    inversion Hf as [|? i1 ? ? Hi1 Hf1]; subst. cbn [xf_rx] in Hi1. subst i1. inversion Hf1 as [|? i2 ? ? Hi2 Hf2]; subst. cbn [xf_rx xf_len] in Hi2. inversion Hf2; subst.
    apply wp_bind. eapply wp_upd_port; [by eapply at_emits|]. intros s3 Hs3. change (with_spi_count ?n (with_spi_count 0 x)) with (with_spi_count n x) in Hs3.
    eapply (leave_post _ _ _ _ _ _ (fun r => PGot (fst r) (snd r))); [exact Hs3|by apply Hg0|]. rewrite Ea, Eac, Ers. destruct b.
    + destruct Hi2 as (r & -> & Hlen). cbn [omap list_omap id concat fst snd]. rewrite app_nil_r. constructor; [done..|]. by apply under_settings.
    + subst i2. cbn [omap list_omap id concat fst snd]. constructor; [done..|]. by apply under_settings.
Qed.

Lemma spi_transfer_len_spec s p x fo d z b z' : at_spi s p false x fo [] s -> spi_good p x fo -> has_bytes d z -> has_bytes None z' ->
  wp (tkl_spi_transfer_with_length p d z b z') (fun r s' => spi_post s p x (PTransferLen d z b z') (PGot (fst r) (snd r)) s') s.
Proof.
  intros Hs Hg Hd Hd'. unfold tkl_spi_transfer_with_length. rewrite spi_port_checked by apply Hs. eapply wp_enter_port; [exact Hs|]. intros s1 Hs1. destruct (cs_initialized x) eqn:Ei; cbn [negb].
  2: { eapply (leave_post _ _ _ _ _ _ (fun r => PGot (fst r) (snd r))); [exact Hs1|done|]. unfold spi_abs. rewrite Ei. by constructor. }
  destruct (spi_good_on p x fo Ei Hg) as ((st & -> & Hst) & Hg0 & Ea & Eac). apply wp_bind. eapply wp_upd_port; [exact Hs1|]. intros s2 Hs2.
  destruct (Z.eqb_spec z 0) as [->|Hz], (Z.eqb_spec z' 0) as [->|Hz']; cbn [andb].
  - eapply (leave_post _ _ _ _ _ _ (fun r => PGot (fst r) (snd r))); [exact Hs2|by apply Hg0|]. rewrite Ea, Eac. constructor.
  - apply wp_bind. eapply wp_bus_unlock; [exact Hs2|]. intros s3 Hs3. eapply wp_mono; [eapply spi_recv_spec; [exact Hs3|by apply Hg0|done]|].
    intros r s4 (x' & fo' & t & Hs4 & Hg4 & Hst4). exists x', fo', t. split; [done|]. split; [done|]. rewrite Ea. rewrite Eac in Hst4. by constructor.
  - apply wp_bind. eapply wp_bus_unlock; [exact Hs2|]. intros s3 Hs3. apply wp_bind. eapply wp_mono; [eapply spi_send_spec; [exact Hs3|by apply Hg0|done]|].
    intros r s4 (x' & fo' & t & Hs4 & Hg4 & Hst4). apply wp_ret. exists x', fo', t. split; [done|]. split; [done|]. rewrite Ea. rewrite Eac in Hst4. by constructor.
  - cbv zeta. by eapply spi_both_spec.
Qed.

Lemma spi_exec_spec s p x fo o : at_spi s p false x fo [] s -> spi_good p x fo -> spi_op_ok o -> wp (spi_exec p o) (fun r s' => spi_post s p x o r s') s.
Proof.
  intros Hs Hg Hz. destruct o; cbn [spi_exec]; cbn [spi_op_ok] in Hz; apply wp_bind;
    (eapply wp_mono; [first [by eapply spi_init_spec|by eapply spi_deinit_spec|by eapply spi_send_spec|by eapply spi_recv_spec|by eapply spi_transfer_spec|destruct Hz; by eapply spi_transfer_len_spec|by eapply spi_count_spec]|]);
    intros r s' Hr; by apply wp_ret.
Qed.

Lemma spi_reject_spec s p o : ~ 0 <= p < 6 -> wp (spi_exec p o) (fun r s' => r = spi_reject o /\ s' = s) s.
Proof.
  intros Hp. assert (spi_port_bad p = true) as E.
  { unfold spi_port_bad, TUYA_SPI_NUM_MAX, TKL_SPI_MAX_PORT. destruct (Z.ltb_spec p 0); [done|]. by rewrite (proj2 (Z.leb_le 6 p)) by lia. }
  destruct o as [[c|]| | | | | |]; cbn [spi_exec]; apply wp_bind; unfold tkl_spi_init, tkl_spi_deinit, tkl_spi_send, tkl_spi_recv, tkl_spi_transfer, tkl_spi_transfer_with_length, tkl_spi_get_data_count; rewrite ?E; by repeat apply wp_ret.
Qed.

(** C9: over any spidev device that behaves as documented, every sequence of calls on
    the SPI ports runs to its end, and its results and the transfers completed are
    those of ports that keep a configuration and a count: every transfer is on the
    port of the call, in the clock mode, word size and clock of the configuration the
    port was initialised with, with the bytes of the caller, least significant bit
    first exactly when that is configured and the controller can; the count is that of the
    last transfer, and 0 after a failure.  A call that could be made reports an error
    exactly when a call of the device has failed.  Afterwards each port that is on has one open descriptor, no other is
    open, and the lock is free. *)
Theorem spi_refines_ports ops s : spi_ok s -> Forall (fun po => spi_op_ok (snd po)) ops ->
  wp (bus_execs spi_exec ops) (fun rs s' => exists t, spi_ok s' /\ spi_log (b_dev s') = spi_log (b_dev s) ++ t /\
    spi_steps (spi_abs <$> b_ctx s) ops rs t (spi_abs <$> b_ctx s')) s.
Proof. apply bus_refines; [apply spi_exec_spec|apply spi_reject_spec]. Qed.
End Refinement.

(** ** A device *)

(** A device that sends back zeros. *)
Record sim_spi := SimSpi { sp_fds : gmap Z (Z * spi_file); sp_log : list spi_ev }.
Definition sim_fail {R} (r : R) (e : spi_ev) : M sim_spi R := fun k => Ret r (SimSpi (sp_fds k) (sp_log k ++ [e])).

Definition sim_spi_open (b c : Z) : M sim_spi Z := fun k =>
  let fd := 10 + (2 * b + c) in
  match sp_fds k !! fd with
  | None => if 0 <=? fd then Ret fd (SimSpi (<[fd := (2 * b + c, SFile 0 8 500000 true)]> (sp_fds k)) (sp_log k)) else sim_fail (-1) (Failed (2 * b + c) COpen) k
  | Some _ => sim_fail (-1) (Failed (2 * b + c) COpen) k
  end.
Definition sim_set_file (fd : Z) (f : spi_file -> spi_file) : M sim_spi Z := fun k =>
  match sp_fds k !! fd with Some (p, st) => Ret 0 (SimSpi (<[fd := (p, f st)]> (sp_fds k)) (sp_log k)) | None => Ret (-1) k end.
(** A transfer with the settings of the descriptor, or a call that fails. *)
Definition sim_transfer {R} (fd : Z) (err : R) (what : spi_call) (f : spi_file -> option (R * list spi_part)) : M sim_spi R := fun k =>
  match sp_fds k !! fd with
  | Some (p, st) => match f st with Some (r, ps) => Ret r (SimSpi (sp_fds k) (sp_log k ++ [Done (STx p (sf_mode st) (sf_lsb st) ps)])) | None => sim_fail err (Failed p what) k end
  | None => Ret err k
  end.
Definition zeros (n : Z) : list Z := replicate (Z.to_nat n) 0.

Fixpoint sim_xfers (st : spi_file) (xs : list spi_ioc_transfer) : list (list Z) * list spi_part :=
  match xs with
  | [] => ([], [])
  | x :: xs =>
    let (rs, ps) := sim_xfers st xs in
    let part := Part (or_default (xf_bits_per_word x) (sf_bits st)) (or_default (xf_speed_hz x) (sf_speed st)) (xf_tx x) in
    if xf_rx x then (zeros (xf_len x) :: rs, part (Some (zeros (xf_len x))) :: ps) else (rs, part None :: ps)
  end.
Definition sized_xfers (xs : list spi_ioc_transfer) : bool := forallb (fun x => 0 <=? xf_len x) xs.

Lemma sim_xfers_done st xs : sized_xfers xs = true -> xfers_done st xs (fst (sim_xfers st xs)) (snd (sim_xfers st xs)).
Proof.
  induction xs as [|x xs IH]; cbn; [constructor|]. intros H. apply andb_prop in H as [Hn H]. specialize (IH H). destruct (sim_xfers st xs). zbool.
  destruct (xf_rx x) eqn:Ex; constructor; try done. unfold zeros. rewrite length_replicate. lia.
Qed.

#[refine] Instance sim_spi_dev : SpiDev sim_spi := {|
  spi_open := sim_spi_open;
  spi_close fd := fun k => Ret 0 (SimSpi (delete fd (sp_fds k)) (sp_log k));
  spi_wr_mode fd v := sim_set_file fd (fun st => SFile (Z.land v 3) (sf_bits st) (sf_speed st) (Z.testbit v 3));
  spi_wr_bits fd v := sim_set_file fd (fun st => SFile (sf_mode st) v (sf_speed st) (sf_lsb st));
  spi_wr_speed fd v := sim_set_file fd (fun st => SFile (sf_mode st) (sf_bits st) v (sf_lsb st));
  spi_wr_lsb fd v := sim_set_file fd (fun st => SFile (sf_mode st) (sf_bits st) (sf_speed st) (negb (v =? 0)));
  spi_write fd d := sim_transfer fd (-1) CWrite (fun st => Some (Z.of_nat (length d), [Part (sf_bits st) (sf_speed st) (Some d) None]));
  spi_read fd n := sim_transfer fd (-1, []) CRead (fun st => if 0 <=? n then Some ((n, zeros n), [Part (sf_bits st) (sf_speed st) None (Some (zeros n))]) else None);
  spi_message fd xs := sim_transfer fd (-1, []) CMessage (fun st => if sized_xfers xs then Some ((0, fst (sim_xfers st xs)), snd (sim_xfers st xs)) else None);
  spi_lsb_able _ := true;
  spi_fds := sp_fds;
  spi_log := sp_log
|}.
Proof.
  - intros b c k. unfold wp, sim_spi_open. destruct (sp_fds k !! (10 + (2 * b + c))) eqn:E; [done|]. destruct (Z.leb_spec 0 (10 + (2 * b + c))) as [Hp|]; [|done]. rewrite (proj2 (Z.ltb_ge _ 0) Hp).
    split; [done|]. right. split; [done|]. split; [done|]. by eexists.
  - done.
  - intros fd v k p st E. unfold wp, sim_set_file. by rewrite E.
  - intros fd v k p st E. unfold wp, sim_set_file. by rewrite E.
  - intros fd v k p st E. unfold wp, sim_set_file. by rewrite E.
  - intros fd v k p st E. unfold wp, sim_set_file. by rewrite E.
  - intros fd d k p st E. unfold wp, sim_transfer. rewrite E. rewrite (proj2 (Z.ltb_ge _ 0)) by lia. split; [lia|]. by rewrite Nat2Z.id, take_ge by lia.
  - intros fd n k p st E. unfold wp, sim_transfer. rewrite E. destruct (Z.leb_spec 0 n); [|done]. cbn [fst snd]. rewrite (proj2 (Z.ltb_ge _ 0)) by lia.
    split; [lia|]. split; [|done]. unfold zeros. rewrite length_replicate. lia.
  - intros fd xs k p st E. unfold wp, sim_transfer. rewrite E. destruct (sized_xfers xs) eqn:Er; [|done]. exists (snd (sim_xfers st xs)). split; [by apply sim_xfers_done|done].
Defined.

Definition sim_spi0 : bus tkl_spi_ctx_t sim_spi := spi_zero (SimSpi ∅ []).

Lemma sim_spi0_ok : bus_ok spi_fds TKL_SPI_MAX_PORT spi_good sim_spi0.
Proof.
  assert (forall p, owns (spi_fds (b_dev sim_spi0)) p None) as Hn.
  { intros p fd st. change (spi_fds (b_dev sim_spi0)) with (∅ : gmap Z (Z * spi_file)). by rewrite lookup_empty. }
  constructor; [done|done| |by intros]. intros p x _ Hx. apply lookup_replicate in Hx as [-> _]. exists None. split; [apply Hn|by split].
Qed.

Definition spi_cfg16 : TUYA_SPI_BASE_CFG_T := mkSpiCfg TUYA_SPI_ROLE_MASTER TUYA_SPI_MODE3 TUYA_SPI_AUTO_TYPE TUYA_SPI_DATA_BIT16 TUYA_SPI_ORDER_LSB2MSB 1000000 0.
Definition spi_demo : list (Z * spi_op) :=
  [(3, PInit (Some spi_cfg16)); (3, PTransferLen (Some [1; 2]) 2 true 4); (3, PTransferLen (Some [5; 6]) 2 true 0); (3, PTransfer (Some [8; 9]) true 2); (3, PCount); (3, PDeinit); (3, PSend (Some [1]) 1); (8, PRecv true 1)].

Lemma spi_refines_ports_witness :
  wp (bus_execs spi_exec spi_demo) (fun rs s' => exists t, bus_ok spi_fds TKL_SPI_MAX_PORT spi_good s' /\ spi_log (b_dev s') = spi_log (b_dev sim_spi0) ++ t /\
    spi_steps (spi_abs <$> b_ctx sim_spi0) spi_demo rs t (spi_abs <$> b_ctx s')) sim_spi0.
Proof. refine (spi_refines_ports spi_demo sim_spi0 sim_spi0_ok _). repeat constructor; cbn; lia. Defined.

Example spi_demo_log : match bus_execs spi_exec spi_demo sim_spi0 with
  | Ret rs s => rs = [PRet OPRT_OK; PGot OPRT_OK [0; 0; 0; 0]; PGot OPRT_OK []; PGot OPRT_OK [0; 0]; PNum 2; PRet OPRT_OK; PRet OPRT_COM_ERROR; PGot OPRT_INVALID_PARM []] /\
      spi_log (b_dev s) = Done <$> [STx 3 3 true [Part 16 1000000 (Some [1; 2]) None; Part 16 1000000 None (Some [0; 0; 0; 0])];
        STx 3 3 true [Part 16 1000000 (Some [5; 6]) None]; STx 3 3 true [Part 16 1000000 (Some [8; 9]) (Some [0; 0])]]
  | _ => False end.
Proof. by vm_compute. Qed.
