(* ===== verification/WpaParse.v ===== *)
(** * Answers of wpa_supplicant: the parsers of [src/tkl_wifi/wpa_s/wpa_command.c]

    The answers are texts of lines.  A buffer is a list of bytes, a C string the part
    of it before the first zero; reading or writing outside a buffer is a fault.  The
    functions of the C library that the code calls ([strstr], [atoi], the conversions
    of [sscanf]) are defined here as far as it uses them. *)

From Stdlib Require Import Ascii String.
From S2P Require Import Prelude.

(** ** Strings of the C library *)

(** The bytes of a literal. *)
Definition lit (s : string) : list Z := (fun c => Z.of_N (N_of_ascii c)) <$> list_ascii_of_string s.
Arguments lit _%_string.

(** The string in a buffer. *)
Fixpoint cstr (b : list Z) : list Z :=
  match b with
  | [] => []
  | c :: b => if c =? 0 then [] else c :: cstr b
  end.

Fixpoint starts (p s : list Z) : bool :=
  match p, s with
  | [], _ => true
  | c :: p, d :: s => (c =? d) && starts p s
  | _ :: _, [] => false
  end.
(** [strstr(s, p) != NULL] *)
Fixpoint strstr (s p : list Z) : bool :=
  starts p s || match s with [] => false | _ :: s => strstr s p end.

Definition NL (c : Z) : bool := (c =? 10) || (c =? 13).
(** [isspace] *)
Definition space (c : Z) : bool := (c =? 32) || ((9 <=? c) && (c <=? 13)).
Definition digit (c : Z) : bool := (48 <=? c) && (c <=? 57).

(** The longest prefix of characters in [f], and the rest. *)
Fixpoint span (f : Z -> bool) (s : list Z) : list Z * list Z :=
  match s with
  | [] => ([], [])
  | c :: r => if f c then let (a, b) := span f r in (c :: a, b) else ([], s)
  end.
Definition skip_space (s : list Z) : list Z := snd (span space s).

(** [strtol] in base 10: the number is cut to [long], the value is 0 without digits. *)
Definition LONG_MAX : Z := 9223372036854775807.
Definition num (ds : list Z) : Z := fold_left (fun n c => n * 10 + (c - 48)) ds 0.
Definition sign_of (s : list Z) : bool * list Z :=
  match s with c :: r => if c =? 45 then (true, r) else if c =? 43 then (false, r) else (false, s) | [] => (false, []) end.
Definition to_int (neg : bool) (ds : list Z) : Z :=
  s32 (if neg then Z.max (- num ds) (- LONG_MAX - 1) else Z.min (num ds) LONG_MAX).
Definition atoi (s : list Z) : Z :=
  let (neg, r) := sign_of (skip_space s) in to_int neg (fst (span digit r)).

(** The conversions of [sscanf]: a value and the rest of the input, or a failure. *)
Definition scan_s (s : list Z) : option (list Z * list Z) :=
  match span (fun c => negb (space c)) (skip_space s) with
  | ([], _) => None
  | (w, r) => Some (w, r)
  end.
Definition scan_d (s : list Z) : option (Z * list Z) :=
  let (neg, r) := sign_of (skip_space s) in
  match span digit r with
  | ([], _) => None
  | (ds, r) => Some (to_int neg ds, r)
  end.
(** [%[^\n]] *)
Definition scan_line (s : list Z) : option (list Z * list Z) :=
  match span (fun c => negb (c =? 10)) s with
  | ([], _) => None
  | (w, r) => Some (w, r)
  end.

Section Parse.
Context {S_ : Type}.
Local Abbreviation W := (M S_).

Definition rd (buf : list Z) (i : Z) : W Z :=
  if 0 <=? i then match buf !! Z.to_nat i with Some c => ret c | None => fault end else fault.

(** ** Lines *)

Fixpoint skip_loop (fuel : nat) (buf : list Z) (j : Z) : W Z :=
  match fuel with
  | O => out_of_fuel
  | S fuel =>
    c <- rd buf j ;;
    if c =? 0 then ret j else if NL c then skip_loop fuel buf (j + 1) else ret j
  end.

(** The loop of [get_line_from_buf]; the result is the new content of [line]. *)
Fixpoint get_line_loop (fuel : nat) (index : Z) (line buf : list Z) (i linestart endcnt : Z) : W (option (list Z)) :=
  match fuel with
  | O => out_of_fuel
  | S fuel =>
    c <- rd buf i ;;
    if NL c || (c =? 0) then
      let endcnt := endcnt + 1 in
      if index =? endcnt then
        let len := i - linestart in
        if len <? Z.of_nat (length line) then
          ret (Some (take (Z.to_nat len) (drop (Z.to_nat linestart) buf) ++ 0 :: drop (Z.to_nat (len + 1)) line))
        else fault
      else
        j <- skip_loop fuel buf (i + 1) ;;
        c <- rd buf j ;;
        if c =? 0 then ret None
        else get_line_loop fuel index line buf (j + 1) j endcnt
    else get_line_loop fuel index line buf (i + 1) linestart endcnt
  end.

Definition get_line_from_buf (index : Z) (line buf : list Z) : W (option (list Z)) :=
  get_line_loop (S (length buf)) index line buf 0 0 (-1).

(** ** What the lines are *)

(** Lines end at runs of line ends; the text after the last run is a line if it is not
    empty, and the text before the first run is always one. *)
Fixpoint split_lines (cur : list Z) (skipping : bool) (c : list Z) : list (list Z) :=
  match c with
  | [] => if skipping then [] else [rev cur]
  | x :: c => if NL x then if skipping then split_lines [] true c else rev cur :: split_lines [] true c else split_lines (x :: cur) false c
  end.
Definition lines (c : list Z) : list (list Z) := split_lines [] false c.

(** A text without zeros, in a buffer with zeros behind it. *)
Definition text (c : list Z) : Prop := Forall (fun x => x <> 0) c.

Lemma rd_app (pre : list Z) x post s : rd (pre ++ x :: post) (Z.of_nat (length pre)) s = Ret x s.
Proof. unfold rd. rewrite (proj2 (Z.leb_le 0 _)) by lia. by rewrite Nat2Z.id, list_lookup_middle. Qed.

(** Skipping ends at the first character that is no line end, or at the zero. *)
Lemma skip_spec c pre post fuel s : text c -> (length c < fuel)%nat -> exists nls d,
  c = nls ++ d /\ Forall (fun x => NL x = true) nls /\ (forall x d', d = x :: d' -> NL x = false) /\
  skip_loop fuel (pre ++ c ++ 0 :: post) (Z.of_nat (length pre)) s = Ret (Z.of_nat (length (pre ++ nls))) s /\
  split_lines [] true c = match d with [] => [] | x :: d' => split_lines [x] false d' end.
Proof.
  revert pre fuel. induction c as [|x c IH]; intros pre fuel Ht Hf; (destruct fuel as [|fuel]; [cbn in Hf; lia|]).
  - exists [], []. rewrite (app_nil_r pre). split; [done|]. split; [done|]. split; [done|]. split; [|done]. cbn [skip_loop app]. unfold bind. by rewrite rd_app.
  - apply Forall_cons in Ht as [Hx Ht]. cbn [skip_loop app]. unfold bind. rewrite rd_app, (proj2 (Z.eqb_neq x 0)) by done. destruct (NL x) eqn:En.
    + destruct (IH (pre ++ [x]) fuel Ht ltac:(cbn in Hf; lia)) as (nls & d & -> & Hn & Hd & Hs & Hsp). exists (x :: nls), d. split; [done|]. split; [by constructor|]. split; [done|].
      split; [|cbn [split_lines]; by rewrite En]. rewrite <-!app_assoc in Hs. cbn [app] in Hs. rewrite <-!app_assoc. replace (Z.of_nat (length pre) + 1) with (Z.of_nat (length (pre ++ [x]))) by (rewrite length_app; cbn; lia). done.
    + exists [], (x :: c). rewrite (app_nil_r pre). split; [done|]. split; [done|]. split; [by intros ? ? [= <- <-]|]. split; [done|]. cbn [split_lines]. by rewrite En.
Qed.

(** What the caller finds: the line in its buffer, a fault when it does not fit. *)
Definition line_result (o : option (list Z)) (line : list Z) (s : S_) : outcome S_ (option (list Z)) :=
  match o with
  | Some l => if (length l <? length line)%nat then Ret (Some (l ++ 0 :: drop (S (length l)) line)) s else Fault
  | None => Ret None s
  end.

(** At the end of a line: it is the one asked for, or the search goes on behind the run
    of line ends. *)
Lemma line_end_spec fuel index line pre cur x r e s : NL x || (x =? 0) = true ->
  get_line_loop (S fuel) index line (pre ++ rev cur ++ x :: r) (Z.of_nat (length (pre ++ rev cur))) (Z.of_nat (length pre)) e s =
  if index =? e + 1 then line_result (Some (rev cur)) line s
  else (j <- skip_loop fuel (pre ++ rev cur ++ x :: r) (Z.of_nat (length (pre ++ rev cur)) + 1) ;;
        c <- rd (pre ++ rev cur ++ x :: r) j ;;
        if c =? 0 then ret None else get_line_loop fuel index line (pre ++ rev cur ++ x :: r) (j + 1) j (e + 1)) s.
Proof.
  intros Hx. cbn [get_line_loop]. unfold bind at 1. rewrite (app_assoc pre (rev cur)), rd_app, Hx. cbv zeta. destruct (index =? e + 1); [|done].
  replace (Z.of_nat (length (pre ++ rev cur)) - Z.of_nat (length pre)) with (Z.of_nat (length (rev cur))) by (rewrite length_app; lia).
  rewrite <-app_assoc, Nat2Z.id, Nat2Z.id, drop_app_length, take_app_length. unfold line_result.
  destruct (Nat.ltb_spec (length (rev cur)) (length line)); [rewrite (proj2 (Z.ltb_lt _ _)) by lia|by rewrite (proj2 (Z.ltb_ge _ _)) by lia].
  by replace (Z.to_nat (Z.of_nat (length (rev cur)) + 1)) with (S (length (rev cur))) by lia.
Qed.

Lemma get_line_loop_spec n c cur pre post index line e fuel s : (length c < n)%nat -> text c -> e < index -> (S (length c) < fuel)%nat ->
  get_line_loop fuel index line (pre ++ rev cur ++ c ++ 0 :: 0 :: post) (Z.of_nat (length (pre ++ rev cur))) (Z.of_nat (length pre)) e s =
  line_result (split_lines cur false c !! Z.to_nat (index - e - 1)) line s.
Proof.
  revert c cur pre e fuel. induction n as [|n IH]; intros c cur pre e fuel Hn Ht He Hf; [lia|]. destruct fuel as [|fuel]; [lia|]. destruct c as [|x c].
  - cbn [app split_lines]. rewrite line_end_spec by done. destruct (Z.eqb_spec index (e + 1)) as [->|Hne]; [by replace (Z.to_nat (e + 1 - e - 1)) with O by lia|].
    rewrite lookup_ge_None_2 by (cbn; lia). unfold bind. rewrite (app_assoc pre (rev cur)).
    replace (Z.of_nat (length (pre ++ rev cur)) + 1) with (Z.of_nat (length ((pre ++ rev cur) ++ [0]))) by (rewrite (length_app _ [0]); cbn; lia).
    replace ((pre ++ rev cur) ++ 0 :: 0 :: post) with (((pre ++ rev cur) ++ [0]) ++ 0 :: post) by (by rewrite <-!app_assoc).
    destruct fuel as [|fuel]; [cbn in Hf; lia|]. cbn [skip_loop]. unfold bind. rewrite rd_app. cbn [Z.eqb]. unfold ret. by rewrite rd_app.
  - apply Forall_cons in Ht as [Hx Ht]. cbn [app split_lines]. destruct (NL x) eqn:En.
    + rewrite line_end_spec by (by rewrite En). destruct (Z.eqb_spec index (e + 1)) as [->|Hne]; [by replace (Z.to_nat (e + 1 - e - 1)) with O by lia|].
      replace (Z.to_nat (index - e - 1)) with (S (Z.to_nat (index - (e + 1) - 1))) by lia. cbn [lookup list_lookup].
      destruct (skip_spec c ((pre ++ rev cur) ++ [x]) (0 :: post) fuel s Ht ltac:(cbn in Hf; lia)) as (nls & d & -> & Hn1 & Hd & Hs & Hsp).
      replace (pre ++ rev cur ++ x :: (nls ++ d) ++ 0 :: 0 :: post) with (((pre ++ rev cur) ++ [x]) ++ (nls ++ d) ++ 0 :: 0 :: post) by (by rewrite <-!app_assoc).
      replace (Z.of_nat (length (pre ++ rev cur)) + 1) with (Z.of_nat (length ((pre ++ rev cur) ++ [x]))) by (rewrite (length_app _ [x]); cbn; lia).
      unfold bind at 1. rewrite Hs, Hsp. set (q := ((pre ++ rev cur) ++ [x]) ++ nls). unfold bind.
      replace (((pre ++ rev cur) ++ [x]) ++ (nls ++ d) ++ 0 :: 0 :: post) with (q ++ d ++ 0 :: 0 :: post) by (unfold q; by rewrite <-!app_assoc).
      destruct d as [|y d]; cbn [app]; rewrite rd_app; [done|]. apply Forall_app in Ht as [_ Ht]. apply Forall_cons in Ht as [Hy Ht]. rewrite (proj2 (Z.eqb_neq y 0)) by done.
      replace (Z.of_nat (length q) + 1) with (Z.of_nat (length (q ++ rev [y]))) by (rewrite length_app; cbn; lia).
      cbn [length] in Hf, Hn. rewrite length_app in Hf, Hn. cbn [length] in Hf, Hn. apply (IH d [y] q (e + 1) fuel); [lia|done|lia|lia].
    + cbn [get_line_loop]. unfold bind at 1. rewrite (app_assoc pre (rev cur)), rd_app, En, (proj2 (Z.eqb_neq x 0)) by done. cbn [orb].
      specialize (IH c (x :: cur) pre e fuel). cbn [rev] in IH. rewrite <-IH; [|cbn in Hn; lia|done|done|cbn in Hf; lia].
      rewrite <-!app_assoc. cbn [app]. f_equal. rewrite !length_app. cbn. lia.
Qed.

Lemma get_line_spec c post index line s : text c -> 0 <= index ->
  get_line_from_buf index line (c ++ 0 :: 0 :: post) s = line_result (lines c !! Z.to_nat index) line s.
Proof.
  intros Ht Hi. unfold get_line_from_buf. pose proof (get_line_loop_spec (S (length c)) c [] [] post index line (-1) (S (length (c ++ 0 :: 0 :: post))) s) as H.
  cbn [rev app length] in H. change (Z.of_nat 0) with 0 in H. rewrite H; [by replace (Z.to_nat (index - -1 - 1)) with (Z.to_nat index) by lia|lia|done|lia|rewrite length_app; cbn; lia].
Qed.

(** On a text followed by two zeros, [get_line_from_buf] copies line [index] of the
    text, with a zero behind it, into the buffer of the caller, when the line fits;
    it writes past the end of that buffer when the line does not fit; for an index
    behind the last line it reports that there is none and changes nothing.  It always
    ends, and reads nothing but the text and the two zeros. *)
Theorem get_line_correct c post index line s : text c -> 0 <= index ->
  get_line_from_buf index line (c ++ 0 :: 0 :: post) s =
  match lines c !! Z.to_nat index with
  | Some l => if (length l <? length line)%nat then Ret (Some (l ++ 0 :: drop (S (length l)) line)) s else Fault
  | None => Ret None s
  end.
Proof. intros Ht Hi. by rewrite get_line_spec. Qed.
End Parse.

(** The second line of ["a\n\nbc"]. *)
Lemma get_line_correct_witness :
  get_line_from_buf 1 (replicate 8 7) ([97; 10; 10; 98; 99] ++ 0 :: 0 :: []) tt =
  match lines [97; 10; 10; 98; 99] !! Z.to_nat 1 with
  | Some l => if (length l <? length (replicate 8 7))%nat then Ret (Some (l ++ 0 :: drop (S (length l)) (replicate 8 7))) tt else Fault
  | None => Ret None tt
  end.
Proof. refine (get_line_correct [97; 10; 10; 98; 99] [] 1 (replicate 8 7) tt _ _); [repeat constructor; lia|lia]. Defined.
