(* ===== verification/WpaScan.v ===== *)
(** * Scan results: [wpa_get_scan_r] of [src/tkl_wifi/wpa_s/wpa_command.c]

    The answer to [SCAN_RESULTS] has a header and one line for each access point; the
    code keeps, for each network name and kind of key, the strongest.  The array of the
    caller has 128 entries. *)

From Stdlib Require Import String.
From S2P Require Import Prelude WpaParse.

(** ** Data *)

Inductive wifi_key := WIFI_KEY_WPA2PSK | WIFI_KEY_WPAPSK | WIFI_KEY_WEP | WIFI_KEY_NONE | WIFI_KEY_OTHER.
#[export] Instance wifi_key_eq_dec : EqDecision wifi_key.
Proof. solve_decision. Defined.

(** The character arrays hold strings. *)
Record wifi_scan_res := mkAp { ap_mac_addr : list Z; ap_freq : Z; ap_sig : Z; ap_key_mgmt : wifi_key; ap_ssid : list Z }.
#[export] Instance wifi_scan_res_eq_dec : EqDecision wifi_scan_res.
Proof. solve_decision. Defined.

Definition zero_ap : wifi_scan_res := mkAp [] 0 0 WIFI_KEY_WPA2PSK [].
Definition with_mac v a := mkAp v (ap_freq a) (ap_sig a) (ap_key_mgmt a) (ap_ssid a).
Definition with_freq v a := mkAp (ap_mac_addr a) v (ap_sig a) (ap_key_mgmt a) (ap_ssid a).
Definition with_sig v a := mkAp (ap_mac_addr a) (ap_freq a) v (ap_key_mgmt a) (ap_ssid a).
Definition with_key v a := mkAp (ap_mac_addr a) (ap_freq a) (ap_sig a) v (ap_ssid a).
Definition with_ssid v a := mkAp (ap_mac_addr a) (ap_freq a) (ap_sig a) (ap_key_mgmt a) v.

(** [list->ssid] has this many entries, of which [list->num] are in use: those of the
    list of the model. *)
Definition SCAN_LIST : nat := 128.

Definition key_of (key_type : list Z) : wifi_key :=
  if strstr key_type (lit "WPA2") then WIFI_KEY_WPA2PSK
  else if strstr key_type (lit "WPA") then WIFI_KEY_WPAPSK
  else if strstr key_type (lit "WEP") then WIFI_KEY_WEP
  else if starts (lit "[ESS]") key_type then WIFI_KEY_NONE
  else WIFI_KEY_OTHER.

Section Scan.
Context {S_ : Type}.
Local Abbreviation W := (M S_).

(** A string written into an array of [n] bytes. *)
Definition fits {R} (n : nat) (w : list Z) (k : W R) : W R := if (length w <? n)%nat then k else fault.

(** [sscanf(line, "%s\t%d\t%d\t%s\t%[^\n]s", ...)]: the conversions up to the first that
    fails; white space in the format skips any white space. *)
Definition scan_fields (line : list Z) (ap : wifi_scan_res) (key_type : list Z) : W (wifi_scan_res * list Z) :=
  match scan_s line with
  | None => ret (ap, key_type)
  | Some (mac, r) => fits 18 mac (
    let ap := with_mac mac ap in
    match scan_d (skip_space r) with
    | None => ret (ap, key_type)
    | Some (freq, r) =>
      let ap := with_freq freq ap in
      match scan_d (skip_space r) with
      | None => ret (ap, key_type)
      | Some (sig, r) =>
        let ap := with_sig sig ap in
        match scan_s (skip_space r) with
        | None => ret (ap, key_type)
        | Some (key_type, r) => fits 64 key_type (
          match scan_line (skip_space r) with
          | None => ret (ap, key_type)
          | Some (ssid, _) => fits 128 ssid (ret (with_ssid ssid ap, key_type))
          end)
        end
      end
    end)
  end.

Definition same_network (a b : wifi_scan_res) : bool := bool_decide (ap_ssid a = ap_ssid b) && bool_decide (ap_key_mgmt a = ap_key_mgmt b).

(** The loop over the entries: the index of the entry of the same network, or their
    number. *)
Fixpoint repeat_loop (l : list wifi_scan_res) (res : wifi_scan_res) : nat :=
  match l with
  | [] => O
  | a :: l => if same_network a res then O else S (repeat_loop l res)
  end.

Definition wpa_reduce_repeat_ssid (l : list wifi_scan_res) (res : wifi_scan_res) : W (list wifi_scan_res) :=
  let i := repeat_loop l res in
  match l !! i with
  | Some a => ret (if ap_sig a <? ap_sig res then <[i := res]> l else l)
  | None => if (i <? SCAN_LIST)%nat then ret (l ++ [res]) else fault
  end.

Fixpoint scan_r_loop (fuel : nat) (i : Z) (line key_type reply : list Z) (ap : wifi_scan_res) (l : list wifi_scan_res) : W (list wifi_scan_res) :=
  match fuel with
  | O => out_of_fuel
  | S fuel =>
    r <- get_line_from_buf i line reply ;;
    match r with
    | None => ret l
    | Some line =>
      f <- scan_fields (cstr line) ap key_type ;;
      let key_type := snd f in
      let ap := with_key (key_of key_type) (fst f) in
      l <- wpa_reduce_repeat_ssid l ap ;;
      scan_r_loop fuel (i + 1) line key_type reply ap l
    end
  end.

Definition wpa_get_scan_r (reply : list Z) (l : list wifi_scan_res) : W (list wifi_scan_res) :=
  scan_r_loop (S (length reply)) 1 (replicate 512 0) [] reply zero_ap l.
End Scan.

(** ** What the answer says *)

(** A decimal number, as [%d] prints it. *)
Fixpoint dec_loop (fuel : nat) (n : Z) (acc : list Z) : list Z :=
  match fuel with
  | O => acc
  | S fuel => if n <? 10 then (48 + n) :: acc else dec_loop fuel (n / 10) ((48 + n mod 10) :: acc)
  end.
Definition dec (n : Z) : list Z := if n <? 0 then 45 :: dec_loop 20 (- n) [] else dec_loop 20 n [].

(** An access point as wpa_supplicant prints it. *)
Record bss := mkBss { bs_mac : list Z; bs_freq : Z; bs_sig : Z; bs_flags : list Z; bs_ssid : list Z }.
Definition show_bss (b : bss) : list Z :=
  bs_mac b ++ 9 :: dec (bs_freq b) ++ 9 :: dec (bs_sig b) ++ 9 :: bs_flags b ++ 9 :: bs_ssid b.
Definition scan_reply (header : list Z) (bs : list bss) : list Z := header ++ 10 :: concat ((fun b => show_bss b ++ [10]) <$> bs).
Definition ap_of (b : bss) : wifi_scan_res := mkAp (bs_mac b) (bs_freq b) (bs_sig b) (key_of (bs_flags b)) (bs_ssid b).

(** The strongest access point of each network, in the order in which the networks
    appear. *)
Fixpoint keep_strongest (l : list wifi_scan_res) (a : wifi_scan_res) : list wifi_scan_res :=
  match l with
  | [] => [a]
  | b :: l => if same_network b a then (if ap_sig b <? ap_sig a then a else b) :: l else b :: keep_strongest l a
  end.
Definition networks (l : list wifi_scan_res) : list wifi_scan_res := fold_left keep_strongest l [].

(** A word of a line, and a network name that the format can read. *)
Definition word (n : nat) (w : list Z) : Prop := w <> [] /\ (length w < n)%nat /\ Forall (fun c => c <> 0 /\ space c = false) w.
Definition name (s : list Z) : Prop := (length s < 128)%nat /\ Forall (fun c => c <> 0 /\ NL c = false) s /\ match s with [] => False | c :: _ => space c = false end.
Definition int (n : Z) : Prop := -2147483648 <= n < 2147483648.
Definition bss_fields (b : bss) : Prop := word 18 (bs_mac b) /\ int (bs_freq b) /\ int (bs_sig b) /\ word 64 (bs_flags b).
Definition bss_ok (b : bss) : Prop := bss_fields b /\ name (bs_ssid b).
(** The same, or a hidden network, with an empty name. *)
Definition bss_or_hidden (b : bss) : Prop := bss_fields b /\ (name (bs_ssid b) \/ bs_ssid b = []).

#[local] Arguments dec_loop : simpl never.

(** ** Reading back what is printed *)

Lemma span_all f w r : Forall (fun c => f c = true) w -> match r with [] => True | c :: _ => f c = false end -> span f (w ++ r) = (w, r).
Proof.
  intros Hw Hr. induction Hw as [|c w Hc Hw IH]; cbn [app span]; [|by rewrite Hc, IH]. destruct r as [|c r]; [done|]. cbn [span]. by rewrite Hr.
Qed.

Lemma skip_space_id s : match s with [] => True | c :: _ => space c = false end -> skip_space s = s.
Proof. intros Hs. unfold skip_space. change s with ([] ++ s) at 1. by rewrite span_all. Qed.

Lemma dec_loop_S fuel n acc : dec_loop (S fuel) n acc = if n <? 10 then (48 + n) :: acc else dec_loop fuel (n / 10) ((48 + n mod 10) :: acc).
Proof. done. Qed.

Lemma dec_loop_num fuel n acc : 0 <= n < 10 ^ Z.of_nat fuel -> fold_left (fun n c => n * 10 + (c - 48)) (dec_loop fuel n acc) 0 = fold_left (fun n c => n * 10 + (c - 48)) acc n.
Proof.
  revert n acc. induction fuel as [|fuel IH]; intros n acc Hn; [change (10 ^ Z.of_nat 0) with 1 in Hn; by replace n with 0 by lia|]. rewrite dec_loop_S.
  destruct (Z.ltb_spec n 10); [cbn [fold_left]; f_equal; lia|]. rewrite IH.
  - cbn [fold_left]. f_equal. pose proof (Z.div_mod n 10). lia.
  - rewrite Nat2Z.inj_succ, Z.pow_succ_r in Hn by lia. split; [apply Z.div_pos; lia|]. apply Z.div_lt_upper_bound; lia.
Qed.

Lemma dec_loop_digits fuel n acc : 0 <= n -> Forall (fun c => digit c = true) acc -> Forall (fun c => digit c = true) (dec_loop fuel n acc) /\ (length (dec_loop fuel n acc) <= fuel + length acc)%nat.
Proof.
  revert n acc. induction fuel as [|fuel IH]; intros n acc Hn Ha; [split; [done|change (dec_loop 0 n acc) with acc; lia]|]. rewrite dec_loop_S. destruct (Z.ltb_spec n 10).
  - split; [|cbn; lia]. constructor; [|done]. unfold digit. by rewrite !(proj2 (Z.leb_le _ _)) by lia.
  - destruct (IH (n / 10) ((48 + n mod 10) :: acc)) as [H1 H2]; [apply Z.div_pos; lia| |split; [done|cbn in H2; lia]].
    constructor; [|done]. unfold digit. pose proof (Z.mod_pos_bound n 10). by rewrite !(proj2 (Z.leb_le _ _)) by lia.
Qed.

Lemma dec_loop_nonempty fuel n acc : dec_loop (S fuel) n acc <> [].
Proof. revert n acc. induction fuel as [|fuel IH]; intros n acc; rewrite dec_loop_S; [by destruct (n <? 10)|]. destruct (n <? 10); [done|]. apply IH. Qed.

(** A number: its digits behind the sign. *)
Lemma dec_spec n : int n -> exists ds, dec n = (if n <? 0 then [45] else []) ++ ds /\ ds <> [] /\ Forall (fun c => digit c = true) ds /\ num ds = Z.abs n /\ (length ds <= 20)%nat.
Proof.
  intros Hn. unfold int in Hn. exists (dec_loop 20 (Z.abs n) []). destruct (dec_loop_digits 20 (Z.abs n) []) as [H1 H2]; [lia|done|].
  split; [unfold dec; destruct (Z.ltb_spec n 0); [rewrite Z.abs_neq by lia|rewrite Z.abs_eq by lia]; done|].
  split; [apply (dec_loop_nonempty 19)|]. split; [done|]. split; [|cbn [length] in H2; lia].
  unfold num. rewrite dec_loop_num; [done|]. change (10 ^ Z.of_nat 20) with 100000000000000000000. lia.
Qed.

Lemma digit_not_space c : digit c = true -> space c = false /\ c <> 45 /\ c <> 43 /\ c <> 0 /\ NL c = false.
Proof. unfold digit, space, NL. intros H. zbool. repeat split; try lia; rewrite ?(proj2 (Z.eqb_neq c _)), ?(proj2 (Z.leb_gt c 13)) by lia; by rewrite ?andb_false_r. Qed.

Lemma to_int_dec n ds : int n -> num ds = Z.abs n -> to_int (n <? 0) ds = n.
Proof.
  intros Hn E. unfold int in Hn. unfold to_int, LONG_MAX. rewrite E. destruct (Z.ltb_spec n 0); rewrite swrap_small; change (2 ^ (32 - 1)) with 2147483648; lia.
Qed.

Lemma scan_d_dec n r : int n -> match r with [] => True | c :: _ => digit c = false end -> scan_d (dec n ++ r) = Some (n, r).
Proof.
  intros Hn Hr. destruct (dec_spec n Hn) as (ds & -> & Hne & Hd & E & _). unfold scan_d. rewrite <-app_assoc. destruct ds as [|c ds]; [done|]. pose proof (Forall_inv Hd) as Hc. apply digit_not_space in Hc as (Hs & H1 & H2 & _).
  assert (sign_of (skip_space ((if n <? 0 then [45] else []) ++ (c :: ds) ++ r)) = (n <? 0, (c :: ds) ++ r)) as ->.
  { destruct (n <? 0); cbn [app]; rewrite skip_space_id by done; [done|]. cbn [sign_of]. by rewrite (proj2 (Z.eqb_neq c 45)), (proj2 (Z.eqb_neq c 43)) by done. }
  rewrite (span_all digit (c :: ds) r) by done. by rewrite (to_int_dec n (c :: ds)).
Qed.

Lemma dec_head n : int n -> exists c r, dec n = c :: r /\ space c = false.
Proof.
  intros Hn. destruct (dec_spec n Hn) as (ds & -> & Hne & Hd & _). destruct ds as [|c ds]; [done|]. pose proof (Forall_inv Hd) as Hc. apply digit_not_space in Hc as (Hs & _).
  destruct (n <? 0); cbn [app]; eauto.
Qed.

Lemma scan_s_word n w r : word n w -> match r with [] => True | c :: _ => space c = true end -> scan_s (w ++ r) = Some (w, r).
Proof.
  intros (Hne & _ & Hw) Hr. destruct w as [|c w]; [done|]. unfold scan_s. rewrite skip_space_id by (by apply (Forall_inv Hw)). rewrite span_all.
  - done.
  - eapply Forall_impl; [exact Hw|]. cbv beta. intros d [_ ->]. done.
  - destruct r; [done|]. by rewrite Hr.
Qed.

Lemma skip_tab_word n w r : word n w -> skip_space (9 :: w ++ r) = w ++ r.
Proof.
  intros (Hne & _ & Hw). destruct w as [|c w]; [done|]. change (skip_space (9 :: (c :: w) ++ r)) with (skip_space ([9] ++ (c :: w) ++ r)). unfold skip_space. rewrite (span_all space [9]); [done|by repeat constructor|]. by apply (Forall_inv Hw).
Qed.

Lemma skip_tab s : match s with [] => True | c :: _ => space c = false end -> skip_space (9 :: s) = s.
Proof. intros Hs. unfold skip_space. change (9 :: s) with ([9] ++ s). by rewrite span_all by (done || by repeat constructor). Qed.

Lemma scan_line_name s : name s -> scan_line s = Some (s, []).
Proof.
  intros (_ & Hn & Hs). unfold scan_line. destruct s as [|c s]; [done|]. rewrite <-(app_nil_r (c :: s)) at 1. rewrite span_all; [done| |done].
  eapply Forall_impl; [exact Hn|]. cbv beta. intros d [_ H]. unfold NL in H. zbool. by rewrite (proj2 (Z.eqb_neq d 10)).
Qed.

(** ** A line *)

Section Lines.
Context {S_ : Type}.
Implicit Types (s : S_).

Lemma fits_ok {R} n w (k : M S_ R) : (length w < n)%nat -> fits n w k = k.
Proof. intros H. unfold fits. by rewrite (proj2 (Nat.ltb_lt _ _) H). Qed.

(** The fields up to the flags, whatever follows. *)
Lemma scan_fields_head b r ap key_type s : word 18 (bs_mac b) -> int (bs_freq b) -> int (bs_sig b) -> word 64 (bs_flags b) ->
  scan_fields (bs_mac b ++ 9 :: dec (bs_freq b) ++ 9 :: dec (bs_sig b) ++ 9 :: bs_flags b ++ 9 :: r) ap key_type s =
  match scan_line (skip_space (9 :: r)) with
  | None => ret (mkAp (bs_mac b) (bs_freq b) (bs_sig b) (ap_key_mgmt ap) (ap_ssid ap), bs_flags b)
  | Some (ssid, _) => fits 128 ssid (ret (mkAp (bs_mac b) (bs_freq b) (bs_sig b) (ap_key_mgmt ap) ssid, bs_flags b))
  end s.
Proof.
  intros Hm Hf Hs Hk. unfold scan_fields. rewrite (scan_s_word 18) by done. rewrite fits_ok by apply Hm.
  destruct (dec_head _ Hf) as (c & r1 & E1 & Hc), (dec_head _ Hs) as (c2 & r2 & E2 & Hc2).
  rewrite skip_tab by (by rewrite E1). rewrite scan_d_dec by done. rewrite skip_tab by (by rewrite E2). rewrite scan_d_dec by done.
  rewrite (skip_tab_word 64), (scan_s_word 64) by done. rewrite fits_ok by apply Hk. done.
Qed.

(** The name that is stored for an access point: a hidden network has an empty name, the
    conversion fails, and the name stays what it was. *)
Definition stored_name (prev : list Z) (b : bss) : list Z := if bool_decide (bs_ssid b = []) then prev else bs_ssid b.

Lemma scan_fields_show b ap key_type s : bss_or_hidden b ->
  scan_fields (show_bss b) ap key_type s = Ret (mkAp (bs_mac b) (bs_freq b) (bs_sig b) (ap_key_mgmt ap) (stored_name (ap_ssid ap) b), bs_flags b) s.
Proof.
  intros [(Hm & Hf & Hs & Hk) [Hn|E]]; unfold show_bss, stored_name; [|rewrite E, scan_fields_head, bool_decide_true by done; done].
  rewrite bool_decide_false by (destruct Hn as (_ & _ & H1); by destruct (bs_ssid b)). rewrite scan_fields_head by done. pose proof Hn as (Hl & _ & H1).
  rewrite skip_tab by (by destruct (bs_ssid b)). rewrite scan_line_name by done. by rewrite fits_ok.
Qed.

(** ** The list *)

Lemma reduce_spec l a s : (length (keep_strongest l a) <= SCAN_LIST)%nat -> wpa_reduce_repeat_ssid l a s = Ret (keep_strongest l a) s.
Proof.
  intros Hl. unfold wpa_reduce_repeat_ssid.
  assert (match l !! repeat_loop l a with
          | Some b => (if ap_sig b <? ap_sig a then <[repeat_loop l a := a]> l else l) = keep_strongest l a
          | None => repeat_loop l a = length l /\ keep_strongest l a = l ++ [a]
          end) as H.
  { clear Hl. induction l as [|b l IH]; [done|]. cbn [repeat_loop keep_strongest]. destruct (same_network b a); [cbn; by destruct (_ <? _)|]. cbn [lookup list_lookup].
    destruct (l !! repeat_loop l a) as [c|]; [|destruct IH as [-> ->]; done]. rewrite <-IH. by destruct (ap_sig c <? ap_sig a). }
  destruct (l !! repeat_loop l a) as [b|]; [by rewrite H|]. destruct H as [-> E]. rewrite E in *. rewrite length_app in Hl. cbn in Hl. by rewrite (proj2 (Nat.ltb_lt _ _)) by lia.
Qed.

Lemma keep_strongest_length l a : (length l <= length (keep_strongest l a))%nat.
Proof. induction l as [|b l IH]; cbn; [lia|]. destruct (same_network b a); cbn; lia. Qed.

Lemma networks_length l1 l2 : (length l1 <= length (fold_left keep_strongest l2 l1))%nat.
Proof. revert l1. induction l2 as [|a l2 IH]; intros l1; cbn; [lia|]. pose proof (keep_strongest_length l1 a). specialize (IH (keep_strongest l1 a)). lia. Qed.

(** ** The lines of the answer *)

Lemma split_lines_app cur l r : Forall (fun c => NL c = false) l -> split_lines cur false (l ++ 10 :: r) = rev (rev l ++ cur) :: split_lines [] true r.
Proof.
  intros Hl. revert cur. induction Hl as [|c l Hc Hl IH]; intros cur; cbn [app split_lines]; [done|]. rewrite Hc, IH. cbn [rev]. by rewrite <-app_assoc.
Qed.

Lemma split_lines_start l r : l <> [] -> Forall (fun c => NL c = false) l -> split_lines [] true (l ++ 10 :: r) = l :: split_lines [] true r.
Proof.
  intros Hne Hl. destruct Hl as [|c l Hc Hl]; [done|]. cbn [app split_lines]. rewrite Hc, split_lines_app by done. by rewrite rev_app_distr, rev_involutive.
Qed.

Lemma lines_reply h ls : Forall (fun c => NL c = false) h -> Forall (fun l => l <> [] /\ Forall (fun c => NL c = false) l) ls ->
  lines (h ++ 10 :: concat ((fun l => l ++ [10]) <$> ls)) = h :: ls.
Proof.
  intros Hh Hls. unfold lines. rewrite split_lines_app by done. rewrite app_nil_r, rev_involutive. f_equal.
  induction Hls as [|l ls [Hne Hl] Hls IH]; [done|]. cbn [fmap list_fmap concat]. rewrite <-app_assoc. cbn [app]. by rewrite split_lines_start, IH.
Qed.

Lemma cstr_text l r : text l -> cstr (l ++ 0 :: r) = l.
Proof. induction 1 as [|c l Hc Hl IH]; cbn [app cstr]; [done|]. by rewrite (proj2 (Z.eqb_neq c 0)), IH. Qed.

(** What the code takes the answer for. *)
Fixpoint entries (prev : list Z) (bs : list bss) : list wifi_scan_res :=
  match bs with
  | [] => []
  | b :: bs => mkAp (bs_mac b) (bs_freq b) (bs_sig b) (key_of (bs_flags b)) (stored_name prev b) :: entries (stored_name prev b) bs
  end.

Lemma word_text n w : word n w -> Forall (fun c => c <> 0 /\ NL c = false) w.
Proof.
  intros (_ & _ & Hw). eapply Forall_impl; [exact Hw|]. cbv beta. intros c [H0 Hs]. split; [done|]. unfold space in Hs. unfold NL.
  destruct (Z.eqb_spec c 10) as [->|]; [done|]. destruct (Z.eqb_spec c 13) as [->|]; done.
Qed.

Lemma dec_text n : int n -> Forall (fun c => c <> 0 /\ NL c = false) (dec n) /\ (length (dec n) <= 21)%nat.
Proof.
  intros Hn. destruct (dec_spec n Hn) as (ds & -> & _ & Hd & _ & Hl). split; [|destruct (n <? 0); cbn; lia]. apply Forall_app. split; [by destruct (n <? 0); repeat constructor|].
  eapply Forall_impl; [exact Hd|]. cbv beta. intros c Hc. apply digit_not_space in Hc as (_ & _ & _ & ? & ?). done.
Qed.

Lemma show_text b : bss_or_hidden b -> Forall (fun c => c <> 0 /\ NL c = false) (show_bss b) /\ show_bss b <> [] /\ (length (show_bss b) < 512)%nat.
Proof.
  intros [(Hm & Hf & Hs & Hk) Hn]. destruct (dec_text _ Hf) as [Tf Lf], (dec_text _ Hs) as [Ts Ls]. pose proof (word_text _ _ Hm). pose proof (word_text _ _ Hk).
  assert (Forall (fun c => c <> 0 /\ NL c = false) (bs_ssid b) /\ (length (bs_ssid b) < 128)%nat) as [Tn Ln] by (destruct Hn as [(? & ? & _)| ->]; [done|split; [constructor|cbn; lia]]).
  unfold show_bss. split; [repeat (rewrite Forall_app, Forall_cons); repeat split; first [assumption|reflexivity|lia]|]. destruct Hm as (Hne & Lm & _), Hk as (_ & Lk & _).
  split; [by destruct (bs_mac b)|]. repeat (rewrite length_app; cbn [length]). lia.
Qed.

Lemma reply_lines h bs : Forall bss_or_hidden bs -> Forall (fun c => c <> 0 /\ NL c = false) h ->
  text (scan_reply h bs) /\ lines (scan_reply h bs) = h :: (show_bss <$> bs).
Proof.
  intros Hbs Hh. unfold scan_reply. split.
  - apply Forall_app. split; [eapply Forall_impl; [exact Hh|]; by intros c []|]. constructor; [done|]. induction Hbs as [|b bs Hb Hbs IH]; [constructor|]. cbn [fmap list_fmap concat].
    apply Forall_app. split; [|done]. apply Forall_app. split; [|by repeat constructor]. eapply Forall_impl; [apply (show_text b Hb)|]. by intros c [].
  - change ((fun b => show_bss b ++ [10]) <$> bs) with (((fun l => l ++ [10]) ∘ show_bss) <$> bs). rewrite list_fmap_compose. apply lines_reply; [eapply Forall_impl; [exact Hh|]; by intros c []|].
    apply Forall_fmap. eapply Forall_impl; [exact Hbs|]. intros b Hb. destruct (show_text b Hb) as (H1 & H2 & _). split; [done|]. eapply Forall_impl; [exact H1|]. by intros c [].
Qed.

Lemma scan_r_loop_spec bs seen h post line key_type ap l fuel s : Forall bss_or_hidden (seen ++ bs) -> Forall (fun c => c <> 0 /\ NL c = false) h -> length line = 512%nat ->
  (length bs < fuel)%nat -> (length (fold_left keep_strongest (entries (ap_ssid ap) bs) l) <= SCAN_LIST)%nat ->
  scan_r_loop fuel (1 + Z.of_nat (length seen)) line key_type (scan_reply h (seen ++ bs) ++ 0 :: 0 :: post) ap l s = Ret (fold_left keep_strongest (entries (ap_ssid ap) bs) l) s.
Proof.
  revert seen line key_type ap l fuel. induction bs as [|b bs IH]; intros seen line key_type ap l fuel Hbs Hh Hlen Hf Hcap; (destruct fuel as [|fuel]; [cbn in Hf; lia|]);
    destruct (reply_lines h _ Hbs Hh) as [Ht El]; cbn [scan_r_loop]; unfold bind at 1; rewrite get_line_spec, El by (done || lia);
    replace (Z.to_nat (1 + Z.of_nat (length seen))) with (S (length seen)) by lia; rewrite lookup_cons_ne_0 by lia; cbn [pred]; rewrite list_lookup_fmap.
  - rewrite app_nil_r, lookup_ge_None_2 by done. done.
  - rewrite list_lookup_middle by done. cbn [fmap option_fmap option_map line_result].
    assert (bss_or_hidden b) as Hb by (apply Forall_app in Hbs as [_ Hbs]; by apply Forall_cons in Hbs as [? _]). destruct (show_text b Hb) as (Tb & _ & Lb).
    rewrite (proj2 (Nat.ltb_lt _ _)) by lia. unfold bind at 1. rewrite cstr_text by (eapply Forall_impl; [exact Tb|]; by intros c []). rewrite scan_fields_show by done. cbn [fst snd].
    cbn [entries fold_left] in Hcap |- *. unfold bind at 1. rewrite reduce_spec by (etrans; [apply networks_length|exact Hcap]).
    specialize (IH (seen ++ [b])). rewrite <-app_assoc in IH. cbn [app] in IH. rewrite length_app in IH. cbn [length] in IH.
    replace (1 + Z.of_nat (length seen) + 1) with (1 + Z.of_nat (length seen + 1)) by lia.
    apply IH; [done|done|rewrite length_app; cbn [length]; rewrite length_drop; lia|cbn in Hf; lia|done].
Qed.

(** The whole answer. *)
Lemma get_scan_r_spec h bs post s : Forall bss_or_hidden bs -> Forall (fun c => c <> 0 /\ NL c = false) h -> (length (networks (entries [] bs)) <= SCAN_LIST)%nat ->
  wpa_get_scan_r (scan_reply h bs ++ 0 :: 0 :: post) [] s = Ret (networks (entries [] bs)) s.
Proof.
  intros Hbs Hh Hcap. unfold wpa_get_scan_r. apply (scan_r_loop_spec bs [] h post (replicate 512 0) [] zero_ap [] _ s Hbs Hh); [done| |done].
  unfold scan_reply. rewrite !length_app. cbn [length]. assert (length bs <= length (concat ((fun b => show_bss b ++ [10%Z]) <$> bs)))%nat; [|lia]. clear.
  induction bs as [|b bs IH]; [cbn; lia|]. rewrite fmap_cons. cbn [concat length]. rewrite !length_app. cbn [length]. lia.
Qed.

(** ** What is kept *)

Definition network (a : wifi_scan_res) : list Z * wifi_key := (ap_ssid a, ap_key_mgmt a).

(** [l] has one entry, the strongest, for each network of [seen]. *)
Record strongest (seen l : list wifi_scan_res) : Prop := {
  st_from a : a ∈ l -> a ∈ seen;
  st_best a : a ∈ seen -> exists b, b ∈ l /\ network b = network a /\ ap_sig a <= ap_sig b;
  st_once : NoDup (network <$> l)
}.

Lemma same_network_spec a b : reflect (network a = network b) (same_network a b).
Proof. apply iff_reflect. unfold same_network, network. rewrite andb_true_iff, !bool_decide_eq_true. split; [by intros [= ? ?]|by intros [-> ->]]. Qed.

Lemma keep_strongest_networks l a : network <$> keep_strongest l a = if decide (network a ∈ network <$> l) then network <$> l else (network <$> l) ++ [network a].
Proof.
  induction l as [|b l IH]; cbn [keep_strongest]; [done|]. destruct (same_network_spec b a) as [E|E].
  - rewrite decide_True by (rewrite fmap_cons, elem_of_cons; left; congruence). rewrite !fmap_cons. f_equal. by destruct (_ <? _).
  - rewrite !fmap_cons, IH. destruct (decide (network a ∈ network <$> l)) as [H|H]; [by rewrite decide_True by (by right)|].
    rewrite decide_False; [done|]. rewrite elem_of_cons. intros [?|?]; congruence.
Qed.

Lemma keep_strongest_in l a b : b ∈ keep_strongest l a -> b = a \/ b ∈ l.
Proof.
  induction l as [|c l IH]; cbn [keep_strongest]; [rewrite list_elem_of_singleton; auto|]. destruct (same_network c a).
  - rewrite elem_of_cons. destruct (_ <? _); intros [->|?]; rewrite ?elem_of_cons; auto.
  - rewrite !elem_of_cons. naive_solver.
Qed.

(** No entry gets weaker, and the new access point has its entry. *)
Lemma keep_strongest_best l a c : c = a \/ c ∈ l -> exists b, b ∈ keep_strongest l a /\ network b = network c /\ ap_sig c <= ap_sig b.
Proof.
  intros Hc. induction l as [|d l IH]; cbn [keep_strongest].
  - destruct Hc as [->|Hc%not_elem_of_nil]; [|done]. exists a. by rewrite list_elem_of_singleton.
  - destruct (same_network_spec d a) as [E|E].
    + destruct (Z.ltb_spec (ap_sig d) (ap_sig a)); destruct Hc as [->|[->|Hc]%elem_of_cons];
        first [exists a; split; [by left|split; [done|lia]]|exists d; split; [by left|split; [done|lia]]|exists c; split; [by right|done]].
    + destruct Hc as [->|[->|Hc]%elem_of_cons]; [destruct IH as (b & ? & ? & ?); [by left|]; exists b; split; [by right|done]|exists d; split; [by left|done]|].
      destruct IH as (b & ? & ? & ?); [by right|]. exists b. split; [by right|done].
Qed.

Lemma keep_strongest_step seen l a : strongest seen l -> strongest (seen ++ [a]) (keep_strongest l a).
Proof.
  intros [Hf Hb Ho]. split.
  - intros b Hin. apply elem_of_app. destruct (keep_strongest_in _ _ _ Hin) as [->|?]; [right; by apply list_elem_of_singleton|left; by apply Hf].
  - intros c [Hc|Hc%list_elem_of_singleton]%elem_of_app; [|apply keep_strongest_best; by left]. destruct (Hb c Hc) as (b & Hin & E & Hle).
    destruct (keep_strongest_best l a b) as (b' & ? & ? & ?); [by right|]. exists b'. split; [done|]. split; [congruence|lia].
  - rewrite keep_strongest_networks. destruct (decide _) as [|Hn]; [done|]. apply NoDup_app. split; [done|]. split; [|apply NoDup_singleton]. intros x Hx Hx'%list_elem_of_singleton. by subst.
Qed.

Lemma networks_strongest aps : strongest aps (networks aps).
Proof.
  unfold networks. assert (forall seen l, strongest seen l -> strongest (seen ++ aps) (fold_left keep_strongest aps l)) as H.
  { induction aps as [|a aps IH]; intros seen l Hs; cbn [fold_left]; [by rewrite app_nil_r|]. specialize (IH (seen ++ [a]) (keep_strongest l a) (keep_strongest_step _ _ _ Hs)). by rewrite <-app_assoc in IH. }
  apply (H [] []). split; [done|by intros a ?%not_elem_of_nil|constructor].
Qed.

Lemma entries_named prev bs : Forall bss_ok bs -> entries prev bs = ap_of <$> bs.
Proof.
  intros H. revert prev. induction H as [|b bs [_ (_ & _ & Hn)] _ IH]; intros prev; cbn [entries fmap list_fmap]; [done|].
  assert (stored_name prev b = bs_ssid b) as -> by (unfold stored_name; rewrite bool_decide_false; [done|]; by destruct (bs_ssid b)). by rewrite IH.
Qed.

Lemma bss_ok_or_hidden bs : Forall bss_ok bs -> Forall bss_or_hidden bs.
Proof. intros H. eapply Forall_impl; [exact H|]. intros b [? ?]. by split; [|left]. Qed.

(** C26: for every answer whose fields fit their arrays, whose names do not begin with white
    space, and which has at most 128 networks, [wpa_get_scan_r] returns one entry for each
    network (name and kind of key), with the address, frequency and signal of its strongest
    access point as they were printed; every buffer it writes is large enough.  This is so when
    every access point has a name.  A hidden one, whose name is printed empty, counts for the
    network of the line before it, wrongly, and is its entry when its signal is stronger. *)
Theorem scan_results_correct h bs post s : Forall bss_or_hidden bs -> Forall (fun c => c <> 0 /\ NL c = false) h -> (length (networks (entries [] bs)) <= 128)%nat ->
  wp (wpa_get_scan_r (scan_reply h bs ++ 0 :: 0 :: post) []) (fun l s' => s' = s /\ strongest (entries [] bs) l /\ (Forall bss_ok bs -> strongest (ap_of <$> bs) l)) s.
Proof.
  intros Hbs Hh Hcap. unfold wp. rewrite get_scan_r_spec by done. split; [done|]. split; [apply networks_strongest|]. intros Hok. rewrite (entries_named [] bs Hok). apply networks_strongest.
Qed.

(** A hidden network, whose name is printed empty, is taken for the network of the
    line before: when it has the same kind of key and a stronger signal, its address,
    frequency and signal replace those of the network whose name it does not have. *)
Theorem hidden_network_misnamed h b hidden post s : bss_ok b -> bss_fields hidden -> bs_ssid hidden = [] ->
  key_of (bs_flags hidden) = key_of (bs_flags b) -> bs_sig b < bs_sig hidden -> Forall (fun c => c <> 0 /\ NL c = false) h ->
  wpa_get_scan_r (scan_reply h [b; hidden] ++ 0 :: 0 :: post) [] s =
  Ret [mkAp (bs_mac hidden) (bs_freq hidden) (bs_sig hidden) (key_of (bs_flags b)) (bs_ssid b)] s.
Proof.
  intros Hb Hf E Ek Hs Hh. pose proof Hb as [_ (_ & _ & Hn)].
  assert (networks (entries [] [b; hidden]) = [mkAp (bs_mac hidden) (bs_freq hidden) (bs_sig hidden) (key_of (bs_flags b)) (bs_ssid b)]) as En.
  { cbn [entries]. unfold stored_name. rewrite (bool_decide_false (bs_ssid b = [])) by (by destruct (bs_ssid b)). rewrite E, bool_decide_true, Ek by done. unfold networks. cbn [fold_left keep_strongest].
    match goal with |- context [same_network ?x ?y] => destruct (same_network_spec x y) as [_|Hne]; [|by destruct Hne] end. cbn [ap_sig]. by rewrite (proj2 (Z.ltb_lt _ _)). }
  assert (Forall bss_or_hidden [b; hidden]) as Hbs.
  { destruct Hb as [? ?]. repeat (apply Forall_cons; split); [by split; [|left]|by split; [|right]|constructor]. }
  rewrite (get_scan_r_spec h [b; hidden] post s Hbs Hh), En; [done|]. rewrite En. cbn. unfold SCAN_LIST. lia.
Qed.
End Lines.

(** ** An answer *)

Definition scan_header : list Z := lit "bssid / frequency / signal level / flags / ssid".
Definition bss1 : bss := mkBss (lit "02:00:00:00:00:01") 2412 (-60) (lit "[WPA2-PSK-CCMP][ESS]") (lit "home net").
Definition bss2 : bss := mkBss (lit "02:00:00:00:00:02") 5180 (-40) (lit "[WPA2-PSK-CCMP][ESS]") (lit "home net").
Definition bss3 : bss := mkBss (lit "02:00:00:00:00:03") 2437 (-70) (lit "[ESS]") (lit "guest").
Definition bss_hidden : bss := mkBss (lit "02:00:00:00:00:09") 2462 (-20) (lit "[WPA2-PSK-CCMP][ESS]") [].

Lemma scan_results_correct_witness :
  wp (wpa_get_scan_r (scan_reply scan_header [bss1; bss2; bss3] ++ 0 :: 0 :: []) []) (fun l s' => strongest (ap_of <$> [bss1; bss2; bss3]) l) tt /\
  wp (wpa_get_scan_r (scan_reply scan_header [bss1; bss_hidden; bss3] ++ 0 :: 0 :: []) []) (fun l s' => s' = tt /\ strongest (entries [] [bss1; bss_hidden; bss3]) l /\ (Forall bss_ok [bss1; bss_hidden; bss3] -> strongest (ap_of <$> [bss1; bss_hidden; bss3]) l)) tt.
Proof.
  split.
  - eapply wp_mono; [refine (scan_results_correct scan_header [bss1; bss2; bss3] [] tt _ _ _)|].
    + apply bss_ok_or_hidden. repeat constructor; by vm_compute.
    + repeat constructor; by vm_compute.
    + vm_compute. lia.
    + cbv beta. intros l s' (_ & _ & H). apply H. repeat constructor; by vm_compute.
  - refine (scan_results_correct scan_header [bss1; bss_hidden; bss3] [] tt _ _ _).
    + apply Forall_cons_2; [|apply Forall_cons_2; [|apply Forall_cons_2; [|constructor]]]; (split; [repeat constructor; by vm_compute|]); [left|right; done|left]; repeat constructor; by vm_compute.
    + repeat constructor; by vm_compute.
    + vm_compute. lia.
Defined.

Lemma hidden_network_misnamed_witness :
  wpa_get_scan_r (scan_reply scan_header [bss1; bss_hidden] ++ 0 :: 0 :: []) [] tt =
  Ret [mkAp (bs_mac bss_hidden) (bs_freq bss_hidden) (bs_sig bss_hidden) (key_of (bs_flags bss1)) (bs_ssid bss1)] tt.
Proof.
  refine (hidden_network_misnamed scan_header bss1 bss_hidden [] tt _ _ eq_refl eq_refl _ _); [repeat constructor; by vm_compute|repeat constructor; by vm_compute|cbn; lia|repeat constructor; by vm_compute].
Defined.

Example scan_demo : wpa_get_scan_r (scan_reply scan_header [bss1; bss2; bss3] ++ 0 :: 0 :: []) [] tt = Ret [ap_of bss2; ap_of bss3] tt.
Proof. by vm_compute. Qed.
