(* ===== verification/WpaCommand.v ===== *)
(** * Commands to wpa_supplicant: [src/tkl_wifi/wpa_s/wpa_command.c]

    A command is printed into a buffer of 128 bytes, sent over the control socket, and
    its answer, of up to 4096 bytes, parsed by the kind of the command.  The control
    interface ([wpa_ctrl.h]) is a parameter, the class [WpaCtrl], with the requests made
    so far.  The result of a command goes through a pointer of the caller, whose type
    depends on the command: [cmd_res]. *)

From Stdlib Require Import String.
From S2P Require Import Prelude WpaParse WpaScan.

(** ** The control interface *)

(** What happened: there was no connection, or a request was made, with its answer if it got
    one. *)
Inductive wpa_ev := NoConnection | Asked (c : list Z) (answer : option (list Z)).

Class WpaCtrl (K : Type) := {
  wpa_ctrl_open : M K bool;                        (** is there a connection? *)
  wpa_ctrl_close : M K unit;
  wpa_ctrl_request : list Z -> M K (Z * list Z);   (** result and answer *)
  (** A connection is there to be used. *)
  wpa_conn : K -> bool;
  wpa_log : K -> list wpa_ev;
  wpa_open_ok k : wp wpa_ctrl_open (fun b k' => wpa_log k' = wpa_log k ++ (if b then [] else [NoConnection]) /\ (b = true -> wpa_conn k' = true)) k;
  wpa_close_ok k : wpa_conn k = true -> wp wpa_ctrl_close (fun _ k' => wpa_log k' = wpa_log k) k;
  wpa_request_ok c k : wpa_conn k = true -> wp (wpa_ctrl_request c) (fun r k' => wpa_conn k' = true /\
    wpa_log k' = wpa_log k ++ [Asked c (if fst r <? 0 then None else Some (snd r))] /\ (length (snd r) <= 4096)%nat) k
}.

(** ** Data *)

Inductive wifi_cmd :=
| WIFI_COMMAND_SCAN | WIFI_COMMAND_ADDNETWORK | WIFI_COMMAND_SETNETWORK_SSID | WIFI_COMMAND_SETNETWORK_SCANSSID
| WIFI_COMMAND_SETNETWORK_PSK | WIFI_COMMAND_SETNETWORK_KEYMETH | WIFI_COMMAND_SETNETWORK_AUTHALG
| WIFI_COMMAND_SETNETWORK_WEPKEY0 | WIFI_COMMAND_SETNETWORK_WEPTXKEYID | WIFI_COMMAND_ENABLENETWORK
| WIFI_COMMAND_SELECTNETWORK | WIFI_COMMAND_RECONFIGURE | WIFI_COMMAND_REATTACH | WIFI_COMMAND_GET_STATUS
| WIFI_COMMAND_GET_SIGNAL | WIFI_COMMAND_SAVECONFIG | WIFI_COMMAND_SCAN_R | WIFI_COMMAND_LISTNETWORK
| WIFI_COMMAND_DISABLENETWORK | WIFI_COMMAND_GET_CHANNEL | WIFI_COMMAND_DISCONNECT | WIFI_COMMAND_RECONNCET
| WIFI_COMMAND_REMOVENETWORK | WIFI_COMMAND_GET_CURRENT_SSID | WIFI_COMMAND_BLACKLIST_CLEAR | WIFI_COMMAND_GET_BSSID
| WIFI_COMMAND_SET_COUNTRY | WIFI_COMMAND_GET_COUNTRY | WIFI_COMMAND_GET_WIFI_INFO.

Inductive wifi_ack := WIFI_COMMAND_ACK_INT | WIFI_COMMAND_ACK_OK | WIFI_COMMAND_ACK_STRING.

(** The table, which has every command once. *)
Definition wifi_command_pack_sum (cmd : wifi_cmd) : wifi_ack :=
  match cmd with
  | WIFI_COMMAND_ADDNETWORK | WIFI_COMMAND_GET_STATUS | WIFI_COMMAND_GET_SIGNAL | WIFI_COMMAND_LISTNETWORK
  | WIFI_COMMAND_GET_CHANNEL => WIFI_COMMAND_ACK_INT
  | WIFI_COMMAND_SCAN_R | WIFI_COMMAND_GET_CURRENT_SSID | WIFI_COMMAND_GET_BSSID | WIFI_COMMAND_GET_COUNTRY
  | WIFI_COMMAND_GET_WIFI_INFO => WIFI_COMMAND_ACK_STRING
  | _ => WIFI_COMMAND_ACK_OK
  end.

Definition WPA_ALL_NETWORK : Z := -1.
Definition PSK_WPA_HEX_LEN : nat := 64.
Definition WIFI_SCANING : Z := 1.
Definition WIFI_CONNECTED : Z := 2.
Definition WIFI_UNCONNECTED : Z := 3.

Record wifi_network := mkNet { n_id : Z; n_ssid : list Z; n_psk : list Z; n_key_mgmt : wifi_key }.
Definition with_id v n := mkNet v (n_ssid n) (n_psk n) (n_key_mgmt n).
Definition with_net_key v n := mkNet (n_id n) (n_ssid n) (n_psk n) v.

Record WF_CONNECTED_AP_INFO_S := mkInfo {
  wi_ssid : list Z; wi_passwd : list Z; wi_bssid : list Z; wi_security : Z; wi_key_mgmt : list Z; wi_chan : Z }.
Definition zero_info : WF_CONNECTED_AP_INFO_S := mkInfo [] [] (replicate 6 0) 0 [] 0.
Definition with_wi_ssid v i := mkInfo v (wi_passwd i) (wi_bssid i) (wi_security i) (wi_key_mgmt i) (wi_chan i).
Definition with_wi_passwd v i := mkInfo (wi_ssid i) v (wi_bssid i) (wi_security i) (wi_key_mgmt i) (wi_chan i).
Definition with_wi_bssid v i := mkInfo (wi_ssid i) (wi_passwd i) v (wi_security i) (wi_key_mgmt i) (wi_chan i).
Definition with_wi_key v i := mkInfo (wi_ssid i) (wi_passwd i) (wi_bssid i) (wi_security i) v (wi_chan i).
Definition with_wi_chan v i := mkInfo (wi_ssid i) (wi_passwd i) (wi_bssid i) (wi_security i) (wi_key_mgmt i) v.

(** What [value] points to; a null pointer is [VNull]. *)
Inductive cmd_value := VNull | VStr (s : list Z) | VNet (n : wifi_network) | VInt (n : Z).
(** What [res] points to: an [int], a [char], a buffer, a list of access points, a
    [WF_CONNECTED_AP_INFO_S]. *)
Inductive cmd_res := RInt (n : Z) | RChar (n : Z) | RBuf (b : list Z) | RScan (l : list wifi_scan_res) | RInfo (i : WF_CONNECTED_AP_INFO_S).

(** ** [%02x] *)

Definition xdigit (c : Z) : option Z :=
  if digit c then Some (c - 48) else if (97 <=? c) && (c <=? 102) then Some (c - 87) else if (65 <=? c) && (c <=? 70) then Some (c - 55) else None.

Fixpoint hex_digits (w : nat) (s : list Z) (any : bool) (n : Z) : option (Z * list Z) :=
  match w, s with
  | S w, c :: r => match xdigit c with Some d => hex_digits w r true (16 * n + d) | None => if any then Some (n, s) else None end
  | _, _ => if any then Some (n, s) else None
  end.
(** At most two characters: a sign, a [0x] without digits behind it, hexadecimal digits. *)
Definition scan_x2 (s : list Z) : option (Z * list Z) :=
  match skip_space s with
  | 48 :: c :: r => if (c =? 120) || (c =? 88) then Some (0, r) else hex_digits 2 (48 :: c :: r) false 0
  | c :: r =>
    if c =? 45 then x ← hex_digits 1 r false 0; Some (u32 (- fst x), snd x)
    else if c =? 43 then hex_digits 1 r false 0
    else hex_digits 2 (c :: r) false 0
  | [] => None
  end.

(** [sscanf(s, "%02x:%02x:%02x:%02x:%02x:%02x", ...)]: the values that were converted. *)
Fixpoint scan_bytes (n : nat) (s : list Z) : list Z :=
  match n with
  | O => []
  | S n =>
    match scan_x2 s with
    | None => []
    | Some (v, r) => v :: match r with 58 :: r => scan_bytes n r | _ => [] end
    end
  end.
(** [x & 0xFF] of each value *)
Definition low_bytes (vs : list Z) : list Z := (fun v => Z.land v 255) <$> vs.

Section Commands.
Context {K : Type} `{WpaCtrl K}.
Local Abbreviation W := (M K).

(** ** Analysis of the answer *)

(** [for (i = i; !get_line_from_buf(i, line, reply); i++) body]: the body gets the buffer
    [line] and says if it leaves the loop; so does the result. *)
Fixpoint for_lines {A} (fuel : nat) (i : Z) (line reply : list Z) (body : list Z -> A -> W (bool * A)) (a : A) : W (bool * A) :=
  match fuel with
  | O => out_of_fuel
  | S fuel =>
    r <- get_line_from_buf i line reply ;;
    match r with
    | None => ret (false, a)
    | Some line =>
      x <- body line a ;;
      if fst x : bool then ret x else for_lines fuel (i + 1) line reply body (snd x)
    end
  end.

(** [*(int * )res = v] and [*(char * )res = v] *)
Definition put_int (v : Z) (res : cmd_res) : W cmd_res :=
  match res with
  | RInt _ => ret (RInt v)
  | RBuf b => if (4 <=? length b)%nat then ret (RBuf ([u8 v; u8 (v / 2 ^ 8); u8 (v / 2 ^ 16); u8 (v / 2 ^ 24)] ++ drop 4 b)) else fault
  | _ => fault
  end.
Definition put_char (v : Z) (res : cmd_res) : W cmd_res :=
  match res with RChar _ => ret (RChar (swrap 8 v)) | _ => fault end.
(** [memcpy(res, w, n)], [strncpy] of a string without its end *)
Definition put_bytes (w : list Z) (res : cmd_res) : W cmd_res :=
  match res with
  | RBuf b => if (length w <=? length b)%nat then ret (RBuf (w ++ drop (length w) b)) else fault
  | _ => fault
  end.

(** The bodies of the loops; those that read [line] from its start get the string in it. *)
Definition signal_line (line : list Z) (res : cmd_res) : W (bool * cmd_res) :=
  if strstr (cstr line) (lit "RSSI") then
    res <- put_char (atoi (cstr (drop 5 line))) res ;; ret (true, res)
  else ret (false, res).

Definition channel_line (line : list Z) (res : cmd_res) : W (bool * cmd_res) :=
  if strstr (cstr line) (lit "FREQUENCY") then
    res <- put_int (atoi (cstr (drop 10 line))) res ;; ret (true, res)
  else ret (false, res).

Definition status_line (line : list Z) (res : cmd_res) : W (bool * cmd_res) :=
  if strstr line (lit "wpa_state=COMPLETED") then
    res <- put_int WIFI_CONNECTED res ;; ret (true, res)
  else if strstr line (lit "wpa_state=SCANNING") then
    res <- put_int WIFI_SCANING res ;; ret (true, res)
  else
    res <- put_int WIFI_UNCONNECTED res ;; ret (false, res).

Definition list_line (line : list Z) (res : cmd_res) : W (bool * cmd_res) :=
  if negb (strstr line (lit "[DISABLED]")) then
    res <- put_int 1 res ;; ret (true, res)
  else ret (false, res).

(** [strncpy(res, line + 5, strlen(line) - 5)] copies no zero. *)
Definition ssid_line (line : list Z) (res : cmd_res) : W (bool * cmd_res) :=
  if starts (lit "ssid=") line then
    res <- put_bytes (drop 5 line) res ;; ret (false, res)
  else ret (false, res).

(** The values that are not converted are not initialised. *)
Definition bssid_line (line : list Z) (res : cmd_res) : W (bool * cmd_res) :=
  if starts (lit "bssid=") line then
    let vs := scan_bytes 6 (drop 6 line) in
    if (length vs =? 6)%nat then res <- put_bytes (low_bytes vs) res ;; ret (true, res) else fault
  else ret (false, res).

(** [sscanf(s, "%s", buf)] with an array of [n] bytes. *)
Definition scan_word (n : nat) (s old : list Z) : W (list Z) :=
  match scan_s s with Some (w, _) => fits n w (ret w) | None => ret old end.

(** The values [a1] to [a6], [ap_info_s] and what [res] points to. *)
Definition info_line (line : list Z) (st : list Z * WF_CONNECTED_AP_INFO_S * WF_CONNECTED_AP_INFO_S) : W (bool * (list Z * WF_CONNECTED_AP_INFO_S * WF_CONNECTED_AP_INFO_S)) :=
  let '(a, own, out) := st in
  if starts (lit "bssid=") line then
    let vs := scan_bytes 6 (drop 6 line) in
    let a := vs ++ drop (length vs) a in
    let own := with_wi_bssid (low_bytes a) own in
    ret (false, (a, own, with_wi_bssid (wi_bssid own) out))
  else if starts (lit "ssid=") line then
    w <- scan_word 36 (drop 5 line) (wi_ssid own) ;;
    ret (false, (a, with_wi_ssid w own, with_wi_ssid w out))
  else if starts (lit "passphrase=") line then
    w <- scan_word 65 (drop 11 line) (wi_passwd own) ;;
    ret (false, (a, with_wi_passwd w own, with_wi_passwd w out))
  else if starts (lit "key_mgmt=") line then
    w <- scan_word 12 (drop 9 line) (wi_key_mgmt own) ;;
    ret (false, (a, with_wi_key w own, with_wi_key w out))
  else if starts (lit "freq=") line then
    let own := match scan_d (drop 5 line) with Some (n, _) => with_wi_chan n own | None => own end in
    ret (false, (a, own, with_wi_chan (s32 (Z.quot (s32 (wi_chan own - 2412)) 5 + 1)) out))
  else ret (true, (a, own, own)).

Definition wifi_reply_analyse (cmd : wifi_cmd) (reply : list Z) (res : cmd_res) (res_len : Z) : W (Z * cmd_res) :=
  let line := replicate 256 0 in
  let fuel := S (length reply) in
  match wifi_command_pack_sum cmd with
  | WIFI_COMMAND_ACK_OK =>
    let n := if 2 <? res_len then 2 else res_len in
    res <- put_int (if starts (take (Z.to_nat n) (lit "OK")) (cstr reply) then 0 else -1) res ;;
    ret (0, res)
  | WIFI_COMMAND_ACK_INT =>
    match cmd with
    | WIFI_COMMAND_GET_SIGNAL =>
      x <- for_lines fuel 0 line reply signal_line res ;;
      if fst x : bool then ret (0, snd x) else res <- put_char 0 (snd x) ;; ret (0, res)
    | WIFI_COMMAND_GET_CHANNEL =>
      x <- for_lines fuel 0 line reply channel_line res ;;
      if fst x : bool then ret (0, snd x) else res <- put_int 0 (snd x) ;; ret (0, res)
    | WIFI_COMMAND_GET_STATUS =>
      x <- for_lines fuel 0 line reply (fun line => status_line (cstr line)) res ;; ret (0, snd x)
    | WIFI_COMMAND_LISTNETWORK =>
      res <- put_int 0 res ;;
      x <- for_lines fuel 1 line reply (fun line => list_line (cstr line)) res ;; ret (0, snd x)
    | _ =>
      (** [sscanf] of an answer without a word is an end of file, not a mismatch. *)
      match scan_d (cstr reply) with
      | Some (n, _) => res <- put_int n res ;; ret (0, res)
      | None => match skip_space (cstr reply) with [] => ret (0, res) | _ => res <- put_int (-1) res ;; ret (0, res) end
      end
    end
  | WIFI_COMMAND_ACK_STRING =>
    match cmd, res with
    | WIFI_COMMAND_SCAN_R, RScan l => l <- wpa_get_scan_r reply l ;; ret (0, RScan l)
    | WIFI_COMMAND_SCAN_R, _ => fault
    | WIFI_COMMAND_GET_CURRENT_SSID, _ => x <- for_lines fuel 0 line reply (fun line => ssid_line (cstr line)) res ;; ret (0, snd x)
    | WIFI_COMMAND_GET_BSSID, _ => x <- for_lines fuel 0 line reply (fun line => bssid_line (cstr line)) res ;; ret (0, snd x)
    | WIFI_COMMAND_GET_WIFI_INFO, RInfo i =>
      x <- for_lines fuel 0 line reply (fun line => info_line (cstr line)) (replicate 6 0, zero_info, i) ;; ret (0, RInfo (snd (snd x)))
    | WIFI_COMMAND_GET_WIFI_INFO, _ => fault
    | _, _ => ret (0, res)
    end
  end.

(** ** Sending a command *)

(** A command printed into [command], which has 128 bytes. *)
Definition printed (w : list Z) : W (list Z) := fits 128 w (ret w).
Definition quoted (w : list Z) : list Z := [34] ++ w ++ [34].

(** The parameters of a WEP command, ["<id>+<text>"]: copied into [wep_command], which has
    36 bytes, and split at the plus. *)
Definition wep_split (value : list Z) : W (Z * list Z) :=
  if (length value <? 36)%nat then
    match span (fun c => negb (c =? 43)) value with
    | (id, _ :: params) => ret (atoi id, params)
    | (_, []) => fault
    end
  else fault.

(** The switch; [None] where the function returns -4. *)
Definition make_command (cmd : wifi_cmd) (value : cmd_value) : W (option (list Z)) :=
  let some w := c <- printed w ;; ret (Some c) in
  match cmd, value with
  | WIFI_COMMAND_SCAN, VNull => some (lit "SCAN")
  | WIFI_COMMAND_SCAN, VStr v => some (lit "SCAN " ++ v)
  | WIFI_COMMAND_ADDNETWORK, _ => some (lit "ADD_NETWORK")
  | WIFI_COMMAND_SETNETWORK_SSID, VNet n => some (lit "SET_NETWORK " ++ dec (n_id n) ++ lit " ssid " ++ quoted (n_ssid n))
  | WIFI_COMMAND_SETNETWORK_SCANSSID, VNet n => some (lit "SET_NETWORK " ++ dec (n_id n) ++ lit " scan_ssid 1")
  | WIFI_COMMAND_SETNETWORK_PSK, VNet n =>
    if (length (n_psk n) <? PSK_WPA_HEX_LEN)%nat then some (lit "SET_NETWORK " ++ dec (n_id n) ++ lit " psk " ++ quoted (n_psk n))
    else some (lit "SET_NETWORK " ++ dec (n_id n) ++ lit " psk " ++ n_psk n)
  | WIFI_COMMAND_SETNETWORK_AUTHALG, VStr v =>
    x <- wep_split v ;; some (lit "SET_NETWORK " ++ dec (fst x) ++ lit " auth_alg " ++ snd x)
  | WIFI_COMMAND_SETNETWORK_WEPKEY0, VNet n =>
    let len := length (n_psk n) in
    if ((len =? 5) || (len =? 13))%nat then some (lit "SET_NETWORK " ++ dec (n_id n) ++ lit " wep_key0 " ++ quoted (n_psk n))
    else if ((len =? 10) || (len =? 26))%nat then some (lit "SET_NETWORK " ++ dec (n_id n) ++ lit " wep_key0 " ++ n_psk n)
    else some []
  | WIFI_COMMAND_SETNETWORK_WEPTXKEYID, VStr v =>
    x <- wep_split v ;; some (lit "SET_NETWORK " ++ dec (fst x) ++ lit " wep_tx_keyidx " ++ snd x)
  | WIFI_COMMAND_SETNETWORK_KEYMETH, VNet n =>
    match n_key_mgmt n with
    | WIFI_KEY_NONE | WIFI_KEY_WEP => some (lit "SET_NETWORK " ++ dec (n_id n) ++ lit " key_mgmt NONE")
    | _ => ret None
    end
  | WIFI_COMMAND_ENABLENETWORK, VInt n => if negb (n =? WPA_ALL_NETWORK) then some (lit "ENABLE_NETWORK  " ++ dec n) else some (lit "ENABLE_NETWORK all")
  | WIFI_COMMAND_SELECTNETWORK, VInt n => some (lit "SELECT_NETWORK " ++ dec n)
  | WIFI_COMMAND_REATTACH, _ => some (lit "REATTACH")
  | WIFI_COMMAND_RECONFIGURE, _ => some (lit "RECONFIGURE")
  | WIFI_COMMAND_GET_SIGNAL, _ | WIFI_COMMAND_GET_CHANNEL, _ => some (lit "SIGNAL_POLL")
  | WIFI_COMMAND_GET_CURRENT_SSID, _ | WIFI_COMMAND_GET_BSSID, _ | WIFI_COMMAND_GET_STATUS, _ | WIFI_COMMAND_GET_WIFI_INFO, _ => some (lit "STATUS")
  | WIFI_COMMAND_SAVECONFIG, _ => some (lit "SAVE_CONFIG")
  | WIFI_COMMAND_SCAN_R, _ => some (lit "SCAN_RESULTS")
  | WIFI_COMMAND_LISTNETWORK, _ => some (lit "LIST_NETWORKS")
  | WIFI_COMMAND_DISABLENETWORK, VInt n => if negb (n =? WPA_ALL_NETWORK) then some (lit "DISABLE_NETWORK " ++ dec n) else some (lit "DISABLE_NETWORK all")
  | WIFI_COMMAND_DISCONNECT, _ => some (lit "DISCONNECT")
  | WIFI_COMMAND_RECONNCET, _ => some (lit "RECONNCET")
  | WIFI_COMMAND_REMOVENETWORK, VInt n => if negb (n =? WPA_ALL_NETWORK) then some (lit "REMOVE_NETWORK " ++ dec n) else some (lit "REMOVE_NETWORK all")
  | WIFI_COMMAND_BLACKLIST_CLEAR, _ => some (lit "BLACKLIST clear")
  | WIFI_COMMAND_SET_COUNTRY, VStr v => some (lit "set country " ++ v)
  | WIFI_COMMAND_GET_COUNTRY, _ => some (lit "get country")
  | _, _ => fault
  end.

(** [reply] has 4096 bytes, which are zero before the request. *)
Definition reply_buffer (answer : list Z) : list Z := answer ++ replicate (4096 - length answer) 0.

(** The result, and what [res] points to afterwards. *)
Definition wifi_send_command (cmd : wifi_cmd) (value : cmd_value) (res : cmd_res) (res_len : Z) : W (Z * cmd_res) :=
  command <- make_command cmd value ;;
  match command with
  | None => ret (-4, res)
  | Some command =>
    conn <- wpa_ctrl_open ;;
    if negb conn then ret (-1, res)
    else
      r <- wpa_ctrl_request command ;;
      res <- (if fst r <? 0 then ret res
              else x <- wifi_reply_analyse cmd (reply_buffer (snd r)) res res_len ;; ret (snd x)) ;;
      wpa_ctrl_close ;;;
      ret (0, res)
  end.

(** The commands whose answer is an [int]: the result and the [int]. *)
Definition send_int (cmd : wifi_cmd) (value : cmd_value) (res : Z) : W (Z * Z) :=
  x <- wifi_send_command cmd value (RInt res) 4 ;;
  match snd x with RInt n => ret (fst x, n) | _ => fault end.

(** ** The functions of [wpa_command.h] *)

Definition wifi_scan : W Z :=
  x <- send_int WIFI_COMMAND_SCAN VNull 0 ;;
  if (fst x =? 0) && (snd x =? 0) then ret 0 else ret (-1).

(** [params] has 128 bytes, [channel] six. *)
Fixpoint scan_params (freq : list Z) (params : list Z) : W (list Z) :=
  match freq with
  | [] => ret params
  | f :: freq =>
    channel <- fits 6 (dec f ++ [44]) (ret (dec f ++ [44])) ;;
    params <- fits 128 (params ++ channel) (ret (params ++ channel)) ;;
    scan_params freq params
  end.

Definition wifi_scan_channel (num : Z) (freq : option (list Z)) : W Z :=
  match freq with
  | None => ret (-1)
  | Some freq =>
    if 21 <? num then ret (-1)
    else if num =? 0 then wifi_scan
    else if Z.of_nat (length freq) <? num then fault
    else
      params <- scan_params (take (Z.to_nat num) freq) (lit "freq=") ;;
      let params := take (length params - 1) params in
      x <- send_int WIFI_COMMAND_SCAN (VStr params) 0 ;;
      if (fst x =? 0) && (snd x =? 0) then ret 0 else ret (-1)
  end.

Definition wifi_get_status (status : Z) : W (Z * Z) :=
  x <- send_int WIFI_COMMAND_GET_STATUS VNull status ;;
  if fst x <? 0 then ret (-1, snd x) else ret (0, snd x).

Definition wifi_get_current_channel (channel : Z) : W (Z * Z) :=
  x <- send_int WIFI_COMMAND_GET_CHANNEL VNull channel ;;
  if fst x <? 0 then ret (-1, snd x) else ret (0, snd x).

Definition wifi_get_listnetwork (n : Z) : W (Z * Z) :=
  x <- send_int WIFI_COMMAND_LISTNETWORK VNull n ;;
  if fst x <? 0 then ret (-1, snd x) else ret (0, snd x).

Definition wifi_get_signal (sig : Z) : W (Z * Z) :=
  x <- wifi_send_command WIFI_COMMAND_GET_SIGNAL VNull (RChar sig) 4 ;;
  match snd x with
  | RChar sig => if fst x <? 0 then ret (-1, sig) else ret (0, sig)
  | _ => fault
  end.

Definition wifi_get_ap_info (ap_info_s : WF_CONNECTED_AP_INFO_S) : W (Z * WF_CONNECTED_AP_INFO_S) :=
  x <- wifi_send_command WIFI_COMMAND_GET_WIFI_INFO VNull (RInfo zero_info) 128 ;;
  match snd x with
  | RInfo i => if fst x <? 0 then ret (-1, ap_info_s) else ret (0, i)
  | _ => fault
  end.

(** A command on the network [id], or on all of them. *)
Definition id_command (cmd : wifi_cmd) (id : Z) : W Z :=
  x <- send_int cmd (VInt id) 0 ;;
  if (fst x <? 0) || negb (snd x =? 0) then ret (-1) else ret 0.
Definition wifi_disable_network (id : Z) : W Z := id_command WIFI_COMMAND_DISABLENETWORK id.
Definition wifi_disable_all_network : W Z := wifi_disable_network WPA_ALL_NETWORK.
Definition wifi_remove_network (id : Z) : W Z := id_command WIFI_COMMAND_REMOVENETWORK id.
Definition wifi_remove_all_network : W Z := wifi_remove_network WPA_ALL_NETWORK.
Definition wifi_enable_network (id : Z) : W Z := id_command WIFI_COMMAND_ENABLENETWORK id.
Definition wifi_enable_all_network : W Z := wifi_enable_network WPA_ALL_NETWORK.

(** A command without a parameter. *)
Definition plain_command (cmd : wifi_cmd) : W Z :=
  x <- send_int cmd VNull 0 ;;
  if (fst x =? 0) && (snd x =? 0) then ret 0 else ret (-1).
Definition wifi_reconfigure : W Z := plain_command WIFI_COMMAND_RECONFIGURE.
Definition wifi_blacklist_clear : W Z := plain_command WIFI_COMMAND_BLACKLIST_CLEAR.
Definition wifi_disconnect_network : W Z := plain_command WIFI_COMMAND_DISCONNECT.
Definition wifi_reconnect_network : W Z := plain_command WIFI_COMMAND_RECONNCET.

Definition wifi_save_network : W Z :=
  r <- wifi_enable_all_network ;;
  if r <? 0 then ret r
  else
    st <- wifi_get_status 0 ;;
    if (fst st =? 0) && (snd st =? WIFI_CONNECTED) then
      x <- send_int WIFI_COMMAND_SAVECONFIG VNull 0 ;;
      if snd x =? 0 then ret 0 else ret (-1)
    else ret (-1).

(** The buffer of the caller has [SSID_DEFAULT_LEN] bytes, which are cleared first. *)
Definition SSID_DEFAULT_LEN : nat := 128.
Definition wifi_get_current_ssid (ssid : list Z) : W (Z * list Z) :=
  if (length ssid <? SSID_DEFAULT_LEN)%nat then fault
  else
    x <- wifi_send_command WIFI_COMMAND_GET_CURRENT_SSID VNull (RBuf (replicate SSID_DEFAULT_LEN 0 ++ drop SSID_DEFAULT_LEN ssid)) 128 ;;
    match snd x with RBuf b => ret (if fst x =? 0 then 0 else -1, b) | _ => fault end.

Definition wifi_get_current_connect_ap_bssid (bssid : list Z) : W (Z * list Z) :=
  if (length bssid <? 6)%nat then fault
  else
    x <- wifi_send_command WIFI_COMMAND_GET_BSSID VNull (RBuf (replicate 6 0 ++ drop 6 bssid)) 6 ;;
    match snd x with RBuf b => ret (if fst x <? 0 then -1 else 0, b) | _ => fault end.

Definition wifi_set_country (country : list Z) : W Z :=
  x <- wifi_send_command WIFI_COMMAND_SET_COUNTRY (VStr country) (RBuf (replicate 32 0)) 32 ;;
  ret (if fst x <? 0 then -1 else 0).

Definition wifi_get_country (country : list Z) : W (Z * list Z) :=
  x <- wifi_send_command WIFI_COMMAND_GET_COUNTRY VNull (RBuf country) (Z.of_nat (length (cstr country))) ;;
  match snd x with RBuf b => ret (if fst x <? 0 then -1 else 0, b) | _ => fault end.

(** ** Scanning and joining *)

(** [list->num], and the array [list->ssid] points to: [None] when it does not exist
    any more. *)
Record wifi_scan_list := mkList { sl_num : Z; sl_ssid : option (list wifi_scan_res) }.

(** The array is a local variable of the function. *)
Definition wifi_get_scan_result (l : option wifi_scan_list) : W (Z * option wifi_scan_list) :=
  match l with
  | None => ret (-1, None)
  | Some _ =>
    x <- wifi_send_command WIFI_COMMAND_SCAN_R VNull (RScan []) 20480 ;;
    match snd x with
    | RScan aps =>
      let l := Some (mkList (Z.of_nat (length aps)) None) in
      if fst x <? 0 then ret (-1, l) else ret (0, l)
    | _ => fault
    end
  end.

(** The loop, which asks once more than [timeout] times; the time that it sleeps is not
    part of the model. *)
Fixpoint block_scan_loop (fuel : nat) (l : option wifi_scan_list) (status timeout : Z) : W (Z * option wifi_scan_list) :=
  match fuel with
  | O => out_of_fuel
  | S fuel =>
    st <- wifi_get_status status ;;
    if fst st <? 0 then ret (-1, l)
    else
      let status := snd st in
      if negb (status =? WIFI_SCANING) || (timeout =? 0) then
        x <- wifi_get_scan_result l ;;
        if fst x <? 0 then ret (-1, snd x) else ret (0, snd x)
      else block_scan_loop fuel l status (timeout - 1)
  end.

Definition wifi_get_block_scan_result (l : option wifi_scan_list) (timeout : Z) : W (Z * option wifi_scan_list) :=
  _ <- wifi_scan ;;
  block_scan_loop (S (Z.to_nat timeout)) l 0 timeout.

(** The loop of [wifi_join_network] over the access points that were found. *)
Fixpoint wep_loop (n : nat) (i : nat) (l : wifi_scan_list) (net : wifi_network) : W wifi_network :=
  match n with
  | O => ret net
  | S n =>
    match sl_ssid l with
    | None => fault
    | Some aps =>
      match aps !! i with
      | None => fault
      | Some ap =>
        wep_loop n (S i) l (if bool_decide (ap_key_mgmt ap = WIFI_KEY_WEP) && starts (n_ssid net) (ap_ssid ap) then with_net_key WIFI_KEY_WEP net else net)
      end
    end
  end.

Definition wep_length (n : nat) : bool :=
  ((n =? 5) || (n =? 13) || (n =? 16) || (n =? 10) || (n =? 26) || (n =? 32))%nat.

(** A command of the sequence: the function ends when it fails or is refused. *)
Definition step (cmd : wifi_cmd) (value : cmd_value) (res : Z) (k : Z -> W Z) : W Z :=
  x <- send_int cmd value res ;;
  if (fst x <? 0) || negb (snd x =? 0) then ret (-2) else k (snd x).

(** [sprintf(wep_params, "%d+%s", net->id, p)], an array of 36 bytes *)
Definition wep_param (net : wifi_network) (p : list Z) : W cmd_value :=
  let w := dec (n_id net) ++ [43] ++ p in fits 36 w (ret (VStr w)).

(** The part that sets the key. *)
Definition set_key (net : wifi_network) (res : Z) (k : Z -> W Z) : W Z :=
  match n_key_mgmt net with
  | WIFI_KEY_NONE => step WIFI_COMMAND_SETNETWORK_KEYMETH (VNet net) res k
  | WIFI_KEY_WEP =>
    step WIFI_COMMAND_SETNETWORK_KEYMETH (VNet net) res (fun res =>
    p <- wep_param net (lit "SHARED OPEN") ;;
    step WIFI_COMMAND_SETNETWORK_AUTHALG p res (fun res =>
    step WIFI_COMMAND_SETNETWORK_WEPKEY0 (VNet net) res (fun res =>
    p <- wep_param net (lit "0") ;;
    step WIFI_COMMAND_SETNETWORK_WEPTXKEYID p res k)))
  | _ => step WIFI_COMMAND_SETNETWORK_PSK (VNet net) res k
  end.

(** The function from the clearing of the blacklist on. *)
Definition join_commands (net : wifi_network) : W (Z * wifi_network) :=
  _ <- wifi_blacklist_clear ;;
  x <- send_int WIFI_COMMAND_ADDNETWORK VNull (n_id net) ;;
  let net := with_id (snd x) net in
  if fst x <? 0 then ret (-1, net)
  else
    r <- step WIFI_COMMAND_SETNETWORK_SSID (VNet net) 0 (fun res =>
         set_key net res (fun res =>
         step WIFI_COMMAND_SETNETWORK_SCANSSID (VNet net) res (fun res =>
         step WIFI_COMMAND_SELECTNETWORK (VInt (n_id net)) res (fun _ => ret 0)))) ;;
    ret (r, net).

Definition wifi_join_network (net : wifi_network) : W (Z * wifi_network) :=
  net <- (if wep_length (length (n_psk net)) then
            x <- wifi_get_block_scan_result (Some (mkList 0 (Some []))) 3 ;;
            match snd x with
            | Some l => wep_loop (Z.to_nat (sl_num l)) 0 l net
            | None => fault
            end
          else ret net) ;;
  join_commands net.
End Commands.
