(* ===== verification/WpaCommandProps.v ===== *)
(** * Commands to wpa_supplicant: properties of [WpaCommand.v]

    Which requests the functions make, in which order, and what they report. *)

From Stdlib Require Import String.
From S2P Require Import Prelude WpaParse WpaScan WpaCommand.

(** ** Conversations *)

(** An answer that the code takes for a success: one that starts with [OK], or none. *)
Definition accepted (a : option (list Z)) : bool :=
  match a with None => true | Some a => starts (lit "OK") (cstr a) end.

(** What happens for a script of commands, and if all of it was accepted: the script ends
    where there is no connection, or where the answer is a refusal, and nowhere else. *)
Inductive conversation : list (list Z) -> list wpa_ev -> bool -> Prop :=
| conv_done : conversation [] [] true
| conv_closed c cs : conversation (c :: cs) [NoConnection] false
| conv_refused c cs a : accepted (Some a) = false -> conversation (c :: cs) [Asked c (Some a)] false
| conv_next c cs a l b : accepted a = true -> conversation cs l b -> conversation (c :: cs) (Asked c a :: l) b.

#[local] Arguments dec_loop : simpl never.
#[local] Arguments lit : simpl never.

Lemma cstr_zeros a n : cstr (a ++ replicate n 0) = cstr a.
Proof. induction a as [|c a IH]; cbn [app cstr]; [by destruct n|]. by rewrite IH. Qed.

(** ** The analysis of answers changes nothing *)

Section Analysis.
Context {S_ : Type}.

Lemma rd_readonly buf i : readonly (S := S_) (rd buf i).
Proof. unfold rd. solve_readonly. Qed.
#[local] Hint Resolve rd_readonly : tuya.
Lemma skip_readonly fuel buf : forall j, readonly (S := S_) (skip_loop fuel buf j).
Proof. induction fuel as [|fuel IH]; intros j; cbn [skip_loop]; solve_readonly. Qed.
#[local] Hint Resolve skip_readonly : tuya.
Lemma get_line_loop_readonly fuel i line buf : forall a b e, readonly (S := S_) (get_line_loop fuel i line buf a b e).
Proof. induction fuel as [|fuel IH]; intros a b e; cbn [get_line_loop]; solve_readonly. Qed.
Lemma get_line_readonly i line buf : readonly (S := S_) (get_line_from_buf i line buf).
Proof. apply get_line_loop_readonly. Qed.
#[local] Hint Resolve get_line_readonly : tuya.
Lemma fits_readonly {R} n w (k : M S_ R) : readonly k -> readonly (fits n w k).
Proof. intros Hk. unfold fits. solve_readonly. Qed.
#[local] Hint Resolve fits_readonly : tuya.
Lemma scan_fields_readonly line ap key : readonly (S := S_) (scan_fields line ap key).
Proof. unfold scan_fields. repeat (case_match; [apply fits_readonly || idtac|solve_readonly]); solve_readonly. Qed.
Lemma reduce_readonly l a : readonly (S := S_) (wpa_reduce_repeat_ssid l a).
Proof. unfold wpa_reduce_repeat_ssid. solve_readonly. Qed.
#[local] Hint Resolve scan_fields_readonly reduce_readonly : tuya.
Lemma scan_r_loop_readonly fuel reply : forall i line key ap l, readonly (S := S_) (scan_r_loop fuel i line key reply ap l).
Proof. induction fuel as [|fuel IH]; intros i line key ap l; cbn [scan_r_loop]; solve_readonly. Qed.
Lemma scan_r_readonly reply l : readonly (S := S_) (wpa_get_scan_r reply l).
Proof. apply scan_r_loop_readonly. Qed.
#[local] Hint Resolve scan_r_readonly : tuya.
Lemma for_lines_readonly {A} reply (body : list Z -> A -> M S_ (bool * A)) : (forall l a, readonly (body l a)) -> forall fuel i line (a : A), readonly (for_lines fuel i line reply body a).
Proof. intros Hb. induction fuel as [|fuel IH]; intros i line a; cbn [for_lines]; solve_readonly. Qed.
Lemma put_int_readonly v res : readonly (S := S_) (put_int v res).
Proof. unfold put_int. solve_readonly. Qed.
Lemma put_char_readonly v res : readonly (S := S_) (put_char v res).
Proof. unfold put_char. solve_readonly. Qed.
Lemma put_bytes_readonly w res : readonly (S := S_) (put_bytes w res).
Proof. unfold put_bytes. solve_readonly. Qed.
Lemma scan_word_readonly n w old : readonly (S := S_) (scan_word n w old).
Proof. unfold scan_word. solve_readonly. Qed.
#[local] Hint Resolve put_int_readonly put_char_readonly put_bytes_readonly scan_word_readonly : tuya.

Lemma analyse_readonly cmd reply res n : readonly (S := S_) (wifi_reply_analyse cmd reply res n).
Proof.
  unfold wifi_reply_analyse, signal_line, channel_line, status_line, list_line, ssid_line, bssid_line, info_line.
  destruct cmd; cbn [wifi_command_pack_sum]; repeat first [progress intros|solve [eauto with tuya]|apply for_lines_readonly|apply readonly_bind|case_match].
Qed.
End Analysis.

Section Props.
Context {K : Type} `{WpaCtrl K}.
Implicit Types (k : K).

(** What happened since [k]. *)
Definition grew k k' (l : list wpa_ev) : Prop := wpa_log k' = wpa_log k ++ l.

Lemma grew_nil k : grew k k [].
Proof. unfold grew. by rewrite app_nil_r. Qed.
Lemma grew_app k k1 k2 l1 l2 : grew k k1 l1 -> grew k1 k2 l2 -> grew k k2 (l1 ++ l2).
Proof. unfold grew. intros E1 E2. by rewrite E2, E1, app_assoc. Qed.

Lemma wp_and {A} (c : M K A) (P Q : A -> K -> Prop) k : wp c P k -> wp c Q k -> wp c (fun a k' => P a k' /\ Q a k') k.
Proof. unfold wp. by destruct (c k). Qed.

(** One command: no connection, a lost request, or an answer that was analysed; [R] is what
    is known of the answers. *)
Lemma send_command_spec (R : list Z -> Prop) cmd value res res_len c k (Q : Z * cmd_res -> K -> Prop) : make_command cmd value k = Ret (Some c) k ->
  (forall c k, wpa_conn k = true -> wp (wpa_ctrl_request c) (fun r _ => R (snd r)) k) ->
  (forall k', grew k k' [NoConnection] -> Q (-1, res) k') ->
  (forall k', grew k k' [Asked c None] -> Q (0, res) k') ->
  (forall a k1, grew k k1 [Asked c (Some a)] -> R a ->
     wp (wifi_reply_analyse cmd (reply_buffer a) res res_len) (fun x k2 => forall k3, wpa_log k3 = wpa_log k2 -> Q (0, snd x) k3) k1) ->
  wp (wifi_send_command cmd value res res_len) Q k.
Proof.
  intros Hc HR H1 H2 H3. unfold wifi_send_command. apply wp_bind. unfold wp at 1. rewrite Hc. apply wp_bind. eapply wp_mono; [apply wpa_open_ok|]. cbv beta. intros conn k1 [E1 Hconn].
  destruct conn; cbn [negb]; [|by apply wp_ret, H1]. rewrite app_nil_r in E1. specialize (Hconn eq_refl). apply wp_bind. eapply wp_mono; [apply wp_and; [by apply wpa_request_ok|by apply HR]|]. cbv beta. intros [n a] k2 [(C2 & E2 & _) Hl]. cbn [fst snd] in *. rewrite E1 in E2.
  apply wp_bind. destruct (n <? 0).
  - apply wp_ret, wp_bind. eapply wp_mono; [by apply wpa_close_ok|]. cbv beta. intros _ k3 E3. apply wp_ret, H2. unfold grew. congruence.
  - apply wp_bind. eapply wp_mono; [apply wp_readonly; [apply analyse_readonly|apply (H3 a k2 E2 Hl)]|]. cbv beta. intros x k3 [Hx ->]. apply wp_ret, wp_bind. eapply wp_mono; [by apply wpa_close_ok|]. cbv beta. intros _ k4 E4. by apply wp_ret, Hx.
Qed.

(** Nothing is known of the answers. *)
Lemma any_answer c k : wpa_conn k = true -> wp (wpa_ctrl_request c) (fun _ _ => True) k.
Proof. intros Hk. eapply wp_mono; [by apply wpa_request_ok|done]. Qed.

(** A command that is answered by [OK]. *)
Definition ok_result (res : Z) (a : option (list Z)) : Z := match a with None => res | Some _ => if accepted a then 0 else -1 end.

Lemma send_int_spec cmd value res c k (Q : Z * Z -> K -> Prop) : wifi_command_pack_sum cmd = WIFI_COMMAND_ACK_OK -> make_command cmd value k = Ret (Some c) k ->
  (forall k', grew k k' [NoConnection] -> Q (-1, res) k') ->
  (forall a k', grew k k' [Asked c a] -> Q (0, ok_result res a) k') ->
  wp (send_int cmd value res) Q k.
Proof.
  intros Hack Hc H1 H2. unfold send_int. apply wp_bind. eapply (send_command_spec (fun _ => True)); [exact Hc|exact any_answer|intros k' Hg; by apply wp_ret, H1|intros k' Hg; by apply wp_ret, (H2 None)|].
  intros a k1 Hg _. unfold wifi_reply_analyse. rewrite Hack. change (if 2 <? 4 then 2 else 4) with 2. change (take (Z.to_nat 2) (lit "OK")) with (lit "OK"). unfold reply_buffer. rewrite cstr_zeros.
  cbn [put_int]. repeat wp_step. intros k3 E3. apply wp_ret. apply (H2 (Some a)). unfold grew in *. congruence.
Qed.

Lemma step_spec cmd value c k (f : Z -> M K Z) (Q : Z -> K -> Prop) : wifi_command_pack_sum cmd = WIFI_COMMAND_ACK_OK -> make_command cmd value k = Ret (Some c) k ->
  (forall k', grew k k' [NoConnection] -> Q (-2) k') ->
  (forall a k', grew k k' [Asked c (Some a)] -> accepted (Some a) = false -> Q (-2) k') ->
  (forall a k', grew k k' [Asked c a] -> accepted a = true -> wp (f 0) Q k') ->
  wp (step cmd value 0 f) Q k.
Proof.
  intros Hack Hc H1 H2 H3. unfold step. apply wp_bind. eapply send_int_spec; [done|exact Hc|intros k' Hg; apply wp_ret; by apply H1|].
  intros a k' Hg. cbn [fst snd]. destruct a as [a|]; cbn [ok_result]; [|by apply (H3 None)]. destruct (accepted (Some a)) eqn:Ea; [by apply (H3 (Some a))|]. by apply wp_ret, (H2 a).
Qed.

(** What the rest of a function does when each of its steps is a command of a script. *)
Definition converses (script : list (list Z)) (r : Z) k k' : Prop := exists l, grew k k' l /\ conversation script l (r =? 0) /\ (r = 0 \/ r = -2).

Lemma step_converses cmd value c cs k (f : Z -> M K Z) : wifi_command_pack_sum cmd = WIFI_COMMAND_ACK_OK -> make_command cmd value k = Ret (Some c) k ->
  (forall k', wp (f 0) (fun r => converses cs r k') k') -> wp (step cmd value 0 f) (fun r => converses (c :: cs) r k) k.
Proof.
  intros Hack Hc Hf. eapply (step_spec _ _ c); [done|exact Hc|..].
  - intros k' Hg. exists [NoConnection]. split; [done|]. split; [constructor|by right].
  - intros a k' Hg Ha. exists [Asked c (Some a)]. split; [done|]. split; [by constructor|by right].
  - intros a k' Hg Ha. eapply wp_mono; [apply Hf|]. cbv beta. intros r k2 (l & Hl & Hcv & Hr). exists (Asked c a :: l). split; [exact (grew_app _ _ _ _ _ Hg Hl)|]. split; [by constructor|done].
Qed.

(** ** Single commands *)

(** The function of one command: it reports 0 when the command was accepted, -1 when it
    was refused or there was no connection. *)
Definition calls (c : list Z) (f : M K Z) : Prop :=
  forall k, wp f (fun r k' => exists l, grew k k' l /\ conversation [c] l (r =? 0) /\ (r = 0 \/ r = -1)) k.

Lemma calls_intro cmd value c (f : Z * Z -> Z) : wifi_command_pack_sum cmd = WIFI_COMMAND_ACK_OK -> (forall k, make_command cmd value k = Ret (Some c) k) ->
  f (-1, 0) = -1 -> f (0, 0) = 0 -> f (0, -1) = -1 -> calls c (x <- send_int cmd value 0 ;; ret (f x)).
Proof.
  intros Hack Hc F1 F2 F3 k. apply wp_bind. eapply send_int_spec; [done|apply Hc|..].
  - intros k' Hg. apply wp_ret. rewrite F1. exists [NoConnection]. split; [done|]. split; [constructor|by right].
  - intros a k' Hg. apply wp_ret. exists [Asked c a]. split; [done|]. destruct a as [a|]; cbn [ok_result]; [|rewrite F2; split; [by repeat constructor|by left]].
    destruct (accepted (Some a)) eqn:Ea; [rewrite F2; split; [by repeat constructor|by left]|rewrite F3; split; [by constructor|by right]].
Qed.

Lemma calls_ext c (f g : M K Z) : (forall k, f k = g k) -> calls c f -> calls c g.
Proof. intros E Hf k. unfold wp. rewrite <-E. apply Hf. Qed.

Lemma plain_calls cmd c : wifi_command_pack_sum cmd = WIFI_COMMAND_ACK_OK -> (forall k, make_command cmd VNull k = Ret (Some c) k) -> calls c (plain_command cmd).
Proof.
  intros Hack Hc. eapply calls_ext; [|apply (calls_intro cmd VNull c (fun x => if (fst x =? 0) && (snd x =? 0) then 0 else -1)); done].
  intros k. unfold plain_command, bind. destruct (send_int cmd VNull 0 k) as [x k'| |]; [by destruct (_ && _)|done|done].
Qed.

Lemma id_calls cmd id c : wifi_command_pack_sum cmd = WIFI_COMMAND_ACK_OK -> (forall k, make_command cmd (VInt id) k = Ret (Some c) k) -> calls c (id_command cmd id).
Proof.
  intros Hack Hc. eapply calls_ext; [|apply (calls_intro cmd (VInt id) c (fun x => if (fst x <? 0) || negb (snd x =? 0) then -1 else 0)); done].
  intros k. unfold id_command, bind. destruct (send_int cmd (VInt id) 0 k) as [x k'| |]; [by destruct (_ || _)|done|done].
Qed.

Lemma printed_ok w k : (length w < 128)%nat -> (c <- printed w ;; ret (Some c)) k = Ret (Some w) k.
Proof. intros Hw. unfold printed, bind. by rewrite fits_ok. Qed.

Definition on_network (verb sep : list Z) (id : Z) : list Z := if id =? WPA_ALL_NETWORK then verb ++ lit " all" else verb ++ sep ++ dec id.

Lemma on_network_ok verb sep id k : int id -> (length verb + length sep < 100)%nat ->
  (if negb (id =? WPA_ALL_NETWORK) then c <- printed (verb ++ sep ++ dec id) ;; ret (Some c) else c <- printed (verb ++ lit " all") ;; ret (Some c)) k = Ret (Some (on_network verb sep id)) k.
Proof.
  intros Hid Hl. unfold on_network. destruct (dec_text id Hid) as [_ Hd]. destruct (id =? WPA_ALL_NETWORK); cbn [negb]; apply printed_ok; rewrite !length_app; [change (length (lit " all")) with 4%nat|]; lia.
Qed.

(** The functions of a single command make exactly one request, of that command, or
    none when there is no connection; they report 0 when the answer starts with [OK],
    and -1 when it does not or when there is no connection.  A request that gets no
    answer counts as accepted, and is reported as a success. *)
Theorem single_commands_correct id : int id -> Forall (fun p => calls (fst p) (snd p))
  [(lit "SCAN", wifi_scan); (lit "RECONFIGURE", wifi_reconfigure); (lit "BLACKLIST clear", wifi_blacklist_clear);
   (lit "DISCONNECT", wifi_disconnect_network); (lit "RECONNCET", wifi_reconnect_network);
   (on_network (lit "DISABLE_NETWORK") (lit " ") id, wifi_disable_network id);
   (on_network (lit "REMOVE_NETWORK") (lit " ") id, wifi_remove_network id);
   (on_network (lit "ENABLE_NETWORK") (lit "  ") id, wifi_enable_network id);
   (lit "DISABLE_NETWORK all", wifi_disable_all_network); (lit "REMOVE_NETWORK all", wifi_remove_all_network);
   (lit "ENABLE_NETWORK all", wifi_enable_all_network)].
Proof.
  intros Hid. repeat (apply Forall_cons; split); [..|constructor]; cbn [fst snd].
  1-5: by apply plain_calls.
  1: apply id_calls; [done|]; intros k; refine (on_network_ok (lit "DISABLE_NETWORK") (lit " ") id k Hid _); vm_compute; lia.
  1: apply id_calls; [done|]; intros k; refine (on_network_ok (lit "REMOVE_NETWORK") (lit " ") id k Hid _); vm_compute; lia.
  1: apply id_calls; [done|]; intros k; refine (on_network_ok (lit "ENABLE_NETWORK") (lit "  ") id k Hid _); vm_compute; lia.
  all: by apply id_calls.
Qed.

(** ** Joining a network *)

(** The number of the network: what the answer to [ADD_NETWORK] says, -1 for an answer that
    is no number, and what it was before without an answer. *)
Definition added_id (old : Z) (a : option (list Z)) : Z :=
  match a with
  | None => old
  | Some a => match scan_d (cstr a) with Some (n, _) => n | None => match skip_space (cstr a) with [] => old | _ => -1 end end
  end.

Definition set_network (net : wifi_network) (what : list Z) : list Z := lit "SET_NETWORK " ++ dec (n_id net) ++ what.

Definition key_script (net : wifi_network) : list (list Z) :=
  match n_key_mgmt net with
  | WIFI_KEY_NONE => [set_network net (lit " key_mgmt NONE")]
  | WIFI_KEY_WEP =>
    let len := length (n_psk net) in
    [set_network net (lit " key_mgmt NONE"); set_network net (lit " auth_alg SHARED OPEN");
     (if ((len =? 5) || (len =? 13))%nat then set_network net (lit " wep_key0 " ++ quoted (n_psk net))
      else if ((len =? 10) || (len =? 26))%nat then set_network net (lit " wep_key0 " ++ n_psk net) else []);
     set_network net (lit " wep_tx_keyidx 0")]
  | _ => [set_network net (lit " psk " ++ if (length (n_psk net) <? 64)%nat then quoted (n_psk net) else n_psk net)]
  end.
Definition join_script (net : wifi_network) : list (list Z) :=
  set_network net (lit " ssid " ++ quoted (n_ssid net)) :: key_script net ++ [set_network net (lit " scan_ssid 1"); lit "SELECT_NETWORK " ++ dec (n_id net)].

(** The arrays [ssid] and [psk] hold strings. *)
Definition net_ok (net : wifi_network) : Prop := int (n_id net) /\ (length (n_ssid net) < 36)%nat /\ (length (n_psk net) < 68)%nat.

Lemma added_id_int old a : int old -> int (added_id old a).
Proof.
  intros Ho. destruct a as [a|]; cbn [added_id]; [|done]. destruct (scan_d (cstr a)) as [[n r]|] eqn:E; [|destruct (skip_space (cstr a)); [done|unfold int; lia]].
  unfold scan_d in E. destruct (sign_of _) as [neg r1]. destruct (span digit r1) as [[|d ds] r2]; [done|]. injection E as <- _. unfold to_int, int.
  match goal with |- context [s32 ?x] => pose proof (swrap_bounds 32 x ltac:(lia)) as Hb end. change (2 ^ (32 - 1)) with 2147483648 in Hb. lia.
Qed.

Lemma atoi_dec n : int n -> atoi (dec n) = n.
Proof.
  intros Hn. pose proof (scan_d_dec n [] Hn I) as Hs. rewrite app_nil_r in Hs. unfold scan_d in Hs. unfold atoi. destruct (sign_of _) as [neg r]. destruct (span digit r) as [[|d ds] r2]; [done|]. by injection Hs.
Qed.

Lemma wep_split_dec id p k : int id -> (length p < 14)%nat -> wep_split (dec id ++ [43] ++ p) k = Ret (id, p) k.
Proof.
  intros Hid Hp. unfold wep_split. destruct (dec_text id Hid) as [_ Hl]. rewrite (proj2 (Nat.ltb_lt _ _)) by (rewrite !length_app; cbn [length]; lia).
  rewrite (span_all _ (dec id) ([43] ++ p)); [by rewrite atoi_dec| |done].
  destruct (dec_spec id Hid) as (ds & -> & _ & Hd & _). apply Forall_app. split; [by destruct (id <? 0); repeat constructor|].
  eapply Forall_impl; [exact Hd|]. cbv beta. intros c Hc. apply digit_not_space in Hc as (_ & _ & ? & _). by rewrite (proj2 (Z.eqb_neq c 43)).
Qed.

Lemma wep_param_ok net p k : int (n_id net) -> (length p < 14)%nat -> wep_param net p k = Ret (VStr (dec (n_id net) ++ [43] ++ p)) k.
Proof. intros Hid Hp. unfold wep_param. destruct (dec_text _ Hid) as [_ Hl]. rewrite fits_ok; [done|]. rewrite !length_app. cbn [length]. lia. Qed.

Lemma set_network_ok net what k : int (n_id net) -> (length what < 90)%nat -> (c <- printed (set_network net what) ;; ret (Some c)) k = Ret (Some (set_network net what)) k.
Proof. intros Hid Hw. apply printed_ok. unfold set_network. destruct (dec_text _ Hid) as [_ Hl]. rewrite !length_app. change (length (lit "SET_NETWORK ")) with 12%nat. lia. Qed.

Lemma keymeth_command net k : int (n_id net) -> n_key_mgmt net = WIFI_KEY_NONE \/ n_key_mgmt net = WIFI_KEY_WEP ->
  make_command WIFI_COMMAND_SETNETWORK_KEYMETH (VNet net) k = Ret (Some (set_network net (lit " key_mgmt NONE"))) k.
Proof. intros Hid Hk. unfold make_command. destruct Hk as [->| ->]; apply set_network_ok; (done || vm_compute; lia). Qed.

Lemma set_key_converses net cs k (f : Z -> M K Z) : net_ok net -> (forall k', wp (f 0) (fun r => converses cs r k') k') ->
  wp (set_key net 0 f) (fun r => converses (key_script net ++ cs) r k) k.
Proof.
  intros (Hid & _ & Hp) Hf. unfold set_key, key_script. destruct (n_key_mgmt net) eqn:Ek; cbn [app].
  1,2,5: apply step_converses; [done| |done]; unfold make_command, PSK_WPA_HEX_LEN; destruct (length (n_psk net) <? 64)%nat; apply set_network_ok; [done| |done|];
    unfold quoted; rewrite !length_app; change (length (lit " psk ")) with 5%nat; cbn [length]; lia.
  2: apply step_converses; [done|apply keymeth_command; auto|done].
  apply step_converses; [done|apply keymeth_command; auto|]. intros k1. apply wp_bind. unfold wp at 1. rewrite wep_param_ok by (done || vm_compute; lia).
  apply step_converses; [done| |].
  { unfold make_command, bind at 1. rewrite wep_split_dec by (done || vm_compute; lia). cbn [fst snd]. apply set_network_ok; [done|vm_compute; lia]. }
  intros k2. apply step_converses; [done| |].
  { unfold make_command. destruct (_ || _)%nat; [|destruct (_ || _)%nat; [|done]]; (apply set_network_ok; [done|]); unfold quoted; rewrite !length_app; change (length (lit " wep_key0 ")) with 10%nat; cbn [length]; lia. }
  intros k3. apply wp_bind. unfold wp at 1. rewrite wep_param_ok by (done || vm_compute; lia). apply step_converses; [done| |done].
  unfold make_command, bind at 1. rewrite wep_split_dec by (done || vm_compute; lia). cbn [fst snd]. apply set_network_ok; [done|vm_compute; lia].
Qed.

Lemma script_converses net k : net_ok net ->
  wp (step WIFI_COMMAND_SETNETWORK_SSID (VNet net) 0 (fun res => set_key net res (fun res => step WIFI_COMMAND_SETNETWORK_SCANSSID (VNet net) res (fun res =>
      step WIFI_COMMAND_SELECTNETWORK (VInt (n_id net)) res (fun _ => ret 0))))) (fun r => converses (join_script net) r k) k.
Proof.
  intros Hn. pose proof Hn as (Hid & Hs & _). apply step_converses; [done| |].
  { apply set_network_ok; [done|]. unfold quoted. rewrite !length_app. change (length (lit " ssid ")) with 6%nat. cbn [length]. lia. }
  intros k1. apply set_key_converses; [done|]. intros k2. apply step_converses; [done|apply set_network_ok; [done|vm_compute; lia]|].
  intros k3. apply step_converses; [done| |].
  { apply printed_ok. destruct (dec_text _ Hid) as [_ Hl]. rewrite length_app. change (length (lit "SELECT_NETWORK ")) with 15%nat. lia. }
  intros k4. apply wp_ret. exists []. split; [apply grew_nil|]. split; [constructor|by left].
Qed.

Lemma send_add_spec old k (Q : Z * Z -> K -> Prop) :
  (forall k', grew k k' [NoConnection] -> Q (-1, old) k') -> (forall a k', grew k k' [Asked (lit "ADD_NETWORK") a] -> Q (0, added_id old a) k') ->
  wp (send_int WIFI_COMMAND_ADDNETWORK VNull old) Q k.
Proof.
  intros H1 H2. unfold send_int. apply wp_bind. eapply (send_command_spec (fun _ => True)); [done|exact any_answer|intros k' Hg; by apply wp_ret, H1|intros k' Hg; by apply wp_ret, (H2 None)|].
  intros a k1 Hg _. unfold wifi_reply_analyse. cbn [wifi_command_pack_sum]. unfold reply_buffer. rewrite cstr_zeros. cbn [put_int].
  assert (forall k2 k3, grew k k2 [Asked (lit "ADD_NETWORK") (Some a)] -> wpa_log k3 = wpa_log k2 -> Q (0, added_id old (Some a)) k3) as HQ by (intros k2 k3 Hg2 E; apply H2; unfold grew in *; congruence).
  cbn [added_id] in HQ. destruct (scan_d (cstr a)) as [[n r]|]; [|destruct (skip_space (cstr a))]; repeat wp_step; intros k3 E3; apply wp_ret; by apply (HQ k1).
Qed.

(** What joining leaves: what happened, the result, and the network with its number. *)
Definition joined (net : wifi_network) k (x : Z * wifi_network) k' : Prop :=
  exists pre b, conversation [lit "BLACKLIST clear"] pre b /\
  ((grew k k' (pre ++ [NoConnection]) /\ x = (-1, net)) \/
   exists a l, grew k k' (pre ++ Asked (lit "ADD_NETWORK") a :: l) /\ snd x = with_id (added_id (n_id net) a) net /\
               conversation (join_script (snd x)) l (fst x =? 0) /\ (fst x = 0 \/ fst x = -2)).

Lemma join_commands_spec net k : net_ok net -> wp (join_commands net) (joined net k) k.
Proof.
  intros Hn. pose proof Hn as (Hid & Hs & Hp). unfold join_commands. apply wp_bind. eapply wp_mono; [apply (plain_calls WIFI_COMMAND_BLACKLIST_CLEAR (lit "BLACKLIST clear")); done|]. cbv beta.
  intros r0 k1 (pre & Hg1 & Hpre & _). apply wp_bind. apply send_add_spec; cbn [fst snd].
  - intros k2 Hg2. apply wp_ret. exists pre, (r0 =? 0). split; [done|]. left. split; [by apply (grew_app _ k1)|]. by destruct net.
  - intros a k2 Hg2. change (0 <? 0) with false. cbv iota. apply wp_bind. eapply wp_mono; [apply script_converses|].
    { split; [by apply added_id_int|done]. }
    cbv beta. intros r k3 (l & Hg3 & Hc & Hr). apply wp_ret. exists pre, (r0 =? 0). split; [done|]. right. exists a, l. split; [|done].
    apply (grew_app _ k1); [done|]. exact (grew_app _ _ _ _ _ Hg2 Hg3).
Qed.

Lemma join_network_spec net k : net_ok net -> wep_length (length (n_psk net)) = false -> wp (wifi_join_network net) (joined net k) k.
Proof. intros Hn Hw. unfold wifi_join_network. rewrite Hw. apply wp_bind, wp_ret. by apply join_commands_spec. Qed.

(** C19: [wifi_join_network] with a key that has none of the lengths of a WEP key clears the
    blacklist (whatever the answer), adds a network, and then sends the commands that
    set its name, its key and its hidden-name scan and select it, in this order, with
    the number of the added network; it stops exactly where a command is refused or finds
    no connection, with -2 (with -1 when it is [ADD_NETWORK] that finds none), and reports 0
    exactly when all were accepted; a request that gets no answer counts as accepted.  When
    [ADD_NETWORK] is refused, it goes on with network -1.  No command overflows the
    buffers for any name and key that fit the arrays. *)
Theorem join_network_conversation net k : net_ok net -> wep_length (length (n_psk net)) = false ->
  wp (wifi_join_network net) (joined net k) k.
Proof. apply join_network_spec. Qed.

(** The list a scan leaves is the one it got, or points to the dead array. *)
Lemma scan_result_dead l0 k r l k' : wifi_get_scan_result l0 k = Ret (r, Some l) k' -> sl_ssid l = None.
Proof.
  unfold wifi_get_scan_result. destruct l0; [|done]. unfold bind. destruct (wifi_send_command _ _ _ _ k) as [[r1 res] k1| |]; [|done|done]. cbn [fst snd].
  destruct res; [done|done|done| |done]. by destruct (r1 <? 0); intros [= <- <- <-].
Qed.

Lemma block_scan_dead fuel l0 status timeout k r l k' : block_scan_loop fuel (Some l0) status timeout k = Ret (r, Some l) k' -> l = l0 \/ sl_ssid l = None.
Proof.
  revert status timeout k. induction fuel as [|fuel IH]; intros status timeout k; [done|]. cbn [block_scan_loop]. unfold bind at 1. destruct (wifi_get_status status k) as [[r1 st] k1| |]; [|done|done]. cbn [fst snd].
  destruct (r1 <? 0); [intros [= <- <- <-]; by left|]. destruct (_ || _); [|apply IH]. unfold bind. destruct (wifi_get_scan_result (Some l0) k1) as [[r2 l2] k2| |] eqn:E; [|done|done]. cbn [fst snd].
  intros Hr. right. assert (l2 = Some l) as -> by (destruct (r2 <? 0); by injection Hr). by eapply scan_result_dead.
Qed.

(** With a key of the length of a WEP key (5, 10, 13, 16, 26 or 32 characters, which are
    also lengths of WPA passwords), [wifi_join_network] first scans; when the scan finds
    any network, it reads the list through a pointer to an array that was a local
    variable of [wifi_get_scan_result]. *)
Theorem join_reads_dead_scan_list net k r l k' : wep_length (length (n_psk net)) = true ->
  wifi_get_block_scan_result (Some (mkList 0 (Some []))) 3 k = Ret (r, Some l) k' -> 0 < sl_num l ->
  wifi_join_network net k = Fault.
Proof.
  intros Hw E Hn. assert (sl_ssid l = None) as El.
  { unfold wifi_get_block_scan_result, bind in E. destruct (wifi_scan k) as [r1 k1| |]; [|done|done]. destruct (block_scan_dead _ _ _ _ _ _ _ _ E) as [->|?]; [cbn in Hn; lia|done]. }
  unfold wifi_join_network, bind. rewrite Hw, E. cbn [snd]. destruct (Z.to_nat (sl_num l)) as [|n] eqn:En; [lia|]. cbn [wep_loop]. by rewrite El.
Qed.

(** ** Answers of lines *)

(** A body on the lines of an answer. *)
Fixpoint run_lines {A} (g : list Z -> A -> M K (bool * A)) (ls : list (list Z)) (a : A) : M K (bool * A) :=
  match ls with
  | [] => ret (false, a)
  | l :: ls => x <- g l a ;; if fst x : bool then ret x else run_lines g ls (snd x)
  end.

Lemma lines_count c cur b : (length (split_lines cur b c) <= S (length c))%nat.
Proof. revert cur b. induction c as [|x c IH]; intros cur b; cbn [split_lines length]; [destruct b; cbn; lia|]. destruct (NL x); [destruct b|]; cbn [length]; [pose proof (IH [] true)|pose proof (IH [] true)|pose proof (IH (x :: cur) false)]; lia. Qed.

Lemma lines_text c cur b : text c -> text cur -> Forall text (split_lines cur b c).
Proof.
  intros Hc. revert cur b. induction Hc as [|x c Hx Hc IH]; intros cur b Hcur; cbn [split_lines].
  - destruct b; repeat constructor. by apply Forall_rev.
  - destruct (NL x); [destruct b; [|constructor; [by apply Forall_rev|]]; apply IH; constructor|apply IH; by constructor].
Qed.

Lemma for_lines_spec {A} (body g : list Z -> A -> M K (bool * A)) c post ls i line a fuel k : text c -> drop i (lines c) = ls ->
  Forall (fun l => (length l < 256)%nat /\ forall r a k, body (l ++ 0 :: r) a k = g l a k) ls -> length line = 256%nat -> (length ls < fuel)%nat ->
  for_lines fuel (Z.of_nat i) line (c ++ 0 :: 0 :: post) body a k = run_lines g ls a k.
Proof.
  intros Ht. revert i line a fuel k. induction ls as [|l ls IH]; intros i line a fuel k El Hls Hlen Hf; (destruct fuel as [|fuel]; [cbn in Hf; lia|]); cbn [for_lines run_lines]; unfold bind at 1;
    rewrite get_line_spec, Nat2Z.id by (done || lia).
  - assert (lines c !! i = None) as -> by (apply lookup_ge_None_2; assert (length (drop i (lines c)) = 0)%nat as E by (by rewrite El); rewrite length_drop in E; lia). done.
  - assert (lines c !! i = Some l) as -> by (rewrite <-(Nat.add_0_r i), <-lookup_drop; by rewrite El). apply Forall_cons in Hls as [[Hl Hb] Hls]. cbn [line_result].
    rewrite (proj2 (Nat.ltb_lt _ _)) by lia. unfold bind. rewrite Hb. destruct (g l a k) as [[[|] a1] k1| |]; [done| |done|done]. cbn [fst snd].
    replace (Z.of_nat i + 1) with (Z.of_nat (S i)) by lia. apply IH; [|done| |cbn in Hf; lia].
    + rewrite <-Nat.add_1_r, <-drop_drop, El. done.
    + rewrite length_app. cbn [length]. rewrite length_drop. lia.
Qed.

(** An answer the buffers have room for. *)
Definition answer_ok (a : list Z) : Prop := text a /\ (length a <= 4094)%nat /\ Forall (fun l => (length l < 256)%nat) (lines a).

Lemma reply_buffer_text a : answer_ok a -> reply_buffer a = a ++ 0 :: 0 :: replicate (4094 - length a) 0.
Proof. intros (_ & Hl & _). unfold reply_buffer. by replace (4096 - length a)%nat with (S (S (4094 - length a))) by lia. Qed.

(** The bodies that read [line] as a string. *)
Lemma analyse_lines {A} (g : list Z -> A -> M K (bool * A)) a st k : answer_ok a ->
  for_lines (S (length (reply_buffer a))) 0 (replicate 256 0) (reply_buffer a) (fun line => g (cstr line)) st k = run_lines g (lines a) st k.
Proof.
  intros Ha. rewrite reply_buffer_text by done. destruct Ha as (Ht & Hl & Hls). apply (for_lines_spec _ _ _ _ (lines a) 0); [done|done| |done|].
  - pose proof (lines_text a [] false Ht (Forall_nil_2 _)) as Hlt. fold (lines a) in Hlt. rewrite Forall_forall in Hls, Hlt. apply Forall_forall. intros l Hin. split; [by apply Hls|]. intros r st' k'. by rewrite cstr_text by (by apply Hlt).
  - pose proof (lines_count a [] false) as Hc. fold (lines a) in Hc. rewrite length_app. cbn [length]. lia.
Qed.

(** The state of the connection: the first line that names one. *)
Fixpoint status_of (ls : list (list Z)) (st : Z) : Z :=
  match ls with
  | [] => st
  | l :: ls =>
    if strstr l (lit "wpa_state=COMPLETED") then WIFI_CONNECTED
    else if strstr l (lit "wpa_state=SCANNING") then WIFI_SCANING
    else status_of ls WIFI_UNCONNECTED
  end.

Lemma status_analyse a st n k : answer_ok a -> wifi_reply_analyse WIFI_COMMAND_GET_STATUS (reply_buffer a) (RInt st) n k = Ret (0, RInt (status_of (lines a) st)) k.
Proof.
  intros Ha. unfold wifi_reply_analyse. cbn [wifi_command_pack_sum]. unfold bind. rewrite analyse_lines by done. destruct Ha as (_ & _ & _).
  assert (forall st, exists b, run_lines status_line (lines a) (RInt st) k = Ret (b, RInt (status_of (lines a) st)) k) as Hr; [|by destruct (Hr st) as [b ->]].
  clear st. induction (lines a) as [|l ls IH]; intros st; cbn [run_lines status_of]; [by exists false|]. unfold status_line, bind.
  destruct (strstr l _); [by exists true|]. destruct (strstr l _); [by exists true|]. apply IH.
Qed.

(** ** The access point *)

(** What wpa_supplicant prints for a connection: lines [bssid=], [freq=], [ssid=], [id=], and
    more lines. *)
Definition hexc (d : Z) : Z := if d <? 10 then 48 + d else 87 + d.
Definition show_x2 (b : Z) : list Z := [hexc (b / 16); hexc (b mod 16)].
Fixpoint show_mac (m : list Z) : list Z :=
  match m with
  | [] => []
  | [b] => show_x2 b
  | b :: m => show_x2 b ++ 58 :: show_mac m
  end.
Definition status_lines (m : list Z) (f : Z) (ssid : list Z) (id : Z) (rest : list (list Z)) : list (list Z) :=
  (lit "bssid=" ++ show_mac m) :: (lit "freq=" ++ dec f) :: (lit "ssid=" ++ ssid) :: (lit "id=" ++ dec id) :: rest.
Definition unlines (ls : list (list Z)) : list Z := concat ((fun l => l ++ [10]) <$> ls).

Definition mac_ok (m : list Z) : Prop := length m = 6%nat /\ Forall (fun b => 0 <= b < 256) m.
Definition line_ok (l : list Z) : Prop := l <> [] /\ (length l < 256)%nat /\ Forall (fun c => c <> 0 /\ NL c = false) l.

Lemma hexc_spec d : 0 <= d < 16 -> xdigit (hexc d) = Some d /\ hexc d <> 120 /\ hexc d <> 88 /\ hexc d <> 0 /\ NL (hexc d) = false.
Proof. intros Hd. assert (d ∈ seqZ 0 16) as Hin by (apply elem_of_seqZ; lia). vm_compute in Hin. repeat (apply elem_of_cons in Hin as [->|Hin]; [done|]). by apply not_elem_of_nil in Hin. Qed.

Lemma scan_x2_digits d e r : 0 <= d < 16 -> 0 <= e < 16 -> scan_x2 (hexc d :: hexc e :: r) = Some (16 * d + e, r).
Proof.
  intros Hd He. destruct (hexc_spec e He) as (Ex & Hx & HX & _). generalize dependent (hexc e). intros c Ex Hx HX.
  assert (hex_digits 2 (hexc d :: c :: r) false 0 = Some (16 * d + e, r)) as E by (cbn [hex_digits]; rewrite (proj1 (hexc_spec d Hd)), Ex; do 2 f_equal; lia).
  assert (d ∈ seqZ 0 16) as Hin by (apply elem_of_seqZ; lia). vm_compute in Hin.
  apply elem_of_cons in Hin as [->|Hin]; [cbn [hexc]; change (hexc 0) with 48 in *; unfold scan_x2; rewrite skip_space_id by done; by rewrite (proj2 (Z.eqb_neq c 120)), (proj2 (Z.eqb_neq c 88)) by done|].
  repeat (apply elem_of_cons in Hin as [->|Hin]; [exact E|]). by apply not_elem_of_nil in Hin.
Qed.

Lemma scan_x2_show b r : 0 <= b < 256 -> scan_x2 (show_x2 b ++ r) = Some (b, r).
Proof.
  intros Hb. pose proof (Z.mod_pos_bound b 16). pose proof (Z.div_mod b 16). assert (0 <= b / 16 < 16) by (split; [apply Z.div_pos|apply Z.div_lt_upper_bound]; lia).
  cbn [show_x2 app]. rewrite scan_x2_digits by lia. do 2 f_equal. lia.
Qed.

Lemma show_x2_text b : 0 <= b < 256 -> Forall (fun c => c <> 0 /\ NL c = false) (show_x2 b).
Proof.
  intros Hb. pose proof (Z.mod_pos_bound b 16). assert (0 <= b / 16 < 16) by (split; [apply Z.div_pos|apply Z.div_lt_upper_bound]; lia).
  repeat (apply Forall_cons; split); [apply hexc_spec; lia..|constructor].
Qed.

Lemma scan_bytes_show m : mac_ok m -> scan_bytes 6 (show_mac m) = m /\ low_bytes m = m /\ Forall (fun c => c <> 0 /\ NL c = false) (show_mac m) /\ length (show_mac m) = 17%nat.
Proof.
  intros [Hl Hm]. do 6 (destruct m as [|? m]; [done|]). destruct m; [|done]. repeat (apply Forall_cons in Hm as [? Hm]). repeat split.
  - cbn [show_mac scan_bytes]. rewrite !scan_x2_show by done. change (show_x2 z4) with (show_x2 z4). rewrite <-(app_nil_r (show_x2 z4)). by rewrite scan_x2_show.
  - unfold low_bytes. rewrite !fmap_cons. change 255 with (Z.ones 8). rewrite !Z.land_ones by lia. change (2 ^ 8) with 256. by rewrite !Z.mod_small by done.
  - cbn [show_mac]. repeat (apply Forall_app; split; [by apply show_x2_text|apply Forall_cons; split; [done|]]). by apply show_x2_text.
Qed.

Lemma unlines_ok ls : ls <> [] -> Forall line_ok ls -> (length (unlines ls) <= 4094)%nat -> answer_ok (unlines ls) /\ lines (unlines ls) = ls.
Proof.
  intros Hne Hls Hl. destruct Hls as [|l ls Hl0 Hls]; [done|]. assert (lines (unlines (l :: ls)) = l :: ls) as El.
  { unfold unlines. rewrite fmap_cons. cbn [concat]. rewrite <-app_assoc. cbn [app]. apply lines_reply.
    - eapply Forall_impl; [apply Hl0|]. by intros c [].
    - eapply Forall_impl; [exact Hls|]. intros l' (Hn & _ & Ht). split; [done|]. eapply Forall_impl; [exact Ht|]. by intros c []. }
  assert (Forall line_ok (l :: ls)) as Hall by (by constructor). split; [|done]. split; [|split; [done|]].
  - clear -Hall. unfold unlines. induction Hall as [|l' ls' (_ & _ & Ht) Hall IH]; [constructor|]. rewrite fmap_cons. cbn [concat]. apply Forall_app. split; [|exact IH]. apply Forall_app. split; [|by repeat constructor].
    eapply Forall_impl; [exact Ht|]. by intros c [].
  - rewrite El. eapply Forall_impl; [exact Hall|]. by intros l' (_ & ? & _).
Qed.

Lemma labelled_ok p w : line_ok p -> (length p < 20)%nat -> (length w < 200)%nat -> Forall (fun c => c <> 0 /\ NL c = false) w -> line_ok (p ++ w).
Proof. intros (Hn & _ & Hp) Hlp Hlw Hw. split; [by destruct p|]. split; [rewrite length_app; lia|]. by apply Forall_app. Qed.

Lemma status_lines_ok m f ssid id rest : mac_ok m -> int f -> word 36 ssid -> int id -> Forall line_ok rest -> Forall line_ok (status_lines m f ssid id rest).
Proof.
  intros Hm Hf Hs Hid Hr. destruct (scan_bytes_show m Hm) as (_ & _ & Tm & Lm). destruct (dec_text f Hf) as [Tf Lf], (dec_text id Hid) as [Ti Li]. pose proof (word_text _ _ Hs). destruct Hs as (_ & Ls & _).
  assert (forall p, p ∈ [lit "bssid="; lit "freq="; lit "ssid="; lit "id="] -> line_ok p /\ (length p < 20)%nat) as Hp.
  { intros p Hp. repeat (apply elem_of_cons in Hp as [->|Hp]; [split; [repeat constructor; by vm_compute|vm_compute; lia]|]). by apply not_elem_of_nil in Hp. }
  unfold status_lines. repeat (apply Forall_cons; split); [apply labelled_ok; [apply Hp|apply Hp|lia|done]..|done]; rewrite !elem_of_cons; auto.
Qed.

(** For every answer to [STATUS] as wpa_supplicant prints it for a connection, the
    information on the access point that is returned has its address and name, but in
    the place of the channel the frequency in MHz, and no key management and password:
    the first line that the code does not know, [id=], ends the analysis. *)
Theorem ap_info_reports_frequency m f ssid id rest n k : mac_ok m -> int f -> word 36 ssid -> int id -> Forall line_ok rest ->
  (length (unlines (status_lines m f ssid id rest)) <= 4094)%nat ->
  wifi_reply_analyse WIFI_COMMAND_GET_WIFI_INFO (reply_buffer (unlines (status_lines m f ssid id rest))) (RInfo zero_info) n k =
  Ret (0, RInfo (mkInfo ssid [] m 0 [] f)) k.
Proof.
  intros Hm Hf Hs Hid Hr Hl. destruct (unlines_ok (status_lines m f ssid id rest)) as [Ha El]; [done|by apply status_lines_ok|done|].
  unfold wifi_reply_analyse. cbn [wifi_command_pack_sum]. unfold bind at 1. rewrite analyse_lines, El by done. destruct (scan_bytes_show m Hm) as (Eb & Em & _).
  unfold status_lines. cbn [run_lines]. unfold bind at 1. unfold info_line at 1. change (starts (lit "bssid=") (lit "bssid=" ++ show_mac m)) with true. cbv iota zeta.
  change (drop 6 (lit "bssid=" ++ show_mac m)) with (show_mac m). rewrite Eb, (drop_ge (replicate 6 0)), app_nil_r, Em by (destruct Hm as [-> _]; done). cbn [ret fst snd].
  unfold bind at 1. unfold info_line at 1. change (starts (lit "freq=") (lit "freq=" ++ dec f)) with true.
  change (starts (lit "bssid=") (lit "freq=" ++ dec f)) with false. change (starts (lit "ssid=") (lit "freq=" ++ dec f)) with false. change (starts (lit "passphrase=") (lit "freq=" ++ dec f)) with false. change (starts (lit "key_mgmt=") (lit "freq=" ++ dec f)) with false.
  cbv iota zeta. change (drop 5 (lit "freq=" ++ dec f)) with (dec f). pose proof (scan_d_dec f [] Hf I) as Ed. rewrite app_nil_r in Ed. rewrite Ed. cbn [ret fst snd].
  unfold bind at 1. unfold info_line at 1. change (starts (lit "bssid=") (lit "ssid=" ++ ssid)) with false. change (starts (lit "ssid=") (lit "ssid=" ++ ssid)) with true. cbv iota zeta.
  change (drop 5 (lit "ssid=" ++ ssid)) with ssid. unfold scan_word, bind at 1. pose proof (scan_s_word 36 ssid [] Hs I) as Es. rewrite app_nil_r in Es. rewrite Es, fits_ok by apply Hs. done.
Qed.

(** ** Saving the configuration *)

Lemma conversation_one c l : conversation [c] l true -> exists a, l = [Asked c a] /\ accepted a = true.
Proof. inversion 1; subst. match goal with H : conversation [] _ _ |- _ => inversion H; subst end. eauto. Qed.

(** The state is asked for: it is unknown, or what the answer says. *)
Lemma get_status_spec k (Q : Z * Z -> K -> Prop) : (forall c k, wpa_conn k = true -> wp (wpa_ctrl_request c) (fun r _ => answer_ok (snd r)) k) ->
  (forall k' l, grew k k' l -> Q (-1, 0) k' /\ Q (0, 0) k') -> (forall st k', grew k k' [Asked (lit "STATUS") (Some st)] -> Q (0, status_of (lines st) 0) k') ->
  wp (wifi_get_status 0) Q k.
Proof.
  intros HR H1 H2. unfold wifi_get_status, send_int. apply wp_bind, wp_bind. eapply (send_command_spec answer_ok); [done|done|..].
  - intros k' Hg. cbn [fst snd]. apply wp_ret, wp_ret. by eapply H1.
  - intros k' Hg. cbn [fst snd]. apply wp_ret, wp_ret. by eapply H1.
  - intros a k1 Hg Ha. unfold wp at 1. rewrite status_analyse by done. cbn [fst snd]. intros k3 E3. apply wp_ret, wp_ret. apply H2. unfold grew in *. congruence.
Qed.

(** When the answers fit the buffers, [wifi_save_network] enables all networks, asks
    for the state and, only when a line of the answer says that the connection is
    complete, saves the configuration.  It reports 0 only then; but also when the last
    command found no connection, or got no answer, so that nothing was saved. *)
Theorem save_network_correct k : (forall c k, wpa_conn k = true -> wp (wpa_ctrl_request c) (fun r _ => answer_ok (snd r)) k) ->
  wp wifi_save_network (fun r k' => exists l, grew k k' l /\
    (r = 0 -> exists a1 st tail, l = Asked (lit "ENABLE_NETWORK all") a1 :: Asked (lit "STATUS") (Some st) :: tail /\ accepted a1 = true /\
              status_of (lines st) 0 = WIFI_CONNECTED /\ (tail = [NoConnection] \/ exists a, tail = [Asked (lit "SAVE_CONFIG") a] /\ accepted a = true)) /\
    (r = 0 \/ r = -1)) k.
Proof.
  intros HR. unfold wifi_save_network. apply wp_bind. eapply wp_mono; [apply (id_calls WIFI_COMMAND_ENABLENETWORK WPA_ALL_NETWORK (lit "ENABLE_NETWORK all")); done|]. cbv beta.
  intros r k1 (l1 & Hg1 & Hc1 & Hr). destruct Hr as [->| ->]; [|apply wp_ret; exists l1; split; [done|]; split; [done|by right]].
  apply conversation_one in Hc1 as (a1 & -> & Ha1). apply wp_bind. apply get_status_spec; [done|..]; cbn [fst snd].
  - intros k2 l2 Hg2. split; apply wp_ret; exists ([Asked (lit "ENABLE_NETWORK all") a1] ++ l2); (split; [by apply (grew_app _ k1)|]); (split; [done|by right]).
  - intros st k2 Hg2. pose proof (grew_app _ _ _ _ _ Hg1 Hg2) as Hg. destruct (Z.eqb_spec (status_of (lines st) 0) WIFI_CONNECTED) as [Est|]; cbn [andb].
    + apply wp_bind. apply (send_int_spec _ _ _ (lit "SAVE_CONFIG")); [done|done|..]; cbn [snd].
      * intros k3 Hg3. apply wp_ret. eexists. split; [apply (grew_app _ _ _ _ _ Hg Hg3)|]. split; [|by left]. intros _. exists a1, st, [NoConnection]. auto.
      * intros a k3 Hg3. destruct (Z.eqb_spec (ok_result 0 a) 0) as [E|]; apply wp_ret; (eexists; split; [apply (grew_app _ _ _ _ _ Hg Hg3)|]); [|split; [done|by right]]. split; [|by left].
        intros _. exists a1, st, [Asked (lit "SAVE_CONFIG") a]. split; [done|]. split; [done|]. split; [done|]. right. exists a. split; [done|]. unfold ok_result in E. destruct a as [a|]; [|done]. by destruct (accepted (Some a)).
    + apply wp_ret. eexists. split; [exact Hg|]. split; [done|by right].
Qed.
End Props.

(** ** A supplicant *)

Definition demo_status : list (list Z) := status_lines [2; 0; 0; 0; 0; 171] 2437 (lit "home") 3 [lit "mode=station"; lit "key_mgmt=WPA2-PSK"; lit "wpa_state=COMPLETED"].
(** It gives its networks, its state, the number of a new network, and accepts the rest. *)
Definition demo_answer (c : list Z) : list Z :=
  if bool_decide (c = lit "STATUS") then unlines demo_status
  else if bool_decide (c = lit "ADD_NETWORK") then lit "3"
  else if bool_decide (c = lit "SCAN_RESULTS") then scan_reply scan_header [bss1; bss2; bss3]
  else lit "OK".
Definition demo_log : Type := list wpa_ev.

Lemma demo_answer_ok c : answer_ok (demo_answer c).
Proof. unfold demo_answer. repeat case_bool_decide; repeat split; try (by vm_compute; lia); repeat constructor; vm_compute; lia. Qed.

#[export] Instance demo_ctrl : WpaCtrl demo_log.
Proof.
  refine {| wpa_ctrl_open := ret true; wpa_ctrl_close := ret tt; wpa_ctrl_request c k := Ret (0, demo_answer c) (k ++ [Asked c (Some (demo_answer c))]); wpa_conn _ := true; wpa_log k := k |}; [intros k; unfold wp, ret; by rewrite app_nil_r|done|].
  intros c k _. unfold wp. cbn [fst snd]. split; [done|]. split; [done|]. destruct (demo_answer_ok c) as (_ & ? & _). lia.
Defined.

Definition demo_net : wifi_network := mkNet 0 (lit "home") (lit "secret door") WIFI_KEY_WPA2PSK.
Definition demo_net_wep : wifi_network := mkNet 0 (lit "home") (lit "0123456789") WIFI_KEY_WPA2PSK.

Definition requests (l : demo_log) : list (list Z) := omap (fun e => match e with Asked c _ => Some c | NoConnection => None end) l.
Example join_demo : requests (match wifi_join_network demo_net ([] : demo_log) with Ret _ k => k | _ => [] end) =
  [lit "BLACKLIST clear"; lit "ADD_NETWORK"] ++ join_script (with_id 3 demo_net).
Proof. by vm_compute. Qed.

Lemma single_commands_correct_witness : Forall (fun p => calls (K := demo_log) (fst p) (snd p))
  [(lit "SCAN", wifi_scan); (lit "RECONFIGURE", wifi_reconfigure); (lit "BLACKLIST clear", wifi_blacklist_clear);
   (lit "DISCONNECT", wifi_disconnect_network); (lit "RECONNCET", wifi_reconnect_network);
   (on_network (lit "DISABLE_NETWORK") (lit " ") 3, wifi_disable_network 3);
   (on_network (lit "REMOVE_NETWORK") (lit " ") 3, wifi_remove_network 3);
   (on_network (lit "ENABLE_NETWORK") (lit "  ") 3, wifi_enable_network 3);
   (lit "DISABLE_NETWORK all", wifi_disable_all_network); (lit "REMOVE_NETWORK all", wifi_remove_all_network);
   (lit "ENABLE_NETWORK all", wifi_enable_all_network)].
Proof. refine (single_commands_correct 3 _). unfold int. lia. Defined.

Lemma join_network_conversation_witness : wp (wifi_join_network demo_net) (joined demo_net ([] : demo_log)) [].
Proof. refine (join_network_conversation demo_net [] _ eq_refl). repeat split; vm_compute; (lia || done). Defined.

Lemma join_reads_dead_scan_list_witness : wifi_join_network demo_net_wep ([] : demo_log) = Fault.
Proof.
  refine (join_reads_dead_scan_list demo_net_wep [] 0 (mkList 2 None)
    [Asked (lit "SCAN") (Some (demo_answer (lit "SCAN"))); Asked (lit "STATUS") (Some (demo_answer (lit "STATUS"))); Asked (lit "SCAN_RESULTS") (Some (demo_answer (lit "SCAN_RESULTS")))] eq_refl _ _); [by vm_compute|cbn; lia].
Defined.

Lemma ap_info_reports_frequency_witness :
  wifi_reply_analyse WIFI_COMMAND_GET_WIFI_INFO (reply_buffer (unlines demo_status)) (RInfo zero_info) 128 ([] : demo_log) =
  Ret (0, RInfo (mkInfo (lit "home") [] [2; 0; 0; 0; 0; 171] 0 [] 2437)) [].
Proof.
  refine (ap_info_reports_frequency [2; 0; 0; 0; 0; 171] 2437 (lit "home") 3 [lit "mode=station"; lit "key_mgmt=WPA2-PSK"; lit "wpa_state=COMPLETED"] 128 [] _ _ _ _ _ _);
    [split; [done|repeat constructor; lia]|unfold int; lia|repeat constructor; by vm_compute|unfold int; lia|repeat constructor; by vm_compute|vm_compute; lia].
Defined.

Lemma save_network_correct_witness :
  wp wifi_save_network (fun r (k' : demo_log) => exists l, grew [] k' l /\
    (r = 0 -> exists a1 st tail, l = Asked (lit "ENABLE_NETWORK all") a1 :: Asked (lit "STATUS") (Some st) :: tail /\ accepted a1 = true /\
              status_of (lines st) 0 = WIFI_CONNECTED /\ (tail = [NoConnection] \/ exists a, tail = [Asked (lit "SAVE_CONFIG") a] /\ accepted a = true)) /\
    (r = 0 \/ r = -1)) [].
Proof. refine (save_network_correct [] _). intros c k _. exact (demo_answer_ok c). Defined.
