(* ===== verification/WpaSocket.v ===== *)
(** * The control socket: [src/tkl_wifi/wpa_cli/wpa_ctrl.c]

    The functions that [wpa_command.c] calls, as they are built here, over sockets of the
    Unix domain; and the event monitor of [wpa_command.c], which uses them directly.  Sockets
    and memory are a parameter, the class [Sockets].  The functions are those of the class
    [WpaCtrl], which [WpaSocketProps] shows to be implemented by them. *)

From Stdlib Require Import String.
From S2P Require Import Prelude WpaParse WpaScan WpaCommand.

(** ** Sockets *)

(** What happened on sockets: messages sent and received, a wait that found none, and calls
    that failed, with their results where they are returned. *)
Inductive sk_ev :=
| NoMemory | NoSocket | NoBind (path : list Z) (in_use : bool) | NoConnect (path : list Z)
| Sent (fd : Z) (d : list Z) | NotSent (fd : Z) (d : list Z)
| Silence (fd : Z) | NoSelect (fd r : Z)
| Got (fd : Z) (d : list Z) | NotGot (fd r : Z).

(** What belongs to the process: memory, descriptors, the names its sockets are bound to;
    and what happened. *)
Record sk_obs := SkObs { o_heap : gset Z; o_fds : gset Z; o_files : gset (list Z); o_trace : list sk_ev }.
Definition with_heap v o := SkObs v (o_fds o) (o_files o) (o_trace o).
Definition with_fds v o := SkObs (o_heap o) v (o_files o) (o_trace o).
Definition with_names v o := SkObs (o_heap o) (o_fds o) v (o_trace o).
Definition adds (t : list sk_ev) (o : sk_obs) : sk_obs := SkObs (o_heap o) (o_fds o) (o_files o) (o_trace o ++ t).

Class Sockets (K : Type) := {
  os_malloc : M K Z;
  os_free : Z -> M K unit;
  so_socket : M K Z;
  (** The result, and whether the error is [EADDRINUSE]. *)
  so_bind : Z -> list Z -> M K (Z * bool);
  so_unlink : list Z -> M K unit;
  so_connect : Z -> list Z -> M K Z;
  so_close : Z -> M K unit;
  so_send : Z -> list Z -> M K Z;
  (** [select] for reading: the result, and whether the descriptor is in the set afterwards. *)
  so_select : Z -> M K (Z * bool);
  (** [recv] of at most so many bytes: the result and the message. *)
  so_recv : Z -> Z -> M K (Z * list Z);
  so_socketpair : M K (Z * (Z * Z));
  (** [poll] of two descriptors: the result, and whether the first has input. *)
  so_poll : Z -> Z -> M K (Z * bool);
  so_pid : Z;
  so_obs : K -> sk_obs;
  (** Messages that come in before there is a pause. *)
  so_left : K -> Z -> nat;
  so_pid_ok : 0 <= so_pid < 4194304;
  malloc_ok k : wp os_malloc (fun p k' => (p = 0 /\ so_obs k' = adds [NoMemory] (so_obs k)) \/ (p <> 0 /\ p ∉ o_heap (so_obs k) /\ so_obs k' = with_heap (o_heap (so_obs k) ∪ {[p]}) (so_obs k))) k;
  free_ok p k : p ∈ o_heap (so_obs k) -> wp (os_free p) (fun _ k' => so_obs k' = with_heap (o_heap (so_obs k) ∖ {[p]}) (so_obs k)) k;
  socket_ok k : wp so_socket (fun fd k' => (fd < 0 /\ so_obs k' = adds [NoSocket] (so_obs k)) \/ (0 <= fd /\ fd ∉ o_fds (so_obs k) /\ so_obs k' = with_fds (o_fds (so_obs k) ∪ {[fd]}) (so_obs k))) k;
  (** A name is bound only when it is free. *)
  bind_ok fd path k : fd ∈ o_fds (so_obs k) -> wp (so_bind fd path) (fun r k' => (fst r < 0 /\ so_obs k' = adds [NoBind path (snd r)] (so_obs k)) \/ (0 <= fst r /\ path ∉ o_files (so_obs k) /\ so_obs k' = with_names (o_files (so_obs k) ∪ {[path]}) (so_obs k))) k;
  unlink_ok path k : wp (so_unlink path) (fun _ k' => so_obs k' = with_names (o_files (so_obs k) ∖ {[path]}) (so_obs k)) k;
  connect_ok fd path k : fd ∈ o_fds (so_obs k) -> wp (so_connect fd path) (fun r k' => so_obs k' = if r <? 0 then adds [NoConnect path] (so_obs k) else so_obs k) k;
  close_ok fd k : fd ∈ o_fds (so_obs k) -> wp (so_close fd) (fun _ k' => so_obs k' = with_fds (o_fds (so_obs k) ∖ {[fd]}) (so_obs k)) k;
  send_ok fd d k : fd ∈ o_fds (so_obs k) -> wp (so_send fd d) (fun r k' => so_obs k' = adds [if r <? 0 then NotSent fd d else Sent fd d] (so_obs k)) k;
  select_ok fd k : fd ∈ o_fds (so_obs k) -> wp (so_select fd) (fun r k' => so_left k' fd = so_left k fd /\
    if fst r <? 0 then so_obs k' = adds [NoSelect fd (fst r)] (so_obs k) else if snd r then so_obs k' = so_obs k /\ (0 < so_left k fd)%nat else so_obs k' = adds [Silence fd] (so_obs k)) k;
  recv_ok fd n k : fd ∈ o_fds (so_obs k) -> 0 <= n -> wp (so_recv fd n) (fun r k' => (fst r < 0 /\ so_obs k' = adds [NotGot fd (fst r)] (so_obs k)) \/
    (fst r = Z.of_nat (length (snd r)) /\ fst r <= n /\ so_obs k' = adds [Got fd (snd r)] (so_obs k) /\ so_left k' fd = pred (so_left k fd))) k;
  socketpair_ok k : wp so_socketpair (fun r k' => (fst r = -1 /\ so_obs k' = so_obs k) \/
    (fst r = 0 /\ fst (snd r) ∉ o_fds (so_obs k) /\ snd (snd r) ∉ o_fds (so_obs k) /\ fst (snd r) <> snd (snd r) /\ so_obs k' = with_fds (o_fds (so_obs k) ∪ {[fst (snd r); snd (snd r)]}) (so_obs k))) k;
  poll_ok a b k : wp (so_poll a b) (fun _ k' => so_obs k' = so_obs k) k
}.

(** ** Data *)

Record wpa_ctrl := mkCtrl { c_s : Z; c_local : list Z; c_dest : list Z }.
(** The size of [sun_path] *)
Definition SUN_PATH : nat := 108.

(** Connections by their address; [counter]; the messages that went to a callback; and the
    variables of [wpa_command.c]: the connection of a command, that of the monitor and the
    sockets that end it. *)
Record wst (K : Type) := Wst { ws_k : K; ws_ctrl : gmap Z wpa_ctrl; counter : Z; ws_msgs : list (list Z); ws_log : list wpa_ev; wifi_conn : Z; monitor_conn : Z; exit_sockets : Z * Z }.
Arguments Wst {K}. Arguments ws_k {K}. Arguments ws_ctrl {K}. Arguments counter {K}. Arguments ws_msgs {K}. Arguments ws_log {K}. Arguments wifi_conn {K}. Arguments monitor_conn {K}. Arguments exit_sockets {K}.

Module Ctrl.
Section Ctrl.
Context {K : Type} {SK : Sockets K}.
Local Abbreviation W := (M (wst K)).

Definition sk {A} (c : M K A) : W A := fun s =>
  match c (ws_k s) with Ret a k => Ret a (Wst k (ws_ctrl s) (counter s) (ws_msgs s) (ws_log s) (wifi_conn s) (monitor_conn s) (exit_sockets s)) | Fault => Fault | Diverge => Diverge end.
Definition set_ctrl (m : gmap Z wpa_ctrl) : W unit := modify (fun s => Wst (ws_k s) m (counter s) (ws_msgs s) (ws_log s) (wifi_conn s) (monitor_conn s) (exit_sockets s)).
Definition set_counter (n : Z) : W unit := modify (fun s => Wst (ws_k s) (ws_ctrl s) n (ws_msgs s) (ws_log s) (wifi_conn s) (monitor_conn s) (exit_sockets s)).
Definition add_msg (m : list Z) : W unit := modify (fun s => Wst (ws_k s) (ws_ctrl s) (counter s) (ws_msgs s ++ [m]) (ws_log s) (wifi_conn s) (monitor_conn s) (exit_sockets s)).

(** The structure at an address, which must be one of a connection. *)
Definition ctrl_at (p : Z) : W wpa_ctrl := fun s => match ws_ctrl s !! p with Some c => Ret c s | None => Fault end.

Definition local_path (n : Z) : list Z := lit "/tmp/wpa_ctrl_" ++ dec so_pid ++ [45] ++ dec n.

(** The attempts to bind a name, from number [tries] on: the name, or [None] after the
    socket and the structure were given up. *)
Fixpoint bind_loop (fuel : nat) (ctrl s : Z) (tries : Z) : W (option (list Z)) :=
  match fuel with
  | O => out_of_fuel
  | S fuel =>
    n <- gets counter ;;
    let path := local_path n in
    if (SUN_PATH <=? length path)%nat then sk (so_close s) ;;; sk (os_free ctrl) ;;; ret None
    else
      let tries := tries + 1 in
      r <- sk (so_bind s path) ;;
      if fst r <? 0 then
        if snd r && (tries <? 2) then sk (so_unlink path) ;;; bind_loop fuel ctrl s tries
        else sk (so_close s) ;;; sk (os_free ctrl) ;;; ret None
      else ret (Some path)
  end.

(** The address of the connection, or zero. *)
Definition wpa_ctrl_open (ctrl_path : list Z) : W Z :=
  ctrl <- sk os_malloc ;;
  if ctrl =? 0 then ret 0
  else
    s <- sk so_socket ;;
    if s <? 0 then sk (os_free ctrl) ;;; ret 0
    else
      n <- gets counter ;;
      set_counter (s32 (n + 1)) ;;;
      local <- bind_loop 3 ctrl s 0 ;;
      match local with
      | None => ret 0
      | Some local =>
        if (SUN_PATH <=? length ctrl_path)%nat then sk (so_close s) ;;; sk (os_free ctrl) ;;; ret 0
        else
          r <- sk (so_connect s ctrl_path) ;;
          if r <? 0 then sk (so_close s) ;;; sk (so_unlink local) ;;; sk (os_free ctrl) ;;; ret 0
          else m <- gets ws_ctrl ;; set_ctrl (<[ctrl := mkCtrl s local ctrl_path]> m) ;;; ret ctrl
      end.

Definition wpa_ctrl_close (ctrl : Z) : W unit :=
  if ctrl =? 0 then ret tt
  else
    c <- ctrl_at ctrl ;;
    sk (so_unlink (c_local c)) ;;;
    (if 0 <=? c_s c then sk (so_close (c_s c)) else ret tt) ;;;
    sk (os_free ctrl) ;;;
    m <- gets ws_ctrl ;; set_ctrl (delete ctrl m).

(** [new] received over [old] *)
Definition over (old new : list Z) : list Z := new ++ drop (length new) old.

(** The loop: [reply] is what has been stored at the start of the buffer of [len] bytes, [cb]
    if there is a callback.  The result, the bytes stored, and the new [*reply_len]. *)
Fixpoint request_loop (fuel : nat) (s len : Z) (cb : bool) (reply : list Z) : W (Z * list Z * Z) :=
  match fuel with
  | O => out_of_fuel
  | S fuel =>
    x <- sk (so_select s) ;;
    if fst x <? 0 then ret (fst x, reply, len)
    else if snd x then
      r <- sk (so_recv s len) ;;
      if fst r <? 0 then ret (fst r, reply, len)
      else
        let reply := over reply (snd r) in
        if (0 <? fst r) && bool_decide (head reply = Some 60) then
          (if cb then
             let res := if fst r =? len then len - 1 else fst r in
             add_msg (take (Z.to_nat res) reply) ;;;
             request_loop fuel s len cb (over reply (take (Z.to_nat res) reply ++ [0]))
           else request_loop fuel s len cb reply)
        else ret (0, reply, fst r)
    else ret (-2, reply, len)
  end.

Definition wpa_ctrl_request (ctrl : Z) (cmd : list Z) (len : Z) (cb : bool) : W (Z * list Z * Z) :=
  c <- ctrl_at ctrl ;;
  r <- sk (so_send (c_s c) cmd) ;;
  if r <? 0 then ret (-1, [], len)
  else
    n <- gets (fun s => so_left (ws_k s) (c_s c)) ;;
    request_loop (S n) (c_s c) len cb [].

Definition wpa_ctrl_attach_helper (ctrl : Z) (attach : bool) : W Z :=
  x <- wpa_ctrl_request ctrl (if attach then lit "ATTACH" else lit "DETACH") 10 false ;;
  let '(r, buf, len) := x in
  if r <? 0 then ret r
  else if (len =? 3) && bool_decide (take 3 buf = lit "OK" ++ [10]) then ret 0
  else ret (-1).
Definition wpa_ctrl_attach (ctrl : Z) : W Z := wpa_ctrl_attach_helper ctrl true.
Definition wpa_ctrl_detach (ctrl : Z) : W Z := wpa_ctrl_attach_helper ctrl false.

(** The result, the message, and the new [*reply_len]. *)
Definition wpa_ctrl_recv (ctrl len : Z) : W (Z * list Z * Z) :=
  c <- ctrl_at ctrl ;;
  r <- sk (so_recv (c_s c) len) ;;
  if fst r <? 0 then ret (fst r, [], len) else ret (0, snd r, fst r).

Definition wpa_ctrl_pending (ctrl : Z) : W bool := c <- ctrl_at ctrl ;; x <- sk (so_select (c_s c)) ;; ret (snd x).
Definition wpa_ctrl_get_fd (ctrl : Z) : W Z := c <- ctrl_at ctrl ;; ret (c_s c).

(** ** The event monitor of [wpa_command.c] *)

Definition set_monitor (p : Z) : W unit := modify (fun s => Wst (ws_k s) (ws_ctrl s) (counter s) (ws_msgs s) (ws_log s) (wifi_conn s) p (exit_sockets s)).
Definition set_exit (x : Z * Z) : W unit := modify (fun s => Wst (ws_k s) (ws_ctrl s) (counter s) (ws_msgs s) (ws_log s) (wifi_conn s) (monitor_conn s) x).

Definition wifi_connect_moni_socket (path : list Z) : W Z :=
  p <- wpa_ctrl_open path ;;
  set_monitor p ;;;
  if p =? 0 then ret (-1)
  else
    r <- wpa_ctrl_attach p ;;
    if negb (r =? 0) then wpa_ctrl_close p ;;; set_monitor 0 ;;; ret (-1)
    else
      x <- sk so_socketpair ;;
      if fst x =? -1 then wpa_ctrl_close p ;;; set_monitor 0 ;;; ret (-1)
      else set_exit (snd x) ;;; ret 0.

(** The result, the message and the new [*reply_len]. *)
Definition wifi_ctrl_recv (len : Z) : W (Z * list Z * Z) :=
  p <- gets monitor_conn ;;
  if p =? 0 then ret (-1, [], len)
  else
    fd <- wpa_ctrl_get_fd p ;;
    e <- gets exit_sockets ;;
    x <- sk (so_poll fd (snd e)) ;;
    if fst x <? 0 then ret (fst x, [], len)
    else if 0 <? fst x then
      if snd x then wpa_ctrl_recv p len else ret (-2, [], len)
    else ret (1, [], len).

Definition wifi_monitor_release : W unit := p <- gets monitor_conn ;; wpa_ctrl_close p ;;; set_monitor 0.
End Ctrl.
End Ctrl.
