(* ===== verification/WpaSocketProps.v ===== *)
(** * Properties of the control socket

    What a request sends and takes for its answer, that connections are given back, and that
    the functions implement the interface [WpaCtrl] that the commands are proved against. *)

From Stdlib Require Import String.
From S2P Require Import Prelude WpaParse WpaScan WpaCommand WpaCommandProps WpaSocket.

Section Props.
Context {K : Type} {SK : Sockets K}.
Local Abbreviation S_ := (wst K).
Import Ctrl.

Definition at_k (s : S_) (k : K) : S_ := Wst k (ws_ctrl s) (counter s) (ws_msgs s) (ws_log s) (wifi_conn s) (monitor_conn s) (exit_sockets s).
Definition obs (s : S_) : sk_obs := so_obs (ws_k s).
(** The variables of the other functions *)
Definition same_rest (s s' : S_) : Prop := ws_msgs s' = ws_msgs s /\ ws_log s' = ws_log s /\ wifi_conn s' = wifi_conn s /\ monitor_conn s' = monitor_conn s /\ exit_sockets s' = exit_sockets s.

Lemma sk_spec {A} (c : M K A) (P : A -> K -> Prop) (s : S_) (Q : A -> S_ -> Prop) : wp c P (ws_k s) -> (forall a k, P a k -> Q a (at_k s k)) -> wp (sk c) Q s.
Proof. unfold wp, sk, at_k. destruct (c (ws_k s)); naive_solver. Qed.

(** ** Requests *)

(** A message that is not an answer *)
Definition is_event (d : list Z) : Prop := head d = Some 60.

Lemma adds_nil o : adds [] o = o.
Proof. unfold adds. rewrite app_nil_r. by destruct o. Qed.
Lemma adds_adds u v o : adds v (adds u o) = adds (u ++ v) o.
Proof. unfold adds. cbn. by rewrite app_assoc. Qed.

Lemma head_over w d : (0 < length d)%nat -> head (over w d) = head d.
Proof. destruct d; cbn; [lia|done]. Qed.
Lemma over_length w d n : (length w <= n)%nat -> (length d <= n)%nat -> (length (over w d) <= n)%nat.
Proof. intros H1 H2. unfold over. rewrite length_app, length_drop. lia. Qed.

(** What ends the wait for an answer, with the bytes [w] in the buffer, and its outcome: a
    message that is no event is the answer, and everything else is an error with its own
    result. *)
Definition ending (fd len : Z) (w : list Z) (last : sk_ev) (x : Z * list Z * Z) : Prop :=
  match last with
  | Got f ans => f = fd /\ ~ is_event ans /\ x = (0, over w ans, Z.of_nat (length ans))
  | Silence f => f = fd /\ x = (-2, w, len)
  | NoSelect f r | NotGot f r => f = fd /\ r < 0 /\ x = (r, w, len)
  | _ => False
  end.
(** What a request does on the sockets, and its outcome. *)
Definition outcome (fd : Z) (cmd : list Z) (len : Z) (t : list sk_ev) (x : Z * list Z * Z) : Prop :=
  (t = [NotSent fd cmd] /\ x = (-1, [], len)) \/
  exists evs last, t = Sent fd cmd :: (Got fd <$> evs) ++ [last] /\ Forall is_event evs /\ ending fd len (foldl over [] evs) last x.

Lemma request_loop_spec fd len fuel : 0 <= len -> forall w (s : S_), fd ∈ o_fds (obs s) -> (so_left (ws_k s) fd < fuel)%nat -> (length w <= Z.to_nat len)%nat ->
  wp (request_loop fuel fd len false w) (fun x s' => exists evs last, s' = at_k s (ws_k s') /\ obs s' = adds ((Got fd <$> evs) ++ [last]) (obs s) /\ Forall is_event evs /\ ending fd len (foldl over w evs) last x /\ (length x.1.2 <= Z.to_nat len)%nat) s.
Proof.
  intros Hlen. induction fuel as [|fuel IH]; intros w s Hfd Hf Hw; [lia|]. cbn [request_loop]. apply wp_bind. eapply sk_spec; [by apply select_ok|]. cbv beta. intros [r b] k1 [L1 Hb]. cbn [fst snd] in *.
  destruct (Z.ltb_spec r 0); [apply wp_ret; exists [], (NoSelect fd r); by repeat split|]. destruct b; [|apply wp_ret; exists [], (Silence fd); by repeat split].
  destruct Hb as [E1 Hb]. apply wp_bind. eapply sk_spec; [apply recv_ok; [cbn; by rewrite E1|done]|]. cbv beta. cbn [ws_k at_k]. intros [r2 d] k2 [[Hr2 E2]|(Er & Hr2 & E2 & L2)]; cbn [fst snd] in *; rewrite E1 in E2.
  - rewrite (proj2 (Z.ltb_lt _ _)) by done. apply wp_ret. exists [], (NotGot fd r2). by repeat split.
  - rewrite (proj2 (Z.ltb_ge _ _)) by lia. assert (length (over w d) <= Z.to_nat len)%nat as Hw' by (apply over_length; lia).
    destruct ((0 <? r2) && bool_decide (head (over w d) = Some 60)) eqn:Ee.
    + apply andb_prop in Ee as [Hpos%Z.ltb_lt Hh%bool_decide_eq_true]. rewrite head_over in Hh by lia. eapply wp_mono; [apply (IH (over w d)); [unfold obs; cbn; rewrite E2; cbn; exact Hfd|cbn; lia|done]|]. cbv beta. intros x s' (evs & last & Es & Ho & He & Hx & Hlx). exists (d :: evs), last.
      split; [exact Es|]. split; [rewrite Ho; unfold obs at 1; cbn [ws_k at_k]; by rewrite E2, adds_adds|]. split; [by constructor|]. by split.
    + apply wp_ret. exists [], (Got fd d). split; [done|]. split; [exact E2|]. split; [constructor|]. split; [|done]. cbn. split; [done|]. rewrite Er. split; [|done]. intros Hev. unfold is_event in Hev. destruct d as [|c d]; [done|]. rewrite head_over in Ee by (cbn; lia). rewrite (bool_decide_eq_true_2 _ Hev), andb_true_r in Ee. apply Z.ltb_ge in Ee. cbn in Er. lia.
Qed.

(** A connection that can be used *)
Definition usable (s : S_) (p : Z) (c : wpa_ctrl) : Prop := p <> 0 /\ ws_ctrl s !! p = Some c /\ p ∈ o_heap (obs s) /\ c_s c ∈ o_fds (obs s) /\ 0 <= c_s c.

Lemma request_spec p c cmd len (s : S_) : usable s p c -> 0 <= len -> wp (wpa_ctrl_request p cmd len false) (fun x s' => s' = at_k s (ws_k s') /\ (length x.1.2 <= Z.to_nat len)%nat /\
    exists t, obs s' = adds t (obs s) /\ outcome (c_s c) cmd len t x) s.
Proof.
  intros (Hp & Ec & Hh & Hfd & Hs) Hlen. unfold wpa_ctrl_request. apply wp_bind. unfold ctrl_at, wp at 1. rewrite Ec. apply wp_bind. eapply sk_spec; [by apply send_ok|]. cbv beta. intros r k1 E1. destruct (r <? 0).
  - apply wp_ret. split; [done|]. split; [cbn; lia|]. exists [NotSent (c_s c) cmd]. split; [exact E1|]. by left.
  - apply wp_bind, wp_gets. eapply wp_mono; [apply request_loop_spec; [done|unfold obs; cbn; rewrite E1; cbn; exact Hfd|cbn; lia|cbn; lia]|]. cbv beta. intros x s' (evs & last & Es & Ho & He & Hx & Hlx). split; [exact Es|]. split; [done|].
    exists (Sent (c_s c) cmd :: (Got (c_s c) <$> evs) ++ [last]). split; [rewrite Ho; unfold obs at 1; cbn [ws_k at_k]; by rewrite E1, adds_adds|]. right. by exists evs, last.
Qed.

(** ** Opening and closing *)

(** A name that was in use is removed and tried_open once more. *)
Definition tried_open (name : list Z) (bs : list sk_ev) : Prop := bs = [] \/ bs = [NoBind name true].
(** What opening a connection does: it fails only with a call that failed. *)
Definition opening (path : list Z) (ok : bool) (t : list sk_ev) : Prop :=
  if ok then exists name, tried_open name t
  else t = [NoMemory] \/ t = [NoSocket] \/ exists name bs, tried_open name bs /\ (t = bs ++ [NoConnect path] \/ exists u, t = bs ++ [NoBind name u] /\ (bs = [] -> u = false)).
(** The names that were removed because they were in use. *)
Definition lost (t : list sk_ev) : gset (list Z) := list_to_set (omap (fun e => match e with NoBind n true => Some n | _ => None end) t).
Lemma lost_app t t' : lost (t ++ t') = lost t ∪ lost t'.
Proof. unfold lost. by rewrite omap_app, list_to_set_app_L. Qed.
Lemma lost_outcome fd cmd len t x : outcome fd cmd len t x -> lost t = ∅.
Proof.
  intros [[-> _]|(evs & last & -> & _ & H)]; [done|]. change (Sent fd cmd :: (Got fd <$> evs) ++ [last]) with ([Sent fd cmd] ++ (Got fd <$> evs) ++ [last]). rewrite !lost_app.
  assert (lost (Got fd <$> evs) = ∅) as -> by (clear; induction evs as [|e evs IH]; [done|exact IH]). assert (lost [last] = ∅) as -> by (by destruct last). set_solver.
Qed.

Lemma local_path_short n : int n -> (length (local_path n) < SUN_PATH)%nat.
Proof.
  intros Hn. unfold local_path, SUN_PATH. pose proof so_pid_ok as Hpid. destruct (dec_text so_pid) as [_ L1]; [unfold int; lia|]. destruct (dec_text n Hn) as [_ L2]. rewrite !length_app. change (length (lit "/tmp/wpa_ctrl_")) with 14%nat. cbn [length]. lia.
Qed.

Lemma open_fails p fd (s : S_) : p ∈ o_heap (obs s) -> fd ∈ o_fds (obs s) -> wp (sk (so_close fd) ;;; sk (os_free p) ;;; ret (None : option (list Z))) (fun o s' => s' = at_k s (ws_k s') /\ o = None /\ obs s' = SkObs (o_heap (obs s) ∖ {[p]}) (o_fds (obs s) ∖ {[fd]}) (o_files (obs s)) (o_trace (obs s))) s.
Proof.
  intros Hp Hfd. apply wp_bind. eapply sk_spec; [by apply close_ok|]. cbv beta. intros [] k1 E1. apply wp_bind. eapply sk_spec; [apply free_ok; cbn; rewrite E1; exact Hp|]. cbv beta. cbn [ws_k at_k]. intros [] k2 E2. apply wp_ret. split; [done|]. split; [done|]. unfold obs. cbn. by rewrite E2, E1.
Qed.

(** The last attempt, which does not remove the name. *)
Lemma bind_last p fd fuel tries (s : S_) : int (counter s) -> p ∈ o_heap (obs s) -> fd ∈ o_fds (obs s) -> 1 <= tries ->
  wp (bind_loop (S fuel) p fd tries) (fun o s' => s' = at_k s (ws_k s') /\ let name := local_path (counter s) in match o with
    | None => exists u, obs s' = SkObs (o_heap (obs s) ∖ {[p]}) (o_fds (obs s) ∖ {[fd]}) (o_files (obs s)) (o_trace (obs s) ++ [NoBind name u])
    | Some n => n = name /\ name ∉ o_files (obs s) /\ obs s' = with_names (o_files (obs s) ∪ {[name]}) (obs s) end) s.
Proof.
  intros Hn Hp Hfd Ht. cbn [bind_loop]. apply wp_bind, wp_gets. rewrite (proj2 (Nat.leb_gt _ _)) by (by apply local_path_short). apply wp_bind. eapply sk_spec; [by apply bind_ok|]. cbv beta. intros [r u] k1 [[Hr E1]|(Hr & Hnew & E1)]; cbn [fst snd] in *.
  - rewrite (proj2 (Z.ltb_lt _ _)), (proj2 (Z.ltb_ge (tries + 1) 2)), andb_false_r by lia. eapply wp_mono; [apply open_fails; unfold obs; cbn; rewrite E1; done|]. cbv beta. intros o s' (E & -> & H). split; [exact E|]. exists u. rewrite H. unfold obs at 1 2 3 4. cbn [ws_k at_k]. by rewrite E1.
  - rewrite (proj2 (Z.ltb_ge _ _)) by done. by apply wp_ret.
Qed.

Lemma bind_loop_spec p fd (s : S_) : int (counter s) -> p ∈ o_heap (obs s) -> fd ∈ o_fds (obs s) ->
  wp (bind_loop 3 p fd 0) (fun o s' => s' = at_k s (ws_k s') /\ exists name bs, tried_open name bs /\ match o with
    | None => exists u, (bs = [] -> u = false) /\ obs s' = SkObs (o_heap (obs s) ∖ {[p]}) (o_fds (obs s) ∖ {[fd]}) (o_files (obs s) ∖ lost bs) (o_trace (obs s) ++ bs ++ [NoBind name u])
    | Some n => n = name /\ name ∉ o_files (obs s) ∖ lost bs /\ obs s' = SkObs (o_heap (obs s)) (o_fds (obs s)) (o_files (obs s) ∖ lost bs ∪ {[name]}) (o_trace (obs s) ++ bs) end) s.
Proof.
  intros Hn Hp Hfd. change 3%nat with (S 2). remember 2%nat as fuel eqn:Ef. cbn [bind_loop]. apply wp_bind, wp_gets. rewrite (proj2 (Nat.leb_gt _ _)) by (by apply local_path_short). set (name := local_path (counter s)). assert (forall X : gset (list Z), X ∖ lost [] = X) as Hnil by (intros X; change (lost []) with (∅ : gset (list Z)); set_solver). assert (lost [NoBind name true] = {[name]}) as Hone by (unfold lost; cbn; set_solver).
  apply wp_bind. eapply sk_spec; [by apply bind_ok|]. cbv beta. intros [r u] k1 [[Hr E1]|(Hr & Hnew & E1)]; cbn [fst snd] in *.
  - rewrite (proj2 (Z.ltb_lt _ _)) by done. destruct u; cbn [andb].
    + change (0 + 1 <? 2) with true. cbv iota. apply wp_bind. eapply sk_spec; [apply unlink_ok|]. cbv beta. cbn [ws_k at_k]. intros [] k2 E2. rewrite E1 in E2. fold (obs s) in E2. rewrite Ef. change (bind_loop 2 p fd (0 + 1)) with (bind_loop (S 1) p fd 1).
      eapply wp_mono; [apply bind_last; [done|unfold obs; cbn; rewrite E2; exact Hp|unfold obs; cbn; rewrite E2; exact Hfd|lia]|]. cbv beta zeta. cbn [counter at_k]. fold name. assert (obs (at_k (at_k s k1) k2) = SkObs (o_heap (obs s)) (o_fds (obs s)) (o_files (obs s) ∖ {[name]}) (o_trace (obs s) ++ [NoBind name true])) as -> by exact E2. cbn [o_heap o_fds o_files o_trace with_names].
      intros o s' [E H]. split; [exact E|]. exists name, [NoBind name true]. split; [by right|]. rewrite Hone. destruct o as [n|]; [exact H|]. destruct H as [u ->]. exists u. split; [done|]. by rewrite <-app_assoc.
    + eapply wp_mono; [apply open_fails; unfold obs; cbn; rewrite E1; done|]. cbv beta. intros o s' (E & -> & H). split; [exact E|]. exists name, []. split; [by left|]. exists false. split; [done|]. rewrite Hnil, H. unfold obs at 1 2 3 4. cbn [ws_k at_k]. by rewrite E1.
  - rewrite (proj2 (Z.ltb_ge _ _)) by done. apply wp_ret. split; [done|]. exists name, []. rewrite Hnil, app_nil_r. split; [by left|]. split; [done|]. split; [exact Hnew|exact E1].
Qed.

(** The memory [p] and the descriptor [fd] are in use besides, and the name [name], which was
    free. *)
Lemma ctrl_open_spec path (s : S_) : (length path < SUN_PATH)%nat -> wp (wpa_ctrl_open path) (fun p s' => same_rest s s' /\ exists t, opening path (negb (p =? 0)) t /\
    ((p = 0 /\ ws_ctrl s' = ws_ctrl s /\ obs s' = SkObs (o_heap (obs s)) (o_fds (obs s)) (o_files (obs s) ∖ lost t) (o_trace (obs s) ++ t)) \/
     exists fd name, p <> 0 /\ p ∉ o_heap (obs s) /\ 0 <= fd /\ fd ∉ o_fds (obs s) /\ ws_ctrl s' = <[p := mkCtrl fd name path]> (ws_ctrl s) /\ name ∉ o_files (obs s) ∖ lost t /\
       obs s' = SkObs (o_heap (obs s) ∪ {[p]}) (o_fds (obs s) ∪ {[fd]}) (o_files (obs s) ∖ lost t ∪ {[name]}) (o_trace (obs s) ++ t))) s.
Proof.
  intros Hpath. assert (forall X : gset (list Z), X ∖ ∅ = X) as Hnil by (intros X; set_solver). unfold wpa_ctrl_open. apply wp_bind. eapply sk_spec; [apply malloc_ok|]. cbv beta. intros p k1 [[-> E1]|(Hp & Hnew & E1)].
  { apply wp_ret. split; [done|]. exists [NoMemory]. split; [by left|]. left. split; [done|]. split; [done|]. change (lost [NoMemory]) with (∅ : gset (list Z)). rewrite Hnil. exact E1. }
  rewrite (proj2 (Z.eqb_neq _ _)) by done. apply wp_bind. eapply sk_spec; [apply socket_ok|]. cbv beta. cbn [ws_k at_k]. assert ((o_heap (obs s) ∪ {[p]}) ∖ {[p]} = o_heap (obs s)) as Hh by (unfold obs; set_solver). intros fd k2 [[Hfd E2]|(Hfd & Hfnew & E2)]; rewrite E1 in E2.
  { rewrite (proj2 (Z.ltb_lt _ _)) by done. apply wp_bind. eapply sk_spec; [apply free_ok; cbn; rewrite E2; cbn; set_solver|]. cbv beta. cbn [ws_k at_k]. intros [] k3 E3. apply wp_ret. split; [done|]. exists [NoSocket]. split; [cbn; by auto|]. left. split; [done|]. split; [done|]. change (lost [NoSocket]) with (∅ : gset (list Z)). rewrite Hnil.
    change (so_obs k3 = SkObs (o_heap (obs s)) (o_fds (obs s)) (o_files (obs s)) (o_trace (obs s) ++ [NoSocket])). rewrite E3, E2. cbn. fold (obs s). by rewrite Hh. }
  rewrite (proj2 (Z.ltb_ge _ _)) by done. rewrite E1 in Hfnew. cbn in Hfnew. assert ((o_fds (obs s) ∪ {[fd]}) ∖ {[fd]} = o_fds (obs s)) as Hf by (unfold obs; set_solver).
  apply wp_bind, wp_gets, wp_bind, wp_modify. set (s2 := Wst _ _ _ _ _ _ _ _). assert (obs s2 = SkObs (o_heap (obs s) ∪ {[p]}) (o_fds (obs s) ∪ {[fd]}) (o_files (obs s)) (o_trace (obs s))) as Eo by exact E2.
  assert (int (counter s2)) as Hint by (cbn; unfold int; match goal with |- context [s32 ?x] => pose proof (swrap_bounds 32 x ltac:(lia)) as Hb end; change (2 ^ (32 - 1)) with 2147483648 in Hb; lia).
  apply wp_bind. eapply wp_mono; [apply bind_loop_spec; [exact Hint|rewrite Eo; cbn; set_solver..]|]. cbv beta. rewrite Eo. cbn [o_heap o_fds o_files o_trace]. intros o s3 [E3 (name & bs & Ht & H3)]. destruct o as [n|].
  2:{ apply wp_ret. destruct H3 as (u & Hu & H3). rewrite Hh, Hf in H3. split; [by rewrite E3|]. exists (bs ++ [NoBind name u]). split; [right; right; exists name, bs; split; [done|]; right; by exists u|]. left. split; [done|]. split; [by rewrite E3|]. rewrite H3. f_equal. rewrite lost_app.
      f_equal. destruct Ht as [->| ->]; [rewrite Hu by done; unfold lost; cbn; set_solver|]. unfold lost. destruct u; cbn; set_solver. }
  destruct H3 as (-> & Hname & H3). rewrite (proj2 (Nat.leb_gt _ _)) by done. apply wp_bind. eapply sk_spec; [apply connect_ok; fold (obs s3); rewrite H3; cbn; set_solver|]. cbv beta. intros r k4 E4. fold (obs s3) in E4. destruct (r <? 0).
  - apply wp_bind. eapply sk_spec; [apply close_ok; cbn; rewrite E4, H3; cbn; set_solver|]. cbv beta. cbn [ws_k at_k]. intros [] k5 E5. apply wp_bind. eapply sk_spec; [apply unlink_ok|]. cbv beta. cbn [ws_k at_k]. intros [] k6 E6. apply wp_bind. eapply sk_spec; [apply free_ok; cbn; rewrite E6; cbn; rewrite E5; cbn; rewrite E4, H3; cbn; set_solver|]. cbv beta. cbn [ws_k at_k]. intros [] k7 E7.
    apply wp_ret. split; [by rewrite E3|]. exists (bs ++ [NoConnect path]). split; [right; right; exists name, bs; split; [done|by left]|]. left. split; [done|]. split; [by rewrite E3|]. change (so_obs k7 = SkObs (o_heap (obs s)) (o_fds (obs s)) (o_files (obs s) ∖ lost (bs ++ [NoConnect path])) (o_trace (obs s) ++ bs ++ [NoConnect path])).
    rewrite E7, E6, E5, E4, H3. cbn. fold (obs s). unfold with_heap, with_names, with_fds, adds. cbn [o_heap o_fds o_files o_trace]. rewrite Hh, Hf, lost_app, <-app_assoc. change (lost [NoConnect path]) with (∅ : gset (list Z)). rewrite (union_empty_r_L (lost bs)). f_equal. unfold obs in *. set_solver.
  - apply wp_bind, wp_gets, wp_bind, wp_modify, wp_ret. split; [by rewrite E3|]. exists bs. rewrite (proj2 (Z.eqb_neq _ _)) by done. split; [by exists name|]. right. exists fd, name. do 4 (split; [done|]). split; [by rewrite E3|]. split; [done|]. unfold obs at 1. cbn [ws_k at_k]. by rewrite E4, H3.
Qed.

Lemma ctrl_close_spec p c (s : S_) : usable s p c -> wp (wpa_ctrl_close p) (fun _ s' => same_rest s s' /\ ws_ctrl s' = delete p (ws_ctrl s) /\
    obs s' = SkObs (o_heap (obs s) ∖ {[p]}) (o_fds (obs s) ∖ {[c_s c]}) (o_files (obs s) ∖ {[c_local c]}) (o_trace (obs s))) s.
Proof.
  intros (Hp & Ec & Hh & Hfd & Hs). unfold wpa_ctrl_close. rewrite (proj2 (Z.eqb_neq _ _)) by done. apply wp_bind. unfold ctrl_at, wp at 1. rewrite Ec. apply wp_bind. eapply sk_spec; [apply unlink_ok|]. cbv beta. intros [] k1 E1. rewrite (proj2 (Z.leb_le _ _)) by done. apply wp_bind. eapply sk_spec; [apply close_ok; cbn; rewrite E1; exact Hfd|]. cbv beta. cbn [ws_k at_k]. intros [] k2 E2.
  apply wp_bind. eapply sk_spec; [apply free_ok; cbn; rewrite E2; cbn; rewrite E1; exact Hh|]. cbv beta. cbn [ws_k at_k]. intros [] k3 E3. apply wp_bind, wp_gets, wp_modify. split; [done|]. split; [done|]. unfold obs. cbn. rewrite E3. cbn. rewrite E2. cbn. by rewrite E1.
Qed.

(** ** The interface of the commands *)

(** The path of the socket fits its address. *)
Variable path : list Z.
Hypothesis path_fits : (length path < SUN_PATH)%nat.

Definition set_conn (p : Z) : M S_ unit := modify (fun s => Wst (ws_k s) (ws_ctrl s) (counter s) (ws_msgs s) (ws_log s) p (monitor_conn s) (exit_sockets s)).
Definition add_log (e : wpa_ev) : M S_ unit := modify (fun s => Wst (ws_k s) (ws_ctrl s) (counter s) (ws_msgs s) (ws_log s ++ [e]) (wifi_conn s) (monitor_conn s) (exit_sockets s)).
Definition sock_open : M S_ bool := p <- wpa_ctrl_open path ;; set_conn p ;;; when (p =? 0) (add_log NoConnection) ;;; ret (negb (p =? 0)).
Definition reply_of (x : Z * list Z * Z) : option (list Z) := if x.1.1 <? 0 then None else Some x.1.2.
Definition sock_request (c : list Z) : M S_ (Z * list Z) :=
  p <- gets wifi_conn ;;
  x <- wpa_ctrl_request p c 4096 false ;;
  add_log (Asked c (reply_of x)) ;;; ret x.1.
Definition sock_close : M S_ unit := p <- gets wifi_conn ;; wpa_ctrl_close p.
Definition sock_conn (s : S_) : bool :=
  match ws_ctrl s !! wifi_conn s with
  | Some c => bool_decide (wifi_conn s ∈ o_heap (obs s)) && bool_decide (c_s c ∈ o_fds (obs s)) && (0 <=? c_s c) && negb (wifi_conn s =? 0)
  | None => false
  end.

Lemma sock_conn_usable s : sock_conn s = true <-> exists c, usable s (wifi_conn s) c.
Proof.
  unfold sock_conn, usable. destruct (ws_ctrl s !! wifi_conn s) as [c|]; [|split; [done|by intros (c & _ & ? & _)]]. rewrite !andb_true_iff, !bool_decide_eq_true, Z.leb_le, negb_true_iff, Z.eqb_neq. split; [intros [[[? ?] ?] ?]; by exists c|]. intros (c' & ? & [= <-] & ? & ? & ?). done.
Qed.

Lemma sock_open_spec (s : S_) : wp sock_open (fun b s' => ws_log s' = ws_log s ++ (if b then [] else [NoConnection]) /\ (b = true -> sock_conn s' = true)) s.
Proof.
  unfold sock_open. apply wp_bind. eapply wp_mono; [by apply ctrl_open_spec|]. cbv beta. intros p s1 [(R1 & R2 & _) (t & _ & H)]. apply wp_bind, wp_modify. destruct H as [[-> _]|(fd & name & Hp & Hn & Hfd & Hfn & Ec & _ & H)].
  - cbn [Z.eqb when]. apply wp_bind, wp_modify, wp_ret. cbn. by rewrite R2.
  - rewrite (proj2 (Z.eqb_neq _ _)) by done. cbn [when]. apply wp_bind, wp_ret, wp_ret. cbn [negb ws_log]. rewrite app_nil_r. split; [exact R2|]. intros _. apply sock_conn_usable. cbn. exists (mkCtrl fd name path). unfold usable, obs. cbn. rewrite Ec, lookup_insert_eq. unfold obs in H. rewrite H. cbn. set_solver.
Qed.

Lemma sock_request_spec c (s : S_) : sock_conn s = true -> wp (sock_request c) (fun r s' => sock_conn s' = true /\ ws_log s' = ws_log s ++ [Asked c (if fst r <? 0 then None else Some (snd r))] /\ (length (snd r) <= 4096)%nat) s.
Proof.
  intros [ct Hu]%sock_conn_usable. unfold sock_request. apply wp_bind, wp_gets, wp_bind. eapply wp_mono; [by apply (request_spec _ ct)|]. cbv beta. intros x s1 (E & Hl & t & Ho & _). apply wp_bind, wp_modify, wp_ret. cbn. rewrite E. split; [|done]. apply sock_conn_usable. exists ct. unfold usable, obs in *. cbn in *. by rewrite Ho.
Qed.

Lemma sock_close_spec (s : S_) : sock_conn s = true -> wp sock_close (fun _ s' => ws_log s' = ws_log s) s.
Proof. intros [c Hu]%sock_conn_usable. unfold sock_close. apply wp_bind, wp_gets. eapply wp_mono; [by apply (ctrl_close_spec _ c)|]. cbv beta. by intros _ s' ((_ & E & _) & _). Qed.

(** The functions of [wpa_ctrl.c] are the control interface of [wpa_command.c]. *)
#[local] Instance socket_ctrl : WpaCtrl S_ := {|
  WpaCommand.wpa_ctrl_open := sock_open; WpaCommand.wpa_ctrl_close := sock_close; WpaCommand.wpa_ctrl_request := sock_request;
  wpa_conn := sock_conn; wpa_log := ws_log;
  wpa_open_ok := sock_open_spec; wpa_close_ok := sock_close_spec; wpa_request_ok := sock_request_spec |}.

(** ** Commands over the socket *)

(** Connections are in memory that is in use. *)
Definition in_use (s : S_) : Prop := forall p c, ws_ctrl s !! p = Some c -> p ∈ o_heap (obs s).

(** What happened to the commands, and on the sockets for it: for a command without a
    connection an attempt to open one that failed; for one that was sent an open connection
    and a request, whose answer is what was received, and which has none only for an error. *)
Inductive carried : list wpa_ev -> list sk_ev -> Prop :=
| carried_nil : carried [] []
| carried_none t l t' : opening path false t -> carried l t' -> carried (NoConnection :: l) (t ++ t')
| carried_asked t fd c t1 x l t' : opening path true t -> outcome fd c 4096 t1 x -> carried l t' -> carried (Asked c (reply_of x) :: l) (t ++ t1 ++ t').
Lemma carried_app l t l' t' : carried l t -> carried l' t' -> carried (l ++ l') (t ++ t').
Proof. induction 1 as [|t0 l t Ho Hc IH|t0 fd c t1 x l t Ho Hx Hc IH]; intros H'; [done| |]; cbn [app]; rewrite <-!app_assoc; [constructor; auto|eapply carried_asked; eauto]. Qed.

(** Connections, memory and descriptors are as before; of the names those are gone that were
    in use when the code wanted to bind them; the commands were carried over the sockets. *)
Definition gives_back (s s' : S_) : Prop := ws_ctrl s' = ws_ctrl s /\
  exists l t, ws_log s' = ws_log s ++ l /\ carried l t /\ obs s' = SkObs (o_heap (obs s)) (o_fds (obs s)) (o_files (obs s) ∖ lost t) (o_trace (obs s) ++ t).

Lemma gives_back_refl s : gives_back s s.
Proof. split; [done|]. exists [], []. rewrite !app_nil_r. split; [done|]. split; [constructor|]. assert (o_files (obs s) ∖ lost [] = o_files (obs s)) as -> by (change (lost []) with (∅ : gset (list Z)); set_solver). by destruct (obs s). Qed.
Lemma gives_back_trans s1 s2 s3 : gives_back s1 s2 -> gives_back s2 s3 -> gives_back s1 s3.
Proof.
  intros (A1 & l & t & A2 & A3 & A4) (B1 & l' & t' & B2 & B3 & B4). split; [congruence|]. exists (l ++ l'), (t ++ t'). rewrite B2, A2, B4, A4. cbn [o_heap o_fds o_files o_trace]. rewrite <-!app_assoc. split; [done|]. split; [by apply carried_app|]. f_equal. rewrite lost_app. set_solver.
Qed.
Lemma gives_back_in_use s s' : gives_back s s' -> in_use s -> in_use s'.
Proof. intros (A1 & l & t & _ & _ & A2) H p c. rewrite A1, A2. apply H. Qed.

(** [Q] when the statement returns *)
Definition pwp {A} (c : M S_ A) (Q : A -> S_ -> Prop) (s : S_) : Prop := match c s with Ret a s' => Q a s' | _ => True end.
Lemma pwp_ret {A} (a : A) (Q : A -> S_ -> Prop) s : Q a s -> pwp (ret a) Q s.
Proof. done. Qed.
Lemma pwp_bind {A B} (c : M S_ A) (k : A -> M S_ B) Q s : pwp c (fun a => pwp (k a) Q) s -> pwp (bind c k) Q s.
Proof. unfold pwp, bind. by destruct (c s). Qed.
Lemma pwp_wp {A} (c : M S_ A) (P Q : A -> S_ -> Prop) s : wp c P s -> (forall a s', P a s' -> Q a s') -> pwp c Q s.
Proof. unfold pwp, wp. destruct (c s); naive_solver. Qed.
Lemma pwp_readonly {A} (c : M S_ A) (Q : A -> S_ -> Prop) s : readonly c -> (forall a, Q a s) -> pwp c Q s.
Proof. intros Hc HQ. unfold pwp. specialize (Hc s). destruct (c s); [by subst|done|done]. Qed.

Definition leaves {A} (c : M S_ A) : Prop := forall s, in_use s -> pwp c (fun _ s' => gives_back s s') s.
Lemma leaves_readonly {A} (c : M S_ A) : readonly c -> leaves c.
Proof. intros Hc s _. apply pwp_readonly; [done|]. intros _. apply gives_back_refl. Qed.
Lemma leaves_bind {A B} (c : M S_ A) (k : A -> M S_ B) : leaves c -> (forall a, leaves (k a)) -> leaves (bind c k).
Proof.
  intros Hc Hk s Hs. unfold pwp, bind. specialize (Hc s Hs). unfold pwp in Hc. destruct (c s) as [a s1| |]; [|done|done]. specialize (Hk a s1 (gives_back_in_use _ _ Hc Hs)). unfold pwp in Hk. destruct (k a s1); [by eapply gives_back_trans|done|done].
Qed.
Lemma leaves_wp {A} (c : M S_ A) Q s : leaves c -> in_use s -> wp c Q s -> wp c (fun a s' => Q a s' /\ gives_back s s') s.
Proof. intros Hc Hs. unfold wp. specialize (Hc s Hs). unfold pwp in Hc. destruct (c s); done. Qed.

Lemma make_command_readonly cmd v : readonly (S := S_) (make_command cmd v).
Proof. unfold make_command, wep_split, printed, fits. solve_readonly. Qed.

(** A connection of the command was opened after [s], and [t] happened since. *)
Definition opened (s s1 : S_) (c : wpa_ctrl) (t : list sk_ev) : Prop := let p := wifi_conn s1 in
  p <> 0 /\ 0 <= c_s c /\ p ∉ o_heap (obs s) /\ c_s c ∉ o_fds (obs s) /\ ws_ctrl s1 = <[p := c]> (ws_ctrl s) /\ c_local c ∉ o_files (obs s) ∖ lost t /\
  obs s1 = SkObs (o_heap (obs s) ∪ {[p]}) (o_fds (obs s) ∪ {[c_s c]}) (o_files (obs s) ∖ lost t ∪ {[c_local c]}) (o_trace (obs s) ++ t).
Lemma opened_usable s s1 c t : opened s s1 c t -> usable s1 (wifi_conn s1) c.
Proof. intros (O1 & O2 & O3 & O4 & O5 & O6 & O7). unfold usable. rewrite O5, O7, lookup_insert_eq. cbn. set_solver. Qed.

Lemma open_leaves (s : S_) : wp sock_open (fun b s1 => if b then exists c t, opened s s1 c t /\ opening path true t /\ ws_log s1 = ws_log s else gives_back s s1) s.
Proof.
  unfold sock_open. apply wp_bind. eapply wp_mono; [by apply ctrl_open_spec|]. cbv beta. intros p s1 [(R1 & R2 & _) (t & Ht & H)]. apply wp_bind, wp_modify. destruct H as [(-> & Ec & H)|(fd & name & Hp & Hn & Hfd & Hfn & Ec & Hname & H)].
  - cbn [Z.eqb when]. apply wp_bind, wp_modify, wp_ret. cbn [negb]. split; [exact Ec|]. exists [NoConnection], t. cbn [ws_log]. rewrite R2. split; [done|]. split; [rewrite <-(app_nil_r t); constructor; [exact Ht|constructor]|exact H].
  - rewrite (proj2 (Z.eqb_neq _ _)) in * by done. cbn [when negb] in *. apply wp_bind, wp_ret, wp_ret. exists (mkCtrl fd name path), t. split; [|split; [done|exact R2]]. unfold opened. cbn [wifi_conn ws_ctrl c_s c_local]. done.
Qed.

Lemma request_leaves c ct t (s s1 : S_) : opened s s1 ct t -> ws_log s1 = ws_log s -> wp (sock_request c) (fun r s2 => exists t1 x, outcome (c_s ct) c 4096 t1 x /\ opened s s2 ct (t ++ t1) /\ ws_log s2 = ws_log s ++ [Asked c (reply_of x)]) s1.
Proof.
  intros Ho L0. unfold sock_request. apply wp_bind, wp_gets, wp_bind. eapply wp_mono; [apply (request_spec _ ct); [by eapply opened_usable|lia]|]. cbv beta. intros x s2 (E & _ & t1 & Eo & Hx). apply wp_bind, wp_modify, wp_ret. exists t1, x. split; [done|].
  destruct Ho as (O1 & O2 & O3 & O4 & O5 & O6 & O7). assert (wifi_conn s2 = wifi_conn s1 /\ ws_ctrl s2 = ws_ctrl s1 /\ ws_log s2 = ws_log s1) as (F1 & F2 & F3) by (rewrite E; done). split; [|cbn; congruence]. unfold opened. cbn [wifi_conn ws_ctrl]. match goal with |- context [obs (Wst ?k _ _ _ _ _ _ _)] => change (obs (Wst k _ _ _ _ _ _ _)) with (obs s2) end.
  rewrite lost_app, (lost_outcome _ _ _ _ _ Hx), (union_empty_r_L (lost t)), F1, F2, Eo, O7. do 6 (split; [done|]). unfold adds. cbn. by rewrite app_assoc.
Qed.

Lemma close_leaves ct l t (s s1 : S_) : in_use s -> opened s s1 ct t -> ws_log s1 = ws_log s ++ l -> carried l t -> wp sock_close (fun _ s2 => gives_back s s2) s1.
Proof.
  intros Hin Ho L0 Hl. pose proof (opened_usable _ _ _ _ Ho) as Hu. destruct Ho as (O1 & O2 & O3 & O4 & O5 & O6 & O7). unfold sock_close. apply wp_bind, wp_gets. eapply wp_mono; [by apply (ctrl_close_spec _ ct)|]. cbv beta. intros _ s2 ((_ & C2 & _) & C6 & C7). split; [rewrite C6, O5; apply delete_insert_id; destruct (ws_ctrl s !! wifi_conn s1) eqn:Ep; [|done]; destruct O3; by eapply Hin|].
  exists l, t. split; [congruence|]. split; [done|]. rewrite C7, O7. cbn [o_heap o_fds o_files o_trace]. f_equal; set_solver.
Qed.

Lemma send_leaves cmd v res n : leaves (wifi_send_command cmd v res n).
Proof.
  intros s Hin. unfold wifi_send_command. apply pwp_bind, pwp_readonly; [apply make_command_readonly|]. intros [c|]; [|apply pwp_ret, gives_back_refl]. apply pwp_bind. eapply pwp_wp; [apply open_leaves|]. cbv beta. intros [] s1 Ho; cbn [negb]; [|by apply pwp_ret]. destruct Ho as (ct & t & Ho & Ht & L0).
  apply pwp_bind. eapply pwp_wp; [exact (request_leaves c ct t s s1 Ho L0)|]. cbv beta. intros r s2 (t1 & x & Hx & Ho2 & L2). apply pwp_bind, pwp_readonly; [destruct (fst r <? 0); [apply readonly_ret|apply readonly_bind; [apply analyse_readonly|intros; apply readonly_ret]]|]. intros y. apply pwp_bind. eapply pwp_wp; [apply (close_leaves ct _ _ s s2 Hin Ho2 L2)|cbv beta; intros _ s3 H; by apply pwp_ret].
  rewrite <-(app_nil_r t1). eapply carried_asked; [done|done|constructor].
Qed.

Local Ltac solve_leaves := repeat first [progress intros|apply send_leaves|solve [apply leaves_readonly; solve_readonly]|apply leaves_bind|case_match].

Lemma wep_loop_readonly n : forall i l net, readonly (S := S_) (wep_loop n i l net).
Proof. induction n as [|n IH]; intros i l net; cbn [wep_loop]; solve_readonly. Qed.
Lemma step_leaves cmd v res k : (forall x, leaves (k x)) -> leaves (step cmd v res k).
Proof. intros Hk. unfold step, send_int. solve_leaves. apply Hk. Qed.
Lemma block_scan_leaves fuel : forall l st t, leaves (block_scan_loop fuel l st t).
Proof.
  induction fuel as [|fuel IH]; intros l st t; cbn [block_scan_loop]; [by apply leaves_readonly|]. unfold wifi_get_status, wifi_get_scan_result, send_int. solve_leaves. apply IH.
Qed.
Lemma join_leaves net : leaves (wifi_join_network net).
Proof.
  unfold wifi_join_network. apply leaves_bind.
  - destruct (wep_length _); [|by apply leaves_readonly]. apply leaves_bind; [unfold wifi_get_block_scan_result; apply leaves_bind; [unfold wifi_scan, send_int; solve_leaves|intros; apply block_scan_leaves]|]. intros x. destruct (snd x); apply leaves_readonly; [apply wep_loop_readonly|done].
  - intros net'. unfold join_commands, wifi_blacklist_clear, plain_command. apply leaves_bind; [unfold send_int; solve_leaves|]. intros _. apply leaves_bind; [unfold send_int; solve_leaves|]. intros x. destruct (fst x <? 0); [by apply leaves_readonly|]. apply leaves_bind; [|intros; by apply leaves_readonly]. apply step_leaves. intros r. unfold set_key, wep_param, fits.
    destruct (n_key_mgmt _); repeat first [apply step_leaves|progress intros|apply leaves_bind|solve [apply leaves_readonly; solve_readonly]|case_match].
Qed.

(** C40: a request over a connection.  It sends the command as one message, skips messages
    that start with [<], and ends with the first other one, with the result 0 and its length;
    the buffer then holds that message, with the rest of longer messages before it behind it
    (with no event in between, exactly the message).  The result is negative only when the
    command could not be sent (-1), when there was a pause before the answer (-2), or when
    waiting or receiving failed (their result), and these are the last things that happened on
    the socket.  No message is stored beyond the length of the buffer, and nothing else of the
    sockets and of the file changes. *)
Theorem wpa_request_correct p c cmd len (s : S_) : usable s p c -> 0 <= len -> wp (wpa_ctrl_request p cmd len false) (fun x s' => s' = at_k s (ws_k s') /\ (length x.1.2 <= Z.to_nat len)%nat /\
    exists t, obs s' = adds t (obs s) /\
      ((t = [NotSent (c_s c) cmd] /\ x = (-1, [], len)) \/
       exists evs last, t = Sent (c_s c) cmd :: (Got (c_s c) <$> evs) ++ [last] /\ Forall is_event evs /\ ending (c_s c) len (foldl over [] evs) last x /\
         (forall ans, last = Got (c_s c) ans -> evs = [] -> x.1.2 = ans))) s.
Proof.
  intros Hu Hl. eapply wp_mono; [by apply (request_spec p c)|]. cbv beta. intros x s' (E & Hx & t & Et & H). split; [exact E|]. split; [exact Hx|]. exists t. split; [exact Et|]. destruct H as [H|(evs & last & Ht & He & Hlast)]; [by left|]. right. exists evs, last. do 3 (split; [done|]).
  intros ans -> ->. destruct Hlast as (_ & _ & ->). cbn. unfold over. by rewrite drop_nil, app_nil_r.
Qed.

(** C20: joining a network over the control socket, [wpa_command.c] on top of [wpa_ctrl.c],
    with a key that has none of the lengths of a WEP key.  The conversation is the one of the
    commands proved against the interface, and what happens on the sockets is exactly what
    carries it: for each command an open connection, the command as one message, events that
    are skipped, and the message that is its answer; a command has no answer only when sending
    or waiting failed or there was a pause, and no connection only when memory, a socket, its
    name or the connection could not be had.  Afterwards every connection is closed: memory
    and descriptors are as before; no name of a socket is left behind, and of the others
    those are gone that were in use when the code wanted to bind them. *)
Theorem join_over_sockets net (s : S_) : in_use s -> net_ok net -> wep_length (length (n_psk net)) = false ->
  wp (wifi_join_network net) (fun x s' => joined net s x s' /\ ws_ctrl s' = ws_ctrl s /\
    exists l t, ws_log s' = ws_log s ++ l /\ carried l t /\ obs s' = SkObs (o_heap (obs s)) (o_fds (obs s)) (o_files (obs s) ∖ lost t) (o_trace (obs s) ++ t)) s.
Proof. intros Hin Hn Hw. apply (leaves_wp (wifi_join_network net) (joined net s)); [apply join_leaves|done|by apply join_network_spec]. Qed.

(** ** The event monitor *)

(** The connection [p] was opened after [s], and the descriptors [e] besides. *)
Definition watching (s s1 : S_) (p : Z) (c : wpa_ctrl) (e : gset Z) : Prop := p <> 0 /\ 0 <= c_s c /\ p ∉ o_heap (obs s) /\ c_s c ∉ o_fds (obs s) ∪ e /\ ws_ctrl s1 = <[p := c]> (ws_ctrl s) /\ o_heap (obs s1) = o_heap (obs s) ∪ {[p]} /\ o_fds (obs s1) = o_fds (obs s) ∪ {[c_s c]} ∪ e.
(** All is given back but the descriptors [e]. *)
Definition unwatched (s s1 : S_) (e : gset Z) : Prop := ws_ctrl s1 = ws_ctrl s /\ o_heap (obs s1) = o_heap (obs s) /\ o_fds (obs s1) = o_fds (obs s) ∪ e /\ monitor_conn s1 = 0.

Lemma watching_usable s s1 p c e : watching s s1 p c e -> usable s1 p c.
Proof. intros (W1 & W2 & W3 & W4 & W5 & W6 & W7). unfold usable. rewrite W5, W6, W7, lookup_insert_eq. set_solver. Qed.

Lemma unwatch p c e (s s1 : S_) (Q : unit -> S_ -> Prop) : in_use s -> watching s s1 p c e -> (forall s2, unwatched s s2 e -> exit_sockets s2 = exit_sockets s1 -> Q tt s2) -> wp (wpa_ctrl_close p ;;; set_monitor 0) Q s1.
Proof.
  intros Hin Hw HQ. apply wp_bind. eapply wp_mono; [apply (ctrl_close_spec p c); by eapply watching_usable|]. cbv beta. intros _ s2 ((_ & _ & _ & _ & X) & C6 & C7). apply wp_modify, HQ; [|exact X]. destruct Hw as (W1 & W2 & W3 & W4 & W5 & W6 & W7). unfold unwatched, obs in *. cbn [ws_ctrl ws_k monitor_conn]. rewrite C6, C7, W5. cbn [o_heap o_fds]. rewrite W6, W7.
  split; [apply delete_insert_id; destruct (ws_ctrl s !! p) eqn:Ep; [|done]; destruct W3; by eapply Hin|]. set_solver.
Qed.

Lemma attach_keeps p c (s : S_) : usable s p c -> wp (wpa_ctrl_attach p) (fun _ s' => s' = at_k s (ws_k s') /\ o_heap (obs s') = o_heap (obs s) /\ o_fds (obs s') = o_fds (obs s)) s.
Proof.
  intros Hu. unfold wpa_ctrl_attach, wpa_ctrl_attach_helper. apply wp_bind. eapply wp_mono; [apply (request_spec p _ _ 10 _ Hu); lia|]. cbv beta. intros [[r buf] len] s3 (E3 & _ & H3).
  assert (o_heap (obs s3) = o_heap (obs s) /\ o_fds (obs s3) = o_fds (obs s)) as H. { destruct H3 as (t & -> & _). done. } destruct (r <? 0); [by apply wp_ret|]. by destruct (_ && _); apply wp_ret.
Qed.

(** [(a; b); c] for [a; (b; c)] *)
Lemma close_then {A} (c d : M S_ unit) (k : M S_ A) Q s : wp (c ;;; d) (fun _ => wp k Q) s -> wp (c ;;; d ;;; k) Q s.
Proof. unfold wp, bind. destruct (c s) as [? s1| |]; [|done|done]. by destruct (d s1). Qed.

Lemma connect_spec (s : S_) : in_use s -> wp (wifi_connect_moni_socket path) (fun r s' => (r = -1 /\ unwatched s s' ∅) \/
    (r = 0 /\ exists c a b, watching s s' (monitor_conn s') c {[a; b]} /\ a ∉ o_fds (obs s) /\ b ∉ o_fds (obs s) /\ exit_sockets s' = (a, b))) s.
Proof.
  intros Hin. unfold wifi_connect_moni_socket. apply wp_bind. eapply wp_mono; [by apply ctrl_open_spec|]. cbv beta. intros p s1 [_ (t & _ & H)]. apply wp_bind, wp_modify. destruct H as [(-> & Ec & O1)|(fd & name & Hp & Hn & Hfd & Hfn & Ec & _ & O1)].
  { apply wp_ret. left. split; [done|]. unfold unwatched, obs in *. cbn. rewrite Ec, O1. cbn. set_solver. }
  rewrite (proj2 (Z.eqb_neq _ _)) by done. set (c := mkCtrl fd name path). set (s2 := Wst _ _ _ _ _ _ _ _). assert (watching s s2 p c ∅) as Hw. { unfold watching. change (obs s2) with (obs s1). cbn [ws_ctrl s2 c_s c]. rewrite Ec, O1. cbn [o_heap o_fds]. set_solver. }
  apply wp_bind. eapply wp_mono; [apply (attach_keeps p c); by eapply watching_usable|]. cbv beta. intros r s3 (E3 & H31 & H32). assert (watching s s3 p c ∅) as Hw3. { destruct Hw as (W1 & W2 & W3 & W4 & W5 & W6 & W7). unfold watching. rewrite H31, H32, E3. done. }
  destruct (r =? 0); cbn [negb]; [|apply close_then, (unwatch p c ∅ s); [done|done|]; intros s4 H4 _; apply wp_ret; by left].
  apply wp_bind. eapply sk_spec; [apply socketpair_ok|]. cbv beta. fold (obs s3). intros [v2 [a b]] k4 H4; cbn [fst snd] in H4 |- *. destruct Hw3 as (W1 & W2 & W3 & W4 & W5 & W6 & W7). destruct H4 as [[-> E4]|(-> & Ha & Hb & Hab & E4)]; cbn [Z.eqb Pos.eqb].
  - apply close_then, (unwatch p c ∅ s); [done| |intros s4 H4 _; apply wp_ret; by left]. unfold watching, obs in *. cbn [ws_k ws_ctrl at_k]. by rewrite E4.
  - apply wp_bind, wp_modify, wp_ret. right. split; [done|]. exists c, a, b. rewrite E3. cbn [monitor_conn exit_sockets at_k]. change (monitor_conn s2) with p. unfold watching, obs in *. cbn [ws_k ws_ctrl at_k]. rewrite E4. cbn [with_fds o_heap o_fds]. rewrite W7 in *. rewrite W6. rewrite E3 in W5. set_solver.
Qed.

(** The monitor is connected and released again: memory and the connection are given back,
    but the two sockets that were meant to end it stay open. *)
Theorem monitor_leaves_sockets (s : S_) : in_use s -> wp (r <- wifi_connect_moni_socket path ;; if r =? 0 then wifi_monitor_release ;;; ret r else ret r) (fun r s' =>
    ws_ctrl s' = ws_ctrl s /\ o_heap (obs s') = o_heap (obs s) /\ monitor_conn s' = 0 /\
    ((r = -1 /\ o_fds (obs s') = o_fds (obs s)) \/ (r = 0 /\ exists a b, a ∉ o_fds (obs s) /\ b ∉ o_fds (obs s) /\ exit_sockets s' = (a, b) /\ o_fds (obs s') = o_fds (obs s) ∪ {[a; b]}))) s.
Proof.
  intros Hin. apply wp_bind. eapply wp_mono; [by apply connect_spec|]. cbv beta. intros r s1 [[-> (U1 & U2 & U3 & U4)]|(-> & c & a & b & Hw & Ha & Hb & Ex)].
  - apply wp_ret. do 3 (split; [done|]). left. split; [done|]. set_solver.
  - cbn [Z.eqb]. apply wp_bind. unfold wifi_monitor_release. apply wp_bind, wp_gets, (unwatch _ c {[a; b]} s); [done|done|]. intros s2 (U1 & U2 & U3 & U4) Ex2. apply wp_ret. do 3 (split; [done|]). right. split; [done|]. exists a, b. rewrite Ex2. done.
Qed.
End Props.

(** ** A machine for evaluation *)

(** Sockets that always work, with a supplicant that answers each message with an event and
    the answer of [demo_answer]; the mailbox holds what is still to be read. *)
Definition mach : Type := sk_obs * list (list Z).

#[local] Instance demo_sockets : Sockets mach.
Proof.
  refine {|
    os_malloc k := let p := above (elements (o_heap k.1)) in Ret p (with_heap (o_heap k.1 ∪ {[p]}) k.1, k.2);
    os_free p k := Ret tt (with_heap (o_heap k.1 ∖ {[p]}) k.1, k.2);
    so_socket k := let fd := above (elements (o_fds k.1)) in Ret fd (with_fds (o_fds k.1 ∪ {[fd]}) k.1, k.2);
    so_bind fd path k := if decide (path ∈ o_files k.1) then Ret (-1, true) (adds [NoBind path true] k.1, k.2) else Ret (0, false) (with_names (o_files k.1 ∪ {[path]}) k.1, k.2);
    so_unlink path k := Ret tt (with_names (o_files k.1 ∖ {[path]}) k.1, k.2);
    so_connect _ _ k := Ret 0 k;
    so_close fd k := Ret tt (with_fds (o_fds k.1 ∖ {[fd]}) k.1, k.2);
    so_send fd d k := Ret 0 (adds [Sent fd d] k.1, [lit "<3>"; demo_answer d]);
    so_select fd k := match k.2 with [] => Ret (0, false) (adds [Silence fd] k.1, []) | _ => Ret (1, true) k end;
    so_recv fd n k := match k.2 with [] => Ret (-1, []) (adds [NotGot fd (-1)] k.1, []) | d :: ds => let d := take (Z.to_nat n) d in Ret (Z.of_nat (length d), d) (adds [Got fd d] k.1, ds) end;
    so_socketpair k := Ret (-1, (0, 0)) k;
    so_poll _ _ k := Ret (0, false) k;
    so_pid := 42;
    so_obs k := k.1;
    so_left k _ := length k.2 |}.
  - lia.
  - intros k. right. destruct (above_fresh (o_heap k.1)) as (? & ? & ?). done.
  - done.
  - intros k. right. destruct (above_fresh (o_fds k.1)) as (? & ? & ?). done.
  - intros fd path k _. unfold wp. destruct (decide (path ∈ o_files k.1)); [left|right]; cbn; (split; [lia|]); done.
  - done.
  - done.
  - done.
  - done.
  - intros fd k _. unfold wp. destruct k as [o [|d ds]]; cbn; (split; [done|]); [done|]. split; [done|lia].
  - intros fd n k _ Hn. unfold wp. destruct k as [o [|d ds]]; cbn; [left; by split; [lia|]|]. right. split; [done|]. rewrite length_take. split; [lia|done].
  - intros k. by left.
  - done.
Defined.

Definition demo_path : list Z := lit "/var/run/wpa_supplicant/wlan0".
Lemma demo_path_fits : (length demo_path < SUN_PATH)%nat.
Proof. vm_compute. lia. Qed.
Definition demo_wst : wst mach := Wst (SkObs ∅ ∅ ∅ [], []) ∅ 0 [] [] 0 0 (0, 0).
Lemma demo_in_use : in_use demo_wst.
Proof. intros p c H. change ((∅ : gmap Z wpa_ctrl) !! p = Some c) in H. by rewrite lookup_empty in H. Qed.

(** The answer to [ADD_NETWORK] is 3; received over the event, it is read as 33. *)
Definition sent_on (t : list sk_ev) : list (list Z) := omap (fun e => match e with Sent _ d => Some d | _ => None end) t.
Lemma join_over_sockets_witness :
  wp (wifi_join_network (H := socket_ctrl demo_path demo_path_fits) demo_net) (fun x s' => o_fds (obs s') = ∅ /\ o_heap (obs s') = ∅ /\ o_files (obs s') = ∅) demo_wst /\
  wp (wifi_join_network (H := socket_ctrl demo_path demo_path_fits) demo_net) (fun x s' => x.1 = 0 /\ sent_on (o_trace (obs s')) = [lit "BLACKLIST clear"; lit "ADD_NETWORK"] ++ join_script (with_id 33 demo_net)) demo_wst.
Proof.
  split; [|by vm_compute]. eapply wp_mono.
  - refine (join_over_sockets demo_path demo_path_fits demo_net demo_wst demo_in_use _ _); [|reflexivity]. split; [vm_compute; split; (reflexivity || discriminate)|]. split; vm_compute; lia.
  - cbv beta. intros x s' (_ & _ & l & t & _ & _ & ->). split; [done|]. split; [done|]. cbn [o_files]. change (o_files (obs demo_wst)) with (∅ : gset (list Z)). set_solver.
Defined.

Definition demo_conn : wst mach := Wst (SkObs {[1]} {[3]} ∅ [], []) {[1 := mkCtrl 3 [] []]} 0 [] [] 1 0 (0, 0).
Lemma wpa_request_correct_witness :
  wp (Ctrl.wpa_ctrl_request 1 (lit "SCAN") 4096 false) (fun x s' => (length x.1.2 <= 4096)%nat) demo_conn /\
  wp (Ctrl.wpa_ctrl_request 1 (lit "SCAN") 4096 false) (fun x s' => x = (0, lit "OK>", 2)) demo_conn.
Proof.
  split; [|by vm_compute]. eapply wp_mono.
  - refine (wpa_request_correct 1 (mkCtrl 3 [] []) (lit "SCAN") 4096 demo_conn _ _); [|lia]. unfold usable. cbn. split; [done|]. split; [reflexivity|]. split; [set_solver|]. split; [set_solver|lia].
  - cbv beta. intros x s' (_ & H & _). exact H.
Defined.
