(* ===== verification/TklCamera.v ===== *)
(** * Camera: [src/tkl_camera/tkl_camera_v4l2.c]

    A handle is a context on the heap of the C library: a descriptor of the video
    device, and while the camera streams an array of buffers mapped from the kernel.
    The application takes filled buffers out of the driver ([dequeue]) and gives them
    back ([queue]).  The video device is a parameter, the class [V4l2], with what the
    V4L2 documentation says about descriptors, mappings and the buffers a driver holds;
    the C library's allocator is the class [Allocator]. *)

From S2P Require Import Prelude Alloc.

(** ** The video device *)

Definition EINTR : Z := 4.
Definition EAGAIN : Z := 11.
Definition V4L2_CAP_VIDEO_CAPTURE : Z := 0x1.
Definition V4L2_CAP_STREAMING : Z := 0x04000000.
Definition V4L2_PIX_FMT_YUYV : Z := 0x56595559.
Definition V4L2_PIX_FMT_MJPEG : Z := 0x47504A4D.
Definition MAP_FAILED : Z := -1.
(** The number of descriptors a set of [select] has place for, which is also the default
    limit of the descriptors of a process. *)
Definition FD_SETSIZE : Z := 1024.

(** The requests of [ioctl] with the fields the code fills in, and the fields it reads
    from the answers. *)
Inductive v4l2_req :=
| VIDIOC_QUERYCAP
| VIDIOC_S_FMT (width height pixelformat : Z)
| VIDIOC_S_PARM (numerator denominator : Z)
| VIDIOC_REQBUFS (count : Z)
| VIDIOC_QUERYBUF (index : Z)
| VIDIOC_QBUF (index : Z)
| VIDIOC_DQBUF
| VIDIOC_STREAMON
| VIDIOC_STREAMOFF.

Record v4l2_ans := mkAns { a_capabilities : Z; a_width : Z; a_height : Z; a_count : Z; a_index : Z; a_length : Z; a_offset : Z; a_bytesused : Z }.
Inductive ioctl_res := IOk (a : v4l2_ans) | IFail (errno : Z).
Inductive select_res := SelReady | SelTimeout | SelFail (errno : Z).

(** What a driver holds for a descriptor: the number of its buffers, and those that are
    queued with it. *)
Record driver := mkDrv { d_count : Z; d_queued : gset Z }.

(** What a successful request does to it. *)
Definition request_law (r : v4l2_req) (a : v4l2_ans) (d d' : driver) : Prop :=
  match r with
  | VIDIOC_REQBUFS _ => d' = mkDrv (a_count a) ∅ /\ 0 <= a_count a <= 65536
  | VIDIOC_QUERYBUF i => d' = d /\ 0 < a_length a < 4294967296
  | VIDIOC_QBUF i => 0 <= i < d_count d /\ i ∉ d_queued d /\ d' = mkDrv (d_count d) ({[i]} ∪ d_queued d)
  | VIDIOC_DQBUF => a_index a ∈ d_queued d /\ 0 <= a_index a < d_count d /\ d' = mkDrv (d_count d) (d_queued d ∖ {[a_index a]})
  | VIDIOC_STREAMOFF => d' = mkDrv (d_count d) ∅
  | _ => d' = d
  end.

Class V4l2 (K : Type) := {
  v_open : list Z -> M K Z;
  v_close : Z -> M K unit;
  v_ioctl : Z -> v4l2_req -> M K ioctl_res;
  v_mmap : Z -> Z -> Z -> M K Z;             (** length, descriptor, offset *)
  v_munmap : Z -> Z -> M K unit;
  v_select : Z -> M K select_res;
  (** The open descriptors, the mappings (address and length), the driver of a
      descriptor, and how many more calls will fail only because of a signal or because
      there is nothing to take yet. *)
  v_fds : K -> list Z;
  v_maps : K -> list (Z * Z);
  v_drv : K -> Z -> driver;
  v_patience : K -> nat;
  v_open_ok path k : wp (v_open path) (fun fd k' => v_maps k' = v_maps k /\ (v_patience k' <= v_patience k)%nat /\
    ((fd < 0 /\ v_fds k' = v_fds k /\ v_drv k' = v_drv k) \/
     (0 <= fd < FD_SETSIZE /\ fd ∉ v_fds k /\ v_fds k' ≡ₚ fd :: v_fds k /\ forall g, g <> fd -> v_drv k' g = v_drv k g))) k;
  v_close_ok fd k : fd ∈ v_fds k -> wp (v_close fd) (fun _ k' => v_maps k' = v_maps k /\ (v_patience k' <= v_patience k)%nat /\
    v_fds k ≡ₚ fd :: v_fds k' /\ forall g, g <> fd -> v_drv k' g = v_drv k g) k;
  v_ioctl_ok fd r k : fd ∈ v_fds k -> wp (v_ioctl fd r) (fun x k' => v_maps k' = v_maps k /\ v_fds k' = v_fds k /\
    (forall g, g <> fd -> v_drv k' g = v_drv k g) /\ (v_patience k' <= v_patience k)%nat /\
    match x with
    | IOk a => request_law r a (v_drv k fd) (v_drv k' fd)
    | IFail e => v_drv k' fd = v_drv k fd /\ (e = EINTR \/ e = EAGAIN -> (v_patience k' < v_patience k)%nat)
    end) k;
  v_mmap_ok len fd off k : fd ∈ v_fds k -> 0 < len -> wp (v_mmap len fd off) (fun p k' => v_fds k' = v_fds k /\ v_drv k' = v_drv k /\ (v_patience k' <= v_patience k)%nat /\
    ((p = MAP_FAILED /\ v_maps k' = v_maps k) \/ (0 < p /\ p ∉ (v_maps k).*1 /\ v_maps k' ≡ₚ (p, len) :: v_maps k))) k;
  v_munmap_ok p len k : (p, len) ∈ v_maps k -> wp (v_munmap p len) (fun _ k' => v_fds k' = v_fds k /\ v_drv k' = v_drv k /\ (v_patience k' <= v_patience k)%nat /\
    v_maps k ≡ₚ (p, len) :: v_maps k') k;
  v_select_ok fd k : fd ∈ v_fds k -> wp (v_select fd) (fun x k' => v_fds k' = v_fds k /\ v_drv k' = v_drv k /\ v_maps k' = v_maps k /\ (v_patience k' <= v_patience k)%nat /\
    (x = SelFail EINTR -> (v_patience k' < v_patience k)%nat)) k
}.

(** ** Data *)

Definition TKL_CAMERA_V4L2_PIXFMT_YUYV : Z := 0.
Definition TKL_CAMERA_V4L2_PIXFMT_MJPEG : Z := 1.
Record TKL_CAMERA_V4L2_CFG_T := mkCamCfg { cf_devnode : option (list Z); cf_width : Z; cf_height : Z; cf_fps : Z; cf_buffer_count : Z; cf_pixfmt : Z }.

Record v4l2_buf_t := mkBuf { b_start : Z; b_length : Z }.
Record tkl_v4l2_ctx_t := mkCtx {
  cx_fd : Z; cx_streaming : bool; cx_width : Z; cx_height : Z; cx_fps : Z; cx_buffer_count : Z; cx_fourcc : Z; cx_buffers : Z; cx_buffers_num : Z }.
Definition with_fd v x := mkCtx v (cx_streaming x) (cx_width x) (cx_height x) (cx_fps x) (cx_buffer_count x) (cx_fourcc x) (cx_buffers x) (cx_buffers_num x).
Definition with_streaming v x := mkCtx (cx_fd x) v (cx_width x) (cx_height x) (cx_fps x) (cx_buffer_count x) (cx_fourcc x) (cx_buffers x) (cx_buffers_num x).
Definition cam_with_size w h x := mkCtx (cx_fd x) (cx_streaming x) w h (cx_fps x) (cx_buffer_count x) (cx_fourcc x) (cx_buffers x) (cx_buffers_num x).
Definition with_fourcc v x := mkCtx (cx_fd x) (cx_streaming x) (cx_width x) (cx_height x) (cx_fps x) (cx_buffer_count x) v (cx_buffers x) (cx_buffers_num x).
Definition with_buffers p n x := mkCtx (cx_fd x) (cx_streaming x) (cx_width x) (cx_height x) (cx_fps x) (cx_buffer_count x) (cx_fourcc x) p n.

(** Objects of the C library's heap. *)
Inductive camobj := OCtx (x : tkl_v4l2_ctx_t) | OBufs (l : list v4l2_buf_t).
Definition SIZEOF_CTX : Z := 48.
Definition SIZEOF_V4L2_BUF_T : Z := 16.
Definition cam_size (o : camobj) : Z :=
  match o with OCtx _ => SIZEOF_CTX | OBufs l => SIZEOF_V4L2_BUF_T * Z.of_nat (length l) end.

Record cam (A K : Type) := Cam { c_own : owned A camobj; c_dev : K }.
Arguments Cam {A K}. Arguments c_own {A K}. Arguments c_dev {A K}.

Section Camera.
Context {A K : Type} `{!Allocator A, !V4l2 K}.
Local Abbreviation W := (M (cam A K)).
(** Bound on the repetitions of an interrupted call. *)
Variable fuel : nat.

Definition on_heap {R} (c : M (owned A camobj) R) : W R := fun s =>
  match c (c_own s) with Ret r o => Ret r (Cam o (c_dev s)) | Fault => Fault | Diverge => Diverge end.
Definition on_dev {R} (c : M K R) : W R := fun s =>
  match c (c_dev s) with Ret r k => Ret r (Cam (c_own s) k) | Fault => Fault | Diverge => Diverge end.

Definition get_ctx (p : Z) : W tkl_v4l2_ctx_t := o <- on_heap (get_obj p) ;; match o with OCtx x => ret x | _ => fault end.
Definition set_ctx (p : Z) (x : tkl_v4l2_ctx_t) : W unit := on_heap (set_obj p (OCtx x)).
Definition upd_ctx (p : Z) (f : tkl_v4l2_ctx_t -> tkl_v4l2_ctx_t) : W unit := x <- get_ctx p ;; set_ctx p (f x).
(** [calloc] of one object, zero when there is no memory, and [free]. *)
Definition calloc (o : camobj) : W Z :=
  p <- on_heap (lift_alloc (al_malloc (cam_size o))) ;;
  if p =? 0 then ret 0 else on_heap (init_obj p o) ;;; ret p.
Definition free (p : Z) : W unit := on_heap (bind (lift_alloc (al_free p)) (fun _ => drop_obj p)).
(** [ctx->buffers[i]] *)
Definition buf_at (bufs i : Z) : W v4l2_buf_t :=
  o <- on_heap (get_obj bufs) ;;
  match o with OBufs l => if 0 <=? i then match l !! Z.to_nat i with Some b => ret b | None => fault end else fault | _ => fault end.
Definition set_buf (bufs i : Z) (b : v4l2_buf_t) : W unit :=
  o <- on_heap (get_obj bufs) ;;
  match o with OBufs l => if (0 <=? i) && (i <? Z.of_nat (length l)) then on_heap (set_obj bufs (OBufs (<[Z.to_nat i := b]> l))) else fault | _ => fault end.

(** ** Operations *)

Fixpoint xioctl_loop (n : nat) (fd : Z) (request : v4l2_req) : W ioctl_res :=
  match n with
  | O => out_of_fuel
  | S n =>
    r <- on_dev (v_ioctl fd request) ;;
    match r with
    | IFail e => if e =? EINTR then xioctl_loop n fd request else ret r
    | IOk _ => ret r
    end
  end.
Definition xioctl (fd : Z) (request : v4l2_req) : W ioctl_res := xioctl_loop fuel fd request.

Definition v4l2_set_format_and_fps (ctx : Z) : W OPERATE_RET :=
  x <- get_ctx ctx ;;
  r <- xioctl (cx_fd x) (VIDIOC_S_FMT (cx_width x) (cx_height x) (cx_fourcc x)) ;;
  match r with
  | IFail _ => ret OPRT_COM_ERROR
  | IOk fmt =>
    _ <- xioctl (cx_fd x) (VIDIOC_S_PARM 1 (if cx_fps x =? 0 then 30 else cx_fps x)) ;;
    upd_ctx ctx (cam_with_size (a_width fmt) (a_height fmt)) ;;;
    ret OPRT_OK
  end.

(** The handle through [hdl], when there is one; [hdl_null]: [hdl] is a null pointer. *)
Definition tkl_camera_v4l2_open (hdl_null : bool) (cfg : option TKL_CAMERA_V4L2_CFG_T) : W (OPERATE_RET * option Z) :=
  match hdl_null, cfg with
  | false, Some cfg =>
    match cf_devnode cfg with
    | None => ret (OPRT_INVALID_PARM, None)
    | Some devnode =>
      ctx <- calloc (OCtx (mkCtx 0 false 0 0 0 0 0 0 0)) ;;
      if ctx =? 0 then ret (OPRT_MALLOC_FAILED, None)
      else
        set_ctx ctx (mkCtx (-1) false (cf_width cfg) (cf_height cfg) (cf_fps cfg) (if cf_buffer_count cfg =? 0 then 4 else cf_buffer_count cfg) 0 0 0) ;;;
        let fourcc :=
          if cf_pixfmt cfg =? TKL_CAMERA_V4L2_PIXFMT_YUYV then Some V4L2_PIX_FMT_YUYV
          else if cf_pixfmt cfg =? TKL_CAMERA_V4L2_PIXFMT_MJPEG then Some V4L2_PIX_FMT_MJPEG else None in
        match fourcc with
        | None => free ctx ;;; ret (OPRT_INVALID_PARM, None)
        | Some fourcc =>
          upd_ctx ctx (with_fourcc fourcc) ;;;
          fd <- on_dev (v_open devnode) ;;
          upd_ctx ctx (with_fd fd) ;;;
          if fd <? 0 then free ctx ;;; ret (OPRT_COM_ERROR, None)
          else
            r <- xioctl fd VIDIOC_QUERYCAP ;;
            match r with
            | IFail _ => on_dev (v_close fd) ;;; free ctx ;;; ret (OPRT_COM_ERROR, None)
            | IOk cap =>
              if Z.land (a_capabilities cap) V4L2_CAP_VIDEO_CAPTURE =? 0 then
                on_dev (v_close fd) ;;; free ctx ;;; ret (OPRT_NOT_SUPPORTED, None)
              else if Z.land (a_capabilities cap) V4L2_CAP_STREAMING =? 0 then
                on_dev (v_close fd) ;;; free ctx ;;; ret (OPRT_NOT_SUPPORTED, None)
              else
                rt <- v4l2_set_format_and_fps ctx ;;
                if bool_decide (rt <> OPRT_OK) then on_dev (v_close fd) ;;; free ctx ;;; ret (rt, None)
                else ret (OPRT_OK, Some ctx)
            end
        end
    end
  | _, _ => ret (OPRT_INVALID_PARM, None)
  end.

(** The loop of [tkl_camera_v4l2_stop] over the buffers: [n] of them from [i] on. *)
Fixpoint unmap_loop (n : nat) (bufs i : Z) : W unit :=
  match n with
  | O => ret tt
  | S n =>
    b <- buf_at bufs i ;;
    when (negb (b_start b =? 0) && negb (b_length b =? 0)) (on_dev (v_munmap (b_start b) (b_length b))) ;;;
    unmap_loop n bufs (i + 1)
  end.

Definition tkl_camera_v4l2_stop (hdl : Z) : W OPERATE_RET :=
  if hdl =? 0 then ret OPRT_INVALID_PARM
  else
    x <- get_ctx hdl ;;
    if cx_fd x <? 0 then ret OPRT_INVALID_PARM
    else
      (if cx_streaming x then _ <- xioctl (cx_fd x) VIDIOC_STREAMOFF ;; upd_ctx hdl (with_streaming false) else ret tt) ;;;
      x <- get_ctx hdl ;;
      when (negb (cx_buffers x =? 0)) (
        unmap_loop (Z.to_nat (cx_buffers_num x)) (cx_buffers x) 0 ;;;
        free (cx_buffers x) ;;;
        upd_ctx hdl (with_buffers 0 0)) ;;;
      ret OPRT_OK.

(** The loop of [tkl_camera_v4l2_start]; [false] when it left through an error. *)
Fixpoint map_loop (n : nat) (hdl fd bufs i : Z) : W bool :=
  match n with
  | O => ret true
  | S n =>
    r <- xioctl fd (VIDIOC_QUERYBUF i) ;;
    match r with
    | IFail _ => _ <- tkl_camera_v4l2_stop hdl ;; ret false
    | IOk buf =>
      b <- buf_at bufs i ;;
      set_buf bufs i (mkBuf (b_start b) (a_length buf)) ;;;
      start <- on_dev (v_mmap (a_length buf) fd (a_offset buf)) ;;
      set_buf bufs i (mkBuf start (a_length buf)) ;;;
      if start =? MAP_FAILED then
        set_buf bufs i (mkBuf 0 (a_length buf)) ;;;
        _ <- tkl_camera_v4l2_stop hdl ;; ret false
      else
        r <- xioctl fd (VIDIOC_QBUF i) ;;
        match r with
        | IFail _ => _ <- tkl_camera_v4l2_stop hdl ;; ret false
        | IOk _ => map_loop n hdl fd bufs (i + 1)
        end
    end
  end.

Definition tkl_camera_v4l2_start (hdl : Z) : W OPERATE_RET :=
  if hdl =? 0 then ret OPRT_INVALID_PARM
  else
    x <- get_ctx hdl ;;
    if cx_fd x <? 0 then ret OPRT_INVALID_PARM
    else if cx_streaming x then ret OPRT_OK
    else
      r <- xioctl (cx_fd x) (VIDIOC_REQBUFS (cx_buffer_count x)) ;;
      match r with
      | IFail _ => ret OPRT_COM_ERROR
      | IOk req =>
        if a_count req <? 2 then ret OPRT_COM_ERROR
        else
          bufs <- calloc (OBufs (replicate (Z.to_nat (a_count req)) (mkBuf 0 0))) ;;
          upd_ctx hdl (fun x => with_buffers bufs (cx_buffers_num x) x) ;;;
          if bufs =? 0 then ret OPRT_MALLOC_FAILED
          else
            upd_ctx hdl (with_buffers bufs (a_count req)) ;;;
            mapped <- map_loop (Z.to_nat (a_count req)) hdl (cx_fd x) bufs 0 ;;
            if negb mapped then ret OPRT_COM_ERROR
            else
              r <- xioctl (cx_fd x) VIDIOC_STREAMON ;;
              match r with
              | IFail _ => _ <- tkl_camera_v4l2_stop hdl ;; ret OPRT_COM_ERROR
              | IOk _ => upd_ctx hdl (with_streaming true) ;;; ret OPRT_OK
              end
      end.

Definition tkl_camera_v4l2_close (hdl : Z) : W OPERATE_RET :=
  if hdl =? 0 then ret OPRT_INVALID_PARM
  else
    _ <- tkl_camera_v4l2_stop hdl ;;
    x <- get_ctx hdl ;;
    when (0 <=? cx_fd x) (on_dev (v_close (cx_fd x)) ;;; upd_ctx hdl (with_fd (-1))) ;;;
    free hdl ;;;
    ret OPRT_OK.

(** A captured buffer: its address, the bytes used, its index. *)
Record cam_frame := mkFrame { f_data : Z; f_len : Z; f_index : Z }.

Fixpoint dequeue_loop (n : nat) (x : tkl_v4l2_ctx_t) : W (OPERATE_RET * option cam_frame) :=
  match n with
  | O => out_of_fuel
  | S n =>
    (* FD_SET outside of the set *)
    when (FD_SETSIZE <=? cx_fd x) fault ;;;
    r <- on_dev (v_select (cx_fd x)) ;;
    match r with
    | SelFail e => if e =? EINTR then dequeue_loop n x else ret (OPRT_COM_ERROR, None)
    | SelTimeout => ret (OPRT_TIMEOUT, None)
    | SelReady =>
      r <- xioctl (cx_fd x) VIDIOC_DQBUF ;;
      match r with
      | IFail e => if e =? EAGAIN then dequeue_loop n x else ret (OPRT_COM_ERROR, None)
      | IOk buf =>
        if cx_buffers_num x <=? a_index buf then ret (OPRT_COM_ERROR, None)
        else
          b <- buf_at (cx_buffers x) (a_index buf) ;;
          ret (OPRT_OK, Some (mkFrame (b_start b) (a_bytesused buf) (a_index buf)))
      end
    end
  end.

(** [null]: one of the pointers for the results is null. *)
Definition tkl_camera_v4l2_dequeue (hdl : Z) (null : bool) : W (OPERATE_RET * option cam_frame) :=
  if (hdl =? 0) || null then ret (OPRT_INVALID_PARM, None)
  else
    x <- get_ctx hdl ;;
    if negb (cx_streaming x) then ret (OPRT_INVALID_PARM, None)
    else dequeue_loop fuel x.

Definition tkl_camera_v4l2_queue (hdl index : Z) : W OPERATE_RET :=
  if hdl =? 0 then ret OPRT_INVALID_PARM
  else
    x <- get_ctx hdl ;;
    if cx_buffers_num x <=? index then ret OPRT_INVALID_PARM
    else
      r <- xioctl (cx_fd x) (VIDIOC_QBUF index) ;;
      match r with IFail _ => ret OPRT_COM_ERROR | IOk _ => ret OPRT_OK end.
End Camera.
