(* ===== verification/TklCameraProps.v ===== *)
(** * Camera: properties of [TklCamera.v]

    What the code owns is a list of resources: objects of the heap, descriptors with the
    driver behind them, mappings.  Each operation is specified on the resources of its
    handle, beside any others; for any number of handles together this gives that
    nothing is lost, released twice or used after its release. *)

From S2P Require Import Prelude CMem MemHeap MemHeapInv MemHeapFacts MemHeapProps MemHeapStore Alloc Client TklCamera.

#[local] Hint Extern 0 (Permutation _ _) => reflexivity : core.

(** A buffer is mapped, or its address is null. *)
Definition buf_wf (b : v4l2_buf_t) : Prop := b_start b = 0 \/ (0 < b_start b /\ 0 < b_length b).
Definition mapped (b : v4l2_buf_t) : bool := negb (b_start b =? 0).
Definition maps_of (l : list v4l2_buf_t) : list (Z * Z) := (fun b => (b_start b, b_length b)) <$> filter (fun b => mapped b = true) l.

Lemma maps_of_cons b l : maps_of (b :: l) = if mapped b then (b_start b, b_length b) :: maps_of l else maps_of l.
Proof. unfold maps_of. rewrite filter_cons. destruct (mapped b); [by rewrite decide_True|by rewrite decide_False]. Qed.
Lemma maps_of_app l1 l2 : maps_of (l1 ++ l2) = maps_of l1 ++ maps_of l2.
Proof. unfold maps_of. by rewrite filter_app, fmap_app. Qed.

Section Resources.
Context {A K : Type} `{!Allocator A, !V4l2 K}.
Variable fuel : nat.
Implicit Types (s : cam A K).
Local Abbreviation W := (M (cam A K)).

(** The state consists of the objects [O], the descriptors with their drivers [D] and the
    mappings [P]. *)
Record holds s (O : list (Z * camobj)) (D : list (Z * driver)) (P : list (Z * Z)) : Prop := {
  h_own : owned_ok cam_size (c_own s);
  h_objs : map_to_list (o_objs (c_own s)) ≡ₚ O;
  h_fds : v_fds (c_dev s) ≡ₚ D.*1;
  h_nodup : NoDup D.*1;
  h_drv fd d : (fd, d) ∈ D -> v_drv (c_dev s) fd = d;
  h_maps : v_maps (c_dev s) ≡ₚ P;
  h_patience : (v_patience (c_dev s) < fuel)%nat
}.

Lemma holds_perm s O O' D D' P P' : O ≡ₚ O' -> D ≡ₚ D' -> P ≡ₚ P' -> holds s O D P -> holds s O' D' P'.
Proof.
  intros EO ED EP [H1 H2 H3 H4 H5 H6 H7]. split; [done|by rewrite <-EO|by rewrite H3, ED|by rewrite <-ED| |by rewrite <-EP|done].
  intros fd d Hin. apply H5. by rewrite ED.
Qed.

Lemma holds_obj s p o O D P : holds s ((p, o) :: O) D P -> o_objs (c_own s) !! p = Some o.
Proof. intros H. apply elem_of_map_to_list. rewrite (h_objs _ _ _ _ H). by left. Qed.

Lemma holds_fd s fd d D O P : holds s O ((fd, d) :: D) P -> fd ∈ v_fds (c_dev s).
Proof. intros H. rewrite (h_fds _ _ _ _ H). by left. Qed.

Lemma wp_cam_heap {R} (c : M (owned A camobj) R) Q s : wp c (fun r o => Q r (Cam o (c_dev s))) (c_own s) -> wp (on_heap c) Q s.
Proof. unfold wp, on_heap. by destruct (c (c_own s)). Qed.
Lemma wp_cam_dev {R} (c : M K R) Q s : wp c (fun r k => Q r (Cam (c_own s) k)) (c_dev s) -> wp (on_dev c) Q s.
Proof. unfold wp, on_dev. by destruct (c (c_dev s)). Qed.

(** ** Objects *)

Lemma get_ctx_spec s h x O D P (Q : tkl_v4l2_ctx_t -> cam A K -> Prop) : holds s ((h, OCtx x) :: O) D P -> Q x s -> wp (get_ctx h) Q s.
Proof.
  intros H HQ. unfold get_ctx. apply wp_bind, wp_cam_heap. eapply wp_get_obj; [by eapply holds_obj|]. cbn. destruct s. by apply wp_ret.
Qed.

(** Writing to an object that keeps its size. *)
Lemma set_obj_spec s p o o' O D P (Q : cam A K -> Prop) : holds s ((p, o) :: O) D P -> cam_size o' = cam_size o ->
  (forall s', holds s' ((p, o') :: O) D P -> Q s') -> wp (on_heap (set_obj p o')) (fun _ => Q) s.
Proof.
  intros H E HQ. pose proof (holds_obj _ _ _ _ _ _ H) as Hp. apply wp_cam_heap. eapply wp_set_obj; [exact Hp|]. apply HQ. destruct H as [H1 H2 H3 H4 H5 H6 H7]. split; cbn; try done.
  - by eapply owned_ok_update.
  - rewrite <-insert_delete_eq, map_to_list_insert by (by rewrite lookup_delete_eq). constructor.
    rewrite <-(insert_delete_id _ _ _ Hp), map_to_list_insert in H2 by (by rewrite lookup_delete_eq). by apply Permutation_cons_inv in H2.
Qed.

Lemma upd_ctx_spec s h x f O D P (Q : cam A K -> Prop) : holds s ((h, OCtx x) :: O) D P -> (forall s', holds s' ((h, OCtx (f x)) :: O) D P -> Q s') -> wp (upd_ctx h f) (fun _ => Q) s.
Proof. intros H HQ. unfold upd_ctx, set_ctx. apply wp_bind. eapply get_ctx_spec; [exact H|]. by eapply set_obj_spec. Qed.

Lemma calloc_spec s o O D P (Q : Z -> cam A K -> Prop) : holds s O D P -> 0 < cam_size o < 4294967296 ->
  (forall s', holds s' O D P -> Q 0 s') -> (forall p s', p <> 0 -> holds s' ((p, o) :: O) D P -> Q p s') -> wp (calloc o) Q s.
Proof.
  intros H Ho H0 Hp. unfold calloc. apply wp_bind, wp_cam_heap. apply malloc_obj_spec with (osz := cam_size); [apply H|done|..]; cbn.
  - intros a Ha. apply wp_ret, H0. by destruct H; split.
  - intros p a Hne Hf Ha. rewrite (proj2 (Z.eqb_neq p 0)) by done. apply wp_bind, wp_cam_heap. unfold wp, init_obj. cbn. apply wp_ret, Hp; [done|].
    destruct H as [H1 H2 H3 H4 H5 H6 H7]. split; cbn; try done; [by apply Ha|]. rewrite map_to_list_insert by done. by rewrite H2.
Qed.

Lemma cam_free_spec s p o O D P (Q : cam A K -> Prop) : holds s ((p, o) :: O) D P -> (forall s', holds s' O D P -> Q s') -> wp (free p) (fun _ => Q) s.
Proof.
  intros H HQ. pose proof (holds_obj _ _ _ _ _ _ H) as Hp. unfold free. apply wp_cam_heap. eapply wp_mono; [eapply free_obj_spec with (osz := cam_size); [apply H|exact Hp]|]. cbv beta.
  intros [] o' [Ho Eo]. apply HQ. destruct H as [H1 H2 H3 H4 H5 H6 H7]. split; cbn; try done. rewrite Eo.
  rewrite <-(insert_delete_id _ _ _ Hp), map_to_list_insert in H2 by (by rewrite lookup_delete_eq). by apply Permutation_cons_inv in H2.
Qed.

Lemma buf_at_spec s p l i b O D P (Q : v4l2_buf_t -> cam A K -> Prop) : holds s ((p, OBufs l) :: O) D P -> l !! i = Some b -> Q b s -> wp (buf_at p (Z.of_nat i)) Q s.
Proof.
  intros H E HQ. unfold buf_at. apply wp_bind, wp_cam_heap. eapply wp_get_obj; [by eapply holds_obj|]. cbn. rewrite (proj2 (Z.leb_le 0 _)) by lia. rewrite Nat2Z.id, E. destruct s. by apply wp_ret.
Qed.

Lemma set_buf_spec s p l i b O D P (Q : cam A K -> Prop) : holds s ((p, OBufs l) :: O) D P -> (i < length l)%nat -> (forall s', holds s' ((p, OBufs (<[i := b]> l)) :: O) D P -> Q s') -> wp (set_buf p (Z.of_nat i) b) (fun _ => Q) s.
Proof.
  intros H Hi HQ. unfold set_buf. apply wp_bind, wp_cam_heap. eapply wp_get_obj; [by eapply holds_obj|]. cbn. rewrite (proj2 (Z.leb_le 0 _)), (proj2 (Z.ltb_lt _ _)) by lia. cbn [andb]. rewrite Nat2Z.id.
  destruct s. eapply set_obj_spec; [exact H|cbn [cam_size]; by rewrite length_insert|done].
Qed.

(** ** The device *)

(** The device changes what it is asked to, and nothing else. *)
Lemma holds_dev s k O D D' P P' : holds s O D P -> v_fds k ≡ₚ D'.*1 -> NoDup D'.*1 -> (forall fd d, (fd, d) ∈ D' -> v_drv k fd = d) -> v_maps k ≡ₚ P' ->
  (v_patience k <= v_patience (c_dev s))%nat -> holds (Cam (c_own s) k) O D' P'.
Proof. intros [H1 H2 H3 H4 H5 H6 H7] E1 E2 E3 E4 E5. split; cbn; try done. lia. Qed.

Lemma holds_drv_same s k O D P : holds s O D P -> v_fds k = v_fds (c_dev s) -> v_drv k = v_drv (c_dev s) -> v_maps k = v_maps (c_dev s) -> (v_patience k <= v_patience (c_dev s))%nat -> holds (Cam (c_own s) k) O D P.
Proof. intros H E1 E2 E3 E4. eapply holds_dev; [exact H|by rewrite E1, (h_fds _ _ _ _ H)|apply H|rewrite E2; apply H|by rewrite E3, (h_maps _ _ _ _ H)|done]. Qed.

Lemma holds_drv_one s k fd d d' O D P : holds s O ((fd, d) :: D) P -> v_fds k = v_fds (c_dev s) -> v_maps k = v_maps (c_dev s) -> (v_patience k <= v_patience (c_dev s))%nat ->
  (forall g, g <> fd -> v_drv k g = v_drv (c_dev s) g) -> v_drv k fd = d' -> holds (Cam (c_own s) k) O ((fd, d') :: D) P.
Proof.
  intros H E1 E2 E3 E4 E5. pose proof (h_nodup _ _ _ _ H) as Hn. rewrite fmap_cons in Hn. eapply holds_dev; [exact H|by rewrite E1, (h_fds _ _ _ _ H)|done| |by rewrite E2, (h_maps _ _ _ _ H)|done].
  intros g e [[= -> ->]|Hin]%elem_of_cons; [done|]. apply NoDup_cons in Hn as [Hn _]. rewrite E4; [apply (h_drv _ _ _ _ H); by right|]. intros ->. apply Hn. by apply (list_elem_of_fmap_2 fst D (fd, e)).
Qed.

(** The patience of the device bounds the repetitions. *)
Lemma xioctl_loop_spec n s fd d r O D P (Q : ioctl_res -> cam A K -> Prop) : holds s O ((fd, d) :: D) P -> (v_patience (c_dev s) < n)%nat ->
  (forall a d' s', request_law r a d d' -> holds s' O ((fd, d') :: D) P -> (v_patience (c_dev s') <= v_patience (c_dev s))%nat -> Q (IOk a) s') ->
  (forall e s', e <> EINTR -> holds s' O ((fd, d) :: D) P -> (v_patience (c_dev s') <= v_patience (c_dev s))%nat -> (e = EAGAIN -> (v_patience (c_dev s') < v_patience (c_dev s))%nat) -> Q (IFail e) s') ->
  wp (xioctl_loop n fd r) Q s.
Proof.
  revert s. induction n as [|n IH]; intros s H Hn HO HF; [lia|]. cbn [xioctl_loop]. apply wp_bind, wp_cam_dev. eapply wp_mono; [apply v_ioctl_ok; by eapply holds_fd|]. cbv beta.
  intros x k (E1 & E2 & E3 & E4 & Hx). pose proof (h_drv _ _ _ _ H fd d (list_elem_of_here _ _)) as Ed. destruct x as [a|e]; cbn [c_dev].
  - apply wp_ret. rewrite Ed in Hx. eapply HO; [exact Hx|by eapply holds_drv_one|done].
  - destruct Hx as [E5 Hp]. assert (holds (Cam (c_own s) k) O ((fd, d) :: D) P) as H' by (eapply holds_drv_one; [exact H|done..|congruence]). destruct (Z.eqb_spec e EINTR) as [->|Hne].
    + specialize (Hp ltac:(by left)). apply IH; [done|cbn; lia| |]; cbn [c_dev]; intros; [eapply HO|eapply HF]; eauto; lia.
    + apply wp_ret, HF; [done|done|done|]. intros ->. apply Hp. by right.
Qed.

Lemma xioctl_spec s fd d r O D P (Q : ioctl_res -> cam A K -> Prop) : holds s O ((fd, d) :: D) P ->
  (forall a d' s', request_law r a d d' -> holds s' O ((fd, d') :: D) P -> Q (IOk a) s') ->
  (forall e s', holds s' O ((fd, d) :: D) P -> Q (IFail e) s') ->
  wp (xioctl fuel fd r) Q s.
Proof. intros H HO HF. unfold xioctl. eapply xioctl_loop_spec; [exact H|apply H|intros; by eapply HO|intros; by eapply HF]. Qed.

Lemma close_spec s fd d O D P (Q : cam A K -> Prop) : holds s O ((fd, d) :: D) P -> (forall s', holds s' O D P -> Q s') -> wp (on_dev (v_close fd)) (fun _ => Q) s.
Proof.
  intros H HQ. apply wp_cam_dev. eapply wp_mono; [apply v_close_ok; by eapply holds_fd|]. cbv beta. intros _ k (E1 & E2 & E3 & E4). apply HQ. pose proof (h_nodup _ _ _ _ H) as Hn. rewrite fmap_cons in Hn. apply NoDup_cons in Hn as [Hn Hnd].
  eapply holds_dev; [exact H| |done| |by rewrite E1, (h_maps _ _ _ _ H)|done].
  - rewrite (h_fds _ _ _ _ H), fmap_cons in E3. cbn [fst] in E3. by apply Permutation_cons_inv in E3.
  - intros g e Hin. rewrite E4; [apply (h_drv _ _ _ _ H); by right|]. intros ->. apply Hn. by apply (list_elem_of_fmap_2 fst D (fd, e)).
Qed.

Lemma cam_open_spec s path O D P (Q : Z -> cam A K -> Prop) : holds s O D P -> (forall fd s', fd < 0 -> holds s' O D P -> Q fd s') -> (forall fd d s', 0 <= fd < FD_SETSIZE -> holds s' O ((fd, d) :: D) P -> Q fd s') -> wp (on_dev (v_open path)) Q s.
Proof.
  intros H H1 H2. apply wp_cam_dev. eapply wp_mono; [apply v_open_ok|]. cbv beta. intros fd k (E1 & E2 & [(Hfd & E3 & E4)|(Hfd & Hnew & E3 & E4)]).
  - apply H1; [done|]. by eapply holds_drv_same.
  - apply (H2 fd (v_drv k fd)); [done|]. assert (fd ∉ D.*1) as Hn by (by rewrite <-(h_fds _ _ _ _ H)). eapply holds_dev; [exact H|by rewrite E3, (h_fds _ _ _ _ H)|rewrite fmap_cons; constructor; [done|apply H]| |by rewrite E1, (h_maps _ _ _ _ H)|done].
    intros g e [[= -> ->]|Hin]%elem_of_cons; [done|]. rewrite E4; [by apply (h_drv _ _ _ _ H)|]. intros ->. apply Hn. by apply (list_elem_of_fmap_2 fst D (fd, e)).
Qed.

Lemma mmap_spec s len fd off d O D P (Q : Z -> cam A K -> Prop) : holds s O ((fd, d) :: D) P -> 0 < len -> (forall s', holds s' O ((fd, d) :: D) P -> Q MAP_FAILED s') ->
  (forall p s', 0 < p -> holds s' O ((fd, d) :: D) ((p, len) :: P) -> Q p s') -> wp (on_dev (v_mmap len fd off)) Q s.
Proof.
  intros H Hl H1 H2. apply wp_cam_dev. eapply wp_mono; [apply v_mmap_ok; [by eapply holds_fd|done]|]. cbv beta. intros p k (E1 & E2 & E3 & [[-> E4]|(Hp & _ & E4)]).
  - apply H1. by eapply holds_drv_same.
  - apply H2; [done|]. eapply holds_dev; [exact H|by rewrite E1, (h_fds _ _ _ _ H)|apply H|rewrite E2; apply H|by rewrite E4, (h_maps _ _ _ _ H)|done].
Qed.

Lemma munmap_spec s p len O D P (Q : cam A K -> Prop) : holds s O D ((p, len) :: P) -> (forall s', holds s' O D P -> Q s') -> wp (on_dev (v_munmap p len)) (fun _ => Q) s.
Proof.
  intros H HQ. apply wp_cam_dev. eapply wp_mono; [apply v_munmap_ok; rewrite (h_maps _ _ _ _ H); by left|]. cbv beta. intros _ k (E1 & E2 & E3 & E4). apply HQ.
  eapply holds_dev; [exact H|by rewrite E1, (h_fds _ _ _ _ H)|apply H|rewrite E2; apply H| |done]. rewrite (h_maps _ _ _ _ H) in E4. by apply Permutation_cons_inv in E4.
Qed.

(** ** Stopping *)

Lemma unmap_loop_spec suf pre p s O D P (Q : cam A K -> Prop) : holds s ((p, OBufs (pre ++ suf)) :: O) D (maps_of suf ++ P) -> Forall buf_wf suf ->
  (forall s', holds s' ((p, OBufs (pre ++ suf)) :: O) D P -> Q s') -> wp (unmap_loop (length suf) p (Z.of_nat (length pre))) (fun _ => Q) s.
Proof.
  revert pre s. induction suf as [|b suf IH]; intros pre s H Hwf HQ; cbn [length unmap_loop]; [by apply wp_ret, HQ|]. apply Forall_cons in Hwf as [Hb Hwf].
  apply wp_bind. eapply buf_at_spec; [exact H|by rewrite list_lookup_middle|].
  assert (forall s', holds s' ((p, OBufs (pre ++ b :: suf)) :: O) D (maps_of suf ++ P) -> wp (unmap_loop (length suf) p (Z.of_nat (length pre) + 1)) (fun _ => Q) s') as Hrest.
  { intros s' H'. specialize (IH (pre ++ [b]) s'). rewrite <-app_assoc in IH. cbn [app] in IH. replace (Z.of_nat (length pre) + 1) with (Z.of_nat (length (pre ++ [b]))) by (rewrite length_app; cbn; lia). by apply IH. }
  rewrite maps_of_cons in H. unfold mapped in H at 1. apply wp_bind. destruct Hb as [Eb|[Hs Hl]].
  - rewrite Eb in H |- *. change (0 =? 0) with true in *. cbn [negb andb when] in *. apply wp_ret. by apply Hrest.
  - rewrite (proj2 (Z.eqb_neq (b_start b) 0)) in * by lia. rewrite (proj2 (Z.eqb_neq (b_length b) 0)) by lia. cbn [negb andb when app] in *. eapply munmap_spec; [exact H|]. exact Hrest.
Qed.

(** A context with its buffers, mapped or not. *)
Lemma stop_spec s h x l d O D P (Q : OPERATE_RET -> cam A K -> Prop) :
  h <> 0 -> 0 <= cx_fd x -> cx_buffers x <> 0 -> cx_buffers_num x = Z.of_nat (length l) -> Forall buf_wf l ->
  holds s ((h, OCtx x) :: (cx_buffers x, OBufs l) :: O) ((cx_fd x, d) :: D) (maps_of l ++ P) ->
  (forall d' s', holds s' ((h, OCtx (with_buffers 0 0 (with_streaming false x))) :: O) ((cx_fd x, d') :: D) P -> Q OPRT_OK s') ->
  wp (tkl_camera_v4l2_stop fuel h) Q s.
Proof.
  intros Hh Hfd Hb Hn Hwf H HQ. unfold tkl_camera_v4l2_stop. rewrite (proj2 (Z.eqb_neq h 0)) by done. apply wp_bind. eapply get_ctx_spec; [exact H|]. rewrite (proj2 (Z.ltb_ge _ 0)) by done. apply wp_bind.
  assert (forall d' s', holds s' ((h, OCtx (with_streaming false x)) :: (cx_buffers x, OBufs l) :: O) ((cx_fd x, d') :: D) (maps_of l ++ P) ->
    wp (x0 <- get_ctx h ;; when (negb (cx_buffers x0 =? 0)) (unmap_loop (Z.to_nat (cx_buffers_num x0)) (cx_buffers x0) 0 ;;; free (cx_buffers x0) ;;; upd_ctx h (with_buffers 0 0)) ;;; ret OPRT_OK) Q s') as Hrest.
  { intros d' s' H'. apply wp_bind. eapply get_ctx_spec; [exact H'|]. cbn [with_streaming cx_buffers cx_buffers_num]. rewrite (proj2 (Z.eqb_neq (cx_buffers x) 0)) by done. cbn [negb when]. do 2 apply wp_bind.
    rewrite Hn, Nat2Z.id. eapply (unmap_loop_spec l [] (cx_buffers x)); [eapply holds_perm; [apply perm_swap|done|done|exact H']|done|]. cbn [app]. intros s2 H2. apply wp_bind. eapply cam_free_spec; [exact H2|].
    intros s3 H3. eapply upd_ctx_spec; [exact H3|]. intros s4 H4. apply wp_ret. by eapply HQ. }
  destruct (cx_streaming x) eqn:Es.
  - apply wp_bind. eapply xioctl_spec; [exact H|intros a d' s' _ H'|intros e s' H']; (eapply upd_ctx_spec; [exact H'|]); intros s2 H2; by eapply Hrest.
  - apply wp_ret. eapply (Hrest d). by replace (with_streaming false x) with x by (destruct x; cbn in *; by subst).
Qed.

(** A context without buffers. *)
Lemma stop_idle_spec s h x d O D P (Q : OPERATE_RET -> cam A K -> Prop) : h <> 0 -> 0 <= cx_fd x -> cx_buffers x = 0 -> cx_streaming x = false ->
  holds s ((h, OCtx x) :: O) ((cx_fd x, d) :: D) P -> (forall s', holds s' ((h, OCtx x) :: O) ((cx_fd x, d) :: D) P -> Q OPRT_OK s') -> wp (tkl_camera_v4l2_stop fuel h) Q s.
Proof.
  intros Hh Hfd Hb Hs H HQ. unfold tkl_camera_v4l2_stop. rewrite (proj2 (Z.eqb_neq h 0)) by done. apply wp_bind. eapply get_ctx_spec; [exact H|]. rewrite (proj2 (Z.ltb_ge _ 0)) by done. rewrite Hs.
  apply wp_bind, wp_ret, wp_bind. eapply get_ctx_spec; [exact H|]. rewrite Hb. cbn [Z.eqb negb when]. apply wp_bind, wp_ret, wp_ret. by apply HQ.
Qed.

(** ** Starting *)

(** The indices of the first [n] buffers. *)
Definition first (n : nat) : gset Z := list_to_set (seqZ 0 (Z.of_nat n)).

Lemma first_in n i : i ∈ first n <-> 0 <= i < Z.of_nat n.
Proof. unfold first. rewrite elem_of_list_to_set, elem_of_seqZ. lia. Qed.

Lemma first_S n : {[Z.of_nat n]} ∪ first n = first (S n).
Proof. apply set_eq. intros i. rewrite elem_of_union, elem_of_singleton, !first_in. lia. Qed.

Lemma insert_middle (l1 l2 : list v4l2_buf_t) b b' : <[length l1 := b']> (l1 ++ b :: l2) = l1 ++ b' :: l2.
Proof. by rewrite insert_app_r_alt, Nat.sub_diag. Qed.

(** The buffers before index [i] are mapped and queued, the others are empty. *)
Lemma map_loop_spec n pre s h x c O D P (Q : bool -> cam A K -> Prop) :
  h <> 0 -> 0 <= cx_fd x -> cx_buffers x <> 0 -> cx_buffers_num x = Z.of_nat (length pre + n) -> Forall (fun b => 0 < b_start b /\ 0 < b_length b) pre ->
  holds s ((h, OCtx x) :: (cx_buffers x, OBufs (pre ++ replicate n (mkBuf 0 0))) :: O) ((cx_fd x, mkDrv c (first (length pre))) :: D) (maps_of pre ++ P) ->
  (forall l s', length l = (length pre + n)%nat -> Forall (fun b => 0 < b_start b /\ 0 < b_length b) l ->
     holds s' ((h, OCtx x) :: (cx_buffers x, OBufs l) :: O) ((cx_fd x, mkDrv c (first (length pre + n))) :: D) (maps_of l ++ P) -> Q true s') ->
  (forall d' s', holds s' ((h, OCtx (with_buffers 0 0 (with_streaming false x))) :: O) ((cx_fd x, d') :: D) P -> Q false s') ->
  wp (map_loop fuel n h (cx_fd x) (cx_buffers x) (Z.of_nat (length pre))) Q s.
Proof.
  intros Hh Hfd Hb. revert pre s. induction n as [|n IH]; intros pre s Hn Hpre H HT HF; cbn [map_loop].
  { apply wp_ret. rewrite Nat.add_0_r in HT. eapply HT; [done|exact Hpre|]. by rewrite app_nil_r in H. }
  assert (Forall buf_wf pre) as Hwf by (eapply Forall_impl; [exact Hpre|]; intros b ?; by right).
  assert (Forall buf_wf (replicate n (mkBuf 0 0))) as Hz by (apply Forall_replicate; by left). assert (forall n, maps_of (replicate n (mkBuf 0 0)) = []) as Ez by (clear; induction n; [done|]; cbn [replicate]; by rewrite maps_of_cons).
  (* leaving through an error, with the buffer [b] at the index *)
  assert (forall b d s', buf_wf b -> holds s' ((h, OCtx x) :: (cx_buffers x, OBufs (pre ++ b :: replicate n (mkBuf 0 0))) :: O) ((cx_fd x, d) :: D) (maps_of (pre ++ b :: replicate n (mkBuf 0 0)) ++ P) ->
    wp (_ <- tkl_camera_v4l2_stop fuel h ;; ret false) Q s') as Herr.
  { intros b d s' Hbw H'. apply wp_bind. eapply stop_spec; [done|done|exact Hb| | |exact H'|]; [rewrite Hn, length_app; cbn [length]; rewrite length_replicate; lia|apply Forall_app; split; [done|by constructor]|].
    intros d' s2 H2. apply wp_ret. by eapply HF. }
  assert (maps_of (pre ++ replicate (S n) (mkBuf 0 0)) = maps_of pre) as E0 by (by rewrite maps_of_app, Ez, app_nil_r).
  apply wp_bind. eapply xioctl_spec; [exact H| |intros e s' H'; apply (Herr (mkBuf 0 0) (mkDrv c (first (length pre)))); [by left|]; cbn [replicate] in *; by rewrite E0].
  intros a d' s1 [-> Hlen] H1. apply wp_bind. eapply holds_perm in H1; [|apply perm_swap|done|done]. cbn [replicate] in H1. eapply buf_at_spec; [exact H1|by rewrite list_lookup_middle|]. apply wp_bind. eapply set_buf_spec; [exact H1|rewrite length_app; cbn; lia|].
  cbn [b_start]. rewrite insert_middle. intros s2 H2. apply wp_bind. eapply mmap_spec; [exact H2|lia| |].
  - intros s3 H3. apply wp_bind. eapply set_buf_spec; [exact H3|rewrite length_app; cbn; lia|]. rewrite insert_middle. intros s4 H4. change (MAP_FAILED =? MAP_FAILED) with true. cbv iota.
    apply wp_bind. eapply set_buf_spec; [exact H4|rewrite length_app; cbn; lia|]. rewrite insert_middle. intros s5 H5. eapply (Herr (mkBuf 0 (a_length a))); [by left|].
    rewrite maps_of_app, maps_of_cons, Ez, app_nil_r. eapply holds_perm; [apply perm_swap|done|done|exact H5].
  - intros q s3 Hq H3. apply wp_bind. eapply set_buf_spec; [exact H3|rewrite length_app; cbn; lia|]. rewrite insert_middle. intros s4 H4. unfold MAP_FAILED. rewrite (proj2 (Z.eqb_neq q (-1))) by lia.
    set (b := mkBuf q (a_length a)) in *. assert (buf_wf b) as Hbw by (right; cbn; lia). assert (mapped b = true) as Hmb by (unfold mapped; cbn; by rewrite (proj2 (Z.eqb_neq q 0)) by lia).
    assert (maps_of (pre ++ b :: replicate n (mkBuf 0 0)) ≡ₚ (q, a_length a) :: maps_of pre) as Em by (rewrite maps_of_app, maps_of_cons, Hmb, Ez; by rewrite Permutation_app_comm).
    eapply holds_perm in H4; [|apply perm_swap|done|rewrite app_comm_cons, <-Em; reflexivity]. apply wp_bind. eapply xioctl_spec; [exact H4| |intros e s' H'; by eapply (Herr b)].
    intros a2 d2 s5 (_ & _ & ->) H5. cbn [d_count d_queued] in H5. rewrite first_S in H5. specialize (IH (pre ++ [b]) s5). rewrite length_app in IH. cbn [length] in IH. rewrite <-!app_assoc in IH. cbn [app] in IH.
    replace (length pre + 1)%nat with (S (length pre)) in IH by lia. replace (Z.of_nat (length pre) + 1) with (Z.of_nat (S (length pre))) by lia. replace (S (length pre) + n)%nat with (length pre + S n)%nat in IH by lia.
    apply IH; [done|apply Forall_app; split; [done|constructor; [cbn; lia|constructor]]| |done|done].
    eapply holds_perm; [done|done| |exact H5]. rewrite Em, maps_of_app, maps_of_cons, Hmb, <-app_assoc. cbn [app maps_of filter list_filter fmap list_fmap]. apply Permutation_middle.
Qed.

(** ** One camera *)

(** A camera: its context, its buffers, the driver. *)
Record camera := mkCamera { cm_x : tkl_v4l2_ctx_t; cm_bufs : list v4l2_buf_t; cm_drv : driver }.
Definition cam_objs (h : Z) (c : camera) : list (Z * camobj) :=
  (h, OCtx (cm_x c)) :: if cx_buffers (cm_x c) =? 0 then [] else [(cx_buffers (cm_x c), OBufs (cm_bufs c))].
Definition cam_fd (c : camera) : Z * driver := (cx_fd (cm_x c), cm_drv c).
Definition cam_maps (c : camera) : list (Z * Z) := maps_of (cm_bufs c).

(** It is stopped, without buffers, or it streams, and then every buffer is mapped, and the
    buffers of the driver are among them. *)
Definition cam_ok (c : camera) : Prop :=
  0 <= cx_fd (cm_x c) < FD_SETSIZE /\
  if cx_streaming (cm_x c) then
    cx_buffers (cm_x c) <> 0 /\ cx_buffers_num (cm_x c) = Z.of_nat (length (cm_bufs c)) /\ (2 <= length (cm_bufs c))%nat /\
    Forall (fun b => 0 < b_start b /\ 0 < b_length b) (cm_bufs c) /\ d_count (cm_drv c) = Z.of_nat (length (cm_bufs c)) /\ d_queued (cm_drv c) ⊆ first (length (cm_bufs c))
  else cx_buffers (cm_x c) = 0 /\ cx_buffers_num (cm_x c) = 0 /\ cm_bufs c = [].

Inductive cam_call := CStart | CStop | CDequeue (null : bool) | CQueue (index : Z).
Definition cam_res : Type := OPERATE_RET * option cam_frame.
Definition cam_exec (h : Z) (o : cam_call) : W cam_res :=
  match o with
  | CStart => r <- tkl_camera_v4l2_start fuel h ;; ret (r, None)
  | CStop => r <- tkl_camera_v4l2_stop fuel h ;; ret (r, None)
  | CDequeue null => tkl_camera_v4l2_dequeue fuel h null
  | CQueue i => r <- tkl_camera_v4l2_queue fuel h i ;; ret (r, None)
  end.

(** What the calls may do. *)
Definition stopped (c : camera) : camera := mkCamera (with_buffers 0 0 (with_streaming false (cm_x c))) [] (cm_drv c).
Definition with_drv (d : driver) (c : camera) : camera := mkCamera (cm_x c) (cm_bufs c) d.
Inductive cam_step (c : camera) : cam_call -> cam_res -> camera -> Prop :=
| start_again : cx_streaming (cm_x c) = true -> cam_step c CStart (OPRT_OK, None) c
| start_ok p l : cx_streaming (cm_x c) = false ->
    cam_step c CStart (OPRT_OK, None) (mkCamera (with_streaming true (with_buffers p (Z.of_nat (length l)) (cm_x c))) l (mkDrv (Z.of_nat (length l)) (first (length l))))
| start_failed r d : cx_streaming (cm_x c) = false -> r <> OPRT_OK -> cam_step c CStart (r, None) (with_drv d c)
| stop_ok d : cam_step c CStop (OPRT_OK, None) (with_drv d (stopped c))
| dequeue_ok i b len : cx_streaming (cm_x c) = true -> Z.of_nat i ∈ d_queued (cm_drv c) -> cm_bufs c !! i = Some b ->
    cam_step c (CDequeue false) (OPRT_OK, Some (mkFrame (b_start b) len (Z.of_nat i))) (with_drv (mkDrv (d_count (cm_drv c)) (d_queued (cm_drv c) ∖ {[Z.of_nat i]})) c)
| dequeue_failed null r : r <> OPRT_OK -> cam_step c (CDequeue null) (r, None) c
| queue_ok i : cx_streaming (cm_x c) = true -> i ∈ first (length (cm_bufs c)) -> i ∉ d_queued (cm_drv c) ->
    cam_step c (CQueue i) (OPRT_OK, None) (with_drv (mkDrv (d_count (cm_drv c)) ({[i]} ∪ d_queued (cm_drv c))) c)
| queue_failed i r : r <> OPRT_OK -> cam_step c (CQueue i) (r, None) c.

(** The state has the camera, and beside it [O], [D] and [P]. *)
Definition has s (h : Z) (c : camera) (O : list (Z * camobj)) (D : list (Z * driver)) (P : list (Z * Z)) : Prop :=
  holds s (cam_objs h c ++ O) (cam_fd c :: D) (cam_maps c ++ P).

Lemma has_handle s h c O D P : has s h c O D P -> h <> 0.
Proof. intros H. unfold has, cam_objs in H. cbn [app] in H. pose proof (owned_positive _ _ _ _ (h_own _ _ _ _ H) (holds_obj _ _ _ _ _ _ H)). lia. Qed.

(** A camera that streams, with its context and its buffers. *)
Lemma has_streaming s h c O D P : cam_ok c -> cx_streaming (cm_x c) = true -> has s h c O D P ->
  holds s ((h, OCtx (cm_x c)) :: (cx_buffers (cm_x c), OBufs (cm_bufs c)) :: O) ((cx_fd (cm_x c), cm_drv c) :: D) (maps_of (cm_bufs c) ++ P).
Proof. intros [_ Hok] E H. rewrite E in Hok. unfold has, cam_objs in H. by rewrite (proj2 (Z.eqb_neq _ 0) (proj1 Hok)) in H. Qed.

(** Stopped cameras have a context only. *)
Lemma has_stopped s h c d O D P : cam_ok c -> holds s ((h, OCtx (with_buffers 0 0 (with_streaming false (cm_x c)))) :: O) ((cx_fd (cm_x c), d) :: D) P ->
  cam_ok (with_drv d (stopped c)) /\ has s h (with_drv d (stopped c)) O D P.
Proof. intros [Hfd _] H. split; [split; done|exact H]. Qed.

Lemma start_step s h c O D P : cam_ok c -> has s h c O D P -> wp (cam_exec h CStart) (fun r s' => exists c', cam_step c CStart r c' /\ cam_ok c' /\ has s' h c' O D P) s.
Proof.
  intros Hok H. pose proof (has_handle _ _ _ _ _ _ H) as Hh. pose proof Hok as [[Hfd Hfs] Hst]. cbn [cam_exec]. apply wp_bind. unfold tkl_camera_v4l2_start. rewrite (proj2 (Z.eqb_neq h 0)) by done.
  apply wp_bind. eapply get_ctx_spec; [exact H|]. rewrite (proj2 (Z.ltb_ge _ 0)) by done. destruct (cx_streaming (cm_x c)) eqn:Es; [apply wp_ret, wp_ret; exists c; split; [by constructor|done]|].
  destruct Hst as (Eb & En & El). unfold has, cam_objs, cam_fd, cam_maps in H. rewrite Eb, El in H. change (0 =? 0) with true in H. cbn [app maps_of filter list_filter fmap list_fmap] in H.
  (* the camera as it was, or with another driver *)
  assert (forall r d s', r <> OPRT_OK -> holds s' ((h, OCtx (cm_x c)) :: O) ((cx_fd (cm_x c), d) :: D) P -> exists c', cam_step c CStart (r, None) c' /\ cam_ok c' /\ has s' h c' O D P) as Hfail.
  { intros r d s' Hr H'. exists (with_drv d c). split; [by constructor|]. split; [split; [done|]; cbn [with_drv cm_x cm_bufs cm_drv]; rewrite Es; done|]. unfold has, cam_objs, cam_fd, cam_maps. cbn [with_drv cm_x cm_bufs cm_drv]. rewrite Eb, El. exact H'. }
  apply wp_bind. eapply xioctl_spec; [exact H| |intros e s1 H1; apply wp_ret, wp_ret; by eapply Hfail]. intros a d1 s1 [-> Hcnt] H1. destruct (Z.ltb_spec (a_count a) 2); [apply wp_ret, wp_ret; by eapply Hfail|].
  apply wp_bind. eapply calloc_spec; [exact H1|cbn [cam_size]; unfold SIZEOF_V4L2_BUF_T; rewrite length_replicate; lia| |].
  - intros s2 H2. apply wp_bind. eapply upd_ctx_spec; [exact H2|]. intros s3 H3. change (0 =? 0) with true. cbv iota. apply wp_ret, wp_ret. eapply Hfail; [done|].
    replace (with_buffers 0 (cx_buffers_num (cm_x c)) (cm_x c)) with (cm_x c) in H3 by (destruct (cm_x c); cbn in *; by subst). exact H3.
  - intros p s2 Hp H2. eapply holds_perm in H2; [|apply perm_swap|done|done]. apply wp_bind. eapply upd_ctx_spec; [exact H2|]. intros s3 H3. rewrite (proj2 (Z.eqb_neq p 0)) by done. apply wp_bind. eapply upd_ctx_spec; [exact H3|]. intros s4 H4.
    set (x1 := with_buffers p (a_count a) (with_buffers p (cx_buffers_num (cm_x c)) (cm_x c))) in *. set (n := Z.to_nat (a_count a)) in *. apply wp_bind.
    assert (forall d' s', holds s' ((h, OCtx (with_buffers 0 0 (with_streaming false x1))) :: O) ((cx_fd (cm_x c), d') :: D) P -> exists c', cam_step c CStart (OPRT_COM_ERROR, None) c' /\ cam_ok c' /\ has s' h c' O D P) as Hback.
    { intros d' s' H'. eapply (Hfail _ d'); [done|]. replace (with_buffers 0 0 (with_streaming false x1)) with (cm_x c) in H' by (subst x1; destruct (cm_x c); cbn in *; by subst). exact H'. }
    change (cx_fd (cm_x c)) with (cx_fd x1). change p with (cx_buffers x1) at 1. eapply (map_loop_spec n []); [done|exact Hfd|exact Hp|cbn; lia|constructor|exact H4| |].
    + cbn [length Nat.add]. intros l s5 Hlen Hall H5. cbn [negb]. apply wp_bind. eapply xioctl_spec; [exact H5| |].
      * intros a2 d2 s6 -> H6. apply wp_bind. eapply upd_ctx_spec; [exact H6|]. intros s7 H7. apply wp_ret, wp_ret. eexists. split; [by apply (start_ok c p l)|].
        assert (a_count a = Z.of_nat (length l)) as Ec by lia. split.
        -- split; [done|]. cbn. split; [done|]. split; [done|]. split; [lia|]. split; [done|]. split; [done|]. done.
        -- unfold has, cam_objs, cam_fd, cam_maps. cbn [cm_x cm_bufs cm_drv with_streaming with_buffers cx_buffers cx_fd]. rewrite (proj2 (Z.eqb_neq p 0)) by done. cbn [app]. subst x1. cbn [with_streaming with_buffers cx_buffers cx_fd] in H7. rewrite Ec in H7. rewrite <-Hlen in H7. exact H7.
      * intros e s6 H6. apply wp_bind. eapply (stop_spec _ _ x1 l); [done|exact Hfd|exact Hp|change (cx_buffers_num x1) with (a_count a); lia|eapply Forall_impl; [exact Hall|]; intros b ?; by right|exact H6|]. intros d' s7 H7. apply wp_ret, wp_ret. by eapply Hback.
    + intros d' s5 H5. cbn [negb]. apply wp_ret, wp_ret. by eapply Hback.
Qed.

Lemma stop_step s h c O D P : cam_ok c -> has s h c O D P ->
  wp (tkl_camera_v4l2_stop fuel h) (fun r s' => r = OPRT_OK /\ exists d, cam_ok (with_drv d (stopped c)) /\ has s' h (with_drv d (stopped c)) O D P) s.
Proof.
  intros Hok H. pose proof (has_handle _ _ _ _ _ _ H) as Hh. pose proof Hok as [[Hfd Hfs] Hst]. destruct (cx_streaming (cm_x c)) eqn:Es.
  - apply has_streaming in H; [|done..]. destruct Hst as (Hb & Hn & _ & Hall & _). eapply (stop_spec _ _ (cm_x c)); [done|done|done|exact Hn|eapply Forall_impl; [exact Hall|]; intros b ?; by right|exact H|].
    intros d s' H'. split; [done|]. exists d. by apply has_stopped.
  - destruct Hst as (Hb & Hn & El). unfold has, cam_objs, cam_fd, cam_maps in H. rewrite Hb, El in H. eapply (stop_idle_spec _ _ (cm_x c)); [done|done|done|done|exact H|]. intros s' H'. split; [done|]. exists (cm_drv c). apply has_stopped; [done|].
    replace (with_buffers 0 0 (with_streaming false (cm_x c))) with (cm_x c) by (destruct (cm_x c); cbn in *; by subst). exact H'.
Qed.

(** The invariant depends on the driver through its buffers. *)
Lemma ok_with_drv c q : cam_ok c -> cx_streaming (cm_x c) = true -> q ⊆ first (length (cm_bufs c)) -> cam_ok (with_drv (mkDrv (d_count (cm_drv c)) q) c).
Proof. intros [Hfd Hst] E Hq. split; [done|]. cbn [with_drv cm_x cm_bufs cm_drv d_count d_queued]. rewrite E in *. destruct Hst as (? & ? & ? & ? & ? & _). done. Qed.

Lemma dequeue_loop_spec n s h c O D P : cam_ok c -> cx_streaming (cm_x c) = true -> has s h c O D P -> (v_patience (c_dev s) < n)%nat ->
  wp (dequeue_loop fuel n (cm_x c)) (fun r s' => exists c', cam_step c (CDequeue false) r c' /\ cam_ok c' /\ has s' h c' O D P) s.
Proof.
  intros Hok Es. revert s. induction n as [|n IH]; intros s H Hn; [lia|]. pose proof (has_streaming _ _ _ _ _ _ Hok Es H) as Hs. cbn [dequeue_loop]. apply wp_bind. rewrite (proj2 (Z.leb_gt FD_SETSIZE _)) by apply Hok. apply wp_ret, wp_bind, wp_cam_dev.
  assert (forall r s', r <> OPRT_OK -> has s' h c O D P -> exists c', cam_step c (CDequeue false) (r, None) c' /\ cam_ok c' /\ has s' h c' O D P) as Hfail by (intros r s' Hr H'; exists c; by split; [constructor|]).
  eapply wp_mono; [apply v_select_ok; eapply holds_fd; exact Hs|]. cbv beta. intros x k (E1 & E2 & E3 & E4 & E5). assert (has (Cam (c_own s) k) h c O D P) as H1 by (by eapply holds_drv_same).
  destruct x as [| |e]; [|by apply wp_ret, Hfail|].
  - pose proof (has_streaming _ _ _ _ _ _ Hok Es H1) as Hs1. apply wp_bind. unfold xioctl. eapply xioctl_loop_spec; [exact Hs1|apply Hs1| |].
    + intros a d' s2 (Hin & Hi & ->) H2 _. pose proof Hok as [_ Hst]. rewrite Es in Hst. destruct Hst as (Hb & Hnum & _ & Hall & Hd & Hq). rewrite Hd in Hi. rewrite Hnum, (proj2 (Z.leb_gt _ _)) by lia.
      destruct (lookup_lt_is_Some_2 (cm_bufs c) (Z.to_nat (a_index a))) as [b Eb]; [lia|]. replace (a_index a) with (Z.of_nat (Z.to_nat (a_index a))) in * by lia. rewrite Nat2Z.id in Eb. apply wp_bind.
      eapply buf_at_spec; [eapply holds_perm; [apply perm_swap|done|done|exact H2]|exact Eb|]. apply wp_ret. eexists. split; [by eapply dequeue_ok|]. split; [apply ok_with_drv; [done|done|set_solver]|].
      unfold has, cam_objs, cam_fd, cam_maps. cbn [with_drv cm_x cm_bufs cm_drv]. by rewrite (proj2 (Z.eqb_neq _ 0) Hb).
    + intros e s2 _ H2 Hle Hlt. cbn [c_dev] in *. assert (has s2 h c O D P) as H2' by (pose proof Hok as [_ Hst]; rewrite Es in Hst; unfold has, cam_objs; by rewrite (proj2 (Z.eqb_neq _ 0) (proj1 Hst))).
      destruct (Z.eqb_spec e EAGAIN) as [->|]; [|by apply wp_ret, Hfail]. apply IH; [done|]. specialize (Hlt eq_refl). lia.
  - destruct (Z.eqb_spec e EINTR) as [->|]; [|by apply wp_ret, Hfail]. apply IH; [done|]. specialize (E5 eq_refl). cbn. lia.
Qed.

(** Every call on a camera. *)
Lemma call_step s h c o O D P : cam_ok c -> (forall i, o = CQueue i -> 0 <= i) -> has s h c O D P ->
  wp (cam_exec h o) (fun r s' => exists c', cam_step c o r c' /\ cam_ok c' /\ has s' h c' O D P) s.
Proof.
  intros Hok Hi H. pose proof (has_handle _ _ _ _ _ _ H) as Hh. destruct o as [| |null|i].
  - by apply start_step.
  - cbn [cam_exec]. apply wp_bind. eapply wp_mono; [by apply stop_step|]. cbv beta. intros r s' (-> & d & Hok' & H'). apply wp_ret. exists (with_drv d (stopped c)). split; [by constructor|done].
  - cbn [cam_exec]. unfold tkl_camera_v4l2_dequeue. rewrite (proj2 (Z.eqb_neq h 0)) by done. cbn [orb]. assert (forall null s', has s' h c O D P -> exists c', cam_step c (CDequeue null) (OPRT_INVALID_PARM, None) c' /\ cam_ok c' /\ has s' h c' O D P) as Hf by (intros; exists c; by split; [constructor|]).
    destruct null; [by apply wp_ret, Hf|]. apply wp_bind. eapply get_ctx_spec; [exact H|]. destruct (cx_streaming (cm_x c)) eqn:Es; cbn [negb]; [|by apply wp_ret, Hf]. apply dequeue_loop_spec; [done|done|done|apply H].
  - cbn [cam_exec]. specialize (Hi i eq_refl). apply wp_bind. unfold tkl_camera_v4l2_queue. rewrite (proj2 (Z.eqb_neq h 0)) by done. apply wp_bind. eapply get_ctx_spec; [exact H|].
    assert (forall r s', r <> OPRT_OK -> has s' h c O D P -> exists c', cam_step c (CQueue i) (r, None) c' /\ cam_ok c' /\ has s' h c' O D P) as Hf by (intros; exists c; by split; [constructor|]).
    destruct (Z.leb_spec (cx_buffers_num (cm_x c)) i) as [|Hlt]; [by apply wp_ret, wp_ret, Hf|]. pose proof Hok as [_ Hst]. destruct (cx_streaming (cm_x c)) eqn:Es; [|destruct Hst as (_ & Hn & _); lia]. destruct Hst as (Hb & Hn & _ & _ & Hd & Hq).
    pose proof (has_streaming _ _ _ _ _ _ Hok Es H) as Hs. assert (forall d s', holds s' ((h, OCtx (cm_x c)) :: (cx_buffers (cm_x c), OBufs (cm_bufs c)) :: O) ((cx_fd (cm_x c), d) :: D) (maps_of (cm_bufs c) ++ P) -> has s' h (with_drv d c) O D P) as Hhas.
    { intros d s' H'. unfold has, cam_objs, cam_fd, cam_maps. cbn [with_drv cm_x cm_bufs cm_drv]. by rewrite (proj2 (Z.eqb_neq _ 0) Hb). }
    apply wp_bind. eapply xioctl_spec; [exact Hs| |].
    + intros a d' s' (Hr & Hnq & ->) H'. apply wp_ret, wp_ret. assert (i ∈ first (length (cm_bufs c))) as Hin by (apply first_in; lia). eexists. split; [by apply queue_ok|]. split; [apply ok_with_drv; [done|done|set_solver]|by apply Hhas].
    + intros e s' H'. apply wp_ret, wp_ret, Hf; [done|]. specialize (Hhas _ _ H'). by destruct c.
Qed.

(** ** All cameras *)

Definition all_objs (C : gmap Z camera) : list (Z * camobj) := concat ((fun hc => cam_objs hc.1 hc.2) <$> map_to_list C).
Definition all_fds (C : gmap Z camera) : list (Z * driver) := (fun hc => cam_fd hc.2) <$> map_to_list C.
Definition all_maps (C : gmap Z camera) : list (Z * Z) := concat ((fun hc => cam_maps hc.2) <$> map_to_list C).

(** Descriptors and mappings of the process that are not those of cameras. *)
Variables (D0 : list (Z * driver)) (P0 : list (Z * Z)).

Record cams_ok (C : gmap Z camera) s : Prop := {
  g_cams h c : C !! h = Some c -> cam_ok c;
  g_holds : holds s (all_objs C) (all_fds C ++ D0) (all_maps C ++ P0)
}.

(** The resources with one camera added. *)
Lemma all_insert C h c : C !! h = None -> all_objs (<[h := c]> C) ≡ₚ cam_objs h c ++ all_objs C /\ all_fds (<[h := c]> C) ≡ₚ cam_fd c :: all_fds C /\ all_maps (<[h := c]> C) ≡ₚ cam_maps c ++ all_maps C.
Proof.
  intros Hn. unfold all_objs, all_fds, all_maps. rewrite (map_to_list_insert C h c Hn), !fmap_cons. cbn [concat fst snd]. done.
Qed.

Lemma focus C h c s : C !! h = Some c -> holds s (all_objs C) (all_fds C ++ D0) (all_maps C ++ P0) -> has s h c (all_objs (delete h C)) (all_fds (delete h C) ++ D0) (all_maps (delete h C) ++ P0).
Proof.
  intros Hc H. rewrite <-(insert_delete_id C h c Hc) in H. destruct (all_insert (delete h C) h c (lookup_delete_eq C h)) as (E1 & E2 & E3). eapply holds_perm; [exact E1| | |exact H]; [by rewrite E2|by rewrite E3, app_assoc].
Qed.

Lemma unfocus C h c s : C !! h = None -> has s h c (all_objs C) (all_fds C ++ D0) (all_maps C ++ P0) -> holds s (all_objs (<[h := c]> C)) (all_fds (<[h := c]> C) ++ D0) (all_maps (<[h := c]> C) ++ P0).
Proof.
  intros Hc H. destruct (all_insert C h c Hc) as (E1 & E2 & E3). eapply holds_perm; [symmetry; exact E1| | |exact H]; [by rewrite E2|by rewrite E3, app_assoc].
Qed.

Lemma fresh_handle C s h o D P : holds s ((h, o) :: all_objs C) D P -> C !! h = None.
Proof.
  intros H. destruct (C !! h) as [c|] eqn:E; [|done]. exfalso. pose proof (NoDup_fst_map_to_list (o_objs (c_own s))) as Hn. rewrite (h_objs _ _ _ _ H), fmap_cons in Hn. apply NoDup_cons in Hn as [Hn _]. apply Hn. cbn [fst].
  apply (list_elem_of_fmap_2 fst (all_objs C) (h, OCtx (cm_x c))). apply list_elem_of_In, in_concat. exists (cam_objs h c). split; [|by left]. apply list_elem_of_In. apply (list_elem_of_fmap_2 (fun hc => cam_objs hc.1 hc.2) (map_to_list C) (h, c)). by apply elem_of_map_to_list.
Qed.

(** ** Opening and closing *)

Definition new_camera (c : camera) : Prop := cam_ok c /\ cx_streaming (cm_x c) = false.

Lemma open_step s hdl_null cfg C : holds s (all_objs C) (all_fds C ++ D0) (all_maps C ++ P0) ->
  wp (tkl_camera_v4l2_open fuel hdl_null cfg) (fun x s' =>
    (exists r : OPERATE_RET, x = (r, None) /\ r <> OPRT_OK /\ holds s' (all_objs C) (all_fds C ++ D0) (all_maps C ++ P0)) \/
    exists h c, x = (OPRT_OK, Some h) /\ C !! h = None /\ new_camera c /\ has s' h c (all_objs C) (all_fds C ++ D0) (all_maps C ++ P0)) s.
Proof.
  intros H. match goal with |- wp _ ?R _ => set (Q := R) end. assert (forall r s', r <> OPRT_OK -> holds s' (all_objs C) (all_fds C ++ D0) (all_maps C ++ P0) -> Q (r, None) s') as Hfail by (intros r s' Hr H'; left; by exists r).
  unfold tkl_camera_v4l2_open. destruct hdl_null; [by apply wp_ret, Hfail|]. destruct cfg as [cfg|]; [|by apply wp_ret, Hfail]. destruct (cf_devnode cfg) as [path|]; [|by apply wp_ret, Hfail].
  apply wp_bind. eapply calloc_spec; [exact H|cbn; unfold SIZEOF_CTX; lia|intros s1 H1; by apply wp_ret, Hfail|]. intros h s1 Hh H1. rewrite (proj2 (Z.eqb_neq h 0)) by done. pose proof (fresh_handle _ _ _ _ _ _ H1) as Hnew.
  apply wp_bind. unfold set_ctx. eapply set_obj_spec; [exact H1|done|]. intros s2 H2.
  (* closing and releasing again *)
  assert (forall r fd o d s', r <> OPRT_OK -> holds s' ((h, o) :: all_objs C) ((fd, d) :: all_fds C ++ D0) (all_maps C ++ P0) -> wp (on_dev (v_close fd) ;;; free h ;;; ret (r, None)) Q s') as Hundo.
  { intros r fd o d s' Hr H'. apply wp_bind. eapply close_spec; [exact H'|]. intros s3 H3. apply wp_bind. eapply cam_free_spec; [exact H3|]. intros s4 H4. by apply wp_ret, Hfail. }
  cbv zeta. destruct (if cf_pixfmt cfg =? TKL_CAMERA_V4L2_PIXFMT_YUYV then Some V4L2_PIX_FMT_YUYV else if cf_pixfmt cfg =? TKL_CAMERA_V4L2_PIXFMT_MJPEG then Some V4L2_PIX_FMT_MJPEG else None) as [fourcc|]; [|apply wp_bind; eapply cam_free_spec; [exact H2|]; intros s3 H3; by apply wp_ret, Hfail].
  apply wp_bind. eapply upd_ctx_spec; [exact H2|]. intros s3 H3. apply wp_bind. eapply cam_open_spec; [exact H3| |].
  - intros fd s4 Hfd H4. apply wp_bind. eapply upd_ctx_spec; [exact H4|]. intros s5 H5. rewrite (proj2 (Z.ltb_lt fd 0)) by done. apply wp_bind. eapply cam_free_spec; [exact H5|]. intros s6 H6. by apply wp_ret, Hfail.
  - intros fd d s4 Hfd H4. apply wp_bind. eapply upd_ctx_spec; [exact H4|]. intros s5 H5. rewrite (proj2 (Z.ltb_ge fd 0)) by lia. apply wp_bind. eapply xioctl_spec; [exact H5| |intros e s6 H6; by eapply Hundo].
    intros cap d' s6 -> H6. destruct (Z.land (a_capabilities cap) V4L2_CAP_VIDEO_CAPTURE =? 0); [by eapply Hundo|]. destruct (Z.land (a_capabilities cap) V4L2_CAP_STREAMING =? 0); [by eapply Hundo|]. apply wp_bind. unfold v4l2_set_format_and_fps. apply wp_bind. eapply get_ctx_spec; [exact H6|]. cbn [with_fd with_fourcc cx_fd].
    apply wp_bind. eapply xioctl_spec; [exact H6| |intros e s7 H7; apply wp_ret; rewrite bool_decide_true by done; by eapply Hundo]. intros fmt d' s7 -> H7.
    assert (forall d s', holds s' ((h, OCtx (with_fd fd (with_fourcc fourcc (mkCtx (-1) false (cf_width cfg) (cf_height cfg) (cf_fps cfg) (if cf_buffer_count cfg =? 0 then 4 else cf_buffer_count cfg) 0 0 0)))) :: all_objs C) ((fd, d) :: all_fds C ++ D0) (all_maps C ++ P0) ->
      wp (upd_ctx h (cam_with_size (a_width fmt) (a_height fmt)) ;;; ret OPRT_OK) (fun a => wp (if bool_decide (a <> OPRT_OK) then on_dev (v_close fd) ;;; free h ;;; ret (a, None) else ret (OPRT_OK, Some h)) Q) s') as Hend.
    { intros d0 s8 H8. apply wp_bind. eapply upd_ctx_spec; [exact H8|]. intros s9 H9. apply wp_ret. rewrite bool_decide_false by (intros Hx; by apply Hx). apply wp_ret. right. eexists h, (mkCamera _ [] d0). split; [done|]. split; [done|]. split; [|exact H9]. split; [split; done|done]. }
    apply wp_bind. eapply xioctl_spec; [exact H7|intros a2 d2 s8 -> H8|intros e s8 H8]; by eapply Hend.
Qed.

Lemma close_step s h c O D P : cam_ok c -> has s h c O D P -> wp (tkl_camera_v4l2_close fuel h) (fun r s' => r = OPRT_OK /\ holds s' O D P) s.
Proof.
  intros Hok H. pose proof (has_handle _ _ _ _ _ _ H) as Hh. pose proof Hok as [[Hfd _] _]. unfold tkl_camera_v4l2_close. rewrite (proj2 (Z.eqb_neq h 0)) by done. apply wp_bind. eapply wp_mono; [by apply stop_step|]. cbv beta. intros r s1 (_ & d & _ & H1).
  unfold has, cam_objs, cam_fd, cam_maps in H1. cbn [with_drv stopped cm_x cm_bufs cm_drv with_buffers with_streaming cx_buffers cx_fd] in H1. change (0 =? 0) with true in H1. cbn [app maps_of filter list_filter fmap list_fmap] in H1.
  apply wp_bind. eapply get_ctx_spec; [exact H1|]. cbn [with_buffers with_streaming cx_fd]. rewrite (proj2 (Z.leb_le 0 _)) by done. cbn [when]. do 2 apply wp_bind. eapply close_spec; [exact H1|]. intros s2 H2. eapply upd_ctx_spec; [exact H2|]. intros s3 H3.
  apply wp_bind. eapply cam_free_spec; [exact H3|]. intros s4 H4. by apply wp_ret.
Qed.

(** ** Clients *)

Inductive gcall := GOpen (hdl_null : bool) (cfg : option TKL_CAMERA_V4L2_CFG_T) | GClose (h : Z) | GCall (h : Z) (o : cam_call).
Definition gres : Type := OPERATE_RET * option Z * option cam_frame.
Definition gexec (o : gcall) : W gres :=
  match o with
  | GOpen hdl_null cfg => x <- tkl_camera_v4l2_open fuel hdl_null cfg ;; ret (fst x, snd x, None)
  | GClose h => r <- tkl_camera_v4l2_close fuel h ;; ret (r, None, None)
  | GCall h o => x <- cam_exec h o ;; ret (fst x, None, snd x)
  end.

(** The handles of the calls are null or open; the indices are unsigned. *)
Definition handle_ok (C : gmap Z camera) (h : Z) : Prop := h = 0 \/ is_Some (C !! h).
Definition gallowed (C : gmap Z camera) (o : gcall) : Prop :=
  match o with
  | GOpen _ _ => True
  | GClose h => handle_ok C h
  | GCall h o => handle_ok C h /\ forall i, o = CQueue i -> 0 <= i
  end.

Inductive gstep (C : gmap Z camera) : gcall -> gres -> gmap Z camera -> Prop :=
| g_open hdl_null cfg h c : C !! h = None -> new_camera c -> gstep C (GOpen hdl_null cfg) (OPRT_OK, Some h, None) (<[h := c]> C)
| g_open_failed hdl_null cfg r : r <> OPRT_OK -> gstep C (GOpen hdl_null cfg) (r, None, None) C
| g_close h c : C !! h = Some c -> gstep C (GClose h) (OPRT_OK, None, None) (delete h C)
| g_call h o c r f c' : C !! h = Some c -> cam_step c o (r, f) c' -> gstep C (GCall h o) (r, None, f) (<[h := c']> C)
| g_null_close : gstep C (GClose 0) (OPRT_INVALID_PARM, None, None) C
| g_null_call o : gstep C (GCall 0 o) (OPRT_INVALID_PARM, None, None) C.

Lemma null_call o s : cam_exec 0 o s = Ret (OPRT_INVALID_PARM, None) s.
Proof. by destruct o as [| |[]|]. Qed.

Lemma gstep_ok C o s : cams_ok C s -> gallowed C o -> wp (gexec o) (fun r s' => exists C', gstep C o r C' /\ cams_ok C' s') s.
Proof.
  intros [Hc H] Hal. destruct o as [hdl_null cfg|h|h o]; cbn [gexec].
  - apply wp_bind. eapply wp_mono; [by apply open_step|]. cbv beta. intros x s' [(r & -> & Hr & H')|(h & c & -> & Hn & Hnew & H')]; apply wp_ret.
    + exists C. split; [by constructor|]. by split.
    + exists (<[h := c]> C). split; [by constructor|]. split; [|by apply unfocus]. intros h' c' [[<- <-]|[_ Hc']]%lookup_insert_Some; [apply Hnew|by eapply Hc].
  - destruct Hal as [->|[c Eh]]; [apply wp_bind; unfold wp at 1; cbn; exists C; split; [constructor|by split]|]. apply wp_bind. eapply wp_mono; [eapply close_step; [by eapply Hc|by apply focus]|]. cbv beta.
    intros r s' [-> H']. apply wp_ret. exists (delete h C). split; [by econstructor|]. split; [|done]. intros h' c' [_ Hc']%lookup_delete_Some. by eapply Hc.
  - destruct Hal as [[->|[c Eh]] Hi]; [apply wp_bind; unfold wp at 1; rewrite null_call; apply wp_ret; exists C; split; [constructor|by split]|].
    apply wp_bind. eapply wp_mono; [eapply call_step; [by eapply Hc|exact Hi|by apply focus]|]. cbv beta. intros [r f] s' (c' & Hst & Hok & H'). apply wp_ret. exists (<[h := c']> C). split; [by econstructor|]. split.
    + intros h' c'' [[<- <-]|[_ Hc']]%lookup_insert_Some; [done|by eapply Hc].
    + rewrite <-insert_delete_eq. apply unfocus; [by rewrite lookup_delete_eq|done].
Qed.

(** C10: every client of the camera that uses handles it has opened and not closed runs
    without a fault, whatever the device answers; its history is one of a machine in
    which a camera is stopped or streams, and then each of its buffers is either with
    the driver or with the application: [dequeue] hands out the mapped address of a
    buffer that was with the driver, [queue] takes only buffers that are not.  No
    descriptor, mapping or memory is lost, released twice or used after its release:
    the state always has those of the open cameras, and when all are closed nothing
    is left of them. *)
Theorem camera_refines_buffers cl C s : cams_ok C s -> follows gstep gallowed C cl ->
  wp (exec gexec cl) (fun h s' => exists C', history_of cl h /\ runs gstep C h C' /\ cams_ok C' s' /\
    (C' = ∅ -> o_objs (c_own s') = ∅ /\ v_fds (c_dev s') ≡ₚ D0.*1 /\ v_maps (c_dev s') ≡ₚ P0)) s.
Proof.
  intros HC Hf. eapply wp_mono; [by eapply (client_refines gexec gstep gallowed cams_ok (fun a o s' Hr Ha => gstep_ok a o s' Hr Ha))|]. cbv beta. intros h s' (C' & Hh & Hr & HC'). exists C'. split; [done|]. split; [done|]. split; [done|].
  intros ->. destruct HC' as [_ [H1 H2 H3 H4 H5 H6 H7]]. split; [|done]. apply map_to_list_empty_iff, Permutation_nil_r. exact H2.
Qed.
End Resources.

(** ** A device *)

Record demo_dev := mkDev { dd_fds : list Z; dd_maps : list (Z * Z); dd_drv : Z -> driver }.

Fixpoint take_out {A} `{EqDecision A} (x : A) (l : list A) : list A :=
  match l with [] => [] | y :: l => if decide (x = y) then l else y :: take_out x l end.
Lemma take_out_perm {A} `{EqDecision A} (x : A) l : x ∈ l -> l ≡ₚ x :: take_out x l.
Proof.
  induction l as [|y l IH]; [by intros ?%not_elem_of_nil|]. intros [->|Hin]%elem_of_cons; cbn [take_out]; [by rewrite decide_True|]. destruct (decide (x = y)) as [->|]; [done|]. rewrite perm_swap. by rewrite <-IH.
Qed.

Definition demo_request (r : v4l2_req) (d : driver) : option (v4l2_ans * driver) :=
  let ans count index := mkAns (V4L2_CAP_VIDEO_CAPTURE + V4L2_CAP_STREAMING) 640 480 count index 614400 0 614400 in
  match r with
  | VIDIOC_REQBUFS n => if (0 <=? n) && (n <=? 32) then Some (ans n 0, mkDrv n ∅) else None
  | VIDIOC_QBUF i => if (0 <=? i) && (i <? d_count d) && bool_decide (i ∉ d_queued d) then Some (ans 0 i, mkDrv (d_count d) ({[i]} ∪ d_queued d)) else None
  | VIDIOC_DQBUF =>
    match filter (fun i => 0 <= i < d_count d) (elements (d_queued d)) with
    | i :: _ => Some (ans 0 i, mkDrv (d_count d) (d_queued d ∖ {[i]}))
    | [] => None
    end
  | VIDIOC_STREAMOFF => Some (ans 0 0, mkDrv (d_count d) ∅)
  | _ => Some (ans 0 0, d)
  end.

Lemma demo_request_law r d a d' : demo_request r d = Some (a, d') -> request_law r a d d'.
Proof.
  destruct r; cbn [demo_request request_law]; try (by intros [= <- <-]).
  - destruct ((0 <=? count) && (count <=? 32)) eqn:E; [|done]. intros [= <- <-]. zbool. cbn. split; [done|lia].
  - destruct ((0 <=? index) && (index <? d_count d) && bool_decide (index ∉ d_queued d)) eqn:E; [|done]. intros [= <- <-]. apply andb_prop in E as [E Hb%bool_decide_eq_true]. zbool. done.
  - destruct (filter _ _) as [|i l] eqn:E; [done|]. intros [= <- <-]. assert (i ∈ filter (fun i => 0 <= i < d_count d) (elements (d_queued d))) as Hin by (rewrite E; by left). apply list_elem_of_filter in Hin as [Hi Hin%elem_of_elements]. done.
Qed.

#[export] Instance demo_v4l2 : V4l2 demo_dev.
Proof.
  refine {|
    v_open path k := if above (dd_fds k) <? FD_SETSIZE then Ret (above (dd_fds k)) (mkDev (above (dd_fds k) :: dd_fds k) (dd_maps k) (dd_drv k)) else Ret (-1) k;
    v_close fd k := Ret tt (mkDev (take_out fd (dd_fds k)) (dd_maps k) (dd_drv k));
    v_ioctl fd r k := match demo_request r (dd_drv k fd) with
      | Some (a, d) => Ret (IOk a) (mkDev (dd_fds k) (dd_maps k) (fun g => if g =? fd then d else dd_drv k g))
      | None => Ret (IFail 22) k end;
    v_mmap len fd off k := Ret (above (dd_maps k).*1) (mkDev (dd_fds k) ((above (dd_maps k).*1, len) :: dd_maps k) (dd_drv k));
    v_munmap p len k := Ret tt (mkDev (dd_fds k) (take_out (p, len) (dd_maps k)) (dd_drv k));
    v_select fd k := Ret SelReady k;
    v_fds := dd_fds; v_maps := dd_maps; v_drv := dd_drv; v_patience _ := O |}.
  - intros path k. destruct (above_new (dd_fds k)). unfold wp. destruct (Z.ltb_spec (above (dd_fds k)) FD_SETSIZE); cbn -[FD_SETSIZE]; (split; [done|]); (split; [done|]); [right; split; [lia|done]|by left].
  - intros fd k Hin. unfold wp. cbn. split; [done|]. split; [done|]. split; [by apply take_out_perm|done].
  - intros fd r k Hin. unfold wp. destruct (demo_request r (dd_drv k fd)) as [[a d]|] eqn:E; cbn.
    + split; [done|]. split; [done|]. split; [intros g Hg; by rewrite (proj2 (Z.eqb_neq g fd))|]. split; [done|]. rewrite Z.eqb_refl. by apply demo_request_law.
    + do 4 (split; [done|]). split; [done|]. by intros [?|?].
  - intros len fd off k Hin Hl. destruct (above_new (dd_maps k).*1). unfold wp. cbn. do 3 (split; [done|]). right. done.
  - intros p len k Hin. unfold wp. cbn. do 3 (split; [done|]). by apply take_out_perm.
  - intros fd k Hin. unfold wp. by do 4 (split; [done|]).
Defined.

#[local] Instance demo_allocator : Allocator hstate := heap_allocator 0.
#[local] Opaque demo2.

Definition cam_demo : cam hstate demo_dev := Cam (Own demo2 ∅) (mkDev [0; 1; 2] [] (fun _ => mkDrv 0 ∅)).
Definition cam_demo_fds : list (Z * driver) := [(0, mkDrv 0 ∅); (1, mkDrv 0 ∅); (2, mkDrv 0 ∅)].

Lemma cam_demo_ok : cams_ok 1 cam_demo_fds [] ∅ cam_demo.
Proof.
  split; [by intros h c; rewrite lookup_empty|]. split; cbn; try done.
  - exists ∅. split; [|intros p o; by rewrite lookup_empty]. exists (heap_at demo2), (layout demo2), ∅. split; [apply demo2_represents|done].
  - change (NoDup [0; 1; 2]). by apply (bool_decide_unpack _).
  - change (forall fd d, (fd, d) ∈ cam_demo_fds -> mkDrv 0 ∅ = d). intros fd d. unfold cam_demo_fds. rewrite !elem_of_cons. intros [[= _ ->]|[[= _ ->]|[[= _ ->]|H%not_elem_of_nil]]]; done.
  - lia.
Qed.

(** Open a camera with three buffers, start it, take a cam_frame and give it back, close it. *)
Definition cam_demo_cfg : TKL_CAMERA_V4L2_CFG_T := mkCamCfg (Some [47; 100]) 640 480 30 3 TKL_CAMERA_V4L2_PIXFMT_YUYV.
Definition cam_demo_client : client gcall gres :=
  Call (GOpen false (Some cam_demo_cfg)) (fun r =>
  match r with
  | (_, Some h, _) =>
    Call (GCall h CStart) (fun _ => Call (GCall h (CDequeue false)) (fun f => Call (GCall h (CQueue 2)) (fun _ => Call (GClose h) (fun _ => Stop))))
  | _ => Stop
  end).

Lemma gcall_still_open C h o r C' : gstep C (GCall h o) r C' -> handle_ok C' h.
Proof. intros Hs. inversion Hs; subst; [right; rewrite lookup_insert_eq; eauto|by left]. Qed.

Lemma cam_demo_follows : follows gstep gallowed ∅ cam_demo_client.
Proof.
  split; [done|]. intros r C' Hs. inversion Hs as [? ? h c Hh Hc| | | | |]; subst; [|done].
  split; [split; [right; rewrite lookup_insert_eq; eauto|done]|]. intros r1 C1 K1%gcall_still_open.
  split; [by split|]. intros r2 C2 K2%gcall_still_open. split; [split; [exact K2|intros i [= <-]; lia]|]. intros r3 C3 K3%gcall_still_open. by split.
Qed.

Lemma camera_refines_buffers_witness :
  wp (exec (gexec 1) cam_demo_client) (fun h s' => exists C', history_of cam_demo_client h /\ runs gstep ∅ h C' /\ cams_ok 1 cam_demo_fds [] C' s' /\
    (C' = ∅ -> o_objs (c_own s') = ∅ /\ v_fds (c_dev s') ≡ₚ cam_demo_fds.*1 /\ v_maps (c_dev s') ≡ₚ [])) cam_demo.
Proof. exact (camera_refines_buffers 1 cam_demo_fds [] cam_demo_client ∅ cam_demo cam_demo_ok cam_demo_follows). Defined.

(** The cam_frame comes from one of the buffers, giving it back succeeds; at the end no
    descriptor and no mapping is left. *)
Example camera_demo :
  match exec (gexec 1) cam_demo_client cam_demo with
  | Ret h s => (drop 2 (h.*2), dd_fds (c_dev s), dd_maps (c_dev s)) =
    ([(OPRT_OK, None, Some (mkFrame 3 614400 2)); (OPRT_OK, None, None); (OPRT_OK, None, None)], [0; 1; 2], [])
  | _ => False
  end.
Proof. by vm_compute. Qed.
