(* ===== verification/TklThread.v ===== *)
(** * Threads: [src/tkl_thread.c]

    The adapter over detached POSIX threads.  A handle is a block on the heap with the
    function of the thread, its argument and its identifier; the new thread reads the
    block when it begins to run, some time after [tkl_thread_create] returned, and
    [tkl_thread_release] gives the block back.  The steps of all threads interleave
    freely: a run is a sequence of events, each chosen after the results of those
    before.  Identifiers may be used again once their thread has ended, as POSIX
    allows for detached threads. *)

From S2P Require Import Prelude CMem MemHeap MemHeapInv MemHeapFacts MemHeapProps MemHeapStore Alloc Client.

Record THREAD_DATA := mkThread { td_id : Z; td_func : Z; td_arg : Z }.
Definition SIZEOF_THREAD_DATA : Z := 24.
Definition thread_size (o : THREAD_DATA) : Z := SIZEOF_THREAD_DATA.

(** Where a thread is: in [_tkl_thread_wrap_func] before its check, between the check
    and the call, in the function it was created for, or at its end. *)
Inductive tphase := PCheck (data : Z) | PCall (data : Z) | PRun (func arg : Z) | PEnd.

Record tsys (A : Type) := TSys { t_own : owned A THREAD_DATA; t_threads : gmap Z tphase }.
Arguments TSys {A}. Arguments t_own {A}. Arguments t_threads {A}.

Section Thread.
Context {A : Type} `{!Allocator A}.
Local Abbreviation W := (M (tsys A)).

Definition on_data {R} (c : M (owned A THREAD_DATA) R) : W R := fun s =>
  match c (t_own s) with Ret r o => Ret r (TSys o (t_threads s)) | Fault => Fault | Diverge => Diverge end.
Definition set_phase (t : Z) (ph : tphase) : W unit := modify (fun s => TSys (t_own s) (<[t := ph]> (t_threads s))).

(** [pthread_create] with a detached thread: an error number, or the identifier of a new
    thread, which it stores through its argument; [outcome] is what the system does. *)
Definition pthread_create (outcome : Z + Z) (data : Z) : W Z :=
  match outcome with
  | inl err => ret err
  | inr id =>
    x <- on_data (get_obj data) ;;
    on_data (set_obj data (mkThread id (td_func x) (td_arg x))) ;;;
    set_phase id (PCheck data) ;;; ret 0
  end.

(** ** The adapter *)

(** The handle through [thread], which is null when [thread_null]. *)
Definition tkl_thread_create (outcome : Z + Z) (thread_null : bool) (name stack_size priority func arg : Z) : W (OPERATE_RET * option Z) :=
  if thread_null then ret (OPRT_INVALID_PARM, None)
  else
    thread_data <- on_data (lift_alloc (al_malloc SIZEOF_THREAD_DATA)) ;;
    if thread_data =? 0 then ret (OPRT_MALLOC_FAILED, None)
    else
      on_data (init_obj thread_data (mkThread 0 0 0)) ;;;
      on_data (set_obj thread_data (mkThread 0 func arg)) ;;;
      r <- pthread_create outcome thread_data ;;
      if negb (r =? 0) then ret (OPRT_OS_ADAPTER_THRD_CREAT_FAILED, None)
      else ret (OPRT_OK, Some thread_data).

(** The wrapper of thread [t], one read after the other; the result is the call it makes. *)
Definition _tkl_thread_wrap_func (t : Z) : W (option (Z * Z)) :=
  ths <- gets t_threads ;;
  match ths !! t with
  | Some (PCheck data) =>
    if data =? 0 then set_phase t PEnd ;;; ret None
    else
      x <- on_data (get_obj data) ;;
      set_phase t (if td_func x =? 0 then PEnd else PCall data) ;;; ret None
  | Some (PCall data) =>
    x <- on_data (get_obj data) ;;
    set_phase t (PRun (td_func x) (td_arg x)) ;;; ret (Some (td_func x, td_arg x))
  | _ => ret None
  end.

Definition tkl_thread_release (thread : Z) : W OPERATE_RET :=
  if thread =? 0 then ret OPRT_INVALID_PARM
  else
    on_data (bind (lift_alloc (al_free thread)) (fun _ => drop_obj thread)) ;;;
    ret OPRT_OK.

Definition tkl_thread_get_watermark (thread : Z) : W (OPERATE_RET * Z) := ret (OPRT_OK, u32 (-1)).

(** [self]: the identifier of the calling thread. *)
Definition tkl_thread_get_id (self : Z) : W (OPERATE_RET * Z) := ret (OPRT_OK, self).

Definition tkl_thread_set_self_name (name : option (list Z)) : W OPERATE_RET :=
  match name with None => ret OPRT_INVALID_PARM | Some _ => ret OPRT_OK end.

Definition tkl_thread_is_self (self thread : Z) (is_self_null : bool) : W (OPERATE_RET * option bool) :=
  if (thread =? 0) || is_self_null then ret (OPRT_INVALID_PARM, None)
  else
    thread_data <- on_data (get_obj thread) ;;
    ret (OPRT_OK, Some (td_id thread_data =? self)).

Definition tkl_thread_diagnose (thread : Z) : W OPERATE_RET := ret OPRT_NOT_SUPPORTED.

(** ** Runs *)

(** Calls by the thread [self], steps of the wrapper of thread [t], and the end of a
    thread: its function returns or the wrapper has none to call. *)
Inductive tev :=
| ECreate (outcome : Z + Z) (func arg : Z)
| ERelease (h : Z)
| EIsSelf (self h : Z)
| EStep (t : Z)
| EEnd (t : Z).

Inductive tres := RCreate (r : OPERATE_RET) (h : option Z) | RRelease (r : OPERATE_RET) | RIsSelf (r : OPERATE_RET) (b : option bool) | RStep (call : option (Z * Z)) | REnd.

Definition tend (t : Z) : W unit := modify (fun s => TSys (t_own s) (delete t (t_threads s))).

Definition texec (e : tev) : W tres :=
  match e with
  | ECreate outcome func arg => x <- tkl_thread_create outcome false 0 0 0 func arg ;; ret (RCreate (fst x) (snd x))
  | ERelease h => r <- tkl_thread_release h ;; ret (RRelease r)
  | EIsSelf self h => x <- tkl_thread_is_self self h false ;; ret (RIsSelf (fst x) (snd x))
  | EStep t => c <- _tkl_thread_wrap_func t ;; ret (RStep c)
  | EEnd t => tend t ;;; ret REnd
  end.

(** ** What threads are *)

(** A thread has yet to call its function, calls it, or has nothing to do; [wh] is the
    handle it was created with. *)
Inductive athread := AWait (wh func arg : Z) (checked : bool) | ARun (func arg : Z) | AIdle.

(** The threads; the thread of each handle that was not released; the blocks that nobody
    has a handle to. *)
Record amachine := AMachine { am_threads : gmap Z athread; am_handles : gmap Z Z; am_lost : gset Z }.

Definition waits_on (h : Z) (a : athread) : Prop := match a with AWait wh _ _ _ => wh = h | _ => False end.
#[export] Instance waits_on_dec h a : Decision (waits_on h a).
Proof. destruct a; cbn; apply _. Defined.

Inductive tstep (m : amachine) : tev -> tres -> amachine -> Prop :=
| t_create id func arg h : am_threads m !! id = None -> am_handles m !! h = None ->
    tstep m (ECreate (inr id) func arg) (RCreate OPRT_OK (Some h)) (AMachine (<[id := AWait h func arg false]> (am_threads m)) (<[h := id]> (am_handles m)) (am_lost m))
| t_no_memory o func arg : tstep m (ECreate o func arg) (RCreate OPRT_MALLOC_FAILED None) m
| t_no_thread err func arg h : h ∉ am_lost m ->
    tstep m (ECreate (inl err) func arg) (RCreate OPRT_OS_ADAPTER_THRD_CREAT_FAILED None) (AMachine (am_threads m) (am_handles m) ({[h]} ∪ am_lost m))
| t_release h id : am_handles m !! h = Some id -> tstep m (ERelease h) (RRelease OPRT_OK) (AMachine (am_threads m) (delete h (am_handles m)) (am_lost m))
| t_release_null : tstep m (ERelease 0) (RRelease OPRT_INVALID_PARM) m
| t_is_self self h id : am_handles m !! h = Some id -> tstep m (EIsSelf self h) (RIsSelf OPRT_OK (Some (bool_decide (id = self)))) m
| t_is_self_null self : tstep m (EIsSelf self 0) (RIsSelf OPRT_INVALID_PARM None) m
| t_check t h func arg : am_threads m !! t = Some (AWait h func arg false) -> func <> 0 ->
    tstep m (EStep t) (RStep None) (AMachine (<[t := AWait h func arg true]> (am_threads m)) (am_handles m) (am_lost m))
| t_none t h arg : am_threads m !! t = Some (AWait h 0 arg false) ->
    tstep m (EStep t) (RStep None) (AMachine (<[t := AIdle]> (am_threads m)) (am_handles m) (am_lost m))
| t_call t h func arg : am_threads m !! t = Some (AWait h func arg true) ->
    tstep m (EStep t) (RStep (Some (func, arg))) (AMachine (<[t := ARun func arg]> (am_threads m)) (am_handles m) (am_lost m))
| t_idle t : (forall h func arg c, am_threads m !! t <> Some (AWait h func arg c)) -> tstep m (EStep t) (RStep None) m
| t_end t : tstep m (EEnd t) REnd (AMachine (delete t (am_threads m)) (am_handles m) (am_lost m)).

(** The system makes threads with identifiers that no thread has; it reports errors by
    nonzero numbers; a handle is released once and not while its thread still has to read
    the block; a thread ends after its call. *)
Definition tallowed (m : amachine) (e : tev) : Prop :=
  match e with
  | ECreate (inl err) _ _ => err <> 0
  | ECreate (inr id) _ _ => am_threads m !! id = None
  | ERelease h => h = 0 \/ (is_Some (am_handles m !! h) /\ forall t a, am_threads m !! t = Some a -> ~ waits_on h a)
  | EIsSelf _ h => h = 0 \/ is_Some (am_handles m !! h)
  | EStep _ => True
  | EEnd t => match am_threads m !! t with Some (AWait _ _ _ _) => False | _ => True end
  end.

(** ** The representation *)

Definition phase_rep (m : amachine) (s : tsys A) (t : Z) (a : athread) (ph : tphase) : Prop :=
  match a with
  | AWait h func arg checked => h <> 0 /\ is_Some (am_handles m !! h) /\ (exists id, o_objs (t_own s) !! h = Some (mkThread id func arg)) /\
      ph = (if checked then PCall h else PCheck h)
  | ARun func arg => ph = PRun func arg
  | AIdle => ph = PEnd
  end.

Record trep (m : amachine) (s : tsys A) : Prop := {
  tr_own : owned_ok thread_size (t_own s);
  tr_threads t : match am_threads m !! t, t_threads s !! t with Some a, Some ph => phase_rep m s t a ph | None, None => True | _, _ => False end;
  tr_handles h id : am_handles m !! h = Some id -> exists x, o_objs (t_own s) !! h = Some x /\ td_id x = id;
  tr_blocks : dom (o_objs (t_own s)) = dom (am_handles m) ∪ am_lost m;
  tr_disjoint : dom (am_handles m) ## am_lost m
}.

Lemma wp_on_data {R} (c : M (owned A THREAD_DATA) R) Q s : wp c (fun r o => Q r (TSys o (t_threads s))) (t_own s) -> wp (on_data c) Q s.
Proof. unfold wp, on_data. by destruct (c (t_own s)). Qed.
(** A thread moves. *)
Lemma rep_thread m s t a ph : trep m s -> phase_rep m s t a ph ->
  trep (AMachine (<[t := a]> (am_threads m)) (am_handles m) (am_lost m)) (TSys (t_own s) (<[t := ph]> (t_threads s))).
Proof.
  intros [H1 H2 H3 H4 H5] Hph. split; cbn; try done. intros t'. destruct (decide (t' = t)) as [->|Hne]; [by rewrite !lookup_insert_eq|]. rewrite !lookup_insert_ne by done. apply H2.
Qed.

Lemma rep_end m s t : trep m s -> trep (AMachine (delete t (am_threads m)) (am_handles m) (am_lost m)) (TSys (t_own s) (delete t (t_threads s))).
Proof.
  intros [H1 H2 H3 H4 H5]. split; cbn; try done. intros t'. destruct (decide (t' = t)) as [->|Hne]; [by rewrite !lookup_delete_eq|]. rewrite !lookup_delete_ne by done. apply H2.
Qed.

(** A new block, with a handle or lost. *)
Lemma rep_block m s a h x : trep m s -> o_objs (t_own s) !! h = None -> owned_ok thread_size (Own a (<[h := x]> (o_objs (t_own s)))) ->
  h ∉ am_lost m /\ am_handles m !! h = None /\
  trep (AMachine (am_threads m) (<[h := td_id x]> (am_handles m)) (am_lost m)) (TSys (Own a (<[h := x]> (o_objs (t_own s)))) (t_threads s)) /\
  trep (AMachine (am_threads m) (am_handles m) ({[h]} ∪ am_lost m)) (TSys (Own a (<[h := x]> (o_objs (t_own s)))) (t_threads s)).
Proof.
  intros [H1 H2 H3 H4 H5] Hn Hok. assert (h ∉ dom (am_handles m) ∪ am_lost m) as Hnew by (rewrite <-H4; by apply not_elem_of_dom). apply not_elem_of_union in Hnew as [Hnh%not_elem_of_dom Hnl].
  assert (forall h' f g, (exists id, o_objs (t_own s) !! h' = Some (mkThread id f g)) -> exists id, <[h := x]> (o_objs (t_own s)) !! h' = Some (mkThread id f g)) as Hkeep.
  { intros h' f g [id E]. exists id. rewrite lookup_insert_ne; [done|congruence]. }
  split; [done|]. split; [done|]. split; split; cbn; try done.
  - intros t. specialize (H2 t). destruct (am_threads m !! t) as [[h' f g c|f g|]|], (t_threads s !! t); try done. destruct H2 as (? & Hh & Hx & ->). split; [done|]. split; [|split; [by apply Hkeep|done]]. destruct Hh as [id Hh]. exists id. cbn. rewrite lookup_insert_ne; [done|congruence].
  - intros h' id [[<- <-]|[Hne Hh]]%lookup_insert_Some; [exists x; by rewrite lookup_insert_eq|]. rewrite lookup_insert_ne by done. by apply H3.
  - rewrite !dom_insert_L, H4. set_solver.
  - rewrite dom_insert_L. set_solver.
  - intros t. specialize (H2 t). destruct (am_threads m !! t) as [[h' f g c|f g|]|], (t_threads s !! t); try done. destruct H2 as (? & Hh & Hx & ->). split; [done|]. split; [done|]. split; [by apply Hkeep|done].
  - intros h' id Hh. rewrite lookup_insert_ne; [by apply H3|congruence].
  - rewrite dom_insert_L, H4. set_solver.
  - apply not_elem_of_dom in Hnh. set_solver.
Qed.

Lemma create_step m s outcome func arg : trep m s -> tallowed m (ECreate outcome func arg) ->
  wp (texec (ECreate outcome func arg)) (fun r s' => exists m', tstep m (ECreate outcome func arg) r m' /\ trep m' s') s.
Proof.
  intros Hrep Hal. pose proof Hrep as [H1 H2 H3 H4 H5]. cbn [texec]. apply wp_bind. unfold tkl_thread_create. apply wp_bind, wp_on_data. eapply (malloc_obj_spec thread_size); [done|unfold SIZEOF_THREAD_DATA; lia|..].
  - intros a Ha. change (0 =? 0) with true. cbv iota. apply wp_ret, wp_ret. exists m. split; [constructor|]. by split.
  - intros h a Hh Hn Hnew. rewrite (proj2 (Z.eqb_neq h 0)) by done. apply wp_bind, wp_on_data. unfold init_obj, wp at 1. cbn [o_alloc o_objs t_own t_threads]. apply wp_bind, wp_on_data. eapply wp_set_obj; [apply lookup_insert_eq|]. cbn [o_alloc o_objs t_own t_threads].
    rewrite insert_insert_eq. apply wp_bind. destruct outcome as [err|id]; cbn [pthread_create].
    + apply wp_ret. rewrite (proj2 (Z.eqb_neq err 0)) by done. cbn [negb]. apply wp_ret, wp_ret. destruct (rep_block m s a h (mkThread 0 func arg) Hrep Hn) as (Hl & _ & _ & Hr); [by apply Hnew|]. eexists. split; [by eapply t_no_thread|exact Hr].
    + apply wp_bind, wp_on_data. eapply wp_get_obj; [apply lookup_insert_eq|]. cbn [t_own t_threads td_func td_arg]. apply wp_bind, wp_on_data. eapply wp_set_obj; [apply lookup_insert_eq|]. cbn [o_alloc o_objs t_own t_threads]. rewrite insert_insert_eq.
      apply wp_bind, wp_modify, wp_ret. change (negb (0 =? 0)) with false. cbv iota. apply wp_ret, wp_ret. destruct (rep_block m s a h (mkThread id func arg) Hrep Hn) as (_ & Hm & Hr & _); [by apply Hnew|]. eexists. split; [by eapply (t_create m id func arg h)|].
      apply (rep_thread _ _ id (AWait h func arg false) (PCheck h)) in Hr; [exact Hr|]. cbn. split; [done|]. split; [rewrite lookup_insert_eq; eauto|]. split; [exists id; by rewrite lookup_insert_eq|done].
Qed.

Lemma handle_block m s h id : trep m s -> am_handles m !! h = Some id -> h <> 0 /\ exists x, o_objs (t_own s) !! h = Some x /\ td_id x = id.
Proof. intros Hrep Hh. destruct (tr_handles _ _ Hrep h id Hh) as (x & Ex & Ei). split; [|by exists x]. pose proof (owned_positive _ _ _ _ (tr_own _ _ Hrep) Ex). lia. Qed.

Lemma release_step m s h : trep m s -> tallowed m (ERelease h) -> wp (texec (ERelease h)) (fun r s' => exists m', tstep m (ERelease h) r m' /\ trep m' s') s.
Proof.
  intros Hrep Hal. cbn [texec]. apply wp_bind. unfold tkl_thread_release. destruct Hal as [->|[[id Hh] Hfree]]; [apply wp_ret, wp_ret; exists m; split; [constructor|done]|].
  destruct (handle_block _ _ _ _ Hrep Hh) as (Hh0 & x & Ex & Ei). rewrite (proj2 (Z.eqb_neq h 0)) by done. pose proof Hrep as [H1 H2 H3 H4 H5].
  apply wp_bind, wp_on_data. eapply wp_mono; [by eapply (free_obj_spec thread_size)|]. cbv beta. intros _ o [Ho Eo]. apply wp_ret, wp_ret. eexists. split; [by eapply t_release|]. split; cbn; rewrite ?Eo; try done.
  - intros t. specialize (H2 t). specialize (Hfree t). destruct (am_threads m !! t) as [[h' f g c|f g|]|], (t_threads s !! t); try done. destruct H2 as (? & Hh' & Hx & ->). assert (h <> h') by (intros <-; by apply (Hfree _ eq_refl)).
    cbn. rewrite Eo, !lookup_delete_ne by done. done.
  - intros h' id' [Hne Hh']%lookup_delete_Some. rewrite lookup_delete_ne by done. by apply H3.
  - rewrite !dom_delete_L, H4. assert (h ∉ am_lost m) by (intros Hl; apply (H5 h); [by apply elem_of_dom|done]). set_solver.
  - rewrite dom_delete_L. set_solver.
Qed.

Lemma wrap_step m s t : trep m s -> wp (texec (EStep t)) (fun r s' => exists m', tstep m (EStep t) r m' /\ trep m' s') s.
Proof.
  intros Hrep. cbn [texec]. apply wp_bind. unfold _tkl_thread_wrap_func. apply wp_bind, wp_gets. pose proof (tr_threads _ _ Hrep t) as Ht.
  assert ((forall h func arg c, am_threads m !! t <> Some (AWait h func arg c)) -> exists m', tstep m (EStep t) (RStep None) m' /\ trep m' s) as Hidle by (intros Hno; exists m; split; [by constructor|done]).
  destruct (am_threads m !! t) as [[h func arg c|func arg|]|] eqn:Et, (t_threads s !! t) as [ph|] eqn:Ep; try done; [|cbn in Ht; subst ph; apply wp_ret, wp_ret; by apply Hidle..|apply wp_ret, wp_ret; by apply Hidle].
  destruct Ht as (Hh0 & Hh & [id Ex] & ->). destruct c.
  - apply wp_bind, wp_on_data. eapply wp_get_obj; [exact Ex|]. cbn [td_func td_arg]. apply wp_bind, wp_modify, wp_ret, wp_ret. eexists. split; [by eapply t_call|]. destruct s as [o ths]. by apply (rep_thread m (TSys o ths) t (ARun func arg)).
  - rewrite (proj2 (Z.eqb_neq h 0)) by done. apply wp_bind, wp_on_data. eapply wp_get_obj; [exact Ex|]. cbn [td_func td_arg]. apply wp_bind, wp_modify, wp_ret, wp_ret. destruct s as [o ths]. destruct (Z.eqb_spec func 0) as [->|Hf].
    + eexists. split; [by eapply t_none|]. by apply (rep_thread m (TSys o ths) t AIdle).
    + eexists. split; [by eapply t_check|]. apply (rep_thread m (TSys o ths) t (AWait h func arg true)); [done|]. cbn. split; [done|]. split; [done|]. split; [by exists id|done].
Qed.

Lemma tstep_ok m e s : trep m s -> tallowed m e -> wp (texec e) (fun r s' => exists m', tstep m e r m' /\ trep m' s') s.
Proof.
  intros Hrep Hal. destruct e as [o func arg|h|self h|t|t]; [by apply create_step|by apply release_step| |by apply wrap_step|].
  - cbn [texec]. apply wp_bind. unfold tkl_thread_is_self. destruct Hal as [->|[id Hh]]; [apply wp_ret, wp_ret; exists m; split; [constructor|done]|]. destruct (handle_block _ _ _ _ Hrep Hh) as (Hh0 & x & Ex & Ei).
    rewrite (proj2 (Z.eqb_neq h 0)) by done. cbn [orb]. apply wp_bind, wp_on_data. eapply wp_get_obj; [exact Ex|]. apply wp_ret, wp_ret. exists m. split; [|by destruct s]. cbn [fst snd]. rewrite Ei.
    replace (id =? self) with (bool_decide (id = self)); [by constructor|]. destruct (Z.eqb_spec id self); [by apply bool_decide_eq_true|by apply bool_decide_eq_false].
  - cbn [texec]. apply wp_bind, wp_modify, wp_ret. eexists. split; [constructor|by apply rep_end].
Qed.

(** C12: in every run of any number of threads — creations, releases, questions and the
    steps of the new threads, in any order, where no handle is released before its thread
    has read the block — nothing faults; each thread calls the function it was created
    for with its argument, once; [tkl_thread_is_self] tells for each handle whether the
    caller has the identifier of its thread; and the blocks on the heap are exactly those of
    the handles that were not released and one for each thread that could not be made. *)
Theorem threads_run_their_functions sched m s : trep m s -> follows tstep tallowed m sched ->
  wp (exec texec sched) (fun h s' => exists m', history_of sched h /\ runs tstep m h m' /\ trep m' s' /\
    dom (o_objs (t_own s')) = dom (am_handles m') ∪ am_lost m') s.
Proof.
  intros Hrep Hf. eapply wp_mono; [by eapply (client_refines texec tstep tallowed trep tstep_ok)|]. cbv beta. intros h s' (m' & Hh & Hr & Hrep'). exists m'. split; [done|]. split; [done|]. split; [done|]. apply Hrep'.
Qed.

(** Releasing a handle before its thread has begun makes the thread read a block that is
    no longer there, whatever else the system has done. *)
Theorem release_before_start_faults m s id func arg h s1 : trep m s -> am_threads m !! id = None ->
  texec (ECreate (inr id) func arg) s = Ret (RCreate OPRT_OK (Some h)) s1 ->
  wp (texec (ERelease h)) (fun _ s2 => texec (EStep id) s2 = Fault) s1.
Proof.
  intros Hrep Hid E. destruct (proj1 (wp_run _ _ _) (create_step m s (inr id) func arg Hrep Hid)) as (r & s1' & E' & m' & Hst & Hrep'). rewrite E in E'. injection E' as <- <-.
  inversion Hst as [? ? ? ? _ Hn| | | | | | | | | | |]; subst. cbn [texec]. assert (is_Some (am_handles (AMachine (<[id := AWait h func arg false]> (am_threads m)) (<[h := id]> (am_handles m)) (am_lost m)) !! h)) as [id' Hh] by (cbn; rewrite lookup_insert_eq; eauto).
  destruct (handle_block _ _ _ _ Hrep' Hh) as (Hh0 & x & Ex & _). pose proof (tr_threads _ _ Hrep' id) as Ht. cbn [am_threads] in Ht. rewrite lookup_insert_eq in Ht. destruct (t_threads s1 !! id) as [ph|] eqn:Ep; [|done]. destruct Ht as (_ & _ & _ & ->).
  apply wp_bind. unfold tkl_thread_release. rewrite (proj2 (Z.eqb_neq h 0)) by done. apply wp_bind, wp_on_data. eapply wp_mono; [eapply (free_obj_spec thread_size); [apply Hrep'|exact Ex]|]. cbv beta. intros _ o [_ Eo]. apply wp_ret, wp_ret.
  unfold _tkl_thread_wrap_func, bind, gets, on_data, get_obj. cbn [t_threads t_own]. rewrite Ep, (proj2 (Z.eqb_neq h 0)) by done. cbn [t_own]. by rewrite Eo, lookup_delete_eq.
Qed.
End Thread.

(** ** A run on the memory heap *)

#[local] Instance demo_allocator : Allocator hstate := heap_allocator 0.
#[local] Opaque demo2.

(** The main thread is number 1. *)
Definition thread_demo : tsys hstate := TSys (Own demo2 ∅) {[1 := PRun 0 0]}.
Definition thread_demo_abs : amachine := AMachine {[1 := ARun 0 0]} ∅ ∅.

Lemma thread_demo_ok : trep thread_demo_abs thread_demo.
Proof.
  split; cbn; [| |by intros h id; rewrite lookup_empty|set_solver|set_solver].
  - exists ∅. split; [|intros p o; by rewrite lookup_empty]. exists (heap_at demo2), (layout demo2), ∅. split; [apply demo2_represents|done].
  - intros t. destruct (decide (t = 1)) as [->|Hne]; [by rewrite !lookup_singleton_eq|]. by rewrite !lookup_singleton_ne.
Qed.

(** Thread 7 calls function 500 with argument 9, asks who it is, and ends; a second thread
    gets the same identifier; the first handle is asked again and released. *)
Definition thread_demo_run : client tev tres :=
  Call (ECreate (inr 7) 500 9) (fun r =>
  match r with
  | RCreate _ (Some h) =>
    Call (EStep 7) (fun _ => Call (EStep 7) (fun _ => Call (EIsSelf 7 h) (fun _ => Call (EEnd 7) (fun _ =>
    Call (ECreate (inr 7) 501 0) (fun _ => Call (EIsSelf 7 h) (fun _ => Call (EStep 7) (fun _ => Call (ERelease h) (fun _ => Stop))))))))
  | _ => Stop
  end).

(** The old handle answers for the new thread. *)
Example thread_demo_history :
  match exec texec thread_demo_run thread_demo with
  | Ret h s => take 8 (drop 1 (h.*2)) = [RStep None; RStep (Some (500, 9)); RIsSelf OPRT_OK (Some true); REnd] ++ take 1 (drop 5 (h.*2)) ++ [RIsSelf OPRT_OK (Some true); RStep None; RRelease OPRT_OK]
  | _ => False
  end.
Proof. by vm_compute. Qed.

(** One thread, whose handle is released when it has begun. *)
Definition thread_short_run : client tev tres :=
  Call (ECreate (inr 7) 500 9) (fun r =>
  match r with
  | RCreate _ (Some h) => Call (EStep 7) (fun _ => Call (EStep 7) (fun _ => Call (ERelease h) (fun _ => Call (EEnd 7) (fun _ => Stop))))
  | _ => Stop
  end).

(** The machine after an event. *)
Ltac after_event := let r := fresh in let m := fresh in let H := fresh in intros r m H; inversion H; subst; clear H; cbn [am_threads am_handles am_lost] in *;
  try (exfalso; match goal with H : forall h func arg c, _ <> Some (AWait h func arg c) |- _ => eapply H; by simplify_map_eq end); simplify_map_eq; try done.

Lemma thread_short_follows : follows tstep tallowed thread_demo_abs thread_short_run.
Proof.
  split; [done|]. after_event. split; [done|]. after_event. split; [done|]. after_event. split; [right; cbn; split; [by simplify_map_eq|]|].
  - intros t a Ha. destruct (decide (t = 7)) as [->|]; simplify_map_eq; by intros [].
  - after_event; split; cbn; by simplify_map_eq.
Qed.

Lemma threads_run_their_functions_witness :
  wp (exec texec thread_short_run) (fun h s' => exists m', history_of thread_short_run h /\ runs tstep thread_demo_abs h m' /\ trep m' s' /\
    dom (o_objs (t_own s')) = dom (am_handles m') ∪ am_lost m') thread_demo.
Proof. exact (threads_run_their_functions thread_short_run thread_demo_abs thread_demo thread_demo_ok thread_short_follows). Defined.
