(* ===== verification/TklVad.v ===== *)
(** * Voice activity: [src/tkl_audio/tkl_vad.c]

    Sound arrives in pieces from the sound card; the file keeps three buffers of half a
    second (microphone, reference, result), and when more than a frame is there it lets
    the echo canceller and the voice detector look at the sound and takes a frame out of
    the buffers.  The two precompiled libraries are a parameter, the class [Speech].  The
    model is that of a build with [ENABLE_AUDIO_ALSA] and without [ENABLE_EXT_RAM]. *)

From S2P Require Import Prelude Alloc RingBuf Client.

Definition AEC_VAD_FRAME_SIZE : Z := 640.
Definition AEC_VAD_RING_BUFF_LEN : Z := AEC_VAD_FRAME_SIZE * (500 / 20).
Definition TKL_VAD_STATUS_NONE : Z := 0.
Definition TKL_VAD_STATUS_SPEECH : Z := 1.
Inductive TKL_AUDIO_VAD_THRESHOLD_E := TKL_AUDIO_VAD_HIGH | TKL_AUDIO_VAD_MID | TKL_AUDIO_VAD_LOW | vad_other.

(** What the libraries were asked and answered: objects made or not, frames with the result of
    the canceller, frames with the answer of the detector, and settings of the detector. *)
Inductive sp_ev :=
| SpCanceller (made : bool)
| SpDetector (made : bool)
| SpCleaned (mic ref out cleaned : list Z)
| SpHeard (x : list Z) (answer : Z)
| SpStarted
| SpStopped
| SpThreshold (t : Z).

(** The echo canceller ([speex_*]) and the voice detector ([rnn_*]): objects behind
    handles, which are made or not, and are used until they are destroyed.  The canceller
    reads and writes one frame. *)
Class Speech (K : Type) := {
  speex_aes_create : Z -> M K Z;
  speex_aes_destory : Z -> M K unit;
  speex_aes_process : Z -> list Z -> list Z -> list Z -> M K (list Z);
  speex_get_param : Z -> list Z -> M K (list Z);
  rnn_vad_create : M K Z;
  rnn_vad_destroy : Z -> M K unit;
  rnn_vad_start : Z -> M K unit;
  rnn_vad_stop : Z -> M K unit;
  rnn_vad_process : Z -> list Z -> M K Z;       (** the value of the cast to [int] *)
  rnn_vad_set_callback : Z -> Z -> M K unit;
  (** The objects that were made and not destroyed, and what happened. *)
  sp_aes : K -> gset Z;
  sp_rnn : K -> gset Z;
  sp_log : K -> list sp_ev;
  speex_create_ok n k : wp (speex_aes_create n) (fun h k' => sp_rnn k' = sp_rnn k /\ sp_log k' = sp_log k ++ [SpCanceller (negb (h =? 0))] /\
    ((h = 0 /\ sp_aes k' = sp_aes k) \/ (h <> 0 /\ h ∉ sp_aes k /\ sp_aes k' = {[h]} ∪ sp_aes k))) k;
  speex_destroy_ok h k : h ∈ sp_aes k -> wp (speex_aes_destory h) (fun _ k' => sp_rnn k' = sp_rnn k /\ sp_log k' = sp_log k /\ sp_aes k' = sp_aes k ∖ {[h]}) k;
  speex_process_ok h mic ref out k : h ∈ sp_aes k -> length mic = 640%nat -> length ref = 640%nat -> length out = 640%nat ->
    wp (speex_aes_process h mic ref out) (fun out' k' => length out' = 640%nat /\ sp_rnn k' = sp_rnn k /\ sp_aes k' = sp_aes k /\ sp_log k' = sp_log k ++ [SpCleaned mic ref out out']) k;
  speex_param_ok h l k : h ∈ sp_aes k -> wp (speex_get_param h l) (fun l' k' => length l' = length l /\ sp_rnn k' = sp_rnn k /\ sp_aes k' = sp_aes k /\ sp_log k' = sp_log k) k;
  rnn_create_ok k : wp rnn_vad_create (fun h k' => sp_aes k' = sp_aes k /\ sp_log k' = sp_log k ++ [SpDetector (negb (h =? 0))] /\
    ((h = 0 /\ sp_rnn k' = sp_rnn k) \/ (h <> 0 /\ h ∉ sp_rnn k /\ sp_rnn k' = {[h]} ∪ sp_rnn k))) k;
  rnn_destroy_ok h k : h ∈ sp_rnn k -> wp (rnn_vad_destroy h) (fun _ k' => sp_aes k' = sp_aes k /\ sp_log k' = sp_log k /\ sp_rnn k' = sp_rnn k ∖ {[h]}) k;
  rnn_start_ok h k : h ∈ sp_rnn k -> wp (rnn_vad_start h) (fun _ k' => sp_rnn k' = sp_rnn k /\ sp_aes k' = sp_aes k /\ sp_log k' = sp_log k ++ [SpStarted]) k;
  rnn_stop_ok h k : h ∈ sp_rnn k -> wp (rnn_vad_stop h) (fun _ k' => sp_rnn k' = sp_rnn k /\ sp_aes k' = sp_aes k /\ sp_log k' = sp_log k ++ [SpStopped]) k;
  rnn_process_ok h x k : h ∈ sp_rnn k -> length x = 640%nat -> wp (rnn_vad_process h x) (fun r k' => sp_rnn k' = sp_rnn k /\ sp_aes k' = sp_aes k /\ sp_log k' = sp_log k ++ [SpHeard x r]) k;
  rnn_threshold_ok h t k : h ∈ sp_rnn k -> wp (rnn_vad_set_callback h t) (fun _ k' => sp_rnn k' = sp_rnn k /\ sp_aes k' = sp_aes k /\ sp_log k' = sp_log k ++ [SpThreshold t]) k
}.

(** ** The variables of the file *)

Record sound := mkSound { so_data : list Z; so_len : Z }.
Record vad := mkVad {
  v_speex_aec_handle : Z; v_rnn_vad_handle : Z; v_linearaec : Z; v_frame_size : Z; v_aec_vad_flag : Z;
  v_mic : sound; v_ref : sound; v_out : sound;
  v_feed_cb : bool  (** the function is registered with the sound card *) }.
Definition vad0 : vad :=
  let zeros := replicate (Z.to_nat AEC_VAD_RING_BUFF_LEN) 0 in
  mkVad 0 0 0 0 TKL_VAD_STATUS_NONE (mkSound zeros 0) (mkSound zeros 0) (mkSound zeros 0) false.
Definition with_speex h v := mkVad h (v_rnn_vad_handle v) (v_linearaec v) (v_frame_size v) (v_aec_vad_flag v) (v_mic v) (v_ref v) (v_out v) (v_feed_cb v).
Definition with_rnn h v := mkVad (v_speex_aec_handle v) h (v_linearaec v) (v_frame_size v) (v_aec_vad_flag v) (v_mic v) (v_ref v) (v_out v) (v_feed_cb v).
Definition with_linear p v := mkVad (v_speex_aec_handle v) (v_rnn_vad_handle v) p (v_frame_size v) (v_aec_vad_flag v) (v_mic v) (v_ref v) (v_out v) (v_feed_cb v).
Definition with_frame_size n v := mkVad (v_speex_aec_handle v) (v_rnn_vad_handle v) (v_linearaec v) n (v_aec_vad_flag v) (v_mic v) (v_ref v) (v_out v) (v_feed_cb v).
Definition with_flag f v := mkVad (v_speex_aec_handle v) (v_rnn_vad_handle v) (v_linearaec v) (v_frame_size v) f (v_mic v) (v_ref v) (v_out v) (v_feed_cb v).
Definition with_sound m r o v := mkVad (v_speex_aec_handle v) (v_rnn_vad_handle v) (v_linearaec v) (v_frame_size v) (v_aec_vad_flag v) m r o (v_feed_cb v).
Definition with_cb b v := mkVad (v_speex_aec_handle v) (v_rnn_vad_handle v) (v_linearaec v) (v_frame_size v) (v_aec_vad_flag v) (v_mic v) (v_ref v) (v_out v) b.

Record vsys (A K : Type) := VSys { vs_own : owned A (list Z); vs_lib : K; vs_vad : vad }.
Arguments VSys {A K}. Arguments vs_own {A K}. Arguments vs_lib {A K}. Arguments vs_vad {A K}.
Definition lin_size (l : list Z) : Z := Z.of_nat (length l).

Section Vad.
Context {A K : Type} `{!Allocator A, !Speech K}.
Local Abbreviation W := (M (vsys A K)).

Definition on_own {R} (c : M (owned A (list Z)) R) : W R := fun s =>
  match c (vs_own s) with Ret r o => Ret r (VSys o (vs_lib s) (vs_vad s)) | Fault => Fault | Diverge => Diverge end.
Definition on_lib {R} (c : M K R) : W R := fun s =>
  match c (vs_lib s) with Ret r k => Ret r (VSys (vs_own s) k (vs_vad s)) | Fault => Fault | Diverge => Diverge end.
Definition upd (f : vad -> vad) : W unit := modify (fun s => VSys (vs_own s) (vs_lib s) (f (vs_vad s))).

(** The frame a library reads through a pointer: the pointer's array has to have it. *)
Definition frame_of (data : list Z) : W (list Z) :=
  if AEC_VAD_FRAME_SIZE <=? Z.of_nat (length data) then ret (take (Z.to_nat AEC_VAD_FRAME_SIZE) data) else fault.

(** ** Operations *)

(** Arrays of the caller are what can be read from their pointers, or null; the result
    has the array of [out_data] afterwards. *)
Definition __tkl_aec_vad_process (mic_data ref_data out_data : option (list Z)) : W (OPERATE_RET * option (list Z)) :=
  match mic_data, ref_data, out_data with
  | Some mic_data, Some ref_data, Some out_data =>
    v <- gets vs_vad ;;
    out_data <- (
      if negb (v_speex_aec_handle v =? 0) then
        m <- frame_of mic_data ;; r <- frame_of ref_data ;; o <- frame_of out_data ;;
        o <- on_lib (speex_aes_process (v_speex_aec_handle v) m r o) ;;
        ret (o ++ drop (Z.to_nat AEC_VAD_FRAME_SIZE) out_data)
      else ret out_data) ;;
    when (negb (v_speex_aec_handle v =? 0) && negb (v_rnn_vad_handle v =? 0) && negb (v_linearaec v =? 0)) (
      x <- frame_of out_data ;;
      has_vad <- on_lib (rnn_vad_process (v_rnn_vad_handle v) x) ;;
      (if negb (has_vad =? 0) && negb (v_aec_vad_flag v =? TKL_VAD_STATUS_SPEECH) then upd (with_flag TKL_VAD_STATUS_SPEECH)
       else if (has_vad =? 0) && negb (v_aec_vad_flag v =? TKL_VAD_STATUS_NONE) then upd (with_flag TKL_VAD_STATUS_NONE)
       else ret tt) ;;;
      l <- on_own (get_obj (v_linearaec v)) ;;
      l <- on_lib (speex_get_param (v_speex_aec_handle v) l) ;;
      on_own (set_obj (v_linearaec v) l)) ;;;
    ret (OPRT_OK, Some out_data)
  | _, _, _ => ret (OPRT_INVALID_PARM, out_data)
  end.

Definition tkl_vad_set_threshold (level : TKL_AUDIO_VAD_THRESHOLD_E) : W OPERATE_RET :=
  v <- gets vs_vad ;;
  if negb (v_rnn_vad_handle v =? 0) then
    match level with
    | TKL_AUDIO_VAD_HIGH => on_lib (rnn_vad_set_callback (v_rnn_vad_handle v) (-40))
    | TKL_AUDIO_VAD_MID => on_lib (rnn_vad_set_callback (v_rnn_vad_handle v) (-60))
    | TKL_AUDIO_VAD_LOW => on_lib (rnn_vad_set_callback (v_rnn_vad_handle v) (-80))
    | vad_other => ret tt
    end ;;;
    ret OPRT_OK
  else ret OPRT_RESOURCE_NOT_READY.

(** Appending [n] bytes to a buffer, and moving the rest over its first frame. *)
Definition sound_append (b : sound) (data : list Z) (n : Z) : option sound :=
  d ← blit (so_data b) (so_len b) data 0 n; Some (mkSound d (u32 (so_len b + n))).
Definition sound_drop (b : sound) : option sound :=
  d ← blit (so_data b) 0 (so_data b) AEC_VAD_FRAME_SIZE (u32 (so_len b - AEC_VAD_FRAME_SIZE));
  Some (mkSound d (u32 (so_len b - AEC_VAD_FRAME_SIZE))).

(** The function the sound card calls; the result is the array of [out_data] afterwards. *)
Definition __tkl_vad_process (mic_data ref_data out_data : option (list Z)) (frames : Z) : W (option (list Z)) :=
  match mic_data, ref_data, out_data with
  | Some mic, Some ref, Some out =>
    if frames =? 0 then ret out_data
    else
      let n := u32 (frames * 2) in
      v <- gets vs_vad ;;
      if (AEC_VAD_RING_BUFF_LEN <? u32 (so_len (v_mic v) + n)) || (AEC_VAD_RING_BUFF_LEN <? u32 (so_len (v_ref v) + n)) || (AEC_VAD_RING_BUFF_LEN <? u32 (so_len (v_out v) + n)) then ret out_data
      else
        m <- of_option (sound_append (v_mic v) mic n) ;;
        r <- of_option (sound_append (v_ref v) ref n) ;;
        o <- of_option (sound_append (v_out v) out n) ;;
        upd (with_sound m r o) ;;;
        if AEC_VAD_FRAME_SIZE <? so_len r then
          x <- __tkl_aec_vad_process mic_data ref_data out_data ;;
          v <- gets vs_vad ;;
          m <- of_option (sound_drop (v_mic v)) ;;
          r <- of_option (sound_drop (v_ref v)) ;;
          o <- of_option (sound_drop (v_out v)) ;;
          upd (with_sound m r o) ;;;
          ret (snd x)
        else ret out_data
  | _, _, _ => ret out_data
  end.

Definition tkl_vad_deinit : W OPERATE_RET :=
  upd (with_cb false) ;;;
  v <- gets vs_vad ;;
  when (negb (v_linearaec v =? 0)) (
    on_own (bind (lift_alloc (al_free (v_linearaec v))) (fun _ => drop_obj (v_linearaec v))) ;;;
    upd (with_linear 0)) ;;;
  when (negb (v_rnn_vad_handle v =? 0)) (
    on_lib (rnn_vad_destroy (v_rnn_vad_handle v)) ;;;
    upd (with_rnn 0)) ;;;
  when (negb (v_speex_aec_handle v =? 0)) (
    on_lib (speex_aes_destory (v_speex_aec_handle v)) ;;;
    upd (with_speex 0)) ;;;
  upd (with_frame_size 0) ;;;
  ret OPRT_OK.

(** [config_null]: the configuration is a null pointer; nothing of it is read. *)
Definition tkl_vad_init (config_null : bool) : W OPERATE_RET :=
  let rt := OPRT_OK in
  if config_null then ret OPRT_INVALID_PARM
  else
    v <- gets vs_vad ;;
    speex <- (if v_speex_aec_handle v =? 0 then h <- on_lib (speex_aes_create (AEC_VAD_FRAME_SIZE / 2)) ;; upd (with_speex h) ;;; ret h else ret (v_speex_aec_handle v)) ;;
    if speex =? 0 then _ <- tkl_vad_deinit ;; ret rt
    else
      rnn <- (if v_rnn_vad_handle v =? 0 then h <- on_lib rnn_vad_create ;; upd (with_rnn h) ;;; _ <- tkl_vad_set_threshold TKL_AUDIO_VAD_MID ;; ret h else ret (v_rnn_vad_handle v)) ;;
      if rnn =? 0 then _ <- tkl_vad_deinit ;; ret rt
      else
        linear <- (if v_linearaec v =? 0 then
            p <- on_own (lift_alloc (al_malloc (AEC_VAD_FRAME_SIZE * 2))) ;;
            upd (with_linear p) ;;;
            when (negb (p =? 0)) (on_own (init_obj p (replicate (Z.to_nat (AEC_VAD_FRAME_SIZE * 2)) 0))) ;;; ret p
          else ret (v_linearaec v)) ;;
        if linear =? 0 then _ <- tkl_vad_deinit ;; ret rt
        else
          upd (with_frame_size AEC_VAD_FRAME_SIZE) ;;;
          upd (with_cb true) ;;;
          ret OPRT_OK.

Definition tkl_vad_feed (data : option (list Z)) (len : Z) : W OPERATE_RET := ret OPRT_OK.

Definition tkl_vad_get_status : W Z := v <- gets vs_vad ;; ret (v_aec_vad_flag v).

Definition tkl_vad_start : W OPERATE_RET :=
  upd (with_flag TKL_VAD_STATUS_NONE) ;;;
  v <- gets vs_vad ;;
  when (negb (v_rnn_vad_handle v =? 0)) (on_lib (rnn_vad_start (v_rnn_vad_handle v))) ;;;
  ret OPRT_OK.

Definition tkl_vad_stop : W OPERATE_RET :=
  upd (with_flag TKL_VAD_STATUS_NONE) ;;;
  v <- gets vs_vad ;;
  when (negb (v_rnn_vad_handle v =? 0)) (on_lib (rnn_vad_stop (v_rnn_vad_handle v))) ;;;
  ret OPRT_OK.
End Vad.
