(* ===== verification/TklVadProps.v ===== *)
(** * Voice activity: properties of [TklVad.v]

    The buffers are queues of sound that move together; the objects of the libraries and
    the block on the heap exist together or not at all; and how the buffers fill up when
    the sound card delivers pieces of a fixed size. *)

From S2P Require Import Prelude Alloc RingBuf Client TklVad.

(** ** Buffers *)

Definition LEN : nat := Z.to_nat AEC_VAD_RING_BUFF_LEN.
Definition FRAME : nat := Z.to_nat AEC_VAD_FRAME_SIZE.

(** The buffer holds the sound [l]. *)
Definition srep (b : sound) (l : list Z) : Prop :=
  length (so_data b) = LEN /\ so_len b = Z.of_nat (length l) /\ (length l <= LEN)%nat /\ take (length l) (so_data b) = l.

Lemma LEN_eq : Z.of_nat LEN = 16000. Proof. done. Qed.
Lemma FRAME_eq : Z.of_nat FRAME = 640. Proof. done. Qed.
#[local] Opaque LEN FRAME.

Lemma blit_in dst doff src soff n : 0 <= doff -> 0 <= soff -> 0 <= n -> doff + n <= Z.of_nat (length dst) -> soff + n <= Z.of_nat (length src) ->
  blit dst doff src soff n = Some (take (Z.to_nat doff) dst ++ take (Z.to_nat n) (drop (Z.to_nat soff) src) ++ drop (Z.to_nat (doff + n)) dst).
Proof. intros. unfold blit. repeat match goal with |- context [?a <=? ?b] => rewrite (proj2 (Z.leb_le a b)) by lia end. done. Qed.

Lemma sound_append_spec b l data n : srep b l -> 0 <= n <= Z.of_nat (length data) -> Z.of_nat (length l) + n <= 16000 ->
  exists b', sound_append b data n = Some b' /\ srep b' (l ++ take (Z.to_nat n) data).
Proof.
  intros (Hd & Hl & Hle & Ht) Hn Hfit. pose proof LEN_eq. unfold sound_append. rewrite Hl, blit_in by lia. cbn [mbind option_bind]. eexists. split; [done|]. rewrite u32_small by lia. assert (length (take (Z.to_nat n) data) = Z.to_nat n) as Hn' by (rewrite length_take; lia).
  assert (length (take (Z.to_nat (Z.of_nat (length l))) (so_data b)) = length l) as Hl' by (rewrite length_take; lia). change (Z.to_nat 0) with 0%nat. rewrite drop_0. split_and!; cbn [so_data so_len].
  - rewrite !length_app, Hl', Hn', length_drop. lia.
  - rewrite length_app, Hn'. lia.
  - rewrite length_app, Hn'. lia.
  - rewrite app_assoc, Nat2Z.id, Ht, take_app_length'; [done|]. done.
Qed.

Lemma sound_drop_spec b l : srep b l -> (FRAME <= length l)%nat -> exists b', sound_drop b = Some b' /\ srep b' (drop FRAME l).
Proof.
  intros (Hd & Hl & Hle & Ht) Hf. pose proof LEN_eq. pose proof FRAME_eq as HF. unfold sound_drop. rewrite Hl. change AEC_VAD_FRAME_SIZE with 640. rewrite u32_small, blit_in by lia. cbn [mbind option_bind]. eexists. split; [done|]. replace (Z.to_nat 640) with FRAME by lia. replace (Z.to_nat (Z.of_nat (length l) - 640)) with (length l - FRAME)%nat by lia. replace (Z.to_nat (0 + (Z.of_nat (length l) - 640))) with (length l - FRAME)%nat by lia.
  change (Z.to_nat 0) with 0%nat. rewrite take_0, app_nil_l. assert (length (take (length l - FRAME) (drop FRAME (so_data b))) = (length l - FRAME)%nat) as Hl' by (rewrite length_take, length_drop; lia).
  assert (take (length l - FRAME) (drop FRAME (so_data b)) = drop FRAME l) as E by (rewrite <-Ht at 2; rewrite skipn_firstn_comm; done).
  split_and!; cbn [so_data so_len].
  - rewrite length_app, Hl', length_drop. lia.
  - rewrite length_drop. lia.
  - rewrite length_drop. lia.
  - rewrite E, length_drop, take_app_length'; [done|]. by rewrite length_drop.
Qed.

(** ** The abstract machine *)

(** Whether the detector is there, whether it last heard a voice, the sound in the buffers, and
    what the libraries were asked and answered. *)
Record avad := AVad { av_ready : bool; av_speech : bool; av_mic : list Z; av_ref : list Z; av_out : list Z; av_log : list sp_ev }.
Definition more_log (l : list sp_ev) (a : avad) : avad := AVad (av_ready a) (av_speech a) (av_mic a) (av_ref a) (av_out a) (av_log a ++ l).
Definition be_ready (b : bool) (a : avad) : avad := AVad b (av_speech a) (av_mic a) (av_ref a) (av_out a) (av_log a).
Definition be_heard (b : bool) (a : avad) : avad := AVad (av_ready a) b (av_mic a) (av_ref a) (av_out a) (av_log a).

Inductive vop := VFeed (mic ref out : list Z) (frames : Z) | VInit | VDeinit | VStart | VStop | VStatus | VThreshold (level : TKL_AUDIO_VAD_THRESHOLD_E).
(** [full]: the heap has no room for the block of the file. *)
Inductive vres := VDone (r : OPERATE_RET) | VInited (r : OPERATE_RET) (full : bool) | VIs (status : Z) | VFed (out : list Z).

Definition feed (l data : list Z) (frames : Z) : list Z := l ++ take (Z.to_nat (2 * frames)) data.
(** When a frame is there, it is taken. *)
Definition fed (l : list Z) : list Z := if decide (FRAME < length l)%nat then drop FRAME l else l.
(** The buffers take a piece, and lose a frame. *)
Definition take_piece (mic ref out : list Z) (frames : Z) (a : avad) : avad := AVad (av_ready a) (av_speech a) (feed (av_mic a) mic frames) (feed (av_ref a) ref frames) (feed (av_out a) out frames) (av_log a).
Definition lose_frame (a : avad) : avad := AVad (av_ready a) (av_speech a) (drop FRAME (av_mic a)) (drop FRAME (av_ref a)) (drop FRAME (av_out a)) (av_log a).

(** What an initialisation asks for, from being ready or not to being ready or not: it is
    ready when the objects of both libraries were made and the heap had room. *)
Inductive init_log : bool -> bool -> bool -> list sp_ev -> Prop :=
| il_ready full : init_log true full true []
| il_canceller full : init_log false full false [SpCanceller false]
| il_detector full : init_log false full false [SpCanceller true; SpDetector false]
| il_made full : init_log false full (negb full) [SpCanceller true; SpDetector true; SpThreshold (-60)].

Definition threshold_log (level : TKL_AUDIO_VAD_THRESHOLD_E) : list sp_ev :=
  match level with TKL_AUDIO_VAD_HIGH => [SpThreshold (-40)] | TKL_AUDIO_VAD_MID => [SpThreshold (-60)] | TKL_AUDIO_VAD_LOW => [SpThreshold (-80)] | vad_other => [] end.

(** When a frame is there, the libraries look at the piece: the canceller changes its first
    frame, the detector hears the result, and its answer is the status. *)
Inductive vstep (a : avad) : vop -> vres -> avad -> Prop :=
| v_discard mic ref out frames : 16000 < Z.of_nat (length (av_ref a)) + 2 * frames -> vstep a (VFeed mic ref out frames) (VFed out) a
| v_none mic ref out : vstep a (VFeed mic ref out 0) (VFed out) a
| v_accept mic ref out frames : Z.of_nat (length (av_ref a)) + 2 * frames <= 640 -> vstep a (VFeed mic ref out frames) (VFed out) (take_piece mic ref out frames a)
| v_frame_idle mic ref out frames : av_ready a = false -> 0 < frames -> 640 < Z.of_nat (length (av_ref a)) + 2 * frames <= 16000 ->
    vstep a (VFeed mic ref out frames) (VFed out) (lose_frame (take_piece mic ref out frames a))
| v_frame mic ref out frames cleaned answer : av_ready a = true -> 0 < frames -> 640 < Z.of_nat (length (av_ref a)) + 2 * frames <= 16000 -> length cleaned = FRAME ->
    vstep a (VFeed mic ref out frames) (VFed (cleaned ++ drop FRAME out))
      (be_heard (negb (answer =? 0)) (more_log [SpCleaned (take FRAME mic) (take FRAME ref) (take FRAME out) cleaned; SpHeard cleaned answer] (lose_frame (take_piece mic ref out frames a))))
| v_init full b l : init_log (av_ready a) full b l -> vstep a VInit (VInited OPRT_OK full) (be_ready b (more_log l a))
| v_deinit : vstep a VDeinit (VDone OPRT_OK) (be_ready false a)
| v_start : vstep a VStart (VDone OPRT_OK) (be_heard false (more_log (if av_ready a then [SpStarted] else []) a))
| v_stop : vstep a VStop (VDone OPRT_OK) (be_heard false (more_log (if av_ready a then [SpStopped] else []) a))
| v_status : vstep a VStatus (VIs (if av_speech a then TKL_VAD_STATUS_SPEECH else TKL_VAD_STATUS_NONE)) a
| v_threshold level : av_ready a = true -> vstep a (VThreshold level) (VDone OPRT_OK) (more_log (threshold_log level) a)
| v_threshold_none level : av_ready a = false -> vstep a (VThreshold level) (VDone OPRT_RESOURCE_NOT_READY) a.

(** The arrays have the pieces, and at least a frame each. *)
Definition vallowed (a : avad) (o : vop) : Prop :=
  match o with
  | VFeed mic ref out frames => 0 <= frames <= 8000 /\ forall l, In l [mic; ref; out] -> (FRAME <= length l)%nat /\ 2 * frames <= Z.of_nat (length l)
  | _ => True
  end.

Section Vad.
Context {A K : Type} `{!Allocator A, !Speech K}.
Local Abbreviation W := (M (vsys A K)).

Definition no_room (s : vsys A K) : bool := refuses (AEC_VAD_FRAME_SIZE * 2) (o_alloc (vs_own s)).
Definition vexec (o : vop) : W vres :=
  match o with
  | VFeed mic ref out frames => out' <- __tkl_vad_process (Some mic) (Some ref) (Some out) frames ;; ret (VFed (default [] out'))
  | VInit => full <- gets no_room ;; r <- tkl_vad_init false ;; ret (VInited r full)
  | VDeinit => r <- tkl_vad_deinit ;; ret (VDone r)
  | VStart => r <- tkl_vad_start ;; ret (VDone r)
  | VStop => r <- tkl_vad_stop ;; ret (VDone r)
  | VStatus => f <- tkl_vad_get_status ;; ret (VIs f)
  | VThreshold level => r <- tkl_vad_set_threshold level ;; ret (VDone r)
  end.

(** All the objects exist, or those of [b1], [b2] and [b3]. *)
Record objects (s : vsys A K) (b1 b2 b3 : bool) : Prop := {
  ob_own : owned_ok lin_size (vs_own s);
  ob_speex : (v_speex_aec_handle (vs_vad s) =? 0) = negb b1;
  ob_aes : sp_aes (vs_lib s) = if b1 then {[v_speex_aec_handle (vs_vad s)]} else ∅;
  ob_rnnh : (v_rnn_vad_handle (vs_vad s) =? 0) = negb b2;
  ob_rnn : sp_rnn (vs_lib s) = if b2 then {[v_rnn_vad_handle (vs_vad s)]} else ∅;
  ob_linh : (v_linearaec (vs_vad s) =? 0) = negb b3;
  ob_lin : dom (o_objs (vs_own s)) = if b3 then {[v_linearaec (vs_vad s)]} else ∅
}.

(** The sound and the status. *)
Record sounds (s : vsys A K) (a : avad) : Prop := {
  sd_flag : v_aec_vad_flag (vs_vad s) = if av_speech a then 1 else 0;
  sd_mic : srep (v_mic (vs_vad s)) (av_mic a);
  sd_ref : srep (v_ref (vs_vad s)) (av_ref a);
  sd_out : srep (v_out (vs_vad s)) (av_out a);
  sd_log : sp_log (vs_lib s) = av_log a;
  sd_lens : length (av_mic a) = length (av_ref a) /\ length (av_out a) = length (av_ref a)
}.

Definition vrep (a : avad) (s : vsys A K) : Prop := objects s (av_ready a) (av_ready a) (av_ready a) /\ sounds s a.

Lemma wp_vad_own {R} (c : M (owned A (list Z)) R) Q (s : vsys A K) : wp c (fun r o => Q r (VSys o (vs_lib s) (vs_vad s))) (vs_own s) -> wp (on_own c) Q s.
Proof. unfold wp, on_own. by destruct (c (vs_own s)). Qed.
Lemma wp_on_lib {R} (c : M K R) Q (s : vsys A K) : wp c (fun r k => Q r (VSys (vs_own s) k (vs_vad s))) (vs_lib s) -> wp (on_lib c) Q s.
Proof. unfold wp, on_lib. by destruct (c (vs_lib s)). Qed.

(** A call of a library that makes and destroys nothing. *)
Lemma objects_lib s k b1 b2 b3 : objects s b1 b2 b3 -> sp_rnn k = sp_rnn (vs_lib s) -> sp_aes k = sp_aes (vs_lib s) -> objects (VSys (vs_own s) k (vs_vad s)) b1 b2 b3.
Proof. intros [H1 H2 H3 H4 H5 H6 H7] E1 E2. split; cbn; congruence. Qed.

Lemma sounds_more s s' a l : sounds s a -> v_aec_vad_flag (vs_vad s') = v_aec_vad_flag (vs_vad s) -> v_mic (vs_vad s') = v_mic (vs_vad s) -> v_ref (vs_vad s') = v_ref (vs_vad s) -> v_out (vs_vad s') = v_out (vs_vad s) -> sp_log (vs_lib s') = sp_log (vs_lib s) ++ l -> sounds s' (more_log l a).
Proof. intros [H1 H2 H3 H4 H6 H5] E1 E2 E3 E4 E5. split; cbn; congruence. Qed.
Lemma sounds_same s s' a : sounds s a -> v_aec_vad_flag (vs_vad s') = v_aec_vad_flag (vs_vad s) -> v_mic (vs_vad s') = v_mic (vs_vad s) -> v_ref (vs_vad s') = v_ref (vs_vad s) -> v_out (vs_vad s') = v_out (vs_vad s) -> sp_log (vs_lib s') = sp_log (vs_lib s) -> sounds s' a.
Proof. intros [H1 H2 H3 H4 H6 H5] E1 E2 E3 E4 E5. split; congruence. Qed.
Lemma more_log_nil a : more_log [] a = a.
Proof. unfold more_log. rewrite app_nil_r. by destruct a. Qed.

(** *** Making and destroying *)

Lemma vad_deinit_spec s b1 b2 b3 : objects s b1 b2 b3 -> wp tkl_vad_deinit (fun r s' => r = OPRT_OK /\ objects s' false false false /\ forall a, sounds s a -> sounds s' a) s.
Proof.
  intros Hob. unfold tkl_vad_deinit. apply wp_bind, wp_modify, wp_bind, wp_gets. cbn [vs_vad with_cb v_linearaec v_rnn_vad_handle v_speex_aec_handle]. pose proof Hob as [H1 H2 H3 H4 H5 H6 H7].
  (* the block on the heap *)
  apply wp_bind. eapply (wp_mono _ (fun _ s' => objects s' b1 b2 false /\ vs_lib s' = vs_lib s /\ vs_vad s' = with_linear 0 (with_cb false (vs_vad s)))).
  { rewrite H6. destruct b3; cbn [negb when].
    - assert (is_Some (o_objs (vs_own s) !! v_linearaec (vs_vad s))) as [l El] by (apply elem_of_dom; rewrite H7; set_solver). apply wp_bind, wp_vad_own. eapply wp_mono; [by eapply (free_obj_spec lin_size)|]. cbv beta. intros _ o [Ho Eo]. apply wp_modify. cbn [vs_own vs_lib vs_vad]. split; [|done].
      split; cbn; try done. cbn in Eo. rewrite Eo, dom_delete_L, H7. set_solver.
    - apply wp_ret. apply Z.eqb_eq in H6. assert (with_linear 0 (with_cb false (vs_vad s)) = with_cb false (vs_vad s)) as E by (destruct (vs_vad s); cbn in *; by subst). split; [|split; [done|by rewrite E]]. split; cbn; try done. by rewrite H6. }
  intros _ s1 ([K1 K2 K3 K4 K5 K6 K7] & E1 & E2). apply wp_bind. eapply (wp_mono _ (fun _ s' => objects s' b1 false false /\ sp_log (vs_lib s') = sp_log (vs_lib s) /\ vs_vad s' = with_rnn 0 (with_linear 0 (with_cb false (vs_vad s))))).
  { rewrite H4. destruct b2; cbn [negb when].
    - apply wp_bind, wp_on_lib. eapply wp_mono; [apply rnn_destroy_ok; rewrite K5, E2; cbn; set_solver|]. cbv beta. intros _ k (L1 & L3 & L2). apply wp_modify. cbn [vs_own vs_lib vs_vad]. split; [|split; [congruence|by rewrite E2]]. split; cbn; try done; [congruence|]. rewrite L2, K5, E2. cbn. set_solver.
    - apply wp_ret. apply Z.eqb_eq in H4. assert (with_rnn 0 (vs_vad s1) = vs_vad s1) as E by (rewrite E2; destruct (vs_vad s); cbn in *; by subst). split; [|split; [congruence|by rewrite <-E2, E]]. by split. }
  clear K1 K2 K3 K4 K5 K6 K7. intros _ s2 ([K1 K2 K3 K4 K5 K6 K7] & G3 & E3). apply wp_bind. eapply (wp_mono _ (fun _ s' => objects s' false false false /\ sp_log (vs_lib s') = sp_log (vs_lib s) /\ vs_vad s' = with_speex 0 (with_rnn 0 (with_linear 0 (with_cb false (vs_vad s)))))).
  { rewrite H2. destruct b1; cbn [negb when].
    - apply wp_bind, wp_on_lib. eapply wp_mono; [apply speex_destroy_ok; rewrite K3, E3; cbn; set_solver|]. cbv beta. intros _ k (L1 & L3 & L2). apply wp_modify. cbn [vs_own vs_lib vs_vad]. split; [|split; [congruence|by rewrite E3]]. split; cbn; try done; [|congruence]. rewrite L2, K3, E3. cbn. set_solver.
    - apply wp_ret. apply Z.eqb_eq in H2. assert (with_speex 0 (vs_vad s2) = vs_vad s2) as E by (rewrite E3; destruct (vs_vad s); cbn in *; by subst). split; [|split; [congruence|by rewrite <-E3, E]]. by split. }
  clear K1 K2 K3 K4 K5 K6 K7. intros _ s3 ([K1 K2 K3 K4 K5 K6 K7] & G4 & E4). apply wp_bind, wp_modify, wp_ret. split; [done|]. split; [by split|]. intros a Ha. eapply sounds_same; [exact Ha|cbn; by rewrite E4..|done].
Qed.

(** A failed initialisation gives everything back — and reports success. *)
Definition init_post (s : vsys A K) (b : bool) (r : OPERATE_RET) (s' : vsys A K) : Prop :=
  r = OPRT_OK /\ exists b' l, init_log b (no_room s) b' l /\ objects s' b' b' b' /\ forall a, sounds s a -> sounds s' (more_log l a).

Lemma init_fails s0 s b1 b2 b3 l : init_log false (no_room s0) false l -> (forall a, sounds s0 a -> sounds s (more_log l a)) -> objects s b1 b2 b3 -> wp (_ <- tkl_vad_deinit ;; ret OPRT_OK) (init_post s0 false) s.
Proof. intros Hl Hs Hob. apply wp_bind. eapply wp_mono; [by eapply vad_deinit_spec|]. cbv beta. intros r s' (_ & Ho & Hs'). apply wp_ret. split; [done|]. exists false, l. split; [done|]. split; [done|]. eauto. Qed.

Lemma init_ends s0 s b l : init_log b (no_room s0) true l -> (forall a, sounds s0 a -> sounds s (more_log l a)) -> objects s true true true -> wp (upd (with_frame_size AEC_VAD_FRAME_SIZE) ;;; upd (with_cb true) ;;; ret OPRT_OK) (init_post s0 b) s.
Proof.
  intros Hl Hs Hob. apply wp_bind, wp_modify, wp_bind, wp_modify, wp_ret. split; [done|]. exists true, l. split; [done|]. split; [by destruct Hob; split|]. intros a Ha. eapply sounds_same; [by apply Hs|done..].
Qed.

Lemma vad_init_spec s b : objects s b b b -> wp (tkl_vad_init false) (init_post s b) s.
Proof.
  intros Hob. pose proof Hob as [H1 H2 H3 H4 H5 H6 H7]. unfold tkl_vad_init. apply wp_bind, wp_gets. rewrite H2, H4, H6. destruct b; cbn [negb].
  - apply wp_bind, wp_ret. rewrite H2. cbn [negb]. apply wp_bind, wp_ret. rewrite H4. cbn [negb]. apply wp_bind, wp_ret. rewrite H6. cbn [negb]. eapply init_ends; [constructor|intros a Ha; by rewrite more_log_nil|done].
  - cbv iota in H3, H5, H7. cbn [negb] in H2, H4, H6. apply wp_bind, wp_bind, wp_on_lib. eapply wp_mono; [apply speex_create_ok|]. cbv beta. intros h1 k1 (E1 & G1 & Hh1). apply wp_bind, wp_modify, wp_ret. cbn [vs_own vs_lib vs_vad].
    assert (forall a, sounds s a -> sounds (VSys (vs_own s) k1 (with_speex h1 (vs_vad s))) (more_log [SpCanceller (negb (h1 =? 0))] a)) as Hs1 by (intros a Ha; by eapply sounds_more).
    destruct Hh1 as [[-> E2]|(Hh1 & _ & E2)]; [change (0 =? 0) with true in *; cbv iota; apply (init_fails _ _ false false false [SpCanceller false]); [constructor|done|]; by split; cbn; congruence|]. rewrite (proj2 (Z.eqb_neq h1 0)) in * by done. clear Hs1.
    assert (objects (VSys (vs_own s) k1 (with_speex h1 (vs_vad s))) true false false) as Hob1 by (split; cbn; try congruence; [by apply Z.eqb_neq|]; rewrite E2, H3; set_solver).
    apply wp_bind, wp_bind, wp_on_lib. eapply wp_mono; [apply rnn_create_ok|]. cbv beta. cbn [vs_own vs_lib vs_vad]. intros h2 k2 (E3 & G2 & Hh2). apply wp_bind, wp_modify. cbn [vs_own vs_lib vs_vad]. rewrite G1, <-app_assoc in G2. cbn [app negb] in G2.
    set (v2 := with_rnn h2 (with_speex h1 (vs_vad s))). assert (forall o k l a, sp_log k = sp_log (vs_lib s) ++ l -> sounds s a -> sounds (VSys o k v2) (more_log l a)) as Hs2 by (intros o k l a Hl Ha; by eapply sounds_more). apply wp_bind. unfold tkl_vad_set_threshold. apply wp_bind, wp_gets. cbn [vs_vad v2 with_rnn v_rnn_vad_handle].
    destruct Hh2 as [[-> E4]|(Hh2 & _ & E4)]; [change (0 =? 0) with true in *; cbn [negb] in *; apply wp_ret, wp_ret; change (0 =? 0) with true; cbv iota; apply (init_fails _ _ true false false [SpCanceller true; SpDetector false]); [constructor|by auto|]; destruct Hob1 as [? ? L1 ? L2 ? ?]; cbn in L1, L2; split; cbn; try done; congruence|]. rewrite (proj2 (Z.eqb_neq h2 0)) in * by done. cbn [negb] in *.
    assert (objects (VSys (vs_own s) k2 v2) true true false) as Hob2 by (destruct Hob1 as [? ? L1 ? L2 ? ?]; cbn in L1, L2; split; cbn; try congruence; [by apply Z.eqb_neq..|]; rewrite E4, L2; set_solver).
    apply wp_bind, wp_on_lib. eapply wp_mono; [apply rnn_threshold_ok; cbn; rewrite E4; set_solver|]. cbv beta. cbn [vs_own vs_lib vs_vad]. intros _ k3 (E5 & E6 & G3). apply wp_ret, wp_ret. rewrite (proj2 (Z.eqb_neq h2 0)) by done. apply (objects_lib _ k3) in Hob2; [|done..]. cbn [vs_own vs_vad] in Hob2. rewrite G2, <-app_assoc in G3. cbn [app] in G3.
    pose proof (il_made (no_room s)) as Hmade. unfold no_room in Hmade. apply wp_bind, wp_bind, wp_vad_own. eapply (malloc_obj_cause lin_size); [done|done|..].
    + intros o Hno Ho. cbn [vs_own] in Hno. rewrite Hno in Hmade. apply wp_bind, wp_modify. cbn [negb Z.eqb when]. apply wp_bind, wp_ret, wp_ret. cbn [Z.eqb]. eapply (init_fails _ _ true true false); [unfold no_room; rewrite Hno; exact Hmade|intros a Ha; by eapply (sounds_more s)|]. destruct Hob2; split; try done.
    + intros p o Hno Hp Hn Hnew. cbn [vs_own] in Hno. rewrite Hno in Hmade. apply wp_bind, wp_modify. cbn [vs_own vs_lib vs_vad]. rewrite (proj2 (Z.eqb_neq p 0)) by done. cbn [negb when]. apply wp_bind, wp_vad_own. unfold init_obj, wp at 1. cbn [vs_own vs_lib vs_vad o_alloc o_objs]. apply wp_ret. rewrite (proj2 (Z.eqb_neq p 0)) by done.
      eapply init_ends; [unfold no_room; rewrite Hno; exact Hmade|intros a Ha; by eapply (sounds_more s)|].
      destruct Hob2 as [? ? ? ? ? ? L]. split; cbn; try done; [by apply Hnew|by apply Z.eqb_neq|]. rewrite dom_insert_L. cbn in L. rewrite L. set_solver.
Qed.

(** *** Sound *)

Lemma frame_of_spec (data : list Z) s (Q : list Z -> vsys A K -> Prop) : (FRAME <= length data)%nat -> (length (take FRAME data) = 640%nat -> Q (take FRAME data) s) -> wp (frame_of data) Q s.
Proof.
  intros Hl HQ. pose proof FRAME_eq. unfold frame_of. change AEC_VAD_FRAME_SIZE with 640. rewrite (proj2 (Z.leb_le 640 _)) by lia. apply wp_ret. replace (Z.to_nat 640) with FRAME by lia. apply HQ. rewrite length_take. lia.
Qed.

(** The two libraries look at a frame: what the canceller made of it is in front of the array,
    and the status is the answer of the detector. *)
Definition heard_post (s : vsys A K) (mic ref out : list Z) (x : OPERATE_RET * option (list Z)) (s' : vsys A K) : Prop :=
  exists cleaned answer, snd x = Some (cleaned ++ drop FRAME out) /\ length cleaned = FRAME /\ objects s' true true true /\
    vs_vad s' = with_flag (if negb (answer =? 0) then TKL_VAD_STATUS_SPEECH else TKL_VAD_STATUS_NONE) (vs_vad s) /\
    sp_log (vs_lib s') = sp_log (vs_lib s) ++ [SpCleaned (take FRAME mic) (take FRAME ref) (take FRAME out) cleaned; SpHeard cleaned answer].

Lemma not_heard s mic ref out : objects s false false false -> wp (__tkl_aec_vad_process (Some mic) (Some ref) (Some out)) (fun x s' => snd x = Some out /\ s' = s) s.
Proof.
  intros Hob. unfold __tkl_aec_vad_process. apply wp_bind, wp_gets. rewrite (ob_speex _ _ _ _ Hob), (ob_rnnh _ _ _ _ Hob), (ob_linh _ _ _ _ Hob). cbn [negb andb when]. by apply wp_bind, wp_ret, wp_bind, wp_ret, wp_ret.
Qed.

Lemma heard s sp mic ref out : objects s true true true -> v_aec_vad_flag (vs_vad s) = (if sp : bool then TKL_VAD_STATUS_SPEECH else TKL_VAD_STATUS_NONE) -> (FRAME <= length mic)%nat -> (FRAME <= length ref)%nat -> (FRAME <= length out)%nat ->
  wp (__tkl_aec_vad_process (Some mic) (Some ref) (Some out)) (heard_post s mic ref out) s.
Proof.
  intros Hob Hsp H1 H2 H3. pose proof FRAME_eq as HF. unfold __tkl_aec_vad_process. apply wp_bind, wp_gets. rewrite (ob_speex _ _ _ _ Hob), (ob_rnnh _ _ _ _ Hob), (ob_linh _ _ _ _ Hob). cbn [negb andb when].
  apply wp_bind, wp_bind, frame_of_spec; [done|intros L1]. apply wp_bind, frame_of_spec; [done|intros L2]. apply wp_bind, frame_of_spec; [done|intros L3]. apply wp_bind, wp_on_lib. eapply wp_mono; [apply speex_process_ok; [rewrite (ob_aes _ _ _ _ Hob); set_solver|done..]|]. cbv beta.
  intros o k (Lo & E1 & E2 & G1). apply wp_ret. apply (objects_lib _ k) in Hob; [|done..]. set (s1 := VSys (vs_own s) k (vs_vad s)) in *. change (Z.to_nat AEC_VAD_FRAME_SIZE) with FRAME in *. set (out' := o ++ drop FRAME out).
  assert (length out' = length out) as Lout by (unfold out'; rewrite length_app, length_drop; lia). assert (take FRAME out' = o) as Ho by (unfold out'; apply take_app_length'; lia). apply wp_bind, wp_bind, frame_of_spec; [lia|intros L4]. rewrite Ho in *. apply wp_bind, wp_on_lib. eapply wp_mono; [apply rnn_process_ok; [rewrite (ob_rnn _ _ _ _ Hob); cbn; set_solver|done]|]. cbv beta.
  intros has k2 (E3 & E4 & G2). apply (objects_lib _ k2) in Hob; [|done..]. cbn [s1 vs_lib] in G2. rewrite G1, <-app_assoc in G2. cbn [app] in G2.
  apply wp_bind. apply (wp_mono _ (fun _ s' => s' = VSys (vs_own s) k2 (with_flag (if negb (has =? 0) then TKL_VAD_STATUS_SPEECH else TKL_VAD_STATUS_NONE) (vs_vad s)))).
  { assert (vs_vad s = with_flag (if sp then TKL_VAD_STATUS_SPEECH else TKL_VAD_STATUS_NONE) (vs_vad s)) as E by (rewrite <-Hsp; by destruct (vs_vad s)). rewrite Hsp. destruct sp, (has =? 0); cbn; (apply wp_modify || apply wp_ret); cbn [s1 vs_own vs_lib vs_vad]; by rewrite <-?E. }
  intros _ s2 ->. set (sp' := negb (has =? 0)) in *. assert (objects (VSys (vs_own s) k2 (with_flag (if sp' then TKL_VAD_STATUS_SPEECH else TKL_VAD_STATUS_NONE) (vs_vad s))) true true true) as Hob2 by (destruct Hob; by split).
  assert (is_Some (o_objs (vs_own s) !! v_linearaec (vs_vad s))) as [l El] by (apply elem_of_dom; pose proof (ob_lin _ _ _ _ Hob2) as L; cbn in L; rewrite L; set_solver).
  apply wp_bind, wp_vad_own. eapply wp_get_obj; [exact El|]. cbn [vs_own vs_lib vs_vad]. apply wp_bind, wp_on_lib. eapply wp_mono; [apply speex_param_ok; pose proof (ob_aes _ _ _ _ Hob2) as L; cbn in L |- *; rewrite L; set_solver|]. cbv beta. cbn [vs_own vs_lib vs_vad].
  intros l' k3 (Ll & E5 & E6 & G3). apply (objects_lib _ k3) in Hob2; [|done..]. cbn [vs_own vs_lib vs_vad] in Hob2. apply wp_vad_own. eapply wp_set_obj; [exact El|]. cbn [vs_own vs_lib vs_vad]. apply wp_ret. exists o, has. cbn [snd vs_vad vs_lib].
  split; [done|]. split; [lia|]. split; [|split; [done|congruence]]. destruct Hob2 as [K1 K2 K3 K4 K5 K6 K7]. split; try done; [eapply owned_ok_update; [exact K1|exact El|unfold lin_size; congruence]|]. cbn in K7 |- *. rewrite dom_insert_L, K7. set_solver.
Qed.

Lemma vad_feed_step a s mic ref out frames : vrep a s -> vallowed a (VFeed mic ref out frames) ->
  wp (vexec (VFeed mic ref out frames)) (fun r s' => exists a', vstep a (VFeed mic ref out frames) r a' /\ vrep a' s') s.
Proof.
  intros Hrep [Hf Hin]. pose proof Hrep as [Hob Hs]. pose proof FRAME_eq as HF. destruct (Hin mic ltac:(by left)) as [Hm1 Hm2], (Hin ref ltac:(by right; left)) as [Hr1 Hr2], (Hin out ltac:(by right; right; left)) as [Ho1 Ho2]. destruct Hs as [S1 S2 S3 S4 S7 [S5 S6]].
  cbn [vexec]. apply wp_bind. unfold __tkl_vad_process. destruct (Z.eqb_spec frames 0) as [->|Hf0]; [apply wp_ret, wp_ret; exists a; split; [apply v_none|exact Hrep]|].
  cbv zeta. rewrite (u32_small (frames * 2)) by lia. apply wp_bind, wp_gets. pose proof S2 as (_ & Em & Lm & _). pose proof S3 as (_ & Er & Lr & _). pose proof S4 as (_ & Eo & Lo & _). pose proof LEN_eq. rewrite Em, Er, Eo, S5, S6, !u32_small by lia. change AEC_VAD_RING_BUFF_LEN with 16000.
  destruct (Z.ltb_spec 16000 (Z.of_nat (length (av_ref a)) + frames * 2)) as [Hfull|Hfit]; cbn [orb]; [apply wp_ret, wp_ret; exists a; split; [apply v_discard; lia|exact Hrep]|].
  destruct (sound_append_spec _ _ mic (frames * 2) S2) as (m & E1 & R1); [lia..|]. destruct (sound_append_spec _ _ ref (frames * 2) S3) as (r & E2 & R2); [lia..|]. destruct (sound_append_spec _ _ out (frames * 2) S4) as (o & E3 & R3); [lia..|].
  rewrite E1, E2, E3. replace (frames * 2) with (2 * frames) in * by lia. cbn [of_option]. do 3 apply wp_bind, wp_ret. apply wp_bind, wp_modify.
  assert (forall l (d : list Z), 2 * frames <= Z.of_nat (length d) -> length (feed l d frames) = (length l + Z.to_nat (2 * frames))%nat) as Hlen by (intros l d Hd; unfold feed; rewrite length_app, length_take; lia).
  fold (feed (av_mic a) mic frames) in R1. fold (feed (av_ref a) ref frames) in R2. fold (feed (av_out a) out frames) in R3. pose proof R2 as (_ & Lr2 & _). rewrite Lr2, Hlen by done. change AEC_VAD_FRAME_SIZE with 640.
  set (s1 := VSys (vs_own s) (vs_lib s) (with_sound m r o (vs_vad s))). assert (objects s1 (av_ready a) (av_ready a) (av_ready a)) as Hob1 by (by destruct Hob; split).
  destruct (Z.ltb_spec 640 (Z.of_nat (length (av_ref a) + Z.to_nat (2 * frames)))).
  - apply wp_bind.
    assert (forall x s2 a2, sounds s2 a2 -> objects s2 (av_ready a) (av_ready a) (av_ready a) -> av_ready a2 = av_ready a -> av_mic a2 = feed (av_mic a) mic frames -> av_ref a2 = feed (av_ref a) ref frames -> av_out a2 = feed (av_out a) out frames -> vstep a (VFeed mic ref out frames) (VFed (default [] x)) (lose_frame a2) ->
      wp (v <- gets vs_vad ;; m <- of_option (sound_drop (v_mic v)) ;; r <- of_option (sound_drop (v_ref v)) ;; o <- of_option (sound_drop (v_out v)) ;; upd (with_sound m r o) ;;; ret x)
        (fun out' s' => wp (ret (VFed (default [] out'))) (fun r s' => exists a', vstep a (VFeed mic ref out frames) r a' /\ vrep a' s') s') s2) as Hend.
    { intros x s2 a2 [T1 T2 T3 T4 T7 [T5 T6]] Hob2 Ea Em2 Er2 Eo2 Hst. apply wp_bind, wp_gets. destruct (sound_drop_spec _ _ T2) as (m' & D1 & R1'); [rewrite Em2, Hlen; lia|]. destruct (sound_drop_spec _ _ T3) as (r' & D2 & R2'); [rewrite Er2, Hlen; lia|]. destruct (sound_drop_spec _ _ T4) as (o' & D3 & R3'); [rewrite Eo2, Hlen; lia|].
      rewrite D1, D2, D3. cbn [of_option]. do 3 apply wp_bind, wp_ret. apply wp_bind, wp_modify, wp_ret, wp_ret. exists (lose_frame a2). split; [done|]. split; [cbn; rewrite Ea; by destruct Hob2; split|]. split; cbn; try done. rewrite !length_drop. lia. }
    assert (sounds s1 (take_piece mic ref out frames a)) as Hs1 by (split; cbn; try done; rewrite !Hlen by done; lia).
    destruct (av_ready a) eqn:Er1.
    + eapply wp_mono; [by eapply (heard s1 (av_speech a))|]. cbv beta. intros x s2 (cleaned & answer & -> & Lc & Hob2 & Ev & G). set (a2 := be_heard (negb (answer =? 0)) (more_log [SpCleaned (take FRAME mic) (take FRAME ref) (take FRAME out) cleaned; SpHeard cleaned answer] (take_piece mic ref out frames a))).
      refine (Hend _ _ a2 _ Hob2 Er1 eq_refl eq_refl eq_refl _); [|exact (v_frame a mic ref out frames cleaned answer Er1 ltac:(lia) ltac:(lia) Lc)]. destruct Hs1 as [T1 T2 T3 T4 T7 T5]. split; cbn [a2 be_heard more_log av_speech av_mic av_ref av_out av_log]; [by rewrite Ev..|by rewrite G, T7|exact T5].
    + eapply wp_mono; [by apply not_heard|]. cbv beta. intros x s2 (-> & ->). exact (Hend (Some out) _ (take_piece mic ref out frames a) Hs1 Hob1 Er1 eq_refl eq_refl eq_refl (v_frame_idle a mic ref out frames Er1 ltac:(lia) ltac:(lia))).
  - apply wp_ret, wp_ret. exists (take_piece mic ref out frames a). split; [apply v_accept; lia|]. split; [done|]. split; cbn; [done..|]. rewrite !Hlen by done. lia.
Qed.

(** The status is none, and the detector is told when it is there. *)
Lemma detector_told a s (f : Z -> M K unit) l o : vrep a s -> vstep a o (VDone OPRT_OK) (be_heard false (more_log (if av_ready a then l else []) a)) ->
  (forall h k, h ∈ sp_rnn k -> wp (f h) (fun _ k' => sp_rnn k' = sp_rnn k /\ sp_aes k' = sp_aes k /\ sp_log k' = sp_log k ++ l) k) ->
  wp (v <- gets vs_vad ;; when (negb (v_rnn_vad_handle v =? 0)) (on_lib (f (v_rnn_vad_handle v))) ;;; ret OPRT_OK)
    (fun r s' => wp (ret (VDone r)) (fun r s' => exists a', vstep a o r a' /\ vrep a' s') s') (VSys (vs_own s) (vs_lib s) (with_flag TKL_VAD_STATUS_NONE (vs_vad s))).
Proof.
  intros [Hob Hs] Hst Hf. apply wp_bind, wp_gets. cbn [vs_vad with_flag v_rnn_vad_handle]. set (s1 := VSys (vs_own s) (vs_lib s) (with_flag TKL_VAD_STATUS_NONE (vs_vad s))).
  assert (objects s1 (av_ready a) (av_ready a) (av_ready a) /\ sounds s1 (be_heard false a)) as [H1 H2] by (destruct Hob, Hs; by split; split).
  rewrite (ob_rnnh _ _ _ _ Hob). destruct (av_ready a) eqn:Er; cbn [negb when]; apply wp_bind.
  - apply wp_on_lib. eapply wp_mono; [apply Hf; pose proof (ob_rnn _ _ _ _ Hob) as L; cbn; rewrite L; set_solver|]. cbv beta. intros _ k (E1 & E2 & E3). apply wp_ret, wp_ret. eexists. split; [exact Hst|]. split; [cbn; rewrite Er; by apply (objects_lib s1)|].
    by apply (sounds_more s1 _ (be_heard false a)).
  - apply wp_ret, wp_ret, wp_ret. eexists. split; [exact Hst|]. rewrite more_log_nil. split; [cbn; by rewrite Er|done].
Qed.

Lemma vstep_ok a o s : vrep a s -> vallowed a o -> wp (vexec o) (fun r s' => exists a', vstep a o r a' /\ vrep a' s') s.
Proof.
  intros Hrep Hal. pose proof Hrep as [Hob Hs]. destruct o as [mic ref out frames| | | | | |level]; [by apply vad_feed_step|..]; cbn [vexec]; apply wp_bind.
  - apply wp_gets, wp_bind. eapply wp_mono; [by apply vad_init_spec|]. cbv beta. intros r s' (-> & b & l & Hl & Hob' & Hs'). apply wp_ret. eexists. split; [by apply (v_init a (no_room s) b l)|]. split; [done|]. by destruct (Hs' a Hs).
  - eapply wp_mono; [by eapply vad_deinit_spec|]. cbv beta. intros r s' (-> & Hob' & Hs'). apply wp_ret. eexists. split; [constructor|]. split; [done|]. by destruct (Hs' a Hs).
  - unfold tkl_vad_start. apply wp_bind, wp_modify. apply (detector_told a s (fun h => rnn_vad_start h) [SpStarted]); [done|constructor|]. intros h k. apply rnn_start_ok.
  - unfold tkl_vad_stop. apply wp_bind, wp_modify. apply (detector_told a s (fun h => rnn_vad_stop h) [SpStopped]); [done|constructor|]. intros h k. apply rnn_stop_ok.
  - unfold tkl_vad_get_status. apply wp_bind, wp_gets, wp_ret, wp_ret. exists a. split; [|done]. rewrite (sd_flag _ _ Hs). constructor.
  - unfold tkl_vad_set_threshold. apply wp_bind, wp_gets. rewrite (ob_rnnh _ _ _ _ Hob). destruct (av_ready a) eqn:Er; cbn [negb]; [|apply wp_ret, wp_ret; exists a; split; [by apply v_threshold_none|done]].
    apply wp_bind. eapply (wp_mono _ (fun _ s' => vrep (more_log (threshold_log level) a) s')).
    { destruct level; [| | |apply wp_ret; by rewrite more_log_nil]; apply wp_on_lib; (eapply wp_mono; [apply rnn_threshold_ok; pose proof (ob_rnn _ _ _ _ Hob) as L; rewrite L; set_solver|]); cbv beta; intros _ k (E1 & E2 & E3); (split; [cbn; rewrite Er; by apply objects_lib|by eapply sounds_more]). }
    intros _ s' H'. apply wp_ret, wp_ret. eexists. split; [by apply v_threshold|done].
Qed.

(** C13: whatever the speech libraries answer, and whichever of their objects cannot be
    made, every sequence of calls — pieces of sound with at least a frame behind their
    pointers, initialisation, start, stop and the rest — runs without a fault: the three
    buffers are queues of the same length that take a piece or leave it and lose one
    frame when more than a frame is there; then the canceller gets the first frames of the
    piece, the detector the result, and the status is speech exactly when the answer of
    the detector was not 0, until start or stop sets it to none; an initialisation makes
    the objects of the libraries and the block on the heap, or, when a library made none or
    the heap has no room, gives back what there is, so that they exist together or not at
    all and none is lost, destroyed twice or used after its destruction. *)
Theorem vad_refines_buffers cl a s : vrep a s -> follows vstep vallowed a cl ->
  wp (exec vexec cl) (fun h s' => exists a', history_of cl h /\ runs vstep a h a' /\ vrep a' s' /\
    (av_ready a' = false -> o_objs (vs_own s') = ∅ /\ sp_aes (vs_lib s') = ∅ /\ sp_rnn (vs_lib s') = ∅)) s.
Proof.
  intros Hrep Hf. eapply wp_mono; [by eapply (client_refines vexec vstep vallowed vrep vstep_ok)|]. cbv beta. intros h s' (a' & Hh & Hr & Hrep'). exists a'. split; [done|]. split; [done|]. split; [done|]. intros E. destruct Hrep' as [[K1 K2 K3 K4 K5 K6 K7] _].
  rewrite E in K3, K5, K7. split; [by apply dom_empty_iff_L|done].
Qed.

(** ** Pieces of a fixed size *)

Definition piece : Type := list Z * list Z * list Z.
Definition piece_ok (frames : Z) (p : piece) : Prop := vallowed (AVad false false [] [] [] []) (VFeed p.1.1 p.1.2 p.2 frames).
Fixpoint vad_feeds (ps : list piece) (frames : Z) : W unit :=
  match ps with [] => ret tt | p :: ps => _ <- vexec (VFeed p.1.1 p.1.2 p.2 frames) ;; vad_feeds ps frames end.

(** A piece that does not fit changes nothing at all. *)
Lemma full_piece a s p frames : vrep a s -> 0 < frames <= 8000 -> 16000 < Z.of_nat (length (av_ref a)) + 2 * frames ->
  vexec (VFeed p.1.1 p.1.2 p.2 frames) s = Ret (VFed p.2) s.
Proof.
  intros [_ [_ S2 S3 S4 _ [S5 S6]]] Hf Hfull. pose proof LEN_eq. cbn [vexec]. unfold __tkl_vad_process. rewrite (proj2 (Z.eqb_neq frames 0)) by lia. cbv zeta. unfold bind, gets. destruct S2 as (_ & Em & Lm & _), S3 as (_ & Er & Lr & _), S4 as (_ & Eo & Lo & _).
  rewrite (u32_small (frames * 2)) by lia. rewrite Em, Er, Eo, S5, S6, !u32_small by lia. change AEC_VAD_RING_BUFF_LEN with 16000. by rewrite (proj2 (Z.ltb_lt 16000 _)) by lia.
Qed.

Lemma full_pieces ps a s frames : vrep a s -> 0 < frames <= 8000 -> 16000 < Z.of_nat (length (av_ref a)) + 2 * frames -> vad_feeds ps frames s = Ret tt s.
Proof. intros Hr Hf Hfull. induction ps as [|p ps IH]; [done|]. cbn [vad_feeds]. unfold bind. rewrite (full_piece a) by done. exact IH. Qed.

(** How much is there after a piece that fits. *)
Lemma accepted a s frames p r a' : vrep a s -> vstep a (VFeed p.1.1 p.1.2 p.2 frames) r a' -> piece_ok frames p -> 0 < frames -> Z.of_nat (length (av_mic a)) + 2 * frames <= 16000 ->
  av_mic a' = fed (feed (av_mic a) p.1.1 frames) /\ length (feed (av_mic a) p.1.1 frames) = (length (av_mic a) + Z.to_nat (2 * frames))%nat.
Proof.
  intros [_ [_ _ _ _ _ [E _]]] Hst [_ Hin] Hf Hfit. pose proof FRAME_eq. specialize (Hin p.1.1 ltac:(by left)) as [_ Hm].
  assert (length (feed (av_mic a) p.1.1 frames) = (length (av_mic a) + Z.to_nat (2 * frames))%nat) as Hl by (unfold feed; rewrite length_app, length_take; lia). split; [|done]. unfold fed. rewrite Hl, E.
  inversion Hst; subst; cbn [av_mic be_heard more_log lose_frame take_piece]; try lia; destruct (decide _); try done; lia.
Qed.

Lemma ref_length a s : vrep a s -> length (av_ref a) = length (av_mic a).
Proof. intros [_ [_ _ _ _ _ [E _]]]. done. Qed.

(** When the sound card delivers pieces of more than a frame, at most
    [16000 / (piece - frame)] of them are taken; then the buffers are full, and nothing
    empties them: every later piece changes nothing, in the buffers, in the libraries or
    in the status, however long the sound goes on. *)
Theorem vad_starves frames ps1 ps2 a s : 320 < frames <= 8000 -> vrep a s -> Forall (piece_ok frames) ps1 ->
  16000 < Z.of_nat (length (av_mic a)) + Z.of_nat (length ps1) * (2 * frames - 640) + 2 * frames ->
  wp (vad_feeds ps1 frames) (fun _ s1 => vad_feeds ps2 frames s1 = Ret tt s1) s.
Proof.
  intros Hf Hrep Hok. revert a s Hrep. induction Hok as [|p ps1 Hp Hps IH]; intros a s Hrep Hbig.
  - apply wp_ret. eapply full_pieces; [done|lia|]. rewrite (ref_length a s) by done. cbn in Hbig. lia.
  - cbn [vad_feeds]. destruct (decide (16000 < Z.of_nat (length (av_mic a)) + 2 * frames)) as [Hfull|Hfit].
    + unfold wp. change (bind (vexec (VFeed p.1.1 p.1.2 p.2 frames)) (fun _ => vad_feeds ps1 frames) s) with (vad_feeds (p :: ps1) frames s). rewrite (full_pieces (p :: ps1) a s) by (try done; try rewrite (ref_length a s) by done; lia). eapply full_pieces; [done|lia|]. by rewrite (ref_length a s).
    + apply wp_bind. eapply wp_mono; [apply vad_feed_step; [exact Hrep|exact Hp]|]. cbv beta. intros r s' (a' & Hst & Hrep'). apply (IH a'); [done|]. destruct (accepted a s frames p r a') as [Em El]; [done|done|done|lia|lia|]. pose proof FRAME_eq.
      rewrite Em. unfold fed. rewrite decide_True by lia. rewrite length_drop, El. cbn [length] in Hbig. lia.
Qed.

(** Pieces of at most a frame are all taken, in order, and only whole frames leave. *)
Theorem vad_keeps_up frames ps a s : 0 < frames <= 320 -> vrep a s -> Z.of_nat (length (av_mic a)) <= 640 -> Forall (piece_ok frames) ps ->
  wp (vad_feeds ps frames) (fun _ s' => exists a' n, vrep a' s' /\ Z.of_nat (length (av_mic a')) <= 640 /\
    av_mic a' = drop (n * FRAME) (av_mic a ++ concat ((fun p => take (Z.to_nat (2 * frames)) p.1.1) <$> ps))) s.
Proof.
  intros Hf Hrep Hl Hok. revert a s Hrep Hl. induction Hok as [|p ps Hp Hps IH]; intros a s Hrep Hl.
  - apply wp_ret. exists a, 0%nat. by rewrite app_nil_r.
  - cbn [vad_feeds]. apply wp_bind. eapply wp_mono; [apply vad_feed_step; [exact Hrep|exact Hp]|]. cbv beta. intros r s' (a' & Hst & Hrep'). destruct (accepted a s frames p r a') as [Em El]; [done|done|done|lia|lia|]. pose proof FRAME_eq.
    eapply wp_mono; [apply (IH a'); [done|]|].
    + rewrite Em. unfold fed. destruct (decide _); [rewrite length_drop|]; lia.
    + cbv beta. intros _ s'' (a'' & n & Hrep'' & Hl'' & E). destruct (decide (FRAME < length (feed (av_mic a) p.1.1 frames))%nat) as [Hlt|Hge]; unfold fed in Em; [rewrite decide_True in Em by done|rewrite decide_False in Em by done]; rewrite Em in E.
      * exists a'', (S n). split; [done|]. split; [done|]. rewrite E, fmap_cons. cbn [concat]. rewrite app_assoc. change (av_mic a ++ take (Z.to_nat (2 * frames)) p.1.1) with (feed (av_mic a) p.1.1 frames).
        rewrite <-drop_app_le by lia. rewrite drop_drop. f_equal.
      * exists a'', n. split; [done|]. split; [done|]. rewrite E, fmap_cons. cbn [concat]. by rewrite app_assoc.
Qed.
End Vad.

(** ** Speech libraries *)

(** The detector hears a voice when the first byte is not zero. *)
Record demo_lib := mkLib { dl_aes : bool; dl_rnn : bool; dl_log : list sp_ev }.
Definition one (b : bool) : gset Z := if b then {[1]} else ∅.
Definition lib_says (e : sp_ev) (k : demo_lib) : demo_lib := mkLib (dl_aes k) (dl_rnn k) (dl_log k ++ [e]).

#[export] Instance demo_speech : Speech demo_lib.
Proof.
  refine {|
    speex_aes_create n k := if dl_aes k then Ret 0 (lib_says (SpCanceller false) k) else Ret 1 (lib_says (SpCanceller true) (mkLib true (dl_rnn k) (dl_log k)));
    speex_aes_destory h k := Ret tt (mkLib false (dl_rnn k) (dl_log k));
    speex_aes_process h mic ref out k := Ret mic (lib_says (SpCleaned mic ref out mic) k);
    speex_get_param h l k := Ret l k;
    rnn_vad_create k := if dl_rnn k then Ret 0 (lib_says (SpDetector false) k) else Ret 1 (lib_says (SpDetector true) (mkLib (dl_aes k) true (dl_log k)));
    rnn_vad_destroy h k := Ret tt (mkLib (dl_aes k) false (dl_log k));
    rnn_vad_start h k := Ret tt (lib_says SpStarted k);
    rnn_vad_stop h k := Ret tt (lib_says SpStopped k);
    rnn_vad_process h x k := let r := match x with 0 :: _ => 0 | _ => 1 end in Ret r (lib_says (SpHeard x r) k);
    rnn_vad_set_callback h t k := Ret tt (lib_says (SpThreshold t) k);
    sp_aes k := one (dl_aes k);
    sp_rnn k := one (dl_rnn k);
    sp_log := dl_log |}.
  - intros n [[] r]; unfold wp; cbn; (split; [done|]); (split; [done|]); [by left|right]. split_and!; [done|set_solver|set_solver].
  - intros h [[] r] Hin; unfold wp; cbn in *; (split; [done|]); (split; [done|]); set_solver.
  - by intros h mic ref out k _ Hm _ _.
  - by intros h l k _.
  - intros [a []]; unfold wp; cbn; (split; [done|]); (split; [done|]); [by left|right]. split_and!; [done|set_solver|set_solver].
  - intros h [a []] Hin; unfold wp; cbn in *; (split; [done|]); (split; [done|]); set_solver.
  - by intros h k _.
  - by intros h k _.
  - by intros h x k _ _.
  - by intros h t k _.
Defined.

#[local] Instance demo_allocator : Allocator arena := arena_allocator.

Definition vad_demo : vsys arena demo_lib := VSys (Own arena0 ∅) (mkLib false false []) vad0.
Definition vad_demo_abs : avad := AVad false false [] [] [] [].

Lemma zeros_srep : srep (mkSound (replicate (Z.to_nat AEC_VAD_RING_BUFF_LEN) 0) 0) [].
Proof. split_and!; cbn [so_data so_len length take]; [apply length_replicate|done|lia|done]. Qed.

Lemma vad_demo_ok : vrep vad_demo_abs vad_demo.
Proof.
  split; split; cbn -[replicate AEC_VAD_RING_BUFF_LEN]; try done; try apply zeros_srep. apply arena0_owned.
Qed.

(** Half a second of voice in pieces of a frame; the status is asked. *)
Definition loud : list Z := replicate FRAME 1.
Definition vad_demo_client : client vop vres :=
  Call VInit (fun _ => Call (VFeed loud loud loud 320) (fun _ => Call (VFeed loud loud loud 320) (fun _ => Call VStatus (fun _ => Call VDeinit (fun _ => Stop))))).

Lemma loud_ok a : vallowed a (VFeed loud loud loud 320).
Proof. pose proof FRAME_eq. split; [lia|]. intros l [<-|[<-|[<-|[]]]]; unfold loud; rewrite length_replicate; lia. Qed.

Lemma vad_demo_follows : follows vstep vallowed vad_demo_abs vad_demo_client.
Proof. split; [done|]. intros r1 a1 _. split; [apply loud_ok|]. intros r2 a2 _. split; [apply loud_ok|]. done. Qed.

Lemma vad_refines_buffers_witness :
  wp (exec vexec vad_demo_client) (fun h s' => exists a', history_of vad_demo_client h /\ runs vstep vad_demo_abs h a' /\ vrep a' s' /\
    (av_ready a' = false -> o_objs (vs_own s') = ∅ /\ sp_aes (vs_lib s') = ∅ /\ sp_rnn (vs_lib s') = ∅)) vad_demo.
Proof. exact (vad_refines_buffers vad_demo_client vad_demo_abs vad_demo vad_demo_ok vad_demo_follows). Defined.

(** Pieces of two frames: 24 of them fill the buffers. *)
Definition big_piece : piece := (replicate 1280 1, replicate 1280 1, replicate 1280 1).
Lemma big_piece_ok : piece_ok 640 big_piece.
Proof. pose proof FRAME_eq. split; [lia|]. intros l [<-|[<-|[<-|[]]]]; cbn [fst snd big_piece]; rewrite length_replicate; lia. Qed.

Lemma vad_starves_witness : wp (vad_feeds (replicate 24 big_piece) 640) (fun _ s1 => vad_feeds [big_piece; big_piece] 640 s1 = Ret tt s1) vad_demo.
Proof.
  refine (vad_starves 640 (replicate 24 big_piece) [big_piece; big_piece] vad_demo_abs vad_demo _ vad_demo_ok _ _); [lia| |rewrite length_replicate; cbn; lia]. apply Forall_replicate, big_piece_ok.
Defined.

(** The detector hears the voice with the second piece. *)
Example vad_demo_speech :
  match exec vexec vad_demo_client vad_demo with
  | Ret h s => drop 3 (h.*2) = [VIs TKL_VAD_STATUS_SPEECH; VDone OPRT_OK] /\ o_objs (vs_own s) = ∅
  | _ => False
  end.
Proof. by vm_compute. Qed.
