(* ===== verification/TklKws.v ===== *)
(** * Keyword spotting: [src/tkl_audio/tkl_kws.c]

    The sound card puts pieces of sound into a ring buffer ([RingBuf]); a thread takes
    chunks of 300 milliseconds out of it and gives them to the model, which calls back when
    it hears the keyword.  Calls of the ring buffer are taken to be atomic: the file uses
    it without a lock, with one writer and one reader.  The model is a parameter, the class
    [KwsModule]; whether memory for a chunk and a thread can be had is an input of the
    operations that ask for it. *)

From S2P Require Import Prelude Alloc RingBuf RingBufProps Client.

Definition TKL_KWS_FRAME_SIZE : Z := 320 * 2.
Definition KWS_RING_BUFF_LEN : Z := TKL_KWS_FRAME_SIZE * (2000 / 20).
Definition MODEL_CHUNK_TIME_MS : Z := 300.
Definition MODEL_CHUNK_SIZE : Z := MODEL_CHUNK_TIME_MS / 20 * TKL_KWS_FRAME_SIZE.
Definition TKL_KWS_WAKEUP_NIHAO_TUYA : Z := 1.

(** The functions of the module: making it from the paths of the model and of its tokens,
    looking at a chunk, which calls back with the flags of the result, and destroying it.  The
    log has the chunks with the flags. *)
Class KwsModule (K : Type) := {
  km_create : list Z -> list Z -> M K Z;
  km_set_callback : M K Z;
  km_process : list Z -> M K (list Z);
  km_destroy : M K unit;
  km_live : K -> bool;
  km_log : K -> list (list Z * list Z);
  km_create_ok p t k : wp (km_create p t) (fun r k' => km_live k' = (0 <=? r) /\ km_log k' = km_log k) k;
  km_callback_ok k : km_live k = true -> wp km_set_callback (fun _ k' => km_live k' = true /\ km_log k' = km_log k) k;
  km_process_ok c k : km_live k = true -> wp (km_process c) (fun flags k' => km_live k' = true /\ km_log k' = km_log k ++ [(c, flags)]) k;
  km_destroy_ok k : km_live k = true -> wp km_destroy (fun _ k' => km_live k' = false /\ km_log k' = km_log k) k
}.

(** [audio_subsys_kws_factory2], the only module. *)
Definition KWS_FACTORY2 : Z := 1.

Record TKL_KWS_CTX_S := mkKws { kc_module : Z; kc_wakeup_cb : Z; kc_thread : Z; kc_ring : Z }.
Definition with_module v x := mkKws v (kc_wakeup_cb x) (kc_thread x) (kc_ring x).
Definition with_wakeup v x := mkKws (kc_module x) v (kc_thread x) (kc_ring x).
Definition with_thread v x := mkKws (kc_module x) (kc_wakeup_cb x) v (kc_ring x).
Definition with_ring v x := mkKws (kc_module x) (kc_wakeup_cb x) (kc_thread x) v.

(** The ring buffers, the module, the context; of the threads, whether each has its block
    for a chunk, and which blocks of threads are allocated; the callbacks made so far and
    the releases of what was not allocated. *)
Record ksys (A K : Type) := KSys { ks_own : owned A RINGBUFF_T; ks_lib : K; ks_ctx : TKL_KWS_CTX_S; ks_tasks : list bool; ks_blocks : gset Z; ks_woken : list (Z * Z); ks_bad_frees : list Z }.
Arguments KSys {A K}. Arguments ks_own {A K}. Arguments ks_lib {A K}. Arguments ks_ctx {A K}. Arguments ks_tasks {A K}. Arguments ks_blocks {A K}. Arguments ks_woken {A K}. Arguments ks_bad_frees {A K}.

(** ** Paths *)

(** What [snprintf] leaves in [dst_size] bytes. *)
Definition snprintf_fit (dst_size : Z) (text : list Z) : list Z := take (Z.to_nat (dst_size - 1)) text.

(** [home]: the value of the variable [HOME], if there is one. *)
Definition __expand_user_path (home : option (list Z)) (src : option (list Z)) (dst : option (list Z)) (dst_size : Z) : option (list Z) :=
  match src, dst with
  | Some src, Some dst =>
    if dst_size =? 0 then Some dst
    else
      match src, home with
      | 126 :: 47 :: rest, Some ((_ :: _) as home) => Some (snprintf_fit dst_size (home ++ 47 :: rest))
      | _, _ => Some (snprintf_fit dst_size src)
      end
  | _, _ => dst
  end.

Definition DEFAULT_MODEL : list Z := (* ~/tuyaopen_models/mdtc_chunk_300ms.mnn *)
  [126; 47; 116; 117; 121; 97; 111; 112; 101; 110; 95; 109; 111; 100; 101; 108; 115; 47; 109; 100; 116; 99; 95; 99; 104; 117; 110; 107; 95; 51; 48; 48; 109; 115; 46; 109; 110; 110].
Definition DEFAULT_TOKENS : list Z := (* ~/tuyaopen_models/tokens.txt *)
  [126; 47; 116; 117; 121; 97; 111; 112; 101; 110; 95; 109; 111; 100; 101; 108; 115; 47; 116; 111; 107; 101; 110; 115; 46; 116; 120; 116].
(** The path of the configuration, when there is one that is not empty. *)
Definition configured_path (cfg : option (list Z)) (path : list Z) : list Z := match cfg with Some ((_ :: _) as p) => p | _ => path end.

Section Kws.
Context {A K : Type} `{!Allocator A, !KwsModule K}.
Local Abbreviation W := (M (ksys A K)).

Definition on_ring {R} (c : M (owned A RINGBUFF_T) R) : W R := fun s =>
  match c (ks_own s) with Ret r o => Ret r (KSys o (ks_lib s) (ks_ctx s) (ks_tasks s) (ks_blocks s) (ks_woken s) (ks_bad_frees s)) | Fault => Fault | Diverge => Diverge end.
Definition on_module {R} (c : M K R) : W R := fun s =>
  match c (ks_lib s) with Ret r k => Ret r (KSys (ks_own s) k (ks_ctx s) (ks_tasks s) (ks_blocks s) (ks_woken s) (ks_bad_frees s)) | Fault => Fault | Diverge => Diverge end.
Definition upd_ctx (f : TKL_KWS_CTX_S -> TKL_KWS_CTX_S) : W unit := modify (fun s => KSys (ks_own s) (ks_lib s) (f (ks_ctx s)) (ks_tasks s) (ks_blocks s) (ks_woken s) (ks_bad_frees s)).
Definition set_tasks (l : list bool) : W unit := modify (fun s => KSys (ks_own s) (ks_lib s) (ks_ctx s) l (ks_blocks s) (ks_woken s) (ks_bad_frees s)).
Definition wake (cb word : Z) : W unit := modify (fun s => KSys (ks_own s) (ks_lib s) (ks_ctx s) (ks_tasks s) (ks_blocks s) (ks_woken s ++ [(cb, word)]) (ks_bad_frees s)).
(** Releasing the block of a thread. *)
Definition free_block (p : Z) : W unit := modify (fun s =>
  if decide (p ∈ ks_blocks s) then KSys (ks_own s) (ks_lib s) (ks_ctx s) (ks_tasks s) (ks_blocks s ∖ {[p]}) (ks_woken s) (ks_bad_frees s)
  else KSys (ks_own s) (ks_lib s) (ks_ctx s) (ks_tasks s) (ks_blocks s) (ks_woken s) (ks_bad_frees s ++ [p])).

(** ** Operations *)

Definition __tkl_kws_process (mic_data : option (list Z)) (frames : Z) : W unit :=
  x <- gets ks_ctx ;;
  if (kc_module x =? 0) || (kc_ring x =? 0) then ret tt
  else
    rb_free <- on_ring (tuya_ring_buff_free_size_get (kc_ring x)) ;;
    if rb_free <? u32 (frames * 2) then ret tt
    else _ <- on_ring (tuya_ring_buff_write (kc_ring x) mic_data (u32 (frames * 2))) ;; ret tt.

Definition __tkl_kws_result (flag : Z) : W Z :=
  x <- gets ks_ctx ;;
  when ((flag =? 1) && negb (kc_wakeup_cb x =? 0)) (wake (kc_wakeup_cb x) TKL_KWS_WAKEUP_NIHAO_TUYA) ;;;
  ret 0.

(** The calls of [__tkl_kws_result] while the module looks at a chunk. *)
Fixpoint results (flags : list Z) : W unit :=
  match flags with [] => ret tt | f :: flags => _ <- __tkl_kws_result f ;; results flags end.

(** One turn of the loop of [__tkl_kws_task] in thread [i], up to its sleep; [mem]: memory
    can be had.  The result is the chunk the module got. *)
Definition __tkl_kws_task (i : nat) (mem : bool) : W (option (list Z)) :=
  tasks <- gets ks_tasks ;;
  match tasks !! i with
  | None => ret None
  | Some has_mic =>
    x <- gets ks_ctx ;;
    rb_data_len <- on_ring (tuya_ring_buff_used_size_get (kc_ring x)) ;;
    if rb_data_len <? MODEL_CHUNK_SIZE then ret None
    else if negb has_mic && negb mem then ret None
    else
      set_tasks (<[i := true]> tasks) ;;;
      r <- on_ring (tuya_ring_buff_read (kc_ring x) (Some (replicate (Z.to_nat MODEL_CHUNK_SIZE) 0)) MODEL_CHUNK_SIZE) ;;
      if kc_module x =? 0 then fault
      else
        flags <- on_module (km_process (snd r)) ;;
        results flags ;;;
        ret (Some (snd r))
  end.

Definition tkl_kws_deinit : W OPERATE_RET :=
  x <- gets ks_ctx ;;
  if kc_module x =? 0 then ret OPRT_OK
  else
    (* tuya_ring_buff_free of the thread releases the block it points to *)
    when (negb (kc_thread x =? 0)) (free_block (kc_thread x)) ;;;
    (* tkl_thread_release *)
    when (negb (kc_thread x =? 0)) (free_block (kc_thread x)) ;;;
    on_module km_destroy ;;;
    upd_ctx (with_module 0) ;;;
    ret OPRT_OK.

(** [env]: the paths of the build and the variable [HOME]; [thread]: the handle that
    [tkl_thread_create] makes, if it can.  The result is an error number or a code. *)
Record kws_env := mkEnv { ke_model : option (list Z); ke_tokens : option (list Z); ke_home : option (list Z) }.
Definition tkl_kws_init (env : kws_env) (thread : option Z) : W (Z + OPERATE_RET) :=
  let modelpath := default [] (__expand_user_path (ke_home env) (Some (configured_path (ke_model env) DEFAULT_MODEL)) (Some []) 512) in
  let tokenpath := default [] (__expand_user_path (ke_home env) (Some (configured_path (ke_tokens env) DEFAULT_TOKENS)) (Some []) 512) in
  r <- on_ring (tuya_ring_buff_create KWS_RING_BUFF_LEN OVERFLOW_STOP_TYPE true) ;;
  if bool_decide (fst r <> OPRT_OK) then ret (inr (fst r))
  else
    upd_ctx (with_ring (snd r)) ;;;
    upd_ctx (with_module KWS_FACTORY2) ;;;
    e <- on_module (km_create modelpath tokenpath) ;;
    if e <? 0 then ret (inl (-1))
    else
      err <- on_module km_set_callback ;;
      if negb (err =? 0) then _ <- tkl_kws_deinit ;; ret (inl (-1))
      else
        match thread with
        | None => ret tt
        | Some h =>
          modify (fun s => KSys (ks_own s) (ks_lib s) (with_thread h (ks_ctx s)) (ks_tasks s ++ [false]) ({[h]} ∪ ks_blocks s) (ks_woken s) (ks_bad_frees s))
        end ;;;
        ret (inr OPRT_OK).

Definition tkl_kws_enable : W OPERATE_RET := ret OPRT_OK.
Definition tkl_kws_disable : W OPERATE_RET := ret OPRT_OK.
Definition tkl_kws_reg_wakeup_cb (wakeup_cb : Z) : W OPERATE_RET := upd_ctx (with_wakeup wakeup_cb) ;;; ret OPRT_OK.

(** ** The stream of sound *)

Inductive kop := KFeed (mic : list Z) (frames : Z) | KTask (i : nat) (mem : bool) | KReg (cb : Z).
Inductive kres := KDone | KChunk (c : option (list Z)).
Definition kexec (o : kop) : W kres :=
  match o with
  | KFeed mic frames => __tkl_kws_process (Some mic) frames ;;; ret KDone
  | KTask i mem => c <- __tkl_kws_task i mem ;; ret (KChunk c)
  | KReg cb => _ <- tkl_kws_reg_wakeup_cb cb ;; ret KDone
  end.

(** All the sound that was taken, the chunks the module got with its results, the callback and
    the calls of it, and which threads have their block. *)
Record stream := Stream { st_in : list Z; st_log : list (list Z * list Z); st_cb : Z; st_woken : list (Z * Z); st_tasks : list bool }.
Definition CHUNK : nat := Z.to_nat MODEL_CHUNK_SIZE.
(** [c]: the chunks the module got before this sound. *)
Definition pending (c : nat) (a : stream) : list Z := drop ((length (st_log a) - c) * CHUNK) (st_in a).
(** The calls of the callback for the results of a chunk: one for each that is 1. *)
Definition calls_for (cb : Z) (flags : list Z) : list (Z * Z) := if cb =? 0 then [] else replicate (length (filter (fun f => f = 1) flags)) (cb, TKL_KWS_WAKEUP_NIHAO_TUYA).

Inductive kstep (c : nat) (a : stream) : kop -> kres -> stream -> Prop :=
| k_take mic frames : Z.of_nat (length (pending c a)) + 2 * frames < KWS_RING_BUFF_LEN ->
    kstep c a (KFeed mic frames) KDone (Stream (st_in a ++ take (Z.to_nat (2 * frames)) mic) (st_log a) (st_cb a) (st_woken a) (st_tasks a))
| k_leave mic frames : KWS_RING_BUFF_LEN <= Z.of_nat (length (pending c a)) + 2 * frames -> kstep c a (KFeed mic frames) KDone a
| k_sleep i mem : (length (pending c a) < CHUNK)%nat \/ st_tasks a !! i = None \/ (st_tasks a !! i = Some false /\ mem = false) -> kstep c a (KTask i mem) (KChunk None) a
| k_chunk i mem has flags : st_tasks a !! i = Some has -> has || mem = true -> (CHUNK <= length (pending c a))%nat ->
    kstep c a (KTask i mem) (KChunk (Some (take CHUNK (pending c a))))
      (Stream (st_in a) (st_log a ++ [(take CHUNK (pending c a), flags)]) (st_cb a) (st_woken a ++ calls_for (st_cb a) flags) (<[i := true]> (st_tasks a)))
| k_reg cb : kstep c a (KReg cb) KDone (Stream (st_in a) (st_log a) cb (st_woken a) (st_tasks a)).

Definition kallowed (a : stream) (o : kop) : Prop :=
  match o with KFeed mic frames => 0 <= frames < 2147483648 /\ 2 * frames <= Z.of_nat (length mic) | _ => True end.

(** The state of a detector that was initialised: its ring buffer holds what is pending. *)
Record krep (c : nat) (a : stream) (s : ksys A K) : Prop := {
  kr_rings : exists Q, rings_rep (ks_own s) Q /\ Q !! kc_ring (ks_ctx s) = Some (Fifo (KWS_RING_BUFF_LEN - 1) (pending c a));
  kr_module : kc_module (ks_ctx s) <> 0;
  kr_live : km_live (ks_lib s) = true;
  kr_cb : kc_wakeup_cb (ks_ctx s) = st_cb a;
  kr_woken : ks_woken s = st_woken a;
  kr_tasks : ks_tasks s = st_tasks a;
  kr_log : km_log (ks_lib s) = st_log a;
  kr_chunks : (c <= length (st_log a) /\ (length (st_log a) - c) * CHUNK <= length (st_in a))%nat
}.

Lemma CHUNK_eq : Z.of_nat CHUNK = 9600. Proof. done. Qed.
#[local] Opaque CHUNK.

Lemma wp_on_ring {R} (c : M (owned A RINGBUFF_T) R) Q (s : ksys A K) :
  wp c (fun r o => Q r (KSys o (ks_lib s) (ks_ctx s) (ks_tasks s) (ks_blocks s) (ks_woken s) (ks_bad_frees s))) (ks_own s) -> wp (on_ring c) Q s.
Proof. unfold wp, on_ring. by destruct (c (ks_own s)). Qed.
Lemma wp_on_module {R} (c : M K R) Q (s : ksys A K) :
  wp c (fun r k => Q r (KSys (ks_own s) k (ks_ctx s) (ks_tasks s) (ks_blocks s) (ks_woken s) (ks_bad_frees s))) (ks_lib s) -> wp (on_module c) Q s.
Proof. unfold wp, on_module. by destruct (c (ks_lib s)). Qed.

(** A call of a ring buffer through the specification of queues. *)
Lemma ring_call {R} (c : M (owned A RINGBUFF_T) R) (f : R -> Z * list Z) p o q s Q (F : R -> owned A RINGBUFF_T -> Prop) :
  rings_rep s Q -> Q !! p = Some q -> rop_ok o -> exec_rop p o s = (x <- c ;; ret (f x)) s ->
  (forall r s', f r = fst (spec_rop o q) -> rings_rep s' (<[p := snd (spec_rop o q)]> Q) -> F r s') -> wp c F s.
Proof.
  intros Hr HQ Ho E HF. pose proof (exec_rop_ok s Q p q o Hr HQ Ho) as Hw. unfold wp in Hw. rewrite E in Hw. unfold wp, bind, ret in *. destruct (c s) as [r s'| |]; [|done..]. apply HF; apply Hw.
Qed.

Lemma ring_handle s Q p q : rings_rep s Q -> Q !! p = Some q -> p <> 0.
Proof. intros Hr HQ ->. pose proof (rr_rings _ _ Hr 0) as H. rewrite HQ, (rr_null _ _ Hr) in H. inversion H. Qed.

(** A call that only reads leaves the representation as it is. *)
Lemma ring_sizes s Q p q (F G : Z -> owned A RINGBUFF_T -> Prop) : rings_rep s Q -> Q !! p = Some q ->
  (forall s', rings_rep s' Q -> F (q_cap q - q_used q) s') -> (forall s', rings_rep s' Q -> G (q_used q) s') ->
  wp (tuya_ring_buff_free_size_get p) F s /\ wp (tuya_ring_buff_used_size_get p) G s.
Proof.
  intros Hr HQ HF HG. split.
  - eapply (ring_call _ (fun n => (n, [])) p RFree); [done|done|done|done|]. cbn [spec_rop fst snd]. intros r s' [= ->] Hr'. rewrite insert_id in Hr' by done. by apply HF.
  - eapply (ring_call _ (fun n => (n, [])) p RUsed); [done|done|done|done|]. cbn [spec_rop fst snd]. intros r s' [= ->] Hr'. rewrite insert_id in Hr' by done. by apply HG.
Qed.

Lemma kws_feed_step n a s mic frames : krep n a s -> kallowed a (KFeed mic frames) -> wp (kexec (KFeed mic frames)) (fun r s' => exists a', kstep n a (KFeed mic frames) r a' /\ krep n a' s') s.
Proof.
  intros Hrep [Hf Hl]. pose proof Hrep as [(Q & Hr & HQ) H2 H3 H4 H5 H6 H8 H7]. cbn [kexec]. apply wp_bind. unfold __tkl_kws_process. apply wp_bind, wp_gets. pose proof (ring_handle _ _ _ _ Hr HQ). rewrite !(proj2 (Z.eqb_neq _ 0)) by done. cbn [orb].
  apply wp_bind, wp_on_ring. eapply (ring_sizes _ _ _ _ _ (fun _ _ => True)); [exact Hr|exact HQ| |done]. intros o Hr'. unfold q_used. cbn [q_cap q_bytes]. rewrite u32_small by lia.
  destruct (Z.ltb_spec (KWS_RING_BUFF_LEN - 1 - Z.of_nat (length (pending n a))) (frames * 2)) as [Hfull|Hfit].
  - apply wp_ret, wp_ret. exists a. split; [apply k_leave; lia|]. split; cbn; eauto.
  - apply wp_bind, wp_on_ring. eapply (ring_call _ (fun n => (n, [])) _ (RWrite mic (frames * 2))); [exact Hr'|exact HQ|split; lia|done|]. cbn [spec_rop fst snd q_cap q_bytes]. unfold q_used. cbn [q_bytes]. rewrite Z.min_l by lia. intros r o' _ Ho'. apply wp_ret, wp_ret.
    eexists. split; [apply k_take; lia|]. split; cbn; try done; [|rewrite length_app; lia]. eexists. split; [exact Ho'|]. rewrite lookup_insert_eq. unfold pending. cbn. rewrite drop_app_le by lia. by rewrite (Z.mul_comm frames 2).
Qed.

Lemma results_spec flags : forall s, wp (results flags) (fun _ s' => s' = KSys (ks_own s) (ks_lib s) (ks_ctx s) (ks_tasks s) (ks_blocks s)
  (ks_woken s ++ calls_for (kc_wakeup_cb (ks_ctx s)) flags) (ks_bad_frees s)) s.
Proof.
  unfold calls_for. induction flags as [|f flags IH]; intros s; cbn [results].
  - apply wp_ret. destruct s. cbn. destruct (_ =? 0); by rewrite app_nil_r.
  - apply wp_bind. unfold __tkl_kws_result. apply wp_bind, wp_gets. rewrite filter_cons. destruct (Z.eqb_spec f 1) as [Hf|Hf]; [rewrite decide_True by done|rewrite decide_False by done; apply wp_bind, wp_ret, wp_ret, IH]. destruct (kc_wakeup_cb (ks_ctx s) =? 0) eqn:Ec; cbn [negb andb when]; apply wp_bind.
    + apply wp_ret, wp_ret. eapply wp_mono; [apply IH|]. cbv beta. intros _ s' ->. by rewrite Ec.
    + apply wp_modify, wp_ret. eapply wp_mono; [apply IH|]. cbv beta. cbn [ks_own ks_lib ks_ctx ks_tasks ks_blocks ks_woken ks_bad_frees]. intros _ s' ->. rewrite Ec, <-app_assoc. done.
Qed.

Lemma task_step n a s i mem : krep n a s -> wp (kexec (KTask i mem)) (fun r s' => exists a', kstep n a (KTask i mem) r a' /\ krep n a' s') s.
Proof.
  intros Hrep. pose proof Hrep as [(Q & Hr & HQ) H2 H3 H4 H5 H6 H8 H7]. pose proof CHUNK_eq as HC. cbn [kexec]. apply wp_bind. unfold __tkl_kws_task. apply wp_bind, wp_gets. destruct (ks_tasks s !! i) as [has|] eqn:Ei.
  2: { apply wp_ret, wp_ret. exists a. split; [|done]. apply k_sleep. right. left. congruence. }
  rewrite H6 in Ei. apply wp_bind, wp_gets. apply wp_bind, wp_on_ring. eapply (ring_sizes _ _ _ _ (fun _ _ => True)); [exact Hr|exact HQ|done|]. intros o Hr'. unfold q_used. cbn [q_bytes]. change MODEL_CHUNK_SIZE with 9600.
  assert (krep n a (KSys o (ks_lib s) (ks_ctx s) (ks_tasks s) (ks_blocks s) (ks_woken s) (ks_bad_frees s))) as Hrep' by (split; cbn; eauto).
  destruct (Z.ltb_spec (Z.of_nat (length (pending n a))) 9600) as [|Hge]; [apply wp_ret, wp_ret; exists a; split; [apply k_sleep; left; lia|done]|].
  destruct (negb has && negb mem) eqn:Em; [apply wp_ret, wp_ret; exists a; split; [apply k_sleep; right; right; by destruct has, mem|done]|]. apply wp_bind, wp_modify. cbn [ks_own ks_lib ks_ctx ks_tasks ks_blocks ks_woken ks_bad_frees].
  change (Z.to_nat 9600) with CHUNK. apply wp_bind, wp_on_ring. eapply (ring_call _ (fun x => x) _ (RRead (replicate CHUNK 0) 9600)); [exact Hr'|exact HQ|split; [lia|rewrite length_replicate; lia]| |].
  { cbn [exec_rop]. unfold bind, ret. match goal with |- ?x = _ => by destruct x as [[]| |] end. }
  cbn [spec_rop fst snd q_cap q_bytes]. unfold q_used. cbn [q_bytes]. rewrite Z.min_l by lia. replace (Z.to_nat 9600) with CHUNK by lia. intros [r d] o' [= -> ->] Ho'. rewrite drop_replicate, Nat.sub_diag, app_nil_r. rewrite (proj2 (Z.eqb_neq _ 0)) by done.
  apply wp_bind, wp_on_module. cbn [ks_own ks_lib ks_ctx ks_tasks ks_blocks ks_woken ks_bad_frees snd]. eapply wp_mono; [by apply km_process_ok|]. cbv beta. intros flags k [Hk Hkl]. apply wp_bind. eapply wp_mono; [apply results_spec|]. cbv beta. cbn [ks_own ks_lib ks_ctx ks_tasks ks_blocks ks_woken ks_bad_frees]. intros _ s' ->. apply wp_ret, wp_ret.
  eexists. split; [apply (k_chunk n a i mem has flags); [done|by destruct has, mem|lia]|]. unfold pending in *. rewrite length_drop in Hge. split; cbn [ks_own ks_lib ks_ctx ks_tasks ks_woken st_in st_log st_cb st_woken st_tasks]; [|done|exact Hk|exact H4|by rewrite H4, H5|by rewrite H6|by rewrite Hkl, H8|rewrite length_app; cbn [length]; nia]. eexists. split; [exact Ho'|]. rewrite lookup_insert_eq. do 2 f_equal. unfold pending. cbn [st_in st_log]. rewrite drop_drop, length_app. cbn [length]. f_equal. nia.
Qed.

Lemma kstep_ok n a o s : krep n a s -> kallowed a o -> wp (kexec o) (fun r s' => exists a', kstep n a o r a' /\ krep n a' s') s.
Proof.
  intros Hrep Hal. destruct o as [mic frames|i mem|cb]; [by apply kws_feed_step|by apply task_step|]. cbn [kexec]. apply wp_bind. unfold tkl_kws_reg_wakeup_cb. apply wp_bind, wp_modify, wp_ret, wp_ret. eexists. split; [constructor|]. by destruct Hrep; split.
Qed.

(** *** The chunks of a history *)

Definition got (h : list (kop * kres)) : list (list Z) := omap (fun x => match x.2 with KChunk c => c | _ => None end) h.

Lemma runs_stream n a h a' : runs (kstep n) a h a' -> (n <= length (st_log a) /\ (length (st_log a) - n) * CHUNK <= length (st_in a))%nat ->
  exists new log, st_in a' = st_in a ++ new /\ st_log a' = st_log a ++ log /\ log.*1 = got h /\ concat (got h) ++ pending n a' = pending n a ++ new /\ Forall (fun c => length c = CHUNK) (got h).
Proof.
  induction 1 as [a|a o r a1 h a2 Hst Hruns IH]; intros Hc; [exists [], []; by rewrite !app_nil_r|]. inversion Hst; subst; cbn [got omap list_omap snd] in *; cbn [st_in st_log] in *.
  - destruct IH as (new & log & E1 & E2 & E3 & E4 & HF); [rewrite length_app; lia|]. eexists _, log. split; [by rewrite E1, <-app_assoc|]. split; [done|]. split; [done|]. split; [|done]. unfold got in E4. rewrite E4. unfold pending at 1. cbn. rewrite drop_app_le by lia. by rewrite <-app_assoc.
  - by apply IH.
  - by apply IH.
  - unfold pending in *. rewrite length_drop in *. rewrite length_app in IH. cbn [length] in IH. destruct IH as (new & log & E1 & E2 & E3 & E4 & HF); [nia|]. exists new, ((take CHUNK (drop ((length (st_log a) - n) * CHUNK) (st_in a)), flags) :: log). split; [done|]. split; [by rewrite E2, <-app_assoc|]. split; [cbn; by rewrite E3|]. split.
    + cbn [concat]. rewrite <-app_assoc. unfold got in E4. rewrite E4. rewrite app_assoc. f_equal. cbn [st_in st_log]. rewrite length_app. cbn [length]. replace ((length (st_log a) + 1 - n) * CHUNK)%nat with ((length (st_log a) - n) * CHUNK + CHUNK)%nat by nia. rewrite <-drop_drop. apply take_drop.
    + constructor; [|done]. rewrite length_take, length_drop. lia.
  - by apply IH.
Qed.

(** C14: a detector that was initialised gets the sound without gaps: for every sequence
    of pieces from the sound card, turns of its threads and changes of the callback, no
    call faults, each piece is taken whole when it fits into the two seconds of the ring
    buffer and left whole when not; a thread gives a chunk to the module in each turn in
    which one is there, unless it has no memory for it, and the chunks the module got, as
    its own log has them, have 300 milliseconds each and are, one after the other and
    followed by what is pending, exactly the sound taken; for each result of the module
    that is 1 the callback of that moment is called once, and never otherwise. *)
Theorem kws_chunks_in_order n cl a s : krep n a s -> follows (kstep n) kallowed a cl ->
  wp (exec kexec cl) (fun h s' => exists a' new log, history_of cl h /\ runs (kstep n) a h a' /\ krep n a' s' /\ st_in a' = st_in a ++ new /\
    km_log (ks_lib s') = km_log (ks_lib s) ++ log /\ log.*1 = got h /\
    concat (got h) ++ pending n a' = pending n a ++ new /\ Forall (fun c => Z.of_nat (length c) = MODEL_CHUNK_SIZE) (got h)) s.
Proof.
  intros Hrep Hf. eapply wp_mono; [by eapply (client_refines kexec (kstep n) kallowed (krep n) (kstep_ok n))|]. cbv beta. intros h s' (a' & Hh & Hr & Hrep'). destruct (runs_stream _ _ _ _ Hr (kr_chunks _ _ _ Hrep)) as (new & log & E1 & E2 & E3 & E4 & HF). exists a', new, log.
  split; [done|]. split; [done|]. split; [done|]. split; [done|]. split; [by rewrite (kr_log _ _ _ Hrep'), (kr_log _ _ _ Hrep)|]. split; [done|]. split; [done|]. eapply Forall_impl; [exact HF|]. cbv beta. intros c ->. exact CHUNK_eq.
Qed.

(** *** Initialisation and its end *)

Lemma free_block_spec p s : wp (free_block p) (fun _ s' => ks_own s' = ks_own s /\ ks_ctx s' = ks_ctx s /\ ks_tasks s' = ks_tasks s /\ ks_lib s' = ks_lib s /\ p ∉ ks_blocks s' /\
  ks_bad_frees s' = ks_bad_frees s ++ (if decide (p ∈ ks_blocks s) then [] else [p])) s.
Proof. apply wp_modify. destruct (decide (p ∈ ks_blocks s)); cbn; split_and!; try done; [set_solver|by rewrite app_nil_r]. Qed.

Lemma kws_deinit_spec s : kc_module (ks_ctx s) <> 0 -> km_live (ks_lib s) = true ->
  wp tkl_kws_deinit (fun r s' => r = OPRT_OK /\ ks_own s' = ks_own s /\ ks_ctx s' = with_module 0 (ks_ctx s) /\ ks_tasks s' = ks_tasks s /\
    (kc_thread (ks_ctx s) <> 0 -> kc_thread (ks_ctx s) ∈ ks_blocks s -> ks_bad_frees s' = ks_bad_frees s ++ [kc_thread (ks_ctx s)])) s.
Proof.
  intros Hm Hl. unfold tkl_kws_deinit. apply wp_bind, wp_gets. rewrite (proj2 (Z.eqb_neq _ 0)) by done. destruct (Z.eqb_spec (kc_thread (ks_ctx s)) 0) as [Ht|Ht]; cbn [negb when].
  - do 2 apply wp_bind, wp_ret. apply wp_bind, wp_on_module. eapply wp_mono; [by apply km_destroy_ok|]. cbv beta. intros _ k _. by apply wp_bind, wp_modify, wp_ret.
  - apply wp_bind. eapply wp_mono; [apply free_block_spec|]. cbv beta. intros _ s1 (E1 & E2 & E3 & E4 & E5 & E6). apply wp_bind. eapply wp_mono; [apply free_block_spec|]. cbv beta. intros _ s2 (F1 & F2 & F3 & F4 & F5 & F6). rewrite decide_False in F6 by done.
    apply wp_bind, wp_on_module. rewrite F4, E4. eapply wp_mono; [by apply km_destroy_ok|]. cbv beta. intros _ k _. apply wp_bind, wp_modify, wp_ret. cbn [ks_own ks_lib ks_ctx ks_tasks ks_blocks ks_woken ks_bad_frees]. rewrite F1, E1, F2, E2, F3, E3. do 4 (split; [done|]). intros _ Hin. rewrite decide_True in E6 by done. by rewrite F6, E6, app_nil_r.
Qed.

(** A successful initialisation makes such a detector, with one thread more if one could be
    made. *)
Theorem kws_init_ready env thread s Q : rings_rep (ks_own s) Q ->
  wp (tkl_kws_init env thread) (fun r s' => (r = inr OPRT_OK -> krep (length (km_log (ks_lib s))) (Stream [] (km_log (ks_lib s)) (kc_wakeup_cb (ks_ctx s)) (ks_woken s) (ks_tasks s ++ (if thread then [false] else []))) s' /\
    (forall h, thread = Some h -> kc_thread (ks_ctx s') = h /\ h ∈ ks_blocks s'))) s.
Proof.
  intros Hr. unfold tkl_kws_init. cbv zeta. apply wp_bind, wp_on_ring. eapply wp_mono; [by eapply ring_create_spec|]. cbv beta. intros r o [[-> _]|(p & -> & Hp & _ & Hr')]; cbn [fst snd]; [rewrite bool_decide_true by done; by apply wp_ret|].
  rewrite bool_decide_false by (intros Hx; by apply Hx). apply wp_bind, wp_modify, wp_bind, wp_modify. cbn [ks_own ks_lib ks_ctx ks_tasks ks_blocks ks_woken ks_bad_frees]. apply wp_bind, wp_on_module. eapply wp_mono; [apply km_create_ok|]. cbv beta. intros e k [Hk Hkl]. destruct (Z.ltb_spec e 0); [by apply wp_ret|]. rewrite (proj2 (Z.leb_le 0 e)) in Hk by done.
  apply wp_bind, wp_on_module. eapply wp_mono; [by apply km_callback_ok|]. cbv beta. cbn [ks_own ks_lib ks_ctx ks_tasks ks_blocks ks_woken ks_bad_frees]. intros err k' [Hk' Hkl']. destruct (Z.eqb_spec err 0) as [->|He]; cbn [negb].
  - apply wp_bind. destruct thread as [h|]; [apply wp_modify|apply wp_ret]; apply wp_ret; intros _; (split; [cbn in Hkl; split; cbn; try done; try congruence; try lia; try (by rewrite app_nil_r); eexists; (split; [exact Hr'|]); rewrite lookup_insert_eq; unfold pending; cbn [st_log st_in]; by rewrite drop_nil|]); [|done].
    intros h' [= <-]. split; [done|]. cbn. set_solver.
  - apply wp_bind. eapply wp_mono; [by apply kws_deinit_spec|]. cbv beta. intros r s' _. by apply wp_ret.
Qed.

(** [tkl_kws_deinit] of a detector with a thread releases the block of the thread
    twice, once as a ring buffer, and leaves the ring buffer allocated and the thread
    running: when a chunk is pending, its next turn uses the module through a null
    pointer. *)
Theorem kws_deinit_unsafe n a s i : krep n a s -> kc_thread (ks_ctx s) <> 0 -> kc_thread (ks_ctx s) ∈ ks_blocks s -> (i < length (st_tasks a))%nat -> MODEL_CHUNK_SIZE <= Z.of_nat (length (pending n a)) ->
  wp tkl_kws_deinit (fun r s' => r = OPRT_OK /\ ks_bad_frees s' = ks_bad_frees s ++ [kc_thread (ks_ctx s)] /\ is_Some (o_objs (ks_own s') !! kc_ring (ks_ctx s')) /\
    __tkl_kws_task i true s' = Fault) s.
Proof.
  intros [(Q & Hr & HQ) H2 H3 H4 H5 H6 H8 H7] Ht Hb Hi Hlen. eapply wp_mono; [by apply kws_deinit_spec|]. cbv beta. intros r s' (-> & E1 & E2 & E3 & E4). split; [done|]. split; [by apply E4|]. rewrite E1, E2. cbn [with_module kc_ring].
  split; [pose proof (rr_rings _ _ Hr (kc_ring (ks_ctx s))) as Hx; rewrite HQ in Hx; by inversion Hx|].
  assert (is_Some (ks_tasks s' !! i)) as [has Ei] by (apply lookup_lt_is_Some; by rewrite E3, H6). unfold __tkl_kws_task, bind at 1, gets at 1. rewrite Ei. unfold bind at 1, gets at 1. rewrite E2. cbn [with_module kc_ring kc_module].
  assert (wp (tuya_ring_buff_used_size_get (kc_ring (ks_ctx s))) (fun r o => r = Z.of_nat (length (pending n a)) /\ rings_rep o Q) (ks_own s')) as Hu by (rewrite E1; eapply (ring_sizes _ _ _ _ (fun _ _ => True)); [exact Hr|exact HQ|done|done]).
  unfold bind at 1, on_ring at 1. unfold wp in Hu. destruct (tuya_ring_buff_used_size_get _ _) as [u o| |]; [|done..]. destruct Hu as [-> Hr']. rewrite (proj2 (Z.ltb_ge _ _)) by done. rewrite andb_false_r. unfold bind at 1, set_tasks, modify. cbn [ks_own ks_lib ks_ctx ks_tasks ks_blocks ks_woken ks_bad_frees].
  unfold bind, on_ring. cbn [ks_own]. destruct (tuya_ring_buff_read _ _ _ _) as [x o'| |] eqn:E; [done|done|]. exfalso.
  pose proof (exec_rop_ok o Q _ _ (RRead (replicate (Z.to_nat MODEL_CHUNK_SIZE) 0) MODEL_CHUNK_SIZE) Hr' HQ) as Hx. cbn [exec_rop] in Hx. unfold wp in Hx. rewrite E in Hx. apply Hx. split; [done|]. rewrite length_replicate. done.
Qed.
End Kws.

(** ** Paths *)

(** The result always fits, and it is the whole path below the home directory when that is
    known and short enough. *)
Theorem expand_user_path_correct home rest dst n : 0 < n ->
  (forall src, exists p, __expand_user_path home (Some src) (Some dst) n = Some p /\ Z.of_nat (length p) < n) /\
  (forall h, home = Some h -> h <> [] -> Z.of_nat (length h + length rest) + 1 < n -> __expand_user_path home (Some (126 :: 47 :: rest)) (Some dst) n = Some (h ++ 47 :: rest)).
Proof.
  intros Hn. assert (forall t, Z.of_nat (length (snprintf_fit n t)) < n) as Hfit by (intros t; unfold snprintf_fit; rewrite length_take; lia). split.
  - intros src. unfold __expand_user_path. rewrite (proj2 (Z.eqb_neq n 0)) by lia. repeat case_match; eauto.
  - intros h -> Hh Hl. unfold __expand_user_path. rewrite (proj2 (Z.eqb_neq n 0)) by lia. destruct h as [|c h]; [done|]. f_equal. unfold snprintf_fit. apply take_ge. cbn [length] in Hl. rewrite length_app. cbn [length]. lia.
Qed.

(** ** A module *)

(** The keyword is a chunk whose first byte is 1. *)
Definition demo_km : Type := bool * list (list Z * list Z).
#[export] Instance demo_module : KwsModule demo_km.
Proof.
  refine {|
    km_create p t k := Ret 0 (true, k.2);
    km_set_callback k := Ret 0 k;
    km_process c k := let flags := [match c with 1 :: _ => 1 | _ => 0 end] in Ret flags (k.1, k.2 ++ [(c, flags)]);
    km_destroy k := Ret tt (false, k.2);
    km_live k := k.1;
    km_log k := k.2 |}; done.
Defined.

#[local] Instance demo_allocator : Allocator arena := arena_allocator.

Definition kws_demo0 : ksys arena demo_km := KSys (Own arena0 ∅) (false, []) (mkKws 0 0 0 0) [] ∅ [] [].
Definition kws_env0 : kws_env := mkEnv None None (Some [47; 104]).
Definition kws_demo1 : ksys arena demo_km := match tkl_kws_init kws_env0 (Some 77) kws_demo0 with Ret _ s => s | _ => kws_demo0 end.

Lemma kws_demo1_ok : krep 0 (Stream [] [] 0 [] [false]) kws_demo1 /\ kc_thread (ks_ctx kws_demo1) = 77 /\ 77 ∈ ks_blocks kws_demo1.
Proof.
  assert (rings_rep (ks_own kws_demo0) ∅) as Hr by (split; [apply arena0_owned|done|intros p; rewrite !lookup_empty; constructor]).
  destruct (proj1 (wp_run _ _ _) (kws_init_ready kws_env0 (Some 77) kws_demo0 ∅ Hr)) as (r & s' & E & Hres). unfold kws_demo1.
  assert (match tkl_kws_init kws_env0 (Some 77) kws_demo0 with Ret r _ => r | _ => inl 0 end = inr OPRT_OK) as Eok by (by vm_compute).
  rewrite E in Eok |- *. destruct (Hres Eok) as [H1 H2]. split; [exact H1|]. by apply H2.
Qed.

(** A piece of 300 milliseconds; the thread takes one chunk. *)
Definition kws_piece : list Z := replicate CHUNK 1.
Definition kws_demo_client : client kop kres :=
  Call (KReg 5) (fun _ => Call (KFeed kws_piece 4800) (fun _ => Call (KTask 0 true) (fun _ => Call (KTask 0 true) (fun _ => Stop)))).

Lemma kws_piece_ok a : kallowed a (KFeed kws_piece 4800).
Proof. pose proof CHUNK_eq. split; [lia|]. unfold kws_piece. rewrite length_replicate. lia. Qed.

Lemma kws_chunks_in_order_witness :
  wp (exec kexec kws_demo_client) (fun h s' => exists a' new log, history_of kws_demo_client h /\ runs (kstep 0) (Stream [] [] 0 [] [false]) h a' /\ krep 0 a' s' /\ st_in a' = [] ++ new /\
    km_log (ks_lib s') = km_log (ks_lib kws_demo1) ++ log /\ log.*1 = got h /\ concat (got h) ++ pending 0 a' = pending 0 (Stream [] [] 0 [] [false]) ++ new /\ Forall (fun c => Z.of_nat (length c) = MODEL_CHUNK_SIZE) (got h)) kws_demo1.
Proof.
  refine (kws_chunks_in_order 0 kws_demo_client (Stream [] [] 0 [] [false]) kws_demo1 (proj1 kws_demo1_ok) _). split; [done|]. intros r1 a1 _. split; [apply kws_piece_ok|]. done.
Defined.

(** One chunk, one wake-up, and then nothing. *)
Example kws_demo_woken :
  match exec kexec kws_demo_client kws_demo1 with
  | Ret h s => (Z.of_nat <$> (length <$> got h), ks_woken s) = ([9600], [(5, TKL_KWS_WAKEUP_NIHAO_TUYA)])
  | _ => False
  end.
Proof. by vm_compute. Qed.

(** With a chunk pending. *)
Definition kws_demo2 : ksys arena demo_km := match kexec (KFeed kws_piece 4800) kws_demo1 with Ret _ s => s | _ => kws_demo1 end.
Lemma kws_demo2_ok : krep 0 (Stream kws_piece [] 0 [] [false]) kws_demo2.
Proof.
  pose proof CHUNK_eq as HC. destruct kws_demo1_ok as [H1 _]. destruct (proj1 (wp_run _ _ _) (kws_feed_step 0 _ kws_demo1 kws_piece 4800 H1 (kws_piece_ok _))) as (r & s' & E & a' & Hst & Hrep). unfold kws_demo2. rewrite E.
  assert (take (Z.to_nat (2 * 4800)) kws_piece = kws_piece) as Et by (apply take_ge; unfold kws_piece; rewrite length_replicate; lia). inversion Hst; subst; cbn [st_in st_log st_cb st_woken st_tasks app] in Hrep; [by rewrite Et in Hrep|].
  match goal with H : KWS_RING_BUFF_LEN <= _ |- _ => by destruct H end.
Qed.

Lemma kws_deinit_unsafe_witness :
  wp tkl_kws_deinit (fun r s' => r = OPRT_OK /\ ks_bad_frees s' = ks_bad_frees kws_demo2 ++ [kc_thread (ks_ctx kws_demo2)] /\ is_Some (o_objs (ks_own s') !! kc_ring (ks_ctx s')) /\ __tkl_kws_task 0 true s' = Fault) kws_demo2.
Proof.
  assert (kc_thread (ks_ctx kws_demo2) = 77) as E by (by vm_compute). assert (bool_decide (77 ∈ ks_blocks kws_demo2) = true) as Eb by (by vm_compute).
  refine (kws_deinit_unsafe 0 (Stream kws_piece [] 0 [] [false]) kws_demo2 0 kws_demo2_ok _ _ _ _); [by rewrite E|rewrite E; by apply bool_decide_eq_true in Eb|cbn; lia|]. pose proof CHUNK_eq. unfold pending, kws_piece. cbn [st_log st_in length Nat.sub Nat.mul]. rewrite drop_0, length_replicate, CHUNK_eq. done.
Defined.
