(* ===== verification/TklWired.v ===== *)
(** * Wired network: [src/tkl_wired.c]

    The state of the wired link is that of the network interfaces other than the loopback:
    the file asks the kernel for their names and, through a socket, for the flags and the
    addresses of each.  A thread asks every three seconds and tells the application when
    the answer has changed.  The kernel is a parameter, the class [Ifaces]; it may change
    between the calls but not during one. *)

From S2P Require Import Prelude.

Inductive TKL_WIRED_STAT_E := TKL_WIRED_LINK_DOWN | TKL_WIRED_LINK_UP.
#[export] Instance stat_eq : EqDecision TKL_WIRED_STAT_E.
Proof. solve_decision. Defined.

Definition IFF_UP : Z := 0x1.
Definition IFNAMSIZ : Z := 16.

(** What the file asks of the kernel, and what answers it: the names, the flags and the
    addresses of the interfaces, and whether a socket can be had.  What has been opened
    and allocated is counted. *)
Class Ifaces (K : Type) := {
  if_nameindex : M K (option (list (list Z)));
  if_freenameindex : M K unit;
  if_socket : M K Z;
  if_close : Z -> M K unit;
  if_flags : Z -> list Z -> M K (option Z);
  if_addr : Z -> list Z -> M K (option (list Z));
  if_netmask : Z -> list Z -> M K (option (list Z));
  k_names : K -> option (list (list Z));
  k_flags : K -> list Z -> option Z;
  k_addr : K -> list Z -> option (list Z);
  k_netmask : K -> list Z -> option (list Z);
  k_sockets : K -> bool;
  k_open : K -> gset Z;
  k_lists : K -> nat;
  (** The answers do not change. *)
  k_same (k k' : K) : Prop := k_names k' = k_names k /\ k_flags k' = k_flags k /\ k_addr k' = k_addr k /\ k_netmask k' = k_netmask k /\ k_sockets k' = k_sockets k;
  k_names_short k l : k_names k = Some l -> Forall (fun n => Z.of_nat (length n) < IFNAMSIZ) l;
  nameindex_ok k : wp if_nameindex (fun r k' => r = k_names k /\ k_same k k' /\ k_open k' = k_open k /\ k_lists k' = (k_lists k + (if k_names k then 1 else 0))%nat) k;
  freenameindex_ok k n : k_lists k = S n -> wp if_freenameindex (fun _ k' => k_same k k' /\ k_open k' = k_open k /\ k_lists k' = n) k;
  socket_ok k : wp if_socket (fun fd k' => k_same k k' /\ k_lists k' = k_lists k /\
    if k_sockets k then 0 <= fd /\ fd ∉ k_open k /\ k_open k' = {[fd]} ∪ k_open k else fd = -1 /\ k_open k' = k_open k) k;
  close_ok fd k : fd ∈ k_open k -> wp (if_close fd) (fun _ k' => k_same k k' /\ k_lists k' = k_lists k /\ k_open k' = k_open k ∖ {[fd]}) k;
  flags_ok fd n k : fd ∈ k_open k -> wp (if_flags fd n) (fun r k' => r = k_flags k n /\ k_same k k' /\ k_lists k' = k_lists k /\ k_open k' = k_open k) k;
  addr_ok fd n k : fd ∈ k_open k -> wp (if_addr fd n) (fun r k' => r = k_addr k n /\ k_same k k' /\ k_lists k' = k_lists k /\ k_open k' = k_open k) k;
  netmask_ok fd n k : fd ∈ k_open k -> wp (if_netmask fd n) (fun r k' => r = k_netmask k n /\ k_same k k' /\ k_lists k' = k_lists k /\ k_open k' = k_open k) k
}.

(** The variables of the file, the last status of the thread, and the callbacks made. *)
Record wired := mkWired { wi_event_cb : Z; wi_thread : Z; wi_last : option TKL_WIRED_STAT_E; wi_events : list (Z * TKL_WIRED_STAT_E) }.
Record wsys (K : Type) := WSys { ws_net : K; ws_wired : wired }.
Arguments WSys {K}. Arguments ws_net {K}. Arguments ws_wired {K}.

(** The result of [strncmp] of C strings is zero on a common beginning. *)
Definition LO : list Z := [108; 111].
Definition LOOPBACK : list Z := [108; 111; 111; 112; 98; 97; 99; 107].
Definition is_loopback_interface (if_name : list Z) : bool :=
  bool_decide (if_name = LO) || bool_decide (take 8 if_name = LOOPBACK).

Section Wired.
Context {K : Type} `{!Ifaces K}.
Local Abbreviation W := (M (wsys K)).

Definition on_net {R} (c : M K R) : W R := fun s =>
  match c (ws_net s) with Ret r k => Ret r (WSys k (ws_wired s)) | Fault => Fault | Diverge => Diverge end.
Definition upd (f : wired -> wired) : W unit := modify (fun s => WSys (ws_net s) (f (ws_wired s))).
Definition event (stat : TKL_WIRED_STAT_E) : W unit := upd (fun w => mkWired (wi_event_cb w) (wi_thread w) (wi_last w) (wi_events w ++ [(wi_event_cb w, stat)])).

(** The result and, on success, the status. *)
Definition __tkl_wired_get_status_by_name (if_name : list Z) : W (OPERATE_RET * option TKL_WIRED_STAT_E) :=
  sockfd <- on_net if_socket ;;
  if sockfd <? 0 then ret (OPRT_SOCK_ERR, None)
  else
    (* strncpy of the whole name *)
    when (IFNAMSIZ <? Z.of_nat (length if_name)) fault ;;;
    r <- on_net (if_flags sockfd if_name) ;;
    match r with
    | None => on_net (if_close sockfd) ;;; ret (OPRT_COM_ERROR, None)
    | Some flags =>
      on_net (if_close sockfd) ;;;
      ret (OPRT_OK, Some (if negb (Z.land flags IFF_UP =? 0) then TKL_WIRED_LINK_UP else TKL_WIRED_LINK_DOWN))
    end.

(** The loop over the names of [tkl_wired_get_status] and [tkl_wired_set_status_cb]. *)
Fixpoint names_loop (names : list (list Z)) (status : TKL_WIRED_STAT_E) : W TKL_WIRED_STAT_E :=
  match names with
  | [] => ret status
  | n :: names =>
    if is_loopback_interface n then names_loop names status
    else
      r <- __tkl_wired_get_status_by_name n ;;
      match r with
      | (OPRT_OK, Some TKL_WIRED_LINK_UP) => ret TKL_WIRED_LINK_UP
      | (OPRT_OK, Some if_status) => names_loop names if_status
      | _ => names_loop names status
      end
  end.

Definition tkl_wired_get_status : W (OPERATE_RET * TKL_WIRED_STAT_E) :=
  name_list <- on_net if_nameindex ;;
  match name_list with
  | None => ret (OPRT_NOT_FOUND, TKL_WIRED_LINK_DOWN)
  | Some names =>
    status <- names_loop names TKL_WIRED_LINK_DOWN ;;
    on_net if_freenameindex ;;;
    ret (OPRT_OK, status)
  end.

(** One turn of the loop of the thread, up to its sleep. *)
Definition wifi_status_event_cb : W TKL_WIRED_STAT_E :=
  r <- tkl_wired_get_status ;;
  w <- gets ws_wired ;;
  when (negb (bool_decide (wi_last w = Some (snd r)))) (
    when (wi_event_cb w =? 0) fault ;;;
    event (snd r) ;;;
    upd (fun w => mkWired (wi_event_cb w) (wi_thread w) (Some (snd r)) (wi_events w))) ;;;
  ret (snd r).

(** [thread]: an error number of [pthread_create], or the new thread. *)
Definition tkl_wired_set_status_cb (cb : Z) (thread : Z + Z) : W (Z + OPERATE_RET) :=
  if negb (cb =? 0) then
    name_list <- on_net if_nameindex ;;
    match name_list with
    | None => ret (inr OPRT_NOT_FOUND)
    | Some names =>
      status <- names_loop names TKL_WIRED_LINK_DOWN ;;
      on_net if_freenameindex ;;;
      upd (fun w => mkWired cb (wi_thread w) (wi_last w) (wi_events w)) ;;;
      w <- gets ws_wired ;;
      err <- (if wi_thread w =? 0 then
          match thread with
          | inl e => ret e
          | inr t => upd (fun w => mkWired (wi_event_cb w) t None (wi_events w)) ;;; ret 0
          end
        else ret 0) ;;
      if negb (err =? 0) then ret (inl err)
      else event status ;;; ret (inr OPRT_OK)
    end
  else ret (inr OPRT_OK).

(** The result, and what was written into the address and the mask. *)
Definition __tkl_wired_get_ip_by_name (if_name : list Z) (ip : list Z * list Z) : W (OPERATE_RET * (list Z * list Z)) :=
  sock <- on_net if_socket ;;
  if sock =? -1 then ret (OPRT_COM_ERROR, ip)
  else
    let ifr_name := take 15 if_name in
    r <- on_net (if_addr sock ifr_name) ;;
    match r with
    | None => on_net (if_close sock) ;;; ret (OPRT_COM_ERROR, ip)
    | Some a =>
      r <- on_net (if_netmask sock ifr_name) ;;
      match r with
      | None => on_net (if_close sock) ;;; ret (OPRT_COM_ERROR, (a, snd ip))
      | Some m => on_net (if_close sock) ;;; ret (OPRT_OK, (a, m))
      end
    end.

Definition tkl_wired_set_ip (ip : list Z * list Z) : W OPERATE_RET := ret OPRT_NOT_SUPPORTED.

Fixpoint ip_loop (names : list (list Z)) (ip : list Z * list Z) : W (OPERATE_RET * (list Z * list Z)) :=
  match names with
  | [] => ret (OPRT_NOT_FOUND, ip)
  | n :: names =>
    if is_loopback_interface n then ip_loop names ip
    else
      r <- __tkl_wired_get_status_by_name n ;;
      match r with
      | (OPRT_OK, Some TKL_WIRED_LINK_UP) =>
        x <- __tkl_wired_get_ip_by_name n ip ;;
        match x with
        | (OPRT_OK, ip) => ret (OPRT_OK, ip)
        | (_, ip) => ip_loop names ip
        end
      | _ => ip_loop names ip
      end
  end.

Definition tkl_wired_get_ip (ip : list Z * list Z) : W (OPERATE_RET * (list Z * list Z)) :=
  name_list <- on_net if_nameindex ;;
  match name_list with
  | None => ret (OPRT_NOT_FOUND, ip)
  | Some names =>
    r <- ip_loop names ip ;;
    on_net if_freenameindex ;;;
    ret r
  end.

Definition tkl_wired_get_mac : W (OPERATE_RET * list Z) := ret (OPRT_OK, [0xc8; 0x5b; 0x76; 0x4d; 0x75; 0xcd]).
Definition tkl_wired_set_mac (mac : list Z) : W OPERATE_RET := ret OPRT_OK.

(** ** What the answers mean *)

Definition if_status (k : K) (n : list Z) : option TKL_WIRED_STAT_E :=
  if k_sockets k then (fun f => if Z.testbit f 0 then TKL_WIRED_LINK_UP else TKL_WIRED_LINK_DOWN) <$> k_flags k n else None.
Definition up (k : K) (n : list Z) : bool := negb (is_loopback_interface n) && bool_decide (if_status k n = Some TKL_WIRED_LINK_UP).
Definition link (k : K) (names : list (list Z)) : TKL_WIRED_STAT_E := if existsb (up k) names then TKL_WIRED_LINK_UP else TKL_WIRED_LINK_DOWN.
Definition link_status (k : K) : TKL_WIRED_STAT_E := link k (default [] (k_names k)).
(** Its address and mask, when both are known. *)
Definition ip_of (k : K) (n : list Z) : option (list Z * list Z) := a ← k_addr k n; m ← k_netmask k n; Some (a, m).
Fixpoint first_ip (k : K) (names : list (list Z)) : option (list Z * list Z) :=
  match names with
  | [] => None
  | n :: names => match (if up k n then ip_of k n else None) with Some x => Some x | None => first_ip k names end
  end.

(** Nothing is left open and the answers are as before. *)
Definition clean (k k' : K) : Prop := k_same k k' /\ k_open k' = k_open k /\ k_lists k' = k_lists k.

Lemma clean_refl k : clean k k.
Proof. by repeat split. Qed.
Lemma same_trans k1 k2 k3 : k_same k1 k2 -> k_same k2 k3 -> k_same k1 k3.
Proof. intros (? & ? & ? & ? & ?) (? & ? & ? & ? & ?). split_and!; congruence. Qed.
Lemma clean_trans k1 k2 k3 : clean k1 k2 -> clean k2 k3 -> clean k1 k3.
Proof. intros (H1 & ? & ?) (H2 & ? & ?). split; [by eapply same_trans|]. split; congruence. Qed.
#[local] Hint Resolve clean_refl : core.

Lemma clean_status k k' : clean k k' -> if_status k' = if_status k /\ up k' = up k /\ ip_of k' = ip_of k /\ k_names k' = k_names k.
Proof. intros ((E1 & E2 & E3 & E4 & E5) & _). unfold up, if_status, ip_of. by rewrite E1, E2, E3, E4, E5. Qed.

Lemma wp_on_net {R} (c : M K R) Q s : wp c (fun r k => Q r (WSys k (ws_wired s))) (ws_net s) -> wp (on_net c) Q s.
Proof. unfold wp, on_net. by destruct (c (ws_net s)). Qed.

(** A socket that is opened and closed again around a conversation. *)
Lemma closing s fd k0 (k : K) (Q : unit -> wsys K -> Prop) : k_same k0 k -> k_lists k = k_lists k0 -> fd ∉ k_open k0 -> k_open k = {[fd]} ∪ k_open k0 -> ws_net s = k ->
  (forall k', clean k0 k' -> Q tt (WSys k' (ws_wired s))) -> wp (on_net (if_close fd)) Q s.
Proof.
  intros H1 H2 H3 H4 <- HQ. apply wp_on_net. eapply wp_mono; [apply close_ok; rewrite H4; set_solver|]. cbv beta. intros [] k' (E1 & E2 & E3). apply HQ. split; [by eapply same_trans|]. split; [rewrite E3, H4; set_solver|congruence].
Qed.

Lemma land_up f : negb (Z.land f IFF_UP =? 0) = Z.testbit f 0.
Proof.
  unfold IFF_UP. change 1 with (Z.ones 1). rewrite Z.land_ones by lia. change (2 ^ 1) with 2. rewrite <-Z.bit0_mod. by destruct (Z.testbit f 0).
Qed.

Lemma status_by_name_spec s n : Z.of_nat (length n) < IFNAMSIZ ->
  wp (__tkl_wired_get_status_by_name n) (fun r s' => clean (ws_net s) (ws_net s') /\ ws_wired s' = ws_wired s /\ (fst r = OPRT_OK <-> is_Some (snd r)) /\ snd r = if_status (ws_net s) n) s.
Proof.
  intros Hn. unfold __tkl_wired_get_status_by_name, if_status. apply wp_bind, wp_on_net. eapply wp_mono; [apply socket_ok|]. cbv beta. intros fd k (Es & El & Hfd). destruct (k_sockets (ws_net s)).
  - destruct Hfd as (Hfd & Hnew & Eo). rewrite (proj2 (Z.ltb_ge fd 0)) by done. rewrite (proj2 (Z.ltb_ge IFNAMSIZ _)) by lia. apply wp_bind, wp_ret, wp_bind, wp_on_net. eapply wp_mono; [apply flags_ok; cbn; rewrite Eo; set_solver|]. cbv beta. cbn [ws_net ws_wired].
    intros r k' (-> & Es' & El' & Eo'). assert (k_flags k n = k_flags (ws_net s) n) as -> by (by destruct Es as (_ & -> & _)). destruct (k_flags (ws_net s) n) as [f|]; cbn [fmap option_fmap option_map]; apply wp_bind;
      (eapply (closing _ fd (ws_net s) k'); [by eapply same_trans|congruence|done|congruence|done|]); intros k'' Hc; apply wp_ret; cbn [ws_net ws_wired fst snd]; (split; [done|]); (split; [done|]); [rewrite land_up|]; (split; [|done]); split; intros H; try done; by destruct H.
  - destruct Hfd as [-> Eo]. apply wp_ret. cbn [fst snd ws_net ws_wired]. split; [by split|]. split; [done|]. split; [|done]. split; [done|]. by intros [].
Qed.

Lemma link_cons k n names : link k (n :: names) = if up k n then TKL_WIRED_LINK_UP else link k names.
Proof. unfold link. cbn [existsb]. by destruct (up k n). Qed.

Lemma wired_loop_spec k0 names : Forall (fun n => Z.of_nat (length n) < IFNAMSIZ) names -> forall s, clean k0 (ws_net s) ->
  wp (names_loop names TKL_WIRED_LINK_DOWN) (fun r s' => r = link k0 names /\ clean k0 (ws_net s') /\ ws_wired s' = ws_wired s) s.
Proof.
  induction 1 as [|n names Hn Hns IH]; intros s Hs; cbn [names_loop]; [by apply wp_ret|]. rewrite link_cons. unfold up. destruct (is_loopback_interface n); cbn [negb andb]; [by apply IH|]. apply wp_bind. eapply wp_mono; [by apply status_by_name_spec|]. cbv beta.
  intros [r o] s' (Hc & Ew & Hiff & E). cbn [fst snd] in *. destruct (clean_status _ _ Hs) as (Est & _). rewrite Est in E. subst o. pose proof (clean_trans _ _ _ Hs Hc) as Hs'. rewrite <-Ew.
  destruct (if_status k0 n) as [[]|]; [| |rewrite bool_decide_false by done; destruct r; try (by apply IH); by destruct (proj1 Hiff eq_refl)]; assert (r = OPRT_OK) as -> by (apply Hiff; eauto).
  - rewrite bool_decide_false by done. by apply IH.
  - rewrite bool_decide_true by done. by apply wp_ret.
Qed.

(** The names, what is done with them, and their release. *)
Lemma with_names {R} (c : list (list Z) -> W R) (dflt : W R) (k0 : K) s Q : ws_net s = k0 ->
  (k_names k0 = None -> forall k, clean k0 k -> wp dflt Q (WSys k (ws_wired s))) ->
  (forall names k, k_names k0 = Some names -> Forall (fun n => Z.of_nat (length n) < IFNAMSIZ) names -> k_same k0 k -> k_open k = k_open k0 -> k_lists k = S (k_lists k0) -> wp (c names) Q (WSys k (ws_wired s))) ->
  wp (l <- on_net if_nameindex ;; match l with None => dflt | Some names => c names end) Q s.
Proof.
  intros <- H0 H1. apply wp_bind, wp_on_net. eapply wp_mono; [apply nameindex_ok|]. cbv beta. intros r k (-> & Es & Eo & El). destruct (k_names (ws_net s)) as [names|] eqn:E; [apply H1; [done|by eapply k_names_short|done|done|lia]|apply H0; [done|]]. split; [done|]. split; [done|lia].
Qed.

Lemma freeing s (k0 : K) (Q : unit -> wsys K -> Prop) : k_same k0 (ws_net s) -> k_open (ws_net s) = k_open k0 -> k_lists (ws_net s) = S (k_lists k0) -> (forall k, clean k0 k -> Q tt (WSys k (ws_wired s))) -> wp (on_net if_freenameindex) Q s.
Proof. intros H1 H2 H3 HQ. apply wp_on_net. eapply wp_mono; [by apply freenameindex_ok|]. cbv beta. intros [] k (E1 & E2 & E3). apply HQ. split; [by eapply same_trans|]. split; congruence. Qed.

Lemma link_same k k' names : k_same k k' -> link k' names = link k names.
Proof. intros (E1 & E2 & E3 & E4 & E5). unfold link, up, if_status. by rewrite E2, E5. Qed.

Lemma wired_status_spec s : wp tkl_wired_get_status (fun r s' => snd r = link_status (ws_net s) /\ (fst r = OPRT_OK <-> is_Some (k_names (ws_net s))) /\ clean (ws_net s) (ws_net s') /\ ws_wired s' = ws_wired s) s.
Proof.
  unfold tkl_wired_get_status. apply (with_names _ _ (ws_net s)); [done| |].
  - intros E k Hc. apply wp_ret. unfold link_status. rewrite E. cbn. split; [done|]. split; [|done]. split; [done|by intros []].
  - intros names k E Hs Es Eo El. apply wp_bind. eapply wp_mono; [apply (wired_loop_spec k names Hs); apply clean_refl|]. cbv beta. intros r s' (-> & (Es' & Eo' & El') & Ew). apply wp_bind, (freeing _ (ws_net s)); [by eapply same_trans|congruence|congruence|]. intros k' Hc. apply wp_ret.
    cbn [fst snd ws_net ws_wired]. rewrite (link_same (ws_net s)) by done. unfold link_status. rewrite E. cbn. split; [done|]. split; [by split; eauto|]. split; [done|]. by rewrite Ew.
Qed.

(** ** Addresses *)

Lemma take_name (n : list Z) : Z.of_nat (length n) < IFNAMSIZ -> take 15 n = n.
Proof. intros H. apply take_ge. unfold IFNAMSIZ in H. lia. Qed.

Lemma ip_by_name_spec s n ip : Z.of_nat (length n) < IFNAMSIZ -> k_sockets (ws_net s) = true ->
  wp (__tkl_wired_get_ip_by_name n ip) (fun r s' => clean (ws_net s) (ws_net s') /\ ws_wired s' = ws_wired s /\
    match ip_of (ws_net s) n with Some x => r = (OPRT_OK, x) | None => fst r = OPRT_COM_ERROR end) s.
Proof.
  intros Hn Hsock. unfold __tkl_wired_get_ip_by_name, ip_of. apply wp_bind, wp_on_net. eapply wp_mono; [apply socket_ok|]. cbv beta. rewrite Hsock. intros fd k (Es & El & Hfd & Hnew & Eo). rewrite (proj2 (Z.eqb_neq fd (-1))) by lia. cbv zeta. rewrite take_name by done.
  apply wp_bind, wp_on_net. eapply wp_mono; [apply addr_ok; cbn; rewrite Eo; set_solver|]. cbv beta. cbn [ws_net ws_wired]. intros r k1 (-> & Es1 & El1 & Eo1). assert (k_addr k n = k_addr (ws_net s) n) as -> by (by destruct Es as (_ & _ & -> & _)).
  pose proof (same_trans _ _ _ Es Es1) as Es1'. destruct (k_addr (ws_net s) n) as [a|]; cbn [mbind option_bind].
  2: { apply wp_bind, (closing _ fd (ws_net s) k1); [done|congruence|done|congruence|done|]. intros k2 Hc. by apply wp_ret. }
  apply wp_bind, wp_on_net. eapply wp_mono; [apply netmask_ok; cbn; rewrite Eo1, Eo; set_solver|]. cbv beta. cbn [ws_net ws_wired]. intros r k2 (-> & Es2 & El2 & Eo2). assert (k_netmask k1 n = k_netmask (ws_net s) n) as -> by (by destruct Es1' as (_ & _ & _ & -> & _)).
  pose proof (same_trans _ _ _ Es1' Es2) as Es2'. destruct (k_netmask (ws_net s) n) as [m|]; cbn [mbind option_bind]; apply wp_bind, (closing _ fd (ws_net s) k2); try done; try congruence; intros k3 Hc; by apply wp_ret.
Qed.

Lemma ip_loop_spec k0 names : Forall (fun n => Z.of_nat (length n) < IFNAMSIZ) names -> forall ip s, clean k0 (ws_net s) ->
  wp (ip_loop names ip) (fun r s' => match first_ip k0 names with Some x => r = (OPRT_OK, x) | None => fst r = OPRT_NOT_FOUND end /\ clean k0 (ws_net s') /\ ws_wired s' = ws_wired s) s.
Proof.
  induction 1 as [|n names Hn Hns IH]; intros ip s Hs; cbn [ip_loop first_ip]; [by apply wp_ret|]. unfold up. destruct (is_loopback_interface n); cbn [negb andb]; [by apply IH|]. apply wp_bind. eapply wp_mono; [by apply status_by_name_spec|]. cbv beta.
  intros [r o] s' (Hc & Ew & Hiff & E). cbn [fst snd] in *. destruct (clean_status _ _ Hs) as (Est & _). rewrite Est in E. subst o. pose proof (clean_trans _ _ _ Hs Hc) as Hs'. rewrite <-Ew.
  destruct (if_status k0 n) as [[]|] eqn:Ei; [| |rewrite bool_decide_false by done; destruct r; try (by apply IH); by destruct (proj1 Hiff eq_refl)]; assert (r = OPRT_OK) as -> by (apply Hiff; eauto).
  - rewrite bool_decide_false by done. by apply IH.
  - rewrite bool_decide_true by done. destruct (clean_status _ _ Hs') as (_ & _ & Eip & _). apply wp_bind. eapply wp_mono; [apply ip_by_name_spec; [done|]|].
    { destruct Hs' as ((_ & _ & _ & _ & ->) & _). unfold if_status in Ei. by destruct (k_sockets k0). }
    cbv beta. rewrite Eip. intros [r ip'] s2 (Hc2 & Ew2 & Hr). pose proof (clean_trans _ _ _ Hs' Hc2) as Hs2. rewrite <-Ew2. destruct (ip_of k0 n) as [x|]; [injection Hr as -> ->; by apply wp_ret|]. cbn [fst] in Hr. subst r. by apply IH.
Qed.

(** The address is that of the first interface, other than the loopback, that is up and has
    an address and a mask; nothing stays open. *)
Theorem wired_get_ip_correct ip s :
  wp (tkl_wired_get_ip ip) (fun r s' => match k_names (ws_net s) ≫= first_ip (ws_net s) with Some x => r = (OPRT_OK, x) | None => fst r = OPRT_NOT_FOUND end /\ clean (ws_net s) (ws_net s') /\ ws_wired s' = ws_wired s) s.
Proof.
  unfold tkl_wired_get_ip. apply (with_names _ _ (ws_net s)); [done| |].
  - intros E k Hc. apply wp_ret. rewrite E. done.
  - intros names k E Hs Es Eo El. assert (forall l, first_ip k l = first_ip (ws_net s) l) as Ef.
    { intros l. induction l as [|n l IH]; [done|]. cbn [first_ip]. rewrite IH. unfold up, if_status, ip_of. by destruct Es as (E1 & -> & -> & -> & ->). }
    apply wp_bind. eapply wp_mono; [apply (ip_loop_spec k names Hs); apply clean_refl|]. cbv beta. intros r s' (Hr & (Es' & Eo' & El') & Ew). apply wp_bind, (freeing _ (ws_net s)); [by eapply same_trans|congruence|congruence|]. intros k' Hc. apply wp_ret.
    rewrite E. cbn [mbind option_bind]. rewrite Ef in Hr. split; [done|]. split; [done|]. exact Ew.
Qed.

(** ** Events *)

(** The turns of the thread, with the network as it is at each. *)
Fixpoint polls (ks : list K) : W (list TKL_WIRED_STAT_E) :=
  match ks with
  | [] => ret []
  | k :: ks => modify (fun s => WSys k (ws_wired s)) ;;; r <- wifi_status_event_cb ;; rs <- polls ks ;; ret (r :: rs)
  end.

(** C23: however the network changes between the turns of the thread, the application is
    told exactly when the state of the link differs from what it was told before by the
    thread: the events are the changes of the state, in order, and the state is up exactly
    when an interface other than the loopback answers that it is up.  No turn leaves a
    socket or a list of names behind. *)
Theorem wired_reports_changes ks s : wi_event_cb (ws_wired s) <> 0 ->
  wp (polls ks) (fun rs s' => rs = link_status <$> ks /\
    wi_events (ws_wired s') = wi_events (ws_wired s) ++ ((fun x => (wi_event_cb (ws_wired s), x)) <$> changes (wi_last (ws_wired s)) (link_status <$> ks)) /\
    clean (default (ws_net s) (last ks)) (ws_net s')) s.
Proof.
  revert s. induction ks as [|k ks IH]; intros s Hcb; cbn [polls]; [apply wp_ret; cbn; by rewrite app_nil_r|]. apply wp_bind, wp_modify, wp_bind. unfold wifi_status_event_cb. apply wp_bind. eapply wp_mono; [apply wired_status_spec|]. cbv beta. cbn [ws_net ws_wired]. intros r s1 (Er & _ & Hc & Ew).
  apply wp_bind, wp_gets. rewrite Er, Ew. assert (forall w k1, wi_event_cb w <> 0 -> clean k k1 -> wi_event_cb w = wi_event_cb (ws_wired s) ->
    wp (rs <- polls ks ;; ret (link_status k :: rs)) (fun rs s' => rs = link_status <$> (k :: ks) /\ wi_events (ws_wired s') = wi_events w ++ ((fun x => (wi_event_cb (ws_wired s), x)) <$> changes (wi_last w) (link_status <$> ks)) /\ clean (default (ws_net s) (last (k :: ks))) (ws_net s')) (WSys k1 w)) as Hrest.
  { intros w k1 Hw Hk Ecb. apply wp_bind. eapply wp_mono; [by apply IH|]. cbv beta. cbn [ws_net ws_wired]. intros rs s' (-> & Ee & Hcl). apply wp_ret. rewrite Ee, Ecb. split; [done|]. split; [done|]. destruct ks as [|k' ks]; [by eapply clean_trans|]. rewrite last_cons_cons. destruct (last (k' :: ks)) eqn:El; [done|]. by apply last_None in El. }
  rewrite fmap_cons. cbn [changes]. destruct (decide (wi_last (ws_wired s) = Some (link_status k))) as [Esame|Hdiff].
  - rewrite bool_decide_true by done. cbn [negb when]. apply wp_bind, wp_ret, wp_ret. destruct s1 as [k1 w]. cbn [ws_wired ws_net] in *. subst w. by eapply Hrest.
  - rewrite bool_decide_false by done. cbn [negb when]. rewrite (proj2 (Z.eqb_neq _ 0)) by done. do 2 apply wp_bind. apply wp_ret. apply wp_bind, wp_modify, wp_modify, wp_ret. cbn [ws_net ws_wired wi_event_cb wi_thread wi_last wi_events]. rewrite Ew.
    eapply wp_mono; [eapply Hrest; [|exact Hc|]; cbn; try done|]. cbv beta. cbn [wi_events wi_last]. intros rs s' (-> & Ee & Hcl). split; [done|]. split; [|done]. by rewrite Ee, <-app_assoc.
Qed.

(** Registering a callback calls it at once with the state of the link and makes the thread
    unless there is one; the thread then tells the same state again, since it has told
    nothing yet. *)
Theorem wired_set_cb_correct cb thread s names : cb <> 0 -> k_names (ws_net s) = Some names -> (forall t, thread = inr t -> t <> 0) -> (forall e, thread = inl e -> e <> 0) ->
  wp (tkl_wired_set_status_cb cb thread) (fun r s' => clean (ws_net s) (ws_net s') /\ wi_event_cb (ws_wired s') = cb /\
    match thread with
    | inl e => if wi_thread (ws_wired s) =? 0 then r = inl e /\ wi_events (ws_wired s') = wi_events (ws_wired s) else r = inr OPRT_OK
    | inr t => r = inr OPRT_OK /\ wi_thread (ws_wired s') <> 0 /\ wi_events (ws_wired s') = wi_events (ws_wired s) ++ [(cb, link_status (ws_net s))] /\
        (wi_thread (ws_wired s) = 0 -> wi_last (ws_wired s') = None)
    end) s.
Proof.
  intros Hcb En Ht He. unfold tkl_wired_set_status_cb. rewrite (proj2 (Z.eqb_neq cb 0)) by done. cbn [negb]. apply (with_names _ _ (ws_net s)); [done|congruence|]. intros names' k E Hs Es Eo El. assert (names' = names) as -> by congruence.
  apply wp_bind. eapply wp_mono; [apply (wired_loop_spec k names Hs); apply clean_refl|]. cbv beta. intros r s' (-> & (Es' & Eo' & El') & Ew). apply wp_bind, (freeing _ (ws_net s)); [by eapply same_trans|congruence|congruence|]. intros k' Hc. rewrite (link_same (ws_net s)) by done.
  replace (link (ws_net s) names) with (link_status (ws_net s)) by (unfold link_status; by rewrite En). apply wp_bind, wp_modify, wp_bind, wp_gets. cbn [ws_net ws_wired wi_thread]. rewrite Ew. cbn [ws_wired]. apply wp_bind. destruct (Z.eqb_spec (wi_thread (ws_wired s)) 0) as [E0|E0].
  - destruct thread as [e|t].
    + apply wp_ret. rewrite (proj2 (Z.eqb_neq e 0)) by (by apply He). cbn [negb]. by apply wp_ret.
    + apply wp_bind, wp_modify, wp_ret. change (negb (0 =? 0)) with false. cbv iota. apply wp_bind, wp_modify, wp_ret. cbn. specialize (Ht t eq_refl). done.
  - apply wp_ret. change (negb (0 =? 0)) with false. cbv iota. apply wp_bind, wp_modify, wp_ret. cbn. by destruct thread.
Qed.
End Wired.

(** ** A network *)

Record demo_net := mkNet { dn_ifaces : list (list Z * bool); dn_open : list Z; dn_lists : nat }.
Definition dn_flags (k : demo_net) (n : list Z) : option Z := (fun x : list Z * bool => if x.2 then 0x1043 else 0x1002) <$> find (fun x => bool_decide (x.1 = n)) (dn_ifaces k).
Definition dn_names (k : demo_net) : option (list (list Z)) := Some (filter (fun n => Z.of_nat (length n) < IFNAMSIZ) (dn_ifaces k).*1).

#[export] Instance demo_ifaces : Ifaces demo_net.
Proof.
  refine {|
    if_nameindex k := Ret (dn_names k) (mkNet (dn_ifaces k) (dn_open k) (dn_lists k + 1));
    if_freenameindex k := Ret tt (mkNet (dn_ifaces k) (dn_open k) (dn_lists k - 1));
    if_socket k := Ret (above (dn_open k)) (mkNet (dn_ifaces k) (above (dn_open k) :: dn_open k) (dn_lists k));
    if_close fd k := Ret tt (mkNet (dn_ifaces k) (filter (fun g => g <> fd) (dn_open k)) (dn_lists k));
    if_flags fd n k := Ret (dn_flags k n) k;
    if_addr fd n k := Ret (Some [49; 46; 49]) k;
    if_netmask fd n k := Ret (Some [50; 46; 50]) k;
    k_names := dn_names; k_flags := dn_flags; k_addr _ _ := Some [49; 46; 49]; k_netmask _ _ := Some [50; 46; 50];
    k_sockets _ := true; k_open k := list_to_set (dn_open k); k_lists := dn_lists |}.
  - intros k l [= <-]. apply Forall_forall. intros n [Hn _]%list_elem_of_filter. done.
  - done.
  - intros k n E. unfold wp. cbn. split; [done|]. split; [done|]. lia.
  - intros k. destruct (above_new (dn_open k)) as [Hp Hn]. unfold wp. cbn. split; [done|]. split; [done|]. split; [lia|]. split; [by rewrite elem_of_list_to_set|done].
  - intros fd k _. unfold wp. cbn. split; [done|]. split; [done|]. apply set_eq. intros g. rewrite elem_of_difference, !elem_of_list_to_set, list_elem_of_filter, elem_of_singleton. tauto.
  - done.
  - done.
  - done.
Defined.

Definition wired_demo : wsys demo_net := WSys (mkNet [] [] 0) (mkWired 9 1 None []).
Definition eth (b : bool) : demo_net := mkNet [(LO, true); ([101; 48], b)] [] 0.

Lemma wired_reports_changes_witness :
  wp (polls [eth false; eth true; eth true; eth false]) (fun rs s' => rs = link_status <$> [eth false; eth true; eth true; eth false] /\
    wi_events (ws_wired s') = [] ++ ((fun x => (9, x)) <$> changes None (link_status <$> [eth false; eth true; eth true; eth false])) /\
    clean (eth false) (ws_net s')) wired_demo.
Proof. refine (wired_reports_changes [eth false; eth true; eth true; eth false] wired_demo _). done. Defined.

Example wired_demo_events :
  match polls [eth false; eth true; eth true; eth false] wired_demo with
  | Ret _ s => wi_events (ws_wired s) = [(9, TKL_WIRED_LINK_DOWN); (9, TKL_WIRED_LINK_UP); (9, TKL_WIRED_LINK_DOWN)]
  | _ => False
  end.
Proof. by vm_compute. Qed.
