(* ===== verification/TklSystem.v ===== *)
(** * System calls: [src/tkl_system.c]

    Time, sleep and random numbers.  Random bytes come from [getrandom], asked again after a
    signal, or from the device [urandom] when the kernel has no more to give, or from
    [rand], seeded once.  The kernel and the C library's generator are a parameter, the
    class [Entropy]. *)

From S2P Require Import Prelude.

Definition ERRNO_EINTR : Z := 4.
Definition is_byte (b : Z) : Prop := 0 <= b < 256.

Class Entropy (K : Type) := {
  getrandom : Z -> M K (list Z + Z);           (** at most so many bytes, or an error number *)
  urandom_open : M K bool;
  urandom_read : Z -> M K (list Z);
  urandom_close : M K unit;
  c_srand : M K unit;                          (** with the time and the process *)
  c_rand : M K Z;
  en_opened : K -> nat;
  (** How often a signal still comes. *)
  en_patience : K -> nat;
  getrandom_ok n k : 0 < n -> wp (getrandom n) (fun r k' => en_opened k' = en_opened k /\
    match r with
    | inl l => 0 < Z.of_nat (length l) <= n /\ Forall is_byte l /\ (en_patience k' <= en_patience k)%nat
    | inr e => 0 < e /\ (if e =? ERRNO_EINTR then (en_patience k' < en_patience k)%nat else (en_patience k' <= en_patience k)%nat)
    end) k;
  urandom_open_ok k : wp urandom_open (fun b k' => en_opened k' = (en_opened k + (if b then 1 else 0))%nat) k;
  urandom_read_ok n k : 0 <= n -> (0 < en_opened k)%nat -> wp (urandom_read n) (fun l k' => en_opened k' = en_opened k /\ Z.of_nat (length l) <= n /\ Forall is_byte l) k;
  urandom_close_ok n k : en_opened k = S n -> wp urandom_close (fun _ k' => en_opened k' = n) k;
  srand_ok k : wp c_srand (fun _ k' => en_opened k' = en_opened k) k;
  rand_ok k : wp c_rand (fun r k' => 0 <= r <= 2147483647 /\ en_opened k' = en_opened k) k
}.

Record ssys (K : Type) := SSys { sy_kernel : K; sy_seeded : bool }.
Arguments SSys {K}. Arguments sy_kernel {K}. Arguments sy_seeded {K}.

(** Four bytes of a [uint32_t] in memory, on a little-endian machine. *)
Definition le32 (l : list Z) : Z := match l with [a; b; c; d] => a + 256 * b + 65536 * c + 16777216 * d | _ => 0 end.

Section System.
Context {K : Type} `{!Entropy K}.
Local Abbreviation W := (M (ssys K)).
(** Bound on the repetitions of the loop around [getrandom]. *)
Variable fuel : nat.

Definition on_kernel {R} (c : M K R) : W R := fun s =>
  match c (sy_kernel s) with Ret r k => Ret r (SSys k (sy_seeded s)) | Fault => Fault | Diverge => Diverge end.

(** ** Random numbers *)

(** The loop, with what is already in the buffer. *)
Fixpoint getrandom_loop (n : nat) (done : list Z) (len : Z) : W (list Z) :=
  match n with
  | O => out_of_fuel
  | S n =>
    if Z.of_nat (length done) <? len then
      got <- on_kernel (getrandom (len - Z.of_nat (length done))) ;;
      match got with
      | inr e => if e =? ERRNO_EINTR then getrandom_loop n done len else ret done
      | inl l => getrandom_loop n (done ++ l) len
      end
    else ret done
  end.

(** The return value and what is in the buffer. *)
Definition __sys_random_bytes (len : Z) : W (Z * list Z) :=
  buf <- getrandom_loop fuel [] len ;;
  if Z.of_nat (length buf) =? len then ret (0, buf)
  else
    fp <- on_kernel urandom_open ;;
    if negb fp then ret (-1, buf)
    else
      rd <- on_kernel (urandom_read len) ;;
      on_kernel urandom_close ;;;
      ret (if Z.of_nat (length rd) =? len then 0 else -1, rd ++ drop (length rd) buf).

Definition tkl_system_get_random (range : Z) : W Z :=
  x <- __sys_random_bytes 4 ;;
  value <- (
    if negb (fst x =? 0) then
      seeded <- gets sy_seeded ;;
      when (negb seeded) (on_kernel c_srand ;;; modify (fun s => SSys (sy_kernel s) true)) ;;;
      r <- on_kernel c_rand ;; ret (u32 r)
    else ret (le32 (snd x))) ;;
  let value := Z.land value 0x7FFFFFFF in
  ret (s32 (if range =? 0 then Z.land value 0xFF else value mod range)).

(** ** Time *)

(** [now]: what [clock_gettime] gives, seconds and nanoseconds. *)
Definition tkl_system_get_tick_count (now : Z * Z) : Z := u64 (u64 (1000 * u64 (fst now)) + u64 (snd now) / 1000000).
Definition tkl_system_get_millisecond (now : Z * Z) : Z := u64 (u64 (1000 * u64 (fst now)) + u64 (snd now) / 1000000).

(** The calls of [sleep] and [usleep]. *)
Inductive nap := Sleep (seconds : Z) | Usleep (microseconds : Z).
Definition tkl_system_sleep (num_ms : Z) : list nap :=
  let sTmpTime := num_ms / 1000 in
  let msTmpTime := num_ms mod 1000 in
  (if negb (sTmpTime =? 0) then [Sleep sTmpTime] else []) ++ (if negb (msTmpTime =? 0) then [Usleep (msTmpTime * 1000)] else []).

Definition TUYA_RESET_REASON_UNKNOWN : Z := 7.
Definition tkl_system_get_reset_reason : Z := TUYA_RESET_REASON_UNKNOWN.
Definition tkl_cpu_sleep_mode_set : OPERATE_RET := OPRT_OK.
Definition tkl_system_get_cpu_info : OPERATE_RET := OPRT_NOT_FOUND.
Definition tkl_system_enter_critical : Z := 0.
Definition tkl_system_exit_critical (irq_mask : Z) : unit := tt.

(** ** Properties *)

Lemma wp_sys_kernel {R} (c : M K R) Q s : wp c (fun r k => Q r (SSys k (sy_seeded s))) (sy_kernel s) -> wp (on_kernel c) Q s.
Proof. unfold wp, on_kernel. by destruct (c (sy_kernel s)). Qed.

(** Every turn gets a byte, uses up a signal or ends the loop. *)
Lemma getrandom_loop_spec n len : forall done s, Z.of_nat (length done) <= len -> Forall is_byte done -> Z.of_nat (en_patience (sy_kernel s)) + (len - Z.of_nat (length done)) < Z.of_nat n ->
  wp (getrandom_loop n done len) (fun l s' => Z.of_nat (length l) <= len /\ Forall is_byte l /\ en_opened (sy_kernel s') = en_opened (sy_kernel s)) s.
Proof.
  induction n as [|n IH]; intros done s Hl Hb Hn; [lia|]. cbn [getrandom_loop]. destruct (Z.ltb_spec (Z.of_nat (length done)) len) as [Hlt|Hge]; [|by apply wp_ret]. apply wp_bind, wp_sys_kernel. eapply wp_mono; [apply getrandom_ok; lia|]. cbv beta.
  intros [l|e] k [Eo Hr].
  - destruct Hr as (Hll & Hbl & Hp). eapply wp_mono; [apply IH; [rewrite length_app; lia|by apply Forall_app|rewrite length_app; cbn; lia]|]. cbv beta. cbn [sy_kernel]. intros r s' (? & ? & E). by rewrite E.
  - destruct Hr as [_ Hp]. destruct (e =? ERRNO_EINTR); [|by apply wp_ret]. eapply wp_mono; [apply IH; [done|done|cbn; lia]|]. cbv beta. cbn [sy_kernel]. intros r s' (? & ? & E). by rewrite E.
Qed.

(** Success means that the whole buffer was filled, and nothing stays open. *)
Lemma random_bytes_spec len s : 0 <= len -> Z.of_nat (en_patience (sy_kernel s)) + len < Z.of_nat fuel ->
  wp (__sys_random_bytes len) (fun r s' => (fst r = 0 \/ fst r = -1) /\ (fst r = 0 -> Z.of_nat (length (snd r)) = len /\ Forall is_byte (snd r)) /\ en_opened (sy_kernel s') = en_opened (sy_kernel s)) s.
Proof.
  intros Hl Hf. unfold __sys_random_bytes. apply wp_bind. eapply wp_mono; [apply getrandom_loop_spec; [done|constructor|cbn; lia]|]. cbv beta. intros buf s1 (Hb & Hbb & E1). destruct (Z.eqb_spec (Z.of_nat (length buf)) len) as [E|]; [apply wp_ret; cbn; auto|].
  apply wp_bind, wp_sys_kernel. eapply wp_mono; [apply urandom_open_ok|]. cbv beta. intros [|] k E2; cbn [negb]; [|apply wp_ret; cbn; split; [by right|]; split; [done|lia]]. apply wp_bind, wp_sys_kernel. eapply wp_mono; [apply urandom_read_ok; [done|cbn; lia]|]. cbv beta. cbn [sy_kernel].
  intros rd k2 (E3 & Hlen & Hrd). apply wp_bind, wp_sys_kernel. eapply wp_mono; [apply (urandom_close_ok (en_opened (sy_kernel s))); cbn; lia|]. cbv beta. cbn [sy_kernel]. intros _ k3 E4. apply wp_ret. cbn [fst snd sy_kernel]. split; [destruct (_ =? len); auto|]. split; [|done].
  destruct (Z.eqb_spec (Z.of_nat (length rd)) len) as [Er|]; [|done]. intros _. rewrite (drop_ge buf) by lia. by rewrite app_nil_r.
Qed.

Lemma le32_range l : Z.of_nat (length l) = 4 -> Forall is_byte l -> 0 <= le32 l < 4294967296.
Proof. intros Hl Hb. destruct l as [|a [|b [|c [|d [|e l]]]]]; cbn in Hl; try lia. repeat (apply Forall_cons in Hb as [? Hb]). unfold is_byte in *. cbn. lia. Qed.

(** A random number is not negative and below the range asked for, or a byte for the
    range 0, whatever the kernel answers and however often signals interrupt it; the call
    ends, and leaves no file open. *)
Theorem random_in_range range s : 0 <= range < 4294967296 -> Z.of_nat (en_patience (sy_kernel s)) + 4 < Z.of_nat fuel ->
  wp (tkl_system_get_random range) (fun r s' => 0 <= r < 2147483648 /\ (range = 0 -> r < 256) /\ (0 < range -> r < range) /\ en_opened (sy_kernel s') = en_opened (sy_kernel s)) s.
Proof.
  intros Hr Hf. unfold tkl_system_get_random. apply wp_bind. eapply wp_mono; [apply random_bytes_spec; [lia|done]|]. cbv beta. intros x s1 (Hx & Hok & E1). apply wp_bind.
  eapply (wp_mono _ (fun value s' => 0 <= value < 4294967296 /\ en_opened (sy_kernel s') = en_opened (sy_kernel s))).
  - destruct (Z.eqb_spec (fst x) 0) as [E|E]; cbn [negb]; [apply wp_ret; split; [apply le32_range; by apply Hok|done]|]. apply wp_bind, wp_gets, wp_bind. eapply (wp_mono _ (fun _ s' => en_opened (sy_kernel s') = en_opened (sy_kernel s))).
    + destruct (sy_seeded s1); cbn [negb when]; [by apply wp_ret|]. apply wp_bind, wp_sys_kernel. eapply wp_mono; [apply srand_ok|]. cbv beta. intros _ k Ek. apply wp_modify. cbn. congruence.
    + cbv beta. intros _ s2 E2. apply wp_bind, wp_sys_kernel. eapply wp_mono; [apply rand_ok|]. cbv beta. intros r k [Hrand Ek]. apply wp_ret. rewrite u32_small by lia. cbn. split; [lia|congruence].
  - cbv beta zeta. intros value s2 [Hv E2]. apply wp_ret. change 0x7FFFFFFF with (Z.ones 31). rewrite Z.land_ones by lia. change (2 ^ 31) with 2147483648. change 0xFF with (Z.ones 8). rewrite Z.land_ones by lia. change (2 ^ 8) with 256.
    set (v := value mod 2147483648). assert (0 <= v < 2147483648) as Hvr by (apply Z.mod_pos_bound; lia). destruct (Z.eqb_spec range 0) as [E0|E0].
    + pose proof (Z.mod_pos_bound v 256 ltac:(lia)). rewrite swrap_small by lia. split; [lia|]. split; [lia|]. split; [lia|done].
    + pose proof (Z.mod_pos_bound v range ltac:(lia)). pose proof (Z.mod_le v range ltac:(lia) ltac:(lia)). rewrite swrap_small by lia. split; [lia|]. split; [lia|]. split; [lia|done].
Qed.
End System.

(** ** Time *)

Definition nap_us (n : nap) : Z := match n with Sleep s => s * 1000000 | Usleep us => us end.

(** A sleep is exactly as long as asked for, in naps that the C library accepts. *)
Theorem sleep_exact num_ms : 0 <= num_ms < 4294967296 ->
  foldr (fun n t => nap_us n + t) 0 (tkl_system_sleep num_ms) = num_ms * 1000 /\ Forall (fun n => match n with Sleep s => 0 < s < 4294968 | Usleep us => 0 < us < 1000000 end) (tkl_system_sleep num_ms).
Proof.
  intros H. unfold tkl_system_sleep. pose proof (Z.div_mod num_ms 1000). pose proof (Z.mod_pos_bound num_ms 1000). pose proof (Z.div_pos num_ms 1000). assert (num_ms / 1000 < 4294968) by (apply Z.div_lt_upper_bound; lia).
  destruct (Z.eqb_spec (num_ms / 1000) 0), (Z.eqb_spec (num_ms mod 1000) 0); cbn; (split; [lia|]); repeat constructor; lia.
Qed.

(** The ticks are the milliseconds of the clock, and do not run backwards. *)
Theorem ticks_follow_clock now later : 0 <= fst now -> 0 <= snd now < 1000000000 -> 0 <= snd later < 1000000000 -> fst later < 18446744073709551 ->
  fst now * 1000000000 + snd now <= fst later * 1000000000 + snd later ->
  tkl_system_get_tick_count now = (fst now * 1000000000 + snd now) / 1000000 /\ tkl_system_get_tick_count now <= tkl_system_get_tick_count later /\ tkl_system_get_millisecond now = tkl_system_get_tick_count now.
Proof.
  intros H1 H2 H3 H4 Hle. assert (forall t, 0 <= fst t < 18446744073709551 -> 0 <= snd t < 1000000000 -> tkl_system_get_tick_count t = (fst t * 1000000000 + snd t) / 1000000) as Ht.
  { intros t Hs Hn. unfold tkl_system_get_tick_count. rewrite (u64_small (fst t)), (u64_small (snd t)), (u64_small (1000 * fst t)) by lia. replace (fst t * 1000000000 + snd t) with (1000 * fst t * 1000000 + snd t) by lia. rewrite Z.div_add_l by lia.
    pose proof (Z.div_pos (snd t) 1000000). assert (snd t / 1000000 < 1000) by (apply Z.div_lt_upper_bound; lia). apply u64_small. lia. }
  split; [apply Ht; lia|]. split; [|done]. rewrite !Ht by lia. apply Z.div_le_mono; lia.
Qed.

(** ** A kernel *)

(** A signal, then two bytes, then errors; the device is there. *)
Record demo_kernel := mkKernel { dk_signals : nat; dk_bytes : list Z; dk_open : nat }.
#[export] Instance demo_entropy : Entropy demo_kernel.
Proof.
  refine {|
    getrandom n k :=
      match dk_signals k, dk_bytes k with
      | S s, _ => Ret (inr ERRNO_EINTR) (mkKernel s (dk_bytes k) (dk_open k))
      | O, b :: l => Ret (inl [b mod 256]) (mkKernel 0 l (dk_open k))
      | O, [] => Ret (inr 5) k
      end;
    urandom_open k := Ret true (mkKernel (dk_signals k) (dk_bytes k) (S (dk_open k)));
    urandom_read n k := Ret (replicate (Z.to_nat n) 255) k;
    urandom_close k := Ret tt (mkKernel (dk_signals k) (dk_bytes k) (pred (dk_open k)));
    c_srand k := Ret tt k;
    c_rand k := Ret 42 k;
    en_opened := dk_open; en_patience := dk_signals |}.
  - intros n [[|sg] [|b l] o] Hn; unfold wp; cbn; (split; [done|]); try (split; [done|]; lia). split; [cbn; lia|]. split; [|lia]. repeat constructor; apply Z.mod_pos_bound; lia.
  - intros k. unfold wp. cbn. lia.
  - intros n k Hn Ho. unfold wp. split; [done|]. rewrite length_replicate. split; [lia|]. apply Forall_replicate. unfold is_byte. lia.
  - intros n k E. unfold wp. cbn. by rewrite E.
  - done.
  - intros k. unfold wp. cbn. done.
Defined.

Lemma random_in_range_witness :
  wp (tkl_system_get_random 8 100) (fun r s' => 0 <= r < 2147483648 /\ (100 = 0 -> r < 256) /\ (0 < 100 -> r < 100) /\ en_opened (sy_kernel s') = 0%nat) (SSys (mkKernel 2 [7; 300] 0) false).
Proof. refine (random_in_range 8 100 (SSys (mkKernel 2 [7; 300] 0) false) _ _); cbn; lia. Defined.

Example random_demo : match tkl_system_get_random 8 1000 (SSys (mkKernel 2 [7; 300] 0) false) with Ret r s => r = 2147483647 mod 1000 /\ dk_open (sy_kernel s) = 0%nat | _ => False end.
Proof. by vm_compute. Qed.
