(* ===== verification/TklUart.v ===== *)
(** * Serial ports: [src/tkl_uart.c]

    Three ports with a descriptor, a thread that waits for input and a callback each; the
    settings of a port are those of a terminal in raw mode.  The model is that of a build
    without [TKL_UART_REDIRECT_LOG_TO_STDOUT]; the other is in [TklUartRedirect].  The terminals and the threads of the kernel
    are a parameter, the class [Tty]. *)

From S2P Require Import Prelude BusTable Client.

(** ** Settings *)

Inductive TUYA_UART_DATA_LEN_E := TUYA_UART_DATA_LEN_5BIT | TUYA_UART_DATA_LEN_6BIT | TUYA_UART_DATA_LEN_7BIT | TUYA_UART_DATA_LEN_8BIT.
Inductive TUYA_UART_STOP_LEN_E := TUYA_UART_STOP_LEN_1BIT | TUYA_UART_STOP_LEN_1_5BIT1 | TUYA_UART_STOP_LEN_2BIT.
Inductive TUYA_UART_PARITY_TYPE_E := TUYA_UART_PARITY_TYPE_NONE | TUYA_UART_PARITY_TYPE_ODD | TUYA_UART_PARITY_TYPE_EVEN.
Inductive TUYA_UART_FLOWCTRL_TYPE_E := TUYA_UART_FLOWCTRL_NONE | TUYA_UART_FLOWCTRL_RTSCTS | TUYA_UART_FLOWCTRL_XONXOFF | TUYA_UART_FLOWCTRL_DTRDSR.
Record TUYA_UART_BASE_CFG_T := mkUartCfg { uc_baudrate : Z; uc_parity : TUYA_UART_PARITY_TYPE_E; uc_databits : TUYA_UART_DATA_LEN_E; uc_stopbits : TUYA_UART_STOP_LEN_E; uc_flowctrl : TUYA_UART_FLOWCTRL_TYPE_E }.

(** The terminal settings, with the constants of Linux. *)
Record termios := mkTio { c_iflag : Z; c_oflag : Z; c_cflag : Z; c_lflag : Z; c_vtime : Z; c_vmin : Z }.
Definition CBAUD : Z := 0x100F.
Definition CSIZE : Z := 0x30.
Definition CS7 : Z := 0x20.
Definition CS8 : Z := 0x30.
Definition CSTOPB : Z := 0x40.
Definition CREAD : Z := 0x80.
Definition PARENB : Z := 0x100.
Definition PARODD : Z := 0x200.
Definition CLOCAL : Z := 0x800.
Definition B9600 : Z := 0xD.
Definition B19200 : Z := 0xE.
Definition B38400 : Z := 0xF.
Definition B57600 : Z := 0x1001.
Definition B115200 : Z := 0x1002.
Definition B230400 : Z := 0x1003.
Definition B460800 : Z := 0x1004.
Definition B921600 : Z := 0x1007.

(** [x &= ~m] on 32 bits. *)
Definition clear (x m : Z) : Z := Z.land x (Z.lxor 0xFFFFFFFF m).

Definition __baud_to_flag (baud : Z) : Z :=
  if baud =? 9600 then B9600 else if baud =? 19200 then B19200 else if baud =? 38400 then B38400
  else if baud =? 57600 then B57600 else if baud =? 115200 then B115200 else if baud =? 230400 then B230400
  else if baud =? 460800 then B460800 else if baud =? 921600 then B921600 else B115200.

(** Functions of the C library. *)
Definition cfmakeraw (t : termios) : termios :=
  mkTio (clear (c_iflag t) 0x5EB) (clear (c_oflag t) 0x1) (Z.lor (clear (c_cflag t) (CSIZE + PARENB)) CS8) (clear (c_lflag t) 0x804B) 0 1.
Definition cfsetspeed (speed : Z) (t : termios) : termios :=
  mkTio (c_iflag t) (c_oflag t) (Z.lor (clear (c_cflag t) CBAUD) speed) (c_lflag t) (c_vtime t) (c_vmin t).

(** What [__configure_uart] makes of the settings. *)
Definition configured (cfg : TUYA_UART_BASE_CFG_T) (tio : termios) : termios :=
  let tio := cfmakeraw tio in
  let speed := __baud_to_flag (uc_baudrate cfg) in
  let tio := cfsetspeed speed (cfsetspeed speed tio) in
  let c := clear (c_cflag tio) CSIZE in
  let c := Z.lor c (match uc_databits cfg with TUYA_UART_DATA_LEN_7BIT => CS7 | _ => CS8 end) in
  let c := clear c (PARENB + PARODD) in
  let c := match uc_parity cfg with
    | TUYA_UART_PARITY_TYPE_ODD => Z.lor c (PARENB + PARODD)
    | TUYA_UART_PARITY_TYPE_EVEN => Z.lor c PARENB
    | TUYA_UART_PARITY_TYPE_NONE => c end in
  let c := match uc_stopbits cfg with TUYA_UART_STOP_LEN_2BIT => Z.lor c CSTOPB | _ => clear c CSTOPB end in
  let c := Z.lor c (CLOCAL + CREAD) in
  mkTio 0 0 c 0 0 0.

(** *** The line that settings describe *)

(** Bits per second, bits of a character, whether there is parity and whether it is odd, and
    the length of the stop in halves of a bit. *)
Record line := mkLine { ln_speed : option Z; ln_bits : Z; ln_parity : option bool; ln_stop : Z }.

(** How the kernel reads the control modes: the speed of a flag (of those the file uses), and
    the fields. *)
Definition baud_of (flag : Z) : option Z :=
  if flag =? B9600 then Some 9600 else if flag =? B19200 then Some 19200 else if flag =? B38400 then Some 38400
  else if flag =? B57600 then Some 57600 else if flag =? B115200 then Some 115200 else if flag =? B230400 then Some 230400
  else if flag =? B460800 then Some 460800 else if flag =? B921600 then Some 921600 else None.
Definition line_of (c : Z) : line :=
  mkLine (baud_of (Z.land c CBAUD)) (5 + Z.shiftr (Z.land c CSIZE) 4) (if Z.land c PARENB =? 0 then None else Some (negb (Z.land c PARODD =? 0))) (if Z.land c CSTOPB =? 0 then 2 else 4).

(** The line that a configuration asks for, as its fields are documented. *)
Definition line_asked (cfg : TUYA_UART_BASE_CFG_T) : line :=
  mkLine (Some (uc_baudrate cfg)) (match uc_databits cfg with TUYA_UART_DATA_LEN_5BIT => 5 | TUYA_UART_DATA_LEN_6BIT => 6 | TUYA_UART_DATA_LEN_7BIT => 7 | TUYA_UART_DATA_LEN_8BIT => 8 end)
    (match uc_parity cfg with TUYA_UART_PARITY_TYPE_NONE => None | TUYA_UART_PARITY_TYPE_ODD => Some true | TUYA_UART_PARITY_TYPE_EVEN => Some false end)
    (match uc_stopbits cfg with TUYA_UART_STOP_LEN_1BIT => 2 | TUYA_UART_STOP_LEN_1_5BIT1 => 3 | TUYA_UART_STOP_LEN_2BIT => 4 end).

(** The configurations whose line the file can set up: others get a line that was not asked
    for ([unsupported_line]).  The flow control of a configuration is not looked at. *)
Definition supported (cfg : TUYA_UART_BASE_CFG_T) : Prop :=
  uc_baudrate cfg ∈ [9600; 19200; 38400; 57600; 115200; 230400; 460800; 921600] /\ uc_databits cfg ∈ [TUYA_UART_DATA_LEN_7BIT; TUYA_UART_DATA_LEN_8BIT] /\ uc_stopbits cfg ∈ [TUYA_UART_STOP_LEN_1BIT; TUYA_UART_STOP_LEN_2BIT].

(** Fields are set and cleared by masks: the value is some bits of the old one and
    constants. *)
Lemma clear_lor x a b m : clear (Z.lor (Z.land x a) b) m = Z.lor (Z.land x (clear a m)) (clear b m).
Proof. unfold clear. by rewrite Z.land_lor_distr_l, Z.land_assoc. Qed.
Lemma lor_lor x a b c : Z.lor (Z.lor (Z.land x a) b) c = Z.lor (Z.land x a) (Z.lor b c).
Proof. by rewrite Z.lor_assoc. Qed.
Lemma field x a b f : Z.land a f = 0 -> Z.land (Z.lor (Z.land x a) b) f = Z.land b f.
Proof. intros H. by rewrite Z.land_lor_distr_l, <-Z.land_assoc, H, Z.land_0_r. Qed.

(** Bits that are set need not be cleared before. *)
Lemma flags_absorb x a b : Z.lor (Z.land x a) b = Z.lor (Z.land x (Z.lor a b)) b.
Proof. apply Z.bits_inj'. intros n _. rewrite !Z.lor_spec, !Z.land_spec, Z.lor_spec. by destruct (Z.testbit x n), (Z.testbit a n), (Z.testbit b n). Qed.
Lemma same_flags x a b a' b' : b = b' -> Z.lor a b = Z.lor a' b' -> Z.lor (Z.land x a) b = Z.lor (Z.land x a') b'.
Proof. intros -> E. rewrite flags_absorb, E. symmetry. apply flags_absorb. Qed.

(** The bits the file sets. *)
Definition SET_BITS : Z := CBAUD + CSIZE + PARENB + PARODD + CSTOPB + CLOCAL + CREAD.

Definition flags_wanted (cfg : TUYA_UART_BASE_CFG_T) : Z :=
  Z.lor (__baud_to_flag (uc_baudrate cfg)) (Z.lor (match uc_databits cfg with TUYA_UART_DATA_LEN_7BIT => CS7 | _ => CS8 end)
  (Z.lor (match uc_parity cfg with TUYA_UART_PARITY_TYPE_NONE => 0 | TUYA_UART_PARITY_TYPE_ODD => PARENB + PARODD | TUYA_UART_PARITY_TYPE_EVEN => PARENB end)
  (Z.lor (match uc_stopbits cfg with TUYA_UART_STOP_LEN_2BIT => CSTOPB | _ => 0 end) (CLOCAL + CREAD)))).

(** A value that has only bits of the speed. *)
Lemma baud_bits baud : Z.land (__baud_to_flag baud) (Z.lxor 0xFFFFFFFF CBAUD) = 0 /\ Z.land (__baud_to_flag baud) CBAUD = __baud_to_flag baud.
Proof. unfold __baud_to_flag. repeat case_match; done. Qed.

Lemma configured_cflag cfg tio : c_cflag (configured cfg tio) = Z.lor (Z.land (c_cflag tio) (Z.lxor 0xFFFFFFFF SET_BITS)) (flags_wanted cfg).
Proof.
  unfold configured, flags_wanted, cfsetspeed, cfmakeraw. cbn [c_cflag]. generalize (c_cflag tio). intros c. destruct cfg as [b p d t f]. cbn [uc_baudrate uc_parity uc_databits uc_stopbits]. change (clear c (CSIZE + PARENB)) with (Z.land c (Z.lxor 0xFFFFFFFF (CSIZE + PARENB))).
  unfold __baud_to_flag. destruct p, d, t; repeat case_match; repeat (rewrite clear_lor || rewrite lor_lor); by apply same_flags.
Qed.

(** The settings describe the line that is asked for, when the file knows it; input and output
    are not changed on their way; the other bits of the control modes, hardware flow control
    among them, stay as they were, whatever the configuration says of it. *)
Lemma configured_line cfg tio : (supported cfg -> line_of (c_cflag (configured cfg tio)) = line_asked cfg) /\
  Z.land (c_cflag (configured cfg tio)) (Z.lxor 0xFFFFFFFF SET_BITS) = Z.land (c_cflag tio) (Z.lxor 0xFFFFFFFF SET_BITS) /\
  c_iflag (configured cfg tio) = 0 /\ c_oflag (configured cfg tio) = 0 /\ c_lflag (configured cfg tio) = 0.
Proof.
  rewrite configured_cflag. split; [|split; [|done]].
  - intros (Hb & Hd & Ht). unfold line_of. rewrite !field by done. unfold line_asked, flags_wanted. destruct cfg as [b p d t f]. cbn [uc_baudrate uc_parity uc_databits uc_stopbits] in *.
    rewrite !elem_of_cons, elem_of_nil in Hb. rewrite !elem_of_cons, elem_of_nil in Hd. rewrite !elem_of_cons, elem_of_nil in Ht. destruct Hb as [->|[->|[->|[->|[->|[->|[->|[->|[]]]]]]]]], Hd as [->|[->|[]]], Ht as [->|[->|[]]], p; done.
  - rewrite Z.land_lor_distr_l, <-Z.land_assoc, Z.land_diag. replace (Z.land (flags_wanted cfg) (Z.lxor 4294967295 SET_BITS)) with 0; [by rewrite Z.lor_0_r|]. unfold flags_wanted, __baud_to_flag. destruct cfg as [b p d t f]. cbn [uc_baudrate uc_parity uc_databits uc_stopbits]. destruct p, d, t; repeat case_match; done.
Qed.

(** Characters of five bits, with a stop of one and a half, at an unusual speed, become
    characters of eight bits with one stop bit at 115200. *)
Example unsupported_line f tio : line_of (c_cflag (configured (mkUartCfg 300 TUYA_UART_PARITY_TYPE_NONE TUYA_UART_DATA_LEN_5BIT TUYA_UART_STOP_LEN_1_5BIT1 f) tio)) = mkLine (Some 115200) 8 None 2.
Proof. rewrite configured_cflag. unfold line_of. rewrite !field by done. done. Qed.

(** ** Terminals and threads *)

(** What happened on a port: bytes written and read, and calls that failed. *)
Inductive tty_call := TOpen | TGetattr | TSetattr | TWrite | TRead.
Inductive tty_ev := TWrote (p : Z) (d : list Z) | TGot (p : Z) (d : list Z) | TFailed (p : Z) (c : tty_call).

(** Open descriptors with the port they are for and their settings, threads with their
    port, and what happened so far. *)
Class Tty (K : Type) := {
  t_open : Z -> M K Z;
  t_close : Z -> M K unit;
  t_getattr : Z -> M K (option termios);
  t_setattr : Z -> termios -> M K bool;
  t_write : Z -> list Z -> M K Z;
  t_read : Z -> Z -> M K (Z * list Z);
  t_spawn : Z -> M K (option Z);                   (** [pthread_create] of a handler *)
  t_cancel : Z -> M K unit;                        (** [pthread_cancel] and [pthread_join] *)
  tt_fds : K -> gmap Z (Z * termios);
  tt_threads : K -> gmap Z (Z * unit);
  tt_log : K -> list tty_ev;
  t_can_spawn : bool;                              (** does the system let the process have threads? *)
  tt_rest (k k' : K) : Prop := tt_threads k' = tt_threads k /\ tt_log k' = tt_log k;
  tt_adds (e : tty_ev) (k k' : K) : Prop := tt_threads k' = tt_threads k /\ tt_fds k' = tt_fds k /\ tt_log k' = tt_log k ++ [e];
  t_open_ok p k : wp (t_open p) (fun fd k' => if fd <? 0 then tt_adds (TFailed p TOpen) k k' else tt_rest k k' /\ tt_fds k !! fd = None /\ exists tio, tt_fds k' = <[fd := (p, tio)]> (tt_fds k)) k;
  t_close_ok fd x k : tt_fds k !! fd = Some x -> wp (t_close fd) (fun _ k' => tt_rest k k' /\ tt_fds k' = delete fd (tt_fds k)) k;
  t_getattr_ok fd p tio k : tt_fds k !! fd = Some (p, tio) -> wp (t_getattr fd) (fun r k' => match r with None => tt_adds (TFailed p TGetattr) k k' | Some tio' => tio' = tio /\ tt_rest k k' /\ tt_fds k' = tt_fds k end) k;
  t_setattr_ok fd p tio tio' k : tt_fds k !! fd = Some (p, tio) -> wp (t_setattr fd tio') (fun b k' => if b : bool then tt_rest k k' /\ tt_fds k' = <[fd := (p, tio')]> (tt_fds k) else tt_adds (TFailed p TSetattr) k k') k;
  (** A short write or read has its number of bytes. *)
  t_write_ok fd p tio l k : tt_fds k !! fd = Some (p, tio) -> wp (t_write fd l) (fun r k' => r <= Z.of_nat (length l) /\ tt_adds (if r <? 0 then TFailed p TWrite else TWrote p (take (Z.to_nat r) l)) k k') k;
  t_read_ok fd p tio n k : tt_fds k !! fd = Some (p, tio) -> 0 <= n -> wp (t_read fd n) (fun r k' => fst r <= n /\ (0 <= fst r -> Z.of_nat (length (snd r)) = fst r) /\ tt_adds (if fst r <? 0 then TFailed p TRead else TGot p (snd r)) k k') k;
  t_spawn_ok p k : wp (t_spawn p) (fun r k' => tt_fds k' = tt_fds k /\ tt_log k' = tt_log k /\ match r with None => t_can_spawn = false /\ tt_threads k' = tt_threads k | Some t => t_can_spawn = true /\ tt_threads k !! t = None /\ tt_threads k' = <[t := (p, tt)]> (tt_threads k) end) k;
  t_cancel_ok t x k : tt_threads k !! t = Some x -> wp (t_cancel t) (fun _ k' => tt_fds k' = tt_fds k /\ tt_log k' = tt_log k /\ tt_threads k' = delete t (tt_threads k)) k
}.

Record uart_dev_t := mkUart { ud_fd : Z; ud_tid : Z; ud_rx_cb : Z }.
(** The table, the kernel, and the callbacks made with their arguments. *)
Record usys (K : Type) := USys { us_dev : list uart_dev_t; us_kernel : K; us_calls : list (Z * Z) }.
Arguments USys {K}. Arguments us_dev {K}. Arguments us_kernel {K}. Arguments us_calls {K}.
Definition UARTS : Z := 3.

Section Uart.
Context {K : Type} `{!Tty K}.
Local Abbreviation W := (M (usys K)).

Definition on_kernel {R} (c : M K R) : W R := fun s =>
  match c (us_kernel s) with Ret r k => Ret r (USys (us_dev s) k (us_calls s)) | Fault => Fault | Diverge => Diverge end.
(** An access outside of the table is undefined. *)
Definition get_dev (p : Z) : W uart_dev_t := fun s => match us_dev s !! Z.to_nat p with Some x => Ret x s | None => Fault end.
Definition upd_dev (p : Z) (f : uart_dev_t -> uart_dev_t) : W unit := x <- get_dev p ;; modify (fun s => USys (<[Z.to_nat p := f x]> (us_dev s)) (us_kernel s) (us_calls s)).

Definition TUYA_UART_GET_PORT_NUMBER (port_id : Z) : Z := Z.land port_id 0xFFFF.

(** ** Operations *)

Definition __configure_uart (fd : Z) (cfg : TUYA_UART_BASE_CFG_T) : W OPERATE_RET :=
  tio <- on_kernel (t_getattr fd) ;;
  match tio with
  | None => ret OPRT_COM_ERROR
  | Some tio =>
    ok <- on_kernel (t_setattr fd (configured cfg tio)) ;;
    if negb ok then ret OPRT_COM_ERROR else ret OPRT_OK
  end.

(** A turn of the loop of the thread of port [p]; [readable]: there was input. *)
Definition __uart_irq_handler (p : Z) (readable : bool) : W unit :=
  x <- get_dev p ;;
  when (readable && negb (ud_rx_cb x =? 0)) (modify (fun s => USys (us_dev s) (us_kernel s) (us_calls s ++ [(ud_rx_cb x, 0)]))).

Definition tkl_uart_init (port_id : Z) (cfg : TUYA_UART_BASE_CFG_T) : W OPERATE_RET :=
  let port_num := TUYA_UART_GET_PORT_NUMBER port_id in
  if UARTS <=? port_num then ret OPRT_INVALID_PARM
  else
    fd <- on_kernel (t_open port_num) ;;
    if fd <? 0 then ret OPRT_COM_ERROR
    else
      r <- __configure_uart fd cfg ;;
      if bool_decide (r <> OPRT_OK) then on_kernel (t_close fd) ;;; ret OPRT_COM_ERROR
      else
        upd_dev port_num (fun x => mkUart fd (ud_tid x) (ud_rx_cb x)) ;;;
        t <- on_kernel (t_spawn port_num) ;;
        match t with None => ret tt | Some t => upd_dev port_num (fun x => mkUart (ud_fd x) t (ud_rx_cb x)) end ;;;
        ret OPRT_OK.

Definition tkl_uart_deinit (port_id : Z) : W OPERATE_RET :=
  let port_num := TUYA_UART_GET_PORT_NUMBER port_id in
  x <- get_dev port_num ;;
  on_kernel (t_close (ud_fd x)) ;;;
  (* both branches for port 1 and for the others *)
  on_kernel (t_cancel (ud_tid x)) ;;;
  ret OPRT_OK.

(** [buff] has the bytes the caller claims. *)
Definition tkl_uart_write (port_id : Z) (buff : list Z) (len : Z) : W Z :=
  x <- get_dev (TUYA_UART_GET_PORT_NUMBER port_id) ;;
  if Z.of_nat (length buff) <? len then fault
  else on_kernel (t_write (ud_fd x) (take (Z.to_nat len) buff)).

Definition tkl_uart_rx_irq_cb_reg (port_id rx_cb : Z) : W unit :=
  upd_dev (TUYA_UART_GET_PORT_NUMBER port_id) (fun x => mkUart (ud_fd x) (ud_tid x) rx_cb).
Definition tkl_uart_tx_irq_cb_reg (port_id tx_cb : Z) : W unit := ret tt.

(** The number of bytes, and the bytes. *)
Definition tkl_uart_read (port_id len : Z) : W (Z * list Z) :=
  x <- get_dev (TUYA_UART_GET_PORT_NUMBER port_id) ;;
  on_kernel (t_read (ud_fd x) len).

Definition tkl_uart_set_tx_int : W OPERATE_RET := ret OPRT_NOT_SUPPORTED.
Definition tkl_uart_set_rx_flowctrl : W OPERATE_RET := ret OPRT_NOT_SUPPORTED.
Definition tkl_uart_wait_for_data : W OPERATE_RET := ret OPRT_NOT_SUPPORTED.
Definition tkl_uart_ioctl : W OPERATE_RET := ret OPRT_NOT_SUPPORTED.
End Uart.
