(* ===== verification/TklUartProps.v ===== *)
(** * Serial ports: properties of [TklUart.v]

    A port that was initialised has one descriptor, with the settings that describe the
    line asked for, and one thread; a port that was not has neither. *)

From S2P Require Import Prelude BusTable Client TklUart.

(** ** The abstract machine *)

(** A port in use: its line, and whether a thread waits for its input. *)
Record aport := APort { pt_line : line; pt_thread : bool }.
Record ports := Ports { um_ports : gmap Z aport; um_cb : gmap Z Z; um_log : list tty_ev; um_calls : list (Z * Z) }.
Definition with_log (l : list tty_ev) (m : ports) : ports := Ports (um_ports m) (um_cb m) (um_log m ++ l) (um_calls m).

Inductive uop := UInit (id : Z) (cfg : TUYA_UART_BASE_CFG_T) | UDeinit (id : Z) | UWrite (id : Z) (buff : list Z) (len : Z) | URead (id len : Z) | UReg (id cb : Z) | UInput (p : Z) (readable : bool).
Inductive ures := UDone (r : OPERATE_RET) | UWrote (n : Z) | UGot (n : Z) (d : list Z) | UUnit.
Abbreviation num := TUYA_UART_GET_PORT_NUMBER.

(** [th]: threads can be had.  A port is set up with the line asked for, or a call of the
    kernel has failed; writes and reads are what happened on the port. *)
Inductive ustep (th : bool) (m : ports) : uop -> ures -> ports -> Prop :=
| u_init id cfg : num id < UARTS -> um_ports m !! num id = None -> ustep th m (UInit id cfg) (UDone OPRT_OK) (Ports (<[num id := APort (line_asked cfg) th]> (um_ports m)) (um_cb m) (um_log m) (um_calls m))
| u_init_none id cfg : UARTS <= num id -> ustep th m (UInit id cfg) (UDone OPRT_INVALID_PARM) m
| u_init_failed id cfg c : num id < UARTS -> c ∈ [TOpen; TGetattr; TSetattr] -> ustep th m (UInit id cfg) (UDone OPRT_COM_ERROR) (with_log [TFailed (num id) c] m)
| u_deinit id x : um_ports m !! num id = Some x -> ustep th m (UDeinit id) (UDone OPRT_OK) (Ports (delete (num id) (um_ports m)) (um_cb m) (um_log m) (um_calls m))
| u_write id x buff len n : um_ports m !! num id = Some x -> 0 <= n <= len -> ustep th m (UWrite id buff len) (UWrote n) (with_log [TWrote (num id) (take (Z.to_nat n) buff)] m)
| u_write_failed id x buff len n : um_ports m !! num id = Some x -> n < 0 -> ustep th m (UWrite id buff len) (UWrote n) (with_log [TFailed (num id) TWrite] m)
| u_read id x len d : um_ports m !! num id = Some x -> Z.of_nat (length d) <= len -> ustep th m (URead id len) (UGot (Z.of_nat (length d)) d) (with_log [TGot (num id) d] m)
| u_read_failed id x len n d : um_ports m !! num id = Some x -> n < 0 -> ustep th m (URead id len) (UGot n d) (with_log [TFailed (num id) TRead] m)
| u_reg id cb : ustep th m (UReg id cb) UUnit (Ports (um_ports m) (<[num id := cb]> (um_cb m)) (um_log m) (um_calls m))
| u_input p readable x cb : um_ports m !! p = Some x -> um_cb m !! p = Some cb ->
    ustep th m (UInput p readable) UUnit (Ports (um_ports m) (um_cb m) (um_log m) (um_calls m ++ (if readable && negb (cb =? 0) then [(cb, 0)] else []))).

(** A port is initialised when it is not in use, with a line the file can set up; the others
    use a port in use, and it is ended when it has a thread. *)
Definition uallowed (m : ports) (o : uop) : Prop :=
  match o with
  | UInit id cfg => num id < UARTS -> supported cfg /\ um_ports m !! num id = None
  | UDeinit id => exists l, um_ports m !! num id = Some (APort l true)
  | UWrite id buff len => is_Some (um_ports m !! num id) /\ 0 <= len <= Z.of_nat (length buff)
  | URead id len => is_Some (um_ports m !! num id) /\ 0 <= len
  | UReg id _ => num id < UARTS
  | UInput p _ => is_Some (um_ports m !! p)
  end.

Section Uart.
Context {K : Type} `{!Tty K}.
Local Abbreviation W := (M (usys K)).

Definition uexec (o : uop) : W ures :=
  match o with
  | UInit id cfg => r <- tkl_uart_init id cfg ;; ret (UDone r)
  | UDeinit id => r <- tkl_uart_deinit id ;; ret (UDone r)
  | UWrite id buff len => n <- tkl_uart_write id buff len ;; ret (UWrote n)
  | URead id len => x <- tkl_uart_read id len ;; ret (UGot (fst x) (snd x))
  | UReg id cb => tkl_uart_rx_irq_cb_reg id cb ;;; ret UUnit
  | UInput p readable => __uart_irq_handler p readable ;;; ret UUnit
  end.

(** The descriptor and the thread of a port, and its record in the table. *)
Definition port_ok (s : usys K) (p : Z) (a : option aport) : Prop :=
  match a with
  | None => owns (tt_fds (us_kernel s)) p None /\ owns (tt_threads (us_kernel s)) p None
  | Some a => exists x tio, us_dev s !! Z.to_nat p = Some x /\ owns (tt_fds (us_kernel s)) p (Some (ud_fd x, tio)) /\ line_of (c_cflag tio) = pt_line a /\
      owns (tt_threads (us_kernel s)) p (if pt_thread a then Some (ud_tid x, tt) else None)
  end.

Record urep (m : ports) (s : usys K) : Prop := {
  ur_len : length (us_dev s) = Z.to_nat UARTS;
  ur_ports p : port_ok s p (um_ports m !! p);
  ur_dom p : is_Some (um_ports m !! p) -> 0 <= p < UARTS;
  ur_cb p : 0 <= p < UARTS -> um_cb m !! p = ud_rx_cb <$> us_dev s !! Z.to_nat p;
  ur_log : tt_log (us_kernel s) = um_log m;
  ur_calls : us_calls s = um_calls m
}.

Lemma num_nonneg id : 0 <= num id.
Proof. unfold num. apply Z.land_nonneg. by right. Qed.

Lemma wp_uart_kernel {R} (c : M K R) Q (s : usys K) : wp c (fun r k => Q r (USys (us_dev s) k (us_calls s))) (us_kernel s) -> wp (on_kernel c) Q s.
Proof. unfold wp, on_kernel. by destruct (c (us_kernel s)). Qed.

Lemma dev_at m s p : urep m s -> 0 <= p < UARTS -> exists x, us_dev s !! Z.to_nat p = Some x.
Proof. intros Hr Hp. apply lookup_lt_is_Some_2. rewrite (ur_len _ _ Hr). lia. Qed.

Lemma wp_get_dev p x Q (s : usys K) : us_dev s !! Z.to_nat p = Some x -> Q x s -> wp (get_dev p) Q s.
Proof. intros E HQ. unfold wp, get_dev. by rewrite E. Qed.
Lemma wp_upd_dev p x f Q (s : usys K) : us_dev s !! Z.to_nat p = Some x -> Q tt (USys (<[Z.to_nat p := f x]> (us_dev s)) (us_kernel s) (us_calls s)) -> wp (upd_dev p f) Q s.
Proof. intros E HQ. unfold upd_dev. apply wp_bind. eapply wp_get_dev; [exact E|]. by apply wp_modify. Qed.

(** The kernel changes only what belongs to port [p], which is then [a]. *)
Lemma rep_port m s s' p a : urep m s -> 0 <= p < UARTS -> length (us_dev s') = length (us_dev s) -> us_calls s' = us_calls s -> tt_log (us_kernel s') = tt_log (us_kernel s) ->
  (ud_rx_cb <$> us_dev s' !! Z.to_nat p = ud_rx_cb <$> us_dev s !! Z.to_nat p) -> (forall q, q <> p -> 0 <= q -> us_dev s' !! Z.to_nat q = us_dev s !! Z.to_nat q) ->
  (forall q o, q <> p -> owns (tt_fds (us_kernel s)) q o -> owns (tt_fds (us_kernel s')) q o) -> (forall q o, q <> p -> owns (tt_threads (us_kernel s)) q o -> owns (tt_threads (us_kernel s')) q o) ->
  port_ok s' p a -> urep (Ports (partial_alter (fun _ => a) p (um_ports m)) (um_cb m) (um_log m) (um_calls m)) s'.
Proof.
  intros [H1 H2 H3 H4 H5 H6] Hp El Ec Eg Ecb Hdev Hfds Hthr Ha. split; cbn; try congruence.
  - intros q. destruct (decide (q = p)) as [->|Hne]; [by rewrite lookup_partial_alter_eq|]. rewrite lookup_partial_alter_ne by done. specialize (H2 q). destruct (um_ports m !! q) as [b|] eqn:E; cbn in *.
    + destruct H2 as (x & tio & Ex & Ho & Hl & Ht). exists x, tio. rewrite Hdev; [|done|apply H3; rewrite E; eauto]. split; [done|]. split; [by apply Hfds|]. split; [done|]. by apply Hthr.
    + destruct H2 as [Ho Ht]. split; [by apply Hfds|by apply Hthr].
  - intros q. destruct (decide (q = p)) as [->|Hne]; [done|]. rewrite lookup_partial_alter_ne by done. apply H3.
  - intros q Hq. rewrite H4 by done. destruct (decide (q = p)) as [->|Hne]; [done|]. rewrite Hdev by (try done; lia). done.
Qed.

Lemma rep_kernel m s k l : urep m s -> tt_fds k = tt_fds (us_kernel s) -> tt_threads k = tt_threads (us_kernel s) -> tt_log k = tt_log (us_kernel s) ++ l -> urep (with_log l m) (USys (us_dev s) k (us_calls s)).
Proof. intros [H1 H2 H3 H4 H5 H6] E1 E2 E3. split; cbn; try done; [|congruence]. intros p. specialize (H2 p). unfold port_ok in *. cbn. by rewrite E1, E2. Qed.

Local Abbreviation ustep := (ustep t_can_spawn).

Lemma init_step m s id cfg : urep m s -> uallowed m (UInit id cfg) -> wp (uexec (UInit id cfg)) (fun r s' => exists m', ustep m (UInit id cfg) r m' /\ urep m' s') s.
Proof.
  intros Hrep Hal. cbn [uexec]. apply wp_bind. unfold tkl_uart_init. cbv zeta.
  destruct (Z.leb_spec UARTS (num id)) as [|Hp]; [apply wp_ret, wp_ret; exists m; split; [by constructor|done]|]. destruct (Hal Hp) as [Hsup Hnone]. clear Hal. pose proof (num_nonneg id) as Hp0. set (p := num id) in *. pose proof (ur_ports _ _ Hrep p) as Hfree. rewrite Hnone in Hfree. destruct Hfree as [Hof Hot].
  assert (forall c s', c ∈ [TOpen; TGetattr; TSetattr] -> urep (with_log [TFailed p c] m) s' -> exists m', ustep m (UInit id cfg) (UDone OPRT_COM_ERROR) m' /\ urep m' s') as Hfail by (intros c s' Hr Hs'; eexists; split; [by constructor|exact Hs']).
  apply wp_bind, wp_uart_kernel. eapply wp_mono; [apply t_open_ok|]. cbv beta. intros fd k Ho. destruct (Z.ltb_spec fd 0) as [Hneg|Hfd]; [destruct Ho as (E1 & E2 & E3); apply wp_ret, wp_ret, (Hfail TOpen); [set_solver|by apply rep_kernel]|]. destruct Ho as ([E1 E2] & Hnew & tio & E3).
  assert (forall k2 c, tt_adds (TFailed p c) k k2 -> c ∈ [TOpen; TGetattr; TSetattr] -> wp (on_kernel (t_close fd) ;;; ret OPRT_COM_ERROR) (fun r s' => wp (ret (UDone r)) (fun r' s' => exists m', ustep m (UInit id cfg) r' m' /\ urep m' s') s') (USys (us_dev s) k2 (us_calls s))) as Hundo.
  { intros k2 c (R1 & R3 & R2) Hc. apply wp_bind, wp_uart_kernel. eapply wp_mono; [eapply t_close_ok; cbn; rewrite R3, E3; apply lookup_insert_eq|]. cbv beta. cbn [us_kernel us_dev us_calls]. intros _ k3 ((F1 & F2) & F3). apply wp_ret, wp_ret, (Hfail c _ Hc). apply rep_kernel; [done|rewrite F3, R3, E3; by apply delete_insert_id|congruence|congruence]. }
  apply wp_bind. unfold __configure_uart. apply wp_bind, wp_uart_kernel. eapply wp_mono; [eapply t_getattr_ok; cbn; rewrite E3; apply lookup_insert_eq|]. cbv beta. cbn [us_kernel us_dev us_calls]. intros r k2 Hr. destruct r as [tio'|]; [|apply wp_ret; rewrite bool_decide_true by done; apply (Hundo k2 TGetattr Hr); set_solver].
  destruct Hr as (-> & [R1a R1b] & R2). apply wp_bind, wp_uart_kernel. eapply wp_mono; [eapply t_setattr_ok; cbn; rewrite R2, E3; apply lookup_insert_eq|]. cbv beta. cbn [us_kernel us_dev us_calls]. intros b k3 Hb. destruct b; cbn [negb]; apply wp_ret; [|rewrite bool_decide_true by done; destruct Hb as (B1 & B2 & B3); apply (Hundo k3 TSetattr); [split; [congruence|split; congruence]|set_solver]]. destruct Hb as [[S1 S2] S3].
  rewrite bool_decide_false by (intros Hx; by apply Hx). rewrite R2, E3, insert_insert_eq in S3. destruct (dev_at m s p Hrep ltac:(lia)) as [x Ex]. apply wp_bind. eapply wp_upd_dev; [exact Ex|]. cbn [us_kernel us_dev us_calls]. pose proof (lookup_lt_Some _ _ _ Ex) as Hlt.
  apply wp_bind, wp_uart_kernel. eapply wp_mono; [apply t_spawn_ok|]. cbv beta. cbn [us_kernel us_dev us_calls]. intros t k4 (T1 & T2 & T3). destruct (configured_line cfg tio) as (Hline & _). specialize (Hline Hsup).
  assert (forall t', tt_threads k4 = (if t_can_spawn then <[t' := (p, tt)]> (tt_threads (us_kernel s)) else tt_threads (us_kernel s)) -> (t_can_spawn = true -> tt_threads (us_kernel s) !! t' = None) ->
    exists m', ustep m (UInit id cfg) (UDone OPRT_OK) m' /\ urep m' (USys (<[Z.to_nat p := mkUart fd t' (ud_rx_cb x)]> (us_dev s)) k4 (us_calls s))) as Hend.
  { intros t' Et Hnt. eexists. split; [by apply u_init|]. apply (rep_port m s _ p (Some (APort (line_asked cfg) t_can_spawn))); cbn [us_kernel us_dev us_calls]; try done; [by rewrite length_insert|congruence|by rewrite list_lookup_insert_eq, Ex| | | |].
    - intros q Hq Hq0. rewrite list_lookup_insert_ne; [done|lia].
    - intros q o Hq Ho. rewrite T1, S3. apply owns_insert_other; [done|done|by left].
    - intros q o Hq Ho. rewrite Et. destruct t_can_spawn; [|done]. apply owns_insert_other; [done|done|left; by apply Hnt].
    - exists (mkUart fd t' (ud_rx_cb x)), (configured cfg tio). cbn [us_dev us_kernel ud_fd ud_tid pt_line pt_thread]. split; [by rewrite list_lookup_insert_eq|]. split; [rewrite T1, S3; eapply owns_insert; [exact Hof|by left]|]. split; [done|]. rewrite Et. destruct t_can_spawn; [|done]. eapply owns_insert; [exact Hot|left; split; [done|by apply Hnt]]. }
  destruct t as [t|].
  - destruct T3 as (Hc & Hnt & T3). apply wp_bind. eapply wp_upd_dev; [cbn; by rewrite list_lookup_insert_eq|]. cbn [us_kernel us_dev us_calls ud_fd ud_rx_cb]. rewrite list_insert_insert_eq. apply wp_ret, wp_ret. apply (Hend t); [by rewrite Hc, T3, S1, R1a, E1|intros _; by rewrite <-E1, <-R1a, <-S1].
  - destruct T3 as [Hc T3]. apply wp_bind, wp_ret, wp_ret, wp_ret. apply (Hend (ud_tid x)); [rewrite Hc; congruence|by rewrite Hc].
Qed.

Lemma deinit_step m s id : urep m s -> uallowed m (UDeinit id) -> wp (uexec (UDeinit id)) (fun r s' => exists m', ustep m (UDeinit id) r m' /\ urep m' s') s.
Proof.
  intros Hrep [l Hl]. cbn [uexec]. apply wp_bind. unfold tkl_uart_deinit. cbv zeta. set (p := num id) in *. pose proof (ur_ports _ _ Hrep p) as Hp. rewrite Hl in Hp. destruct Hp as (x & tio & Ex & Hof & Hline & Hot). cbn [pt_thread] in Hot.
  pose proof (ur_dom _ _ Hrep p ltac:(rewrite Hl; eauto)) as Hdom. apply wp_bind. eapply wp_get_dev; [exact Ex|]. pose proof (owns_lookup _ _ _ _ Hof) as Ef. pose proof (owns_lookup _ _ _ _ Hot) as Et.
  apply wp_bind, wp_uart_kernel. eapply wp_mono; [by eapply t_close_ok|]. cbv beta. intros _ k [[E1 E2] E3]. apply wp_bind, wp_uart_kernel. eapply wp_mono; [eapply t_cancel_ok; cbn; by rewrite E1|]. cbv beta. cbn [us_kernel us_dev us_calls]. intros _ k2 (F1 & F2 & F3). apply wp_ret, wp_ret.
  eexists. split; [by eapply u_deinit|]. apply (rep_port m s _ p None); cbn [us_kernel us_dev us_calls]; try done; [congruence|intros q o Hq Ho; rewrite F1, E3; by eapply owns_delete_other|intros q o Hq Ho; rewrite F3, E1; by eapply owns_delete_other|]. split; cbn [us_kernel]; [rewrite F1, E3; by eapply owns_delete|rewrite F3, E1; by eapply owns_delete].
Qed.

Lemma port_fd m s p : urep m s -> is_Some (um_ports m !! p) -> exists x tio, us_dev s !! Z.to_nat p = Some x /\ tt_fds (us_kernel s) !! ud_fd x = Some (p, tio).
Proof. intros Hrep [a Ha]. pose proof (ur_ports _ _ Hrep p) as Hp. rewrite Ha in Hp. destruct Hp as (x & tio & Ex & Hof & _). exists x, tio. split; [done|]. by apply owns_lookup. Qed.

Lemma ustep_ok m o s : urep m s -> uallowed m o -> wp (uexec o) (fun r s' => exists m', ustep m o r m' /\ urep m' s') s.
Proof.
  intros Hrep Hal. destruct o as [id cfg|id|id buff len|id len|id cb|p readable]; [by apply init_step|by apply deinit_step|..]; cbn [uexec].
  - destruct Hal as [[a Ha] Hlen]. destruct (port_fd m s (num id) Hrep) as (x & tio & Ex & Ef); [by eexists|]. apply wp_bind. unfold tkl_uart_write. apply wp_bind. eapply wp_get_dev; [exact Ex|]. rewrite (proj2 (Z.ltb_ge _ _)) by lia. apply wp_uart_kernel. eapply wp_mono; [by eapply t_write_ok|]. cbv beta.
    intros n k (Hn & E1 & E2 & E3). rewrite length_take in Hn. apply wp_ret. destruct (Z.ltb_spec n 0) as [Hneg|Hpos].
    + eexists. split; [by eapply u_write_failed|]. by apply rep_kernel.
    + eexists. split; [eapply u_write; [done|lia]|]. rewrite take_take, Nat.min_l in E3 by lia. by apply rep_kernel.
  - destruct Hal as [[a Ha] Hlen]. destruct (port_fd m s (num id) Hrep) as (x & tio & Ex & Ef); [by eexists|]. apply wp_bind. unfold tkl_uart_read. apply wp_bind. eapply wp_get_dev; [exact Ex|]. apply wp_uart_kernel. eapply wp_mono; [by eapply t_read_ok|]. cbv beta. intros [n d] k (Hn & Hd & E1 & E2 & E3). cbn [fst snd] in *. apply wp_ret. destruct (Z.ltb_spec n 0) as [Hneg|Hpos].
    + eexists. split; [by eapply u_read_failed|]. by apply rep_kernel.
    + specialize (Hd Hpos). rewrite <-Hd. eexists. split; [eapply u_read; [done|lia]|]. by apply rep_kernel.
  - pose proof (num_nonneg id). set (p := num id) in *. destruct (dev_at m s p Hrep) as [x Ex]; [done|]. pose proof (lookup_lt_Some _ _ _ Ex). apply wp_bind. unfold tkl_uart_rx_irq_cb_reg. eapply wp_upd_dev; [exact Ex|]. apply wp_ret. eexists. split; [constructor|]. fold p. destruct Hrep as [H1 H2 H3 H4 H5 H6]. split; cbn; try done; [by rewrite length_insert| |].
    + intros q. specialize (H2 q). pose proof (H3 q) as Hdom. destruct (um_ports m !! q) as [a|] eqn:Eq; [|exact H2]. destruct H2 as (y & tio & Ey & Hy). specialize (Hdom ltac:(eauto)). destruct (decide (q = p)) as [->|Hne].
      * assert (y = x) as -> by congruence. eexists _, tio. cbn [us_dev us_kernel]. split; [by rewrite list_lookup_insert_eq|]. exact Hy.
      * exists y, tio. cbn [us_dev us_kernel]. split; [rewrite list_lookup_insert_ne by lia; done|done].
    + intros q Hq. destruct (decide (q = p)) as [->|Hne]; [by rewrite lookup_insert_eq, list_lookup_insert_eq|]. rewrite lookup_insert_ne, list_lookup_insert_ne by (try done; lia). by apply H4.
  - destruct Hal as [a Ha]. destruct (port_fd m s p Hrep) as (x & tio & Ex & Ef); [by eexists|]. pose proof (ur_dom _ _ Hrep p ltac:(eauto)) as Hdom. apply wp_bind. unfold __uart_irq_handler. apply wp_bind. eapply wp_get_dev; [exact Ex|].
    pose proof (ur_cb _ _ Hrep p Hdom) as Ecb. rewrite Ex in Ecb. cbn in Ecb. pose proof (u_input t_can_spawn m p readable a (ud_rx_cb x) Ha Ecb) as Hst. destruct (readable && negb (ud_rx_cb x =? 0)); cbn [when].
    + apply wp_modify, wp_ret. eexists. split; [exact Hst|]. destruct Hrep as [H1 H2 H3 H4 H5 H6]. split; cbn; try done. by rewrite H6.
    + apply wp_ret, wp_ret. eexists. split; [exact Hst|]. rewrite app_nil_r. by destruct Hrep.
Qed.


(** Ending a port that was never initialised closes descriptor 0, the standard input of the
    process, and cancels a thread that does not exist. *)
Theorem uart_deinit_closes_stdin (s : usys K) id : us_dev s !! Z.to_nat (num id) = Some (mkUart 0 0 0) ->
  tkl_uart_deinit id s = (on_kernel (t_close 0) ;;; on_kernel (t_cancel 0) ;;; ret OPRT_OK) s.
Proof. intros E. unfold tkl_uart_deinit, bind at 1, get_dev. by rewrite E. Qed.
End Uart.

(** ** Terminals *)

Record demo_tty := mkTty { dt_fds : gmap Z (Z * termios); dt_threads : gmap Z (Z * unit); dt_log : list tty_ev }.
Definition tio0 : termios := mkTio 0x500 5 0x80001CB2 0x8A3B 0 1.
Definition new_key {V} (m : gmap Z V) : Z := above (map_to_list m).*1.
Lemma new_key_fresh {V} (m : gmap Z V) : 0 < new_key m /\ m !! new_key m = None.
Proof.
  destruct (above_new (map_to_list m).*1) as [Hp Hn]. split; [exact Hp|]. destruct (m !! new_key m) eqn:E; [|done]. destruct Hn. apply elem_of_map_to_list in E. by apply (list_elem_of_fmap_2 fst) in E.
Qed.

#[export] Instance demo_tty_ok : Tty demo_tty.
Proof.
  refine {|
    t_open p k := Ret (new_key (dt_fds k)) (mkTty (<[new_key (dt_fds k) := (p, tio0)]> (dt_fds k)) (dt_threads k) (dt_log k));
    t_close fd k := Ret tt (mkTty (delete fd (dt_fds k)) (dt_threads k) (dt_log k));
    t_getattr fd k := Ret (snd <$> dt_fds k !! fd) k;
    t_setattr fd tio k := Ret true (mkTty (alter (fun x => (x.1, tio)) fd (dt_fds k)) (dt_threads k) (dt_log k));
    t_write fd l k := match dt_fds k !! fd with Some x => Ret (Z.of_nat (length l)) (mkTty (dt_fds k) (dt_threads k) (dt_log k ++ [TWrote x.1 l])) | None => Ret (-1) k end;
    t_read fd n k := match dt_fds k !! fd with Some x => let d := replicate (Z.to_nat (Z.min n 1)) 65 in Ret (Z.of_nat (length d), d) (mkTty (dt_fds k) (dt_threads k) (dt_log k ++ [TGot x.1 d])) | None => Ret (-1, []) k end;
    t_can_spawn := true;
    t_spawn p k := Ret (Some (new_key (dt_threads k))) (mkTty (dt_fds k) (<[new_key (dt_threads k) := (p, tt)]> (dt_threads k)) (dt_log k));
    t_cancel t k := Ret tt (mkTty (dt_fds k) (delete t (dt_threads k)) (dt_log k));
    tt_fds := dt_fds; tt_threads := dt_threads; tt_log := dt_log |}.
  - intros p k. destruct (new_key_fresh (dt_fds k)). unfold wp. rewrite (proj2 (Z.ltb_ge _ 0)) by lia. cbn. split; [done|]. split; [done|]. by exists tio0.
  - by intros fd x k _.
  - intros fd p tio k E. unfold wp. cbn. rewrite E. done.
  - intros fd p tio tio' k E. unfold wp. cbn. split; [done|]. apply map_eq. intros i. destruct (decide (i = fd)) as [->|]; [by rewrite lookup_alter_eq, E, lookup_insert_eq|by rewrite lookup_alter_ne, lookup_insert_ne].
  - intros fd p tio l k E. unfold wp. rewrite E. rewrite (proj2 (Z.ltb_ge _ 0)) by lia. split; [lia|]. by rewrite Nat2Z.id, take_ge.
  - intros fd p tio n k E Hn. unfold wp. rewrite E. cbv zeta. cbn [fst snd]. rewrite (proj2 (Z.ltb_ge _ 0)) by lia. split; [rewrite length_replicate; lia|]. done.
  - intros p k. destruct (new_key_fresh (dt_threads k)). unfold wp. cbn. done.
  - by intros t x k _.
Defined.

Definition uart_demo : usys demo_tty := USys [mkUart 0 0 0; mkUart 0 0 0; mkUart 0 0 0] (mkTty ∅ ∅ []) [].
Definition uart_demo_abs : ports := Ports ∅ {[0 := 0; 1 := 0; 2 := 0]} [] [].

Lemma owns_empty {F} p : owns (∅ : gmap Z (Z * F)) p None.
Proof. intros fd st. rewrite lookup_empty. by split. Qed.

Lemma uart_demo_ok : urep uart_demo_abs uart_demo.
Proof.
  split; [done|intros p; split; apply owns_empty|intros p [a Ha]; done| |done|done].
  intros p Hp. unfold UARTS in Hp. assert (p = 0 \/ p = 1 \/ p = 2) as [->|[->| ->]] by lia; done.
Qed.

Definition uart_cfg : TUYA_UART_BASE_CFG_T := mkUartCfg 9600 TUYA_UART_PARITY_TYPE_ODD TUYA_UART_DATA_LEN_7BIT TUYA_UART_STOP_LEN_2BIT TUYA_UART_FLOWCTRL_NONE.
(** Port 1 is set up and gets a callback, a write and input, and is ended. *)
Definition uart_demo_client : client uop ures :=
  Call (UReg 1 5) (fun _ => Call (UInit 1 uart_cfg) (fun r =>
  match r with
  | UDone OPRT_OK => Call (UWrite 1 [72; 105] 2) (fun _ => Call (UInput 1 true) (fun _ => Call (UDeinit 1) (fun _ => Stop)))
  | _ => Stop
  end)).

Lemma uart_demo_follows : follows (ustep true) uallowed uart_demo_abs uart_demo_client.
Proof.
  split; [done|]. intros r m H. inversion H; subst; clear H. split; [intros _; split; [|done]; unfold supported; cbn; set_solver|]. intros r m H. inversion H; subst; clear H; cbn [um_ports]; try done.
  split; [split; [by eexists|cbn; lia]|]. intros r m H. assert (um_ports m !! num 1 = Some (APort (line_asked uart_cfg) true)) as Hp by (inversion H; subst; done). clear H. split; [by eexists|]. intros r' m' H. assert (um_ports m' !! num 1 = Some (APort (line_asked uart_cfg) true)) as Hp' by (inversion H; subst; done). clear H. split; [by eexists|done].
Qed.


(** The callback of port 1 is called for port 0; the line is as asked for. *)
Example uart_demo_run :
  match exec uexec uart_demo_client uart_demo with
  | Ret h s => us_calls s = [(5, 0)] /\ dt_log (us_kernel s) = [TWrote 1 [72; 105]] /\ dt_fds (us_kernel s) = ∅
  | _ => False
  end /\
  match uexec (UInit 1 uart_cfg) uart_demo with
  | Ret h s => (line_of <$> ((fun x => c_cflag x.2.2) <$> map_to_list (dt_fds (us_kernel s)))) = [mkLine (Some 9600) 7 (Some true) 4]
  | _ => False
  end.
Proof. by vm_compute. Qed.
