(* ===== verification/TklUartRedirect.v ===== *)
(** * Serial ports on the console: [src/tkl_uart.c] with [TKL_UART_REDIRECT_LOG_TO_STDOUT]

    In this build port 0 is the console, read from the standard input and written to the
    standard output, and port 1 is a UDP socket; port 2 is nothing.  Datagrams are handed to
    the application one byte at a time: the thread of port 1 stores a byte in [readchar] and
    calls the callback, which gets it with [tkl_uart_read].  Descriptors, terminals, sockets
    and threads are a parameter, the class [Console]; the callbacks are those of the
    application, a parameter of the handlers. *)

From S2P Require Import Prelude TklUart.

(** ** The system *)

(** Descriptors and threads of the process, the bytes written to the standard output, and, by
    their descriptor, the datagrams given to [sendto], each with whether it was sent, and the
    answers of [recvfrom], a datagram or an error. *)
Record con_obs := ConObs { co_fds : gset Z; co_threads : gset Z; co_out : list Z; co_sent : list (Z * (list Z * bool)); co_rcvd : list (Z * option (list Z)) }.
Definition with_con_fds v o := ConObs v (co_threads o) (co_out o) (co_sent o) (co_rcvd o).
Definition with_con_threads v o := ConObs (co_fds o) v (co_out o) (co_sent o) (co_rcvd o).
Definition with_con_out v o := ConObs (co_fds o) (co_threads o) v (co_sent o) (co_rcvd o).
Definition with_con_sent v o := ConObs (co_fds o) (co_threads o) (co_out o) v (co_rcvd o).
Definition with_con_rcvd v o := ConObs (co_fds o) (co_threads o) (co_out o) (co_sent o) v.

Class Console (K : Type) := {
  con_open_stdin : M K Z;
  con_getattr : Z -> M K (option termios);
  con_setattr : Z -> termios -> M K bool;
  con_socket : M K Z;
  con_bind : Z -> M K Z;
  con_close : Z -> M K unit;
  con_read : Z -> Z -> M K (Z * list Z);
  con_write_out : list Z -> M K Z;
  con_sendto : Z -> list Z -> M K Z;
  con_recvfrom : Z -> Z -> M K (Z * list Z);
  con_spawn : M K (option Z);                     (** [pthread_create] of a handler *)
  con_cancel : Z -> M K unit;                     (** [pthread_cancel] and [pthread_join] *)
  con_view : K -> con_obs;
  con_open_ok k : wp con_open_stdin (fun fd k' => (fd < 0 /\ con_view k' = con_view k) \/ (0 <= fd /\ fd ∉ co_fds (con_view k) /\ con_view k' = with_con_fds (co_fds (con_view k) ∪ {[fd]}) (con_view k))) k;
  con_getattr_ok fd k : wp (con_getattr fd) (fun _ k' => con_view k' = con_view k) k;
  con_setattr_ok fd t k : wp (con_setattr fd t) (fun _ k' => con_view k' = con_view k) k;
  con_socket_ok k : wp con_socket (fun fd k' => (fd = -1 /\ con_view k' = con_view k) \/ (0 <= fd /\ fd ∉ co_fds (con_view k) /\ con_view k' = with_con_fds (co_fds (con_view k) ∪ {[fd]}) (con_view k))) k;
  (** Nothing can be bound without a descriptor. *)
  con_bind_ok fd k : wp (con_bind fd) (fun r k' => con_view k' = con_view k /\ (r = 0 \/ r = -1) /\ (fd < 0 -> r = -1)) k;
  con_close_ok fd k : fd ∈ co_fds (con_view k) -> wp (con_close fd) (fun _ k' => con_view k' = with_con_fds (co_fds (con_view k) ∖ {[fd]}) (con_view k)) k;
  con_read_ok fd n k : fd ∈ co_fds (con_view k) -> 0 <= n -> wp (con_read fd n) (fun r k' => con_view k' = con_view k /\ -1 <= fst r <= n /\ (0 <= fst r -> Z.of_nat (length (snd r)) = fst r)) k;
  con_write_ok d k : wp (con_write_out d) (fun r k' => -1 <= r <= Z.of_nat (length d) /\ con_view k' = with_con_out (co_out (con_view k) ++ take (Z.to_nat r) d) (con_view k)) k;
  (** A datagram is sent as a whole or not at all. *)
  con_sendto_ok fd d k : fd ∈ co_fds (con_view k) -> wp (con_sendto fd d) (fun r k' => (r = -1 /\ con_view k' = with_con_sent (co_sent (con_view k) ++ [(fd, (d, false))]) (con_view k)) \/ (r = Z.of_nat (length d) /\ con_view k' = with_con_sent (co_sent (con_view k) ++ [(fd, (d, true))]) (con_view k))) k;
  (** What does not fit is lost. *)
  con_recv_ok fd n k : fd ∈ co_fds (con_view k) -> 0 <= n -> wp (con_recvfrom fd n) (fun r k' => (fst r = -1 /\ snd r = [] /\ con_view k' = with_con_rcvd (co_rcvd (con_view k) ++ [(fd, None)]) (con_view k)) \/
    (fst r = Z.of_nat (length (snd r)) /\ fst r <= n /\ con_view k' = with_con_rcvd (co_rcvd (con_view k) ++ [(fd, Some (snd r))]) (con_view k))) k;
  con_spawn_ok k : wp con_spawn (fun r k' => match r with None => con_view k' = con_view k | Some t => t ∉ co_threads (con_view k) /\ con_view k' = with_con_threads (co_threads (con_view k) ∪ {[t]}) (con_view k) end) k;
  con_cancel_ok t k : t ∈ co_threads (con_view k) -> wp (con_cancel t) (fun _ k' => con_view k' = with_con_threads (co_threads (con_view k) ∖ {[t]}) (con_view k)) k
}.

(** ** State *)

(** The size of [readbuff] *)
Definition READBUFF : Z := 1024.
Record redirected_dev := mkRdev { rv_fd : Z; rv_tid : Z; rv_rx_cb : Z; rv_readchar : Z; rv_readbuff : list Z }.
(** The table, the kernel, the calls of callbacks with their arguments, and what the
    application has made of them. *)
Record rsys (K : Type) := RSys { rs_dev : list redirected_dev; rs_kernel : K; rs_calls : list (Z * Z); rs_app : list Z }.
Arguments RSys {K}. Arguments rs_dev {K}. Arguments rs_kernel {K}. Arguments rs_calls {K}. Arguments rs_app {K}.

(** The process goes on with a value, or has ended. *)
Inductive alive (A : Type) := Goes (a : A) | Exit (code : Z).
Arguments Goes {A}. Arguments Exit {A}.

(** Flags of a terminal *)
Definition ICANON : Z := 2.
Definition ECHO : Z := 8.
Definition IXON : Z := 0x400.
Definition ICRNL : Z := 0x100.
(** Keys one by one and without echo, line feeds and control characters as they are. *)
Definition term_vi (t : termios) : termios :=
  mkTio (Z.land (c_iflag t) (Z.land (Z.lxor 0xFFFFFFFF IXON) (Z.lxor 0xFFFFFFFF ICRNL))) (c_oflag t) (c_cflag t) (Z.land (c_lflag t) (Z.land (Z.lxor 0xFFFFFFFF ICANON) (Z.lxor 0xFFFFFFFF ECHO))) (c_vtime t) (c_vmin t).

Section Redirect.
Context {K : Type} `{!Console K}.
Local Abbreviation W := (M (rsys K)).
(** The settings that are there when they cannot be read: a variable without a value. *)
Variable stack_tio : termios.

Definition on_con {R} (c : M K R) : W R := fun s =>
  match c (rs_kernel s) with Ret r k => Ret r (RSys (rs_dev s) k (rs_calls s) (rs_app s)) | Fault => Fault | Diverge => Diverge end.
Definition get_rdev (p : Z) : W redirected_dev := fun s => match rs_dev s !! Z.to_nat p with Some x => Ret x s | None => Fault end.
Definition upd_rdev (p : Z) (f : redirected_dev -> redirected_dev) : W unit := x <- get_rdev p ;; modify (fun s => RSys (<[Z.to_nat p := f x]> (rs_dev s)) (rs_kernel s) (rs_calls s) (rs_app s)).
Definition set_fd (v : Z) (x : redirected_dev) : redirected_dev := mkRdev v (rv_tid x) (rv_rx_cb x) (rv_readchar x) (rv_readbuff x).
Definition set_tid (v : Z) (x : redirected_dev) : redirected_dev := mkRdev (rv_fd x) v (rv_rx_cb x) (rv_readchar x) (rv_readbuff x).
Definition set_cb (v : Z) (x : redirected_dev) : redirected_dev := mkRdev (rv_fd x) (rv_tid x) v (rv_readchar x) (rv_readbuff x).
Definition set_readchar (v : Z) (x : redirected_dev) : redirected_dev := mkRdev (rv_fd x) (rv_tid x) (rv_rx_cb x) v (rv_readbuff x).
Definition set_readbuff (v : list Z) (x : redirected_dev) : redirected_dev := mkRdev (rv_fd x) (rv_tid x) (rv_rx_cb x) (rv_readchar x) v.

(** A thread was started for a port, or not: its number is kept then. *)
Definition start_handler (p : Z) : W unit := t <- on_con con_spawn ;; match t with None => ret tt | Some t => upd_rdev p (set_tid t) end.

Definition tkl_uart_init (port_id : Z) : W (alive OPERATE_RET) :=
  let port_num := TUYA_UART_GET_PORT_NUMBER port_id in
  if UARTS <=? port_num then ret (Goes OPRT_INVALID_PARM)
  else if port_num =? 0 then
    fd <- on_con con_open_stdin ;;
    upd_rdev port_num (set_fd fd) ;;;
    if fd <? 0 then ret (Goes OPRT_COM_ERROR)
    else
      t <- on_con (con_getattr fd) ;;
      _ <- on_con (con_setattr fd (term_vi (default stack_tio t))) ;;
      start_handler port_num ;;;
      ret (Goes OPRT_OK)
  else if port_num =? 1 then
    fd <- on_con con_socket ;;
    upd_rdev port_num (set_fd fd) ;;;
    r <- on_con (con_bind fd) ;;
    if r =? -1 then ret (Exit 1)
    else start_handler port_num ;;; ret (Goes OPRT_OK)
  else ret (Goes OPRT_OK).

Definition tkl_uart_deinit (port_id : Z) : W OPERATE_RET :=
  let port_num := TUYA_UART_GET_PORT_NUMBER port_id in
  x <- get_rdev port_num ;;
  on_con (con_close (rv_fd x)) ;;;
  when (port_num =? 1) (on_con (con_cancel (rv_tid x))) ;;;
  ret OPRT_OK.

(** [buff] has the bytes the caller claims. *)
Definition tkl_uart_write (port_id : Z) (buff : list Z) (len : Z) : W Z :=
  let port_num := TUYA_UART_GET_PORT_NUMBER port_id in
  if Z.of_nat (length buff) <? len then fault
  else if port_num =? 0 then on_con (con_write_out (take (Z.to_nat len) buff))
  else if port_num =? 1 then x <- get_rdev port_num ;; on_con (con_sendto (rv_fd x) (take (Z.to_nat len) buff))
  else ret (-1).

Definition tkl_uart_rx_irq_cb_reg (port_id rx_cb : Z) : W unit := upd_rdev (TUYA_UART_GET_PORT_NUMBER port_id) (set_cb rx_cb).

(** The result, and the bytes stored.  For port 1 the length is not looked at. *)
Definition tkl_uart_read (port_id len : Z) : W (Z * list Z) :=
  let port_num := TUYA_UART_GET_PORT_NUMBER port_id in
  if port_num =? 0 then x <- get_rdev port_num ;; on_con (con_read (rv_fd x) len)
  else if port_num =? 1 then x <- get_rdev port_num ;; ret (1, [rv_readchar x])
  else ret (-1, []).

(** ** Threads *)

(** What the callback with a number does when it is called for a port. *)
Variable callback : Z -> Z -> W unit.
Definition call_rx (cb arg : Z) : W unit := modify (fun s => RSys (rs_dev s) (rs_kernel s) (rs_calls s ++ [(cb, arg)]) (rs_app s)) ;;; callback cb arg.

(** A turn of the loop of port [p]; [readable]: there was input. *)
Definition __irq_handler (p : Z) (readable : bool) : W unit :=
  when readable (x <- get_rdev p ;; when (negb (rv_rx_cb x =? 0)) (call_rx (rv_rx_cb x) 0)).

Fixpoint byte_loop (fuel : nat) (p i readlen : Z) : W unit :=
  match fuel with
  | O => out_of_fuel
  | S fuel =>
    if i <? readlen then
      x <- get_rdev p ;;
      match rv_readbuff x !! Z.to_nat i with
      | None => fault
      | Some b =>
        upd_rdev p (set_readchar b) ;;;
        x <- get_rdev p ;;
        when (negb (rv_rx_cb x =? 0)) (call_rx (rv_rx_cb x) 1) ;;;
        byte_loop fuel p (i + 1) readlen
      end
    else ret tt
  end.

Definition __udp_irq_handler (p : Z) (readable : bool) : W unit :=
  when readable
    (x <- get_rdev p ;;
     r <- on_con (con_recvfrom (rv_fd x) READBUFF) ;;
     upd_rdev p (fun x => set_readbuff (snd r ++ drop (length (snd r)) (rv_readbuff x)) x) ;;;
     byte_loop (S (Z.to_nat (fst r))) p 0 (fst r)).
End Redirect.
