(* ===== verification/TklUartRedirectProps.v ===== *)
(** * Serial ports on the console: properties of [TklUartRedirect.v]

    An application whose callback reads one byte each time gets the bytes of the datagrams
    that were received, all of them and in order. *)

From S2P Require Import Prelude TklUart TklUartRedirect.

Section Props.
Context {K : Type} `{!Console K}.
Local Abbreviation S_ := (rsys K).

(** ** Accesses *)

Lemma wp_on_con {R} (c : M K R) (P : R -> K -> Prop) (s : S_) (Q : R -> S_ -> Prop) : wp c P (rs_kernel s) -> (forall r k, P r k -> Q r (RSys (rs_dev s) k (rs_calls s) (rs_app s))) -> wp (on_con c) Q s.
Proof. unfold wp, on_con. destruct (c (rs_kernel s)); naive_solver. Qed.
Lemma wp_get_rdev p x (s : S_) (Q : redirected_dev -> S_ -> Prop) : rs_dev s !! Z.to_nat p = Some x -> Q x s -> wp (get_rdev p) Q s.
Proof. intros E HQ. unfold wp, get_rdev. by rewrite E. Qed.
Lemma wp_upd_rdev p f x (s : S_) (Q : unit -> S_ -> Prop) : rs_dev s !! Z.to_nat p = Some x -> Q tt (RSys (<[Z.to_nat p := f x]> (rs_dev s)) (rs_kernel s) (rs_calls s) (rs_app s)) -> wp (upd_rdev p f) Q s.
Proof. intros E HQ. unfold upd_rdev. apply wp_bind. eapply wp_get_rdev; [exact E|]. by apply wp_modify. Qed.

(** ** The bytes of datagrams *)

(** The application: its callback reads a byte from the port it is called for, and keeps it. *)
Definition reader (cb arg : Z) : M S_ unit := r <- tkl_uart_read arg 1 ;; modify (fun s => RSys (rs_dev s) (rs_kernel s) (rs_calls s) (rs_app s ++ snd r)).

(** The port [x] with another byte to read; the callback was called for [bs], which the
    application has read. *)
Definition handed (x : redirected_dev) (bs : list Z) (s s' : S_) : Prop :=
  exists c, s' = RSys (<[1%nat := set_readchar c x]> (rs_dev s)) (rs_kernel s) (rs_calls s ++ replicate (length bs) (rv_rx_cb x, 1)) (rs_app s ++ bs).

Lemma handed_cons x b bs (s s1 s2 : S_) : rs_dev s !! 1%nat = Some x -> handed x [b] s s1 -> handed (set_readchar b x) bs s1 s2 -> handed x (b :: bs) s s2.
Proof.
  intros E [c ->] [c' ->]. exists c'. cbn [rs_dev rs_kernel rs_calls rs_app length replicate]. rewrite list_insert_insert_eq, <-!app_assoc. done.
Qed.

Lemma byte_loop_spec d : forall fuel i (x : redirected_dev) (s : S_), rs_dev s !! 1%nat = Some x -> rv_rx_cb x <> 0 -> d `prefix_of` rv_readbuff x -> (i <= length d)%nat -> (length d - i < fuel)%nat ->
  wp (byte_loop reader fuel 1 (Z.of_nat i) (Z.of_nat (length d))) (fun _ s' => handed x (drop i d) s s') s.
Proof.
  induction fuel as [|fuel IH]; intros i x s Ex Hcb Hd Hi Hf; [lia|]. cbn [byte_loop]. destruct (Z.ltb_spec (Z.of_nat i) (Z.of_nat (length d))) as [Hlt|].
  2:{ apply wp_ret. rewrite drop_ge by lia. exists (rv_readchar x). rewrite !app_nil_r. destruct x, s. cbn in *. by rewrite list_insert_id. }
  destruct (lookup_lt_is_Some_2 d i ltac:(lia)) as [b Eb]. apply wp_bind. eapply wp_get_rdev; [exact Ex|]. rewrite Nat2Z.id, (prefix_lookup_Some _ _ _ _ Eb Hd).
  apply wp_bind. eapply wp_upd_rdev; [exact Ex|]. change (Z.to_nat 1) with 1%nat. pose proof (lookup_lt_Some _ _ _ Ex) as Hl. assert (forall y : redirected_dev, <[1%nat := y]> (rs_dev s) !! 1%nat = Some y) as Ey by (intros; by apply list_lookup_insert_eq).
  apply wp_bind. eapply wp_get_rdev; [apply Ey|]. cbn [set_readchar rv_rx_cb]. rewrite (proj2 (Z.eqb_neq _ _) Hcb). cbn [negb when]. apply wp_bind. unfold call_rx. apply wp_bind, wp_modify. unfold reader, tkl_uart_read. change (TUYA_UART_GET_PORT_NUMBER 1) with 1. cbn [Z.eqb Pos.eqb].
  apply wp_bind, wp_bind. eapply wp_get_rdev; [apply Ey|]. apply wp_ret, wp_modify. cbn [snd rs_dev rs_kernel rs_calls rs_app rv_readchar set_readchar]. replace (Z.of_nat i + 1) with (Z.of_nat (S i)) by lia. eapply wp_mono; [apply (IH (S i) (set_readchar b x)); [apply Ey|done|done|lia|lia]|].
  cbv beta. intros [] s' H'. rewrite (drop_S _ _ _ Eb). eapply handed_cons; [exact Ex| |exact H']. by exists b.
Qed.

(** ** Turns and writes *)

Definition view (s : S_) : con_obs := con_view (rs_kernel s).
(** Port 1 has a descriptor and a callback. *)
Definition port1 (fd cb : Z) (s : S_) : Prop := exists x, rs_dev s !! 1%nat = Some x /\ rv_fd x = fd /\ rv_rx_cb x = cb /\ Z.of_nat (length (rv_readbuff x)) = READBUFF /\ fd ∈ co_fds (view s).
(** The bytes of what was received. *)
Definition bytes_of (rc : list (option (list Z))) : list Z := concat (omap id rc).
Lemma bytes_of_app rc rc' : bytes_of (rc ++ rc') = bytes_of rc ++ bytes_of rc'.
Proof. unfold bytes_of. by rewrite omap_app, concat_app. Qed.
(** After [s] the answers of [recvfrom] were [rc], [ms] were given to [sendto], and nothing else
    happened; the application has the bytes of [rc]. *)
Record moved (fd cb : Z) (rc : list (option (list Z))) (ms : list (list Z * bool)) (s s' : S_) : Prop := {
  mv_view : view s' = with_con_rcvd (co_rcvd (view s) ++ (pair fd <$> rc)) (with_con_sent (co_sent (view s) ++ (pair fd <$> ms)) (view s));
  mv_app : rs_app s' = rs_app s ++ bytes_of rc;
  mv_calls : rs_calls s' = rs_calls s ++ replicate (length (bytes_of rc)) (cb, 1);
  mv_others : forall q, q <> 1%nat -> rs_dev s' !! q = rs_dev s !! q }.

Lemma moved_quiet fd cb rc ms (s s' : S_) : view s' = with_con_rcvd (co_rcvd (view s) ++ (pair fd <$> rc)) (with_con_sent (co_sent (view s) ++ (pair fd <$> ms)) (view s)) -> rs_app s' = rs_app s -> rs_calls s' = rs_calls s -> bytes_of rc = [] -> (forall q, q <> 1%nat -> rs_dev s' !! q = rs_dev s !! q) -> moved fd cb rc ms s s'.
Proof. intros Hv Ha Hc E Ho. split; [done|by rewrite E, app_nil_r|by rewrite E, app_nil_r|done]. Qed.
Lemma moved_nil fd cb (s : S_) : moved fd cb [] [] s s.
Proof. apply moved_quiet; [|done..]. cbn. rewrite !app_nil_r. by destruct (view s). Qed.
Lemma moved_trans fd cb rc ms rc' ms' (s s1 s2 : S_) : moved fd cb rc ms s s1 -> moved fd cb rc' ms' s1 s2 -> moved fd cb (rc ++ rc') (ms ++ ms') s s2.
Proof.
  intros [V1 A1 C1 O1] [V2 A2 C2 O2]. split.
  - rewrite V2, V1. unfold with_con_rcvd, with_con_sent. cbn. by rewrite !fmap_app, !app_assoc.
  - by rewrite A2, A1, bytes_of_app, app_assoc.
  - by rewrite C2, C1, bytes_of_app, length_app, replicate_add, app_assoc.
  - intros q Hq. by rewrite O2, O1.
Qed.

(** A turn with input asks for a datagram once. *)
Lemma udp_turn_spec fd cb b (s : S_) : cb <> 0 -> port1 fd cb s -> wp (__udp_irq_handler reader 1 b) (fun _ s' => port1 fd cb s' /\ exists rc, length rc = Nat.b2n b /\ moved fd cb rc [] s s') s.
Proof.
  intros Hcb Hp. pose proof Hp as (x & Ex & Ef & Ec & Hl & Hfd). destruct b; cbn [__udp_irq_handler when]; [|apply wp_ret; split; [done|]; exists []; split; [done|apply moved_nil]].
  apply wp_bind. eapply wp_get_rdev; [exact Ex|]. rewrite Ef. apply wp_bind. eapply wp_on_con; [by apply con_recv_ok|]. cbv beta. intros [n d] k H. cbn [fst snd] in *. pose proof (lookup_lt_Some _ _ _ Ex) as Hlt. apply wp_bind. eapply wp_upd_rdev; [exact Ex|]. cbn [rs_dev rs_kernel rs_calls rs_app]. change (Z.to_nat 1) with 1%nat.
  destruct H as [(-> & -> & Ev)|(-> & Hn & Ev)].
  - cbn. apply wp_ret. split.
    + eexists. cbn. split; [by apply list_lookup_insert_eq|]. cbn. rewrite drop_0. split; [done|]. split; [done|]. split; [done|]. unfold view. cbn. by rewrite Ev.
    + exists [None]. split; [done|]. apply moved_quiet; [|done|done|done|intros q Hq; cbn; by rewrite list_lookup_insert_ne]. unfold view. cbn. rewrite Ev. unfold with_con_rcvd, with_con_sent. cbn. by rewrite app_nil_r.
  - rewrite Nat2Z.id. set (x' := set_readbuff _ x). assert (length (rv_readbuff x') = length (rv_readbuff x)) as Hl' by (unfold x'; cbn; rewrite length_app, length_drop; lia). eapply wp_mono; [apply (byte_loop_spec d (S (length d)) 0 x'); cbn [rs_dev]; [by apply list_lookup_insert_eq|cbn; congruence|by eexists|lia|lia]|].
    cbv beta. rewrite drop_0. intros [] s' (c & ->). cbn [rs_dev rs_kernel rs_calls rs_app]. rewrite list_insert_insert_eq. split.
    + eexists. cbn [rs_dev]. split; [by apply list_lookup_insert_eq|]. cbn [set_readchar rv_fd rv_rx_cb rv_readbuff]. split; [done|]. split; [done|]. split; [lia|]. unfold view. cbn. by rewrite Ev.
    + exists [Some d]. split; [done|]. split; cbn [rs_app rs_calls rs_dev]; [| | |intros q Hq; by rewrite list_lookup_insert_ne].
      * unfold view. cbn. rewrite Ev. unfold with_con_rcvd, with_con_sent. cbn. by rewrite app_nil_r.
      * cbn. by rewrite app_nil_r.
      * cbn. rewrite app_nil_r, <-Ec. done.
Qed.

Lemma send_spec1 fd cb d (s : S_) : port1 fd cb s -> wp (tkl_uart_write 1 d (Z.of_nat (length d))) (fun r s' => port1 fd cb s' /\ (r = -1 \/ r = Z.of_nat (length d)) /\ moved fd cb [] [(d, negb (r =? -1))] s s') s.
Proof.
  intros Hp. pose proof Hp as (x & Ex & Ef & Ec & Hl & Hfd). unfold tkl_uart_write. rewrite Z.ltb_irrefl. change (TUYA_UART_GET_PORT_NUMBER 1) with 1. cbn [Z.eqb Pos.eqb]. rewrite Nat2Z.id, take_ge by lia. apply wp_bind. eapply wp_get_rdev; [exact Ex|]. rewrite Ef. eapply wp_on_con; [by apply con_sendto_ok|]. cbv beta.
  intros r k H. assert ((r = -1 \/ r = Z.of_nat (length d)) /\ con_view k = with_con_sent (co_sent (view s) ++ [(fd, (d, negb (r =? -1)))]) (view s)) as [Hr Ev] by (destruct H as [[-> Ev]|[-> Ev]]; [by auto|split; [by right|]; by rewrite (proj2 (Z.eqb_neq _ _)) by lia]). clear H.
  split; [exists x; cbn; unfold view; cbn; rewrite Ev; done|]. split; [done|]. apply moved_quiet; [|done..]. unfold view at 1. cbn. rewrite Ev. unfold with_con_rcvd, with_con_sent. cbn. by rewrite app_nil_r.
Qed.

(** Turns of the thread of port 1, and writes to the port with their results. *)
Inductive rop := RTurn (readable : bool) | RSend (d : list Z).
Definition rexec (o : rop) : M S_ (option Z) := match o with RTurn b => __udp_irq_handler reader 1 b ;;; ret None | RSend d => r <- tkl_uart_write 1 d (Z.of_nat (length d)) ;; ret (Some r) end.
Fixpoint rrun (l : list rop) : M S_ (list (rop * option Z)) := match l with [] => ret [] | o :: l => r <- rexec o ;; h <- rrun l ;; ret ((o, r) :: h) end.
(** The writes of a history with whether they succeeded, and the number of turns with input. *)
Definition writes (h : list (rop * option Z)) : list (list Z * bool) := omap (fun x => match x with (RSend d, Some r) => Some (d, negb (r =? -1)) | _ => None end) h.
Fixpoint inputs (l : list rop) : nat := match l with [] => 0 | RTurn b :: l => Nat.b2n b + inputs l | RSend _ :: l => inputs l end.
(** A write has a result: the length of what was sent, or an error. *)
Definition res_ok (x : rop * option Z) : Prop := match x with (RTurn _, r) => r = None | (RSend d, r) => r = Some (-1) \/ r = Some (Z.of_nat (length d)) end.

(** C22: bytes over UDP in the build for the console.  Whatever the sequence of turns of the
    thread of port 1 and of writes to it, every turn with input asks for one datagram, and an
    application whose callback reads one byte each time has exactly the bytes of the
    datagrams that were received, in order and one call for each; every write gives its bytes
    to [sendto] once, whole and in order, and returns their number when the datagram was sent
    and -1 when it was not; no access leaves the buffer of 1024 bytes, and nothing else of the
    process changes. *)
Theorem udp_bytes_in_order fd cb l (s : S_) : cb <> 0 -> port1 fd cb s ->
  wp (rrun l) (fun h s' => port1 fd cb s' /\ h.*1 = l /\ Forall res_ok h /\ exists rc, length rc = inputs l /\ moved fd cb rc (writes h) s s') s.
Proof.
  intros Hcb. revert s. induction l as [|o l IH]; intros s Hp; cbn [rrun]; [apply wp_ret; split; [done|]; split; [done|]; split; [done|]; exists []; split; [done|apply moved_nil]|]. apply wp_bind.
  apply (wp_mono (rexec o) (fun r s1 => port1 fd cb s1 /\ res_ok (o, r) /\ exists rc, length rc = inputs [o] /\ moved fd cb rc (writes [(o, r)]) s s1)).
  - destruct o as [b|d]; cbn [rexec]; apply wp_bind.
    + eapply wp_mono; [by apply (udp_turn_spec fd cb)|]. cbv beta. intros _ s' (H1 & rc & H2 & H3). apply wp_ret. split; [done|]. split; [done|]. exists rc. cbn. by rewrite Nat.add_0_r.
    + eapply wp_mono; [by apply (send_spec1 fd cb)|]. cbv beta. intros r s' (H1 & H2 & H3). apply wp_ret. split; [done|]. split; [destruct H2 as [->| ->]; [by left|by right]|]. by exists [].
  - cbv beta. intros r s1 (Hp1 & Hr & rc & Hn & Hm). apply wp_bind. eapply wp_mono; [by apply IH|]. cbv beta. intros h s2 (Hp2 & Hl & Hh & rc' & Hn' & Hm'). apply wp_ret. split; [done|]. split; [cbn; by rewrite Hl|]. split; [by constructor|]. exists (rc ++ rc').
    split; [rewrite length_app, Hn, Hn'; destruct o; cbn; lia|]. change ((o, r) :: h) with ([(o, r)] ++ h). unfold writes. rewrite omap_app. by eapply moved_trans.
Qed.

(** ** Ports and their resources *)

(** Port 1 from its initialisation to its end: the process ends when the address cannot be
    bound, as it always is without a socket; otherwise the port has a descriptor and, when its
    thread could be started, the end gives both back. *)
Theorem udp_port_released tio (s : S_) x : rs_dev s !! 1%nat = Some x ->
  wp (tkl_uart_init tio 1) (fun r s1 => (r = Exit 1 /\ co_threads (view s1) = co_threads (view s)) \/
    (r = Goes OPRT_OK /\ exists y, rs_dev s1 !! 1%nat = Some y /\ rv_rx_cb y = rv_rx_cb x /\ rv_fd y ∉ co_fds (view s) /\ co_fds (view s1) = co_fds (view s) ∪ {[rv_fd y]} /\
      (co_threads (view s1) = co_threads (view s) \/
       (rv_tid y ∉ co_threads (view s) /\ wp (tkl_uart_deinit 1) (fun r s2 => r = OPRT_OK /\ view s2 = view s) s1)))) s.
Proof.
  intros Ex. pose proof (lookup_lt_Some _ _ _ Ex) as Hl. unfold tkl_uart_init. change (TUYA_UART_GET_PORT_NUMBER 1) with 1. cbn [Z.leb Z.compare UARTS Pos.compare Pos.compare_cont Z.eqb Pos.eqb]. apply wp_bind. eapply wp_on_con; [apply con_socket_ok|]. cbv beta. intros fd k1 H1. apply wp_bind. eapply wp_upd_rdev; [exact Ex|]. change (Z.to_nat 1) with 1%nat. cbn [rs_dev rs_kernel rs_calls rs_app].
  apply wp_bind. eapply wp_on_con; [apply con_bind_ok|]. cbv beta. cbn [rs_dev rs_kernel rs_calls rs_app]. intros r k2 (E2 & Hr & Hb). assert (co_threads (con_view k2) = co_threads (view s)) as Et by (rewrite E2; destruct H1 as [[_ ->]|(_ & _ & ->)]; done). destruct (Z.eqb_spec r (-1)) as [->|Hok]; [by apply wp_ret; left|].
  destruct H1 as [[-> _]|(Hfd & Hnew & E1)]; [destruct Hr as [->|]; [by specialize (Hb ltac:(lia))|done]|]. assert (forall y : redirected_dev, <[1%nat := y]> (rs_dev s) !! 1%nat = Some y) as Ey by (intros; by apply list_lookup_insert_eq).
  apply wp_bind. unfold start_handler. apply wp_bind. eapply wp_on_con; [apply con_spawn_ok|]. cbv beta. cbn [rs_dev rs_kernel rs_calls rs_app]. intros [t|] k3 H3.
  - destruct H3 as [Ht E3]. eapply wp_upd_rdev; [apply Ey|]. cbn [rs_dev rs_kernel rs_calls rs_app]. change (Z.to_nat 1) with 1%nat. rewrite list_insert_insert_eq. apply wp_ret. right. split; [done|]. eexists. cbn [rs_dev]. split; [apply Ey|]. cbn [set_tid set_fd rv_fd rv_tid rv_rx_cb]. split; [done|]. split; [done|]. unfold view in *. cbn [rs_kernel]. rewrite E3, E2, E1 in *. cbn in *. split; [done|]. right. split; [done|].
    unfold tkl_uart_deinit. change (TUYA_UART_GET_PORT_NUMBER 1) with 1. apply wp_bind. eapply wp_get_rdev; [apply Ey|]. cbn [rv_fd rv_tid Z.eqb Pos.eqb when]. apply wp_bind. eapply wp_on_con; [apply con_close_ok; cbn; rewrite E3; cbn; set_solver|]. cbv beta. cbn [rs_dev rs_kernel rs_calls rs_app]. intros _ k4 E4. apply wp_bind. eapply wp_on_con; [apply con_cancel_ok; cbn; rewrite E4, E3; cbn; set_solver|]. cbv beta. cbn [rs_dev rs_kernel rs_calls rs_app]. intros _ k5 E5. apply wp_ret. split; [done|].
    unfold view. cbn [rs_kernel]. rewrite E5, E4, E3. destruct (con_view (rs_kernel s)) as [f th o se rc]. unfold with_con_threads, with_con_fds. cbn in *. f_equal; apply leibniz_equiv; set_solver.
  - apply wp_ret, wp_ret. right. split; [done|]. eexists. cbn [rs_dev]. split; [apply Ey|]. cbn [set_fd rv_fd rv_rx_cb]. unfold view in *. cbn [rs_kernel]. rewrite H3, E2, E1 in *. cbn in *. split; [done|]. split; [done|]. split; [done|]. by left.
Qed.

(** Port 2 can be initialised, but it is nothing: it is neither written nor read, and its end
    closes descriptor 0, the standard input of the process. *)
Theorem port2_is_nothing tio (s : S_) : rs_dev s !! 2%nat = Some (mkRdev 0 0 0 0 []) ->
  tkl_uart_init tio 2 s = Ret (Goes OPRT_OK) s /\ tkl_uart_write 2 [] 0 s = Ret (-1) s /\ tkl_uart_read 2 1 s = Ret (-1, []) s /\
  tkl_uart_deinit 2 s = (on_con (con_close 0) ;;; ret OPRT_OK) s.
Proof. intros E. split; [done|]. split; [done|]. split; [done|]. unfold tkl_uart_deinit, bind, get_rdev. change (Z.to_nat (TUYA_UART_GET_PORT_NUMBER 2)) with 2%nat. rewrite E. cbn. by destruct (on_con (con_close 0) s). Qed.
End Props.

(** ** A console *)

(** What happened, and the datagrams that are still to come. *)
Definition desk : Type := con_obs * list (list Z).
#[local] Instance demo_console : Console desk.
Proof.
  refine {|
    con_open_stdin k := let fd := above (elements (co_fds k.1)) in Ret fd (with_con_fds (co_fds k.1 ∪ {[fd]}) k.1, k.2);
    con_getattr _ k := Ret None k;
    con_setattr _ _ k := Ret false k;
    con_socket k := let fd := above (elements (co_fds k.1)) in Ret fd (with_con_fds (co_fds k.1 ∪ {[fd]}) k.1, k.2);
    con_bind fd k := Ret (if fd <? 0 then -1 else 0) k;
    con_close fd k := Ret tt (with_con_fds (co_fds k.1 ∖ {[fd]}) k.1, k.2);
    con_read _ _ k := Ret (-1, []) k;
    con_write_out d k := Ret (Z.of_nat (length d)) (with_con_out (co_out k.1 ++ take (Z.to_nat (Z.of_nat (length d))) d) k.1, k.2);
    con_sendto fd d k := Ret (Z.of_nat (length d)) (with_con_sent (co_sent k.1 ++ [(fd, (d, true))]) k.1, k.2);
    con_recvfrom fd n k := match k.2 with [] => Ret (-1, []) (with_con_rcvd (co_rcvd k.1 ++ [(fd, None)]) k.1, []) | d :: ds => let d := take (Z.to_nat n) d in Ret (Z.of_nat (length d), d) (with_con_rcvd (co_rcvd k.1 ++ [(fd, Some d)]) k.1, ds) end;
    con_spawn k := let t := above (elements (co_threads k.1)) in Ret (Some t) (with_con_threads (co_threads k.1 ∪ {[t]}) k.1, k.2);
    con_cancel t k := Ret tt (with_con_threads (co_threads k.1 ∖ {[t]}) k.1, k.2);
    con_view k := k.1 |}.
  - intros k. right. destruct (above_fresh (co_fds k.1)) as (? & ? & ?). done.
  - done.
  - done.
  - intros k. right. destruct (above_fresh (co_fds k.1)) as (? & ? & ?). done.
  - intros fd k. unfold wp. split; [done|]. destruct (Z.ltb_spec fd 0); [auto|]. split; [auto|lia].
  - done.
  - intros fd n k _ Hn. unfold wp. split; [done|]. split; cbn; lia.
  - intros d k. unfold wp. split; [lia|done].
  - intros fd d k _. by right.
  - intros fd n k _ Hn. unfold wp. destruct k as [o [|d ds]]; cbn; [by left|]. right. split; [done|]. rewrite length_take. split; [lia|done].
  - intros k. destruct (above_fresh (co_threads k.1)) as (? & ? & ?). done.
  - done.
Defined.

Definition demo_rdev (fd cb : Z) : redirected_dev := mkRdev fd 0 cb 0 (replicate (Z.to_nat READBUFF) 0).
(** Port 1 has descriptor 3 and callback 5, and two datagrams will come. *)
Definition demo_desk : rsys desk := RSys [demo_rdev 0 0; demo_rdev 3 5; demo_rdev 0 0] (ConObs {[3]} ∅ [] [] [], [[72; 101]; [108; 108; 111]]) [] [].
Definition demo_rops : list rop := [RTurn true; RSend [1; 2]; RTurn false; RTurn true].

Lemma udp_bytes_in_order_witness :
  wp (rrun demo_rops) (fun h s' => port1 3 5 s' /\ h.*1 = demo_rops /\ Forall res_ok h /\ exists rc, length rc = inputs demo_rops /\ moved 3 5 rc (writes h) demo_desk s') demo_desk /\
  wp (rrun demo_rops) (fun h s' => h.*2 = [None; Some 2; None; None] /\ rs_app s' = [72; 101; 108; 108; 111] /\ co_sent (view s') = [(3, ([1; 2], true))] /\ rs_calls s' = replicate 5 (5, 1)) demo_desk.
Proof.
  split; [|by vm_compute]. refine (udp_bytes_in_order 3 5 demo_rops demo_desk _ _); [done|]. exists (demo_rdev 3 5). repeat (split; [reflexivity|]). vm_compute; auto. 
Defined.
