(* ===== verification/LinuxWifi.v ===== *)
(** * The wireless interface of Linux: [src/tkl_wifi/linux_wifi.c]

    The file drives the interface with socket requests, the programs [wpa_supplicant],
    [hostapd], [udhcpc] and [udhcpd] with configuration files and shell commands, and the
    supplicant, once it runs, through [wpa_command.c] ([WpaCommand]).

    The operating system is a parameter, the class [Linux]: what it answers to questions,
    which descriptors are open, and a log of the requests that have an effect.  Answers may
    change with every effect, sleeps included, but not in between.  The wireless tools
    library the requests go through in part ([iwlib]) belongs to that parameter. *)

From Stdlib Require Import String.
From S2P Require Import Prelude WpaParse WpaScan WpaCommand.

(** ** The operating system *)

Inductive request :=
| SIOCGIFFLAGS (n : list Z) | SIOCGIFADDR (n : list Z) | SIOCGIFNETMASK (n : list Z) | SIOCGIFHWADDR (n : list Z)
| SIOCGIFINDEX (n : list Z) | SIOCGIWMODE (n : list Z) | SIOCGIWFREQ (n : list Z)
| IwRange (n : list Z)      (** [iw_get_range_info]: the version, then the ranges *)
| IwBasic (n : list Z)      (** [iw_get_basic_config]: [has_essid] and [essid_on] *)
| Access (p : list Z) | Opendir (p : list Z)
| Popen (c : list Z)        (** the first line a command prints *)
| Contents (p : list Z)     (** of a file *)
| SIOCSIFFLAGS (n : list Z) (flags : Z)
| SIOCSIFADDR (n ip : list Z)   (** an address as the text that [inet_addr] reads *)
| SIOCSIFHWADDR (n mac : list Z)
| SIOCSIWMODE (n : list Z) (mode : Z) | SIOCSIWFREQ (n freq : list Z)
| Bind (index : Z) | Promisc (index : Z) | Write (b : list Z) | Recv (len : Z)
| System (c : list Z) | Mkdir (p : list Z) | Unlink (p : list Z) | Creat (p : list Z) | Usleep (us : Z).

Definition question (r : request) : bool :=
  match r with
  | SIOCGIFFLAGS _ | SIOCGIFADDR _ | SIOCGIFNETMASK _ | SIOCGIFHWADDR _ | SIOCGIFINDEX _ | SIOCGIWMODE _ | SIOCGIWFREQ _
  | IwRange _ | IwBasic _ | Access _ | Opendir _ | Popen _ | Contents _ => true
  | _ => false
  end.

(** An error number, or what was asked for. *)
Definition answer : Type := Z + list Z.
Definition failed (a : answer) : bool := match a with inl _ => true | inr _ => false end.

(** A network that the card has found; the frequency is opaque. *)
Record wireless_scan := mkScan {
  ws_has_ap_addr : bool; ws_ap_addr : list Z; ws_essid : list Z; ws_freq : list Z;
  ws_stats : option Z; ws_key_flags : Z }.

Definition octets (a : list Z) : Prop := length a = 4%nat /\ Forall (fun b => 0 <= b < 256) a.

Class Linux (K : Type) := {
  sys : request -> M K answer;
  dev : Z -> request -> M K answer;      (** through a descriptor *)
  open_socket : M K Z;                   (** a descriptor, or -1 *)
  open_file : list Z -> M K Z;           (** [open] with [O_RDWR | O_CREAT] *)
  close : Z -> M K unit;
  iw_scan : Z -> list Z -> M K (option (list wireless_scan));
  iw_freq_to_channel : list Z -> list Z -> Z;
  iw_channel_to_freq : Z -> list Z -> Z * list Z;
  k_answer : K -> request -> answer;
  k_sockets : K -> bool;                 (** can a socket be had? *)
  k_found : K -> list Z -> option (list wireless_scan);   (** by the card, in a scan *)
  k_open : K -> gset Z;
  k_log : K -> list (request * answer);
  quiet (k k' : K) : Prop := k_answer k' = k_answer k /\ k_sockets k' = k_sockets k /\ k_found k' = k_found k /\ k_log k' = k_log k;
  k_address k n a : k_answer k (SIOCGIFADDR n) = inr a -> octets a;
  k_netmask k n a : k_answer k (SIOCGIFNETMASK n) = inr a -> octets a;
  sys_question r k : question r = true -> wp (sys r) (fun a k' => a = k_answer k r /\ quiet k k' /\ k_open k' = k_open k) k;
  sys_effect r k : question r = false -> wp (sys r) (fun a k' => k_log k' = k_log k ++ [(r, a)] /\ k_open k' = k_open k) k;
  dev_question fd r k : question r = true -> fd ∈ k_open k -> wp (dev fd r) (fun a k' => a = k_answer k r /\ quiet k k' /\ k_open k' = k_open k) k;
  dev_effect fd r k : question r = false -> fd ∈ k_open k -> wp (dev fd r) (fun a k' => k_log k' = k_log k ++ [(r, a)] /\ k_open k' = k_open k /\
    forall n b, r = Recv n -> a = inr b -> (length b <= Z.to_nat n)%nat) k;
  open_socket_ok k : wp open_socket (fun fd k' => quiet k k' /\
    if k_sockets k then 0 <= fd /\ fd ∉ k_open k /\ k_open k' = {[fd]} ∪ k_open k else fd = -1 /\ k_open k' = k_open k) k;
  open_file_ok p k : wp (open_file p) (fun fd k' => exists a, k_log k' = k_log k ++ [(Creat p, a)] /\
    ((failed a = true /\ fd = -1 /\ k_open k' = k_open k) \/ (failed a = false /\ 0 <= fd /\ fd ∉ k_open k /\ k_open k' = {[fd]} ∪ k_open k))) k;
  close_ok fd k : wp (close fd) (fun _ k' => quiet k k' /\ k_open k' = k_open k ∖ {[fd]}) k;
  iw_scan_ok fd n k : fd ∈ k_open k -> wp (iw_scan fd n) (fun r k' => r = k_found k n /\ quiet k k' /\ k_open k' = k_open k) k
}.

(** What the build chooses: the interfaces of the station and of the access point, and the
    directory of the configuration files. *)
Class WifiBuild := {
  WLAN_DEV : list Z; WLAN_AP : list Z; WIFI_DB_PATH : list Z;
  wlan_dev_name : word 16 WLAN_DEV; wlan_ap_name : word 16 WLAN_AP; wifi_db_name : word 48 WIFI_DB_PATH
}.

(** ** Constants *)

Definition IFF_UP : Z := 0x1.
Definition IFF_RUNNING : Z := 0x40.
Definition AF_INET : Z := 2.
Definition EADDRNOTAVAIL : Z := 99.
Definition WIFI_MODE_MANAGED : Z := 2.
Definition WIFI_MODE_MASTER : Z := 3.
Definition WIFI_MODE_MONITOR : Z := 6.
Definition MAX_IP_LEN : nat := 16.
Definition MAX_AP_SEARCH : nat := 64.
Definition WIFI_SSID_MAX_LEN : nat := 32.
Definition WPA_SUPPLICANT : list Z := lit "wpa_supplicant".
Definition UDHCPC : list Z := lit "udhcpc".
Definition WPA_CTRL_DIR : list Z := lit "/var/run".
Definition WPA_CTRL_INTERFACE : list Z := lit "/var/run/wpa_supplicant".

(** [iw_operation_mode] without its last entry. *)
Definition iw_operation_mode : list (list Z) :=
  [lit "Auto"; lit "Ad-Hoc"; lit "Managed"; lit "Master"; lit "Repeater"; lit "Secondary"; lit "Monitor"].

(** ** Functions of the C library *)

Definition line (w : list Z) : list Z := w ++ [10].
(** [snprintf] into an array of [n] bytes *)
Definition snprintf (n : nat) (w : list Z) : list Z := take (n - 1) w.
Definition tolower (c : Z) : Z := if (65 <=? c) && (c <=? 90) then c + 32 else c.
Definition strncasecmp_eq (a b : list Z) (n : nat) : bool := bool_decide (tolower <$> take n a = tolower <$> take n b).
Fixpoint inet_ntoa (a : list Z) : list Z :=
  match a with [] => [] | [b] => dec b | b :: a => dec b ++ [46] ++ inet_ntoa a end.
(** [strstr] with its result *)
Fixpoint strstr_at (s p : list Z) : option (list Z) :=
  if starts p s then Some s else match s with [] => None | _ :: s => strstr_at s p end.
(** [strrchr]: what is before the last [c] *)
Fixpoint before_last (c : Z) (s : list Z) : option (list Z) :=
  match s with
  | [] => None
  | d :: s => match before_last c s with Some w => Some (d :: w) | None => if d =? c then Some [] else None end
  end.
(** [memcpy] to the start of a buffer *)
Definition overwrite (buf b : list Z) : list Z := b ++ drop (length b) buf.
(** The bytes [strncpy] writes. *)
Definition strncpy (n : nat) (w : list Z) : list Z := take n w ++ replicate (n - length w) 0.
(** The loop over the lines of a file: [fgets] into an array of [n] bytes, [strcat] to an
    array of [m] bytes. *)
Fixpoint fgets (n : nat) (s : list Z) : list Z * list Z :=
  match n, s with
  | O, _ | S O, _ => ([], s)
  | _, [] => ([], [])
  | S n, c :: s => if c =? 10 then ([c], s) else let (a, b) := fgets n s in (c :: a, b)
  end.
Fixpoint read_loop {S_} (fuel n m : nat) (s str : list Z) : M S_ (list Z) :=
  match fuel with
  | O => out_of_fuel
  | S fuel =>
    match fgets n s with
    | ([], _) => ret str
    | (b, s) => fits m (str ++ b) (read_loop fuel n m s (str ++ b))
    end
  end.

Section Linux.
Context {K : Type} {OS : Linux K} {B : WifiBuild}.
Local Abbreviation W := (M K).

Definition WIFI_STATION_CONF : list Z := WIFI_DB_PATH ++ lit "/wpa_0_8.conf".
Definition WIFI_HOSTAPD_CONF : list Z := WIFI_DB_PATH ++ lit "/hostapd.conf".
Definition WIFI_DHCPD_CONF : list Z := WIFI_DB_PATH ++ lit "/udhcpd.conf".

(** ** The interface *)

(** [strcpy(ifr.ifr_name, ifname)] *)
Definition ifr_name {R} (ifname : list Z) (k : W R) : W R := fits 16 ifname k.

Definition wifi_enable (ifname : list Z) (enable : bool) : W Z :=
  fd <- open_socket ;;
  if fd <? 0 then ret (-1)
  else
    ifr_name ifname (
    a <- dev fd (SIOCGIFFLAGS ifname) ;;
    match a with
    | inl _ => close fd ;;; ret (-1)
    | inr flags =>
      let flags := hd 0 flags in
      a <- dev fd (SIOCSIFFLAGS ifname (if enable then Z.lor flags IFF_UP else Z.land flags (Z.lnot IFF_UP))) ;;
      close fd ;;; ret (if failed a then -1 else 0)
    end).

(** The result, and the text at [ip]. *)
Definition wifi_get_ip (ifname : list Z) : W (Z * list Z) :=
  fd <- open_socket ;;
  if fd <? 0 then ret (-1, [])
  else
    ifr_name ifname (
    a <- dev fd (SIOCGIFFLAGS ifname) ;;
    match a with
    | inl _ => close fd ;;; ret (-1, [])
    | inr flags =>
      if Z.land (hd 0 flags) IFF_RUNNING =? 0 then close fd ;;; ret (-1, [])
      else
        a <- dev fd (SIOCGIFADDR ifname) ;;
        match a with
        | inl e => if e =? EADDRNOTAVAIL then close fd ;;; ret (1, []) else close fd ;;; ret (-1, [])
        | inr addr =>
          ip <- fits MAX_IP_LEN (inet_ntoa addr) (ret (inet_ntoa addr)) ;;
          close fd ;;; ret (0, ip)
        end
    end).

(** Goes on with the cleared request when the question fails. *)
Definition wifi_get_ip_mask (ifname : list Z) : W (Z * list Z) :=
  fd <- open_socket ;;
  if fd <? 0 then ret (-1, [])
  else
    ifr_name ifname (
    a <- dev fd (SIOCGIFNETMASK ifname) ;;
    addr <- (match a with inl _ => close fd ;;; ret [0; 0; 0; 0] | inr addr => ret addr end) ;;
    close fd ;;; ret (0, strncpy MAX_IP_LEN (inet_ntoa addr))).

(** The flags share their place with the address family. *)
Definition wifi_set_ip (ifname ip : list Z) : W Z :=
  ifr_name ifname (
  fd <- open_socket ;;
  if fd <? 0 then ret (-1)
  else
    a <- dev fd (SIOCSIFADDR ifname ip) ;;
    if failed a then ret (-1)
    else
      a <- dev fd (SIOCSIFFLAGS ifname (Z.lor AF_INET (Z.lor IFF_UP IFF_RUNNING))) ;;
      close fd ;;; ret (if failed a then -1 else 0)).

Definition wifi_get_mac (ifname : list Z) : W (Z * option (list Z)) :=
  fd <- open_socket ;;
  if fd <? 0 then ret (-1, None)
  else
    a <- dev fd (SIOCGIFHWADDR (take 15 ifname)) ;;
    match a with
    | inl _ => close fd ;;; ret (-1, None)
    | inr mac => close fd ;;; ret (0, Some (take 6 mac))
    end.

Definition wifi_set_mac (ifname mac : list Z) : W Z :=
  fd <- open_socket ;;
  if fd <? 0 then ret (-1)
  else
    a <- dev fd (SIOCSIFHWADDR (take 15 ifname) (take 6 mac)) ;;
    close fd ;;; ret (if failed a then -1 else 0).

(** The ranges of the interface, when they tell of channels. *)
Definition ranges (a : answer) : option (list Z) :=
  match a with inr (v :: range) => if v <? 14 then None else Some range | _ => None end.

Definition wifi_set_channel (ifname : list Z) (channel : Z) : W Z :=
  fd <- open_socket ;;
  if fd <? 0 then ret (-1)
  else
    a <- dev fd (IwRange ifname) ;;
    match ranges a with
    | None => close fd ;;; ret (-1)
    | Some range =>
      let (r, freq) := iw_channel_to_freq channel range in
      if negb (r =? channel) then ret (-1)
      else
        a <- dev fd (SIOCSIWFREQ ifname freq) ;;
        if failed a then ret (-1) else close fd ;;; ret 0
    end.

Definition wifi_get_channel (ifname : list Z) : W (Z * option Z) :=
  fd <- open_socket ;;
  if fd <? 0 then ret (-1, None)
  else
    a <- dev fd (IwRange ifname) ;;
    match ranges a with
    | None => close fd ;;; ret (-1, None)
    | Some range =>
      a <- dev fd (SIOCGIWFREQ ifname) ;;
      match a with
      | inl _ => close fd ;;; ret (-1, None)
      | inr freq => close fd ;;; ret (0, Some (u8 (iw_freq_to_channel freq range)))
      end
    end.

(** The mode, unless there is an error. *)
Definition wifi_get_mode (ifname : list Z) : W (Z * option Z) :=
  fd <- open_socket ;;
  if fd <? 0 then ret (-1, None)
  else
    a <- dev fd (SIOCGIWMODE ifname) ;;
    match a with
    | inl _ => close fd ;;; ret (-1, None)
    | inr mode => close fd ;;; ret (0, Some (hd 0 mode))
    end.

Fixpoint mode_loop (mode : list Z) (names : list (list Z)) (k : Z) : Z :=
  match names with [] => k | n :: names => if strncasecmp_eq mode n 3 then k else mode_loop mode names (k + 1) end.

Definition wifi_set_mode (ifname mode : list Z) : W Z :=
  let k := mode_loop mode iw_operation_mode 0 in
  if (7 <=? k) || (k =? 1) || (k =? 4) || (k =? 5) then ret (-1)
  else
    fd <- open_socket ;;
    if fd <? 0 then ret (-1)
    else ifr_name ifname (_ <- dev fd (SIOCSIWMODE ifname k) ;; close fd ;;; ret 0).

Definition wifi_check_essid_on (ifname : list Z) : W Z :=
  fd <- open_socket ;;
  if fd <? 0 then ret (-1)
  else
    a <- dev fd (IwBasic ifname) ;;
    match a with
    | inl _ => close fd ;;; ret (-1)
    | inr conf =>
      close fd ;;;
      ret (match conf with has_essid :: essid_on :: _ => if negb (essid_on =? 0) && (has_essid =? 1) then 1 else 0 | _ => 0 end)
    end.

(** ** Programs and their configuration *)

Definition process_kill (proc : list Z) : W unit :=
  _ <- sys (System (snprintf 128 (lit "killall -9 '" ++ proc ++ lit "' "))) ;; ret tt.

(** The number of processes with the name: none, one, or too many (-1). *)
Definition alive_command (process : list Z) : list Z := snprintf 150 (lit "ps -ef | grep " ++ process ++ lit " | grep -v grep | wc -l").
Definition process_alive (process : list Z) : W Z :=
  a <- sys (Popen (alive_command process)) ;;
  ret (match a with
       | inl _ => -1
       | inr [] => 0
       | inr l => let count := atoi (snprintf 100 l) in if count =? 0 then 0 else if count =? 1 then 1 else -1
       end).

Definition ctrl_path (ifname : list Z) : list Z := snprintf 256 (WPA_CTRL_INTERFACE ++ lit "/" ++ ifname).
Definition wpa_ctrl_iface_ready (ifname : list Z) : W bool :=
  match ifname with
  | [] => ret false
  | _ => a <- sys (Access (ctrl_path ifname)) ;; ret (negb (failed a))
  end.

Definition process_kill_if_running (proc : list Z) : W unit :=
  alive <- process_alive proc ;;
  if negb (alive =? 0) then process_kill proc else ret tt.

(** A file is made, and the text [buf] written into it. *)
Definition write_conf (path : list Z) (buf : W (list Z)) : W Z :=
  fd <- open_file path ;;
  if fd <? 0 then ret (-1)
  else
    buf <- buf ;;
    a <- dev fd (Write buf) ;;
    close fd ;;; ret (if failed a then -1 else 0).

Definition quote (w : list Z) : list Z := [34] ++ w ++ [34].
Definition wpa_conf (ssid : list Z) (psk : option (list Z)) : list Z :=
  line (lit "ctrl_interface=" ++ WPA_CTRL_INTERFACE) ++ line (lit "update_config=1") ++ line (lit "network={") ++
  match psk with
  | None => line (lit "ssid=" ++ quote ssid) ++ line (lit "key_mgmt=NONE")
  | Some psk => line (lit "key_mgmt=WPA-PSK") ++ line (lit "ssid=" ++ quote ssid) ++ line (lit "psk=" ++ quote psk)
  end ++ line (lit "}").

(** An empty key is as good as none. *)
Definition key (psk : option (list Z)) : option (list Z) := match psk with Some [] => None | _ => psk end.

Definition wpa_config_prepare (ssid : list Z) (psk : option (list Z)) : W Z :=
  _ <- sys (Unlink WIFI_STATION_CONF) ;;
  write_conf WIFI_STATION_CONF (fits 1024 (wpa_conf ssid (key psk)) (ret (wpa_conf ssid (key psk)))).

Definition ensure_dir (p : list Z) : W unit :=
  a <- sys (Opendir p) ;;
  if failed a then _ <- sys (Mkdir p) ;; ret tt else ret tt.

Fixpoint wait_loop (retries : nat) (path : list Z) : W unit :=
  match retries with
  | O => ret tt
  | S retries =>
    a <- sys (Access path) ;;
    if failed a then _ <- sys (Usleep 100000) ;; wait_loop retries path
    else _ <- sys (Usleep 100000) ;; ret tt
  end.

Definition start_wpa_command : list Z :=
  snprintf 128 (WPA_SUPPLICANT ++ lit " -i " ++ WLAN_DEV ++ lit " -Dnl80211 -c " ++ WIFI_STATION_CONF ++ lit " -B").
Definition start_wpa : W unit :=
  ensure_dir WPA_CTRL_DIR ;;;
  ensure_dir WPA_CTRL_INTERFACE ;;;
  _ <- sys (System (lit "systemctl stop wpa_supplicant 2>/dev/null")) ;;
  _ <- sys (Usleep 500000) ;;
  _ <- sys (System (lit "killall wpa_supplicant 2>/dev/null")) ;;
  _ <- sys (Usleep 200000) ;;
  _ <- sys (System start_wpa_command) ;;
  wait_loop 50 (ctrl_path WLAN_DEV).

(** [sscanf(s, "%s", buf)] into a cleared array of [n] bytes; on success the bytes written
    to [ssid] and to [passwd]. *)
Definition get_passwd_and_ssid_from_wpa_file : W (Z * option (list Z * list Z)) :=
  a <- sys (Contents WIFI_STATION_CONF) ;;
  match a with
  | inl _ => ret (-1, None)
  | inr text =>
    str <- read_loop (S (length text)) 1024 1024 text [] ;;
    match strstr_at str (lit "ssid=") with
    | None => ret (-1, None)
    | Some opstr =>
      tmp_ssid <- scan_word 33 (drop 5 opstr) [] ;;
      match strstr_at str (lit "psk=") with
      | None => ret (-1, None)
      | Some opstr =>
        tmp_pwd <- scan_word 65 (drop 4 opstr) [] ;;
        ret (0, Some (strncpy 32 tmp_ssid, strncpy 64 tmp_pwd))
      end
    end
  end.

Definition start_udhcpc : W unit :=
  _ <- sys (System (lit "killall " ++ UDHCPC)) ;;
  _ <- sys (System (snprintf 128 (UDHCPC ++ lit " -i " ++ WLAN_DEV ++ lit " -R &"))) ;;
  ret tt.

(** ** The functions of [wpa_command.c] that run a command or do nothing *)

Definition dhcp_reset : W unit := _ <- sys (System (lit "killall dhcpcd" ++ [10])) ;; ret tt.
(** The rules are those of a device with the name [wlan0], whatever the build says. *)
Definition wifi_goto_lowermode (state : Z) : W unit :=
  if negb (state =? 0) then
    _ <- sys (System (lit "iptables -A OUTPUT  -j DROP -o wlan0")) ;;
    _ <- sys (System (lit "iptables -A INPUT -j DROP -i wlan0")) ;;
    ret tt
  else _ <- sys (System (lit "iptables -F")) ;; ret tt.
Definition network_get_status (status : Z) : W (Z * Z) := ret (0, status).

(** ** The access point *)

Inductive WF_AP_AUTH_MODE_E := WAAM_OPEN | WAAM_WEP | WAAM_WPA_PSK | WAAM_WPA2_PSK | WAAM_WPA_WPA2_PSK | WAAM_WPA_WPA3_SAE | WAAM_UNKNOWN.
(** The texts of the fields; the lengths of the name and of the key are not used. *)
Record NW_IP_S := mkIp { nw_ip : list Z; nw_mask : list Z; nw_gw : list Z }.
Record WF_AP_CFG_IF_S := mkCfg {
  cf_ssid : list Z; cf_passwd : list Z; cf_chan : Z; cf_md : WF_AP_AUTH_MODE_E;
  cf_ssid_hidden : Z; cf_max_conn : Z; cf_ms_interval : Z; cf_ip : NW_IP_S }.

Definition orelse (n d : Z) : Z := if n =? 0 then d else n.
Definition hostapd_conf (cfg : WF_AP_CFG_IF_S) : option (list Z) :=
  let head := line (lit "interface=" ++ WLAN_AP) ++ line (lit "ctrl_interface_group=0") ++ line (lit "#driver=nl80211") ++ line (lit "ieee80211n=1") ++
    line (lit "ssid=" ++ cf_ssid cfg) ++ line (lit "hw_mode=g") ++ line (lit "channel=" ++ dec (cf_chan cfg)) ++
    line (lit "max_num_sta=" ++ dec (orelse (cf_max_conn cfg) 3)) ++ line (lit "macaddr_acl=0") in
  let hidden := line (lit "ignore_broadcast_ssid=" ++ dec (cf_ssid_hidden cfg)) in
  match cf_md cfg with
  | WAAM_OPEN => Some (head ++ line (lit "#auth_algs=0") ++ line (lit "beacon_int=" ++ dec (orelse (cf_ms_interval cfg) 100)) ++ hidden)
  | WAAM_WEP => Some (head ++ line (lit "#auth_algs=1") ++ hidden ++ line (lit "wep_default_key=0") ++ line (lit "wep_key0=1234567890") ++
      line (lit "wep_key1=" ++ quote (lit "vwxyz")) ++ line (lit "wep_key2=0102030405060708090a0b0c0d") ++ line (lit "wep_key3=" ++ quote (lit ".2.4.6.8.0.23")) ++
      line (lit "wep_key_len_broadcast=13") ++ line (lit "wep_key_len_unicast=13") ++ lit "wep_rekey_period=300")
  | WAAM_WPA_PSK => Some (head ++ line (lit "auth_algs=1") ++ hidden ++ line (lit "wpa=1") ++ line (lit "wpa_passphrase=" ++ cf_passwd cfg) ++
      line (lit "wpa_key_mgmt=WPA-PSK") ++ line (lit "#wpa_pairwise=TKIP CCMP") ++ line (lit "rsn_pairwise=TKIP CCMP"))
  | WAAM_WPA2_PSK | WAAM_WPA_WPA2_PSK => Some (head ++ line (lit "auth_algs=1") ++ hidden ++ line (lit "wpa=3") ++ line (lit "wpa_passphrase=" ++ cf_passwd cfg) ++
      line (lit "wpa_key_mgmt=WPA-PSK") ++ line (lit "wpa_pairwise=TKIP CCMP") ++ line (lit "rsn_pairwise=TKIP CCMP"))
  | WAAM_WPA_WPA3_SAE => Some []
  | WAAM_UNKNOWN => None
  end.

Definition hostapd_conf_prepare (cfg : WF_AP_CFG_IF_S) : W Z :=
  match hostapd_conf cfg with
  | None => ret (-1)
  | Some buf => fits 1024 buf (_ <- sys (Unlink WIFI_HOSTAPD_CONF) ;; write_conf WIFI_HOSTAPD_CONF (ret buf))
  end.

Record UDHCPD_IP_T := mkUdhcpd { ud_ifname : list Z; ud_ip_start : list Z; ud_ip_end : list Z; ud_ip_route : list Z; ud_ip_mask : list Z }.

Definition udhcpd_conf (u : UDHCPD_IP_T) : list Z :=
  line (lit "interface" ++ [9] ++ ud_ifname u) ++ line (lit "start" ++ [9] ++ ud_ip_start u) ++ line (lit "end" ++ [9] ++ ud_ip_end u) ++
  line (lit "opt subnet" ++ [9] ++ ud_ip_mask u) ++ line (lit "opt lease 28800") ++ line (lit "opt router" ++ [9] ++ ud_ip_route u) ++
  line (lit "opt dns " ++ ud_ip_route u) ++ line (lit "opt domain Realtek").
(** The zero at the end of the text is written too. *)
Definition udhcpd_conf_prepare (u : UDHCPD_IP_T) : W Z :=
  _ <- sys (Unlink WIFI_DHCPD_CONF) ;; write_conf WIFI_DHCPD_CONF (ret (snprintf 256 (udhcpd_conf u) ++ [0])).

(** The text up to the third dot, if it has three. *)
Fixpoint dots_loop (s : list Z) (dot : Z) : Z * list Z :=
  match s with
  | [] => (dot, [])
  | c :: s =>
    let dot := if c =? 46 then dot + 1 else dot in
    if dot =? 3 then (3, [c]) else let (d, w) := dots_loop s dot in (d, c :: w)
  end.
(** [dst] has [n] bytes. *)
Definition ip_prepare (src : list Z) (n : nat) : W (Z * option (list Z)) :=
  let (dot, w) := dots_loop (snprintf MAX_IP_LEN src) 0 in
  if negb (dot =? 3) then ret (-1, None) else fits n w (ret (0, Some w)).

Definition wifi_ap_start (ifname : list Z) (cfg : WF_AP_CFG_IF_S) : W Z :=
  process_kill_if_running (lit "hostapd") ;;;
  process_kill_if_running (lit "udhcpd") ;;;
  r <- hostapd_conf_prepare cfg ;;
  if r <? 0 then ret (-1)
  else
    _ <- sys (System (snprintf 128 (lit "hostapd " ++ WIFI_HOSTAPD_CONF ++ lit " &"))) ;;
    r <- wifi_set_ip ifname (nw_ip (cf_ip cfg)) ;;
    if r <? 0 then ret (-1)
    else
      _ <- sys (System (lit "mkdir -p /var/lib/misc")) ;;
      _ <- sys (System (lit "touch /var/lib/misc/udhcpd.leases")) ;;
      x <- ip_prepare (nw_ip (cf_ip cfg)) 13 ;;
      match snd x with
      | None => ret (-1)
      | Some pre =>
        fits 16 ifname (fits MAX_IP_LEN (nw_ip (cf_ip cfg)) (fits MAX_IP_LEN (nw_mask (cf_ip cfg)) (
        r <- udhcpd_conf_prepare (mkUdhcpd ifname (snprintf MAX_IP_LEN (pre ++ dec 2)) (snprintf MAX_IP_LEN (pre ++ dec 254)) (nw_ip (cf_ip cfg)) (nw_mask (cf_ip cfg))) ;;
        if r <? 0 then _ <- sys (System (lit "killall -9 hostapd")) ;; ret (-1)
        else _ <- sys (System (snprintf 128 (lit "udhcpd -f " ++ WIFI_DHCPD_CONF ++ lit " &"))) ;; ret 0)))
      end.

Definition wifi_ap_stop : W Z := process_kill (lit "hostapd") ;;; process_kill (lit "udhcpd") ;;; ret 0.

(** ** Scanning *)

Record AP_IF_S := mkApIf { ai_channel : Z; ai_rssi : Z; ai_bssid : list Z; ai_ssid : list Z; ai_s_len : Z; ai_security : Z }.
Definition zero_ap_if : AP_IF_S := mkApIf 0 0 (replicate 6 0) [] 0 0.

(** [iw_sawap_ntop] *)
Definition hexC (d : Z) : Z := if d <? 10 then 48 + d else 55 + d.
Fixpoint ether_ntop (m : list Z) : list Z :=
  match m with
  | [] => []
  | [b] => [hexC (b / 16); hexC (b mod 16)]
  | b :: m => [hexC (b / 16); hexC (b mod 16); 58] ++ ether_ntop m
  end.

(** An entry; [security] stays as it was when neither flag is set. *)
Definition ap_entry (range : list Z) (node : wireless_scan) (tmp : AP_IF_S) : W AP_IF_S :=
  let vs := scan_bytes 6 (ether_ntop (ws_ap_addr node)) in
  if (length vs =? 6)%nat then
    ret (mkApIf (u8 (iw_freq_to_channel (ws_freq node) range))
      (match ws_stats node with Some q => swrap 8 q | None => ai_rssi tmp end)
      (low_bytes vs)
      (overwrite (ai_ssid tmp) (take WIFI_SSID_MAX_LEN (ws_essid node))) (Z.of_nat (Nat.min WIFI_SSID_MAX_LEN (length (ws_essid node))))
      (if negb (Z.land (ws_key_flags node) 0x8000 =? 0) then 0
       else if negb (Z.land (ws_key_flags node) 0x2000 =? 0) then 0
       else if negb (Z.land (ws_key_flags node) 0x800 =? 0) then 4 else ai_security tmp))
  else fault.

(** The loop over the networks found; a network without an address is never left. *)
Fixpoint scan_loop (fuel : nat) (range : list Z) (nodes : list wireless_scan) (aps : list AP_IF_S) (max_ap count : nat) : W (nat * list AP_IF_S) :=
  match fuel with
  | O => out_of_fuel
  | S fuel =>
    match nodes with
    | [] => ret (count, aps)
    | node :: next =>
      if negb (ws_has_ap_addr node) then scan_loop fuel range nodes aps max_ap count
      else if (max_ap <=? count)%nat then ret (count, aps)
      else
        match aps !! count with
        | None => fault
        | Some tmp => e <- ap_entry range node tmp ;; scan_loop fuel range next (<[count := e]> aps) max_ap (S count)
        end
    end
  end.

Definition wifi_scan_ap (fuel : nat) (ifname : list Z) (aps : list AP_IF_S) (max_ap : nat) : W (nat * list AP_IF_S) :=
  fd <- open_socket ;;
  if fd <? 0 then ret (0%nat, aps)
  else
    a <- dev fd (IwRange ifname) ;;
    match ranges a with
    | None => close fd ;;; ret (0%nat, aps)
    | Some range =>
      r <- iw_scan fd ifname ;;
      match r with
      | None => close fd ;;; ret (0%nat, aps)
      | Some nodes => x <- scan_loop fuel range nodes aps max_ap 0 ;; close fd ;;; ret x
      end
    end.

(** ** Raw packets *)

Definition wifi_create_rawsocket : W Z := open_socket.

Definition wifi_bind_rawsocket (device : list Z) (rawsock : Z) : W Z :=
  a <- dev rawsock (SIOCGIFINDEX (take 16 device)) ;;
  match a with
  | inl _ => ret (-1)
  | inr index => a <- dev rawsock (Bind (hd 0 index)) ;; ret (if failed a then -1 else 0)
  end.

Definition t_radiotap : list Z := [0x00; 0x00; 0x0d; 0x00; 0x04; 0x80; 0x02; 0x00; 0x20; 0x00; 0x00; 0x00; 0x00].
(** [got]: did [malloc] give memory?  The result is the number of bytes sent, or -1. *)
Definition wifi_send_rawpacket (got : bool) (rawsock : Z) (pkt : list Z) : W Z :=
  if negb got then ret (-1)
  else
    a <- dev rawsock (Write (t_radiotap ++ pkt)) ;;
    ret (match a with inl _ => -1 | inr n => s32 (hd 0 n) end).

(** The result, and the buffer with what was received. *)
Definition wifi_recv_rawpacket (rawsock : Z) (pkt : list Z) : W (Z * list Z) :=
  a <- dev rawsock (Recv (Z.of_nat (length pkt))) ;;
  match a with
  | inl _ => ret (-1, pkt)
  | inr b => ret (Z.of_nat (length b), overwrite pkt b)
  end.
End Linux.

(** ** With the supplicant *)

Section Supplicant.
Context {K C : Type} {OS : Linux K} {B : WifiBuild} {WC : WpaCtrl C}.
Local Abbreviation W := (M (K * C)).

Definition on_os {R} (c : M K R) : W R := fun s => match c (fst s) with Ret r k => Ret r (k, snd s) | Fault => Fault | Diverge => Diverge end.
Definition on_wpa {R} (c : M C R) : W R := fun s => match c (snd s) with Ret r k => Ret r (fst s, k) | Fault => Fault | Diverge => Diverge end.

(** [junk]: the value of the variable before. *)
Definition wifi_get_curr_rssi (junk : Z) (rssi_null : bool) : W (Z * option Z) :=
  x <- on_wpa (wifi_get_signal junk) ;;
  if negb (fst x =? 0) then ret (-1, None)
  else if rssi_null then ret (-1, None) else ret (0, Some (snd x)).

(** The texts for [ssid] and [passwd]; from the file, the bytes. *)
Definition wifi_get_connected_ap_info : W (Z * option (list Z * list Z)) :=
  x <- on_wpa (wifi_get_ap_info zero_info) ;;
  if fst x <? 0 then ret (-1, None)
  else
    let i := snd x in
    match wi_ssid i, wi_passwd i with
    | _ :: _, _ :: _ => ret (0, Some (wi_ssid i, wi_passwd i))
    | _, _ =>
      y <- on_os get_passwd_and_ssid_from_wpa_file ;;
      match snd y with
      | None => ret (-1, None)
      | Some r => ret (0, Some r)
      end
    end.

Definition wifi_get_bssid (bssid : list Z) : W (Z * list Z) :=
  x <- on_wpa (wifi_get_current_connect_ap_bssid bssid) ;;
  ret (if fst x <? 0 then -1 else 0, snd x).

Definition network_of (ssid : list Z) (passwd : option (list Z)) : wifi_network :=
  match key passwd with
  | None => mkNet 0 ssid [] WIFI_KEY_NONE
  | Some psk => mkNet 0 ssid psk WIFI_KEY_WPA2PSK
  end.

Definition wifi_station_connect (ssid : list Z) (passwd : option (list Z)) : W Z :=
  fits 36 ssid (fits 68 (default [] (key passwd)) (
  r <- on_os (process_alive WPA_SUPPLICANT) ;;
  ready <- (if r =? 1 then on_os (wpa_ctrl_iface_ready WLAN_DEV) else ret true) ;;
  let r := if (r =? 1) && negb ready then 0 else r in
  if r =? 0 then
    r <- on_os (wpa_config_prepare ssid passwd) ;;
    if negb (r =? 0) then ret (-1)
    else
      on_os start_wpa ;;;
      _ <- on_os (sys (Usleep 500)) ;;
      on_os start_udhcpc ;;; ret 0
  else if r =? 1 then
    x <- on_wpa (wifi_join_network (network_of ssid passwd)) ;;
    if fst x <? 0 then ret (-1)
    else
      r <- on_os (process_alive UDHCPC) ;;
      if r =? 0 then _ <- on_os (sys (Usleep 666)) ;; on_os start_udhcpc ;;; ret 0 else ret 0
  else ret (-1))).

Definition wifi_disconnect (ifname : list Z) : W Z :=
  r <- on_wpa wifi_disconnect_network ;;
  if r <? 0 then ret (-1)
  else on_os (process_kill UDHCPC) ;;; _ <- on_os (sys (Usleep 200)) ;; ret 0.
End Supplicant.

(** ** A system *)

(** It answers as [dk_says], sets modes, receives the packets [dk_rx], and accepts all else. *)
Record demo_os := mkOs { dk_says : request -> answer; dk_air : option (list wireless_scan); dk_rx : list (list Z); dk_open : list Z; dk_log : list (request * answer) }.
#[export] Instance request_eq : EqDecision request.
Proof. solve_decision. Defined.
#[export] Instance octets_dec a : Decision (octets a).
Proof. unfold octets. apply _. Defined.

Definition dk_answer (k : demo_os) (r : request) : answer :=
  match r, dk_says k r with
  | (SIOCGIFADDR _ | SIOCGIFNETMASK _), inr a => if decide (octets a) then inr a else inl EADDRNOTAVAIL
  | _, a => a
  end.
Definition dk_does (r : request) (k : demo_os) : outcome demo_os answer :=
  if question r then Ret (dk_answer k r) k
  else
    match r with
    | SIOCSIWMODE n m => Ret (inr []) (mkOs (fun q => if decide (q = SIOCGIWMODE n) then inr [m] else dk_says k q) (dk_air k) (dk_rx k) (dk_open k) (dk_log k ++ [(r, inr [])]))
    | Recv n =>
      let b := take (Z.to_nat n) (hd [] (dk_rx k)) in
      Ret (inr b) (mkOs (dk_says k) (dk_air k) (tl (dk_rx k)) (dk_open k) (dk_log k ++ [(r, inr b)]))
    | _ => Ret (inr []) (mkOs (dk_says k) (dk_air k) (dk_rx k) (dk_open k) (dk_log k ++ [(r, inr [])]))
    end.

Lemma dk_does_effect r k : question r = false -> wp (dk_does r) (fun a k' => dk_log k' = dk_log k ++ [(r, a)] /\ dk_open k' = dk_open k) k.
Proof. intros H. unfold wp, dk_does. rewrite H. by destruct r. Qed.

#[export] Instance demo_linux : Linux demo_os.
Proof.
  refine {| sys := dk_does; dev _ := dk_does;
    open_socket k := Ret (above (dk_open k)) (mkOs (dk_says k) (dk_air k) (dk_rx k) (above (dk_open k) :: dk_open k) (dk_log k));
    open_file p k := Ret (above (dk_open k)) (mkOs (dk_says k) (dk_air k) (dk_rx k) (above (dk_open k) :: dk_open k) (dk_log k ++ [(Creat p, inr [])]));
    close fd k := Ret tt (mkOs (dk_says k) (dk_air k) (dk_rx k) (filter (fun g => g <> fd) (dk_open k)) (dk_log k));
    iw_scan _ _ k := Ret (dk_air k) k; iw_freq_to_channel f _ := hd 0 f; iw_channel_to_freq c _ := (if c <=? 14 then c else -1, [c]);
    k_answer := dk_answer; k_sockets _ := true; k_found k _ := dk_air k; k_open k := list_to_set (dk_open k); k_log := dk_log |}.
  - intros k n a. unfold dk_answer. destruct (dk_says k _) as [|x]; [done|]. case_decide; [|done]. by intros [= <-].
  - intros k n a. unfold dk_answer. destruct (dk_says k _) as [|x]; [done|]. case_decide; [|done]. by intros [= <-].
  - intros r k H. unfold wp, dk_does. by rewrite H.
  - intros r k H. eapply wp_mono; [by apply dk_does_effect|]. cbv beta. by intros a k' [-> ->].
  - intros fd r k H _. unfold wp, dk_does. by rewrite H.
  - intros fd r k H _. unfold wp. pose proof (dk_does_effect r k H) as He. unfold wp in He. destruct (dk_does r k) as [a k'| |] eqn:E; [|done|done]. destruct He as [-> ->]. split; [done|]. split; [done|]. intros n b -> ->. unfold dk_does in E. cbn in E. injection E as <- _. rewrite length_take. lia.
  - intros k. unfold wp. cbn. split; [done|]. destruct (above_new (dk_open k)) as [Hp Hn]. split; [lia|]. split; [by rewrite elem_of_list_to_set|done].
  - intros p k. unfold wp. cbn. exists (inr []). split; [done|]. right. destruct (above_new (dk_open k)) as [Hp Hn]. split; [done|]. split; [lia|]. split; [by rewrite elem_of_list_to_set|done].
  - intros fd k. unfold wp. cbn. split; [done|]. apply set_eq. intros g. rewrite elem_of_difference, !elem_of_list_to_set, list_elem_of_filter, elem_of_singleton. tauto.
  - intros fd n k _. by unfold wp.
Defined.

#[export] Instance demo_build : WifiBuild.
Proof. refine {| WLAN_DEV := lit "wlan0"; WLAN_AP := lit "wlan1"; WIFI_DB_PATH := lit "./tuyadb" |}; (split; [done|]); (split; [cbn; lia|]); repeat constructor; by vm_compute. Defined.

(** A station that is associated, with an address and a supplicant. *)
Definition demo_says (r : request) : answer :=
  match r with
  | SIOCGIFFLAGS _ => inr [0x1043]
  | SIOCGIFADDR _ => inr [192; 168; 1; 20]
  | SIOCGIFNETMASK _ => inr [255; 255; 255; 0]
  | SIOCGIFINDEX _ => inr [3]
  | SIOCGIWMODE _ => inr [WIFI_MODE_MANAGED]
  | IwRange _ => inr [22]
  | IwBasic _ => inr [1; 1]
  | Popen _ => inr (lit "1")
  | _ => inr []
  end.
Definition demo_os0 : demo_os := mkOs demo_says (Some []) [] [] [].
