(* ===== verification/LinuxWifiProps.v ===== *)
(** * Properties of [linux_wifi.c]

    What the questions to the interface answer, which descriptors stay open, the
    configuration files, how a station is connected and an access point started, and
    packets with their radiotap header. *)

From Stdlib Require Import String.
From S2P Require Import Prelude WpaParse WpaScan WpaCommand WpaCommandProps LinuxWifi.

Section Os.
Context {K : Type} {OS : Linux K} {B : WifiBuild}.
Local Abbreviation W := (M K).

(** ** Requests *)

(** Since [k0], the requests [l] were made, and the descriptors are as before, or with [fd]. *)
Definition made (k0 : K) (l : list (request * answer)) (k : K) : Prop := k_log k = k_log k0 ++ l /\ k_open k = k_open k0.
Definition held (k0 : K) (fd : Z) (l : list (request * answer)) (k : K) : Prop := k_log k = k_log k0 ++ l /\ fd ∉ k_open k0 /\ k_open k = {[fd]} ∪ k_open k0.
(** The answers are the same as well. *)
Definition same (k k' : K) : Prop := k_answer k' = k_answer k /\ k_sockets k' = k_sockets k /\ k_found k' = k_found k.
Definition asked (k k' : K) : Prop := same k k' /\ made k [] k'.

Lemma same_refl k : same k k.
Proof. done. Qed.
Lemma os_same_trans k1 k2 k3 : same k1 k2 -> same k2 k3 -> same k1 k3.
Proof. intros (? & ? & ?) (? & ? & ?). repeat split; congruence. Qed.
Lemma made_refl k : made k [] k.
Proof. split; [by rewrite app_nil_r|done]. Qed.
Lemma made_trans k1 k2 k3 l l' : made k1 l k2 -> made k2 l' k3 -> made k1 (l ++ l') k3.
Proof. intros [E1 E2] [E3 E4]. split; [rewrite E3, E1; by rewrite app_assoc|congruence]. Qed.
Lemma asked_refl k : asked k k.
Proof. split; [done|apply made_refl]. Qed.
Lemma asked_trans k1 k2 k3 : asked k1 k2 -> asked k2 k3 -> asked k1 k3.
Proof. intros [] []. split; [by eapply os_same_trans|by eapply (made_trans _ _ _ [] [])]. Qed.

Lemma quiet_same k k' : quiet k k' -> same k k' /\ k_log k' = k_log k.
Proof. intros (? & ? & ? & ?). by repeat split. Qed.

Lemma socket_spec k (Q : Z -> K -> Prop) : (k_sockets k = false -> forall k', asked k k' -> Q (-1) k') ->
  (k_sockets k = true -> forall fd k', 0 <= fd -> same k k' -> held k fd [] k' -> Q fd k') -> wp open_socket Q k.
Proof.
  intros H0 H1. eapply wp_mono; [apply open_socket_ok|]. cbv beta. intros fd k' [Hq H]. apply quiet_same in Hq as [Hs El]. destruct (k_sockets k).
  - destruct H as (? & ? & ?). apply H1; [done|done|done|]. split; [by rewrite app_nil_r|done].
  - destruct H as [-> ?]. apply H0; [done|]. split; [done|]. split; [by rewrite app_nil_r|done].
Qed.

Lemma dev_spec k0 fd l r k (Q : answer -> K -> Prop) : question r = true -> held k0 fd l k -> (forall k', same k k' -> held k0 fd l k' -> Q (k_answer k r) k') -> wp (dev fd r) Q k.
Proof.
  intros Hr (El & Hn & Eo) HQ. eapply wp_mono; [apply dev_question; [done|rewrite Eo; set_solver]|]. cbv beta. intros a k' (-> & Hq & Eo'). apply quiet_same in Hq as [Hs El']. apply HQ; [done|]. split; [congruence|]. split; [done|congruence].
Qed.

Lemma dev_does k0 fd l r k (Q : answer -> K -> Prop) : question r = false -> held k0 fd l k -> (forall a k', held k0 fd (l ++ [(r, a)]) k' -> Q a k') -> wp (dev fd r) Q k.
Proof.
  intros Hr (El & Hn & Eo) HQ. eapply wp_mono; [apply dev_effect; [done|rewrite Eo; set_solver]|]. cbv beta. intros a k' (El' & Eo' & _). apply HQ. split; [rewrite El', El; by rewrite app_assoc|]. split; [done|congruence].
Qed.

Lemma fd_close_spec k0 fd l k (Q : unit -> K -> Prop) : held k0 fd l k -> (forall k', same k k' -> made k0 l k' -> Q tt k') -> wp (close fd) Q k.
Proof.
  intros (El & Hn & Eo) HQ. eapply wp_mono; [apply close_ok|]. cbv beta. intros [] k' [Hq Eo']. apply quiet_same in Hq as [Hs El']. apply HQ; [done|]. split; [congruence|]. rewrite Eo', Eo. set_solver.
Qed.

(** The end of a conversation. *)
Lemma ending {R} k0 fd l (r : R) k (Q : R -> K -> Prop) : held k0 fd l k -> (forall k', same k k' -> made k0 l k' -> Q r k') -> wp (close fd ;;; ret r) Q k.
Proof. intros Hh HQ. by apply wp_bind, (fd_close_spec k0 fd l). Qed.
Lemma answering {R} k0 fd (r : R) k (Q : R -> K -> Prop) : same k0 k -> held k0 fd [] k -> (forall k', asked k0 k' -> Q r k') -> wp (close fd ;;; ret r) Q k.
Proof. intros Hs Hh HQ. apply (ending k0 fd []); [done|]. intros k' Hs' Hm. apply HQ. split; [by eapply os_same_trans|done]. Qed.

Lemma sys_asks r k (Q : answer -> K -> Prop) : question r = true -> (forall k', asked k k' -> Q (k_answer k r) k') -> wp (sys r) Q k.
Proof.
  intros Hr HQ. eapply wp_mono; [by apply sys_question|]. cbv beta. intros a k' (-> & Hq & Eo). apply quiet_same in Hq as [Hs El]. apply HQ. split; [done|]. split; [by rewrite app_nil_r|done].
Qed.
Lemma sys_does r k (Q : answer -> K -> Prop) : question r = false -> (forall a k', made k [(r, a)] k' -> Q a k') -> wp (sys r) Q k.
Proof. intros Hr HQ. eapply wp_mono; [by apply sys_effect|]. cbv beta. intros a k' H. apply HQ. exact H. Qed.

Lemma ifr_name_ok {R} n (c : W R) : (length n < 16)%nat -> ifr_name n c = c.
Proof. intros. unfold ifr_name. by apply fits_ok. Qed.

(** ** Questions *)

(** The answer to a question that a socket is opened and closed for. *)
Definition ask (k : K) (r : request) : option (list Z) := if k_sockets k then match k_answer k r with inr x => Some x | inl _ => None end else None.

Lemma asking {R} r (e : R) (err : Z -> R) (found : list Z -> R) k (Q : R -> K -> Prop) : question r = true ->
  (forall k', asked k k' -> Q (if k_sockets k then match k_answer k r with inl n => err n | inr x => found x end else e) k') ->
  wp (fd <- open_socket ;; if fd <? 0 then ret e else a <- dev fd r ;; match a with inl n => close fd ;;; ret (err n) | inr x => close fd ;;; ret (found x) end) Q k.
Proof.
  intros Hr HQ. apply wp_bind, socket_spec; intros Es; rewrite Es in HQ.
  - intros k' Ha. cbn. apply wp_ret. by apply HQ.
  - intros fd k1 Hfd Hs Hh. rewrite (proj2 (Z.ltb_ge fd 0)) by done. apply wp_bind, (dev_spec k fd []); [done|done|]. intros k2 Hs2 Hh2. replace (k_answer k1 r) with (k_answer k r) by (by destruct Hs as [-> _]).
    pose proof (os_same_trans _ _ _ Hs Hs2). destruct (k_answer k r); by apply (answering k).
Qed.

Definition mode_of (k : K) (n : list Z) : option Z := hd 0 <$> ask k (SIOCGIWMODE n).

Lemma get_mode_spec n k Q : (forall k', asked k k' -> Q (match mode_of k n with Some m => (0, Some m) | None => (-1, None) end) k') -> wp (wifi_get_mode n) Q k.
Proof.
  intros HQ. unfold wifi_get_mode. eapply (asking (SIOCGIWMODE n) (-1, None) (fun _ => (-1, None)) (fun mode => (0, Some (hd 0 mode)))); [done|]. intros k' Ha. specialize (HQ k' Ha). unfold mode_of, ask in HQ. destruct (k_sockets k); [|done]. by destruct (k_answer k (SIOCGIWMODE n)).
Qed.

Definition essid_of (k : K) (n : list Z) : Z :=
  match ask k (IwBasic n) with
  | Some (has_essid :: essid_on :: _) => if negb (essid_on =? 0) && (has_essid =? 1) then 1 else 0
  | Some _ => 0
  | None => -1
  end.
Lemma essid_spec n k Q : (forall k', asked k k' -> Q (essid_of k n) k') -> wp (wifi_check_essid_on n) Q k.
Proof.
  intros HQ. unfold wifi_check_essid_on. eapply (asking (IwBasic n) (-1) (fun _ => -1) (fun conf => match conf with has_essid :: essid_on :: _ => if negb (essid_on =? 0) && (has_essid =? 1) then 1 else 0 | _ => 0 end)); [done|].
  intros k' Ha. specialize (HQ k' Ha). unfold essid_of, ask in HQ. destruct (k_sockets k); [|done]. by destruct (k_answer k (IwBasic n)).
Qed.

(** The address of a running interface: an error, none, or one. *)
Definition ip_of (k : K) (n : list Z) : Z * list Z :=
  match ask k (SIOCGIFFLAGS n) with
  | None => (-1, [])
  | Some flags =>
    if Z.land (hd 0 flags) IFF_RUNNING =? 0 then (-1, [])
    else match k_answer k (SIOCGIFADDR n) with inr a => (0, inet_ntoa a) | inl e => if e =? EADDRNOTAVAIL then (1, []) else (-1, []) end
  end.

Lemma dec_octet b : 0 <= b < 256 -> (length (dec b) <= 3)%nat.
Proof.
  intros H. unfold dec. rewrite (proj2 (Z.ltb_ge b 0)) by lia. rewrite dec_loop_S. destruct (b <? 10) eqn:E1; [cbn; lia|]. rewrite dec_loop_S. destruct (b / 10 <? 10) eqn:E2; [cbn; lia|]. rewrite dec_loop_S.
  assert (b / 10 / 10 < 10) as E3 by (apply Z.div_lt_upper_bound; [lia|]; apply Z.div_lt_upper_bound; lia). rewrite (proj2 (Z.ltb_lt _ _) E3). cbn. lia.
Qed.

Lemma octets_cases a : octets a -> exists b1 b2 b3 b4, a = [b1; b2; b3; b4] /\ 0 <= b1 < 256 /\ 0 <= b2 < 256 /\ 0 <= b3 < 256 /\ 0 <= b4 < 256.
Proof. intros [El Hf]. destruct a as [|b1 [|b2 [|b3 [|b4 [|]]]]]; try done. rewrite !Forall_cons in Hf. naive_solver. Qed.

Lemma inet_ntoa_short a : octets a -> (length (inet_ntoa a) < 16)%nat.
Proof.
  intros (b1 & b2 & b3 & b4 & -> & H1%dec_octet & H2%dec_octet & H3%dec_octet & H4%dec_octet)%octets_cases. cbn [inet_ntoa]. rewrite !length_app. cbn [length]. lia.
Qed.

Lemma get_ip_spec n k Q : (length n < 16)%nat -> (forall k', asked k k' -> Q (ip_of k n) k') -> wp (wifi_get_ip n) Q k.
Proof.
  intros Hn HQ. unfold wifi_get_ip. apply wp_bind, socket_spec; intros Es; unfold ip_of, ask in HQ; rewrite Es in HQ; [intros k' Ha; by apply wp_ret, HQ|]. intros fd k1 Hfd Hs Hh. rewrite (proj2 (Z.ltb_ge fd 0)) by done. rewrite ifr_name_ok by done.
  apply wp_bind, (dev_spec k fd []); [done|done|]. intros k2 Hs2 Hh2. assert (forall r, k_answer k1 r = k_answer k r) as Ek1 by (by destruct Hs as [-> _]). assert (forall r, k_answer k2 r = k_answer k r) as Ek2 by (intros r; destruct Hs2 as [-> _]; apply Ek1). rewrite Ek1.
  pose proof (os_same_trans _ _ _ Hs Hs2) as Hs02. destruct (k_answer k (SIOCGIFFLAGS n)) as [|flags]; [by apply (answering k)|]. destruct (Z.land (hd 0 flags) IFF_RUNNING =? 0); [by apply (answering k)|].
  apply wp_bind, (dev_spec k fd []); [done|done|]. intros k3 Hs3 Hh3. rewrite Ek2. pose proof (os_same_trans _ _ _ Hs02 Hs3) as Hs03. destruct (k_answer k (SIOCGIFADDR n)) as [e|a] eqn:Ea; [destruct (e =? EADDRNOTAVAIL); by apply (answering k)|].
  rewrite fits_ok by (eapply inet_ntoa_short, k_address; exact Ea). apply wp_bind, wp_ret. by apply (answering k).
Qed.

(** The mask; all zeroes when the interface does not tell. *)
Definition mask_of (k : K) (n : list Z) : list Z := inet_ntoa (match k_answer k (SIOCGIFNETMASK n) with inr a => a | inl _ => [0; 0; 0; 0] end).
Lemma get_mask_spec n k (Q : Z * list Z -> K -> Prop) : (length n < 16)%nat -> (forall k', asked k k' -> Q (if k_sockets k then (0, strncpy MAX_IP_LEN (mask_of k n)) else (-1, [])) k') -> wp (wifi_get_ip_mask n) Q k.
Proof.
  intros Hn HQ. unfold wifi_get_ip_mask. apply wp_bind, socket_spec; intros Es; rewrite Es in HQ; [intros k' Ha; by apply wp_ret, HQ|]. intros fd k1 Hfd Hs Hh. rewrite (proj2 (Z.ltb_ge fd 0)) by done. rewrite ifr_name_ok by done.
  apply wp_bind, (dev_spec k fd []); [done|done|]. intros k2 Hs2 Hh2. pose proof (os_same_trans _ _ _ Hs Hs2) as Hs02. unfold mask_of in HQ. replace (k_answer k1 (SIOCGIFNETMASK n)) with (k_answer k (SIOCGIFNETMASK n)) by (by destruct Hs as [-> _]).
  destruct (k_answer k (SIOCGIFNETMASK n)) as [e|a]; apply wp_bind; [|apply wp_ret; by apply (answering k)]. apply (answering k fd); [done|done|]. intros k3 [Hs3 [El3 Eo3]]. apply wp_bind. destruct Hh2 as (_ & Hnew & _).
  (* the descriptor is closed a second time *)
  eapply wp_mono; [apply close_ok|]. cbv beta. intros [] k4 [Hq Eo4]. apply quiet_same in Hq as [Hs4 El4]. apply wp_ret, HQ. split; [by eapply os_same_trans|]. split; [congruence|]. rewrite Eo4, Eo3. set_solver.
Qed.

(** ** Requests that change the interface *)

Lemma enable_spec n (b : bool) k (Q : Z -> K -> Prop) : (length n < 16)%nat ->
  (ask k (SIOCGIFFLAGS n) = None -> forall k', asked k k' -> Q (-1) k') ->
  (forall flags a k', ask k (SIOCGIFFLAGS n) = Some flags -> made k [(SIOCSIFFLAGS n (if b then Z.lor (hd 0 flags) IFF_UP else Z.land (hd 0 flags) (Z.lnot IFF_UP)), a)] k' -> Q (if failed a then -1 else 0) k') ->
  wp (wifi_enable n b) Q k.
Proof.
  intros Hn H0 H1. unfold wifi_enable. apply wp_bind, socket_spec; intros Es; unfold ask in H0, H1; rewrite Es in H0, H1; [intros k' Ha; by apply wp_ret, H0|]. intros fd k1 Hfd Hs Hh. rewrite (proj2 (Z.ltb_ge fd 0)) by done. rewrite ifr_name_ok by done.
  apply wp_bind, (dev_spec k fd []); [done|done|]. intros k2 Hs2 Hh2. pose proof (os_same_trans _ _ _ Hs Hs2) as Hs02. replace (k_answer k1 (SIOCGIFFLAGS n)) with (k_answer k (SIOCGIFFLAGS n)) by (by destruct Hs as [-> _]).
  destruct (k_answer k (SIOCGIFFLAGS n)) as [|flags]; [apply (answering k); auto|]. apply wp_bind, (dev_does k fd []); [done|done|]. intros a k3 Hh3. apply (ending k fd _ _ _ _ Hh3). intros k4 _ Hm. by eapply H1.
Qed.

(** One descriptor more than before. *)
Definition leaked (k k' : K) : Prop := exists fd, fd ∉ k_open k /\ k_open k' = {[fd]} ∪ k_open k.

Definition range_of (k : K) (n : list Z) : option (list Z) := if k_sockets k then ranges (k_answer k (IwRange n)) else None.

(** The outcome of setting a channel, when the ranges of the interface are known. *)
Inductive channel_set (n : list Z) (c : Z) (range : list Z) (k : K) : Z -> K -> Prop :=
| set_unknown k' : fst (iw_channel_to_freq c range) <> c -> k_log k' = k_log k -> leaked k k' -> channel_set n c range k (-1) k'
| set_refused a k' : fst (iw_channel_to_freq c range) = c -> failed a = true -> k_log k' = k_log k ++ [(SIOCSIWFREQ n (snd (iw_channel_to_freq c range)), a)] -> leaked k k' -> channel_set n c range k (-1) k'
| set_done a k' : fst (iw_channel_to_freq c range) = c -> failed a = false -> made k [(SIOCSIWFREQ n (snd (iw_channel_to_freq c range)), a)] k' -> channel_set n c range k 0 k'.

Lemma set_channel_spec n c k : wp (wifi_set_channel n c) (fun r k' => match range_of k n with None => r = -1 /\ asked k k' | Some range => channel_set n c range k r k' end) k.
Proof.
  unfold wifi_set_channel, range_of. apply wp_bind, socket_spec; intros Es; rewrite Es; [intros k' Ha; by apply wp_ret|]. intros fd k1 Hfd Hs Hh. rewrite (proj2 (Z.ltb_ge fd 0)) by done.
  apply wp_bind, (dev_spec k fd []); [done|done|]. intros k2 Hs2 Hh2. pose proof (os_same_trans _ _ _ Hs Hs2) as Hs02. replace (k_answer k1 (IwRange n)) with (k_answer k (IwRange n)) by (by destruct Hs as [-> _]).
  destruct (ranges (k_answer k (IwRange n))) as [range|]; [|by apply (answering k)]. destruct (iw_channel_to_freq c range) as [r freq] eqn:Ef. destruct (Z.eqb_spec r c) as [->|Hr]; cbn [negb].
  - apply wp_bind, (dev_does k fd []); [done|done|]. intros a k3 Hh3. destruct (failed a) eqn:Ea.
    + apply wp_ret. destruct Hh3 as (El & Hn & Eo). apply (set_refused _ _ _ _ a); rewrite ?Ef; try done. by exists fd.
    + apply (ending k fd _ _ _ _ Hh3). intros k4 _ Hm. apply (set_done _ _ _ _ a); by rewrite ?Ef.
  - apply wp_ret. destruct Hh2 as (El & Hn & Eo). apply set_unknown; [by rewrite Ef|by rewrite app_nil_r in El|]. by exists fd.
Qed.

Lemma get_channel_spec n k (Q : Z * option Z -> K -> Prop) : (forall o k', asked k k' -> Q (match o with Some c => (0, Some c) | None => (-1, None) end) k') -> wp (wifi_get_channel n) Q k.
Proof.
  intros HQ. unfold wifi_get_channel. apply wp_bind, socket_spec; intros Es; [intros k' Ha; by apply wp_ret, (HQ None)|]. intros fd k1 Hfd Hs Hh. rewrite (proj2 (Z.ltb_ge fd 0)) by done.
  apply wp_bind, (dev_spec k fd []); [done|done|]. intros k2 Hs2 Hh2. pose proof (os_same_trans _ _ _ Hs Hs2) as Hs02. destruct (ranges (k_answer k1 (IwRange n))) as [range|]; [|apply (answering k); [done|done|intros; by apply (HQ None)]].
  apply wp_bind, (dev_spec k fd []); [done|done|]. intros k3 Hs3 Hh3. pose proof (os_same_trans _ _ _ Hs02 Hs3) as Hs03. destruct (k_answer k2 (SIOCGIWFREQ n)); (apply (answering k); [done|done|intros; by apply (HQ (Some _)) || by apply (HQ None)]).
Qed.

(** The outcome of setting the address, when there is a socket. *)
Inductive ip_set (n ip : list Z) (k : K) : Z -> K -> Prop :=
| ip_refused a k' : failed a = true -> k_log k' = k_log k ++ [(SIOCSIFADDR n ip, a)] -> leaked k k' -> ip_set n ip k (-1) k'
| ip_done a b k' : failed a = false -> made k [(SIOCSIFADDR n ip, a); (SIOCSIFFLAGS n 0x43, b)] k' -> ip_set n ip k (if failed b then -1 else 0) k'.

Lemma set_ip_spec n ip k : (length n < 16)%nat -> wp (wifi_set_ip n ip) (fun r k' => (r = -1 /\ k_sockets k = false /\ asked k k') \/ (k_sockets k = true /\ ip_set n ip k r k')) k.
Proof.
  intros Hn. unfold wifi_set_ip. rewrite ifr_name_ok by done. apply wp_bind, socket_spec; intros Es; [intros k' Ha; apply wp_ret; by left|]. intros fd k1 Hfd Hs Hh. rewrite (proj2 (Z.ltb_ge fd 0)) by done.
  apply wp_bind, (dev_does k fd []); [done|done|]. intros a k2 Hh2. destruct (failed a) eqn:Ea.
  - apply wp_ret. right. split; [done|]. destruct Hh2 as (El & Hnew & Eo). apply (ip_refused _ _ _ a); [done|done|]. by exists fd.
  - apply wp_bind, (dev_does k fd _ _ _ _ (eq_refl : question (SIOCSIFFLAGS _ _) = false) Hh2). intros b k3 Hh3. apply (ending k fd _ _ _ _ Hh3). intros k4 _ Hm. right. split; [done|]. by apply (ip_done _ _ _ a b).
Qed.

(** The modes that can be set, by name. *)
Lemma mode_numbers : mode_loop (lit "Managed") iw_operation_mode 0 = 2 /\ mode_loop (lit "Master") iw_operation_mode 0 = 3 /\ mode_loop (lit "Monitor") iw_operation_mode 0 = 6.
Proof. by vm_compute. Qed.

Lemma set_mode_spec n name m k (Q : Z -> K -> Prop) : (length n < 16)%nat -> mode_loop name iw_operation_mode 0 = m -> m = 2 \/ m = 3 \/ m = 6 ->
  (k_sockets k = false -> forall k', asked k k' -> Q (-1) k') -> (k_sockets k = true -> forall a k', made k [(SIOCSIWMODE n m, a)] k' -> Q 0 k') -> wp (wifi_set_mode n name) Q k.
Proof.
  intros Hn Em Hm H0 H1. unfold wifi_set_mode. rewrite Em. cbv zeta. replace ((7 <=? m) || (m =? 1) || (m =? 4) || (m =? 5)) with false by (by destruct Hm as [->|[->| ->]]). apply wp_bind, socket_spec; intros Es; [intros k' Ha; by apply wp_ret, H0|]. intros fd k1 Hfd Hs Hh.
  rewrite (proj2 (Z.ltb_ge fd 0)) by done. rewrite ifr_name_ok by done. apply wp_bind, (dev_does k fd []); [done|done|]. intros a k2 Hh2. apply (ending k fd _ _ _ _ Hh2). intros k3 _ Hmade. by eapply H1.
Qed.

(** ** Programs and files *)

(** The requests made since [k], without their answers. *)
Definition did (k : K) (rs : list request) (k' : K) : Prop := exists l, made k l k' /\ l.*1 = rs.

Lemma did_trans k1 k2 k3 l l' : did k1 l k2 -> did k2 l' k3 -> did k1 (l ++ l') k3.
Proof. intros (a & Ha & <-) (b & Hb & <-). exists (a ++ b). split; [by eapply made_trans|by rewrite fmap_app]. Qed.
Lemma did_asked k k' : asked k k' -> did k [] k'.
Proof. intros [_ Hm]. by exists []. Qed.
Lemma did_after_asked k k1 k' rs : asked k k1 -> did k1 rs k' -> did k rs k'.
Proof. intros H1%did_asked H2. by apply (did_trans _ _ _ [] rs H1 H2). Qed.
Lemma did_made k l k' : made k l k' -> did k l.*1 k'.
Proof. intros Hm. by exists l. Qed.
Lemma did_open k rs k' : did k rs k' -> k_open k' = k_open k.
Proof. by intros (l & [_ Eo] & _). Qed.

(** A request without a use of its answer. *)
Lemma doing r k (Q : answer -> K -> Prop) : question r = false -> (forall a k', did k [r] k' -> Q a k') -> wp (sys r) Q k.
Proof. intros Hr HQ. apply sys_does; [done|]. intros a k' Hm. apply HQ. by apply did_made in Hm. Qed.

Definition alive_of (k : K) (process : list Z) : Z :=
  match k_answer k (Popen (alive_command process)) with
  | inl _ => -1
  | inr [] => 0
  | inr l => let count := atoi (snprintf 100 l) in if count =? 0 then 0 else if count =? 1 then 1 else -1
  end.
Lemma alive_spec process k (Q : Z -> K -> Prop) : (forall k', asked k k' -> Q (alive_of k process) k') -> wp (process_alive process) Q k.
Proof. intros HQ. unfold process_alive. apply wp_bind, sys_asks; [done|]. intros k' Ha. apply wp_ret. by apply HQ. Qed.
Lemma alive_cases k process : alive_of k process = 0 \/ alive_of k process = 1 \/ alive_of k process = -1.
Proof. unfold alive_of. destruct (k_answer k _) as [|[]]; [auto|auto|]. cbv zeta. repeat case_match; auto. Qed.

Definition kill_command (proc : list Z) : request := System (snprintf 128 (lit "killall -9 '" ++ proc ++ lit "' ")).
Lemma kill_spec proc k (Q : unit -> K -> Prop) : (forall k', did k [kill_command proc] k' -> Q tt k') -> wp (process_kill proc) Q k.
Proof. intros HQ. unfold process_kill. apply wp_bind, doing; [done|]. intros a k' Hd. by apply wp_ret, HQ. Qed.

(** A program is stopped when it runs. *)
Definition killed (proc : list Z) (k k' : K) : Prop := if alive_of k proc =? 0 then asked k k' else did k [kill_command proc] k'.
Lemma kill_if_spec proc k (Q : unit -> K -> Prop) : (forall k', killed proc k k' -> Q tt k') -> wp (process_kill_if_running proc) Q k.
Proof.
  intros HQ. unfold process_kill_if_running, killed in *. apply wp_bind, alive_spec. intros k1 Ha. destruct (alive_of k proc =? 0); cbn [negb]; [by apply wp_ret, HQ|]. apply kill_spec. intros k2 Hd. apply HQ. by eapply did_after_asked.
Qed.
Lemma killed_open proc k k' : killed proc k k' -> k_open k' = k_open k.
Proof. unfold killed. destruct (_ =? 0); [by intros [_ [_ E]]|by apply did_open]. Qed.

(** A configuration file: it cannot be made, or is written. *)
Inductive wrote (path buf : list Z) : Z -> list (request * answer) -> Prop :=
| wrote_nothing a : failed a = true -> wrote path buf (-1) [(Creat path, a)]
| wrote_text a b : failed a = false -> wrote path buf (if failed b then -1 else 0) [(Creat path, a); (Write buf, b)].

Lemma write_conf_spec path buf k (Q : Z -> K -> Prop) : (forall r l k', made k l k' -> wrote path buf r l -> Q r k') -> wp (write_conf path (ret buf)) Q k.
Proof.
  intros HQ. unfold write_conf. apply wp_bind. eapply wp_mono; [apply open_file_ok|]. cbv beta. intros fd k1 (a & El & [(Ea & -> & Eo)|(Ea & Hfd & Hnew & Eo)]).
  - apply wp_ret. eapply HQ; [split; [exact El|done]|by apply wrote_nothing].
  - rewrite (proj2 (Z.ltb_ge fd 0)) by done. apply wp_bind, wp_ret, wp_bind. eapply (dev_does k fd [(Creat path, a)]); [done|by split|]. intros b k2 Hh. apply (ending k fd _ _ _ _ Hh). intros k3 _ Hm. eapply HQ; [exact Hm|by apply wrote_text].
Qed.

Lemma wrote_ok path buf r l : wrote path buf r l -> r = 0 \/ r = -1.
Proof. intros [|? b]; [by right|]. destruct (failed b); auto. Qed.
Lemma wrote_done path buf l : wrote path buf 0 l -> exists a b, l = [(Creat path, a); (Write buf, b)] /\ failed b = false.
Proof. inversion 1 as [|? b ? E]; subst. destruct (failed b) eqn:?; [done|]. eauto. Qed.

Lemma config_spec ssid psk k (Q : Z -> K -> Prop) : (length (wpa_conf ssid (key psk)) < 1024)%nat ->
  (forall r a l k', made k ((Unlink WIFI_STATION_CONF, a) :: l) k' -> wrote WIFI_STATION_CONF (wpa_conf ssid (key psk)) r l -> Q r k') -> wp (wpa_config_prepare ssid psk) Q k.
Proof.
  intros Hl HQ. unfold wpa_config_prepare. apply wp_bind, sys_does; [done|]. intros a k1 Hm. rewrite fits_ok by done. apply write_conf_spec. intros r l k2 Hm2 Hw. eapply HQ; [|exact Hw]. apply (made_trans _ _ _ [_] l Hm Hm2).
Qed.

Lemma conf_length ssid psk : (length ssid < 36)%nat -> (length (default [] (key psk)) < 68)%nat -> (length (wpa_conf ssid (key psk)) < 1024)%nat.
Proof.
  intros Hs Hp. destruct (key psk) as [p|]; cbn in Hp; unfold wpa_conf, line, quote; rewrite !length_app; cbn; lia.
Qed.

(** Waiting for a path, with at most [n] sleeps of a tenth of a second: one when it is there,
    and before each of the others it was not. *)
Inductive waited (path : list Z) : nat -> K -> K -> Prop :=
| waited_out k : waited path 0 k k
| waited_ready n k k1 : failed (k_answer k (Access path)) = false -> did k [Usleep 100000] k1 -> waited path (S n) k k1
| waited_more n k k1 k2 : failed (k_answer k (Access path)) = true -> did k [Usleep 100000] k1 -> waited path n k1 k2 -> waited path (S n) k k2.
Lemma wait_spec n path k (Q : unit -> K -> Prop) : (forall k', waited path n k k' -> Q tt k') -> wp (wait_loop n path) Q k.
Proof.
  revert k Q. induction n as [|n IH]; intros k Q HQ; cbn [wait_loop]; [apply wp_ret, HQ; constructor|]. apply wp_bind, sys_asks; [done|]. intros k1 Ha. destruct (failed _) eqn:E.
  - apply wp_bind, doing; [done|]. intros a k2 Hd. apply IH. intros k3 H3. apply HQ. eapply waited_more; [exact E| |exact H3]. by eapply did_after_asked.
  - apply wp_bind, doing; [done|]. intros a k2 Hd. apply wp_ret, HQ. eapply waited_ready; [exact E|]. by eapply did_after_asked.
Qed.
Lemma waited_open path n k k' : waited path n k k' -> k_open k' = k_open k.
Proof. induction 1 as [|??? _ Hd|???? _ Hd _ IH]; [done|by eapply did_open|]. rewrite IH. by eapply did_open. Qed.

(** A directory is made when it is not there. *)
Definition ensured (p : list Z) (k k' : K) : Prop := if failed (k_answer k (Opendir p)) then did k [Mkdir p] k' else asked k k'.
Lemma ensure_dir_spec p k (Q : unit -> K -> Prop) : (forall k', ensured p k k' -> Q tt k') -> wp (ensure_dir p) Q k.
Proof.
  intros HQ. unfold ensure_dir, ensured in *. apply wp_bind, sys_asks; [done|]. intros k1 Ha. destruct (failed _); [|by apply wp_ret, HQ]. apply wp_bind, doing; [done|]. intros a k2 Hd. apply wp_ret, HQ. by eapply did_after_asked.
Qed.
Lemma ensured_open p k k' : ensured p k k' -> k_open k' = k_open k.
Proof. unfold ensured. destruct (failed _); [by apply did_open|by intros [_ [_ E]]]. Qed.

(** The supplicant is stopped and started anew, its directories are made if need be, and its
    control interface is awaited. *)
Definition starts_wpa (k k' : K) : Prop := exists k1 k2 k3, ensured WPA_CTRL_DIR k k1 /\ ensured WPA_CTRL_INTERFACE k1 k2 /\
  did k2 [System (lit "systemctl stop wpa_supplicant 2>/dev/null"); Usleep 500000; System (lit "killall wpa_supplicant 2>/dev/null"); Usleep 200000;
    System (WPA_SUPPLICANT ++ lit " -i " ++ WLAN_DEV ++ lit " -Dnl80211 -c " ++ WIFI_STATION_CONF ++ lit " -B")] k3 /\ waited (ctrl_path WLAN_DEV) 50 k3 k'.
Lemma starts_open k k' : starts_wpa k k' -> k_open k' = k_open k.
Proof. intros (k1 & k2 & k3 & H1%ensured_open & H2%ensured_open & H3%did_open & H4%waited_open). congruence. Qed.

Lemma start_command_whole : start_wpa_command = WPA_SUPPLICANT ++ lit " -i " ++ WLAN_DEV ++ lit " -Dnl80211 -c " ++ WIFI_STATION_CONF ++ lit " -B".
Proof.
  unfold start_wpa_command, snprintf. apply take_ge. destruct wlan_dev_name as (_ & ? & _), wifi_db_name as (_ & ? & _). unfold WIFI_STATION_CONF. rewrite !length_app. cbn [length fmap list_fmap lit list_ascii_of_string WPA_SUPPLICANT]. lia.
Qed.

Lemma start_wpa_spec k (Q : unit -> K -> Prop) : (forall k', starts_wpa k k' -> Q tt k') -> wp start_wpa Q k.
Proof.
  intros HQ. unfold start_wpa. rewrite start_command_whole. apply wp_bind, ensure_dir_spec. intros k1 H1. apply wp_bind, ensure_dir_spec. intros k2 H2.
  do 5 (apply wp_bind, doing; [done|]; intros ? ? ?). apply wait_spec. intros k8 H8. apply HQ. eexists k1, k2, _. split; [done|]. split; [done|]. split; [|exact H8]. do 4 (eapply (did_trans _ _ _ [_]); [eassumption|]). done.
Qed.

Definition start_dhcp : list request := [System (lit "killall udhcpc"); System (lit "udhcpc -i " ++ WLAN_DEV ++ lit " -R &")].
(** Entering the mode without traffic and leaving it again: two rules are added, and then all
    rules of the table are removed, those of others too. *)
Lemma lowermode_commands st k : st <> 0 -> wp (wifi_goto_lowermode st ;;; wifi_goto_lowermode 0) (fun _ k' =>
  did k [System (lit "iptables -A OUTPUT  -j DROP -o wlan0"); System (lit "iptables -A INPUT -j DROP -i wlan0"); System (lit "iptables -F")] k') k.
Proof.
  intros Hst. unfold wifi_goto_lowermode. rewrite (proj2 (Z.eqb_neq _ _) Hst). cbn [negb Z.eqb]. apply wp_bind, wp_bind, doing; [done|]. intros a k1 H1. apply wp_bind, doing; [done|]. intros b k2 H2. apply wp_ret, wp_bind, doing; [done|]. intros c k3 H3. apply wp_ret. apply (did_trans _ _ _ [_] [_; _] H1). by apply (did_trans _ _ _ [_] [_]  H2).
Qed.

Lemma start_udhcpc_spec k (Q : unit -> K -> Prop) : (forall k', did k start_dhcp k' -> Q tt k') -> wp start_udhcpc Q k.
Proof.
  intros HQ. unfold start_udhcpc. apply wp_bind, doing; [done|]. intros a k1 H1. apply wp_bind. assert (snprintf 128 (UDHCPC ++ lit " -i " ++ WLAN_DEV ++ lit " -R &") = lit "udhcpc -i " ++ WLAN_DEV ++ lit " -R &") as ->.
  { unfold snprintf. rewrite take_ge; [by rewrite app_assoc|]. destruct wlan_dev_name as (_ & ? & _). rewrite !length_app. cbn [length fmap list_fmap lit list_ascii_of_string UDHCPC]. lia. }
  apply doing; [done|]. intros b k2 H2. apply wp_ret, HQ. apply (did_trans _ _ _ [_] [_] H1 H2).
Qed.
End Os.

(** ** Connecting a station *)

Section Station.
Context {K C : Type} {OS : Linux K} {B : WifiBuild} {WC : WpaCtrl C}.

Lemma wp_on_os {R} (c : M K R) (Q : R -> K * C -> Prop) k x : wp c (fun r k' => Q r (k', x)) k -> wp (on_os c) Q (k, x).
Proof. unfold wp, on_os. cbn. by destruct (c k). Qed.
Lemma wp_on_wpa {R} (c : M C R) (Q : R -> K * C -> Prop) k x : wp c (fun r x' => Q r (k, x')) x -> wp (on_wpa c) Q (k, x).
Proof. unfold wp, on_wpa. cbn. by destruct (c x). Qed.

(** A supplicant runs and can be talked to. *)
Definition running (k : K) : bool := (alive_of k WPA_SUPPLICANT =? 1) && negb (failed (k_answer k (Access (ctrl_path WLAN_DEV)))).

Inductive connects (ssid : list Z) (passwd : option (list Z)) (k : K) (c : C) : Z -> K * C -> Prop :=
| connects_error k' : alive_of k WPA_SUPPLICANT = -1 -> asked k k' -> connects ssid passwd k c (-1) (k', c)
| connects_unwritten a l k' : alive_of k WPA_SUPPLICANT <> -1 -> running k = false -> made k ((Unlink WIFI_STATION_CONF, a) :: l) k' ->
    wrote WIFI_STATION_CONF (wpa_conf ssid (key passwd)) (-1) l -> connects ssid passwd k c (-1) (k', c)
| connects_started a l k1 k2 k' : alive_of k WPA_SUPPLICANT <> -1 -> running k = false -> made k ((Unlink WIFI_STATION_CONF, a) :: l) k1 ->
    wrote WIFI_STATION_CONF (wpa_conf ssid (key passwd)) 0 l -> starts_wpa k1 k2 -> did k2 (Usleep 500 :: start_dhcp) k' -> connects ssid passwd k c 0 (k', c)
| connects_refused x k' c' : running k = true -> joined (network_of ssid passwd) c x c' -> fst x < 0 -> asked k k' -> connects ssid passwd k c (-1) (k', c')
| connects_joined x rs k' c' : running k = true -> joined (network_of ssid passwd) c x c' -> fst x = 0 ->
    rs = (if alive_of k UDHCPC =? 0 then Usleep 666 :: start_dhcp else []) -> did k rs k' -> connects ssid passwd k c 0 (k', c').

Lemma asked_alive k k' p : asked k k' -> alive_of k' p = alive_of k p.
Proof. intros [[E _] _]. unfold alive_of. by rewrite E. Qed.

(** The supplicant is started with a new configuration. *)
Lemma start_station_spec ssid passwd k k1 (c : C) : (length ssid < 36)%nat -> (length (default [] (key passwd)) < 68)%nat -> asked k k1 -> alive_of k WPA_SUPPLICANT <> -1 -> running k = false ->
  wp (r <- on_os (wpa_config_prepare ssid passwd) ;;
      if negb (r =? 0) then ret (-1) else on_os start_wpa ;;; _ <- on_os (sys (Usleep 500)) ;; on_os start_udhcpc ;;; ret 0) (connects ssid passwd k c) (k1, c).
Proof.
  intros Hs Hp Ha Hal Hrun. apply wp_bind, wp_on_os, config_spec; [by apply conf_length|]. intros r a l k2 Hm Hw. assert (made k ((Unlink WIFI_STATION_CONF, a) :: l) k2) as Hm' by (destruct Ha as [_ Ha]; apply (made_trans _ _ _ [] _ Ha Hm)).
  destruct (wrote_ok _ _ _ _ Hw) as [->| ->]; cbn [negb Z.eqb]; [|apply wp_ret; by eapply connects_unwritten]. apply wp_bind, wp_on_os, start_wpa_spec. intros k3 H3. apply wp_bind, wp_on_os, doing; [done|]. intros b k4 H4. apply wp_bind, wp_on_os, start_udhcpc_spec. intros k5 H5. apply wp_ret.
  eapply connects_started; [done|done|exact Hm'|exact Hw|exact H3|]. by eapply (did_trans _ _ _ [_]).
Qed.

(** C18: connecting a station with a key that has none of the lengths of a WEP key.  When one
    supplicant runs and its control interface exists, the network is joined by the commands
    of [wifi_join_network], which stop only where one is refused or finds no connection, with
    the result -1, and if they are all accepted, the DHCP client is started unless
    it runs.  When none runs, or the interface is missing, the configuration file is replaced
    by one for this network alone (-1 when it cannot be made or written), the directories of
    the supplicant are made when they are not there, the supplicant is stopped and started
    with the file, its interface is awaited for at most
    five seconds, and the DHCP client started.  When there are
    several, or they cannot be counted, nothing is done.  Names and keys up to the sizes of
    their arrays fit every buffer, and no descriptor stays open. *)
Theorem station_connect_correct ssid passwd k (c : C) : (length ssid < 36)%nat -> (length (default [] (key passwd)) < 68)%nat -> wep_length (length (default [] (key passwd))) = false ->
  wp (wifi_station_connect ssid passwd) (fun r s' => connects ssid passwd k c r s' /\ k_open (fst s') = k_open k) (k, c).
Proof.
  intros Hs Hp Hw. cut (wp (wifi_station_connect ssid passwd) (connects ssid passwd k c) (k, c)).
  { intros H. eapply wp_mono; [exact H|]. intros r s' Hc. split; [done|]. destruct Hc as [?? [_ []]|????? [] ?|??????? [_ E1] _ E2%starts_open E3%did_open|?????? [_ []]|???????? Hd]; cbn; try done; [congruence|]. by eapply did_open. }
  unfold wifi_station_connect. rewrite !fits_ok by done. apply wp_bind, wp_on_os, alive_spec. intros k1 Ha. pose proof (start_station_spec ssid passwd k) as Hstart. unfold running in Hstart.
  destruct (alive_cases k WPA_SUPPLICANT) as [E|[E|E]]; rewrite E in *; cbn [Z.eqb andb negb Pos.eqb].
  - apply wp_bind, wp_ret. cbn [andb]. by apply Hstart.
  - apply wp_bind. unfold wpa_ctrl_iface_ready. destruct wlan_dev_name as (Hne & _). destruct WLAN_DEV as [|c0 n0] eqn:En; [done|]. rewrite <-En in *. apply wp_on_os, wp_bind, sys_asks; [done|]. intros k2 Ha2. apply wp_ret. pose proof (asked_trans _ _ _ Ha Ha2) as Ha02.
    assert (k_answer k1 = k_answer k) as Ek by (by destruct Ha as [[-> _] _]). rewrite Ek. destruct (failed (k_answer k (Access (ctrl_path WLAN_DEV)))) eqn:Ef; cbn [negb]; [by apply Hstart|]. change (1 =? 0) with false. cbv iota.
    assert (running k = true) as Hrun by (unfold running; by rewrite E, Ef). apply wp_bind, wp_on_wpa. eapply wp_mono; [apply join_network_spec|].
    { unfold network_of. destruct (key passwd); cbn in *; repeat split; cbn; try lia; done. }
    { unfold network_of. by destruct (key passwd). }
    cbv beta. intros x c' Hj. assert (fst x = 0 \/ fst x < 0) as Hx. { destruct Hj as (? & ? & _ & [[_ ->]|(? & ? & _ & _ & _ & [|])]); cbn; lia. }
    destruct Hx as [Hx|Hx]; [|rewrite (proj2 (Z.ltb_lt _ 0)) by done; apply wp_ret; by eapply connects_refused]. rewrite Hx. change (0 <? 0) with false. cbv iota. apply wp_bind, wp_on_os, alive_spec. intros k3 Ha3.
    pose proof (asked_trans _ _ _ Ha02 Ha3) as Ha03. rewrite (asked_alive k k2) by done. destruct (alive_of k UDHCPC =? 0) eqn:Ed.
    + apply wp_bind, wp_on_os, doing; [done|]. intros a k4 H4. apply wp_bind, wp_on_os, start_udhcpc_spec. intros k5 H5. apply wp_ret. eapply connects_joined; [done|done|done|by rewrite Ed|]. eapply did_after_asked; [done|]. apply (did_trans _ _ _ [_] _ H4 H5).
    + apply wp_ret. eapply connects_joined; [done|done|done|by rewrite Ed|]. by apply did_asked.
  - apply wp_bind, wp_ret, wp_ret. by apply connects_error.
Qed.
End Station.

(** ** Reading the configuration back *)

Lemma fgets_cons n c s : fgets (S (S n)) (c :: s) = if c =? 10 then ([c], s) else let (a, b) := fgets (S n) s in (c :: a, b).
Proof. done. Qed.
Lemma fgets_app n s : fst (fgets n s) ++ snd (fgets n s) = s.
Proof. revert s. induction n as [|[|n] IH]; intros s; [done|by destruct s|]. destruct s as [|c s]; [done|]. rewrite fgets_cons. destruct (c =? 10); [done|]. specialize (IH s). destruct (fgets (S n) s) as [a b]. cbn in *. by rewrite IH. Qed.
Lemma fgets_nil n s : (2 <= n)%nat -> fst (fgets n s) = [] -> s = [].
Proof. destruct n as [|[|n]]; [lia|lia|]. intros _. destruct s as [|c s]; [done|]. rewrite fgets_cons. destruct (c =? 10); [done|]. by destruct (fgets (S n) s). Qed.

(** The lines of a text that fits are put together again. *)
Lemma read_loop_spec {S_} fuel n m s str (st : S_) : (2 <= n)%nat -> (length s < fuel)%nat -> (length (str ++ s) < m)%nat -> read_loop fuel n m s str st = Ret (str ++ s) st.
Proof.
  intros Hn. revert s str. induction fuel as [|fuel IH]; intros s str Hf Hm; [lia|]. cbn [read_loop]. pose proof (fgets_app n s) as Ea. pose proof (fgets_nil n s Hn) as En. destruct (fgets n s) as [a b]. cbn [fst snd] in *. destruct a as [|c a]; [rewrite En by done; by rewrite app_nil_r|].
  subst s. rewrite fits_ok; [|rewrite !length_app in *; lia]. rewrite IH; [by rewrite <-!app_assoc|rewrite length_app in Hf; cbn in Hf; lia|by rewrite <-app_assoc].
Qed.

Lemma starts_cut p w c r : c ∉ p -> starts p (w ++ c :: r) = starts p w.
Proof.
  revert w. induction p as [|d p IH]; intros w Hc; [done|]. rewrite not_elem_of_cons in Hc. destruct Hc as [Hd Hc]. destruct w as [|x w]; cbn [starts app].
  - by rewrite (proj2 (Z.eqb_neq d c)).
  - by rewrite IH.
Qed.
Lemma strstr_at_cut p w c r : p <> [] -> c ∉ p -> strstr w p = false -> strstr_at (w ++ c :: r) p = strstr_at r p.
Proof.
  intros Hp Hc. induction w as [|d w IH]; cbn [strstr strstr_at app]; intros Hw.
  - pose proof (starts_cut p [] c r Hc) as E. cbn [app] in E. rewrite orb_false_r in Hw. by rewrite E, Hw.
  - apply orb_false_elim in Hw as [H1 H2]. change (d :: w ++ c :: r) with ((d :: w) ++ c :: r). rewrite starts_cut, H1 by done. by apply IH.
Qed.

Definition printable (w : list Z) : Prop := Forall (fun c => c <> 0 /\ space c = false) w.

Section Readback.
Context {K : Type} {OS : Linux K} {B : WifiBuild}.

Lemma conf_find_ssid ssid psk : strstr_at (wpa_conf ssid (Some psk)) (lit "ssid=") = Some (lit "ssid=" ++ quote ssid ++ 10 :: (line (lit "psk=" ++ quote psk) ++ line (lit "}"))).
Proof. unfold wpa_conf, line, quote. rewrite <-!app_assoc. reflexivity. Qed.
Lemma conf_find_psk ssid psk : strstr ssid (lit "psk=") = false -> strstr_at (wpa_conf ssid (Some psk)) (lit "psk=") = Some (lit "psk=" ++ quote psk ++ 10 :: line (lit "}")).
Proof.
  intros Hs. transitivity (strstr_at (ssid ++ 34 :: 10 :: (lit "psk=" ++ quote psk ++ 10 :: line (lit "}"))) (lit "psk=")).
  { unfold wpa_conf, line, quote. rewrite <-!app_assoc. reflexivity. }
  rewrite strstr_at_cut; [done|done| |done]. apply (bool_decide_unpack (34 ∉ lit "psk=")). by vm_compute.
Qed.

Lemma scan_quoted {S_} n w r (st : S_) : printable w -> scan_word n (quote w ++ 10 :: r) [] st = if (length w + 2 <? n)%nat then Ret (quote w) st else Fault.
Proof.
  intros Hw. assert (word (S (length (quote w))) (quote w)) as Hq.
  { split; [done|]. split; [lia|]. unfold quote. apply Forall_app. split; [by repeat constructor|]. apply Forall_app. split; [done|by repeat constructor]. }
  unfold scan_word. rewrite (scan_s_word _ _ _ Hq) by done. unfold fits. replace (length (quote w)) with (length w + 2)%nat by (unfold quote; rewrite !length_app; cbn; lia). by destruct (length w + 2 <? n)%nat.
Qed.

(** C36: what [get_passwd_and_ssid_from_wpa_file] finds in a file that [wpa_config_prepare]
    wrote for a protected network, when the name has no space and does not contain the
    letters [psk=]: not the name and the key but these in quotation marks.  The arrays have
    no room for them, so a name of 31 or 32 letters, or a key of 63, overflows an array on
    the stack. *)
Theorem wpa_file_readback ssid psk k : printable ssid -> printable psk -> (length ssid <= 32)%nat -> (length psk <= 64)%nat -> strstr ssid (lit "psk=") = false ->
  k_answer k (Contents WIFI_STATION_CONF) = inr (wpa_conf ssid (Some psk)) ->
  if (length ssid <=? 30)%nat && (length psk <=? 62)%nat
  then wp get_passwd_and_ssid_from_wpa_file (fun r k' => r = (0, Some (strncpy 32 (quote ssid), strncpy 64 (quote psk))) /\ asked k k') k
  else get_passwd_and_ssid_from_wpa_file k = Fault.
Proof.
  intros Hs Hp Ls Lp Hn Ek. pose proof (sys_question (Contents WIFI_STATION_CONF) k eq_refl) as Hq. apply wp_run in Hq as (a & k1 & E1 & -> & Hq & Eo). rewrite Ek in E1. apply quiet_same in Hq as [Hsame El].
  assert (asked k k1) as Ha by (split; [done|]; split; [by rewrite app_nil_r|done]).
  assert (length (wpa_conf ssid (Some psk)) < 1024)%nat as Hlen by (unfold wpa_conf, line, quote; rewrite !length_app; cbn; lia).
  assert (get_passwd_and_ssid_from_wpa_file k = if (length ssid <=? 30)%nat && (length psk <=? 62)%nat then Ret (0, Some (strncpy 32 (quote ssid), strncpy 64 (quote psk))) k1 else Fault) as E.
  { unfold get_passwd_and_ssid_from_wpa_file, bind. rewrite E1, read_loop_spec by (cbn [app]; lia). cbn [app]. rewrite conf_find_ssid, conf_find_psk by done.
    change (drop 5 (lit "ssid=" ++ ?x)) with x. change (drop 4 (lit "psk=" ++ ?x)) with x. rewrite scan_quoted by done. destruct (Nat.leb_spec (length ssid) 30) as [H1|H1]; [rewrite (proj2 (Nat.ltb_lt (length ssid + 2) 33)) by lia|by rewrite (proj2 (Nat.ltb_ge (length ssid + 2) 33)) by lia].
    rewrite scan_quoted by done. destruct (Nat.leb_spec (length psk) 62) as [H2|H2]; [by rewrite (proj2 (Nat.ltb_lt (length psk + 2) 65)) by lia|by rewrite (proj2 (Nat.ltb_ge (length psk + 2) 65)) by lia]. }
  unfold wp. rewrite E. by destruct ((length ssid <=? 30)%nat && (length psk <=? 62)%nat).
Qed.
End Readback.

(** ** Starting an access point *)

Section AccessPoint.
Context {K : Type} {OS : Linux K} {B : WifiBuild}.

Definition network_part (a : list Z) : list Z :=
  match a with b1 :: b2 :: b3 :: _ => dec b1 ++ [46] ++ dec b2 ++ [46] ++ dec b3 ++ [46] | _ => [] end.

Lemma dec_no_dot b : 0 <= b < 256 -> Forall (fun c => (c =? 46) = false) (dec b).
Proof.
  intros Hb. destruct (dec_spec b) as (ds & E & _ & Hd & _); [unfold int; lia|]. rewrite (proj2 (Z.ltb_ge b 0)) in E by lia. rewrite E. cbn [app]. eapply Forall_impl; [exact Hd|]. cbv beta. unfold digit. intros c Hc. zbool. apply Z.eqb_neq. lia.
Qed.

Lemma dots_loop_digits w r dot : Forall (fun c => (c =? 46) = false) w -> dot < 3 -> dots_loop (w ++ r) dot = (fst (dots_loop r dot), w ++ snd (dots_loop r dot)).
Proof.
  induction 1 as [|c w Hc Hw IH]; intros Hd; cbn [dots_loop app]; [by destruct (dots_loop r dot)|]. rewrite Hc, (proj2 (Z.eqb_neq dot 3)) by lia. by rewrite IH.
Qed.

Lemma dots_loop_quad a : octets a -> dots_loop (inet_ntoa a) 0 = (3, network_part a).
Proof.
  intros (b1 & b2 & b3 & b4 & -> & H1 & H2 & H3 & H4)%octets_cases. cbn [inet_ntoa network_part]. rewrite dots_loop_digits by (by apply dec_no_dot || lia). cbn [app dots_loop]. change (46 =? 46) with true. cbn [Z.add Z.eqb Pos.add Pos.eqb Pos.succ]. rewrite dots_loop_digits by (by apply dec_no_dot || lia).
  cbn [app dots_loop]. change (46 =? 46) with true. cbn [Z.add Z.eqb Pos.add Pos.eqb Pos.succ]. rewrite dots_loop_digits by (by apply dec_no_dot || lia). cbn [app dots_loop fst snd]. done.
Qed.

Lemma network_part_length a : octets a -> (length (network_part a) < 13)%nat.
Proof. intros (b1 & b2 & b3 & b4 & -> & H1%dec_octet & H2%dec_octet & H3%dec_octet & _)%octets_cases. cbn [network_part]. rewrite !length_app. cbn [length]. lia. Qed.

(** A configuration whose texts fit their arrays. *)
Definition cfg_ok (cfg : WF_AP_CFG_IF_S) : Prop :=
  (length (cf_ssid cfg) <= 32)%nat /\ (length (cf_passwd cfg) <= 64)%nat /\ int (cf_chan cfg) /\ int (cf_ssid_hidden cfg) /\ int (cf_max_conn cfg) /\ int (cf_ms_interval cfg) /\ (length (nw_mask (cf_ip cfg)) < 16)%nat.

Lemma dec_length n : int n -> (length (dec n) <= 21)%nat.
Proof. intros H. by apply dec_text. Qed.
Lemma orelse_int n d : int n -> int d -> int (orelse n d).
Proof. unfold orelse. by destruct (n =? 0). Qed.

Lemma hostapd_conf_length cfg buf : cfg_ok cfg -> hostapd_conf cfg = Some buf -> (length buf < 1024)%nat.
Proof.
  intros (Hs & Hp & Hc%dec_length & Hh%dec_length & Hm & Hi & _) E. pose proof (dec_length _ (orelse_int _ 3 Hm ltac:(unfold int; lia))). pose proof (dec_length _ (orelse_int _ 100 Hi ltac:(unfold int; lia))). destruct wlan_ap_name as (_ & Ha & _).
  unfold hostapd_conf in E. cbv zeta in E. destruct (cf_md cfg); try discriminate E; apply (inj Some) in E; subst buf; unfold line, quote; rewrite ?length_app; cbn [length fmap list_fmap lit list_ascii_of_string]; lia.
Qed.

(** The addresses that the DHCP server hands out for the address [ip] with the beginning
    [pre]. *)
Definition dhcp_conf (ifname ip pre mask : list Z) : list Z := udhcpd_conf (mkUdhcpd ifname (pre ++ lit "2") (pre ++ lit "254") ip mask).

Lemma dhcp_conf_length ifname ip pre mask : (length ifname < 16)%nat -> (length ip < 16)%nat -> (length pre < 13)%nat -> (length mask < 16)%nat -> (length (dhcp_conf ifname ip pre mask) < 255)%nat.
Proof. intros. unfold dhcp_conf, udhcpd_conf, line. cbn [ud_ifname ud_ip_start ud_ip_end ud_ip_route ud_ip_mask]. rewrite !length_app. cbn [length fmap list_fmap lit list_ascii_of_string]. lia. Qed.

(** The log of a script: requests in order, each with its answer; one that has to succeed
    ([true]) ends it when it fails, and nothing else does. *)
Inductive attempts : list (request * bool) -> list (request * answer) -> bool -> Prop :=
| att_done : attempts [] [] true
| att_stop r rs a : failed a = true -> attempts ((r, true) :: rs) [(r, a)] false
| att_next r must rs a l b : (must = true -> failed a = false) -> attempts rs l b -> attempts ((r, must) :: rs) ((r, a) :: l) b.
Lemma attempts_app rs l rs' l' b : attempts rs l true -> attempts rs' l' b -> attempts (rs ++ rs') (l ++ l') b.
Proof. remember true as b0 eqn:E. induction 1; intros H'; [done|done|]. cbn [app]. constructor; auto. Qed.
Lemma attempts_stop rs l rs' : attempts rs l false -> attempts (rs ++ rs') l false.
Proof. remember false as b0 eqn:E. induction 1; [done|by constructor|]. cbn [app]. constructor; auto. Qed.
Lemma attempts_any r a : attempts [(r, false)] [(r, a)] true.
Proof. by repeat constructor. Qed.
Lemma wrote_attempts path buf r l : wrote path buf r l -> attempts [(Creat path, true); (Write buf, true)] l (r =? 0).
Proof. intros [a Ha|a b Ha]; [by constructor|]. constructor; [done|]. destruct (failed b) eqn:E; [by constructor|]. by repeat constructor. Qed.

(** What an access point needs: the configuration of hostapd and its start; the address and
    the room for leases; the configuration of the DHCP server; its start. *)
Definition ap_hostapd (buf : list Z) : list (request * bool) :=
  [(Unlink WIFI_HOSTAPD_CONF, false); (Creat WIFI_HOSTAPD_CONF, true); (Write buf, true); (System (lit "hostapd " ++ WIFI_HOSTAPD_CONF ++ lit " &"), false)].
Definition ap_address (ifname : list Z) (cfg : WF_AP_CFG_IF_S) : list (request * bool) :=
  [(SIOCSIFADDR ifname (nw_ip (cf_ip cfg)), true); (SIOCSIFFLAGS ifname 0x43, true)].
Definition ap_leases : list (request * bool) := [(System (lit "mkdir -p /var/lib/misc"), false); (System (lit "touch /var/lib/misc/udhcpd.leases"), false); (Unlink WIFI_DHCPD_CONF, false)].
Definition ap_dhcp (ifname : list Z) (cfg : WF_AP_CFG_IF_S) (pre : list Z) : list (request * bool) :=
  [(Creat WIFI_DHCPD_CONF, true); (Write (dhcp_conf ifname (nw_ip (cf_ip cfg)) pre (nw_mask (cf_ip cfg)) ++ [0]), true)].
Definition ap_server : list (request * bool) := [(System (lit "udhcpd -f " ++ WIFI_DHCPD_CONF ++ lit " &"), false)].

(** The log of an attempt to start an access point, and if it was started: it is not when a
    request that has to succeed is refused, or no socket could be had for the address; when it
    is the configuration of the DHCP server, hostapd is stopped again. *)
Inductive ap_outcome (ifname : list Z) (cfg : WF_AP_CFG_IF_S) (buf pre : list Z) (k' : K) : list (request * answer) -> bool -> Prop :=
| ap_refused l : attempts (ap_hostapd buf ++ ap_address ifname cfg) l false -> ap_outcome ifname cfg buf pre k' l false
| ap_no_socket l : attempts (ap_hostapd buf) l true -> k_sockets k' = false -> ap_outcome ifname cfg buf pre k' l false
| ap_no_dhcp l l' a : attempts (ap_hostapd buf ++ ap_address ifname cfg ++ ap_leases) l true -> attempts (ap_dhcp ifname cfg pre) l' false ->
    ap_outcome ifname cfg buf pre k' (l ++ l' ++ [(System (lit "killall -9 hostapd"), a)]) false
| ap_started l : attempts (ap_hostapd buf ++ ap_address ifname cfg ++ ap_leases ++ ap_dhcp ifname cfg pre ++ ap_server) l true -> ap_outcome ifname cfg buf pre k' l true.

(** The old programs were stopped, and then an access point started, or not. *)
Definition ap_run (ifname : list Z) (cfg : WF_AP_CFG_IF_S) (buf pre : list Z) (k k' : K) (started : bool) : Prop :=
  exists k1 k2 l, killed (lit "hostapd") k k1 /\ killed (lit "udhcpd") k1 k2 /\ k_log k' = k_log k2 ++ l /\ ap_outcome ifname cfg buf pre k' l started /\ (started = true -> k_open k' = k_open k).

Lemma command_whole p n : (length p < 64)%nat -> (length n <= 10)%nat -> forall w, (length w <= 10)%nat -> snprintf 128 (w ++ p ++ n) = w ++ p ++ n.
Proof. intros. unfold snprintf. apply take_ge. rewrite !length_app. lia. Qed.

Lemma conf_path_length w : (length w <= 14)%nat -> (length (WIFI_DB_PATH ++ w) < 64)%nat.
Proof. destruct wifi_db_name as (_ & ? & _). rewrite length_app. lia. Qed.

Lemma hostapd_conf_spec cfg buf k (Q : Z -> K -> Prop) : cfg_ok cfg -> hostapd_conf cfg = Some buf ->
  (forall a l r k', made k ((Unlink WIFI_HOSTAPD_CONF, a) :: l) k' -> wrote WIFI_HOSTAPD_CONF buf r l -> Q r k') -> wp (hostapd_conf_prepare cfg) Q k.
Proof.
  intros Hc E HQ. unfold hostapd_conf_prepare. rewrite E, fits_ok by (by eapply hostapd_conf_length). apply wp_bind, sys_does; [done|]. intros a k1 Hd. apply write_conf_spec. intros r l k2 Hm Hw. eapply HQ; [|exact Hw]. apply (made_trans _ _ _ [_] l Hd Hm).
Qed.

Lemma ap_start_spec ifname cfg buf pre k : cfg_ok cfg -> hostapd_conf cfg = Some buf -> (length ifname < 16)%nat -> (length (nw_ip (cf_ip cfg)) < 16)%nat -> (length pre < 13)%nat ->
  dots_loop (nw_ip (cf_ip cfg)) 0 = (3, pre) -> wp (wifi_ap_start ifname cfg) (fun r k' => (r = 0 \/ r = -1) /\ ap_run ifname cfg buf pre k k' (r =? 0)) k.
Proof.
  intros Hc Eb Hn Hip Hpre Eip. unfold wifi_ap_start. apply wp_bind, kill_if_spec. intros k1 H1. apply wp_bind, kill_if_spec. intros k2 H2.
  assert (k_open k2 = k_open k) as Eo2 by (apply killed_open in H1, H2; congruence).
  assert (forall k' l, k_log k' = k_log k2 ++ l -> ap_outcome ifname cfg buf pre k' l false -> (-1 = 0 \/ -1 = -1) /\ ap_run ifname cfg buf pre k k' (-1 =? 0)) as Hfail by (intros k' l El Ho; split; [by right|]; exists k1, k2, l; done).
  apply wp_bind, (hostapd_conf_spec cfg buf); [done|done|]. intros a0 l0 r0 k3 [L3 O3] Hw0. pose proof (attempts_app _ _ _ _ _ (attempts_any (Unlink WIFI_HOSTAPD_CONF) a0) (wrote_attempts _ _ _ _ Hw0)) as A0. cbn [app] in A0.
  destruct (wrote_ok _ _ _ _ Hw0) as [->| ->]; [|apply wp_ret; eapply Hfail; [exact L3|]; apply ap_refused; by apply (attempts_stop _ _ ((System (lit "hostapd " ++ WIFI_HOSTAPD_CONF ++ lit " &"), false) :: ap_address ifname cfg)) in A0].
  change (0 <? 0) with false. cbv iota. rewrite (command_whole WIFI_HOSTAPD_CONF (lit " &")) by (try apply conf_path_length; cbn; lia). apply wp_bind, sys_does; [done|]. intros a4 k4 [L4 O4].
  pose proof (attempts_app _ _ _ _ _ A0 (attempts_any (System (lit "hostapd " ++ WIFI_HOSTAPD_CONF ++ lit " &")) a4)) as A1. set (l1 := ((Unlink WIFI_HOSTAPD_CONF, a0) :: l0) ++ [(System (lit "hostapd " ++ WIFI_HOSTAPD_CONF ++ lit " &"), a4)]) in *. assert (k_log k4 = k_log k2 ++ l1) as L4' by (unfold l1; rewrite L4, L3; by rewrite <-app_assoc). change (attempts (ap_hostapd buf) l1 true) in A1.
  apply wp_bind. eapply wp_mono; [by apply set_ip_spec|]. cbv beta. intros r k5 [(-> & Hs & [(_ & Es & _) [L5 _]])|(_ & Hset)].
  { apply wp_ret. eapply (Hfail _ l1); [by rewrite L5, app_nil_r|]. apply ap_no_socket; [done|congruence]. }
  destruct Hset as [a5 k5 Ha5 L5 _|a5 b5 k5 Ha5 [L5 O5]].
  { apply wp_ret. eapply Hfail; [rewrite L5, L4', <-app_assoc; reflexivity|]. apply ap_refused. eapply attempts_app; [exact A1|]. by constructor. }
  destruct (failed b5) eqn:Hb5.
  { apply wp_ret. eapply Hfail; [rewrite L5, L4', <-app_assoc; reflexivity|]. apply ap_refused. eapply attempts_app; [exact A1|]. constructor; [done|]. by constructor. }
  change (0 <? 0) with false. cbv iota. assert (attempts (ap_address ifname cfg) [(SIOCSIFADDR ifname (nw_ip (cf_ip cfg)), a5); (SIOCSIFFLAGS ifname 0x43, b5)] true) as A2 by (by repeat constructor).
  apply wp_bind, sys_does; [done|]; intros a6 k6 [L6 O6]. apply wp_bind, sys_does; [done|]; intros a7 k7 [L7 O7]. apply wp_bind. unfold ip_prepare. unfold snprintf at 1. rewrite take_ge by (unfold MAX_IP_LEN; lia). rewrite Eip. change (negb (3 =? 3)) with false. cbv iota. rewrite fits_ok by done. apply wp_ret. cbn [snd].
  rewrite !fits_ok by (done || apply Hc). apply wp_bind. unfold udhcpd_conf_prepare. apply wp_bind, sys_does; [done|]. intros a8 k8 [L8 O8]. assert (forall w, (length w <= 3)%nat -> snprintf MAX_IP_LEN (pre ++ w) = pre ++ w) as Es. { intros w Hw. unfold snprintf. apply take_ge. rewrite length_app. unfold MAX_IP_LEN. lia. }
  assert (attempts ap_leases [(System (lit "mkdir -p /var/lib/misc"), a6); (System (lit "touch /var/lib/misc/udhcpd.leases"), a7); (Unlink WIFI_DHCPD_CONF, a8)] true) as A3 by (by repeat constructor). pose proof (attempts_app _ _ _ _ _ A1 (attempts_app _ _ _ _ _ A2 A3)) as A123.
  match type of A123 with attempts _ ?l _ => set (l3 := l) in * end. assert (k_log k8 = k_log k2 ++ l3) as L8' by (unfold l3; rewrite L8, L7, L6, L5, L4'; by rewrite <-!app_assoc).
  change (dec 2) with (lit "2"). change (dec 254) with (lit "254"). rewrite !Es by (cbn; lia). fold (dhcp_conf ifname (nw_ip (cf_ip cfg)) pre (nw_mask (cf_ip cfg))). unfold snprintf at 1. rewrite take_ge by (apply Nat.lt_le_incl, dhcp_conf_length; (done || apply Hc)).
  apply write_conf_spec. intros r l9 k9 [L9 O9] Hw. pose proof (wrote_attempts _ _ _ _ Hw) as A4. destruct (wrote_ok _ _ _ _ Hw) as [->| ->].
  - change (0 <? 0) with false. cbv iota. rewrite (command_whole WIFI_DHCPD_CONF (lit " &")) by (try apply conf_path_length; cbn; lia). apply wp_bind, sys_does; [done|]. intros a10 k10 [L10 O10]. apply wp_ret. split; [by left|].
    pose proof (attempts_app _ _ _ _ _ A1 (attempts_app _ _ _ _ _ A2 (attempts_app _ _ _ _ _ A3 (attempts_app _ _ _ _ _ A4 (attempts_any (System (lit "udhcpd -f " ++ WIFI_DHCPD_CONF ++ lit " &")) a10))))) as A. eexists k1, k2, _. split; [done|]. split; [done|]. split; [|split; [apply ap_started; exact A|intros _; congruence]].
    rewrite L10, L9, L8'. unfold l3. by rewrite <-!app_assoc.
  - cbn [Z.ltb Z.compare]. apply wp_bind, sys_does; [done|]. intros a10 k10 [L10 O10]. apply wp_ret. apply (Hfail _ (l3 ++ l9 ++ [(System (lit "killall -9 hostapd"), a10)])); [by rewrite L10, L9, L8', <-!app_assoc|]. by apply ap_no_dhcp.
Qed.

(** Without an address nothing can be started. *)
Lemma ap_start_empty ifname cfg k : cfg_ok cfg -> (length ifname < 16)%nat -> nw_ip (cf_ip cfg) = [] -> wp (wifi_ap_start ifname cfg) (fun r _ => r = -1) k.
Proof.
  intros Hc Hn Eip. unfold wifi_ap_start. apply wp_bind, kill_if_spec. intros k1 _. apply wp_bind, kill_if_spec. intros k2 _. apply wp_bind. destruct (hostapd_conf cfg) as [buf|] eqn:Eb; [|unfold hostapd_conf_prepare; rewrite Eb; by apply wp_ret, wp_ret].
  apply (hostapd_conf_spec cfg buf); [done|done|]. intros a0 l0 r0 k3 _ _. destruct (r0 <? 0); [by apply wp_ret|]. apply wp_bind, doing; [done|]. intros a k4 _.
  apply wp_bind. eapply wp_mono; [by apply set_ip_spec|]. cbv beta. intros r k5 _. destruct (r <? 0); [by apply wp_ret|]. do 2 (apply wp_bind, doing; [done|]; intros ? ? ?). rewrite Eip. by apply wp_bind, wp_ret, wp_ret.
Qed.
End AccessPoint.

(** ** On a system *)

Lemma station_connect_correct_witness : wp (wifi_station_connect (lit "home") (Some (lit "secret door"))) (fun r s' =>
  connects (lit "home") (Some (lit "secret door")) demo_os0 ([] : demo_log) r s' /\ k_open (fst s') = k_open demo_os0) (demo_os0, []).
Proof. refine (station_connect_correct (lit "home") (Some (lit "secret door")) demo_os0 ([] : demo_log) _ _ eq_refl); cbn; lia. Defined.

(** Without a supplicant, one is started. *)
Example station_start_demo :
  match wifi_station_connect (lit "home") None (mkOs (fun r => match r with Popen _ => inr (lit "0") | _ => demo_says r end) None [] [] [], [] : demo_log) with
  | Ret r s => r = 0 /\ (dk_log (fst s)).*1 = [Unlink (lit "./tuyadb/wpa_0_8.conf"); Creat (lit "./tuyadb/wpa_0_8.conf"); Write (wpa_conf (lit "home") None);
      System (lit "systemctl stop wpa_supplicant 2>/dev/null"); Usleep 500000; System (lit "killall wpa_supplicant 2>/dev/null"); Usleep 200000;
      System (lit "wpa_supplicant -i wlan0 -Dnl80211 -c ./tuyadb/wpa_0_8.conf -B"); Usleep 100000; Usleep 500; System (lit "killall udhcpc"); System (lit "udhcpc -i wlan0 -R &")]
  | _ => False
  end.
Proof. by vm_compute. Qed.

Definition conf_os (ssid psk : list Z) : demo_os := mkOs (fun r => match r with Contents _ => inr (wpa_conf ssid (Some psk)) | _ => demo_says r end) None [] [] [].

Lemma wpa_file_readback_witness :
  wp get_passwd_and_ssid_from_wpa_file (fun r k' => r = (0, Some (strncpy 32 (quote (lit "home")), strncpy 64 (quote (lit "secret")))) /\ asked (conf_os (lit "home") (lit "secret")) k') (conf_os (lit "home") (lit "secret")) /\
  get_passwd_and_ssid_from_wpa_file (conf_os (replicate 32 97) (lit "secret")) = Fault.
Proof.
  split.
  - refine (wpa_file_readback (lit "home") (lit "secret") (conf_os (lit "home") (lit "secret")) _ _ _ _ eq_refl eq_refl); [repeat constructor; by vm_compute|repeat constructor; by vm_compute|cbn; lia|cbn; lia].
  - refine (wpa_file_readback (replicate 32 97) (lit "secret") (conf_os (replicate 32 97) (lit "secret")) _ _ _ _ eq_refl eq_refl); [repeat constructor; by vm_compute|repeat constructor; by vm_compute|cbn; lia|cbn; lia].
Defined.
