(* ===== verification/LinuxWifiScan.v ===== *)
(** * Scanning with the wireless tools: [wifi_scan_ap] of [src/tkl_wifi/linux_wifi.c]

    What the list of access points holds after a scan, and the loop that never ends when a
    network is found without an address. *)

From Stdlib Require Import String.
From S2P Require Import Prelude WpaParse WpaScan WpaCommand WpaCommandProps LinuxWifi LinuxWifiProps.

Lemma hexC_spec d : 0 <= d < 16 -> xdigit (hexC d) = Some d /\ hexC d <> 120 /\ hexC d <> 88 /\ space (hexC d) = false /\ hexC d <> 45 /\ hexC d <> 43.
Proof.
  intros H. assert (d ∈ seqZ 0 16) as Hin by (apply elem_of_seqZ; lia). revert d H Hin. assert (Forall (fun d => xdigit (hexC d) = Some d /\ hexC d <> 120 /\ hexC d <> 88 /\ space (hexC d) = false /\ hexC d <> 45 /\ hexC d <> 43) (seqZ 0 16)) as Hf by (repeat constructor; done).
  intros d _ Hin. by apply (proj1 (Forall_forall _ _) Hf).
Qed.

Lemma scan_x2_upper d e r : 0 <= d < 16 -> 0 <= e < 16 -> scan_x2 (hexC d :: hexC e :: r) = Some (16 * d + e, r).
Proof.
  intros Hd He. destruct (hexC_spec d Hd) as (Ed & D1 & D2 & Ds & D3 & D4), (hexC_spec e He) as (Ee & E1 & E2 & _). unfold scan_x2. rewrite skip_space_id by done. rewrite (proj2 (Z.eqb_neq (hexC e) 120)), (proj2 (Z.eqb_neq (hexC e) 88)) by done. cbn [orb].
  assert (hex_digits 2 (hexC d :: hexC e :: r) false 0 = Some (16 * d + e, r)) as Eh by (cbn [hex_digits]; rewrite Ed, Ee; repeat f_equal; lia). rewrite (proj2 (Z.eqb_neq (hexC d) 45)), (proj2 (Z.eqb_neq (hexC d) 43)) by done. destruct (decide (hexC d = 48)) as [E48|N48].
  - rewrite E48 in *. exact Eh.
  - rewrite Eh. destruct (hexC d) as [|p|]; try done. do 6 (destruct p as [p|p|]; try done).
Qed.

Lemma ether_bytes m : mac_ok m -> scan_bytes 6 (ether_ntop m) = m /\ low_bytes m = m.
Proof.
  intros [El Hm]. assert (forall b r, 0 <= b < 256 -> scan_x2 (hexC (b / 16) :: hexC (b mod 16) :: r) = Some (b, r)) as Hx.
  { intros b r Hb. rewrite scan_x2_upper; [|split; [apply Z.div_pos; lia|apply Z.div_lt_upper_bound; lia]|apply Z.mod_pos_bound; lia]. repeat f_equal. pose proof (Z.div_mod b 16). lia. }
  destruct m as [|b1 [|b2 [|b3 [|b4 [|b5 [|b6 [|]]]]]]]; try done. rewrite !Forall_cons in Hm. destruct Hm as (H1 & H2 & H3 & H4 & H5 & H6 & _). split.
  - cbn [ether_ntop app scan_bytes]. by rewrite !Hx by done.
  - unfold low_bytes. cbn [fmap list_fmap]. assert (forall b, 0 <= b < 256 -> Z.land b 255 = b) as Hl by (intros b Hb; change 255 with (Z.ones 8); rewrite Z.land_ones by lia; by apply Z.mod_small). by rewrite !Hl.
Qed.

Section Scan.
Context {K : Type} {OS : Linux K}.

Definition node_ok (n : wireless_scan) : Prop := ws_has_ap_addr n = true /\ mac_ok (ws_ap_addr n).

(** The entry of a network, in a list that was cleared. *)
Definition entry_of (range : list Z) (n : wireless_scan) : AP_IF_S :=
  mkApIf (u8 (iw_freq_to_channel (ws_freq n) range)) (match ws_stats n with Some q => swrap 8 q | None => 0 end) (ws_ap_addr n)
    (take 32 (ws_essid n)) (Z.of_nat (Nat.min 32 (length (ws_essid n))))
    (if Z.testbit (ws_key_flags n) 11 && negb (Z.testbit (ws_key_flags n) 15) && negb (Z.testbit (ws_key_flags n) 13) then 4 else 0).

Lemma land_bit x n : 0 <= n -> (Z.land x (2 ^ n) =? 0) = negb (Z.testbit x n).
Proof.
  intros Hn. destruct (Z.testbit x n) eqn:E; cbn [negb].
  - apply Z.eqb_neq. intros E0. assert (Z.testbit (Z.land x (2 ^ n)) n = true) as Ht by (rewrite Z.land_spec, E, Z.pow2_bits_true by done; done). by rewrite E0, Z.bits_0 in Ht.
  - apply Z.eqb_eq. apply Z.bits_inj'. intros i Hi. rewrite Z.land_spec, Z.bits_0. destruct (decide (i = n)) as [->|Hne]; [by rewrite E|]. rewrite Z.pow2_bits_false by done. apply andb_false_r.
Qed.

Lemma ap_entry_spec range n (k : K) : node_ok n -> ap_entry range n zero_ap_if k = Ret (entry_of range n) k.
Proof.
  intros [_ Hm]. unfold ap_entry, entry_of. destruct (ether_bytes _ Hm) as [-> ->]. destruct Hm as [El _]. rewrite El. cbn [Nat.eqb ai_rssi ai_ssid ai_security zero_ap_if]. unfold ret. f_equal. unfold overwrite. rewrite drop_nil, app_nil_r.
  change 0x8000 with (2 ^ 15). change 0x2000 with (2 ^ 13). change 0x800 with (2 ^ 11). rewrite !land_bit by lia. rewrite !negb_involutive. f_equal. destruct (Z.testbit (ws_key_flags n) 15), (Z.testbit (ws_key_flags n) 13), (Z.testbit (ws_key_flags n) 11); done.
Qed.

(** The list after [done] entries of [max]. *)
Definition table (range : list Z) (max : nat) (done : list wireless_scan) : list AP_IF_S := (entry_of range <$> done) ++ replicate (max - length done) zero_ap_if.

Lemma table_next range max done_ : (length done_ < max)%nat -> table range max done_ !! length done_ = Some zero_ap_if.
Proof. intros H. unfold table. rewrite lookup_app_r by (by rewrite length_fmap). rewrite length_fmap, Nat.sub_diag. apply lookup_replicate_2. lia. Qed.
Lemma table_insert range max done_ n : (length done_ < max)%nat -> <[length done_ := entry_of range n]> (table range max done_) = table range max (done_ ++ [n]).
Proof.
  intros H. unfold table. rewrite insert_app_r_alt by (by rewrite length_fmap). rewrite length_fmap, Nat.sub_diag, fmap_app, length_app, <-app_assoc. f_equal. cbn [length fmap list_fmap app]. replace (max - length done_)%nat with (S (max - (length done_ + 1))) by lia. done.
Qed.

(** Networks with an address are entered one after the other. *)
Lemma scan_loop_enters range max pre : Forall node_ok pre -> forall fuel done_ nodes (k : K), (length done_ + length pre <= max)%nat ->
  scan_loop (length pre + fuel) range (pre ++ nodes) (table range max done_) max (length done_) k = scan_loop fuel range nodes (table range max (done_ ++ pre)) max (length (done_ ++ pre)) k.
Proof.
  induction 1 as [|n pre Hn Hpre IH]; intros fuel done_ nodes k Hl; [by rewrite app_nil_r|]. cbn [length Nat.add app scan_loop]. destruct Hn as [Ha Hm]. rewrite Ha. cbn [negb]. cbn [length] in Hl. rewrite (proj2 (Nat.leb_gt max (length done_))) by lia. rewrite table_next by lia.
  unfold bind. rewrite ap_entry_spec by done. rewrite table_insert by lia. replace (S (length done_)) with (length (done_ ++ [n])) by (rewrite length_app; cbn; lia). rewrite IH by (rewrite length_app; cbn; lia). by rewrite <-!app_assoc.
Qed.

Lemma scan_loop_stuck range n nodes aps max count fuel (k : K) : ws_has_ap_addr n = false -> scan_loop fuel range (n :: nodes) aps max count k = Diverge.
Proof. intros H. induction fuel as [|fuel IH]; [done|]. cbn [scan_loop]. rewrite H. exact IH. Qed.

(** When every network but those after the [max]-th has an address. *)
Lemma scan_loop_ends range max nodes fuel (k : K) : Forall node_ok (take (S max) nodes) -> (length nodes < fuel)%nat ->
  scan_loop fuel range nodes (replicate max zero_ap_if) max 0 k = Ret (Nat.min max (length nodes), table range max (take max nodes)) k.
Proof.
  intros Hn Hf. assert (Forall node_ok (take max nodes)) as Hpre. { replace (take max nodes) with (take max (take (S max) nodes)) by (rewrite take_take; f_equal; lia). by apply Forall_take. }
  pose proof (length_take nodes max) as El. pose proof (scan_loop_enters range max (take max nodes) Hpre (fuel - Nat.min max (length nodes)) [] (drop max nodes) k) as E. cbn [length Nat.add] in E. rewrite take_drop, app_nil_l in E. replace (table range max []) with (replicate max zero_ap_if) in E by (unfold table; cbn; by rewrite Nat.sub_0_r).
  replace (length (take max nodes) + (fuel - Nat.min max (length nodes)))%nat with fuel in E by lia. rewrite E by lia. rewrite El. destruct (fuel - Nat.min max (length nodes))%nat as [|f] eqn:Ef; [lia|]. cbn [scan_loop]. destruct (drop max nodes) as [|n rest] eqn:Ed; [done|].
  assert (max < length nodes)%nat as Hlt. { destruct (decide (max < length nodes)%nat); [done|]. rewrite drop_ge in Ed by lia. done. }
  assert (nodes !! max = Some n) as En by (rewrite <-(Nat.add_0_r max), <-lookup_drop, Ed; done). rewrite (take_S_r _ _ _ En), Forall_app in Hn. destruct Hn as [_ [[Ha _] _]%Forall_cons]. rewrite Ha. cbn [negb]. by rewrite (proj2 (Nat.leb_le max (Nat.min max (length nodes)))) by lia.
Qed.

(** The networks a scan of an interface finds. *)
Definition found (k : K) (n : list Z) : list wireless_scan := match range_of k n, k_found k n with Some _, Some nodes => nodes | _, _ => [] end.

Lemma table_nil range max : table range max [] = replicate max zero_ap_if.
Proof. unfold table. cbn. by rewrite Nat.sub_0_r. Qed.

(** A scan finds nothing, or comes to its loop. *)
Lemma scan_ap_cases fuel ifname aps max (k : K) :
  (found k ifname = [] /\ wp (wifi_scan_ap fuel ifname aps max) (fun r k' => r = (0%nat, aps) /\ asked k k') k) \/
  exists range fd k1, range_of k ifname = Some range /\ same k k1 /\ held k fd [] k1 /\
    wifi_scan_ap fuel ifname aps max k = (x <- scan_loop fuel range (found k ifname) aps max 0 ;; close fd ;;; ret x) k1.
Proof.
  pose proof (proj1 (wp_run _ _ _) (open_socket_ok k)) as (fd & k1 & E1 & Hq & Hfd). apply quiet_same in Hq as [Hs1 El1]. unfold found, range_of, wp. destruct (k_sockets k) eqn:Es.
  2: { left. split; [done|]. unfold wifi_scan_ap, bind. rewrite E1. destruct Hfd as [-> Eo]. split; [done|]. split; [done|]. split; [by rewrite app_nil_r|done]. }
  destruct Hfd as (Hfd & Hnew & Eo1). assert (held k fd [] k1) as Hh1 by (split; [by rewrite app_nil_r|done]). pose proof (proj1 (wp_run _ _ _) (dev_question fd (IwRange ifname) k1 eq_refl ltac:(rewrite Eo1; set_solver))) as (a & k2 & E2 & Ea & Hq2 & Eo2). apply quiet_same in Hq2 as [Hs2 El2].
  replace (k_answer k1 (IwRange ifname)) with (k_answer k (IwRange ifname)) in Ea by (by destruct Hs1 as [-> _]). subst a. pose proof (os_same_trans _ _ _ Hs1 Hs2) as Hs02. assert (held k fd [] k2) as Hh2 by (destruct Hh1 as (? & ? & ?); split; [congruence|]; split; [done|congruence]).
  assert (wifi_scan_ap fuel ifname aps max k = match ranges (k_answer k (IwRange ifname)) with None => close fd ;;; ret (0%nat, aps) | Some range =>
    r <- iw_scan fd ifname ;; match r with None => close fd ;;; ret (0%nat, aps) | Some nodes => x <- scan_loop fuel range nodes aps max 0 ;; close fd ;;; ret x end end k2) as ->.
  { unfold wifi_scan_ap. unfold bind at 1. rewrite E1, (proj2 (Z.ltb_ge fd 0)) by done. unfold bind at 1. by rewrite E2. }
  destruct (ranges (k_answer k (IwRange ifname))) as [range|]; [|left; split; [done|]; by apply (answering k fd)].
  pose proof (proj1 (wp_run _ _ _) (iw_scan_ok fd ifname k2 ltac:(rewrite Eo2, Eo1; set_solver))) as (r & k3 & E3 & -> & Hq3 & Eo3). apply quiet_same in Hq3 as [Hs3 El3]. pose proof (os_same_trans _ _ _ Hs02 Hs3) as Hs03.
  assert (held k fd [] k3) as Hh3 by (destruct Hh2 as (? & ? & ?); split; [congruence|]; split; [done|congruence]). replace (k_found k2 ifname) with (k_found k ifname) in E3 by (by destruct Hs02 as (_ & _ & ->)).
  destruct (k_found k ifname) as [l|] eqn:El.
  - right. exists range, fd, k3. split; [done|]. split; [done|]. split; [done|]. unfold bind at 1. by rewrite E3.
  - left. split; [done|]. unfold bind at 1. rewrite E3. by apply (answering k fd).
Qed.

(** C37: a scan into a cleared list of [max] entries enters the first [max] networks that the
    card has found, with their channel, strength, address, name and protection, and counts
    them, provided that these networks and the next one have an address; the socket is
    closed again.  When the first network without an address is among them, the scan never
    ends, however long it runs. *)
Theorem wifi_scan_ap_correct ifname max fuel (k : K) : (length (found k ifname) < fuel)%nat ->
  (Forall node_ok (take (S max) (found k ifname)) -> wp (wifi_scan_ap fuel ifname (replicate max zero_ap_if) max) (fun r k' => fst r = Nat.min max (length (found k ifname)) /\
     snd r = table (default [] (range_of k ifname)) max (take max (found k ifname)) /\ asked k k') k) /\
  (forall pre n post, found k ifname = pre ++ n :: post -> Forall node_ok pre -> (length pre <= max)%nat -> ws_has_ap_addr n = false -> wifi_scan_ap fuel ifname (replicate max zero_ap_if) max k = Diverge).
Proof.
  intros Hfuel. destruct (scan_ap_cases fuel ifname (replicate max zero_ap_if) max k) as [[E Hw]|(range & fd & k1 & Er & Hs & Hh & E)].
  - rewrite E. split; [|by intros [] ??]. intros _. eapply wp_mono; [exact Hw|]. cbv beta. intros r k' [-> Ha]. split; [cbn; lia|]. split; [|done]. rewrite take_nil. by rewrite table_nil.
  - rewrite Er. split.
    + intros Hn. unfold wp. rewrite E. unfold bind at 1. rewrite scan_loop_ends by done. by apply (answering k fd).
    + intros pre n post Ef Hpre Hl Hno. rewrite E, Ef. unfold bind at 1. pose proof (scan_loop_enters range max pre Hpre (fuel - length pre) [] (n :: post) k1) as Ee. rewrite Ef, length_app in Hfuel. rewrite table_nil in Ee. cbn [length Nat.add] in Ee.
      replace (length pre + (fuel - length pre))%nat with fuel in Ee by lia. rewrite Ee by done. by rewrite scan_loop_stuck.
Qed.
End Scan.

(** ** On a system *)

Definition demo_node (n : Z) : wireless_scan := mkScan true [2; 0; 0; 0; 0; n] (lit "home") [n] (Some 60) 0x800.
Definition hidden_node : wireless_scan := mkScan false [] (lit "home") [6] None 0.
Definition air (l : list wireless_scan) : demo_os := mkOs demo_says (Some l) [] [] [].

Lemma wifi_scan_ap_correct_witness :
  wp (wifi_scan_ap 9 (lit "wlan0") (replicate 2 zero_ap_if) 2) (fun r k' => fst r = 2%nat /\ snd r = table [] 2 [demo_node 1; demo_node 6] /\ asked (air [demo_node 1; demo_node 6; demo_node 11]) k') (air [demo_node 1; demo_node 6; demo_node 11]) /\
  wifi_scan_ap 9 (lit "wlan0") (replicate 2 zero_ap_if) 2 (air [demo_node 1; hidden_node]) = Diverge.
Proof.
  split.
  - refine (proj1 (wifi_scan_ap_correct (lit "wlan0") 2 9 (air [demo_node 1; demo_node 6; demo_node 11]) _) _); [cbn; lia|]. repeat constructor; cbn; lia.
  - refine (proj2 (wifi_scan_ap_correct (lit "wlan0") 2 9 (air [demo_node 1; hidden_node]) _) [demo_node 1] hidden_node [] _ _ _ _); [cbn; lia|done|repeat constructor; cbn; lia|cbn; lia|done].
Defined.
