(* ===== verification/TklWifi.v ===== *)
(** * The Wi-Fi adapter: [src/tkl_wifi/tkl_wifi.c]

    The functions of the TKL layer on top of [LinuxWifi] and [WpaCommand], the state
    [s_tkl_wifi], and three threads: one asks for the status of the station and reports it,
    one hands over the packets a sniffer receives, one the management frames.  A turn of the
    loop of a thread is an operation; what a callback is called with is recorded. *)

From Stdlib Require Import String.
From S2P Require Import Prelude CMem MemHeap MemHeapInv MemHeapFacts MemHeapProps MemHeapStore Alloc WpaParse WpaScan WpaCommand LinuxWifi.

Inductive WF_STATION_STAT_E := WSS_IDLE | WSS_CONNECTING | WSS_PASSWD_WRONG | WSS_NO_AP_FOUND | WSS_CONN_FAIL | WSS_CONN_SUCCESS | WSS_GOT_IP | WSS_DHCP_FAIL.
#[export] Instance station_stat_eq : EqDecision WF_STATION_STAT_E.
Proof. solve_decision. Defined.
Inductive WF_EVENT_E := WFE_CONNECTED | WFE_CONNECT_FAILED | WFE_DISCONNECTED.
#[export] Instance wf_event_eq : EqDecision WF_EVENT_E.
Proof. solve_decision. Defined.
Inductive WF_WK_MD_E := WWM_POWERDOWN | WWM_SNIFFER | WWM_STATION | WWM_SOFTAP | WWM_STATIONAP | WWM_UNKNOWN.
Inductive WF_IF_E := WF_STATION | WF_AP.
Inductive COUNTRY_CODE_E := COUNTRY_CODE_CN | COUNTRY_CODE_US | COUNTRY_CODE_JP | COUNTRY_CODE_EU | COUNTRY_CODE_OTHER.

Definition MAX_REV_BUFFER : nat := 512.
Definition SIZEOF_AP_IF_S : Z := 45.
Definition SIZEOF_FAST_INFO : Z := 114.
Definition WIFI_AP_DEFAULT_IP : list Z := lit "192.168.31.1".

Definition zero_ip : NW_IP_S := mkIp [] [] [].
Definition zero_cfg : WF_AP_CFG_IF_S := mkCfg [] [] 0 WAAM_OPEN 0 0 0 zero_ip.

(** [s_tkl_wifi] without the identifiers of the threads; a callback is an address, a name of
    an interface may be missing. *)
Record tkl_wifi_t := mkWifi {
  tw_event_cb : Z; tw_event_flag : bool; tw_sta_conn_flag : bool;
  tw_sniffer_cb : Z; tw_sniffer_flag : bool; tw_mgnt_cb : Z; tw_mgnt_flag : bool;
  tw_sta : option (list Z); tw_ap : option (list Z); tw_apcfg : WF_AP_CFG_IF_S }.
Definition zero_wifi : tkl_wifi_t := mkWifi 0 false false 0 false 0 false None None zero_cfg.
Definition with_event cb w := mkWifi cb (tw_event_flag w) (tw_sta_conn_flag w) (tw_sniffer_cb w) (tw_sniffer_flag w) (tw_mgnt_cb w) (tw_mgnt_flag w) (tw_sta w) (tw_ap w) (tw_apcfg w).
Definition with_event_flag b w := mkWifi (tw_event_cb w) b (tw_sta_conn_flag w) (tw_sniffer_cb w) (tw_sniffer_flag w) (tw_mgnt_cb w) (tw_mgnt_flag w) (tw_sta w) (tw_ap w) (tw_apcfg w).
Definition with_conn b w := mkWifi (tw_event_cb w) (tw_event_flag w) b (tw_sniffer_cb w) (tw_sniffer_flag w) (tw_mgnt_cb w) (tw_mgnt_flag w) (tw_sta w) (tw_ap w) (tw_apcfg w).
Definition with_sniffer cb b w := mkWifi (tw_event_cb w) (tw_event_flag w) (tw_sta_conn_flag w) cb b (tw_mgnt_cb w) (tw_mgnt_flag w) (tw_sta w) (tw_ap w) (tw_apcfg w).
Definition with_mgnt cb b w := mkWifi (tw_event_cb w) (tw_event_flag w) (tw_sta_conn_flag w) (tw_sniffer_cb w) (tw_sniffer_flag w) cb b (tw_sta w) (tw_ap w) (tw_apcfg w).
Definition with_names sta ap w := mkWifi (tw_event_cb w) (tw_event_flag w) (tw_sta_conn_flag w) (tw_sniffer_cb w) (tw_sniffer_flag w) (tw_mgnt_cb w) (tw_mgnt_flag w) sta ap (tw_apcfg w).
Definition with_apcfg c w := mkWifi (tw_event_cb w) (tw_event_flag w) (tw_sta_conn_flag w) (tw_sniffer_cb w) (tw_sniffer_flag w) (tw_mgnt_cb w) (tw_mgnt_flag w) (tw_sta w) (tw_ap w) c.

(** The variables of the thread that watches the status. *)
Record watch := mkWatch { wt_stat : WF_STATION_STAT_E; wt_last_stat : WF_STATION_STAT_E; wt_last_state : option WF_EVENT_E }.
Definition watch0 : watch := mkWatch WSS_IDLE WSS_IDLE None.

(** What a callback for packets gets: a pointer, as the bytes from there to the end of the
    buffer, and a length. *)
Record frame := mkFrame { fr_cb : Z; fr_data : list Z; fr_len : Z }.

(** The blocks of memory: lists of access points, and the data for a fast connection. *)
Inductive wblock := BAps (l : list AP_IF_S) | BInfo.
Definition wblock_size (b : wblock) : Z := match b with BAps l => SIZEOF_AP_IF_S * Z.of_nat (length l) | BInfo => SIZEOF_FAST_INFO end.

Record ysys (K C A : Type) := YSys {
  y_net : K * C; y_mem : owned A wblock; y_wifi : tkl_wifi_t; y_watch : watch;
  y_events : list (Z * WF_EVENT_E); y_frames : list frame }.
Arguments YSys {K C A}. Arguments y_net {K C A}. Arguments y_mem {K C A}. Arguments y_wifi {K C A}. Arguments y_watch {K C A}. Arguments y_events {K C A}. Arguments y_frames {K C A}.

Definition is_valid_mac (mac : list Z) : bool :=
  if negb (Z.land (hd 0 mac) 1 =? 0) then false
  else if bool_decide (take 6 mac = replicate 6 0) then false
  else (* [memcpy] returns its first argument, which is not null *) true.

(** A result that is one of the codes, or a number that the code returns as it is. *)
Definition tret : Type := Z + OPERATE_RET.
Definition ok : tret := inr OPRT_OK.
Definition com_error : tret := inr OPRT_COM_ERROR.

Section Tkl.
Context {K C A : Type} {OS : Linux K} {B : WifiBuild} {WC : WpaCtrl C} {AL : Allocator A}.
Local Abbreviation W := (M (ysys K C A)).

Definition on_net {R} (c : M (K * C) R) : W R := fun s =>
  match c (y_net s) with Ret r n => Ret r (YSys n (y_mem s) (y_wifi s) (y_watch s) (y_events s) (y_frames s)) | Fault => Fault | Diverge => Diverge end.
Definition on_linux {R} (c : M K R) : W R := on_net (on_os c).
Definition on_mem {R} (c : M (owned A wblock) R) : W R := fun s =>
  match c (y_mem s) with Ret r m => Ret r (YSys (y_net s) m (y_wifi s) (y_watch s) (y_events s) (y_frames s)) | Fault => Fault | Diverge => Diverge end.
Definition upd_wifi (f : tkl_wifi_t -> tkl_wifi_t) : W unit := modify (fun s => YSys (y_net s) (y_mem s) (f (y_wifi s)) (y_watch s) (y_events s) (y_frames s)).
Definition set_watch (w : watch) : W unit := modify (fun s => YSys (y_net s) (y_mem s) (y_wifi s) w (y_events s) (y_frames s)).
(** A call of the callback: a null pointer is a fault. *)
Definition report (e : WF_EVENT_E) : W unit := fun s =>
  if tw_event_cb (y_wifi s) =? 0 then Fault else Ret tt (YSys (y_net s) (y_mem s) (y_wifi s) (y_watch s) (y_events s ++ [(tw_event_cb (y_wifi s), e)]) (y_frames s)).
Definition hand_over (f : frame) : W unit := fun s =>
  if fr_cb f =? 0 then Fault else Ret tt (YSys (y_net s) (y_mem s) (y_wifi s) (y_watch s) (y_events s) (y_frames s ++ [f])).
(** The names of the interfaces, which [tkl_wifi_init] sets. *)
Definition sta : W (list Z) := w <- gets y_wifi ;; match tw_sta w with Some n => ret n | None => fault end.
Definition ap : W (list Z) := w <- gets y_wifi ;; match tw_ap w with Some n => ret n | None => fault end.

(** ** The status of the station *)

Definition WIFI_WPA_CTRL_PATH : list Z := lit "/var/run/wpa_supplicant/" ++ WLAN_DEV.

(** [stat]: the value at the pointer before; [junk]: that of the variable [mode]. *)
Definition tkl_wifi_station_get_status (junk : Z) (stat : WF_STATION_STAT_E) : W WF_STATION_STAT_E :=
  m <- on_linux (wifi_get_mode WLAN_DEV) ;;
  let mode := default junk (snd m) in
  if negb (mode =? WIFI_MODE_MANAGED) then ret WSS_IDLE
  else
    a <- on_linux (sys (Access WIFI_WPA_CTRL_PATH)) ;;
    if failed a then ret WSS_IDLE
    else
      b <- on_net (wifi_get_bssid (replicate 6 0)) ;;
      let f_get_ap_mac := (fst b =? 0) && is_valid_mac (snd b) in
      i <- on_linux (wifi_get_ip WLAN_DEV) ;;
      let f_get_ip := (fst i =? 0) && negb (length (snd i) =? 0)%nat in
      f_essid_on <- on_linux (wifi_check_essid_on WLAN_DEV) ;;
      let stat := if negb f_get_ap_mac || (f_essid_on =? 0) then WSS_CONN_FAIL else stat in
      let stat := if f_get_ap_mac && (f_essid_on =? 1) && negb f_get_ip then WSS_CONN_SUCCESS else stat in
      ret (if f_get_ap_mac && (f_essid_on =? 1) && f_get_ip then WSS_GOT_IP else stat).

(** One turn of the loop of [wifi_status_event_cb]; the result is the status it read. *)
Definition wifi_status_turn (junk : Z) : W (option WF_STATION_STAT_E) :=
  w <- gets y_wifi ;;
  if negb (tw_sta_conn_flag w) then ret None
  else
    t <- gets y_watch ;;
    stat <- tkl_wifi_station_get_status junk (wt_stat t) ;;
    set_watch (mkWatch stat (wt_last_stat t) (wt_last_state t)) ;;;
    if bool_decide (stat = WSS_IDLE) then ret (Some stat)
    else
      let connected := bool_decide (stat = WSS_GOT_IP) || bool_decide (stat = WSS_CONN_SUCCESS) in
      let wf_event := if bool_decide (stat = WSS_CONN_FAIL) then WFE_CONNECT_FAILED else if connected then WFE_CONNECTED else WFE_DISCONNECTED in
      if connected && negb (bool_decide (wt_last_stat t = stat)) then
        set_watch (mkWatch stat stat (Some wf_event)) ;;; report wf_event ;;; ret (Some stat)
      else if bool_decide (wt_last_state t = Some wf_event) then ret (Some stat)
      else set_watch (mkWatch stat (wt_last_stat t) (Some wf_event)) ;;; report wf_event ;;; ret (Some stat).

(** [thread]: the error number of [pthread_create], or zero. *)
Definition tkl_wifi_init (cb thread : Z) : W tret :=
  if cb =? 0 then ret (inr OPRT_INVALID_PARM)
  else
    upd_wifi (with_event cb) ;;;
    upd_wifi (with_names (Some WLAN_DEV) (Some WLAN_AP)) ;;;
    if negb (thread =? 0) then ret (inl thread)
    else
      upd_wifi (with_event_flag true) ;;; set_watch watch0 ;;;
      ret ok.

(** ** The interface *)

Definition tkl_wifi_set_cur_channel (chan : Z) : W tret :=
  ifname <- sta ;;
  r <- on_linux (wifi_set_channel ifname (swrap 8 chan)) ;;
  ret (if negb (r =? 0) then com_error else ok).

Definition tkl_wifi_get_cur_channel (chan_null : bool) : W (tret * option Z) :=
  if chan_null then ret (inr OPRT_INVALID_PARM, None)
  else
    ifname <- sta ;;
    x <- on_linux (wifi_get_channel ifname) ;;
    ret (if negb (fst x =? 0) then (com_error, None) else (ok, snd x)).

Definition tkl_wifi_set_ip (wf : WF_IF_E) (ip : NW_IP_S) : W tret := ret ok.

(** The result, and what is at the pointer afterwards. *)
Definition tkl_wifi_get_ip (wf : WF_IF_E) (ip_null : bool) : W (tret * NW_IP_S) :=
  if ip_null then ret (com_error, zero_ip)
  else
    match wf with
    | WF_AP => w <- gets y_wifi ;; ret (ok, cf_ip (tw_apcfg w))
    | WF_STATION =>
      ifname <- sta ;;
      x <- on_linux (wifi_get_ip ifname) ;;
      if fst x =? 1 then ret (ok, zero_ip)
      else if negb (fst x =? 0) then ret (com_error, zero_ip)
      else
        m <- on_linux (wifi_get_ip_mask ifname) ;;
        if negb (fst m =? 0) then ret (com_error, mkIp (snd x) [] [])
        else
          match before_last 46 (snd x) with
          | Some net => fits MAX_IP_LEN (net ++ lit ".1") (ret (ok, mkIp (snd x) (cstr (snd m)) (net ++ lit ".1")))
          | None => ret (com_error, mkIp (snd x) (cstr (snd m)) (snd x))
          end
    end.

Definition tkl_wifi_set_mac (wf : WF_IF_E) (mac : list Z) : W tret :=
  ifname <- sta ;;
  r <- on_linux (wifi_set_mac ifname mac) ;;
  ret (if r <? 0 then com_error else ok).
Definition tkl_wifi_get_mac (wf : WF_IF_E) : W (tret * option (list Z)) :=
  ifname <- sta ;;
  x <- on_linux (wifi_get_mac ifname) ;;
  ret (if fst x <? 0 then (com_error, None) else (ok, snd x)).

Definition tkl_wifi_set_work_mode (mode : WF_WK_MD_E) : W tret :=
  match mode with
  | WWM_POWERDOWN => n <- sta ;; _ <- on_linux (wifi_enable n false) ;; ret ok
  | WWM_SNIFFER => n <- sta ;; _ <- on_linux (wifi_set_mode n (lit "Monitor")) ;; ret ok
  | WWM_STATION => n <- sta ;; _ <- on_linux (wifi_set_mode n (lit "Managed")) ;; ret ok
  | WWM_SOFTAP =>
    n <- ap ;;
    _ <- on_linux (wifi_enable n false) ;; _ <- on_linux (wifi_set_mode n (lit "Master")) ;; _ <- on_linux (wifi_enable n true) ;; ret ok
  | WWM_STATIONAP =>
    n <- sta ;; _ <- on_linux (wifi_set_mode n (lit "Managed")) ;;
    m <- ap ;; _ <- on_linux (wifi_set_mode m (lit "Master")) ;; ret ok
  | WWM_UNKNOWN => ret ok
  end.

(** [junk]: the value of the variable for the second mode; the result of the second question
    is not looked at. *)
Definition tkl_wifi_get_work_mode (junk : Z) : W (tret * option WF_WK_MD_E) :=
  n <- sta ;;
  x <- on_linux (wifi_get_mode n) ;;
  match snd x with
  | None => ret (com_error, None)
  | Some m =>
    if m =? WIFI_MODE_MANAGED then
      n2 <- ap ;;
      y <- on_linux (wifi_get_mode n2) ;;
      ret (ok, Some (if default junk (snd y) =? WIFI_MODE_MASTER then WWM_STATIONAP else WWM_STATION))
    else if m =? WIFI_MODE_MASTER then ret (ok, Some WWM_SOFTAP)
    else if m =? WIFI_MODE_MONITOR then ret (ok, Some WWM_SNIFFER)
    else ret (inl (-1), None)
  end.

(** ** Access point *)

Definition with_ip ip cfg := mkCfg (cf_ssid cfg) (cf_passwd cfg) (cf_chan cfg) (cf_md cfg) (cf_ssid_hidden cfg) (cf_max_conn cfg) (cf_ms_interval cfg) (mkIp ip (nw_mask (cf_ip cfg)) (nw_gw (cf_ip cfg))).

Definition tkl_wifi_start_ap (cfg : option WF_AP_CFG_IF_S) : W tret :=
  match cfg with
  | None => ret (inr OPRT_INVALID_PARM)
  | Some cfg =>
    n <- ap ;;
    _ <- on_linux (wifi_enable n true) ;;
    if (cf_chan cfg <=? 0) || (14 <? cf_chan cfg) then ret (inl (-1))
    else
      let tmp_cfg := match nw_ip (cf_ip cfg) with [] => with_ip WIFI_AP_DEFAULT_IP cfg | _ => cfg end in
      r <- on_linux (wifi_ap_start n cfg) ;;
      if r <? 0 then ret com_error
      else upd_wifi (with_apcfg tmp_cfg) ;;; ret ok
  end.

Definition tkl_wifi_stop_ap : W tret :=
  r <- on_linux wifi_ap_stop ;;
  n <- ap ;;
  _ <- on_linux (wifi_enable n false) ;;
  ret (if r =? 0 then ok else com_error).

(** ** Station *)

Definition tkl_wifi_station_connect (ssid : list Z) (passwd : option (list Z)) : W tret :=
  upd_wifi (with_conn true) ;;;
  r <- on_net (wifi_station_connect ssid passwd) ;;
  ret (if r <? 0 then com_error else ok).

(** The name and the key from the data for a fast connection. *)
Definition tkl_wifi_station_fast_connect (ssid passwd : list Z) : W tret :=
  r <- on_net (wifi_station_connect ssid (Some passwd)) ;;
  ret (if r <? 0 then com_error else ok).

Definition tkl_wifi_station_disconnect : W tret :=
  upd_wifi (with_conn false) ;;;
  n <- sta ;;
  r <- on_net (wifi_disconnect n) ;;
  if r <? 0 then ret com_error
  else
    _ <- on_linux (wifi_enable n false) ;;
    _ <- on_linux (sys (Usleep 100)) ;;
    _ <- on_linux (wifi_enable n true) ;;
    ret ok.

Definition tkl_wifi_station_get_conn_ap_rssi (junk : Z) (rssi_null : bool) : W (tret * option Z) :=
  n <- sta ;;
  x <- on_net (wifi_get_curr_rssi junk rssi_null) ;;
  ret (if fst x <? 0 then (inl (-1), None) else (ok, snd x)).

Definition tkl_wifi_get_bssid (mac : list Z) : W (tret * list Z) :=
  x <- on_net (wifi_get_bssid mac) ;;
  ret (if fst x <? 0 then inl (-1) else ok, snd x).

Definition country_code (ccode : COUNTRY_CODE_E) : option (list Z) :=
  match ccode with
  | COUNTRY_CODE_CN => Some (lit "CN") | COUNTRY_CODE_US => Some (lit "US") | COUNTRY_CODE_JP => Some (lit "JP") | COUNTRY_CODE_EU => Some (lit "EU")
  | COUNTRY_CODE_OTHER => None
  end.
Definition tkl_wifi_set_country_code (ccode : COUNTRY_CODE_E) : W tret :=
  match country_code ccode with
  | None => ret (inl (-1))
  | Some country =>
    n <- sta ;;
    _ <- on_linux (wifi_enable n false) ;;
    _ <- on_net (on_wpa (wifi_set_country country)) ;;
    _ <- on_linux (wifi_enable n true) ;;
    ret ok
  end.

(** ** Memory: scanning and the data for a fast connection *)

(** [malloc] and [memset] without a look at the result. *)
Definition new_block (n : Z) (b : wblock) : W Z :=
  p <- on_mem (lift_alloc (al_malloc n)) ;;
  if p =? 0 then fault else on_mem (init_obj p b) ;;; ret p.

Definition aps_at (p : Z) : W (list AP_IF_S) := b <- on_mem (get_obj p) ;; match b with BAps l => ret l | BInfo => fault end.

(** The list and its length, through the pointers. *)
Definition tkl_wifi_scan_ap (fuel : nat) (ssid : option (list Z)) : W (tret * option (Z * Z)) :=
  ifname <- sta ;;
  s_aps <- new_block (Z.of_nat MAX_AP_SEARCH * SIZEOF_AP_IF_S) (BAps (replicate MAX_AP_SEARCH zero_ap_if)) ;;
  _ <- on_linux (wifi_enable ifname true) ;;
  aps <- aps_at s_aps ;;
  x <- on_linux (wifi_scan_ap fuel ifname aps MAX_AP_SEARCH) ;;
  on_mem (set_obj s_aps (BAps (snd x))) ;;;
  if (fst x =? 0)%nat then ret (com_error, None)
  else
    match ssid with
    | None => ret (ok, Some (s_aps, Z.of_nat (fst x)))
    | Some ssid =>
      ap_s <- new_block SIZEOF_AP_IF_S (BAps [zero_ap_if]) ;;
      aps <- aps_at s_aps ;;
      (match list_find (fun a => ai_ssid a = ssid) (take (fst x) aps) with
       | Some (_, a) => on_mem (set_obj ap_s (BAps [a]))
       | None => ret tt
       end) ;;;
      on_mem (bind (lift_alloc (al_free s_aps)) (fun _ => drop_obj s_aps)) ;;;
      ret (ok, Some (ap_s, 1))
    end.

Definition tkl_wifi_release_ap (p : Z) : W tret :=
  if p =? 0 then ret (inr OPRT_INVALID_PARM)
  else on_mem (bind (lift_alloc (al_free p)) (fun _ => drop_obj p)) ;;; ret ok.

(** Nothing is stored through the argument. *)
Definition tkl_wifi_get_connected_ap_info (fast_ap_info_null : bool) : W tret :=
  if fast_ap_info_null then ret (inr OPRT_INVALID_PARM)
  else
    p <- on_mem (lift_alloc (al_malloc SIZEOF_FAST_INFO)) ;;
    if p =? 0 then ret (inl (-1))
    else
      on_mem (init_obj p BInfo) ;;;
      n <- sta ;;
      x <- on_linux (wifi_get_channel n) ;;
      if fst x <? 0 then ret (inl (-1))
      else
        b <- on_net (wifi_get_bssid (replicate 6 0)) ;;
        if fst b <? 0 then ret (inl (-1))
        else
          y <- on_net wifi_get_connected_ap_info ;;
          ret (if fst y <? 0 then com_error else ok).

(** ** Packets *)

(** The header of a packet: [it_len] is little-endian at offset 2. *)
Definition it_len (buf : list Z) : Z := (buf !!! 2%nat) + 256 * (buf !!! 3%nat).

(** The threads begin with a socket on the interface; [None] when they end at once. *)
Definition open_raw (ifname : list Z) : W (option Z) :=
  sock <- on_linux wifi_create_rawsocket ;;
  if sock =? -1 then ret None
  else
    r <- on_linux (wifi_bind_rawsocket ifname sock) ;;
    ret (if r =? -1 then None else Some sock).

(** One turn of the loop of [sniffer_process] with its buffer; [None] when it ends. *)
Definition sniffer_process (sock : Z) (rev_buffer : list Z) : W (option (list Z)) :=
  w <- gets y_wifi ;;
  if negb (tw_sniffer_cb w =? 0) && tw_sniffer_flag w then
    x <- on_linux (wifi_recv_rawpacket sock rev_buffer) ;;
    let rev_num := fst x in
    let skipLen := it_len (snd x) in
    (if skipLen <? rev_num then hand_over (mkFrame (tw_sniffer_cb w) (drop (Z.to_nat skipLen) (snd x)) (u16 (rev_num - skipLen))) else ret tt) ;;;
    ret (Some (snd x))
  else
    upd_wifi (with_sniffer 0 (tw_sniffer_flag w)) ;;;
    on_linux (close sock) ;;; ret None.

(** The disabling call returns when the thread has ended. *)
Definition tkl_wifi_set_sniffer (en : bool) (cb : Z) : W tret :=
  if en then
    _ <- tkl_wifi_set_work_mode WWM_SNIFFER ;;
    upd_wifi (with_sniffer cb true) ;;; ret ok
  else
    w <- gets y_wifi ;;
    upd_wifi (with_sniffer (tw_sniffer_cb w) false) ;;;
    _ <- tkl_wifi_set_work_mode WWM_STATION ;;
    ret ok.

Definition tkl_wifi_send_mgnt (got : bool) (buf : list Z) : W tret :=
  sock <- on_linux open_socket ;;
  if sock <? 0 then ret (inl (-1))
  else
    a <- on_linux (dev sock (SIOCGIFINDEX (take 15 WLAN_AP))) ;;
    match a with
    | inl _ => on_linux (close sock) ;;; ret (inl (-1))
    | inr index =>
      a <- on_linux (dev sock (Bind (hd 0 index))) ;;
      if failed a then on_linux (close sock) ;;; ret (inl (-1))
      else
        a <- on_linux (dev sock (Promisc (hd 0 index))) ;;
        if failed a then on_linux (close sock) ;;; ret (inl (-1))
        else
          t_size <- on_linux (wifi_send_rawpacket got sock buf) ;;
          if t_size <? 0 then on_linux (close sock) ;;; ret (inl (-1))
          else on_linux (close sock) ;;; ret ok
    end.

(** One turn of the loop of [mgnt_process]: the length handed over is that of the whole
    packet. *)
Definition mgnt_process (sock : Z) (pkt : list Z) : W (option (list Z)) :=
  w <- gets y_wifi ;;
  if tw_mgnt_flag w then
    x <- on_linux (wifi_recv_rawpacket sock pkt) ;;
    let skipLen := it_len (snd x) in
    (if (-1 <? fst x) && (skipLen <? fst x) then hand_over (mkFrame (tw_mgnt_cb w) (drop (Z.to_nat skipLen) (snd x)) (fst x)) else ret tt) ;;;
    ret (Some (snd x))
  else ret None.

Definition tkl_wifi_register_recv_mgnt_callback (enable : bool) (recv_cb : Z) : W tret :=
  if enable then
    n <- sta ;;
    m <- ap ;;
    x <- on_linux (wifi_get_channel n) ;;
    (match snd x with
     | Some channel => _ <- on_linux (wifi_enable m true) ;; _ <- on_linux (wifi_set_channel m (swrap 8 channel)) ;; ret tt
     | None => ret tt
     end) ;;;
    _ <- on_linux (wifi_set_mode m (lit "Monitor")) ;;
    upd_wifi (with_mgnt recv_cb true) ;;; ret ok
  else upd_wifi (with_mgnt 0 false) ;;; ret ok.

Definition tkl_wifi_set_rf_calibrated : W tret := ret com_error.
Definition tkl_wifi_set_lp_mode (enable : bool) (dtim : Z) : W tret := ret com_error.
Definition tkl_wifi_ioctl (cmd : Z) : W tret := ret (inr OPRT_NOT_FOUND).
End Tkl.
