(* ===== verification/TklWifiProps.v ===== *)
(** * Properties of the Wi-Fi adapter

    The status of the station and the events that are reported, work modes, the access point,
    addresses, and packets. *)

From Stdlib Require Import String.
From S2P Require Import Prelude CMem MemHeap MemHeapInv MemHeapFacts MemHeapProps MemHeapStore Alloc WpaParse WpaScan WpaCommand WpaCommandProps LinuxWifi LinuxWifiProps TklWifi.

(** ** The address of the access point *)

(** The address in the first line that names one; zeroes when none does. *)
Fixpoint bssid_of (ls : list (list Z)) : list Z :=
  match ls with
  | [] => replicate 6 0
  | l :: ls => if starts (lit "bssid=") l then low_bytes (scan_bytes 6 (drop 6 l)) else bssid_of ls
  end.
(** An answer that fits its buffer, with whole addresses. *)
Definition status_ok (a : list Z) : Prop := answer_ok a /\ Forall (fun l => starts (lit "bssid=") l = true -> length (scan_bytes 6 (drop 6 l)) = 6%nat) (lines a).

Section Bssid.
Context {C : Type} {WC : WpaCtrl C}.
Variable answers_ok : forall c (k : C), wpa_conn k = true -> wp (wpa_ctrl_request c) (fun r _ => status_ok (snd r)) k.

Lemma bssid_analyse a n (k : C) : status_ok a -> wifi_reply_analyse WIFI_COMMAND_GET_BSSID (reply_buffer a) (RBuf (replicate 6 0)) n k = Ret (0, RBuf (bssid_of (lines a))) k.
Proof.
  intros [Ha Hb]. unfold wifi_reply_analyse. cbn [wifi_command_pack_sum]. unfold bind. rewrite analyse_lines by done.
  assert (exists b, run_lines bssid_line (lines a) (RBuf (replicate 6 0)) k = Ret (b, RBuf (bssid_of (lines a))) k) as [b ->]; [|done].
  clear Ha. induction Hb as [|l ls Hl Hls IH]; cbn [run_lines bssid_of]; [by exists false|]. unfold bssid_line at 1, bind. destruct (starts (lit "bssid=") l); [|exact IH]. rewrite Hl by done. exists true. cbn [Nat.eqb]. unfold put_bytes.
  unfold low_bytes. rewrite length_fmap, Hl by done. cbn. by rewrite app_nil_r.
Qed.

(** What the supplicant told: the address in its answer, if there was one. *)
Definition told (l : list wpa_ev) : option (list Z) := match l with [Asked _ (Some a)] => Some (bssid_of (lines a)) | _ => None end.
Definition seen (m : option (list Z)) : bool := match m with Some m => is_valid_mac m | None => false end.
(** It was asked for the status, once, unless there was no connection. *)
Definition status_asked (l : list wpa_ev) : Prop := l = [NoConnection] \/ exists a, l = [Asked (lit "STATUS") a].

Lemma bssid_spec (k : C) (Q : Z * list Z -> C -> Prop) : (forall l r mac k', grew k k' l -> status_asked l -> ((if r <? 0 then -1 else 0) =? 0) && is_valid_mac mac = seen (told l) -> Q (r, mac) k') ->
  wp (wifi_get_current_connect_ap_bssid (replicate 6 0)) Q k.
Proof.
  intros HQ. unfold wifi_get_current_connect_ap_bssid. cbn [length replicate Nat.ltb Nat.leb app drop]. apply wp_bind. eapply (send_command_spec status_ok); [done|done|..].
  - intros k' Hg. cbn [fst snd]. apply wp_ret. by apply (HQ [NoConnection]); [|left|].
  - intros k' Hg. cbn [fst snd]. apply wp_ret. apply (HQ [Asked (lit "STATUS") None]); [done|right; by exists None|done].
  - intros a k1 Hg Ha. unfold wp at 1. pose proof (bssid_analyse a 6 k1 Ha) as E. cbn [replicate] in E. rewrite E. cbn [fst snd]. intros k3 E3. apply wp_ret. apply (HQ [Asked (lit "STATUS") (Some a)]); [unfold grew in *; congruence|right; by exists (Some a)|done].
Qed.
End Bssid.

Section Props.
Context {K C A : Type} {OS : Linux K} {B : WifiBuild} {WC : WpaCtrl C} {AL : Allocator A}.
Variable answers_ok : forall c (k : C), wpa_conn k = true -> wp (wpa_ctrl_request c) (fun r _ => status_ok (snd r)) k.
Local Abbreviation S := (ysys K C A).

Definition at_net (s : S) (n : K * C) : S := YSys n (y_mem s) (y_wifi s) (y_watch s) (y_events s) (y_frames s).

Lemma wp_on_wifi_net {R} (c : M (K * C) R) (Q : R -> S -> Prop) s : wp c (fun r n => Q r (at_net s n)) (y_net s) -> wp (on_net c) Q s.
Proof. unfold wp, on_net. by destruct (c (y_net s)). Qed.
Lemma wp_on_linux {R} (c : M K R) (Q : R -> S -> Prop) s k x : y_net s = (k, x) -> wp c (fun r k' => Q r (at_net s (k', x))) k -> wp (on_linux c) Q s.
Proof. intros E H. apply wp_on_wifi_net. rewrite E. by apply wp_on_os. Qed.

(** ** The status *)

(** The status of the station: idle unless the interface is in managed mode and a supplicant
    can be talked to; else by what is known of the access point, the name of the network and
    the address.  When the interface does not tell the name, the status stays [old]. *)
Definition idle (k : K) (junk : Z) : bool := negb (default junk (mode_of k WLAN_DEV) =? WIFI_MODE_MANAGED) || failed (k_answer k (Access WIFI_WPA_CTRL_PATH)).
Definition station_status (k : K) (m : option (list Z)) (junk : Z) (old : WF_STATION_STAT_E) : WF_STATION_STAT_E :=
  if idle k junk then WSS_IDLE
  else if negb (seen m) || (essid_of k WLAN_DEV =? 0) then WSS_CONN_FAIL
  else if essid_of k WLAN_DEV =? 1 then if fst (ip_of k WLAN_DEV) =? 0 then WSS_GOT_IP else WSS_CONN_SUCCESS
  else old.
(** What the supplicant is asked for a status. *)
Definition asks (k : K) (junk : Z) (l : list wpa_ev) : Prop := if idle k junk then l = [] else status_asked l.

Lemma ip_of_text k n : fst (ip_of k n) = 0 -> snd (ip_of k n) <> [].
Proof.
  unfold ip_of. destruct (ask k _) as [flags|]; [|done]. destruct (Z.land _ _ =? 0); [done|]. destruct (k_answer k (SIOCGIFADDR n)) as [e|a] eqn:Ea; [by destruct (e =? EADDRNOTAVAIL)|]. intros _. cbn [snd]. destruct (octets_cases a (k_address k n a Ea)) as (b1 & b2 & b3 & b4 & -> & H1 & _).
  cbn [inet_ntoa]. intros E. apply (f_equal length) in E. rewrite length_app in E. cbn in E. lia.
Qed.

Lemma asked_view k k' : asked k k' -> mode_of k' = mode_of k /\ ip_of k' = ip_of k /\ essid_of k' = essid_of k /\ k_answer k' = k_answer k.
Proof. intros [(E1 & E2 & _) _]. unfold mode_of, ip_of, essid_of, ask. by rewrite E1, E2. Qed.

(** The station was asked: the answers are the same, [l] happened with the supplicant, and
    nothing else has changed. *)
Definition looked (junk : Z) (s s' : S) (l : list wpa_ev) : Prop := exists k' c',
  asked (fst (y_net s)) k' /\ grew (snd (y_net s)) c' l /\ asks (fst (y_net s)) junk l /\ s' = at_net s (k', c').

Lemma status_spec junk old s (Q : WF_STATION_STAT_E -> S -> Prop) :
  (forall l s', looked junk s s' l -> Q (station_status (fst (y_net s)) (told l) junk old) s') -> wp (tkl_wifi_station_get_status junk old) Q s.
Proof.
  intros HQ. destruct (y_net s) as [k c] eqn:En. cbn [fst] in HQ. assert (idle k junk = true -> forall k', asked k k' -> looked junk s (at_net s (k', c)) []) as Hl.
  { intros Ei k' Ha. exists k', c. rewrite En. cbn [fst snd]. split; [done|]. split; [apply grew_nil|]. split; [unfold asks; by rewrite Ei|done]. }
  destruct wlan_dev_name as (_ & Hn & _). unfold tkl_wifi_station_get_status. apply wp_bind, (wp_on_linux _ _ _ _ _ En), get_mode_spec. intros k1 Ha1. assert (default junk (snd (match mode_of k WLAN_DEV with Some m => (0, Some m) | None => (-1, None) end)) = default junk (mode_of k WLAN_DEV)) as -> by (by destruct (mode_of k WLAN_DEV)).
  unfold station_status in HQ. destruct (default junk (mode_of k WLAN_DEV) =? WIFI_MODE_MANAGED) eqn:Em; cbn [negb].
  2: { assert (idle k junk = true) as Ei by (unfold idle; by rewrite Em). rewrite Ei in HQ. apply wp_ret. by apply (HQ []), Hl. }
  apply wp_bind. eapply wp_on_linux; [done|]. apply sys_asks; [done|]. intros k2 Ha2. assert (k_answer k1 = k_answer k) as -> by (by apply asked_view). pose proof (asked_trans _ _ _ Ha1 Ha2) as Ha02. destruct (failed (k_answer k (Access WIFI_WPA_CTRL_PATH))) eqn:Ef.
  { assert (idle k junk = true) as Ei by (unfold idle; by rewrite Em, Ef). rewrite Ei in HQ. apply wp_ret. by apply (HQ []), Hl. }
  assert (idle k junk = false) as Ei by (unfold idle; by rewrite Em, Ef). rewrite Ei in HQ.
  apply wp_bind, wp_on_wifi_net. cbn [y_net at_net]. unfold wifi_get_bssid. apply wp_bind, wp_on_wpa, (bssid_spec answers_ok). intros l r mac c' Hg Hq Hm. apply wp_ret. cbn [fst snd]. rewrite Hm.
  apply wp_bind. eapply wp_on_linux; [done|]. apply get_ip_spec; [done|]. intros k3 Ha3. apply wp_bind. eapply wp_on_linux; [done|]. apply essid_spec. intros k4 Ha4. apply wp_ret.
  pose proof (asked_trans _ _ _ Ha02 Ha3) as Ha03. replace (essid_of k3) with (essid_of k) by (symmetry; by apply (asked_view k)). replace (ip_of k2) with (ip_of k) by (symmetry; by apply (asked_view k)).
  match goal with |- Q _ ?s' => assert (looked junk s s' l) as Hlook end. { exists k4, c'. rewrite En. cbn [fst snd]. split; [by eapply asked_trans|]. split; [done|]. split; [unfold asks; by rewrite Ei|done]. }
  specialize (HQ l _ Hlook). assert ((fst (ip_of k WLAN_DEV) =? 0) && negb (length (snd (ip_of k WLAN_DEV)) =? 0)%nat = (fst (ip_of k WLAN_DEV) =? 0)) as ->.
  { destruct (Z.eqb_spec (fst (ip_of k WLAN_DEV)) 0) as [E|]; [|done]. apply ip_of_text in E. by destruct (snd (ip_of k WLAN_DEV)). }
  destruct (seen (told l)); cbn [negb orb andb] in *; [|done]. destruct (Z.eqb_spec (essid_of k WLAN_DEV) 0) as [E|]; [rewrite E in *; done|]. destruct (essid_of k WLAN_DEV =? 1); cbn [andb]; [|done]. by destruct (fst (ip_of k WLAN_DEV) =? 0).
Qed.

(** ** Events *)

Definition event_of (x : WF_STATION_STAT_E) : WF_EVENT_E := if bool_decide (x = WSS_CONN_FAIL) then WFE_CONNECT_FAILED else WFE_CONNECTED.

(** A turn of the thread: whether the station is to be connected, and the world then. *)
Record moment := mkMoment { mo_conn : bool; mo_k : K; mo_c : C; mo_junk : Z }.
Definition pass (m : moment) : M S unit := modify (fun s => YSys (mo_k m, mo_c m) (y_mem s) (with_conn (mo_conn m) (y_wifi s)) (y_watch s) (y_events s) (y_frames s)).
(** What happened with the supplicant since [c]. *)
Definition news (c : C) : M S (list wpa_ev) := gets (fun s => drop (length (wpa_log c)) (wpa_log (snd (y_net s)))).
Fixpoint turns (ms : list moment) : M S (list (option WF_STATION_STAT_E * list wpa_ev)) :=
  match ms with
  | [] => ret []
  | m :: ms => pass m ;;; r <- wifi_status_turn (mo_junk m) ;; l <- news (mo_c m) ;; rs <- turns ms ;; ret ((r, l) :: rs)
  end.

(** What the turns read, from the status [old] on: nothing while the thread is switched off,
    and else the status that follows from the interface and from what the supplicant was
    asked and told in this turn. *)
Inductive reads : WF_STATION_STAT_E -> list moment -> list (option WF_STATION_STAT_E * list wpa_ev) -> Prop :=
| reads_end old : reads old [] []
| reads_off old m ms rs : mo_conn m = false -> reads old ms rs -> reads old (m :: ms) ((None, []) :: rs)
| reads_on old m ms rs l : mo_conn m = true -> asks (mo_k m) (mo_junk m) l -> reads (station_status (mo_k m) (told l) (mo_junk m) old) ms rs ->
    reads old (m :: ms) ((Some (station_status (mo_k m) (told l) (mo_junk m) old), l) :: rs).

(** The readings that say something. *)
Definition heard (rs : list (option WF_STATION_STAT_E * list wpa_ev)) : list WF_STATION_STAT_E := filter (fun x => x <> WSS_IDLE) (omap fst rs).

(** The variables of the thread after the reading [prev]. *)
Definition usual (x : WF_STATION_STAT_E) : Prop := x = WSS_IDLE \/ x = WSS_CONN_FAIL \/ x = WSS_CONN_SUCCESS \/ x = WSS_GOT_IP.
Definition watched (prev : option WF_STATION_STAT_E) (t : watch) : Prop :=
  usual (wt_stat t) /\
  match prev with
  | None => wt_last_stat t = WSS_IDLE /\ wt_last_state t = None
  | Some x => wt_last_state t = Some (event_of x) /\ (x <> WSS_CONN_FAIL -> wt_last_stat t = x) /\ x <> WSS_IDLE
  end.

Lemma usual_status k m junk old : usual old -> usual (station_status k m junk old).
Proof. unfold station_status, usual. repeat case_match; tauto. Qed.

Definition with_watch (s : S) (t : watch) (es : list (Z * WF_EVENT_E)) : S := YSys (y_net s) (y_mem s) (y_wifi s) t es (y_frames s).

Lemma turn_spec prev junk s (Q : option WF_STATION_STAT_E -> S -> Prop) : watched prev (y_watch s) -> tw_event_cb (y_wifi s) <> 0 -> tw_sta_conn_flag (y_wifi s) = true ->
  (forall l s' t, looked junk s s' l -> let x := station_status (fst (y_net s)) (told l) junk (wt_stat (y_watch s)) in
     wt_stat t = x -> watched (if decide (x = WSS_IDLE) then prev else Some x) t ->
     Q (Some x) (with_watch s' t (y_events s ++ (if decide (x = WSS_IDLE) then [] else if decide (prev = Some x) then [] else [(tw_event_cb (y_wifi s), event_of x)])))) ->
  wp (wifi_status_turn junk) Q s.
Proof.
  intros [Hu Hw] Hcb Hf HQ. unfold wifi_status_turn. apply wp_bind, wp_gets. rewrite Hf. cbn [negb]. apply wp_bind, wp_gets, wp_bind, status_spec. intros l s' Hlook. specialize (HQ l s'). pose proof (usual_status (fst (y_net s)) (told l) junk (wt_stat (y_watch s)) Hu) as Hx. revert HQ Hx. generalize (station_status (fst (y_net s)) (told l) junk (wt_stat (y_watch s))). intros x HQ Hx.
  assert (y_wifi s' = y_wifi s /\ y_events s' = y_events s) as [Ew Ee] by (by destruct Hlook as (? & ? & _ & _ & _ & ->)). apply wp_bind, wp_modify. case_bool_decide as Ei.
  - apply wp_ret. specialize (HQ (mkWatch x (wt_last_stat (y_watch s)) (wt_last_state (y_watch s))) Hlook eq_refl). rewrite !decide_True, app_nil_r, <-Ee in HQ by done. apply HQ. by split.
  - assert (forall b ls, watched (Some x) (mkWatch x ls (Some (event_of x))) -> prev <> Some x ->
      wp (set_watch (mkWatch x ls (Some (event_of x))) ;;; report (event_of x) ;;; ret (Some x)) Q (YSys (y_net s') (y_mem s') (y_wifi s') b (y_events s') (y_frames s'))) as Hrep.
    { intros b ls Hwatch Hp. apply wp_bind, wp_modify, wp_bind. unfold wp at 1, report. cbn [y_wifi y_net y_mem y_watch y_events y_frames]. rewrite Ew, (proj2 (Z.eqb_neq _ 0)) by done. apply wp_ret. specialize (HQ (mkWatch x ls (Some (event_of x))) Hlook eq_refl). rewrite !decide_False in HQ by done. rewrite Ee, <-Ew. rewrite <-Ew in HQ. by apply HQ. }
    assert (event_of x = (if bool_decide (x = WSS_CONN_FAIL) then WFE_CONNECT_FAILED else if bool_decide (x = WSS_GOT_IP) || bool_decide (x = WSS_CONN_SUCCESS) then WFE_CONNECTED else WFE_DISCONNECTED)) as Eev by (unfold event_of; destruct Hx as [->|[->|[->| ->]]]; done).
    cbv zeta. rewrite <-Eev. destruct ((bool_decide (x = WSS_GOT_IP) || bool_decide (x = WSS_CONN_SUCCESS)) && negb (bool_decide (wt_last_stat (y_watch s) = x))) eqn:Ec.
    + apply andb_prop in Ec as [Econ Els]. apply negb_true_iff, bool_decide_eq_false in Els. apply Hrep; [by split|]. intros ->. destruct Hw as (_ & Hls & _). apply Els, Hls. by intros ->.
    + destruct (bool_decide_reflect (wt_last_state (y_watch s) = Some (event_of x))) as [Els|Els].
      * apply wp_ret. destruct prev as [y|]; [|by destruct Hw as [_ E]; rewrite E in Els]. destruct Hw as (Elast & Hlast & Hy). assert (y = x) as ->.
        { rewrite Elast in Els. injection Els as Els. unfold event_of in Els. destruct (decide (x = WSS_CONN_FAIL)) as [->|Hnf]; [by destruct y|]. rewrite (bool_decide_false (x = _)) in Els by done. destruct (decide (y = WSS_CONN_FAIL)) as [->|Hyf]; [done|].
          rewrite <-(Hlast Hyf). destruct Hx as [->|[->|[->| ->]]]; try done; cbn in Ec; by apply negb_false_iff, bool_decide_eq_true in Ec. }
        specialize (HQ (mkWatch x (wt_last_stat (y_watch s)) (wt_last_state (y_watch s))) Hlook eq_refl). rewrite (decide_False (P := x = WSS_IDLE)), (decide_False (P := x = WSS_IDLE)), (decide_True (P := Some x = Some x)), app_nil_r, <-Ee in HQ by done. apply HQ. by split.
      * apply Hrep.
        { split; [done|]. split; [done|]. split; [|done]. intros Hnf. destruct Hx as [->|[->|[->| ->]]]; try done; cbn in Ec; by apply negb_false_iff, bool_decide_eq_true in Ec. }
        intros ->. by destruct Hw as (E & _).
Qed.

Lemma heard_cons x l rs : heard ((Some x, l) :: rs) = (if decide (x = WSS_IDLE) then [] else [x]) ++ heard rs.
Proof. unfold heard. change (omap fst ((Some x, l) :: rs)) with (x :: omap fst rs). rewrite filter_cons. repeat case_decide; done. Qed.

Lemma turns_spec ms : forall prev s, watched prev (y_watch s) -> tw_event_cb (y_wifi s) <> 0 ->
  wp (turns ms) (fun rs s' => reads (wt_stat (y_watch s)) ms rs /\ y_events s' = y_events s ++ ((fun x => (tw_event_cb (y_wifi s), event_of x)) <$> changes prev (heard rs))) s.
Proof.
  induction ms as [|m ms IH]; intros prev s Hw Hcb; cbn [turns]; [apply wp_ret; split; [constructor|cbn; by rewrite app_nil_r]|]. apply wp_bind, wp_modify, wp_bind. destruct (mo_conn m) eqn:Ec.
  - apply (turn_spec prev); [done|done|cbn; done|]. cbn [y_net y_watch y_wifi y_events fst snd]. intros l s1 t Hlook Et Hw'. apply wp_bind. unfold news. apply wp_gets. destruct Hlook as (k' & c' & Ha & Hg & Hl & ->). cbn [y_net fst snd at_net with_watch] in Ha, Hg, Hl |- *. unfold grew in Hg. rewrite Hg, drop_app_length.
    apply wp_bind. eapply wp_mono; [eapply IH; [exact Hw'|exact Hcb]|]. cbv beta. cbn [y_watch with_watch]. rewrite Et.
    intros rs s' [Hr Ee]. apply wp_ret. split; [by apply reads_on|]. rewrite Ee. cbn [with_watch y_events y_wifi at_net with_conn tw_event_cb]. rewrite <-app_assoc. f_equal. rewrite heard_cons. revert Hr. generalize (station_status (mo_k m) (told l) (mo_junk m) (wt_stat (y_watch s))). intros x _. destruct (decide (x = WSS_IDLE)) as [|Hx]; [done|]. cbn [changes app]. destruct (decide (prev = Some x)) as [->|]; [done|]. by rewrite fmap_cons.
  - unfold wifi_status_turn at 1. apply wp_bind, wp_gets. cbn [y_wifi with_conn tw_sta_conn_flag negb]. apply wp_ret, wp_bind. unfold news. apply wp_gets. cbn [y_net snd]. rewrite drop_all. apply wp_bind. eapply wp_mono; [by apply (IH prev)|]. cbv beta. cbn [y_watch y_events y_wifi with_conn tw_event_cb]. intros rs s' [Hr Ee]. apply wp_ret. split; [by apply reads_off|exact Ee].
Qed.

(** C17: the events of the station.  Whatever the world is at each turn of the thread and
    whenever connecting and disconnecting switch it on and off, every status it reads is
    computed from the mode, the name of the network and the address of the interface at that
    turn and from the address of the access point in the answer that the supplicant gave in
    that turn to the one question it was asked; and the application is told exactly
    when a status that is not idle differs from the last such status: that the station is
    connected (at the association, and again with an address) or that connecting has failed,
    never that it was disconnected.  Turns while it is switched off count for nothing, so a
    disconnection and a new connection that is up at the next reading are not reported. *)
Theorem wifi_events_follow_status ms s : y_watch s = watch0 -> tw_event_cb (y_wifi s) <> 0 ->
  wp (turns ms) (fun rs s' => reads WSS_IDLE ms rs /\ y_events s' = y_events s ++ ((fun x => (tw_event_cb (y_wifi s), event_of x)) <$> changes None (heard rs))) s.
Proof. intros Hw Hcb. assert (watched None (y_watch s)) as H by (rewrite Hw; split; [by left|done]). pose proof (turns_spec ms None s H Hcb) as Ht. by rewrite Hw in Ht. Qed.

(** ** The address of the station *)

Lemma before_last_app c w r : before_last c (w ++ r) = match before_last c r with Some x => Some (w ++ x) | None => before_last c w end.
Proof. induction w as [|d w IH]; cbn [before_last app]; [by destruct (before_last c r)|]. rewrite IH. by destruct (before_last c r). Qed.
Lemma before_last_none c w : Forall (fun d => (d =? c) = false) w -> before_last c w = None.
Proof. induction 1 as [|d w Hd Hw IH]; cbn [before_last]; [done|]. by rewrite IH, Hd. Qed.

(** The first address of the network, as the code guesses the gateway. *)
Definition gateway (a : list Z) : list Z := match a with b1 :: b2 :: b3 :: _ => inet_ntoa [b1; b2; b3; 1] | _ => [] end.

Lemma gateway_of a : octets a -> exists net, before_last 46 (inet_ntoa a) = Some net /\ net ++ lit ".1" = gateway a.
Proof.
  intros (b1 & b2 & b3 & b4 & -> & H1 & H2 & H3 & H4)%octets_cases. exists (dec b1 ++ [46] ++ dec b2 ++ [46] ++ dec b3). split.
  - cbn [inet_ntoa]. rewrite !app_assoc. rewrite before_last_app, before_last_none by (by apply dec_no_dot). rewrite before_last_app. cbn [before_last Z.eqb Pos.eqb]. by rewrite app_nil_r.
  - cbn [gateway inet_ntoa]. rewrite <-!app_assoc. reflexivity.
Qed.

Lemma gateway_octets a : octets a -> (length (gateway a) < 16)%nat.
Proof. intros (b1 & b2 & b3 & b4 & -> & H1 & H2 & H3 & H4)%octets_cases. apply inet_ntoa_short. split; [done|]. repeat constructor; lia. Qed.

Lemma inet_ntoa_text a : octets a -> text (inet_ntoa a).
Proof.
  intros (b1 & b2 & b3 & b4 & -> & H1 & H2 & H3 & H4)%octets_cases. assert (forall b, 0 <= b < 256 -> text (dec b)) as Hd. { intros b Hb. eapply Forall_impl; [apply dec_text; unfold int; lia|]. by intros c [? _]. }
  cbn [inet_ntoa]. repeat (apply Forall_app; split; [by apply Hd || by repeat constructor|]). by apply Hd.
Qed.
Lemma cstr_strncpy n w : text w -> (length w < n)%nat -> cstr (strncpy n w) = w.
Proof. intros Ht Hl. unfold strncpy. rewrite take_ge by lia. destruct (n - length w)%nat eqn:E; [lia|]. cbn [replicate]. by apply cstr_text. Qed.
Lemma mask_octets k n : exists a, octets a /\ mask_of k n = inet_ntoa a.
Proof. unfold mask_of. destruct (k_answer k (SIOCGIFNETMASK n)) as [e|a] eqn:E; [exists [0; 0; 0; 0]|exists a]; (split; [|done]); [by repeat constructor|by eapply k_netmask]. Qed.

(** The addresses reported for the station: none of them when the interface has no address,
    an error when it is not running, and otherwise its address, its mask and, as the gateway,
    the address with 1 for its last part. *)
Theorem station_ip_correct n (s : S) : tw_sta (y_wifi s) = Some n -> (length n < 16)%nat ->
  wp (tkl_wifi_get_ip WF_STATION false) (fun r s' => asked (fst (y_net s)) (fst (y_net s')) /\
    let k := fst (y_net s) in
    match ask k (SIOCGIFFLAGS n), k_answer k (SIOCGIFADDR n) with
    | Some flags, inr a => if Z.land (hd 0 flags) IFF_RUNNING =? 0 then r = (com_error, zero_ip) else r = (ok, mkIp (inet_ntoa a) (mask_of k n) (gateway a))
    | Some flags, inl e => if Z.land (hd 0 flags) IFF_RUNNING =? 0 then r = (com_error, zero_ip) else r = (if e =? EADDRNOTAVAIL then ok else com_error, zero_ip)
    | None, _ => r = (com_error, zero_ip)
    end) s.
Proof.
  intros Es Hn. destruct (y_net s) as [k c] eqn:En. cbn [fst]. unfold tkl_wifi_get_ip. apply wp_bind. unfold sta. apply wp_bind, wp_gets. rewrite Es. apply wp_ret, wp_bind, (wp_on_linux _ _ _ _ _ En), get_ip_spec; [done|]. intros k1 Ha1. unfold ip_of. cbv zeta. destruct (ask k (SIOCGIFFLAGS n)) as [flags|] eqn:Ef; [|by apply wp_ret].
  destruct (Z.land (hd 0 flags) IFF_RUNNING =? 0); [destruct (k_answer k (SIOCGIFADDR n)); by apply wp_ret|]. destruct (k_answer k (SIOCGIFADDR n)) as [e|a] eqn:Ea; [destruct (e =? EADDRNOTAVAIL); by apply wp_ret|]. cbn [fst snd Z.eqb negb].
  assert (k_sockets k1 = true) as Hs. { destruct Ha1 as [(_ & -> & _) _]. unfold ask in Ef. by destruct (k_sockets k). }
  apply wp_bind. eapply wp_on_linux; [done|]. apply get_mask_spec; [done|]. intros k2 Ha2. rewrite Hs. cbn [fst snd Z.eqb negb]. destruct (gateway_of a (k_address k n a Ea)) as (net & -> & Eg). rewrite Eg, fits_ok by (by eapply gateway_octets, k_address). apply wp_ret. split; [by eapply asked_trans|].
  assert (mask_of k1 n = mask_of k n) as -> by (unfold mask_of; by destruct Ha1 as [(-> & _) _]). destruct (mask_octets k n) as (m & Hm & ->). rewrite cstr_strncpy; [done|by apply inet_ntoa_text|by apply inet_ntoa_short].
Qed.

(** ** The access point *)

Lemma ap_spec n (s : S) (Q : list Z -> S -> Prop) : tw_ap (y_wifi s) = Some n -> Q n s -> wp ap Q s.
Proof. intros E HQ. unfold ap. apply wp_bind, wp_gets. by rewrite E. Qed.

(** An interface whose flags are known is enabled. *)
Definition enabled (n : list Z) (k k' : K) : Prop :=
  match ask k (SIOCGIFFLAGS n) with None => asked k k' | Some flags => exists a, made k [(SIOCSIFFLAGS n (Z.lor (hd 0 flags) IFF_UP), a)] k' end.
Lemma enabled_spec n k (Q : Z -> K -> Prop) : (length n < 16)%nat -> (forall r k', enabled n k k' -> Q r k') -> wp (wifi_enable n true) Q k.
Proof. intros Hn HQ. unfold enabled in HQ. apply enable_spec; [done|intros E k' Ha; apply HQ; by rewrite E|]. intros flags a k' E Hm. apply HQ. rewrite E. by exists a. Qed.

(** C25: an access point with a channel from 1 to 14, texts that fit their arrays and an
    address [a] starts by enabling the interface, stopping the old programs that run, writing
    the configuration of hostapd and starting it, setting the address, writing the
    configuration of the DHCP server, which hands out the addresses ending in 2 to 254, and
    starting it; it succeeds exactly when every one of the requests that have to succeed did,
    and the configuration is then kept for [tkl_wifi_get_ip].  It fails, at that point and with
    nothing kept, exactly when a file could not be made or written, the address or the flags
    could not be set, or there was no socket for that.  Without an address it always fails: the
    default address that the code has for this case is never used. *)
Theorem start_ap_correct cfg buf n (s : S) : tw_ap (y_wifi s) = Some n -> (length n < 16)%nat -> cfg_ok cfg -> 1 <= cf_chan cfg <= 14 -> hostapd_conf cfg = Some buf ->
  (forall a, octets a -> nw_ip (cf_ip cfg) = inet_ntoa a ->
     wp (tkl_wifi_start_ap (Some cfg)) (fun r s' => exists k1 started, enabled n (fst (y_net s)) k1 /\ ap_run n cfg buf (network_part a) k1 (fst (y_net s')) started /\
       r = (if started then ok else com_error) /\ y_wifi s' = (if started then with_apcfg cfg (y_wifi s) else y_wifi s)) s) /\
  (nw_ip (cf_ip cfg) = [] -> wp (tkl_wifi_start_ap (Some cfg)) (fun r s' => r = com_error /\ y_wifi s' = y_wifi s) s).
Proof.
  intros Es Hn Hc Hch Eb. destruct (y_net s) as [k c] eqn:En. cbn [fst].
  assert (forall (Q : tret -> S -> Prop), (forall k1, enabled n k k1 -> wp (r <- on_linux (wifi_ap_start n cfg) ;;
      if r <? 0 then ret com_error else upd_wifi (with_apcfg (match nw_ip (cf_ip cfg) with [] => with_ip WIFI_AP_DEFAULT_IP cfg | _ => cfg end)) ;;; ret ok) Q (at_net s (k1, c))) -> wp (tkl_wifi_start_ap (Some cfg)) Q s) as Hstart.
  { intros Q HQ. unfold tkl_wifi_start_ap. apply wp_bind, (ap_spec n); [done|]. apply wp_bind, (wp_on_linux _ _ _ _ _ En), enabled_spec; [done|]. intros r k1 He. rewrite (proj2 (Z.leb_gt (cf_chan cfg) 0)), (proj2 (Z.ltb_ge 14 (cf_chan cfg))) by lia. cbn [orb]. by eapply HQ. }
  split.
  - intros a Ha Eip. apply Hstart. intros k1 He. apply wp_bind. eapply wp_on_linux; [done|]. eapply wp_mono.
    { apply (ap_start_spec n cfg buf (network_part a)); [done|done|done|rewrite Eip; by apply inet_ntoa_short|by apply network_part_length|rewrite Eip; by apply dots_loop_quad]. }
    cbv beta. intros r k2 [[->| ->] Hrun].
    + change (0 <? 0) with false. cbv iota. apply wp_bind, wp_modify, wp_ret. exists k1, true. split; [done|]. split; [exact Hrun|]. split; [done|]. cbn [y_wifi at_net]. destruct (nw_ip (cf_ip cfg)) eqn:Enil; [|done]. exfalso. destruct (octets_cases a Ha) as (b1 & b2 & b3 & b4 & -> & _). cbn [inet_ntoa] in Eip. apply (f_equal length) in Eip. rewrite length_app in Eip. cbn in Eip. lia.
    + apply wp_ret. exists k1, false. done.
  - intros Eip. apply Hstart. intros k1 He. apply wp_bind. eapply wp_on_linux; [done|]. eapply wp_mono; [by apply ap_start_empty|]. cbv beta. intros r k2 ->. by apply wp_ret.
Qed.

(** ** Packets *)

Definition with_frame (s : S) (n : K * C) (f : frame) : S := YSys n (y_mem s) (y_wifi s) (y_watch s) (y_events s) (y_frames s ++ [f]).

(** A packet that was sent with the header of [wifi_send_rawpacket] is received into a buffer. *)
Lemma recv_frame f sock buf (s : S) k c k' : y_net s = (k, c) -> dev sock (Recv (Z.of_nat (length buf))) k = Ret (inr (t_radiotap ++ f)) k' ->
  on_linux (wifi_recv_rawpacket sock buf) s = Ret (13 + Z.of_nat (length f), t_radiotap ++ f ++ drop (13 + length f) buf) (at_net s (k', c)).
Proof.
  intros En Er. unfold on_linux, on_net, on_os. rewrite En. cbn [fst snd]. unfold wifi_recv_rawpacket, bind. rewrite Er. unfold ret, overwrite. rewrite <-app_assoc. replace (Z.of_nat (length (t_radiotap ++ f))) with (13 + Z.of_nat (length f)) by (rewrite length_app; cbn [length t_radiotap]; lia). done.
Qed.

Lemma send_mgnt_spec f (s : S) k c : y_net s = (k, c) ->
  wp (tkl_wifi_send_mgnt true f) (fun r s' => k_open (fst (y_net s')) = k_open k /\ (r = ok -> exists i, did k [Bind i; Promisc i; Write (t_radiotap ++ f)] (fst (y_net s')))) s.
Proof.
  intros En. unfold tkl_wifi_send_mgnt. apply wp_bind, (wp_on_linux _ _ _ _ _ En), socket_spec; intros Es; [intros k' [_ [_ Eo]]; by apply wp_ret|]. intros fd k1 Hfd Hs Hh. rewrite (proj2 (Z.ltb_ge fd 0)) by done.
  assert (forall l k2 s2 (r : tret) (Q : tret -> S -> Prop), y_net s2 = (k2, c) -> held k fd l k2 -> (forall k3, made k l k3 -> Q r (at_net s2 (k3, c))) -> wp (on_linux (close fd) ;;; ret r) Q s2) as Hend.
  { intros l k2 s2 r Q E2 Hh2 HQ. apply wp_bind, (wp_on_linux _ _ _ _ _ E2), (fd_close_spec k fd l); [done|]. intros k3 _ Hm. apply wp_ret. by apply HQ. }
  apply wp_bind. eapply wp_on_linux; [done|]. apply (dev_spec k fd []); [done|done|]. intros k2 _ Hh2. destruct (k_answer k1 _) as [e|index]; [eapply Hend; [done|exact Hh2|]; intros k3 [_ Eo]; by split|].
  apply wp_bind. eapply wp_on_linux; [done|]. apply (dev_does k fd []); [done|done|]. intros a k3 Hh3. destruct (failed a); [eapply Hend; [done|exact Hh3|]; intros k4 [_ Eo]; by split|].
  apply wp_bind. eapply wp_on_linux; [done|]. eapply (dev_does k fd); [done|exact Hh3|]. intros a2 k4 Hh4. destruct (failed a2); [eapply Hend; [done|exact Hh4|]; intros k5 [_ Eo]; by split|].
  apply wp_bind. eapply wp_on_linux; [done|]. unfold wifi_send_rawpacket. cbn [negb]. apply wp_bind. eapply (dev_does k fd); [done|exact Hh4|]. intros a3 k5 Hh5. apply wp_ret. destruct (_ <? 0); [eapply Hend; [done|exact Hh5|]; intros k6 [_ Eo]; by split|].
  eapply Hend; [done|exact Hh5|]. intros k6 Hm. split; [apply Hm|]. intros _. exists (hd 0 index). apply did_made in Hm. exact Hm.
Qed.

(** C24: packets with their radiotap header.  A frame that is sent is written, behind a header
    of 13 bytes, to a socket on the interface of the access point, which is closed again.  When
    such a packet arrives, the sniffer hands over exactly the frame: the bytes behind the
    header, and their number.  The receiver of management frames hands over the same pointer
    with the length of the whole packet: the callback is told of 13 bytes more than there
    are, beyond the end of the buffer when the packet fills it. *)
Theorem radiotap_roundtrip f sock buf (s : S) k c k' : y_net s = (k, c) -> f <> [] -> (13 + length f <= length buf)%nat -> Z.of_nat (length buf) <= 8192 -> dev sock (Recv (Z.of_nat (length buf))) k = Ret (inr (t_radiotap ++ f)) k' ->
  wp (tkl_wifi_send_mgnt true f) (fun r s' => k_open (fst (y_net s')) = k_open k /\ (r = ok -> exists i, did k [Bind i; Promisc i; Write (t_radiotap ++ f)] (fst (y_net s')))) s /\
  (tw_sniffer_cb (y_wifi s) <> 0 -> tw_sniffer_flag (y_wifi s) = true ->
    wp (sniffer_process sock buf) (fun _ s' => s' = with_frame s (k', c) (mkFrame (tw_sniffer_cb (y_wifi s)) (f ++ drop (13 + length f) buf) (Z.of_nat (length f)))) s) /\
  (tw_mgnt_cb (y_wifi s) <> 0 -> tw_mgnt_flag (y_wifi s) = true ->
    wp (mgnt_process sock buf) (fun _ s' => s' = with_frame s (k', c) (mkFrame (tw_mgnt_cb (y_wifi s)) (f ++ drop (13 + length f) buf) (Z.of_nat (length f) + 13))) s).
Proof.
  intros En Hf Hl Hb Er. pose proof (recv_frame f sock buf s k c k' En Er) as Erecv. assert (0 < Z.of_nat (length f)) as Hpos by (destruct f; [done|]; cbn [length]; lia). split; [by apply (send_mgnt_spec f s k c)|].
  assert (it_len (t_radiotap ++ f ++ drop (13 + length f) buf) = 13) as Eh by done. split; intros Hcb Hflag.
  - unfold sniffer_process. apply wp_bind, wp_gets. rewrite (proj2 (Z.eqb_neq _ 0)), Hflag by done. cbn [negb andb]. apply wp_bind. unfold wp at 1. rewrite Erecv. cbn [fst snd]. rewrite Eh, (proj2 (Z.ltb_lt 13 _)) by lia. apply wp_bind. unfold wp at 1, hand_over. cbn [fr_cb]. rewrite (proj2 (Z.eqb_neq _ 0)) by done. apply wp_ret.
    unfold with_frame, at_net. cbn [y_mem y_wifi y_watch y_events y_frames y_net]. do 3 f_equal. assert (u16 (13 + Z.of_nat (length f) - 13) = Z.of_nat (length f)) as -> by (rewrite (wrap_small 16); [lia|]; change (2 ^ 16) with 65536; lia). done.
  - unfold mgnt_process. apply wp_bind, wp_gets. rewrite Hflag. apply wp_bind. unfold wp at 1. rewrite Erecv. cbn [fst snd]. rewrite Eh, (proj2 (Z.ltb_lt 13 _)), (proj2 (Z.ltb_lt (-1) _)) by lia. cbn [andb]. apply wp_bind. unfold wp at 1, hand_over. cbn [fr_cb]. rewrite (proj2 (Z.eqb_neq _ 0)) by done. apply wp_ret.
    unfold with_frame, at_net. cbn [y_mem y_wifi y_watch y_events y_frames y_net]. do 3 f_equal. rewrite (Z.add_comm 13). done.
Qed.
End Props.

(** ** On a system *)

Lemma demo_status_ok c (k : demo_log) : wpa_conn k = true -> wp (wpa_ctrl_request c) (fun r _ => status_ok (snd r)) k.
Proof.
  intros _. unfold wp. cbn [wpa_ctrl_request demo_ctrl snd]. split; [apply demo_answer_ok|]. unfold demo_answer. repeat case_bool_decide; repeat (apply Forall_cons; split; [by vm_compute|]); apply Forall_nil_2.
Qed.

Definition demo_wifi : tkl_wifi_t := mkWifi 9 true false 7 true 8 true (Some (lit "wlan0")) (Some (lit "wlan1")) zero_cfg.
Definition demo_y (k : demo_os) : ysys demo_os demo_log arena := YSys (k, []) (Own arena0 ∅) demo_wifi watch0 [] [].
(** Off, associated without an address, with one, off again, and with one. *)
Definition no_ip_says (r : request) : answer := match r with SIOCGIFADDR _ => inl EADDRNOTAVAIL | _ => demo_says r end.
Definition demo_moments : list (@moment demo_os demo_log) :=
  [mkMoment false demo_os0 [] 0; mkMoment true (mkOs no_ip_says None [] [] []) [] 0; mkMoment true demo_os0 [] 0; mkMoment false demo_os0 [] 0; mkMoment true demo_os0 [] 0].

Lemma wifi_events_follow_status_witness :
  wp (turns demo_moments) (fun rs s' => reads WSS_IDLE demo_moments rs /\ y_events s' = [] ++ ((fun x => (9, event_of x)) <$> changes None (heard rs))) (demo_y demo_os0).
Proof. refine (wifi_events_follow_status demo_status_ok demo_moments (demo_y demo_os0) _ _); done. Defined.

Example wifi_events_demo :
  match turns demo_moments (demo_y demo_os0) with
  | Ret rs s => rs.*1 = [None; Some WSS_CONN_SUCCESS; Some WSS_GOT_IP; None; Some WSS_GOT_IP] /\ y_events s = [(9, WFE_CONNECTED); (9, WFE_CONNECTED)]
  | _ => False
  end.
Proof. by vm_compute. Qed.

Definition demo_cfg (ip : list Z) : WF_AP_CFG_IF_S := mkCfg (lit "SmartLife") (lit "12345678") 6 WAAM_WPA2_PSK 0 3 100 (mkIp ip (lit "255.255.255.0") []).

Lemma start_ap_correct_witness :
  wp (tkl_wifi_start_ap (Some (demo_cfg (lit "192.168.4.1")))) (fun r s' => exists k1 started, enabled (lit "wlan1") demo_os0 k1 /\
     ap_run (lit "wlan1") (demo_cfg (lit "192.168.4.1")) (default [] (hostapd_conf (demo_cfg (lit "192.168.4.1")))) (network_part [192; 168; 4; 1]) k1 (fst (y_net s')) started /\
     r = (if started then ok else com_error) /\ y_wifi s' = (if started then with_apcfg (demo_cfg (lit "192.168.4.1")) demo_wifi else demo_wifi)) (demo_y demo_os0) /\
  wp (tkl_wifi_start_ap (Some (demo_cfg []))) (fun r s' => r = com_error /\ y_wifi s' = demo_wifi) (demo_y demo_os0).
Proof.
  split.
  - refine (proj1 (start_ap_correct (demo_cfg (lit "192.168.4.1")) _ (lit "wlan1") (demo_y demo_os0) eq_refl _ _ _ eq_refl) [192; 168; 4; 1] _ eq_refl); [cbn; lia|unfold cfg_ok, int; cbn; lia|cbn; lia|]. split; [done|]. repeat constructor; lia.
  - refine (proj2 (start_ap_correct (demo_cfg []) _ (lit "wlan1") (demo_y demo_os0) eq_refl _ _ _ eq_refl) eq_refl); [cbn; lia|unfold cfg_ok, int; cbn; lia|cbn; lia].
Defined.

(** The station is managed: an access point that is set reads back as both. *)
Example work_mode_demo : match (x <- tkl_wifi_set_work_mode WWM_SOFTAP ;; tkl_wifi_get_work_mode 0) (demo_y demo_os0) with Ret r _ => r = (ok, Some WWM_STATIONAP) | _ => False end.
Proof. by vm_compute. Qed.

Definition rx_os (f : list Z) : demo_os := mkOs demo_says None [t_radiotap ++ f] [4] [].

Lemma radiotap_roundtrip_witness :
  wp (sniffer_process 4 (replicate 32 0)) (fun _ s' => s' = with_frame (demo_y (rx_os [128; 1; 2])) (mkOs demo_says None [] [4] [(Recv 32, inr (t_radiotap ++ [128; 1; 2]))], [])
    (mkFrame 7 ([128; 1; 2] ++ replicate 16 0) 3)) (demo_y (rx_os [128; 1; 2])) /\
  wp (mgnt_process 4 (replicate 32 0)) (fun _ s' => s' = with_frame (demo_y (rx_os [128; 1; 2])) (mkOs demo_says None [] [4] [(Recv 32, inr (t_radiotap ++ [128; 1; 2]))], [])
    (mkFrame 8 ([128; 1; 2] ++ replicate 16 0) 16)) (demo_y (rx_os [128; 1; 2])).
Proof.
  split.
  - refine (proj1 (proj2 (radiotap_roundtrip [128; 1; 2] 4 (replicate 32 0) (demo_y (rx_os [128; 1; 2])) (rx_os [128; 1; 2]) [] (mkOs demo_says None [] [4] [(Recv 32, inr (t_radiotap ++ [128; 1; 2]))]) eq_refl _ _ _ eq_refl)) _ eq_refl); [done|cbn; lia|cbn; lia|done].
  - refine (proj2 (proj2 (radiotap_roundtrip [128; 1; 2] 4 (replicate 32 0) (demo_y (rx_os [128; 1; 2])) (rx_os [128; 1; 2]) [] (mkOs demo_says None [] [4] [(Recv 32, inr (t_radiotap ++ [128; 1; 2]))]) eq_refl _ _ _ eq_refl)) _ eq_refl); [done|cbn; lia|cbn; lia|done].
Defined.
