(* ===== verification/TklBt.v ===== *)
(** * Bluetooth: [src/tkl_bt/tkl_bluetooth.c], [bt_dbus_api.c] and [bt_hci_adv_api.c]

    The adapter offers a GATT server over BlueZ: services and characteristics are added
    through the D-Bus bindings in [bluez_inc/binc], which call back on reads, writes and
    connections; advertising data and intervals go straight to the controller through HCI
    sockets.  BlueZ, its bindings and the HCI library are a parameter, the class [Bluez]:
    a log of the calls with their results. *)

From Stdlib Require Import String.
From S2P Require Import Prelude WpaParse.

(** ** The libraries *)

Inductive bcall :=
| BusGet | CatchInterrupt | MainLoopNew | MainLoopQuit (loop : Z) | StartThread | SetPoweredCb (a : Z) | SetCentralCb (a : Z)
| SetCharReadCb (app : Z) | SetCharWriteCb (app : Z) | SetCharStartNotifyCb (app : Z) | SetCharStopNotifyCb (app : Z) | SetCharUpdatedCb (app : Z)
| UnregisterApplication (a app : Z) | ApplicationFree (app : Z) | AdvertisementFree (adv : Z) | AdapterFree (a : Z)
| AdapterGetDefault (bus : Z) | AdapterGetPowered (a : Z) | AdapterPowerOn (a : Z)
| CreateApplication (a : Z) | AddService (app : Z) (uuid : list Z) | AddCharacteristic (app : Z) (svc chr : list Z) (property : Z)
| RegisterApplication (a app : Z) | NotifyValue (app : Z) (svc chr data : list Z) | SetCharValue (svc chr data : list Z)
| GetAdvertisement (a : Z) | AdvertisementCreate | StartAdvertising (a adv : Z) | StopAdvertising (a adv : Z)
| SetDiscoverable (adv : Z) (b : bool) | SetServices (adv : Z) (uuids : list (list Z)) | SetLocalName (adv : Z) (name : list Z)
| SetManufacturer (adv id : Z) (data : list Z) | SetServiceData (adv : Z) (uuid data : list Z) | SetAppearance (adv n : Z) | SetInterval (adv min max : Z)
| DeviceDisconnect (dev : Z) | Malloc (n : Z)
| HciOpen | HciClose (dev : Z) | HciSend (dev ocf : Z) (param : list Z).

Class Bluez (K : Type) := {
  bz : bcall -> M K Z;
  bz_log : K -> list (bcall * Z);
  bz_ok c k : wp (bz c) (fun r k' => bz_log k' = bz_log k ++ [(c, r)]) k;
  (** The order in which a hash table gives its entries. *)
  g_hash_order : list (list Z * list Z) -> list (list Z * list Z);
  g_hash_order_all l : g_hash_order l ≡ₚ l
}.

(** ** Data *)

(** The fields the code looks at; handles, which are outputs, are results of the functions. *)
Inductive TKL_BLE_UUID_T := TKL_BLE_UUID_TYPE_16 (n : Z) | TKL_BLE_UUID_TYPE_32 (n : Z) | TKL_BLE_UUID_TYPE_128 (b : list Z) | TKL_BLE_UUID_TYPE_OTHER.
Record TKL_BLE_CHAR_PARAMS_T := mkChar { ch_uuid : TKL_BLE_UUID_T; ch_property : Z }.
Record TKL_BLE_SERVICE_PARAMS_T := mkSvc { sv_uuid : TKL_BLE_UUID_T; sv_char : list TKL_BLE_CHAR_PARAMS_T }.
Record ServCharMapEntry := mkEntry { uuid_str : list Z; index : Z }.

Inductive gap_type := GapZero | TKL_BLE_EVT_STACK_INIT | TKL_BLE_GAP_EVT_CONNECT | TKL_BLE_GAP_EVT_DISCONNECT.
Inductive ble_event :=
| GapEvent (cb : Z) (type : gap_type) (conn_handle : Z)
| GattRead (cb : Z) (char_handle : Z)
| GattWrite (cb : Z) (char_handle : Z) (data : list Z).

Inductive ConnectionState := BINC_DISCONNECTED | BINC_CONNECTED | BINC_CONNECTING | BINC_DISCONNECTING.
#[export] Instance connection_state_eq : EqDecision ConnectionState.
Proof. solve_decision. Defined.

Definition MAX_SERVS : nat := 10.
Definition MAX_CHARS : nat := 32.
Definition BLE_CONN_HANDLE : Z := 1.
Definition OCF_LE_SET_ADVERTISING_PARAMETERS : Z := 6.
Definition OCF_LE_SET_ADVERTISING_DATA : Z := 8.
Definition OCF_LE_SET_SCAN_RESPONSE_DATA : Z := 9.
Definition OCF_LE_SET_ADVERTISE_ENABLE : Z := 10.

(** The variables of the files; a pointer to a callback or an object is an address.  The two
    files have their own pointers to the callbacks. *)
Record bt := mkBt {
  bt_gap_cb : Z; bt_gatt_cb : Z; bt_min : Z; bt_max : Z;
  db_init : bool; db_gap_cb : Z; db_gatt_cb : Z; db_adapter : Z; db_adv : Z; db_app : Z; db_device : Z;
  serv_map : list ServCharMapEntry; char_map : list ServCharMapEntry; bt_events : list ble_event }.
Definition bt0 : bt := mkBt 0 0 0 0 false 0 0 0 0 0 0 [] [] [].
Definition with_cbs gap gatt b := mkBt gap gatt (bt_min b) (bt_max b) (db_init b) (db_gap_cb b) (db_gatt_cb b) (db_adapter b) (db_adv b) (db_app b) (db_device b) (serv_map b) (char_map b) (bt_events b).
Definition with_interval min max b := mkBt (bt_gap_cb b) (bt_gatt_cb b) min max (db_init b) (db_gap_cb b) (db_gatt_cb b) (db_adapter b) (db_adv b) (db_app b) (db_device b) (serv_map b) (char_map b) (bt_events b).
Definition with_db gap gatt b := mkBt (bt_gap_cb b) (bt_gatt_cb b) (bt_min b) (bt_max b) true gap gatt (db_adapter b) (db_adv b) (db_app b) (db_device b) (serv_map b) (char_map b) (bt_events b).
Definition with_adapter v b := mkBt (bt_gap_cb b) (bt_gatt_cb b) (bt_min b) (bt_max b) (db_init b) (db_gap_cb b) (db_gatt_cb b) v (db_adv b) (db_app b) (db_device b) (serv_map b) (char_map b) (bt_events b).
Definition with_adv v b := mkBt (bt_gap_cb b) (bt_gatt_cb b) (bt_min b) (bt_max b) (db_init b) (db_gap_cb b) (db_gatt_cb b) (db_adapter b) v (db_app b) (db_device b) (serv_map b) (char_map b) (bt_events b).
Definition with_app v b := mkBt (bt_gap_cb b) (bt_gatt_cb b) (bt_min b) (bt_max b) (db_init b) (db_gap_cb b) (db_gatt_cb b) (db_adapter b) (db_adv b) v (db_device b) (serv_map b) (char_map b) (bt_events b).
Definition with_device v b := mkBt (bt_gap_cb b) (bt_gatt_cb b) (bt_min b) (bt_max b) (db_init b) (db_gap_cb b) (db_gatt_cb b) (db_adapter b) (db_adv b) (db_app b) v (serv_map b) (char_map b) (bt_events b).
Definition with_maps sm cm b := mkBt (bt_gap_cb b) (bt_gatt_cb b) (bt_min b) (bt_max b) (db_init b) (db_gap_cb b) (db_gatt_cb b) (db_adapter b) (db_adv b) (db_app b) (db_device b) sm cm (bt_events b).
Definition with_ev e b := mkBt (bt_gap_cb b) (bt_gatt_cb b) (bt_min b) (bt_max b) (db_init b) (db_gap_cb b) (db_gatt_cb b) (db_adapter b) (db_adv b) (db_app b) (db_device b) (serv_map b) (char_map b) (bt_events b ++ [e]).

Record bsys (K : Type) := BSys { bs_lib : K; bs_bt : bt }.
Arguments BSys {K}. Arguments bs_lib {K}. Arguments bs_bt {K}.

(** ** Texts of UUIDs *)

Definition lhex (d : Z) : Z := if d <? 10 then 48 + d else 87 + d.
(** [%0<w>x] of a number below [16 ^ w] *)
Fixpoint hexn (w : nat) (n : Z) : list Z := match w with O => [] | S w => hexn w (n / 16) ++ [lhex (n mod 16)] end.
Definition uuid_tail : list Z := lit "-0000-1000-8000-00805f9b34fb".
Definition uuid16 (n : Z) : list Z := lit "0000" ++ hexn 4 n ++ uuid_tail.
Definition uuid128_text (b : list Z) : list Z :=
  let byte i := hexn 2 (b !!! i) in
  byte 15%nat ++ byte 14%nat ++ byte 13%nat ++ byte 12%nat ++ [45] ++ byte 11%nat ++ byte 10%nat ++ [45] ++ byte 9%nat ++ byte 8%nat ++ [45] ++ byte 7%nat ++ byte 6%nat ++ [45] ++
  byte 5%nat ++ byte 4%nat ++ byte 3%nat ++ byte 2%nat ++ byte 1%nat ++ byte 0%nat.

Section Bt.
Context {K : Type} {BZ : Bluez K}.
Local Abbreviation W := (M (bsys K)).

Definition lib (c : bcall) : W Z := fun s => match bz c (bs_lib s) with Ret r k => Ret r (BSys k (bs_bt s)) | Fault => Fault | Diverge => Diverge end.
(** Calls whose results are not looked at. *)
Fixpoint libs (l : list bcall) : W unit := match l with [] => ret tt | c :: l => _ <- lib c ;; libs l end.
Definition upd_bt (f : bt -> bt) : W unit := modify (fun s => BSys (bs_lib s) (f (bs_bt s))).
(** A call of a callback unless it is null. *)
Definition call_cb (cb : Z) (e : ble_event) : W unit := if cb =? 0 then ret tt else upd_bt (with_ev e).

Definition uuid_to_string (p_uuid : TKL_BLE_UUID_T) : W (option (list Z)) :=
  p <- lib (Malloc 40) ;;
  if p =? 0 then ret None
  else
    ret (match p_uuid with
         | TKL_BLE_UUID_TYPE_16 n => Some (take 39 (uuid16 n))
         | TKL_BLE_UUID_TYPE_32 n => Some (take 39 (lit "0000" ++ hexn 8 n ++ uuid_tail))
         | TKL_BLE_UUID_TYPE_128 b => Some (take 39 (uuid128_text b))
         | TKL_BLE_UUID_TYPE_OTHER => None
         end).

(** ** Handles of characteristics *)

Definition _add_serv_info (serv_uuid_str : list Z) : W Z :=
  b <- gets bs_bt ;;
  let serv_count := Z.of_nat (length (serv_map b)) in
  if (length (serv_map b) <? MAX_SERVS)%nat then
    upd_bt (with_maps (serv_map b ++ [mkEntry serv_uuid_str serv_count]) (char_map b)) ;;; ret serv_count
  else ret 0xFFFF.

Definition _add_char_info (char_uuid_str : list Z) : W Z :=
  b <- gets bs_bt ;;
  let characteristic_index := u16 (Z.of_nat (length (char_map b)) + Z.of_nat (length (serv_map b)) * 10) in
  if (length (char_map b) <? MAX_CHARS)%nat then
    upd_bt (with_maps (serv_map b) (char_map b ++ [mkEntry char_uuid_str characteristic_index])) ;;; ret characteristic_index
  else ret 0xFFFF.

Fixpoint by_uuid (m : list ServCharMapEntry) (u : list Z) : Z :=
  match m with [] => 0xFFFF | e :: m => if bool_decide (uuid_str e = u) then index e else by_uuid m u end.
Definition _get_serv_index_by_uuid (u : list Z) : W Z := b <- gets bs_bt ;; ret (by_uuid (serv_map b) u).
Definition _get_char_index_by_uuid (u : list Z) : W Z := b <- gets bs_bt ;; ret (by_uuid (char_map b) u).

Fixpoint by_index (m : list ServCharMapEntry) (i : Z) : option (list Z) :=
  match m with [] => None | e :: m => if index e =? i then Some (uuid_str e) else by_index m i end.
Definition _get_serv_uuid_by_char_index (char_index : Z) : W (option (list Z)) := b <- gets bs_bt ;; ret (by_index (serv_map b) (char_index / 10)).
Definition _get_char_uuid_by_char_index (char_index : Z) : W (option (list Z)) := b <- gets bs_bt ;; ret (by_index (char_map b) char_index).

(** ** GATT *)

(** The characteristics of a service from number [j] on; the result has the numbers of those
    that were added, with their text and the handle that was stored for them. *)
Fixpoint char_loop (svc : list Z) (j : nat) (cs : list TKL_BLE_CHAR_PARAMS_T) : W (list (nat * list Z * Z)) :=
  match cs with
  | [] => ret []
  | c :: cs =>
    u <- uuid_to_string (ch_uuid c) ;;
    match u with
    | None => char_loop svc (S j) cs
    | Some u =>
      b <- gets bs_bt ;;
      r <- lib (AddCharacteristic (db_app b) svc u (ch_property c)) ;;
      if negb (r =? 0) then char_loop svc (S j) cs
      else
        h <- _add_char_info u ;;
        rest <- char_loop svc (S j) cs ;;
        ret ((j, u, h) :: rest)
    end
  end.

(** The services that were added, with their characteristics. *)
Fixpoint svc_loop (i : nat) (svcs : list TKL_BLE_SERVICE_PARAMS_T) : W (list (nat * list Z * list (nat * list Z * Z))) :=
  match svcs with
  | [] => ret []
  | s :: svcs =>
    u <- uuid_to_string (sv_uuid s) ;;
    match u with
    | None => svc_loop (S i) svcs
    | Some u =>
      b <- gets bs_bt ;;
      r <- lib (AddService (db_app b) u) ;;
      if negb (r =? 0) then svc_loop (S i) svcs
      else
        cs <- char_loop u 0 (sv_char s) ;;
        _ <- _add_serv_info u ;;
        rest <- svc_loop (S i) svcs ;;
        ret ((i, u, cs) :: rest)
    end
  end.

(** [None] when there is no application. *)
Definition bluez_inc_add_gatt (p_service : list TKL_BLE_SERVICE_PARAMS_T) : W (option (list (nat * list Z * list (nat * list Z * Z)))) :=
  b <- gets bs_bt ;;
  app <- lib (CreateApplication (db_adapter b)) ;;
  upd_bt (with_app app) ;;;
  if app =? 0 then ret None
  else
    r <- svc_loop 0 p_service ;;
    libs [SetCharReadCb app; SetCharWriteCb app; SetCharStartNotifyCb app; SetCharStopNotifyCb app; SetCharUpdatedCb app; RegisterApplication (db_adapter b) app] ;;;
    ret (Some r).

Definition bluez_inc_gatt_value_notify (conn_handle char_handle : Z) (data : list Z) : W Z :=
  s <- _get_serv_uuid_by_char_index char_handle ;;
  c <- _get_char_uuid_by_char_index char_handle ;;
  match s, c with
  | Some s, Some c => b <- gets bs_bt ;; _ <- lib (NotifyValue (db_app b) s c data) ;; ret 0
  | _, _ => ret (-2)
  end.

(** ** Callbacks from BlueZ *)

Definition on_central_state_changed (adapter device : Z) (state : ConnectionState) : W unit :=
  (match state with
   | BINC_CONNECTED => upd_bt (with_device device) ;;; b <- gets bs_bt ;; _ <- lib (StopAdvertising adapter (db_adv b)) ;; ret tt
   | BINC_DISCONNECTED => upd_bt (with_device 0)
   | _ => ret tt
   end) ;;;
  b <- gets bs_bt ;;
  call_cb (db_gap_cb b) (GapEvent (db_gap_cb b)
    (match state with BINC_CONNECTED => TKL_BLE_GAP_EVT_CONNECT | BINC_DISCONNECTED => TKL_BLE_GAP_EVT_DISCONNECT | _ => GapZero end) BLE_CONN_HANDLE).

Definition read_value : list Z := [0x06; 0x6f; 0x01; 0x00; 0xff; 0xe6; 0x07; 0x03; 0x03; 0x10; 0x04; 0x00; 0x01].
Definition on_local_char_read (service_uuid char_uuid : list Z) : W unit :=
  _ <- lib (SetCharValue service_uuid char_uuid read_value) ;;
  h <- _get_char_index_by_uuid char_uuid ;;
  b <- gets bs_bt ;;
  call_cb (db_gatt_cb b) (GattRead (db_gatt_cb b) h).

Definition on_local_char_write (service_uuid char_uuid data : list Z) : W unit :=
  h <- _get_char_index_by_uuid char_uuid ;;
  b <- gets bs_bt ;;
  call_cb (db_gatt_cb b) (GattWrite (db_gatt_cb b) h data).

(** ** Starting and advertising *)

(** The thread runs the main loop of the bindings, which makes their callbacks. *)
Definition bluez_inc_init (gap_evt_cb gatt_evt_cb : Z) : W unit :=
  b <- gets bs_bt ;;
  if db_init b then ret tt
  else
    upd_bt (with_db gap_evt_cb gatt_evt_cb) ;;;
    bus <- lib BusGet ;;
    libs [CatchInterrupt; MainLoopNew] ;;;
    adapter <- lib (AdapterGetDefault bus) ;;
    upd_bt (with_adapter adapter) ;;;
    (if adapter =? 0 then ret tt
     else
       _ <- lib (SetPoweredCb adapter) ;;
       on <- lib (AdapterGetPowered adapter) ;;
       (if on =? 0 then libs [AdapterPowerOn adapter] else ret tt) ;;;
       libs [SetCentralCb adapter]) ;;;
    libs [StartThread].

(** What is released on an interrupt, before the process ends; there is never an agent. *)
Definition callback (data : Z) : W unit :=
  b <- gets bs_bt ;;
  (if negb (db_adapter b =? 0) then
     (if negb (db_app b =? 0) then libs [UnregisterApplication (db_adapter b) (db_app b); ApplicationFree (db_app b)] ;;; upd_bt (with_app 0) else ret tt) ;;;
     (if negb (db_adv b =? 0) then libs [StopAdvertising (db_adapter b) (db_adv b); AdvertisementFree (db_adv b)] ;;; upd_bt (with_adv 0) else ret tt) ;;;
     libs [AdapterFree (db_adapter b)] ;;; upd_bt (with_adapter 0)
   else
     (if negb (db_app b =? 0) then libs [ApplicationFree (db_app b)] ;;; upd_bt (with_app 0) else ret tt) ;;;
     (if negb (db_adv b =? 0) then libs [AdvertisementFree (db_adv b)] ;;; upd_bt (with_adv 0) else ret tt)) ;;;
  (if negb (data =? 0) then libs [MainLoopQuit data] else ret tt).

Definition bluez_inc_deinit : W unit := ret tt.

(** The advertisement in use; zero when there is none and none can be made. *)
Definition get_advertisement : W Z :=
  b <- gets bs_bt ;;
  adv <- lib (GetAdvertisement (db_adapter b)) ;;
  upd_bt (with_adv adv) ;;;
  if adv =? 0 then adv <- lib AdvertisementCreate ;; upd_bt (with_adv adv) ;;; ret adv else ret adv.

Definition bluez_inc_start_adv : W unit :=
  adv <- get_advertisement ;;
  if adv =? 0 then ret tt
  else b <- gets bs_bt ;; _ <- lib (StartAdvertising (db_adapter b) adv) ;; ret tt.

Definition bluez_inc_disconnect : W unit :=
  b <- gets bs_bt ;;
  if negb (db_device b =? 0) then _ <- lib (DeviceDisconnect (db_device b)) ;; ret tt else ret tt.

(** ** Advertising data *)

Definition rd8 (buf : list Z) (i : nat) : W Z := match buf !! i with Some x => ret x | None => fault end.
Definition rd16 (buf : list Z) (i : nat) : W Z := a <- rd8 buf i ;; b <- rd8 buf (S i) ;; ret (a + 256 * b).
(** The bytes from [i] on, [n] of them. *)
Definition rdn (buf : list Z) (i n : nat) : W (list Z) := if (i + n <=? length buf)%nat then ret (take n (drop i buf)) else fault.

Record ad_state := mkAd { ad_uuids : list (list Z); ad_name : option (list Z); ad_data : list (list Z * list Z) }.

(** [for (i = 0; i < payload_len; i += 2)] *)
Fixpoint uuid_loop (fuel : nat) (buf : list Z) (pos n : nat) : W (list (list Z)) :=
  match fuel with
  | O => ret []
  | S fuel =>
    if (0 <? n)%nat then x <- rd16 buf pos ;; r <- uuid_loop fuel buf (pos + 2) (n - 2) ;; ret (uuid16 x :: r)
    else ret []
  end.

(** [g_hash_table_insert] *)
Fixpoint hash_insert (l : list (list Z * list Z)) (k v : list Z) : list (list Z * list Z) :=
  match l with [] => [(k, v)] | (k', v') :: l => if bool_decide (k' = k) then (k, v) :: l else (k', v') :: hash_insert l k v end.

(** One structure of the advertising data: its type, the position and the length of its payload. *)
Definition ad_structure (adv : Z) (buf : list Z) (type : Z) (pos n : nat) (st : ad_state) : W ad_state :=
  if type =? 0x01 then
    if (1 <=? n)%nat then flags <- rd8 buf pos ;; _ <- lib (SetDiscoverable adv (negb (Z.land flags 2 =? 0))) ;; ret st else ret st
  else if (type =? 0x02) || (type =? 0x03) then
    us <- uuid_loop n buf pos n ;; ret (mkAd (ad_uuids st ++ us) (ad_name st) (ad_data st))
  else if (type =? 0x08) || (type =? 0x09) then
    match ad_name st with
    | Some _ => ret st
    | None => w <- rdn buf pos n ;; ret (mkAd (ad_uuids st) (Some (cstr w)) (ad_data st))
    end
  else if type =? 0xFF then
    if (2 <=? n)%nat then id <- rd16 buf pos ;; d <- rdn buf (pos + 2) (n - 2) ;; _ <- lib (SetManufacturer adv id d) ;; ret st else ret st
  else if type =? 0x16 then
    if (2 <=? n)%nat then id <- rd16 buf pos ;; d <- rdn buf (pos + 2) (n - 2) ;; ret (mkAd (ad_uuids st) (ad_name st) (hash_insert (ad_data st) (uuid16 id) d)) else ret st
  else if type =? 0x19 then
    if (n =? 2)%nat then x <- rd16 buf pos ;; _ <- lib (SetAppearance adv x) ;; ret st else ret st
  else ret st.

Fixpoint ad_loop (fuel : nat) (adv : Z) (buf : list Z) (cursor : nat) (remaining_len : Z) (st : ad_state) : W ad_state :=
  match fuel with
  | O => out_of_fuel
  | S fuel =>
    if 0 <? remaining_len then
      ad_len <- rd8 buf cursor ;;
      if (ad_len =? 0) || (remaining_len <=? ad_len) then ret st
      else
        ad_type <- rd8 buf (S cursor) ;;
        st <- ad_structure adv buf ad_type (cursor + 2) (Z.to_nat (ad_len - 1)) st ;;
        ad_loop fuel adv buf (cursor + Z.to_nat (ad_len + 1)) (u16 (remaining_len - (ad_len + 1))) st
    else ret st
  end.

Fixpoint set_service_data (adv : Z) (l : list (list Z * list Z)) : W unit :=
  match l with [] => ret tt | (u, d) :: l => _ <- lib (SetServiceData adv u d) ;; set_service_data adv l end.

(** [p_data]: the bytes at the pointer, and the length in the structure; [None] for a null
    pointer. *)
Definition parse_and_update_adv_data (adv : Z) (p_data : option (list Z * Z)) : W unit :=
  match p_data with
  | None => ret tt
  | Some (buf, len) =>
    if len =? 0 then ret tt
    else
      st <- ad_loop (S (Z.to_nat len)) adv buf 0 len (mkAd [] None []) ;;
      (match ad_name st with Some w => _ <- lib (SetLocalName adv w) ;; ret tt | None => ret tt end) ;;;
      (match ad_uuids st with [] => ret tt | us => _ <- lib (SetServices adv us) ;; ret tt end) ;;;
      set_service_data adv (g_hash_order (ad_data st))
  end.

Definition bluez_inc_update_adv (p_adv p_scan_rsp : option (list Z * Z)) : W unit :=
  adv <- get_advertisement ;;
  if adv =? 0 then ret tt
  else
    parse_and_update_adv_data adv p_adv ;;;
    parse_and_update_adv_data adv p_scan_rsp ;;;
    _ <- lib (SetInterval adv 20 100) ;;
    b <- gets bs_bt ;;
    _ <- lib (StartAdvertising (db_adapter b) adv) ;;
    ret tt.

(** ** HCI *)

(** A request to the controller, with a device of its own. *)
Definition hci_request (ocf : Z) (param : W (list Z)) : W OPERATE_RET :=
  device <- lib HciOpen ;;
  if device <? 0 then ret OPRT_COM_ERROR
  else
    param <- param ;;
    r <- lib (HciSend device ocf param) ;;
    if negb (r =? 0) then _ <- lib (HciClose device) ;; ret OPRT_RECV_ERR
    else _ <- lib (HciClose device) ;; ret OPRT_OK.

Definition le16 (n : Z) : list Z := [n mod 256; n / 256].
(** Intervals, type, addresses, channels and filter; the type is always 1. *)
Definition tuya_hci_le_set_adv_params (min_interval max_interval advtype : Z) : W OPERATE_RET :=
  let advtype := 1 in
  hci_request OCF_LE_SET_ADVERTISING_PARAMETERS (ret (le16 min_interval ++ le16 max_interval ++ [advtype] ++ replicate 8 0 ++ [7; 0])).

Definition tuya_hci_le_set_adv_enable (enable : bool) : W OPERATE_RET :=
  hci_request OCF_LE_SET_ADVERTISE_ENABLE (ret [if enable then 1 else 0]).

(** A length and 31 bytes, of which [len] are copied. *)
Definition adv_data_cp (data : list Z) (len : Z) : W (list Z) :=
  if (Z.of_nat (length data) <? len) || (31 <? len) then fault
  else ret ([len] ++ take (Z.to_nat len) data ++ replicate (31 - Z.to_nat len) 0).

Definition tuya_hci_le_set_adv_data (data : option (list Z)) (len : Z) : W OPERATE_RET :=
  match data with
  | None => ret OPRT_INVALID_PARM
  | Some data => if len =? 0 then ret OPRT_INVALID_PARM else hci_request OCF_LE_SET_ADVERTISING_DATA (adv_data_cp data len)
  end.

Definition tuya_hci_le_set_scan_rsp_data (data : option (list Z)) (len : Z) : W OPERATE_RET :=
  match data with
  | None => ret OPRT_INVALID_PARM
  | Some data => if len =? 0 then ret OPRT_INVALID_PARM else hci_request OCF_LE_SET_SCAN_RESPONSE_DATA (adv_data_cp data len)
  end.

(** ** The adapter *)

Definition tuya_gap_init_callback : W unit :=
  b <- gets bs_bt ;; call_cb (bt_gap_cb b) (GapEvent (bt_gap_cb b) TKL_BLE_EVT_STACK_INIT 0).

Definition tkl_ble_stack_init (role : Z) : W OPERATE_RET :=
  b <- gets bs_bt ;;
  bluez_inc_init (bt_gap_cb b) (bt_gatt_cb b) ;;;
  tuya_gap_init_callback ;;; ret OPRT_OK.

Definition tkl_ble_stack_deinit (role : Z) : W OPERATE_RET := bluez_inc_deinit ;;; ret OPRT_OK.

Definition tkl_ble_gap_callback_register (gap_evt : Z) : W OPERATE_RET :=
  b <- gets bs_bt ;; upd_bt (with_cbs gap_evt (bt_gatt_cb b)) ;;; ret OPRT_OK.
Definition tkl_ble_gatt_callback_register (gatt_evt : Z) : W OPERATE_RET :=
  b <- gets bs_bt ;; upd_bt (with_cbs (bt_gap_cb b) gatt_evt) ;;; ret OPRT_OK.

(** BlueZ has started to advertise: the intervals are set while it is switched off. *)
Definition binc_start_adv_success_cb : W unit :=
  _ <- tuya_hci_le_set_adv_enable false ;;
  b <- gets bs_bt ;;
  _ <- tuya_hci_le_set_adv_params (bt_min b) (bt_max b) 0 ;;
  _ <- tuya_hci_le_set_adv_enable true ;;
  ret tt.

Definition tkl_ble_gap_adv_start (adv_interval_min adv_interval_max : Z) : W OPERATE_RET :=
  upd_bt (with_interval adv_interval_min adv_interval_max) ;;;
  bluez_inc_start_adv ;;; ret OPRT_OK.

Definition tkl_ble_gap_adv_stop : W OPERATE_RET := _ <- tuya_hci_le_set_adv_enable false ;; ret OPRT_OK.

(** A null pointer to one of the structures is read; the results are not looked at. *)
Definition tkl_ble_gap_adv_rsp_data_set (p_adv p_scan_rsp : option (option (list Z) * Z)) : W OPERATE_RET :=
  match p_adv with
  | None => fault
  | Some (d, len) =>
    _ <- tuya_hci_le_set_adv_data d (u8 len) ;;
    match p_scan_rsp with
    | None => fault
    | Some (d, len) => _ <- tuya_hci_le_set_scan_rsp_data d (u8 len) ;; ret OPRT_OK
    end
  end.
Definition tkl_ble_gap_adv_rsp_data_update (p_adv p_scan_rsp : option (option (list Z) * Z)) : W OPERATE_RET := tkl_ble_gap_adv_rsp_data_set p_adv p_scan_rsp.

Definition tkl_ble_gap_disconnect (conn_handle hci_reason : Z) : W OPERATE_RET := bluez_inc_disconnect ;;; ret OPRT_OK.

Definition tkl_ble_gatts_service_add (p_service : list TKL_BLE_SERVICE_PARAMS_T) : W (OPERATE_RET * option (list (nat * list Z * list (nat * list Z * Z)))) :=
  b <- gets bs_bt ;;
  bluez_inc_init (bt_gap_cb b) (bt_gatt_cb b) ;;;
  r <- bluez_inc_add_gatt p_service ;;
  ret (OPRT_OK, r).

Definition tkl_ble_gatts_value_notify (conn_handle char_handle : Z) (data : list Z) : W Z := bluez_inc_gatt_value_notify conn_handle char_handle data.
End Bt.

(** ** A controller *)

(** It takes everything; devices and objects have the number 7. *)
Definition demo_answer (c : bcall) : Z := match c with AddService _ _ | AddCharacteristic _ _ _ _ | HciSend _ _ _ => 0 | _ => 7 end.
#[export] Instance demo_bluez : Bluez (list (bcall * Z)).
Proof.
  refine {| bz c k := Ret (demo_answer c) (k ++ [(c, demo_answer c)]); bz_log k := k; g_hash_order l := l |}; [done|done].
Defined.
Definition demo_bt0 : bsys (list (bcall * Z)) := BSys [] bt0.
