(* ===== verification/TklBtProps.v ===== *)
(** * Properties of the Bluetooth adapter

    Which service and characteristic a handle stands for, what is made of advertising data,
    the requests to the controller, and the callbacks. *)

From Stdlib Require Import String.
From S2P Require Import Prelude WpaParse TklBt.

Section Props.
Context {K : Type} {BZ : Bluez K}.
Local Abbreviation S_ := (bsys K).

(** ** Calls *)

(** The calls of [rs] were made and answered as it says, and the variables are [b] now. *)
Definition answered (s : S_) (rs : list (bcall * Z)) (b : bt) (s' : S_) : Prop := bz_log (bs_lib s') = bz_log (bs_lib s) ++ rs /\ bs_bt s' = b.
Lemma answered_trans s1 s2 s3 l l' b b' : answered s1 l b s2 -> answered s2 l' b' s3 -> answered s1 (l ++ l') b' s3.
Proof. intros [E1 _] [E2 E]. split; [by rewrite E2, E1, app_assoc|exact E]. Qed.

(** The calls [l] were made, for functions that use none of the answers. *)
Definition called (s : S_) (l : list bcall) (b : bt) (s' : S_) : Prop := exists rs, rs.*1 = l /\ answered s rs b s'.

Lemma called_refl s : called s [] (bs_bt s) s.
Proof. exists []. split; [done|]. split; [by rewrite app_nil_r|done]. Qed.
Lemma called_trans s1 s2 s3 l l' b b' : called s1 l b s2 -> called s2 l' b' s3 -> called s1 (l ++ l') b' s3.
Proof. intros (r1 & <- & H1) (r2 & <- & H2). exists (r1 ++ r2). split; [by rewrite fmap_app|exact (answered_trans _ _ _ _ _ _ _ H1 H2)]. Qed.
Lemma called_bt s l b s' : called s l b s' -> bs_bt s' = b.
Proof. by intros (? & _ & _ & ->). Qed.

Lemma lib_answered c (s : S_) (Q : Z -> S_ -> Prop) : (forall r s', answered s [(c, r)] (bs_bt s) s' -> Q r s') -> wp (lib c) Q s.
Proof.
  intros HQ. unfold wp, lib. pose proof (bz_ok c (bs_lib s)) as H. unfold wp in H. destruct (bz c (bs_lib s)) as [r k| |]; [|done|done]. by apply HQ.
Qed.

Lemma lib_spec c (s : S_) (Q : Z -> S_ -> Prop) : (forall r s', called s [c] (bs_bt s) s' -> Q r s') -> wp (lib c) Q s.
Proof. intros HQ. apply lib_answered. intros r s' H. apply HQ. by exists [(c, r)]. Qed.

Lemma upd_bt_spec f (s : S_) (Q : unit -> S_ -> Prop) : (forall s', called s [] (f (bs_bt s)) s' -> Q tt s') -> wp (upd_bt f) Q s.
Proof. intros HQ. apply wp_modify, HQ. exists []. split; [done|]. split; [by rewrite app_nil_r|done]. Qed.

Lemma libs_spec l : forall (s : S_) (Q : unit -> S_ -> Prop), (forall s', called s l (bs_bt s) s' -> Q tt s') -> wp (libs l) Q s.
Proof.
  induction l as [|c l IH]; intros s Q HQ; cbn [libs]; [apply wp_ret, HQ, called_refl|]. apply wp_bind, lib_spec. intros _ s1 H1. apply IH. intros s2 H2. apply HQ. rewrite (called_bt _ _ _ _ H1) in H2. exact (called_trans _ _ _ [c] l _ _ H1 H2).
Qed.

(** ** Handles *)

(** What was added: for each service its number in the request, its text, and its
    characteristics with their number, text and handle. *)
Definition row : Type := nat * list Z * list (nat * list Z * Z).
(** All characteristics in order: the number of the service among those added, its text, the
    text of the characteristic and its handle. *)
Fixpoint flat (i : nat) (r : list row) : list (nat * list Z * list Z * Z) :=
  match r with [] => [] | x :: r => ((fun y => (i, x.1.2, y.1.2, y.2)) <$> x.2) ++ flat (S i) r end.

Lemma flat_app i r1 r2 : flat i (r1 ++ r2) = flat i r1 ++ flat (i + length r1) r2.
Proof. revert i. induction r1 as [|x r1 IH]; intros i; cbn [flat app length]; [by rewrite Nat.add_0_r|]. rewrite IH, app_assoc. do 2 f_equal. lia. Qed.

Lemma flat_lower i r c y : flat i r !! c = Some y -> (i <= y.1.1.1 < i + length r)%nat /\ exists x, r !! (y.1.1.1 - i)%nat = Some x /\ x.1.2 = y.1.1.2.
Proof.
  revert i c. induction r as [|x r IH]; intros i c; cbn [flat length]; [done|]. rewrite lookup_app_Some. intros [H|[_ H]].
  - rewrite list_lookup_fmap_Some in H. destruct H as (z & -> & _). cbn. split; [lia|]. rewrite Nat.sub_diag. by exists x.
  - apply IH in H as ([H1 H2] & z & H3 & H4). split; [lia|]. exists z. split; [|done]. replace (y.1.1.1 - i)%nat with (S (y.1.1.1 - S i)) by lia. done.
Qed.

Lemma flat_sorted i r c c' y y' : (c <= c')%nat -> flat i r !! c = Some y -> flat i r !! c' = Some y' -> (y.1.1.1 <= y'.1.1.1)%nat.
Proof.
  revert i c c'. induction r as [|x r IH]; intros i c c' Hc; cbn [flat]; [done|]. rewrite !lookup_app_Some. intros [H|[Hl H]] [H'|[Hl' H']].
  - rewrite list_lookup_fmap_Some in H, H'. destruct H as (? & -> & _), H' as (? & -> & _). done.
  - rewrite list_lookup_fmap_Some in H. destruct H as (? & -> & _). apply flat_lower in H' as [H' _]. cbn. lia.
  - apply lookup_lt_Some in H'. lia.
  - eapply (IH (S i)); [|exact H|exact H']. lia.
Qed.

Definition handle_of (c i : nat) : Z := if (c <? 32)%nat then Z.of_nat c + 10 * Z.of_nat (Nat.min i 10) else 0xFFFF.
Definition entry (c : nat) (y : nat * list Z * list Z * Z) : ServCharMapEntry := mkEntry y.1.2 (Z.of_nat c + 10 * Z.of_nat (Nat.min y.1.1.1 10)).
Definition char_table (l : list (nat * list Z * list Z * Z)) : list ServCharMapEntry := take 32 (imap entry l).
Definition serv_table (r : list row) : list ServCharMapEntry := take 10 (imap (fun i x => mkEntry x.1.2 (Z.of_nat i)) r).

Lemma char_table_length l : length (char_table l) = Nat.min 32 (length l).
Proof. unfold char_table. by rewrite length_take, length_imap. Qed.
Lemma serv_table_length r : length (serv_table r) = Nat.min 10 (length r).
Proof. unfold serv_table. by rewrite length_take, length_imap. Qed.

Lemma take_snoc {A} n (l : list A) x : take n (l ++ [x]) = if (length l <? n)%nat then take n l ++ [x] else take n l.
Proof.
  destruct (Nat.ltb_spec (length l) n).
  - rewrite !take_ge by (rewrite ?length_app; cbn; lia). done.
  - by rewrite take_app_le by lia.
Qed.
Lemma char_table_snoc l y : char_table (l ++ [y]) = if (length l <? 32)%nat then char_table l ++ [entry (length l) y] else char_table l.
Proof. unfold char_table. rewrite imap_app. cbn [imap]. rewrite Nat.add_0_r, take_snoc, length_imap. done. Qed.
Lemma serv_table_snoc r x : serv_table (r ++ [x]) = if (length r <? 10)%nat then serv_table r ++ [mkEntry x.1.2 (Z.of_nat (length r))] else serv_table r.
Proof. unfold serv_table. rewrite imap_app. cbn [imap]. rewrite Nat.add_0_r, take_snoc, length_imap. done. Qed.

(** The tables after the services of [r]; the handles are those the tables give. *)
Definition tables (r : list row) (l : list (nat * list Z * list Z * Z)) (b : bt) : Prop := serv_map b = serv_table r /\ char_map b = char_table l.
Definition numbered (l : list (nat * list Z * list Z * Z)) : Prop := forall c y, l !! c = Some y -> y.2 = handle_of c y.1.1.1.
(** Only the tables have changed. *)
Definition keeps_rest (b b' : bt) : Prop := b' = with_maps (serv_map b') (char_map b') b.

Lemma keeps_refl b : keeps_rest b b.
Proof. by destruct b. Qed.
Lemma keeps_trans b1 b2 b3 : keeps_rest b1 b2 -> keeps_rest b2 b3 -> keeps_rest b1 b3.
Proof. unfold keeps_rest. intros E1 E2. rewrite E2, E1. by destruct b1. Qed.

Lemma uuid_spec u (s : S_) (Q : option (list Z) -> S_ -> Prop) : (forall o s', bs_bt s' = bs_bt s -> Q o s') -> wp (uuid_to_string u) Q s.
Proof. intros HQ. unfold uuid_to_string. apply wp_bind, lib_spec. intros p s' Hc%called_bt. destruct (p =? 0); apply wp_ret; by apply HQ. Qed.

Lemma add_char_spec r l svc u (s : S_) (Q : Z -> S_ -> Prop) : tables r l (bs_bt s) -> (forall h s', h = handle_of (length l) (length r) -> tables r (l ++ [(length r, svc, u, h)]) (bs_bt s') -> keeps_rest (bs_bt s) (bs_bt s') -> Q h s') -> wp (_add_char_info u) Q s.
Proof.
  intros [Es Ec] HQ. unfold _add_char_info. apply wp_bind, wp_gets. rewrite Es, Ec, char_table_length, serv_table_length. cbv zeta. replace (Nat.min 32 (length l) <? MAX_CHARS)%nat with (length l <? 32)%nat by (unfold MAX_CHARS; destruct (Nat.ltb_spec (length l) 32), (Nat.ltb_spec (Nat.min 32 (length l)) 32); (done || lia)).
  unfold handle_of, tables in HQ. setoid_rewrite char_table_snoc in HQ. destruct (Nat.ltb_spec (length l) 32) as [Hl|Hl].
  - rewrite (Nat.min_r 32) by lia. assert (u16 (Z.of_nat (length l) + Z.of_nat (Nat.min 10 (length r)) * 10) = Z.of_nat (length l) + 10 * Z.of_nat (Nat.min (length r) 10)) as -> by (rewrite (wrap_small 16); [lia|change (2 ^ 16) with 65536; lia]).
    apply wp_bind, wp_modify, wp_ret, HQ; [done|done|]. by destruct (bs_bt s).
  - apply wp_ret, HQ; [done|done|apply keeps_refl].
Qed.

Lemma add_serv_spec r l x (s : S_) (Q : Z -> S_ -> Prop) : tables r l (bs_bt s) -> (forall h s', tables (r ++ [x]) l (bs_bt s') -> keeps_rest (bs_bt s) (bs_bt s') -> Q h s') -> wp (_add_serv_info x.1.2) Q s.
Proof.
  intros [Es Ec] HQ. unfold _add_serv_info. apply wp_bind, wp_gets. rewrite Es, serv_table_length. cbv zeta. replace (Nat.min 10 (length r) <? MAX_SERVS)%nat with (length r <? 10)%nat by (unfold MAX_SERVS; destruct (Nat.ltb_spec (length r) 10), (Nat.ltb_spec (Nat.min 10 (length r)) 10); (done || lia)).
  unfold tables in HQ. setoid_rewrite serv_table_snoc in HQ. destruct (Nat.ltb_spec (length r) 10).
  - rewrite Nat.min_r by lia. apply wp_bind, wp_modify, wp_ret. eapply HQ; [done|]. by destruct (bs_bt s).
  - apply wp_ret. eapply HQ; [done|apply keeps_refl].
Qed.

Lemma numbered_snoc l y : numbered l -> y.2 = handle_of (length l) y.1.1.1 -> numbered (l ++ [y]).
Proof.
  intros Hl Hy c z [H|[Hc H]]%lookup_app_Some; [by apply Hl|]. destruct (c - length l)%nat eqn:E; [|done]. injection H as <-. replace c with (length l) by lia. done.
Qed.

Lemma char_loop_spec r svc cs : forall j l (s : S_) (Q : list (nat * list Z * Z) -> S_ -> Prop), tables r l (bs_bt s) -> numbered l ->
  (forall ys s' l', l' = l ++ ((fun y => (length r, svc, y.1.2, y.2)) <$> ys) -> tables r l' (bs_bt s') -> numbered l' -> keeps_rest (bs_bt s) (bs_bt s') -> Q ys s') -> wp (char_loop svc j cs) Q s.
Proof.
  induction cs as [|c cs IH]; intros j l s Q Ht Hn HQ; cbn [char_loop]; [eapply wp_ret, (HQ [] _ l); [by rewrite app_nil_r|done|done|apply keeps_refl]|]. apply wp_bind, uuid_spec. intros o s1 E1. destruct o as [u|]; [|eapply IH; rewrite ?E1; done].
  apply wp_bind, wp_gets, wp_bind, lib_spec. intros x s2 E2%called_bt. rewrite E1 in E2. destruct (x =? 0); cbn [negb]; [|eapply IH; rewrite ?E2; done]. apply wp_bind, (add_char_spec r l svc); [by rewrite E2|]. intros h s3 Eh Ht3 Hk3. rewrite E2 in Hk3.
  apply wp_bind, (IH _ (l ++ [(length r, svc, u, h)])); [done|by apply numbered_snoc|]. intros ys s4 l' El Ht4 Hn4 Hk4. eapply wp_ret, HQ; [|exact Ht4|done|by eapply keeps_trans]. by rewrite El, <-app_assoc.
Qed.

Lemma svc_loop_spec svcs : forall i r (s : S_) (Q : list row -> S_ -> Prop), tables r (flat 0 r) (bs_bt s) -> numbered (flat 0 r) ->
  (forall xs s', tables (r ++ xs) (flat 0 (r ++ xs)) (bs_bt s') -> numbered (flat 0 (r ++ xs)) -> keeps_rest (bs_bt s) (bs_bt s') -> Q xs s') -> wp (svc_loop i svcs) Q s.
Proof.
  induction svcs as [|v svcs IH]; intros i r s Q Ht Hn HQ; cbn [svc_loop]; [apply wp_ret, (HQ []); rewrite ?app_nil_r; (done || apply keeps_refl)|]. apply wp_bind, uuid_spec. intros o s1 E1. destruct o as [u|]; [|eapply IH; rewrite ?E1; done].
  apply wp_bind, wp_gets, wp_bind, lib_spec. intros x s2 E2%called_bt. rewrite E1 in E2. destruct (x =? 0); cbn [negb]; [|eapply IH; rewrite ?E2; done]. apply wp_bind, (char_loop_spec r u _ _ (flat 0 r)); [by rewrite E2|done|]. intros ys s3 l' El' Ht3 Hn3 Hk3. rewrite E2 in Hk3.
  assert (flat 0 (r ++ [(i, u, ys)]) = l') as El by (rewrite flat_app, El'; cbn [flat fst snd]; by rewrite app_nil_r). apply wp_bind, (add_serv_spec r l' (i, u, ys)); [done|]. intros h s4 Ht4 Hk4. rewrite <-El in Ht4, Hn3. apply wp_bind, (IH _ (r ++ [(i, u, ys)])); [done|done|]. intros xs s5. rewrite <-app_assoc. intros Ht5 Hn5 Hk5. apply wp_ret, HQ; [done|done|]. eapply keeps_trans; [done|]. by eapply keeps_trans.
Qed.

(** ** Looking a handle up *)

Lemma by_index_found m c e : m !! c = Some e -> (forall c' e', (c' < c)%nat -> m !! c' = Some e' -> index e' <> index e) -> by_index m (index e) = Some (uuid_str e).
Proof.
  revert c. induction m as [|e' m IH]; intros c Hc Hlt; [done|]. cbn [by_index]. destruct c as [|c]; [injection Hc as ->; by rewrite Z.eqb_refl|]. rewrite (proj2 (Z.eqb_neq _ _)) by (apply (Hlt 0%nat); [lia|done]). eapply IH; [exact Hc|]. intros c' e2 Hlt' E. apply (Hlt (S c')); [lia|done].
Qed.
Lemma by_index_none m i : (forall c e, m !! c = Some e -> index e <> i) -> by_index m i = None.
Proof. induction m as [|e m IH]; intros H; [done|]. cbn [by_index]. rewrite (proj2 (Z.eqb_neq _ _)) by (apply (H 0%nat); done). apply IH. intros c e' E. by apply (H (S c)). Qed.

Lemma serv_table_lookup r i : serv_table r !! i = if (i <? 10)%nat then (fun x : row => mkEntry x.1.2 (Z.of_nat i)) <$> r !! i else None.
Proof. unfold serv_table. destruct (Nat.ltb_spec i 10); [rewrite lookup_take_lt by done; by rewrite list_lookup_imap|by rewrite lookup_take_ge]. Qed.

Lemma find_service r v : by_index (serv_table r) (Z.of_nat v) = uuid_str <$> serv_table r !! v.
Proof.
  assert (forall c e, serv_table r !! c = Some e -> index e = Z.of_nat c) as Hi. { intros c e E. rewrite serv_table_lookup in E. destruct (c <? 10)%nat; [|done]. destruct (r !! c); [|done]. by injection E as <-. }
  destruct (serv_table r !! v) as [e|] eqn:E.
  - rewrite <-(Hi v e E). eapply by_index_found; [exact E|]. intros c' e' Hc E'. rewrite (Hi _ _ E), (Hi _ _ E'). lia.
  - apply by_index_none. intros c e Ec. rewrite (Hi c e Ec). intros H%Nat2Z.inj. subst c. congruence.
Qed.

Lemma find_char r c y : flat 0 r !! c = Some y -> (c < 32)%nat -> by_index (char_table (flat 0 r)) (Z.of_nat c + 10 * Z.of_nat (Nat.min y.1.1.1 10)) = Some y.1.2.
Proof.
  intros E Hc. assert (forall c' y', flat 0 r !! c' = Some y' -> (c' < 32)%nat -> char_table (flat 0 r) !! c' = Some (entry c' y')) as Ht. { intros c' y' E' H'. unfold char_table. by rewrite lookup_take_lt, list_lookup_imap, E' by done. }
  apply (by_index_found _ c (entry c y)); [by apply Ht|]. intros c' e' Hlt E'. destruct (flat 0 r !! c') as [y'|] eqn:Ey; [|apply lookup_ge_None in Ey; apply lookup_lt_Some in E; lia]. rewrite (Ht c' y') in E' by (done || lia). injection E' as <-. cbn [entry index]. pose proof (flat_sorted 0 r c' c y' y ltac:(lia) Ey E). lia.
Qed.

(** Where a notification goes: the service whose number is that of the characteristic's own
    plus a tenth of the number of the characteristic. *)
Definition target (r : list row) (c i : nat) : option row := if (c <? 32)%nat && (i <? 10)%nat && (i + c / 10 <? 10)%nat then r !! (i + c / 10)%nat else None.

Lemma handle_service r c i : (uuid_str <$> serv_table r !! Z.to_nat (handle_of c i / 10)) = (fun x : row => x.1.2) <$> target r c i.
Proof.
  unfold handle_of, target. destruct (Nat.ltb_spec c 32) as [Hc|Hc]; cbn [andb].
  - assert (Z.to_nat ((Z.of_nat c + 10 * Z.of_nat (Nat.min i 10)) / 10) = (c / 10 + Nat.min i 10)%nat) as ->. { rewrite (Z.mul_comm 10), Z.div_add by lia. rewrite Z2Nat.inj_add by (try apply Z.div_pos; lia). rewrite Nat2Z.id. f_equal. by rewrite Z2Nat.inj_div, Nat2Z.id by lia. }
    rewrite serv_table_lookup. destruct (Nat.ltb_spec i 10) as [Hi|Hi]; cbn [andb].
    + rewrite Nat.min_l by lia. rewrite (Nat.add_comm (c / 10)). destruct (i + c / 10 <? 10)%nat; [|done]. by destruct (r !! (i + c / 10)%nat).
    + rewrite Nat.min_r by lia. rewrite (proj2 (Nat.ltb_ge _ 10)) by lia. done.
  - by rewrite serv_table_lookup.
Qed.

Lemma notify_spec r c y conn data (s : S_) : tables r (flat 0 r) (bs_bt s) -> flat 0 r !! c = Some y ->
  wp (bluez_inc_gatt_value_notify conn (handle_of c y.1.1.1) data) (fun x s' => match target r c y.1.1.1 with
    | Some t => x = 0 /\ called s [NotifyValue (db_app (bs_bt s)) t.1.2 y.1.2 data] (bs_bt s) s'
    | None => x = -2 /\ s' = s end) s.
Proof.
  intros [Es Ec] Ey. unfold bluez_inc_gatt_value_notify, _get_serv_uuid_by_char_index, _get_char_uuid_by_char_index. apply wp_bind, wp_bind, wp_gets, wp_ret, wp_bind, wp_bind, wp_gets, wp_ret. rewrite Es, Ec. pose proof (handle_service r c y.1.1.1) as Hs.
  rewrite <-find_service, Z2Nat.id in Hs by (unfold handle_of; destruct (c <? 32)%nat; apply Z.div_pos; lia). rewrite Hs. destruct (target r c y.1.1.1) as [t|] eqn:Et; cbn [fmap option_fmap option_map]; [|by apply wp_ret].
  assert (c < 32)%nat as Hc by (unfold target in Et; destruct (Nat.ltb_spec c 32); done). unfold handle_of at 1. rewrite (proj2 (Nat.ltb_lt c 32)) by done. rewrite find_char by done. apply wp_bind, wp_gets, wp_bind, lib_spec. intros x s' Hcall. by apply wp_ret.
Qed.

(** C27: the handles of characteristics.  After services were added to an empty server,
    whichever of them and of their characteristics BlueZ took, the [c]-th characteristic that
    was added, in the [i]-th service, has the handle [c + 10 * i] (up to 32 characteristics
    and ten services), and all these handles are different.  A notification for it goes to
    that characteristic of the service with number [i + c / 10]: its own service only when
    at most nine characteristics were added before it, and otherwise another one, or none,
    which is an error. *)
Theorem gatt_notify_target svcs (s : S_) : serv_map (bs_bt s) = [] -> char_map (bs_bt s) = [] ->
  wp (bluez_inc_add_gatt svcs) (fun o s1 => forall r, o = Some r ->
    (forall c y, flat 0 r !! c = Some y -> y.2 = handle_of c y.1.1.1) /\
    (forall c c' y y', flat 0 r !! c = Some y -> flat 0 r !! c' = Some y' -> (c < c' < 32)%nat -> y.2 < y'.2) /\
    (forall c y conn data, flat 0 r !! c = Some y ->
       wp (bluez_inc_gatt_value_notify conn y.2 data) (fun x s2 => match target r c y.1.1.1 with
         | Some t => x = 0 /\ called s1 [NotifyValue (db_app (bs_bt s1)) t.1.2 y.1.2 data] (bs_bt s1) s2
         | None => x = -2 /\ s2 = s1 end) s1) /\
    (forall c y, flat 0 r !! c = Some y -> (c < 10)%nat -> (y.1.1.1 < 10)%nat -> exists t, target r c y.1.1.1 = Some t /\ t.1.2 = y.1.1.2)) s.
Proof.
  intros Es Ec. unfold bluez_inc_add_gatt. apply wp_bind, wp_gets, wp_bind, lib_spec. intros app s1 E1%called_bt. apply wp_bind, upd_bt_spec. intros s2 E2%called_bt. destruct (app =? 0); [by apply wp_ret|]. apply wp_bind, (svc_loop_spec _ _ []).
  { unfold tables. rewrite E2, E1. by split. }
  { by intros c y. }
  intros xs s3 Ht Hn _. change ([] ++ xs) with xs in *. apply wp_bind, libs_spec. intros s4 E4%called_bt. apply wp_ret. rewrite <-E4 in Ht. intros r [= <-]. split; [exact Hn|]. split; [|split].
  - intros c c' y y' Ey Ey' Hc. rewrite (Hn _ _ Ey), (Hn _ _ Ey'). unfold handle_of. rewrite !(proj2 (Nat.ltb_lt _ 32)) by lia. pose proof (flat_sorted 0 xs c c' y y' ltac:(lia) Ey Ey'). lia.
  - intros c y conn data Ey. rewrite (Hn _ _ Ey). by apply notify_spec.
  - intros c y Ey Hc Hi. unfold target. rewrite (proj2 (Nat.ltb_lt c 32)), (proj2 (Nat.ltb_lt _ 10)) by lia. rewrite Nat.div_small, Nat.add_0_r by done. rewrite (proj2 (Nat.ltb_lt _ 10)) by lia. cbn [andb]. destruct (flat_lower 0 xs c y Ey) as (_ & t & Et & Eu). rewrite Nat.sub_0_r in Et. by exists t.
Qed.
End Props.

(** Two services with six characteristics each: the last two of the second one have the
    handles 20 and 21, and a notification for them finds no service. *)
Definition demo_chars (n : Z) : list TKL_BLE_CHAR_PARAMS_T := (fun i => mkChar (TKL_BLE_UUID_TYPE_16 (n + Z.of_nat i)) 2) <$> seq 0 6.
Definition demo_svcs : list TKL_BLE_SERVICE_PARAMS_T := [mkSvc (TKL_BLE_UUID_TYPE_16 0xFD50) (demo_chars 0); mkSvc (TKL_BLE_UUID_TYPE_16 0xFD51) (demo_chars 16)].
Definition added (o : outcome (bsys (list (bcall * Z))) (option (list row))) : list row := match o with Ret (Some r) _ => r | _ => [] end.

Lemma gatt_notify_target_witness :
  (snd <$> flat 0 (added (bluez_inc_add_gatt demo_svcs demo_bt0))) = [0; 1; 2; 3; 4; 5; 16; 17; 18; 19; 20; 21] /\
  wp (bluez_inc_add_gatt demo_svcs) (fun o s1 => forall r, o = Some r -> forall c y conn data, flat 0 r !! c = Some y ->
       wp (bluez_inc_gatt_value_notify conn y.2 data) (fun x s2 => match target r c y.1.1.1 with
         | Some t => x = 0 /\ called s1 [NotifyValue (db_app (bs_bt s1)) t.1.2 y.1.2 data] (bs_bt s1) s2
         | None => x = -2 /\ s2 = s1 end) s1) demo_bt0 /\
  wp (o <- bluez_inc_add_gatt demo_svcs ;; bluez_inc_gatt_value_notify 1 20 [1]) (fun x _ => x = -2) demo_bt0.
Proof.
  split; [vm_compute; reflexivity|]. split; [|vm_compute; reflexivity].
  eapply wp_mono; [exact (gatt_notify_target demo_svcs demo_bt0 eq_refl eq_refl)|]. cbv beta. intros o s1 H r E. exact (proj1 (proj2 (proj2 (H r E)))).
Defined.
