(* ===== verification/TklBtAdv.v ===== *)
(** * Properties of advertising over Bluetooth

    What [parse_and_update_adv_data] makes of a sequence of advertising structures, and the
    requests that [bt_hci_adv_api.c] sends to the controller. *)

From Stdlib Require Import String.
From S2P Require Import Prelude WpaParse TklBt TklBtProps.

(** ** Advertising structures *)

(** A type and a payload; on the air, a length, the type and the payload. *)
Abbreviation ad := (Z * list Z)%type.
Definition ad_bytes (a : ad) : list Z := Z.of_nat (S (length a.2)) :: a.1 :: a.2.
Fixpoint encode (ads : list ad) : list Z := match ads with [] => [] | a :: ads => ad_bytes a ++ encode ads end.
(** The length fits in a byte, and a list of identifiers is made of whole ones. *)
Definition ad_ok (a : ad) : Prop := (length a.2 <= 254)%nat /\ (a.1 = 0x02 \/ a.1 = 0x03 -> Nat.Even (length a.2)).
(** Where a reader stops: at the end, at a length of zero, or before a structure that is not
    complete. *)
Definition stops (tail : list Z) : Prop := match tail with [] => True | n :: _ => n = 0 \/ Z.of_nat (length tail) <= n end.

(** ** What a structure says *)

Definition flag_calls (adv : Z) (a : ad) : list bcall :=
  match a with (0x01, f :: _) => [SetDiscoverable adv (Z.testbit f 1)] | (0xFF, x :: y :: d) => [SetManufacturer adv (x + 256 * y) d] | (0x19, [x; y]) => [SetAppearance adv (x + 256 * y)] | _ => [] end.
Fixpoint pairs (p : list Z) : list (list Z) := match p with x :: y :: p => uuid16 (x + 256 * y) :: pairs p | _ => [] end.
Definition said_uuids (a : ad) : list (list Z) := match a.1 with 0x02 | 0x03 => pairs a.2 | _ => [] end.
Definition said_name (a : ad) : list (list Z) := match a.1 with 0x08 | 0x09 => [cstr a.2] | _ => [] end.
Definition said_data (a : ad) : list (list Z * list Z) := match a with (0x16, x :: y :: d) => [(uuid16 (x + 256 * y), d)] | _ => [] end.

Definition opt_calls {A} (f : A -> bcall) (o : option A) : list bcall := match o with Some x => [f x] | None => [] end.
(** The data that was said last for an identifier *)
Definition latest (xs : list (list Z * list Z)) (u : list Z) : option (list Z) := snd <$> last (filter (fun x => x.1 = u) xs).

(** ** The table of service data *)

Definition insert_all (l xs : list (list Z * list Z)) : list (list Z * list Z) := foldl (fun l x => hash_insert l x.1 x.2) l xs.

Lemma hash_insert_in l k v u d : NoDup l.*1 -> (u, d) ∈ hash_insert l k v <-> (u = k /\ d = v) \/ (u <> k /\ (u, d) ∈ l).
Proof.
  induction l as [|[k' v'] l IH]; cbn [hash_insert]; intros Hn.
  - rewrite list_elem_of_singleton. split; [intros [= -> ->]; by left|]. intros [[-> ->]|[_ H]]; [done|by apply not_elem_of_nil in H].
  - rewrite fmap_cons in Hn. apply NoDup_cons in Hn as [Hk Hn]. case_bool_decide as E; rewrite !elem_of_cons.
    + cbn in E, Hk. subst k'. split; [|naive_solver]. intros [[= -> ->]|H]; [by left|]. right. split; [|by right]. intros ->. apply Hk, list_elem_of_fmap. by exists (k, d).
    + rewrite IH by done. naive_solver.
Qed.

Lemma hash_insert_keys l k v u : u ∈ (hash_insert l k v).*1 <-> u = k \/ u ∈ l.*1.
Proof.
  induction l as [|[k' v'] l IH]; cbn [hash_insert]; [cbn; rewrite elem_of_cons; naive_solver|]. case_bool_decide as E; rewrite !fmap_cons, !elem_of_cons; cbn in *; [subst; naive_solver|]. rewrite IH. naive_solver.
Qed.
Lemma hash_insert_nodup l k v : NoDup l.*1 -> NoDup (hash_insert l k v).*1.
Proof.
  induction l as [|[k' v'] l IH]; cbn [hash_insert]; intros Hn; [cbn; apply NoDup_singleton|]. rewrite fmap_cons in Hn. apply NoDup_cons in Hn as [Hk Hn]. case_bool_decide as E; rewrite fmap_cons; apply NoDup_cons; cbn in *; [subst; done|]. split; [|by apply IH]. rewrite hash_insert_keys. naive_solver.
Qed.

Lemma insert_all_spec xs : NoDup (insert_all [] xs).*1 /\ forall u d, (u, d) ∈ insert_all [] xs <-> latest xs u = Some d.
Proof.
  induction xs as [|[k v] xs [IHn IH]] using rev_ind.
  - split; [apply NoDup_nil_2|]. intros u d. cbn. split; [by intros H%not_elem_of_nil|done].
  - unfold insert_all. rewrite foldl_snoc. split; [by apply hash_insert_nodup|]. intros u d. rewrite hash_insert_in by done. unfold latest. rewrite filter_app. cbn [fst snd]. rewrite (IH u d). unfold latest. destruct (decide (k = u)) as [->|Hk].
    + rewrite filter_cons_True by done. rewrite filter_nil, last_snoc. cbn. naive_solver.
    + rewrite filter_cons_False by done. rewrite filter_nil, app_nil_r. naive_solver.
Qed.

Section Adv.
Context {K : Type} {BZ : Bluez K}.
Local Abbreviation S_ := (bsys K).

(** ** Reading *)

Lemma rd8_spec buf i x r (s : S_) (Q : Z -> S_ -> Prop) : drop i buf = x :: r -> Q x s -> wp (rd8 buf i) Q s.
Proof. intros E HQ. unfold rd8. replace (buf !! i) with (Some x); [by apply wp_ret|]. rewrite <-(Nat.add_0_r i), <-lookup_drop. by rewrite E. Qed.
Lemma drop_step {A} i (buf p r : list A) : drop i buf = p ++ r -> drop (i + length p) buf = r.
Proof. intros E. rewrite <-drop_drop, E. apply drop_app_length. Qed.
Lemma rd16_spec buf i x y r (s : S_) (Q : Z -> S_ -> Prop) : drop i buf = x :: y :: r -> Q (x + 256 * y) s -> wp (rd16 buf i) Q s.
Proof. intros E HQ. unfold rd16. eapply wp_bind, rd8_spec; [exact E|]. eapply wp_bind, rd8_spec; [rewrite <-Nat.add_1_r; exact (drop_step _ _ [x] _ E)|]. by apply wp_ret. Qed.
Lemma rdn_spec buf i n p r (s : S_) (Q : list Z -> S_ -> Prop) : (i <= length buf)%nat -> drop i buf = p ++ r -> n = length p -> Q p s -> wp (rdn buf i n) Q s.
Proof.
  intros Hi E -> HQ. unfold rdn. pose proof (f_equal length E) as El. rewrite length_drop, length_app in El. rewrite (proj2 (Nat.leb_le _ _)) by lia. rewrite E, take_app_length. by apply wp_ret.
Qed.

Lemma uuid_loop_spec buf fuel : forall pos p r (s : S_) (Q : list (list Z) -> S_ -> Prop), (length p <= fuel)%nat -> Nat.Even (length p) -> drop pos buf = p ++ r -> Q (pairs p) s -> wp (uuid_loop fuel buf pos (length p)) Q s.
Proof.
  induction fuel as [|fuel IH]; intros pos p r s Q Hf He E HQ; cbn [uuid_loop]; [destruct p; [by apply wp_ret|cbn in Hf; lia]|]. destruct p as [|x [|y p]]; [by apply wp_ret|by destruct He as [[|n] He]; cbn in He; lia|]. cbn [length Nat.ltb Nat.leb].
  eapply wp_bind, rd16_spec; [exact E|]. eapply wp_bind. rewrite !Nat.sub_succ, Nat.sub_0_r. eapply (IH (pos + 2)%nat p r); [cbn in Hf; lia|by apply Nat.Even_succ_succ|exact (drop_step _ _ [x; y] _ E)|]. by apply wp_ret.
Qed.

(** ** One structure *)

Definition ad_next (st : ad_state) (a : ad) : ad_state :=
  mkAd (ad_uuids st ++ said_uuids a) (match ad_name st with Some w => Some w | None => head (said_name a) end) (insert_all (ad_data st) (said_data a)).

Lemma flag_bit f : negb (Z.land f 2 =? 0) = Z.testbit f 1.
Proof.
  apply eq_true_iff_eq. rewrite negb_true_iff, Z.eqb_neq. split.
  - intros H. destruct (Z.testbit f 1) eqn:E; [done|]. destruct H. apply Z.bits_inj'. intros n Hn. rewrite Z.land_spec, Z.bits_0. change 2 with (2 ^ 1). rewrite Z.pow2_bits_eqb by lia. destruct (Z.eqb_spec 1 n) as [<-|]; [by rewrite E|apply andb_false_r].
  - intros H E. apply (f_equal (fun z => Z.testbit z 1)) in E. rewrite Z.land_spec, H in E. done.
Qed.

Definition ad_kind (t : Z) : bool := existsb (Z.eqb t) [0x01; 0x02; 0x03; 0x08; 0x09; 0x16; 0x19; 0xFF].
Lemma other_kind adv t p : ad_kind t = false -> flag_calls adv (t, p) = [] /\ said_uuids (t, p) = [] /\ said_name (t, p) = [] /\ said_data (t, p) = [].
Proof. unfold ad_kind, flag_calls, said_uuids, said_name, said_data. cbn [fst snd]. destruct t as [|t|t]; [done| |done]. do 8 (try (destruct t as [t|t|]; try done)). Qed.

Lemma ad_next_same st a : said_uuids a = [] -> said_name a = [] -> said_data a = [] -> ad_next st a = st.
Proof. intros E1 E2 E3. unfold ad_next. rewrite E1, E2, E3, app_nil_r. destruct st as [us [w|] d]; done. Qed.

(** A structure that says nothing *)
Lemma ad_silent adv a st (s : S_) (Q : ad_state -> S_ -> Prop) : flag_calls adv a = [] -> said_uuids a = [] -> said_name a = [] -> said_data a = [] ->
  (forall s', called s (flag_calls adv a) (bs_bt s) s' -> Q (ad_next st a) s') -> wp (ret st) Q s.
Proof. intros E1 E2 E3 E4 HQ. apply wp_ret. rewrite <-(ad_next_same st a) by done. apply HQ. rewrite E1. apply called_refl. Qed.

Lemma ad_structure_spec adv buf t pos p r st (s : S_) (Q : ad_state -> S_ -> Prop) : ad_ok (t, p) -> (pos <= length buf)%nat -> drop pos buf = p ++ r ->
  (forall s', called s (flag_calls adv (t, p)) (bs_bt s) s' -> Q (ad_next st (t, p)) s') -> wp (ad_structure adv buf t pos (length p) st) Q s.
Proof.
  intros [Hl He] Hpos E HQ. cbn in Hl, He. pose proof (f_equal length E) as El. rewrite length_drop, length_app in El. unfold ad_structure. destruct (ad_kind t) eqn:Ek.
  2:{ destruct (other_kind adv t p Ek) as (E1 & E2 & E3 & E4). unfold ad_kind in Ek. cbn [existsb] in Ek. rewrite !orb_false_iff in Ek. destruct Ek as (-> & -> & -> & -> & -> & -> & -> & -> & _). cbn [orb]. by apply (ad_silent adv (t, p)). }
  unfold ad_kind in Ek. apply existsb_exists in Ek as (k & Hk & Ek%Z.eqb_eq). subst k. cbn in Hk. destruct Hk as [<-|[<-|[<-|[<-|[<-|[<-|[<-|[<-|[]]]]]]]]]; cbn [Z.eqb Pos.eqb orb].
  - destruct p as [|f p]; [by eapply (ad_silent adv (_, _)); [..|exact HQ]|]. cbn [length Nat.leb]. eapply wp_bind, rd8_spec; [exact E|]. apply wp_bind, lib_spec. intros x s' Hc. apply wp_ret. rewrite <-(ad_next_same st (0x01, f :: p)) by done. apply HQ. rewrite flag_bit in Hc. exact Hc.
  - eapply wp_bind, uuid_loop_spec; [done|apply He; by left|exact E|]. apply wp_ret. unfold ad_next in HQ. destruct st as [us [w|] d]; apply (HQ s), called_refl.
  - eapply wp_bind, uuid_loop_spec; [done|apply He; by right|exact E|]. apply wp_ret. unfold ad_next in HQ. destruct st as [us [w|] d]; apply (HQ s), called_refl.
  - destruct st as [us [w|] d]; cbn [ad_name]; unfold ad_next in HQ; rewrite app_nil_r in HQ; [apply wp_ret, HQ, called_refl|]. eapply wp_bind, rdn_spec; [done|exact E|done|]. apply wp_ret, HQ, called_refl.
  - destruct st as [us [w|] d]; cbn [ad_name]; unfold ad_next in HQ; rewrite app_nil_r in HQ; [apply wp_ret, HQ, called_refl|]. eapply wp_bind, rdn_spec; [done|exact E|done|]. apply wp_ret, HQ, called_refl.
  - destruct p as [|x [|y p]]; [by eapply (ad_silent adv (_, _)); [..|exact HQ]|by eapply (ad_silent adv (_, _)); [..|exact HQ]|]. cbn [length Nat.leb]. eapply wp_bind, rd16_spec; [exact E|]. rewrite !Nat.sub_succ, Nat.sub_0_r. eapply wp_bind, rdn_spec; [cbn in El; lia|exact (drop_step _ _ [x; y] _ E)|done|]. unfold ad_next in HQ. cbn in HQ. rewrite app_nil_r in HQ. apply wp_ret. destruct st as [us [w|] d]; apply HQ, called_refl.
  - destruct p as [|x [|y [|z p]]]; [by eapply (ad_silent adv (_, _)); [..|exact HQ]|by eapply (ad_silent adv (_, _)); [..|exact HQ]| |by eapply (ad_silent adv (_, _)); [..|exact HQ]]. cbn [length Nat.eqb]. eapply wp_bind, rd16_spec; [exact E|]. apply wp_bind, lib_spec. intros v s' Hc. apply wp_ret. rewrite <-(ad_next_same st (0x19, [x; y])) by done. by apply HQ.
  - destruct p as [|x [|y p]]; [by eapply (ad_silent adv (_, _)); [..|exact HQ]|by eapply (ad_silent adv (_, _)); [..|exact HQ]|]. cbn [length Nat.leb]. eapply wp_bind, rd16_spec; [exact E|]. rewrite !Nat.sub_succ, Nat.sub_0_r. eapply wp_bind, rdn_spec; [cbn in El; lia|exact (drop_step _ _ [x; y] _ E)|done|]. apply wp_bind, lib_spec. intros v s' Hc. apply wp_ret. rewrite <-(ad_next_same st (0xFF, x :: y :: p)) by done. by apply HQ.
Qed.

(** ** A sequence of structures *)

Lemma encode_step a ads tail cursor (buf : list Z) : drop cursor buf = encode (a :: ads) ++ tail -> drop cursor buf = Z.of_nat (S (length a.2)) :: a.1 :: a.2 ++ encode ads ++ tail /\ drop (cursor + 2) buf = a.2 ++ encode ads ++ tail /\ drop (cursor + S (S (length a.2))) buf = encode ads ++ tail.
Proof.
  intros E. cbn [encode ad_bytes app] in E. rewrite <-app_assoc in E. split; [exact E|]. assert (drop (cursor + 2) buf = a.2 ++ encode ads ++ tail) as E2 by exact (drop_step _ _ [_; _] _ E). split; [exact E2|]. replace (cursor + S (S (length a.2)))%nat with (cursor + 2 + length a.2)%nat by lia. exact (drop_step _ _ _ _ E2).
Qed.

Lemma ad_loop_spec adv buf tail ads : stops tail -> Forall ad_ok ads -> forall fuel cursor st (s : S_) (Q : ad_state -> S_ -> Prop), drop cursor buf = encode ads ++ tail -> (length (encode ads ++ tail) < fuel)%nat -> Z.of_nat (length (encode ads ++ tail)) <= 65535 ->
  (forall s', called s (ads ≫= flag_calls adv) (bs_bt s) s' -> Q (foldl ad_next st ads) s') -> wp (ad_loop fuel adv buf cursor (Z.of_nat (length (encode ads ++ tail))) st) Q s.
Proof.
  intros Hs Hok. induction Hok as [|a ads Ha Hok IH]; intros [|fuel] cursor st s Q E Hf Hl HQ; try lia; cbn [ad_loop].
  - cbn [encode app] in *. destruct tail as [|n tail]; [apply wp_ret, HQ, called_refl|]. rewrite (proj2 (Z.ltb_lt _ _)) by (cbn [length]; lia). eapply wp_bind, rd8_spec; [exact E|]. cbn [stops] in Hs. replace ((n =? 0) || (Z.of_nat (length (n :: tail)) <=? n)) with true; [apply wp_ret, HQ, called_refl|]. symmetry. rewrite orb_true_iff, Z.eqb_eq, Z.leb_le. exact Hs.
  - apply encode_step in E as (E1 & E2 & E3). assert (length (encode (a :: ads) ++ tail) = S (S (length a.2)) + length (encode ads ++ tail))%nat as En by (cbn [encode ad_bytes app length]; rewrite !length_app; lia). rewrite En in *.
    destruct Ha as [Ha1 Ha2]. rewrite (proj2 (Z.ltb_lt _ _)) by lia. eapply wp_bind, rd8_spec; [exact E1|]. rewrite (proj2 (Z.eqb_neq _ _)), (proj2 (Z.leb_gt _ _)) by lia. cbn [orb]. eapply wp_bind, rd8_spec; [rewrite <-Nat.add_1_r; exact (drop_step _ _ [_] _ E1)|].
    replace (Z.to_nat (Z.of_nat (S (length a.2)) - 1)) with (length a.2) by lia. apply wp_bind, (ad_structure_spec _ _ _ _ _ (encode ads ++ tail)); [done| |exact E2|].
    { pose proof (f_equal length E1) as El. rewrite length_drop in El. cbn [length] in El. lia. }
    intros s1 H1. replace (Z.to_nat (Z.of_nat (S (length a.2)) + 1)) with (S (S (length a.2))) by lia. replace (u16 _) with (Z.of_nat (length (encode ads ++ tail))) by (rewrite (wrap_small 16); [lia|change (2 ^ 16) with 65536; lia]).
    apply IH; [exact E3|lia|lia|]. intros s2 H2. rewrite (called_bt _ _ _ _ H1) in H2. destruct a as [t p]. apply HQ. exact (called_trans _ _ _ _ _ _ _ H1 H2).
Qed.

Lemma foldl_next ads : forall us w d, foldl ad_next (mkAd us w d) ads = mkAd (us ++ (ads ≫= said_uuids)) (match w with Some w => Some w | None => head (ads ≫= said_name) end) (insert_all d (ads ≫= said_data)).
Proof.
  induction ads as [|a ads IH]; intros us w d; [by rewrite app_nil_r; destruct w|]. change (foldl ad_next (mkAd us w d) (a :: ads)) with (foldl ad_next (ad_next (mkAd us w d) a) ads). unfold ad_next at 2. cbn [ad_uuids ad_name ad_data]. rewrite IH, !bind_cons. unfold insert_all. rewrite foldl_app, <-app_assoc. f_equal. destruct w; [done|]. by destruct (said_name a).
Qed.

Lemma set_service_data_spec adv l : forall (s : S_) (Q : unit -> S_ -> Prop), (forall s', called s ((fun x => SetServiceData adv x.1 x.2) <$> l) (bs_bt s) s' -> Q tt s') -> wp (set_service_data adv l) Q s.
Proof.
  induction l as [|[u d] l IH]; intros s Q HQ; cbn [set_service_data]; [apply wp_ret, HQ, called_refl|]. apply wp_bind, lib_spec. intros x s1 H1. apply IH. intros s2 H2. rewrite (called_bt _ _ _ _ H1) in H2. apply HQ. exact (called_trans _ _ _ _ _ _ _ H1 H2).
Qed.

Definition list_call (f : list (list Z) -> bcall) (l : list (list Z)) : list bcall := match l with [] => [] | _ => [f l] end.

(** C28: the advertising data that are given to BlueZ.  For a buffer that holds a sequence of
    structures, each with at most 254 bytes of payload and whole 16-bit identifiers, and after
    them nothing, a zero, or an incomplete structure, the advertisement gets exactly what the
    structures say, in this order: flags, manufacturer data and appearance as they come, the
    first local name, the identifiers of all lists, and for each identifier the service data
    that came last.  No byte outside the buffer is read. *)
Theorem adv_data_parsed adv ads tail (s : S_) : Forall ad_ok ads -> stops tail -> Z.of_nat (length (encode ads ++ tail)) <= 65535 ->
  wp (parse_and_update_adv_data adv (Some (encode ads ++ tail, Z.of_nat (length (encode ads ++ tail))))) (fun _ s' => exists tbl,
    NoDup tbl.*1 /\ (forall u d, (u, d) ∈ tbl <-> latest (ads ≫= said_data) u = Some d) /\
    called s ((ads ≫= flag_calls adv) ++ opt_calls (SetLocalName adv) (head (ads ≫= said_name)) ++ list_call (SetServices adv) (ads ≫= said_uuids) ++ ((fun x => SetServiceData adv x.1 x.2) <$> tbl)) (bs_bt s) s') s.
Proof.
  intros Hok Hs Hl. unfold parse_and_update_adv_data. destruct (Z.eqb_spec (Z.of_nat (length (encode ads ++ tail))) 0) as [E0|E0].
  { destruct ads as [|a ads]; [|cbn in E0; lia]. apply wp_ret. exists []. split; [apply NoDup_nil_2|]. split; [|apply called_refl]. intros u d. cbn. split; [by intros H%not_elem_of_nil|done]. }
  apply wp_bind, (ad_loop_spec adv _ tail ads Hs Hok); [done|lia|done|]. intros s1 H1. rewrite foldl_next. cbn [ad_name ad_uuids ad_data app]. set (xs := ads ≫= said_data).
  apply wp_bind. apply (wp_mono _ (fun _ s2 => called s ((ads ≫= flag_calls adv) ++ opt_calls (SetLocalName adv) (head (ads ≫= said_name))) (bs_bt s) s2)).
  { destruct (head (ads ≫= said_name)) as [w|]; [|apply wp_ret; by rewrite app_nil_r]. apply wp_bind, lib_spec. intros x s2 H2. apply wp_ret. rewrite (called_bt _ _ _ _ H1) in H2. exact (called_trans _ _ _ _ _ _ _ H1 H2). }
  cbv beta. intros _ s2 H2. apply wp_bind. apply (wp_mono _ (fun _ s3 => called s (((ads ≫= flag_calls adv) ++ opt_calls (SetLocalName adv) (head (ads ≫= said_name))) ++ list_call (SetServices adv) (ads ≫= said_uuids)) (bs_bt s) s3)).
  { destruct (ads ≫= said_uuids) as [|u us]; [apply wp_ret; by rewrite app_nil_r|]. apply wp_bind, lib_spec. intros x s3 H3. apply wp_ret. rewrite (called_bt _ _ _ _ H2) in H3. exact (called_trans _ _ _ _ _ _ _ H2 H3). }
  cbv beta. intros _ s3 H3. apply set_service_data_spec. intros s4 H4. rewrite (called_bt _ _ _ _ H3) in H4. destruct (insert_all_spec xs) as [Hn Hin]. exists (g_hash_order (insert_all [] xs)). split; [|split].
  - by rewrite (g_hash_order_all (insert_all [] xs)).
  - intros u d. rewrite (g_hash_order_all (insert_all [] xs)). apply Hin.
  - rewrite !app_assoc. exact (called_trans _ _ _ _ _ _ _ H3 H4).
Qed.

(** ** Requests to the controller *)

(** What a request did, the device and the answer of the controller being those BlueZ gave:
    without a device, nothing but an error; otherwise the parameters were sent on that device,
    it was closed, and the result tells whether the controller took them. *)
Definition requested (s : S_) (ocf : Z) (param : list Z) (r : OPERATE_RET) (s' : S_) : Prop := exists device,
  if device <? 0 then r = OPRT_COM_ERROR /\ answered s [(HciOpen, device)] (bs_bt s) s'
  else exists sent closed, r = (if sent =? 0 then OPRT_OK else OPRT_RECV_ERR) /\
    answered s [(HciOpen, device); (HciSend device ocf param, sent); (HciClose device, closed)] (bs_bt s) s'.

Lemma hci_request_spec ocf (param : list Z) (s : S_) : wp (hci_request ocf (ret param)) (requested s ocf param) s.
Proof.
  unfold hci_request. apply wp_bind, lib_answered. intros device s1 H1. destruct (device <? 0) eqn:Ed; [apply wp_ret; exists device; by rewrite Ed|].
  apply wp_bind, wp_ret, wp_bind, lib_answered. intros x s2 H2. rewrite (proj2 H1) in H2. pose proof (answered_trans _ _ _ _ _ _ _ H1 H2) as H12.
  destruct (x =? 0) eqn:Ex; cbn [negb]; apply wp_bind, lib_answered; intros y s3 H3; rewrite (proj2 H12) in H3; apply wp_ret; exists device; rewrite Ed; exists x, y; rewrite Ex; (split; [done|]); exact (answered_trans _ _ _ _ _ _ _ H12 H3).
Qed.

Lemma hci_block_faults ocf data len (s : S_) device k : 31 < len -> bz HciOpen (bs_lib s) = Ret device k -> 0 <= device -> hci_request ocf (adv_data_cp data len) s = Fault.
Proof.
  intros Hl E Hd. unfold hci_request, bind at 1, lib at 1. rewrite E. rewrite (proj2 (Z.ltb_ge _ _)) by done. unfold bind, adv_data_cp. rewrite (proj2 (Z.ltb_lt 31 len)) by done. by rewrite orb_true_r.
Qed.

Definition block (data : list Z) (len : Z) : list Z := len :: take (Z.to_nat len) data ++ replicate (31 - Z.to_nat len) 0.
Lemma block_length data len : 0 <= len <= 31 -> len <= Z.of_nat (length data) -> length (block data len) = 32%nat.
Proof. intros H1 H2. unfold block. cbn [length]. rewrite length_app, length_take, length_replicate. lia. Qed.

End Adv.

(** ** Examples *)


(** Flags, a list of identifiers, a name and two data for one service *)
Definition demo_ads : list ad := [(0x01, [6]); (0x03, [0x50; 0xFD]); (0x09, [84; 89]); (0x16, [0x50; 0xFD; 1]); (0x16, [0x50; 0xFD; 2])].
Definition demo_uuid : list Z := lit "0000fd50-0000-1000-8000-00805f9b34fb".
Lemma demo_latest : latest (demo_ads ≫= said_data) demo_uuid = Some [2] /\ (forall u, u <> demo_uuid -> latest (demo_ads ≫= said_data) u = None).
Proof.
  split; [reflexivity|]. intros u Hu. unfold latest. replace (demo_ads ≫= said_data) with [(demo_uuid, [1]); (demo_uuid, [2])] by reflexivity. rewrite !filter_cons_False by (cbn [fst]; congruence). done.
Qed.

Lemma adv_data_parsed_witness : wp (parse_and_update_adv_data 7 (Some (encode demo_ads ++ [0], Z.of_nat (length (encode demo_ads ++ [0]))))) (fun _ s' => exists tbl,
    NoDup tbl.*1 /\ (demo_uuid, [2]) ∈ tbl /\
    called demo_bt0 ([SetDiscoverable 7 true; SetLocalName 7 [84; 89]; SetServices 7 [demo_uuid]] ++ ((fun x => SetServiceData 7 x.1 x.2) <$> tbl)) bt0 s') demo_bt0 /\
  parse_and_update_adv_data 7 (Some (encode [(0x03, [0x50])], 3)) demo_bt0 = Fault.
Proof.
  split; [|reflexivity]. eapply wp_mono.
  - refine (adv_data_parsed 7 demo_ads [0] demo_bt0 _ _ _); [|by left|by vm_compute].
    repeat constructor; cbn; try lia; intros [H|H]; try done; by exists 1%nat.
  - cbv beta. intros _ s' (tbl & Hn & Hin & Hc). exists tbl. split; [exact Hn|]. split; [apply Hin, demo_latest|exact Hc].
Defined.
