(* ===== verification/TklJpeg.v ===== *)
(** * JPEG: [src/tkl_jpeg_codec/tkl_jpeg_codec.c]

    The codec reads the header of an image, or decodes an image row by row and packs the
    pixels.  libjpeg is a parameter, the class [Jpeg]: a decompressor that goes through the
    states its manual describes.  A call of it returns or, after an error, leaves through the
    error handler, which jumps back to where the function called [setjmp]. *)

From S2P Require Import Prelude.

(** ** libjpeg *)

Inductive ev (A : Type) := Val (a : A) | Longjmp.
Arguments Val {A}. Arguments Longjmp {A}.

Inductive J_COLOR_SPACE := JCS_RGB | JCS_YCbCr.
Definition JPEG_HEADER_OK : Z := 1.

(** A decompressor: without memory, made, with a source, with a header (the width and the
    height), and decoding, with all rows and the number of those read. *)
Inductive dstate :=
| JNone | JMade | JSource (data : list Z) | JHeader (data : list Z) (w h : Z) | JRows (rows : list (list Z)) (w h : Z) (done : nat) | JOther.

Definition is_byte (x : Z) : Prop := 0 <= x < 256.

Class Jpeg (K : Type) := {
  jpeg_create_decompress : M K (ev unit);
  jpeg_mem_src : list Z -> M K (ev unit);
  jpeg_read_header : M K (ev Z);
  (** The width and height in the structure. *)
  jpeg_dims : K -> Z * Z;
  jpeg_start_decompress : J_COLOR_SPACE -> M K (ev bool);
  (** Output width, height and components in the structure. *)
  jpeg_output : K -> Z * Z * Z;
  alloc_sarray : Z -> M K (ev unit);
  (** The number of rows read, and the row. *)
  jpeg_read_scanlines : M K (ev (Z * list Z));
  jpeg_finish_decompress : M K (ev unit);
  jpeg_destroy_decompress : M K unit;
  (** The state, the number of calls that have failed, and what data decode to. *)
  jpeg_state : K -> dstate;
  jpeg_errors : K -> nat;
  jpeg_size : list Z -> option (Z * Z);
  jpeg_rows : list Z -> J_COLOR_SPACE -> option (list (list Z));
  (** An image has at least one pixel, and at most 65500 in each direction. *)
  size_ok d w h : jpeg_size d = Some (w, h) -> 1 <= w <= 65500 /\ 1 <= h <= 65500;
  rows_ok d cs rows w h : jpeg_rows d cs = Some rows -> jpeg_size d = Some (w, h) -> Z.of_nat (length rows) = h /\ Forall (fun r => Z.of_nat (length r) = 3 * w /\ Forall is_byte r) rows;
  create_ok k : jpeg_state k = JNone -> wp jpeg_create_decompress (fun r k' => match r with Longjmp => (jpeg_errors k < jpeg_errors k')%nat | Val _ => jpeg_errors k' = jpeg_errors k /\ jpeg_state k' = JMade end) k;
  mem_src_ok d k : jpeg_state k = JMade -> wp (jpeg_mem_src d) (fun r k' => match r with Longjmp => (jpeg_errors k < jpeg_errors k')%nat | Val _ => jpeg_errors k' = jpeg_errors k /\ jpeg_state k' = JSource d end) k;
  read_header_ok d k : jpeg_state k = JSource d -> wp jpeg_read_header (fun r k' => match r with
    | Longjmp => (jpeg_errors k < jpeg_errors k')%nat
    | Val n => if n =? JPEG_HEADER_OK then jpeg_errors k' = jpeg_errors k /\ exists w h, jpeg_size d = Some (w, h) /\ jpeg_dims k' = (w, h) /\ jpeg_state k' = JHeader d w h else (jpeg_errors k < jpeg_errors k')%nat end) k;
  start_ok d w h cs k : jpeg_state k = JHeader d w h -> wp (jpeg_start_decompress cs) (fun r k' => match r with
    | Val true => jpeg_errors k' = jpeg_errors k /\ exists rows, jpeg_rows d cs = Some rows /\ jpeg_output k' = (w, h, 3) /\ jpeg_state k' = JRows rows w h 0
    | _ => (jpeg_errors k < jpeg_errors k')%nat end) k;
  alloc_ok n st k : jpeg_state k = st -> wp (alloc_sarray n) (fun r k' => match r with Longjmp => (jpeg_errors k < jpeg_errors k')%nat | Val _ => jpeg_errors k' = jpeg_errors k /\ jpeg_state k' = st end) k;
  read_scanlines_ok rows w h i row k : jpeg_state k = JRows rows w h i -> rows !! i = Some row -> wp jpeg_read_scanlines (fun r k' => match r with
    | Longjmp => (jpeg_errors k < jpeg_errors k')%nat
    | Val (n, x) => if n =? 1 then jpeg_errors k' = jpeg_errors k /\ x = row /\ jpeg_state k' = JRows rows w h (S i) else (jpeg_errors k < jpeg_errors k')%nat end) k;
  (** It is an error of the caller to finish before all rows have been read. *)
  finish_ok k : wp jpeg_finish_decompress (fun r k' => match r with
    | Val _ => jpeg_errors k' = jpeg_errors k /\ forall rows w h i, jpeg_state k = JRows rows w h i -> (length rows <= i)%nat
    | Longjmp => (jpeg_errors k < jpeg_errors k')%nat \/ jpeg_errors k' = jpeg_errors k /\ forall rows w h i, jpeg_state k = JRows rows w h i -> (i < length rows)%nat end) k;
  destroy_ok k : wp jpeg_destroy_decompress (fun _ k' => jpeg_errors k' = jpeg_errors k /\ jpeg_state k' = JNone) k
}.

(** ** Data *)

Inductive TUYA_FRAME_FMT_E := TUYA_FRAME_FMT_UNKNOWN | TUYA_FRAME_FMT_YUV422 | TUYA_FRAME_FMT_YUV420 | TUYA_FRAME_FMT_RGB565 | TUYA_FRAME_FMT_RGB888 | TUYA_FRAME_FMT_JPEG | TUYA_FRAME_FMT_H264.
(** [JPEG_DEC_OUT_UNKNOWN] stands for the values that are none of the enumeration. *)
Inductive JPEG_DEC_OUT_FMT := JPEG_DEC_OUT_YUV422 | JPEG_DEC_OUT_RGB565 | JPEG_DEC_OUT_RGB888 | JPEG_DEC_OUT_UNKNOWN.
#[export] Instance fmt_eq : EqDecision JPEG_DEC_OUT_FMT.
Proof. solve_decision. Defined.
Record TKL_JPEG_CODEC_INFO_T := mkInfo { out_fmt : TUYA_FRAME_FMT_E; out_width : Z; out_height : Z; in_size : Z }.

(** The library, the structure of the caller, its buffer, and how much of it is written. *)
Record jsys (K : Type) := JSys { js_lib : K; js_info : TKL_JPEG_CODEC_INFO_T; js_dst : list Z; js_pos : nat }.
Arguments JSys {K}. Arguments js_lib {K}. Arguments js_info {K}. Arguments js_dst {K}. Arguments js_pos {K}.

Definition __rgb888_to_rgb565 (r g b : Z) : Z :=
  u16 (Z.lor (Z.lor (Z.shiftl (Z.land r 0xF8) 8) (Z.shiftl (Z.land g 0xFC) 3)) (Z.shiftr (Z.land b 0xF8) 3)).

Section Codec.
Context {K : Type} {J : Jpeg K}.
Local Abbreviation W := (M (jsys K)).

Definition jlib {A} (c : M K A) : W A := fun s => match c (js_lib s) with Ret a k => Ret a (JSys k (js_info s) (js_dst s) (js_pos s)) | Fault => Fault | Diverge => Diverge end.
Definition set_info (f : TKL_JPEG_CODEC_INFO_T -> TKL_JPEG_CODEC_INFO_T) : W unit := modify (fun s => JSys (js_lib s) (f (js_info s)) (js_dst s) (js_pos s)).

(** The next statement, unless the call has jumped. *)
Definition tried {A B} (c : W (ev A)) (k : A -> W (ev B)) : W (ev B) := r <- c ;; match r with Val a => k a | Longjmp => ret Longjmp end.
(** [if (setjmp(...)) handler], and what follows it. *)
Definition setjmp {A} (handler : W A) (body : W (ev A)) : W A := r <- body ;; match r with Val a => ret a | Longjmp => handler end.
(** Return from inside the body. *)
Definition return_ {A} (a : A) : W (ev A) := ret (Val a).

(** A failure after the decompressor was made *)
Definition leave_with (e : OPERATE_RET) : W (ev OPERATE_RET) := jlib jpeg_destroy_decompress ;;; return_ e.
Definition finish_with (e : OPERATE_RET) : W (ev OPERATE_RET) := tried (jlib jpeg_finish_decompress) (fun _ => leave_with e).

(** The bytes that the claimed size lets the library read. *)
Definition source_of (buf : list Z) (size : Z) : W (ev unit) :=
  if Z.of_nat (length buf) <? size then fault else jlib (jpeg_mem_src (take (Z.to_nat size) buf)).

Definition tkl_jpeg_codec_init : W OPERATE_RET := ret OPRT_OK.
Definition tkl_jpeg_codec_deinit : W OPERATE_RET := ret OPRT_OK.

(** A null pointer is [None]; [jpeg_info] says whether there is a structure. *)
Definition tkl_jpeg_codec_img_info_get (jpeg_buf : option (list Z)) (jpeg_size : Z) (jpeg_info : bool) : W OPERATE_RET :=
  match jpeg_buf with
  | None => ret OPRT_INVALID_PARM
  | Some buf =>
    if (jpeg_size =? 0) || negb jpeg_info then ret OPRT_INVALID_PARM
    else
      setjmp (jlib jpeg_destroy_decompress ;;; ret OPRT_COM_ERROR)
        (tried (jlib jpeg_create_decompress) (fun _ =>
         tried (source_of buf jpeg_size) (fun _ =>
         tried (jlib jpeg_read_header) (fun r =>
         if negb (r =? JPEG_HEADER_OK) then leave_with OPRT_COM_ERROR
         else
           d <- gets (fun s => jpeg_dims (js_lib s)) ;;
           set_info (fun _ => mkInfo TUYA_FRAME_FMT_JPEG (u16 (fst d)) (u16 (snd d)) jpeg_size) ;;;
           jlib jpeg_destroy_decompress ;;; return_ OPRT_OK))))
  end.

(** ** Packing pixels *)

Definition src_at (src : list Z) (i : Z) : W Z := match src !! Z.to_nat i with Some x => ret x | None => fault end.
(** Bytes stored at [off] after the current position. *)
Definition store_at (off : nat) (bs : list Z) : W unit := fun s =>
  if (js_pos s + off + length bs <=? length (js_dst s))%nat then
    Ret tt (JSys (js_lib s) (js_info s) (take (js_pos s + off) (js_dst s) ++ bs ++ drop (js_pos s + off + length bs) (js_dst s)) (js_pos s))
  else Fault.
Definition advance (n : nat) : W unit := modify (fun s => JSys (js_lib s) (js_info s) (js_dst s) (js_pos s + n)).
(** [*dst++ = b] *)
Definition put_byte (b : Z) : W unit := store_at 0 [b] ;;; advance 1.

Fixpoint yuv_loop (fuel : nat) (src : list Z) (x width : Z) : W unit :=
  match fuel with
  | O => out_of_fuel
  | S fuel =>
    if x <? width then
      y0 <- src_at src (u32 ((x + 0) * 3 + 0)) ;;
      u0 <- src_at src (u32 ((x + 0) * 3 + 1)) ;;
      v0 <- src_at src (u32 ((x + 0) * 3 + 2)) ;;
      y1 <- src_at src (u32 ((x + 1) * 3 + 0)) ;;
      u1 <- src_at src (u32 ((x + 1) * 3 + 1)) ;;
      v1 <- src_at src (u32 ((x + 1) * 3 + 2)) ;;
      put_byte (u8 (Z.shiftr (u0 + u1) 1)) ;;; put_byte y0 ;;; put_byte (u8 (Z.shiftr (v0 + v1) 1)) ;;; put_byte y1 ;;;
      yuv_loop fuel src (u32 (x + 2)) width
    else ret tt
  end.

(** Sixteen bits are stored with the low byte first. *)
Fixpoint rgb565_loop (fuel : nat) (src : list Z) (x width : Z) : W unit :=
  match fuel with
  | O => out_of_fuel
  | S fuel =>
    if x <? width then
      r <- src_at src (u32 (x * 3 + 0)) ;;
      g <- src_at src (u32 (x * 3 + 1)) ;;
      b <- src_at src (u32 (x * 3 + 2)) ;;
      let p := __rgb888_to_rgb565 r g b in
      store_at (2 * Z.to_nat x) [p mod 256; p / 256] ;;;
      rgb565_loop fuel src (u32 (x + 1)) width
    else ret tt
  end.

(** [memcpy(dst, src, n)] *)
Definition copy_row (src : list Z) (n : Z) : W unit := if Z.of_nat (length src) <? n then fault else store_at 0 (take (Z.to_nat n) src).

Definition pack_row (fmt : JPEG_DEC_OUT_FMT) (src : list Z) (width : Z) : W unit :=
  match fmt with
  | JPEG_DEC_OUT_YUV422 => yuv_loop (S (Z.to_nat width)) src 0 width
  | JPEG_DEC_OUT_RGB888 => copy_row src (u32 (width * 3)) ;;; advance (Z.to_nat (u32 (width * 3)))
  | JPEG_DEC_OUT_RGB565 => rgb565_loop (S (Z.to_nat width)) src 0 width ;;; advance (Z.to_nat (u32 (width * 2)))
  | JPEG_DEC_OUT_UNKNOWN => ret tt
  end.

(** The rows from [y] on. *)
Fixpoint row_loop (fuel : nat) (fmt : JPEG_DEC_OUT_FMT) (y width height : Z) : W (ev OPERATE_RET) :=
  match fuel with
  | O => out_of_fuel
  | S fuel =>
    if y <? height then
      tried (jlib jpeg_read_scanlines) (fun x =>
      if negb (fst x =? 1) then finish_with OPRT_COM_ERROR
      else
        let src := snd x in
        match fmt with
        | JPEG_DEC_OUT_UNKNOWN => finish_with OPRT_NOT_SUPPORTED
        | _ => pack_row fmt src width ;;; row_loop fuel fmt (u32 (y + 1)) width height
        end)
    else tried (jlib jpeg_finish_decompress) (fun _ => leave_with OPRT_OK)
  end.

(** [dst_buf] and [jpeg_codec_info] say whether there is a buffer and a structure. *)
Definition tkl_jpeg_codec_convert (src_buf : option (list Z)) (dst_buf jpeg_codec_info : bool) (fmt : JPEG_DEC_OUT_FMT) : W OPERATE_RET :=
  match src_buf with
  | None => ret OPRT_INVALID_PARM
  | Some buf =>
    if negb dst_buf || negb jpeg_codec_info then ret OPRT_INVALID_PARM
    else
      size <- gets (fun s => in_size (js_info s)) ;;
      if size =? 0 then ret OPRT_INVALID_PARM
      else
        setjmp (jlib jpeg_destroy_decompress ;;; ret OPRT_COM_ERROR)
          (tried (jlib jpeg_create_decompress) (fun _ =>
           tried (source_of buf size) (fun _ =>
           tried (jlib jpeg_read_header) (fun r =>
           if negb (r =? JPEG_HEADER_OK) then leave_with OPRT_COM_ERROR
           else
             tried (jlib (jpeg_start_decompress (if decide (fmt = JPEG_DEC_OUT_YUV422) then JCS_YCbCr else JCS_RGB))) (fun started : bool =>
             if negb started then leave_with OPRT_COM_ERROR
             else
               o <- gets (fun s => jpeg_output (js_lib s)) ;;
               let '(width, height, components) := o in
               set_info (fun i => mkInfo (out_fmt i) (u16 width) (u16 height) (in_size i)) ;;;
               if bool_decide (fmt = JPEG_DEC_OUT_YUV422) && negb (width mod 2 =? 0) then finish_with OPRT_NOT_SUPPORTED
               else
                 tried (jlib (alloc_sarray (u32 (width * components)))) (fun _ =>
                 row_loop (S (Z.to_nat height)) fmt 0 width height))))))
  end.
End Codec.

(** ** A decompressor for evaluation *)

(** It knows one image, of two pixels, and counts the calls that failed. *)
Definition demo_data : list Z := [0xFF; 0xD8; 0xFF].
Definition demo_rows (cs : J_COLOR_SPACE) : list (list Z) := match cs with JCS_RGB => [[255; 0; 8; 16; 32; 64]] | JCS_YCbCr => [[10; 20; 30; 40; 50; 61]] end.
#[export] Instance demo_jpeg : Jpeg (dstate * nat).
Proof.
  refine {|
    jpeg_create_decompress k := Ret (Val tt) (JMade, snd k);
    jpeg_mem_src d k := Ret (Val tt) (JSource d, snd k);
    jpeg_read_header k := match fst k with JSource d => if decide (d = demo_data) then Ret (Val 1) (JHeader d 2 1, snd k) else Ret Longjmp (fst k, S (snd k)) | _ => Ret Longjmp (fst k, S (snd k)) end;
    jpeg_dims k := match fst k with JHeader _ w h => (w, h) | _ => (0, 0) end;
    jpeg_start_decompress cs k := match fst k with JHeader d w h => if decide (d = demo_data) then Ret (Val true) (JRows (demo_rows cs) w h 0, snd k) else Ret Longjmp (fst k, S (snd k)) | _ => Ret Longjmp (fst k, S (snd k)) end;
    jpeg_output k := match fst k with JRows _ w h _ => (w, h, 3) | _ => (0, 0, 0) end;
    alloc_sarray _ k := Ret (Val tt) k;
    jpeg_read_scanlines k := match fst k with JRows rows w h i => match rows !! i with Some r => Ret (Val (1, r)) (JRows rows w h (S i), snd k) | None => Ret (Val (0, [])) k end | _ => Ret Longjmp (fst k, S (snd k)) end;
    jpeg_finish_decompress k := match fst k with JRows rows w h i => if decide (i < length rows)%nat then Ret Longjmp k else Ret (Val tt) (JOther, snd k) | _ => Ret Longjmp (fst k, S (snd k)) end;
    jpeg_destroy_decompress k := Ret tt (JNone, snd k);
    jpeg_state k := fst k;
    jpeg_errors k := snd k;
    jpeg_size d := if decide (d = demo_data) then Some (2, 1) else None;
    jpeg_rows d cs := if decide (d = demo_data) then Some (demo_rows cs) else None |}.
  - intros d w h. destruct (decide (d = demo_data)); [|done]. intros [= <- <-]. lia.
  - intros d cs rows w h. destruct (decide (d = demo_data)); [|done]. intros [= <-] [= <- <-]. destruct cs; (split; [done|]); repeat constructor; unfold is_byte; lia.
  - done.
  - done.
  - intros d [? n] E. cbn in E. subst. unfold wp. cbn [fst snd]. destruct (decide (d = demo_data)); [|cbn; lia]. split; [done|]. by exists 2, 1.
  - intros d w h cs [? n] E. cbn in E. subst. unfold wp. cbn [fst snd]. destruct (decide (d = demo_data)); [|cbn; lia]. split; [done|]. by exists (demo_rows cs).
  - done.
  - intros rows w h i row [? n] E0 E. cbn in E0. subst. unfold wp. cbn [fst snd]. by rewrite E.
  - intros [k n]. unfold wp. cbn [fst]. destruct k as [| | | |rows w h i|]; try (left; cbn; lia). destruct (decide (i < length rows)%nat); [right; (split; [done|])|split; [done|]]; intros rows' w' h' i' [= <- <- <- <-]; lia.
  - done.
Defined.
