(* ===== verification/TklJpegProps.v ===== *)
(** * Properties of the JPEG codec

    Which bytes a decoded image becomes, that nothing else of the buffer changes, and that
    the decompressor is released on every path. *)

From S2P Require Import Prelude TklJpeg.

(** ** What pixels are packed to *)

(** Two pixels share the mean of their colours: U, Y, V, Y. *)
Fixpoint uyvy (p : list Z) : list Z :=
  match p with y0 :: u0 :: v0 :: y1 :: u1 :: v1 :: p => (u0 + u1) / 2 :: y0 :: (v0 + v1) / 2 :: y1 :: uyvy p | _ => [] end.
(** The upper 5, 6 and 5 bits of the colours *)
Definition pixel565 (r g b : Z) : Z := r / 8 * 2048 + g / 4 * 32 + b / 8.
Fixpoint rgb565 (p : list Z) : list Z :=
  match p with r :: g :: b :: p => pixel565 r g b mod 256 :: pixel565 r g b / 256 :: rgb565 p | _ => [] end.
Definition packed (fmt : JPEG_DEC_OUT_FMT) (row : list Z) : list Z :=
  match fmt with JPEG_DEC_OUT_YUV422 => uyvy row | JPEG_DEC_OUT_RGB565 => rgb565 row | JPEG_DEC_OUT_RGB888 => row | JPEG_DEC_OUT_UNKNOWN => [] end.
(** Bytes of a pixel *)
Definition depth (fmt : JPEG_DEC_OUT_FMT) : Z := match fmt with JPEG_DEC_OUT_RGB888 => 3 | _ => 2 end.
Definition space (fmt : JPEG_DEC_OUT_FMT) : J_COLOR_SPACE := if decide (fmt = JPEG_DEC_OUT_YUV422) then JCS_YCbCr else JCS_RGB.

(** ** Bits *)

Lemma land_mask x k n : 0 <= x < 2 ^ n -> 0 <= k <= n -> Z.land x (2 ^ n - 2 ^ k) = x / 2 ^ k * 2 ^ k.
Proof.
  intros Hx Hk. replace (2 ^ n - 2 ^ k) with (Z.shiftl (Z.ones (n - k)) k).
  2:{ rewrite Z.shiftl_mul_pow2, Z.ones_equiv by lia. rewrite <-Z.sub_1_r, Z.mul_sub_distr_r, Z.mul_1_l, <-Z.pow_add_r by lia. do 2 f_equal. lia. }
  rewrite <-Z.shiftr_div_pow2, <-Z.shiftl_mul_pow2 by lia. apply Z.bits_inj'. intros i Hi. rewrite Z.land_spec. destruct (Z.lt_ge_cases i k) as [H|H].
  - rewrite !Z.shiftl_spec_low by done. apply andb_false_r.
  - rewrite !Z.shiftl_spec_high, Z.shiftr_spec by lia. replace (i - k + k) with i by lia. destruct (Z.lt_ge_cases i n).
    + rewrite Z.ones_spec_low by lia. apply andb_true_r.
    + rewrite Z.ones_spec_high by lia. rewrite andb_false_r. symmetry. destruct (decide (x = 0)) as [->|]; [apply Z.bits_0|]. apply Z.bits_above_log2; [lia|]. assert (Z.log2 x < n); [apply Z.log2_lt_pow2; lia|lia].
Qed.

Lemma lor_add a b k : 0 <= k -> 0 <= b < 2 ^ k -> Z.lor (a * 2 ^ k) b = a * 2 ^ k + b.
Proof.
  intros Hk Hb. rewrite <-Z.lxor_lor, <-Z.add_nocarry_lxor; [done| |];
  (apply Z.bits_inj'; intros i Hi; rewrite Z.land_spec, Z.bits_0, <-Z.shiftl_mul_pow2 by lia; destruct (Z.lt_ge_cases i k); [by rewrite Z.shiftl_spec_low|]; apply andb_false_intro2; destruct (decide (b = 0)) as [->|]; [apply Z.bits_0|]; apply Z.bits_above_log2; [lia|]; assert (Z.log2 b < k); [apply Z.log2_lt_pow2; lia|lia]).
Qed.

Lemma rgb565_packs r g b : is_byte r -> is_byte g -> is_byte b -> __rgb888_to_rgb565 r g b = pixel565 r g b.
Proof.
  unfold is_byte, __rgb888_to_rgb565, pixel565. intros Hr Hg Hb. change 0xF8 with (2 ^ 8 - 2 ^ 3). change 0xFC with (2 ^ 8 - 2 ^ 2). rewrite (land_mask r 3 8), (land_mask g 2 8), (land_mask b 3 8) by lia.
  rewrite !Z.shiftl_mul_pow2, Z.shiftr_div_pow2, Z.div_mul by lia. pose proof (Z.div_mod r 8 ltac:(lia)). pose proof (Z.div_mod g 4 ltac:(lia)). pose proof (Z.div_mod b 8 ltac:(lia)). pose proof (Z.mod_pos_bound r 8 ltac:(lia)). pose proof (Z.mod_pos_bound g 4 ltac:(lia)). pose proof (Z.mod_pos_bound b 8 ltac:(lia)).
  replace (r / 2 ^ 3 * 2 ^ 3 * 2 ^ 8) with (r / 8 * 2 ^ 11) by (change (2 ^ 3) with 8; change (2 ^ 8) with 256; change (2 ^ 11) with 2048; lia). replace (g / 2 ^ 2 * 2 ^ 2 * 2 ^ 3) with (g / 4 * 2 ^ 5) by (change (2 ^ 2) with 4; change (2 ^ 3) with 8; change (2 ^ 5) with 32; lia). change (2 ^ 3) with 8.
  rewrite (lor_add (r / 8)) by (change (2 ^ 5) with 32; change (2 ^ 11) with 2048; lia). replace (r / 8 * 2 ^ 11 + g / 4 * 2 ^ 5) with ((r / 8 * 64 + g / 4) * 2 ^ 5) by (change (2 ^ 5) with 32; change (2 ^ 11) with 2048; lia). rewrite lor_add by (change (2 ^ 5) with 32; lia).
  rewrite (wrap_small 16) by (change (2 ^ 5) with 32; change (2 ^ 16) with 65536; lia). change (2 ^ 5) with 32. lia.
Qed.

Lemma uyvy_length p n : length p = (3 * (2 * n))%nat -> length (uyvy p) = (4 * n)%nat.
Proof. revert p. induction n as [|n IH]; intros p E; [by destruct p|]. destruct p as [|a [|b [|c [|d [|e [|f p]]]]]]; cbn in E; try lia. cbn [uyvy length]. rewrite IH; lia. Qed.
Lemma rgb565_length p n : length p = (3 * n)%nat -> length (rgb565 p) = (2 * n)%nat.
Proof. revert p. induction n as [|n IH]; intros p E; [by destruct p|]. destruct p as [|a [|b [|c p]]]; cbn in E; try lia. cbn [rgb565 length]. rewrite IH; lia. Qed.

Lemma uyvy_bytes p : Forall is_byte p -> Forall is_byte (uyvy p).
Proof.
  unfold is_byte. remember (length p) as n eqn:E. revert p E. induction (lt_wf n) as [n _ IH]. intros p -> H. destruct p as [|a [|b [|c [|d [|e [|f p]]]]]]; cbn [uyvy]; try constructor.
  all: rewrite !Forall_cons in H; destruct H as (? & ? & ? & ? & ? & ? & ?). 1: split; [apply Z.div_pos|apply Z.div_lt_upper_bound]; lia.
  rewrite !Forall_cons. split; [lia|]. split; [split; [apply Z.div_pos|apply Z.div_lt_upper_bound]; lia|]. split; [lia|]. eapply IH; [|reflexivity|done]. cbn. lia.
Qed.
Lemma rgb565_bytes p : Forall is_byte p -> Forall is_byte (rgb565 p).
Proof.
  unfold is_byte. remember (length p) as n eqn:E. revert p E. induction (lt_wf n) as [n _ IH]. intros p -> H. destruct p as [|a [|b [|c p]]]; cbn [rgb565]; try constructor.
  all: rewrite !Forall_cons in H; destruct H as (? & ? & ? & ?). 1: apply Z.mod_pos_bound; lia.
  rewrite !Forall_cons. split; [|eapply IH; [|reflexivity|done]; cbn; lia]. unfold pixel565. assert (0 <= a / 8 < 32 /\ 0 <= b / 4 < 64 /\ 0 <= c / 8 < 32) as (? & ? & ?) by (repeat split; (apply Z.div_pos || apply Z.div_lt_upper_bound); lia). split; [apply Z.div_pos|apply Z.div_lt_upper_bound]; lia.
Qed.
Lemma packed_bytes fmt p : Forall is_byte p -> Forall is_byte (packed fmt p).
Proof. destruct fmt; cbn; [apply uyvy_bytes|apply rgb565_bytes|done|constructor]. Qed.

Section Props.
Context {K : Type} {J : Jpeg K}.
Local Abbreviation S_ := (jsys K).

(** ** Calls and jumps *)

Lemma jlib_spec {A} (c : M K A) (P : A -> K -> Prop) (s : S_) (Q : A -> S_ -> Prop) : wp c P (js_lib s) -> (forall a k, P a k -> Q a (JSys k (js_info s) (js_dst s) (js_pos s))) -> wp (jlib c) Q s.
Proof. unfold wp, jlib. destruct (c (js_lib s)); naive_solver. Qed.
Lemma tried_spec {A B} (c : M S_ (ev A)) (k : A -> M S_ (ev B)) (s : S_) Q : wp c (fun r s' => match r with Val a => wp (k a) Q s' | Longjmp => Q Longjmp s' end) s -> wp (tried c k) Q s.
Proof. intros H. apply wp_bind. eapply wp_mono; [exact H|]. cbv beta. intros [a|] s' H'; [done|by apply wp_ret]. Qed.

(** The calls that failed; the decompressor is released, and the rest is as before. *)
Definition errs (s : S_) : nat := jpeg_errors (js_lib s).
Definition released (s s' : S_) : Prop := errs s' = errs s /\ jpeg_state (js_lib s') = JNone /\ js_info s' = js_info s /\ js_dst s' = js_dst s.
Lemma destroy_spec (s : S_) (Q : unit -> S_ -> Prop) : (forall s', released s s' -> Q tt s') -> wp (jlib jpeg_destroy_decompress) Q s.
Proof. intros HQ. eapply jlib_spec; [apply destroy_ok|]. cbv beta. intros [] k [E1 E2]. by apply HQ. Qed.
Lemma jpeg_leave_spec e (s : S_) (Q : ev OPERATE_RET -> S_ -> Prop) : (forall s', released s s' -> Q (Val e) s') -> wp (leave_with e) Q s.
Proof. intros HQ. apply wp_bind, destroy_spec. intros s' H. by apply wp_ret, HQ. Qed.

(** ** Storing *)

(** The buffer [buf] with [o] stored at its start, and [w] after it where no step forward has
    been made yet. *)
Definition stored (buf o w : list Z) (s s' : S_) : Prop := js_dst s' = o ++ w ++ drop (length o + length w) buf /\ js_pos s' = length o /\ (length o + length w <= length buf)%nat /\ js_lib s' = js_lib s /\ js_info s' = js_info s.

Lemma store_spec buf o w bs (s0 s : S_) (Q : unit -> S_ -> Prop) off : stored buf o w s0 s -> off = length w -> (length o + length w + length bs <= length buf)%nat ->
  (forall s', stored buf o (w ++ bs) s0 s' -> Q tt s') -> wp (store_at off bs) Q s.
Proof.
  intros (Ed & Ep & Hl & Ek & Ei) -> Hlen HQ. unfold wp, store_at. rewrite Ep, Ed. rewrite !length_app, length_drop. rewrite (proj2 (Nat.leb_le _ _)) by lia. apply HQ. unfold stored. cbn [js_dst js_pos js_lib js_info]. split; [|rewrite length_app; (repeat split; auto; lia)].
  rewrite (app_assoc o w), <-length_app, take_app_length, <-!app_assoc. do 3 f_equal. replace (length (o ++ w) + length bs)%nat with (length bs + length (o ++ w))%nat by lia. rewrite (app_assoc o w), drop_app_ge by lia. rewrite Nat.add_sub, drop_drop. f_equal. rewrite !length_app. lia.
Qed.
Lemma advance_spec buf o w (s0 s : S_) (Q : unit -> S_ -> Prop) n : stored buf o w s0 s -> n = length w -> (forall s', stored buf (o ++ w) [] s0 s' -> Q tt s') -> wp (advance n) Q s.
Proof. intros (Ed & Ep & Hl & Ek & Ei) -> HQ. apply wp_modify, HQ. unfold stored. cbn. rewrite Ed, Ep, !length_app, Nat.add_0_r, <-app_assoc. repeat split; auto. Qed.
Lemma put_byte_spec buf o b (s0 s : S_) (Q : unit -> S_ -> Prop) : stored buf o [] s0 s -> (length o < length buf)%nat -> (forall s', stored buf (o ++ [b]) [] s0 s' -> Q tt s') -> wp (put_byte b) Q s.
Proof. intros H Hl HQ. apply wp_bind. eapply store_spec; [exact H|done|cbn; lia|]. intros s1 H1. by eapply advance_spec. Qed.

Lemma src_at_spec src pre p i x n (s : S_) (Q : Z -> S_ -> Prop) : src = pre ++ p -> p !! i = Some x -> n = Z.of_nat (length pre + i) -> n < 4294967296 -> Q x s -> wp (src_at src (u32 n)) Q s.
Proof. intros -> Hx -> Hn HQ. unfold src_at. rewrite u32_small by lia. rewrite Nat2Z.id, lookup_app_r, Nat.add_comm, Nat.add_sub by lia. rewrite Hx. by apply wp_ret. Qed.

Lemma mean_u8 a b : is_byte a -> is_byte b -> u8 (Z.shiftr (a + b) 1) = (a + b) / 2.
Proof. unfold is_byte. intros Ha Hb. rewrite Z.shiftr_div_pow2 by lia. change (2 ^ 1) with 2. apply u8_small. split; [apply Z.div_pos|apply Z.div_lt_upper_bound]; lia. Qed.

(** Reading number [i] of what is left of a row. *)
Local Ltac rd E i := eapply wp_bind, (src_at_spec _ _ _ i); [exact E|reflexivity|lia|lia|].

Lemma yuv_loop_spec buf src width fuel : width <= 65500 -> Forall is_byte src -> forall pre p x o (s0 s : S_) (Q : unit -> S_ -> Prop), src = pre ++ p -> Z.of_nat (length pre) = 3 * x -> Z.of_nat (length p) = 3 * (width - x) -> 0 <= x <= width -> (width - x) mod 2 = 0 -> (Z.to_nat (width - x) < fuel)%nat ->
  stored buf o [] s0 s -> Z.of_nat (length o) + 2 * (width - x) <= Z.of_nat (length buf) -> (forall s', stored buf (o ++ uyvy p) [] s0 s' -> Q tt s') -> wp (yuv_loop fuel src x width) Q s.
Proof.
  intros Hw Hb. induction fuel as [|fuel IH]; intros pre p x o s0 s Q E Epre Ep Hx Hm Hf Hs Hl HQ; [lia|]. cbn [yuv_loop]. destruct (Z.ltb_spec x width) as [Hlt|].
  2:{ apply wp_ret, HQ. destruct p; [by rewrite app_nil_r|cbn in Ep; lia]. }
  assert (2 <= width - x) by (destruct (decide (width - x = 1)) as [G1|]; [rewrite G1 in Hm; done|lia]). destruct p as [|y0 [|u0 [|v0 [|y1 [|u1 [|v1 p]]]]]]; cbn [length] in Ep; try lia.
  assert (Forall is_byte (y0 :: u0 :: v0 :: y1 :: u1 :: v1 :: p)) as Hp by (rewrite E in Hb; by apply Forall_app in Hb as [_ Hb]). rewrite !Forall_cons in Hp. destruct Hp as (? & ? & ? & ? & ? & ? & _).
  rd E 0%nat. rd E 1%nat. rd E 2%nat. rd E 3%nat. rd E 4%nat. rd E 5%nat. rewrite !mean_u8 by done.
  apply wp_bind, (put_byte_spec buf o _ s0); [done|lia|]. intros s1 G1. apply wp_bind, (put_byte_spec buf _ _ s0 _ _ G1); [rewrite length_app; cbn; lia|]. intros s2 G2. apply wp_bind, (put_byte_spec buf _ _ s0 _ _ G2); [rewrite !length_app; cbn; lia|]. intros s3 G3. apply wp_bind, (put_byte_spec buf _ _ s0 _ _ G3); [rewrite !length_app; cbn; lia|]. intros s4 G4.
  rewrite <-!app_assoc in G4. cbn [app] in G4. rewrite u32_small by lia. eapply (IH (pre ++ [y0; u0; v0; y1; u1; v1]) p (x + 2) _ s0); [by rewrite <-app_assoc|rewrite length_app; cbn; lia|lia|lia| |lia|exact G4|rewrite length_app; cbn; lia|].
  - replace (width - (x + 2)) with (width - x + (-1) * 2) by lia. by rewrite Z.mod_add.
  - intros s' H'. apply HQ. rewrite <-app_assoc in H'. exact H'.
Qed.

Lemma rgb565_loop_spec buf o src width fuel : width <= 65500 -> Forall is_byte src -> forall pre p x w (s0 s : S_) (Q : unit -> S_ -> Prop), src = pre ++ p -> Z.of_nat (length pre) = 3 * x -> Z.of_nat (length p) = 3 * (width - x) -> 0 <= x <= width -> (Z.to_nat (width - x) < fuel)%nat -> Z.of_nat (length w) = 2 * x ->
  stored buf o w s0 s -> Z.of_nat (length o) + 2 * width <= Z.of_nat (length buf) -> (forall s', stored buf o (w ++ rgb565 p) s0 s' -> Q tt s') -> wp (rgb565_loop fuel src x width) Q s.
Proof.
  intros Hwd Hb. induction fuel as [|fuel IH]; intros pre p x w s0 s Q E Epre Ep Hx Hf Hw Hs Hl HQ; [lia|]. cbn [rgb565_loop]. destruct (Z.ltb_spec x width) as [Hlt|].
  2:{ apply wp_ret, HQ. destruct p; [by rewrite app_nil_r|cbn in Ep; lia]. }
  destruct p as [|r [|g [|b p]]]; cbn [length] in Ep; try lia. assert (Forall is_byte (r :: g :: b :: p)) as Hp by (rewrite E in Hb; by apply Forall_app in Hb as [_ Hb]). rewrite !Forall_cons in Hp. destruct Hp as (? & ? & ? & _). rd E 0%nat. rd E 1%nat. rd E 2%nat. cbv zeta. rewrite rgb565_packs by done.
  apply wp_bind. eapply store_spec; [exact Hs|lia|cbn; lia|]. intros s1 G1. rewrite u32_small by lia. eapply (IH (pre ++ [r; g; b]) p (x + 1)); [by rewrite <-app_assoc|rewrite length_app; cbn; lia|lia|lia|lia| |exact G1|lia|].
  - rewrite length_app. cbn. lia.
  - intros s' H'. apply HQ. rewrite <-app_assoc in H'. exact H'.
Qed.

(** ** Rows *)

Lemma stored_new (s : S_) : js_pos s = 0%nat -> stored (js_dst s) [] [] s s.
Proof. intros E. unfold stored. cbn. rewrite E. repeat split; auto. lia. Qed.

Lemma packed_length fmt row w : fmt <> JPEG_DEC_OUT_UNKNOWN -> 0 <= w -> Z.of_nat (length row) = 3 * w -> (fmt = JPEG_DEC_OUT_YUV422 -> w mod 2 = 0) -> Z.of_nat (length (packed fmt row)) = depth fmt * w.
Proof.
  intros Hf Hw Hl He. destruct fmt; [| | |done]; cbn [packed depth].
  - specialize (He eq_refl). pose proof (Z.div_mod w 2 ltac:(lia)). rewrite (uyvy_length row (Z.to_nat (w / 2))); lia.
  - rewrite (rgb565_length row (Z.to_nat w)); lia.
  - done.
Qed.

Lemma pack_row_spec fmt buf row w o (s0 s : S_) (Q : unit -> S_ -> Prop) : fmt <> JPEG_DEC_OUT_UNKNOWN -> 1 <= w <= 65500 -> Z.of_nat (length row) = 3 * w -> Forall is_byte row -> (fmt = JPEG_DEC_OUT_YUV422 -> w mod 2 = 0) -> stored buf o [] s0 s -> Z.of_nat (length o) + depth fmt * w <= Z.of_nat (length buf) ->
  (forall s', stored buf (o ++ packed fmt row) [] s0 s' -> Q tt s') -> wp (pack_row fmt row w) Q s.
Proof.
  intros Hf Hw Hl Hb He Hs Hbuf HQ. pose proof (packed_length fmt row w Hf ltac:(lia) Hl He) as Hp. destruct fmt; [| | |done]; cbn [pack_row packed depth] in *.
  - eapply (yuv_loop_spec buf row w _ ltac:(lia) Hb [] row 0 o); [done|done|lia|lia|rewrite Z.sub_0_r; auto|lia|exact Hs|lia|exact HQ].
  - apply wp_bind. eapply (rgb565_loop_spec buf o row w _ ltac:(lia) Hb [] row 0 []); [done|done|lia|lia|lia|done|exact Hs|lia|]. intros s1 H1. rewrite u32_small by lia. eapply advance_spec; [exact H1|cbn; lia|exact HQ].
  - apply wp_bind. unfold copy_row. rewrite u32_small by lia. rewrite (proj2 (Z.ltb_ge _ _)), take_ge by lia. eapply store_spec; [exact Hs|done|cbn; lia|]. intros s1 H1. eapply advance_spec; [exact H1|cbn; lia|exact HQ].
Qed.

(** What is stored when the rows before [n] have been packed, and nothing else. *)
Definition holds (fmt : JPEG_DEC_OUT_FMT) (rows : list (list Z)) (n : nat) (buf dst : list Z) : Prop := let o := concat (packed fmt <$> take n rows) in dst = o ++ drop (length o) buf /\ (length o <= length buf)%nat.

Definition rows_post (fmt : JPEG_DEC_OUT_FMT) (rows : list (list Z)) (buf : list Z) (e0 : nat) (i : TKL_JPEG_CODEC_INFO_T) (r : ev OPERATE_RET) (s' : S_) : Prop :=
  js_info s' = i /\ exists n, holds fmt rows n buf (js_dst s') /\
    match r with
    | Longjmp => (e0 < errs s')%nat \/ fmt = JPEG_DEC_OUT_UNKNOWN /\ (1 < length rows)%nat
    | Val e => jpeg_state (js_lib s') = JNone /\ ((e = OPRT_COM_ERROR /\ (e0 < errs s')%nat) \/ (e = OPRT_OK /\ errs s' = e0 /\ fmt <> JPEG_DEC_OUT_UNKNOWN /\ n = length rows) \/ (e = OPRT_NOT_SUPPORTED /\ fmt = JPEG_DEC_OUT_UNKNOWN /\ length rows = 1%nat))
    end.

Lemma finish_spec e (s : S_) (Q : ev OPERATE_RET -> S_ -> Prop) :
  (forall s', js_info s' = js_info s -> js_dst s' = js_dst s -> (errs s <= errs s')%nat -> ((errs s < errs s')%nat \/ forall rows w h i, jpeg_state (js_lib s) = JRows rows w h i -> (i < length rows)%nat) -> Q Longjmp s') ->
  (forall s', released s s' -> (forall rows w h i, jpeg_state (js_lib s) = JRows rows w h i -> (length rows <= i)%nat) -> Q (Val e) s') -> wp (finish_with e) Q s.
Proof.
  intros HL HV. apply tried_spec. eapply jlib_spec; [apply finish_ok|]. cbv beta. intros [[]|] k H.
  - destruct H as [He Hall]. apply jpeg_leave_spec. intros s' (E1 & E2). apply HV; [split; [rewrite E1; exact He|exact E2]|exact Hall].
  - apply HL; [done|done| |]; unfold errs; cbn; [lia|]. destruct H as [H|[_ H]]; auto.
Qed.

Lemma row_loop_spec fmt rows w h buf inf : 1 <= w <= 65500 -> 1 <= h <= 65500 -> Z.of_nat (length rows) = h -> Forall (fun r => Z.of_nat (length r) = 3 * w /\ Forall is_byte r) rows -> (fmt = JPEG_DEC_OUT_YUV422 -> w mod 2 = 0) -> depth fmt * w * h <= Z.of_nat (length buf) ->
  forall fuel i e0 (s : S_), jpeg_state (js_lib s) = JRows rows w h i -> errs s = e0 -> (i <= length rows)%nat -> (length rows - i < fuel)%nat -> (fmt = JPEG_DEC_OUT_UNKNOWN -> i = 0%nat) -> js_info s = inf -> stored buf (concat (packed fmt <$> take i rows)) [] s s -> Z.of_nat (length (concat (packed fmt <$> take i rows))) <= depth fmt * w * Z.of_nat i ->
  wp (row_loop fuel fmt (Z.of_nat i) w h) (rows_post fmt rows buf e0 inf) s.
Proof.
  intros Hw Hh Hrows Hok He Hbuf. induction fuel as [|fuel IH]; intros i e0 s Es Ee Hi Hf Hu Einf Hs Ho; [lia|]. cbn [row_loop]. assert (holds fmt rows i buf (js_dst s)) as Hh0 by (destruct Hs as (-> & _ & Hl & _); unfold holds; cbn in *; rewrite Nat.add_0_r in *; done).
  destruct (Z.ltb_spec (Z.of_nat i) h) as [Hlt|Hge].
  2:{ apply finish_spec; [intros s' E1 E2 _ Ef; split; [congruence|exists i; rewrite E2; split; [done|left]]; destruct Ef as [Ef|Ef]; [lia|specialize (Ef _ _ _ _ Es); lia]|]. intros s' (E0 & E1 & E2 & E3) _. split; [congruence|]. exists i. rewrite E3. split; [done|]. split; [done|]. right; left. split; [done|]. split; [lia|]. split; [|lia]. intros Hf'. specialize (Hu Hf'). lia. }
  destruct (lookup_lt_is_Some_2 rows i ltac:(lia)) as [row Erow]. destruct (Forall_lookup_1 _ _ _ _ Hok Erow) as [Hlen Hby]. apply tried_spec. eapply jlib_spec; [exact (read_scanlines_ok rows w h i row _ Es Erow)|]. cbv beta. intros [[n x]|] k Hk; [|split; [done|exists i; split; [done|left; unfold errs in *; cbn; lia]]]. cbn [fst snd]. destruct (Z.eqb_spec n 1) as [->|]; cbn [negb].
  2:{ apply finish_spec; [intros s' E1 E2 E4 _; split; [cbn in *; congruence|exists i; rewrite E2; split; [done|left; unfold errs in *; cbn in *; lia]]|]. intros s' (E0 & E1 & E2 & E3) _. split; [cbn in *; congruence|]. exists i. rewrite E3. split; [done|]. split; [done|left; split; [done|unfold errs in *; cbn in *; lia]]. }
  destruct Hk as (Ee1 & -> & Ek). set (s1 := JSys k (js_info s) (js_dst s) (js_pos s)). assert (stored buf (concat (packed fmt <$> take i rows)) [] s1 s1) as Hs1 by (destruct Hs as (? & ? & ? & _); unfold stored; cbn; auto). destruct (decide (fmt = JPEG_DEC_OUT_UNKNOWN)) as [Ef|Ef].
  { rewrite Ef. specialize (Hu Ef). apply finish_spec; [intros s' E1 E2 _ Em; split; [cbn in *; congruence|exists i; rewrite <-Ef, E2; split; [done|]]; destruct Em as [Em|Em]; [left; unfold errs in *; cbn in *; lia|right; split; [done|]; specialize (Em _ _ _ _ Ek); lia]|]. intros s' (E0 & E1 & E2 & E3) Hall. split; [cbn in *; congruence|]. exists i. rewrite E3, <-Ef. split; [done|]. split; [done|]. right; right. split; [done|]. split; [done|]. specialize (Hall rows w h (S i) Ek). lia. }
  assert (wp (pack_row fmt row w ;;; row_loop fuel fmt (u32 (Z.of_nat i + 1)) w h) (rows_post fmt rows buf e0 inf) s1) as Hgoal; [|by destruct fmt].
  assert (concat (packed fmt <$> take (S i) rows) = concat (packed fmt <$> take i rows) ++ packed fmt row) as Ec by (erewrite take_S_r by exact Erow; by rewrite fmap_app, concat_app; cbn; rewrite app_nil_r). pose proof (packed_length fmt row w Ef ltac:(lia) Hlen He) as Hp.
  apply wp_bind. assert (depth fmt * w * Z.of_nat i + depth fmt * w <= depth fmt * w * h) by (destruct fmt; cbn [depth]; nia). eapply (pack_row_spec fmt buf row w _ s1 s1); [done|lia|done|done|done|exact Hs1|nia|]. intros s2 Hs2. rewrite <-Ec in Hs2. rewrite u32_small by lia. replace (Z.of_nat i + 1) with (Z.of_nat (S i)) by lia.
  pose proof Hs2 as (E1 & E2 & E3 & E4 & E5). apply IH; [rewrite E4; exact Ek|unfold errs in *; rewrite E4; cbn; lia|lia|lia|done|rewrite E5; exact Einf|unfold stored; auto|]. rewrite Ec, length_app. nia.
Qed.

(** ** Whole images *)

Lemma setjmp_spec (body : M S_ (ev OPERATE_RET)) (s : S_) (Q : OPERATE_RET -> S_ -> Prop) :
  wp body (fun r s1 => match r with Val a => Q a s1 | Longjmp => forall s2, released s1 s2 -> Q OPRT_COM_ERROR s2 end) s -> wp (setjmp (jlib jpeg_destroy_decompress ;;; ret OPRT_COM_ERROR) body) Q s.
Proof. intros H. apply wp_bind. eapply wp_mono; [exact H|]. cbv beta. intros [a|] s1 H1; [by apply wp_ret|]. apply wp_bind, destroy_spec. intros s2 H2. by apply wp_ret, H1. Qed.

(** The header of the source has been read, or there was an error. *)
Lemma header_spec buf size (s : S_) {A} (k : Z -> M S_ (ev A)) (Q : ev A -> S_ -> Prop) : jpeg_state (js_lib s) = JNone -> size <= Z.of_nat (length buf) ->
  (forall s', js_info s' = js_info s -> js_dst s' = js_dst s -> (errs s < errs s')%nat -> Q Longjmp s') ->
  (forall r s', js_info s' = js_info s -> js_dst s' = js_dst s -> js_pos s' = js_pos s -> (if r =? JPEG_HEADER_OK then errs s' = errs s /\ exists w h, jpeg_size (take (Z.to_nat size) buf) = Some (w, h) /\ jpeg_dims (js_lib s') = (w, h) /\ jpeg_state (js_lib s') = JHeader (take (Z.to_nat size) buf) w h else (errs s < errs s')%nat) -> wp (k r) Q s') ->
  wp (tried (jlib jpeg_create_decompress) (fun _ => tried (source_of buf size) (fun _ => tried (jlib jpeg_read_header) k))) Q s.
Proof.
  intros E Hl HL HV. unfold errs in *. apply tried_spec. eapply jlib_spec; [by apply create_ok|]. cbv beta. intros [[]|] k1 H1; [|by apply HL]. destruct H1 as [E1 H1]. apply tried_spec. unfold source_of. rewrite (proj2 (Z.ltb_ge _ _)) by done. eapply jlib_spec; [by apply mem_src_ok|]. cbv beta. intros [[]|] k2 H2; [|apply HL; cbn in *; [done|done|lia]]. destruct H2 as [E2 H2].
  cbn [js_lib] in *. apply tried_spec. eapply jlib_spec; [exact (read_header_ok _ _ H2)|]. cbv beta. cbn [js_lib] in *. intros [r|] k3 H3; [|apply HL; cbn in *; [done|done|lia]]. apply HV; [done|done|done|]. destruct (r =? JPEG_HEADER_OK); cbn [js_lib]; [|lia]. destruct H3 as [H3 H4]. split; [lia|exact H4].
Qed.

Definition convert_post (fmt : JPEG_DEC_OUT_FMT) (d : list Z) (s : S_) (r : OPERATE_RET) (s' : S_) : Prop :=
  jpeg_state (js_lib s') = JNone /\
  ((r = OPRT_COM_ERROR /\ (errs s < errs s')%nat /\ js_info s' = js_info s /\ js_dst s' = js_dst s) \/
   exists w h rows n, jpeg_size d = Some (w, h) /\ jpeg_rows d (space fmt) = Some rows /\ js_info s' = mkInfo (out_fmt (js_info s)) w h (in_size (js_info s)) /\ holds fmt rows n (js_dst s) (js_dst s') /\
     ((r = OPRT_COM_ERROR /\ ((errs s < errs s')%nat \/ (fmt = JPEG_DEC_OUT_YUV422 /\ w mod 2 <> 0) \/ (fmt = JPEG_DEC_OUT_UNKNOWN /\ 1 < h))) \/ (r = OPRT_OK /\ errs s' = errs s /\ fmt <> JPEG_DEC_OUT_UNKNOWN /\ (fmt = JPEG_DEC_OUT_YUV422 -> w mod 2 = 0) /\ n = length rows) \/ (r = OPRT_NOT_SUPPORTED /\ fmt = JPEG_DEC_OUT_UNKNOWN /\ h = 1))).

Lemma convert_spec fmt buf (s : S_) : let d := take (Z.to_nat (in_size (js_info s))) buf in
  jpeg_state (js_lib s) = JNone -> js_pos s = 0%nat -> 0 < in_size (js_info s) <= Z.of_nat (length buf) -> (forall w h, jpeg_size d = Some (w, h) -> depth fmt * w * h <= Z.of_nat (length (js_dst s))) ->
  wp (tkl_jpeg_codec_convert (Some buf) true true fmt) (convert_post fmt d s) s.
Proof.
  intros d E0 Ep Hin Hroom. unfold tkl_jpeg_codec_convert. cbn [negb orb]. apply wp_bind, wp_gets. rewrite (proj2 (Z.eqb_neq _ _)) by lia. apply setjmp_spec.
  assert (forall s' : S_, js_info s' = js_info s -> js_dst s' = js_dst s -> (errs s < errs s')%nat -> forall s2, released s' s2 -> convert_post fmt d s OPRT_COM_ERROR s2) as Herr. { intros s' E1 E2 El s2 (E3 & E4 & E5 & E6). split; [done|]. left. by rewrite E3, E5, E6. }
  apply header_spec; [done|lia|exact Herr|]. intros r s1 Ei Ed Ep1 Hr. destruct (Z.eqb_spec r JPEG_HEADER_OK) as [->|]; cbn [negb]; [|apply jpeg_leave_spec; by apply Herr]. destruct Hr as (Ee & w & h & Esz & _ & Est). destruct (size_ok _ _ _ Esz) as [Hw Hh]. fold d in Esz, Est.
  apply tried_spec. eapply jlib_spec; [exact (start_ok _ _ _ (space fmt) _ Est)|]. cbv beta. unfold errs in Ee. intros [[]|] k2 H2; cbn [negb]; [|apply jpeg_leave_spec; intros s2 H; eapply Herr; [| | |exact H]; unfold errs; cbn; [done|done|lia]|apply Herr; unfold errs; cbn; [done|done|lia]]. destruct H2 as (Ee2 & rows & Erows & Eout & Est2). destruct (rows_ok _ _ _ _ _ Erows Esz) as [Hlen Hok].
  apply wp_bind, wp_gets. cbn [js_lib]. rewrite Eout. apply wp_bind, wp_modify. cbn [js_lib js_info js_dst js_pos]. rewrite Ei, Ed, Ep1, Ep. rewrite !(wrap_small 16) by (change (2 ^ 16) with 65536; lia).
  set (inf := mkInfo (out_fmt (js_info s)) w h (in_size (js_info s))). assert (forall n, holds fmt rows n (js_dst s) (js_dst s) -> forall s' : S_, js_info s' = inf -> js_dst s' = js_dst s -> ((errs s < errs s')%nat \/ (fmt = JPEG_DEC_OUT_YUV422 /\ w mod 2 <> 0)) -> forall s2, released s' s2 -> convert_post fmt d s OPRT_COM_ERROR s2) as Herr2.
  { intros n Hn s' E1 E2 Hc s2 (E3 & E4 & E5 & E6). split; [done|]. right. exists w, h, rows, n. rewrite E3, E5, E6, E1, E2. destruct Hc; auto 9. }
  assert (holds fmt rows 0 (js_dst s) (js_dst s)) as H0 by (split; [done|apply Nat.le_0_l]). destruct (bool_decide (fmt = JPEG_DEC_OUT_YUV422) && negb (w mod 2 =? 0)) eqn:Eodd.
  { apply finish_spec; [intros s' E1 E2 _ _; apply (Herr2 0%nat H0); [done|done|right]; apply andb_true_iff in Eodd as [Eo1 Eo2]; apply bool_decide_eq_true_1 in Eo1; apply negb_true_iff, Z.eqb_neq in Eo2; done|]. intros s' _ Hall. specialize (Hall rows w h 0%nat Est2). lia. }
  assert (fmt = JPEG_DEC_OUT_YUV422 -> w mod 2 = 0) as He. { intros Ef. rewrite (bool_decide_eq_true_2 _ Ef) in Eodd. cbn in Eodd. apply negb_false_iff, Z.eqb_eq in Eodd. exact Eodd. }
  apply tried_spec. eapply jlib_spec; [exact (alloc_ok _ _ _ Est2)|]. cbv beta. intros [[]|] k3 H3; [|apply (Herr2 0%nat H0); unfold errs; cbn in *; [done|done|left; lia]]. destruct H3 as [Ee3 H3]. cbn [js_info js_dst js_pos]. eapply wp_mono.
  - apply (row_loop_spec fmt rows w h (js_dst s) inf Hw Hh Hlen Hok He (Hroom w h Esz) _ 0%nat (errs s)); [exact H3|unfold errs; cbn in *; lia|lia|lia|done|done|by apply (stored_new (JSys k3 inf (js_dst s) 0))|by rewrite Z.mul_0_r].
  - cbv beta. intros [e|] s' (E1 & n & Hn & Hr).
    + destruct Hr as [Hr1 Hr2]. split; [done|]. right. exists w, h, rows, n. split; [done|]. split; [done|]. split; [done|]. split; [done|]. destruct Hr2 as [[-> H1]|[(-> & H1 & H2 & H3')|(-> & H1 & H2)]]; [by left; auto|right; left; auto|right; right]. split; [done|]. split; [done|lia].
    + intros s2 (E3 & E4 & E5 & E6). split; [done|]. right. exists w, h, rows, n. rewrite E3, E5, E6. split; [done|]. split; [done|]. split; [done|]. split; [done|]. left. split; [done|]. destruct Hr as [Hr|[Hr1 Hr2]]; [by left|right; right]. split; [done|lia].
Qed.

(** C21: decoding an image.  Given a source of the claimed size and a buffer with room for the
    image, the function returns, and the decompressor is released on every path, errors that
    jump out of libjpeg included.  When it reports success, the structure has the width and
    the height of the image and the buffer starts with its rows, packed as asked for: pairs of
    pixels as U, Y, V, Y with the means of their colours (the width is even), 5, 6 and 5 bits
    with the low byte first, or three bytes; the rest of the buffer is as before; and no call
    of libjpeg has failed.  [OPRT_COM_ERROR] comes from a call that failed, from an odd width
    or from an unknown format with more than one row, with some first rows in the buffer; an
    unknown format and an image of one row give [OPRT_NOT_SUPPORTED]. *)
Theorem jpeg_convert_correct fmt buf (s : S_) : let d := take (Z.to_nat (in_size (js_info s))) buf in
  jpeg_state (js_lib s) = JNone -> js_pos s = 0%nat -> 0 < in_size (js_info s) <= Z.of_nat (length buf) -> (forall w h, jpeg_size d = Some (w, h) -> depth fmt * w * h <= Z.of_nat (length (js_dst s))) ->
  wp (tkl_jpeg_codec_convert (Some buf) true true fmt) (fun r s' => jpeg_state (js_lib s') = JNone /\
    ((r = OPRT_COM_ERROR /\ (errs s < errs s')%nat /\ js_info s' = js_info s /\ js_dst s' = js_dst s) \/
     exists w h rows n, jpeg_size d = Some (w, h) /\ jpeg_rows d (space fmt) = Some rows /\ js_info s' = mkInfo (out_fmt (js_info s)) w h (in_size (js_info s)) /\
       js_dst s' = concat (packed fmt <$> take n rows) ++ drop (length (concat (packed fmt <$> take n rows))) (js_dst s) /\ (length (concat (packed fmt <$> take n rows)) <= length (js_dst s))%nat /\
       ((r = OPRT_COM_ERROR /\ ((errs s < errs s')%nat \/ (fmt = JPEG_DEC_OUT_YUV422 /\ w mod 2 <> 0) \/ (fmt = JPEG_DEC_OUT_UNKNOWN /\ 1 < h))) \/ (r = OPRT_OK /\ errs s' = errs s /\ fmt <> JPEG_DEC_OUT_UNKNOWN /\ (fmt = JPEG_DEC_OUT_YUV422 -> w mod 2 = 0) /\ n = length rows) \/ (r = OPRT_NOT_SUPPORTED /\ fmt = JPEG_DEC_OUT_UNKNOWN /\ h = 1)))) s.
Proof.
  intros d E0 Ep Hin Hroom. eapply wp_mono; [by apply convert_spec|]. intros r s' [H1 [H2|(w & h & rows & n & H2 & H3 & H4 & [H5 H6] & H7)]]; (split; [done|]); [by left|]. right. exists w, h, rows, n. auto 6.
Qed.

(** The header of an image: the sizes are those of the image, and the decompressor is released
    whatever happens. *)
Theorem jpeg_info_correct buf size (s : S_) : jpeg_state (js_lib s) = JNone -> 0 < size <= Z.of_nat (length buf) ->
  wp (tkl_jpeg_codec_img_info_get (Some buf) size true) (fun r s' => jpeg_state (js_lib s') = JNone /\ js_dst s' = js_dst s /\
    ((r = OPRT_COM_ERROR /\ (errs s < errs s')%nat /\ js_info s' = js_info s) \/ exists w h, r = OPRT_OK /\ errs s' = errs s /\ jpeg_size (take (Z.to_nat size) buf) = Some (w, h) /\ js_info s' = mkInfo TUYA_FRAME_FMT_JPEG w h size)) s.
Proof.
  intros E0 Hin. unfold tkl_jpeg_codec_img_info_get. rewrite (proj2 (Z.eqb_neq _ _)) by lia. cbn [negb orb]. apply setjmp_spec. apply header_spec; [done|lia|intros s' E1 E2 El s2 (E3 & E4 & E5 & E6); rewrite E3, E5, E6; auto 6|]. intros r s1 Ei Ed Ep1 Hr. destruct (Z.eqb_spec r JPEG_HEADER_OK) as [->|]; cbn [negb].
  - destruct Hr as (Ee & w & h & Esz & Edim & _). destruct (size_ok _ _ _ Esz) as [Hw Hh]. apply wp_bind, wp_gets, wp_bind, wp_modify, wp_bind, destroy_spec. intros s2 (E3 & E4 & E5 & E6). apply wp_ret. rewrite E3, E5, E6. cbn [js_info js_dst]. rewrite Edim. cbn [fst snd]. rewrite !(wrap_small 16) by (change (2 ^ 16) with 65536; lia). split; [done|]. split; [done|]. right. by exists w, h.
  - apply jpeg_leave_spec. intros s2 (E3 & E4 & E5 & E6). rewrite E3, E5, E6. auto 6.
Qed.
End Props.

(** ** An image of two pixels *)

Definition demo_jsys : jsys (dstate * nat) := JSys (JNone, 0%nat) (mkInfo TUYA_FRAME_FMT_UNKNOWN 0 0 3) (replicate 6 7) 0.
Lemma demo_room fmt w h : jpeg_size (take (Z.to_nat (in_size (js_info demo_jsys))) demo_data) = Some (w, h) -> depth fmt * w * h <= Z.of_nat (length (js_dst demo_jsys)).
Proof. intros E. vm_compute in E. injection E as <- <-. destruct fmt; cbn; lia. Qed.

Lemma jpeg_convert_correct_witness :
  wp (tkl_jpeg_codec_convert (Some demo_data) true true JPEG_DEC_OUT_YUV422) (fun r s' => jpeg_state (js_lib s') = JNone) demo_jsys /\
  wp (tkl_jpeg_codec_convert (Some demo_data) true true JPEG_DEC_OUT_YUV422) (fun r s' => r = OPRT_OK /\ js_dst s' = [35; 10; 45; 40; 7; 7]) demo_jsys /\
  wp (tkl_jpeg_codec_convert (Some demo_data) true true JPEG_DEC_OUT_RGB565) (fun r s' => r = OPRT_OK /\ js_dst s' = [1; 248; 8; 17; 7; 7]) demo_jsys.
Proof.
  split; [|by vm_compute]. eapply wp_mono.
  - refine (jpeg_convert_correct JPEG_DEC_OUT_YUV422 demo_data demo_jsys _ _ _ (demo_room _)); [reflexivity|reflexivity|cbn; lia].
  - cbv beta. intros r s' H. exact (proj1 H).
Defined.
